(* ===== verification/_CoqProject ===== *)
-Q . S2P
Prelude.v
GoStrings.v
GoBase64.v
GoJson.v
GoTime.v
Prog.v
GoNet.v
BatchTypes.v
BatchStore.v
BatchView.v
BatchManager.v
BatchAdvance.v
BatchSettle.v
BatchJob.v
BatchSettleSafety.v
BatchStatusSafety.v
BatchRelease.v
BatchCancelSafety.v
BatchSettleSpec.v
BatchJobSpec.v
BatchQuerySpec.v
QuotaModel.v
QuotaManager.v
QuotaSafety.v
QuotaSpec.v
EppPool.v
EppAssign.v
EppReconcile.v
EppPatch.v
EppConfig.v
XCrypto.v
XCryptoSpec.v
Security.v
KeyRotate.v
KeyRotateSpec.v
KeyRotateLock.v
VersionControl.v
SharedTypes.v
Validate.v
ValidateSpec.v
OwnerModel.v
OwnerCommon.v
EntityManager.v
ApiKeyManager.v
OwnerEndpoints.v
EntityRequests.v
EntitySpec.v
EntityForest.v
RateLimitSpec.v
OwnerAtomic.v
ApiKeySpec.v
OperLog.v
OperLogStore.v
OperLogTotals.v
OperLogWorker.v
AuthModel.v
AuthManager.v
AuthEndpoints.v
AuthInvariant.v
AuthHistory.v
AuthLogin.v
AuthAtomic.v
AuthAccess.v
ProviderModel.v
ClusterModel.v
ProviderManager.v
ClusterManager.v
ConfEndpoints.v
ConfEffect.v
ConfSound.v
ConfClusters.v
ConfSpec.v
ConfHistory.v
PriceModel.v
PriceSpec.v
RouteModel.v
ClusterExport.v
ExportSpec.v
GateModel.v
GateSpec.v
