(* ===== verification/Prelude.v ===== *)
(** * A verification library for the AI gateway control plane

    The program under [src/] is the control plane of an AI gateway: a Go
    service that keeps the configuration of products, providers, API keys and
    quota plans in MySQL (or SQLite), mirrors counters and task hashes in
    Redis, and runs background jobs beside its HTTP endpoints.  This library
    models the parts that keep shared state consistent while several
    instances, users and the gateway itself act on it at once:

    - _batch tasks_ ([src/model/ibatch], [src/storage/rdb/batch] and its DAO):
      asynchronous batches that the gateway submits to a provider.  The
      gateway reserves quota and writes a task hash to Redis; the control plane
      copies the hashes to [batch_tasks], lets users list and cancel tasks,
      polls the provider, and when a task ends downloads the result file, adds
      up its usage, settles the price and releases the reservation;
    - _quota plans_ ([src/model/quota], [src/model/quotacache],
      [src/storage/rdb/quota] and its DAO): plans with an amount and a reset
      period, whose remaining amount is a Redis counter per API key and
      entity; counters are reset by hand, moved when a plan changes, and
      refilled once per week or month by a scheduler under a Redis lock;
    - _EPP pools_ ([src/model/epp_pool], [src/storage/rdb/epp_pool] and its
      DAO): groups of endpoint pickers, the assignment of clusters to groups
      by an allocator, its repair when the pool is replaced, and the compiler
      of the scheduling configuration of a cluster;
    - _secrets_ ([src/lib/xcrypto], [src/stateful/security.go],
      [src/model/keyrotate], [src/storage/rdb/keyrotate]): envelopes and
      keyrings for encrypted columns, their loading and reloading, and the
      sweeps that re-encrypt or decrypt the columns of a running service;
    - _owners_ ([src/model/entity], [src/model/api_key],
      [src/model/rate_limit_policy], their storage, DAO and HTTP endpoints):
      the entities of an organisation, a tree whose levels are given by entity
      types, and the API keys that belong to them; both own a quota plan and a
      rate limit policy, which are created, replaced and removed with them, and
      the keys of rate limits that the gateway counts along the chain of
      ancestors;
    - _model prices_ ([src/model/imodel_price], [src/storage/rdb/model_price],
      [src/endpoints/openapi_v1/model_price]): what a provider charges for a
      model, kept row by row or imported as a list;
    - _domains and route rules of products_ ([src/model/iroute_conf],
      [src/storage/rdb/route_conf]): host names, and which cluster a request
      of a product goes to;
    - _route rules_ ([src/model/route_rules], [src/storage/rdb/route_rules] and
      their endpoints): the tables of rules that keys, entities and the whole
      service own;
    - _tokens_ ([src/model/imods], [src/model/iai_route]): what the gateway
      fetches about API keys, with their models, plans and tags, and the tables
      of route rules that each key is bound to;
    - _exports_ ([src/model/iroute_conf/exporter.go],
      [src/model/icluster_conf/exporter.go] and [NewBfeClusterConf];
      [src/model/iversion_control], [src/storage/rdb/version_control]): the
      configuration that the gateway fetches, made from the rows of the
      components above, and the versions under which it fetches it;
    - _operation log_ ([src/model/ioperlog], [src/storage/rdb/ioperlog],
      [src/endpoints/openapi_v1/operation_log]): the audit records that the
      managers write, buffered by a worker, and their query with a cache of
      totals;
    - _users and tokens_ ([src/model/iauth], [src/storage/rdb/auth],
      [src/endpoints/openapi_v1/auth], [src/middleware/user_probe.go]): who may
      call the service, by password, session key or token, and what for;
    - _providers and clusters_ ([src/model/iprovider],
      [src/model/icluster_conf], [src/model/ik8s_pool], their storage, DAO and
      HTTP endpoints): the providers of models with their keys, prices of the
      day and instances, given by hand or reported from Kubernetes; the
      clusters that send traffic to a provider; and the pools behind the
      clusters, into which the instances of the provider are copied;
    - _requests_ ([src/lib/validate], [src/model/shared]): the validators of
      everything that users submit, and the keys of rate limit counters.

    ** How code becomes definitions

    [Prelude] holds results and errors; [GoStrings], [GoBase64], [GoJson],
    [GoTime] and [GoNet] hold what the
    code uses of Go's standard library: byte strings and number formats,
    base64, the JSON text grammar with decoding into structs, RFC 3339, the
    calendar in a zone, float64, durations as text, and IP literals.  int64 arithmetic wraps
    ([wrap64]); float64 is [SpecFloat] with 53 bits of precision.

    [Prog] holds the effectful part.  A function that touches the database,
    Redis, HTTP or the clock is a program: a tree of calls.  One call is one
    SQL statement, one Redis command or script, one HTTP exchange or one
    reading of the clock, and is atomic, as it is there.  The class [Interp]
    says what a call does to a world and what it answers when it fails.
    [exec os p w] runs [p] alone and lets its calls fail as the list [os]
    says: a call may succeed, fail before its effect, or fail after it
    (a lost answer).  [interleave sched pool w] runs any number of programs
    step by step in the order of [sched].  [all_calls], [guarded] and
    [for_each] with their rules carry invariants through programs, so that a
    theorem on all interleavings reduces to a fact about single calls.
    It also has the interface between managers and database: [AtomExecute] over
    the calls of a [TxnCalls] instance, and the class [Transactional] of what
    a database promises, from which atomicity is proved once and used by the
    quota and the pool manager, the sweeps and the exports; and triples ([hoare])
    for programs that run alone.  A program of one component runs in the world
    of another that has it as a part: [Embeds] says where its calls and its
    world are, and [lifted] programs behave there as they do alone, so that
    an export reads the tables of five components through their own storages.

    ** Which file models what

    - [BatchTypes]: [types.go], [errors.go], [redis_keys.go].
    - [BatchStore]: [storager.go] (the calls [batchE]), [redis_adapter.go], the
      statements of [storage/rdb/batch] and [internal/dao/table_batch_*.go] as
      functions on rows, and the [world]: rows, Redis hashes, claims and
      reservation counters, providers, HTTP answers, clock and log.
    - [BatchView]: [redis_view.go], the hash of a task parsed and merged.
    - [BatchManager]: [manager.go], [sync.go] and the provider access and
      [releaseReserve] of [cancel.go].
    - [BatchAdvance], [BatchSettle], [BatchJob]: [cancel.go] and [advance.go],
      [settle.go], [job.go].
    - [QuotaModel]: [quota_plan.go], [storage/rdb/quota], the DAO of
      [quota_plans], the lock scripts of [lock.go], the calls [quotaE] and
      the world [qworld].
    - [QuotaManager]: [quotacache/redis.go], [quota_plan_manager.go],
      [balance_sync.go], [scheduler.go], [operation_log.go].
    - [EppPool]: the data of [epp_pool.go], the two tables with their unique
      keys, the calls [eppE] and the world [eworld]; [epp_pool.go], [assignment.go], [UpsertAssignment] of the
      storage, and the checks of hosts and ports of [epp_config.go].
    - [EppConfig]: [epp_config.go] and [compiler.go].
    - [Prog]: [RDBTxnExecute] and [commitOrRollback] of [lib/xdb.go].
    - [XCrypto]: [envelope.go], [keyring.go], [password.go]; the ciphers and
      hashes are the class [Crypto], what is known of them [CryptoLaws].
    - [Security]: [stateful/security.go], the two rings of a process.
    - [KeyRotate]: [model/keyrotate] and its storage: tasks, the lock row, pages
      of rows, the calls [sweepE] and the world [sworld].
    - [VersionControl]: [iversion_control], its storage and the table
      [config_versions], read through the snapshot of a transaction.
    - [OwnerModel]: the data of entities, entity types, API keys, policies and
      plans as their owners see them, the DAO of their tables as functions on
      rows, the calls [ownerE] (one per storager method, since each runs one
      statement, and the calls of the quota plan manager through [quotaE]) and
      the world [oworld], whose [odata] is what a transaction rolls back.
    - [OwnerCommon]: [rate_limit_policy_manager.go], the removal of counters, the
      walk along the ancestors, and the export to the gateway; the helpers that entities and keys share: creating, changing
      and deleting nested plans, policies and route rules, audit records.
    - [EntityManager]: [entity_manager.go], [entity_type_manager.go] and
      [operation_log.go]; [ApiKeyManager]: [api_key.go], its manager and the
      generation of keys.
    - [OwnerEndpoints]: [endpoints/openapi_v1/entity],
      [entity_type] and [api_key]: validation of requests, then the manager.
    - [SharedTypes]: the parameter records of [model/shared]
      and [icluster_conf], and [rate_limit_redis_key.go].
    - [OperLog]: the records and queries of [model/ioperlog];
      [OperLogStore]: its table and the cache of totals; [OperLogWorker]: the
      worker that gathers records into batches.
    - [AuthModel]: the data of [iauth], [storage/rdb/auth] and its
      tables, with the calls and the world, and the tables of
      features, roles and actions; [AuthManager]: [authentication.go] and
      [authorization.go]; [AuthEndpoints]: [endpoints/openapi_v1/auth];
      which requests there are, the probe of the visitor, the
      check of the endpoint's authorizer, and then the handler.
    - [ProviderModel]: the data of [provider.go] with its validators and
      defaults; [ClusterModel]: the data of [icluster_conf] and the six tables,
      with the calls [confE] and the world [cworld], whose [cdata] is what a
      transaction rolls back; [ProviderManager]: [storage/rdb/provider],
      [storage/rdb/cluster_conf], [storage/rdb/k8s_pool], and the manager of
      providers; [ClusterManager]: [cluster.go], [epp.go], [epp_runtime.go],
      the checkers of [route_rules.go] and [route_rule.go], and
      [k8s_pool.go]; [ConfEndpoints]: [endpoints/openapi_v1/provider],
      [product_cluster] and [endpoints/innerapi_v1/k8s_pools], as one type of
      requests.
    - [PriceModel]: [model/imodel_price], its storage, table and endpoints, with
      the calls [priceE] and the world [pworld]; a request is a value and
      [serve_price] its handler.
    - [RouteModel]: [domain.go] and [route_rule.go] of [iroute_conf], their
      storages and tables, and the tables of hosts and rules that are
      exported; its world has that of the clusters as a part.
    - [ClusterExport]: the configuration of a cluster ([NewBfeClusterConf],
      [newAIConf], [buildModelTableModels] of [cluster.go]), the export of
      routes, and the tables of backends and of traffic; the calls [exportE]
      are those of routes and clusters, prices and EPP pools.
    - [GateModel]: [model/route_rules] with its storage and endpoints, the
      conditions of [iai_route], and [exporter.go] and [ai_route_exporter.go]
      of [model/imods]; its world has that of the owners as a part.
    - [Validate]: [lib/validate/validate.go]; a validator answers with a
      verdict: accept, refuse with a message, or panic; and what the handlers of
      several endpoints share.

    Data keeps the names of the source with a prefix per record; functions keep
    their names.  A long function is cut where its branches share a
    continuation ([settle_file] and [settle_commit] of [settleOneTask]).  A
    transaction is [AtomExecute] around its closure, and every call of it may
    fail: a COMMIT that does not arrive is undone, one whose answer is lost is
    done and reported as an error.  The latter is [commit_unanswered], the one
    exception that the theorems on refused operations name.  A
    pointer that may be nil is an [option].  A range over a Go map is a loop
    over its keys in an order given by the class [MapOrder], of which only
    that it is a permutation is known.

    ** What the theorems show

    - Settlement ([BatchSettleSafety], [BatchSettleSpec],
      [BatchJobSpec]): a reserved batch is settled or released at most once under
      every interleaving and failure; a finished settlement is never changed;
      what a settlement writes; that one which does not come through gives its
      claim back; that the streaming reader of the result file returns what a
      definition on lines gives, and what the totals add up to.
    - Reservations ([BatchRelease]): one release takes exactly what was
      reserved and a second one nothing; counters stay within bounds under
      any interleaving; two releases that overlap take the amount twice.
    - Status ([BatchStatusSafety], [BatchCancelSafety], [BatchJobSpec]): a
      terminal status is final; cancelling claims the row before the provider
      is asked; polling never loses a cancel; a held lock keeps cycles apart.
    - Queries and synchronisation ([BatchQuerySpec]): merging
      is idempotent; what reaches an existing row; settlement figures and keys
      read back; products are isolated; pages are complete.
    - Periods ([QuotaSafety]): where weeks and months start, for every zone of
      constant offset, and that the check in memory agrees with the SQL claim.
    - Quota safety ([QuotaSafety], [QuotaSpec]): a period is claimed once
      whatever instances do; a held lock keeps schedulers apart; a reset that
      fails leaves no trace; that counters are filled before the COMMIT of the
      claim, so that a lost COMMIT fills them again; what resets and plan changes do to counters, use
      that is counted meanwhile included.

    - Pools ([EppAssign], [EppReconcile], [EppPatch]): which pools are
      accepted; that a replacement is all or nothing and reads back; that the
      allocator prefers the least loaded group, that reconciliation converges,
      keeps the loads balanced and then is idle, but that one repair moves all
      dangling clusters to the same group; what the view lists.
    - Compiled configurations ([EppConfig]): every reference resolves.
    - Secrets ([XCryptoSpec], [Security]): envelopes, exports and password
      hashes read back; a state that says exports are encrypted can encrypt
      them, after any history of reloads; a failed reload keeps what it had.
    - Sweeps ([KeyRotateSpec], [KeyRotateLock]): seen from outside a sweep does nothing, whatever
      fails; its loops end; one runs at a time and a live one is not displaced;
      without failures every value ends under the active key; a value that is
      written between the reading of a page and its transaction is lost.
    - Owners: after any history of requests that name no inner ids the entities
      form a forest along which levels rise, so that the ancestor walk ends
      ([EntityRequests], [EntitySpec],
      [EntityForest]); how a change of a type's level, or an update that
      carries an id, leads out of it; the policies that are exported and
      bound are exactly the enabled ones of a key's chain ([RateLimitSpec]); a
      failed operation leaves rows and counters as they were, unless the answer
      of its COMMIT was lost ([OwnerAtomic]);
      keys keep their values, and visitors who may only read see them masked
      ([ApiKeySpec]).
    - Operation log ([OperLog], [OperLogTotals], [OperLogWorker]): what
      masking hides and what it leaves; which keys a difference names; that
      two filters share a cached total exactly when they ask for the same, and
      that listings give exact totals after any history of flushes that raise
      the counter of the cache, and what a lost INCR leaves; that every
      record handed over is in the table, waiting or counted as dropped, that
      closing ends the worker, and which record is stranded after it.
    - Users and tokens ([AuthInvariant], [AuthHistory], [AuthLogin], [AuthAtomic], [AuthAccess]): the rows keep
      their invariant after any history of requests; an expired or ended
      session, and an empty key, open nothing; a login ends, and opens a
      session; a refused request changes nothing, unless the answer of its
      COMMIT was lost; who may change users and
      see the values of tokens.
    - Providers and clusters: what single calls do to the tables and
      what the storages read ([ConfEffect]); that every
      operation keeps keys unique, references resolved and the pools of
      clusters equal to the instances of their providers ([ConfSound] for
      providers and Kubernetes pools, [ConfClusters] for clusters, [ConfSpec]
      for requests); and for histories of requests with any failures
      ([ConfHistory]) that the tables stay sound, that the pools follow with
      the one exception of a PATCH, that a report of Kubernetes reaches every
      provider and cluster in whatever state the tables were, that a refused
      operation changes nothing, unless the answer of its COMMIT was lost, and
      which pricing tiers are accepted; with runs of what goes wrong.
    - Model prices ([PriceSpec]): whatever requests interleave and fail, every
      row stays valid and every price countable; an import does exactly what
      the code means by it, a stored discount kept, or nothing; one that meets a row beyond the first page of fifty
      always fails.
    - Exports ([ExportSpec]): of the whole chain from the requests on providers
      and clusters to what the gateway reads, that keys are the provider's, in
      plain text or sealed under the export key, that rules lead to exported
      clusters or reserved names, that traffic reaches the instances of the provider, and that
      an export is made when nothing fails; with runs of what goes wrong.
    - Tokens and tables ([GateSpec]): on every tree that requests have built, a
      token has exactly the models, plans and tags of its key and entities, as
      far as their lists of models agree and have no star, and the plans it
      names are exported; lists that have nothing in common restrict nothing; a key is bound to
      exactly the enabled tables of its owners; with runs of where keys appear
      in plain text.
    - Versions ([VersionControl]): of an export alone, unchanged content keeps
      its version, changed content gets a later one, and a failed export leaves
      the rows alone; a collision ends with an empty version.
    - Requests ([ValidateSpec], [SharedTypes]): route rules are accepted exactly
      as specified, nulls make the validator panic; which counters an update of
      a rate limit policy removes.

    [BatchJob], [QuotaManager], [XCrypto], [KeyRotate], [EntitySpec],
    [ConfHistory], [PriceSpec], [ExportSpec] and [GateSpec] end with concrete worlds on which the
    programs are evaluated and the hypotheses of the theorems are met.

    ** Fuel and bounds

    [jsonl_loop] is given one unit more than the length of the file, and each
    round consumes a byte: [parseJSONLUsage_lines] shows that it never runs
    out.  The JSON parser spends a unit per byte likewise.  [scan_loop] follows
    the cursor of Redis for at most [fuel] rounds; the adapter answers with
    cursor zero in the first round, and the theorems hold for every fuel.
    [collect_pages] needs one request per row, which [pagination_complete]
    shows to be enough.  A sweep reads pages for at most [fuel] rounds;
    [sweeps_terminate] shows that more rounds than the longest column has rows
    are enough, since the cursor moves forward.  The walk from an
    entity to its root has no bound in the code; with one unit more than there
    are entities it ends in every forest ([ancestor_walk_ends]), and
    [level_change_makes_endless_walk] shows a history after which no fuel is
    enough.  The search for a session key that nobody has draws at most [fuel]
    keys; [login_terminates] shows that one draw more than there are users is
    enough when the draws differ.  The tables of a key are gathered from at
    most [fuel] entities; [bound_tables_exact] has fuel for one more than there
    are.  Loops over lists are structural.

    ** What comes from outside

    [CalcCostUnits], [PtrToRedisValue] and [PtrFromRedisValue] belong to an
    external package; they are parameters, and no theorem assumes anything of
    their values but that a converted amount fits an int64 where the code adds
    it to a counter.  What a decimal column gives back for a float64 is a
    field of the quota world.  AES-GCM, HKDF, HMAC, SHA-256 and bcrypt are the
    class [Crypto]; [CryptoLaws] states that opening undoes sealing, the
    lengths of derived keys, and that a bcrypt hash matches its password;
    [XCrypto] has an instance.  The TOML decoder, the collation of
    primary keys, the compiler of route conditions, the checks that the
    gateway's packages make of an exported table, the reserved name of its
    advanced mode, the largest amount of money, what ORDER BY makes of a text
    that it is given ([RowOrder]) and the product of AI routes are parameters.

    ** What is not modelled

    SQL collations, column widths and the precision of stored times; the
    expiry of Redis keys other than the lock; counters of 2^53 and more in Lua
    scripts; time-outs and cancellation of contexts, which only show as failing
    calls; panics and their recovery; logging; zones with
    daylight saving; the ticker loops that call [RunOnce], [resetQuotas] and
    [Reconcile]; the strict JSON decoding and the versioned export of EPP
    configurations, of which only the trigger is a call.  Parameter errors of
    the pool carry the format of their message without its arguments.

    Of the owners: the binding of HTTP requests to parameters, the JSON text
    of list columns (they are lists here), the version wrapper of the exported
    rate limits, which is that of [VersionControl].

    Of providers and clusters: the times of rows, the JSON text of columns and
    the envelope around the column of keys (a provider's keys are a list
    here), the summaries of changes in audit records, model discovery, which
    asks a remote service, the managers of pools and
    sub-clusters, which no registered endpoint changes, and the authorization
    before the handlers, which is that of users and tokens.  Interleaved
    transactions share one saved state, so that rolling back is modelled for
    transactions that do not overlap.

    Of prices, routes and exports: the decoding of JSON and YAML bodies, the
    times of rows, the verification of conditions and the test cases of rules,
    which run the condition compiler of the gateway, and the HTTP actions of
    domains and of these route rules, which no endpoint registers.

    Of tokens and route rules: the JSON text of columns, the version wrapper of
    both exports, and the creation of AI routes, which no endpoint registers.

    Of the operation log: the trip through JSON that flattens parameters into
    a map, and the ticker of the worker, which is a step that may come at any
    time.  Of users and tokens: the binding of requests, and the dummy bcrypt
    comparison that only evens out time.

    The other parts of the program are create, read, update and delete
    operations on configuration tables (certificates, modules, caches, mirrors)
    with an export of the same rows, and reports that are SQL text. *)
From Stdlib Require Import ZArith Lia Ascii.
From stdpp Require Import base tactics numbers list strings gmap option.

Declare Scope go_scope.
Delimit Scope go_scope with go.
Create HintDb go.
Create Rewrite HintDb go.

(** * Results and errors *)

(** The error values of the repository ([lib/xerror]): the kinds that callers
    can tell apart.  Message texts are kept only where the code builds them
    from its arguments. *)
Inductive goerr : Type :=
| DaoError
| RedisError
| TransportError
| ParamError (msg : string)
| ModelError (msg : string)
| RecordNotExist (kind : string)
| RecordExisted (kind : string)
| DuplicateData (kind : string)
| DirtyDataError (msg : string)
| DependentUnReady (msg : string)
| AuthenticateFail (msg : string)
| AuthorizateFail (msg : string)
| ConflictError (msg : string)
| UpstreamError (msg : string)
| PlainError (msg : string).

(** What a closure that neither fails nor answers would give. *)
Definition no_result : goerr := PlainError "no result"%string.

#[export] Instance goerr_eq_dec : EqDecision goerr.
Proof. solve_decision. Defined.

(** Go's pair [(value, error)] read as one value: the value is meaningful
    exactly when the error is nil. *)
Inductive result (A : Type) : Type :=
| Ok (a : A)
| Err (e : goerr).
Arguments Ok {A} _.
Arguments Err {A} _.

Definition is_ok {A} (r : result A) : bool := match r with Ok _ => true | Err _ => false end.

#[export] Instance result_eq_dec {A} `{EqDecision A} : EqDecision (result A).
Proof. solve_decision. Defined.

(** * Elements of lists, and their keys *)

Lemma elem_of_map {A B} (f : A -> B) l b : b ∈ map f l <-> exists a, a ∈ l /\ f a = b.
Proof. rewrite list_elem_of_In, in_map_iff. setoid_rewrite <- list_elem_of_In. naive_solver. Qed.
Lemma elem_of_filter_bool {A} (P : A -> bool) l a : a ∈ List.filter P l <-> a ∈ l /\ P a = true.
Proof. rewrite !list_elem_of_In. apply filter_In. Qed.
Lemma elem_of_flat_map {A B} (f : A -> list B) l b : b ∈ flat_map f l <-> exists a, a ∈ l /\ b ∈ f a.
Proof. rewrite list_elem_of_In, in_flat_map. by setoid_rewrite <- list_elem_of_In. Qed.

Lemma NoDup_map_filter {A B} (f : A -> B) (p : A -> bool) l : NoDup (map f l) -> NoDup (map f (List.filter p l)).
Proof.
  induction l as [|a l IH]; cbn; [done|]. rewrite list.NoDup_cons. intros [Ha Hl]. destruct (p a); [|by apply IH].
  cbn. apply list.NoDup_cons. split; [|by apply IH]. rewrite !list_elem_of_In, !in_map_iff in *.
  intros (x & Hx & Hin). apply filter_In in Hin as [Hin _]. apply Ha. by exists x.
Qed.

Lemma NoDup_map_same {A B} (f : A -> B) l a b : NoDup (map f l) -> a ∈ l -> b ∈ l -> f a = f b -> a = b.
Proof.
  induction l as [|x l IH]; cbn; [by intros _ ?%elem_of_nil|]. rewrite list.NoDup_cons. intros [Hx Hl] Ha Hb Hf.
  assert (forall y, y ∈ l -> f x = f y -> False) as Hno.
  { intros y Hy E. apply Hx. rewrite E. apply list_elem_of_In, in_map. by apply list_elem_of_In. }
  apply list.elem_of_cons in Ha as [->|Ha]; apply list.elem_of_cons in Hb as [->|Hb]; [done| | |by apply IH].
  - by destruct (Hno b).
  - by destruct (Hno a).
Qed.

Lemma NoDup_map_snoc {A K} (key : A -> K) l a : NoDup (map key (l ++ [a])) <-> NoDup (map key l) /\ key a ∉ map key l.
Proof.
  rewrite map_app. cbn. rewrite list.NoDup_app. split.
  - intros (H1 & H2 & _). split; [done|]. intros Hin. apply (H2 _ Hin). by apply list_elem_of_singleton.
  - intros [H1 H2]. split; [done|]. split; [|apply list.NoDup_singleton]. by intros x Hx ->%list_elem_of_singleton.
Qed.

(** * Machine integers *)

Definition int64_min : Z := -(2 ^ 63).
Definition int64_max : Z := 2 ^ 63 - 1.
Definition int64_ok (z : Z) : bool := (int64_min <=? z)%Z && (z <=? int64_max)%Z.
(** Two's-complement wrap-around of Go's [int64] arithmetic. *)
Definition wrap64 (z : Z) : Z := (z + 2 ^ 63) mod 2 ^ 64 - 2 ^ 63.

Lemma wrap64_id z : int64_ok z = true -> wrap64 z = z.
Proof.
  unfold int64_ok, wrap64, int64_min, int64_max. intros H.
  apply andb_true_iff in H as [H1 H2].
  apply Z.leb_le in H1, H2. rewrite Z.mod_small; lia.
Qed.

Lemma wrap64_ok z : int64_ok (wrap64 z) = true.
Proof.
  unfold int64_ok, wrap64, int64_min, int64_max.
  pose proof (Z.mod_pos_bound (z + 2 ^ 63) (2 ^ 64)).
  apply andb_true_iff; split; apply Z.leb_le; lia.
Qed.

(** * Time

    A [time.Time] is the number of nanoseconds since Go's zero time
    (year 1), so that [IsZero] is equality with [0]. *)
Abbreviation gotime := Z (only parsing).
Definition IsZero (t : gotime) : bool := (t =? 0)%Z.
Definition second : Z := 1000000000.
Definition minute : Z := 60 * second.
Definition hour : Z := 60 * minute.
(** Seconds from Go's zero time to the Unix epoch. *)
Definition unix_epoch : Z := 62135596800.
Definition time_Unix (sec : Z) : gotime := (sec + unix_epoch) * second.
(** [time.Time.Sub] saturates at the extreme durations. *)
Definition time_Sub (t u : gotime) : Z := Z.max int64_min (Z.min int64_max (t - u)).
