(* ===== verification/GoStrings.v ===== *)
(** Go's byte strings: the functions of packages [strings], [bytes] and
    [strconv] that the modelled code calls, with the lemmas the components
    share.  A Go string is a sequence of bytes, here [String.string]. *)
From Stdlib Require Import ZArith Lia Ascii.
From stdpp Require Import base tactics numbers list strings option.
From S2P Require Import Prelude.

Local Open Scope string_scope.

(** * Package strings *)

(** [strings.HasPrefix] / [strings.CutPrefix]: the rest after [p], if any. *)
Fixpoint CutPrefix (s p : string) {struct p} : option string :=
  match p, s with
  | EmptyString, _ => Some s
  | String a p', String b s' => if ascii_dec a b then CutPrefix s' p' else None
  | String _ _, EmptyString => None
  end.

Definition HasPrefix (s p : string) : bool :=
  match CutPrefix s p with Some _ => true | None => false end.

(** [strings.TrimPrefix]. *)
Definition TrimPrefix (s p : string) : string :=
  match CutPrefix s p with Some r => r | None => s end.

(** [strings.Cut] for a one-byte separator. *)
Fixpoint Cut (s : string) (sep : ascii) : option (string * string) :=
  match s with
  | EmptyString => None
  | String c r =>
      if ascii_dec c sep then Some (EmptyString, r)
      else match Cut r sep with
           | Some (a, b) => Some (String c a, b)
           | None => None
           end
  end.

(** The bytes of a white-space rune ([unicode.IsSpace]) at the head of [s]:
    the rest of the string after it. *)
Definition cut_space (s : string) : option string :=
  match s with
  | String a r =>
      let n := N_of_ascii a in
      if (((9 <=? n) && (n <=? 13)) || (n =? 32))%N then Some r
      else if (n =? 194)%N then
        match r with
        | String b r' => if ((N_of_ascii b =? 133) || (N_of_ascii b =? 160))%N
                         then Some r' else None
        | EmptyString => None
        end
      else match r with
           | String b (String c r') =>
               let nb := N_of_ascii b in let nc := N_of_ascii c in
               if ((n =? 225) && (nb =? 154) && (nc =? 128))%N then Some r'
               else if ((n =? 226) && (nb =? 128) &&
                        (((128 <=? nc) && (nc <=? 138)) || (nc =? 168) || (nc =? 169) || (nc =? 175)))%N
               then Some r'
               else if ((n =? 226) && (nb =? 129) && (nc =? 159))%N then Some r'
               else if ((n =? 227) && (nb =? 128) && (nc =? 128))%N then Some r'
               else None
           | _ => None
           end
  | EmptyString => None
  end.

Fixpoint trim_left_fuel (fuel : nat) (s : string) : string :=
  match fuel with
  | O => s
  | S f => match cut_space s with Some r => trim_left_fuel f r | None => s end
  end.

(** A string shrinks at every stripped rune, so its length is enough fuel. *)
Definition TrimLeftSpace (s : string) : string := trim_left_fuel (String.length s) s.

(** Drops the longest suffix that is made of white-space runes only. *)
Fixpoint TrimRightSpace (s : string) : string :=
  match TrimLeftSpace s with
  | EmptyString => EmptyString
  | String _ _ =>
      match s with
      | EmptyString => EmptyString
      | String c r => String c (TrimRightSpace r)
      end
  end.

(** [strings.TrimSpace] / [bytes.TrimSpace]. *)
Definition TrimSpace (s : string) : string := TrimRightSpace (TrimLeftSpace s).

(** [strings.TrimRight] for a one-byte cutset. *)
Fixpoint TrimRight (s : string) (c : ascii) : string :=
  match s with
  | EmptyString => EmptyString
  | String a r =>
      match TrimRight r c with
      | EmptyString => if ascii_dec a c then EmptyString else String a EmptyString
      | r' => String a r'
      end
  end.

(** [strings.Contains]. *)
Fixpoint Contains (s sub : string) : bool :=
  HasPrefix s sub ||
  match s with EmptyString => false | String _ r => Contains r sub end.

(** Does a byte occur in the string? *)
Fixpoint has_byte (s : string) (c : ascii) : bool :=
  match s with
  | EmptyString => false
  | String a r => (if ascii_dec a c then true else false) || has_byte r c
  end.

(** [unicode.ToLower] on one ASCII byte. *)
Definition lower_byte (c : ascii) : ascii :=
  let n := N_of_ascii c in if ((65 <=? n) && (n <=? 90))%N then ascii_of_N (n + 32) else c.

(** [strings.EqualFold(s, t)] for an ASCII string [t].  The two runes outside
    ASCII that fold to an ASCII letter are the long s and the Kelvin sign. *)
Fixpoint EqualFold (s t : string) {struct t} : bool :=
  match t, s with
  | EmptyString, EmptyString => true
  | String c t', String a r =>
      if ascii_dec (lower_byte a) (lower_byte c) then EqualFold r t'
      else match r with
           | String b r' =>
               if bool_decide (lower_byte c = "s"%char) && (N_of_ascii a =? 197)%N && (N_of_ascii b =? 191)%N
               then EqualFold r' t'
               else match r' with
                    | String d r'' =>
                        if bool_decide (lower_byte c = "k"%char) && (N_of_ascii a =? 226)%N
                           && (N_of_ascii b =? 132)%N && (N_of_ascii d =? 170)%N
                        then EqualFold r'' t' else false
                    | EmptyString => false
                    end
           | EmptyString => false
           end
  | _, _ => false
  end.

(** * Package strconv: ParseInt and FormatInt in base 10, 64 bits *)

Definition digit_val (c : ascii) : option Z :=
  let n := Z.of_N (N_of_ascii c) in
  if (48 <=? n)%Z && (n <=? 57)%Z then Some (n - 48)%Z else None.

Fixpoint parse_digits (acc : Z) (s : string) : option Z :=
  match s with
  | EmptyString => Some acc
  | String c r => match digit_val c with
                  | Some d => parse_digits (10 * acc + d) r
                  | None => None
                  end
  end.

(** One or more digits. *)
Definition parse_udec (s : string) : option Z :=
  match s with EmptyString => None | _ => parse_digits 0 s end.

(** [strconv.ParseInt(s, 10, 64)]: a syntax error or a range error is [None]. *)
Definition ParseInt (s : string) : option Z :=
  let check z := if int64_ok z then Some z else None in
  match s with
  | String "-" r => match parse_udec r with Some n => check (- n)%Z | None => None end
  | String "+" r => match parse_udec r with Some n => check n | None => None end
  | _ => match parse_udec s with Some n => check n | None => None end
  end.

Definition digit_char (d : Z) : ascii := ascii_of_N (Z.to_N (48 + d)).

Fixpoint format_digits (fuel : nat) (n : Z) (acc : string) : string :=
  match fuel with
  | O => acc
  | S f =>
      let acc' := String (digit_char (n mod 10)) acc in
      if (n <? 10)%Z then acc' else format_digits f (n / 10) acc'
  end.

(** Decimal digits of [n >= 0]; the binary size of [n] bounds their number. *)
Definition format_udec (n : Z) : string := format_digits (S (Z.to_nat (Z.log2 n))) n EmptyString.

(** [strconv.FormatInt(z, 10)]. *)
Definition FormatInt (z : Z) : string :=
  if (z <? 0)%Z then String "-" (format_udec (- z)) else format_udec z.

(** * Lemmas *)

Lemma CutPrefix_app p s : CutPrefix (p +:+ s) p = Some s.
Proof.
  induction p as [|a p IH]; simpl; [reflexivity|].
  destruct (ascii_dec a a); [exact IH|congruence].
Qed.

Lemma CutPrefix_Some s p r : CutPrefix s p = Some r -> s = p +:+ r.
Proof.
  revert s. induction p as [|a p IH]; intros s; simpl; [by intros [= ->]|].
  destruct s as [|b s]; [discriminate|].
  destruct (ascii_dec a b) as [->|]; [|discriminate].
  intros H. apply IH in H. by subst.
Qed.

Lemma HasPrefix_app p s : HasPrefix (p +:+ s) p = true.
Proof. unfold HasPrefix. by rewrite CutPrefix_app. Qed.

Lemma TrimPrefix_app p s : TrimPrefix (p +:+ s) p = s.
Proof. unfold TrimPrefix. by rewrite CutPrefix_app. Qed.

Lemma Cut_app a b sep :
  has_byte a sep = false -> Cut (a +:+ String sep b) sep = Some (a, b).
Proof.
  induction a as [|c a IH]; simpl; intros H.
  - destruct (ascii_dec sep sep); [reflexivity|congruence].
  - apply orb_false_iff in H as [H1 H2].
    destruct (ascii_dec c sep); [discriminate|]. by rewrite IH.
Qed.

Lemma Cut_Some s sep a b :
  Cut s sep = Some (a, b) -> s = a +:+ String sep b /\ has_byte a sep = false.
Proof.
  revert a b. induction s as [|c s IH]; intros a b; simpl; [discriminate|].
  destruct (ascii_dec c sep) as [->|Hne].
  - intros [= <- <-]. auto.
  - destruct (Cut s sep) as [[a' b']|] eqn:E; [|discriminate].
    intros [= <- <-]. destruct (IH a' b' eq_refl) as [-> Hb].
    split; [reflexivity|]. simpl. destruct (ascii_dec c sep); [congruence|]. exact Hb.
Qed.

Lemma digit_val_char d : (0 <= d <= 9)%Z -> digit_val (digit_char d) = Some d.
Proof.
  intros Hd. unfold digit_val, digit_char.
  assert (d = 0 \/ d = 1 \/ d = 2 \/ d = 3 \/ d = 4 \/ d = 5 \/ d = 6 \/ d = 7
          \/ d = 8 \/ d = 9)%Z as Hc by lia.
  repeat destruct Hc as [->|Hc]; try reflexivity. by subst.
Qed.

Lemma parse_format_digits fuel n acc s :
  (0 <= n)%Z -> (n < 2 ^ Z.of_nat fuel)%Z -> (0 < fuel)%nat ->
  parse_digits acc (format_digits fuel n s) =
  parse_digits (acc * 10 ^ Z.of_nat (String.length (format_digits fuel n EmptyString)) + n) s
  /\ (0 < String.length (format_digits fuel n EmptyString))%nat.
Proof.
  revert n acc s. induction fuel as [|f IH]; intros n acc s Hn Hb Hf; [lia|].
  assert (Hlen : forall m g t, String.length (format_digits g m t) =
            (String.length (format_digits g m EmptyString) + String.length t)%nat).
  { clear. intros m g. revert m. induction g as [|g IHg]; intros m t; simpl; [reflexivity|].
    destruct (m <? 10)%Z; [simpl; lia|]. rewrite (IHg _ (String _ t)), (IHg _ (String _ EmptyString)).
    simpl. lia. }
  simpl. pose proof (Z.mod_pos_bound n 10 ltac:(lia)) as Hm.
  pose proof (Z.div_mod n 10 ltac:(lia)) as Hd.
  destruct (n <? 10)%Z eqn:E.
  - apply Z.ltb_lt in E. simpl. rewrite digit_val_char by lia.
    split; [|lia]. f_equal. change (10 ^ Z.of_nat 1)%Z with 10%Z. rewrite Z.mod_small by lia. lia.
  - apply Z.ltb_ge in E.
    assert (n / 10 < 2 ^ Z.of_nat f)%Z as Hb'.
    { rewrite Nat2Z.inj_succ, Z.pow_succ_r in Hb by lia.
      apply Z.div_lt_upper_bound; lia. }
    assert (0 < f)%nat as Hf'.
    { destruct f; [|lia]. simpl in Hb'. pose proof (Z.div_pos n 10). lia. }
    destruct (IH (n / 10)%Z acc (String (digit_char (n mod 10)) s)) as [-> Hl];
      [apply Z.div_pos; lia|exact Hb'|exact Hf'|].
    rewrite (Hlen _ _ (String _ EmptyString)). simpl. rewrite digit_val_char by lia.
    split; [|lia]. f_equal.
    rewrite Nat.add_1_r, Nat2Z.inj_succ, Z.pow_succ_r by lia. nia.
Qed.

Lemma parse_format_udec n : (0 <= n)%Z -> parse_udec (format_udec n) = Some n.
Proof.
  intros Hn. unfold parse_udec, format_udec.
  assert (n < 2 ^ Z.of_nat (S (Z.to_nat (Z.log2 n))))%Z as Hb.
  { rewrite Nat2Z.inj_succ, Z2Nat.id by apply Z.log2_nonneg.
    destruct (decide (n = 0%Z)) as [->|]; [reflexivity|]. apply Z.log2_spec. lia. }
  destruct (parse_format_digits _ n 0 EmptyString Hn Hb ltac:(lia)) as [H Hl].
  destruct (format_digits _ _ _) eqn:E; [simpl in Hl; lia|].
  rewrite H. simpl. f_equal.
Qed.

Lemma format_udec_head n c r :
  (0 <= n)%Z -> format_udec n = String c r -> c <> "-"%char /\ c <> "+"%char.
Proof.
  intros Hn E. pose proof (parse_format_udec n Hn) as H. rewrite E in H.
  simpl in H. destruct (digit_val c) eqn:D; [|discriminate].
  split; intros ->; discriminate D.
Qed.

(** Printing an [int64] and parsing it back gives the same number. *)
Lemma ParseInt_FormatInt z : int64_ok z = true -> ParseInt (FormatInt z) = Some z.
Proof.
  intros Hz. unfold FormatInt. destruct (z <? 0)%Z eqn:E.
  - apply Z.ltb_lt in E. unfold ParseInt. rewrite parse_format_udec by lia.
    rewrite Z.opp_involutive. by rewrite Hz.
  - apply Z.ltb_ge in E. pose proof (parse_format_udec z E) as H.
    destruct (format_udec z) as [|c r] eqn:F; [discriminate H|].
    destruct (format_udec_head z c r E F) as [H1 H2].
    unfold ParseInt. rewrite H, Hz.
    destruct c as [[] [] [] [] [] [] [] []]; try reflexivity; congruence.
Qed.

Lemma FormatInt_inj a b : FormatInt a = FormatInt b -> a = b.
Proof.
  assert (forall x, format_udec (Z.abs x) <> EmptyString /\ forall r, format_udec (Z.abs x) <> String "-" r) as Hhead.
  { intros x. pose proof (parse_format_udec (Z.abs x) ltac:(lia)) as H. split.
    - intros E. by rewrite E in H.
    - intros r E. by destruct (format_udec_head (Z.abs x) _ _ ltac:(lia) E). }
  assert (forall x y, format_udec (Z.abs x) = format_udec (Z.abs y) -> Z.abs x = Z.abs y) as Habs.
  { intros x y E. pose proof (parse_format_udec (Z.abs x) ltac:(lia)) as H. rewrite E, parse_format_udec in H by lia. by injection H. }
  unfold FormatInt. specialize (Habs a b).
  destruct (Z.ltb_spec a 0), (Z.ltb_spec b 0).
  - replace (- a)%Z with (Z.abs a) by lia. replace (- b)%Z with (Z.abs b) by lia. intros [= E]. specialize (Habs E). lia.
  - replace b with (Z.abs b) at 1 by lia. intros E. by destruct (proj2 (Hhead b) _ (eq_sym E)).
  - replace a with (Z.abs a) at 1 by lia. intros E. by destruct (proj2 (Hhead a) _ E).
  - replace a with (Z.abs a) at 1 by lia. replace b with (Z.abs b) at 1 by lia. intros E. specialize (Habs E). lia.
Qed.

Lemma FormatInt_not_empty z : FormatInt z <> EmptyString.
Proof.
  unfold FormatInt. destruct (z <? 0)%Z eqn:E; [discriminate|].
  apply Z.ltb_ge in E. pose proof (parse_format_udec z E) as H.
  intros F. rewrite F in H. discriminate H.
Qed.

Lemma TrimRight_last s c : forall a r, TrimRight s c = String a r ->
  exists pre x, TrimRight s c = pre +:+ String x EmptyString /\ x <> c.
Proof.
  induction s as [|b s IH]; intros a r; simpl; [discriminate|].
  destruct (TrimRight s c) as [|a' r'] eqn:E.
  - destruct (ascii_dec b c); [discriminate|]. intros _. by exists EmptyString, b.
  - intros _. destruct (IH a' r' eq_refl) as (pre & x & Hp & Hx).
    exists (String b pre), x. rewrite Hp. auto.
Qed.

Lemma string_app_assoc (a b c : string) : (a +:+ b) +:+ c = a +:+ (b +:+ c).
Proof. induction a as [|x a IH]; [reflexivity|]. exact (f_equal (String x) IH). Qed.

Lemma string_app_nil_r (a : string) : a +:+ EmptyString = a.
Proof. induction a as [|x a IH]; [reflexivity|]. exact (f_equal (String x) IH). Qed.

(** * Substrings of concatenations *)

Lemma length_sapp (a b : string) : String.length (a +:+ b) = (String.length a + String.length b)%nat.
Proof. induction a as [|x a IH]; [reflexivity|]. exact (f_equal S IH). Qed.

Lemma substring_prefix (a b : string) n : String.length a = n -> String.substring 0 n (a +:+ b) = a.
Proof.
  intros <-. induction a as [|x a IH]; [by destruct b|]. exact (f_equal (String x) IH).
Qed.

Lemma substring_full (a : string) n : (String.length a <= n)%nat -> String.substring 0 n a = a.
Proof.
  revert n. induction a as [|x a IH]; intros n Hn; [by destruct n|].
  destruct n as [|n]; simpl in Hn; [lia|]. simpl. f_equal. apply IH. lia.
Qed.

Lemma substring_skip (a b : string) m n : String.length a = m ->
  String.substring m n (a +:+ b) = String.substring 0 n b.
Proof. intros <-. induction a as [|x a IH]; [reflexivity|]. exact IH. Qed.

Lemma substring_take_length (a : string) n : (n <= String.length a)%nat -> String.length (String.substring 0 n a) = n.
Proof.
  revert n. induction a as [|x a IH]; intros n Hn; simpl in Hn; [by destruct n; [|lia]|].
  destruct n as [|n]; [done|]. simpl. rewrite IH; lia.
Qed.

(** ** Prefixes of a given length *)

Lemma string_split n s : (n <= String.length s)%nat -> exists a b, s = a +:+ b /\ String.length a = n.
Proof.
  revert s. induction n as [|n IH]; intros s H; [by exists "", s|].
  destruct s as [|c s]; cbn in H; [lia|]. destruct (IH s) as (a & b & -> & Ha); [lia|].
  exists (String c a), b. split; [done|]. cbn. by rewrite Ha.
Qed.

(** * Bytes that do not occur *)

Lemma has_byte_app a b c : has_byte (a +:+ b) c = has_byte a c || has_byte b c.
Proof.
  induction a as [|x a IH]; [done|]. change (String x a +:+ b) with (String x (a +:+ b)).
  cbn [has_byte]. rewrite IH. by rewrite orb_assoc.
Qed.

Lemma sep_inj c a b a' b' : has_byte a c = false -> has_byte a' c = false ->
  a +:+ String c b = a' +:+ String c b' -> a = a' /\ b = b'.
Proof.
  intros Ha Ha' E. pose proof (Cut_app a b c Ha) as C. pose proof (Cut_app a' b' c Ha') as C'.
  rewrite E in C. rewrite C in C'. by injection C' as -> ->.
Qed.
Lemma bar_inj a b a' b' : has_byte a "|" = false -> has_byte a' "|" = false ->
  a +:+ "|" +:+ b = a' +:+ "|" +:+ b' -> a = a' /\ b = b'.
Proof. apply (sep_inj "|"). Qed.

(** ** Decimal numbers hold digits only *)

Definition decimal_byte (c : ascii) : bool :=
  match digit_val c with Some _ => true | None => bool_decide (c = "-"%char) end.

Lemma format_digits_byte c fuel n acc : (0 <= n)%Z -> decimal_byte c = false ->
  has_byte (format_digits fuel n acc) c = has_byte acc c.
Proof.
  intros Hn Hc. revert n acc Hn. induction fuel as [|f IH]; intros n acc Hn; cbn [format_digits]; [done|].
  assert (has_byte (String (digit_char (n mod 10)) acc) c = has_byte acc c) as Hd.
  { cbn [has_byte]. destruct (ascii_dec (digit_char (n mod 10)) c) as [<-|]; [|done]. exfalso.
    unfold decimal_byte in Hc. rewrite digit_val_char in Hc; [done|]. pose proof (Z.mod_pos_bound n 10). lia. }
  destruct (n <? 10)%Z; [done|]. rewrite IH; [done|]. apply Z.div_pos; lia.
Qed.

Lemma FormatInt_byte c z : decimal_byte c = false -> has_byte (FormatInt z) c = false.
Proof.
  intros Hc. unfold FormatInt, format_udec. destruct (z <? 0)%Z eqn:E.
  - cbn [has_byte]. rewrite format_digits_byte by (done || lia).
    destruct (ascii_dec "-" c) as [<-|]; [|done]. by vm_compute in Hc.
  - apply Z.ltb_ge in E. by rewrite format_digits_byte.
Qed.

#[export] Hint Rewrite CutPrefix_app HasPrefix_app TrimPrefix_app : go.
#[export] Hint Resolve FormatInt_not_empty wrap64_ok : go.
