(* ===== verification/GoBase64.v ===== *)
(** Package [encoding/base64]: the standard alphabet with padding
    ([base64.StdEncoding]), and that decoding inverts encoding. *)
From Stdlib Require Import NArith Lia Ascii.
From stdpp Require Import base tactics numbers list strings option.
From S2P Require Import Prelude GoStrings.

Local Open Scope N_scope.

(** * The alphabet *)

Definition b64_char (n : N) : ascii :=
  ascii_of_N (if n <? 26 then 65 + n else if n <? 52 then 71 + n else if n <? 62 then n - 4
              else if n =? 62 then 43 else 47).

Definition b64_val (c : ascii) : option N :=
  let n := N_of_ascii c in
  if (65 <=? n) && (n <=? 90) then Some (n - 65)
  else if (97 <=? n) && (n <=? 122) then Some (n - 71)
  else if (48 <=? n) && (n <=? 57) then Some (n + 4)
  else if n =? 43 then Some 62
  else if n =? 47 then Some 63
  else None.

(** * [EncodeToString] *)

Fixpoint EncodeToString (s : string) : string :=
  match s with
  | EmptyString => EmptyString
  | String a EmptyString =>
      let x := N_of_ascii a in
      String (b64_char (x / 4)) (String (b64_char (x mod 4 * 16)) "==")
  | String a (String b EmptyString) =>
      let x := N_of_ascii a in let y := N_of_ascii b in
      String (b64_char (x / 4)) (String (b64_char (x mod 4 * 16 + y / 16))
        (String (b64_char (y mod 16 * 4)) "="))
  | String a (String b (String c r)) =>
      let x := N_of_ascii a in let y := N_of_ascii b in let z := N_of_ascii c in
      String (b64_char (x / 4)) (String (b64_char (x mod 4 * 16 + y / 16))
        (String (b64_char (y mod 16 * 4 + z / 64)) (String (b64_char (z mod 64)) (EncodeToString r))))
  end.

(** * [DecodeString] *)

(** Line ends are skipped wherever they occur. *)
Fixpoint strip_newlines (s : string) : string :=
  match s with
  | EmptyString => EmptyString
  | String c r =>
      if ((N_of_ascii c =? 10) || (N_of_ascii c =? 13))%N then strip_newlines r else String c (strip_newlines r)
  end.

(** Groups of four digits; padding is only allowed in the last group and the
    unused low bits before it are ignored. *)
Fixpoint decode_groups (s : string) : option string :=
  match s with
  | EmptyString => Some EmptyString
  | String a (String b (String c (String d r))) =>
      match b64_val a, b64_val b with
      | Some x, Some y =>
          let b1 := ascii_of_N (x * 4 + y / 16) in
          match b64_val c with
          | None => if (N_of_ascii c =? 61) && (N_of_ascii d =? 61) && bool_decide (r = EmptyString)
                    then Some (String b1 EmptyString) else None
          | Some z =>
              let b2 := ascii_of_N (y mod 16 * 16 + z / 4) in
              match b64_val d with
              | None => if (N_of_ascii d =? 61) && bool_decide (r = EmptyString)
                        then Some (String b1 (String b2 EmptyString)) else None
              | Some w =>
                  match decode_groups r with
                  | Some t => Some (String b1 (String b2 (String (ascii_of_N (z mod 4 * 64 + w)) t)))
                  | None => None
                  end
              end
          end
      | _, _ => None
      end
  | _ => None
  end.

Definition DecodeString (s : string) : option string := decode_groups (strip_newlines s).

(** * Lemmas *)

Lemma ascii_lt_256 a : N_of_ascii a < 256.
Proof. apply N_ascii_bounded. Qed.

Lemma b64_char_code n : n < 64 ->
  N_of_ascii (b64_char n) =
  (if n <? 26 then 65 + n else if n <? 52 then 71 + n else if n <? 62 then n - 4
   else if n =? 62 then 43 else 47).
Proof.
  intros Hn. unfold b64_char. apply N_ascii_embedding.
  repeat case_match; rewrite ?N.ltb_lt, ?N.ltb_ge, ?N.eqb_eq, ?N.eqb_neq in *; lia.
Qed.

Lemma b64_val_char n : n < 64 -> b64_val (b64_char n) = Some n.
Proof.
  intros Hn. unfold b64_val. rewrite b64_char_code by exact Hn.
  repeat (case_match; rewrite ?andb_true_iff, ?andb_false_iff, ?N.leb_le, ?N.leb_gt, ?N.ltb_lt, ?N.ltb_ge, ?N.eqb_eq, ?N.eqb_neq in *);
    try (f_equal; lia); try lia.
Qed.

Lemma strip_digit n r : n < 64 -> strip_newlines (String (b64_char n) r) = String (b64_char n) (strip_newlines r).
Proof.
  intros Hn. simpl. rewrite b64_char_code by exact Hn.
  case_match eqn:E; [|reflexivity]. exfalso. rewrite orb_true_iff, !N.eqb_eq in E.
  repeat (case_match; rewrite ?N.ltb_lt, ?N.ltb_ge, ?N.eqb_eq, ?N.eqb_neq in *); lia.
Qed.

(** Three bytes at a time. *)
Lemma three_bytes_ind (P : string -> Prop) :
  P EmptyString -> (forall a, P (String a EmptyString)) -> (forall a b, P (String a (String b EmptyString))) ->
  (forall a b c r, P r -> P (String a (String b (String c r)))) -> forall s, P s.
Proof.
  intros H0 H1 H2 H3 s.
  assert (forall n s, (String.length s <= n)%nat -> P s) as H.
  { clear s. induction n as [|n IH]; intros [|a [|b [|c r]]] Hl; simpl in Hl; auto; try lia.
    apply H3, IH. lia. }
  by apply (H (String.length s)).
Qed.

(** What the digit arithmetic of a group needs. *)
Ltac sextet := repeat match goal with a : ascii |- _ =>
    lazymatch goal with _ : N_of_ascii a < 256 |- _ => fail | _ => pose proof (ascii_lt_256 a) end end;
  zify; Z.to_euclidean_division_equations; lia.

Lemma strip_EncodeToString s : strip_newlines (EncodeToString s) = EncodeToString s.
Proof.
  induction s as [|a|a b|a b c r IH] using three_bytes_ind; [reflexivity|..]; cbn [EncodeToString];
    rewrite !strip_digit by sextet; rewrite ?IH; reflexivity.
Qed.

Lemma byte_back a n : n = N_of_ascii a -> ascii_of_N n = a.
Proof. intros ->. apply ascii_N_embedding. Qed.

(** Decoding an encoding gives the bytes back. *)
Lemma DecodeString_EncodeToString s : DecodeString (EncodeToString s) = Some s.
Proof.
  unfold DecodeString. rewrite strip_EncodeToString.
  induction s as [|a|a b|a b c r IH] using three_bytes_ind; [reflexivity|..];
    cbn [EncodeToString decode_groups]; rewrite !b64_val_char by sextet.
  - change (b64_val "="%char) with (@None N). simpl.
    do 2 f_equal. apply byte_back. sextet.
  - change (b64_val "="%char) with (@None N). simpl.
    f_equal. f_equal; [apply byte_back; sextet|]. f_equal. apply byte_back. sextet.
  - rewrite IH. f_equal. f_equal; [apply byte_back; sextet|].
    f_equal; [apply byte_back; sextet|]. f_equal. apply byte_back. sextet.
Qed.
