(* ===== verification/GoJson.v ===== *)
(** Package [encoding/json] as the modelled code uses it: the text grammar,
    decoding into strings, integers, integer maps and structs, and the
    encoding of [map[string]int64]. *)
From Stdlib Require Import ZArith Lia Ascii.
From stdpp Require Import base tactics numbers list strings gmap option sorting.
From S2P Require Import Prelude GoStrings.

Local Open Scope string_scope.

#[local] Set Warnings "-register-all".

(** A number keeps its literal: integers are parsed from it at the target. *)
Inductive json : Type :=
| JNull
| JBool (b : bool)
| JNum (lit : string)
| JStr (s : string)
| JArr (l : list json)
| JObj (l : list (string * json)).

(** * UTF-8 *)

Definition byte_in (c : ascii) (lo hi : N) : bool :=
  ((lo <=? N_of_ascii c) && (N_of_ascii c <=? hi))%N.

(** The first rune of [s] as its bytes and the rest; [None] when the bytes at
    the head are not valid UTF-8. *)
Definition rune_head (s : string) : option (string * string) :=
  match s with
  | EmptyString => None
  | String a r =>
      if byte_in a 0 127 then Some (String a EmptyString, r)
      else match r with
      | EmptyString => None
      | String b r2 =>
        if byte_in a 194 223 then
          if byte_in b 128 191 then Some (String a (String b EmptyString), r2) else None
        else match r2 with
        | EmptyString => None
        | String c r3 =>
          if (byte_in a 224 224 && byte_in b 160 191
              || (byte_in a 225 236 || byte_in a 238 239) && byte_in b 128 191
              || byte_in a 237 237 && byte_in b 128 159)
          then if byte_in c 128 191 then Some (String a (String b (String c EmptyString)), r3) else None
          else match r3 with
          | EmptyString => None
          | String d r4 =>
            if (byte_in a 240 240 && byte_in b 144 191
                || byte_in a 241 243 && byte_in b 128 191
                || byte_in a 244 244 && byte_in b 128 143)
               && byte_in c 128 191 && byte_in d 128 191
            then Some (String a (String b (String c (String d EmptyString))), r4) else None
          end
        end
      end
  end.

Definition byte_of (n : Z) : ascii := ascii_of_N (Z.to_N n).

(** [utf8.AppendRune]. *)
Definition encode_rune (r : Z) : string :=
  if (r <? 128)%Z then String (byte_of r) EmptyString
  else if (r <? 2048)%Z then
    String (byte_of (192 + r / 64)) (String (byte_of (128 + r mod 64)) EmptyString)
  else if (r <? 65536)%Z then
    String (byte_of (224 + r / 4096)) (String (byte_of (128 + r / 64 mod 64))
      (String (byte_of (128 + r mod 64)) EmptyString))
  else
    String (byte_of (240 + r / 262144)) (String (byte_of (128 + r / 4096 mod 64))
      (String (byte_of (128 + r / 64 mod 64)) (String (byte_of (128 + r mod 64)) EmptyString))).

(** U+FFFD, the replacement for what cannot be decoded. *)
Definition replacement : string := encode_rune 65533.

(** * Text grammar *)

Definition is_ws (c : ascii) : bool :=
  byte_in c 32 32 || byte_in c 9 10 || byte_in c 13 13.

Fixpoint skip_ws (s : string) : string :=
  match s with String c r => if is_ws c then skip_ws r else s | EmptyString => s end.

Definition hex_val (c : ascii) : option Z :=
  let n := Z.of_N (N_of_ascii c) in
  if byte_in c 48 57 then Some (n - 48)%Z
  else if byte_in c 97 102 then Some (n - 87)%Z
  else if byte_in c 65 70 then Some (n - 55)%Z
  else None.

Definition hex4 (s : string) : option (Z * string) :=
  match s with
  | String a (String b (String c (String d r))) =>
      match hex_val a, hex_val b, hex_val c, hex_val d with
      | Some x, Some y, Some z, Some w => Some (4096 * x + 256 * y + 16 * z + w, r)%Z
      | _, _, _, _ => None
      end
  | _ => None
  end.

Definition is_surrogate (r : Z) : bool := ((55296 <=? r) && (r <? 57344))%Z.

(** The rune of a [\u] escape whose first unit is [r]; a low surrogate that
    completes a pair is consumed with it. *)
Definition escape_rune (r : Z) (rest : string) : string * string :=
  if is_surrogate r then
    match rest with
    | String "\" (String "u" rest') =>
        match hex4 rest' with
        | Some (r2, rest2) =>
            if ((r <? 56320) && (56320 <=? r2) && (r2 <? 57344))%Z
            then (encode_rune ((r - 55296) * 1024 + (r2 - 56320) + 65536), rest2)
            else (replacement, rest)
        | None => (replacement, rest)
        end
    | _ => (replacement, rest)
    end
  else (encode_rune r, rest).

Definition quote : ascii := ascii_of_N 34.

Definition simple_escape (c : ascii) : option ascii :=
  if ascii_dec c quote then Some quote
  else if ascii_dec c "\" then Some "\"%char
  else if ascii_dec c "/" then Some "/"%char
  else if ascii_dec c "b" then Some (ascii_of_N 8)
  else if ascii_dec c "f" then Some (ascii_of_N 12)
  else if ascii_dec c "n" then Some (ascii_of_N 10)
  else if ascii_dec c "r" then Some (ascii_of_N 13)
  else if ascii_dec c "t" then Some (ascii_of_N 9)
  else None.

(** The body of a string literal, up to and with its closing quote. *)
Fixpoint parse_str (fuel : nat) (s : string) : option (string * string) :=
  match fuel with
  | O => None
  | S f =>
    match s with
    | EmptyString => None
    | String c r =>
      if ascii_dec c quote then Some (EmptyString, r)
      else if ascii_dec c "\" then
        match r with
        | String "u" r' =>
            match hex4 r' with
            | Some (u, r2) =>
                let '(bs, r3) := escape_rune u r2 in
                match parse_str f r3 with
                | Some (t, rest) => Some (bs +:+ t, rest)
                | None => None
                end
            | None => None
            end
        | String e r' =>
            match simple_escape e with
            | Some b => match parse_str f r' with
                        | Some (t, rest) => Some (String b t, rest)
                        | None => None
                        end
            | None => None
            end
        | EmptyString => None
        end
      else if byte_in c 0 31 then None
      else match rune_head s with
           | Some (bs, r') => match parse_str f r' with
                              | Some (t, rest) => Some (bs +:+ t, rest)
                              | None => None
                              end
           | None => match parse_str f r with
                     | Some (t, rest) => Some (replacement +:+ t, rest)
                     | None => None
                     end
           end
    end
  end.

Definition is_digit (c : ascii) : bool := byte_in c 48 57.

(** The longest run of digits and the rest. *)
Fixpoint span_digits (s : string) : string * string :=
  match s with
  | String c r => if is_digit c then let '(d, t) := span_digits r in (String c d, t)
                  else (EmptyString, s)
  | EmptyString => (EmptyString, EmptyString)
  end.

Definition parse_int_part (s : string) : option (string * string) :=
  match s with
  | String "0" r => Some ("0", r)
  | _ => match span_digits s with (EmptyString, _) => None | dr => Some dr end
  end.

Definition parse_frac (s : string) : option (string * string) :=
  match s with
  | String "." r => match span_digits r with
                    | (EmptyString, _) => None
                    | (d, t) => Some (String "." d, t)
                    end
  | _ => Some (EmptyString, s)
  end.

Definition parse_exp (s : string) : option (string * string) :=
  match s with
  | String e r =>
      if byte_in e 69 69 || byte_in e 101 101 then
        let '(sg, r') := match r with
                         | String c r' => if ascii_dec c "+" then ("+", r')
                                          else if ascii_dec c "-" then ("-", r') else (EmptyString, r)
                         | EmptyString => (EmptyString, r)
                         end in
        match span_digits r' with
        | (EmptyString, _) => None
        | (d, t) => Some (String e (sg +:+ d), t)
        end
      else Some (EmptyString, s)
  | EmptyString => Some (EmptyString, s)
  end.

Definition parse_num (s : string) : option (string * string) :=
  let '(sg, s1) := match s with String "-" r => ("-", r) | _ => (EmptyString, s) end in
  match parse_int_part s1 with
  | None => None
  | Some (i, s2) =>
      match parse_frac s2 with
      | None => None
      | Some (fr, s3) =>
          match parse_exp s3 with
          | None => None
          | Some (ex, s4) => Some (sg +:+ i +:+ fr +:+ ex, s4)
          end
      end
  end.

Definition parse_literal (s : string) : option (json * string) :=
  match CutPrefix s "null" with
  | Some r => Some (JNull, r)
  | None => match CutPrefix s "true" with
            | Some r => Some (JBool true, r)
            | None => match CutPrefix s "false" with
                      | Some r => Some (JBool false, r)
                      | None => None
                      end
            end
  end.

(** A value; every unit of fuel is spent after at least one byte is consumed,
    so one more unit than there are bytes is enough. *)
Fixpoint parse_value (fuel : nat) (s : string) : option (json * string) :=
  match fuel with
  | O => None
  | S f =>
    match skip_ws s with
    | EmptyString => None
    | String c r =>
      if ascii_dec c quote then
        match parse_str (S (String.length r)) r with
        | Some (t, rest) => Some (JStr t, rest)
        | None => None
        end
      else if ascii_dec c "{" then
        match skip_ws r with
        | String "}" r' => Some (JObj [], r')
        | r' => parse_members f r'
        end
      else if ascii_dec c "[" then
        match skip_ws r with
        | String "]" r' => Some (JArr [], r')
        | r' => parse_elements f r'
        end
      else match parse_literal (String c r) with
           | Some v => Some v
           | None => match parse_num (String c r) with
                     | Some (l, rest) => Some (JNum l, rest)
                     | None => None
                     end
           end
    end
  end
with parse_members (fuel : nat) (s : string) : option (json * string) :=
  match fuel with
  | O => None
  | S f =>
    match skip_ws s with
    | String c r =>
      if ascii_dec c quote then
        match parse_str (S (String.length r)) r with
        | None => None
        | Some (k, r1) =>
            match skip_ws r1 with
            | String ":" r2 =>
                match parse_value f r2 with
                | None => None
                | Some (v, r3) =>
                    match skip_ws r3 with
                    | String "}" r4 => Some (JObj [(k, v)], r4)
                    | String "," r4 =>
                        match parse_members f r4 with
                        | Some (JObj l, r5) => Some (JObj ((k, v) :: l), r5)
                        | _ => None
                        end
                    | _ => None
                    end
                end
            | _ => None
            end
        end
      else None
    | EmptyString => None
    end
  end
with parse_elements (fuel : nat) (s : string) : option (json * string) :=
  match fuel with
  | O => None
  | S f =>
    match parse_value f s with
    | None => None
    | Some (v, r1) =>
        match skip_ws r1 with
        | String "]" r2 => Some (JArr [v], r2)
        | String "," r2 =>
            match parse_elements f r2 with
            | Some (JArr l, r3) => Some (JArr (v :: l), r3)
            | _ => None
            end
        | _ => None
        end
    end
  end.

(** Nesting depth of arrays and objects; the decoder refuses more than 10000. *)
Fixpoint depth (j : json) : Z :=
  (match j with
   | JArr l => 1 + fold_right (fun x acc => Z.max (depth x) acc) 0 l
   | JObj l => 1 + fold_right (fun '(_, x) acc => Z.max (depth x) acc) 0 l
   | _ => 0
   end)%Z.

Definition maxNestingDepth : Z := 10000.

(** The whole text is one value, with white space around it. *)
Definition parse_json (s : string) : option json :=
  match parse_value (2 * String.length s + 2) s with
  | Some (j, rest) =>
      match skip_ws rest with
      | EmptyString => if (depth j <=? maxNestingDepth)%Z then Some j else None
      | _ => None
      end
  | None => None
  end.

(** * Decoding

    A decoder takes the current value of its target, as [json.Unmarshal]
    does, and gives its new value; [None] is an error of the whole call. *)

Definition dec_string (cur : string) (j : json) : option string :=
  match j with JStr s => Some s | JNull => Some cur | _ => None end.

Definition dec_int64 (cur : Z) (j : json) : option Z :=
  match j with JNum lit => ParseInt lit | JNull => Some cur | _ => None end.

Fixpoint dec_entries (m : gmap string Z) (l : list (string * json)) : option (gmap string Z) :=
  match l with
  | [] => Some m
  | (k, v) :: l' => match dec_int64 0 v with
                    | Some z => dec_entries (<[k := z]> m) l'
                    | None => None
                    end
  end.

(** [map[string]int64]; the nil map is [None]. *)
Definition dec_counts (cur : option (gmap string Z)) (j : json) : option (option (gmap string Z)) :=
  match j with
  | JNull => Some None
  | JObj l => match dec_entries (default ∅ cur) l with
              | Some m => Some (Some m)
              | None => None
              end
  | _ => None
  end.

(** Field names match exactly, or else under simple case folding; besides the
    letters themselves only U+212A and U+017F fold to an ASCII letter. *)
Fixpoint fold_name (s : string) : string :=
  match s with
  | EmptyString => EmptyString
  | String a r =>
      if byte_in a 97 122 then String (ascii_of_N (N_of_ascii a - 32)) (fold_name r)
      else if byte_in a 226 226 then
        match r with
        | String b (String c r') =>
            if byte_in b 132 132 && byte_in c 170 170 then String "K" (fold_name r')
            else String a (fold_name r)
        | _ => String a (fold_name r)
        end
      else if byte_in a 197 197 then
        match r with
        | String b r' => if byte_in b 191 191 then String "S" (fold_name r')
                         else String a (fold_name r)
        | EmptyString => String a EmptyString
        end
      else String a (fold_name r)
  end.

Definition same_name (field key : string) : bool := bool_decide (fold_name field = fold_name key).

(** The decoder of the field that a key selects. *)
Fixpoint select {T} (fields : list (string * (T -> json -> option T))) (key : string)
  : option (T -> json -> option T) :=
  match fields with
  | [] => None
  | (n, d) :: fs => if same_name n key then Some d else select fs key
  end.

Fixpoint dec_fields {T} (fields : list (string * (T -> json -> option T)))
  (cur : T) (l : list (string * json)) : option T :=
  match l with
  | [] => Some cur
  | (k, v) :: l' =>
      match select fields k with
      | None => dec_fields fields cur l'
      | Some d => match d cur v with
                  | Some cur' => dec_fields fields cur' l'
                  | None => None
                  end
      end
  end.

Definition dec_struct {T} (fields : list (string * (T -> json -> option T)))
  (cur : T) (j : json) : option T :=
  match j with
  | JNull => Some cur
  | JObj l => dec_fields fields cur l
  | _ => None
  end.

(** Pointer to a struct: null is nil, an object is decoded into the struct it
    points to, a fresh one when there is none. *)
Definition dec_ptr {T} (zero : T) (fields : list (string * (T -> json -> option T)))
  (cur : option T) (j : json) : option (option T) :=
  match j with
  | JNull => Some None
  | _ => match dec_struct fields (default zero cur) j with
         | Some v => Some (Some v)
         | None => None
         end
  end.

(** * Encoding of [map[string]int64]: keys in byte order *)

Definition hex_char (n : Z) : ascii := byte_of (if (n <? 10)%Z then 48 + n else 87 + n).

Definition escape_u00 (c : ascii) : string :=
  let n := Z.of_N (N_of_ascii c) in
  "\u00" +:+ String (hex_char (n / 16)) (String (hex_char (n mod 16)) EmptyString).

Definition needs_hex (c : ascii) : bool :=
  byte_in c 0 31 || byte_in c 60 60 || byte_in c 62 62 || byte_in c 38 38.

Fixpoint enc_body (fuel : nat) (s : string) : string :=
  match fuel with
  | O => EmptyString
  | S f =>
    match s with
    | EmptyString => EmptyString
    | String c r =>
      if ascii_dec c quote then "\" +:+ String quote (enc_body f r)
      else if ascii_dec c "\" then "\\" +:+ enc_body f r
      else if byte_in c 8 8 then "\b" +:+ enc_body f r
      else if byte_in c 12 12 then "\f" +:+ enc_body f r
      else if byte_in c 10 10 then "\n" +:+ enc_body f r
      else if byte_in c 13 13 then "\r" +:+ enc_body f r
      else if byte_in c 9 9 then "\t" +:+ enc_body f r
      else if needs_hex c then escape_u00 c +:+ enc_body f r
      else match rune_head s with
           | None => "\ufffd" +:+ enc_body f r
           | Some (bs, r') =>
               if decide (bs = encode_rune 8232) then "\u2028" +:+ enc_body f r'
               else if decide (bs = encode_rune 8233) then "\u2029" +:+ enc_body f r'
               else bs +:+ enc_body f r'
           end
    end
  end.

Definition enc_string (s : string) : string :=
  String quote (enc_body (String.length s) s +:+ String quote EmptyString).

Fixpoint enc_entries (l : list (string * Z)) : string :=
  match l with
  | [] => "}"
  | [(k, v)] => enc_string k +:+ ":" +:+ FormatInt v +:+ "}"
  | (k, v) :: l' => enc_string k +:+ ":" +:+ FormatInt v +:+ "," +:+ enc_entries l'
  end.

Definition key_le (a b : string * Z) : Prop := String.le a.1 b.1.
#[export] Instance key_le_dec : RelDecision key_le.
Proof. intros a b. unfold key_le. apply _. Defined.

(** [json.Marshal] of a non-nil map. *)
Definition marshal_counts (m : gmap string Z) : string :=
  "{" +:+ enc_entries (merge_sort key_le (map_to_list m)).

(** [json.Unmarshal] into a map variable that holds [cur]. *)
Definition unmarshal_counts (cur : option (gmap string Z)) (s : string)
  : option (option (gmap string Z)) :=
  match parse_json s with Some j => dec_counts cur j | None => None end.
