(* ===== verification/GoTime.v ===== *)
(** Package [time] as the modelled code uses it, and float64: the proleptic Gregorian
    calendar behind [time.Date], the [RFC3339] layout of [time.Parse], and the
    calendar in a zone with a constant offset: [Time.Date], [Time.Weekday],
    [Time.AddDate] and [time.Date]. *)
From Stdlib Require Import ZArith Lia Ascii SpecFloat.
From stdpp Require Import base tactics numbers list strings option.
From S2P Require Import Prelude GoStrings GoJson.

Local Open Scope string_scope.
Local Open Scope Z_scope.

(** * Calendar *)

Definition is_leap (y : Z) : bool :=
  (y mod 4 =? 0) && (negb (y mod 100 =? 0) || (y mod 400 =? 0)).

(** Days from 0001-01-01 to January 1st of year [y]. *)
Definition days_before_year (y : Z) : Z :=
  let n := y - 1 in 365 * n + n / 4 - n / 100 + n / 400.

Definition days_in_month (y m : Z) : Z :=
  if m =? 2 then (if is_leap y then 29 else 28)
  else if (m =? 4) || (m =? 6) || (m =? 9) || (m =? 11) then 30 else 31.

(** Days from January 1st of year [y] to the first of month [m]. *)
Definition days_before_month (y m : Z) : Z :=
  let leap := if is_leap y then 1 else 0 in
  if m =? 1 then 0 else if m =? 2 then 31 else if m =? 3 then 59 + leap
  else if m =? 4 then 90 + leap else if m =? 5 then 120 + leap
  else if m =? 6 then 151 + leap else if m =? 7 then 181 + leap
  else if m =? 8 then 212 + leap else if m =? 9 then 243 + leap
  else if m =? 10 then 273 + leap else if m =? 11 then 304 + leap else 334 + leap.

(** Days from 0001-01-01 to the date. *)
Definition date_to_days (y m d : Z) : Z := days_before_year y + days_before_month y m + (d - 1).

(** [time.Date] in UTC for fields in their ranges, as nanoseconds. *)
Definition date_time (y mo d h mi s ns : Z) : gotime :=
  ((date_to_days y mo d * 24 + h) * 60 + mi) * minute + s * second + ns.

(** * RFC3339 *)

Definition digits2 (s : string) : option (Z * string) :=
  match s with
  | String a (String b r) =>
      match digit_val a, digit_val b with
      | Some x, Some y => Some (10 * x + y, r)
      | _, _ => None
      end
  | _ => None
  end.

Definition digits4 (s : string) : option (Z * string) :=
  match digits2 s with
  | Some (a, r) => match digits2 r with Some (b, r') => Some (100 * a + b, r') | None => None end
  | None => None
  end.

(** The hour may have one digit. *)
Definition digits12 (s : string) : option (Z * string) :=
  match digits2 s with
  | Some x => Some x
  | None => match s with
            | String a r => match digit_val a with Some x => Some (x, r) | None => None end
            | EmptyString => None
            end
  end.

Definition expect (c : ascii) (s : string) : option string :=
  match s with String a r => if ascii_dec a c then Some r else None | EmptyString => None end.

(** Fractional seconds: at least one digit after a dot or a comma; digits
    past the ninth are dropped. *)
Definition parse_fraction (s : string) : Z * string :=
  match s with
  | String c r =>
      if (if ascii_dec c "." then true else false) || (if ascii_dec c "," then true else false) then
        match span_digits r with
        | (EmptyString, _) => (0, s)
        | (d, rest) =>
            let d9 := String.substring 0 9 d in
            let v := default 0 (parse_digits 0 d9) in
            (v * 10 ^ (9 - Z.of_nat (String.length d9)), rest)
        end
      else (0, s)
  | EmptyString => (0, s)
  end.

(** The zone at the end of the text, in seconds east of UTC. *)
Definition parse_zone (s : string) : option Z :=
  match s with
  | String "Z" EmptyString => Some 0
  | String c r =>
      let sign := if ascii_dec c "+" then Some 1 else if ascii_dec c "-" then Some (-1) else None in
      match sign, digits2 r with
      | Some sg, Some (hh, String ":" r2) =>
          match digits2 r2 with
          | Some (mm, EmptyString) =>
              if (hh <=? 24) && (mm <=? 60) then Some (sg * (hh * 3600 + mm * 60)) else None
          | _ => None
          end
      | _, _ => None
      end
  | EmptyString => None
  end.

(** [time.Parse(time.RFC3339, s)]. *)
Definition ParseRFC3339 (s : string) : option gotime :=
  y ← digits4 s; s1 ← expect "-" y.2;
  mo ← digits2 s1; s2 ← expect "-" mo.2;
  d ← digits2 s2; s3 ← expect "T" d.2;
  h ← digits12 s3; s4 ← expect ":" h.2;
  mi ← digits2 s4; s5 ← expect ":" mi.2;
  sc ← digits2 s5;
  let fr := parse_fraction sc.2 in
  z ← parse_zone fr.2;
  if (1 <=? mo.1) && (mo.1 <=? 12) && (1 <=? d.1) && (d.1 <=? days_in_month y.1 mo.1) &&
     (h.1 <? 24) && (mi.1 <? 60) && (sc.1 <? 60)
  then Some (date_time y.1 mo.1 d.1 h.1 mi.1 sc.1 fr.1 - z * second)
  else None.

(** * Days and dates *)

(** Days of 400 years. *)
Definition cycle : Z := 146097.
Definition day_ns : Z := 24 * hour.

(** The month of day [yday] of year [y], days counted from zero. *)
Definition month_of_yday (y yday : Z) : Z :=
  fold_left (fun m k => if days_before_month y k <=? yday then k else m) [2; 3; 4; 5; 6; 7; 8; 9; 10; 11; 12] 1.

(** The date of day [n], counted from 0001-01-01: whole cycles, centuries,
    leap periods and years are cut off in turn. *)
Definition civil (n : Z) : Z * Z * Z :=
  let r := n mod cycle in
  let c100 := Z.min 3 (r / 36524) in
  let r1 := r - 36524 * c100 in
  let c4 := r1 / 1461 in
  let r2 := r1 - 1461 * c4 in
  let c1 := Z.min 3 (r2 / 365) in
  let yday := r2 - 365 * c1 in
  let y := 400 * (n / cycle) + 100 * c100 + 4 * c4 + c1 + 1 in
  let m := month_of_yday y yday in
  (y, m, yday - days_before_month y m + 1).

(** A time in the zone [loc] seconds east of UTC: its day and what is left. *)
Definition local_day (loc : Z) (t : gotime) : Z := (t + loc * second) / day_ns.
Definition local_ns (loc : Z) (t : gotime) : Z := (t + loc * second) mod day_ns.

Definition Date (loc : Z) (t : gotime) : Z * Z * Z := civil (local_day loc t).

(** Sunday is 0; 0001-01-01 was a Monday. *)
Definition Weekday (loc : Z) (t : gotime) : Z := (local_day loc t + 1) mod 7.

(** [time.Date] of a date and the nanoseconds of the day; a day outside of
    its month counts on. *)
Definition time_Date (loc y m d ns : Z) : gotime := date_to_days y m d * day_ns + ns - loc * second.

Definition AddDays (loc : Z) (t : gotime) (k : Z) : gotime :=
  let '(y, m, d) := Date loc t in time_Date loc y m (d + k) (local_ns loc t).

(** The first day of the month of day [n]. *)
Definition month_first (n : Z) : Z := let '(y, m, _) := civil n in date_to_days y m 1.

(** * Months of a year *)

Definition leap_day (y : Z) : Z := if is_leap y then 1 else 0.

(** A year with the same months. *)
Definition like (y : Z) : Z := if is_leap y then 4 else 1.

Lemma is_leap_like y : is_leap (like y) = is_leap y.
Proof. unfold like. by destruct (is_leap y) eqn:E. Qed.

Lemma days_before_month_like y m : days_before_month y m = days_before_month (like y) m.
Proof. unfold days_before_month. by rewrite is_leap_like. Qed.

Lemma days_in_month_like y m : days_in_month y m = days_in_month (like y) m.
Proof. unfold days_in_month. by rewrite is_leap_like. Qed.

Lemma month_of_yday_like y d : month_of_yday y d = month_of_yday (like y) d.
Proof. unfold month_of_yday. cbn [fold_left]. by rewrite !(days_before_month_like y). Qed.

(** All numbers of a range. *)
Fixpoint check_from (f : Z -> bool) (n : Z) (k : nat) : bool :=
  match k with O => true | S k' => f n && check_from f (n + 1) k' end.

Lemma check_from_spec f k n i : check_from f n k = true -> n <= i < n + Z.of_nat k -> f i = true.
Proof.
  revert n. induction k as [|k IH]; intros n; cbn [check_from]; [lia|].
  intros [H1 H2]%andb_true_iff Hi. destruct (Z.eq_dec i n) as [->|]; [exact H1|].
  apply (IH (n + 1) H2). lia.
Qed.

Definition yday_ok (y d : Z) : bool :=
  let m := month_of_yday y d in
  (1 <=? m) && (m <=? 12) && (days_before_month y m <=? d) && (d <? days_before_month y m + days_in_month y m).

Definition months_ok (y m m' : Z) : bool :=
  (days_before_month y m + days_in_month y m <=? 365 + leap_day y) && (0 <=? days_before_month y m) &&
  (1 <=? days_in_month y m) &&
  ((m' <=? m) || (days_before_month y m + days_in_month y m <=? days_before_month y m')).

Lemma ydays_checked : check_from (yday_ok 1) 0 365 && check_from (yday_ok 4) 0 366 = true.
Proof. vm_compute. reflexivity. Qed.

Lemma months_checked :
  check_from (fun m => check_from (fun m' => months_ok 1 m m' && months_ok 4 m m') 1 12) 1 12 = true.
Proof. vm_compute. reflexivity. Qed.

(** The month of a day of the year contains it. *)
Lemma month_of_yday_spec y d : 0 <= d < 365 + leap_day y ->
  let m := month_of_yday y d in
  1 <= m <= 12 /\ days_before_month y m <= d < days_before_month y m + days_in_month y m.
Proof.
  intros Hd. cbv zeta. rewrite days_before_month_like, days_in_month_like, month_of_yday_like.
  pose proof ydays_checked as [H1 H2]%andb_true_iff. unfold leap_day, like in *.
  assert (yday_ok (if is_leap y then 4 else 1) d = true) as Hok.
  { destruct (is_leap y); [apply (check_from_spec _ _ _ _ H2)|apply (check_from_spec _ _ _ _ H1)]; lia. }
  unfold yday_ok in Hok. lia.
Qed.

(** Months of a year follow each other. *)
Lemma months_spec y m m' : 1 <= m <= 12 -> 1 <= m' <= 12 ->
  days_before_month y m + days_in_month y m <= 365 + leap_day y /\ 0 <= days_before_month y m /\
  1 <= days_in_month y m /\ (m < m' -> days_before_month y m + days_in_month y m <= days_before_month y m').
Proof.
  intros Hm Hm'. pose proof (check_from_spec _ _ _ m months_checked ltac:(lia)) as Hc. cbv beta in Hc.
  pose proof (check_from_spec _ _ _ m' Hc ltac:(lia)) as [H1 H4]%andb_true_iff.
  rewrite !(days_before_month_like y), (days_in_month_like y). unfold leap_day, like. unfold months_ok in *.
  change (leap_day 1) with 0 in H1. change (leap_day 4) with 1 in H4.
  destruct (is_leap y); lia.
Qed.

(** * Years *)

Lemma days_before_year_succ y : days_before_year (y + 1) = days_before_year y + 365 + leap_day y.
Proof.
  unfold days_before_year, leap_day, is_leap. replace (y + 1 - 1) with y by lia.
  destruct (y mod 4 =? 0) eqn:E4, (y mod 100 =? 0) eqn:E100, (y mod 400 =? 0) eqn:E400; cbn [andb orb negb];
    Z.to_euclidean_division_equations; lia.
Qed.

Lemma leap_day_bounds y : 0 <= leap_day y <= 1.
Proof. unfold leap_day. destruct (is_leap y); lia. Qed.

Lemma days_before_year_mono y y' : y <= y' -> days_before_year y <= days_before_year y'.
Proof.
  intros Hy. replace y' with (y + Z.of_nat (Z.to_nat (y' - y))) by lia.
  induction (Z.to_nat (y' - y)) as [|k IH]; [rewrite Z.add_0_r; lia|].
  etrans; [exact IH|]. rewrite Nat2Z.inj_succ.
  replace (y + Z.succ (Z.of_nat k)) with (y + Z.of_nat k + 1) by lia. rewrite days_before_year_succ.
  pose proof (leap_day_bounds (y + Z.of_nat k)). lia.
Qed.

(** The last day of a month comes before the first of every later month. *)
Lemma month_before y m y' m' : 1 <= m <= 12 -> 1 <= m' <= 12 -> y < y' \/ (y = y' /\ m < m') ->
  date_to_days y m (days_in_month y m) < date_to_days y' m' 1.
Proof.
  intros Hm Hm' Hlt. unfold date_to_days. destruct (months_spec y m m' Hm Hm') as (H1 & _ & _ & H4).
  destruct Hlt as [Hy|[<- Hlt]]; [|specialize (H4 Hlt); lia].
  pose proof (days_before_year_mono (y + 1) y' ltac:(lia)) as Hmono. rewrite days_before_year_succ in Hmono.
  destruct (months_spec y' m' m' Hm' Hm') as (_ & H0 & _). lia.
Qed.

(** * All days *)

(** The cut into cycles, centuries, leap periods and years leaves a day of
    the year. *)
Lemma civil_year n : let '(y, m, d) := civil n in
  m = month_of_yday y (n - days_before_year y) /\ d = n - days_before_year y - days_before_month y m + 1 /\
  0 <= n - days_before_year y < 365 + leap_day y.
Proof.
  unfold civil. set (q := n / cycle). set (r := n mod cycle).
  assert (n = cycle * q + r /\ 0 <= r < cycle) as [En Hr].
  { unfold q, r. split; [apply Z.div_mod; unfold cycle; lia|apply Z.mod_pos_bound; unfold cycle; lia]. }
  set (a := Z.min 3 (r / 36524)). set (r1 := r - 36524 * a).
  set (b := r1 / 1461). set (r2 := r1 - 1461 * b). set (c := Z.min 3 (r2 / 365)). set (yd := r2 - 365 * c).
  assert (0 <= a <= 3 /\ 0 <= r1 <= 36524 /\ (a < 3 -> r1 < 36524)) as (Ha & Hr1 & Hr1').
  { unfold r1, a, cycle in *. Z.to_euclidean_division_equations; lia. }
  assert (0 <= b <= 24 /\ 0 <= r2 <= 1460) as (Hb & Hr2) by (unfold r2, b; Z.to_euclidean_division_equations; lia).
  assert (0 <= c <= 3 /\ 0 <= yd <= 365 /\ (c < 3 -> yd < 365)) as (Hc & Hyd & Hyd')
    by (unfold yd, c; Z.to_euclidean_division_equations; lia).
  set (y := 400 * q + 100 * a + 4 * b + c + 1).
  assert (days_before_year y = cycle * q + 36524 * a + 1461 * b + 365 * c) as Edy.
  { unfold days_before_year. replace (y - 1) with (400 * q + 100 * a + 4 * b + c) by (unfold y; lia).
    unfold cycle. clear -Ha Hb Hc. Z.to_euclidean_division_equations; lia. }
  replace (n - days_before_year y) with yd by (rewrite Edy; unfold yd, r2, r1; lia).
  split; [done|]. split; [done|].
  assert (yd = 365 -> leap_day y = 1) as Hleap.
  { intros E. assert (c = 3) by lia. assert (b = 24 -> a = 3) by (unfold r2 in *; unfold yd in *; lia).
    unfold leap_day, is_leap. replace y with (400 * q + 100 * a + 4 * b + 4) by (unfold y; lia).
    clear -Ha Hb H0. destruct (_ && _) eqn:El; [done|]. exfalso.
    apply andb_false_iff in El as [El|El].
    - apply Z.eqb_neq in El. Z.to_euclidean_division_equations; lia.
    - apply orb_false_iff in El as [E1 E2]. apply negb_false_iff, Z.eqb_eq in E1. apply Z.eqb_neq in E2.
      Z.to_euclidean_division_equations; lia. }
  pose proof (leap_day_bounds y). lia.
Qed.

(** Every day has its date. *)
Lemma civil_spec n : let '(y, m, d) := civil n in
  date_to_days y m d = n /\ 1 <= m <= 12 /\ 1 <= d <= days_in_month y m.
Proof.
  pose proof (civil_year n) as H. destruct (civil n) as [[y m] d]. destruct H as (-> & -> & Hd).
  destruct (month_of_yday_spec y _ Hd) as [Hm Hb]. unfold date_to_days. lia.
Qed.

Lemma month_first_le n : month_first n <= n.
Proof.
  unfold month_first. pose proof (civil_spec n) as H. destruct (civil n) as [[y m] d].
  destruct H as (<- & _ & Hd). unfold date_to_days. lia.
Qed.

Lemma month_first_mono n n' : n <= n' -> month_first n <= month_first n'.
Proof.
  intros Hn. unfold month_first. pose proof (civil_spec n) as H. pose proof (civil_spec n') as H'.
  destruct (civil n) as [[y m] d], (civil n') as [[y' m'] d'].
  destruct H as (E & Hm & Hd), H' as (E' & Hm' & Hd').
  destruct (decide (y' < y \/ (y' = y /\ m' < m))) as [Hlt|Hge].
  - pose proof (month_before y' m' y m Hm' Hm Hlt). unfold date_to_days in *. lia.
  - destruct (decide (y = y' /\ m = m')) as [[-> ->]|Hne]; [lia|].
    pose proof (month_before y m y' m' Hm Hm' ltac:(lia)).
    destruct (months_spec y m m Hm Hm) as (_ & _ & H1 & _). unfold date_to_days in *. lia.
Qed.

Lemma month_first_idem n : month_first (month_first n) = month_first n.
Proof.
  assert (month_first n <= month_first (month_first n)) as Hge.
  2: { pose proof (month_first_le (month_first n)). lia. }
  unfold month_first at 1 3. pose proof (civil_spec n) as H. destruct (civil n) as [[y m] d].
  destruct H as (E & Hm & Hd). unfold month_first. pose proof (civil_spec (date_to_days y m 1)) as H'.
  destruct (civil (date_to_days y m 1)) as [[y' m'] d']. destruct H' as (E' & Hm' & Hd').
  destruct (decide (y' < y \/ (y' = y /\ m' < m))) as [Hlt|Hn].
  - pose proof (month_before y' m' y m Hm' Hm Hlt). unfold date_to_days in *. lia.
  - destruct (decide (y = y' /\ m = m')) as [[-> ->]|Hne]; [lia|].
    pose proof (month_before y m y' m' Hm Hm' ltac:(lia)).
    destruct (months_spec y m m Hm Hm) as (_ & _ & H1 & _). unfold date_to_days in *. lia.
Qed.

(** * Numbers

    float64 as [SpecFloat] with 53 bits of precision. *)

Definition float_of_Z (z : Z) : spec_float := binary_normalize 53 1024 z 0 false.
Definition float_sub : spec_float -> spec_float -> spec_float := SFsub 53 1024.
Definition f_zero : spec_float := S754_zero false.

(** The literal [n/d]: the quotient of two exact integers is rounded once,
    as the decimal literal is. *)
Definition float_lit (n d : Z) : spec_float := SFdiv 53 1024 (float_of_Z n) (float_of_Z d).

(** [int(x)]: truncation toward zero; what Go leaves to the implementation,
    a value outside of int64, is the smallest int64, as on amd64. *)
Definition float_to_int (x : spec_float) : Z :=
  match x with
  | S754_zero _ => 0
  | S754_finite s m e =>
      let v := (if (e <? 0)%Z then Z.pos m / 2 ^ (- e) else Z.pos m * 2 ^ e)%Z in
      let z := if s then (- v)%Z else v in
      if (z <? - 2 ^ 63)%Z || (2 ^ 63 <=? z)%Z then (- 2 ^ 63)%Z else z
  | _ => (- 2 ^ 63)%Z
  end.

Example float_literals :
  float_lit 6 10 = S754_finite false 5404319552844595 (-53) /\ float_lit 2 10 = S754_finite false 7205759403792794 (-55) /\
  float_to_int (float_lit 79 10) = 7%Z.
Proof. vm_compute. auto. Qed.

(** ** Durations

    [time.Duration.String] of package [time]: a duration in nanoseconds as
    text, such as [10m0s]. *)

(** The last [prec] decimal digits of [v] as a fraction, without trailing
    zeros and without the point when nothing is left. *)
Fixpoint frac_digits (prec : nat) (v : Z) (acc : string) : string :=
  match prec with
  | O => match acc with EmptyString => EmptyString | _ => "." +:+ acc end
  | S p =>
      let d := (v mod 10)%Z in
      frac_digits p (v / 10)
        (match acc with
         | EmptyString => if (d =? 0)%Z then EmptyString else String (digit_char d) EmptyString
         | _ => String (digit_char d) acc
         end)
  end.

Definition hours_text (u : Z) : string :=
  let m := (u / 60)%Z in
  if (m =? 0)%Z then EmptyString
  else
    let h := (m / 60)%Z in
    (if (h =? 0)%Z then EmptyString else format_udec h +:+ "h") +:+ format_udec (m mod 60) +:+ "m".

(** Text of a duration [0 <= u]. *)
Definition duration_text (u : Z) : string :=
  if (u =? 0)%Z then "0s"
  else if (u <? 1000)%Z then format_udec u +:+ "ns"
  else if (u <? 1000000)%Z then format_udec (u / 1000) +:+ frac_digits 3 u EmptyString +:+ "µs"
  else if (u <? second)%Z then format_udec (u / 1000000) +:+ frac_digits 6 u EmptyString +:+ "ms"
  else
    let s := (u / second)%Z in
    hours_text s +:+ format_udec (s mod 60) +:+ frac_digits 9 u EmptyString +:+ "s".

Definition Duration_String (d : Z) : string :=
  if (d <? 0)%Z then "-" +:+ duration_text (- d) else duration_text d.

Example durations :
  map Duration_String [0; 30 * second; 600 * second; 3600 * second; 1500000000; 1500; -2 * second]%Z =
  ["0s"; "30s"; "10m0s"; "1h0m0s"; "1.5s"; "1.5µs"; "-2s"].
Proof. reflexivity. Qed.
