(* ===== verification/Prog.v ===== *)
(** Effectful Go code as programs over a signature of external calls.

    A program is either finished or performs one call (an SQL statement, a
    Redis script, an HTTP round trip, a clock reading) and goes on with its
    response.  One call is one atomic step, so the same program can be run
    alone, with faults injected at any call, or interleaved with others. *)
From Stdlib Require Import Lia.
From stdpp Require Import base tactics numbers list option.
From S2P Require Import Prelude.

Declare Scope prog_scope.
Delimit Scope prog_scope with prog.

(** * Programs *)

Inductive prog (E : Type -> Type) (A : Type) : Type :=
| Ret (a : A)
| Call {R : Type} (e : E R) (k : R -> prog E A).
Arguments Ret {E A} a.
Arguments Call {E A R} e k.

Fixpoint bind {E A B} (p : prog E A) (f : A -> prog E B) : prog E B :=
  match p with
  | Ret a => f a
  | Call e k => Call e (fun r => bind (k r) f)
  end.

Definition call {E R} (e : E R) : prog E R := Call e Ret.

Notation "x <- p ;; q" := (bind p (fun x => q))
  (at level 100, p at next level, right associativity) : prog_scope.
(** [x <-? p ;; q]: Go's [x, err := p; if err != nil { return err }]. *)
Notation "x <-? p ;; q" :=
  (bind p (fun r => match r with Ok x => q | Err e => Ret (Err e) end))
  (at level 100, p at next level, right associativity) : prog_scope.
Notation "p ;; q" := (bind p (fun _ => q))
  (at level 100, right associativity) : prog_scope.

Open Scope prog_scope.

(** A [for] loop over a slice that threads an accumulator. *)
Fixpoint for_each {E A S} (l : list A) (s : S) (body : A -> S -> prog E S) : prog E S :=
  match l with
  | [] => Ret s
  | a :: l' => s' <- body a s ;; for_each l' s' body
  end.

(** * Interpretation *)

(** What happens to one call: it works, it is lost before it takes effect, or
    it takes effect and only its answer is lost. *)
Inductive outcome : Type := Normal | FailBefore | FailAfter.

Class Interp (E : Type -> Type) (W : Type) : Type := {
  (** the effect of a call that works *)
  handle : forall R, E R -> W -> R * W;
  (** the response of a call that fails; [None] when it cannot fail *)
  fault : forall R, E R -> option R
}.
Arguments handle {E W _ R} _ _.
Arguments fault {E W _ R} _.

Section Exec.
Context {E : Type -> Type} {W : Type} `{Interp E W}.

Definition answer (o : outcome) {R} (e : E R) (w : W) : R * W :=
  match o, fault e with
  | FailBefore, Some r => (r, w)
  | FailAfter, Some r => (r, (handle e w).2)
  | _, _ => handle e w
  end.

(** A run alone under a schedule of outcomes; calls past the end of the
    schedule work. *)
Fixpoint exec {A} (os : list outcome) (p : prog E A) (w : W) : A * W :=
  match p with
  | Ret a => (a, w)
  | Call e k =>
      let '(r, w') := answer (hd Normal os) e w in exec (tl os) (k r) w'
  end.

(** The outcomes that a run leaves unused. *)
Fixpoint leftover {A} (os : list outcome) (p : prog E A) (w : W) : list outcome :=
  match p with
  | Ret _ => os
  | Call e k =>
      let '(r, w') := answer (hd Normal os) e w in leftover (tl os) (k r) w'
  end.

Lemma exec_bind {A B} os (p : prog E A) (f : A -> prog E B) w :
  exec os (bind p f) w =
  exec (leftover os p w) (f (exec os p w).1) (exec os p w).2.
Proof.
  revert os w. induction p as [a|R e k IH]; intros os w; simpl; [reflexivity|].
  destruct (answer _ e w) as [r w']. apply IH.
Qed.

Lemma exec_call {A R} os (e : E R) (k : R -> prog E A) w :
  exec os (Call e k) w =
  exec (tl os) (k (answer (hd Normal os) e w).1) (answer (hd Normal os) e w).2.
Proof. simpl. by destruct (answer _ e w). Qed.

Lemma leftover_call {A R} os (e : E R) (k : R -> prog E A) w :
  leftover os (Call e k) w = leftover (tl os) (k (answer (hd Normal os) e w).1) (answer (hd Normal os) e w).2.
Proof. simpl. by destruct (answer _ e w). Qed.

Lemma exec_ret {A} os (a : A) w : exec os (Ret a) w = (a, w).
Proof. reflexivity. Qed.

Lemma leftover_nil {A} (p : prog E A) w : leftover [] p w = [].
Proof.
  revert w. induction p as [a|R e k IH]; intros w; simpl; [reflexivity|].
  destruct (handle e w) as [r w']. apply IH.
Qed.

(** Runs without faults compose like function calls. *)
Lemma exec_bind_nil {A B} (p : prog E A) (f : A -> prog E B) w :
  exec [] (bind p f) w = exec [] (f (exec [] p w).1) (exec [] p w).2.
Proof. by rewrite exec_bind, leftover_nil. Qed.

(** One atomic step of one program. *)
Definition step {A} (o : outcome) (p : prog E A) (w : W) : prog E A * W :=
  match p with
  | Ret a => (Ret a, w)
  | Call e k => let '(r, w') := answer o e w in (k r, w')
  end.

(** ** Interleavings: a pool of programs and a schedule that names, at each
    step, the program that moves and the outcome of its call. *)
Fixpoint interleave {A} (sched : list (nat * outcome)) (pool : list (prog E A)) (w : W)
  : list (prog E A) * W :=
  match sched with
  | [] => (pool, w)
  | (i, o) :: sched' =>
      match pool !! i with
      | Some p => let '(p', w') := step o p w in
                  interleave sched' (<[i := p']> pool) w'
      | None => interleave sched' pool w
      end
  end.

(** ** Calls of a program

    [all_calls P p]: whatever the responses, every call of [p] satisfies
    [P].  This is a property of the program text alone, so it is stable
    under interleaving. *)
Inductive all_calls {A} (P : forall R, E R -> Prop) : prog E A -> Prop :=
| all_calls_ret a : all_calls P (Ret a)
| all_calls_call R (e : E R) k :
    P R e -> (forall r, all_calls P (k r)) -> all_calls P (Call e k).

Lemma all_calls_bind {A B} P (p : prog E A) (f : A -> prog E B) :
  all_calls P p -> (forall a, all_calls P (f a)) -> all_calls P (bind p f).
Proof.
  intros Hp Hf. induction Hp as [a|R e k He Hk IH]; simpl; [apply Hf|].
  constructor; [exact He|]. intros r. apply IH.
Qed.

Lemma all_calls_one (P : forall R, E R -> Prop) {R} (e : E R) :
  P R e -> all_calls P (call e).
Proof. intros He. constructor; [exact He|]. intros r. constructor. Qed.

Lemma all_calls_for_each {A S} P (l : list A) (s : S) (body : A -> S -> prog E S) :
  (forall a s', a ∈ l -> all_calls P (body a s')) -> all_calls P (for_each l s body).
Proof.
  revert s. induction l as [|a l IH]; intros s Hb; simpl; [constructor|].
  apply all_calls_bind; [apply Hb; left|].
  intros s'. apply IH. intros b s'' Hin. apply Hb. by right.
Qed.

Lemma all_calls_weaken {A} (P Q : forall R, E R -> Prop) (p : prog E A) :
  (forall R e, P R e -> Q R e) -> all_calls P p -> all_calls Q p.
Proof. intros HPQ Hp. induction Hp; constructor; auto. Qed.

(** A relation between worlds that every allowed call respects, whatever
    its outcome, relates the start and the end of every run. *)
Section Stable.
Context (P : forall R, E R -> Prop) (Rel : W -> W -> Prop) `{!PreOrder Rel}.
Hypothesis Hstep : forall R (e : E R) w, P R e -> Rel w (handle e w).2.

Lemma answer_stable o {R} (e : E R) w : P R e -> Rel w (answer o e w).2.
Proof.
  intros He. unfold answer.
  destruct o, (fault e); simpl; try reflexivity; by apply Hstep.
Qed.

Lemma exec_stable {A} (p : prog E A) : all_calls P p ->
  forall os w, Rel w (exec os p w).2.
Proof.
  induction 1 as [a|R e k He Hk IH]; intros os w; simpl; [reflexivity|].
  pose proof (answer_stable (hd Normal os) e w He) as Hw.
  destruct (answer _ e w) as [r w']; simpl in *. etrans; [exact Hw|apply IH].
Qed.

Lemma step_stable {A} o (p : prog E A) w : all_calls P p ->
  Rel w (step o p w).2 /\ all_calls P (step o p w).1.
Proof.
  intros Hp. destruct Hp as [a|R e k He Hk]; simpl.
  - split; [reflexivity|constructor].
  - pose proof (answer_stable o e w He) as Hw. destruct (answer o e w); simpl in *. auto.
Qed.

Lemma interleave_stable {A} sched (pool : list (prog E A)) w :
  Forall (all_calls P) pool -> Rel w (interleave sched pool w).2.
Proof.
  revert pool w. induction sched as [|[i o] sched IH]; intros pool w Hp; simpl; [reflexivity|].
  destruct (pool !! i) as [p|] eqn:Ei; [|by apply IH].
  pose proof (proj1 (Forall_lookup _ _) Hp _ _ Ei) as Hpi.
  destruct (step_stable o p w Hpi) as [H1 H2].
  destruct (step o p w) as [p' w']; simpl in *.
  etrans; [exact H1|]. apply IH. by apply Forall_insert.
Qed.
End Stable.
(** ** Amortised counting over interleavings

    [gain e r] is what a call earns when it is answered with [r].  If no
    allowed call earns more than the world loses of the budget [phi], and a
    program never returns a value worth more than it has earned, then all
    programs of a pool together return no more than the initial budget. *)
Section Budget.
Context (P : forall R, E R -> Prop) (gain : forall R, E R -> R -> nat) (phi : W -> nat).
Hypothesis Hgain : forall R (e : E R) w o, P R e ->
  gain R e (answer o e w).1 + phi (answer o e w).2 <= phi w.

Inductive earns {A} (val : A -> nat) : nat -> prog E A -> Prop :=
| earns_ret n a : val a <= n -> earns val n (Ret a)
| earns_call n R (e : E R) k :
    P R e -> (forall r, earns val (n + gain R e r) (k r)) -> earns val n (Call e k).

Lemma earns_weaken {A} (val : A -> nat) n m (p : prog E A) :
  n <= m -> earns val n p -> earns val m p.
Proof.
  intros Hnm Hp. revert m Hnm.
  induction Hp as [n a Ha|n R e k He Hk IH]; intros m Hnm; constructor.
  - lia.
  - exact He.
  - intros r. apply IH. lia.
Qed.

(** What is earned before a [bind] is carried over to its continuation. *)
Lemma earns_bind {A B} (val : B -> nat) n (p : prog E A) (f : A -> prog E B) :
  all_calls P p -> (forall a, earns val n (f a)) -> earns val n (bind p f).
Proof.
  intros Hp Hf. induction Hp as [a|R e k He Hk IH]; simpl; [apply Hf|].
  constructor; [exact He|]. intros r. eapply earns_weaken; [|apply IH]. lia.
Qed.

(** Renaming the result of a program. *)
Lemma earns_map {A B} (val : B -> nat) (g : A -> B) n (p : prog E A) :
  earns (fun a => val (g a)) n p -> earns val n (bind p (fun a => Ret (g a))).
Proof.
  induction 1 as [n a Ha|n R e k He Hk IH]; simpl; by constructor.
Qed.

Lemma earns_poor {A} (val : A -> nat) n (p : prog E A) :
  all_calls P p -> (forall a, val a = 0) -> earns val n p.
Proof.
  intros Hp Hv. revert n. induction Hp as [a|R e k He Hk IH]; intros n; constructor.
  - rewrite Hv. lia.
  - exact He.
  - intros r. apply IH.
Qed.

(** The value of a program that has finished. *)
Definition worth {A} (val : A -> nat) (p : prog E A) : nat :=
  match p with Ret a => val a | Call _ _ => 0 end.

Lemma worth_earned {A} (val : A -> nat) n (p : prog E A) : earns val n p -> worth val p <= n.
Proof. destruct 1; simpl; lia. Qed.

Lemma step_earns {A} (val : A -> nat) n o (p : prog E A) w : earns val n p ->
  exists n', earns val n' (step o p w).1 /\ n' + phi (step o p w).2 <= n + phi w.
Proof.
  intros Hp. destruct Hp as [n a Ha|n R e k He Hk]; simpl.
  - exists n. split; [by constructor|lia].
  - pose proof (Hgain R e w o He) as Hg.
    destruct (answer o e w) as [r w']; simpl in *.
    exists (n + gain R e r). split; [apply Hk|lia].
Qed.

Lemma sum_insert (l : list nat) i x y :
  l !! i = Some x -> sum_list (<[i := y]> l) + x = sum_list l + y.
Proof.
  revert i. induction l as [|z l IH]; intros [|i]; simpl; [done|done| |].
  - intros [= ->]. lia.
  - intros Hl. specialize (IH i Hl). lia.
Qed.

Lemma interleave_earned {A} (val : A -> nat) sched (pool : list (prog E A)) ns w :
  Forall2 (earns val) ns pool ->
  exists ns', Forall2 (earns val) ns' (interleave sched pool w).1 /\
    sum_list ns' + phi (interleave sched pool w).2 <= sum_list ns + phi w.
Proof.
  revert pool ns w. induction sched as [|[i o] sched IH]; intros pool ns w Hp; simpl.
  { exists ns. by split. }
  destruct (pool !! i) as [p|] eqn:Ei; [|by apply IH].
  destruct (Forall2_lookup_r _ _ _ _ _ Hp Ei) as (n & Hn & Hnp).
  destruct (step_earns val n o p w Hnp) as (n' & Hn' & Hle).
  destruct (step o p w) as [p' w']; simpl in *.
  destruct (IH (<[i := p']> pool) (<[i := n']> ns) w') as (ns' & H1 & H2).
  { by apply Forall2_insert. }
  exists ns'. split; [exact H1|]. pose proof (sum_insert ns i n n' Hn). lia.
Qed.

Lemma interleave_budget {A} (val : A -> nat) sched (pool : list (prog E A)) w :
  Forall (earns val 0) pool ->
  sum_list (map (worth val) (interleave sched pool w).1) <= phi w.
Proof.
  intros Hp.
  assert (Forall2 (earns val) (replicate (length pool) 0) pool) as H2.
  { induction Hp; simpl; constructor; auto. }
  destruct (interleave_earned val sched pool _ w H2) as (ns & Hns & Hle).
  assert (sum_list (replicate (length pool) 0) = 0) as H0.
  { clear. induction pool; simpl; auto. }
  enough (sum_list (map (worth val) (interleave sched pool w).1) <= sum_list ns) by lia.
  clear -Hns. induction Hns as [|n p ns ps Hn _ IH]; simpl; [lia|].
  pose proof (worth_earned val n p Hn). lia.
Qed.
End Budget.

(** ** Calls under an invariant

    As [all_calls], but a program only has to behave on the responses that
    can occur in worlds that satisfy the invariant [Inv]. *)
Section Guarded.
Context (P : forall R, E R -> Prop) (ok : forall R, E R -> R -> Prop) (Inv : W -> Prop)
  (Rel : W -> W -> Prop) `{!PreOrder Rel}.
Hypothesis Hkeep : forall R (e : E R) w o, Inv w -> P R e ->
  Inv (answer o e w).2 /\ Rel w (answer o e w).2 /\ ok R e (answer o e w).1.

Inductive guarded {A} (Q : A -> Prop) : prog E A -> Prop :=
| guarded_ret a : Q a -> guarded Q (Ret a)
| guarded_call R (e : E R) k : P R e -> (forall r, ok R e r -> guarded Q (k r)) -> guarded Q (Call e k).

Lemma guarded_bind {A B} (QA : A -> Prop) (QB : B -> Prop) (p : prog E A) (f : A -> prog E B) :
  guarded QA p -> (forall a, QA a -> guarded QB (f a)) -> guarded QB (bind p f).
Proof.
  intros Hp Hf. induction Hp as [a Ha|R e k He Hk IH]; simpl; [by apply Hf|].
  constructor; [exact He|]. intros r Hr. by apply IH.
Qed.

Lemma guarded_one {R} (e : E R) : P R e -> guarded (ok R e) (call e).
Proof. intros He. constructor; [exact He|]. intros r Hr. by constructor. Qed.

Lemma guarded_for_each {A S} (Q : S -> Prop) (l : list A) (s : S) (body : A -> S -> prog E S) :
  Q s -> (forall a s', a ∈ l -> Q s' -> guarded Q (body a s')) -> guarded Q (for_each l s body).
Proof.
  revert s. induction l as [|a l IH]; intros s Hs Hb; simpl; [by constructor|].
  apply (guarded_bind Q); [apply Hb; [left|exact Hs]|].
  intros s' Hs'. apply IH; [exact Hs'|]. intros b s'' Hin. apply Hb. by right.
Qed.

Lemma all_calls_guarded {A} (Q : A -> Prop) (p : prog E A) :
  all_calls P p -> (forall a, Q a) -> guarded Q p.
Proof. intros Hp HQ. induction Hp; constructor; auto. Qed.

Lemma interleave_guarded {A} (Q : A -> Prop) sched (pool : list (prog E A)) w :
  Inv w -> Forall (guarded Q) pool ->
  Inv (interleave sched pool w).2 /\ Rel w (interleave sched pool w).2.
Proof.
  revert pool w. induction sched as [|[i o] sched IH]; intros pool w Hw Hp; simpl; [by split|].
  destruct (pool !! i) as [p|] eqn:Ei; [|by apply IH].
  pose proof (proj1 (Forall_lookup _ _) Hp _ _ Ei) as Hpi.
  destruct Hpi as [a Ha|R e k He Hk]; simpl.
  - apply IH; [exact Hw|]. apply Forall_insert; [exact Hp|by constructor].
  - destruct (Hkeep R e w o Hw He) as (Hi & Hr & Ho). destruct (answer o e w) as [r w']; simpl in *.
    destruct (IH (<[i := k r]> pool) w' Hi) as [IH1 IH2]; [apply Forall_insert; [exact Hp|by apply Hk]|].
    split; [exact IH1|]. by etrans.
Qed.

(** What has finished has a good result. *)
Lemma interleave_results {A} (Q : A -> Prop) sched (pool : list (prog E A)) w :
  Inv w -> Forall (guarded Q) pool -> Forall (guarded Q) (interleave sched pool w).1.
Proof.
  revert pool w. induction sched as [|[i o] sched IH]; intros pool w Hw Hp; simpl; [done|].
  destruct (pool !! i) as [p|] eqn:Ei; [|by apply IH].
  pose proof (proj1 (Forall_lookup _ _) Hp _ _ Ei) as Hpi.
  destruct Hpi as [a Ha|R e k He Hk]; simpl.
  - apply IH; [exact Hw|]. apply Forall_insert; [exact Hp|by constructor].
  - destruct (Hkeep R e w o Hw He) as (Hi & Hr & Ho). destruct (answer o e w) as [r w']; simpl in *.
    apply IH; [exact Hi|]. apply Forall_insert; [exact Hp|by apply Hk].
Qed.

(** A run alone ends in a good result. *)
Lemma exec_guarded {A} (Q : A -> Prop) (p : prog E A) : guarded Q p ->
  forall os w, Inv w -> Q (exec os p w).1 /\ Inv (exec os p w).2 /\ Rel w (exec os p w).2.
Proof.
  induction 1 as [a Ha|R e k He Hk IH]; intros os w Hw; simpl; [by repeat split|].
  destruct (Hkeep R e w (hd Normal os) Hw He) as (Hi & Hr & Ho).
  destruct (answer _ e w) as [r w']; simpl in *.
  destruct (IH r Ho (tl os) w' Hi) as (H1 & H2 & H3). repeat split; [done..|]. by etrans.
Qed.
End Guarded.

(** For guarded programs whose invariant is all that matters. *)
#[export] Instance any_preorder : PreOrder (fun _ _ : W => True).
Proof. by split. Qed.

(** A property of runs that every iteration keeps is kept by the loop. *)
Lemma exec_for_each_stable {A S} (Rel : W -> W -> Prop) `{!PreOrder Rel}
  (l : list A) (body : A -> S -> prog E S) :
  (forall a s os w, a ∈ l -> Rel w (exec os (body a s) w).2) ->
  forall s os w, Rel w (exec os (for_each l s body) w).2.
Proof.
  induction l as [|a l IH]; intros Hb s os w; simpl; [reflexivity|].
  rewrite exec_bind. etrans; [apply Hb; left|].
  apply IH. intros b s' os' w' Hin. apply Hb. by right.
Qed.

Lemma exec_bind_stable {A B} (Rel : W -> W -> Prop) `{!PreOrder Rel}
  (p : prog E A) (f : A -> prog E B) :
  (forall os w, Rel w (exec os p w).2) -> (forall a os w, Rel w (exec os (f a) w).2) ->
  forall os w, Rel w (exec os (bind p f) w).2.
Proof. intros Hp Hf os w. rewrite exec_bind. etrans; [apply Hp|apply Hf]. Qed.
End Exec.

Arguments exec : simpl never.
Arguments leftover : simpl never.

(** Runs the next call of the goal's program. *)
Ltac run_call := rewrite exec_call; cbn [bind call].

(** Decomposes the call sequence of a program text into its single calls. *)
Ltac calls_step :=
  match goal with
  | |- all_calls _ (Ret _) => constructor
  | |- all_calls _ (bind _ _) => apply all_calls_bind; [|intros ?]
  | |- all_calls _ (call _) => apply all_calls_one
  | |- all_calls _ (Call _ _) => constructor; [|intros ?]
  | |- all_calls _ (for_each _ _ _) => apply all_calls_for_each; intros ? ? ?; cbv beta
  | |- all_calls _ (match ?x with _ => _ end) => destruct x eqn:?
  end.
Ltac calls_solve tac := repeat (first [calls_step | progress (tac)]).

(** Transactions ([lib/xdb.go] and [storage/rdb/txn]): the interface between
    the managers and the database, and what a transaction that fails leaves
    behind. *)

(** The calls of a signature that delimit a transaction. *)
Class TxnCalls (E : Type -> Type) : Type := {
  tx_begin : E (result unit);
  tx_commit : E (result unit);
  tx_rollback : E unit;
  is_commit : forall R, E R -> bool
}.
Arguments is_commit {E _ R} _.

(** [AtomExecute]: the variables that the closure sets are its second result,
    [init] what they hold before it runs.  After an error of a broken
    connection the code leaves the rollback to the server, which is the same
    step here.  COMMIT may fail as any call may: it does not arrive, and the
    server rolls the transaction back when the connection ends; or it is done
    and only its answer is lost, and there is nothing left to roll back. *)
Definition AtomExecute {E A} `{!TxnCalls E} (init : A) (body : prog E (option goerr * A))
  : prog E (option goerr * A) :=
  b <- call tx_begin ;;
  match b with
  | Err e => Ret (Some e, init)
  | Ok _ =>
      r <- body ;;
      match r with
      | (Some e, a) => call tx_rollback ;; Ret (Some e, a)
      | (None, a) =>
          c <- call tx_commit ;;
          match c with Err e => call tx_rollback ;; Ret (Some e, a) | Ok _ => Ret (None, a) end
      end
  end.

(** Whether a run has a COMMIT that was done and whose answer was lost. *)
Fixpoint commit_unanswered {E W A} `{!Interp E W, !TxnCalls E} (os : list outcome) (p : prog E A) (w : W) : bool :=
  match p with
  | Ret _ => false
  | Call e k =>
      (match hd Normal os with FailAfter => is_commit e | _ => false end) ||
      commit_unanswered (tl os) (k (answer (hd Normal os) e w).1) (answer (hd Normal os) e w).2
  end.
Lemma unanswered_bind {E W A B} `{!Interp E W, !TxnCalls E} os (p : prog E A) (f : A -> prog E B) (w : W) :
  commit_unanswered os (bind p f) w =
  commit_unanswered os p w || commit_unanswered (leftover os p w) (f (exec os p w).1) (exec os p w).2.
Proof.
  revert os w. induction p as [a|R e k IH]; intros os w; [done|]. cbn [bind commit_unanswered]. rewrite IH, orb_assoc.
  by rewrite exec_call, leftover_call.
Qed.
Lemma unanswered_first {E W A B} `{!Interp E W, !TxnCalls E} os (p : prog E A) (f : A -> prog E B) (w : W) :
  commit_unanswered os p w = true -> commit_unanswered os (bind p f) w = true.
Proof. rewrite unanswered_bind. by intros ->. Qed.
Lemma unanswered_nil {E W A} `{!Interp E W, !TxnCalls E} (p : prog E A) (w : W) : commit_unanswered [] p w = false.
Proof. revert w. induction p as [a|R e k IH]; intros w; [done|]. apply IH. Qed.


(** ** Closures that answer with a result *)

(** Such a closure, read as the body of a transaction. *)
Definition as_body {E A} (p : prog E (result A)) : prog E (option goerr * option A) :=
  r <- p ;; Ret (match r with Ok a => (None, Some a) | Err e => (Some e, None) end).
(** [AtomExecute] around it. *)
Definition atomically {E A} `{!TxnCalls E} (p : prog E (result A)) : prog E (result A) :=
  r <- AtomExecute None (as_body p) ;;
  Ret (match r with
       | (None, Some a) => Ok a
       | (Some e, _) => Err e
       | (None, None) => Err no_result
       end).
(** The operation is recorded, then its result is returned. *)
Definition recorded {E A} (record : option goerr -> prog E unit) (p : prog E (result A)) : prog E (result A) :=
  r <- p ;;
  record (match r with Ok _ => None | Err e => Some e end) ;;
  Ret r.
(** One after the other, until one fails. *)
Definition run_checks {E A} (checks : list A) (run : A -> prog E (result unit)) : prog E (result unit) :=
  for_each checks (Ok tt) (fun c s => match s with Ok _ => run c | Err e => Ret (Err e) end).

Lemma all_calls_try {E A B} (P : forall R, E R -> Prop) (p : prog E (result A)) (f : A -> prog E (result B)) :
  all_calls P p -> (forall a, all_calls P (f a)) -> all_calls P (x <-? p ;; f x).
Proof. intros Hp Hf. apply all_calls_bind; [done|]. intros [a|e]; [apply Hf|constructor]. Qed.
Lemma all_calls_recorded {E A} (P : forall R, E R -> Prop) record (p : prog E (result A)) :
  (forall e, all_calls P (record e)) -> all_calls P p -> all_calls P (recorded record p).
Proof. intros Hr Hp. apply all_calls_bind; [done|]. intros r. apply all_calls_bind; [apply Hr|constructor]. Qed.
Lemma all_calls_checks {E A} (P : forall R, E R -> Prop) (l : list A) (run : A -> prog E (result unit)) :
  (forall a, a ∈ l -> all_calls P (run a)) -> all_calls P (run_checks l run).
Proof. intros Hr. apply all_calls_for_each. intros a [u|e] Ha; [by apply Hr|constructor]. Qed.
Lemma all_calls_atomically {E A} `{!TxnCalls E} (P : forall R, E R -> Prop) (p : prog E (result A)) :
  P _ tx_begin -> P _ tx_commit -> P _ tx_rollback -> all_calls P p -> all_calls P (atomically p).
Proof.
  intros Hb Hc Hr Hp. unfold atomically, AtomExecute, as_body. apply all_calls_bind; [|intros [[e|] [a|]]; constructor].
  apply all_calls_bind; [by apply all_calls_one|]. intros [u|e]; [|constructor].
  apply all_calls_bind; [apply all_calls_bind; [done|intros [a|e]; constructor]|].
  intros [[e|] a]; (apply all_calls_bind; [by apply all_calls_one|]); [constructor|].
  intros [u'|e]; [constructor|]. apply all_calls_bind; [by apply all_calls_one|constructor].
Qed.

(** After a failure the rest is not run. *)
Lemma checks_stopped {E A} (l : list A) (run : A -> prog E (result unit)) e :
  for_each l (Err e) (fun c s => match s with Ok _ => run c | Err e => Ret (Err e) end) = Ret (Err e).
Proof. induction l as [|a l IH]; [done|exact IH]. Qed.
(** What the database promises: [same] says that two worlds hold the same
    data, [kept] what the statements inside a transaction may change.  A
    transaction that does not start changes no data, rolling back gives the
    data from before its start, and after a COMMIT there is nothing to roll
    back. *)
Class Transactional (E : Type -> Type) (W : Type) `{!Interp E W, !TxnCalls E} (same kept : W -> W -> Prop) : Prop := {
  same_preorder :: PreOrder same;
  kept_preorder :: PreOrder kept;
  begin_fails : forall o w e, (answer o tx_begin w).1 = Err e -> same w (answer o tx_begin w).2;
  rollback_restores : forall o o' w w1, (answer o tx_begin w).1 = Ok tt ->
    kept (answer o tx_begin w).2 w1 -> same w (answer o' tx_rollback w1).2;
  commit_works : forall w, (handle tx_commit w).1 = Ok tt;
  commit_keeps : forall w, same w (handle tx_commit w).2;
  committed_stays : forall o w, same (handle tx_commit w).2 (answer o tx_rollback (handle tx_commit w).2).2;
  commit_is_one : is_commit tx_commit = true
}.

Section Atomic.
Context {E : Type -> Type} {W : Type} `{!Interp E W, !TxnCalls E} {same kept : W -> W -> Prop}.
Context `{!Transactional E W same kept} (P : forall R, E R -> Prop).
Hypothesis Hstep : forall R (e : E R) w, P R e -> kept w (handle e w).2.

(** COMMIT answers with success, does not arrive, or has no answer. *)
Lemma commit_answer o w : answer o tx_commit w = (Ok tt, (handle tx_commit w).2) \/
  (exists r, answer o tx_commit w = (r, w)) \/ o = FailAfter.
Proof.
  unfold answer. pose proof (commit_works w) as Hc. destruct (handle tx_commit w) as [r w1]. cbn [fst snd] in *. subst r.
  destruct o; [by left| |by auto]. destruct (fault tx_commit) as [r|]; [|by left]. right. left. by exists r.
Qed.

(** A transaction that reports an error has changed nothing; or the answer of
    its COMMIT was lost, and its closure has run to the end. *)
Lemma AtomExecute_ends {A} (init : A) (body : prog E (option goerr * A)) os w e a :
  all_calls P body ->
  (exec os (AtomExecute init body) w).1 = (Some e, a) ->
  same w (exec os (AtomExecute init body) w).2 \/
  (commit_unanswered os (AtomExecute init body) w = true /\
   exists os' w0, answer (hd Normal os) tx_begin w = (Ok tt, w0) /\ (exec os' body w0).1 = (None, a) /\
     same (exec os' body w0).2 (exec os (AtomExecute init body) w).2).
Proof.
  intros Hb. unfold AtomExecute. cbn [bind call]. rewrite exec_call. cbn [commit_unanswered].
  destruct (answer (hd Normal os) tx_begin w) as [[[]|e0] w0] eqn:E0; cbn [fst snd].
  2: { intros _. rewrite exec_ret. cbn [snd]. pose proof (begin_fails (hd Normal os) w e0) as Hs.
       rewrite E0 in Hs. left. by apply Hs. }
  pose proof (exec_stable P kept Hstep body Hb (tl os) w0) as Hk. rewrite unanswered_bind.
  assert (forall o, same w (answer o tx_rollback (exec (tl os) body w0).2).2) as Hroll.
  { intros o. eapply (rollback_restores (hd Normal os)); rewrite E0; [done|exact Hk]. }
  rewrite exec_bind. destruct (exec (tl os) body w0) as [[[err|] b] w1] eqn:Eb; cbn [fst snd bind call] in *; rewrite exec_call.
  - intros _. left. apply Hroll.
  - cbn [commit_unanswered]. set (o := hd Normal (leftover _ _ _)).
    destruct (commit_answer o w1) as [->|[[r ->]| Ho]]; cbn [fst snd].
    + rewrite exec_ret. discriminate.
    + destruct r as [u|e']; [rewrite exec_ret; discriminate|]. cbn [bind call]. rewrite exec_call. intros _. left. apply Hroll.
    + rewrite Ho, commit_is_one, orb_true_l, !orb_true_r. intros He. right. split; [done|]. exists (tl os), w0. rewrite Eb. split; [done|].
      pose proof (commit_works w1) as Hc. pose proof (commit_keeps w1) as Hkeep.
      unfold answer in *. destruct (fault tx_commit) as [r|]; cbn [fst snd] in *.
      * destruct r as [u|e']; [by rewrite exec_ret in He|]. cbn [bind call] in *. rewrite exec_call, exec_ret in *. cbn [fst snd] in *.
        injection He as _ <-. split; [done|]. etrans; [exact Hkeep|apply committed_stays].
      * destruct (handle tx_commit w1) as [r w2]. cbn [fst snd] in *. subst r. by rewrite exec_ret in He.
Qed.
Lemma AtomExecute_fails {A} (init : A) (body : prog E (option goerr * A)) os w e a :
  all_calls P body ->
  (exec os (AtomExecute init body) w).1 = (Some e, a) ->
  same w (exec os (AtomExecute init body) w).2 \/ commit_unanswered os (AtomExecute init body) w = true.
Proof. intros Hb He. destruct (AtomExecute_ends init body os w e a Hb He) as [?|[? _]]; auto. Qed.

(** One that reports none has run its body to the end and committed. *)
Lemma AtomExecute_works {A} (init : A) (body : prog E (option goerr * A)) os w a :
  (exec os (AtomExecute init body) w).1 = (None, a) ->
  exists os' o w0, answer (hd Normal os) tx_begin w = (Ok tt, w0) /\ (exec os' body w0).1 = (None, a) /\
    (answer o tx_commit (exec os' body w0).2).1 = Ok tt /\
    (exec os (AtomExecute init body) w).2 = (answer o tx_commit (exec os' body w0).2).2.
Proof.
  unfold AtomExecute. cbn [bind call]. rewrite exec_call.
  destruct (answer (hd Normal os) tx_begin w) as [[[]|e0] w0] eqn:E0; cbn [fst snd]; [|by rewrite exec_ret].
  rewrite exec_bind. destruct (exec (tl os) body w0) as [[[err|] b] w1] eqn:Eb; cbn [fst snd bind call];
    rewrite exec_call; [by rewrite exec_ret|].
  set (o := hd Normal (leftover _ _ _)). destruct (answer o tx_commit w1) as [[[]|e'] w2] eqn:Ec; cbn [fst snd bind call].
  - rewrite exec_ret. cbn [fst snd]. intros [= <-]. exists (tl os), o, w0. rewrite Eb. cbn [fst snd]. by rewrite Ec.
  - rewrite exec_call, exec_ret. discriminate.
Qed.
(** The same for closures that answer with a result. *)
Lemma atomically_ends {A} (p : prog E (result A)) os w e :
  all_calls P p -> (exec os (atomically p) w).1 = Err e ->
  same w (exec os (atomically p) w).2 \/
  (commit_unanswered os (atomically p) w = true /\
   exists os' w0 a, answer (hd Normal os) tx_begin w = (Ok tt, w0) /\ (exec os' p w0).1 = Ok a /\
     same (exec os' p w0).2 (exec os (atomically p) w).2).
Proof.
  intros Hp. unfold atomically. rewrite exec_bind, unanswered_bind.
  assert (all_calls P (as_body p)) as Hb by (apply all_calls_bind; [done|intros []; constructor]).
  assert (forall os' w0 o, (exec os' (as_body p) w0).1 = (None, o) -> exists a, (exec os' p w0).1 = Ok a /\ o = Some a) as Hbody.
  { intros os' w0 o. unfold as_body. rewrite exec_bind. destruct (exec os' p w0) as [[a|err] w1]; rewrite exec_ret; [|done].
    intros [= <-]. by exists a. }
  assert (forall os' w0, (exec os' (as_body p) w0).2 = (exec os' p w0).2) as Hsnd.
  { intros os' w0. unfold as_body. rewrite exec_bind. by destruct (exec os' p w0) as [[a|err] w1]. }
  pose proof (fun err o => AtomExecute_ends None (as_body p) os w err o Hb) as Hf. pose proof (AtomExecute_works None (as_body p) os w) as Hw.
  destruct (exec os (AtomExecute None (as_body p)) w) as [[[err|] o] w']; cbn [fst snd] in *; rewrite exec_ret; cbn [fst snd].
  - intros _. destruct (Hf err o eq_refl) as [?|[-> (os' & w0 & H0 & H1 & H2)]]; [by left|right]. split; [done|].
    destruct (Hbody _ _ _ H1) as (a & Ha & _). rewrite Hsnd in H2. by exists os', w0, a.
  - destruct o as [a|]; [done|]. destruct (Hw None eq_refl) as (os' & o & w0 & _ & H1 & _). by destruct (Hbody _ _ _ H1) as (a & _ & ?).
Qed.
Lemma atomically_fails {A} (p : prog E (result A)) os w e :
  all_calls P p -> (exec os (atomically p) w).1 = Err e ->
  same w (exec os (atomically p) w).2 \/ commit_unanswered os (atomically p) w = true.
Proof. intros Hp He. destruct (atomically_ends p os w e Hp He) as [?|[? _]]; auto. Qed.
End Atomic.

(** * Operations that fail *)

(** Calls that change no data, and statements that may be rolled back. *)
Class ReadingCalls (E : Type -> Type) (W : Type) `{!Interp E W} (same : W -> W -> Prop) (reading : forall R, E R -> Prop) : Prop :=
  reading_same : forall R (e : E R) w, reading R e -> same w (handle e w).2.
Class StatementCalls (E : Type -> Type) (W : Type) `{!Interp E W} (kept : W -> W -> Prop) (statement : forall R, E R -> Prop) : Prop :=
  statement_kept : forall R (e : E R) w, statement R e -> kept w (handle e w).2.

Section Clean.
Context {E : Type -> Type} {W : Type} `{!Interp E W, !TxnCalls E} (same : W -> W -> Prop).

(** A program that changes no data at all, and one that changes none when it
    reports an error, unless the answer of a COMMIT was lost. *)
Definition silent {A} (p : prog E A) : Prop := forall os w, same w (exec os p w).2.
Definition fails_clean {A} (p : prog E (result A)) : Prop :=
  forall os w e, (exec os p w).1 = Err e -> same w (exec os p w).2 \/ commit_unanswered os p w = true.
Definition succeeds {A} (p : prog E (result A)) : Prop := forall os w e, (exec os p w).1 <> Err e.

Lemma succeeds_ret {A} (a : A) : succeeds (Ret (Ok a)).
Proof. by intros os w e. Qed.
Lemma succeeds_bind {A B} (p : prog E A) (f : A -> prog E (result B)) : (forall a, succeeds (f a)) -> succeeds (bind p f).
Proof. intros Hf os w e. rewrite exec_bind. apply Hf. Qed.
Lemma clean_succeeds {A} (p : prog E (result A)) : succeeds p -> fails_clean p.
Proof. intros Hp os w e He. by destruct (Hp os w e). Qed.
Lemma clean_silent {A} (p : prog E (result A)) : silent p -> fails_clean p.
Proof. intros Hp os w e _. left. apply Hp. Qed.

Context `{!PreOrder same}.

Lemma silent_ret {A} (a : A) : silent (Ret a).
Proof. intros os w. rewrite exec_ret. reflexivity. Qed.
Lemma silent_bind {A B} (p : prog E A) (f : A -> prog E B) : silent p -> (forall a, silent (f a)) -> silent (bind p f).
Proof. intros Hp Hf os w. rewrite exec_bind. etrans; [apply Hp|apply Hf]. Qed.
Lemma clean_after {A B} (p : prog E A) (f : A -> prog E (result B)) :
  silent p -> (forall a, fails_clean (f a)) -> fails_clean (bind p f).
Proof.
  intros Hp Hf os w e. rewrite exec_bind, unanswered_bind. intros He. destruct (Hf _ _ _ _ He) as [Hs| ->]; [left|right; apply orb_true_r].
  etrans; [apply Hp|exact Hs].
Qed.

Context (reading : forall R, E R -> Prop) `{!ReadingCalls E W same reading}.

Lemma exec_reading {A} (p : prog E A) : all_calls reading p -> silent p.
Proof. intros Hp os w. apply (exec_stable reading same); [|exact Hp]. intros R e w' He. by apply (reading_same (reading := reading)). Qed.
Lemma clean_reading {A} (p : prog E (result A)) : all_calls reading p -> fails_clean p.
Proof. intros Hp. by apply clean_silent, exec_reading. Qed.
Lemma clean_bind {A B} (p : prog E A) (f : A -> prog E (result B)) :
  all_calls reading p -> (forall a, fails_clean (f a)) -> fails_clean (bind p f).
Proof. intros Hp. by apply clean_after, exec_reading. Qed.

Context (kept : W -> W -> Prop) `{!Transactional E W same kept}.
Context (statement : forall R, E R -> Prop) `{!StatementCalls E W kept statement}.

(** A transaction, then what follows its error and its success. *)
Lemma clean_atom {A B} (init : A) body (f : option goerr * A -> prog E (result B)) : all_calls statement body ->
  (forall e a, all_calls reading (f (Some e, a))) -> (forall a, succeeds (f (None, a))) ->
  fails_clean (bind (AtomExecute init body) f).
Proof.
  intros Hb He Hs os w e. rewrite exec_bind, unanswered_bind.
  pose proof (AtomExecute_fails (same := same) (kept := kept) statement (@statement_kept _ _ _ kept statement _) init body os w) as Ha.
  destruct (exec os (AtomExecute init body) w) as [[[err|] a] w1]; cbn [fst snd] in *; [|intros H; by destruct (Hs a _ _ _ H)].
  intros _. destruct (Ha err a Hb eq_refl) as [Hsame| ->]; [left|by right]. etrans; [exact Hsame|by apply exec_reading].
Qed.
End Clean.

Ltac succeeds_go := repeat first [apply succeeds_ret | apply succeeds_bind; intros ? | match goal with |- succeeds (match ?x with _ => _ end) => destruct x end].

(** Triples for programs that run alone: whatever calls fail, a run from a
    world that satisfies the precondition ends in one that satisfies the
    postcondition. *)

Create HintDb hoare.

#[export] Instance keeps_preorder {W} (I : W -> Prop) : PreOrder (fun w w' => I w -> I w').
Proof. split; [by intros w|]. intros w1 w2 w3 H1 H2 H. auto. Qed.

Section Hoare.
Context {E : Type -> Type} {W : Type} `{!Interp E W}.

Definition hoare {A} (Pre : W -> Prop) (p : prog E A) (Post : A -> W -> Prop) : Prop :=
  forall os w, Pre w -> Post (exec os p w).1 (exec os p w).2.

Lemma hoare_ret {A} (Pre : W -> Prop) (a : A) (Post : A -> W -> Prop) :
  (forall w, Pre w -> Post a w) -> hoare Pre (Ret a) Post.
Proof. intros H os w Hw. by apply H. Qed.

Lemma hoare_bind {A B} (Pre : W -> Prop) (p : prog E A) (f : A -> prog E B) (Mid : A -> W -> Prop) (Post : B -> W -> Prop) :
  hoare Pre p Mid -> (forall a, hoare (Mid a) (f a) Post) -> hoare Pre (bind p f) Post.
Proof. intros Hp Hf os w Hw. rewrite exec_bind. apply Hf. by apply Hp. Qed.

Lemma hoare_call {R} (Pre : W -> Prop) (e : E R) (Post : R -> W -> Prop) :
  (forall o w, Pre w -> Post (answer o e w).1 (answer o e w).2) -> hoare Pre (call e) Post.
Proof. intros H os w Hw. unfold call. rewrite exec_call. by apply H. Qed.

(** A call that works, and one that fails with an answer of its own. *)
Lemma hoare_call_cases {R} (Pre : W -> Prop) (e : E R) (Post : R -> W -> Prop) :
  (forall w, Pre w -> Post (handle e w).1 (handle e w).2) ->
  (forall w r, Pre w -> fault e = Some r -> Post r w /\ Post r (handle e w).2) ->
  hoare Pre (call e) Post.
Proof.
  intros H1 H2. apply hoare_call. intros o w Hw. unfold answer.
  specialize (H2 w). destruct (fault e) as [r|]; [|destruct o; by apply H1].
  destruct (H2 r Hw eq_refl) as [Hb Ha]. destruct o; [by apply H1|done|done].
Qed.

Lemma hoare_weaken {A} (Pre Pre' : W -> Prop) (p : prog E A) (Post Post' : A -> W -> Prop) :
  (forall w, Pre w -> Pre' w) -> (forall a w, Post' a w -> Post a w) -> hoare Pre' p Post' -> hoare Pre p Post.
Proof. intros H1 H2 Hp os w Hw. by apply H2, Hp, H1. Qed.

Lemma hoare_post {A} (Pre : W -> Prop) (p : prog E A) (Post Post' : A -> W -> Prop) :
  (forall a w, Post' a w -> Post a w) -> hoare Pre p Post' -> hoare Pre p Post.
Proof. intros H. by apply hoare_weaken. Qed.

(** A fact that does not speak of the world may be moved out of the
    precondition. *)
Lemma hoare_pure {A} (F : Prop) (Pre : W -> Prop) (p : prog E A) (Post : A -> W -> Prop) :
  (F -> hoare Pre p Post) -> hoare (fun w => F /\ Pre w) p Post.
Proof. intros H os w [HF Hw]. by apply H. Qed.

Lemma hoare_fact {A} (F : Prop) (Pre : W -> Prop) (p : prog E A) (Post : A -> W -> Prop) :
  (F -> hoare Pre p Post) -> hoare (fun w => Pre w /\ F) p Post.
Proof. intros H os w [Hw HF]. by apply H. Qed.

(** The same, for a precondition that implies the fact. *)
Lemma hoare_given {A} (F : Prop) (Pre' Pre : W -> Prop) (p : prog E A) (Post : A -> W -> Prop) :
  (forall w, Pre w -> F /\ Pre' w) -> (F -> hoare Pre' p Post) -> hoare Pre p Post.
Proof. intros H1 H2 os w Hw. destruct (H1 w Hw) as [HF Hw']. by apply H2. Qed.

Lemma hoare_exists {A X} (Pre : X -> W -> Prop) (p : prog E A) (Post : A -> W -> Prop) :
  (forall x, hoare (Pre x) p Post) -> hoare (fun w => exists x, Pre x w) p Post.
Proof. intros H os w [x Hw]. by apply (H x). Qed.

(** A program whose calls keep an assertion keeps it. *)
Lemma hoare_keeps {A} (P : forall R, E R -> Prop) (I : W -> Prop) (p : prog E A) :
  (forall R (e : E R) w, P R e -> I w -> I (handle e w).2) -> all_calls P p -> hoare I p (fun _ => I).
Proof.
  intros Hstep Hp os w. apply (exec_stable P (fun w w' => I w -> I w')); [|done].
  intros R e w' He Hw. by eapply Hstep.
Qed.

(** Go's early return on an error: the error ends the program. *)
Lemma hoare_try {A B} (Pre : W -> Prop) (p : prog E (result A)) (f : A -> prog E (result B))
    (Mid : A -> W -> Prop) (Post : result B -> W -> Prop) :
  hoare Pre p (fun r w => match r with Ok a => Mid a w | Err e => Post (Err e) w end) ->
  (forall a, hoare (Mid a) (f a) Post) ->
  hoare Pre (bind p (fun r => match r with Ok x => f x | Err e => Ret (Err e) end)) Post.
Proof.
  intros Hp Hf. eapply hoare_bind; [exact Hp|]. intros [a|e]; [apply Hf|]. by apply hoare_ret.
Qed.

(** A query in a world that stays as it is. *)
Lemma hoare_read {A X} (w0 : W) (e : E (result X)) (v : result X) (d : goerr) (k : result X -> prog E A) (Post : A -> W -> Prop) :
  handle e w0 = (v, w0) -> fault e = Some (Err d) ->
  hoare (fun w => w = w0) (k (Err d)) Post -> hoare (fun w => w = w0) (k v) Post -> hoare (fun w => w = w0) (bind (call e) k) Post.
Proof.
  intros Hv Hf He Ho. apply (hoare_bind _ _ _ (fun r w => (r = Err d \/ r = v) /\ w = w0)).
  - apply hoare_call_cases.
    + intros w ->. rewrite Hv. split; [by right|done].
    + intros w r ->. rewrite Hf, Hv. intros [= <-]. by split; (split; [left|]).
  - intros r. apply hoare_pure. by intros [->| ->].
Qed.
End Hoare.


(** ** Calls that a program makes, by its text *)

Lemma all_calls_opt {E A B} (P : forall R, E R -> Prop) (o : option A) (f : A -> prog E B) (g : prog E B) :
  (forall a, all_calls P (f a)) -> all_calls P g -> all_calls P (match o with Some a => f a | None => g end).
Proof. by destruct o. Qed.

(** ** Programs of a component inside a larger one *)

(** The calls of [E] are calls of [F] that act on a part of its world. *)
Class Embeds {E : Type -> Type} {W : Type} {F : Type -> Type} {V : Type} `{Interp E W} `{Interp F V}
    (emb : forall R, E R -> F R) (get : V -> W) (put : W -> V -> V) : Prop := {
  embed_handle : forall R (e : E R) v, handle (emb R e) v = ((handle e (get v)).1, put (handle e (get v)).2 v);
  embed_fault : forall R (e : E R), fault (emb R e) = fault e;
  put_get : forall v, put (get v) v = v;
  get_put : forall w v, get (put w v) = w;
  put_put : forall w w' v, put w' (put w v) = put w' v
}.

Fixpoint lifted {E F : Type -> Type} {A} (emb : forall R, E R -> F R) (p : prog E A) : prog F A :=
  match p with
  | Ret a => Ret a
  | Call e k => Call (emb _ e) (fun r => lifted emb (k r))
  end.

Section Lifted.
Context {E F : Type -> Type} {W V : Type} `{!Interp E W} `{!Interp F V}.
Context {emb : forall R, E R -> F R} {get : V -> W} {put : W -> V -> V} `{!Embeds emb get put}.

Lemma answer_embed o {R} (e : E R) v : answer o (emb R e) v = ((answer o e (get v)).1, put (answer o e (get v)).2 v).
Proof. unfold answer. rewrite embed_fault, embed_handle. destruct o, (fault e); cbn; by rewrite ?(put_get (emb := emb) (get := get) (put := put)). Qed.
Lemma exec_lifted {A} os (p : prog E A) v : exec os (lifted emb p) v = ((exec os p (get v)).1, put (exec os p (get v)).2 v).
Proof.
  revert os v. induction p as [a|R e k IH]; intros os v; cbn [lifted].
  - rewrite !exec_ret. cbn [fst snd]. by rewrite (put_get (emb := emb) (get := get) (put := put)).
  - rewrite !exec_call, answer_embed. cbn [fst snd]. by rewrite IH, (get_put (emb := emb) (get := get) (put := put)), (put_put (emb := emb) (get := get) (put := put)).
Qed.
(** What is known of the part carries over; the rest stays as it is. *)
Lemma hoare_lifted {A} (Pre : W -> Prop) (p : prog E A) (Post : A -> W -> Prop) (Pre' : V -> Prop) :
  (forall v, Pre' v -> Pre (get v)) -> hoare Pre p Post ->
  hoare Pre' (lifted emb p) (fun a v => Post a (get v) /\ exists v0, Pre' v0 /\ v = put (get v) v0).
Proof.
  intros HP Hp os v Hv. rewrite exec_lifted. cbn [fst snd]. rewrite (get_put (emb := emb) (get := get) (put := put)). split; [by apply Hp, HP|]. by exists v.
Qed.
End Lifted.
Lemma all_calls_lifted {E F : Type -> Type} {A} (emb : forall R, E R -> F R) (P : forall R, E R -> Prop) (Q : forall R, F R -> Prop) (p : prog E A) :
  (forall R e, P R e -> Q R (emb R e)) -> all_calls P p -> all_calls Q (lifted emb p).
Proof. intros H Hp. induction Hp; cbn; constructor; auto. Qed.
