(* ===== verification/GoNet.v ===== *)
(** Package [net] as the modelled code uses it: which texts [net.ParseIP]
    accepts and which of them are IPv4 addresses, and [net.JoinHostPort]; and
    the splitting and joining of texts. *)
From Stdlib Require Import ZArith Lia Ascii.
From stdpp Require Import base tactics numbers list strings option.
From S2P Require Import Prelude GoStrings.

Local Open Scope string_scope.

(** [strings.Join]. *)
Fixpoint Join (l : list string) (sep : string) : string :=
  match l with
  | [] => EmptyString
  | [x] => x
  | x :: l => x +:+ sep +:+ Join l sep
  end.

(** [strings.Split] at a one-byte separator. *)
Fixpoint Split (s : string) (sep : ascii) : list string :=
  match s with
  | EmptyString => [EmptyString]
  | String c r =>
      if ascii_dec c sep then EmptyString :: Split r sep
      else match Split r sep with
           | h :: t => String c h :: t
           | [] => [String c EmptyString]
           end
  end.

Fixpoint all_bytes (P : ascii -> bool) (s : string) : bool :=
  match s with
  | EmptyString => true
  | String c r => P c && all_bytes P r
  end.

Fixpoint last_byte (s : string) : option ascii :=
  match s with
  | EmptyString => None
  | String c EmptyString => Some c
  | String _ r => last_byte r
  end.

(** * Names *)

Definition is_alnum (c : ascii) : bool :=
  let n := N_of_ascii c in
  (((48 <=? n) && (n <=? 57)) || ((97 <=? n) && (n <=? 122)) || ((65 <=? n) && (n <=? 90)))%N.

(** A DNS label of 1 to 63 letters, digits and inner hyphens: the expression
    [^[a-zA-Z0-9]([a-zA-Z0-9-]{0,61}[a-zA-Z0-9])?$]. *)
Definition dns_label (s : string) : bool :=
  match s, last_byte s with
  | String a _, Some b =>
      is_alnum a && is_alnum b && all_bytes (fun c => is_alnum c || bool_decide (c = "-"%char)) s &&
      Nat.leb (String.length s) 63
  | _, _ => false
  end.

(** * IP literals *)

(** The octets of a dotted quad; [pos] dots were seen, [dig] digits of the
    current octet, which add up to [val]. *)
Fixpoint ipv4_octets (s : string) (pos dig : nat) (val : Z) : bool :=
  match s with
  | EmptyString => Nat.eqb pos 3 && negb (Nat.eqb dig 0)
  | String c r =>
      match digit_val c with
      | Some d =>
          if Nat.eqb dig 1 && (val =? 0)%Z then false
          else if (255 <? val * 10 + d)%Z then false
          else ipv4_octets r pos (S dig) (val * 10 + d)
      | None =>
          if ascii_dec c "." then
            if Nat.eqb dig 0 || Nat.eqb pos 3 then false else ipv4_octets r (S pos) 0 0
          else false
      end
  end.
Definition is_ipv4 (s : string) : bool := ipv4_octets s 0 0 0.

Definition is_hex (c : ascii) : bool :=
  let n := N_of_ascii c in
  (((48 <=? n) && (n <=? 57)) || ((97 <=? n) && (n <=? 102)) || ((65 <=? n) && (n <=? 70)))%N.

(** The hexadecimal digits at the head of a text. *)
Fixpoint span_hex (s : string) : nat * string :=
  match s with
  | String c r => if is_hex c then let '(n, rest) := span_hex r in (S n, rest) else (0, s)
  | EmptyString => (0, s)
  end.

(** The groups of an IPv6 text; [n] groups are filled, [ell] tells whether an
    ellipsis was seen.  Eight groups bound the rounds. *)
Fixpoint ipv6_groups (left : nat) (s : string) (n : nat) (ell : bool) : bool :=
  match left with
  | O => bool_decide (s = EmptyString) && negb ell
  | S left' =>
      let '(digits, rest) := span_hex s in
      if Nat.eqb digits 0 || Nat.ltb 4 digits then false
      else match rest with
           | String "." _ =>
               if (negb ell && negb (Nat.eqb n 6)) || Nat.ltb 6 n || negb (is_ipv4 s) then false
               else if Nat.ltb (n + 2) 8 then ell else negb ell
           | EmptyString => if Nat.ltb (S n) 8 then ell else negb ell
           | String ":" EmptyString => false
           | String ":" (String ":" EmptyString) => if ell then false else Nat.ltb (S n) 8
           | String ":" (String ":" r) => if ell then false else ipv6_groups left' r (S n) true
           | String ":" r => ipv6_groups left' r (S n) ell
           | _ => false
           end
  end.

(** Without a zone, which [net.ParseIP] refuses. *)
Definition is_ipv6 (s : string) : bool :=
  negb (has_byte s "%") &&
  match s with
  | String ":" (String ":" EmptyString) => true
  | String ":" (String ":" r) => ipv6_groups 8 r 0 true
  | _ => ipv6_groups 8 s 0 false
  end.

(** The first byte among dot, colon and percent decides the family. *)
Fixpoint ip_family (s : string) : option bool :=
  match s with
  | EmptyString => None
  | String "." _ => Some false
  | String ":" _ => Some true
  | String "%" _ => None
  | String _ r => ip_family r
  end.

(** [net.ParseIP(s) != nil] *)
Definition ParseIP (s : string) : bool :=
  match ip_family s with
  | Some false => is_ipv4 s
  | Some true => is_ipv6 s
  | None => false
  end.

Example parse_ip_accepts :
  map ParseIP ["10.0.0.1"; "::"; "::1"; "fe80::1:2"; "1:2:3:4:5:6:7:8"; "::ffff:10.1.2.3"; "1:2:3:4:5:6:7::"] =
  [true; true; true; true; true; true; true].
Proof. reflexivity. Qed.
Example parse_ip_refuses :
  map ParseIP ["10.0.0"; "10.0.0.01"; "1.2.3.256"; ":1"; "1::2::3"; "1:2:3:4:5:6:7:8:9"; "fe80::1%eth0"; "12345::";
               "1:2:3:4:5:6:7:8::"; "host"; "1:"; "1.2.3.4."; ".1.2.3"; "1:2:3:4:5:6:7::8"] =
  [false; false; false; false; false; false; false; false; false; false; false; false; false; false].
Proof. reflexivity. Qed.

(** ** IPv4 in IPv6 *)

Definition hex_val (c : ascii) : Z :=
  let n := Z.of_N (N_of_ascii c) in if (n <=? 57)%Z then n - 48 else if (n <=? 70)%Z then n - 55 else n - 87.
Fixpoint number_text (base : Z) (s : string) (acc : Z) : Z :=
  match s with EmptyString => acc | String c r => number_text base r (acc * base + hex_val c) end.
Definition quad_words (s : string) : list Z :=
  match map (fun o => number_text 10 o 0) (Split s ".") with [a; b; c; d] => [a * 256 + b; c * 256 + d]%Z | _ => [] end.
Definition group_words (s : string) : list Z :=
  if bool_decide (s = EmptyString) then [] else
  flat_map (fun g => if has_byte g "." then quad_words g else [number_text 16 g 0]) (Split s ":").
Fixpoint cut_ellipsis (s : string) : option (string * string) :=
  match s with
  | EmptyString => None
  | String ":" (String ":" r) => Some (EmptyString, r)
  | String c r => option_map (fun p => (String c p.1, p.2)) (cut_ellipsis r)
  end.
(** The eight groups of an IPv6 text that is accepted. *)
Definition ipv6_words (s : string) : list Z :=
  match cut_ellipsis s with
  | None => group_words s
  | Some (l, r) =>
      let a := group_words l in let b := group_words r in
      (a ++ replicate (8 - length a - length b) 0%Z ++ b)%list
  end.
(** [ip.To4() != nil] for an accepted text: IPv4, or IPv4 in IPv6. *)
Definition is_To4 (s : string) : bool :=
  match ip_family s with
  | Some false => true
  | Some true => bool_decide (take 6 (ipv6_words s) = [0; 0; 0; 0; 0; 65535]%Z)
  | None => false
  end.

Example to4_is : map is_To4 ["10.0.0.1"; "::ffff:10.1.2.3"; "::FFFF:a01:203"; "0:0:0:0:0:ffff:1.2.3.4"; "::1"; "fe80::1"; "::"; "::ffff:0:1.2.3.4"] =
  [true; true; true; true; false; false; false; false].
Proof. reflexivity. Qed.

(** * Addresses *)

Definition JoinHostPort (host port : string) : string :=
  if has_byte host ":" then "[" +:+ host +:+ "]:" +:+ port else host +:+ ":" +:+ port.
