(* ===== verification/BatchTypes.v ===== *)
(** Batch tasks: data, error values and Redis key layout
    ([model/ibatch/types.go], [errors.go], [redis_keys.go]). *)
From Stdlib Require Import ZArith Lia Ascii.
From stdpp Require Import base tactics numbers list strings gmap option.
From S2P Require Import Prelude GoStrings.

Local Open Scope string_scope.

(** * Status values *)

Definition TaskStatusValidating : string := "validating".
Definition TaskStatusQueued : string := "queued".
Definition TaskStatusInProgress : string := "in_progress".
Definition TaskStatusFinalizing : string := "finalizing".
Definition TaskStatusCompleted : string := "completed".
Definition TaskStatusExpired : string := "expired".
Definition TaskStatusFailed : string := "failed".
Definition TaskStatusCancelled : string := "cancelled".
Definition TaskStatusCancelling : string := "cancelling".

Definition TerminalStatuses : list string :=
  [TaskStatusCompleted; TaskStatusExpired; TaskStatusFailed; TaskStatusCancelled].

Definition IsTerminalStatus (status : string) : bool :=
  existsb (fun s => bool_decide (s = status)) TerminalStatuses.

Definition SettleStatusReserved : string := "reserved".
Definition SettleStatusSettled : string := "settled".
Definition SettleStatusReleased : string := "released".

Definition UsageSourceDownload : string := "download".
Definition UsageSourceReconcile : string := "reconcile".

Definition SyncSourceRedis : string := "redis".
Definition SyncSourceLog : string := "log".

Definition FileDirectionInput : string := "input".
Definition FileDirectionOutput : string := "output".

Definition PurposeBatchInput : string := "batch_input".
Definition PurposeBatchOutput : string := "batch_output".

(** * Entities *)

(** Go's [map[string]int64]; [None] is the nil map. *)
Abbreviation counts := (option (gmap string Z)) (only parsing).

Record BatchFileMeta : Type := mkFileMeta {
  fm_FileID : string;
  fm_Provider : string;
  fm_Purpose : string;
  fm_Filename : string;
  fm_Bytes : Z;
  fm_CreatedAt : gotime
}.

Record BatchTask : Type := mkTask {
  ID : Z;
  BatchID : string;
  APIKeyID : string;
  ProductName : string;
  EntityID : string;
  Provider : string;
  KeyName : string;
  Endpoint : string;
  InputFileID : string;
  OutputFileID : string;
  Status : string;
  RequestCounts : counts;
  EstLines : Z;
  UsageInputTokens : Z;
  UsageOutputTokens : Z;
  UsageSource : string;
  ReserveUnits : Z;
  SettleUnits : Z;
  SettleStatus : string;
  OverReserved : bool;
  SyncSource : string;
  IdemKey : string;
  CreatedAt : gotime;
  UpdatedAt : gotime;
  TerminalAt : option gotime;
  BatchFiles : list BatchFileMeta
}.

Record BatchFile : Type := mkFile {
  f_ID : Z;
  f_FileID : string;
  f_Provider : string;
  f_KeyName : string;
  f_APIKeyID : string;
  f_ProductName : string;
  f_Direction : string;
  f_Purpose : string;
  f_Filename : string;
  f_Lines : Z;
  f_Bytes : Z;
  f_FirstSeenAt : option gotime;
  f_LastSeenAt : option gotime;
  f_CreatedAt : gotime;
  f_UpdatedAt : gotime
}.

Definition contractPurpose (f : BatchFile) : string :=
  if decide (f_Direction f = FileDirectionInput) then PurposeBatchInput
  else if decide (f_Direction f = FileDirectionOutput) then PurposeBatchOutput
  else f_Purpose f.

Definition ToMeta (f : option BatchFile) : option BatchFileMeta :=
  match f with
  | None => None
  | Some f => Some {| fm_FileID := f_FileID f; fm_Provider := f_Provider f;
                      fm_Purpose := contractPurpose f; fm_Filename := f_Filename f;
                      fm_Bytes := f_Bytes f; fm_CreatedAt := f_CreatedAt f |}
  end.

(** * Filters and patches: nil fields are absent *)

Record BatchTaskFilter : Type := mkTaskFilter {
  q_ID : option Z;
  q_BatchID : option string;
  q_IdemKey : option string;
  q_APIKeyID : option string;
  q_ProductName : option string;
  q_EntityID : option string;
  q_Provider : option string;
  q_Status : option string;
  q_StatusIn : list string;
  q_StatusNotIn : list string;
  q_SettleStatus : option string;
  q_CreatedStart : option gotime;
  q_CreatedEnd : option gotime;
  q_CursorID : option Z;
  q_Limit : Z
}.

(** The zero value of the filter struct. *)
Definition noTaskFilter : BatchTaskFilter :=
  mkTaskFilter None None None None None None None None [] [] None None None None 0.

Record BatchFileFilter : Type := mkFileFilter {
  qf_ID : option Z;
  qf_FileID : option string;
  qf_Provider : option string;
  qf_APIKeyID : option string;
  qf_ProductName : option string;
  qf_Direction : option string
}.

Record BatchTaskListResult : Type := mkListResult {
  lr_Tasks : list BatchTask;
  lr_NextCursor : Z
}.

Definition DefaultListLimit : Z := 50.
Definition MaxListLimit : Z := 200.

Record BatchTaskProgressPatch : Type := mkProgress {
  pp_Status : option string;
  pp_OutputFileID : option string;
  pp_Endpoint : option string;
  pp_RequestCounts : option counts;
  pp_TerminalAt : option gotime
}.

Definition noProgress : BatchTaskProgressPatch := mkProgress None None None None None.

Record BatchSettlePatch : Type := mkSettlePatch {
  sp_SettleStatus : string;
  sp_SettleUnits : option Z;
  sp_UsageInputTokens : option Z;
  sp_UsageOutputTokens : option Z;
  sp_UsageSource : option string;
  sp_OverReserved : option bool;
  sp_TerminalAt : option gotime
}.

(** * Errors *)

Definition ErrBatchNotFound : goerr := RecordNotExist "Batch".
Definition ErrUpstreamUnreachable : goerr := UpstreamError "batch upstream provider unreachable".
Definition ErrUpstreamBatchNotFound : goerr := ModelError "batch not found on upstream provider".

Definition errBatchConflict (batchID : string) : goerr :=
  ConflictError ("batch task " +:+ batchID +:+ " is terminal or being processed by another instance").
Definition errProviderUnavailable (provider : string) : goerr :=
  ModelError ("batch provider " +:+ provider +:+ " unavailable").
Definition errSyncSkip : goerr := PlainError "ibatch: sync skipped".

(** * Redis keys *)

Definition batchStateTTLSeconds : Z := 172800.
Definition batchTaskKeyPrefix : string := "BATCH_TASK:".
Definition batchFileKeyPrefix : string := "BATCH_FILE:".
Definition batchSettledKeyPrefix : string := "BATCH_SETTLED:".
Definition batchReserveBatchKeyPrefix : string := "BATCH_RESERVE_BATCH:".
Definition batchReserveMirrorPrefix : string := "BATCH_RESERVE:".
Definition ScanMatchTasks : string := batchTaskKeyPrefix +:+ "*".
Definition ScanMatchFiles : string := batchFileKeyPrefix +:+ "*".

Definition BatchTaskKey (batchID : string) : string := batchTaskKeyPrefix +:+ batchID.

Definition ParseBatchTaskKey (key : string) : string * bool :=
  if negb (HasPrefix key batchTaskKeyPrefix) then (EmptyString, false)
  else let batchID := TrimPrefix key batchTaskKeyPrefix in
       (batchID, negb (bool_decide (batchID = EmptyString))).

Definition BatchFileKey (partition fileID : string) : string :=
  batchFileKeyPrefix +:+ partition +:+ ":" +:+ fileID.

Definition ParseBatchFileKey (key : string) : string * string * bool :=
  match CutPrefix key batchFileKeyPrefix with
  | None => (EmptyString, EmptyString, false)
  | Some rest =>
      match Cut rest ":" with
      | None => (EmptyString, EmptyString, false)
      | Some (partition, fileID) =>
          if bool_decide (partition = EmptyString) || bool_decide (fileID = EmptyString)
          then (EmptyString, EmptyString, false)
          else (partition, fileID, true)
      end
  end.

Definition BatchSettledKey (batchID : string) : string := batchSettledKeyPrefix +:+ batchID.
Definition BatchReserveBatchKey (batchID : string) : string := batchReserveBatchKeyPrefix +:+ batchID.
Definition BatchReserveMirrorKey (planRedisKey : string) : string := batchReserveMirrorPrefix +:+ planRedisKey.
