(* ===== verification/BatchStore.v ===== *)
(** The outside world of the batch component and its interfaces
    ([model/ibatch/storager.go]): the two SQL tables behind
    [storage/rdb/batch] and its DAO, the Redis keys behind
    [redis_adapter.go], the provider records, the upstream provider reached
    over HTTP, and the clock.  Every interface method is one call. *)
From Stdlib Require Import ZArith Lia Ascii SpecFloat.
From stdpp Require Import base tactics numbers list strings gmap option.
From S2P Require Import Prelude GoStrings GoJson Prog BatchTypes.

Local Open Scope string_scope.

(** * Table batch_tasks *)

(** A row of the table; [None] is SQL NULL. *)
Record TBatchTask : Type := mkRow {
  t_ID : Z;
  t_BatchID : string;
  t_APIKeyID : string;
  t_ProductName : string;
  t_EntityID : string;
  t_Provider : string;
  t_KeyName : string;
  t_Endpoint : string;
  t_InputFileID : string;
  t_OutputFileID : string;
  t_Status : string;
  t_RequestCounts : option string;
  t_EstLines : Z;
  t_UsageInputTokens : Z;
  t_UsageOutputTokens : Z;
  t_UsageSource : string;
  t_ReserveUnits : Z;
  t_SettleUnits : Z;
  t_SettleStatus : string;
  t_OverReserved : bool;
  t_SyncSource : string;
  t_IdemKey : string;
  t_CreatedAt : gotime;
  t_UpdatedAt : gotime;
  t_TerminalAt : option gotime
}.

(** Query and write parameters; a nil field is ignored in WHERE and skipped
    in SET. *)
Record TBatchTaskParam : Type := mkParam {
  p_ID : option Z;
  p_IDGT : option Z;
  p_IDLT : option Z;
  p_BatchID : option string;
  p_APIKeyID : option string;
  p_ProductName : option string;
  p_EntityID : option string;
  p_Provider : option string;
  p_KeyName : option string;
  p_Endpoint : option string;
  p_InputFileID : option string;
  p_OutputFileID : option string;
  p_Status : option string;
  p_StatusIn : list string;
  p_StatusNotIn : list string;
  p_RequestCounts : option string;
  p_EstLines : option Z;
  p_UsageInputTokens : option Z;
  p_UsageOutputTokens : option Z;
  p_UsageSource : option string;
  p_ReserveUnits : option Z;
  p_SettleUnits : option Z;
  p_SettleStatus : option string;
  p_OverReserved : option bool;
  p_SyncSource : option string;
  p_IdemKey : option string;
  p_CreatedAt : option gotime;
  p_CreatedAtGTE : option gotime;
  p_CreatedAtLTE : option gotime;
  p_UpdatedAt : option gotime;
  p_TerminalAt : option gotime
}.

Definition noParam : TBatchTaskParam :=
  mkParam None None None None None None None None None None None None None [] [] None None
    None None None None None None None None None None None None None None.

(** One column condition of a WHERE clause. *)
Definition cond {A B} (p : option A) (c : B) (test : A -> B -> bool) : bool :=
  match p with None => true | Some a => test a c end.
Definition eqs (a b : string) : bool := bool_decide (a = b).

(** WHERE: the conjunction of the conditions the parameter carries
    ([Struct2Where] and the operators in the db tags). *)
Definition where_task (p : TBatchTaskParam) (r : TBatchTask) : bool :=
  cond (p_ID p) (t_ID r) Z.eqb && cond (p_IDGT p) (t_ID r) Z.ltb &&
  cond (p_IDLT p) (t_ID r) (fun a c => Z.ltb c a) &&
  cond (p_BatchID p) (t_BatchID r) eqs && cond (p_APIKeyID p) (t_APIKeyID r) eqs &&
  cond (p_ProductName p) (t_ProductName r) eqs && cond (p_EntityID p) (t_EntityID r) eqs &&
  cond (p_Provider p) (t_Provider r) eqs && cond (p_KeyName p) (t_KeyName r) eqs &&
  cond (p_Endpoint p) (t_Endpoint r) eqs && cond (p_InputFileID p) (t_InputFileID r) eqs &&
  cond (p_OutputFileID p) (t_OutputFileID r) eqs && cond (p_Status p) (t_Status r) eqs &&
  match p_StatusIn p with [] => true | l => bool_decide (t_Status r ∈ l) end &&
  match p_StatusNotIn p with [] => true | l => bool_decide (t_Status r ∉ l) end &&
  cond (p_RequestCounts p) (t_RequestCounts r) (fun a c => bool_decide (c = Some a)) &&
  cond (p_EstLines p) (t_EstLines r) Z.eqb &&
  cond (p_UsageInputTokens p) (t_UsageInputTokens r) Z.eqb &&
  cond (p_UsageOutputTokens p) (t_UsageOutputTokens r) Z.eqb &&
  cond (p_UsageSource p) (t_UsageSource r) eqs &&
  cond (p_ReserveUnits p) (t_ReserveUnits r) Z.eqb && cond (p_SettleUnits p) (t_SettleUnits r) Z.eqb &&
  cond (p_SettleStatus p) (t_SettleStatus r) eqs &&
  cond (p_OverReserved p) (t_OverReserved r) Bool.eqb && cond (p_SyncSource p) (t_SyncSource r) eqs &&
  cond (p_IdemKey p) (t_IdemKey r) eqs && cond (p_CreatedAt p) (t_CreatedAt r) Z.eqb &&
  cond (p_UpdatedAt p) (t_UpdatedAt r) Z.eqb &&
  cond (p_TerminalAt p) (t_TerminalAt r) (fun a c => bool_decide (c = Some a)) &&
  cond (p_CreatedAtGTE p) (t_CreatedAt r) Z.leb &&
  cond (p_CreatedAtLTE p) (t_CreatedAt r) (fun a c => Z.leb c a).

Definition set {A} (p : option A) (old : A) : A := default old p.

(** SET: the non-nil fields of the parameter ([Struct2Assign]). *)
Definition assign_task (p : TBatchTaskParam) (r : TBatchTask) : TBatchTask := {|
  t_ID := set (p_ID p) (t_ID r);
  t_BatchID := set (p_BatchID p) (t_BatchID r);
  t_APIKeyID := set (p_APIKeyID p) (t_APIKeyID r);
  t_ProductName := set (p_ProductName p) (t_ProductName r);
  t_EntityID := set (p_EntityID p) (t_EntityID r);
  t_Provider := set (p_Provider p) (t_Provider r);
  t_KeyName := set (p_KeyName p) (t_KeyName r);
  t_Endpoint := set (p_Endpoint p) (t_Endpoint r);
  t_InputFileID := set (p_InputFileID p) (t_InputFileID r);
  t_OutputFileID := set (p_OutputFileID p) (t_OutputFileID r);
  t_Status := set (p_Status p) (t_Status r);
  t_RequestCounts := match p_RequestCounts p with Some s => Some s | None => t_RequestCounts r end;
  t_EstLines := set (p_EstLines p) (t_EstLines r);
  t_UsageInputTokens := set (p_UsageInputTokens p) (t_UsageInputTokens r);
  t_UsageOutputTokens := set (p_UsageOutputTokens p) (t_UsageOutputTokens r);
  t_UsageSource := set (p_UsageSource p) (t_UsageSource r);
  t_ReserveUnits := set (p_ReserveUnits p) (t_ReserveUnits r);
  t_SettleUnits := set (p_SettleUnits p) (t_SettleUnits r);
  t_SettleStatus := set (p_SettleStatus p) (t_SettleStatus r);
  t_OverReserved := set (p_OverReserved p) (t_OverReserved r);
  t_SyncSource := set (p_SyncSource p) (t_SyncSource r);
  t_IdemKey := set (p_IdemKey p) (t_IdemKey r);
  t_CreatedAt := set (p_CreatedAt p) (t_CreatedAt r);
  t_UpdatedAt := set (p_UpdatedAt p) (t_UpdatedAt r);
  t_TerminalAt := match p_TerminalAt p with Some t => Some t | None => t_TerminalAt r end
|}.

(** ** Conversions of [storage/rdb/batch/batch_task.go] *)

Definition batchTaskFilterToParam (f : BatchTaskFilter) : TBatchTaskParam := {|
  p_ID := q_ID f; p_IDGT := q_CursorID f; p_IDLT := None;
  p_BatchID := q_BatchID f; p_APIKeyID := q_APIKeyID f; p_ProductName := q_ProductName f;
  p_EntityID := q_EntityID f; p_Provider := q_Provider f; p_KeyName := None; p_Endpoint := None;
  p_InputFileID := None; p_OutputFileID := None; p_Status := q_Status f;
  p_StatusIn := q_StatusIn f; p_StatusNotIn := q_StatusNotIn f;
  p_RequestCounts := None; p_EstLines := None; p_UsageInputTokens := None;
  p_UsageOutputTokens := None; p_UsageSource := None; p_ReserveUnits := None;
  p_SettleUnits := None; p_SettleStatus := q_SettleStatus f; p_OverReserved := None;
  p_SyncSource := None; p_IdemKey := q_IdemKey f; p_CreatedAt := None;
  p_CreatedAtGTE := q_CreatedStart f; p_CreatedAtLTE := q_CreatedEnd f;
  p_UpdatedAt := None; p_TerminalAt := None
|}.

(** A counts map is stored only when it is not empty. *)
Definition counts_column (c : option (gmap string Z)) : option string :=
  match c with
  | Some m => if bool_decide (m = ∅) then None else Some (marshal_counts m)
  | None => None
  end.

Definition batchTaskDataToParam (t : BatchTask) : TBatchTaskParam := {|
  p_ID := None; p_IDGT := None; p_IDLT := None;
  p_BatchID := Some (BatchID t); p_APIKeyID := Some (APIKeyID t);
  p_ProductName := Some (ProductName t); p_EntityID := Some (EntityID t);
  p_Provider := Some (Provider t); p_KeyName := Some (KeyName t);
  p_Endpoint := Some (Endpoint t); p_InputFileID := Some (InputFileID t);
  p_OutputFileID := Some (OutputFileID t); p_Status := Some (Status t);
  p_StatusIn := []; p_StatusNotIn := [];
  p_RequestCounts := counts_column (RequestCounts t);
  p_EstLines := Some (EstLines t);
  p_UsageInputTokens := Some (UsageInputTokens t);
  p_UsageOutputTokens := Some (UsageOutputTokens t);
  p_UsageSource := Some (UsageSource t); p_ReserveUnits := Some (ReserveUnits t);
  p_SettleUnits := Some (SettleUnits t); p_SettleStatus := Some (SettleStatus t);
  p_OverReserved := Some (OverReserved t); p_SyncSource := Some (SyncSource t);
  p_IdemKey := Some (IdemKey t);
  p_CreatedAt := if IsZero (CreatedAt t) then None else Some (CreatedAt t);
  p_CreatedAtGTE := None; p_CreatedAtLTE := None;
  p_UpdatedAt := if IsZero (UpdatedAt t) then None else Some (UpdatedAt t);
  p_TerminalAt := TerminalAt t
|}.

Definition counts_value (c : option string) : option (gmap string Z) :=
  match c with
  | None => None
  | Some EmptyString => None
  | Some s => match unmarshal_counts None s with Some m => m | None => None end
  end.

Definition batchTaskParamToData (r : TBatchTask) : BatchTask := {|
  ID := t_ID r; BatchID := t_BatchID r; APIKeyID := t_APIKeyID r;
  ProductName := t_ProductName r; EntityID := t_EntityID r; Provider := t_Provider r;
  KeyName := t_KeyName r; Endpoint := t_Endpoint r; InputFileID := t_InputFileID r;
  OutputFileID := t_OutputFileID r; Status := t_Status r;
  RequestCounts := counts_value (t_RequestCounts r);
  EstLines := t_EstLines r; UsageInputTokens := t_UsageInputTokens r;
  UsageOutputTokens := t_UsageOutputTokens r; UsageSource := t_UsageSource r;
  ReserveUnits := t_ReserveUnits r; SettleUnits := t_SettleUnits r;
  SettleStatus := t_SettleStatus r; OverReserved := t_OverReserved r;
  SyncSource := t_SyncSource r; IdemKey := t_IdemKey r; CreatedAt := t_CreatedAt r;
  UpdatedAt := t_UpdatedAt r; TerminalAt := t_TerminalAt r; BatchFiles := []
|}.

(** ** Statements on the table: rows in insertion order, ids ascending *)

(** The columns an upsert writes when the idem_key is taken. *)
Definition upsert_conflict (p : TBatchTaskParam) (r : TBatchTask) : TBatchTask := {|
  t_ID := t_ID r; t_BatchID := t_BatchID r; t_APIKeyID := t_APIKeyID r;
  t_ProductName := t_ProductName r; t_EntityID := t_EntityID r; t_Provider := t_Provider r;
  t_KeyName := t_KeyName r; t_Endpoint := t_Endpoint r; t_InputFileID := t_InputFileID r;
  t_OutputFileID := default EmptyString (p_OutputFileID p);
  t_Status := default EmptyString (p_Status p);
  t_RequestCounts := p_RequestCounts p;
  t_EstLines := default 0%Z (p_EstLines p);
  t_UsageInputTokens := default 0%Z (p_UsageInputTokens p);
  t_UsageOutputTokens := default 0%Z (p_UsageOutputTokens p);
  t_UsageSource := t_UsageSource r;
  t_ReserveUnits := default 0%Z (p_ReserveUnits p);
  t_SettleUnits := default 0%Z (p_SettleUnits p);
  t_SettleStatus := default EmptyString (p_SettleStatus p);
  t_OverReserved := t_OverReserved r; t_SyncSource := t_SyncSource r;
  t_IdemKey := t_IdemKey r; t_CreatedAt := t_CreatedAt r;
  t_UpdatedAt := default 0%Z (p_UpdatedAt p);
  t_TerminalAt := p_TerminalAt p
|}.

Definition insert_row (id : Z) (p : TBatchTaskParam) : TBatchTask := {|
  t_ID := id;
  t_BatchID := default EmptyString (p_BatchID p);
  t_APIKeyID := default EmptyString (p_APIKeyID p);
  t_ProductName := default EmptyString (p_ProductName p);
  t_EntityID := default EmptyString (p_EntityID p);
  t_Provider := default EmptyString (p_Provider p);
  t_KeyName := default EmptyString (p_KeyName p);
  t_Endpoint := default EmptyString (p_Endpoint p);
  t_InputFileID := default EmptyString (p_InputFileID p);
  t_OutputFileID := default EmptyString (p_OutputFileID p);
  t_Status := default EmptyString (p_Status p);
  t_RequestCounts := p_RequestCounts p;
  t_EstLines := default 0%Z (p_EstLines p);
  t_UsageInputTokens := default 0%Z (p_UsageInputTokens p);
  t_UsageOutputTokens := default 0%Z (p_UsageOutputTokens p);
  t_UsageSource := default EmptyString (p_UsageSource p);
  t_ReserveUnits := default 0%Z (p_ReserveUnits p);
  t_SettleUnits := default 0%Z (p_SettleUnits p);
  t_SettleStatus := default EmptyString (p_SettleStatus p);
  t_OverReserved := default false (p_OverReserved p);
  t_SyncSource := default EmptyString (p_SyncSource p);
  t_IdemKey := default EmptyString (p_IdemKey p);
  t_CreatedAt := default 0%Z (p_CreatedAt p);
  t_UpdatedAt := default 0%Z (p_UpdatedAt p);
  t_TerminalAt := p_TerminalAt p
|}.

(** UPDATE: the new table and the number of rows it touched. *)
Definition update_rows {R} (where_ : R -> bool) (f : R -> R) (rows : list R) : list R * Z :=
  (map (fun r => if where_ r then f r else r) rows, Z.of_nat (length (List.filter where_ rows))).

(** * Table batch_files

    The DAO's row and the entity have the same columns. *)

Definition where_file (q : BatchFileFilter) (f : BatchFile) : bool :=
  cond (qf_ID q) (f_ID f) Z.eqb && cond (qf_FileID q) (f_FileID f) eqs &&
  cond (qf_Provider q) (f_Provider f) eqs && cond (qf_APIKeyID q) (f_APIKeyID f) eqs &&
  cond (qf_ProductName q) (f_ProductName f) eqs && cond (qf_Direction q) (f_Direction f) eqs.

(** The columns an upsert writes when (file_id, provider) is taken; an empty
    filename does not replace a known one. *)
Definition upsert_file_conflict (now : gotime) (n f : BatchFile) : BatchFile := {|
  f_ID := f_ID f; f_FileID := f_FileID f; f_Provider := f_Provider f;
  f_KeyName := f_KeyName n; f_APIKeyID := f_APIKeyID n; f_ProductName := f_ProductName n;
  f_Direction := f_Direction n; f_Purpose := f_Purpose n;
  f_Filename := if bool_decide (f_Filename n = EmptyString) then f_Filename f else f_Filename n;
  f_Lines := f_Lines n; f_Bytes := f_Bytes n;
  f_FirstSeenAt := f_FirstSeenAt f; f_LastSeenAt := f_LastSeenAt n;
  f_CreatedAt := f_CreatedAt f;
  f_UpdatedAt := if IsZero (f_UpdatedAt n) then now else f_UpdatedAt n
|}.

Definition insert_file (id : Z) (now : gotime) (n : BatchFile) : BatchFile := {|
  f_ID := id; f_FileID := f_FileID n; f_Provider := f_Provider n;
  f_KeyName := f_KeyName n; f_APIKeyID := f_APIKeyID n; f_ProductName := f_ProductName n;
  f_Direction := f_Direction n; f_Purpose := f_Purpose n; f_Filename := f_Filename n;
  f_Lines := f_Lines n; f_Bytes := f_Bytes n;
  f_FirstSeenAt := f_FirstSeenAt n; f_LastSeenAt := f_LastSeenAt n;
  f_CreatedAt := if IsZero (f_CreatedAt n) then now else f_CreatedAt n;
  f_UpdatedAt := if IsZero (f_UpdatedAt n) then now else f_UpdatedAt n
|}.

(** * Records of other components that the batch manager reads *)

Record ProviderKey : Type := mkProviderKey { pk_Name : string; pk_Key : string }.

Record ProviderInstance : Type := mkInstance {
  in_Addr : string; in_Port : Z; in_Weight : Z; in_Disable : bool
}.

(** The fields of [iprovider.Provider] that are read here. *)
Record ProviderRec : Type := mkProvider {
  pr_Name : string;
  pr_Keys : list ProviderKey;
  pr_InstancePool : list ProviderInstance;
  pr_InstanceSource : string;
  pr_K8sInstancePool : list ProviderInstance;
  pr_ProtocolPaths : gmap string string
}.

(** Go's float64, as IEEE 754 binary64 numbers. *)
Abbreviation float64 := spec_float (only parsing).
Definition float_zero : spec_float := S754_zero false.

Record ModelPrice : Type := mkPrice { mp_Prices : gmap string spec_float }.

(** The fields of [api_key.APIKeyParam] that are read here. *)
Record APIKeyParam : Type := mkAPIKey {
  ak_ID : string; ak_ProductName : option string; ak_EntityID : option string
}.

(** * HTTP *)

Record http_req : Type := mkReq {
  rq_method : string; rq_url : string; rq_header : option (string * string)
}.

(** A response; the body ends with an end-of-file, or breaks off with a read
    error after the bytes given. *)
Record http_resp : Type := mkResp { rs_status : Z; rs_body : string; rs_broken : bool }.

(** [net/http] refuses to send a request with a header whose name is empty. *)
Definition sendable (r : http_req) : bool :=
  match rq_header r with
  | Some (n, _) => negb (bool_decide (n = EmptyString))
  | None => true
  end.

(** * Audit entries of the cancel operation *)

Record cancel_entry : Type := mkEntry {
  ce_batchID : string; ce_prevStatus : string; ce_err : option goerr
}.

(** * The calls *)

Inductive batchE : Type -> Type :=
(* BatchStorager *)
| UpsertBatchTask (t : BatchTask) : batchE (result Z)
| FetchBatchTask (f : BatchTaskFilter) : batchE (result (option BatchTask))
| ListBatchTasks (f : BatchTaskFilter) : batchE (result (list BatchTask))
| PreemptBatchTaskCancel (batchID productName : string) : batchE (result Z)
| UpdateBatchTaskSettleStatus (batchID productName fromStatus : string) (patch : BatchSettlePatch)
    : batchE (result Z)
| UpdateBatchTaskProgress (id : Z) (patch : BatchTaskProgressPatch) : batchE (result Z)
| UpsertBatchFile (f : BatchFile) : batchE (result Z)
| FetchBatchFile (q : BatchFileFilter) : batchE (result (option BatchFile))
| ListBatchFiles (q : BatchFileFilter) : batchE (result (list BatchFile))
(* RedisClient *)
| HGetAll (key : string) : batchE (result (gmap string string))
| HSetWithTTL (key : string) (ttl : Z) (fields : list (string * string)) : batchE (result unit)
| SetNXWithTTL (key : string) (ttl : Z) : batchE (result bool)
| ReserveDecr (key : string) (delta : Z) : batchE (result Z)
| Delete (key : string) : batchE (result unit)
| Scan (cursor : Z) (match_ : string) (count : Z) : batchE (result (Z * list string))
(* the queriers *)
| FetchProvider (name : string) : batchE (result (option ProviderRec))
| FetchModelPrice (provider model mode : string) : batchE (result (option ModelPrice))
| FetchAPIKeyList (id : string) : batchE (result (list APIKeyParam))
(* net/http, the clock, the audit log *)
| NewRequest (method url : string) : batchE (result unit)
| HttpDo (r : http_req) : batchE (result http_resp)
| Now : batchE gotime
| RecordOperation (e : cancel_entry) : batchE unit
(* MySQL named locks of a database session *)
| DbConn : batchE (result unit)
| GetLock (session : nat) (name : string) : batchE (result bool)
| ReleaseLock (session : nat) (name : string) : batchE (result unit).

(** * The world *)

Inductive rval : Type := RHash (h : gmap string string) | RStr (s : string).

Record world : Type := mkWorld {
  w_tasks : list TBatchTask;
  w_nextTask : Z;
  w_files : list BatchFile;
  w_nextFile : Z;
  w_redis : gmap string rval;
  w_providers : gmap string ProviderRec;
  w_prices : gmap (string * string * string) ModelPrice;
  w_apiKeys : gmap string APIKeyParam;
  w_sent : list http_req;
  (** what the upstream answers to its n-th request *)
  w_upstream : nat -> http_req -> result http_resp;
  w_urlok : string -> bool;
  w_now : gotime;
  w_audit : list cancel_entry;
  (** the session that holds each named lock *)
  w_locks : gmap string nat
}.

Definition set_tasks (w : world) (l : list TBatchTask) : world :=
  mkWorld l (w_nextTask w) (w_files w) (w_nextFile w) (w_redis w) (w_providers w) (w_prices w)
    (w_apiKeys w) (w_sent w) (w_upstream w) (w_urlok w) (w_now w) (w_audit w) (w_locks w).
Definition add_task (w : world) (r : TBatchTask) : world :=
  mkWorld (w_tasks w ++ [r]) (w_nextTask w + 1) (w_files w) (w_nextFile w) (w_redis w) (w_providers w)
    (w_prices w) (w_apiKeys w) (w_sent w) (w_upstream w) (w_urlok w) (w_now w) (w_audit w) (w_locks w).
Definition set_files (w : world) (l : list BatchFile) (next : Z) : world :=
  mkWorld (w_tasks w) (w_nextTask w) l next (w_redis w) (w_providers w) (w_prices w)
    (w_apiKeys w) (w_sent w) (w_upstream w) (w_urlok w) (w_now w) (w_audit w) (w_locks w).
Definition set_redis (w : world) (m : gmap string rval) : world :=
  mkWorld (w_tasks w) (w_nextTask w) (w_files w) (w_nextFile w) m (w_providers w) (w_prices w)
    (w_apiKeys w) (w_sent w) (w_upstream w) (w_urlok w) (w_now w) (w_audit w) (w_locks w).
Definition set_sent (w : world) (l : list http_req) : world :=
  mkWorld (w_tasks w) (w_nextTask w) (w_files w) (w_nextFile w) (w_redis w) (w_providers w) (w_prices w)
    (w_apiKeys w) l (w_upstream w) (w_urlok w) (w_now w) (w_audit w) (w_locks w).
Definition set_audit (w : world) (l : list cancel_entry) : world :=
  mkWorld (w_tasks w) (w_nextTask w) (w_files w) (w_nextFile w) (w_redis w) (w_providers w) (w_prices w)
    (w_apiKeys w) (w_sent w) (w_upstream w) (w_urlok w) (w_now w) l (w_locks w).

Definition set_locks (w : world) (l : gmap string nat) : world :=
  mkWorld (w_tasks w) (w_nextTask w) (w_files w) (w_nextFile w) (w_redis w) (w_providers w) (w_prices w)
    (w_apiKeys w) (w_sent w) (w_upstream w) (w_urlok w) (w_now w) (w_audit w) l.

(** * Methods of the storage layer *)

(** [TBatchTaskUpsertByIdemKey]. *)
Definition upsert_task (t : BatchTask) (w : world) : result Z * world :=
  let data0 := batchTaskDataToParam t in
  let now := w_now w in
  if bool_decide (IdemKey t = EmptyString)
  then (Err (ParamError "idem_key is required for upsert"), w)
  else
    let data := {|
      p_ID := p_ID data0; p_IDGT := None; p_IDLT := None; p_BatchID := p_BatchID data0;
      p_APIKeyID := p_APIKeyID data0; p_ProductName := p_ProductName data0;
      p_EntityID := p_EntityID data0; p_Provider := p_Provider data0; p_KeyName := p_KeyName data0;
      p_Endpoint := p_Endpoint data0; p_InputFileID := p_InputFileID data0;
      p_OutputFileID := p_OutputFileID data0; p_Status := p_Status data0; p_StatusIn := [];
      p_StatusNotIn := []; p_RequestCounts := p_RequestCounts data0; p_EstLines := p_EstLines data0;
      p_UsageInputTokens := p_UsageInputTokens data0;
      p_UsageOutputTokens := p_UsageOutputTokens data0; p_UsageSource := p_UsageSource data0;
      p_ReserveUnits := p_ReserveUnits data0; p_SettleUnits := p_SettleUnits data0;
      p_SettleStatus := p_SettleStatus data0; p_OverReserved := p_OverReserved data0;
      p_SyncSource := p_SyncSource data0; p_IdemKey := p_IdemKey data0;
      p_CreatedAt := Some (default now (p_CreatedAt data0)); p_CreatedAtGTE := None;
      p_CreatedAtLTE := None; p_UpdatedAt := Some (default now (p_UpdatedAt data0));
      p_TerminalAt := p_TerminalAt data0
    |} in
    if existsb (fun r => bool_decide (t_IdemKey r = IdemKey t)) (w_tasks w)
    then (Ok 0%Z, set_tasks w (update_rows (fun r => bool_decide (t_IdemKey r = IdemKey t))
                                 (upsert_conflict data) (w_tasks w)).1)
    else (Ok (w_nextTask w), add_task w (insert_row (w_nextTask w) data)).

(** [TBatchTaskOne]: the first matching row. *)
Definition fetch_task (f : BatchTaskFilter) (w : world) : option BatchTask :=
  batchTaskParamToData <$> List.find (where_task (batchTaskFilterToParam f)) (w_tasks w).

(** [ListBatchTasks]: ids ascending, at most [Limit] rows when it is positive. *)
Definition list_tasks (f : BatchTaskFilter) (w : world) : list BatchTask :=
  let rows := List.filter (where_task (batchTaskFilterToParam f)) (w_tasks w) in
  map batchTaskParamToData (if (0 <? q_Limit f)%Z then take (Z.to_nat (q_Limit f)) rows else rows).

Definition cancel_excluded : list string := TerminalStatuses ++ [TaskStatusCancelling].

(** [PreemptBatchTaskCancel] / [TBatchTaskPreemptCancel]: the condition and
    the assignment of the UPDATE. *)
Definition preempt_where (batchID productName : string) (r : TBatchTask) : bool :=
  eqs batchID (t_BatchID r) && eqs productName (t_ProductName r) &&
  bool_decide (t_Status r ∉ cancel_excluded).
Definition preempt_assign (now : gotime) : TBatchTask -> TBatchTask :=
  assign_task {|
    p_ID := None; p_IDGT := None; p_IDLT := None; p_BatchID := None; p_APIKeyID := None;
    p_ProductName := None; p_EntityID := None; p_Provider := None; p_KeyName := None;
    p_Endpoint := None; p_InputFileID := None; p_OutputFileID := None;
    p_Status := Some "cancelling"; p_StatusIn := []; p_StatusNotIn := []; p_RequestCounts := None;
    p_EstLines := None; p_UsageInputTokens := None; p_UsageOutputTokens := None;
    p_UsageSource := None; p_ReserveUnits := None; p_SettleUnits := None; p_SettleStatus := None;
    p_OverReserved := None; p_SyncSource := None; p_IdemKey := None; p_CreatedAt := None;
    p_CreatedAtGTE := None; p_CreatedAtLTE := None; p_UpdatedAt := Some now; p_TerminalAt := None |}.

(** [UpdateBatchTaskSettleStatus] / [TBatchTaskUpdateSettleStatus]. *)
Definition settle_where (batchID productName fromStatus : string) (r : TBatchTask) : bool :=
  eqs batchID (t_BatchID r) && eqs productName (t_ProductName r) && eqs fromStatus (t_SettleStatus r).
Definition settle_assign (now : gotime) (p : BatchSettlePatch) : TBatchTask -> TBatchTask :=
  assign_task {|
    p_ID := None; p_IDGT := None; p_IDLT := None; p_BatchID := None; p_APIKeyID := None;
    p_ProductName := None; p_EntityID := None; p_Provider := None; p_KeyName := None;
    p_Endpoint := None; p_InputFileID := None; p_OutputFileID := None; p_Status := None;
    p_StatusIn := []; p_StatusNotIn := []; p_RequestCounts := None; p_EstLines := None;
    p_UsageInputTokens := sp_UsageInputTokens p; p_UsageOutputTokens := sp_UsageOutputTokens p;
    p_UsageSource := sp_UsageSource p; p_ReserveUnits := None; p_SettleUnits := sp_SettleUnits p;
    p_SettleStatus := Some (sp_SettleStatus p); p_OverReserved := sp_OverReserved p;
    p_SyncSource := None; p_IdemKey := None; p_CreatedAt := None; p_CreatedAtGTE := None;
    p_CreatedAtLTE := None; p_UpdatedAt := Some now; p_TerminalAt := sp_TerminalAt p |}.

(** [UpdateBatchTaskProgress]: the counts are written even when empty. *)
Definition progress_assign (now : gotime) (p : BatchTaskProgressPatch) : TBatchTask -> TBatchTask :=
  assign_task {|
    p_ID := None; p_IDGT := None; p_IDLT := None; p_BatchID := None; p_APIKeyID := None;
    p_ProductName := None; p_EntityID := None; p_Provider := None; p_KeyName := None;
    p_Endpoint := pp_Endpoint p; p_InputFileID := None; p_OutputFileID := pp_OutputFileID p;
    p_Status := pp_Status p; p_StatusIn := []; p_StatusNotIn := [];
    p_RequestCounts := match pp_RequestCounts p with
                       | Some (Some m) => Some (marshal_counts m)
                       | Some None => Some "null"
                       | None => None
                       end;
    p_EstLines := None; p_UsageInputTokens := None; p_UsageOutputTokens := None;
    p_UsageSource := None; p_ReserveUnits := None; p_SettleUnits := None; p_SettleStatus := None;
    p_OverReserved := None; p_SyncSource := None; p_IdemKey := None; p_CreatedAt := None;
    p_CreatedAtGTE := None; p_CreatedAtLTE := None; p_UpdatedAt := Some now;
    p_TerminalAt := pp_TerminalAt p |}.

Definition update_tasks (where_ : TBatchTask -> bool) (f : TBatchTask -> TBatchTask) (w : world)
  : result Z * world :=
  let '(rows, n) := update_rows where_ f (w_tasks w) in (Ok n, set_tasks w rows).

(** [TBatchFileUpsertByFileProvider]. *)
Definition upsert_file (n : BatchFile) (w : world) : result Z * world :=
  if bool_decide (f_FileID n = EmptyString) || bool_decide (f_Provider n = EmptyString)
  then (Err (ParamError "file_id and provider are required for upsert"), w)
  else
    let hit f := eqs (f_FileID n) (f_FileID f) && eqs (f_Provider n) (f_Provider f) in
    if existsb hit (w_files w)
    then (Ok 0%Z, set_files w (update_rows hit (upsert_file_conflict (w_now w) n) (w_files w)).1 (w_nextFile w))
    else (Ok (w_nextFile w),
          set_files w (w_files w ++ [insert_file (w_nextFile w) (w_now w) n]) (w_nextFile w + 1)).

(** * Redis scripts of the adapter *)

Definition redis_hgetall (key : string) (w : world) : result (gmap string string) :=
  match w_redis w !! key with
  | None => Ok ∅
  | Some (RHash h) => Ok h
  | Some (RStr _) => Err RedisError
  end.

(** HSET of the fields one after the other, then EXPIRE. *)
Definition redis_hset (key : string) (fields : list (string * string)) (w : world) : result unit * world :=
  let put h := fold_left (fun m '(k, v) => <[k := v]> m) fields h in
  match w_redis w !! key with
  | None => (Ok tt, set_redis w (<[key := RHash (put ∅)]> (w_redis w)))
  | Some (RHash h) => (Ok tt, set_redis w (<[key := RHash (put h)]> (w_redis w)))
  | Some (RStr _) => (Err RedisError, w)
  end.

(** SET key 1 NX EX. *)
Definition redis_setnx (key : string) (w : world) : bool * world :=
  match w_redis w !! key with
  | None => (true, set_redis w (<[key := RStr "1"]> (w_redis w)))
  | Some _ => (false, w)
  end.

(** luaAdapterReserveDecr: subtracts at most what is there. *)
Definition redis_reserve_decr (key : string) (delta : Z) (w : world) : result Z * world :=
  match w_redis w !! key with
  | None => (Ok 0%Z, w)
  | Some (RHash _) => (Err RedisError, w)
  | Some (RStr s) =>
      match ParseInt s with
      | None => (Err RedisError, w)
      | Some cur =>
          let d := Z.min cur delta in
          if (0 <? d)%Z
          then (Ok d, set_redis w (<[key := RStr (FormatInt (cur - d))]> (w_redis w)))
          else (Ok d, w)
      end
  end.

(** [RedigoScanner.Scan]: the first round gives every key, later ones none.
    Both patterns in use are a prefix followed by a star. *)
Definition redis_scan (cursor : Z) (match_ : string) (w : world) : Z * list string :=
  if (cursor =? 0)%Z
  then (0%Z, List.filter (fun k => HasPrefix k (TrimRight match_ "*")) (map fst (map_to_list (w_redis w))))
  else (0%Z, []).

(** * The interpretation of the calls *)

Definition batch_handle {R} (e : batchE R) : world -> R * world :=
  match e in batchE R return world -> R * world with
  | UpsertBatchTask t => upsert_task t
  | FetchBatchTask f => fun w => (Ok (fetch_task f w), w)
  | ListBatchTasks f => fun w => (Ok (list_tasks f w), w)
  | PreemptBatchTaskCancel b p => fun w => update_tasks (preempt_where b p) (preempt_assign (w_now w)) w
  | UpdateBatchTaskSettleStatus b p from patch =>
      fun w => update_tasks (settle_where b p from) (settle_assign (w_now w) patch) w
  | UpdateBatchTaskProgress id patch =>
      fun w => update_tasks (fun r => (t_ID r =? id)%Z) (progress_assign (w_now w) patch) w
  | UpsertBatchFile f => upsert_file f
  | FetchBatchFile q => fun w => (Ok (List.find (where_file q) (w_files w)), w)
  | ListBatchFiles q => fun w => (Ok (List.filter (where_file q) (w_files w)), w)
  | HGetAll key => fun w => (redis_hgetall key w, w)
  | HSetWithTTL key _ fields => redis_hset key fields
  | SetNXWithTTL key _ => fun w => let '(b, w') := redis_setnx key w in (Ok b, w')
  | ReserveDecr key delta => redis_reserve_decr key delta
  | Delete key => fun w => (Ok tt, set_redis w (delete key (w_redis w)))
  | Scan cursor m _ => fun w => (Ok (redis_scan cursor m w), w)
  | FetchProvider name => fun w => (Ok (w_providers w !! name), w)
  | FetchModelPrice p m md => fun w => (Ok (w_prices w !! (p, m, md)), w)
  | FetchAPIKeyList id =>
      fun w => (Ok (match w_apiKeys w !! id with Some k => [k] | None => [] end), w)
  | NewRequest _ url => fun w => ((if w_urlok w url then Ok tt else Err (PlainError "parse url")), w)
  | HttpDo r => fun w =>
      if sendable r
      then (w_upstream w (length (w_sent w)) r, set_sent w (w_sent w ++ [r]))
      else (Err TransportError, w)
  | Now => fun w => (w_now w, w)
  | RecordOperation e => fun w => (tt, set_audit w (w_audit w ++ [e]))
  | DbConn => fun w => (Ok tt, w)
  | GetLock s name => fun w =>
      match w_locks w !! name with
      | None => (Ok true, set_locks w (<[name := s]> (w_locks w)))
      | Some holder => (Ok (Nat.eqb holder s), w)
      end
  | ReleaseLock s name => fun w =>
      match w_locks w !! name with
      | Some holder => if Nat.eqb holder s then (Ok tt, set_locks w (delete name (w_locks w))) else (Ok tt, w)
      | None => (Ok tt, w)
      end
  end.

Definition batch_fault {R} (e : batchE R) : option R :=
  match e in batchE R return option R with
  | UpsertBatchTask _ => Some (Err DaoError)
  | FetchBatchTask _ => Some (Err DaoError)
  | ListBatchTasks _ => Some (Err DaoError)
  | PreemptBatchTaskCancel _ _ => Some (Err DaoError)
  | UpdateBatchTaskSettleStatus _ _ _ _ => Some (Err DaoError)
  | UpdateBatchTaskProgress _ _ => Some (Err DaoError)
  | UpsertBatchFile _ => Some (Err DaoError)
  | FetchBatchFile _ => Some (Err DaoError)
  | ListBatchFiles _ => Some (Err DaoError)
  | HGetAll _ => Some (Err RedisError)
  | HSetWithTTL _ _ _ => Some (Err RedisError)
  | SetNXWithTTL _ _ => Some (Err RedisError)
  | ReserveDecr _ _ => Some (Err RedisError)
  | Delete _ => Some (Err RedisError)
  | Scan _ _ _ => Some (Err RedisError)
  | FetchProvider _ => Some (Err DaoError)
  | FetchModelPrice _ _ _ => Some (Err DaoError)
  | FetchAPIKeyList _ => Some (Err DaoError)
  | NewRequest _ _ => None
  | HttpDo _ => Some (Err TransportError)
  | Now => None
  | RecordOperation _ => None
  | DbConn => Some (Err DaoError)
  | GetLock _ _ => Some (Err DaoError)
  | ReleaseLock _ _ => Some (Err DaoError)
  end.

#[export] Instance batch_interp : Interp batchE world := {|
  handle := @batch_handle;
  fault := @batch_fault
|}.
