(* ===== verification/BatchView.v ===== *)
(** The Redis read views of batch tasks and files and their merge with the
    rows of the database ([model/ibatch/redis_view.go]). *)
From Stdlib Require Import ZArith Lia Ascii.
From stdpp Require Import base tactics numbers list strings gmap option.
From S2P Require Import Prelude GoStrings GoJson GoTime Prog BatchTypes BatchStore.

Local Open Scope string_scope.

(** Reading a missing key of a Go map gives the zero value. *)
Definition at_ (vals : gmap string string) (k : string) : string := default EmptyString (vals !! k).

Record redisTaskView : Type := mkTaskView {
  v_batchID : string;
  v_apiKeyID : string;
  v_provider : string;
  v_keyName : string;
  v_inputFileID : string;
  v_outputFileID : option string;
  v_endpoint : option string;
  v_requestCounts : option (gmap string Z);
  v_estLines : option Z;
  v_reserveUnits : option Z;
  v_status : string;
  v_createdAt : option gotime;
  v_usageIn : option Z;
  v_usageOut : option Z;
  v_usageSource : string;
  v_settleUnits : option Z;
  v_settleStatus : string
}.

(** An empty or invalid object counts as not carried. *)
Definition parseRequestCounts (raw : string) : option (gmap string Z) :=
  match raw with
  | EmptyString => None
  | _ => match unmarshal_counts (Some ∅) raw with
         | Some (Some m) => if bool_decide (m = ∅) then None else Some m
         | _ => None
         end
  end.

Definition parseUnixOrRFC3339 (raw : string) : option gotime :=
  match raw with
  | EmptyString => None
  | _ => match ParseInt raw with
         | Some sec => if (sec <=? 0)%Z then None else Some (time_Unix sec)
         | None => ParseRFC3339 raw
         end
  end.

Definition parseInt64Field (vals : gmap string string) (field : string) : option Z :=
  match vals !! field with
  | None => None
  | Some EmptyString => None
  | Some raw => ParseInt raw
  end.

(** A field that is taken over only when it is not empty. *)
Definition nonempty (s : string) : option string :=
  match s with EmptyString => None | _ => Some s end.

Definition ParseRedisTaskView (batchID : string) (vals : gmap string string) : result redisTaskView :=
  if bool_decide (batchID = EmptyString) then Err (PlainError "empty batch id")
  else
    let status := at_ vals "status" in
    if bool_decide (status = EmptyString)
    then Err (PlainError ("BATCH_TASK:" +:+ batchID +:+ " missing status"))
    else Ok {|
      v_batchID := batchID;
      v_apiKeyID := at_ vals "api_key_id";
      v_provider := if bool_decide (at_ vals "provider" = EmptyString)
                    then at_ vals "cluster" else at_ vals "provider";
      v_keyName := at_ vals "key_name";
      v_inputFileID := at_ vals "input_file_id";
      v_outputFileID := nonempty (at_ vals "output_file_id");
      v_endpoint := nonempty (at_ vals "endpoint");
      v_requestCounts := parseRequestCounts (at_ vals "request_counts");
      v_estLines := parseInt64Field vals "est_lines";
      v_reserveUnits := match parseInt64Field vals "reserved_units" with
                        | Some v => Some v
                        | None => if bool_decide (at_ vals "reserved" = "1") then Some 0%Z else None
                        end;
      v_status := status;
      v_createdAt := parseUnixOrRFC3339 (at_ vals "created_at");
      v_usageIn := parseInt64Field vals "usage_in";
      v_usageOut := parseInt64Field vals "usage_out";
      v_usageSource := at_ vals "usage_source";
      v_settleUnits := parseInt64Field vals "settle_units";
      v_settleStatus := at_ vals "settle_status"
    |}.

Record redisFileView : Type := mkFileView {
  vf_partition : string;
  vf_fileID : string;
  vf_apiKeyID : string;
  vf_keyName : string;
  vf_cluster : string;
  vf_lines : option Z;
  vf_bytes : option Z;
  vf_purpose : string;
  vf_filename : string;
  vf_direction : string;
  vf_batchID : string;
  vf_linesSrc : string;
  vf_bytesSrc : string
}.

Definition ParseRedisFileView (partition fileID : string) (vals : gmap string string) : redisFileView := {|
  vf_partition := partition; vf_fileID := fileID;
  vf_apiKeyID := at_ vals "api_key_id"; vf_keyName := at_ vals "key_name";
  vf_cluster := at_ vals "cluster";
  vf_lines := parseInt64Field vals "lines"; vf_bytes := parseInt64Field vals "bytes";
  vf_purpose := at_ vals "purpose"; vf_filename := at_ vals "filename";
  vf_direction := at_ vals "dir"; vf_batchID := at_ vals "batch_id";
  vf_linesSrc := at_ vals "lines_src"; vf_bytesSrc := at_ vals "bytes_src"
|}.

(** * Resolving the owner of a key *)

(** The per-call cache, threaded through the calls that share it. *)
Abbreviation apiKeyResolveCache := (gmap string (option APIKeyParam)) (only parsing).

Definition resolve (cache : apiKeyResolveCache) (apiKeyID : string)
  : prog batchE (result (option APIKeyParam) * apiKeyResolveCache) :=
  match cache !! apiKeyID with
  | Some hit => Ret (Ok hit, cache)
  | None =>
      keys <- call (FetchAPIKeyList apiKeyID) ;;
      match keys with
      | Err e => Ret (Err e, cache)
      | Ok keys =>
          let found := head keys in
          Ret (Ok found, <[apiKeyID := found]> cache)
      end
  end.

(** * From a view to an entity *)

(** The entity of a view owned by the key [ak]; [now] is read only for a
    terminal status. *)
Definition task_of_view (ak : APIKeyParam) (v : redisTaskView) (terminalAt : option gotime) : BatchTask := {|
  ID := 0; BatchID := v_batchID v; APIKeyID := v_apiKeyID v;
  ProductName := default EmptyString (ak_ProductName ak);
  EntityID := default EmptyString (ak_EntityID ak);
  Provider := v_provider v; KeyName := v_keyName v;
  Endpoint := default EmptyString (v_endpoint v);
  InputFileID := v_inputFileID v;
  OutputFileID := default EmptyString (v_outputFileID v);
  Status := v_status v;
  RequestCounts := v_requestCounts v;
  EstLines := default 0%Z (v_estLines v);
  UsageInputTokens := default 0%Z (v_usageIn v);
  UsageOutputTokens := default 0%Z (v_usageOut v);
  UsageSource := v_usageSource v;
  ReserveUnits := default 0%Z (v_reserveUnits v);
  SettleUnits := default 0%Z (v_settleUnits v);
  SettleStatus := if bool_decide (v_settleStatus v = EmptyString)
                  then SettleStatusReserved else v_settleStatus v;
  OverReserved := false;
  SyncSource := SyncSourceRedis; IdemKey := v_batchID v;
  CreatedAt := default 0%Z (v_createdAt v); UpdatedAt := 0;
  TerminalAt := terminalAt; BatchFiles := []
|}.

Definition applyTaskView (cache : apiKeyResolveCache) (v : redisTaskView)
  : prog batchE (result (option BatchTask) * apiKeyResolveCache) :=
  rc <- resolve cache (v_apiKeyID v) ;;
  match rc with
  | (Err e, cache) => Ret (Err e, cache)
  | (Ok None, cache) => Ret (Ok None, cache)
  | (Ok (Some ak), cache) =>
      if IsTerminalStatus (v_status v)
      then now <- call Now ;; Ret (Ok (Some (task_of_view ak v (Some now))), cache)
      else Ret (Ok (Some (task_of_view ak v None)), cache)
  end.

Definition file_of_view (ak : APIKeyParam) (v : redisFileView) : BatchFile := {|
  f_ID := 0; f_FileID := vf_fileID v; f_Provider := vf_partition v; f_KeyName := vf_keyName v;
  f_APIKeyID := vf_apiKeyID v; f_ProductName := default EmptyString (ak_ProductName ak);
  f_Direction := if bool_decide (vf_direction v = EmptyString)
                 then FileDirectionInput else vf_direction v;
  f_Purpose := vf_purpose v; f_Filename := vf_filename v;
  f_Lines := default 0%Z (vf_lines v); f_Bytes := default 0%Z (vf_bytes v);
  f_FirstSeenAt := None; f_LastSeenAt := None; f_CreatedAt := 0; f_UpdatedAt := 0
|}.

Definition applyFileView (cache : apiKeyResolveCache) (v : redisFileView)
  : prog batchE (result (option BatchFile) * apiKeyResolveCache) :=
  rc <- resolve cache (vf_apiKeyID v) ;;
  match rc with
  | (Err e, cache) => Ret (Err e, cache)
  | (Ok None, cache) => Ret (Ok None, cache)
  | (Ok (Some ak), cache) => Ret (Ok (Some (file_of_view ak v)), cache)
  end.

(** * Merging with the row already stored *)

(** [if merged.X == "" { merged.X = existing.X }] *)
Definition or_else (incoming existing : string) : string :=
  match incoming with EmptyString => existing | s => s end.

Definition mergeTaskForSync (existing : option BatchTask) (incoming : BatchTask)
  (view : redisTaskView) (now : gotime) : BatchTask :=
  match existing with
  | None => {|
      ID := ID incoming; BatchID := BatchID incoming; APIKeyID := APIKeyID incoming;
      ProductName := ProductName incoming; EntityID := EntityID incoming;
      Provider := Provider incoming; KeyName := KeyName incoming; Endpoint := Endpoint incoming;
      InputFileID := InputFileID incoming; OutputFileID := OutputFileID incoming;
      Status := Status incoming; RequestCounts := RequestCounts incoming;
      EstLines := EstLines incoming; UsageInputTokens := UsageInputTokens incoming;
      UsageOutputTokens := UsageOutputTokens incoming; UsageSource := UsageSource incoming;
      ReserveUnits := ReserveUnits incoming; SettleUnits := SettleUnits incoming;
      SettleStatus := SettleStatus incoming; OverReserved := OverReserved incoming;
      SyncSource := SyncSource incoming; IdemKey := IdemKey incoming;
      CreatedAt := CreatedAt incoming; UpdatedAt := UpdatedAt incoming;
      TerminalAt := if IsTerminalStatus (Status incoming) then Some now else TerminalAt incoming;
      BatchFiles := BatchFiles incoming |}
  | Some ex => {|
      ID := ID ex; BatchID := BatchID ex;
      APIKeyID := or_else (APIKeyID incoming) (APIKeyID ex);
      ProductName := or_else (ProductName incoming) (ProductName ex);
      EntityID := or_else (EntityID incoming) (EntityID ex);
      Provider := or_else (Provider incoming) (Provider ex);
      KeyName := or_else (KeyName incoming) (KeyName ex);
      Endpoint := or_else (Endpoint incoming) (Endpoint ex);
      InputFileID := or_else (InputFileID incoming) (InputFileID ex);
      OutputFileID := or_else (OutputFileID incoming) (OutputFileID ex);
      Status := if IsTerminalStatus (Status ex) then Status ex else Status incoming;
      RequestCounts := match RequestCounts incoming with
                       | None => RequestCounts ex
                       | c => c
                       end;
      EstLines := default (EstLines ex) (v_estLines view);
      UsageInputTokens := default (UsageInputTokens ex) (v_usageIn view);
      UsageOutputTokens := default (UsageOutputTokens ex) (v_usageOut view);
      UsageSource := or_else (UsageSource incoming) (UsageSource ex);
      ReserveUnits := default (ReserveUnits ex) (v_reserveUnits view);
      SettleUnits := default (SettleUnits ex) (v_settleUnits view);
      SettleStatus := if bool_decide (v_settleStatus view = EmptyString)
                      then SettleStatus ex else SettleStatus incoming;
      OverReserved := OverReserved incoming;
      SyncSource := or_else (SyncSource ex) (SyncSource incoming);
      IdemKey := IdemKey ex;
      CreatedAt := default (CreatedAt ex) (v_createdAt view);
      UpdatedAt := UpdatedAt incoming;
      TerminalAt := if IsTerminalStatus (Status ex) then TerminalAt ex
                    else if IsTerminalStatus (Status incoming) then Some now
                    else TerminalAt incoming;
      BatchFiles := BatchFiles incoming |}
  end.

Definition mergeFileForSync (existing : option BatchFile) (incoming : BatchFile)
  (view : redisFileView) (now : gotime) : BatchFile :=
  match existing with
  | None => {|
      f_ID := f_ID incoming; f_FileID := f_FileID incoming; f_Provider := f_Provider incoming;
      f_KeyName := f_KeyName incoming; f_APIKeyID := f_APIKeyID incoming;
      f_ProductName := f_ProductName incoming; f_Direction := f_Direction incoming;
      f_Purpose := f_Purpose incoming; f_Filename := f_Filename incoming;
      f_Lines := f_Lines incoming; f_Bytes := f_Bytes incoming;
      f_FirstSeenAt := match f_FirstSeenAt incoming with None => Some now | t => t end;
      f_LastSeenAt := match f_LastSeenAt incoming with None => Some now | t => t end;
      f_CreatedAt := f_CreatedAt incoming; f_UpdatedAt := f_UpdatedAt incoming |}
  | Some ex => {|
      f_ID := f_ID ex; f_FileID := f_FileID incoming; f_Provider := f_Provider incoming;
      f_KeyName := or_else (f_KeyName incoming) (f_KeyName ex);
      f_APIKeyID := or_else (f_APIKeyID incoming) (f_APIKeyID ex);
      f_ProductName := or_else (f_ProductName incoming) (f_ProductName ex);
      f_Direction := or_else (f_Direction incoming) (f_Direction ex);
      f_Purpose := or_else (f_Purpose incoming) (f_Purpose ex);
      f_Filename := or_else (f_Filename incoming) (f_Filename ex);
      f_Lines := default (f_Lines ex) (vf_lines view);
      f_Bytes := default (f_Bytes ex) (vf_bytes view);
      f_FirstSeenAt := f_FirstSeenAt ex; f_LastSeenAt := Some now;
      f_CreatedAt := f_CreatedAt incoming; f_UpdatedAt := f_UpdatedAt incoming |}
  end.
