(* ===== verification/BatchManager.v ===== *)
(** The batch manager: configuration, queries and the Redis synchronisation
    ([model/ibatch/manager.go], [sync.go]), and the access to the upstream
    provider shared by cancel, status advance and settlement ([cancel.go]). *)
From Stdlib Require Import ZArith Lia Ascii.
From stdpp Require Import base tactics numbers list strings gmap option.
From S2P Require Import Prelude GoStrings GoJson Prog BatchTypes BatchStore BatchView.

Local Open Scope string_scope.

(** * Configuration *)

(** The tunable part of [Manager]; an absent dependency is a nil interface. *)
Record Manager : Type := mkManager {
  has_redis : bool;
  has_providerQuerier : bool;
  has_priceQuerier : bool;
  has_operationLog : bool;
  providerTimeout : Z;
  settleGrace : Z;
  advanceLimit : Z;
  reconcileLimit : Z;
  scanCount : Z;
  maxOutputLineBytes : Z
}.

Inductive ManagerOption : Type :=
| WithProviderTimeout (d : Z)
| WithSettleGrace (d : Z)
| WithAdvanceLimit (n : Z)
| WithReconcileLimit (n : Z)
| WithScanCount (n : Z)
| WithMaxOutputLineBytes (n : Z).

Definition apply_option (m : Manager) (o : ManagerOption) : Manager :=
  let '(mkManager r pq pc ol pt sg al rl sc mb) := m in
  let pick new old := if (0 <? new)%Z then new else old in
  match o with
  | WithProviderTimeout d => mkManager r pq pc ol (pick d pt) sg al rl sc mb
  | WithSettleGrace d => mkManager r pq pc ol pt (pick d sg) al rl sc mb
  | WithAdvanceLimit n => mkManager r pq pc ol pt sg (pick n al) rl sc mb
  | WithReconcileLimit n => mkManager r pq pc ol pt sg al (pick n rl) sc mb
  | WithScanCount n => mkManager r pq pc ol pt sg al rl (pick n sc) mb
  | WithMaxOutputLineBytes n => mkManager r pq pc ol pt sg al rl sc (pick n mb)
  end.

Definition defaultProviderTimeout : Z := 10 * second.
Definition defaultSettleGrace : Z := 30 * minute.
Definition defaultAdvanceLimit : Z := 50.
Definition defaultReconcileLimit : Z := 50.
Definition defaultScanCount : Z := 200.
Definition defaultMaxOutputLineBytes : Z := 4 * 2 ^ 20.

Definition NewManager (redis providers prices : bool) (opts : list ManagerOption) : Manager :=
  fold_left apply_option opts
    (mkManager redis providers prices false defaultProviderTimeout defaultSettleGrace
       defaultAdvanceLimit defaultReconcileLimit defaultScanCount defaultMaxOutputLineBytes).

Definition SetOperationLogManager (m : Manager) : Manager :=
  let '(mkManager r pq pc _ pt sg al rl sc mb) := m in mkManager r pq pc true pt sg al rl sc mb.

(** * Queries *)

Definition byBatch (batchID productName : string) : BatchTaskFilter :=
  mkTaskFilter None (Some batchID) None None (Some productName) None None None [] [] None None None None 0.

(** The database first; on a miss, the Redis hash, if the task's key belongs
    to the product. *)
Definition FetchTask (m : Manager) (batchID productName : string) (allowRedisFallback : bool)
  : prog batchE (result (option BatchTask)) :=
  task <-? call (FetchBatchTask (byBatch batchID productName)) ;;
  match task with
  | Some t => Ret (Ok (Some t))
  | None =>
      if negb allowRedisFallback || negb (has_redis m) then Ret (Ok None)
      else
        vals <-? call (HGetAll (BatchTaskKey batchID)) ;;
        if bool_decide (vals = ∅) then Ret (Ok None)
        else match ParseRedisTaskView batchID vals with
             | Err _ => Ret (Ok None)
             | Ok view =>
                 rc <- applyTaskView ∅ view ;;
                 match rc.1 with
                 | Err e => Ret (Err e)
                 | Ok None => Ret (Ok None)
                 | Ok (Some t) =>
                     if bool_decide (ProductName t = productName) then Ret (Ok (Some t)) else Ret (Ok None)
                 end
             end
  end.

Definition FetchFile (m : Manager) (fileID provider productName : string) (allowRedisFallback : bool)
  : prog batchE (result (option BatchFile)) :=
  file <-? call (FetchBatchFile (mkFileFilter None (Some fileID) (Some provider) None (Some productName) None)) ;;
  match file with
  | Some f => Ret (Ok (Some f))
  | None =>
      if negb allowRedisFallback || negb (has_redis m) then Ret (Ok None)
      else
        vals <-? call (HGetAll (BatchFileKey provider fileID)) ;;
        if bool_decide (vals = ∅) then Ret (Ok None)
        else
          rc <- applyFileView ∅ (ParseRedisFileView provider fileID vals) ;;
          match rc.1 with
          | Err e => Ret (Err e)
          | Ok None => Ret (Ok None)
          | Ok (Some f) =>
              if bool_decide (f_ProductName f = productName) then Ret (Ok (Some f)) else Ret (Ok None)
          end
  end.

(** The page size that is used for a requested one. *)
Definition page_limit (requested : Z) : Z :=
  let limit := if (requested <=? 0)%Z then DefaultListLimit else requested in
  if (MaxListLimit <? limit)%Z then MaxListLimit else limit.

Definition with_limit (f : BatchTaskFilter) (n : Z) : BatchTaskFilter :=
  mkTaskFilter (q_ID f) (q_BatchID f) (q_IdemKey f) (q_APIKeyID f) (q_ProductName f) (q_EntityID f)
    (q_Provider f) (q_Status f) (q_StatusIn f) (q_StatusNotIn f) (q_SettleStatus f)
    (q_CreatedStart f) (q_CreatedEnd f) (q_CursorID f) n.

Definition ListTasks (filter : option BatchTaskFilter) : prog batchE (result BatchTaskListResult) :=
  let f := default noTaskFilter filter in
  match q_ProductName f with
  | None | Some EmptyString => Ret (Err (ParamError "product_name is required"))
  | Some _ =>
      let limit := page_limit (q_Limit f) in
      tasks <-? call (ListBatchTasks (with_limit f limit)) ;;
      Ret (Ok {| lr_Tasks := tasks;
                 lr_NextCursor := if (limit <=? Z.of_nat (length tasks))%Z && (0 <? limit)%Z
                                  then match list.last tasks with Some t => ID t | None => 0%Z end
                                  else 0%Z |})
  end.

(** * Synchronisation from Redis (duty 1 of the reconcile job) *)

Definition byIdemKey (idem : string) : BatchTaskFilter :=
  mkTaskFilter None None (Some idem) None None None None None [] [] None None None None 0.

Definition syncOneTask (cache : apiKeyResolveCache) (batchID : string)
  : prog batchE (result unit * apiKeyResolveCache) :=
  vals <- call (HGetAll (BatchTaskKey batchID)) ;;
  match vals with
  | Err e => Ret (Err e, cache)
  | Ok vals =>
    if bool_decide (vals = ∅) then Ret (Ok tt, cache)
    else match ParseRedisTaskView batchID vals with
    | Err e => Ret (Err e, cache)
    | Ok view =>
      rc <- applyTaskView cache view ;;
      match rc with
      | (Err e, cache) => Ret (Err e, cache)
      | (Ok None, cache) => Ret (Err errSyncSkip, cache)
      | (Ok (Some incoming), cache) =>
        existing <- call (FetchBatchTask (byIdemKey batchID)) ;;
        match existing with
        | Err e => Ret (Err e, cache)
        | Ok existing =>
          now <- call Now ;;
          u <- call (UpsertBatchTask (mergeTaskForSync existing incoming view now)) ;;
          Ret (match u with Ok _ => Ok tt | Err e => Err e end, cache)
        end
      end
    end
  end.

Definition syncOneFile (cache : apiKeyResolveCache) (partition fileID : string)
  : prog batchE (result unit * apiKeyResolveCache) :=
  vals <- call (HGetAll (BatchFileKey partition fileID)) ;;
  match vals with
  | Err e => Ret (Err e, cache)
  | Ok vals =>
    if bool_decide (vals = ∅) then Ret (Ok tt, cache)
    else
      let view := ParseRedisFileView partition fileID vals in
      rc <- applyFileView cache view ;;
      match rc with
      | (Err e, cache) => Ret (Err e, cache)
      | (Ok None, cache) => Ret (Err errSyncSkip, cache)
      | (Ok (Some incoming), cache) =>
        existing <- call (FetchBatchFile (mkFileFilter None (Some fileID) (Some partition) None None None)) ;;
        match existing with
        | Err e => Ret (Err e, cache)
        | Ok existing =>
          now <- call Now ;;
          u <- call (UpsertBatchFile (mergeFileForSync existing incoming view now)) ;;
          Ret (match u with Ok _ => Ok tt | Err e => Err e end, cache)
        end
      end
  end.

(** One page of keys: a failing key is skipped. *)
Definition sync_keys (one : apiKeyResolveCache -> string -> option (prog batchE (result unit * apiKeyResolveCache)))
  (keys : list string) (s : Z * apiKeyResolveCache) : prog batchE (Z * apiKeyResolveCache) :=
  for_each keys s (fun key s =>
    let '(synced, cache) := s in
    match one cache key with
    | None => Ret (synced, cache)
    | Some p =>
        rc <- p ;;
        Ret (match rc.1 with Ok _ => synced + 1 | Err _ => synced end, rc.2)%Z
    end).

(** The SCAN loop.  The cursor comes from Redis, so the loop is bounded by
    [fuel] rounds here; [errScanFuel] is not a result of the code. *)
Definition errScanFuel : goerr := PlainError "scan rounds exhausted".

Fixpoint scan_loop (fuel : nat) (m : Manager) (match_ : string)
  (one : apiKeyResolveCache -> string -> option (prog batchE (result unit * apiKeyResolveCache)))
  (cursor : Z) (s : Z * apiKeyResolveCache) : prog batchE (Z * option goerr) :=
  match fuel with
  | O => Ret (s.1, Some errScanFuel)
  | S f =>
      r <- call (Scan cursor match_ (scanCount m)) ;;
      match r with
      | Err e => Ret (s.1, Some e)
      | Ok (next, keys) =>
          s' <- sync_keys one keys s ;;
          if (next =? 0)%Z then Ret (s'.1, None) else scan_loop f m match_ one next s'
      end
  end.

Definition sync_task_key (cache : apiKeyResolveCache) (key : string) :=
  let '(batchID, ok) := ParseBatchTaskKey key in
  if ok then Some (syncOneTask cache batchID) else None.

Definition sync_file_key (cache : apiKeyResolveCache) (key : string) :=
  let '(partition, fileID, ok) := ParseBatchFileKey key in
  if ok then Some (syncOneFile cache partition fileID) else None.

Definition scanSyncTasks (fuel : nat) (m : Manager) : prog batchE (Z * option goerr) :=
  scan_loop fuel m ScanMatchTasks sync_task_key 0 (0%Z, ∅).

Definition scanSyncFiles (fuel : nat) (m : Manager) : prog batchE (Z * option goerr) :=
  scan_loop fuel m ScanMatchFiles sync_file_key 0 (0%Z, ∅).

Definition SyncFromRedis (fuel : nat) (m : Manager) : prog batchE (Z * Z * option goerr) :=
  if negb (has_redis m) then Ret (0%Z, 0%Z, None)
  else
    t <- scanSyncTasks fuel m ;;
    match t with
    | (_, Some e) => Ret (0%Z, 0%Z, Some e)
    | (tasks, None) =>
        f <- scanSyncFiles fuel m ;;
        match f with
        | (_, Some e) => Ret (tasks, 0%Z, Some e)
        | (files, None) => Ret (tasks, files, None)
        end
    end.

(** * Access to the upstream provider *)

Record providerAccess : Type := mkAccess {
  baseURL : string; path : string; authHeader : string; authValue : string
}.

(** [iprovider.EffectiveInstancePool] for a provider that exists. *)
Definition EffectiveInstancePool (p : ProviderRec) : list ProviderInstance :=
  if bool_decide (pr_InstanceSource p = "k8s_pool") then pr_K8sInstancePool p else pr_InstancePool p.

Definition pickProviderInstance (p : ProviderRec) : option ProviderInstance :=
  List.find (fun i => negb (in_Disable i) &&
                      negb (bool_decide (in_Addr i = EmptyString) || (in_Port i <=? 0)%Z))
    (EffectiveInstancePool p).

Definition pickProviderKey (p : ProviderRec) (keyName : string) : option ProviderKey :=
  match List.find (fun k => negb (bool_decide (keyName = EmptyString)) && eqs (pk_Name k) keyName) (pr_Keys p) with
  | Some k => Some k
  | None => List.find (fun k => negb (bool_decide (pk_Key k = EmptyString))) (pr_Keys p)
  end.

(** [iprovider.BuildAuthHeader]. *)
Definition BuildAuthHeader (protocol key : string) : string * string :=
  if bool_decide (protocol = "anthropic") then ("x-api-key", key)
  else if bool_decide (protocol = "gemini") then ("x-goog-api-key", key)
  else ("Authorization", "Bearer " +:+ key).

(** [net.JoinHostPort]. *)
Definition JoinHostPort (host port : string) : string :=
  if has_byte host ":" then "[" +:+ host +:+ "]:" +:+ port else host +:+ ":" +:+ port.

Definition buildInstanceBaseURL (inst : ProviderInstance) : string :=
  let addr := in_Addr inst in
  if HasPrefix addr "http://" || HasPrefix addr "https://" then TrimRight addr "/"
  else "http://" +:+ JoinHostPort addr (FormatInt (in_Port inst)).

Definition normalizeProviderPath (p : string) : string :=
  let p := TrimSpace p in
  let p := if negb (HasPrefix p "/") then "/" +:+ p else p in
  TrimRight p "/".

(** The access record of a provider, once it is known. *)
Definition access_of (providerName keyName : string) (p : ProviderRec) : result providerAccess :=
  match pickProviderInstance p with
  | None => Err (errProviderUnavailable providerName)
  | Some inst =>
      let base := buildInstanceBaseURL inst in
      let pth := match pr_ProtocolPaths p !! "openai" with
                 | Some q => if bool_decide (TrimSpace q = EmptyString) then "/v1" else normalizeProviderPath q
                 | None => "/v1"
                 end in
      match pr_Keys p with
      | [] => Ok (mkAccess base pth EmptyString EmptyString)
      | _ =>
          match pickProviderKey p keyName with
          | None => Err (errProviderUnavailable providerName)
          | Some k => let '(h, v) := BuildAuthHeader "openai" (pk_Key k) in Ok (mkAccess base pth h v)
          end
      end
  end.

Definition resolveProviderAccess (m : Manager) (providerName keyName : string)
  : prog batchE (result providerAccess) :=
  if negb (has_providerQuerier m) then Ret (Err (errProviderUnavailable providerName))
  else
    p <-? call (FetchProvider providerName) ;;
    match p with
    | None => Ret (Err (errProviderUnavailable providerName))
    | Some p => Ret (access_of providerName keyName p)
    end.

(** The request header of the calls that omit it for a keyless provider. *)
Definition auth_if_any (a : providerAccess) : option (string * string) :=
  if bool_decide (authHeader a = EmptyString) then None else Some (authHeader a, authValue a).

Definition ok_status (code : Z) : bool := (200 <=? code)%Z && (code <? 300)%Z.

Definition postProviderCancel (a : providerAccess) (url : string) : prog batchE (result unit) :=
  _ <-? call (NewRequest "POST" url) ;;
  r <- call (HttpDo (mkReq "POST" url (auth_if_any a))) ;;
  match r with
  | Err _ => Ret (Err ErrUpstreamUnreachable)
  | Ok resp =>
      if (rs_status resp =? 404)%Z then Ret (Err ErrUpstreamBatchNotFound)
      else if negb (ok_status (rs_status resp)) then Ret (Err ErrUpstreamUnreachable)
      else Ret (Ok tt)
  end.

(** The first [n] bytes of a body. *)
Fixpoint take_bytes (n : N) (s : string) : string :=
  match s with
  | EmptyString => EmptyString
  | String c r => if (n =? 0)%N then EmptyString else String c (take_bytes (n - 1) r)
  end.
Fixpoint shorter_than (n : N) (s : string) : bool :=
  match s with
  | EmptyString => (0 <? n)%N
  | String _ r => if (n =? 0)%N then false else shorter_than (n - 1) r
  end.

Definition responseLimit : N := (4 * 2 ^ 20)%N.

(** The body is read up to 4 MB; a read error beyond that is not seen. *)
Definition getProvider (a : providerAccess) (url : string) : prog batchE (result (string * Z)) :=
  _ <-? call (NewRequest "GET" url) ;;
  r <- call (HttpDo (mkReq "GET" url (auth_if_any a))) ;;
  match r with
  | Err _ => Ret (Err ErrUpstreamUnreachable)
  | Ok resp =>
      if rs_broken resp && shorter_than responseLimit (rs_body resp) then Ret (Err TransportError)
      else Ret (Ok (take_bytes responseLimit (rs_body resp), rs_status resp))
  end.

(** * Releasing a reservation *)

(** The order in which Go ranges over a map: any order of its entries. *)
Class MapOrder : Type := {
  map_order : gmap string string -> list (string * string);
  map_order_perm : forall m, map_order m ≡ₚ map_to_list m
}.

Definition releaseReserve `{MapOrder} (batchID : string) : prog batchE (result unit) :=
  let bookKey := BatchReserveBatchKey batchID in
  vals <-? call (HGetAll bookKey) ;;
  if bool_decide (vals = ∅) then Ret (Ok tt)
  else
    for_each (map_order vals) tt (fun entry _ =>
      let '(planKey, unitsStr) := entry in
      match ParseInt unitsStr with
      | None => Ret tt
      | Some units => if (units <=? 0)%Z then Ret tt
                      else call (ReserveDecr (BatchReserveMirrorKey planKey) units) ;; Ret tt
      end) ;;
    call (Delete bookKey).
