(* ===== verification/BatchAdvance.v ===== *)
(** Cancelling a batch task ([model/ibatch/cancel.go], [operation_log.go]), and
    the cycle that advances the status of tasks and backfills rows
    ([advance.go]). *)
From Stdlib Require Import ZArith Lia Ascii.
From stdpp Require Import base tactics numbers list strings gmap option.
From S2P Require Import Prelude GoStrings GoJson Prog BatchTypes BatchStore BatchView BatchManager.

Local Open Scope string_scope.

Definition recordCancelOperation (m : Manager) (batchID prevStatus : string) (err : option goerr)
  : prog batchE unit :=
  if has_operationLog m then call (RecordOperation (mkEntry batchID prevStatus err)) else Ret tt.

(** Record the failure and return it. *)
Definition cancel_fails {A} (m : Manager) (batchID prevStatus : string) (err : goerr)
  : prog batchE (result A) :=
  recordCancelOperation m batchID prevStatus (Some err) ;; Ret (Err err).

Definition with_status (t : BatchTask) (s : string) : BatchTask :=
  mkTask (ID t) (BatchID t) (APIKeyID t) (ProductName t) (EntityID t) (Provider t) (KeyName t)
    (Endpoint t) (InputFileID t) (OutputFileID t) s (RequestCounts t) (EstLines t)
    (UsageInputTokens t) (UsageOutputTokens t) (UsageSource t) (ReserveUnits t) (SettleUnits t)
    (SettleStatus t) (OverReserved t) (SyncSource t) (IdemKey t) (CreatedAt t) (UpdatedAt t)
    (TerminalAt t) (BatchFiles t).

Definition cancelURL (a : providerAccess) (batchID : string) : string :=
  baseURL a +:+ path a +:+ "/batches/" +:+ batchID +:+ "/cancel".

Section Cancel.
Context `{MapOrder}.

(** The part shared by the first cancel and its replay: reach the provider,
    release the reservation, record the outcome. *)
Definition cancel_upstream (m : Manager) (batchID prevStatus : string) (task : BatchTask)
  : prog batchE (result BatchTask) :=
  access <- resolveProviderAccess m (Provider task) (KeyName task) ;;
  match access with
  | Err e => cancel_fails m batchID prevStatus e
  | Ok access =>
      post <- postProviderCancel access (cancelURL access batchID) ;;
      match post with
      | Err e => cancel_fails m batchID prevStatus e
      | Ok _ =>
          (if has_redis m then releaseReserve batchID ;; Ret tt else Ret tt) ;;
          recordCancelOperation m batchID prevStatus None ;;
          Ret (Ok (with_status task TaskStatusCancelling))
      end
  end.

Definition cancelReplay (m : Manager) (task : BatchTask) : prog batchE (result BatchTask) :=
  cancel_upstream m (BatchID task) TaskStatusCancelling task.

(** The preemption did not take: a replay if the row is cancelling, a
    conflict otherwise. *)
Definition cancel_conflict (m : Manager) (batchID productName prevStatus : string)
  : prog batchE (result BatchTask) :=
  cur <- FetchTask m batchID productName false ;;
  match cur with
  | Ok (Some cur) =>
      if bool_decide (Status cur = TaskStatusCancelling) then cancelReplay m cur
      else cancel_fails m batchID prevStatus (errBatchConflict batchID)
  | _ => cancel_fails m batchID prevStatus (errBatchConflict batchID)
  end.

(** The second attempt for a task that came from Redis: register the row,
    then preempt again. *)
Definition preempt_again (batchID productName : string) (task : BatchTask) : prog batchE (result Z) :=
  if (ID task =? 0)%Z then
    up <- call (UpsertBatchTask task) ;;
    match up with
    | Ok _ => call (PreemptBatchTaskCancel batchID productName)
    | Err _ => Ret (Ok 0%Z)
    end
  else Ret (Ok 0%Z).

Definition Cancel (m : Manager) (batchID productName : string) : prog batchE (result BatchTask) :=
  task <- FetchTask m batchID productName true ;;
  match task with
  | Err e => cancel_fails m batchID EmptyString e
  | Ok None => cancel_fails m batchID EmptyString ErrBatchNotFound
  | Ok (Some task) =>
      let prevStatus := Status task in
      affected <- call (PreemptBatchTaskCancel batchID productName) ;;
      match affected with
      | Err e => cancel_fails m batchID prevStatus e
      | Ok affected =>
          if (affected =? 0)%Z then
            again <- preempt_again batchID productName task ;;
            match again with
            | Err e => cancel_fails m batchID prevStatus e
            | Ok affected =>
                if (affected =? 0)%Z then cancel_conflict m batchID productName prevStatus
                else cancel_upstream m batchID prevStatus task
            end
          else cancel_upstream m batchID prevStatus task
      end
  end.
End Cancel.

(** Advancing the status of batch tasks from the provider
    ([model/ibatch/advance.go]; duties 2 and 2b of the reconcile job). *)

Definition providerAbsentGrace : Z := 24 * hour.
Definition terminalArtifactWindow : Z := 24 * hour.

Record providerBatchResponse : Type := mkBatchResp {
  br_ID : string;
  br_Status : string;
  br_OutputFileID : string;
  br_Endpoint : string;
  br_RequestCounts : option (gmap string Z)
}.

Definition batch_resp_fields : list (string * (providerBatchResponse -> json -> option providerBatchResponse)) := [
  ("id", fun r j => x ← dec_string (br_ID r) j;
                    Some (mkBatchResp x (br_Status r) (br_OutputFileID r) (br_Endpoint r) (br_RequestCounts r)));
  ("status", fun r j => x ← dec_string (br_Status r) j;
                    Some (mkBatchResp (br_ID r) x (br_OutputFileID r) (br_Endpoint r) (br_RequestCounts r)));
  ("output_file_id", fun r j => x ← dec_string (br_OutputFileID r) j;
                    Some (mkBatchResp (br_ID r) (br_Status r) x (br_Endpoint r) (br_RequestCounts r)));
  ("endpoint", fun r j => x ← dec_string (br_Endpoint r) j;
                    Some (mkBatchResp (br_ID r) (br_Status r) (br_OutputFileID r) x (br_RequestCounts r)));
  ("request_counts", fun r j => x ← dec_counts (br_RequestCounts r) j;
                    Some (mkBatchResp (br_ID r) (br_Status r) (br_OutputFileID r) (br_Endpoint r) x))].

(** [json.Unmarshal] of a provider response. *)
Definition unmarshal_batch_resp (body : string) : option providerBatchResponse :=
  j ← parse_json body;
  dec_struct batch_resp_fields (mkBatchResp EmptyString EmptyString EmptyString EmptyString None) j.

Definition map_size (c : option (gmap string Z)) : nat := match c with Some m => size m | None => 0 end.

(** Equal lengths, and every entry of the first in the second. *)
Definition equalCounts (a b : option (gmap string Z)) : bool :=
  if negb (Nat.eqb (map_size a) (map_size b)) then false
  else forallb (fun '(k, v) => match default ∅ b !! k with
                               | Some bv => (bv =? v)%Z
                               | None => false
                               end) (map_to_list (default ∅ a)).

Definition queryURL (a : providerAccess) (batchID : string) : string :=
  baseURL a +:+ path a +:+ "/batches/" +:+ batchID.

(** Registers the output file of a task. *)
Definition registerOutputFile (task : BatchTask) (outputFileID : string) (now : gotime)
  : prog batchE (result unit) :=
  existing <-? call (FetchBatchFile (mkFileFilter None (Some outputFileID) (Some (Provider task)) None None None)) ;;
  let file := {|
    f_ID := 0; f_FileID := outputFileID; f_Provider := Provider task; f_KeyName := KeyName task;
    f_APIKeyID := APIKeyID task; f_ProductName := ProductName task;
    f_Direction := FileDirectionOutput; f_Purpose := EmptyString; f_Filename := EmptyString;
    f_Lines := 0; f_Bytes := 0; f_FirstSeenAt := None; f_LastSeenAt := None;
    f_CreatedAt := 0; f_UpdatedAt := 0 |} in
  let view := mkFileView (Provider task) outputFileID EmptyString EmptyString EmptyString None None
                EmptyString EmptyString EmptyString EmptyString EmptyString EmptyString in
  _ <-? call (UpsertBatchFile (mergeFileForSync existing file view now)) ;;
  Ret (Ok tt).

(** Provider 404: expired once the task is older than the grace period. *)
Definition handleProviderAbsent (task : BatchTask) : prog batchE (result bool) :=
  t <- call Now ;;
  if (time_Sub t (CreatedAt task) <=? providerAbsentGrace)%Z then Ret (Ok false)
  else
    now <- call Now ;;
    affected <-? call (UpdateBatchTaskProgress (ID task)
                  (mkProgress (Some TaskStatusExpired) None None None (Some now))) ;;
    Ret (Ok (negb (affected =? 0)%Z)).

Definition keep_counts (c : option (gmap string Z)) : option (option (gmap string Z)) :=
  match c with Some _ => Some c | None => None end.

(** The patch for a provider response, without the parts that talk to the
    outside: the status is kept back when [held]. *)
Definition advance_patch (task : BatchTask) (r : providerBatchResponse) (held : bool) (now : gotime)
  : BatchTaskProgressPatch :=
  let status := if held || IsTerminalStatus (Status task) then None else Some (br_Status r) in
  {| pp_Status := status;
     pp_OutputFileID :=
       if negb (bool_decide (br_OutputFileID r = EmptyString)) &&
          negb (bool_decide (br_OutputFileID r = OutputFileID task))
       then Some (br_OutputFileID r) else None;
     pp_Endpoint :=
       if negb (bool_decide (br_Endpoint r = EmptyString)) &&
          negb (bool_decide (br_Endpoint r = Endpoint task))
       then Some (br_Endpoint r) else None;
     pp_RequestCounts := keep_counts (br_RequestCounts r);
     pp_TerminalAt := if IsTerminalStatus (br_Status r) && bool_decide (is_Some status)
                      then Some now else None |}.

(** The cancel intent is kept: a cancelling task is not set back to a
    non-terminal status. *)
Definition status_held (task : BatchTask) (r : providerBatchResponse) : bool :=
  bool_decide (Status task = TaskStatusCancelling) && negb (IsTerminalStatus (br_Status r)) &&
  negb (bool_decide (br_Status r = TaskStatusCancelling)).

Definition advance_changed (task : BatchTask) (r : providerBatchResponse) (held : bool)
  (patch : BatchTaskProgressPatch) : bool :=
  (negb held && negb (bool_decide (br_Status r = Status task))) ||
  negb (equalCounts (br_RequestCounts r) (RequestCounts task)) ||
  bool_decide (is_Some (pp_OutputFileID patch)) || bool_decide (is_Some (pp_Endpoint patch)).

Definition advanceOneTask (m : Manager) (task : BatchTask) : prog batchE (result bool) :=
  access <-? resolveProviderAccess m (Provider task) (KeyName task) ;;
  resp <-? getProvider access (queryURL access (BatchID task)) ;;
  let '(body, code) := resp in
  if (code =? 404)%Z then handleProviderAbsent task
  else if negb (ok_status code) then Ret (Err ErrUpstreamUnreachable)
  else match unmarshal_batch_resp body with
  | None => Ret (Err (PlainError "parse provider batch response"))
  | Some r =>
      if negb (bool_decide (br_ID r = EmptyString)) && negb (bool_decide (br_ID r = BatchID task))
      then Ret (Err (PlainError "provider returned mismatched batch id"))
      else if bool_decide (br_Status r = EmptyString)
      then Ret (Err (PlainError "provider response missing status"))
      else
        now <- call Now ;;
        let held := status_held task r in
        (if held then postProviderCancel access (cancelURL access (BatchID task)) ;; Ret tt else Ret tt) ;;
        let patch := advance_patch task r held now in
        match pp_OutputFileID patch with
        | Some f => registerOutputFile task f now ;; Ret tt
        | None => Ret tt
        end ;;
        if negb (advance_changed task r held patch) then Ret (Ok false)
        else
          _ <-? call (UpdateBatchTaskProgress (ID task) patch) ;;
          Ret (Ok true)
  end.

(** The loop of a duty over its candidates: a failing task is skipped. *)
Definition duty_loop (body : BatchTask -> prog batchE (result bool)) (tasks : list BatchTask) : prog batchE Z :=
  for_each tasks 0%Z (fun task n =>
    r <- body task ;; Ret (match r with Ok true => n + 1 | _ => n end)%Z).

Definition AdvanceStatus (m : Manager) : prog batchE (result Z) :=
  if negb (has_providerQuerier m) then Ret (Ok 0%Z)
  else
    tasks <-? call (ListBatchTasks (mkTaskFilter None None None None None None None None []
                      TerminalStatuses None None None None (advanceLimit m))) ;;
    n <- duty_loop (advanceOneTask m) tasks ;;
    Ret (Ok n).

(** Which artifacts of a completed task the response supplies. *)
Definition backfill_patch (task : BatchTask) (r : providerBatchResponse) : BatchTaskProgressPatch := {|
  pp_Status := None;
  pp_OutputFileID := if bool_decide (OutputFileID task = EmptyString) &&
                        negb (bool_decide (br_OutputFileID r = EmptyString))
                     then Some (br_OutputFileID r) else None;
  pp_Endpoint := if bool_decide (Endpoint task = EmptyString) &&
                    negb (bool_decide (br_Endpoint r = EmptyString))
                 then Some (br_Endpoint r) else None;
  pp_RequestCounts := match RequestCounts task with
                      | None => keep_counts (br_RequestCounts r)
                      | Some _ => None
                      end;
  pp_TerminalAt := None
|}.

Definition backfillOneTask (m : Manager) (task : BatchTask) : prog batchE (result bool) :=
  access <-? resolveProviderAccess m (Provider task) (KeyName task) ;;
  resp <-? getProvider access (queryURL access (BatchID task)) ;;
  let '(body, code) := resp in
  if (code =? 404)%Z then Ret (Ok false)
  else if negb (ok_status code) then Ret (Err ErrUpstreamUnreachable)
  else match unmarshal_batch_resp body with
  | None => Ret (Err (PlainError "parse provider batch response"))
  | Some r =>
      if negb (bool_decide (br_ID r = EmptyString)) && negb (bool_decide (br_ID r = BatchID task))
      then Ret (Err (PlainError "provider returned mismatched batch id"))
      else
        now <- call Now ;;
        let patch := backfill_patch task r in
        match pp_OutputFileID patch with
        | Some f => registerOutputFile task f now ;; Ret tt
        | None => Ret tt
        end ;;
        if bool_decide (is_Some (pp_OutputFileID patch)) || bool_decide (is_Some (pp_RequestCounts patch)) ||
           bool_decide (is_Some (pp_Endpoint patch))
        then
          _ <-? call (UpdateBatchTaskProgress (ID task) patch) ;;
          Ret (Ok true)
        else Ret (Ok false)
  end.

Definition BackfillTerminalArtifacts (m : Manager) : prog batchE (result Z) :=
  if negb (has_providerQuerier m) then Ret (Ok 0%Z)
  else
    now <- call Now ;;
    tasks <-? call (ListBatchTasks (mkTaskFilter None None None None None None None
                      (Some TaskStatusCompleted) [] [] None (Some (now - terminalArtifactWindow)%Z)
                      None None (advanceLimit m))) ;;
    n <- for_each tasks 0%Z (fun task n =>
           if negb (bool_decide (OutputFileID task = EmptyString)) && bool_decide (is_Some (RequestCounts task))
           then Ret n
           else r <- backfillOneTask m task ;; Ret (match r with Ok true => n + 1 | _ => n end)%Z) ;;
    Ret (Ok n).
