(* ===== verification/BatchSettle.v ===== *)
(** Settlement and release of finished batch tasks
    ([model/ibatch/settle.go]; duty 3 of the reconcile job). *)
From Stdlib Require Import ZArith Lia Ascii SpecFloat.
From stdpp Require Import base tactics numbers list strings gmap option.
From S2P Require Import Prelude GoStrings GoJson Prog BatchTypes BatchStore BatchView BatchManager.

Local Open Scope string_scope.

Definition PriceInputCostPerToken : string := "input_cost_per_token".
Definition PriceOutputCostPerToken : string := "output_cost_per_token".

Definition noSettleReleaseStatuses : list string :=
  [TaskStatusExpired; TaskStatusFailed; TaskStatusCancelled].

(** * Usage totals of a result file *)

Record usageTotals : Type := mkTotals {
  inputTokens : Z;
  outputTokens : Z;
  u_model : string;
  parsedLines : Z;
  noUsageLines : Z;
  badLines : Z
}.
Definition noTotals : usageTotals := mkTotals 0 0 EmptyString 0 0 0.

Record usageTokens : Type := mkUsage { PromptTokens : Z; CompletionTokens : Z }.
Record responseBody : Type := mkBody { b_Model : string; b_Usage : option usageTokens }.
Record resultResponse : Type := mkResultResp {
  r_Model : string; r_Usage : option usageTokens; r_Body : option responseBody
}.
(** [batchResultRow] has one field. *)
Record batchResultRow : Type := mkResultRow { Response : option resultResponse }.

Definition usage_fields : list (string * (usageTokens -> json -> option usageTokens)) := [
  ("prompt_tokens", fun u j => x ← dec_int64 (PromptTokens u) j; Some (mkUsage x (CompletionTokens u)));
  ("completion_tokens", fun u j => x ← dec_int64 (CompletionTokens u) j; Some (mkUsage (PromptTokens u) x))].
Definition dec_usage := dec_ptr (mkUsage 0 0) usage_fields.

Definition body_fields : list (string * (responseBody -> json -> option responseBody)) := [
  ("model", fun b j => x ← dec_string (b_Model b) j; Some (mkBody x (b_Usage b)));
  ("usage", fun b j => x ← dec_usage (b_Usage b) j; Some (mkBody (b_Model b) x))].

Definition response_fields : list (string * (resultResponse -> json -> option resultResponse)) := [
  ("model", fun r j => x ← dec_string (r_Model r) j; Some (mkResultResp x (r_Usage r) (r_Body r)));
  ("usage", fun r j => x ← dec_usage (r_Usage r) j; Some (mkResultResp (r_Model r) x (r_Body r)));
  ("body", fun r j => x ← dec_ptr (mkBody EmptyString None) body_fields (r_Body r) j;
                      Some (mkResultResp (r_Model r) (r_Usage r) x))].

Definition row_fields : list (string * (batchResultRow -> json -> option batchResultRow)) := [
  ("response", fun r j => x ← dec_ptr (mkResultResp EmptyString None None) response_fields (Response r) j;
                          Some (mkResultRow x))].

Definition unmarshal_row (line : string) : option batchResultRow :=
  j ← parse_json line; dec_struct row_fields (mkResultRow None) j.

Definition usageAndModel (r : batchResultRow) : option usageTokens * string :=
  match Response r with
  | None => (None, EmptyString)
  | Some resp =>
      match r_Body resp with
      | Some (mkBody md (Some u)) => (Some u, md)
      | _ => match r_Usage resp with
             | Some u => (Some u, r_Model resp)
             | None => (None, EmptyString)
             end
      end
  end.

Definition handleUsageLine (line : string) (t : usageTotals) : usageTotals :=
  let trimmed := TrimSpace line in
  match trimmed with
  | EmptyString => t
  | _ =>
      match unmarshal_row trimmed with
      | None => mkTotals (inputTokens t) (outputTokens t) (u_model t) (parsedLines t) (noUsageLines t) (badLines t + 1)
      | Some row =>
          match Response row with
          | None => t
          | Some _ =>
              match usageAndModel row with
              | (None, _) =>
                  mkTotals (inputTokens t) (outputTokens t) (u_model t) (parsedLines t) (noUsageLines t + 1) (badLines t)
              | (Some u, model) =>
                  mkTotals (wrap64 (inputTokens t + PromptTokens u)) (wrap64 (outputTokens t + CompletionTokens u))
                    (if bool_decide (u_model t = EmptyString) && negb (bool_decide (model = EmptyString))
                     then model else u_model t)
                    (parsedLines t + 1) (noUsageLines t) (badLines t)
              end
          end
      end
  end.

Definition newline : ascii := ascii_of_N 10.

Definition slen (s : string) : Z := Z.of_nat (String.length s).

(** The scanning loop; [ReadBytes] gives everything up to the next newline,
    or the tail of the file with an end-of-file or a read error.  A round
    that goes on consumes a newline, so the length of the text bounds the
    rounds. *)
Fixpoint jsonl_loop (fuel : nat) (maxLineBytes : Z) (s : string) (broken : bool)
  (pending : string) (dirty : bool) (t : usageTotals) : result usageTotals :=
  match fuel with
  | O => Err (PlainError "jsonl rounds exhausted")
  | S f =>
      let '(seg, complete, rest) :=
        match Cut s newline with
        | Some (seg, rest) => (seg, true, rest)
        | None => (s, false, EmptyString)
        end in
      let '(pending, dirty, t) :=
        if complete || negb (bool_decide (seg = EmptyString)) then
          if dirty then (if complete then (EmptyString, false, t) else (pending, dirty, t))
          else if (maxLineBytes <? slen pending + slen seg)%Z then (EmptyString, negb complete, t)
          else if complete then (EmptyString, dirty, handleUsageLine (pending +:+ seg) t)
          else (pending +:+ seg, dirty, t)
        else (pending, dirty, t) in
      if complete then jsonl_loop f maxLineBytes rest broken pending dirty t
      else if broken then Err TransportError
      else if negb dirty && negb (bool_decide (TrimSpace pending = EmptyString))
      then Ok (handleUsageLine pending t) else Ok t
  end.

Definition parseJSONLUsage (body : string) (broken : bool) (maxLineBytes : Z) : result usageTotals :=
  jsonl_loop (S (String.length body)) maxLineBytes body broken EmptyString false noTotals.

(** * Candidates *)

Definition effective_time (t : BatchTask) : gotime :=
  match TerminalAt t with
  | Some x => x
  | None => if IsZero (UpdatedAt t) then CreatedAt t else UpdatedAt t
  end.

Definition filterBySettleGrace (candidates : list BatchTask) (now grace : Z) : list BatchTask :=
  List.filter (fun t => (grace <=? time_Sub now (effective_time t))%Z) candidates.

(** * Settlement *)

Section Settle.
Context `{MapOrder}.
(** [golibquota.CalcCostUnits]: the cost of a number of tokens at a price,
    in fixed-point units; from an external package. *)
Context (CalcCostUnits : Z -> spec_float -> Z).

(** Every request of the download carries the header, whatever its name. *)
Definition downloadAndParseUsage (m : Manager) (a : providerAccess) (url : string)
  : prog batchE (result (usageTotals * Z)) :=
  _ <-? call (NewRequest "GET" url) ;;
  resp <-? call (HttpDo (mkReq "GET" url (Some (authHeader a, authValue a)))) ;;
  if negb (ok_status (rs_status resp)) then Ret (Ok (noTotals, rs_status resp))
  else match parseJSONLUsage (rs_body resp) (rs_broken resp) (maxOutputLineBytes m) with
       | Err e => Ret (Err e)
       | Ok totals => Ret (Ok (totals, rs_status resp))
       end.

(** (settleUnits, priceMiss) *)
Definition calcSettleUnits (m : Manager) (task : BatchTask) (usage : usageTotals)
  : prog batchE (result (Z * bool)) :=
  if negb (has_priceQuerier m) || bool_decide (u_model usage = EmptyString) then Ret (Ok (0%Z, true))
  else
    price <-? call (FetchModelPrice (Provider task) (u_model usage) "batch") ;;
    match price with
    | None => Ret (Ok (0%Z, true))
    | Some price =>
        let inputPrice := default float_zero (mp_Prices price !! PriceInputCostPerToken) in
        let outputPrice := default float_zero (mp_Prices price !! PriceOutputCostPerToken) in
        if SFleb inputPrice float_zero && SFleb outputPrice float_zero then Ret (Ok (0%Z, true))
        else Ret (Ok (wrap64 (CalcCostUnits (inputTokens usage) inputPrice +
                              CalcCostUnits (outputTokens usage) outputPrice), false))
    end.

Abbreviation accessCache := (gmap string providerAccess) (only parsing).

Definition resolveProviderAccessCached (m : Manager) (cache : accessCache) (providerName keyName : string)
  : prog batchE (result providerAccess * accessCache) :=
  match cache !! providerName with
  | Some a => Ret (Ok a, cache)
  | None =>
      r <- resolveProviderAccess m providerName keyName ;;
      match r with
      | Err e => Ret (Err e, cache)
      | Ok a => Ret (Ok a, <[providerName := a]> cache)
      end
  end.

Definition releaseOneTask (task : BatchTask) : prog batchE (result bool) :=
  _ <-? releaseReserve (BatchID task) ;;
  affected <-? call (UpdateBatchTaskSettleStatus (BatchID task) (ProductName task) SettleStatusReserved
                (mkSettlePatch SettleStatusReleased None None None None None None)) ;;
  Ret (Ok (0 <? affected)%Z).

(** Gives the claim back and ends with [r]. *)
Definition unclaim {A} (batchID : string) (r : A) : prog batchE A :=
  call (Delete (BatchSettledKey batchID)) ;; Ret r.

Definition settle_fields (usage : usageTotals) (settleUnits : Z) : list (string * string) := [
  ("usage_in", FormatInt (inputTokens usage));
  ("usage_out", FormatInt (outputTokens usage));
  ("settle_units", FormatInt settleUnits);
  ("settle_status", SettleStatusSettled)].

Definition settle_patch (task : BatchTask) (usage : usageTotals) (settleUnits : Z) (terminalAt : gotime)
  : BatchSettlePatch := {|
  sp_SettleStatus := SettleStatusSettled;
  sp_SettleUnits := Some settleUnits;
  sp_UsageInputTokens := Some (inputTokens usage);
  sp_UsageOutputTokens := Some (outputTokens usage);
  sp_UsageSource := Some UsageSourceReconcile;
  sp_OverReserved := Some ((0 <? ReserveUnits task)%Z && (ReserveUnits task <? settleUnits)%Z);
  sp_TerminalAt := Some terminalAt |}.

(** Steps 4 to 6: write back to Redis, release the reservation, advance the row. *)
Definition settle_commit (task : BatchTask) (usage : usageTotals) (settleUnits : Z)
  : prog batchE (result bool) :=
  wr <- call (HSetWithTTL (BatchTaskKey (BatchID task)) batchStateTTLSeconds (settle_fields usage settleUnits)) ;;
  match wr with
  | Err e => unclaim (BatchID task) (Err e)
  | Ok _ =>
      releaseReserve (BatchID task) ;;
      terminalAt <- match TerminalAt task with Some t => Ret t | None => call Now end ;;
      affected <- call (UpdateBatchTaskSettleStatus (BatchID task) (ProductName task) SettleStatusReserved
                          (settle_patch task usage settleUnits terminalAt)) ;;
      match affected with
      | Err e => unclaim (BatchID task) (Err e)
      | Ok n => Ret (Ok (0 <? n)%Z)
      end
  end.

Definition downloadURL (a : providerAccess) (fileID : string) : string :=
  baseURL a +:+ path a +:+ "/files/" +:+ fileID +:+ "/content".

(** Steps 2 and 3 for a task with an output file. *)
Definition settle_file (m : Manager) (task : BatchTask) (a : providerAccess) : prog batchE (result bool) :=
  dl <- downloadAndParseUsage m a (downloadURL a (OutputFileID task)) ;;
  match dl with
  | Err e => unclaim (BatchID task) (Err e)
  | Ok (usage, code) =>
      if (code =? 404)%Z then unclaim (BatchID task) (Ok false)
      else if negb (ok_status code) then unclaim (BatchID task) (Ok false)
      else if (parsedLines usage =? 0)%Z && (0 <? noUsageLines usage)%Z
      then unclaim (BatchID task) (Ok false)
      else
        units <- calcSettleUnits m task usage ;;
        match units with
        | Err e => unclaim (BatchID task) (Err e)
        | Ok (settleUnits, _) => settle_commit task usage settleUnits
        end
  end.

Definition settleOneTask (m : Manager) (cache : accessCache) (task : BatchTask)
  : prog batchE (result bool * accessCache) :=
  claimed <- call (SetNXWithTTL (BatchSettledKey (BatchID task)) batchStateTTLSeconds) ;;
  match claimed with
  | Err e => Ret (Err e, cache)
  | Ok false => Ret (Ok false, cache)
  | Ok true =>
      rc <- resolveProviderAccessCached m cache (Provider task) (KeyName task) ;;
      match rc with
      | (Err e, cache) => unclaim (BatchID task) (Err e, cache)
      | (Ok a, cache) =>
          if bool_decide (OutputFileID task = EmptyString) then
            unclaim (BatchID task) tt ;;
            rel <- releaseOneTask task ;;
            Ret (match rel with Err e => Err e | Ok _ => Ok false end, cache)
          else
            r <- settle_file m task a ;; Ret (r, cache)
      end
  end.

Definition byStatus (status : option string) (statusIn : list string) (limit : Z) : BatchTaskFilter :=
  mkTaskFilter None None None None None None None status statusIn [] (Some SettleStatusReserved)
    None None None limit.

Definition ReconcileSettle (m : Manager) : prog batchE (result (Z * Z)) :=
  if negb (has_redis m) then Ret (Ok (0, 0)%Z)
  else
    settleCandidates <-? call (ListBatchTasks (byStatus (Some TaskStatusCompleted) [] (reconcileLimit m))) ;;
    releaseCandidates <-? call (ListBatchTasks (byStatus None noSettleReleaseStatuses (reconcileLimit m))) ;;
    now <- call Now ;;
    sc <- for_each (filterBySettleGrace settleCandidates now (settleGrace m)) (0%Z, ∅) (fun task s =>
            rc <- settleOneTask m s.2 task ;;
            Ret (match rc.1 with Ok true => s.1 + 1 | _ => s.1 end, rc.2)%Z) ;;
    released <- for_each releaseCandidates 0%Z (fun task n =>
            r <- releaseOneTask task ;; Ret (match r with Ok true => n + 1 | _ => n end)%Z) ;;
    Ret (Ok (sc.1, released)).
End Settle.
