(* ===== verification/BatchJob.v ===== *)
(** The reconcile job ([model/ibatch/job.go]): one cycle under the named lock;
    and concrete worlds on which the batch programs are run. *)
From Stdlib Require Import ZArith Lia SpecFloat Ascii.
From stdpp Require Import base tactics numbers list strings gmap option.
From S2P Require Import Prelude GoStrings GoJson Prog BatchTypes BatchStore BatchView BatchManager BatchAdvance BatchSettle.

Local Open Scope string_scope.

Definition batchJobLockName : string := "batch_reconcile_job".

(** A job instance; [job_session] identifies its database session. *)
Record Job : Type := mkJob {
  job_manager : option Manager;
  job_hasDB : bool;
  job_interval : Z;
  job_useMySQL : bool;
  job_session : nat
}.

Definition NewJob (manager : option Manager) (hasDB mysql : bool) (interval : Z) (session : nat) : Job := {|
  job_manager := manager;
  job_hasDB := hasDB;
  job_interval := if (interval <=? 0)%Z then minute else interval;
  job_useMySQL := hasDB && mysql;
  job_session := session
|}.

(** A duty: its error is logged and dropped. *)
Definition runDuty {A} (do_ : prog batchE A) : prog batchE unit := do_ ;; Ret tt.

Section Job.
Context `{MapOrder} (CalcCostUnits : Z -> spec_float -> Z).

Definition run_duties (fuel : nat) (m : Manager) : prog batchE unit :=
  runDuty (SyncFromRedis fuel m) ;;
  runDuty (AdvanceStatus m) ;;
  runDuty (BackfillTerminalArtifacts m) ;;
  runDuty (ReconcileSettle CalcCostUnits m).

Definition RunOnce (fuel : nat) (j : Job) : prog batchE (result unit) :=
  match job_manager j with
  | None => Ret (Ok tt)
  | Some m =>
      if negb (job_hasDB j) then Ret (Ok tt)
      else if job_useMySQL j then
        _ <-? call DbConn ;;
        locked <-? call (GetLock (job_session j) batchJobLockName) ;;
        if (locked : bool) then
          run_duties fuel m ;;
          call (ReleaseLock (job_session j) batchJobLockName) ;;
          Ret (Ok tt)
        else Ret (Ok tt)
      else run_duties fuel m ;; Ret (Ok tt)
  end.
End Job.

(** Concrete worlds on which the batch programs are run: one completed,
    unsettled task with its reservation, and variations of it. *)

(** One of the orders in which a Go map may be ranged over. *)
#[export] Instance sorted_order : MapOrder := {|
  map_order := map_to_list;
  map_order_perm := fun m => Permutation_refl (map_to_list m)
|}.

(** A cost function: one unit per token for a positive price. *)
Definition unit_cost (tokens : Z) (price : spec_float) : Z := if SFleb price float_zero then 0 else tokens.

Definition sample_now : gotime := time_Unix 1750000000.

Definition sample_row (id : Z) (batch status settle : string) : TBatchTask := {|
  t_ID := id; t_BatchID := batch; t_APIKeyID := "key-1"; t_ProductName := "demo";
  t_EntityID := "entity-1"; t_Provider := "prov"; t_KeyName := "main";
  t_Endpoint := "/v1/chat/completions"; t_InputFileID := "file-in"; t_OutputFileID := "file-out";
  t_Status := status; t_RequestCounts := None; t_EstLines := 2;
  t_UsageInputTokens := 0; t_UsageOutputTokens := 0; t_UsageSource := EmptyString;
  t_ReserveUnits := 100; t_SettleUnits := 0; t_SettleStatus := settle; t_OverReserved := false;
  t_SyncSource := SyncSourceRedis; t_IdemKey := batch;
  t_CreatedAt := (sample_now - 4 * hour)%Z; t_UpdatedAt := (sample_now - 3 * hour)%Z;
  t_TerminalAt := Some (sample_now - 2 * hour)%Z
|}.

Definition sample_provider (keys : list ProviderKey) : ProviderRec := {|
  pr_Name := "prov"; pr_Keys := keys;
  pr_InstancePool := [mkInstance "10.0.0.1" 8080 1 false];
  pr_InstanceSource := EmptyString; pr_K8sInstancePool := []; pr_ProtocolPaths := ∅
|}.

Definition quote : string := String (ascii_of_N 34) EmptyString.
Definition quoted (s : string) : string := quote +:+ s +:+ quote.
Definition field (name value : string) : string := quoted name +:+ ":" +:+ value.

(** A line of a result file. *)
Definition sample_line (tokens_in tokens_out : string) : string :=
  "{" +:+ field "response" ("{" +:+ field "model" (quoted "m1") +:+ "," +:+
    field "usage" ("{" +:+ field "prompt_tokens" tokens_in +:+ "," +:+
                   field "completion_tokens" tokens_out +:+ "}") +:+ "}") +:+ "}".

Definition sample_body : string :=
  sample_line "10" "3" +:+ String newline (sample_line "20" "4" +:+ String newline EmptyString).

Definition one_dot : spec_float := S754_finite false 1 0.
Definition sample_prices : gmap (string * string * string) ModelPrice :=
  {[ ("prov", "m1", "batch") :=
       mkPrice {[ PriceInputCostPerToken := one_dot; PriceOutputCostPerToken := one_dot ]} ]}.

(** The reservation of batch [b1] (100 units of plan [P]) out of 150 units
    reserved on the plan in all. *)
Definition sample_redis : gmap string rval :=
  <[ BatchReserveBatchKey "b1" := RHash {[ "P" := "100" ]} ]>
  {[ BatchReserveMirrorKey "P" := RStr "150" ]}.

Definition sample_world (rows : list TBatchTask) (keys : list ProviderKey) : world := {|
  w_tasks := rows; w_nextTask := 10; w_files := []; w_nextFile := 1;
  w_redis := sample_redis;
  w_providers := {[ "prov" := sample_provider keys ]};
  w_prices := sample_prices;
  w_apiKeys := {[ "key-1" := mkAPIKey "key-1" (Some "demo") (Some "entity-1") ]};
  w_sent := []; w_upstream := fun _ _ => Ok (mkResp 200 sample_body false);
  w_urlok := fun _ => true; w_now := sample_now; w_audit := []; w_locks := ∅
|}.

Definition sample_keys : list ProviderKey := [mkProviderKey "main" "sk-1"].
Definition sample_manager : Manager := NewManager true true true [].

Definition world1 : world :=
  sample_world [sample_row 1 "b1" TaskStatusCompleted SettleStatusReserved] sample_keys.

Definition task1 : BatchTask :=
  batchTaskParamToData (sample_row 1 "b1" TaskStatusCompleted SettleStatusReserved).

(** The settlement of the sample task: 30 input and 7 output tokens at one
    unit each; the reservation leaves the plan, the row is settled. *)
Example sample_settlement :
  let '(r, w') := exec [] (settleOneTask unit_cost sample_manager ∅ task1) world1 in
  r.1 = Ok true /\ w_redis w' !! BatchReserveMirrorKey "P" = Some (RStr "50") /\
  w_redis w' !! BatchReserveBatchKey "b1" = None /\
  map (fun t => (t_SettleStatus t, t_SettleUnits t, t_UsageInputTokens t, t_UsageOutputTokens t)) (w_tasks w') =
    [(SettleStatusSettled, 37, 30, 7)%Z].
Proof. vm_compute. repeat split. Qed.
