(* ===== verification/BatchSettleSafety.v ===== *)
(** Safety of settlement under concurrency: the conditional update of
    [settle_status] is won at most once per reserved row, whatever the
    interleaving of settlement and release programs and whatever calls fail. *)
From Stdlib Require Import ZArith Lia Ascii SpecFloat.
From stdpp Require Import base tactics numbers list strings gmap option.
From S2P Require Import Prelude GoStrings Prog BatchTypes BatchStore BatchView BatchManager BatchAdvance BatchSettle BatchJob.

Local Open Scope string_scope.

(** * Calls that leave the settlement of every row alone or advance it *)

(** Everything but the upsert of a whole row, and no conditional update
    towards [reserved]. *)
Definition advances_settlement (R : Type) (e : batchE R) : Prop :=
  match e with
  | UpsertBatchTask _ => False
  | UpdateBatchTaskSettleStatus _ _ _ patch => sp_SettleStatus patch <> SettleStatusReserved
  | _ => True
  end.

(** A row of batch [b] of product [p] whose money is still reserved. *)
Definition reserved_row (b p : string) (r : TBatchTask) : bool := settle_where b p SettleStatusReserved r.

(** Number of rows of the batch that are still reserved. *)
Definition reserved_rows (b p : string) (w : world) : nat :=
  length (List.filter (reserved_row b p) (w_tasks w)).

(** Rows won by a conditional update away from [reserved]. *)
Definition settle_gain (b p : string) (R : Type) (e : batchE R) : R -> nat :=
  match e in batchE R return R -> nat with
  | UpdateBatchTaskSettleStatus b' p' from _ => fun r =>
      if eqs b' b && eqs p' p && eqs from SettleStatusReserved
      then match r with Ok n => Z.to_nat n | Err _ => 0 end else 0
  | _ => fun _ => 0
  end.

Lemma filter_map_le {A} (f g : A -> bool) (h : A -> A) l :
  (forall x, g (h x) = true -> f x = true) ->
  length (List.filter g (map h l)) <= length (List.filter f l).
Proof.
  intros Hh. induction l as [|x l IH]; simpl; [lia|].
  destruct (g (h x)) eqn:E; [rewrite (Hh _ E); simpl; lia|].
  destruct (f x); simpl; lia.
Qed.

Lemma filter_map_win {A} (f : A -> bool) (h : A -> A) l :
  (forall x, f x = true -> f (h x) = false) ->
  length (List.filter f (map (fun x => if f x then h x else x) l)) = 0.
Proof.
  intros Hh. induction l as [|x l IH]; simpl; [reflexivity|].
  destruct (f x) eqn:E; [rewrite (Hh _ E)|rewrite E]; exact IH.
Qed.

Lemma update_tasks_world w_ f w : w_tasks (update_tasks w_ f w).2 = map (fun r => if w_ r then f r else r) (w_tasks w).
Proof. reflexivity. Qed.

Lemma reserved_row_settle b p now patch r :
  sp_SettleStatus patch <> SettleStatusReserved ->
  reserved_row b p (settle_assign now patch r) = false.
Proof.
  intros Hne. unfold reserved_row, settle_where, settle_assign, assign_task, eqs. simpl.
  rewrite (bool_decide_eq_false_2 (_ = sp_SettleStatus patch)) by congruence.
  by rewrite andb_false_r.
Qed.

(** Calls that cannot write the task table. *)
Definition keeps_tasks (R : Type) (e : batchE R) : Prop :=
  match e with
  | UpsertBatchTask _ | UpdateBatchTaskSettleStatus _ _ _ _ | UpdateBatchTaskProgress _ _
  | PreemptBatchTaskCancel _ _ => False
  | _ => True
  end.

Lemma keeps_tasks_handle R (e : batchE R) w : keeps_tasks R e -> w_tasks (handle e w).2 = w_tasks w.
Proof.
  destruct e; intros He; try done; simpl;
    unfold upsert_file, redis_hset, redis_setnx, redis_reserve_decr; repeat case_match; by simplify_eq/=.
Qed.

(** A call that advances the settlement adds no reserved row. *)
Lemma reserved_rows_handle b p R (e : batchE R) w :
  advances_settlement R e -> reserved_rows b p (handle e w).2 <= reserved_rows b p w.
Proof.
  intros He. unfold reserved_rows.
  destruct e; try (rewrite keeps_tasks_handle by exact I; lia); simpl in He |- *; [done| | |].
  - apply filter_map_le. intros r. unfold preempt_where. by case_match.
  - apply filter_map_le. intros r. case_match; [|done].
    by rewrite reserved_row_settle.
  - apply filter_map_le. intros r. by case_match.
Qed.

(** A won conditional update takes the rows it won out of [reserved]. *)
Lemma settle_gain_handle b p R (e : batchE R) w :
  advances_settlement R e ->
  settle_gain b p R e (handle e w).1 + reserved_rows b p (handle e w).2 <= reserved_rows b p w.
Proof.
  intros He. pose proof (reserved_rows_handle b p R e w He) as Hle.
  destruct e; simpl in He |- *; try exact Hle.
  destruct (eqs batchID b && eqs productName p && eqs fromStatus SettleStatusReserved) eqn:E;
    [|exact Hle].
  apply andb_true_iff in E as [[->%bool_decide_eq_true ->%bool_decide_eq_true]%andb_true_iff
                               ->%bool_decide_eq_true].
  rewrite Nat2Z.id. unfold reserved_rows. simpl.
  pose proof (filter_map_win (reserved_row b p) (settle_assign (w_now w) patch) (w_tasks w)
                (fun r _ => reserved_row_settle b p (w_now w) patch r He)) as H0.
  change (settle_where b p SettleStatusReserved) with (reserved_row b p).
  rewrite H0. lia.
Qed.

Lemma settle_gain_answer b p R (e : batchE R) w o :
  advances_settlement R e ->
  settle_gain b p R e (answer o e w).1 + reserved_rows b p (answer o e w).2 <= reserved_rows b p w.
Proof.
  intros He. pose proof (settle_gain_handle b p R e w He) as H1.
  pose proof (reserved_rows_handle b p R e w He) as H2.
  unfold answer. destruct o; [exact H1| |].
  - destruct e; simpl; try exact H1; repeat case_match; lia.
  - destruct e; simpl in *; try exact H1; try lia; repeat case_match; lia.
Qed.

(** * The programs *)

Section Programs.
Context `{MapOrder} (CalcCostUnits : Z -> spec_float -> Z).
Context (P : forall R, batchE R -> Prop) (HP : forall R e, keeps_tasks R e -> P R e).

Ltac go := repeat first [calls_step | progress (apply HP; exact I)].

Lemma calls_releaseReserve b : all_calls P (releaseReserve b).
Proof. unfold releaseReserve. go. Qed.
Lemma calls_resolveProviderAccess m p k : all_calls P (resolveProviderAccess m p k).
Proof. unfold resolveProviderAccess. go. Qed.
Lemma calls_resolveProviderAccessCached m c p k : all_calls P (resolveProviderAccessCached m c p k).
Proof.
  unfold resolveProviderAccessCached. go. apply calls_resolveProviderAccess.
Qed.
Lemma calls_postProviderCancel a u : all_calls P (postProviderCancel a u).
Proof. unfold postProviderCancel. go. Qed.
Lemma calls_getProvider a u : all_calls P (getProvider a u).
Proof. unfold getProvider. go. Qed.
Lemma calls_download m a u : all_calls P (downloadAndParseUsage m a u).
Proof. unfold downloadAndParseUsage. go. Qed.
Lemma calls_calcSettleUnits m t u : all_calls P (calcSettleUnits CalcCostUnits m t u).
Proof. unfold calcSettleUnits. go. Qed.
Lemma calls_registerOutputFile t f now : all_calls P (registerOutputFile t f now).
Proof. unfold registerOutputFile. go. Qed.
Lemma calls_unclaim {A} b (r : A) : all_calls P (unclaim b r).
Proof. unfold unclaim. go. Qed.
Lemma calls_FetchTask m b p r : all_calls P (FetchTask m b p r).
Proof. unfold FetchTask, applyTaskView, resolve. go. Qed.
Lemma calls_recordCancel m b s e : all_calls P (recordCancelOperation m b s e).
Proof. unfold recordCancelOperation. go. Qed.
End Programs.

#[export] Hint Resolve calls_releaseReserve calls_resolveProviderAccess calls_resolveProviderAccessCached
  calls_postProviderCancel calls_getProvider calls_download calls_calcSettleUnits
  calls_registerOutputFile calls_unclaim calls_FetchTask calls_recordCancel : go.

(** Discharges the calls of a program text, using the lemmas on its parts. *)
Ltac calls_go HP := repeat first [calls_step | solve [auto with go] | progress (apply HP; exact I)].

Lemma advances_keeps R (e : batchE R) : keeps_tasks R e -> advances_settlement R e.
Proof. by destruct e. Qed.
#[export] Hint Resolve advances_keeps : go.

Section Once.
Context `{MapOrder} (CalcCostUnits : Z -> spec_float -> Z).

Lemma calls_releaseOneTask t : all_calls advances_settlement (releaseOneTask t).
Proof. unfold releaseOneTask. calls_go advances_keeps. done. Qed.

Lemma calls_settle_commit t u n : all_calls advances_settlement (settle_commit t u n).
Proof. unfold settle_commit. calls_go advances_keeps. done. Qed.

Lemma calls_settle_file m t a : all_calls advances_settlement (settle_file CalcCostUnits m t a).
Proof. unfold settle_file. calls_go advances_keeps. apply calls_settle_commit. Qed.

Lemma calls_settleOneTask m c t : all_calls advances_settlement (settleOneTask CalcCostUnits m c t).
Proof.
  unfold settleOneTask. calls_go advances_keeps; [apply calls_releaseOneTask|apply calls_settle_file].
Qed.

(** The two programs that move a task out of [reserved]. *)
Definition settle_thread (m : Manager) (cache : gmap string providerAccess) (t : BatchTask)
  : prog batchE (result bool) :=
  rc <- settleOneTask CalcCostUnits m cache t ;; Ret rc.1.

(** One per program that reports having advanced the row itself. *)
Definition won (r : result bool) : nat := match r with Ok true => 1 | _ => 0 end.

Let earns_settle b p := earns advances_settlement (settle_gain b p) won.

Lemma earns_last b p (patch : BatchSettlePatch) (k : result Z -> prog batchE (result bool)) :
  sp_SettleStatus patch <> SettleStatusReserved ->
  (forall n, k (Ok n) = Ret (Ok (0 <? n)%Z)) ->
  (forall e, earns_settle b p 0 (k (Err e))) ->
  earns_settle b p 0 (bind (call (UpdateBatchTaskSettleStatus b p SettleStatusReserved patch)) k).
Proof.
  intros Hp Hok Herr. simpl. constructor; [exact Hp|]. intros [n|e]; simpl.
  - rewrite Hok. constructor. unfold eqs. rewrite !bool_decide_eq_true_2 by done. simpl.
    destruct (0 <? n)%Z eqn:E; simpl; [apply Z.ltb_lt in E; lia|lia].
  - eapply earns_weaken; [|apply Herr]. lia.
Qed.

Lemma earns_unclaim b p c (r : result bool) : won r = 0 -> earns_settle b p 0 (unclaim c r).
Proof.
  intros Hr. apply earns_bind; [calls_go advances_keeps|]. intros _. constructor. lia.
Qed.

Lemma earns_releaseOneTask t : earns_settle (BatchID t) (ProductName t) 0 (releaseOneTask t).
Proof.
  unfold releaseOneTask. apply earns_bind; [auto with go|].
  intros [u|e]; [|constructor; simpl; lia].
  apply earns_last; [done|done|]. intros e. constructor. simpl. lia.
Qed.

Lemma earns_settle_commit t u n : earns_settle (BatchID t) (ProductName t) 0 (settle_commit t u n).
Proof.
  unfold settle_commit. apply earns_bind; [calls_go advances_keeps|].
  intros [x|e]; [|by apply earns_unclaim].
  apply earns_bind; [auto with go|]. intros _.
  apply earns_bind; [calls_go advances_keeps|]. intros at_.
  apply earns_last; [done|done|]. intros e. by apply earns_unclaim.
Qed.

Lemma earns_settle_file m t a :
  earns_settle (BatchID t) (ProductName t) 0 (settle_file CalcCostUnits m t a).
Proof.
  unfold settle_file. apply earns_bind; [auto with go|].
  intros [[u code]|e]; [|by apply earns_unclaim].
  repeat case_match; try by apply earns_unclaim.
  apply earns_bind; [auto with go|]. intros [[n miss]|e]; [|by apply earns_unclaim].
  apply earns_settle_commit.
Qed.

Lemma earns_settle_thread m c t :
  earns_settle (BatchID t) (ProductName t) 0 (settle_thread m c t).
Proof.
  apply earns_map. unfold settleOneTask.
  apply earns_bind; [calls_go advances_keeps|].
  intros [[]|e]; [|constructor; simpl; lia..].
  apply earns_bind; [auto with go|]. intros [[a|e] cache].
  2: { apply earns_bind; [calls_go advances_keeps|]. intros _. constructor. simpl. lia. }
  case_match.
  - apply earns_bind; [auto with go|]. intros _.
    apply earns_bind; [apply calls_releaseOneTask|].
    intros [x|e]; constructor; simpl; lia.
  - apply (earns_map _ _ (fun rc : result bool * gmap string providerAccess => won rc.1) (fun r => (r, cache))).
    apply earns_settle_file.
Qed.
End Once.

(** Settlement and release programs for one batch of one product. *)
Inductive settles_batch `{MapOrder} (CalcCostUnits : Z -> spec_float -> Z) (b p : string)
  : prog batchE (result bool) -> Prop :=
| settles_settle m cache t : BatchID t = b -> ProductName t = p ->
    settles_batch CalcCostUnits b p (settle_thread CalcCostUnits m cache t)
| settles_release t : BatchID t = b -> ProductName t = p ->
    settles_batch CalcCostUnits b p (releaseOneTask t).

(** C1: no double settlement.  Any number of settlement and release programs
    for the same batch run interleaved in any order, every call of theirs may
    fail before or after it took effect, and still no more of them report
    that they advanced the row than there were reserved rows of the batch at
    the start: with one row, at most one program settles or releases it. *)
Theorem settle_at_most_once `{MapOrder} (CalcCostUnits : Z -> spec_float -> Z)
  (b p : string) (pool : list (prog batchE (result bool))) (sched : list (nat * outcome)) (w : world) :
  Forall (settles_batch CalcCostUnits b p) pool ->
  sum_list (map (worth won) (interleave sched pool w).1) <= reserved_rows b p w.
Proof.
  intros Hpool.
  apply (interleave_budget advances_settlement (settle_gain b p) (reserved_rows b p)).
  - intros R e w' o He. by apply settle_gain_answer.
  - eapply Forall_impl; [|exact Hpool]. intros q Hq.
    destruct Hq as [m c t <- <-|t <- <-]; [apply earns_settle_thread|apply earns_releaseOneTask].
Qed.

(** Two settlements and a release race for the one sample row; the second
    settlement moves after the first has claimed the batch. *)
Definition racing_pool : list (prog batchE (result bool)) :=
  [settle_thread unit_cost sample_manager ∅ task1; settle_thread unit_cost sample_manager ∅ task1;
   releaseOneTask task1].
Definition racing_schedule : list (nat * outcome) :=
  [(0, Normal); (2, Normal); (1, Normal); (2, FailBefore); (2, Normal); (0, Normal); (2, Normal);
   (0, Normal); (0, Normal); (0, Normal); (0, Normal); (0, Normal); (0, Normal); (0, Normal)].

Lemma settle_at_most_once_witness :
  reserved_rows "b1" "demo" world1 = 1 /\ sum_list (map (worth won) (interleave racing_schedule racing_pool world1).1)
    <= reserved_rows "b1" "demo" world1.
Proof.
  split; [reflexivity|]. apply (settle_at_most_once unit_cost "b1" "demo").
  repeat constructor.
Defined.

(** * Settled stays settled *)

(** Same rows in the same order; a row that is settled or released keeps its
    settlement, its amount and its usage. *)
Definition settlement_kept (w w' : world) : Prop :=
  Forall2 (fun r r' => t_ID r' = t_ID r /\
    (t_SettleStatus r <> SettleStatusReserved ->
       t_SettleStatus r' = t_SettleStatus r /\ t_SettleUnits r' = t_SettleUnits r /\
       t_UsageInputTokens r' = t_UsageInputTokens r /\ t_UsageOutputTokens r' = t_UsageOutputTokens r))
    (w_tasks w) (w_tasks w').

#[export] Instance settlement_kept_preorder : PreOrder settlement_kept.
Proof.
  split.
  - intros w. apply Forall_Forall2_diag, Forall_forall. naive_solver.
  - intros w1 w2 w3 H1 H2. unfold settlement_kept in *.
    revert H2. generalize (w_tasks w3). clear w3.
    induction H1 as [|r1 r2 l1 l2 [Hid Hs] _ IH]; intros l3 H2; inversion H2; subst; constructor; [|by apply IH].
    destruct_and!. split; [congruence|]. intros Hr. destruct (Hs Hr) as (E1 & E2 & E3 & E4).
    match goal with Hx : _ -> _ /\ _ |- _ => destruct Hx as (F1 & F2 & F3 & F4); [congruence|] end.
    repeat split; congruence.
Qed.

(** The calls of settlement, release, advance, backfill and of the cancel
    replay: no whole-row upsert, and conditional settlement updates start
    from [reserved]. *)
Definition respects_settlement (R : Type) (e : batchE R) : Prop :=
  match e with
  | UpsertBatchTask _ => False
  | UpdateBatchTaskSettleStatus _ _ from _ => from = SettleStatusReserved
  | _ => True
  end.

Lemma Forall2_map_same {A} (Q : A -> A -> Prop) (h : A -> A) l :
  (forall x, Q x (h x)) -> Forall2 Q l (map h l).
Proof. intros Hq. induction l; simpl; constructor; auto. Qed.

Lemma settlement_kept_handle R (e : batchE R) w :
  respects_settlement R e -> settlement_kept w (handle e w).2.
Proof.
  intros He. unfold settlement_kept.
  destruct e; try (rewrite keeps_tasks_handle by exact I;
                   apply Forall_Forall2_diag, Forall_forall; naive_solver); simpl in He |- *; [done| | |].
  - apply Forall2_map_same. intros r. by case_match.
  - subst. apply Forall2_map_same. intros r. case_match eqn:E; [|by repeat split].
    split; [done|]. intros Hr. exfalso. apply Hr. unfold settle_where in E.
    apply andb_true_iff in E as [_ E%bool_decide_eq_true]. done.
  - apply Forall2_map_same. intros r. by case_match.
Qed.

Lemma respects_keeps R (e : batchE R) : keeps_tasks R e -> respects_settlement R e.
Proof. by destruct e. Qed.
#[export] Hint Resolve respects_keeps : go.

Section Kept.
Context `{MapOrder} (CalcCostUnits : Z -> spec_float -> Z).

Lemma respects_releaseOneTask t : all_calls respects_settlement (releaseOneTask t).
Proof. unfold releaseOneTask. calls_go respects_keeps. done. Qed.

Lemma respects_settle_commit t u n : all_calls respects_settlement (settle_commit t u n).
Proof. unfold settle_commit. calls_go respects_keeps. done. Qed.

Lemma respects_settleOneTask m c t : all_calls respects_settlement (settleOneTask CalcCostUnits m c t).
Proof.
  unfold settleOneTask, settle_file.
  calls_go respects_keeps; [apply respects_releaseOneTask|apply respects_settle_commit].
Qed.

Lemma respects_ReconcileSettle m : all_calls respects_settlement (ReconcileSettle CalcCostUnits m).
Proof.
  unfold ReconcileSettle.
  calls_go respects_keeps; [apply respects_settleOneTask|apply respects_releaseOneTask].
Qed.

Lemma respects_advanceOneTask m t : all_calls respects_settlement (advanceOneTask m t).
Proof. unfold advanceOneTask, handleProviderAbsent. calls_go respects_keeps; exact I. Qed.

Lemma respects_AdvanceStatus m : all_calls respects_settlement (AdvanceStatus m).
Proof.
  unfold AdvanceStatus, duty_loop. calls_go respects_keeps. apply respects_advanceOneTask.
Qed.

Lemma respects_Backfill m : all_calls respects_settlement (BackfillTerminalArtifacts m).
Proof.
  unfold BackfillTerminalArtifacts, backfillOneTask. calls_go respects_keeps; exact I.
Qed.

Lemma respects_cancelReplay m t : all_calls respects_settlement (cancelReplay m t).
Proof. unfold cancelReplay, cancel_upstream, cancel_fails. calls_go respects_keeps. Qed.
End Kept.

(** The programs that run beside each other on the task table, other than
    the Redis synchronisation. *)
Inductive reconciles `{MapOrder} (CalcCostUnits : Z -> spec_float -> Z) : prog batchE unit -> Prop :=
| rec_advance m : reconciles CalcCostUnits (runDuty (AdvanceStatus m))
| rec_backfill m : reconciles CalcCostUnits (runDuty (BackfillTerminalArtifacts m))
| rec_settle m : reconciles CalcCostUnits (runDuty (ReconcileSettle CalcCostUnits m))
| rec_replay m t : reconciles CalcCostUnits (runDuty (cancelReplay m t)).

(** C2: settled stays settled.  Under every interleaving of status advance,
    backfill, settlement duties and cancel replays, with every pattern of
    failing calls, a row that is settled or released keeps its settlement
    status, its amount and its usage. *)
Theorem settlement_is_final `{MapOrder} (CalcCostUnits : Z -> spec_float -> Z)
  (pool : list (prog batchE unit)) (sched : list (nat * outcome)) (w : world) :
  Forall (reconciles CalcCostUnits) pool ->
  settlement_kept w (interleave sched pool w).2.
Proof.
  intros Hpool. apply (interleave_stable respects_settlement settlement_kept).
  - intros R e w' He. by apply settlement_kept_handle.
  - eapply Forall_impl; [|exact Hpool]. intros q Hq.
    destruct Hq; apply all_calls_bind; [|intros ?; constructor|..|intros ?; constructor| |intros ?; constructor| |intros ?; constructor].
    + apply respects_AdvanceStatus.
    + apply respects_Backfill.
    + apply respects_ReconcileSettle.
    + apply respects_cancelReplay.
Qed.

Definition settled_world : world :=
  sample_world [sample_row 1 "b1" TaskStatusCompleted SettleStatusSettled;
                sample_row 2 "b2" TaskStatusFailed SettleStatusReserved] sample_keys.

Lemma settlement_is_final_witness :
  settlement_kept settled_world
    (interleave [(0, Normal); (1, Normal); (0, Normal); (1, FailAfter)]
       [runDuty (ReconcileSettle unit_cost sample_manager); runDuty (AdvanceStatus sample_manager)]
       settled_world).2.
Proof. apply (settlement_is_final unit_cost). repeat constructor. Defined.
