(* ===== verification/BatchStatusSafety.v ===== *)
(** A terminal status is never rolled back: neither by the Redis
    synchronisation, nor by status advance, backfill or settlement, run one
    after the other as the reconcile job does, whatever calls fail. *)
From Stdlib Require Import ZArith Lia Ascii SpecFloat.
From stdpp Require Import base tactics numbers list strings gmap option.
From S2P Require Import Prelude GoStrings Prog BatchTypes BatchStore BatchView BatchManager BatchAdvance BatchSettle BatchJob BatchSettleSafety.

Local Open Scope string_scope.

(** * The task table *)

(** Primary key and unique index of [batch_tasks]. *)
Definition table_wf (w : world) : Prop :=
  NoDup (map t_ID (w_tasks w)) /\ NoDup (map t_IdemKey (w_tasks w)) /\
  Forall (fun id => (id < w_nextTask w)%Z) (map t_ID (w_tasks w)).

(** Rows stay where they are with their keys; a terminal status stays. *)
Definition status_kept (w w' : world) : Prop :=
  forall i r, w_tasks w !! i = Some r ->
    exists r', w_tasks w' !! i = Some r' /\ t_ID r' = t_ID r /\ t_IdemKey r' = t_IdemKey r /\
      (IsTerminalStatus (t_Status r) = true -> t_Status r' = t_Status r).

(** The relation kept by the job: a well-formed table stays well-formed and
    keeps its terminal statuses. *)
Definition job_kept (w w' : world) : Prop := table_wf w -> table_wf w' /\ status_kept w w'.

#[export] Instance status_kept_preorder : PreOrder status_kept.
Proof.
  split.
  - intros w i r Hr. by exists r.
  - intros w1 w2 w3 H1 H2 i r Hr.
    destruct (H1 i r Hr) as (r' & Hr' & E1 & E2 & E3).
    destruct (H2 i r' Hr') as (r'' & Hr'' & F1 & F2 & F3).
    exists r''. repeat split; try congruence.
    intros Ht. rewrite F3; [by apply E3|]. by rewrite E3.
Qed.

#[export] Instance job_kept_preorder : PreOrder job_kept.
Proof.
  split.
  - intros w Hw. split; [exact Hw|reflexivity].
  - intros w1 w2 w3 H1 H2 Hw. destruct (H1 Hw) as [Hw2 K12]. destruct (H2 Hw2) as [Hw3 K23].
    split; [exact Hw3|by etrans].
Qed.

(** Worlds with the same task table. *)
Definition same_tasks (w w' : world) : Prop := w_tasks w' = w_tasks w /\ w_nextTask w' = w_nextTask w.

#[export] Instance same_tasks_preorder : PreOrder same_tasks.
Proof. split; [done|]. intros ??? [] []. split; congruence. Qed.

Lemma same_tasks_kept w w' : same_tasks w w' -> job_kept w w'.
Proof.
  intros [Ht Hn] Hw. unfold table_wf, status_kept in *. rewrite Ht, Hn.
  split; [exact Hw|]. intros i r Hr. by exists r.
Qed.

Lemma same_tasks_handle R (e : batchE R) w : keeps_tasks R e -> same_tasks w (handle e w).2.
Proof.
  destruct e; intros He; try done; simpl; split;
    unfold upsert_file, redis_hset, redis_setnx, redis_reserve_decr; repeat case_match; by simplify_eq/=.
Qed.

(** A row-wise update that keeps the keys keeps the table well-formed. *)
Lemma update_kept w f :
  (forall r, t_ID (f r) = t_ID r) -> (forall r, t_IdemKey (f r) = t_IdemKey r) ->
  (forall r, r ∈ w_tasks w -> IsTerminalStatus (t_Status r) = true -> t_Status (f r) = t_Status r) ->
  job_kept w (set_tasks w (map f (w_tasks w))).
Proof.
  intros Hid Hk Hs (H1 & H2 & H3). split.
  - unfold table_wf. simpl. rewrite !map_map.
    by rewrite (map_ext _ _ Hid), (map_ext _ _ Hk).
  - intros i r Hr. simpl. exists (f r).
    repeat split; [by rewrite list_lookup_fmap, Hr|apply Hid|apply Hk|].
    apply Hs. by eapply list_elem_of_lookup_2.
Qed.

Lemma terminal_not_excluded r : IsTerminalStatus (t_Status r) = true -> t_Status r ∈ TerminalStatuses.
Proof.
  unfold IsTerminalStatus. intros H. apply existsb_exists in H as (s & Hs & E).
  apply bool_decide_eq_true in E as <-. by apply list_elem_of_In.
Qed.

(** The calls that cannot roll a status back, in every world. *)
Definition keeps_status (R : Type) (e : batchE R) : Prop :=
  match e with
  | UpsertBatchTask _ => False
  | UpdateBatchTaskProgress _ patch => pp_Status patch = None
  | _ => True
  end.

Lemma job_kept_handle R (e : batchE R) w : keeps_status R e -> job_kept w (handle e w).2.
Proof.
  intros He. destruct e; try (apply same_tasks_kept, same_tasks_handle; exact I); simpl in He |- *; [done| | |].
  - apply update_kept; [intros r; by case_match..|]. intros r _ Ht. case_match eqn:E; [|done].
    exfalso. unfold preempt_where in E. apply andb_true_iff in E as [_ E%bool_decide_eq_true].
    apply E. unfold cancel_excluded. apply elem_of_app. left. by apply terminal_not_excluded.
  - apply update_kept; intros r; by case_match.
  - apply update_kept; [intros r; by case_match..|].
    intros r _ _. case_match; [|done]. simpl. by rewrite He.
Qed.

Lemma keeps_status_keeps R (e : batchE R) : keeps_tasks R e -> keeps_status R e.
Proof. by destruct e. Qed.
#[export] Hint Resolve keeps_status_keeps : go.

(** * Status advance

    Updates by primary key touch only the rows that were listed. *)

#[export] Instance keeps_tasks_dec R (e : batchE R) : Decision (keeps_tasks R e).
Proof. destruct e; simpl; apply _. Defined.

Definition advances_only (ids : list Z) (R : Type) (e : batchE R) : Prop :=
  match e with
  | UpdateBatchTaskProgress id _ => id ∈ ids
  | _ => keeps_tasks R e
  end.

(** Every row outside [ids] keeps its status; keys stay. *)
Definition others_kept (ids : list Z) (w w' : world) : Prop :=
  w_nextTask w' = w_nextTask w /\
  Forall2 (fun r r' => t_ID r' = t_ID r /\ t_IdemKey r' = t_IdemKey r /\
                       (t_ID r ∉ ids -> t_Status r' = t_Status r)) (w_tasks w) (w_tasks w').

#[export] Instance others_kept_preorder ids : PreOrder (others_kept ids).
Proof.
  split.
  - intros w. split; [done|]. apply Forall_Forall2_diag, Forall_forall. naive_solver.
  - intros w1 w2 w3 [N1 H1] [N2 H2]. split; [congruence|]. clear N1 N2.
    revert H2. generalize (w_tasks w3). clear w3.
    induction H1 as [|r1 r2 l1 l2 (E1 & E2 & E3) _ IH]; intros l3 H2; inversion H2; subst; constructor; [|by apply IH].
    destruct_and!. repeat split; [congruence..|]. intros Hn.
    match goal with Hx : _ ∉ _ -> t_Status _ = _ |- t_Status ?y = _ => idtac end.
    transitivity (t_Status r2); [|by apply E3]. naive_solver congruence.
Qed.

Lemma others_kept_handle ids R (e : batchE R) w : advances_only ids R e -> others_kept ids w (handle e w).2.
Proof.
  intros He. destruct (decide (keeps_tasks R e)) as [Hk|Hk].
  { destruct (same_tasks_handle _ _ w Hk) as [Ht Hn]. split; [exact Hn|].
    rewrite Ht. apply Forall_Forall2_diag, Forall_forall. naive_solver. }
  destruct e; simpl in He, Hk; try done.
  split; [done|]. simpl. apply Forall2_map_same. intros r.
  case_match eqn:E; [|done]. apply Z.eqb_eq in E. split; [done|]. split; [done|].
  intros Hn. exfalso. congruence.
Qed.

Lemma others_kept_job ids w w' :
  (forall r, r ∈ w_tasks w -> t_ID r ∈ ids -> IsTerminalStatus (t_Status r) = false) ->
  others_kept ids w w' -> job_kept w w'.
Proof.
  intros Hids [Hn H2] (W1 & W2 & W3).
  assert (map t_ID (w_tasks w') = map t_ID (w_tasks w)) as Eid.
  { clear -H2. induction H2 as [|?? ?? (?&?&?)]; simpl; congruence. }
  assert (map t_IdemKey (w_tasks w') = map t_IdemKey (w_tasks w)) as Ek.
  { clear -H2. induction H2 as [|?? ?? (?&?&?)]; simpl; congruence. }
  split.
  - unfold table_wf. by rewrite Eid, Ek, Hn.
  - intros i r Hr. destruct (Forall2_lookup_l _ _ _ _ _ H2 Hr) as (r' & Hr' & E1 & E2 & E3).
    exists r'. repeat split; [done..|]. intros Ht. apply E3. intros Hin.
    rewrite (Hids r) in Ht; [done| |done]. by eapply list_elem_of_lookup_2.
Qed.

Lemma advances_only_keeps ids R (e : batchE R) : keeps_tasks R e -> advances_only ids R e.
Proof. by destruct e. Qed.
#[export] Hint Resolve advances_only_keeps : go.

Lemma only_advanceOneTask ids m t : ID t ∈ ids -> all_calls (advances_only ids) (advanceOneTask m t).
Proof.
  intros Hin. unfold advanceOneTask, handleProviderAbsent.
  calls_go (advances_only_keeps ids); exact Hin.
Qed.

(** What a query lists are rows of the table that satisfy its condition. *)
Lemma elem_of_list_tasks f w t : t ∈ list_tasks f w ->
  exists r, r ∈ w_tasks w /\ t = batchTaskParamToData r /\ where_task (batchTaskFilterToParam f) r = true.
Proof.
  unfold list_tasks. intros Ht. apply list_elem_of_fmap in Ht as (r & -> & Hr). exists r.
  assert (r ∈ List.filter (where_task (batchTaskFilterToParam f)) (w_tasks w)) as Hf.
  { case_match; [|exact Hr]. apply elem_of_take in Hr as (i & Hi & _). by eapply list_elem_of_lookup_2. }
  apply list_elem_of_In, filter_In in Hf as [Hin Hw]. apply list_elem_of_In in Hin. auto.
Qed.

Lemma where_not_in p r s : where_task p r = true -> p_StatusNotIn p = s -> s <> [] -> t_Status r ∉ s.
Proof.
  unfold where_task. intros Hw <- Hne.
  repeat (apply andb_true_iff in Hw as [Hw ?]).
  destruct (p_StatusNotIn p); [done|]. by eapply bool_decide_eq_true.
Qed.

(** A row is determined by its primary key. *)
Lemma row_by_id w r r' : table_wf w -> r ∈ w_tasks w -> r' ∈ w_tasks w -> t_ID r = t_ID r' -> r = r'.
Proof.
  intros (Hn & _) H1 H2 E. apply list_elem_of_lookup in H1 as [i H1], H2 as [j H2].
  assert (i = j) as <-; [|congruence].
  eapply NoDup_lookup; [exact Hn|..]; [by rewrite list_lookup_fmap, H1|].
  rewrite list_lookup_fmap, H2. simpl. by rewrite E.
Qed.

Lemma row_by_idem w r r' : table_wf w -> r ∈ w_tasks w -> r' ∈ w_tasks w -> t_IdemKey r = t_IdemKey r' -> r = r'.
Proof.
  intros (_ & Hn & _) H1 H2 E. apply list_elem_of_lookup in H1 as [i H1], H2 as [j H2].
  assert (i = j) as <-; [|congruence].
  eapply NoDup_lookup; [exact Hn|..]; [by rewrite list_lookup_fmap, H1|].
  rewrite list_lookup_fmap, H2. simpl. by rewrite E.
Qed.

Lemma advance_kept m os w : job_kept w (exec os (AdvanceStatus m) w).2.
Proof.
  unfold AdvanceStatus. destruct (has_providerQuerier m); cbn [negb]; [|reflexivity].
  cbn [bind call]. run_call. destruct (hd Normal os); cbn; [|reflexivity..].
  intros Hw. set (f := mkTaskFilter _ _ _ _ _ _ _ _ _ _ _ _ _ _ _).
  set (ids := map ID (list_tasks f w)).
  apply (others_kept_job ids); [|eapply (exec_stable (advances_only ids) (others_kept ids))|exact Hw].
  - intros r Hr Hid. apply list_elem_of_fmap in Hid as (t & Hid & Ht).
    apply elem_of_list_tasks in Ht as (r' & Hr' & -> & Hwh). simpl in Hid.
    assert (r = r') as -> by (by eapply row_by_id).
    pose proof (where_not_in _ _ _ Hwh eq_refl ltac:(done)) as Hn.
    destruct (IsTerminalStatus (t_Status r')) eqn:E; [|done].
    exfalso. by apply Hn, terminal_not_excluded.
  - intros R e w' He. by apply others_kept_handle.
  - unfold duty_loop. calls_go (advances_only_keeps ids).
    apply only_advanceOneTask. by apply list_elem_of_fmap_2.
Qed.

(** * Redis synchronisation *)

Lemma existsb_false_elem {A} (f : A -> bool) l x : existsb f l = false -> In x l -> f x = false.
Proof.
  intros Hf Hin. destruct (f x) eqn:E; [|done].
  rewrite (proj2 (existsb_exists f l)) in Hf; [done|]. by exists x.
Qed.

Lemma upsert_kept t w :
  (forall r, r ∈ w_tasks w -> t_IdemKey r = IdemKey t ->
     IsTerminalStatus (t_Status r) = true -> Status t = t_Status r) ->
  job_kept w (upsert_task t w).2.
Proof.
  intros Hs. unfold upsert_task. case_match; [reflexivity|].
  case_match eqn:Hex; simpl.
  - apply update_kept; [intros r; by case_match..|].
    intros r Hr Ht. case_match eqn:E; [|done]. simpl.
    apply bool_decide_eq_true in E. by apply Hs.
  - intros (W1 & W2 & W3). split.
    + unfold table_wf. simpl. rewrite !map_app. simpl. repeat split.
      * apply list.NoDup_app. split; [done|]. split; [|apply NoDup_singleton].
        intros x Hx Hx'. apply list_elem_of_singleton in Hx' as ->.
        rewrite list.Forall_forall in W3. specialize (W3 _ Hx). simpl in W3. lia.
      * apply list.NoDup_app. split; [done|]. split; [|apply NoDup_singleton].
        intros x Hx Hx'. apply list_elem_of_singleton in Hx' as ->.
        apply list_elem_of_fmap in Hx as (r & E & Hr). apply list_elem_of_In in Hr.
        pose proof (existsb_false_elem _ _ _ Hex Hr) as Hne. apply bool_decide_eq_false in Hne.
        simpl in E. congruence.
      * apply Forall_app. split; [|constructor; [lia|constructor]].
        eapply Forall_impl; [|exact W3]. simpl. lia.
    + intros i r Hr. exists r. simpl. rewrite lookup_app_l; [done|]. by eapply lookup_lt_Some.
Qed.

(** The lookup by idem_key finds the row with that key. *)
Lemma fetch_byIdemKey idem w r : table_wf w -> r ∈ w_tasks w -> t_IdemKey r = idem ->
  fetch_task (byIdemKey idem) w = Some (batchTaskParamToData r).
Proof.
  intros Hw Hr Hk. unfold fetch_task. set (q := where_task _).
  assert (q r = true) as Hq.
  { unfold q, where_task. cbn -[eqs]. unfold eqs. by rewrite bool_decide_eq_true_2. }
  destruct (List.find q (w_tasks w)) as [r'|] eqn:Ef.
  - apply List.find_some in Ef as [Hin Hq']. apply list_elem_of_In in Hin.
    unfold q, where_task in Hq'. cbn -[eqs] in Hq'. unfold eqs in Hq'.
    rewrite !andb_true_r in Hq'. apply bool_decide_eq_true in Hq'.
    simpl. f_equal. f_equal. by eapply row_by_idem; [exact Hw|..]; [done|done|congruence].
  - apply list_elem_of_In in Hr. by rewrite (List.find_none _ _ Ef r Hr) in Hq.
Qed.

(** What the resolution of a view gives, when it gives a task. *)
Lemma applyTaskView_spec os cache v w :
  same_tasks w (exec os (applyTaskView cache v) w).2 /\
  forall t, (exec os (applyTaskView cache v) w).1.1 = Ok (Some t) ->
    exists ak ta, t = task_of_view ak v ta.
Proof.
  split.
  - apply (exec_stable keeps_tasks same_tasks).
    + intros R e w'. apply same_tasks_handle.
    + unfold applyTaskView, resolve. repeat calls_step; exact I.
  - unfold applyTaskView, resolve. intros t.
    destruct (cache !! v_apiKeyID v) as [[ak|]|]; cbn [bind call].
    + case_match; [run_call|]; rewrite exec_ret; intros [= <-]; eauto.
    + rewrite exec_ret. done.
    + run_call. destruct (answer _ _ w) as [[keys|e] w1]; cbn [fst snd bind]; [|by rewrite exec_ret].
      destruct (head keys) as [ak|]; [|by rewrite exec_ret].
      case_match; cbn [bind call]; [run_call|]; rewrite exec_ret; intros [= <-]; eauto.
Qed.

Lemma parse_view_batchID b vals v : ParseRedisTaskView b vals = Ok v -> v_batchID v = b.
Proof. unfold ParseRedisTaskView. repeat case_match; intros; by simplify_eq. Qed.

(** The merge of a synchronised task keeps a terminal status. *)
Lemma merge_terminal ex inc v now :
  IsTerminalStatus (Status ex) = true -> Status (mergeTaskForSync (Some ex) inc v now) = Status ex.
Proof. intros E. simpl. by rewrite E. Qed.

Lemma merge_idem ex inc v now : IdemKey inc = v_batchID v ->
  (forall e, ex = Some e -> IdemKey e = v_batchID v) ->
  IdemKey (mergeTaskForSync ex inc v now) = v_batchID v.
Proof. destruct ex; simpl; auto. Qed.

Lemma sync_one_kept cache b os w : job_kept w (exec os (syncOneTask cache b) w).2.
Proof.
  unfold syncOneTask. cbn [bind call]. run_call.
  assert (w = (answer (hd Normal os) (HGetAll (BatchTaskKey b)) w).2) as Ew.
  { unfold answer. by destruct (hd Normal os). }
  rewrite <- Ew. clear Ew.
  destruct (answer _ _ w).1 as [vals|e]; [|reflexivity].
  case_bool_decide; [reflexivity|].
  destruct (ParseRedisTaskView b vals) as [v|e] eqn:Ev; [|reflexivity].
  apply parse_view_batchID in Ev. subst b.
  rewrite exec_bind. destruct (applyTaskView_spec (tl os) cache v w) as [Hs Ht].
  set (os' := leftover _ _ _). clearbody os'.
  destruct (exec (tl os) (applyTaskView cache v) w) as [[[[t|]|e] cache'] w1]; simpl in Hs, Ht;
    cbn [fst snd]; [|by apply same_tasks_kept..].
  destruct (Ht _ eq_refl) as (ak & ta & ->). clear Ht.
  etrans; [apply same_tasks_kept, Hs|]. clear Hs w. cbn [bind call]. run_call.
  destruct (hd Normal os'); cbn; [|reflexivity..].
  run_call. cbn [answer fault handle batch_interp batch_fault batch_handle]. 
  replace (answer (hd Normal (tl os')) Now w1) with (w_now w1, w1) by (by destruct (hd Normal (tl os'))).
  cbn [fst snd]. run_call. rewrite exec_ret. cbn [snd].
  set (t := mergeTaskForSync _ _ _ _).
  assert (job_kept w1 (upsert_task t w1).2) as Hk.
  { intros Hw. apply upsert_kept; [|exact Hw]. intros r Hr Hid Hterm.
    assert (t_IdemKey r = v_batchID v) as Hid'.
    { rewrite Hid. apply merge_idem; [done|]. intros e He.
      unfold fetch_task in He. apply fmap_Some in He as (r0 & Hf & ->).
      apply List.find_some in Hf as [_ Hq]. unfold where_task in Hq. cbn -[eqs] in Hq.
      unfold eqs in Hq. rewrite !andb_true_r in Hq. by apply bool_decide_eq_true in Hq. }
    unfold t. rewrite (fetch_byIdemKey _ w1 r Hw Hr Hid'). by apply merge_terminal. }
  unfold answer. destruct (hd Normal _); cbn; [exact Hk|reflexivity|exact Hk].
Qed.

(** One page of keys, then the loop over the pages. *)
Lemma sync_keys_kept one keys s os w :
  (forall cache key p os w, one cache key = Some p -> job_kept w (exec os p w).2) ->
  job_kept w (exec os (sync_keys one keys s) w).2.
Proof.
  intros Hone. unfold sync_keys. apply exec_for_each_stable; [apply _|].
  intros key [n cache] os1 w1 _. cbn.
  destruct (one cache key) as [p|] eqn:E; [|reflexivity].
  apply exec_bind_stable; [apply _|intros; by eapply Hone|reflexivity].
Qed.

Lemma scan_loop_kept fuel m mt one :
  (forall cache key p os w, one cache key = Some p -> job_kept w (exec os p w).2) ->
  forall c s os w, job_kept w (exec os (scan_loop fuel m mt one c s) w).2.
Proof.
  intros Hone. induction fuel as [|fuel IH]; intros c s os w; cbn [scan_loop]; [reflexivity|].
  revert os w. apply exec_bind_stable; [apply _| |].
  - intros os w. apply same_tasks_kept, (exec_stable keeps_tasks same_tasks).
    + intros R e w'. apply same_tasks_handle.
    + by apply all_calls_one.
  - intros [[next keys]|e] os w; [|reflexivity]. revert os w.
    apply exec_bind_stable; [apply _| |].
    + intros os w. by apply sync_keys_kept.
    + intros s' os w. case_match; [reflexivity|apply IH].
Qed.

Lemma sync_file_kept cache p f os w : job_kept w (exec os (syncOneFile cache p f) w).2.
Proof.
  apply same_tasks_kept, (exec_stable keeps_tasks same_tasks).
  - intros R e w'. apply same_tasks_handle.
  - unfold syncOneFile, applyFileView, resolve. repeat calls_step; exact I.
Qed.

Lemma sync_kept fuel m os w : job_kept w (exec os (SyncFromRedis fuel m) w).2.
Proof.
  unfold SyncFromRedis. case_match; [reflexivity|]. revert os w.
  apply exec_bind_stable; [apply _| |].
  - intros os w. apply scan_loop_kept. intros cache key p os' w'. unfold sync_task_key.
    destruct (ParseBatchTaskKey key) as [b []]; [|done]. intros [= <-]. apply sync_one_kept.
  - intros [n [e|]]; [reflexivity|]. apply exec_bind_stable; [apply _| |].
    + intros os w. apply scan_loop_kept. intros cache key p os' w'. unfold sync_file_key.
      destruct (ParseBatchFileKey key) as [[pt f] []]; [|done]. intros [= <-]. apply sync_file_kept.
    + intros [k [e|]]; reflexivity.
Qed.

(** * The whole cycle *)

Section Cycle.
Context `{MapOrder} (CalcCostUnits : Z -> spec_float -> Z).

Lemma status_backfill m : all_calls keeps_status (BackfillTerminalArtifacts m).
Proof.
  unfold BackfillTerminalArtifacts, backfillOneTask. calls_go keeps_status_keeps; exact eq_refl.
Qed.

Lemma status_releaseOneTask t : all_calls keeps_status (releaseOneTask t).
Proof. unfold releaseOneTask. calls_go keeps_status_keeps; exact I. Qed.

Lemma status_settleOneTask m c t : all_calls keeps_status (settleOneTask CalcCostUnits m c t).
Proof.
  unfold settleOneTask, settle_file, settle_commit.
  calls_go keeps_status_keeps; first [exact I | apply status_releaseOneTask].
Qed.

Lemma status_ReconcileSettle m : all_calls keeps_status (ReconcileSettle CalcCostUnits m).
Proof.
  unfold ReconcileSettle.
  calls_go keeps_status_keeps; [apply status_settleOneTask|apply status_releaseOneTask].
Qed.

Lemma keeps_status_kept {A} (p : prog batchE A) os w :
  all_calls keeps_status p -> job_kept w (exec os p w).2.
Proof. intros Hp. apply (exec_stable keeps_status job_kept); [apply job_kept_handle|exact Hp]. Qed.

Lemma runDuty_kept {A} (p : prog batchE A) :
  (forall os w, job_kept w (exec os p w).2) -> forall os w, job_kept w (exec os (runDuty p) w).2.
Proof. intros Hp. apply exec_bind_stable; [apply _|exact Hp|reflexivity]. Qed.

Lemma run_duties_kept fuel m os w : job_kept w (exec os (run_duties CalcCostUnits fuel m) w).2.
Proof.
  unfold run_duties. revert os w.
  apply exec_bind_stable; [apply _|apply runDuty_kept, sync_kept|intros _].
  apply exec_bind_stable; [apply _|apply runDuty_kept; intros; apply advance_kept|intros _].
  apply exec_bind_stable; [apply _|apply runDuty_kept; intros; apply keeps_status_kept, status_backfill|intros _].
  apply runDuty_kept. intros. apply keeps_status_kept, status_ReconcileSettle.
Qed.

Lemma run_once_kept fuel j os w : job_kept w (exec os (RunOnce CalcCostUnits fuel j) w).2.
Proof.
  unfold RunOnce. destruct (job_manager j) as [m|]; [|reflexivity].
  case_match; [reflexivity|]. revert os w. case_match.
  2: { apply exec_bind_stable; [apply _|apply run_duties_kept|reflexivity]. }
  assert (forall A (e : batchE A) os w, keeps_tasks A e -> job_kept w (exec os (call e) w).2) as Hc.
  { intros A e os w He. apply keeps_status_kept, all_calls_one. auto with go. }
  apply exec_bind_stable; [apply _|intros; by apply Hc|].
  intros [u|e]; [|reflexivity].
  apply exec_bind_stable; [apply _|intros; by apply Hc|].
  intros [[]|e]; [|reflexivity..].
  apply exec_bind_stable; [apply _|apply run_duties_kept|intros _].
  apply exec_bind_stable; [apply _|intros; by apply Hc|reflexivity].
Qed.
End Cycle.

(** C3: a terminal status is never rolled back.  Whatever calls of it fail,
    one cycle of the reconcile job (synchronisation, advance, backfill and
    settlement, under its lock or not) leaves every row of a well-formed
    table in its place with its keys, keeps the table well-formed, and does
    not change a status that was [completed], [expired], [failed] or
    [cancelled]. *)
Theorem terminal_status_is_final `{MapOrder} (CalcCostUnits : Z -> spec_float -> Z)
  (fuel : nat) (j : Job) (os : list outcome) (w : world) :
  table_wf w ->
  table_wf (exec os (RunOnce CalcCostUnits fuel j) w).2 /\
  status_kept w (exec os (RunOnce CalcCostUnits fuel j) w).2.
Proof. apply run_once_kept. Qed.

(** The sample task is known as [in_progress] in Redis while its row is
    completed: a cycle runs with its third call failing. *)
Definition stale_world : world :=
  set_redis settled_world (<[ BatchTaskKey "b1" := RHash {[ "status" := TaskStatusInProgress;
                                                            "api_key_id" := "key-1" ]} ]> sample_redis).

Lemma terminal_status_is_final_witness :
  let j := NewJob (Some sample_manager) true true 0 7 in
  table_wf stale_world /\ status_kept stale_world (exec [Normal; Normal; FailBefore] (RunOnce unit_cost 1 j) stale_world).2.
Proof.
  assert (table_wf stale_world) as Hw.
  { repeat split; vm_compute; repeat constructor; set_solver. }
  split; [exact Hw|]. by apply (terminal_status_is_final unit_cost).
Defined.
