(* ===== verification/BatchRelease.v ===== *)
(** Releasing a reservation ([releaseReserve]): what one run does, that a
    second run does nothing, what holds under any interleaving, and what two
    runs that overlap do. *)
From Stdlib Require Import ZArith Lia Ascii.
From stdpp Require Import base tactics numbers list strings gmap option.
From S2P Require Import Prelude GoStrings GoJson Prog BatchTypes BatchStore BatchView BatchManager BatchAdvance BatchSettle BatchJob.

Local Open Scope string_scope.

(** * The abstract release *)

(** The value of a plan's mirror after [units] were released from it: at most
    what is there is taken, and a value that is not a counter stays. *)
Definition release_value (units : Z) (v : option rval) : option rval :=
  match v with
  | Some (RStr s) =>
      match ParseInt s with
      | Some cur => if (0 <? Z.min cur units)%Z then Some (RStr (FormatInt (cur - Z.min cur units))) else v
      | None => v
      end
  | _ => v
  end.

(** The same for what the book holds for the plan, if anything. *)
Definition release_plan (booked : option string) (v : option rval) : option rval :=
  match booked ≫= ParseInt with
  | Some units => if (units <=? 0)%Z then v else release_value units v
  | None => v
  end.

(** The effect of one entry of the book on the keys of Redis. *)
Definition release_entry (entry : string * string) (m : gmap string rval) : gmap string rval :=
  partial_alter (release_plan (Some entry.2)) (BatchReserveMirrorKey entry.1) m.

(** * Keys *)

Lemma app_inj_prefix (p a b : string) : p +:+ a = p +:+ b -> a = b.
Proof. induction p as [|c p IH]; [done|]. intros [= E]. by apply IH. Qed.

#[export] Instance mirror_inj : Inj (=) (=) BatchReserveMirrorKey.
Proof. intros a b. apply app_inj_prefix. Qed.

Lemma mirror_not_book plan b : BatchReserveMirrorKey plan <> BatchReserveBatchKey b.
Proof. discriminate. Qed.
#[export] Hint Resolve mirror_not_book : go.

(** * One run *)

Lemma set_redis_id w : set_redis w (w_redis w) = w.
Proof. by destruct w. Qed.

Lemma partial_alter_same (f : option rval -> option rval) k (m : gmap string rval) :
  f (m !! k) = m !! k -> partial_alter f k m = m.
Proof.
  intros Hf. apply map_eq. intros i. destruct (decide (i = k)) as [->|Hne].
  - by rewrite lookup_partial_alter_eq.
  - by rewrite lookup_partial_alter_ne.
Qed.

Lemma partial_alter_set (f : option rval -> option rval) k (m : gmap string rval) v :
  f (m !! k) = Some v -> partial_alter f k m = <[k := v]> m.
Proof.
  intros Hf. apply map_eq. intros i. destruct (decide (i = k)) as [->|Hne].
  - by rewrite lookup_partial_alter_eq, lookup_insert_eq.
  - by rewrite lookup_partial_alter_ne, lookup_insert_ne.
Qed.

(** The script that decrements a mirror is [release_value]. *)
Lemma reserve_decr_spec k units w :
  (redis_reserve_decr k units w).2 = set_redis w (partial_alter (release_value units) k (w_redis w)).
Proof.
  unfold redis_reserve_decr.
  assert (release_value units (w_redis w !! k) = w_redis w !! k ->
          w = set_redis w (partial_alter (release_value units) k (w_redis w))) as Hid.
  { intros Hv. by rewrite partial_alter_same, set_redis_id. }
  destruct (w_redis w !! k) as [[h|s]|] eqn:E; [by apply Hid| |by apply Hid].
  simpl in Hid. destruct (ParseInt s) as [cur|] eqn:Ep; [|by apply Hid].
  destruct (0 <? Z.min cur units)%Z eqn:E0; [|by apply Hid].
  cbn [snd]. f_equal. symmetry. apply partial_alter_set. rewrite E. simpl. by rewrite Ep, E0.
Qed.

Definition release_body (entry : string * string) : prog batchE unit :=
  let '(planKey, unitsStr) := entry in
  match ParseInt unitsStr with
  | None => Ret tt
  | Some units => if (units <=? 0)%Z then Ret tt
                  else call (ReserveDecr (BatchReserveMirrorKey planKey) units) ;; Ret tt
  end.

(** The loop body is [release_entry], whatever the answer of Redis. *)
Lemma exec_release_body e w :
  exec [] (release_body e) w = (tt, set_redis w (release_entry e (w_redis w))).
Proof.
  destruct e as [plan u]. unfold release_body, release_entry, release_plan. cbn.
  destruct (ParseInt u) as [units|] eqn:Eu; [destruct (units <=? 0)%Z|]; cbn [bind call].
  - by rewrite exec_ret, partial_alter_same, set_redis_id.
  - run_call. rewrite exec_ret. cbn [hd fst snd answer handle batch_interp batch_handle].
    by rewrite reserve_decr_spec.
  - by rewrite exec_ret, partial_alter_same, set_redis_id.
Qed.

Lemma exec_release_entries l w :
  exec [] (for_each l tt (fun entry _ => release_body entry)) w =
  (tt, set_redis w (fold_left (fun m e => release_entry e m) l (w_redis w))).
Proof.
  revert w. induction l as [|e l IH]; intros w; cbn [for_each fold_left].
  - by rewrite exec_ret, set_redis_id.
  - rewrite exec_bind_nil, exec_release_body. cbn [fst snd]. by rewrite IH.
Qed.

(** Entries of different plans do not disturb each other. *)
Lemma lookup_release_entries l m plan : NoDup l.*1 ->
  fold_left (fun m e => release_entry e m) l m !! BatchReserveMirrorKey plan =
  release_plan ((list_to_map l : gmap string string) !! plan) (m !! BatchReserveMirrorKey plan).
Proof.
  revert m. induction l as [|[q u] l IH]; intros m Hnd; cbn [fold_left]; [done|].
  apply list.NoDup_cons in Hnd as [Hq Hnd]. rewrite IH by done. cbn [list_to_map foldr uncurry].
  unfold release_entry. cbn [fst snd]. destruct (decide (q = plan)) as [->|Hne].
  - rewrite lookup_partial_alter_eq, lookup_insert_eq.
    by rewrite (not_elem_of_list_to_map_1 l plan Hq).
  - rewrite lookup_partial_alter_ne by (by intros ?%mirror_inj). by rewrite lookup_insert_ne.
Qed.

Lemma lookup_release_other l m k : (forall plan, k <> BatchReserveMirrorKey plan) ->
  fold_left (fun m e => release_entry e m) l m !! k = m !! k.
Proof.
  intros Hk. revert m. induction l as [|e l IH]; intros m; cbn [fold_left]; [done|].
  rewrite IH. apply lookup_partial_alter_ne. by intros ?%eq_sym%Hk.
Qed.

Section Release.
Context `{MapOrder}.

Lemma exec_releaseReserve b h w :
  w_redis w !! BatchReserveBatchKey b = Some (RHash h) -> h <> ∅ ->
  exec [] (releaseReserve b) w =
  (Ok tt, set_redis w (delete (BatchReserveBatchKey b)
            (fold_left (fun m e => release_entry e m) (map_order h) (w_redis w)))).
Proof.
  intros Hb Hh. unfold releaseReserve. cbn [bind call]. run_call.
  cbn [hd tl answer handle batch_interp batch_handle fst snd]. unfold redis_hgetall. rewrite Hb.
  rewrite bool_decide_eq_false_2 by done. rewrite exec_bind_nil.
  change (for_each _ _ _) with (for_each (map_order h) tt (fun entry _ => release_body entry)).
  by rewrite exec_release_entries.
Qed.

Lemma map_order_lookup h : (list_to_map (map_order h) : gmap string string) = h.
Proof.
  rewrite (list_to_map_proper (map_order h) (map_to_list h)).
  - apply list_to_map_to_list.
  - rewrite map_order_perm. apply NoDup_fst_map_to_list.
  - apply map_order_perm.
Qed.

Lemma map_order_nodup h : NoDup (map_order h).*1.
Proof. rewrite map_order_perm. apply NoDup_fst_map_to_list. Qed.
End Release.

(** C4: one release does exactly what the book says.  A run of
    [releaseReserve] on a batch with a non-empty book succeeds, takes from the
    mirror of every plan what the book holds for it (at most what is there,
    malformed and non-positive amounts skipped), deletes the book and touches
    nothing else, in whatever order the book is ranged over; running it again
    changes nothing. *)
Theorem release_exact `{MapOrder} (b : string) (h : gmap string string) (w : world) :
  w_redis w !! BatchReserveBatchKey b = Some (RHash h) -> h <> ∅ ->
  exists m,
    exec [] (releaseReserve b) w = (Ok tt, set_redis w m) /\
    m !! BatchReserveBatchKey b = None /\
    (forall plan, m !! BatchReserveMirrorKey plan =
                  release_plan (h !! plan) (w_redis w !! BatchReserveMirrorKey plan)) /\
    (forall k, k <> BatchReserveBatchKey b -> (forall plan, k <> BatchReserveMirrorKey plan) ->
               m !! k = w_redis w !! k) /\
    exec [] (releaseReserve b) (set_redis w m) = (Ok tt, set_redis w m).
Proof.
  intros Hb Hh. rewrite (exec_releaseReserve b h w Hb Hh). eexists. split; [done|].
  split; [apply lookup_delete_eq|]. split; [|split].
  - intros plan. rewrite lookup_delete_ne by (symmetry; auto with go).
    rewrite lookup_release_entries by apply map_order_nodup. by rewrite map_order_lookup.
  - intros k Hk Hp. rewrite lookup_delete_ne by done. by apply lookup_release_other.
  - unfold releaseReserve. cbn [bind call]. run_call.
    cbn [hd tl answer handle batch_interp batch_handle fst snd]. unfold redis_hgetall.
    cbn [w_redis set_redis]. rewrite lookup_delete_eq. by rewrite bool_decide_eq_true_2.
Qed.

Lemma release_exact_witness :
  exists m, exec [] (releaseReserve "b1") world1 = (Ok tt, set_redis world1 m) /\
            m !! BatchReserveMirrorKey "P" = Some (RStr "50").
Proof.
  destruct (release_exact "b1" {[ "P" := "100" ]} world1 eq_refl) as (m & E & _ & Hm & _).
  { intros E. by apply (f_equal (lookup "P")) in E. }
  exists m. split; [exact E|]. rewrite Hm. reflexivity.
Defined.

(** * Overlapping runs *)

(** The counter of a plan's mirror. *)
Definition mirror (w : world) (plan : string) : option Z :=
  match w_redis w !! BatchReserveMirrorKey plan with
  | Some (RStr s) => ParseInt s
  | _ => None
  end.

(** No counter is raised or driven below zero. *)
Definition mirrors_fall (w w' : world) : Prop :=
  forall plan c, mirror w plan = Some c -> (0 <= c)%Z ->
    exists c', mirror w' plan = Some c' /\ (0 <= c' <= c)%Z.

#[export] Instance mirrors_fall_preorder : PreOrder mirrors_fall.
Proof.
  split.
  - intros w plan c Hc H0. exists c. split; [done|lia].
  - intros w1 w2 w3 H1 H2 plan c Hc H0.
    destruct (H1 plan c Hc H0) as (c' & Hc' & ?). destruct (H2 plan c' Hc') as (c'' & ? & ?); [lia|].
    exists c''. split; [done|lia].
Qed.

Definition releases (R : Type) (e : batchE R) : Prop :=
  match e with
  | HGetAll _ => True
  | ReserveDecr _ delta => (0 < delta)%Z
  | Delete key => exists b, key = BatchReserveBatchKey b
  | _ => False
  end.

Lemma ParseInt_range s z : ParseInt s = Some z -> int64_ok z = true.
Proof.
  unfold ParseInt. intros Hp. repeat case_match; simplify_option_eq; done.
Qed.

Lemma release_value_falls units s c : (0 < units)%Z -> ParseInt s = Some c -> (0 <= c)%Z ->
  exists s' c', release_value units (Some (RStr s)) = Some (RStr s') /\
                ParseInt s' = Some c' /\ (0 <= c' <= c)%Z.
Proof.
  intros Hu Hp Hc. cbn. rewrite Hp. pose proof (ParseInt_range _ _ Hp) as Hr.
  destruct (0 <? Z.min c units)%Z eqn:E0; [|exists s, c; repeat split; by lia || done].
  apply Z.ltb_lt in E0. exists (FormatInt (c - Z.min c units)), (c - Z.min c units)%Z.
  split; [done|]. split; [|lia]. apply ParseInt_FormatInt.
  unfold int64_ok, int64_min, int64_max in *. lia.
Qed.

Lemma mirrors_fall_handle R (e : batchE R) w : releases R e -> mirrors_fall w (handle e w).2.
Proof.
  destruct e; intros He; cbn [releases] in He; try done; cbn [handle batch_interp batch_handle snd];
    intros plan c Hc H0.
  - rewrite reserve_decr_spec. unfold mirror in *. cbn [w_redis set_redis].
    destruct (decide (key = BatchReserveMirrorKey plan)) as [->|Hne].
    + rewrite lookup_partial_alter_eq.
      destruct (w_redis w !! _) as [[h|s]|]; [done| |done].
      destruct (release_value_falls _ s c He Hc H0) as (s' & c' & -> & ? & ?). eauto.
    + rewrite lookup_partial_alter_ne by done. exists c. split; [done|lia].
  - destruct He as [b ->]. unfold mirror in *. cbn [w_redis set_redis].
    rewrite lookup_delete_ne by (symmetry; auto with go). exists c. split; [done|lia].
Qed.

Lemma releases_releaseReserve `{MapOrder} b : all_calls releases (releaseReserve b).
Proof.
  unfold releaseReserve. repeat calls_step; simpl; eauto.
  by apply Z.leb_gt.
Qed.

(** Releases never drive a plan's reserved total below zero or raise it.
    Any number of releases, of the same or of different batches, interleaved
    in any order and with any calls failing, leave every mirror counter that
    was not negative between zero and its former value. *)
Theorem release_keeps_mirrors `{MapOrder} (bs : list string) (sched : list (nat * outcome)) (w : world)
  (plan : string) (c : Z) :
  mirror w plan = Some c -> (0 <= c)%Z ->
  exists c', mirror (interleave sched (map releaseReserve bs) w).2 plan = Some c' /\ (0 <= c' <= c)%Z.
Proof.
  intros Hc H0.
  apply (interleave_stable releases mirrors_fall mirrors_fall_handle sched (map releaseReserve bs) w); [|done..].
  apply list.Forall_forall. intros p Hp. apply list_elem_of_fmap in Hp as (b & -> & _).
  apply releases_releaseReserve.
Qed.

Lemma release_keeps_mirrors_witness :
  exists c', mirror (interleave [(0, Normal); (1, Normal); (1, FailAfter); (0, Normal)]
                       (map releaseReserve ["b1"; "b1"]) world1).2 "P" = Some c' /\ (0 <= c' <= 150)%Z.
Proof. apply (release_keeps_mirrors ["b1"; "b1"]); [reflexivity|lia]. Defined.

(** Both runs read the book before either deletes it. *)
Definition overlap : list (nat * outcome) :=
  [(0, Normal); (1, Normal); (0, Normal); (1, Normal); (0, Normal); (1, Normal)].

Lemma map_order_single `{MapOrder} plan u : map_order {[ plan := u ]} = [(plan, u)].
Proof.
  apply Permutation_singleton_r. rewrite map_order_perm. by rewrite map_to_list_singleton.
Qed.

(** A run past its reading of a book with one positive entry. *)
Definition release_tail (b plan : string) (units : Z) : prog batchE (result unit) :=
  Call (ReserveDecr (BatchReserveMirrorKey plan) units) (fun _ =>
  Call (Delete (BatchReserveBatchKey b)) Ret).

Lemma release_read `{MapOrder} b plan units w :
  (0 < units)%Z -> int64_ok units = true ->
  w_redis w !! BatchReserveBatchKey b = Some (RHash {[ plan := FormatInt units ]}) ->
  step Normal (releaseReserve b) w = (release_tail b plan units, w).
Proof.
  intros Hu Hr Hb. unfold releaseReserve. cbn. unfold redis_hgetall. rewrite Hb.
  rewrite bool_decide_eq_false_2
    by (intros E; apply (f_equal (lookup plan)) in E; by rewrite lookup_singleton_eq in E).
  rewrite map_order_single. cbn. rewrite ParseInt_FormatInt by done.
  replace (units <=? 0)%Z with false by (symmetry; apply Z.leb_gt; lia). done.
Qed.

Lemma interleave_overlap `{MapOrder} b plan units w :
  (0 < units)%Z -> int64_ok units = true ->
  w_redis w !! BatchReserveBatchKey b = Some (RHash {[ plan := FormatInt units ]}) ->
  let take := partial_alter (release_value units) (BatchReserveMirrorKey plan) in
  let drop_book := delete (BatchReserveBatchKey b) in
  interleave overlap [releaseReserve b; releaseReserve b] w =
  ([Ret (Ok tt); Ret (Ok tt)], set_redis w (drop_book (drop_book (take (take (w_redis w)))))).
Proof.
  intros Hu Hr Hb take drop_book. unfold overlap.
  pose proof (release_read b plan units w Hu Hr Hb) as Hread. set (p := releaseReserve b) in *.
  change (interleave _ _ w) with
    (let '(p', w') := step Normal p w in
     interleave (tl overlap) [p'; p] w').
  rewrite Hread. cbn [overlap tl].
  change (interleave _ _ w) with
    (let '(p', w') := step Normal p w in
     interleave (tl (tl overlap)) [release_tail b plan units; p'] w').
  rewrite Hread.
  assert (forall q, step Normal (release_tail b plan units) q =
            (Call (Delete (BatchReserveBatchKey b)) Ret, set_redis q (take (w_redis q)))) as Ht.
  { intros q. unfold release_tail. cbn [step answer handle batch_interp batch_handle].
    pose proof (reserve_decr_spec (BatchReserveMirrorKey plan) units q) as E.
    destruct (redis_reserve_decr _ units q). cbn [snd] in E. by subst. }
  cbn [overlap tl interleave lookup list_lookup]. rewrite Ht.
  cbn [insert list_insert interleave lookup list_lookup]. rewrite Ht. reflexivity.
Qed.

Lemma release_value_counter units s c : (0 < units)%Z -> ParseInt s = Some c -> (0 <= c)%Z ->
  exists s', release_value units (Some (RStr s)) = Some (RStr s') /\
             ParseInt s' = Some (Z.max 0 (c - units)).
Proof.
  intros Hu Hp Hc. cbn. rewrite Hp. pose proof (ParseInt_range _ _ Hp) as Hr.
  destruct (0 <? Z.min c units)%Z eqn:E0.
  - eexists. split; [done|]. apply Z.ltb_lt in E0. rewrite ParseInt_FormatInt; [f_equal; lia|].
    unfold int64_ok, int64_min, int64_max in *. lia.
  - apply Z.ltb_ge in E0. exists s. split; [done|]. rewrite Hp. f_equal. lia.
Qed.

(** C5: two releases of one batch that overlap take its reservation twice.
    The book holds [units] of one plan and the plan's mirror stands at
    [total >= units] because other batches reserve on it too.  When both runs
    read the book before either deletes it, both succeed, the book is gone,
    and the mirror has lost the reservation twice (down to zero), so that
    what the other batches reserved is given away; one run after the other
    would leave [total - units]. *)
Theorem overlapping_releases_overdraw `{MapOrder} (b plan : string) (units total : Z) (w : world) :
  (0 < units <= total)%Z -> int64_ok total = true ->
  w_redis w !! BatchReserveBatchKey b = Some (RHash {[ plan := FormatInt units ]}) ->
  mirror w plan = Some total ->
  let '(pool, w') := interleave overlap [releaseReserve b; releaseReserve b] w in
  pool = [Ret (Ok tt); Ret (Ok tt)] /\
  w_redis w' !! BatchReserveBatchKey b = None /\
  mirror w' plan = Some (Z.max 0 (total - 2 * units)).
Proof.
  intros Hu Hr Hb Hm.
  assert (int64_ok units = true) as Hru by (unfold int64_ok, int64_min, int64_max in *; lia).
  rewrite (interleave_overlap b plan units w) by (done || lia).
  split; [done|]. split; [cbn [w_redis set_redis]; apply lookup_delete_eq|].
  unfold mirror in *. cbn [w_redis set_redis].
  rewrite !lookup_delete_ne by (symmetry; auto with go). rewrite !lookup_partial_alter_eq.
  destruct (w_redis w !! BatchReserveMirrorKey plan) as [[h|s]|]; [done| |done].
  destruct (release_value_counter units s total) as (s1 & -> & H1); [lia|done|lia|].
  destruct (release_value_counter units s1 _ ltac:(lia) H1) as (s2 & -> & ->); [lia|].
  f_equal. lia.
Qed.

Lemma overlapping_releases_overdraw_witness :
  let '(pool, w') := interleave overlap [releaseReserve "b1"; releaseReserve "b1"] world1 in
  pool = [Ret (Ok tt); Ret (Ok tt)] /\ w_redis w' !! BatchReserveBatchKey "b1" = None /\
  mirror w' "P" = Some 0%Z.
Proof. apply (overlapping_releases_overdraw "b1" "P" 100 150 world1); [lia|reflexivity..]. Defined.
