(* ===== verification/BatchCancelSafety.v ===== *)
(** Cancelling: what [Cancel] does with a task that has a row, and that the
    provider is only asked to cancel a task whose row was claimed first. *)
From Stdlib Require Import ZArith Lia Ascii.
From stdpp Require Import base tactics numbers list strings gmap option.
From S2P Require Import Prelude GoStrings Prog BatchTypes BatchStore BatchView BatchManager BatchAdvance BatchSettle BatchJob BatchSettleSafety BatchStatusSafety.

Local Open Scope string_scope.

(** * A task with a row *)

(** The row [r] is the one of batch [b] of product [p]. *)
Definition only_row (b p : string) (r : TBatchTask) (w : world) : Prop :=
  r ∈ w_tasks w /\ t_BatchID r = b /\ t_ProductName r = p /\
  forall r', r' ∈ w_tasks w -> t_BatchID r' = b -> t_ProductName r' = p -> r' = r.

(** The world after an audit entry, if the manager keeps an audit log. *)
Definition recorded (m : Manager) (b prev : string) (err : option goerr) (w : world) : world :=
  if has_operationLog m then set_audit w (w_audit w ++ [mkEntry b prev err]) else w.

Lemma where_byBatch b p r :
  where_task (batchTaskFilterToParam (byBatch b p)) r = true <-> t_BatchID r = b /\ t_ProductName r = p.
Proof.
  unfold where_task. cbn -[eqs]. rewrite !andb_true_r, andb_true_iff. unfold eqs.
  rewrite !bool_decide_eq_true. naive_solver.
Qed.

Lemma fetch_only_row b p r w : only_row b p r w -> fetch_task (byBatch b p) w = Some (batchTaskParamToData r).
Proof.
  intros (Hin & Hb & Hp & Hu). unfold fetch_task.
  destruct (List.find _ _) as [r'|] eqn:Ef.
  - apply List.find_some in Ef as [Hr' [Hb' Hp']%where_byBatch]. simpl. do 2 f_equal.
    apply Hu; [by apply list_elem_of_In|done..].
  - apply list_elem_of_In in Hin. pose proof (List.find_none _ _ Ef r Hin) as Hn.
    rewrite (proj2 (where_byBatch b p r)) in Hn; done.
Qed.

Lemma exec_FetchTask_row m b p r w fb : only_row b p r w ->
  exec [] (FetchTask m b p fb) w = (Ok (Some (batchTaskParamToData r)), w).
Proof.
  intros Hr. unfold FetchTask. cbn [bind call]. run_call.
  cbn [hd answer handle batch_interp batch_handle fst snd]. by rewrite (fetch_only_row b p r w Hr).
Qed.

(** How many rows the preemption takes, and which. *)
Definition preempted (b p : string) (w : world) : world :=
  set_tasks w (map (fun r => if preempt_where b p r then preempt_assign (w_now w) r else r) (w_tasks w)).

Lemma exec_preempt b p w : exec [] (call (PreemptBatchTaskCancel b p)) w =
  (Ok (Z.of_nat (length (List.filter (preempt_where b p) (w_tasks w)))), preempted b p w).
Proof. reflexivity. Qed.

Lemma preempt_where_row b p r : preempt_where b p r = true <->
  t_BatchID r = b /\ t_ProductName r = p /\ t_Status r ∉ cancel_excluded.
Proof.
  unfold preempt_where, eqs. rewrite !andb_true_iff, !bool_decide_eq_true. naive_solver.
Qed.

Lemma filter_nil_iff {A} (f : A -> bool) l : List.filter f l = [] <-> Forall (fun x => f x = false) l.
Proof.
  induction l as [|x l IH]; simpl; [by split|]. rewrite list.Forall_cons.
  destruct (f x); [naive_solver|]. rewrite IH. naive_solver.
Qed.

Lemma preempt_excluded b p r w : only_row b p r w -> t_Status r ∈ cancel_excluded ->
  exec [] (call (PreemptBatchTaskCancel b p)) w = (Ok 0%Z, w).
Proof.
  intros (Hin & Hb & Hp & Hu) Hex. rewrite exec_preempt.
  assert (Forall (fun r => preempt_where b p r = false) (w_tasks w)) as Hno.
  { apply list.Forall_forall. intros r' Hr'. apply not_true_iff_false. intros Hw.
    apply preempt_where_row in Hw as (E1 & E2 & E3). rewrite (Hu r') in E3; done. }
  rewrite (proj2 (filter_nil_iff _ _) Hno). f_equal. unfold preempted.
  replace (map _ _) with (w_tasks w); [by destruct w|].
  clear -Hno. induction Hno as [|r l Hr _ IH]; simpl; [done|]. by rewrite Hr, <- IH.
Qed.

Lemma preempt_taken b p r w : only_row b p r w -> t_Status r ∉ cancel_excluded ->
  exists n, (0 < n)%Z /\ exec [] (call (PreemptBatchTaskCancel b p)) w = (Ok n, preempted b p w).
Proof.
  intros (Hin & Hb & Hp & _) Hex. rewrite exec_preempt. eexists. split; [|done].
  destruct (List.filter _ _) eqn:E; [|simpl; lia].
  apply filter_nil_iff in E. rewrite list.Forall_forall in E. specialize (E r Hin).
  rewrite (proj2 (preempt_where_row b p r)) in E; done.
Qed.

Lemma exec_cancel_fails {A} m b prev err w :
  exec [] (cancel_fails (A := A) m b prev err) w = (Err err, recorded m b prev (Some err) w).
Proof.
  unfold cancel_fails, recordCancelOperation, recorded. by destruct (has_operationLog m).
Qed.

Section Cancel.
Context `{MapOrder}.

(** A task that is terminal or being cancelled falls through to the
    re-reading of its row, which has a primary key and is not registered
    again. *)
Lemma exec_Cancel_excluded m b p r w :
  only_row b p r w -> t_Status r ∈ cancel_excluded -> t_ID r <> 0%Z ->
  exec [] (Cancel m b p) w = exec [] (cancel_conflict m b p (t_Status r)) w.
Proof.
  intros Hr Hex Hid. unfold Cancel. rewrite exec_bind_nil, (exec_FetchTask_row m b p r) by done.
  cbn [fst snd]. rewrite exec_bind_nil, (preempt_excluded b p r) by done. cbn [fst snd].
  change (0 =? 0)%Z with true. cbv iota. rewrite exec_bind_nil. unfold preempt_again. cbn [ID batchTaskParamToData].
  rewrite (proj2 (Z.eqb_neq _ _) Hid). reflexivity.
Qed.

Lemma exec_cancel_conflict m b p r prev w :
  only_row b p r w ->
  exec [] (cancel_conflict m b p prev) w =
  if bool_decide (t_Status r = TaskStatusCancelling)
  then exec [] (cancelReplay m (batchTaskParamToData r)) w
  else (Err (errBatchConflict b), recorded m b prev (Some (errBatchConflict b)) w).
Proof.
  intros Hr. unfold cancel_conflict. rewrite exec_bind_nil, (exec_FetchTask_row m b p r) by done.
  cbn [fst snd Status batchTaskParamToData]. case_bool_decide; [done|]. apply exec_cancel_fails.
Qed.
End Cancel.

(** Cancelling a task that has a row.  A terminal task is a conflict: it
    is recorded in the audit log and nothing else happens.  A task that is
    already being cancelled is replayed.  Any other task has its row moved to
    [cancelling] before the provider is contacted. *)
Theorem cancel_by_status `{MapOrder} (m : Manager) (b p : string) (r : TBatchTask) (w : world) :
  only_row b p r w -> t_ID r <> 0%Z ->
  (IsTerminalStatus (t_Status r) = true ->
     exec [] (Cancel m b p) w =
     (Err (errBatchConflict b), recorded m b (t_Status r) (Some (errBatchConflict b)) w)) /\
  (t_Status r = TaskStatusCancelling ->
     exec [] (Cancel m b p) w = exec [] (cancelReplay m (batchTaskParamToData r)) w) /\
  (t_Status r ∉ cancel_excluded ->
     exec [] (Cancel m b p) w =
       exec [] (cancel_upstream m b (t_Status r) (batchTaskParamToData r)) (preempted b p w) /\
     exists i r', w_tasks (preempted b p w) !! i = Some r' /\ t_ID r' = t_ID r /\
                  t_Status r' = TaskStatusCancelling).
Proof.
  intros Hr Hid. split; [|split].
  - intros Ht. pose proof (terminal_not_excluded r Ht) as Hin.
    rewrite (exec_Cancel_excluded m b p r), (exec_cancel_conflict m b p r); try done.
    + case_bool_decide as E; [|done]. by rewrite E in Ht.
    + apply elem_of_app. by left.
  - intros Hc. rewrite (exec_Cancel_excluded m b p r), (exec_cancel_conflict m b p r); try done.
    + by rewrite bool_decide_eq_true_2.
    + rewrite Hc. set_solver.
  - intros Hex. destruct (preempt_taken b p r w Hr Hex) as (n & Hn & Hpre). split.
    + unfold Cancel. rewrite exec_bind_nil, (exec_FetchTask_row m b p r) by done. cbn [fst snd].
      rewrite exec_bind_nil, Hpre. cbn [fst snd].
      by replace (n =? 0)%Z with false by (symmetry; apply Z.eqb_neq; lia).
    + destruct Hr as (Hin & Hb & Hp & _). apply list_elem_of_lookup in Hin as [i Hi].
      exists i, (preempt_assign (w_now w) r). split; [|done].
      simpl. rewrite list_lookup_fmap, Hi. simpl. by rewrite (proj2 (preempt_where_row b p r)).
Qed.

Definition running_row : TBatchTask := sample_row 1 "b1" TaskStatusInProgress SettleStatusReserved.
Definition running_world : world := sample_world [running_row] sample_keys.

Lemma only_running_row : only_row "b1" "demo" running_row running_world.
Proof. repeat split; [left|]. intros r' Hr' _ _. by apply list_elem_of_singleton in Hr'. Qed.

Lemma cancel_by_status_witness :
  exec [] (Cancel sample_manager "b1" "demo") running_world =
    exec [] (cancel_upstream sample_manager "b1" TaskStatusInProgress (batchTaskParamToData running_row))
      (preempted "b1" "demo" running_world) /\
  exists i r', w_tasks (preempted "b1" "demo" running_world) !! i = Some r' /\ t_ID r' = 1%Z /\
               t_Status r' = TaskStatusCancelling.
Proof.
  destruct (cancel_by_status sample_manager "b1" "demo" running_row running_world) as (_ & _ & Hx).
  - apply only_running_row.
  - discriminate.
  - apply Hx. by apply (bool_decide_unpack (running_row.(t_Status) ∉ cancel_excluded)).
Defined.

(** * No upstream cancel without a claimed row *)

(** Some row of the batch stands at [cancelling]. *)
Definition claimed (b p : string) (w : world) : Prop :=
  exists r, r ∈ w_tasks w /\ t_BatchID r = b /\ t_ProductName r = p /\ t_Status r = TaskStatusCancelling.

(** Reads: the world stays as it is, whatever the outcome of the call. *)
Definition reads (R : Type) (e : batchE R) : Prop :=
  match e with
  | FetchBatchTask _ | ListBatchTasks _ | HGetAll _ | FetchProvider _ | FetchModelPrice _ _ _
  | FetchAPIKeyList _ | Now | NewRequest _ _ | FetchBatchFile _ | ListBatchFiles _ | Scan _ _ _ => True
  | _ => False
  end.

Lemma exec_reads {A} (q : prog batchE A) os w : all_calls reads q -> (exec os q w).2 = w.
Proof.
  intros Hq. symmetry. revert os w. refine (exec_stable reads eq _ q Hq). by intros R [] w.
Qed.

Lemma reads_FetchTask m b p fb : all_calls reads (FetchTask m b p fb).
Proof. unfold FetchTask, applyTaskView, resolve. repeat calls_step; exact I. Qed.

Lemma answer_reads {R} (e : batchE R) o w : reads R e -> (answer o e w).2 = w.
Proof. destruct e, o; done. Qed.

(** What a run of [FetchTask] without the Redis fallback returns is a row. *)
Lemma FetchTask_row os m b p w t :
  (exec os (FetchTask m b p false) w).1 = Ok (Some t) ->
  exists r, r ∈ w_tasks w /\ t = batchTaskParamToData r /\ t_BatchID r = b /\ t_ProductName r = p.
Proof.
  unfold FetchTask. cbn [bind call]. run_call. unfold answer.
  destruct (hd Normal os); cbn; [|discriminate..].
  destruct (fetch_task (byBatch b p) w) as [t'|] eqn:E; rewrite exec_ret; [|discriminate].
  intros [= ->]. unfold fetch_task in E. apply fmap_Some in E as (r & Hf & ->).
  apply List.find_some in Hf as [Hin [Hb Hp]%where_byBatch]. apply list_elem_of_In in Hin. eauto.
Qed.

(** A preemption that reports rows has claimed one. *)
Lemma preempt_claims os b p w n :
  (exec os (call (PreemptBatchTaskCancel b p)) w).1 = Ok n -> n <> 0%Z ->
  claimed b p (exec os (call (PreemptBatchTaskCancel b p)) w).2.
Proof.
  unfold call. rewrite exec_call, exec_ret. unfold answer.
  destruct (hd Normal os); cbn; [|discriminate..]. intros [= <-] Hn.
  destruct (List.filter _ _) as [|r l] eqn:E; [done|].
  assert (In r (List.filter (preempt_where b p) (w_tasks w))) as Hin by (rewrite E; by left).
  apply filter_In in Hin as [Hin Hw]. exists (preempt_assign (w_now w) r).
  split; [|by apply preempt_where_row in Hw as (? & ? & _)].
  apply list_elem_of_fmap. exists r. split; [by rewrite Hw|by apply list_elem_of_In].
Qed.

(** Nothing was sent, or the row is claimed. *)
Definition sent_after_claim (b p : string) (w w' : world) : Prop :=
  w_sent w' = w_sent w \/ claimed b p w'.

Lemma claimed_kept {A} b p (q : prog batchE A) os w :
  all_calls keeps_tasks q -> claimed b p w -> claimed b p (exec os q w).2.
Proof.
  intros Hq Hc. destruct (exec_stable keeps_tasks same_tasks (fun R e w => same_tasks_handle R e w) q Hq os w) as [Ht _].
  unfold claimed. by rewrite Ht.
Qed.

Section Upstream.
Context `{MapOrder}.

Lemma keeps_cancel_upstream m b prev t : all_calls keeps_tasks (cancel_upstream m b prev t).
Proof. unfold cancel_upstream, cancel_fails. calls_go (fun R (e : batchE R) (H : keeps_tasks R e) => H). Qed.

Lemma sent_recordCancel os m b prev err w :
  w_sent (exec os (recordCancelOperation m b prev err) w).2 = w_sent w.
Proof.
  unfold recordCancelOperation. destruct (has_operationLog m); [|done].
  unfold call. rewrite exec_call, exec_ret. by destruct (hd Normal os).
Qed.

Lemma sent_cancel_fails {A} os m b prev err w :
  w_sent (exec os (cancel_fails (A := A) m b prev err) w).2 = w_sent w.
Proof. unfold cancel_fails. rewrite exec_bind, exec_ret. apply sent_recordCancel. Qed.

Lemma sent_cancel_conflict os m b p prev w :
  sent_after_claim b p w (exec os (cancel_conflict m b p prev) w).2.
Proof.
  unfold cancel_conflict. rewrite exec_bind.
  rewrite (exec_reads (FetchTask m b p false)) by apply reads_FetchTask.
  destruct (exec os (FetchTask m b p false) w).1 as [[t|]|e] eqn:E;
    [|left; apply sent_cancel_fails..].
  case_bool_decide as Ec; [|left; apply sent_cancel_fails].
  right. apply claimed_kept; [apply keeps_cancel_upstream|].
  apply FetchTask_row in E as (r & Hin & -> & Hb & Hp). exists r. auto.
Qed.

Lemma sent_preempt os b p w : w_sent (exec os (call (PreemptBatchTaskCancel b p)) w).2 = w_sent w.
Proof. unfold call. rewrite exec_call, exec_ret. by destruct (hd Normal os). Qed.

Lemma sent_upsert t w : w_sent (upsert_task t w).2 = w_sent w.
Proof. unfold upsert_task. by repeat case_match. Qed.

Lemma sent_preempt_again os b p t w :
  w_sent (exec os (preempt_again b p t) w).2 = w_sent w /\
  forall n, (exec os (preempt_again b p t) w).1 = Ok n -> n <> 0%Z ->
    claimed b p (exec os (preempt_again b p t) w).2.
Proof.
  unfold preempt_again. destruct (ID t =? 0)%Z; [|split; [done|]; rewrite exec_ret; intros n [= <-]; done].
  rewrite exec_bind.
  assert (w_sent (exec os (call (UpsertBatchTask t)) w).2 = w_sent w) as Hs.
  { unfold call. rewrite exec_call, exec_ret. cbn [snd]. unfold answer.
    destruct (hd Normal os); cbn; [apply sent_upsert|done|apply sent_upsert]. }
  destruct (exec os (call (UpsertBatchTask t)) w).1; [|rewrite exec_ret; split; [done|intros n [= <-]; done]].
  split; [by rewrite sent_preempt|]. intros n. apply preempt_claims.
Qed.

Lemma sent_Cancel os m b p w : sent_after_claim b p w (exec os (Cancel m b p) w).2.
Proof.
  unfold Cancel. rewrite exec_bind.
  rewrite (exec_reads (FetchTask m b p true)) by apply reads_FetchTask.
  set (os1 := leftover _ _ _). clearbody os1.
  destruct (exec os (FetchTask m b p true) w).1 as [[t|]|e]; [|left; apply sent_cancel_fails..].
  rewrite exec_bind. set (os2 := leftover _ _ _). clearbody os2.
  pose proof (sent_preempt os1 b p w) as Hs. pose proof (preempt_claims os1 b p w) as Hc.
  destruct (exec os1 _ w) as [[n|e] w1]; cbn [fst snd] in *;
    [|left; by rewrite sent_cancel_fails].
  destruct (n =? 0)%Z eqn:En.
  - clear Hc. rewrite exec_bind. set (os3 := leftover _ _ _). clearbody os3.
    destruct (sent_preempt_again os2 b p t w1) as [Hs2 Hc2].
    destruct (exec os2 _ w1) as [[k|e] w2]; cbn [fst snd] in *;
      [|left; rewrite sent_cancel_fails; congruence].
    destruct (k =? 0)%Z eqn:Ek.
    + destruct (sent_cancel_conflict os3 m b p (Status t) w2) as [Hx|Hx]; [left; congruence|by right].
    + right. apply claimed_kept; [apply keeps_cancel_upstream|].
      apply (Hc2 k); [done|]. by apply Z.eqb_neq.
  - right. apply claimed_kept; [apply keeps_cancel_upstream|].
    apply (Hc n); [done|]. by apply Z.eqb_neq.
Qed.
End Upstream.

(** C22: the provider is asked to cancel only a claimed task.  Whatever calls
    of [Cancel] fail, if it sent any request upstream then the row of the
    batch stands at [cancelling] afterwards: a lost preemption, a conflict or
    a database error never reaches the provider. *)
Theorem cancel_claims_before_sending `{MapOrder} (os : list outcome) (m : Manager) (b p : string) (w : world) :
  w_sent (exec os (Cancel m b p) w).2 <> w_sent w -> claimed b p (exec os (Cancel m b p) w).2.
Proof. intros Hs. destruct (sent_Cancel os m b p w) as [Hx|Hx]; [done|exact Hx]. Qed.

Lemma cancel_claims_before_sending_witness :
  claimed "b1" "demo" (exec [] (Cancel sample_manager "b1" "demo") running_world).2.
Proof. apply (cancel_claims_before_sending [] sample_manager). vm_compute. discriminate. Defined.
