(* ===== verification/BatchSettleSpec.v ===== *)
(** The usage totals of a result file: the buffered scanning loop against a
    definition on the lines of the file, and what the totals add up to; then the
    settlement of one task, on the paths it can take. *)
From Stdlib Require Import ZArith Lia Ascii SpecFloat.
From stdpp Require Import base tactics numbers list strings gmap option.
From S2P Require Import Prelude GoStrings GoJson Prog BatchTypes BatchStore BatchView BatchManager BatchAdvance BatchSettle BatchJob BatchSettleSafety BatchStatusSafety BatchRelease BatchCancelSafety.

Local Open Scope string_scope.

(** * Reference: the lines of a file *)

(** The lines that end in a newline, without it, and the rest. *)
Fixpoint split_lines (s : string) : list string * string :=
  match s with
  | EmptyString => ([], EmptyString)
  | String c r =>
      let '(ls, tail) := split_lines r in
      if ascii_dec c newline then (EmptyString :: ls, tail)
      else match ls with
           | [] => ([], String c tail)
           | l :: ls' => (String c l :: ls', tail)
           end
  end.

(** Every line of the file, the last one also when it has no newline. *)
Definition file_lines (s : string) : list string :=
  let '(ls, tail) := split_lines s in ls ++ [tail].

(** Lines within the limit are handled in order, longer ones are dropped. *)
Definition within (maxLineBytes : Z) (l : string) : bool := negb (maxLineBytes <? slen l)%Z.
Definition usage_of_lines (maxLineBytes : Z) (ls : list string) : usageTotals :=
  fold_left (fun t l => handleUsageLine l t) (List.filter (within maxLineBytes) ls) noTotals.

(** * The scanning loop *)

Lemma split_lines_Cut s :
  match Cut s newline with
  | Some (l, rest) => split_lines s = (l :: (split_lines rest).1, (split_lines rest).2)
  | None => split_lines s = ([], s)
  end.
Proof.
  induction s as [|c s IH]; cbn [Cut split_lines]; [done|].
  destruct (ascii_dec c newline) as [->|Hne].
  - by destruct (split_lines s).
  - destruct (Cut s newline) as [[l rest]|]; by rewrite IH.
Qed.

Lemma length_append (a b : string) : String.length (a +:+ b) = String.length a + String.length b.
Proof. induction a as [|c a IH]; simpl; [done|]. by f_equal. Qed.

Lemma Cut_shorter s sep a b : Cut s sep = Some (a, b) -> String.length b < String.length s.
Proof. intros [-> _]%Cut_Some. rewrite length_append. simpl. lia. Qed.

Lemma handle_blank l t : TrimSpace l = EmptyString -> handleUsageLine l t = t.
Proof. unfold handleUsageLine. by intros ->. Qed.

(** The loop starts every round with nothing pending: a round that goes on
    has read a whole line. *)
Lemma jsonl_loop_spec fuel mx s broken t : String.length s < fuel ->
  jsonl_loop fuel mx s broken EmptyString false t =
  if broken then Err TransportError
  else Ok (fold_left (fun t l => handleUsageLine l t) (List.filter (within mx) (file_lines s)) t).
Proof.
  revert s t. induction fuel as [|fuel IH]; intros s t Hlen; [lia|].
  cbn [jsonl_loop]. unfold file_lines. pose proof (split_lines_Cut s) as Hs.
  destruct (Cut s newline) as [[l rest]|] eqn:Ec.
  - apply Cut_shorter in Ec. rewrite Hs. cbn [orb].
    assert (forall t', jsonl_loop fuel mx rest broken EmptyString false t' =
      if broken then Err TransportError
      else Ok (fold_left (fun t l => handleUsageLine l t)
                 (List.filter (within mx) ((split_lines rest).1 ++ [(split_lines rest).2])) t')) as Hrest.
    { intros t'. rewrite IH by lia. unfold file_lines. by destruct (split_lines rest). }
    cbn [app List.filter]. change (within mx l) with (negb (mx <? slen l)%Z). change (slen EmptyString + slen l)%Z with (slen l).
    destruct (mx <? slen l)%Z; cbn [negb fold_left]; apply Hrest.
  - rewrite Hs. cbn [app List.filter orb]. unfold within.
    change (slen EmptyString + slen s)%Z with (slen s).
    destruct (decide (s = EmptyString)) as [->|Hne].
    + rewrite bool_decide_eq_true_2 by done. cbn [negb andb].
      change (bool_decide (TrimSpace EmptyString = EmptyString)) with true. cbn [negb].
      destruct broken; [done|]. case_match; [|done]. reflexivity.
    + rewrite bool_decide_eq_false_2 by done. cbn [negb].
      destruct (mx <? slen s)%Z; cbn [negb andb].
      * by destruct broken.
      * destruct broken; [done|]. cbn [fold_left]. change (EmptyString +:+ s) with s.
        case_bool_decide as E; [|done]. by rewrite handle_blank.
Qed.

(** C23: the streaming parser computes the totals of the file's lines.  For
    every file and every line limit, the loop over buffered chunks ends and
    gives what handling the lines within the limit one after the other gives
    (the last line counts without its newline, blank lines count for
    nothing); a connection that breaks off gives an error and no totals. *)
Theorem parseJSONLUsage_lines (body : string) (broken : bool) (maxLineBytes : Z) :
  parseJSONLUsage body broken maxLineBytes =
  if broken then Err TransportError else Ok (usage_of_lines maxLineBytes (file_lines body)).
Proof. apply jsonl_loop_spec. lia. Qed.

(** * What the totals add up to *)

(** The usage that a line reports, if it does. *)
Definition line_usage (l : string) : option usageTokens :=
  row ← unmarshal_row (TrimSpace l); (usageAndModel row).1.

Definition tokens_in (l : string) : Z := match line_usage l with Some u => PromptTokens u | None => 0 end.
Definition tokens_out (l : string) : Z := match line_usage l with Some u => CompletionTokens u | None => 0 end.
Definition reports (l : string) : bool := match line_usage l with Some _ => true | None => false end.

Definition sum_by (f : string -> Z) (ls : list string) : Z := fold_right (fun l n => f l + n)%Z 0%Z ls.

(** Totals that are int64 values. *)
Definition totals_ok (t : usageTotals) : Prop :=
  int64_ok (inputTokens t) = true /\ int64_ok (outputTokens t) = true.

Lemma unmarshal_blank : unmarshal_row EmptyString = None.
Proof. reflexivity. Qed.

Lemma handle_line_sum l t : totals_ok t ->
  let t' := handleUsageLine l t in
  totals_ok t' /\
  inputTokens t' = wrap64 (inputTokens t + tokens_in l) /\
  outputTokens t' = wrap64 (outputTokens t + tokens_out l) /\
  parsedLines t' = (parsedLines t + if reports l then 1 else 0)%Z.
Proof.
  intros [Hi Ho]. cbv zeta. unfold handleUsageLine, tokens_in, tokens_out, reports, line_usage.
  assert (forall t', inputTokens t' = inputTokens t -> outputTokens t' = outputTokens t ->
    parsedLines t' = parsedLines t -> totals_ok t' /\
    inputTokens t' = wrap64 (inputTokens t + 0) /\ outputTokens t' = wrap64 (outputTokens t + 0) /\
    parsedLines t' = (parsedLines t + 0)%Z) as Hsame.
  { intros t' E1 E2 E3. unfold totals_ok. rewrite E1, E2, E3, !Z.add_0_r, !wrap64_id; done. }
  destruct (TrimSpace l) as [|c r] eqn:E; [rewrite unmarshal_blank; by apply Hsame|].
  destruct (unmarshal_row (String c r)) as [row|]; cbn [mbind option_bind]; [|by apply Hsame].
  destruct (Response row) as [resp|] eqn:Er.
  - destruct (usageAndModel row) as [[u|] md] eqn:Eu; cbn [fst]; [|by apply Hsame].
    unfold totals_ok. cbn. by rewrite !wrap64_ok.
  - assert ((usageAndModel row).1 = None) as -> by (unfold usageAndModel; by rewrite Er).
    by apply Hsame.
Qed.

Lemma wrap64_add a b : wrap64 (wrap64 a + b) = wrap64 (a + b).
Proof.
  unfold wrap64. replace ((a + 2 ^ 63) mod 2 ^ 64 - 2 ^ 63 + b + 2 ^ 63)%Z
    with ((a + 2 ^ 63) mod 2 ^ 64 + b)%Z by lia.
  rewrite Zplus_mod_idemp_l. do 2 f_equal. lia.
Qed.

Lemma handle_lines_sum ls t : totals_ok t ->
  let t' := fold_left (fun t l => handleUsageLine l t) ls t in
  inputTokens t' = wrap64 (inputTokens t + sum_by tokens_in ls) /\
  outputTokens t' = wrap64 (outputTokens t + sum_by tokens_out ls) /\
  parsedLines t' = (parsedLines t + Z.of_nat (length (List.filter reports ls)))%Z.
Proof.
  revert t. induction ls as [|l ls IH]; intros t Ht; cbn [fold_left sum_by fold_right List.filter].
  - destruct Ht. cbn. by rewrite !Z.add_0_r, !wrap64_id.
  - destruct (handle_line_sum l t Ht) as (Hok & Hi & Ho & Hp). destruct (IH _ Hok) as (IHi & IHo & IHp).
    cbv zeta in *. rewrite IHi, IHo, IHp, Hi, Ho, Hp, !wrap64_add. clear.
    repeat split; [f_equal; unfold sum_by; lia..|]. destruct (reports l); cbn [length]; lia.
Qed.

(** The totals are the sums over the lines.  The token totals of a file
    are the sums of what its lines within the limit report, as int64 values,
    and the number of parsed lines is the number of lines that report a
    usage. *)
Theorem usage_totals_sum (body : string) (maxLineBytes : Z) :
  let ls := List.filter (within maxLineBytes) (file_lines body) in
  exists t, parseJSONLUsage body false maxLineBytes = Ok t /\
    inputTokens t = wrap64 (sum_by tokens_in ls) /\
    outputTokens t = wrap64 (sum_by tokens_out ls) /\
    parsedLines t = Z.of_nat (length (List.filter reports ls)).
Proof.
  cbv zeta. exists (usage_of_lines maxLineBytes (file_lines body)).
  unfold parseJSONLUsage. rewrite jsonl_loop_spec by lia. split; [done|].
  unfold usage_of_lines. apply (handle_lines_sum _ noTotals). done.
Qed.

(** The settlement of one task, on the paths it can take. *)

(** * What a release leaves alone *)

(** Everything but Redis is the same, and there every key that is neither a
    mirror nor a book. *)
Definition release_scope (w w' : world) : Prop :=
  (exists m, w' = set_redis w m) /\
  forall k, (forall plan, k <> BatchReserveMirrorKey plan) -> (forall b, k <> BatchReserveBatchKey b) ->
    w_redis w' !! k = w_redis w !! k.

#[export] Instance release_scope_preorder : PreOrder release_scope.
Proof.
  split.
  - intros w. split; [|done]. exists (w_redis w). by rewrite set_redis_id.
  - intros w1 w2 w3 [[m1 ->] H1] [[m2 ->] H2]. split; [by exists m2|].
    intros k Hp Hb. by rewrite H2, H1.
Qed.

(** The calls of a release, with the keys they touch. *)
Definition release_calls (R : Type) (e : batchE R) : Prop :=
  match e with
  | HGetAll _ => True
  | ReserveDecr key _ => exists plan, key = BatchReserveMirrorKey plan
  | Delete key => exists b, key = BatchReserveBatchKey b
  | _ => False
  end.

Lemma release_scope_handle R (e : batchE R) w : release_calls R e -> release_scope w (handle e w).2.
Proof.
  destruct e; intros He; cbn [release_calls] in He; try done;
    cbn [handle batch_interp batch_handle snd].
  - destruct He as [plan ->]. rewrite reserve_decr_spec. split; [by eexists|].
    intros k Hp _. cbn. by rewrite lookup_partial_alter_ne by (symmetry; apply Hp).
  - destruct He as [b ->]. split; [by eexists|]. intros k _ Hb. cbn.
    by rewrite lookup_delete_ne by (symmetry; apply Hb).
Qed.

Lemma release_scope_exec `{MapOrder} b os w : release_scope w (exec os (releaseReserve b) w).2.
Proof.
  apply (exec_stable release_calls release_scope); [apply release_scope_handle|].
  unfold releaseReserve. repeat calls_step; simpl; eauto.
Qed.

(** * The download *)

(** The answer of the provider to the download request. *)
Definition download_answer (a : providerAccess) (t : BatchTask) (w : world) : result http_resp :=
  let url := downloadURL a (OutputFileID t) in
  w_upstream w (length (w_sent w)) (mkReq "GET" url (Some (authHeader a, authValue a))).

Definition downloaded (a : providerAccess) (t : BatchTask) (w : world) : world :=
  let url := downloadURL a (OutputFileID t) in
  set_sent w (w_sent w ++ [mkReq "GET" url (Some (authHeader a, authValue a))]).

Lemma exec_download m a t w resp u :
  w_urlok w (downloadURL a (OutputFileID t)) = true -> authHeader a <> EmptyString ->
  download_answer a t w = Ok resp -> ok_status (rs_status resp) = true ->
  parseJSONLUsage (rs_body resp) (rs_broken resp) (maxOutputLineBytes m) = Ok u ->
  exec [] (downloadAndParseUsage m a (downloadURL a (OutputFileID t))) w =
  (Ok (u, rs_status resp), downloaded a t w).
Proof.
  intros Hurl Hh Hans Hst Hu. unfold downloadAndParseUsage. cbn [bind call]. run_call.
  cbn [hd tl answer handle batch_interp batch_handle fst snd]. rewrite Hurl. run_call.
  cbn [hd tl answer handle batch_interp batch_handle]. unfold sendable. cbn [rq_header].
  rewrite !bool_decide_eq_false_2 by done. cbn [negb fst snd].
  unfold download_answer in Hans. rewrite Hans, Hst. cbn [negb]. by rewrite Hu.
Qed.

(** * The amount *)

(** The batch price of the model, when it can be charged. *)
Definition batch_price (t : BatchTask) (u : usageTotals) (w : world) : option ModelPrice :=
  w_prices w !! (Provider t, u_model u, "batch").

Definition in_price (p : ModelPrice) : spec_float := default float_zero (mp_Prices p !! PriceInputCostPerToken).
Definition out_price (p : ModelPrice) : spec_float := default float_zero (mp_Prices p !! PriceOutputCostPerToken).
Definition free_price (p : ModelPrice) : bool := SFleb (in_price p) float_zero && SFleb (out_price p) float_zero.

(** What a usage costs: nothing when the model or its price is not known. *)
Definition settle_amount (Calc : Z -> spec_float -> Z) (m : Manager) (t : BatchTask) (u : usageTotals) (w : world) : Z :=
  if negb (has_priceQuerier m) || bool_decide (u_model u = EmptyString) then 0
  else match batch_price t u w with
       | None => 0
       | Some p => if free_price p then 0
                   else wrap64 (Calc (inputTokens u) (in_price p) + Calc (outputTokens u) (out_price p))
       end.

Lemma exec_calcSettleUnits Calc m t u w :
  exists miss, exec [] (calcSettleUnits Calc m t u) w = (Ok (settle_amount Calc m t u w, miss), w).
Proof.
  unfold calcSettleUnits, settle_amount. destruct (_ || _); [by exists true|].
  cbn [bind call]. run_call. cbn [hd tl answer handle batch_interp batch_handle fst snd].
  unfold batch_price. destruct (w_prices w !! _) as [p|]; [|by exists true].
  fold (in_price p) (out_price p). fold (free_price p). by destruct (free_price p); eexists.
Qed.

(** * Write-back and conditional update *)

Lemma exec_settle_commit `{MapOrder} t u n w h :
  w_redis w !! BatchTaskKey (BatchID t) = h -> (forall s, h <> Some (RStr s)) ->
  exists w', exec [] (settle_commit t u n) w = (Ok (0 <? Z.of_nat (reserved_rows (BatchID t) (ProductName t) w))%Z, w') /\
    w_tasks w' = map (fun r => if settle_where (BatchID t) (ProductName t) SettleStatusReserved r
                               then settle_assign (w_now w) (settle_patch t u n (default (w_now w) (TerminalAt t))) r
                               else r) (w_tasks w) /\
    w_redis w' !! BatchTaskKey (BatchID t) =
      Some (RHash (fold_left (fun m '(k, v) => <[k := v]> m) (settle_fields u n)
                     match h with Some (RHash x) => x | _ => ∅ end)).
Proof.
  intros Hh Hstr. unfold settle_commit. cbn [bind call]. run_call.
  cbn [hd tl answer handle batch_interp batch_handle].
  set (hash := fold_left _ (settle_fields u n) _).
  assert (redis_hset (BatchTaskKey (BatchID t)) (settle_fields u n) w =
          (Ok tt, set_redis w (<[BatchTaskKey (BatchID t) := RHash hash]> (w_redis w)))) as Hset.
  { unfold redis_hset, hash. rewrite Hh. destruct h as [[x|s]|]; [done| |done]. by destruct (Hstr s). }
  rewrite Hset. cbn [fst snd]. rewrite exec_bind_nil.
  pose proof (release_scope_exec (BatchID t) [] (set_redis w (<[BatchTaskKey (BatchID t) := RHash hash]> (w_redis w))))
    as [[mp Emp] Hkeys].
  destruct (exec [] (releaseReserve (BatchID t)) _) as [rr w2]. cbn [fst snd] in *. subst w2.
  rewrite exec_bind_nil.
  assert (exec [] match TerminalAt t with Some x => Ret x | None => call Now end
            (set_redis (set_redis w (<[BatchTaskKey (BatchID t):=RHash hash]> (w_redis w))) mp) =
          (default (w_now w) (TerminalAt t), set_redis w mp)) as ->.
  { destruct (TerminalAt t); [done|]. reflexivity. }
  cbn [fst snd]. rewrite exec_call.
  cbn [hd tl answer handle batch_interp batch_handle update_tasks update_rows fst snd]. rewrite exec_ret.
  eexists. split; [reflexivity|]. split; [reflexivity|]. cbn [w_redis set_redis set_tasks].
  cbn [w_redis set_redis] in Hkeys. rewrite Hkeys by done. apply lookup_insert_eq.
Qed.

(** A settlement that comes through.  The batch is unclaimed, the
    provider's access is known and sends a header, the output file downloads
    completely and reports usable lines: then the task's rows still
    [reserved] become [settled] with the summed usage and its price, the
    Redis hash of the task carries the same figures, and the call reports
    whether it was the one to advance a row. *)
Theorem settle_success `{MapOrder} (Calc : Z -> spec_float -> Z) (m : Manager)
  (cache : gmap string providerAccess) (a : providerAccess) (t : BatchTask) (resp : http_resp) (u : usageTotals)
  (w : world) :
  w_redis w !! BatchSettledKey (BatchID t) = None ->
  (forall s, w_redis w !! BatchTaskKey (BatchID t) <> Some (RStr s)) ->
  cache !! Provider t = Some a -> authHeader a <> EmptyString -> OutputFileID t <> EmptyString ->
  w_urlok w (downloadURL a (OutputFileID t)) = true ->
  download_answer a t w = Ok resp -> ok_status (rs_status resp) = true ->
  parseJSONLUsage (rs_body resp) (rs_broken resp) (maxOutputLineBytes m) = Ok u ->
  (parsedLines u <> 0 \/ noUsageLines u <= 0)%Z ->
  let units := settle_amount Calc m t u w in
  let patch := settle_patch t u units (default (w_now w) (TerminalAt t)) in
  exists w',
    exec [] (settleOneTask Calc m cache t) w =
      ((Ok (0 <? Z.of_nat (reserved_rows (BatchID t) (ProductName t) w))%Z, cache), w') /\
    w_tasks w' = map (fun r => if settle_where (BatchID t) (ProductName t) SettleStatusReserved r
                               then settle_assign (w_now w) patch r else r) (w_tasks w) /\
    exists h, w_redis w' !! BatchTaskKey (BatchID t) = Some (RHash h) /\
      h !! "usage_in" = Some (FormatInt (inputTokens u)) /\
      h !! "usage_out" = Some (FormatInt (outputTokens u)) /\
      h !! "settle_units" = Some (FormatInt units) /\
      h !! "settle_status" = Some SettleStatusSettled.
Proof.
  intros Hc Hs Ha Hh Hf Hurl Hans Hst Hu Hvalve units patch.
  unfold settleOneTask. cbn [bind call]. run_call.
  cbn [hd tl answer handle batch_interp batch_handle]. unfold redis_setnx. rewrite Hc. cbn [fst snd].
  set (w1 := set_redis w _). unfold resolveProviderAccessCached. rewrite Ha. cbn [bind].
  rewrite bool_decide_eq_false_2 by done. rewrite exec_bind_nil. unfold settle_file.
  rewrite exec_bind_nil, (exec_download m a t w1 resp u Hurl Hh Hans Hst Hu). cbn [fst snd].
  replace (rs_status resp =? 404)%Z with false by (unfold ok_status in Hst; lia).
  rewrite Hst. cbn [negb].
  replace ((parsedLines u =? 0)%Z && (0 <? noUsageLines u)%Z) with false by lia.
  rewrite exec_bind_nil. destruct (exec_calcSettleUnits Calc m t u (downloaded a t w1)) as [miss ->].
  cbn [fst snd]. change (settle_amount Calc m t u (downloaded a t w1)) with units.
  assert (w_redis (downloaded a t w1) !! BatchTaskKey (BatchID t) = w_redis w !! BatchTaskKey (BatchID t)) as Hk.
  { cbn. by rewrite lookup_insert_ne. }
  destruct (exec_settle_commit t u units (downloaded a t w1) _ Hk Hs) as (w' & -> & Ht & Hr).
  cbn [fst snd]. rewrite exec_ret. exists w'. split; [done|]. split; [exact Ht|].
  eexists. split; [exact Hr|]. unfold settle_fields. cbn [fold_left].
  repeat split; by simplify_map_eq.
Qed.

Definition sample_access : providerAccess :=
  mkAccess "http://10.0.0.1:8080" "/v1" "Authorization" "Bearer sk-1".
Definition sample_totals : usageTotals := mkTotals 30 7 "m1" 2 0 0.

Lemma settle_success_witness :
  exists w', exec [] (settleOneTask unit_cost sample_manager {[ "prov" := sample_access ]} task1) world1 =
      ((Ok true, {[ "prov" := sample_access ]}), w') /\
    map t_SettleUnits (w_tasks w') = [37%Z].
Proof.
  destruct (settle_success unit_cost sample_manager {[ "prov" := sample_access ]} sample_access task1
              (mkResp 200 sample_body false) sample_totals world1) as (w' & E & Ht & _);
    try (vm_compute; reflexivity); try done.
  - left. discriminate.
  - exists w'. split; [exact E|]. rewrite Ht. reflexivity.
Defined.

(** * The safety valve *)

(** The safety valve.  A complete result file in which no line reports
    usage although some carry a response is not settled: the call reports no
    settlement, gives the claim back, and leaves rows, hash and reservation
    as they were; only the download request was sent. *)
Theorem settle_safety_valve `{MapOrder} (Calc : Z -> spec_float -> Z) (m : Manager)
  (cache : gmap string providerAccess) (a : providerAccess) (t : BatchTask) (resp : http_resp) (u : usageTotals)
  (w : world) :
  w_redis w !! BatchSettledKey (BatchID t) = None ->
  cache !! Provider t = Some a -> authHeader a <> EmptyString -> OutputFileID t <> EmptyString ->
  w_urlok w (downloadURL a (OutputFileID t)) = true ->
  download_answer a t w = Ok resp -> ok_status (rs_status resp) = true ->
  parseJSONLUsage (rs_body resp) (rs_broken resp) (maxOutputLineBytes m) = Ok u ->
  parsedLines u = 0%Z -> (0 < noUsageLines u)%Z ->
  exec [] (settleOneTask Calc m cache t) w = ((Ok false, cache), downloaded a t w).
Proof.
  intros Hc Ha Hh Hf Hurl Hans Hst Hu Hp Hn.
  unfold settleOneTask. cbn [bind call]. run_call.
  cbn [hd tl answer handle batch_interp batch_handle]. unfold redis_setnx. rewrite Hc. cbn [fst snd].
  set (w1 := set_redis w _). unfold resolveProviderAccessCached. rewrite Ha. cbn [bind].
  rewrite bool_decide_eq_false_2 by done. rewrite exec_bind_nil. unfold settle_file.
  rewrite exec_bind_nil, (exec_download m a t w1 resp u Hurl Hh Hans Hst Hu). cbn [fst snd].
  replace (rs_status resp =? 404)%Z with false by (unfold ok_status in Hst; lia).
  rewrite Hst, Hp. cbn [negb]. replace ((0 =? 0)%Z && (0 <? noUsageLines u)%Z) with true by lia.
  unfold unclaim. cbn [bind call]. run_call. cbn. do 2 f_equal.
  unfold downloaded, w1, set_redis, set_sent. cbn. f_equal. by rewrite delete_insert_id.
Qed.

(** A result file whose only line carries a response without usage. *)
Definition bare_body : string := "{" +:+ field "response" ("{" +:+ field "model" (quoted "m1") +:+ "}") +:+ "}".
Definition bare_world : world :=
  mkWorld (w_tasks world1) 10 [] 1 (w_redis world1) (w_providers world1) (w_prices world1) (w_apiKeys world1)
    [] (fun _ _ => Ok (mkResp 200 bare_body false)) (fun _ => true) sample_now [] ∅.

Lemma settle_safety_valve_witness :
  exec [] (settleOneTask unit_cost sample_manager {[ "prov" := sample_access ]} task1) bare_world =
  ((Ok false, {[ "prov" := sample_access ]}), downloaded sample_access task1 bare_world).
Proof.
  apply (settle_safety_valve unit_cost sample_manager _ sample_access task1 (mkResp 200 bare_body false)
           (mkTotals 0 0 EmptyString 0 1 0)); try (vm_compute; reflexivity); done.
Defined.

(** * Providers without keys *)

(** The access of a provider that has no keys carries no header. *)
Lemma access_of_keyless name key p a :
  pr_Keys p = [] -> access_of name key p = Ok a -> authHeader a = EmptyString.
Proof. unfold access_of. intros ->. by destruct (pickProviderInstance p); intros [= <-]. Qed.

Lemma exec_resolve_keyless os m cache t p w :
  w_providers w !! Provider t = Some p -> pr_Keys p = [] -> cache !! Provider t = None ->
  forall a c, (exec os (resolveProviderAccessCached m cache (Provider t) (KeyName t)) w).1 = (Ok a, c) ->
    authHeader a = EmptyString.
Proof.
  intros Hp Hk Hc a c. unfold resolveProviderAccessCached, resolveProviderAccess. rewrite Hc.
  destruct (has_providerQuerier m); cbn [negb bind call]; [|by rewrite exec_ret].
  run_call. unfold answer.
  destruct (hd Normal os); cbn; [|by rewrite exec_ret..]. rewrite Hp. cbn [bind].
  destruct (access_of _ _ p) as [a'|e] eqn:Ea; rewrite exec_ret; intros [= <- <-].
  by eapply access_of_keyless.
Qed.

(** A request whose header has no name is not sent. *)
Lemma download_keyless os m a url w : authHeader a = EmptyString ->
  exists e, (exec os (downloadAndParseUsage m a url) w).1 = Err e /\
            (exec os (downloadAndParseUsage m a url) w).2 = w.
Proof.
  intros Hh. unfold downloadAndParseUsage. cbn [bind call]. rewrite !exec_call.
  assert ((answer (hd Normal os) (NewRequest "GET" url) w).2 = w) as E by (by destruct (hd Normal os)).
  rewrite E. destruct (answer (hd Normal os) (NewRequest "GET" url) w).1 as [x|e]; [|by eexists].
  rewrite !exec_call.
  assert (forall o, answer o (HttpDo (mkReq "GET" url (Some (authHeader a, authValue a)))) w =
                    (Err TransportError, w)) as ->.
  { intros o. unfold answer. cbn. rewrite Hh. by destruct o. }
  by eexists.
Qed.

(** No settlement is reported and no request was sent. *)
Definition unsettled (w : world) (out : (result bool * gmap string providerAccess) * world) : Prop :=
  out.1.1 <> Ok true /\ w_sent out.2 = w_sent w.

(** A task of a provider without keys is never settled.  The download
    request carries a header with an empty name, which is refused before it
    is sent (the cancel and query requests leave the header out): whatever
    happens, the settlement of a task with an output file neither reports a
    settlement nor sends a request. *)
Theorem keyless_provider_never_settles `{MapOrder} (Calc : Z -> spec_float -> Z) (m : Manager)
  (cache : gmap string providerAccess) (t : BatchTask) (p : ProviderRec) (os : list outcome) (w : world) :
  w_providers w !! Provider t = Some p -> pr_Keys p = [] -> cache !! Provider t = None ->
  OutputFileID t <> EmptyString ->
  unsettled w (exec os (settleOneTask Calc m cache t) w).
Proof.
  intros Hp Hk Hc Hf. unfold unsettled. destruct (exec os _ w) as [rc w'] eqn:E. revert E.
  unfold settleOneTask. cbn [bind call]. rewrite exec_call.
  set (a1 := answer _ (SetNXWithTTL _ _) w).
  assert (w_sent a1.2 = w_sent w /\ w_providers a1.2 = w_providers w) as [Hs1 Hp1].
  { unfold a1, answer. cbn. unfold redis_setnx. by destruct (hd Normal os), (w_redis w !! BatchSettledKey (BatchID t)). }
  destruct a1 as [[[]|e] w1]; cbn [fst snd] in *; [|rewrite exec_ret; by intros [= <- <-]..].
  rewrite exec_bind. set (os2 := leftover _ _ w1). set (r := exec (tl os) _ w1).
  assert (r.2 = w1) as Hw1.
  { apply exec_reads. unfold resolveProviderAccessCached, resolveProviderAccess. repeat calls_step; exact I. }
  assert (forall a c, r.1 = (Ok a, c) -> authHeader a = EmptyString) as Hauth.
  { apply exec_resolve_keyless with p; [by rewrite Hp1|done..]. }
  assert (forall (os : list outcome) A (x : A) w, exec os (unclaim (BatchID t) x) w =
            (x, (answer (hd Normal os) (Delete (BatchSettledKey (BatchID t))) w).2)) as Hun.
  { intros os' A x w2. unfold unclaim. cbn [bind call]. by rewrite exec_call, exec_ret. }
  assert (forall o w, w_sent (answer o (Delete (BatchSettledKey (BatchID t))) w).2 = w_sent w) as Hds.
  { by intros [] w2. }
  destruct r as [[[a|e] c] w2]; cbn [fst snd] in *; subst w2.
  - rewrite bool_decide_eq_false_2 by done. unfold settle_file.
    rewrite exec_bind, exec_ret, exec_bind.
    clearbody os2.
    destruct (download_keyless os2 m a (downloadURL a (OutputFileID t)) w1 (Hauth _ _ eq_refl)) as (e & E1 & E2).
    rewrite E1, E2, Hun. intros [= <- <-]. cbn [fst snd]. by rewrite Hds.
  - rewrite Hun. intros [= <- <-]. cbn [fst]. by rewrite Hds.
Qed.

Definition keyless_world : world :=
  sample_world [sample_row 1 "b1" TaskStatusCompleted SettleStatusReserved] [].

Lemma keyless_provider_never_settles_witness :
  unsettled keyless_world (exec [] (settleOneTask unit_cost sample_manager ∅ task1) keyless_world).
Proof.
  apply (keyless_provider_never_settles unit_cost sample_manager ∅ task1 (sample_provider [])); done.
Defined.

(** * The access cache of a settlement round *)

(** Every key name of the provider is answered with [a], and nothing is read. *)
Definition answers_all_keys (m : Manager) (c : gmap string providerAccess) (prov : string) (a : providerAccess) : Prop :=
  forall k os w, exec os (resolveProviderAccessCached m c prov k) w = ((Ok a, c), w).

(** Within one round, the provider key of the first task is used for all
    its tasks.  Once the access of a provider was resolved under one key
    name, resolving it under another gives the same access and reads
    nothing, whatever key the task itself names. *)
Theorem access_cache_ignores_key (m : Manager) (cache : gmap string providerAccess)
  (prov k1 : string) (os : list outcome) (w : world) (a : providerAccess) (c : gmap string providerAccess) :
  (exec os (resolveProviderAccessCached m cache prov k1) w).1 = (Ok a, c) ->
  answers_all_keys m c prov a.
Proof.
  unfold answers_all_keys, resolveProviderAccessCached. destruct (cache !! prov) as [a0|] eqn:E.
  - rewrite exec_ret. intros [= <- <-] k os' w'. by rewrite E.
  - rewrite exec_bind. destruct (exec os (resolveProviderAccess m prov k1) w).1; rewrite exec_ret; intros [= <- <-] k os' w'.
    by rewrite lookup_insert_eq.
Qed.

(** Two keys of one provider: the task that names the second is given the
    first one's access, not its own. *)
Definition two_keys : list ProviderKey := [mkProviderKey "main" "sk-1"; mkProviderKey "other" "sk-2"].

Lemma access_cache_ignores_key_witness :
  let w := sample_world [] two_keys in
  let c := {[ "prov" := sample_access ]} in
  exec [] (resolveProviderAccessCached sample_manager c "prov" "other") w = ((Ok sample_access, c), w) /\
  access_of "prov" "other" (sample_provider two_keys) <> Ok sample_access.
Proof.
  cbv zeta. split; [|vm_compute; discriminate].
  apply (access_cache_ignores_key sample_manager ∅ "prov" "main" [] (sample_world [] two_keys)).
  reflexivity.
Defined.
