(* ===== verification/BatchJobSpec.v ===== *)
(** Status advance keeps a cancel intent, the patches it computes, and the
    named lock keeps the cycles of several instances apart; and who holds the
    settlement claim. *)
From Stdlib Require Import ZArith Lia Ascii SpecFloat.
From stdpp Require Import base tactics numbers list strings gmap option.
From S2P Require Import Prelude GoStrings GoJson Prog BatchTypes BatchStore BatchView BatchManager BatchAdvance BatchSettle BatchJob BatchSettleSafety BatchStatusSafety BatchRelease.

Local Open Scope string_scope.

(** * The cancel intent under status advance *)

(** A status that a task being cancelled may move to. *)
Definition cancel_progress (s : string) : bool :=
  IsTerminalStatus s || bool_decide (s = TaskStatusCancelling).

Definition cancels_forward (R : Type) (e : batchE R) : Prop :=
  match e with
  | UpdateBatchTaskProgress _ patch => forall s, pp_Status patch = Some s -> cancel_progress s = true
  | _ => keeps_tasks R e
  end.

(** Every row keeps its status or moves to one that a cancelled task may
    have. *)
Definition forward (w w' : world) : Prop :=
  Forall2 (fun r r' => t_ID r' = t_ID r /\
    (t_Status r' = t_Status r \/ cancel_progress (t_Status r') = true)) (w_tasks w) (w_tasks w').

#[export] Instance forward_preorder : PreOrder forward.
Proof.
  split.
  - intros w. apply Forall_Forall2_diag, list.Forall_forall. auto.
  - intros w1 w2 w3 H1 H2. unfold forward in *. revert H2. generalize (w_tasks w3). clear w3.
    induction H1 as [|r1 r2 l1 l2 [E1 E2] _ IH]; intros l3 H2; inversion H2 as [|? r3 ? l3' [F1 F2]]; subst;
      constructor; [|by apply IH].
    split; [congruence|]. destruct F2 as [->|F2]; [exact E2|by right].
Qed.

Lemma forward_handle R (e : batchE R) w : cancels_forward R e -> forward w (handle e w).2.
Proof.
  intros He. destruct (decide (keeps_tasks R e)) as [Hk|Hk].
  { destruct (same_tasks_handle _ _ w Hk) as [Ht _]. unfold forward. rewrite Ht.
    apply Forall_Forall2_diag, list.Forall_forall. auto. }
  destruct e; cbn [cancels_forward keeps_tasks] in He, Hk; try done.
  apply Forall2_map_same. intros r. case_match; [|auto]. split; [done|]. cbn.
  destruct (pp_Status patch) as [s|]; [|by left]. right. by apply He.
Qed.

Lemma cancels_keeps R (e : batchE R) : keeps_tasks R e -> cancels_forward R e.
Proof. by destruct e. Qed.
#[export] Hint Resolve cancels_keeps : go.

(** The patch of a task being cancelled carries no other status. *)
Lemma advance_patch_forward t r now s : Status t = TaskStatusCancelling ->
  pp_Status (advance_patch t r (status_held t r) now) = Some s -> cancel_progress s = true.
Proof.
  intros Ht. unfold advance_patch, status_held, cancel_progress. cbn [pp_Status].
  rewrite Ht, bool_decide_eq_true_2 by done.
  change (IsTerminalStatus TaskStatusCancelling) with false. rewrite orb_false_r. cbn [andb].
  destruct (IsTerminalStatus (br_Status r)) eqn:E; cbn [negb andb].
  - intros [= <-]. by rewrite E.
  - case_bool_decide as Ec; cbn [negb]; [|done]. intros [= <-]. rewrite E.
    by rewrite bool_decide_eq_true_2.
Qed.

Lemma forward_advanceOneTask m t : Status t = TaskStatusCancelling ->
  all_calls cancels_forward (advanceOneTask m t).
Proof.
  intros Ht. unfold advanceOneTask, handleProviderAbsent. calls_go cancels_keeps.
  - cbn. intros st [= <-]. reflexivity.
  - cbn [cancels_forward]. intros st. by apply advance_patch_forward.
Qed.

(** Status advance holds a cancel intent.  Under every interleaving of
    advance programs for tasks that are being cancelled, with any calls
    failing and whatever the provider reports, a row keeps its status, or
    moves to a terminal one or to [cancelling]: none is set back to queued or
    in progress. *)
Theorem advance_holds_cancel (m : Manager) (ts : list BatchTask) (sched : list (nat * outcome)) (w : world) :
  Forall (fun t => Status t = TaskStatusCancelling) ts ->
  forward w (interleave sched (map (advanceOneTask m) ts) w).2.
Proof.
  intros Hts. apply (interleave_stable cancels_forward forward forward_handle).
  induction Hts as [|t ts Ht _ IH]; cbn [map]; constructor; [|exact IH]. by apply forward_advanceOneTask.
Qed.

Definition cancelling1 : TBatchTask := sample_row 1 "b1" TaskStatusCancelling SettleStatusReserved.

Lemma advance_holds_cancel_witness :
  let t := batchTaskParamToData cancelling1 in
  let w := sample_world [cancelling1] sample_keys in
  forward w (interleave [(0, Normal); (1, Normal); (0, FailAfter)]
               (map (advanceOneTask sample_manager) [t; t]) w).2.
Proof. apply (advance_holds_cancel sample_manager). repeat constructor. Defined.

(** * The named lock *)

Section Lock.
Context `{MapOrder} (CalcCostUnits : Z -> spec_float -> Z).

(** The stages of a cycle that does not get the lock. *)
Inductive locked_out (s0 : nat) : prog batchE (result unit) -> Prop :=
| lo_done r : locked_out s0 (Ret r)
| lo_start (k : result unit -> prog batchE (result unit)) :
    (forall r, locked_out s0 (k r)) -> locked_out s0 (Call DbConn k)
| lo_lock s (k : result bool -> prog batchE (result unit)) :
    s <> s0 -> (forall e, locked_out s0 (k (Err e))) -> locked_out s0 (k (Ok false)) ->
    locked_out s0 (Call (GetLock s batchJobLockName) k).

Lemma locked_out_RunOnce s0 fuel j : job_useMySQL j = true -> job_session j <> s0 ->
  locked_out s0 (RunOnce CalcCostUnits fuel j).
Proof.
  intros Hm Hs. unfold RunOnce. destruct (job_manager j) as [m|]; [|constructor].
  destruct (job_hasDB j); cbn [negb]; [|constructor]. rewrite Hm. cbn [bind call].
  constructor. intros [u|e]; cbn [bind]; [|constructor].
  constructor; [done|intros e|]; constructor.
Qed.

Lemma locked_out_step s0 o p w : locked_out s0 p -> w_locks w !! batchJobLockName = Some s0 ->
  locked_out s0 (step o p w).1 /\ (step o p w).2 = w.
Proof.
  intros Hp Hl. destruct Hp as [r|k Hk|s k Hs He Hf]; cbn [step].
  - split; [constructor|done].
  - destruct o; cbn; auto.
  - assert (handle (GetLock s batchJobLockName) w = (Ok false, w)) as Eh.
    { cbn. rewrite Hl. destruct (Nat.eqb_spec s0 s); [congruence|done]. }
    unfold answer. cbn [fault batch_interp batch_fault]. rewrite Eh. destruct o; cbn; auto.
Qed.
End Lock.

(** MySQL-backed instances whose sessions do not hold the lock. *)
Definition others (holder : nat) (js : list Job) : Prop :=
  Forall (fun j => job_useMySQL j = true /\ job_session j <> holder) js.

(** The lock keeps instances apart.  While another database session
    holds the job's named lock, cycles of MySQL-backed instances change
    nothing at all, in any number, under any interleaving and with any calls
    failing. *)
Theorem lock_excludes_cycles `{MapOrder} (CalcCostUnits : Z -> spec_float -> Z) (fuel : nat) (js : list Job)
  (holder : nat) (sched : list (nat * outcome)) (w : world) :
  w_locks w !! batchJobLockName = Some holder ->
  others holder js ->
  (interleave sched (map (RunOnce CalcCostUnits fuel) js) w).2 = w.
Proof.
  intros Hl Hjs.
  assert (Forall (locked_out holder) (map (RunOnce CalcCostUnits fuel) js)) as Hp.
  { induction Hjs as [|j js [Hm Hs] _ IH]; cbn [map]; constructor; [by apply locked_out_RunOnce|exact IH]. }
  revert Hp. generalize (map (RunOnce CalcCostUnits fuel) js). clear Hjs js.
  induction sched as [|[i o] sched IH]; intros pool Hp; cbn [interleave]; [done|].
  destruct (pool !! i) as [p|] eqn:Ei; [|by apply IH].
  destruct (locked_out_step holder o p w (proj1 (Forall_lookup _ _) Hp _ _ Ei) Hl) as [Hp' Hw].
  destruct (step o p w) as [p' w']; cbn [fst snd] in *. subst w'. apply IH. by apply Forall_insert.
Qed.

Definition locked_world : world := set_locks world1 {[ batchJobLockName := 3 ]}.

Lemma lock_excludes_cycles_witness :
  (interleave [(0, Normal); (1, Normal); (0, Normal); (1, FailAfter)]
     (map (RunOnce unit_cost 1) [NewJob (Some sample_manager) true true 0 1; NewJob (Some sample_manager) true true 0 2])
     locked_world).2 = locked_world.
Proof.
  apply (lock_excludes_cycles unit_cost 1 _ 3); [reflexivity|].
  repeat constructor; discriminate.
Defined.

(** The settlement claim [BATCH_SETTLED:<id>]: who holds it, and that a
    settlement that does not come through gives it back. *)

(** A world in which every call but the deletion of a key may fail. *)
Definition reliable_delete : Interp batchE world := {|
  handle := @batch_handle;
  fault := fun R e => match e in batchE R return option R with
                      | Delete _ => None
                      | e => batch_fault e
                      end
|}.
#[local] Existing Instance reliable_delete | 0.

(** Nobody holds the claim of batch [b]. *)
Definition unclaimed (b : string) (w : world) : Prop := w_redis w !! BatchSettledKey b = None.

(** Calls that do not take the claim. *)
Definition claims_nothing (b : string) (R : Type) (e : batchE R) : Prop :=
  match e with
  | SetNXWithTTL key _ => key <> BatchSettledKey b
  | HSetWithTTL key _ _ => key <> BatchSettledKey b
  | _ => True
  end.

Lemma claims_nothing_handle b R (e : batchE R) w :
  claims_nothing b R e -> unclaimed b w -> unclaimed b (batch_handle e w).2.
Proof.
  unfold unclaimed. destruct e; intros He Hu; try exact Hu; cbn [batch_handle].
  - unfold upsert_task. repeat case_match; exact Hu.
  - unfold upsert_file. repeat case_match; exact Hu.
  - cbn [claims_nothing] in He. unfold redis_hset. repeat case_match; cbn;
      rewrite ?lookup_insert_ne by done; exact Hu.
  - cbn [claims_nothing] in He. unfold redis_setnx.
    destruct (w_redis w !! key) eqn:E; cbn; rewrite ?lookup_insert_ne by done; exact Hu.
  - rewrite reserve_decr_spec. cbn. destruct (decide (key = BatchSettledKey b)) as [->|Hne].
    + by rewrite lookup_partial_alter_eq, Hu.
    + by rewrite lookup_partial_alter_ne.
  - cbn. by rewrite lookup_delete_None, Hu; right.
  - cbn [snd]. by case_match.
  - by repeat case_match.
  - by repeat case_match.
Qed.

Definition stays_unclaimed (b : string) (w w' : world) : Prop := unclaimed b w -> unclaimed b w'.
#[export] Instance stays_unclaimed_preorder b : PreOrder (stays_unclaimed b).
Proof. split; unfold stays_unclaimed; [intros ?; tauto|intros ???; tauto]. Qed.

Lemma exec_unclaimed {A} b (q : prog batchE A) os w :
  all_calls (claims_nothing b) q -> unclaimed b w -> unclaimed b (exec os q w).2.
Proof.
  intros Hq. apply (exec_stable (claims_nothing b) (stays_unclaimed b)); [|exact Hq].
  intros R e w' He Hu. by apply (claims_nothing_handle b R e w').
Qed.

(** * Programs that end with the claim given back *)

(** Settled by this program, or the claim is free, or no reserved row of the
    batch is left. *)
Definition gives_back {A} (b p : string) (val : A -> nat) (q : prog batchE A) : Prop :=
  forall os w, val (exec os q w).1 = 0 ->
    unclaimed b (exec os q w).2 \/ reserved_rows b p (exec os q w).2 = 0.

Lemma gives_back_bind {A B} b p val (q : prog batchE A) (f : A -> prog batchE B) :
  (forall a, gives_back b p val (f a)) -> gives_back b p val (bind q f).
Proof. intros Hf os w. rewrite exec_bind. apply Hf. Qed.

Lemma gives_back_ret {A} b p (val : A -> nat) a : val a <> 0 -> gives_back b p val (Ret a).
Proof. intros Ha os w. rewrite exec_ret. done. Qed.

Lemma unclaim_frees {A} b (r : A) os w : unclaimed b (exec os (unclaim b r) w).2.
Proof.
  unfold unclaim. cbn [bind call]. run_call. rewrite exec_ret. cbn [snd].
  replace (answer _ _ w).2 with (set_redis w (delete (BatchSettledKey b) (w_redis w)))
    by (by destruct (hd Normal os)).
  apply lookup_delete_eq.
Qed.

Lemma gives_back_unclaim {A} b p (val : A -> nat) r : gives_back b p val (unclaim b r).
Proof. intros os w _. left. apply unclaim_frees. Qed.

(** The conditional update: a program that won nothing found no reserved row. *)
Lemma gives_back_update b p patch :
  gives_back b p won
    (affected <- call (UpdateBatchTaskSettleStatus b p SettleStatusReserved patch) ;;
     match affected with
     | Err e => unclaim b (Err e)
     | Ok n => Ret (Ok (0 <? n)%Z)
     end).
Proof.
  intros os w. cbn [bind call]. run_call.
  destruct (hd Normal os); [|intros Hv; by apply (gives_back_unclaim b p won)..].
  cbn [answer handle reliable_delete batch_handle update_tasks update_rows fst snd].
  rewrite exec_ret. cbn [fst snd]. intros Hv. right.
  destruct (List.filter _ _) as [|r l] eqn:E; [|done]. clear Hv.
  unfold reserved_rows. cbn [w_tasks set_tasks].
  change (reserved_row b p) with (settle_where b p SettleStatusReserved).
  replace (map _ (w_tasks w)) with (w_tasks w); [by rewrite E|].
  clear -E. induction (w_tasks w) as [|r l IH]; [done|]. cbn in E |- *.
  destruct (settle_where b p SettleStatusReserved r); [done|]. f_equal. by apply IH.
Qed.

Section Settle.
Context `{MapOrder} (CalcCostUnits : Z -> spec_float -> Z).

Lemma gives_back_commit t u n : gives_back (BatchID t) (ProductName t) won (settle_commit t u n).
Proof.
  unfold settle_commit. apply gives_back_bind. intros [x|e]; [|apply gives_back_unclaim].
  apply gives_back_bind. intros _. apply gives_back_bind. intros at_. apply gives_back_update.
Qed.

Lemma gives_back_file m t a :
  gives_back (BatchID t) (ProductName t) won (settle_file CalcCostUnits m t a).
Proof.
  unfold settle_file. apply gives_back_bind. intros [[u code]|e]; [|apply gives_back_unclaim].
  repeat case_match; try apply gives_back_unclaim.
  apply gives_back_bind. intros [[n miss]|e]; [apply gives_back_commit|apply gives_back_unclaim].
Qed.

Lemma free_releaseOneTask b t : all_calls (claims_nothing b) (releaseOneTask t).
Proof. unfold releaseOneTask, releaseReserve. repeat calls_step; exact I. Qed.

(** The continuation of a successful claim. *)
Lemma gives_back_after_claim m cache t :
  gives_back (BatchID t) (ProductName t) (fun rc : result bool * gmap string providerAccess => won rc.1)
    (rc <- resolveProviderAccessCached m cache (Provider t) (KeyName t) ;;
     match rc with
     | (Err e, cache) => unclaim (BatchID t) (Err e, cache)
     | (Ok a, cache) =>
         if bool_decide (OutputFileID t = EmptyString) then
           unclaim (BatchID t) tt ;;
           rel <- releaseOneTask t ;;
           Ret (match rel with Err e => Err e | Ok _ => Ok false end, cache)
         else r <- settle_file CalcCostUnits m t a ;; Ret (r, cache)
     end).
Proof.
  apply gives_back_bind. intros [[a|e] c]; [|apply gives_back_unclaim].
  case_bool_decide.
  - intros os w Hv. left. rewrite exec_bind. apply exec_unclaimed.
    + apply all_calls_bind; [apply free_releaseOneTask|intros ?; constructor].
    + apply unclaim_frees.
  - intros os w. rewrite exec_bind, exec_ret. cbn [fst snd]. apply gives_back_file.
Qed.
End Settle.

(** C40: the claim is given back.  A settlement starts on a batch nobody has
    claimed; any of its calls may fail, except that the answer to the claim
    itself is not lost and that keys can be deleted.  When it does not report
    the batch as settled (upstream errors, missing files, the safety valve,
    missing prices table, database errors), then the claim is free again for
    the next cycle, or the batch has no reserved row left. *)
Theorem settle_gives_claim_back `{MapOrder} (CalcCostUnits : Z -> spec_float -> Z)
  (m : Manager) (cache : gmap string providerAccess) (t : BatchTask) (os : list outcome) (w : world) :
  unclaimed (BatchID t) w -> hd Normal os <> FailAfter ->
  let '(rc, w') := @exec _ _ reliable_delete _ os (settleOneTask CalcCostUnits m cache t) w in
  rc.1 = Ok true \/ unclaimed (BatchID t) w' \/ reserved_rows (BatchID t) (ProductName t) w' = 0.
Proof.
  intros Hu Hos. destruct (exec os _ w) as [rc w'] eqn:E.
  destruct (decide (won rc.1 = 0)) as [Hw|Hw].
  2: { left. by destruct rc as [[[]|] ?]. }
  right. change rc with (rc, w').1 in Hw. change w' with (rc, w').2. rewrite <- E in *. clear E rc w'.
  unfold settleOneTask in *. cbn [bind call] in *. rewrite exec_call in *.
  destruct (hd Normal os) as [| |]; [| |done]; cbn [answer fault handle reliable_delete batch_fault batch_handle fst snd] in *.
  - unfold redis_setnx in *. unfold unclaimed in Hu. rewrite Hu in *. cbn [fst snd] in *.
    by apply gives_back_after_claim.
  - rewrite exec_ret. by left.
Qed.

Lemma settle_gives_claim_back_witness :
  let '(rc, w') := @exec _ _ reliable_delete _ [Normal; Normal; FailBefore]
                     (settleOneTask unit_cost sample_manager ∅ task1) world1 in
  rc.1 = Ok true \/ unclaimed (BatchID task1) w' \/ reserved_rows "b1" "demo" w' = 0.
Proof. apply (settle_gives_claim_back unit_cost sample_manager ∅ task1); [reflexivity|discriminate]. Defined.
