(* ===== verification/BatchQuerySpec.v ===== *)
(** The Redis synchronisation of one task: what it writes to an existing row
    and what it does not, and the figures that a settlement leaves in Redis
    read back; then queries and keys. *)
From Stdlib Require Import ZArith Lia Ascii SpecFloat Sorted.
From stdpp Require Import base tactics numbers list strings gmap option.
From S2P Require Import Prelude GoStrings GoJson GoTime Prog BatchTypes BatchStore BatchView BatchManager BatchAdvance BatchSettle BatchJob BatchSettleSafety BatchStatusSafety.

Local Open Scope string_scope.

(** * The merge *)

(** Merging the same Redis state into [t] again changes nothing. *)
Definition absorbs (inc : BatchTask) (v : redisTaskView) (t : BatchTask) : Prop :=
  forall now, mergeTaskForSync (Some t) inc v now = t.

(** Merging is idempotent and never takes a terminal status back.
    Merging the same Redis state into a row a second time, at whatever time,
    changes nothing more; the identity of the row is kept, and a terminal
    row keeps its status and its time of termination. *)
Theorem merge_idempotent (ex inc : BatchTask) (v : redisTaskView) (now : gotime) :
  let merged := mergeTaskForSync (Some ex) inc v now in
  absorbs inc v merged /\
  ID merged = ID ex /\ BatchID merged = BatchID ex /\ IdemKey merged = IdemKey ex /\
  (IsTerminalStatus (Status ex) = true -> Status merged = Status ex /\ TerminalAt merged = TerminalAt ex).
Proof.
  cbv zeta. split; [|cbn -[IsTerminalStatus]; repeat split; by destruct (IsTerminalStatus (Status ex))].
  intros now'.
  assert (forall a b, or_else a (or_else a b) = or_else a b) as Hor by (by intros []).
  assert (forall a b, or_else (or_else a b) b = or_else a b) as Hor' by (by intros [] []).
  assert (forall (A : Type) (a : A) (o : option A), default (default a o) o = default a o) as Hd by (by intros ? ? []).
  cbn -[IsTerminalStatus]. rewrite !Hor, Hor', !Hd. f_equal.
  - by destruct (IsTerminalStatus (Status ex)) eqn:E; [rewrite E|destruct (IsTerminalStatus (Status inc))].
  - by destruct (RequestCounts inc).
  - by case_bool_decide.
  - destruct (IsTerminalStatus (Status ex)) eqn:E; [by rewrite E|].
    destruct (IsTerminalStatus (Status inc)) eqn:E2; done.
Qed.

(** * One task *)

(** The task's hash, as the synchronisation reads it. *)
Definition synced_from (h : gmap string string) (b : string) (ak : APIKeyParam) (w : world) : Prop :=
  w_redis w !! BatchTaskKey b = Some (RHash h) /\ b <> EmptyString /\
  at_ h "status" <> EmptyString /\ w_apiKeys w !! at_ h "api_key_id" = Some ak.

Lemma parse_view_ok b h : b <> EmptyString -> at_ h "status" <> EmptyString ->
  exists v, ParseRedisTaskView b h = Ok v /\ v_batchID v = b /\ v_apiKeyID v = at_ h "api_key_id" /\
    v_status v = at_ h "status" /\ v_settleStatus v = at_ h "settle_status" /\
    v_settleUnits v = parseInt64Field h "settle_units" /\
    v_usageIn v = parseInt64Field h "usage_in" /\ v_usageOut v = parseInt64Field h "usage_out" /\
    v_reserveUnits v = match parseInt64Field h "reserved_units" with
                       | Some x => Some x
                       | None => if bool_decide (at_ h "reserved" = "1") then Some 0%Z else None
                       end.
Proof.
  intros Hb Hs. unfold ParseRedisTaskView. rewrite !bool_decide_eq_false_2 by done.
  eexists. repeat split; done.
Qed.

Lemma exec_applyTaskView ak v w : w_apiKeys w !! v_apiKeyID v = Some ak ->
  exists ta c, exec [] (applyTaskView ∅ v) w = ((Ok (Some (task_of_view ak v ta)), c), w).
Proof.
  intros Hk. unfold applyTaskView, resolve. rewrite lookup_empty. cbn [bind call]. run_call.
  cbn [hd tl answer handle batch_interp batch_handle fst snd]. rewrite Hk. cbn [head bind].
  destruct (IsTerminalStatus (v_status v)); cbn [bind call]; [run_call|]; rewrite exec_ret; by eauto.
Qed.

(** An upsert on a taken key rewrites the row of that key. *)
Lemma upsert_existing t w i r : w_tasks w !! i = Some r -> t_IdemKey r = IdemKey t -> IdemKey t <> EmptyString ->
  exists p w', upsert_task t w = (Ok 0%Z, w') /\ w_tasks w' !! i = Some (upsert_conflict p r) /\
    p_Status p = Some (Status t) /\ p_SettleStatus p = Some (SettleStatus t) /\
    p_SettleUnits p = Some (SettleUnits t) /\ p_UsageInputTokens p = Some (UsageInputTokens t) /\
    p_UsageOutputTokens p = Some (UsageOutputTokens t) /\ p_ReserveUnits p = Some (ReserveUnits t).
Proof.
  intros Hi Hk Hne. unfold upsert_task. rewrite bool_decide_eq_false_2 by done.
  rewrite (proj2 (existsb_exists _ _)).
  2: { exists r. split; [|by apply bool_decide_eq_true].
       by apply list_elem_of_In, list_elem_of_lookup_2 with i. }
  eexists _, _. split; [reflexivity|]. split.
  - cbn [w_tasks set_tasks update_rows fst]. rewrite list_lookup_fmap, Hi. cbn [fmap option_fmap option_map].
    rewrite bool_decide_eq_true_2 by done. reflexivity.
  - repeat split.
Qed.

(** The run of one synchronisation, step by step. *)
Lemma exec_sync_existing (b : string) (h : gmap string string) (ak : APIKeyParam) (i : nat) (r : TBatchTask)
  (w : world) :
  table_wf w -> w_tasks w !! i = Some r -> t_IdemKey r = b -> synced_from h b ak w ->
  exists c w' r', exec [] (syncOneTask ∅ b) w = ((Ok tt, c), w') /\ w_tasks w' !! i = Some r' /\
    t_Status r' = (if IsTerminalStatus (t_Status r) then t_Status r else at_ h "status") /\
    t_SettleStatus r' = or_else (at_ h "settle_status") (t_SettleStatus r) /\
    t_SettleUnits r' = default (t_SettleUnits r) (parseInt64Field h "settle_units") /\
    t_UsageInputTokens r' = default (t_UsageInputTokens r) (parseInt64Field h "usage_in") /\
    t_UsageOutputTokens r' = default (t_UsageOutputTokens r) (parseInt64Field h "usage_out") /\
    t_APIKeyID r' = t_APIKeyID r /\ t_ProductName r' = t_ProductName r /\ t_EntityID r' = t_EntityID r /\
    t_Provider r' = t_Provider r /\ t_KeyName r' = t_KeyName r /\ t_Endpoint r' = t_Endpoint r /\
    t_InputFileID r' = t_InputFileID r /\ t_UsageSource r' = t_UsageSource r /\ t_CreatedAt r' = t_CreatedAt r.
Proof.
  intros Hwf Hi Hb (Hr & Hne & Hs & Hk). unfold syncOneTask. cbn [bind call]. run_call.
  cbn [hd tl answer handle batch_interp batch_handle fst snd]. unfold redis_hgetall. rewrite Hr.
  rewrite bool_decide_eq_false_2 by (intros ->; by apply Hs).
  destruct (parse_view_ok b h Hne Hs) as (v & -> & Evb & Eva & Evs & Evss & Evu & Evi & Evo & _).
  rewrite exec_bind_nil. destruct (exec_applyTaskView ak v w) as (ta & c & ->); [by rewrite Eva|].
  cbn [fst snd bind call]. run_call. cbn [hd tl answer handle batch_interp batch_handle fst snd].
  rewrite (fetch_byIdemKey b w r) by (done || by eapply list_elem_of_lookup_2). run_call.
  cbn [hd tl answer handle batch_interp batch_handle fst snd]. run_call.
  cbn [hd tl answer handle batch_interp batch_handle].
  set (t := mergeTaskForSync _ _ _ _).
  destruct (upsert_existing t w i r Hi) as (p & w' & -> & Hi' & F1 & F2 & F3 & F4 & F5 & _); [done|by rewrite <- Hb in Hne|].
  rewrite exec_ret. eexists _, _, _. split; [reflexivity|]. split; [exact Hi'|].
  cbn [t_Status upsert_conflict t_SettleStatus t_SettleUnits t_UsageInputTokens t_UsageOutputTokens].
  rewrite F1, F2, F3, F4, F5. cbn -[IsTerminalStatus]. rewrite Evs, Evss, Evu, Evi, Evo.
  repeat split; [|by destruct (parseInt64Field _ _)..]. by destruct (at_ h "settle_status").
Qed.

(** What a synchronisation writes to the row of a task.  The row takes
    the status of the hash unless its own is terminal, and the settlement
    status, the amounts and the usage that the hash carries; a field that the
    hash does not carry keeps its value.  The row keeps its owner, provider,
    key name, endpoint, input file, usage source and creation time, whatever
    the hash carries for them. *)
Theorem sync_refreshes_row (b : string) (h : gmap string string) (ak : APIKeyParam) (i : nat) (r : TBatchTask)
  (w : world) :
  table_wf w -> w_tasks w !! i = Some r -> t_IdemKey r = b -> synced_from h b ak w ->
  exists c w' r', exec [] (syncOneTask ∅ b) w = ((Ok tt, c), w') /\ w_tasks w' !! i = Some r' /\
    t_Status r' = (if IsTerminalStatus (t_Status r) then t_Status r else at_ h "status") /\
    t_SettleStatus r' = or_else (at_ h "settle_status") (t_SettleStatus r) /\
    t_SettleUnits r' = default (t_SettleUnits r) (parseInt64Field h "settle_units") /\
    t_UsageInputTokens r' = default (t_UsageInputTokens r) (parseInt64Field h "usage_in") /\
    t_UsageOutputTokens r' = default (t_UsageOutputTokens r) (parseInt64Field h "usage_out") /\
    t_APIKeyID r' = t_APIKeyID r /\ t_ProductName r' = t_ProductName r /\ t_EntityID r' = t_EntityID r /\
    t_Provider r' = t_Provider r /\ t_KeyName r' = t_KeyName r /\ t_Endpoint r' = t_Endpoint r /\
    t_InputFileID r' = t_InputFileID r /\ t_UsageSource r' = t_UsageSource r /\ t_CreatedAt r' = t_CreatedAt r.
Proof. apply exec_sync_existing. Qed.

Definition sample_hash : gmap string string :=
  {[ "status" := TaskStatusInProgress; "api_key_id" := "key-1"; "settle_units" := "5" ]}.
Definition hash_world (rows : list TBatchTask) (h : gmap string string) : world :=
  set_redis (sample_world rows sample_keys) {[ BatchTaskKey "b1" := RHash h ]}.
Definition cancelling_row : TBatchTask := sample_row 1 "b1" TaskStatusCancelling SettleStatusReserved.

Lemma sample_rows_wf r : t_ID r = 1%Z -> table_wf (sample_world [r] sample_keys).
Proof.
  intros Hr. unfold table_wf. cbn. rewrite Hr.
  split; [apply NoDup_singleton|split; [apply NoDup_singleton|]]. repeat constructor.
Qed.

Lemma sync_refreshes_row_witness :
  exists c w' r', exec [] (syncOneTask ∅ "b1") (hash_world [cancelling_row] sample_hash) = ((Ok tt, c), w') /\
    w_tasks w' !! 0 = Some r' /\ t_Status r' = TaskStatusInProgress /\ t_SettleUnits r' = 5%Z.
Proof.
  destruct (sync_refreshes_row "b1" sample_hash (mkAPIKey "key-1" (Some "demo") (Some "entity-1")) 0
              cancelling_row (hash_world [cancelling_row] sample_hash))
    as (c & w' & r' & E & Hl & Hst & _ & Hu & _).
  - by apply (sample_rows_wf cancelling_row).
  - reflexivity.
  - reflexivity.
  - by vm_compute.
  - exists c, w', r'. split; [exact E|]. split; [exact Hl|]. split; [exact Hst|exact Hu].
Defined.

(** The synchronisation drops a cancel intent.  A row at [cancelling]
    whose hash still reports a status that is not terminal (the hash is
    written by the data plane alone) is set back to that status by the next
    synchronisation, before status advance, which would hold [cancelling],
    gets to see it: the row then looks like one that was never cancelled. *)
Theorem sync_drops_cancel_intent (b : string) (h : gmap string string) (ak : APIKeyParam) (i : nat)
  (r : TBatchTask) (w : world) :
  table_wf w -> w_tasks w !! i = Some r -> t_IdemKey r = b -> synced_from h b ak w ->
  t_Status r = TaskStatusCancelling ->
  exists r', w_tasks (exec [] (syncOneTask ∅ b) w).2 !! i = Some r' /\ t_Status r' = at_ h "status".
Proof.
  intros Hwf Hi Hk Hh Hs.
  destruct (exec_sync_existing b h ak i r w Hwf Hi Hk Hh) as (c & w' & r' & -> & Hl & Hst & _).
  exists r'. split; [exact Hl|]. by rewrite Hst, Hs.
Qed.

Lemma sync_drops_cancel_intent_witness :
  exists r', w_tasks (exec [] (syncOneTask ∅ "b1") (hash_world [cancelling_row] sample_hash)).2 !! 0 = Some r' /\
             t_Status r' = TaskStatusInProgress.
Proof.
  apply (sync_drops_cancel_intent "b1" sample_hash (mkAPIKey "key-1" (Some "demo") (Some "entity-1")) 0 cancelling_row).
  - by apply (sample_rows_wf cancelling_row).
  - reflexivity.
  - reflexivity.
  - by vm_compute.
  - reflexivity.
Defined.

(** * From a settlement back through Redis *)

(** A hash after the settlement of [u] for [n] units was written to it. *)
Definition settled_hash (u : usageTotals) (n : Z) (h : gmap string string) : gmap string string :=
  fold_left (fun m '(k, v) => <[k := v]> m) (settle_fields u n) h.

Lemma parseInt64Field_Format h k z : int64_ok z = true -> h !! k = Some (FormatInt z) ->
  parseInt64Field h k = Some z.
Proof.
  intros Hz Hk. unfold parseInt64Field. rewrite Hk. pose proof (FormatInt_not_empty z) as Hne.
  destruct (FormatInt z) eqn:E; [done|]. rewrite <- E. by apply ParseInt_FormatInt.
Qed.

Lemma settled_hash_lookup u n h k : settled_hash u n h !! k =
  match (list_to_map (reverse (settle_fields u n)) : gmap string string) !! k with
  | Some v => Some v
  | None => h !! k
  end.
Proof.
  unfold settled_hash, settle_fields. cbn [fold_left reverse rev_append list_to_map foldr].
  repeat match goal with |- context [<[?a := ?v]> ?m !! k] =>
    destruct (decide (a = k)) as [<-|?];
      [rewrite !lookup_insert_eq|rewrite !(lookup_insert_ne _ a k) by done] end; done.
Qed.

(** A settlement written to Redis reads back as itself.  Whatever the
    hash of the task held before, after the write-back of a settlement the
    parsed view carries the settled status, the amount and the usage of that
    settlement, and everything else as before. *)
Theorem settlement_roundtrip (b : string) (h : gmap string string) (v : redisTaskView) (u : usageTotals) (n : Z) :
  int64_ok (inputTokens u) = true -> int64_ok (outputTokens u) = true -> int64_ok n = true ->
  ParseRedisTaskView b h = Ok v ->
  ParseRedisTaskView b (settled_hash u n h) =
  Ok (mkTaskView (v_batchID v) (v_apiKeyID v) (v_provider v) (v_keyName v) (v_inputFileID v) (v_outputFileID v)
        (v_endpoint v) (v_requestCounts v) (v_estLines v) (v_reserveUnits v) (v_status v) (v_createdAt v)
        (Some (inputTokens u)) (Some (outputTokens u)) (v_usageSource v) (Some n) SettleStatusSettled).
Proof.
  intros Hi Ho Hn Hv.
  assert (forall k, k ∉ ["usage_in"; "usage_out"; "settle_units"; "settle_status"] ->
            settled_hash u n h !! k = h !! k) as Hother.
  { intros k Hk. rewrite settled_hash_lookup, not_elem_of_list_to_map_1; [done|]. set_solver. }
  assert (parseInt64Field (settled_hash u n h) "usage_in" = Some (inputTokens u)) as E1
    by (apply parseInt64Field_Format; [done|by rewrite settled_hash_lookup]).
  assert (parseInt64Field (settled_hash u n h) "usage_out" = Some (outputTokens u)) as E2
    by (apply parseInt64Field_Format; [done|by rewrite settled_hash_lookup]).
  assert (parseInt64Field (settled_hash u n h) "settle_units" = Some n) as E3
    by (apply parseInt64Field_Format; [done|by rewrite settled_hash_lookup]).
  unfold ParseRedisTaskView in *. rewrite E1, E2, E3.
  unfold at_, parseInt64Field in *. rewrite !Hother by (by apply (bool_decide_unpack _)).
  rewrite (settled_hash_lookup u n h "settle_status").
  repeat case_bool_decide; simplify_eq; done.
Qed.

Lemma settlement_roundtrip_witness :
  exists v, ParseRedisTaskView "b1" sample_hash = Ok v /\
    ParseRedisTaskView "b1" (settled_hash (mkTotals 30 7 "m1" 2 0 0) 37 sample_hash) =
    Ok (mkTaskView (v_batchID v) (v_apiKeyID v) (v_provider v) (v_keyName v) (v_inputFileID v) (v_outputFileID v)
        (v_endpoint v) (v_requestCounts v) (v_estLines v) (v_reserveUnits v) (v_status v) (v_createdAt v)
        (Some 30%Z) (Some 7%Z) (v_usageSource v) (Some 37%Z) SettleStatusSettled).
Proof.
  eexists. split; [vm_compute; reflexivity|].
  apply (settlement_roundtrip "b1" sample_hash _ (mkTotals 30 7 "m1" 2 0 0) 37); vm_compute; reflexivity.
Defined.

(** Queries and keys: the Redis key layout, the isolation of products, and
    the cursor pagination of the task list. *)

(** * Redis keys *)

(** A partition that a file key can carry. *)
Definition valid_partition (p : string) : Prop := has_byte p ":" = false /\ p <> EmptyString.

(** The key layout can be read back.  A task key gives back its batch
    id, a file key gives back its two parts when the partition has no colon
    (the file id may have any), a parsed key is the key of what it parsed to,
    and no file key is taken for a task key. *)
Theorem batch_keys_roundtrip :
  (forall b, b <> EmptyString -> ParseBatchTaskKey (BatchTaskKey b) = (b, true)) /\
  (forall k b, ParseBatchTaskKey k = (b, true) -> k = BatchTaskKey b /\ b <> EmptyString) /\
  (forall p f, valid_partition p -> f <> EmptyString ->
     ParseBatchFileKey (BatchFileKey p f) = (p, f, true)) /\
  (forall k p f, ParseBatchFileKey k = (p, f, true) ->
     k = BatchFileKey p f /\ valid_partition p /\ f <> EmptyString) /\
  (forall p f, (ParseBatchTaskKey (BatchFileKey p f)).2 = false) /\
  (forall b, (ParseBatchFileKey (BatchTaskKey b)).2 = false).
Proof.
  split; [|split; [|split; [|split; [|split]]]].
  - intros b Hb. unfold ParseBatchTaskKey, BatchTaskKey. rewrite HasPrefix_app, TrimPrefix_app. cbn [negb].
    by rewrite bool_decide_eq_false_2.
  - intros k b. unfold ParseBatchTaskKey, HasPrefix, TrimPrefix, BatchTaskKey.
    destruct (CutPrefix k batchTaskKeyPrefix) as [r|] eqn:E; cbn [negb]; [|discriminate].
    intros [= -> Hb]. apply CutPrefix_Some in E. by case_bool_decide.
  - intros p f [Hp Hpn] Hfn. unfold ParseBatchFileKey, BatchFileKey. rewrite CutPrefix_app.
    change (":" +:+ f) with (String ":" f). rewrite Cut_app by done.
    by rewrite !bool_decide_eq_false_2.
  - intros k p f. unfold ParseBatchFileKey, BatchFileKey.
    destruct (CutPrefix k batchFileKeyPrefix) as [r|] eqn:E; [|discriminate].
    destruct (Cut r ":") as [[p' f']|] eqn:Ec; [|discriminate].
    destruct (_ || _) eqn:Eo; [discriminate|]. intros [= -> ->].
    apply CutPrefix_Some in E as ->. apply Cut_Some in Ec as [-> Hp].
    apply orb_false_iff in Eo as [Eo1%bool_decide_eq_false Eo2%bool_decide_eq_false]. done.
  - reflexivity.
  - reflexivity.
Qed.

(** * Products *)

(** What a query for a product lists belongs to it. *)
Lemma where_product p r prod : p_ProductName p = Some prod -> where_task p r = true -> t_ProductName r = prod.
Proof.
  unfold where_task. intros -> Hw.
  repeat match goal with Hx : (_ && _)%bool = true |- _ => apply andb_true_iff in Hx as [Hx ?] end.
  match goal with Hx : cond (Some prod) (t_ProductName r) eqs = true |- _ =>
    cbn [cond] in Hx; by apply bool_decide_eq_true in Hx end.
Qed.

(** What a lookup found, and that all of it belongs to the product. *)
Definition found {A} (r : result (option A)) : list A :=
  match r with Ok (Some a) => [a] | _ => [] end.
Definition listed (r : result BatchTaskListResult) : list BatchTask :=
  match r with Ok res => lr_Tasks res | Err _ => [] end.
Definition all_of {A} (owner : A -> string) (prod : string) (l : list A) : Prop :=
  Forall (fun a => owner a = prod) l.

Lemma all_of_found {A} (owner : A -> string) prod r :
  (forall a, r = Ok (Some a) -> owner a = prod) -> all_of owner prod (found r).
Proof. intros Ha. destruct r as [[a|]|e]; repeat constructor. by apply Ha. Qed.

(** A product sees its own tasks and files only.  Whatever calls fail,
    a task or file that a query for a product returns belongs to that
    product, from the database or from the Redis fallback, and so does every
    task of a listed page. *)
Theorem product_isolation (os : list outcome) (m : Manager) (w : world) (prod : string) :
  (forall b fb, all_of ProductName prod (found (exec os (FetchTask m b prod fb) w).1)) /\
  (forall f pv fb, all_of f_ProductName prod (found (exec os (FetchFile m f pv prod fb) w).1)) /\
  (forall f, q_ProductName f = Some prod -> all_of ProductName prod (listed (exec os (ListTasks (Some f)) w).1)).
Proof.
  split; [|split].
  - intros b fb. apply all_of_found. intros t. unfold FetchTask. cbn [bind call]. run_call. unfold answer.
    destruct (hd Normal os); cbn; [|by rewrite exec_ret..].
    destruct (fetch_task (byBatch b prod) w) as [t'|] eqn:E.
    { rewrite exec_ret. intros [= ->]. unfold fetch_task in E. apply fmap_Some in E as (r & Hf & ->).
      apply List.find_some in Hf as [_ Hw]. by apply where_product with (prod := prod) in Hw. }
    destruct (negb fb || negb (has_redis m)); [by rewrite exec_ret|]. run_call.
    destruct (answer _ _ w).1 as [vals|e]; [|by rewrite exec_ret].
    case_bool_decide; [by rewrite exec_ret|].
    destruct (ParseRedisTaskView b vals); [|by rewrite exec_ret].
    rewrite exec_bind. destruct (exec _ (applyTaskView ∅ a) _).1.1 as [[t'|]|e]; [|by rewrite exec_ret..].
    case_bool_decide as Ep; rewrite exec_ret; [|done]. by intros [= <-].
  - intros f pv fb. apply all_of_found. intros x. unfold FetchFile. cbn [bind call]. run_call. unfold answer.
    destruct (hd Normal os); cbn; [|by rewrite exec_ret..].
    destruct (List.find _ (w_files w)) as [x'|] eqn:E.
    { rewrite exec_ret. intros [= ->]. apply List.find_some in E as [_ Hw]. unfold where_file in Hw.
      cbn -[eqs] in Hw. rewrite !andb_true_iff in Hw. destruct_and! Hw.
      symmetry. by eapply bool_decide_eq_true. }
    destruct (negb fb || negb (has_redis m)); [by rewrite exec_ret|]. run_call.
    destruct (answer _ _ w).1 as [vals|e]; [|by rewrite exec_ret].
    case_bool_decide; [by rewrite exec_ret|].
    rewrite exec_bind. destruct (exec _ (applyFileView ∅ _) _).1.1 as [[x'|]|e]; [|by rewrite exec_ret..].
    case_bool_decide as Ep; rewrite exec_ret; [|done]. by intros [= <-].
  - intros f Hp. apply list.Forall_forall. intros t. unfold ListTasks. change (default noTaskFilter (Some f)) with f. cbv zeta. rewrite Hp.
    destruct prod as [|c s]; [intros Ht; by apply not_elem_of_nil in Ht|].
    cbn [bind call]. run_call. unfold answer.
    destruct (hd Normal os); cbn -[page_limit]; rewrite exec_ret; cbn [listed fst];
      intros Ht; [|by apply not_elem_of_nil in Ht..]. cbn [lr_Tasks] in Ht.
    apply elem_of_list_tasks in Ht as (r & _ & -> & Hw). by eapply where_product; [|exact Hw].
Qed.

(** * Pagination *)

Definition with_cursor (f : BatchTaskFilter) (c : option Z) : BatchTaskFilter :=
  mkTaskFilter (q_ID f) (q_BatchID f) (q_IdemKey f) (q_APIKeyID f) (q_ProductName f) (q_EntityID f)
    (q_Provider f) (q_Status f) (q_StatusIn f) (q_StatusNotIn f) (q_SettleStatus f)
    (q_CreatedStart f) (q_CreatedEnd f) c (q_Limit f).

(** A client that follows the cursor until it is zero. *)
Fixpoint collect_pages (fuel : nat) (f : BatchTaskFilter) (w : world) : option (list BatchTask) :=
  match fuel with
  | O => None
  | S n =>
      match (exec [] (ListTasks (Some f)) w).1 with
      | Err _ => None
      | Ok res =>
          if (lr_NextCursor res =? 0)%Z then Some (lr_Tasks res)
          else app (lr_Tasks res) <$> collect_pages n (with_cursor f (Some (lr_NextCursor res))) w
      end
  end.

Lemma page_limit_bounds n : (1 <= page_limit n <= MaxListLimit)%Z.
Proof. unfold page_limit, MaxListLimit, DefaultListLimit. repeat case_match; lia. Qed.

(** The table is read in primary key order. *)
Definition ids_ascend (rows : list TBatchTask) : Prop := StronglySorted Z.lt (map t_ID rows).

Lemma ids_ascend_filter g rows : ids_ascend rows -> ids_ascend (List.filter g rows).
Proof.
  unfold ids_ascend. induction rows as [|r rows IH]; cbn [map List.filter]; [done|].
  intros Hs. inversion Hs as [|? ? Hs' Hf]; subst. destruct (g r); [|by apply IH].
  cbn [map]. constructor; [by apply IH|]. apply list.Forall_forall. intros x Hx.
  apply list_elem_of_fmap in Hx as (r' & -> & Hin). apply list_elem_of_In, filter_In in Hin as [Hin _].
  rewrite list.Forall_forall in Hf. apply Hf, list_elem_of_fmap. exists r'. split; [done|by apply list_elem_of_In].
Qed.

(** Past the [n]-th row of an ascending list come the rows with larger ids. *)
Lemma ids_ascend_drop rows n r : ids_ascend rows -> rows !! n = Some r ->
  List.filter (fun x => (t_ID r <? t_ID x)%Z) rows = drop (S n) rows.
Proof.
  revert n. induction rows as [|x rows IH]; intros n Hs Hn; [done|].
  inversion Hs as [|? ? Hs' Hf]; subst. rewrite list.Forall_forall in Hf.
  destruct n as [|n]; cbn in Hn |- *.
  - injection Hn as ->. rewrite Z.ltb_irrefl. rewrite drop_0. clear -Hf.
    assert (forall y, y ∈ rows -> (t_ID r <? t_ID y)%Z = true) as Hall.
    { intros y Hy. apply Z.ltb_lt, Hf, list_elem_of_fmap. eauto. }
    clear Hf. induction rows as [|y rows IH]; cbn [List.filter]; [done|].
    rewrite Hall by left. f_equal. apply IH. intros z Hz. apply Hall. by right.
  - assert (t_ID x < t_ID r)%Z as Hlt.
    { apply Hf, list_elem_of_fmap. exists r. split; [done|]. by eapply list_elem_of_lookup_2. }
    replace (t_ID r <? t_ID x)%Z with false by (symmetry; apply Z.ltb_ge; lia). by apply IH.
Qed.

(** A later cursor narrows the condition to larger ids. *)
Lemma where_cursor f r c : (forall c0, q_CursorID f = Some c0 -> c0 <= c)%Z ->
  where_task (batchTaskFilterToParam (with_cursor f (Some c))) r =
  (where_task (batchTaskFilterToParam f) r && (c <? t_ID r)%Z)%bool.
Proof.
  intros Hc. unfold where_task. cbn -[eqs Z.ltb cond].
  assert (cond (Some c) (t_ID r) Z.ltb = (cond (q_CursorID f) (t_ID r) Z.ltb && (c <? t_ID r)%Z)%bool) as ->.
  { destruct (q_CursorID f) as [c0|]; [|done]. specialize (Hc c0 eq_refl). cbn [cond].
    destruct (Z.ltb_spec c (t_ID r)), (Z.ltb_spec c0 (t_ID r)); done || lia. }
  destruct (c <? t_ID r)%Z; rewrite ?andb_true_r, ?andb_false_r; done.
Qed.

Lemma filter_filter {A} (f g : A -> bool) l :
  List.filter (fun x => f x && g x)%bool l = List.filter g (List.filter f l).
Proof. induction l as [|x l IH]; cbn; [done|]. destruct (f x); cbn; [destruct (g x); by rewrite IH|done]. Qed.

Lemma exec_ListTasks f w p : q_ProductName f = Some p -> p <> EmptyString ->
  let rows := List.filter (where_task (batchTaskFilterToParam f)) (w_tasks w) in
  let n := Z.to_nat (page_limit (q_Limit f)) in
  (exec [] (ListTasks (Some f)) w).1 =
  Ok {| lr_Tasks := map batchTaskParamToData (take n rows);
        lr_NextCursor := match rows !! pred n with
                         | Some r => t_ID r
                         | None => 0%Z
                         end |}.
Proof.
  intros Hp Hne rows n. unfold ListTasks. change (default noTaskFilter (Some f)) with f. cbv zeta. rewrite Hp.
  destruct p as [|c s]; [done|]. cbn [bind call]. run_call.
  cbn [hd tl answer handle batch_interp batch_handle fst snd]. rewrite exec_ret. cbn [fst].
  pose proof (page_limit_bounds (q_Limit f)) as Hl.
  assert (Z.of_nat n = page_limit (q_Limit f)) as Hn by (unfold n; lia).
  unfold list_tasks. change (q_Limit (with_limit f (page_limit (q_Limit f)))) with (page_limit (q_Limit f)).
  change (batchTaskFilterToParam (with_limit f _)) with (batchTaskFilterToParam f).
  replace (0 <? page_limit (q_Limit f))%Z with true by lia. fold rows. fold n. f_equal. f_equal.
  rewrite andb_true_r, length_map, length_take.
  destruct (decide (n <= length rows)) as [Hle|Hgt].
  - rewrite (Nat.min_l _ _ Hle), Hn, Z.leb_refl.
    rewrite last_lookup, length_map, length_take, (Nat.min_l _ _ Hle), list_lookup_fmap, lookup_take_lt by lia.
    destruct (rows !! pred n) as [r|] eqn:E; [done|].
    apply lookup_ge_None in E. lia.
  - rewrite Nat.min_r by lia.
    replace (page_limit (q_Limit f) <=? Z.of_nat (length rows))%Z with false by (symmetry; apply Z.leb_gt; lia).
    rewrite lookup_ge_None_2 by lia. done.
Qed.

(** Pagination is complete and in order.  A client that asks for a
    product's tasks page by page, passing back the cursor it was given,
    reaches the end within one request per row, and has then received every
    matching task exactly once, in primary key order, whatever page size it
    asked for. *)
Theorem pagination_complete (fuel : nat) (f : BatchTaskFilter) (p : string) (w : world) :
  q_ProductName f = Some p -> p <> EmptyString ->
  ids_ascend (w_tasks w) -> Forall (fun r => 0 < t_ID r)%Z (w_tasks w) ->
  length (w_tasks w) < fuel ->
  collect_pages fuel f w =
  Some (map batchTaskParamToData (List.filter (where_task (batchTaskFilterToParam f)) (w_tasks w))).
Proof.
  intros Hp Hne Hs Hpos Hfuel.
  assert (length (List.filter (where_task (batchTaskFilterToParam f)) (w_tasks w)) < fuel) as Hlen.
  { pose proof (filter_length_le (where_task (batchTaskFilterToParam f)) (w_tasks w)). lia. }
  clear Hfuel. revert f Hp Hlen. induction fuel as [|fuel IH]; intros f Hp Hlen; [lia|].
  cbn [collect_pages]. rewrite (exec_ListTasks f w p Hp Hne).
  set (rows := List.filter _ _) in *. cbn [lr_Tasks lr_NextCursor].
  pose proof (page_limit_bounds (q_Limit f)) as Hl. set (n := Z.to_nat (page_limit (q_Limit f))).
  assert (Z.of_nat n = page_limit (q_Limit f)) as Hn by (unfold n; lia).
  destruct (rows !! pred n) as [r|] eqn:E.
  2: { apply lookup_ge_None in E. cbn. by rewrite take_ge by lia. }
  assert (In r (w_tasks w) /\ where_task (batchTaskFilterToParam f) r = true) as [Hin Hw].
  { apply filter_In. by apply list_elem_of_In, list_elem_of_lookup_2 with (pred n). }
  rewrite list.Forall_forall in Hpos. apply list_elem_of_In in Hin. specialize (Hpos r Hin). cbn in Hpos.
  replace (t_ID r =? 0)%Z with false by lia.
  assert (List.filter (where_task (batchTaskFilterToParam (with_cursor f (Some (t_ID r))))) (w_tasks w) =
          drop n rows) as Hnext.
  { replace n with (S (pred n)) by lia. rewrite <- (ids_ascend_drop rows (pred n) r);
      [|by apply ids_ascend_filter|done].
    unfold rows. rewrite <- filter_filter. apply filter_ext. intros x. apply where_cursor.
    intros c0 Hc0. unfold where_task in Hw. rewrite !andb_true_iff in Hw. cbn -[eqs Z.ltb] in Hw.
    rewrite Hc0 in Hw. cbn [cond] in Hw. destruct_and! Hw. lia. }
  rewrite IH; [|exact Hp|].
  - rewrite Hnext. cbn. rewrite <- map_app. by rewrite take_drop.
  - rewrite Hnext, length_drop. apply lookup_lt_Some in E. lia.
Qed.

Lemma pagination_complete_witness :
  let rows := [sample_row 3 "a" TaskStatusQueued SettleStatusReserved;
               sample_row 5 "b" TaskStatusQueued SettleStatusReserved;
               sample_row 9 "c" TaskStatusQueued SettleStatusReserved] in
  let f := mkTaskFilter None None None None (Some "demo") None None None [] [] None None None None 1 in
  collect_pages 4 f (sample_world rows []) = Some (map batchTaskParamToData rows).
Proof.
  cbv zeta. rewrite (pagination_complete 4 _ "demo"); [reflexivity|reflexivity|discriminate| | |simpl; lia].
  - repeat constructor.
  - repeat constructor.
Defined.
