(* ===== verification/QuotaModel.v ===== *)
(** Quota plans: table [quota_plans] and its storage, the Redis quota cache
    and lock, and the calls the managers make ([model/quota/quota_plan.go],
    [storage/rdb/quota], [model/quotacache]). *)
From Stdlib Require Import ZArith Lia SpecFloat.
From stdpp Require Import base tactics numbers list strings gmap option.
From S2P Require Import Prelude GoStrings GoTime Prog.

Local Open Scope string_scope.

(** * Data *)

Record QuotaPlanParam : Type := mkPlanParam {
  qp_ID : option Z;
  qp_Unlimited : option bool;
  qp_PassWhenNoEnoughQuota : option bool;
  qp_Quota : option spec_float;
  qp_Unit : option string;
  qp_ResetPeriod : option string;
  qp_LastResetAt : option gotime;
  qp_CreateTime : option Z
}.
Definition noPlanParam : QuotaPlanParam := mkPlanParam None None None None None None None None.

Record QuotaPlanFilter : Type := mkPlanFilter {
  pf_ID : option Z;
  pf_Unlimited : option bool;
  pf_ResetPeriod : list string
}.
Definition byPlanID (id : Z) : QuotaPlanFilter := mkPlanFilter (Some id) None [].

(** [shared.QuotaPlanParam], without the balance that it only carries out. *)
Record SharedPlan : Type := mkSharedPlan {
  sh_Unlimited : option bool;
  sh_PassWhenNoEnoughQuota : option bool;
  sh_Quota : option spec_float;
  sh_Unit : option string;
  sh_ResetPeriod : option string;
  sh_LastResetAt : option gotime
}.

(** A row of [quota_plans]. *)
Record TQuotaPlan : Type := mkPlanRow {
  tp_ID : Z;
  tp_Unlimited : bool;
  tp_PassWhenNoEnoughQuota : bool;
  tp_Quota : spec_float;
  tp_Unit : string;
  tp_ResetPeriod : string;
  tp_LastResetAt : option gotime;
  tp_CreatedAt : gotime;
  tp_UpdatedAt : gotime
}.

(** The fields of API keys and entities that are read here. *)
Record PlanAPIKey : Type := mkPlanKey {
  k_Plan : Z; k_Key : option string; k_KeyCreateAt : option gotime
}.
Record PlanEntity : Type := mkPlanEntity { e_Plan : Z; e_EntityID : option string }.

(** * Storage *)

(** Only the id of a filter reaches the WHERE clause. *)
Definition quotaPlanFilterToParam (f : QuotaPlanFilter) : option Z := pf_ID f.

Definition where_plan (id : option Z) (r : TQuotaPlan) : bool :=
  match id with None => true | Some i => (tp_ID r =? i)%Z end.

Definition quotaPlanParamToData (r : TQuotaPlan) : QuotaPlanParam := {|
  qp_ID := Some (tp_ID r);
  qp_Unlimited := Some (tp_Unlimited r);
  qp_PassWhenNoEnoughQuota := Some (tp_PassWhenNoEnoughQuota r);
  qp_Quota := Some (tp_Quota r);
  qp_Unit := Some (tp_Unit r);
  qp_ResetPeriod := Some (tp_ResetPeriod r);
  qp_LastResetAt := tp_LastResetAt r;
  qp_CreateTime := Some (tp_CreatedAt r / second - unix_epoch)%Z
|}.

(** SET of the non-nil fields; [stored] is what a quota reads back as after
    its conversion to the decimal column. *)
Definition assign_plan (stored : spec_float -> spec_float) (now : gotime) (p : QuotaPlanParam) (r : TQuotaPlan)
  : TQuotaPlan := {|
  tp_ID := tp_ID r;
  tp_Unlimited := default (tp_Unlimited r) (qp_Unlimited p);
  tp_PassWhenNoEnoughQuota := default (tp_PassWhenNoEnoughQuota r) (qp_PassWhenNoEnoughQuota p);
  tp_Quota := default (tp_Quota r) (stored <$> qp_Quota p);
  tp_Unit := default (tp_Unit r) (qp_Unit p);
  tp_ResetPeriod := default (tp_ResetPeriod r) (qp_ResetPeriod p);
  tp_LastResetAt := match qp_LastResetAt p with Some t => Some t | None => tp_LastResetAt r end;
  tp_CreatedAt := tp_CreatedAt r;
  tp_UpdatedAt := now
|}.

Definition periodic (period : string) : bool :=
  bool_decide (period = "weekly") || bool_decide (period = "monthly").

(** A new plan with a period starts it at its creation. *)
Definition initLastResetAtAtCreate (now : gotime) (p : QuotaPlanParam) : option gotime :=
  match qp_LastResetAt p, qp_ResetPeriod p with
  | None, Some per => if periodic per then Some now else None
  | l, _ => l
  end.

(** INSERT; absent columns take the defaults of the table. *)
Definition insert_plan (stored : spec_float -> spec_float) (id : Z) (now : gotime) (p : QuotaPlanParam)
  : TQuotaPlan := {|
  tp_ID := id;
  tp_Unlimited := default true (qp_Unlimited p);
  tp_PassWhenNoEnoughQuota := default false (qp_PassWhenNoEnoughQuota p);
  tp_Quota := default (S754_zero false) (stored <$> qp_Quota p);
  tp_Unit := default "total_token" (qp_Unit p);
  tp_ResetPeriod := default "never" (qp_ResetPeriod p);
  tp_LastResetAt := initLastResetAtAtCreate now p;
  tp_CreatedAt := now;
  tp_UpdatedAt := now
|}.

(** The condition of the claim: never reset, or before the period. *)
Definition claimable (id : Z) (periodStart : gotime) (r : TQuotaPlan) : bool :=
  (tp_ID r =? id)%Z &&
  match tp_LastResetAt r with None => true | Some t => (t <? periodStart)%Z end.

(** SET last_reset_at; [updated_at], which MySQL maintains by itself, is left
    alone. *)
Definition claim_row (id : Z) (periodStart now : gotime) (r : TQuotaPlan) : TQuotaPlan :=
  if claimable id periodStart r
  then mkPlanRow (tp_ID r) (tp_Unlimited r) (tp_PassWhenNoEnoughQuota r) (tp_Quota r) (tp_Unit r)
         (tp_ResetPeriod r) (Some now) (tp_CreatedAt r) (tp_UpdatedAt r)
  else r.

(** * Audit entries *)

(** The values of the change maps. *)
Inductive aval : Type := AInt (z : Z) | ABool (b : bool) | AFloat (f : spec_float) | AStr (s : string) | ATime (t : gotime).

Definition put {A} (k : string) (f : A -> aval) (v : option A) (m : gmap string aval) : gmap string aval :=
  match v with Some x => <[k := f x]> m | None => m end.

Definition quotaPlanParamToMap (p : option QuotaPlanParam) : option (gmap string aval) :=
  match p with
  | None => None
  | Some p => Some
      (put "last_reset_at" ATime (qp_LastResetAt p) (put "reset_period" AStr (qp_ResetPeriod p)
      (put "unit" AStr (qp_Unit p) (put "quota" AFloat (qp_Quota p)
      (put "pass_when_no_enough_quota" ABool (qp_PassWhenNoEnoughQuota p)
      (put "unlimited" ABool (qp_Unlimited p) (put "id" AInt (qp_ID p) ∅)))))))
  end.

Record plan_entry : Type := mkPlanEntry {
  pe_action : string; pe_planID : string; pe_parentID : string;
  pe_before : option (gmap string aval); pe_after : option (gmap string aval); pe_err : option goerr
}.

(** * The calls *)

Inductive quotaE : Type -> Type :=
(* QuotaPlanStorager *)
| CreateQuotaPlanRow (p : QuotaPlanParam) : quotaE (result Z)
| FetchQuotaPlanRow (f : QuotaPlanFilter) : quotaE (result (option QuotaPlanParam))
| FetchQuotaPlanRows (f : QuotaPlanFilter) : quotaE (result (list QuotaPlanParam))
| UpdateQuotaPlanRow (f : QuotaPlanFilter) (p : QuotaPlanParam) : quotaE (result Z)
| DeleteQuotaPlanRow (f : QuotaPlanFilter) : quotaE (result unit)
| ClaimQuotaPlanReset (id : Z) (periodStart now : gotime) : quotaE (result Z)
(* owners of a plan *)
| FetchPlanAPIKeys (plan : Z) : quotaE (result (list PlanAPIKey))
| FetchPlanEntities (plan : Z) : quotaE (result (list PlanEntity))
(* transactions *)
| TxBegin : quotaE (result unit)
| TxCommit : quotaE (result unit)
| TxRollback : quotaE unit
(* redis_client.Client *)
| GetInt64 (key : string) : quotaE (result (option Z))
| GetInt64Batch (keys : list string) : quotaE (result (list Z))
| IncrBy (key : string) (delta : Z) : quotaE (result Z)
| SetQuota (key : string) (v : Z) : quotaE (result unit)
| DeleteKey (key : string) : quotaE (result unit)
(* the scripts of the lock *)
| LockAcquire (key token : string) (ttl : Z) : quotaE (result bool)
| LockRelease (key token : string) : quotaE (result unit)
| LockRenew (key token : string) (ttl : Z) : quotaE (result unit)
(* clock and audit log *)
| ClockNow : quotaE gotime
| RecordPlan (e : plan_entry) : quotaE unit.

(** * The world *)

Record qworld : Type := mkQWorld {
  q_plans : list TQuotaPlan;
  q_nextPlan : Z;
  q_keys : list PlanAPIKey;
  q_entities : list PlanEntity;
  (** the rows as they were when the open transaction began *)
  q_saved : option (list TQuotaPlan);
  q_redis : gmap string Z;
  (** holder and expiry of each lock, on the clock of Redis *)
  q_locks : gmap string (string * gotime);
  q_redisNow : gotime;
  (** the clock: what the n-th reading gives *)
  q_clock : nat -> gotime;
  q_reads : nat;
  q_audit : list plan_entry;
  (** the claims that were won, in order *)
  q_claims : list Z;
  (** what a stored quota reads back as *)
  q_stored : spec_float -> spec_float
}.

Definition q_now (w : qworld) : gotime := q_clock w (q_reads w).

Definition set_plans (w : qworld) (l : list TQuotaPlan) : qworld :=
  mkQWorld l (q_nextPlan w) (q_keys w) (q_entities w) (q_saved w) (q_redis w) (q_locks w) (q_redisNow w)
    (q_clock w) (q_reads w) (q_audit w) (q_claims w) (q_stored w).
Definition set_saved (w : qworld) (s : option (list TQuotaPlan)) : qworld :=
  mkQWorld (q_plans w) (q_nextPlan w) (q_keys w) (q_entities w) s (q_redis w) (q_locks w) (q_redisNow w)
    (q_clock w) (q_reads w) (q_audit w) (q_claims w) (q_stored w).
Definition set_qredis (w : qworld) (m : gmap string Z) : qworld :=
  mkQWorld (q_plans w) (q_nextPlan w) (q_keys w) (q_entities w) (q_saved w) m (q_locks w) (q_redisNow w)
    (q_clock w) (q_reads w) (q_audit w) (q_claims w) (q_stored w).
Definition set_qlocks (w : qworld) (m : gmap string (string * gotime)) : qworld :=
  mkQWorld (q_plans w) (q_nextPlan w) (q_keys w) (q_entities w) (q_saved w) (q_redis w) m (q_redisNow w)
    (q_clock w) (q_reads w) (q_audit w) (q_claims w) (q_stored w).

(** The lock of a key that has not expired. *)
Definition held (w : qworld) (key : string) : option string :=
  match q_locks w !! key with
  | Some (token, expiry) => if (q_redisNow w <? expiry)%Z then Some token else None
  | None => None
  end.

(** The counter of a quota key. *)
Definition AIUsedQuotaKey (key : string) : string := "QUOTA_" +:+ key.

Definition quota_handle {R} (e : quotaE R) : qworld -> R * qworld :=
  match e in quotaE R return qworld -> R * qworld with
  | CreateQuotaPlanRow p => fun w =>
      (Ok (q_nextPlan w),
       mkQWorld (q_plans w ++ [insert_plan (q_stored w) (q_nextPlan w) (q_now w) p]) (q_nextPlan w + 1) (q_keys w)
         (q_entities w) (q_saved w) (q_redis w) (q_locks w) (q_redisNow w) (q_clock w) (q_reads w) (q_audit w)
         (q_claims w) (q_stored w))
  | FetchQuotaPlanRow f => fun w =>
      (Ok (quotaPlanParamToData <$> List.find (where_plan (quotaPlanFilterToParam f)) (q_plans w)), w)
  | FetchQuotaPlanRows f => fun w =>
      (Ok (map quotaPlanParamToData (List.filter (where_plan (quotaPlanFilterToParam f)) (q_plans w))), w)
  | UpdateQuotaPlanRow f p => fun w =>
      let hit := where_plan (quotaPlanFilterToParam f) in
      (Ok (Z.of_nat (length (List.filter hit (q_plans w)))),
       set_plans w (map (fun r => if hit r then assign_plan (q_stored w) (q_now w) p r else r) (q_plans w)))
  | DeleteQuotaPlanRow f => fun w =>
      (Ok tt, set_plans w (List.filter (fun r => negb (where_plan (quotaPlanFilterToParam f) r)) (q_plans w)))
  | ClaimQuotaPlanReset id ps now => fun w =>
      let n := length (List.filter (claimable id ps) (q_plans w)) in
      let w' := set_plans w (map (claim_row id ps now) (q_plans w)) in
      (Ok (Z.of_nat n),
       mkQWorld (q_plans w') (q_nextPlan w) (q_keys w) (q_entities w) (q_saved w) (q_redis w) (q_locks w)
         (q_redisNow w) (q_clock w) (q_reads w) (q_audit w)
         (if Nat.eqb n 0 then q_claims w else q_claims w ++ [id]) (q_stored w))
  | FetchPlanAPIKeys plan => fun w => (Ok (List.filter (fun k => (k_Plan k =? plan)%Z) (q_keys w)), w)
  | FetchPlanEntities plan => fun w => (Ok (List.filter (fun k => (e_Plan k =? plan)%Z) (q_entities w)), w)
  | TxBegin => fun w => (Ok tt, set_saved w (Some (q_plans w)))
  | TxCommit => fun w => (Ok tt, set_saved w None)
  | TxRollback => fun w => (tt, set_saved (set_plans w (default (q_plans w) (q_saved w))) None)
  | GetInt64 key => fun w => (Ok (q_redis w !! key), w)
  | GetInt64Batch keys => fun w => (Ok (map (fun k => default 0%Z (q_redis w !! k)) keys), w)
  | IncrBy key d => fun w =>
      let v := (default 0 (q_redis w !! key) + d)%Z in
      if int64_ok v then (Ok v, set_qredis w (<[key := v]> (q_redis w))) else (Err RedisError, w)
  | SetQuota key v => fun w => (Ok tt, set_qredis w (<[key := v]> (q_redis w)))
  | DeleteKey key => fun w => (Ok tt, set_qredis w (delete key (q_redis w)))
  | LockAcquire key token ttl => fun w =>
      match held w key with
      | Some _ => (Ok false, w)
      | None => (Ok true, set_qlocks w (<[key := (token, q_redisNow w + ttl * second)%Z]> (q_locks w)))
      end
  | LockRelease key token => fun w =>
      if bool_decide (held w key = Some token)
      then (Ok tt, set_qlocks w (delete key (q_locks w))) else (Ok tt, w)
  | LockRenew key token ttl => fun w =>
      if bool_decide (held w key = Some token)
      then (Ok tt, set_qlocks w (<[key := (token, q_redisNow w + ttl * second)%Z]> (q_locks w))) else (Ok tt, w)
  | ClockNow => fun w =>
      (q_now w, mkQWorld (q_plans w) (q_nextPlan w) (q_keys w) (q_entities w) (q_saved w) (q_redis w) (q_locks w)
                  (q_redisNow w) (q_clock w) (S (q_reads w)) (q_audit w) (q_claims w) (q_stored w))
  | RecordPlan e => fun w =>
      (tt, mkQWorld (q_plans w) (q_nextPlan w) (q_keys w) (q_entities w) (q_saved w) (q_redis w) (q_locks w)
             (q_redisNow w) (q_clock w) (q_reads w) (q_audit w ++ [e]) (q_claims w) (q_stored w))
  end.

(** A failed commit leaves the transaction to be rolled back by the server;
    it is a failure of its own and not injected here. *)
Definition quota_fault {R} (e : quotaE R) : option R :=
  match e in quotaE R return option R with
  | CreateQuotaPlanRow _ => Some (Err DaoError)
  | FetchQuotaPlanRow _ => Some (Err DaoError)
  | FetchQuotaPlanRows _ => Some (Err DaoError)
  | UpdateQuotaPlanRow _ _ => Some (Err DaoError)
  | DeleteQuotaPlanRow _ => Some (Err DaoError)
  | ClaimQuotaPlanReset _ _ _ => Some (Err DaoError)
  | FetchPlanAPIKeys _ => Some (Err DaoError)
  | FetchPlanEntities _ => Some (Err DaoError)
  | TxBegin => Some (Err DaoError)
  | TxCommit => Some (Err DaoError)
  | TxRollback => None
  | GetInt64 _ => Some (Err RedisError)
  | GetInt64Batch _ => Some (Err RedisError)
  | IncrBy _ _ => Some (Err RedisError)
  | SetQuota _ _ => Some (Err RedisError)
  | DeleteKey _ => Some (Err RedisError)
  | LockAcquire _ _ _ => Some (Err RedisError)
  | LockRelease _ _ => Some (Err RedisError)
  | LockRenew _ _ _ => Some (Err RedisError)
  | ClockNow => None
  | RecordPlan _ => None
  end.

#[export] Instance quota_interp : Interp quotaE qworld := {|
  handle := @quota_handle;
  fault := @quota_fault
|}.

#[export] Instance quota_txn : TxnCalls quotaE := {|
  tx_begin := TxBegin;
  tx_commit := TxCommit;
  tx_rollback := TxRollback;
  is_commit := fun R (e : quotaE R) => match e with TxCommit => true | _ => false end
|}.
