(* ===== verification/QuotaManager.v ===== *)
(** The quota cache, the quota plan manager, the periodic reset and its
    scheduler ([model/quotacache/redis.go], [model/quota/quota_plan_manager.go],
    [balance_sync.go], [scheduler.go], [operation_log.go]); and a concrete world. *)
From Stdlib Require Import ZArith Lia SpecFloat.
From stdpp Require Import base tactics numbers list strings gmap option.
From S2P Require Import Prelude GoStrings GoTime Prog QuotaModel.

Local Open Scope string_scope.

(** [if x < 0 { x = 0 }] *)
Definition at_least_zero (x : spec_float) : spec_float := if SFltb x f_zero then f_zero else x.

Section Quota.
(** [golibquota.PtrToRedisValue] and [PtrFromRedisValue]: a quota in its unit
    as the integer kept in Redis, and back; from an external package. *)
Context (PtrToRedisValue : spec_float -> option string -> Z).
Context (PtrFromRedisValue : Z -> option string -> spec_float).

(** * Quota cache; [client] tells whether a Redis client is configured *)

Definition GetRemaining (client : bool) (key : string) (unit_ : option string) : prog quotaE (result spec_float) :=
  if negb client then Ret (Ok f_zero)
  else
    remain <-? call (GetInt64 (AIUsedQuotaKey key)) ;;
    match remain with
    | None => Ret (Ok f_zero)
    | Some v => Ret (Ok (PtrFromRedisValue v unit_))
    end.

Definition BatchGetRemaining (client : bool) (keys : list string) (unit_ : option string)
  : prog quotaE (result (gmap string spec_float)) :=
  if negb client
  then Ret (Ok (fold_left (fun m k => <[k := f_zero]> m) keys ∅))
  else
    values <-? call (GetInt64Batch (map AIUsedQuotaKey keys)) ;;
    Ret (Ok (fold_left (fun m '(k, v) => <[k := PtrFromRedisValue v unit_]> m) (zip keys values) ∅)).

Definition SetRemaining (client : bool) (key : string) (quota : option spec_float) (unit_ : option string)
  : prog quotaE (result unit) :=
  match quota with
  | None => Ret (Ok tt)
  | Some quota =>
      if negb client then Ret (Ok tt)
      else
        let redisKey := AIUsedQuotaKey key in
        let targetValue := PtrToRedisValue quota unit_ in
        current <-? call (GetInt64 redisKey) ;;
        let currentValue := default 0%Z current in
        _ <-? call (IncrBy redisKey (wrap64 (targetValue - currentValue))) ;;
        Ret (Ok tt)
  end.

Definition ResetToQuota := SetRemaining.

Definition ResetToQuotaAtomic (client : bool) (key : string) (quota : option spec_float) (unit_ : option string)
  : prog quotaE (result unit) :=
  match quota with
  | None => Ret (Ok tt)
  | Some quota =>
      if negb client then Ret (Ok tt)
      else call (SetQuota (AIUsedQuotaKey key) (PtrToRedisValue quota unit_))
  end.

Fixpoint DeleteKeys (client : bool) (keys : list string) : prog quotaE (result unit) :=
  if negb client then Ret (Ok tt)
  else match keys with
       | [] => Ret (Ok tt)
       | k :: ks => _ <-? call (DeleteKey k) ;; DeleteKeys client ks
       end.

(** * Quota plan manager *)

Record QuotaPlanManager : Type := mkQPM {
  qm_hasCache : bool;
  qm_client : bool;
  qm_hasEntities : bool;
  qm_hasLog : bool
}.

Definition recordQuotaPlanOperation (m : QuotaPlanManager) (action planID parentID : string)
  (before after : option (gmap string aval)) (err : option goerr) : prog quotaE unit :=
  if qm_hasLog m then call (RecordPlan (mkPlanEntry action planID parentID before after err)) else Ret tt.

Definition quotaPlanIDString (id : Z) : string := FormatInt id.
Definition filterIDString (f : QuotaPlanFilter) : string :=
  match pf_ID f with Some id => quotaPlanIDString id | None => EmptyString end.

Definition CreateQuotaPlan (m : QuotaPlanManager) (p : QuotaPlanParam) (owner : string) : prog quotaE (result Z) :=
  r <- call (CreateQuotaPlanRow p) ;;
  match r with
  | Err e =>
      recordQuotaPlanOperation m "create" EmptyString owner None (quotaPlanParamToMap (Some p)) (Some e) ;;
      Ret (Err e)
  | Ok id =>
      recordQuotaPlanOperation m "create" (quotaPlanIDString id) owner None (quotaPlanParamToMap (Some p)) None ;;
      Ret (Ok id)
  end.

Definition UpdateQuotaPlan (m : QuotaPlanManager) (f : QuotaPlanFilter) (p : QuotaPlanParam) (owner : string)
  : prog quotaE (result Z) :=
  old <- call (FetchQuotaPlanRow f) ;;
  match old with
  | Err e =>
      recordQuotaPlanOperation m "update" (filterIDString f) owner None (quotaPlanParamToMap (Some p)) (Some e) ;;
      Ret (Err e)
  | Ok old =>
      r <- call (UpdateQuotaPlanRow f p) ;;
      recordQuotaPlanOperation m "update" (filterIDString f) owner (quotaPlanParamToMap old)
        (quotaPlanParamToMap (Some p)) (match r with Err e => Some e | Ok _ => None end) ;;
      Ret r
  end.

Definition DeleteQuotaPlan (m : QuotaPlanManager) (f : QuotaPlanFilter) (owner : string) : prog quotaE (result unit) :=
  old <- call (FetchQuotaPlanRow f) ;;
  match old with
  | Err e => recordQuotaPlanOperation m "delete" (filterIDString f) owner None None (Some e) ;; Ret (Err e)
  | Ok old =>
      r <- call (DeleteQuotaPlanRow f) ;;
      recordQuotaPlanOperation m "delete" (filterIDString f) owner (quotaPlanParamToMap old) None
        (match r with Err e => Some e | Ok _ => None end) ;;
      Ret r
  end.

(** ** Writes made in the transaction of the owner *)

Definition quotaPlanParamFromShared (p : option SharedPlan) : option QuotaPlanParam :=
  match p with
  | None => None
  | Some p => Some (mkPlanParam None (sh_Unlimited p) (sh_PassWhenNoEnoughQuota p) (sh_Quota p) (sh_Unit p)
                      (sh_ResetPeriod p) (sh_LastResetAt p) None)
  end.

(** The plan storage as API keys and entities use it. *)
Definition adapterCreate (p : SharedPlan) : prog quotaE (result Z) :=
  call (CreateQuotaPlanRow (mkPlanParam None (sh_Unlimited p) (sh_PassWhenNoEnoughQuota p) (sh_Quota p) (sh_Unit p)
                              (sh_ResetPeriod p) (sh_LastResetAt p) None)).
Definition adapterUpdate (id : Z) (p : SharedPlan) : prog quotaE (result Z) :=
  call (UpdateQuotaPlanRow (byPlanID id)
          (mkPlanParam None (sh_Unlimited p) (sh_PassWhenNoEnoughQuota p) (sh_Quota p) (sh_Unit p)
             (sh_ResetPeriod p) (sh_LastResetAt p) None)).
Definition adapterDelete (id : Z) : prog quotaE (result unit) := call (DeleteQuotaPlanRow (byPlanID id)).
Definition adapterFetch (id : Z) : prog quotaE (result (option SharedPlan)) :=
  r <- call (FetchQuotaPlanRow (byPlanID id)) ;;
  match r with
  | Err e => Ret (Err e)
  | Ok None => Ret (Ok None)
  | Ok (Some p) =>
      Ret (Ok (Some (mkSharedPlan (qp_Unlimited p) (qp_PassWhenNoEnoughQuota p) (qp_Quota p) (qp_Unit p)
                       (qp_ResetPeriod p) (qp_LastResetAt p))))
  end.

Definition audit_id (planID : Z) : string := if (0 <? planID)%Z then quotaPlanIDString planID else EmptyString.
Definition AuditQuotaPlanCreate (m : QuotaPlanManager) (p : option SharedPlan) (planID : Z) (owner : string)
  (err : option goerr) : prog quotaE unit :=
  recordQuotaPlanOperation m "create" (audit_id planID) owner None
    (quotaPlanParamToMap (quotaPlanParamFromShared p)) err.
Definition AuditQuotaPlanUpdate (m : QuotaPlanManager) (old p : option SharedPlan) (planID : Z) (owner : string)
  (err : option goerr) : prog quotaE unit :=
  recordQuotaPlanOperation m "update" (audit_id planID) owner (quotaPlanParamToMap (quotaPlanParamFromShared old))
    (quotaPlanParamToMap (quotaPlanParamFromShared p)) err.
Definition AuditQuotaPlanDelete (m : QuotaPlanManager) (old : option SharedPlan) (planID : Z) (owner : string)
  (err : option goerr) : prog quotaE unit :=
  recordQuotaPlanOperation m "delete" (audit_id planID) owner (quotaPlanParamToMap (quotaPlanParamFromShared old))
    None err.

(** Resets the counters of owners one after the other; a failure is skipped. *)
Definition reset_owners (m : QuotaPlanManager) (owners : list (option string)) (q : option spec_float)
  (unit_ : option string) : prog quotaE unit :=
  for_each owners tt (fun o _ =>
    match o with
    | None => Ret tt
    | Some key => ResetToQuota (qm_client m) key q unit_ ;; Ret tt
    end).

(** The variables set inside the transaction of [ResetBalance]. *)
Record reset_vars : Type := mkResetVars {
  rv_resetQuota : option spec_float; rv_planUnit : option string; rv_oldPlan : option QuotaPlanParam
}.
Definition noResetVars : reset_vars := mkResetVars None None None.

Definition reset_txn (planID : Z) (newQuota : option spec_float) (updateLastResetAt : bool)
  : prog quotaE (option goerr * reset_vars) :=
  plan <- call (FetchQuotaPlanRow (byPlanID planID)) ;;
  match plan with
  | Err e => Ret (Some e, noResetVars)
  | Ok None => Ret (Some (PlainError "quota_plan not found"), noResetVars)
  | Ok (Some plan) =>
      if default false (qp_Unlimited plan)
      then Ret (Some (ParamError "cannot reset balance for unlimited quota"), mkResetVars None None (Some plan))
      else
        upd <- match newQuota with
               | None => Ret None
               | Some q =>
                   r <- call (UpdateQuotaPlanRow (byPlanID planID)
                          (mkPlanParam None None None (Some q) None None None None)) ;;
                   Ret (match r with Err e => Some e | Ok _ => None end)
               end ;;
        let q := match newQuota with Some q => Some q | None => qp_Quota plan end in
        match upd with
        | Some e => Ret (Some e, mkResetVars q None (Some plan))
        | None =>
            let vars := mkResetVars q (qp_Unit plan) (Some plan) in
            if updateLastResetAt then
              now <- call ClockNow ;;
              r <- call (UpdateQuotaPlanRow (byPlanID planID)
                     (mkPlanParam None None None None None None (Some now) None)) ;;
              Ret (match r with Err e => Some e | Ok _ => None end, vars)
            else Ret (None, vars)
        end
  end.

(** The change map of the audit entry. *)
Definition reset_after (vars : reset_vars) (now : option gotime) : option (gmap string aval) :=
  Some (put "last_reset_at" ATime now
       (put "quota" AFloat (rv_resetQuota vars) (default ∅ (quotaPlanParamToMap (rv_oldPlan vars))))).

Definition read_clock_if (b : bool) : prog quotaE (option gotime) :=
  if b then now <- call ClockNow ;; Ret (Some now) else Ret None.

Definition ResetBalance (m : QuotaPlanManager) (planID : Z) (newQuota : option spec_float)
  (updateLastResetAt : bool) (owner : string) : prog quotaE (result unit) :=
  r <- AtomExecute noResetVars (reset_txn planID newQuota updateLastResetAt) ;;
  let '(err, vars) := r in
  now <- read_clock_if updateLastResetAt ;;
  recordQuotaPlanOperation m "reset" (quotaPlanIDString planID) owner (quotaPlanParamToMap (rv_oldPlan vars))
    (reset_after vars now) err ;;
  match err with
  | Some e => Ret (Err e)
  | None =>
      match rv_resetQuota vars with
      | None => Ret (Ok tt)
      | Some _ =>
          if negb (qm_hasCache m) then Ret (Ok tt)
          else
            keys <- call (FetchPlanAPIKeys planID) ;;
            match keys with
            | Err _ => Ret (Ok tt)
            | Ok keys =>
                reset_owners m (map k_Key keys) (rv_resetQuota vars) (rv_planUnit vars) ;;
                if negb (qm_hasEntities m) then Ret (Ok tt)
                else
                  ents <- call (FetchPlanEntities planID) ;;
                  match ents with
                  | Err _ => Ret (Ok tt)
                  | Ok ents =>
                      reset_owners m (map e_EntityID ents) (rv_resetQuota vars) (rv_planUnit vars) ;;
                      Ret (Ok tt)
                  end
            end
      end
  end.

(** ** Changing a plan *)

Definition ptrBoolEqual (a b : option bool) : bool := Bool.eqb (default false a) (default false b).
Definition ptrFloat64Equal (a b : option spec_float) : bool :=
  match a, b with
  | Some x, Some y => SFeqb x y
  | None, None => true
  | _, _ => false
  end.
Definition ptrStringEqual (a b : option string) : bool :=
  match a, b with
  | Some x, Some y => bool_decide (x = y)
  | None, None => true
  | _, _ => false
  end.

Definition quotaPlanChanged (oldPlan newPlan : option SharedPlan) : bool :=
  match oldPlan, newPlan with
  | Some o, Some n =>
      (bool_decide (is_Some (sh_Unlimited n)) && negb (ptrBoolEqual (sh_Unlimited o) (sh_Unlimited n))) ||
      (bool_decide (is_Some (sh_Quota n)) && negb (ptrFloat64Equal (sh_Quota o) (sh_Quota n))) ||
      (bool_decide (is_Some (sh_Unit n)) && negb (ptrStringEqual (sh_Unit o) (sh_Unit n)))
  | _, _ => true
  end.

Definition fetchEntitiesByPlan (m : QuotaPlanManager) (planID : Z) : prog quotaE (result (list PlanEntity)) :=
  if negb (qm_hasEntities m) then Ret (Ok []) else call (FetchPlanEntities planID).

Definition unlimited_sentinel : spec_float := float_of_Z 100000000.

(** What the transaction of [adjustQuota] decides. *)
Record adjust_vars : Type := mkAdjust {
  av_newQuota : option spec_float; av_oldQuota : option spec_float;
  av_planUnit : option string; av_useReset : bool
}.
Definition noAdjust : adjust_vars := mkAdjust None None None false.

Definition adjust_decide (plan : QuotaPlanParam) (oldPlan : option SharedPlan) (newPlan : SharedPlan) : adjust_vars :=
  let oldUnlimited := match oldPlan with Some o => default false (sh_Unlimited o) | None => false end in
  let newUnlimited := default oldUnlimited (sh_Unlimited newPlan) in
  let oldUnit := match oldPlan with Some o => default EmptyString (sh_Unit o) | None => EmptyString end in
  let newUnit := default oldUnit (sh_Unit newPlan) in
  let newQuota := match sh_Quota newPlan with Some q => Some q | None => qp_Quota plan end in
  let oldQuota := match oldPlan with Some o => sh_Quota o | None => None end in
  let planUnit := match qp_Unit plan with Some u => Some u | None => Some newUnit end in
  if newUnlimited then mkAdjust (Some unlimited_sentinel) oldQuota planUnit true
  else if match oldPlan with None => true | Some _ => false end || oldUnlimited || negb (bool_decide (oldUnit = newUnit))
  then mkAdjust newQuota oldQuota planUnit true
  else mkAdjust newQuota oldQuota planUnit false.

(** The remaining quota that keeps what was used. *)
Definition keep_used (oldQuota newQuota currentRemaining : spec_float) : spec_float :=
  at_least_zero (float_sub newQuota (at_least_zero (float_sub oldQuota currentRemaining))).

Definition adjustQuota (m : QuotaPlanManager) (planID : Z) (oldPlan : option SharedPlan) (newPlan : SharedPlan)
  : prog quotaE (result unit) :=
  r <- AtomExecute noAdjust
         (plan <- call (FetchQuotaPlanRow (byPlanID planID)) ;;
          match plan with
          | Err e => Ret (Some e, noAdjust)
          | Ok None => Ret (Some (PlainError "quota_plan not found"), noAdjust)
          | Ok (Some plan) => Ret (None, adjust_decide plan oldPlan newPlan)
          end) ;;
  match r with
  | (Some e, _) => Ret (Err e)
  | (None, v) =>
      match av_newQuota v with
      | None => Ret (Ok tt)
      | Some newQuota =>
          if negb (qm_hasCache m) then Ret (Ok tt)
          else
            keys <- call (FetchPlanAPIKeys planID) ;;
            match keys with
            | Err _ => Ret (Ok tt)
            | Ok keys =>
                ents <- fetchEntitiesByPlan m planID ;;
                match ents with
                | Err _ => Ret (Ok tt)
                | Ok ents =>
                    if av_useReset v then
                      reset_owners m (map k_Key keys) (Some newQuota) (av_planUnit v) ;;
                      reset_owners m (map e_EntityID ents) (Some newQuota) (av_planUnit v) ;;
                      Ret (Ok tt)
                    else
                      let allKeys := (omap k_Key keys ++ omap e_EntityID ents)%list in
                      remain <- BatchGetRemaining (qm_client m) allKeys (av_planUnit v) ;;
                      match remain with
                      | Err _ => Ret (Ok tt)
                      | Ok remain =>
                          for_each allKeys tt (fun key _ =>
                            let target := keep_used (default f_zero (av_oldQuota v)) newQuota
                                            (default f_zero (remain !! key)) in
                            SetRemaining (qm_client m) key (Some target) (av_planUnit v) ;; Ret tt) ;;
                          Ret (Ok tt)
                      end
                end
            end
      end
  end.

Definition ApplyQuotaPlanChange (m : QuotaPlanManager) (planID : Z) (oldPlan newPlan : option SharedPlan)
  : prog quotaE (result unit) :=
  match newPlan with
  | None => Ret (Ok tt)
  | Some n => if negb (quotaPlanChanged oldPlan newPlan) then Ret (Ok tt) else adjustQuota m planID oldPlan n
  end.

(** * Periodic reset *)

Record BalanceSyncManager : Type := mkBSM {
  bs_hasCache : bool; bs_client : bool; bs_hasEntities : bool;
  (** offset of the local zone *)
  bs_loc : Z
}.

(** Monday 00:00 of the week of [t]. *)
Definition getWeekStart (loc : Z) (t : gotime) : gotime :=
  let weekday := Weekday loc t in
  let back := if (weekday =? 0)%Z then 6%Z else (weekday - 1)%Z in
  let '(y, m, d) := Date loc (AddDays loc t (- back)) in time_Date loc y m d 0.

Definition getMonthStart (loc : Z) (t : gotime) : gotime :=
  let '(y, m, _) := Date loc t in time_Date loc y m 1 0.

Definition getPeriodStart (loc : Z) (resetPeriod : string) (t : gotime) : gotime :=
  if bool_decide (resetPeriod = "weekly") then getWeekStart loc t
  else if bool_decide (resetPeriod = "monthly") then getMonthStart loc t
  else t.

Definition shouldResetByPeriod (loc : Z) (lastResetAt : option gotime) (resetPeriod : string) (now : gotime) : bool :=
  if negb (periodic resetPeriod) then false
  else match lastResetAt with
       | None => true
       | Some last => (getPeriodStart loc resetPeriod last <? getPeriodStart loc resetPeriod now)%Z
       end.

(** Sets the counters of the owners to the full quota; a failure is skipped. *)
Definition fill_owners (m : BalanceSyncManager) (owners : list (option string)) (q : option spec_float)
  (unit_ : option string) : prog quotaE unit :=
  for_each owners tt (fun o _ =>
    match o with
    | None => Ret tt
    | Some key => ResetToQuotaAtomic (bs_client m) key q unit_ ;; Ret tt
    end).

(** A key that was never created is skipped. *)
Definition created_key (k : PlanAPIKey) : option string :=
  match k_KeyCreateAt k with Some _ => k_Key k | None => None end.

Definition resetAPIKeysRedisUsage (m : BalanceSyncManager) (planID : Z) : prog quotaE (result unit) :=
  plan <- call (FetchQuotaPlanRow (byPlanID planID)) ;;
  match plan with
  | Err e => Ret (Err e)
  | Ok None => Ret (Err (PlainError "plan not found or quota is nil"))
  | Ok (Some plan) =>
      match qp_Quota plan with
      | None => Ret (Err (PlainError "plan not found or quota is nil"))
      | Some _ =>
          keys <-? call (FetchPlanAPIKeys planID) ;;
          ents <-? (if bs_hasEntities m then call (FetchPlanEntities planID) else Ret (Ok [])) ;;
          if negb (bs_hasCache m) then Ret (Ok tt)
          else
            fill_owners m (map created_key keys) (qp_Quota plan) (qp_Unit plan) ;;
            fill_owners m (map e_EntityID ents) (qp_Quota plan) (qp_Unit plan) ;;
            Ret (Ok tt)
      end
  end.

(** One plan of the round, at the time [now] of the round. *)
Definition reset_if_due (m : BalanceSyncManager) (now : gotime) (plan : QuotaPlanParam) : prog quotaE unit :=
  match qp_ID plan, qp_ResetPeriod plan with
  | Some id, Some period =>
      if negb (shouldResetByPeriod (bs_loc m) (qp_LastResetAt plan) period now) then Ret tt
      else
        affected <- call (ClaimQuotaPlanReset id (getPeriodStart (bs_loc m) period now) now) ;;
        match affected with
        | Err _ => Ret tt
        | Ok n => if (n =? 0)%Z then Ret tt else resetAPIKeysRedisUsage m id ;; Ret tt
        end
  | _, _ => Ret tt
  end.

Definition dueFilter : QuotaPlanFilter := mkPlanFilter None (Some false) ["weekly"; "monthly"].

Definition ResetExpiredBalances (m : BalanceSyncManager) : prog quotaE (result unit) :=
  r <- AtomExecute tt
         (plans <- call (FetchQuotaPlanRows dueFilter) ;;
          match plans with
          | Err e => Ret (Some e, tt)
          | Ok plans =>
              now <- call ClockNow ;;
              for_each plans tt (fun plan _ => reset_if_due m now plan) ;;
              Ret (None, tt)
          end) ;;
  Ret (match r with (Some e, _) => Err e | (None, _) => Ok tt end).

(** * Scheduler *)

Record QuotaResetScheduler : Type := mkScheduler { s_hasLock : bool; s_token : string }.

Definition schedulerLockKey : string := "quota:reset:scheduler:lock".
Definition schedulerLockTTL : Z := 300.

Definition resetQuotas (s : QuotaResetScheduler) (m : BalanceSyncManager) : prog quotaE unit :=
  if s_hasLock s then
    acq <- call (LockAcquire schedulerLockKey (s_token s) schedulerLockTTL) ;;
    match acq with
    | Ok true =>
        ResetExpiredBalances m ;;
        call (LockRelease schedulerLockKey (s_token s)) ;; Ret tt
    | _ => Ret tt
    end
  else ResetExpiredBalances m ;; Ret tt.

(** One tick of the watchdog that runs while the lock is held. *)
Definition renewTick (s : QuotaResetScheduler) : prog quotaE unit :=
  call (LockRenew schedulerLockKey (s_token s) schedulerLockTTL) ;; Ret tt.
End Quota.

(** A concrete world of quota plans: one weekly plan with an API key and an
    entity, due for its reset. *)

(** Thousandths of the unit as the integers kept in Redis. *)
Definition milli (q : spec_float) (unit_ : option string) : Z :=
  match q with
  | S754_finite false m e => 1000 * (if (e <? 0)%Z then Z.pos m / 2 ^ (- e) else Z.pos m * 2 ^ e)
  | _ => 0
  end.
Definition of_milli (v : Z) (unit_ : option string) : spec_float := float_of_Z (v / 1000).

Definition noon : gotime := time_Unix 1750000000.
Definition shanghai : Z := 28800.

Definition sample_plan (unlimited : bool) (last : option gotime) : TQuotaPlan :=
  mkPlanRow 1 unlimited false (float_of_Z 500) "total_token" "weekly" last 0 0.

Definition sample_qworld (plan : TQuotaPlan) : qworld := {|
  q_plans := [plan]; q_nextPlan := 2;
  q_keys := [mkPlanKey 1 (Some "sk-a") (Some 0%Z); mkPlanKey 1 None None];
  q_entities := [mkPlanEntity 1 (Some "team")];
  q_saved := None;
  q_redis := {[ "QUOTA_sk-a" := 120000%Z; "QUOTA_team" := 7000%Z; "QUOTA_other" := 3%Z ]};
  q_locks := ∅; q_redisNow := noon; q_clock := fun _ => noon; q_reads := 0; q_audit := [];
  q_claims := []; q_stored := fun q => q
|}.

Definition due_world : qworld := sample_qworld (sample_plan false (Some (noon - 30 * day_ns)%Z)).
Definition sample_bsm : BalanceSyncManager := mkBSM true true true shanghai.
Definition sample_qpm : QuotaPlanManager := mkQPM true true true true.

(** A round refills the key and the entity of the due plan. *)
Example sample_round :
  let '(r, w') := exec [] (ResetExpiredBalances milli sample_bsm) due_world in
  r = Ok tt /\ q_claims w' = [1%Z] /\
  map (fun k => q_redis w' !! k) ["QUOTA_sk-a"; "QUOTA_team"; "QUOTA_other"] =
    [Some 500000%Z; Some 500000%Z; Some 3%Z].
Proof. vm_compute. repeat split. Qed.

(** Raising the quota keeps what was used. *)
Example sample_adjust :
  let old := mkSharedPlan (Some false) None (Some (float_of_Z 500)) (Some "total_token") None None in
  let new := mkSharedPlan None None (Some (float_of_Z 600)) None None None in
  let '(r, w') := exec [] (ApplyQuotaPlanChange milli of_milli sample_qpm 1 (Some old) (Some new)) due_world in
  r = Ok tt /\ q_redis w' !! "QUOTA_sk-a" = Some 220000%Z /\ q_redis w' !! "QUOTA_team" = Some 107000%Z.
Proof. vm_compute. repeat split. Qed.
