(* ===== verification/QuotaSafety.v ===== *)
(** Reset periods: where a week and a month start, that the check in memory
    and the condition of the claim agree, and that a period is claimed at
    most once; the lock keeps schedulers apart, and a failed reset leaves the
    plan as it was. *)
From Stdlib Require Import ZArith Lia SpecFloat.
From stdpp Require Import base tactics numbers list strings gmap option.
From S2P Require Import Prelude GoStrings GoTime Prog QuotaModel QuotaManager.

Local Open Scope string_scope.

(** * Days *)

(** Midnight at the start of day [n] in the zone [loc]. *)
Definition midnight (loc n : Z) : gotime := (n * day_ns - loc * second)%Z.

(** The Monday of the week of day [n]; day 0 was a Monday. *)
Definition week_first (n : Z) : Z := (n - n mod 7)%Z.

(** The first day of the period of day [n]. *)
Definition period_first (period : string) : Z -> Z :=
  if bool_decide (period = "weekly") then week_first else month_first.

Lemma day_ns_pos : (0 < day_ns)%Z.
Proof. reflexivity. Qed.

Lemma local_split loc t : (t = midnight loc (local_day loc t) + local_ns loc t)%Z.
Proof.
  unfold midnight, local_day, local_ns. pose proof (Z.div_mod (t + loc * second) day_ns ltac:(pose proof day_ns_pos; lia)).
  lia.
Qed.

Lemma local_ns_bounds loc t : (0 <= local_ns loc t < day_ns)%Z.
Proof. apply Z.mod_pos_bound, day_ns_pos. Qed.

Lemma local_day_midnight loc n k : (0 <= k < day_ns)%Z -> local_day loc (midnight loc n + k) = n.
Proof.
  intros Hk. unfold local_day, midnight.
  replace (n * day_ns - loc * second + k + loc * second)%Z with (k + n * day_ns)%Z by lia.
  rewrite Z.div_add, Z.div_small by (pose proof day_ns_pos; lia). lia.
Qed.

Lemma local_day_mono loc t t' : (t <= t')%Z -> (local_day loc t <= local_day loc t')%Z.
Proof. intros Ht. apply Z.div_le_mono; [apply day_ns_pos|lia]. Qed.

Lemma midnight_mono loc n n' : (n <= n')%Z -> (midnight loc n <= midnight loc n')%Z.
Proof. unfold midnight. pose proof day_ns_pos. nia. Qed.

Lemma AddDays_spec loc t k : AddDays loc t k = (t + k * day_ns)%Z.
Proof.
  unfold AddDays, Date. pose proof (civil_spec (local_day loc t)) as H.
  destruct (civil (local_day loc t)) as [[y m] d]. destruct H as (E & _ & _).
  rewrite (local_split loc t) at 2. unfold time_Date, midnight. rewrite <- E. unfold date_to_days. lia.
Qed.

Lemma getWeekStart_spec loc t : getWeekStart loc t = midnight loc (week_first (local_day loc t)).
Proof.
  unfold getWeekStart.
  set (back := if (Weekday loc t =? 0)%Z then 6%Z else (Weekday loc t - 1)%Z).
  assert (back = local_day loc t mod 7)%Z as Eb.
  { unfold back, Weekday. generalize (local_day loc t). intros n.
    destruct ((n + 1) mod 7 =? 0)%Z eqn:E; Z.to_euclidean_division_equations; lia. }
  rewrite AddDays_spec. unfold Date.
  rewrite (local_split loc t) at 1.
  replace (midnight loc (local_day loc t) + local_ns loc t + - back * day_ns)%Z
    with (midnight loc (local_day loc t - back) + local_ns loc t)%Z by (unfold midnight; lia).
  rewrite local_day_midnight by apply local_ns_bounds.
  pose proof (civil_spec (local_day loc t - back)) as H. destruct (civil _) as [[y m] d].
  destruct H as (E & _ & _). unfold time_Date, week_first, midnight. rewrite E, Eb. lia.
Qed.

Lemma getMonthStart_spec loc t : getMonthStart loc t = midnight loc (month_first (local_day loc t)).
Proof.
  unfold getMonthStart, Date, month_first. destruct (civil (local_day loc t)) as [[y m] d].
  unfold time_Date, midnight. lia.
Qed.

Lemma getPeriodStart_spec loc p t : periodic p = true ->
  getPeriodStart loc p t = midnight loc (period_first p (local_day loc t)).
Proof.
  unfold periodic, getPeriodStart, period_first. intros Hp.
  case_bool_decide; [apply getWeekStart_spec|]. cbn [orb] in Hp. rewrite Hp. apply getMonthStart_spec.
Qed.

Lemma period_first_le p n : (period_first p n <= n)%Z.
Proof.
  unfold period_first. case_bool_decide; [|apply month_first_le].
  unfold week_first. pose proof (Z.mod_pos_bound n 7 ltac:(lia)). lia.
Qed.

Lemma period_first_mono p n n' : (n <= n')%Z -> (period_first p n <= period_first p n')%Z.
Proof.
  unfold period_first. case_bool_decide; [|apply month_first_mono].
  intros Hn. unfold week_first. Z.to_euclidean_division_equations; lia.
Qed.

Lemma period_first_idem p n : period_first p (period_first p n) = period_first p n.
Proof.
  unfold period_first. case_bool_decide; [|apply month_first_idem].
  unfold week_first. Z.to_euclidean_division_equations; lia.
Qed.

Lemma period_start_le loc p t : periodic p = true -> (getPeriodStart loc p t <= t)%Z.
Proof.
  intros Hp. rewrite getPeriodStart_spec by done. rewrite (local_split loc t) at 2.
  pose proof (midnight_mono loc _ _ (period_first_le p (local_day loc t))).
  pose proof (local_ns_bounds loc t). lia.
Qed.

Lemma period_start_mono loc p t t' : periodic p = true -> (t <= t')%Z ->
  (getPeriodStart loc p t <= getPeriodStart loc p t')%Z.
Proof.
  intros Hp Ht. rewrite !getPeriodStart_spec by done.
  apply midnight_mono, period_first_mono, local_day_mono, Ht.
Qed.

Lemma period_start_idem loc p t : periodic p = true ->
  getPeriodStart loc p (getPeriodStart loc p t) = getPeriodStart loc p t.
Proof.
  intros Hp. rewrite !(getPeriodStart_spec loc p) by done.
  replace (local_day loc (midnight loc (period_first p (local_day loc t)))) with (period_first p (local_day loc t)).
  - by rewrite period_first_idem.
  - rewrite <- (Z.add_0_r (midnight loc _)), local_day_midnight; [done|]. pose proof day_ns_pos. lia.
Qed.

(** Where a period starts.  In every zone of constant offset, the week
    of a time starts on a Monday at local midnight, not after the time and
    less than seven days before it; its month starts at local midnight on
    the first day of the same month. *)
Theorem period_starts (loc : Z) (t : gotime) :
  (exists n, getWeekStart loc t = midnight loc n /\ Weekday loc (midnight loc n) = 1%Z /\
             (midnight loc n <= t < midnight loc (n + 7))%Z) /\
  (exists n y m d, getMonthStart loc t = midnight loc n /\ Date loc t = (y, m, d) /\
             n = date_to_days y m 1 /\ (midnight loc n <= t < midnight loc (n + days_in_month y m))%Z).
Proof.
  pose proof (local_ns_bounds loc t) as Hns. pose proof (local_split loc t) as Hsp. split.
  - exists (week_first (local_day loc t)). split; [apply getWeekStart_spec|]. split.
    + unfold Weekday. rewrite <- (Z.add_0_r (midnight loc _)), local_day_midnight by (pose proof day_ns_pos; lia).
      unfold week_first. Z.to_euclidean_division_equations; lia.
    + unfold midnight, week_first in *. pose proof (Z.mod_pos_bound (local_day loc t) 7 ltac:(lia)). nia.
  - pose proof (civil_spec (local_day loc t)) as H. unfold Date. rewrite getMonthStart_spec. unfold month_first.
    destruct (civil (local_day loc t)) as [[y m] d]. destruct H as (E & _ & Hd).
    exists (date_to_days y m 1), y, m, d. split; [done|]. split; [done|]. split; [done|].
    rewrite <- E in Hsp. unfold midnight, date_to_days in *. nia.
Qed.

(** * The check and the claim *)

(** The check in memory on a row. *)
Definition due_row (loc : Z) (now : gotime) (r : TQuotaPlan) : bool :=
  shouldResetByPeriod loc (tp_LastResetAt r) (tp_ResetPeriod r) now.

(** Comparing the starts of two periods is comparing with the later start. *)
Lemma due_claimable (loc : Z) (now : gotime) (r : TQuotaPlan) :
  periodic (tp_ResetPeriod r) = true ->
  due_row loc now r = claimable (tp_ID r) (getPeriodStart loc (tp_ResetPeriod r) now) r.
Proof.
  intros Hp. unfold due_row, shouldResetByPeriod, claimable. rewrite Hp, Z.eqb_refl. cbn [negb andb].
  destruct (tp_LastResetAt r) as [last|]; [|done]. set (p := tp_ResetPeriod r) in *.
  pose proof (period_start_le loc p last Hp) as H1.
  destruct (last <? getPeriodStart loc p now)%Z eqn:E.
  - lia.
  - apply Z.ltb_ge in E. apply Z.ltb_ge.
    pose proof (period_start_mono loc p _ _ Hp E) as H2. by rewrite period_start_idem in H2.
Qed.

(** The check in memory and the condition of the claim agree.  For a
    weekly or monthly plan, comparing the starts of the two periods decides
    exactly what the WHERE clause of the claim decides, so that a plan found
    due can be claimed and one that is not due cannot. *)
Theorem due_iff_claimable (loc : Z) (now : gotime) (r : TQuotaPlan) :
  periodic (tp_ResetPeriod r) = true ->
  due_row loc now r = claimable (tp_ID r) (getPeriodStart loc (tp_ResetPeriod r) now) r.
Proof. apply due_claimable. Qed.

Lemma due_iff_claimable_witness :
  let r := mkPlanRow 1 false false f_zero "total_token" "weekly" (Some (time_Unix 1750000000)) 0 0 in
  due_row 28800 (time_Unix 1750100000) r = claimable 1 (getPeriodStart 28800 "weekly" (time_Unix 1750100000)) r.
Proof. apply due_iff_claimable. reflexivity. Defined.

(** Safety of the quota managers: a period is claimed once, the lock keeps
    schedulers apart, a failed reset leaves the plan as it was. *)

(** The database as rounds in different connections see it: rolling back one
    transaction undoes nothing of the others.  A round rolls back when its
    listing failed, before it has written anything, and after a COMMIT without
    an answer, which is taken to have been done; so a rollback changes no row.
    (A COMMIT that never arrives takes the claim of its round back; see
    [lost_commit_resets_again].) *)
Definition separate_rounds : Interp quotaE qworld := {|
  handle := fun R e w => ((quota_handle e w).1, match e with TxRollback => w | _ => (quota_handle e w).2 end);
  fault := @quota_fault
|}.

(** How often plan [id] was claimed, and whether it still can be. *)
Definition claims_of (id : Z) (w : qworld) : nat := count_occ Z.eq_dec (q_claims w) id.
Definition open_claim (id : Z) (start : gotime) (w : qworld) : nat :=
  if existsb (claimable id start) (q_plans w) then 1 else 0.

Section Once.
(** Plan [id] has the period [p], and all readings of the clock fall into the
    period that starts at [start]. *)
Context (loc id : Z) (p : string) (start : gotime).
Hypothesis Hp : periodic p = true.

Definition in_period (w : qworld) : Prop :=
  (forall n, getPeriodStart loc p (q_clock w n) = start) /\
  (forall r, r ∈ q_plans w -> tp_ID r = id -> tp_ResetPeriod r = p).

(** The calls of a round; a claim of the plan is for the current period. *)
Definition round_call (R : Type) (e : quotaE R) : Prop :=
  match e with
  | ClaimQuotaPlanReset i ps now => i = id -> ps = start /\ (start <= now)%Z
  | CreateQuotaPlanRow _ | UpdateQuotaPlanRow _ _ | DeleteQuotaPlanRow _ => False
  | _ => True
  end.

Definition round_answer (R : Type) (e : quotaE R) : R -> Prop :=
  match e in quotaE R return R -> Prop with
  | FetchQuotaPlanRows _ => fun r => forall l, r = Ok l ->
      forall plan, plan ∈ l -> qp_ID plan = Some id -> qp_ResetPeriod plan = Some p
  | ClockNow => fun t => getPeriodStart loc p t = start
  | _ => fun _ => True
  end.

Definition claim_spent (w w' : qworld) : Prop :=
  (claims_of id w' + open_claim id start w' <= claims_of id w + open_claim id start w)%nat.

#[export] Instance claim_spent_preorder : PreOrder claim_spent.
Proof. split; unfold claim_spent; [intros w; lia|intros w1 w2 w3; lia]. Qed.

Lemma claim_row_key i ps now r : tp_ID (claim_row i ps now r) = tp_ID r /\
  tp_ResetPeriod (claim_row i ps now r) = tp_ResetPeriod r.
Proof. unfold claim_row. by destruct (claimable i ps r). Qed.

(** A claim of another plan leaves this one alone. *)
Lemma claim_row_other i ps now r : i <> id -> claimable id start (claim_row i ps now r) = claimable id start r.
Proof.
  intros Hi. unfold claim_row. destruct (claimable i ps r) eqn:E; [|done].
  unfold claimable in *. apply andb_true_iff in E as [E _]. apply Z.eqb_eq in E. cbn.
  by replace (tp_ID r =? id)%Z with false by (symmetry; apply Z.eqb_neq; congruence).
Qed.

(** A claim of this plan closes it. *)
Lemma claim_row_closes now r : (start <= now)%Z -> claimable id start (claim_row id start now r) = false.
Proof.
  intros Hn. unfold claim_row. destruct (claimable id start r) eqn:E; [|exact E].
  unfold claimable. cbn. rewrite (proj2 (Z.ltb_ge _ _) Hn). by rewrite andb_false_r.
Qed.

Lemma existsb_map_ext {A} (f : A -> bool) (g : A -> A) l :
  (forall x, f (g x) = f x) -> existsb f (map g l) = existsb f l.
Proof. intros Hg. induction l as [|x l IH]; cbn; [done|]. by rewrite Hg, IH. Qed.

Lemma existsb_map_none {A} (f : A -> bool) (g : A -> A) l :
  (forall x, f (g x) = false) -> existsb f (map g l) = false.
Proof. intros Hg. induction l as [|x l IH]; cbn; [done|]. by rewrite Hg, IH. Qed.

Lemma existsb_filter {A} (f : A -> bool) l : existsb f l = negb (Nat.eqb (length (List.filter f l)) 0).
Proof. induction l as [|x l IH]; cbn; [done|]. by destruct (f x). Qed.

Lemma claim_handle i ps now w : round_call _ (ClaimQuotaPlanReset i ps now) ->
  claim_spent w (quota_handle (ClaimQuotaPlanReset i ps now) w).2.
Proof.
  intros Hc. cbn [round_call] in Hc. unfold claim_spent, claims_of, open_claim.
  cbn [quota_handle snd q_plans q_claims set_plans].
  destruct (Z.eq_dec i id) as [->|Hne].
  - destruct (Hc eq_refl) as [-> Hn].
    rewrite (existsb_map_none (claimable id start)) by (intros r; by apply claim_row_closes).
    rewrite existsb_filter. destruct (length _) as [|n]; cbn [Nat.eqb negb]; [lia|].
    rewrite count_occ_app. cbn. destruct (Z.eq_dec id id); [lia|done].
  - rewrite (existsb_map_ext (claimable id start)) by (intros r; by apply claim_row_other).
    destruct (Nat.eqb _ 0); [lia|]. rewrite count_occ_app. cbn.
    destruct (Z.eq_dec i id); [done|lia].
Qed.

Lemma round_keeps R (e : quotaE R) w : in_period w -> round_call R e ->
  in_period (handle (Interp := separate_rounds) e w).2 /\ claim_spent w (handle (Interp := separate_rounds) e w).2.
Proof.
  intros [Hc Hr] He. cbn [handle separate_rounds snd].
  assert (forall w', q_clock w' = q_clock w -> q_plans w' = q_plans w -> q_claims w' = q_claims w ->
    in_period w' /\ claim_spent w w') as Hsame.
  { intros w' E1 E2 E3. unfold in_period, claim_spent, claims_of, open_claim. rewrite E1, E2, E3. auto. }
  destruct e; cbn [round_call] in He; try done; try (apply Hsame; reflexivity).
  - split; [split|by apply claim_handle]; [exact Hc|]. cbn. intros r Hin Hid.
    apply list_elem_of_fmap in Hin as (r0 & -> & Hin).
    destruct (claim_row_key id0 periodStart now r0) as [E1 E2]. rewrite E2. apply Hr; [done|congruence].
  - cbn. destruct (int64_ok _); apply Hsame; reflexivity.
  - cbn. destruct (held w key); apply Hsame; reflexivity.
  - cbn. destruct (bool_decide _); apply Hsame; reflexivity.
  - cbn. destruct (bool_decide _); apply Hsame; reflexivity.
Qed.

Lemma round_answers R (e : quotaE R) w o : in_period w -> round_call R e ->
  in_period (answer (H := separate_rounds) o e w).2 /\ claim_spent w (answer (H := separate_rounds) o e w).2 /\
  round_answer R e (answer (H := separate_rounds) o e w).1.
Proof.
  intros Hw He. destruct (round_keeps R e w Hw He) as [H1 H2].
  assert (round_answer R e (handle (Interp := separate_rounds) e w).1) as H3.
  { destruct e; cbn [round_answer]; try exact I.
    - intros l [= <-] plan Hin. apply list_elem_of_fmap in Hin as (r & -> & Hin).
      apply list_elem_of_In, filter_In in Hin as [Hin _]. apply list_elem_of_In in Hin.
      cbn. intros [= Hid]. f_equal. by apply Hw.
    - cbn. apply Hw. }
  unfold answer. cbn [handle fault separate_rounds fst] in *.
  destruct o; [by auto| |];
    (destruct e; cbn [round_answer quota_fault fst snd] in *; try (split; [assumption|split; [assumption|exact I]]);
       try (split; [exact Hw|split; [reflexivity|exact I]]); by auto).
Qed.

Context (To : spec_float -> option string -> Z).

Abbreviation guarded_round := (guarded round_call round_answer) (only parsing).

(** Programs without a claim, a write of a plan or a rollback. *)
Lemma round_resetUsage m i (Q : result unit -> Prop) : (forall r, Q r) ->
  guarded_round Q (resetAPIKeysRedisUsage To m i).
Proof.
  intros HQ. apply all_calls_guarded; [|exact HQ].
  unfold resetAPIKeysRedisUsage, fill_owners, ResetToQuotaAtomic. repeat calls_step; exact I.
Qed.

Lemma round_reset_if_due m now plan : bs_loc m = loc -> getPeriodStart loc p now = start ->
  (qp_ID plan = Some id -> qp_ResetPeriod plan = Some p) ->
  guarded_round (fun _ => True) (reset_if_due To m now plan).
Proof.
  intros Hl Hn Hplan. unfold reset_if_due. destruct (qp_ID plan) as [i|]; [|by constructor].
  destruct (qp_ResetPeriod plan) as [per|]; [|by constructor].
  case_match; [by constructor|]. cbn [bind call]. constructor.
  - cbn [round_call]. intros ->. specialize (Hplan eq_refl). injection Hplan as ->. rewrite Hl, Hn.
    split; [done|]. rewrite <- Hn. by apply period_start_le.
  - intros [n|e] _; [|by constructor]. case_match; [by constructor|].
    eapply guarded_bind; [apply (round_resetUsage m i (fun _ => True)); done|]. intros; by constructor.
Qed.

Lemma round_guarded m : bs_loc m = loc -> guarded_round (fun _ => True) (ResetExpiredBalances To m).
Proof.
  intros Hl. unfold ResetExpiredBalances, AtomExecute. cbn [tx_begin tx_commit tx_rollback quota_txn]. cbn [bind call].
  constructor; [exact I|]. intros [u|e] _; cbn [bind]; [|by constructor].
  constructor; [exact I|]. intros [l|e] Hlist; cbn [bind]; [|cbn [call bind]; constructor; [exact I|]; intros [] _; by constructor].
  cbn [round_answer] in Hlist. specialize (Hlist l eq_refl). constructor; [exact I|]. cbn [round_answer]. intros now Hnow.
  eapply guarded_bind with (QA := fun _ => True); [|intros; by constructor].
  eapply guarded_bind with (QA := fun x => x = (None, tt)).
  - eapply guarded_bind with (QA := fun _ => True); [|intros; by constructor].
    apply guarded_for_each; [done|]. intros plan s Hin _. apply round_reset_if_due; auto.
  - intros a ->. cbn [bind call]. constructor; [exact I|]. intros [x|e] _; [by constructor|]. cbn [call bind]. constructor; [exact I|]. intros [] _; by constructor.
Qed.
End Once.

(** C36: a period is reset at most once.  Any number of reset rounds of any
    instances in one zone run interleaved, with any calls failing but so that
    a COMMIT is done when it is sent, while every reading of the clock falls
    into one period of the plan: all together they claim the plan at most
    once, and not at all if it was already reset in this period. *)
Theorem period_claimed_once (To : spec_float -> option string -> Z) (loc id : Z) (p : string) (start : gotime)
  (ms : list BalanceSyncManager) (sched : list (nat * outcome)) (w : qworld) :
  periodic p = true -> in_period loc id p start w -> Forall (fun m => bs_loc m = loc) ms ->
  (claims_of id (@interleave _ _ separate_rounds _ sched (map (ResetExpiredBalances To) ms) w).2
   <= claims_of id w + open_claim id start w)%nat.
Proof.
  intros Hp Hw Hms.
  destruct (interleave_guarded (H := separate_rounds) (round_call id start) (round_answer loc id p start)
              (in_period loc id p start) (claim_spent id start) (round_answers loc id p start)
              (fun _ => True) sched (map (ResetExpiredBalances To) ms) w Hw) as [_ Hs].
  - induction Hms as [|m ms Hm _ IH]; cbn [map]; constructor; [by apply round_guarded|exact IH].
  - unfold claim_spent in Hs. lia.
Qed.

Lemma period_claimed_once_witness :
  let start := getPeriodStart shanghai "weekly" noon in
  in_period shanghai 1 "weekly" start due_world /\
  (claims_of 1 (@interleave _ _ separate_rounds _
      [(0, Normal); (1, Normal); (0, Normal); (1, Normal); (0, Normal); (1, Normal); (1, Normal); (0, FailAfter)]
      (map (ResetExpiredBalances milli) [sample_bsm; sample_bsm]) due_world).2
   <= 0 + open_claim 1 start due_world)%nat.
Proof.
  cbv zeta. assert (in_period shanghai 1 "weekly" (getPeriodStart shanghai "weekly" noon) due_world) as Hw.
  { split; [done|]. intros r Hr _. by apply list_elem_of_singleton in Hr as ->. }
  split; [exact Hw|].
  apply (period_claimed_once milli shanghai 1 "weekly" (getPeriodStart shanghai "weekly" noon)); [done|exact Hw|].
  repeat constructor.
Defined.

(** The counters are filled before the COMMIT.  One that never arrives takes
    the claim back and leaves them filled, and the next round fills them once
    more. *)
Example lost_commit_resets_again :
  let lost := exec (replicate 9 Normal ++ [FailBefore]) (ResetExpiredBalances milli sample_bsm) due_world in
  lost.1 = Err DaoError /\ open_claim 1 (getPeriodStart shanghai "weekly" noon) lost.2 = 1%nat /\ claims_of 1 lost.2 = 1%nat /\
  claims_of 1 (exec [] (ResetExpiredBalances milli sample_bsm) lost.2).2 = 2%nat.
Proof. vm_compute. auto. Qed.

(** * The scheduler's lock *)

(** The stages of a round of another instance while the lock is held. *)
Inductive shut_out (token : string) : prog quotaE unit -> Prop :=
| so_done : shut_out token (Ret tt)
| so_acquire t ttl (k : result bool -> prog quotaE unit) :
    (forall e, shut_out token (k (Err e))) -> shut_out token (k (Ok false)) ->
    shut_out token (Call (LockAcquire schedulerLockKey t ttl) k)
| so_renew t ttl (k : result unit -> prog quotaE unit) :
    t <> token -> (forall r, shut_out token (k r)) ->
    shut_out token (Call (LockRenew schedulerLockKey t ttl) k)
| so_release t (k : result unit -> prog quotaE unit) :
    t <> token -> (forall r, shut_out token (k r)) ->
    shut_out token (Call (LockRelease schedulerLockKey t) k).

(** A round or a watchdog tick of an instance that uses the lock. *)
Inductive scheduled (To : spec_float -> option string -> Z) (token : string) : prog quotaE unit -> Prop :=
| sched_round s m : s_hasLock s = true -> scheduled To token (resetQuotas To s m)
| sched_renew s : s_token s <> token -> scheduled To token (renewTick s).

Lemma scheduled_shut_out To token p : scheduled To token p -> shut_out token p.
Proof.
  intros [s m Hs|s Ht].
  - unfold resetQuotas. rewrite Hs. cbn [bind call]. constructor; [intros e|]; constructor.
  - unfold renewTick. cbn [bind call]. constructor; [exact Ht|]. intros r. constructor.
Qed.

Lemma shut_out_step token o p w : shut_out token p -> held w schedulerLockKey = Some token ->
  shut_out token (step o p w).1 /\ (step o p w).2 = w.
Proof.
  intros Hp Hh. destruct Hp as [|t ttl k He Hf|t ttl k Ht Hk|t k Ht Hk]; cbn [step].
  - split; [constructor|done].
  - assert (handle (LockAcquire schedulerLockKey t ttl) w = (Ok false, w)) as Eh by (cbn; by rewrite Hh).
    unfold answer. rewrite Eh. destruct o; cbn; auto.
  - assert (handle (LockRenew schedulerLockKey t ttl) w = (Ok tt, w)) as Eh.
    { cbn. rewrite Hh, bool_decide_eq_false_2; [done|congruence]. }
    unfold answer. rewrite Eh. destruct o; cbn; auto.
  - assert (handle (LockRelease schedulerLockKey t) w = (Ok tt, w)) as Eh.
    { cbn. rewrite Hh, bool_decide_eq_false_2; [done|congruence]. }
    unfold answer. rewrite Eh. destruct o; cbn; auto.
Qed.

(** The lock keeps schedulers apart.  While an instance holds the
    unexpired lock, rounds of other instances change nothing, and neither do
    the watchdogs of instances with other tokens, in any number, under any
    interleaving and with any calls failing. *)
Theorem held_lock_excludes (To : spec_float -> option string -> Z) (token : string)
  (pool : list (prog quotaE unit)) (sched : list (nat * outcome)) (w : qworld) :
  held w schedulerLockKey = Some token -> Forall (scheduled To token) pool ->
  (interleave sched pool w).2 = w.
Proof.
  intros Hh Hpool.
  assert (Forall (shut_out token) pool) as Hp by (eapply list.Forall_impl; [exact Hpool|apply scheduled_shut_out]).
  clear Hpool. revert pool Hp. induction sched as [|[i o] sched IH]; intros pool Hp; cbn [interleave]; [done|].
  destruct (pool !! i) as [q|] eqn:Ei; [|by apply IH].
  destruct (shut_out_step token o q w (proj1 (Forall_lookup _ _) Hp _ _ Ei) Hh) as [Hq Hw].
  destruct (step o q w) as [q' w']; cbn [fst snd] in *. subst w'. apply IH. by apply Forall_insert.
Qed.

Lemma held_lock_excludes_witness :
  let w := set_qlocks due_world {[ schedulerLockKey := ("token-a", (noon + 10 * second)%Z) ]} in
  (interleave [(0, Normal); (1, FailAfter); (0, Normal)]
     [resetQuotas milli (mkScheduler true "token-b") sample_bsm; renewTick (mkScheduler true "token-b")] w).2 = w.
Proof.
  cbv zeta. apply (held_lock_excludes milli "token-a"); [reflexivity|].
  repeat constructor; cbn; discriminate.
Defined.

(** * Atomicity of a balance reset *)

(** Calls that leave the rows of the plans and the counters alone. *)
Definition quiet (R : Type) (e : quotaE R) : Prop :=
  match e with
  | FetchQuotaPlanRow _ | FetchQuotaPlanRows _ | FetchPlanAPIKeys _ | FetchPlanEntities _ | TxBegin | TxCommit
  | GetInt64 _ | GetInt64Batch _ | ClockNow | RecordPlan _ => True
  | _ => False
  end.

Definition same_data (w w' : qworld) : Prop := q_plans w' = q_plans w /\ q_redis w' = q_redis w.
#[export] Instance same_data_preorder : PreOrder same_data.
Proof. split; unfold same_data; [done|]. intros w1 w2 w3 [] []. split; congruence. Qed.

Lemma quiet_handle R (e : quotaE R) w : quiet R e -> same_data w (handle e w).2.
Proof. by destruct e. Qed.

Lemma exec_quiet {A} (p : prog quotaE A) os w : all_calls quiet p -> same_data w (exec os p w).2.
Proof. intros Hp. apply (exec_stable quiet same_data); [apply quiet_handle|exact Hp]. Qed.

(** Inside the transaction: the rows saved at its start are kept, and the
    counters are not touched. *)
Definition in_txn (w w' : qworld) : Prop := q_saved w' = q_saved w /\ q_redis w' = q_redis w.
#[export] Instance in_txn_preorder : PreOrder in_txn.
Proof. split; unfold in_txn; [done|]. intros w1 w2 w3 [] []. split; congruence. Qed.

Definition txn_call (R : Type) (e : quotaE R) : Prop :=
  match e with
  | FetchQuotaPlanRow _ | UpdateQuotaPlanRow _ _ | ClockNow => True
  | _ => False
  end.

Lemma txn_handle R (e : quotaE R) w : txn_call R e -> in_txn w (handle e w).2.
Proof. by destruct e. Qed.

#[export] Instance quota_transactional : Transactional quotaE qworld same_data in_txn.
Proof.
  split; try apply _.
  - intros [] w e; by split.
  - intros [] [] w w1 Hok [Hs Hr]; try discriminate Hok; split; cbn in *; rewrite ?Hs, ?Hr; done.
  - done.
  - by intros w.
  - by intros [] w.
  - done.
Qed.

Lemma txn_reset planID q b : all_calls txn_call (reset_txn planID q b).
Proof. unfold reset_txn. repeat calls_step; exact I. Qed.

Lemma quiet_record m a i o b af e : all_calls quiet (recordQuotaPlanOperation m a i o b af e).
Proof. unfold recordQuotaPlanOperation. repeat calls_step; exact I. Qed.

(** A failed balance reset changes nothing.  Whatever calls fail, when
    [ResetBalance] returns an error then every quota plan and every counter
    is as it was, unless the answer of the COMMIT was lost; resetting an unlimited plan is such an error. *)
Theorem reset_balance_atomic (To : spec_float -> option string -> Z) (m : QuotaPlanManager) (planID : Z)
  (newQuota : option spec_float) (upd : bool) (owner : string) (os : list outcome) (w : qworld) (e : goerr) :
  (exec os (ResetBalance To m planID newQuota upd owner) w).1 = Err e ->
  same_data w (exec os (ResetBalance To m planID newQuota upd owner) w).2 \/
  commit_unanswered os (ResetBalance To m planID newQuota upd owner) w = true.
Proof.
  unfold ResetBalance. rewrite exec_bind, unanswered_bind. set (os1 := leftover _ _ w). clearbody os1.
  pose proof (AtomExecute_fails txn_call txn_handle noResetVars (reset_txn planID newQuota upd) os w) as Hat.
  destruct (exec os (AtomExecute noResetVars (reset_txn planID newQuota upd)) w) as [[[err|] vars] w1]; cbn [fst snd] in *.
  - specialize (Hat err vars (txn_reset _ _ _) eq_refl). intros _. destruct Hat as [Hat| ->]; [left|by right].
    etrans; [exact Hat|]. apply exec_quiet. unfold read_clock_if.
    repeat first [calls_step | apply quiet_record]; exact I.
  - clear Hat. intros Herr. exfalso. revert Herr. rewrite !exec_bind.
    destruct (rv_resetQuota vars) as [q|]; [|by rewrite exec_ret].
    destruct (qm_hasCache m); cbn [negb]; [|by rewrite exec_ret]. cbn [bind call]. rewrite exec_call.
    destruct (answer _ _ _).1 as [keys|x]; [|by rewrite exec_ret].
    rewrite exec_bind. destruct (qm_hasEntities m); cbn [negb]; [|by rewrite exec_ret].
    cbn [bind call]. rewrite exec_call.
    destruct (answer _ _ _).1 as [ents|x]; [|by rewrite exec_ret]. rewrite exec_bind. by rewrite exec_ret.
Qed.

Lemma reset_balance_atomic_witness :
  let w := sample_qworld (sample_plan true None) in
  (exec [] (ResetBalance milli sample_qpm 1 (Some (float_of_Z 9)) true "o") w).1 =
    Err (ParamError "cannot reset balance for unlimited quota") /\
  same_data w (exec [] (ResetBalance milli sample_qpm 1 (Some (float_of_Z 9)) true "o") w).2.
Proof.
  cbv zeta. split; [vm_compute; reflexivity|].
  destruct (reset_balance_atomic milli sample_qpm 1 (Some (float_of_Z 9)) true "o" [] (sample_qworld (sample_plan true None))
    (ParamError "cannot reset balance for unlimited quota")) as [H|H]; [vm_compute; reflexivity|exact H|by rewrite unanswered_nil in H].
Defined.
