(* ===== verification/QuotaSpec.v ===== *)
(** What the quota programs do to the counters in Redis. *)
From Stdlib Require Import ZArith Lia SpecFloat.
From stdpp Require Import base tactics numbers list strings gmap option.
From S2P Require Import Prelude GoStrings GoTime Prog QuotaModel QuotaManager QuotaSafety.

Local Open Scope string_scope.

#[export] Instance quota_key_inj : Inj (=) (=) AIUsedQuotaKey.
Proof. intros a b [= E]. done. Qed.

Lemma set_qredis_id w : set_qredis w (q_redis w) = w.
Proof. by destruct w. Qed.

(** * Periodic reset *)

(** The counters with those of [keys] set to [v]. *)
Definition filled (keys : list string) (v : Z) (m : gmap string Z) : gmap string Z :=
  fold_left (fun m k => <[AIUsedQuotaKey k := v]> m) keys m.

Lemma lookup_filled keys v m k : filled keys v m !! k =
  if bool_decide (k ∈ map AIUsedQuotaKey keys) then Some v else m !! k.
Proof.
  revert m. induction keys as [|x keys IH]; intros m; cbn [filled fold_left map]; [done|].
  fold (filled keys v (<[AIUsedQuotaKey x := v]> m)). rewrite IH.
  destruct (decide (k ∈ map AIUsedQuotaKey keys)) as [Hin|Hout].
  - rewrite !bool_decide_eq_true_2; [done|by right|done].
  - rewrite (bool_decide_eq_false_2 _ Hout). destruct (decide (k = AIUsedQuotaKey x)) as [->|Hne].
    + rewrite lookup_insert_eq, bool_decide_eq_true_2; [done|by left].
    + rewrite lookup_insert_ne by done. rewrite bool_decide_eq_false_2; [done|].
      by intros [?|?]%elem_of_cons.
Qed.

Lemma filled_app k1 k2 v m : filled (k1 ++ k2) v m = filled k2 v (filled k1 v m).
Proof. apply fold_left_app. Qed.

(** Owners that have a key. *)
Definition named (owners : list (option string)) : list string := omap id owners.

Section Fill.
Context (To : spec_float -> option string -> Z).

Lemma exec_fill_owners m owners q u w : bs_client m = true ->
  exec [] (fill_owners To m owners (Some q) u) w = (tt, set_qredis w (filled (named owners) (To q u) (q_redis w))).
Proof.
  intros Hc. unfold fill_owners. revert w. induction owners as [|o owners IH]; intros w; cbn [for_each].
  { by rewrite exec_ret, set_qredis_id. }
  rewrite exec_bind_nil. destruct o as [key|].
  - assert (exec [] (ResetToQuotaAtomic To (bs_client m) key (Some q) u ;; Ret tt) w =
            (tt, set_qredis w (<[AIUsedQuotaKey key := To q u]> (q_redis w)))) as ->.
    { unfold ResetToQuotaAtomic. rewrite Hc. reflexivity. }
    cbn [fst snd]. by rewrite IH.
  - rewrite exec_ret. cbn [fst snd]. by rewrite IH.
Qed.

(** The keys whose counters a plan fills. *)
Definition plan_owners (planID : Z) (w : qworld) : list string :=
  (named (map created_key (List.filter (fun k => (k_Plan k =? planID)%Z) (q_keys w))) ++
   named (map e_EntityID (List.filter (fun e => (e_Plan e =? planID)%Z) (q_entities w))))%list.

Lemma exec_resetUsage m planID r w :
  bs_hasCache m = true -> bs_client m = true -> bs_hasEntities m = true ->
  List.find (where_plan (Some planID)) (q_plans w) = Some r ->
  exec [] (resetAPIKeysRedisUsage To m planID) w =
  (Ok tt, set_qredis w (filled (plan_owners planID w) (To (tp_Quota r) (Some (tp_Unit r))) (q_redis w))).
Proof.
  intros Hca Hcl He Hr. unfold resetAPIKeysRedisUsage. cbn [bind call]. rewrite exec_call.
  cbn [hd tl answer handle quota_interp quota_handle fst snd]. unfold quotaPlanFilterToParam.
  cbn [byPlanID pf_ID]. rewrite Hr. cbn [fmap option_fmap option_map quotaPlanParamToData qp_Quota qp_Unit bind call].
  rewrite exec_call. cbn [hd tl answer handle quota_interp quota_handle fst snd]. rewrite He. cbn [bind call].
  rewrite exec_call. cbn [hd tl answer handle quota_interp quota_handle fst snd]. rewrite Hca. cbn [negb].
  rewrite exec_bind_nil, exec_fill_owners by done. cbn [fst snd].
  rewrite exec_bind_nil, exec_fill_owners by done. cbn [fst snd]. rewrite exec_ret.
  unfold plan_owners. rewrite filled_app. reflexivity.
Qed.
End Fill.

(** A periodic reset fills the counters of the plan's owners.  After the
    reset of a plan that exists, the counter of every created API key and of
    every entity of the plan holds the full quota in its Redis form, every
    other counter is untouched, and so is everything else. *)
Theorem periodic_reset_fills (To : spec_float -> option string -> Z) (m : BalanceSyncManager) (planID : Z)
  (r : TQuotaPlan) (w : qworld) :
  bs_hasCache m = true -> bs_client m = true -> bs_hasEntities m = true ->
  List.find (where_plan (Some planID)) (q_plans w) = Some r ->
  exists c, exec [] (resetAPIKeysRedisUsage To m planID) w = (Ok tt, set_qredis w c) /\
    (forall k, k ∈ plan_owners planID w -> c !! AIUsedQuotaKey k = Some (To (tp_Quota r) (Some (tp_Unit r)))) /\
    (forall key, (forall k, k ∈ plan_owners planID w -> key <> AIUsedQuotaKey k) -> c !! key = q_redis w !! key).
Proof.
  intros Hca Hcl He Hr. rewrite (exec_resetUsage To m planID r w Hca Hcl He Hr). eexists. split; [done|]. split.
  - intros k Hk. rewrite lookup_filled, bool_decide_eq_true_2; [done|]. by apply list_elem_of_fmap_2.
  - intros key Hkey. rewrite lookup_filled, bool_decide_eq_false_2; [done|].
    intros (k & E & Hin)%list_elem_of_fmap. by apply (Hkey k).
Qed.

Lemma periodic_reset_fills_witness :
  exists c, exec [] (resetAPIKeysRedisUsage milli sample_bsm 1) due_world = (Ok tt, set_qredis due_world c) /\
    c !! "QUOTA_sk-a" = Some 500000%Z /\ c !! "QUOTA_other" = Some 3%Z.
Proof.
  destruct (periodic_reset_fills milli sample_bsm 1 (sample_plan false (Some (noon - 30 * day_ns)%Z)) due_world)
    as (c & E & H1 & H2); [reflexivity..|].
  exists c. split; [exact E|]. split.
  - change "QUOTA_sk-a" with (AIUsedQuotaKey "sk-a"). rewrite (H1 "sk-a"); [reflexivity|]. left.
  - rewrite (H2 "QUOTA_other"); [reflexivity|]. intros k Hk.
    apply list_elem_of_In in Hk. destruct Hk as [<-|[<-|[]]]; discriminate.
Defined.

(** One due plan: it is claimed, then filled. *)
Lemma exec_due_plan To m now r w :
  bs_hasCache m = true -> bs_client m = true -> bs_hasEntities m = true ->
  q_plans w = [r] -> periodic (tp_ResetPeriod r) = true -> due_row (bs_loc m) now r = true ->
  let w' := (exec [] (reset_if_due To m now (quotaPlanParamToData r)) w).2 in
  q_claims w' = (q_claims w ++ [tp_ID r])%list /\
  q_redis w' = filled (plan_owners (tp_ID r) w) (To (tp_Quota r) (Some (tp_Unit r))) (q_redis w).
Proof.
  intros Hca Hcl He Hpl Hper Hdue. cbv zeta. unfold reset_if_due.
  cbn [quotaPlanParamToData qp_ID qp_ResetPeriod qp_LastResetAt].
  change (shouldResetByPeriod _ _ _ _) with (due_row (bs_loc m) now r). rewrite Hdue. cbn [negb bind call].
  rewrite exec_call. cbn [hd tl answer handle quota_interp quota_handle fst snd].
  set (ps := getPeriodStart _ _ _).
  assert (claimable (tp_ID r) ps r = true) as Hc by (rewrite <- Hdue; symmetry; by apply due_claimable).
  rewrite Hpl. cbn [List.filter]. rewrite Hc. cbn [length Nat.eqb]. change (Z.of_nat 1 =? 0)%Z with false. cbv iota.
  rewrite exec_bind_nil, (exec_resetUsage To m (tp_ID r) (claim_row (tp_ID r) ps now r)); try done.
  - rewrite exec_ret. cbn [fst snd q_claims q_redis set_qredis]. unfold claim_row. rewrite Hc. done.
  - cbn [q_plans set_plans map List.find where_plan].
    unfold claim_row at 1. rewrite Hc. cbn [tp_ID]. by rewrite Z.eqb_refl.
Qed.

(** A round also resets unlimited plans.  The filter of the round asks
    for limited plans only, but the storage layer passes nothing but the id
    of a filter on: a due weekly or monthly plan that is unlimited is claimed
    and the counters of its owners are overwritten with its quota. *)
Theorem round_resets_unlimited (To : spec_float -> option string -> Z) (m : BalanceSyncManager) (r : TQuotaPlan)
  (w : qworld) :
  bs_hasCache m = true -> bs_client m = true -> bs_hasEntities m = true ->
  q_plans w = [r] -> tp_Unlimited r = true -> periodic (tp_ResetPeriod r) = true ->
  due_row (bs_loc m) (q_now w) r = true ->
  let w' := (exec [] (ResetExpiredBalances To m) w).2 in
  q_claims w' = (q_claims w ++ [tp_ID r])%list /\
  forall k, k ∈ plan_owners (tp_ID r) w -> q_redis w' !! AIUsedQuotaKey k = Some (To (tp_Quota r) (Some (tp_Unit r))).
Proof.
  intros Hca Hcl He Hpl Hun Hper Hdue. cbv zeta. unfold ResetExpiredBalances, AtomExecute. cbn [tx_begin tx_commit tx_rollback quota_txn].
  cbn [bind call]. rewrite exec_call. cbn [hd tl answer handle quota_interp quota_handle fst snd bind].
  rewrite exec_call. cbn [hd tl answer handle quota_interp quota_handle fst snd bind].
  rewrite exec_call. cbn [hd tl answer handle quota_interp quota_handle fst snd].
  set (w1 := mkQWorld _ _ _ _ _ _ _ _ _ _ _ _ _).
  assert (q_plans w1 = [r]) as Hpl1 by exact Hpl.
  change (q_now (set_saved w (Some (q_plans w)))) with (q_now w). cbn [q_plans set_saved]. rewrite Hpl.
  cbn [List.filter where_plan quotaPlanFilterToParam dueFilter pf_ID map for_each].
  destruct (exec_due_plan To m (q_now w) r w1 Hca Hcl He Hpl1 Hper Hdue) as [Hcs Hrs].
  rewrite !exec_bind_nil. rewrite ?exec_ret. cbn [fst snd].
  set (w2 := (exec [] (reset_if_due To m (q_now w) (quotaPlanParamToData r)) w1).2) in *.
  cbn [bind call]. rewrite exec_call. cbn [hd tl answer handle quota_interp quota_handle fst snd]. rewrite exec_ret.
  cbn [fst snd]. rewrite ?exec_ret. cbn [q_claims q_redis set_saved snd]. rewrite Hcs, Hrs. split; [done|].
  intros k Hk. rewrite lookup_filled, bool_decide_eq_true_2; [done|]. by apply list_elem_of_fmap_2.
Qed.

Definition unlimited_world : qworld := sample_qworld (sample_plan true (Some (noon - 30 * day_ns)%Z)).

Lemma round_resets_unlimited_witness :
  let w' := (exec [] (ResetExpiredBalances milli sample_bsm) unlimited_world).2 in
  q_claims w' = [1%Z] /\
  forall k, k ∈ plan_owners 1 unlimited_world -> q_redis w' !! AIUsedQuotaKey k = Some 500000%Z.
Proof.
  apply (round_resets_unlimited milli sample_bsm (sample_plan true (Some (noon - 30 * day_ns)%Z)) unlimited_world);
    reflexivity.
Defined.

(** * Setting a counter *)

(** The counter of an owner; a missing one counts as zero. *)
Definition counter (w : qworld) (key : string) : Z := default 0%Z (q_redis w !! AIUsedQuotaKey key).

(** Setting a counter keeps concurrent use.  [SetRemaining] reads the
    counter and adds the difference to its target.  Alone it reaches the
    target; when requests change the counter by [d] between its two steps,
    the counter ends at the target plus [d], so that no use is lost. *)
Theorem set_remaining_keeps_use (To : spec_float -> option string -> Z) (key : string) (q : spec_float)
  (u : option string) (d : Z) (w : qworld) :
  let rk := AIUsedQuotaKey key in
  let cur := counter w key in
  int64_ok (To q u - cur) = true -> int64_ok (To q u) = true -> int64_ok (cur + d) = true ->
  int64_ok (To q u + d) = true ->
  exec [] (SetRemaining To true key (Some q) u) w = (Ok tt, set_qredis w (<[rk := To q u]> (q_redis w))) /\
  (let '(pool, w') := interleave [(0, Normal); (1, Normal); (0, Normal)]
       [SetRemaining To true key (Some q) u; (call (IncrBy rk d) ;; Ret (Ok tt))] w in
   pool = [Ret (Ok tt); Ret (Ok tt)] /\ counter w' key = (To q u + d)%Z).
Proof.
  intros rk cur H1 H2 H3 H4.
  assert (default 0%Z (q_redis w !! rk) = cur) as Ecur by reflexivity. clearbody cur. split.
  - unfold SetRemaining. cbn [negb bind call]. rewrite exec_call.
    cbn [hd tl answer handle quota_interp quota_handle fst snd bind]. rewrite exec_call.
    cbn [hd tl answer handle quota_interp quota_handle]. fold rk. rewrite Ecur, wrap64_id by done.
    replace (cur + (To q u - cur))%Z with (To q u) by lia. rewrite H2. reflexivity.
  - cbn. fold rk. rewrite Ecur, H3. cbn. rewrite lookup_insert_eq. cbn. rewrite wrap64_id by done.
    replace (cur + d + (To q u - cur))%Z with (To q u + d)%Z by lia. rewrite H4. cbn.
    split; [done|]. unfold counter. fold rk. cbn. by rewrite lookup_insert_eq.
Qed.

Lemma set_remaining_keeps_use_witness :
  exec [] (SetRemaining milli true "sk-a" (Some (float_of_Z 500)) None) due_world =
    (Ok tt, set_qredis due_world (<["QUOTA_sk-a" := 500000%Z]> (q_redis due_world))) /\
  (let '(pool, w') := interleave [(0, Normal); (1, Normal); (0, Normal)]
       [SetRemaining milli true "sk-a" (Some (float_of_Z 500)) None; (call (IncrBy "QUOTA_sk-a" (-250)) ;; Ret (Ok tt))]
       due_world in
   pool = [Ret (Ok tt); Ret (Ok tt)] /\ counter w' "sk-a" = 499750%Z).
Proof. apply (set_remaining_keeps_use milli "sk-a" (float_of_Z 500) None (-250) due_world); reflexivity. Defined.

(** * Changing the quota of a plan *)

(** A remaining quota is never negative, NaN excepted. *)
Lemma at_least_zero_spec x : SFltb (at_least_zero x) f_zero = false.
Proof. unfold at_least_zero. by destruct (SFltb x f_zero) eqn:E. Qed.

Section Adjust.
Context (To : spec_float -> option string -> Z) (From : Z -> option string -> spec_float).

Lemma lookup_batch (g : string -> spec_float) (keys : list string) (m : gmap string spec_float) (k : string) :
  fold_left (fun (m : gmap string spec_float) k => <[k := g k]> m) keys m !! k = if bool_decide (k ∈ keys) then Some (g k) else m !! k.
Proof.
  revert m. induction keys as [|x keys IH]; intros m; cbn [fold_left]; [done|]. rewrite IH.
  destruct (decide (k ∈ keys)) as [Hin|Hout].
  - rewrite !bool_decide_eq_true_2; [done|by right|done].
  - rewrite (bool_decide_eq_false_2 _ Hout). destruct (decide (k = x)) as [->|Hne].
    + rewrite lookup_insert_eq, bool_decide_eq_true_2; [done|by left].
    + rewrite lookup_insert_ne by done. rewrite bool_decide_eq_false_2; [done|]. by intros [?|?]%elem_of_cons.
Qed.

(** All remaining quotas at once are those read one by one. *)
Lemma exec_BatchGetRemaining keys u w :
  exists rem, exec [] (BatchGetRemaining From true keys u) w = (Ok rem, w) /\
    forall k, k ∈ keys -> rem !! k = Some (From (counter w k) u).
Proof.
  unfold BatchGetRemaining. cbn [negb bind call]. rewrite exec_call.
  cbn [hd tl answer handle quota_interp quota_handle fst snd]. rewrite exec_ret. eexists. split; [reflexivity|].
  intros k Hk.
  assert (forall l m, fold_left (fun (m : gmap string spec_float) '(k, v) => <[k := From v u]> m)
            (zip l (map (fun k => default 0%Z (q_redis w !! k)) (map AIUsedQuotaKey l))) m =
          fold_left (fun (m : gmap string spec_float) k => <[k := From (counter w k) u]> m) l m) as ->.
  { clear. induction l as [|x l IH]; intros m; cbn [map zip zip_with fold_left]; [done|]. apply IH. }
  by rewrite lookup_batch, bool_decide_eq_true_2.
Qed.

Lemma exec_SetRemaining key q u w :
  int64_ok (To q u - counter w key) = true -> int64_ok (To q u) = true ->
  exec [] (SetRemaining To true key (Some q) u) w = (Ok tt, set_qredis w (<[AIUsedQuotaKey key := To q u]> (q_redis w))).
Proof.
  intros H1 H2. unfold SetRemaining. cbn [negb bind call]. rewrite exec_call.
  cbn [hd tl answer handle quota_interp quota_handle fst snd bind]. rewrite exec_call.
  cbn [hd tl answer handle quota_interp quota_handle]. fold (counter w key). rewrite wrap64_id by done.
  replace (counter w key + (To q u - counter w key))%Z with (To q u) by lia. rewrite H2. reflexivity.
Qed.

(** The counters of different owners are set one after the other. *)
Lemma exec_set_all (target : string -> spec_float) u keys w : NoDup keys ->
  (forall k, k ∈ keys -> int64_ok (To (target k) u - counter w k) = true /\ int64_ok (To (target k) u) = true) ->
  exists c, exec [] (for_each keys tt (fun key _ =>
      SetRemaining To true key (Some (target key)) u ;; Ret tt)) w = (tt, set_qredis w c) /\
    forall key, c !! AIUsedQuotaKey key =
      if bool_decide (key ∈ keys) then Some (To (target key) u) else q_redis w !! AIUsedQuotaKey key.
Proof.
  revert w. induction keys as [|x keys IH]; intros w Hnd Hok; cbn [for_each].
  { exists (q_redis w). by rewrite exec_ret, set_qredis_id. }
  apply list.NoDup_cons in Hnd as [Hx Hnd]. destruct (Hok x ltac:(left)) as [H1 H2].
  rewrite !exec_bind_nil, exec_SetRemaining by done. rewrite exec_ret. cbn [fst snd].
  set (w1 := set_qredis w _).
  assert (forall k, k ∈ keys -> counter w1 k = counter w k) as Hc.
  { intros k Hk. unfold counter, w1. cbn. rewrite lookup_insert_ne; [done|]. intros ?%quota_key_inj. congruence. }
  destruct (IH w1 Hnd) as (c & E & Hl).
  { intros k Hk. rewrite Hc by done. apply Hok. by right. }
  exists c. split; [exact E|]. intros key. rewrite Hl.
  destruct (decide (key ∈ keys)) as [Hin|Hout].
  - rewrite !bool_decide_eq_true_2; [done|by right|done].
  - rewrite (bool_decide_eq_false_2 _ Hout). unfold w1. cbn. destruct (decide (key = x)) as [->|Hne].
    + rewrite lookup_insert_eq, bool_decide_eq_true_2; [done|by left].
    + rewrite lookup_insert_ne by (intros ?%quota_key_inj; congruence).
      rewrite bool_decide_eq_false_2; [done|]. by intros [?|?]%elem_of_cons.
Qed.
End Adjust.

(** The owners whose counters a plan change moves. *)
Definition all_owners (planID : Z) (w : qworld) : list string :=
  (omap k_Key (List.filter (fun k => (k_Plan k =? planID)%Z) (q_keys w)) ++
   omap e_EntityID (List.filter (fun e => (e_Plan e =? planID)%Z) (q_entities w)))%list.

(** A change of the amount alone of a limited plan: the use is kept. *)
Record amount_change (o n : SharedPlan) (oq nq : spec_float) : Prop := {
  ac_old : sh_Quota o = Some oq;
  ac_new : sh_Quota n = Some nq;
  ac_differ : SFeqb oq nq = false;
  ac_limited : default false (sh_Unlimited o) = false /\ default false (sh_Unlimited n) = false;
  ac_unit : match sh_Unit n with Some u => u = default EmptyString (sh_Unit o) | None => True end
}.

Lemma amount_change_changed o n oq nq : amount_change o n oq nq -> quotaPlanChanged (Some o) (Some n) = true.
Proof.
  intros [Ho Hn Hd _ _]. unfold quotaPlanChanged. rewrite Ho, Hn. cbn. rewrite Hd. cbn.
  by rewrite orb_true_r.
Qed.

Lemma amount_change_decide r o n oq nq : amount_change o n oq nq ->
  adjust_decide (quotaPlanParamToData r) (Some o) n = mkAdjust (Some nq) (Some oq) (Some (tp_Unit r)) false.
Proof.
  intros [Ho Hn Hd [Hlo Hln] Hu]. unfold adjust_decide. rewrite Ho, Hn, Hlo.
  assert (default false (sh_Unlimited n) = false) as -> by done.
  assert (default (default EmptyString (sh_Unit o)) (sh_Unit n) = default EmptyString (sh_Unit o)) as ->.
  { by destruct (sh_Unit n). }
  by rewrite bool_decide_eq_true_2.
Qed.

(** A change of the quota keeps what was used.  When only the amount of
    a limited plan changes, every owner's counter moves to the new quota less
    what it had used of the old one, neither the use nor the result below
    zero; plans and all other counters stay as they are. *)
Theorem quota_change_keeps_used (To : spec_float -> option string -> Z) (From : Z -> option string -> spec_float)
  (m : QuotaPlanManager) (planID : Z) (r : TQuotaPlan) (o n : SharedPlan) (oq nq : spec_float) (w : qworld) :
  qm_hasCache m = true -> qm_client m = true -> qm_hasEntities m = true ->
  List.find (where_plan (Some planID)) (q_plans w) = Some r ->
  amount_change o n oq nq ->
  NoDup (all_owners planID w) ->
  let target k := keep_used oq nq (From (counter w k) (Some (tp_Unit r))) in
  (forall k, k ∈ all_owners planID w ->
     int64_ok (To (target k) (Some (tp_Unit r)) - counter w k) = true /\
     int64_ok (To (target k) (Some (tp_Unit r))) = true) ->
  let '(res, w') := exec [] (ApplyQuotaPlanChange To From m planID (Some o) (Some n)) w in
  res = Ok tt /\ q_plans w' = q_plans w /\
  (forall key, q_redis w' !! AIUsedQuotaKey key =
     if bool_decide (key ∈ all_owners planID w) then Some (To (target key) (Some (tp_Unit r)))
     else q_redis w !! AIUsedQuotaKey key) /\
  (forall k, SFltb (target k) f_zero = false).
Proof.
  intros Hca Hcl He Hr Hch Hnd target Hok. pose proof (amount_change_decide r _ _ _ _ Hch) as Hdec.
  unfold ApplyQuotaPlanChange. rewrite (amount_change_changed _ _ _ _ Hch). unfold adjustQuota, AtomExecute. cbn [negb tx_begin tx_commit tx_rollback quota_txn].
  cbn [bind call]. rewrite exec_call. cbn [hd tl answer handle quota_interp quota_handle fst snd bind].
  rewrite exec_call. cbn [hd tl answer handle quota_interp quota_handle fst snd quotaPlanFilterToParam byPlanID pf_ID].
  cbn [q_plans set_saved]. rewrite Hr. cbn [fmap option_fmap option_map bind call]. rewrite exec_call.
  cbn [hd tl answer handle quota_interp quota_handle fst snd bind]. rewrite Hdec.
  cbn [av_newQuota av_useReset av_planUnit av_oldQuota default]. rewrite Hca. cbn [negb bind call].
  rewrite exec_call. cbn [hd tl answer handle quota_interp quota_handle fst snd].
  unfold fetchEntitiesByPlan. rewrite He. cbn [negb bind call]. rewrite exec_call.
  cbn [hd tl answer handle quota_interp quota_handle fst snd]. rewrite Hcl.
  cbn [q_keys q_entities set_saved]. fold (all_owners planID w).
  set (w1 := set_saved (set_saved w (Some (q_plans w))) None).
  rewrite exec_bind_nil. destruct (exec_BatchGetRemaining From (all_owners planID w) (Some (tp_Unit r)) w1) as (rem & -> & Hrem).
  cbn [fst snd from_option id]. rewrite exec_bind_nil.
  assert (forall k, k ∈ all_owners planID w -> keep_used oq nq (default f_zero (rem !! k)) = target k) as Ht.
  { intros k Hk. by rewrite (Hrem k Hk). }
  destruct (exec_set_all To (fun k => keep_used oq nq (default f_zero (rem !! k))) (Some (tp_Unit r))
              (all_owners planID w) w1 Hnd) as (c & -> & Hc).
  { intros k Hk. rewrite Ht by done. exact (Hok k Hk). }
  cbn [fst snd]. rewrite exec_ret. split; [done|]. split; [done|]. split.
  - intros key. cbn [q_redis set_qredis]. rewrite Hc. destruct (decide (key ∈ all_owners planID w)) as [Hin|Hout].
    + by rewrite !bool_decide_eq_true_2, Ht.
    + by rewrite !bool_decide_eq_false_2.
  - intros k. apply at_least_zero_spec.
Qed.

Definition quota_500 : SharedPlan :=
  mkSharedPlan (Some false) None (Some (float_of_Z 500)) (Some "total_token") None None.
Definition quota_600 : SharedPlan := mkSharedPlan None None (Some (float_of_Z 600)) None None None.

Lemma quota_change_keeps_used_witness :
  let '(res, w') := exec [] (ApplyQuotaPlanChange milli of_milli sample_qpm 1 (Some quota_500) (Some quota_600)) due_world in
  res = Ok tt /\ q_redis w' !! "QUOTA_sk-a" = Some 220000%Z /\ q_redis w' !! "QUOTA_other" = Some 3%Z.
Proof.
  pose proof (quota_change_keeps_used milli of_milli sample_qpm 1
    (sample_plan false (Some (noon - 30 * day_ns)%Z)) quota_500 quota_600 (float_of_Z 500) (float_of_Z 600) due_world)
    as H.
  cbv zeta in H. destruct (exec [] _ due_world) as [res w'].
  destruct H as (Hr & _ & Hc & _); try reflexivity.
  - by split.
  - change (all_owners 1 due_world) with ["sk-a"; "team"]. apply (bool_decide_unpack _). vm_compute. exact I.
  - intros k Hk. apply list_elem_of_In in Hk. destruct Hk as [<-|[<-|[]]]; vm_compute; done.
  - split; [exact Hr|]. split.
    + rewrite (Hc "sk-a" : q_redis w' !! "QUOTA_sk-a" = _). vm_compute. reflexivity.
    + rewrite (Hc "other" : q_redis w' !! "QUOTA_other" = _). vm_compute. reflexivity.
Defined.
