(* ===== verification/EppPool.v ===== *)
(** The EPP instance pool: data, the tables [epp_instances] and
    [epp_assignments], the calls of its manager, and the manager
    ([model/epp_pool/epp_pool.go], [assignment.go], [storage/rdb/epp_pool] and
    its DAO). *)
From Stdlib Require Import ZArith Lia Ascii.
From stdpp Require Import base tactics numbers list strings gmap option sorting.
From S2P Require Import Prelude GoStrings Prog GoNet.

Local Open Scope string_scope.

(** * Data *)

Record InstanceParam : Type := mkInst { i_ID : string; i_Host : string; i_Port : Z; i_GroupName : string }.
Record InstanceFilter : Type := mkInstFilter { if_ID : option string; if_GroupName : option string }.
Definition allInstances : InstanceFilter := mkInstFilter None None.

Record InstanceGroup : Type := mkGroup { g_Name : string; g_Instances : list InstanceParam }.
Record EppPool : Type := mkPool { pool_Name : string; pool_Groups : list InstanceGroup }.
Record AssignmentParam : Type := mkAssign { a_Cluster : string; a_GroupName : string }.
Record EPPClusterInfo : Type := mkCluster { c_Name : string; c_EppConfigJSON : string }.

(** A group as a caller passes it in; the pointers may be nil. *)
Record GroupInput : Type := mkInput { gi_Name : string; gi_Instances : list (option InstanceParam) }.

#[export] Instance inst_eq_dec : EqDecision InstanceParam.
Proof. solve_decision. Defined.
#[export] Instance assign_eq_dec : EqDecision AssignmentParam.
Proof. solve_decision. Defined.

(** [sort.Slice] by a string key, [sort.Strings] for the identity. *)
Definition by_key {A} (f : A -> string) (x y : A) : Prop := String.le (f x) (f y).
#[export] Instance by_key_dec {A} (f : A -> string) x y : Decision (by_key f x y).
Proof. unfold by_key. apply _. Defined.
Definition sort_by {A} (f : A -> string) (l : list A) : list A := merge_sort (by_key f) l.

(** * Tables *)

Definition where_inst (f : InstanceFilter) (i : InstanceParam) : bool :=
  match if_ID f with Some id => bool_decide (i_ID i = id) | None => true end &&
  match if_GroupName f with Some g => bool_decide (i_GroupName i = g) | None => true end.

(** ORDER BY group_name, id *)
Definition list_instances (f : InstanceFilter) (rows : list InstanceParam) : list InstanceParam :=
  sort_by i_GroupName (sort_by i_ID (List.filter (where_inst f) rows)).

(** The unique keys of [epp_instances]: the id, and host with port. *)
Definition inst_keys_ok (rows : list InstanceParam) : bool :=
  bool_decide (NoDup (map i_ID rows)) && bool_decide (NoDup (map (fun i => (i_Host i, i_Port i)) rows)).

Definition set_group (c g : string) (a : AssignmentParam) : AssignmentParam :=
  if bool_decide (a_Cluster a = c) then mkAssign c g else a.

(** * Calls *)

Inductive eppE : Type -> Type :=
| FetchInstanceList (f : InstanceFilter) : eppE (result (list InstanceParam))
| CreateInstances (l : list InstanceParam) : eppE (result Z)
| DeleteInstances (f : InstanceFilter) : eppE (result Z)
| FetchAssignmentList : eppE (result (list AssignmentParam))
(* the statements of the assignment storage *)
| TEppAssignmentUpdate (cluster group : string) : eppE (result Z)
| TEppAssignmentCreate (cluster group : string) : eppE (result Z)
| DeleteAssignment (cluster : string) : eppE (result unit)
(* EPPClusterSource *)
| FetchEPPClusters : eppE (result (list EPPClusterInfo))
| EppTxBegin : eppE (result unit)
| EppTxCommit : eppE (result unit)
| EppTxRollback : eppE unit
(* publishes the exported configuration; its errors are only logged *)
| TriggerEppDataExport : eppE unit.

Record eworld : Type := mkEppWorld {
  ew_instances : list InstanceParam;
  ew_assignments : list AssignmentParam;
  ew_clusters : list EPPClusterInfo;
  (** the tables as they were when the open transaction began *)
  ew_saved : option (list InstanceParam * list AssignmentParam);
  (** the assignments at each triggered export *)
  ew_exports : list (list AssignmentParam);
  (** does the driver count the rows an UPDATE matched, or those it changed? *)
  ew_foundRows : bool
}.

Definition set_instances (w : eworld) (l : list InstanceParam) : eworld :=
  mkEppWorld l (ew_assignments w) (ew_clusters w) (ew_saved w) (ew_exports w) (ew_foundRows w).
Definition set_assignments (w : eworld) (l : list AssignmentParam) : eworld :=
  mkEppWorld (ew_instances w) l (ew_clusters w) (ew_saved w) (ew_exports w) (ew_foundRows w).
Definition set_esaved (w : eworld) (s : option (list InstanceParam * list AssignmentParam)) : eworld :=
  mkEppWorld (ew_instances w) (ew_assignments w) (ew_clusters w) s (ew_exports w) (ew_foundRows w).
Definition add_export (w : eworld) : eworld :=
  mkEppWorld (ew_instances w) (ew_assignments w) (ew_clusters w) (ew_saved w)
    (ew_exports w ++ [ew_assignments w])%list (ew_foundRows w).

Definition of_cluster (c : string) (a : AssignmentParam) : bool := bool_decide (a_Cluster a = c).
Definition changes (c g : string) (a : AssignmentParam) : bool :=
  of_cluster c a && negb (bool_decide (a_GroupName a = g)).

Definition epp_handle {R} (e : eppE R) : eworld -> R * eworld :=
  match e in eppE R return eworld -> R * eworld with
  | FetchInstanceList f => fun w => (Ok (list_instances f (ew_instances w)), w)
  | CreateInstances l => fun w =>
      let rows := (ew_instances w ++ l)%list in
      if inst_keys_ok rows then (Ok 0%Z, set_instances w rows) else (Err DaoError, w)
  | DeleteInstances f => fun w =>
      (Ok (Z.of_nat (length (List.filter (where_inst f) (ew_instances w)))),
       set_instances w (List.filter (fun i => negb (where_inst f i)) (ew_instances w)))
  | FetchAssignmentList => fun w => (Ok (sort_by a_Cluster (ew_assignments w)), w)
  | TEppAssignmentUpdate c g => fun w =>
      let hit := if ew_foundRows w then of_cluster c else changes c g in
      (Ok (Z.of_nat (length (List.filter hit (ew_assignments w)))),
       set_assignments w (map (set_group c g) (ew_assignments w)))
  | TEppAssignmentCreate c g => fun w =>
      if bool_decide (c ∈ map a_Cluster (ew_assignments w)) then (Err DaoError, w)
      else (Ok 0%Z, set_assignments w (ew_assignments w ++ [mkAssign c g])%list)
  | DeleteAssignment c => fun w =>
      (Ok tt, set_assignments w (List.filter (fun a => negb (of_cluster c a)) (ew_assignments w)))
  | FetchEPPClusters => fun w => (Ok (ew_clusters w), w)
  | EppTxBegin => fun w => (Ok tt, set_esaved w (Some (ew_instances w, ew_assignments w)))
  | EppTxCommit => fun w => (Ok tt, set_esaved w None)
  | EppTxRollback => fun w =>
      let '(i, a) := default (ew_instances w, ew_assignments w) (ew_saved w) in
      (tt, set_esaved (set_assignments (set_instances w i) a) None)
  | TriggerEppDataExport => fun w => (tt, add_export w)
  end.

Definition epp_fault {R} (e : eppE R) : option R :=
  match e in eppE R return option R with
  | FetchInstanceList _ => Some (Err DaoError)
  | CreateInstances _ => Some (Err DaoError)
  | DeleteInstances _ => Some (Err DaoError)
  | FetchAssignmentList => Some (Err DaoError)
  | TEppAssignmentUpdate _ _ => Some (Err DaoError)
  | TEppAssignmentCreate _ _ => Some (Err DaoError)
  | DeleteAssignment _ => Some (Err DaoError)
  | FetchEPPClusters => Some (Err DaoError)
  | EppTxBegin => Some (Err DaoError)
  | EppTxCommit => Some (Err DaoError)
  | EppTxRollback => None
  | TriggerEppDataExport => None
  end.

#[export] Instance epp_interp : Interp eppE eworld := {|
  handle := @epp_handle;
  fault := @epp_fault
|}.

#[export] Instance epp_txn : TxnCalls eppE := {|
  tx_begin := EppTxBegin;
  tx_commit := EppTxCommit;
  tx_rollback := EppTxRollback;
  is_commit := fun R (e : eppE R) => match e with EppTxCommit => true | _ => false end
|}.

(** The EPP pool manager ([model/epp_pool/epp_pool.go], [assignment.go], the
    checks of hosts and ports of [epp_config.go], and [UpsertAssignment] of
    [storage/rdb/epp_pool]). *)

(** Parameter errors carry the format of their message. *)

(** * Hosts, ports and addresses *)

(** The expression [hostnameLabel]. *)
Definition hostnameLabel (s : string) : bool := dns_label s.

Definition validateHost (host : string) : option goerr :=
  if bool_decide (host = EmptyString) then Some (ParamError "host is required")
  else if Nat.ltb 255 (String.length host) then Some (ParamError "host length must be <= 255")
  else if ParseIP host then None
  else if forallb hostnameLabel (Split host ".") then None
  else Some (ParamError "host %q contains invalid label %q").

Definition validatePort (port : Z) : option goerr :=
  if (port <? 1)%Z || (65535 <? port)%Z
  then Some (ParamError "port must be between 1 and 65535, got %d") else None.

Definition instanceAddress (host : string) (port : Z) : string := JoinHostPort host (FormatInt port).

(** * The pool *)

Definition DefaultEPPInstancePoolName : string := "EPP.pool".

(** The manager: the name of its pool, and whether it was given a source of
    clusters and a version control manager. *)
Record EppPoolManager : Type := mkEppManager {
  m_poolName : string; m_hasClusters : bool; m_hasVersionControl : bool
}.

(** The names, ids and addresses seen so far, and the instances collected. *)
Record seen : Type := mkSeen {
  s_groups : gset string; s_ids : gset string; s_addrs : gset string; s_flat : list InstanceParam
}.

Definition validateGroupSize (g : GroupInput) : option goerr :=
  if Nat.eqb (length (gi_Instances g)) 1 then None
  else Some (ParamError "epp pool group %q requires exactly 1 instance, got %d").

Definition validate_instance (group : string) (inst : option InstanceParam) (s : seen) : result seen :=
  match inst with
  | None => Err (ParamError "epp pool instance of group %q is nil")
  | Some i =>
      if bool_decide (i_ID i = EmptyString) then Err (ParamError "epp pool instance id is empty (group %q)")
      else if bool_decide (i_ID i ∈ s_ids s) then Err (ParamError "epp pool instance id %q is duplicated")
      else match validateHost (i_Host i), validatePort (i_Port i) with
           | Some _, _ => Err (ParamError "epp pool instance %q host: %s")
           | None, Some _ => Err (ParamError "epp pool instance %q port: %s")
           | None, None =>
               let addr := instanceAddress (i_Host i) (i_Port i) in
               if bool_decide (addr ∈ s_addrs s)
               then Err (ParamError "epp pool instance address %s is duplicated")
               else Ok (mkSeen (s_groups s) ({[i_ID i]} ∪ s_ids s) ({[addr]} ∪ s_addrs s)
                          (s_flat s ++ [mkInst (i_ID i) (i_Host i) (i_Port i) group])%list)
           end
  end.

Fixpoint validate_instances (group : string) (l : list (option InstanceParam)) (s : seen) : result seen :=
  match l with
  | [] => Ok s
  | i :: l => match validate_instance group i s with Err e => Err e | Ok s => validate_instances group l s end
  end.

Definition validate_group (g : option GroupInput) (s : seen) : result seen :=
  match g with
  | None => Err (ParamError "epp pool group is nil")
  | Some g =>
      if bool_decide (gi_Name g = EmptyString) then Err (ParamError "epp pool group name is empty")
      else if bool_decide (gi_Name g ∈ s_groups s) then Err (ParamError "epp pool group name %q is duplicated")
      else match validateGroupSize g with
           | Some e => Err e
           | None => validate_instances (gi_Name g) (gi_Instances g)
                       (mkSeen ({[gi_Name g]} ∪ s_groups s) (s_ids s) (s_addrs s) (s_flat s))
           end
  end.

Fixpoint validate_groups (l : list (option GroupInput)) (s : seen) : result seen :=
  match l with
  | [] => Ok s
  | g :: l => match validate_group g s with Err e => Err e | Ok s => validate_groups l s end
  end.

Definition validateGroups (groups : list (option GroupInput)) : result (list InstanceParam) :=
  match groups with
  | [] => Err (ParamError "epp pool requires at least one group")
  | _ => match validate_groups groups (mkSeen ∅ ∅ ∅ []) with Err e => Err e | Ok s => Ok (s_flat s) end
  end.

Definition groupMap (instances : list InstanceParam) : gmap string (list InstanceParam) :=
  fold_left (fun m i => <[i_GroupName i := (default [] (m !! i_GroupName i) ++ [i])%list]> m) instances ∅.

Definition buildPool (name : string) (instances : list InstanceParam) : EppPool :=
  let m := groupMap instances in
  mkPool name (map (fun n => mkGroup n (sort_by i_ID (default [] (m !! n)))) (sort_by id (map fst (map_to_list m)))).

Definition GetPool (m : EppPoolManager) : prog eppE (result EppPool) :=
  instances <-? call (FetchInstanceList allInstances) ;;
  match instances with
  | [] => Ret (Err (RecordNotExist "epp pool"))
  | _ => Ret (Ok (buildPool (m_poolName m) instances))
  end.

(** * Assignments *)

Definition pool_map (pool : EppPool) : gmap string InstanceGroup :=
  fold_left (fun m g => <[g_Name g := g]> m) (pool_Groups pool) ∅.

(** A group that is there and not empty. *)
Definition live_group (pool : EppPool) (name : string) : bool :=
  match pool_map pool !! name with
  | Some g => negb (bool_decide (g_Instances g = []))
  | None => false
  end.

Definition findValidAssignment (pool : EppPool) (assignments : list AssignmentParam) (clusterName : string)
  : option AssignmentParam :=
  match List.find (of_cluster clusterName) assignments with
  | Some a => if live_group pool (a_GroupName a) then Some a else None
  | None => None
  end.

Definition findGroup (pool : EppPool) (groupName : string) : option InstanceGroup :=
  List.find (fun g => bool_decide (g_Name g = groupName)) (pool_Groups pool).

Definition countGroupAssignments (assignments : list AssignmentParam) : gmap string Z :=
  fold_left (fun m a => <[a_GroupName a := (default 0 (m !! a_GroupName a) + 1)%Z]> m) assignments ∅.

Definition candidateGroups (pool : EppPool) : list InstanceGroup := sort_by g_Name (pool_Groups pool).

(** Go's [<] on strings. *)
Definition str_lt (a b : string) : bool := String.ltb a b.

Definition select_group (loads : gmap string Z) (candidates : list InstanceGroup) (first : InstanceGroup)
  : InstanceGroup :=
  let load g := default 0%Z (loads !! g_Name g) in
  fold_left (fun sel g =>
    if (load g <? load sel)%Z || ((load g =? load sel)%Z && str_lt (g_Name g) (g_Name sel)) then g else sel)
    candidates first.

Definition allocateCluster (pool : EppPool) (assignments : list AssignmentParam) (clusterName : string)
  : result AssignmentParam :=
  match candidateGroups pool with
  | [] => Err (ModelError "epp pool has no assignable instance group")
  | first :: others =>
      Ok (mkAssign clusterName (g_Name (select_group (countGroupAssignments assignments) others first)))
  end.

(** [UpsertAssignment] of the storage: update, insert when no row was
    affected, and update again when the insert is refused. *)
Definition UpsertAssignment (a : AssignmentParam) : prog eppE (result unit) :=
  if bool_decide (a_Cluster a = EmptyString) then Ret (Err (ParamError "epp assignment cluster is empty"))
  else
    affected <-? call (TEppAssignmentUpdate (a_Cluster a) (a_GroupName a)) ;;
    if (0 <? affected)%Z then Ret (Ok tt)
    else
      created <- call (TEppAssignmentCreate (a_Cluster a) (a_GroupName a)) ;;
      match created with
      | Ok _ => Ret (Ok tt)
      | Err e =>
          again <- call (TEppAssignmentUpdate (a_Cluster a) (a_GroupName a)) ;;
          match again with Ok _ => Ret (Ok tt) | Err _ => Ret (Err e) end
      end.

(** A statement as a transaction of its own. *)
Definition in_transaction (body : prog eppE (result unit)) : prog eppE (result unit) :=
  r <- AtomExecute tt (b <- body ;; Ret (match b with Err e => Some e | Ok _ => None end, tt)) ;;
  Ret (match r with (Some e, _) => Err e | (None, _) => Ok tt end).

Definition allocateAndUpsert (pool : EppPool) (assignments : list AssignmentParam) (clusterName : string)
  : prog eppE (result unit) :=
  match allocateCluster pool assignments clusterName with
  | Err _ => call (DeleteAssignment clusterName)
  | Ok assignment =>
      r <- in_transaction (UpsertAssignment assignment) ;;
      match r with
      | Ok _ => Ret (Ok tt)
      | Err _ =>
          assignments <-? call FetchAssignmentList ;;
          match allocateCluster pool assignments clusterName with
          | Err _ => call (DeleteAssignment clusterName)
          | Ok assignment => in_transaction (UpsertAssignment assignment)
          end
      end
  end.

Definition AssignCluster (m : EppPoolManager) (clusterName : string) : prog eppE (result unit) :=
  if bool_decide (clusterName = EmptyString) then Ret (Err (ParamError "cluster name is empty"))
  else
    instances <-? call (FetchInstanceList allInstances) ;;
    let pool := buildPool (m_poolName m) instances in
    assignments <-? call FetchAssignmentList ;;
    match findValidAssignment pool assignments clusterName with
    | Some _ => Ret (Ok tt)
    | None => allocateAndUpsert pool assignments clusterName
    end.

Definition GetAssignmentEndpoints (m : EppPoolManager) (clusterName : string)
  : prog eppE (result (option (list string))) :=
  if bool_decide (clusterName = EmptyString) then Ret (Err (ParamError "cluster name is empty"))
  else
    instances <-? call (FetchInstanceList allInstances) ;;
    let pool := buildPool (m_poolName m) instances in
    assignments <-? call FetchAssignmentList ;;
    match findValidAssignment pool assignments clusterName with
    | None => Ret (Ok None)
    | Some a =>
        match findGroup pool (a_GroupName a) with
        | None => Ret (Ok None)
        | Some g =>
            if bool_decide (g_Instances g = []) then Ret (Ok None)
            else Ret (Ok (Some (map (fun i => instanceAddress (i_Host i) (i_Port i)) (g_Instances g))))
        end
    end.

(** ** Repair and reconciliation *)

Inductive repairAction : Type := repairKeep | repairReallocate (a : AssignmentParam) | repairClear.

Definition repairOne (pool : EppPool) (assignments : list AssignmentParam) (assignment : AssignmentParam)
  : repairAction :=
  match findValidAssignment pool assignments (a_Cluster assignment) with
  | Some _ => repairKeep
  | None =>
      match allocateCluster pool assignments (a_Cluster assignment) with
      | Err _ => repairClear
      | Ok a => repairReallocate a
      end
  end.

Definition triggerEppDataExport (m : EppPoolManager) : prog eppE unit :=
  if m_hasVersionControl m then call TriggerEppDataExport else Ret tt.

(** The loop over the assignments; the result tells whether any changed. *)
Fixpoint repair_all (pool : EppPool) (assignments l : list AssignmentParam) (changed : bool)
  : prog eppE (result bool) :=
  match l with
  | [] => Ret (Ok changed)
  | a :: l =>
      match repairOne pool assignments a with
      | repairKeep => repair_all pool assignments l changed
      | repairReallocate repaired =>
          _ <-? in_transaction (UpsertAssignment repaired) ;; repair_all pool assignments l true
      | repairClear =>
          _ <-? in_transaction (call (DeleteAssignment (a_Cluster a))) ;; repair_all pool assignments l true
      end
  end.

Definition RepairDangling (m : EppPoolManager) : prog eppE (result unit) :=
  instances <-? call (FetchInstanceList allInstances) ;;
  let pool := buildPool (m_poolName m) instances in
  assignments <-? call FetchAssignmentList ;;
  let assignments := sort_by a_Cluster assignments in
  changed <-? repair_all pool assignments assignments false ;;
  if (changed : bool) then triggerEppDataExport m ;; Ret (Ok tt) else Ret (Ok tt).

(** The loop over the clusters; assignments are read again after a change. *)
Fixpoint assign_all (pool : EppPool) (clusters : list EPPClusterInfo) (assignments : list AssignmentParam)
  : prog eppE (result unit) :=
  match clusters with
  | [] => Ret (Ok tt)
  | c :: clusters =>
      match findValidAssignment pool assignments (c_Name c) with
      | Some _ => assign_all pool clusters assignments
      | None =>
          _ <-? allocateAndUpsert pool assignments (c_Name c) ;;
          assignments <-? call FetchAssignmentList ;;
          assign_all pool clusters assignments
      end
  end.

Definition Reconcile (m : EppPoolManager) : prog eppE (result unit) :=
  if negb (m_hasClusters m) then Ret (Ok tt)
  else
    _ <-? RepairDangling m ;;
    eppClusters <-? call FetchEPPClusters ;;
    match eppClusters with
    | [] => Ret (Ok tt)
    | _ =>
        instances <-? call (FetchInstanceList allInstances) ;;
        let pool := buildPool (m_poolName m) instances in
        assignments <-? call FetchAssignmentList ;;
        assign_all pool (sort_by c_Name eppClusters) assignments
    end.

(** ** Views and manual override *)

Record ClusterAssignmentView : Type := mkClusterView { cv_Cluster : string; cv_Group : option string }.
Record AssignmentsView : Type := mkView {
  av_Clusters : list ClusterAssignmentView; av_Unassigned : list string; av_Idle : list string
}.

Definition assignment_map (assignments : list AssignmentParam) : gmap string AssignmentParam :=
  fold_left (fun m a => <[a_Cluster a := a]> m) assignments ∅.

(** One cluster of the view; [occupied] collects the groups in use. *)
Definition view_cluster (pool : EppPool) (am : gmap string AssignmentParam)
  (st : AssignmentsView * gset string) (c : EPPClusterInfo) : AssignmentsView * gset string :=
  let '(v, occupied) := st in
  match am !! c_Name c with
  | Some a =>
      if live_group pool (a_GroupName a)
      then (mkView (av_Clusters v ++ [mkClusterView (c_Name c) (Some (a_GroupName a))])%list (av_Unassigned v) (av_Idle v),
            {[a_GroupName a]} ∪ occupied)
      else (mkView (av_Clusters v) (av_Unassigned v ++ [c_Name c])%list (av_Idle v), occupied)
  | None => (mkView (av_Clusters v) (av_Unassigned v ++ [c_Name c])%list (av_Idle v), occupied)
  end.

Definition buildAssignmentsView (pool : EppPool) (eppClusters : list EPPClusterInfo)
  (assignments : list AssignmentParam) : AssignmentsView :=
  let '(v, occupied) := fold_left (view_cluster pool (assignment_map assignments)) (sort_by c_Name eppClusters)
                          (mkView [] [] [], ∅) in
  mkView (av_Clusters v) (av_Unassigned v)
    (sort_by id (List.filter (fun n => negb (bool_decide (n ∈ occupied))) (map g_Name (pool_Groups pool)))).

Definition GetAssignmentsView (m : EppPoolManager) : prog eppE (result AssignmentsView) :=
  if negb (m_hasClusters m) then Ret (Err (ModelError "epp pool: cluster source is not configured"))
  else
    eppClusters <-? call FetchEPPClusters ;;
    instances <-? call (FetchInstanceList allInstances) ;;
    assignments <-? call FetchAssignmentList ;;
    Ret (Ok (buildAssignmentsView (buildPool (m_poolName m) instances) eppClusters assignments)).

Definition GetAssignmentView (m : EppPoolManager) (clusterName : string) : prog eppE (result ClusterAssignmentView) :=
  view <-? GetAssignmentsView m ;;
  match List.find (fun e => bool_decide (cv_Cluster e = clusterName)) (av_Clusters view) with
  | Some e => Ret (Ok e)
  | None => Ret (Err (RecordNotExist "epp assignment"))
  end.

Definition OverrideAssignment (m : EppPoolManager) (clusterName groupName : string)
  : prog eppE (result ClusterAssignmentView) :=
  if bool_decide (clusterName = EmptyString) then Ret (Err (ParamError "cluster name is empty"))
  else if bool_decide (groupName = EmptyString) then Ret (Err (ParamError "group_name is empty"))
  else if negb (m_hasClusters m) then Ret (Err (ModelError "epp pool: cluster source is not configured"))
  else
    eppClusters <-? call FetchEPPClusters ;;
    if negb (existsb (fun c => bool_decide (c_Name c = clusterName)) eppClusters)
    then Ret (Err (RecordNotExist "epp assignment"))
    else
      instances <-? call (FetchInstanceList (mkInstFilter None (Some groupName))) ;;
      match instances with
      | [] => Ret (Err (ParamError "epp pool group %q does not exist or is empty"))
      | _ =>
          _ <-? in_transaction (UpsertAssignment (mkAssign clusterName groupName)) ;;
          triggerEppDataExport m ;; GetAssignmentView m clusterName
      end.

(** * Replacing the pool *)

Definition replace_instances (flat : list InstanceParam) : prog eppE (result unit) :=
  _ <-? call (DeleteInstances allInstances) ;;
  match flat with
  | [] => Ret (Ok tt)
  | _ => _ <-? call (CreateInstances flat) ;; Ret (Ok tt)
  end.

Definition PatchPool (m : EppPoolManager) (groups : list (option GroupInput)) : prog eppE (result EppPool) :=
  match validateGroups groups with
  | Err e => Ret (Err e)
  | Ok flat =>
      _ <-? in_transaction (replace_instances flat) ;;
      _ <-? RepairDangling m ;;
      GetPool m
  end.
