(* ===== verification/EppAssign.v ===== *)
(** Assigning clusters to the groups of the pool: the choice of a group, the
    repair of dangling assignments, and reconciliation. *)
From Stdlib Require Import ZArith Lia Ascii.
From stdpp Require Import base tactics numbers list strings gmap option sorting.
From S2P Require Import Prelude GoStrings Prog GoNet EppPool.

Local Open Scope string_scope.

(** * Sorting *)

#[export] Instance by_key_trans {A} (f : A -> string) : Transitive (by_key f).
Proof. intros x y z. unfold by_key. apply transitivity. Qed.
#[export] Instance by_key_total {A} (f : A -> string) : Total (by_key f).
Proof. intros x y. apply String.le_total. Qed.

Lemma sort_by_perm {A} (f : A -> string) l : sort_by f l ≡ₚ l.
Proof. apply merge_sort_Permutation. Qed.

Lemma elem_of_sort_by {A} (f : A -> string) l x : x ∈ sort_by f l <-> x ∈ l.
Proof. by rewrite sort_by_perm. Qed.

Lemma sort_by_sorted {A} (f : A -> string) l : StronglySorted (by_key f) (sort_by f l).
Proof. apply StronglySorted_merge_sort; apply _. Qed.

Lemma map_perm {A B} (f : A -> B) (l k : list A) : l ≡ₚ k -> map f l ≡ₚ map f k.
Proof. apply fmap_Permutation. Qed.

(** * The pool of a list of instances *)

Lemma lookup_groupMap l g : groupMap l !! g =
  match List.filter (fun i => bool_decide (i_GroupName i = g)) l with [] => None | insts => Some insts end.
Proof.
  unfold groupMap. induction l as [|i l IH] using rev_ind; [done|].
  rewrite fold_left_app. cbn [fold_left]. rewrite List.filter_app. cbn [List.filter].
  destruct (decide (i_GroupName i = g)) as [Hg|Hg].
  - rewrite bool_decide_eq_true_2 by done. rewrite Hg, lookup_insert_eq, IH.
    by destruct (List.filter _ l).
  - rewrite bool_decide_eq_false_2 by done. rewrite lookup_insert_ne by done. by rewrite IH, app_nil_r.
Qed.

Lemma groupMap_dom l g : is_Some (groupMap l !! g) <-> g ∈ map i_GroupName l.
Proof.
  rewrite lookup_groupMap. destruct (List.filter _ l) as [|i k] eqn:E.
  - split; [by intros []|]. intros (i & -> & Hi)%list_elem_of_fmap. exfalso.
    assert (i ∈ List.filter (fun i' => bool_decide (i_GroupName i' = i_GroupName i)) l) as Hin.
    { apply list_elem_of_In, filter_In. split; [by apply list_elem_of_In|by apply bool_decide_eq_true_2]. }
    rewrite E in Hin. by apply elem_of_nil in Hin.
  - split; [|done]. intros _.
    assert (i ∈ List.filter (fun i' => bool_decide (i_GroupName i' = g)) l) as Hin by (rewrite E; left).
    apply list_elem_of_In, filter_In in Hin as [Hi <-%bool_decide_eq_true].
    apply list_elem_of_fmap. exists i. split; [done|by apply list_elem_of_In].
Qed.

Lemma pool_names name l : map g_Name (pool_Groups (buildPool name l)) = sort_by id (map fst (map_to_list (groupMap l))).
Proof. unfold buildPool. cbn. rewrite map_map. cbn. apply map_id. Qed.

Lemma pool_names_nodup name l : NoDup (map g_Name (pool_Groups (buildPool name l))).
Proof. rewrite pool_names, sort_by_perm. apply NoDup_fst_map_to_list. Qed.

Lemma elem_of_pool_names name l g : g ∈ map g_Name (pool_Groups (buildPool name l)) <-> g ∈ map i_GroupName l.
Proof.
  rewrite pool_names, elem_of_sort_by, <- groupMap_dom, list_elem_of_fmap. split.
  - intros ([k v] & -> & Hin%elem_of_map_to_list). cbn. by eexists.
  - intros [v Hv]. exists (g, v). split; [done|by apply elem_of_map_to_list].
Qed.

Lemma lookup_pool_map pool g : NoDup (map g_Name (pool_Groups pool)) ->
  pool_map pool !! g = List.find (fun x => bool_decide (g_Name x = g)) (pool_Groups pool).
Proof.
  unfold pool_map. induction (pool_Groups pool) as [|x l IH] using rev_ind; [done|].
  rewrite map_app. cbn [map]. intros (Hl & Hx & _)%list.NoDup_app. rewrite fold_left_app. cbn [fold_left].
  specialize (IH Hl).
  destruct (decide (g_Name x = g)) as [<-|Hne].
  - rewrite lookup_insert_eq.
    assert (List.find (fun y => bool_decide (g_Name y = g_Name x)) l = None) as Hn.
    { destruct (List.find _ l) as [y|] eqn:E; [|done]. exfalso.
      apply find_some in E as [Hy Hyx%bool_decide_eq_true]. apply (Hx (g_Name x)); [|by left].
      rewrite <- Hyx. by apply list_elem_of_fmap_2, list_elem_of_In. }
    clear -Hn. induction l as [|z l IH]; cbn in *; [by rewrite bool_decide_eq_true_2|].
    destruct (bool_decide (g_Name z = g_Name x)); [done|]. by apply IH.
  - rewrite lookup_insert_ne by done. rewrite IH. clear -Hne.
    induction l as [|z l IH]; cbn; [by rewrite bool_decide_eq_false_2|].
    by destruct (bool_decide (g_Name z = g)).
Qed.

(** The groups that exist are exactly those that hold an instance. *)
Lemma live_iff name l g : live_group (buildPool name l) g = bool_decide (g ∈ map i_GroupName l).
Proof.
  unfold live_group. rewrite lookup_pool_map by apply pool_names_nodup.
  destruct (List.find _ _) as [x|] eqn:E.
  - apply find_some in E as [Hx Hg%bool_decide_eq_true]. cbn in Hx.
    apply in_map_iff in Hx as (n & <- & Hn). cbn in Hg. subst n.
    apply list_elem_of_In, elem_of_sort_by, list_elem_of_fmap in Hn as ([k v] & -> & Hkv%elem_of_map_to_list).
    cbn [fst g_Instances]. rewrite Hkv. cbn [from_option id].
    assert (k ∈ map i_GroupName l) as Hin by (apply groupMap_dom; by eexists).
    rewrite (bool_decide_eq_true_2 _ Hin). apply negb_true_iff, bool_decide_eq_false_2.
    rewrite lookup_groupMap in Hkv. intros Hs. pose proof (sort_by_perm i_ID v) as Hp. rewrite Hs in Hp.
    apply Permutation_nil_l in Hp. subst v. by destruct (List.filter _ l).
  - symmetry. apply bool_decide_eq_false_2. intros Hin.
    apply (elem_of_pool_names name), list_elem_of_fmap in Hin as (x & -> & Hx).
    apply list_elem_of_In in Hx. eapply find_none in E; [|exact Hx]. by rewrite bool_decide_eq_true_2 in E.
Qed.

(** * Valid assignments *)

(** One row per cluster. *)
Definition one_each (rows : list AssignmentParam) : Prop := NoDup (map a_Cluster rows).

Lemma one_each_inj rows a b : one_each rows -> a ∈ rows -> b ∈ rows -> a_Cluster a = a_Cluster b -> a = b.
Proof.
  unfold one_each. induction rows as [|x rows IH]; cbn; [by intros _ ?%elem_of_nil|].
  intros [Hx Hnd]%list.NoDup_cons [->|Ha]%elem_of_cons [->|Hb]%elem_of_cons E; [done| | |by apply IH].
  - exfalso. apply Hx. rewrite E. by apply list_elem_of_fmap_2.
  - exfalso. apply Hx. rewrite <- E. by apply list_elem_of_fmap_2.
Qed.

Lemma findValid_Some pool rows c a : one_each rows ->
  findValidAssignment pool rows c = Some a <-> a ∈ rows /\ a_Cluster a = c /\ live_group pool (a_GroupName a) = true.
Proof.
  intros Hnd. unfold findValidAssignment. destruct (List.find (of_cluster c) rows) as [b|] eqn:E.
  - apply find_some in E as [Hb Hc%bool_decide_eq_true]. apply list_elem_of_In in Hb. split.
    + destruct (live_group pool (a_GroupName b)) eqn:El; [|done]. by intros [= <-].
    + intros (Ha & Hac & Hl). assert (a = b) as <- by (eapply one_each_inj; eauto; congruence). by rewrite Hl.
  - split; [done|]. intros (Ha & <- & _). apply list_elem_of_In in Ha. eapply find_none in E; [|exact Ha].
    unfold of_cluster in E. by rewrite bool_decide_eq_true_2 in E.
Qed.

Lemma findValid_None pool rows c : one_each rows ->
  findValidAssignment pool rows c = None <->
  forall a, a ∈ rows -> a_Cluster a = c -> live_group pool (a_GroupName a) = false.
Proof.
  intros Hnd. destruct (findValidAssignment pool rows c) as [a|] eqn:E.
  - apply findValid_Some in E as (Ha & Hc & Hl); [|done]. split; [done|]. intros H. specialize (H a Ha Hc). congruence.
  - split; [|done]. intros _ a Ha Hc. destruct (live_group pool (a_GroupName a)) eqn:El; [|done].
    assert (findValidAssignment pool rows c = Some a) by (by apply findValid_Some). congruence.
Qed.

(** * The choice of a group *)

(** The number of assignments to a group. *)
Definition load (rows : list AssignmentParam) (g : string) : nat :=
  length (List.filter (fun a => bool_decide (a_GroupName a = g)) rows).

Lemma load_app l k g : load (l ++ k) g = load l g + load k g.
Proof. unfold load. by rewrite List.filter_app, length_app. Qed.

Lemma load_one a g : load [a] g = if bool_decide (a_GroupName a = g) then 1 else 0.
Proof. unfold load. cbn. by destruct (bool_decide _). Qed.

Lemma load_perm l k g : l ≡ₚ k -> load l g = load k g.
Proof.
  intros Hp. unfold load. induction Hp; cbn; [done| | |congruence].
  - destruct (bool_decide _); cbn; congruence.
  - by destruct (bool_decide (a_GroupName y = g)), (bool_decide (a_GroupName x = g)).
Qed.

Lemma lookup_counts rows g : default 0%Z (countGroupAssignments rows !! g) = Z.of_nat (load rows g).
Proof.
  unfold countGroupAssignments. induction rows as [|a rows IH] using rev_ind; [done|].
  rewrite fold_left_app, load_app. cbn [fold_left]. destruct (decide (a_GroupName a = g)) as [<-|Hne].
  - rewrite lookup_insert_eq. cbn [from_option id]. rewrite IH, load_one, bool_decide_eq_true_2 by done. lia.
  - rewrite lookup_insert_ne by done. rewrite IH, load_one, bool_decide_eq_false_2 by done. lia.
Qed.

(** Group [a] is preferred to [b]: it has a smaller load, or the same load
    and a name that is not greater. *)
Definition preferred (rows : list AssignmentParam) (a b : string) : Prop :=
  load rows a < load rows b \/ (load rows a = load rows b /\ String.le a b).

#[export] Instance preferred_trans rows : Transitive (preferred rows).
Proof.
  intros a b c [?|[? ?]] [?|[? ?]]; unfold preferred; [left; lia..|].
  right. split; [lia|]. etrans; eassumption.
Qed.

Lemma preferred_refl rows a : preferred rows a a.
Proof. right. split; [done|]. reflexivity. Qed.

Lemma str_lt_le a b : str_lt a b = true -> String.le a b.
Proof.
  unfold str_lt, String.le, String.leb, String.ltb. by destruct (String.compare a b).
Qed.
Lemma str_nlt_le a b : str_lt a b = false -> String.le b a.
Proof.
  unfold str_lt, String.le, String.leb, String.ltb. rewrite String.compare_antisym.
  by destruct (String.compare b a).
Qed.

Lemma select_group_spec rows l first :
  let sel := select_group (countGroupAssignments rows) l first in
  sel ∈ first :: l /\ forall g, g ∈ first :: l -> preferred rows (g_Name sel) (g_Name g).
Proof.
  cbv zeta. unfold select_group. revert first. induction l as [|x l IH]; intros first; cbn [fold_left].
  { split; [left|]. intros g [->|[]%elem_of_nil]%elem_of_cons. apply preferred_refl. }
  rewrite !lookup_counts. set (b := _ || _).
  assert (b = true -> preferred rows (g_Name x) (g_Name first)) as Ht.
  { subst b. intros [H%Z.ltb_lt|[H%Z.eqb_eq Hs]%andb_prop]%orb_prop; [left; lia|].
    right. split; [lia|by apply str_lt_le]. }
  assert (b = false -> preferred rows (g_Name first) (g_Name x)) as Hf.
  { subst b. intros [H1%Z.ltb_ge H2]%orb_false_elim. apply andb_false_iff in H2 as [H2%Z.eqb_neq|H2]; [left; lia|].
    destruct (decide (load rows (g_Name first) < load rows (g_Name x))); [by left|].
    right. split; [lia|by apply str_nlt_le]. }
  destruct (IH (if b then x else first)) as [Hin Hmin]. clearbody b.
  set (sel := fold_left _ l _) in *. split.
  - apply elem_of_cons in Hin as [->|Hin]; [destruct b; [right; left|left]|right; by right].
  - intros g [->|[->|Hg]%elem_of_cons]%elem_of_cons; [| |apply Hmin; by right].
    + etrans; [apply Hmin; left|]. destruct b; [by apply Ht|apply preferred_refl].
    + etrans; [apply Hmin; left|]. destruct b; [apply preferred_refl|by apply Hf].
Qed.

(** What the allocator promises: the chosen group exists and is preferred to
    every other, whichever the cluster; it fails only when there is no group. *)
Lemma allocate_ok pool rows : pool_Groups pool <> [] ->
  exists g, (forall c, allocateCluster pool rows c = Ok (mkAssign c g)) /\ g ∈ map g_Name (pool_Groups pool) /\
    forall g', g' ∈ map g_Name (pool_Groups pool) -> preferred rows g g'.
Proof.
  intros Hne. unfold allocateCluster, candidateGroups. pose proof (sort_by_perm g_Name (pool_Groups pool)) as Hp.
  destruct (sort_by g_Name (pool_Groups pool)) as [|x l]; [by apply Permutation_nil_l, eq_sym in Hp|].
  destruct (select_group_spec rows l x) as [Hin Hmin].
  eexists. split; [reflexivity|]. rewrite <- (map_perm g_Name _ _ Hp). split; [by apply (list_elem_of_fmap_2 g_Name)|].
  intros g' (g & -> & Hg)%list_elem_of_fmap. rewrite <- Hp in Hg. by apply Hmin.
Qed.

Lemma allocate_none pool rows c : pool_Groups pool = [] ->
  allocateCluster pool rows c = Err (ModelError "epp pool has no assignable instance group").
Proof. intros E. unfold allocateCluster, candidateGroups. by rewrite E. Qed.

(** * Upserts *)

(** The table with cluster [c] assigned to group [g]. *)
Definition assign_to (c g : string) (rows : list AssignmentParam) : list AssignmentParam :=
  if bool_decide (c ∈ map a_Cluster rows) then map (set_group c g) rows else (rows ++ [mkAssign c g])%list.

Lemma set_group_other c g rows : c ∉ map a_Cluster rows -> map (set_group c g) rows = rows.
Proof.
  intros Hn. rewrite <- (map_id rows) at 2. apply map_ext_in. intros a Ha. unfold set_group.
  rewrite bool_decide_eq_false_2; [done|]. intros <-. apply Hn, list_elem_of_fmap_2. by apply list_elem_of_In.
Qed.

Lemma hits_none c g (b : bool) rows : c ∉ map a_Cluster rows ->
  List.filter (if b then of_cluster c else changes c g) rows = [].
Proof.
  intros Hn. induction rows as [|a rows IH]; [done|].
  assert (a_Cluster a <> c /\ c ∉ map a_Cluster rows) as [Ha Hr].
  { split; intros ?; apply Hn; cbn; [subst; left|by right]. }
  assert ((if b then of_cluster c else changes c g) a = false) as Hf.
  { destruct b; unfold changes, of_cluster; by rewrite bool_decide_eq_false_2. }
  cbn [List.filter]. by rewrite Hf, IH.
Qed.

Lemma exec_upsert c g w : c <> EmptyString ->
  exec [] (UpsertAssignment (mkAssign c g)) w = (Ok tt, set_assignments w (assign_to c g (ew_assignments w))).
Proof.
  intros Hc. unfold UpsertAssignment. cbn [a_Cluster a_GroupName]. rewrite bool_decide_eq_false_2 by done.
  cbn [bind call]. rewrite exec_call. cbn [hd tl answer handle epp_interp epp_handle fst snd].
  unfold assign_to. destruct (decide (c ∈ map a_Cluster (ew_assignments w))) as [Hin|Hout].
  - rewrite (bool_decide_eq_true_2 _ Hin). destruct (0 <? _)%Z; [done|]. cbn [bind call]. rewrite exec_call.
    cbn [hd tl answer handle epp_interp epp_handle fst snd ew_assignments set_assignments].
    assert (c ∈ map a_Cluster (map (set_group c g) (ew_assignments w))) as Hin'.
    { apply list_elem_of_fmap in Hin as (a & -> & Ha). apply list_elem_of_fmap.
      exists (set_group (a_Cluster a) g a). unfold set_group. rewrite bool_decide_eq_true_2 by done. split; [done|].
      apply list_elem_of_fmap. exists a. by rewrite bool_decide_eq_true_2. }
    rewrite (bool_decide_eq_true_2 _ Hin'). cbn [bind call fst snd]. rewrite exec_call.
    cbn [hd tl answer handle epp_interp epp_handle fst snd ew_assignments set_assignments]. rewrite exec_ret.
    assert (forall a, set_group c g (set_group c g a) = set_group c g a) as Hidem.
    { intros a. unfold set_group. destruct (bool_decide (a_Cluster a = c)) eqn:E; cbn; [|by rewrite E].
      by rewrite bool_decide_eq_true_2. }
    rewrite map_map, (map_ext _ _ Hidem). by destruct w.
  - rewrite hits_none by done. change (0 <? Z.of_nat (length []))%Z with false. cbv iota. cbn [bind call]. rewrite exec_call.
    cbn [hd tl answer handle epp_interp epp_handle fst snd ew_assignments set_assignments].
    rewrite set_group_other by done. rewrite (bool_decide_eq_false_2 _ Hout). reflexivity.
Qed.

(** A statement that works, as a transaction of its own. *)
Lemma exec_in_transaction body w w' :
  exec [] body (set_esaved w (Some (ew_instances w, ew_assignments w))) = (Ok tt, w') ->
  exec [] (in_transaction body) w = (Ok tt, set_esaved w' None).
Proof.
  intros Hb. unfold in_transaction, AtomExecute. cbn [tx_begin tx_commit tx_rollback epp_txn].
  cbn [bind call]. rewrite exec_call. cbn [hd tl answer handle epp_interp epp_handle fst snd].
  rewrite !exec_bind_nil, Hb. reflexivity.
Qed.

Lemma exec_upsert_txn c g w : c <> EmptyString -> ew_saved w = None ->
  exec [] (in_transaction (UpsertAssignment (mkAssign c g))) w =
  (Ok tt, set_assignments w (assign_to c g (ew_assignments w))).
Proof.
  intros Hc Hs. erewrite exec_in_transaction by by apply exec_upsert.
  destruct w. cbn in *. by rewrite Hs.
Qed.

Lemma exec_delete_txn c w : ew_saved w = None ->
  exec [] (in_transaction (call (DeleteAssignment c))) w =
  (Ok tt, set_assignments w (List.filter (fun a => negb (of_cluster c a)) (ew_assignments w))).
Proof. intros Hs. erewrite exec_in_transaction by reflexivity. destruct w. cbn in *. by rewrite Hs. Qed.

(** * Repair *)

Record epp_wf (w : eworld) : Prop := {
  wf_one : one_each (ew_assignments w);
  wf_named : forall a, a ∈ ew_assignments w -> a_Cluster a <> EmptyString;
  wf_idle : ew_saved w = None
}.

(** The pool as the manager reads it. *)
Definition pool_of (m : EppPoolManager) (w : eworld) : EppPool :=
  buildPool (m_poolName m) (list_instances allInstances (ew_instances w)).

(** The groups that hold an instance. *)
Definition groups_of (w : eworld) : list string := map i_GroupName (ew_instances w).

Lemma list_all_perm rows : list_instances allInstances rows ≡ₚ rows.
Proof.
  unfold list_instances. rewrite !sort_by_perm. induction rows as [|i rows IH]; [done|]. cbn. by rewrite IH.
Qed.

Lemma live_pool_of m w g : live_group (pool_of m w) g = bool_decide (g ∈ groups_of w).
Proof.
  unfold pool_of, groups_of. rewrite live_iff. apply bool_decide_ext.
  by rewrite (map_perm i_GroupName _ _ (list_all_perm _)).
Qed.

Lemma elem_of_pool_of m w g : g ∈ map g_Name (pool_Groups (pool_of m w)) <-> g ∈ groups_of w.
Proof. unfold pool_of, groups_of. by rewrite elem_of_pool_names, (map_perm i_GroupName _ _ (list_all_perm _)). Qed.

Lemma pool_of_empty m w : pool_Groups (pool_of m w) = [] <-> ew_instances w = [].
Proof.
  split; intros E.
  - destruct (ew_instances w) as [|i l] eqn:Ei; [done|]. exfalso.
    assert (i_GroupName i ∈ groups_of w) as Hin by (unfold groups_of; rewrite Ei; left).
    apply (elem_of_pool_of m) in Hin. rewrite E in Hin. by apply elem_of_nil in Hin.
  - unfold pool_of. by rewrite E.
Qed.

Definition dangling (pool : EppPool) (rows : list AssignmentParam) (c : string) : bool :=
  match findValidAssignment pool rows c with Some _ => false | None => true end.

(** The rows of the clusters of [l] that dangle, moved to group [g]. *)
Definition fix_row (pool : EppPool) (rows : list AssignmentParam) (g : string) (l : list AssignmentParam)
  (a : AssignmentParam) : AssignmentParam :=
  if bool_decide (a_Cluster a ∈ map a_Cluster l) && dangling pool rows (a_Cluster a)
  then mkAssign (a_Cluster a) g else a.

Lemma fix_row_skip pool rows g b l a : dangling pool rows (a_Cluster b) = false ->
  fix_row pool rows g (b :: l) a = fix_row pool rows g l a.
Proof.
  intros Hd. unfold fix_row. cbn [map]. destruct (decide (a_Cluster a = a_Cluster b)) as [E|Hne].
  - by rewrite E, Hd, !andb_false_r.
  - by rewrite (bool_decide_ext _ _ (elem_of_cons _ _ _)), bool_decide_or, (bool_decide_eq_false_2 _ Hne).
Qed.

Lemma fix_row_step pool rows g b l a : dangling pool rows (a_Cluster b) = true ->
  fix_row pool rows g l (set_group (a_Cluster b) g a) = fix_row pool rows g (b :: l) a.
Proof.
  intros Hd. unfold fix_row, set_group. cbn [map]. destruct (decide (a_Cluster a = a_Cluster b)) as [E|Hne].
  - rewrite (bool_decide_eq_true_2 _ E), (bool_decide_eq_true_2 (a_Cluster a ∈ _)) by (rewrite E; left).
    cbn [a_Cluster]. rewrite E, Hd. cbn [andb]. by destruct (_ && _).
  - rewrite (bool_decide_eq_false_2 _ Hne).
    by rewrite (bool_decide_ext _ _ (elem_of_cons _ _ _)), bool_decide_or, (bool_decide_eq_false_2 _ Hne).
Qed.

Lemma fix_row_cluster pool rows g l a : a_Cluster (fix_row pool rows g l a) = a_Cluster a.
Proof. unfold fix_row. by destruct (_ && _). Qed.

Lemma set_group_cluster c g a : a_Cluster (set_group c g a) = a_Cluster a.
Proof. unfold set_group. destruct (bool_decide (a_Cluster a = c)) eqn:E; [|done]. by apply bool_decide_eq_true in E. Qed.

Lemma exec_repair_all pool rows g l ch w :
  (forall c, allocateCluster pool rows c = Ok (mkAssign c g)) -> ew_saved w = None ->
  (forall a, a ∈ l -> a_Cluster a <> EmptyString /\ a_Cluster a ∈ map a_Cluster (ew_assignments w)) ->
  exec [] (repair_all pool rows l ch) w =
  (Ok (ch || existsb (fun a => dangling pool rows (a_Cluster a)) l),
   set_assignments w (map (fix_row pool rows g l) (ew_assignments w))).
Proof.
  intros Hg. revert ch w. induction l as [|a l IH]; intros ch w Hs Hl; cbn [repair_all existsb].
  { rewrite exec_ret, orb_false_r, (map_ext _ id), map_id; [by destruct w|]. intros a. unfold fix_row. cbn.
    by rewrite bool_decide_eq_false_2 by (by intros ?%elem_of_nil). }
  destruct (Hl a ltac:(left)) as [Hne Hin].
  assert (forall b, b ∈ l -> a_Cluster b <> EmptyString /\ a_Cluster b ∈ map a_Cluster (ew_assignments w)) as Hl'.
  { intros b Hb. apply Hl. by right. }
  unfold repairOne. destruct (findValidAssignment pool rows (a_Cluster a)) as [v|] eqn:Ef.
  - assert (dangling pool rows (a_Cluster a) = false) as Hd by (unfold dangling; by rewrite Ef).
    rewrite IH, Hd by done. cbn [orb]. by rewrite (map_ext _ _ (fun x => fix_row_skip pool rows g a l x Hd)).
  - assert (dangling pool rows (a_Cluster a) = true) as Hd by (unfold dangling; by rewrite Ef).
    rewrite Hg. cbn [bind]. rewrite exec_bind_nil, exec_upsert_txn by done. cbn [fst snd].
    unfold assign_to. rewrite (bool_decide_eq_true_2 _ Hin). rewrite IH; [|done|].
    + rewrite Hd. cbn [orb]. rewrite orb_true_r. cbn [ew_assignments set_assignments].
      by rewrite map_map, (map_ext _ _ (fun x => fix_row_step pool rows g a l x Hd)).
    + intros b Hb. cbn [ew_assignments set_assignments]. rewrite map_map.
      rewrite (map_ext _ a_Cluster); [by apply Hl'|]. intros x. apply set_group_cluster.
Qed.

Lemma filter_both {A} (f g : A -> bool) l : List.filter f (List.filter g l) = List.filter (fun x => g x && f x) l.
Proof. induction l as [|x l IH]; cbn; [done|]. destruct (g x) eqn:Eg; cbn; by rewrite IH. Qed.

Lemma exec_repair_clear pool rows l ch w : pool_Groups pool = [] -> ew_saved w = None ->
  exec [] (repair_all pool rows l ch) w =
  (Ok (ch || negb (bool_decide (l = []))),
   set_assignments w (List.filter (fun a => negb (bool_decide (a_Cluster a ∈ map a_Cluster l))) (ew_assignments w))).
Proof.
  intros Hp. revert ch w. induction l as [|a l IH]; intros ch w Hs; cbn [repair_all].
  { rewrite exec_ret, bool_decide_eq_true_2, orb_false_r by done. f_equal. destruct w as [i rows' cl sv ex fr].
    unfold set_assignments. cbn. f_equal. symmetry. apply forallb_filter_id, forallb_forall. intros a _.
    by rewrite bool_decide_eq_false_2 by (by intros ?%elem_of_nil). }
  unfold repairOne.
  assert (findValidAssignment pool rows (a_Cluster a) = None) as ->.
  { unfold findValidAssignment, live_group, pool_map. rewrite Hp. cbn. by destruct (List.find _ rows). }
  rewrite allocate_none by done. rewrite exec_bind_nil, exec_delete_txn by done. cbn [fst snd].
  rewrite IH by done. rewrite (bool_decide_eq_false_2 (a :: l = [])) by done. cbn [negb orb].
  rewrite orb_true_r. f_equal. unfold set_assignments. cbn. f_equal.
  rewrite filter_both. apply filter_ext. intros b. unfold of_cluster.
  rewrite (bool_decide_ext _ _ (elem_of_cons (map a_Cluster l) (a_Cluster b) (a_Cluster a))), bool_decide_or.
  by rewrite negb_orb.
Qed.

(** The rows after a repair that found group [g] to move to. *)
Definition repaired (w : eworld) (g : string) : list AssignmentParam :=
  map (fun a => if bool_decide (a_GroupName a ∈ groups_of w) then a else mkAssign (a_Cluster a) g) (ew_assignments w).

(** Is there an assignment to a group that is gone? *)
Definition has_dangling (w : eworld) : bool :=
  existsb (fun a => negb (bool_decide (a_GroupName a ∈ groups_of w))) (ew_assignments w).

(** An export is triggered when something changed. *)
Definition published (m : EppPoolManager) (changed : bool) (w : eworld) : eworld :=
  if changed && m_hasVersionControl m then add_export w else w.

Lemma dangling_row m w rows a : one_each rows -> a ∈ rows ->
  dangling (pool_of m w) rows (a_Cluster a) = negb (bool_decide (a_GroupName a ∈ groups_of w)).
Proof.
  intros Hone Ha. unfold dangling. rewrite <- (live_pool_of m).
  destruct (findValidAssignment _ rows (a_Cluster a)) as [b|] eqn:E.
  - apply findValid_Some in E as (Hb & Hc & Hl); [|done].
    assert (a = b) as <- by (by apply (one_each_inj rows)). by rewrite Hl.
  - apply findValid_None with (a := a) in E; [|done..]. by rewrite E.
Qed.

(** The assignments as they are read are the rows in another order. *)
Lemma read_rows_perm w : sort_by a_Cluster (sort_by a_Cluster (ew_assignments w)) ≡ₚ ew_assignments w.
Proof. by rewrite !sort_by_perm. Qed.

Lemma one_each_perm l k : l ≡ₚ k -> one_each k -> one_each l.
Proof. unfold one_each. intros Hp. by rewrite (map_perm a_Cluster _ _ Hp). Qed.

Lemma existsb_perm {A} (f : A -> bool) l k : l ≡ₚ k -> existsb f l = existsb f k.
Proof.
  intros Hp. apply Bool.eq_iff_eq_true. rewrite !existsb_exists.
  split; intros (x & Hx & Hf); exists x; (split; [|done]); apply list_elem_of_In; apply list_elem_of_In in Hx;
    by rewrite ?Hp in * || rewrite <- Hp in *.
Qed.

Lemma RepairDangling_some m w : epp_wf w -> ew_instances w <> [] ->
  exists g, g ∈ groups_of w /\ (forall g', g' ∈ groups_of w -> preferred (ew_assignments w) g g') /\
    exec [] (RepairDangling m) w = (Ok tt, published m (has_dangling w) (set_assignments w (repaired w g))).
Proof.
  intros [Hone Hnamed Hidle] Hne. set (rows := sort_by a_Cluster (sort_by a_Cluster (ew_assignments w))).
  assert (rows ≡ₚ ew_assignments w) as Hp by apply read_rows_perm.
  assert (one_each rows) as Hone' by (by eapply one_each_perm).
  destruct (allocate_ok (pool_of m w) rows) as (g & Hg & Hin & Hmin).
  { intros E. by apply Hne, (pool_of_empty m). }
  exists g. split; [by apply (elem_of_pool_of m)|]. split.
  { intros g' Hg'. destruct (Hmin g') as [H|H]; [by apply elem_of_pool_of|left|right];
      rewrite !(load_perm _ _ _ Hp) in H; exact H. }
  unfold RepairDangling. cbn [bind call]. rewrite exec_call.
  cbn [hd tl answer handle epp_interp epp_handle fst snd bind call]. rewrite exec_call.
  cbn [hd tl answer handle epp_interp epp_handle fst snd]. fold (pool_of m w). fold rows.
  rewrite exec_bind_nil, (exec_repair_all _ _ g); [|done..|].
  2: { intros a Ha. rewrite Hp in Ha. split; [by apply Hnamed|by apply list_elem_of_fmap_2]. }
  cbn [fst snd orb].
  assert (existsb (fun a => dangling (pool_of m w) rows (a_Cluster a)) rows = has_dangling w) as ->.
  { unfold has_dangling. rewrite <- (existsb_perm _ _ _ Hp). apply Bool.eq_iff_eq_true. rewrite !existsb_exists.
    split; intros (a & Ha & Hd); exists a; (split; [done|]); revert Hd;
      by rewrite (dangling_row m w rows) by (done || by apply list_elem_of_In). }
  assert (map (fix_row (pool_of m w) rows g rows) (ew_assignments w) = repaired w g) as ->.
  { apply map_ext_in. intros a Ha%list_elem_of_In. rewrite <- Hp in Ha. unfold fix_row.
    rewrite bool_decide_eq_true_2 by (by apply list_elem_of_fmap_2).
    rewrite (dangling_row m w rows) by done. by destruct (bool_decide _). }
  unfold triggerEppDataExport, published. destruct (has_dangling w), (m_hasVersionControl m); reflexivity.
Qed.

Lemma RepairDangling_none m w : epp_wf w -> ew_instances w = [] ->
  exec [] (RepairDangling m) w =
  (Ok tt, published m (negb (bool_decide (ew_assignments w = []))) (set_assignments w [])).
Proof.
  intros [Hone Hnamed Hidle] Hne. set (rows := sort_by a_Cluster (sort_by a_Cluster (ew_assignments w))).
  assert (rows ≡ₚ ew_assignments w) as Hp by apply read_rows_perm.
  unfold RepairDangling. cbn [bind call]. rewrite exec_call.
  cbn [hd tl answer handle epp_interp epp_handle fst snd bind call]. rewrite exec_call.
  cbn [hd tl answer handle epp_interp epp_handle fst snd]. fold (pool_of m w). fold rows.
  rewrite exec_bind_nil, exec_repair_clear by (done || by apply pool_of_empty). cbn [fst snd orb].
  assert (List.filter (fun a => negb (bool_decide (a_Cluster a ∈ map a_Cluster rows))) (ew_assignments w) = []) as ->.
  { rewrite (filter_ext_in _ (fun _ => false)), filter_false; [done|]. intros a Ha%list_elem_of_In.
    rewrite <- Hp in Ha. by rewrite bool_decide_eq_true_2 by (by apply list_elem_of_fmap_2). }
  assert (bool_decide (rows = []) = bool_decide (ew_assignments w = [])) as ->.
  { apply bool_decide_ext. split; intros E; rewrite E in Hp; [by apply Permutation_nil_l in Hp|by apply Permutation_nil_r in Hp]. }
  unfold triggerEppDataExport, published. destruct (bool_decide _), (m_hasVersionControl m); reflexivity.
Qed.

(** * What a repair does *)

Definition dangling_rows (w : eworld) : list AssignmentParam :=
  List.filter (fun a => negb (bool_decide (a_GroupName a ∈ groups_of w))) (ew_assignments w).

Lemma repaired_clusters w g : map a_Cluster (repaired w g) = map a_Cluster (ew_assignments w).
Proof. unfold repaired. rewrite map_map. apply map_ext. intros a. by destruct (bool_decide _). Qed.

Lemma published_assignments m b w : ew_assignments (published m b w) = ew_assignments w.
Proof. unfold published. by destruct (b && m_hasVersionControl m). Qed.
Lemma published_instances m b w : ew_instances (published m b w) = ew_instances w.
Proof. unfold published. by destruct (b && m_hasVersionControl m). Qed.
Lemma published_saved m b w : ew_saved (published m b w) = ew_saved w.
Proof. unfold published. by destruct (b && m_hasVersionControl m). Qed.
Lemma published_clusters m b w : ew_clusters (published m b w) = ew_clusters w.
Proof. unfold published. by destruct (b && m_hasVersionControl m). Qed.

Lemma load_repaired w g g' : g' ∈ groups_of w ->
  load (repaired w g) g' =
  load (ew_assignments w) g' + (if bool_decide (g = g') then length (dangling_rows w) else 0).
Proof.
  intros Hg'. unfold repaired, dangling_rows. induction (ew_assignments w) as [|a rows IH]; cbn [map List.filter].
  { unfold load. cbn. by destruct (bool_decide (g = g')). }
  change (?x :: ?l) with ([x] ++ l)%list. rewrite (load_app [_] rows), (load_app [_] (map _ rows)), IH, !load_one.
  destruct (bool_decide (a_GroupName a ∈ groups_of w)) eqn:El; cbn [negb a_GroupName].
  - lia.
  - rewrite (bool_decide_eq_false_2 (a_GroupName a = g')).
    + destruct (bool_decide (g = g')); cbn [length app]; lia.
    + intros Ea. rewrite Ea in El. by rewrite bool_decide_eq_true_2 in El.
Qed.

(** What a repair does.  When the pool has a group, the repair keeps
    every assignment to a group that is there and the set of assigned
    clusters, and afterwards no assignment dangles.  All dangling assignments
    go to one group, the one that was preferred before the repair: the loads
    are not counted again between two moves, so that this group takes the
    whole load and no other group any. *)
Theorem repair_moves_to_one_group (m : EppPoolManager) (w : eworld) :
  epp_wf w -> ew_instances w <> [] ->
  let '(r, w') := exec [] (RepairDangling m) w in
  r = Ok tt /\ ew_instances w' = ew_instances w /\ has_dangling w' = false /\
  map a_Cluster (ew_assignments w') = map a_Cluster (ew_assignments w) /\
  (forall a, a ∈ ew_assignments w -> a_GroupName a ∈ groups_of w -> a ∈ ew_assignments w') /\
  exists g, g ∈ groups_of w /\ (forall g', g' ∈ groups_of w -> preferred (ew_assignments w) g g') /\
    forall g', g' ∈ groups_of w ->
      load (ew_assignments w') g' =
      load (ew_assignments w) g' + (if bool_decide (g = g') then length (dangling_rows w) else 0).
Proof.
  intros Hwf Hne. destruct (RepairDangling_some m w Hwf Hne) as (g & Hg & Hmin & ->).
  rewrite published_assignments, published_instances. cbn [ew_instances ew_assignments set_assignments].
  split; [done|]. split; [done|]. split.
  { unfold has_dangling, groups_of. rewrite published_assignments, published_instances.
    cbn [ew_instances ew_assignments set_assignments]. fold (groups_of w).
    apply not_true_is_false. intros (a & Ha & Hd)%existsb_exists.
    apply in_map_iff in Ha as (b & <- & Hb). destruct (bool_decide (a_GroupName b ∈ groups_of w)) eqn:El.
    - by rewrite El in Hd.
    - cbn [a_GroupName] in Hd. by rewrite bool_decide_eq_true_2 in Hd. }
  split; [apply repaired_clusters|]. split.
  { intros a Ha Hl. apply list_elem_of_fmap. exists a. by rewrite bool_decide_eq_true_2. }
  exists g. split; [done|]. split; [done|]. intros g'. apply load_repaired.
Qed.

(** Two clusters lose their group; two empty groups are left. *)
Definition pool_world : eworld := {|
  ew_instances := [mkInst "i1" "10.0.0.1" 9002 "g1"; mkInst "i2" "10.0.0.2" 9002 "g2"];
  ew_assignments := [mkAssign "a" "g9"; mkAssign "b" "g9"];
  ew_clusters := [mkCluster "a" "{}"; mkCluster "b" "{}"; mkCluster "c" "{}"];
  ew_saved := None; ew_exports := []; ew_foundRows := false
|}.
Definition sample_manager : EppPoolManager := mkEppManager "EPP.pool" true true.

Lemma pool_world_wf : epp_wf pool_world.
Proof.
  split; [|intros a Ha; apply list_elem_of_In in Ha; destruct Ha as [<-|[<-|[]]]; discriminate|reflexivity].
  apply (bool_decide_unpack _). vm_compute. exact I.
Qed.

Lemma repair_moves_to_one_group_witness :
  let '(r, w') := exec [] (RepairDangling sample_manager) pool_world in
  r = Ok tt /\ has_dangling w' = false /\ map (load (ew_assignments w')) ["g1"; "g2"] = [2; 0].
Proof.
  pose proof (repair_moves_to_one_group sample_manager pool_world pool_world_wf ltac:(discriminate)) as H.
  destruct (exec [] (RepairDangling sample_manager) pool_world) as [r w'].
  destruct H as (-> & _ & Hd & _ & _ & g & Hg & Hmin & Hl). split; [done|]. split; [exact Hd|].
  assert (g = "g1") as ->.
  { destruct (Hmin "g1" ltac:(left)) as [H|[_ H]]; [exfalso; exact (Nat.nlt_0_r _ H)|].
    apply list_elem_of_In in Hg. destruct Hg as [<-|[<-|[]]]; [reflexivity|]. vm_compute in H. destruct H. }
  cbn [map]. rewrite !Hl by (left || (right; left)). reflexivity.
Defined.
