(* ===== verification/EppReconcile.v ===== *)
(** Reconciliation: every cluster gets a valid assignment, the loads stay
    balanced, and a second run changes nothing; and the view of assignments. *)
From Stdlib Require Import ZArith Lia Ascii.
From stdpp Require Import base tactics numbers list strings gmap option sorting.
From S2P Require Import Prelude GoStrings Prog GoNet EppPool EppAssign.

Local Open Scope string_scope.

(** * Tables under assignment *)

Lemma assign_to_clusters c g rows : map a_Cluster (assign_to c g rows) =
  if bool_decide (c ∈ map a_Cluster rows) then map a_Cluster rows else (map a_Cluster rows ++ [c])%list.
Proof.
  unfold assign_to. destruct (bool_decide _).
  - rewrite map_map. apply map_ext. intros a. apply set_group_cluster.
  - by rewrite map_app.
Qed.

Lemma assign_to_one c g rows : one_each rows -> one_each (assign_to c g rows).
Proof.
  unfold one_each. intros Hone. rewrite assign_to_clusters. case_bool_decide as Hin; [done|].
  apply list.NoDup_app. split; [done|]. split; [|apply NoDup_singleton].
  intros x Hx ->%list_elem_of_singleton. by apply Hin.
Qed.

Lemma assign_to_named c g rows : c <> EmptyString -> (forall a, a ∈ rows -> a_Cluster a <> EmptyString) ->
  forall a, a ∈ assign_to c g rows -> a_Cluster a <> EmptyString.
Proof.
  intros Hc Hn a. unfold assign_to. case_bool_decide.
  - intros (b & -> & Hb)%list_elem_of_fmap. rewrite set_group_cluster. by apply Hn.
  - intros [Ha|Ha]%elem_of_app; [by apply Hn|]. by apply list_elem_of_singleton in Ha as ->.
Qed.

Lemma assign_to_has c g rows : mkAssign c g ∈ assign_to c g rows.
Proof.
  unfold assign_to. case_bool_decide as Hin; [|apply elem_of_app; right; by apply list_elem_of_singleton].
  apply list_elem_of_fmap in Hin as (a & -> & Ha). apply list_elem_of_fmap. exists a.
  unfold set_group. by rewrite bool_decide_eq_true_2.
Qed.

(** Rows of other clusters stay. *)
Lemma assign_to_keeps c g rows a : a ∈ rows -> a_Cluster a <> c -> a ∈ assign_to c g rows.
Proof.
  intros Ha Hne. unfold assign_to. case_bool_decide; [|by apply elem_of_app; left].
  apply list_elem_of_fmap. exists a. unfold set_group. by rewrite bool_decide_eq_false_2.
Qed.

Lemma assign_to_inv c g rows a : a ∈ assign_to c g rows -> a ∈ rows \/ a = mkAssign c g.
Proof.
  unfold assign_to. case_bool_decide.
  - intros (b & -> & Hb)%list_elem_of_fmap. unfold set_group. case_bool_decide; auto.
  - intros [?|?%list_elem_of_singleton]%elem_of_app; auto.
Qed.

(** The loads of any two groups differ by at most one. *)
Definition balanced (groups : list string) (rows : list AssignmentParam) : Prop :=
  forall g g', g ∈ groups -> g' ∈ groups -> load rows g <= S (load rows g').

Lemma assign_keeps_balance groups c g rows : c ∉ map a_Cluster rows ->
  (forall g', g' ∈ groups -> preferred rows g g') ->
  balanced groups rows -> balanced groups (assign_to c g rows).
Proof.
  intros Hc Hmin Hb x y Hx Hy. unfold assign_to. rewrite (bool_decide_eq_false_2 _ Hc), !load_app, !load_one.
  cbn [a_GroupName]. specialize (Hb x y Hx Hy).
  assert (load rows g <= load rows y) as Hle by (destruct (Hmin y Hy) as [?|[? _]]; lia).
  destruct (decide (g = x)) as [<-|Hgx].
  - rewrite bool_decide_eq_true_2 by done. destruct (bool_decide (g = y)); lia.
  - rewrite (bool_decide_eq_false_2 _ Hgx). destruct (bool_decide (g = y)); lia.
Qed.

(** * Assigning all clusters *)

Definition all_live (w : eworld) (rows : list AssignmentParam) : Prop :=
  forall a, a ∈ rows -> a_GroupName a ∈ groups_of w.

(** What assigning a list of clusters does to the rows. *)
Record assigned (w : eworld) (cs : list EPPClusterInfo) (rows rows' : list AssignmentParam) : Prop := {
  as_one : one_each rows';
  as_named : forall a, a ∈ rows' -> a_Cluster a <> EmptyString;
  as_each : forall c, c ∈ cs -> exists a, a ∈ rows' /\ a_Cluster a = c_Name c /\ a_GroupName a ∈ groups_of w;
  as_keeps : forall a, a ∈ rows -> a_GroupName a ∈ groups_of w -> a ∈ rows';
  as_live : all_live w rows -> all_live w rows';
  as_balance : all_live w rows -> balanced (groups_of w) rows -> balanced (groups_of w) rows'
}.

Lemma allocateAndUpsert_some pool rows c g w : c <> EmptyString -> ew_saved w = None ->
  allocateCluster pool rows c = Ok (mkAssign c g) ->
  exec [] (allocateAndUpsert pool rows c) w = (Ok tt, set_assignments w (assign_to c g (ew_assignments w))).
Proof.
  intros Hc Hs Ha. unfold allocateAndUpsert. rewrite Ha, exec_bind_nil, exec_upsert_txn by done. reflexivity.
Qed.

(** One more cluster, which had no valid assignment, goes to group [g]. *)
Lemma assigned_step w c cs g rows' :
  let w1 := set_assignments w (assign_to (c_Name c) g (ew_assignments w)) in
  g ∈ groups_of w -> (forall g', g' ∈ groups_of w -> preferred (ew_assignments w) g g') ->
  (forall a, a ∈ ew_assignments w -> a_GroupName a ∈ groups_of w -> a_Cluster a <> c_Name c) ->
  assigned w1 cs (ew_assignments w1) rows' -> assigned w (c :: cs) (ew_assignments w) rows'.
Proof.
  cbv zeta. intros Hin Hmin Hother [A1 A2 A3 A4 A5 A6]. cbn [ew_assignments set_assignments] in *.
  assert (all_live w (ew_assignments w) -> all_live w (assign_to (c_Name c) g (ew_assignments w))) as Hlive.
  { intros Hl a [Ha| ->]%assign_to_inv; [by apply Hl|exact Hin]. }
  split; auto.
  - intros c' [->|Hc']%elem_of_cons; [|by apply A3]. exists (mkAssign (c_Name c) g).
    split; [apply A4; [apply assign_to_has|exact Hin]|done].
  - intros a Ha Hl. apply A4; [|done]. apply assign_to_keeps; [done|by apply Hother].
  - intros Hl Hb. apply A6; [by apply Hlive|]. apply assign_keeps_balance; [|done..].
    intros (a & Hac & Ha)%list_elem_of_fmap. by apply (Hother a Ha (Hl a Ha)).
Qed.

Lemma exec_assign_all m w cs rows : epp_wf w -> ew_instances w <> [] -> rows ≡ₚ ew_assignments w ->
  (forall c, c ∈ cs -> c_Name c <> EmptyString) ->
  exists rows', exec [] (assign_all (pool_of m w) cs rows) w = (Ok tt, set_assignments w rows') /\
    assigned w cs (ew_assignments w) rows'.
Proof.
  revert w rows. induction cs as [|c cs IH]; intros w rows Hwf Hne Hp Hcs; cbn [assign_all].
  { exists (ew_assignments w). rewrite exec_ret. destruct Hwf as [H1 H2 H3]. split; [by destruct w|].
    split; auto. intros c Hc. by apply elem_of_nil in Hc. }
  assert (forall c', c' ∈ cs -> c_Name c' <> EmptyString) as Hcs' by (intros c' Hc'; apply Hcs; by right).
  assert (c_Name c <> EmptyString) as Hc by (apply Hcs; left).
  destruct Hwf as [Hone Hnamed Hidle].
  assert (one_each rows) as Hone' by (by eapply one_each_perm).
  destruct (findValidAssignment (pool_of m w) rows (c_Name c)) as [v|] eqn:Ef.
  - destruct (IH w rows) as (rows' & E & Ha); [by split|done..|]. exists rows'. split; [exact E|].
    destruct Ha as [A1 A2 A3 A4 A5 A6]. split; auto.
    intros c' [->|Hc']%elem_of_cons; [|by apply A3].
    apply findValid_Some in Ef as (Hv & Hvc & Hl); [|done]. rewrite live_pool_of in Hl.
    apply bool_decide_eq_true in Hl. exists v. split; [|done]. apply A4; [|done]. by rewrite <- Hp.
  - destruct (allocate_ok (pool_of m w) rows) as (g & Hg & Hin & Hmin).
    { intros E. by apply Hne, (pool_of_empty m). }
    rewrite exec_bind_nil, (allocateAndUpsert_some _ _ _ g) by done. cbn [fst snd bind call].
    rewrite exec_call. cbn [hd tl answer handle epp_interp epp_handle fst snd].
    set (w1 := set_assignments w _).
    assert (forall a, a ∈ ew_assignments w -> a_GroupName a ∈ groups_of w -> a_Cluster a <> c_Name c) as Hother.
    { intros a Ha Hl E. rewrite <- Hp in Ha. apply findValid_None with (a := a) in Ef; [|done..].
      rewrite live_pool_of in Ef. by rewrite bool_decide_eq_true_2 in Ef. }
    apply elem_of_pool_of in Hin.
    assert (forall g', g' ∈ groups_of w -> preferred (ew_assignments w) g g') as Hmin'.
    { intros g' Hg'. destruct (Hmin g') as [H|H]; [by apply elem_of_pool_of|left|right];
        rewrite !(load_perm _ _ _ Hp) in H; exact H. }
    destruct (IH w1 (sort_by a_Cluster (ew_assignments w1))) as (rows' & E & Ha).
    + split; [by apply assign_to_one|by apply assign_to_named|done].
    + done.
    + apply sort_by_perm.
    + done.
    + exists rows'. change (pool_of m w) with (pool_of m w1). split; [rewrite E; by destruct w|].
      by apply (assigned_step w c cs g).
Qed.

Lemma exec_assign_none m w cs rows : one_each (ew_assignments w) -> rows ≡ₚ ew_assignments w ->
  (forall c, c ∈ cs -> exists a, a ∈ ew_assignments w /\ a_Cluster a = c_Name c /\ a_GroupName a ∈ groups_of w) ->
  exec [] (assign_all (pool_of m w) cs rows) w = (Ok tt, w).
Proof.
  intros Hone Hp. induction cs as [|c cs IH]; intros Hcs; cbn [assign_all]; [done|].
  destruct (Hcs c ltac:(left)) as (a & Ha & Hac & Hl).
  assert (findValidAssignment (pool_of m w) rows (c_Name c) = Some a) as ->.
  { apply findValid_Some; [by eapply one_each_perm|]. rewrite live_pool_of, bool_decide_eq_true_2 by done.
    by rewrite Hp. }
  apply IH. intros c' Hc'. apply Hcs. by right.
Qed.

(** * Reconciliation *)

Lemma repaired_live w g : has_dangling w = false -> repaired w g = ew_assignments w.
Proof.
  intros Hd. unfold repaired. rewrite <- (map_id (ew_assignments w)) at 2. apply map_ext_in. intros a Ha.
  destruct (bool_decide (a_GroupName a ∈ groups_of w)) eqn:El; [done|]. exfalso.
  apply not_true_iff_false in Hd. apply Hd. apply existsb_exists. exists a. by rewrite El.
Qed.

Lemma no_dangling_live w : has_dangling w = false <-> all_live w (ew_assignments w).
Proof.
  unfold has_dangling, all_live. rewrite <- not_true_iff_false, existsb_exists. split.
  - intros Hn a Ha. apply dec_stable. intros Hl. apply Hn. exists a. split; [by apply list_elem_of_In|].
    by rewrite bool_decide_eq_false_2.
  - intros Hl (a & Ha%list_elem_of_In & Hd). by rewrite bool_decide_eq_true_2 in Hd by by apply Hl.
Qed.

(** The second half of a reconciliation, in a world without dangling rows. *)
Lemma exec_Reconcile m w w1 : m_hasClusters m = true -> exec [] (RepairDangling m) w = (Ok tt, w1) ->
  exec [] (Reconcile m) w =
  exec [] (assign_all (pool_of m w1) (sort_by c_Name (ew_clusters w1)) (sort_by a_Cluster (ew_assignments w1))) w1.
Proof.
  intros Hm Hr. unfold Reconcile. rewrite Hm. cbn [negb]. rewrite exec_bind_nil, Hr. cbn [fst snd bind call].
  rewrite exec_call. cbn [hd tl answer handle epp_interp epp_handle fst snd].
  destruct (ew_clusters w1) as [|c cs]; [done|]. cbn [bind call]. rewrite exec_call.
  cbn [hd tl answer handle epp_interp epp_handle fst snd bind call]. rewrite exec_call.
  cbn [hd tl answer handle epp_interp epp_handle fst snd]. done.
Qed.

(** Nothing to do: no dangling row and every cluster assigned. *)
Lemma Reconcile_idle m w : epp_wf w -> m_hasClusters m = true -> ew_instances w <> [] -> has_dangling w = false ->
  (forall c, c ∈ ew_clusters w ->
     exists a, a ∈ ew_assignments w /\ a_Cluster a = c_Name c /\ a_GroupName a ∈ groups_of w) ->
  exec [] (Reconcile m) w = (Ok tt, w).
Proof.
  intros Hwf Hm Hne Hd Hcs. destruct (RepairDangling_some m w Hwf Hne) as (g & _ & _ & Hr).
  rewrite Hd, repaired_live in Hr by done. rewrite (exec_Reconcile m w w Hm).
  - apply exec_assign_none; [apply Hwf|apply sort_by_perm|]. intros c Hc%elem_of_sort_by. by apply Hcs.
  - rewrite Hr. by destruct w.
Qed.

(** The world after a repair that moved rows to group [g]. *)
Lemma after_repair m w g : epp_wf w -> g ∈ groups_of w ->
  let w1 := published m (has_dangling w) (set_assignments w (repaired w g)) in
  epp_wf w1 /\ ew_instances w1 = ew_instances w /\ ew_clusters w1 = ew_clusters w /\
  ew_assignments w1 = repaired w g /\ all_live w1 (ew_assignments w1).
Proof.
  intros [H1 H2 H3] Hg. cbv zeta. unfold all_live, groups_of.
  rewrite published_instances, published_clusters, published_assignments. fold (groups_of w).
  cbn [ew_instances ew_clusters ew_assignments set_assignments].
  split; [|split; [done|split; [done|split; [done|]]]].
  - split; rewrite ?published_assignments, ?published_saved; [| |done]; cbn [ew_assignments set_assignments].
    + unfold one_each. by rewrite repaired_clusters.
    + intros a (b & -> & Hb)%list_elem_of_fmap. specialize (H2 b Hb). by case_bool_decide.
  - intros a (b & -> & Hb)%list_elem_of_fmap. by case_bool_decide.
Qed.

(** C37: reconciliation converges.  In a pool that has a group, one run
    without failures gives every EPP cluster an assignment to a group that is
    there, leaves no assignment dangling, keeps the assignments that were
    valid, and, unless a repair was needed, keeps the loads of any two groups
    at most one apart; a second run writes and exports nothing. *)
Theorem reconcile_converges (m : EppPoolManager) (w : eworld) :
  epp_wf w -> m_hasClusters m = true -> ew_instances w <> [] ->
  (forall c, c ∈ ew_clusters w -> c_Name c <> EmptyString) ->
  let '(r, w') := exec [] (Reconcile m) w in
  r = Ok tt /\
  (forall c, c ∈ ew_clusters w ->
     exists a, a ∈ ew_assignments w' /\ a_Cluster a = c_Name c /\ a_GroupName a ∈ groups_of w) /\
  has_dangling w' = false /\
  (forall a, a ∈ ew_assignments w -> a_GroupName a ∈ groups_of w -> a ∈ ew_assignments w') /\
  (has_dangling w = false -> balanced (groups_of w) (ew_assignments w) -> balanced (groups_of w) (ew_assignments w')) /\
  exec [] (Reconcile m) w' = (Ok tt, w').
Proof.
  intros Hwf Hm Hne Hnames. destruct (RepairDangling_some m w Hwf Hne) as (g & Hg & _ & Hr).
  set (w1 := published m (has_dangling w) (set_assignments w (repaired w g))) in Hr.
  destruct (after_repair m w g Hwf Hg) as (Hwf1 & Hi & Hcl & Ha1 & Hlive). fold w1 in Hwf1, Hi, Hcl, Ha1, Hlive.
  assert (groups_of w1 = groups_of w) as Hgr by (unfold groups_of; by rewrite Hi).
  rewrite (exec_Reconcile m w w1 Hm Hr).
  destruct (exec_assign_all m w1 (sort_by c_Name (ew_clusters w1)) (sort_by a_Cluster (ew_assignments w1)))
    as (rows' & -> & [A1 A2 A3 A4 A5 A6]); [done|by rewrite Hi|apply sort_by_perm| |].
  { intros c Hc%elem_of_sort_by. apply Hnames. by rewrite <- Hcl. }
  rewrite Hgr in A3, A4, A6. cbn [ew_assignments set_assignments].
  assert (forall c, c ∈ ew_clusters w ->
    exists a, a ∈ rows' /\ a_Cluster a = c_Name c /\ a_GroupName a ∈ groups_of w) as Heach.
  { intros c Hc. apply A3, elem_of_sort_by. by rewrite Hcl. }
  assert (has_dangling (set_assignments w1 rows') = false) as Hd by (apply no_dangling_live; by apply A5).
  split; [done|]. split; [exact Heach|]. split; [exact Hd|]. split; [|split].
  - intros a Ha Hl. apply A4; [|done]. rewrite Ha1. apply list_elem_of_fmap. exists a. by rewrite bool_decide_eq_true_2.
  - intros Hnd Hb. apply A6; [exact Hlive|]. by rewrite Ha1, repaired_live.
  - apply Reconcile_idle; [split; [done..|apply Hwf1]|done|by cbn; rewrite Hi|exact Hd|].
    cbn [ew_clusters ew_assignments set_assignments].
    change (groups_of (set_assignments w1 rows')) with (groups_of w1). rewrite Hcl, Hgr. exact Heach.
Qed.

Lemma reconcile_converges_witness :
  let '(r, w') := exec [] (Reconcile sample_manager) pool_world in
  r = Ok tt /\ (exists a, a ∈ ew_assignments w' /\ a_Cluster a = "c" /\ a_GroupName a ∈ ["g1"; "g2"]) /\
  exec [] (Reconcile sample_manager) w' = (Ok tt, w').
Proof.
  pose proof (reconcile_converges sample_manager pool_world pool_world_wf eq_refl ltac:(discriminate)) as H.
  destruct (exec [] (Reconcile sample_manager) pool_world) as [r w'].
  destruct H as (Hr & Hc & _ & _ & _ & Hi).
  { intros c Hc. apply list_elem_of_In in Hc. destruct Hc as [<-|[<-|[<-|[]]]]; discriminate. }
  split; [exact Hr|]. split; [|exact Hi]. apply (Hc (mkCluster "c" "{}")). right; right; left.
Defined.

(** * The view of assignments *)

Lemma lookup_assignment_map rows c a : one_each rows ->
  assignment_map rows !! c = Some a <-> a ∈ rows /\ a_Cluster a = c.
Proof.
  unfold one_each, assignment_map. induction rows as [|b rows IH] using rev_ind.
  { intros _. split; [cbn [fold_left]; by rewrite lookup_empty|]. by intros [?%elem_of_nil _]. }
  rewrite map_app. intros (Hl & Hx & _)%list.NoDup_app. rewrite fold_left_app. cbn [fold_left].
  rewrite elem_of_app, list_elem_of_singleton. destruct (decide (a_Cluster b = c)) as [<-|Hne].
  - rewrite lookup_insert_eq. split; [intros [= ->]; auto|]. intros [[Ha| ->] E]; [|done]. exfalso.
    apply (Hx (a_Cluster a)); [by apply list_elem_of_fmap_2|]. rewrite E. left.
  - rewrite lookup_insert_ne, IH by done. split; [intros []; auto|]. by intros [[?| ->] ?].
Qed.

(** The entry of a cluster that is validly assigned. *)
Definition entry_of (pool : EppPool) (am : gmap string AssignmentParam) (c : EPPClusterInfo)
  : option ClusterAssignmentView :=
  match am !! c_Name c with
  | Some a => if live_group pool (a_GroupName a) then Some (mkClusterView (c_Name c) (Some (a_GroupName a))) else None
  | None => None
  end.

Lemma fold_view pool am cs v occ :
  let '(v', occ') := fold_left (view_cluster pool am) cs (v, occ) in
  av_Clusters v' = (av_Clusters v ++ omap (entry_of pool am) cs)%list /\
  av_Unassigned v' = (av_Unassigned v ++ map c_Name (List.filter (fun c => negb (bool_decide (is_Some (entry_of pool am c)))) cs))%list /\
  (forall g, g ∈ occ' <-> g ∈ occ \/ exists c, mkClusterView c (Some g) ∈ omap (entry_of pool am) cs).
Proof.
  revert v occ. induction cs as [|c cs IH]; intros v occ; cbn [fold_left List.filter map].
  { rewrite !app_nil_r. split; [done|]. split; [done|]. intros g. split; [auto|].
    intros [?|[c Hc]]; [done|]. cbn in Hc. by apply elem_of_nil in Hc. }
  assert (exists st, view_cluster pool am (v, occ) c = st /\
    av_Clusters st.1 = (av_Clusters v ++ match entry_of pool am c with Some e => [e] | None => [] end)%list /\
    av_Unassigned st.1 = (av_Unassigned v ++ match entry_of pool am c with Some e => [] | None => [c_Name c] end)%list /\
    (forall g, g ∈ st.2 <-> g ∈ occ \/ entry_of pool am c = Some (mkClusterView (c_Name c) (Some g))))
    as ([v1 occ1] & -> & H1 & H2 & H3).
  { eexists. split; [reflexivity|]. unfold view_cluster, entry_of.
    destruct (am !! c_Name c) as [a|]; [destruct (live_group pool (a_GroupName a))|]; cbn; rewrite ?app_nil_r.
    - split; [done|]. split; [done|]. intros g. rewrite elem_of_union, elem_of_singleton. naive_solver.
    - split; [done|]. split; [done|]. intros g. naive_solver.
    - split; [done|]. split; [done|]. intros g. naive_solver. }
  cbn [fst snd] in *. specialize (IH v1 occ1). destruct (fold_left _ cs (v1, occ1)) as [v' occ'].
  destruct IH as (I1 & I2 & I3). change (omap (entry_of pool am) (c :: cs)) with
    (match entry_of pool am c with Some y => y :: omap (entry_of pool am) cs | None => omap (entry_of pool am) cs end).
  rewrite I1, I2, H1, H2. destruct (entry_of pool am c) as [e|] eqn:Ee.
  - rewrite bool_decide_eq_true_2 by done. cbn [negb]. rewrite <- !app_assoc. split; [done|]. split; [done|].
    intros g. rewrite I3, H3. split.
    + intros [[?|[= ->]]|[x Hx]]; [by left|right; exists (c_Name c); left|right; exists x; by right].
    + intros [?|[x [E|Hx]%elem_of_cons]]; [auto| |eauto]. left. right. subst e.
      unfold entry_of in Ee. destruct (am !! c_Name c); [|done]. destruct (live_group _ _); naive_solver.
  - rewrite bool_decide_eq_false_2 by (by intros []). cbn [negb map]. rewrite <- !app_assoc. cbn [app].
    split; [done|]. split; [done|]. intros g. rewrite I3, H3. naive_solver.
Qed.

(** Every cluster has an entry or is unassigned. *)
Lemma view_partition pool am l :
  (map cv_Cluster (omap (entry_of pool am) l) ++
   map c_Name (List.filter (fun c => negb (bool_decide (is_Some (entry_of pool am c)))) l))%list ≡ₚ map c_Name l.
Proof.
  induction l as [|c l IH]; [done|]. cbn [List.filter map].
  change (omap (entry_of pool am) (c :: l)) with
    (match entry_of pool am c with Some y => y :: omap (entry_of pool am) l | None => omap (entry_of pool am) l end).
  destruct (entry_of pool am c) as [e|] eqn:Ee.
  - rewrite bool_decide_eq_true_2 by done. cbn [negb map app]. rewrite IH.
    assert (cv_Cluster e = c_Name c) as ->; [|done].
    unfold entry_of in Ee. destruct (am !! c_Name c); [|done]. destruct (live_group _ _); naive_solver.
  - rewrite bool_decide_eq_false_2 by (by intros []). cbn [negb map]. rewrite <- Permutation_middle. by rewrite IH.
Qed.

(** The view of assignments is complete.  The clusters listed as
    assigned and those listed as unassigned are together the EPP clusters,
    each once; a cluster is listed with a group exactly when it is assigned
    to that group and the group is there; the idle groups are exactly the
    groups that no listed cluster uses. *)
Theorem assignments_view_complete (m : EppPoolManager) (w : eworld) :
  epp_wf w -> m_hasClusters m = true ->
  exists v, exec [] (GetAssignmentsView m) w = (Ok v, w) /\
    (map cv_Cluster (av_Clusters v) ++ av_Unassigned v)%list ≡ₚ map c_Name (ew_clusters w) /\
    (forall c g, mkClusterView c (Some g) ∈ av_Clusters v <->
       c ∈ map c_Name (ew_clusters w) /\ mkAssign c g ∈ ew_assignments w /\ g ∈ groups_of w) /\
    (forall g, g ∈ av_Idle v <->
       g ∈ groups_of w /\ ~ exists c, mkClusterView c (Some g) ∈ av_Clusters v).
Proof.
  intros [Hone _ _] Hm. unfold GetAssignmentsView. rewrite Hm. cbn [negb bind call].
  rewrite exec_call. cbn [hd tl answer handle epp_interp epp_handle fst snd bind call].
  rewrite exec_call. cbn [hd tl answer handle epp_interp epp_handle fst snd bind call].
  rewrite exec_call. cbn [hd tl answer handle epp_interp epp_handle fst snd]. rewrite exec_ret.
  fold (pool_of m w). eexists. split; [reflexivity|]. unfold buildAssignmentsView.
  set (am := assignment_map _). set (cs := sort_by c_Name (ew_clusters w)).
  assert (one_each (sort_by a_Cluster (ew_assignments w))) as Hone' by (eapply one_each_perm; [apply sort_by_perm|done]).
  pose proof (fold_view (pool_of m w) am cs (mkView [] [] []) ∅) as H.
  destruct (fold_left _ cs _) as [v occ]. destruct H as (-> & -> & H3). cbn [av_Clusters av_Unassigned av_Idle app].
  split; [|split].
  - rewrite view_partition. apply map_perm, sort_by_perm.
  - intros c g. rewrite list_elem_of_omap. split.
    + intros (x & Hx%elem_of_sort_by & He). unfold entry_of in He. destruct (am !! c_Name x) as [a|] eqn:Ea; [|done].
      destruct (live_group _ _) eqn:El; [|done]. injection He as <- <-. rewrite live_pool_of in El.
      apply bool_decide_eq_true in El. apply lookup_assignment_map in Ea as [Ha Hc]; [|done].
      apply elem_of_sort_by in Ha. split; [by apply list_elem_of_fmap_2|]. split; [|done].
      rewrite <- Hc. by destruct a.
    + intros ((x & -> & Hx)%list_elem_of_fmap & Ha & Hg). exists x. split; [by apply elem_of_sort_by|].
      unfold entry_of. assert (am !! c_Name x = Some (mkAssign (c_Name x) g)) as ->.
      { apply lookup_assignment_map; [done|]. split; [by apply elem_of_sort_by|done]. }
      cbn [a_GroupName]. by rewrite live_pool_of, bool_decide_eq_true_2.
  - intros g. rewrite elem_of_sort_by, list_elem_of_In, filter_In, <- list_elem_of_In, elem_of_pool_of.
    rewrite negb_true_iff, bool_decide_eq_false, H3. set_solver.
Qed.

Lemma assignments_view_complete_witness :
  exists v, exec [] (GetAssignmentsView sample_manager) pool_world = (Ok v, pool_world) /\
    (map cv_Cluster (av_Clusters v) ++ av_Unassigned v)%list ≡ₚ ["a"; "b"; "c"] /\ "g1" ∈ av_Idle v.
Proof.
  destruct (assignments_view_complete sample_manager pool_world pool_world_wf eq_refl) as (v & E & Hp & Hc & Hi).
  exists v. split; [exact E|]. split; [exact Hp|]. apply Hi. split; [left|]. intros (c & (_ & Ha & _)%Hc).
  apply list_elem_of_In in Ha. destruct Ha as [[=]|[[=]|[]]].
Defined.
