(* ===== verification/EppPatch.v ===== *)
(** Replacing the pool: which groups are accepted, that the replacement is
    all or nothing whatever fails, and that the new pool reads back. *)
From Stdlib Require Import ZArith Lia Ascii.
From stdpp Require Import base tactics numbers list strings gmap option sorting.
From S2P Require Import Prelude GoStrings Prog GoNet EppPool EppAssign.

Local Open Scope string_scope.

(** * Accepted groups *)

(** A group of one instance, as a name and the instance. *)
Definition single : Type := string * InstanceParam.
Definition input_of (x : single) : option GroupInput := Some (mkInput x.1 [Some x.2]).
Definition row_of (x : single) : InstanceParam := mkInst (i_ID x.2) (i_Host x.2) (i_Port x.2) x.1.
Definition address_of (x : single) : string := instanceAddress (i_Host x.2) (i_Port x.2).

(** The conditions on one group alone. *)
Definition single_ok (x : single) : Prop :=
  x.1 <> EmptyString /\ i_ID x.2 <> EmptyString /\ validateHost (i_Host x.2) = None /\ validatePort (i_Port x.2) = None.

(** A pool that may be stored. *)
Record pool_ok (xs : list single) : Prop := {
  po_some : xs <> [];
  po_each : Forall single_ok xs;
  po_names : NoDup (map fst xs);
  po_ids : NoDup (map (fun x => i_ID x.2) xs);
  po_addrs : NoDup (map address_of xs)
}.

Definition see (x : single) (s : seen) : seen :=
  mkSeen ({[x.1]} ∪ s_groups s) ({[i_ID x.2]} ∪ s_ids s) ({[address_of x]} ∪ s_addrs s) (s_flat s ++ [row_of x])%list.

Definition fresh (x : single) (s : seen) : Prop :=
  (x.1 ∉ s_groups s) /\ (i_ID x.2 ∉ s_ids s) /\ (address_of x ∉ s_addrs s).

Lemma validate_group_ok g s s' : validate_group g s = Ok s' <->
  exists x, g = input_of x /\ single_ok x /\ fresh x s /\ s' = see x s.
Proof.
  unfold validate_group, single_ok, fresh, see, address_of, row_of. split.
  - destruct g as [[n insts]|]; [|done]. cbn [gi_Name]. case_bool_decide as Hn; [done|]. case_bool_decide as Hf; [done|].
    unfold validateGroupSize. cbn [gi_Instances]. destruct insts as [|[i|] [|]]; cbn; try done.
    case_bool_decide as Hi; [done|]. case_bool_decide as Hfi; [done|].
    destruct (validateHost (i_Host i)) eqn:Eh, (validatePort (i_Port i)) eqn:Ep; try done.
    case_bool_decide as Ha; [done|]. intros [= <-]. by exists (n, i).
  - intros ([n i] & -> & (Hn & Hi & Hh & Hp) & (Hf & Hfi & Ha) & ->). cbn in *.
    repeat (case_bool_decide; [done|]; cbn). by rewrite Hh, Hp.
Qed.

(** A list of groups that fits behind those seen so far. *)
Record fits (s : seen) (xs : list single) : Prop := {
  fi_each : Forall single_ok xs;
  fi_names : NoDup (map fst xs) /\ forall n, n ∈ map fst xs -> n ∉ s_groups s;
  fi_ids : NoDup (map (fun x => i_ID x.2) xs) /\ forall n, n ∈ map (fun x => i_ID x.2) xs -> n ∉ s_ids s;
  fi_addrs : NoDup (map address_of xs) /\ forall n, n ∈ map address_of xs -> n ∉ s_addrs s
}.

(** Distinct keys that also avoid a set, one element at a time. *)
Lemma keys_cons {A} (f : A -> string) (x : A) xs (X : gset string) :
  (NoDup (map f (x :: xs)) /\ forall n, n ∈ map f (x :: xs) -> n ∉ X) <->
  (f x ∉ X) /\ (NoDup (map f xs) /\ forall n, n ∈ map f xs -> n ∉ {[f x]} ∪ X).
Proof.
  cbn [map]. rewrite list.NoDup_cons. split.
  - intros [[Hx Hnd] Hd]. split; [apply Hd; left|]. split; [done|]. intros n Hn.
    apply not_elem_of_union. split; [|apply Hd; by right]. intros ->%elem_of_singleton. done.
  - intros (Hx & Hnd & Hd). split; [split; [|done]|].
    + intros Hin. specialize (Hd _ Hin). set_solver.
    + intros n [->|Hn]%elem_of_cons; [done|]. specialize (Hd n Hn). set_solver.
Qed.

Lemma fits_cons s x xs : fits s (x :: xs) <-> single_ok x /\ fresh x s /\ fits (see x s) xs.
Proof.
  unfold fresh, see. split.
  - intros [He Hn Hi Ha]. apply keys_cons in Hn as [? ?], Hi as [? ?], Ha as [? ?].
    apply Forall_cons in He as [? ?]. split; [done|]. split; [done|]. by split.
  - intros (Hx & (Hn & Hi & Ha) & [He Fn Fi Fa]). split; [by constructor|apply keys_cons; by split..].
Qed.

Lemma validate_groups_ok l s flat :
  (exists s', validate_groups l s = Ok s' /\ s_flat s' = flat) <->
  exists xs, l = map input_of xs /\ fits s xs /\ flat = (s_flat s ++ map row_of xs)%list.
Proof.
  revert s. induction l as [|g l IH]; intros s; cbn [validate_groups].
  - split.
    + intros (s' & [= <-] & <-). exists []. rewrite app_nil_r. split; [done|]. split; [|done].
      split; [constructor|..]; (split; [constructor|]); by intros n ?%elem_of_nil.
    + intros ([|] & E & _ & ->); [|done]. exists s. by rewrite app_nil_r.
  - split.
    + intros (s' & E & Ef). destruct (validate_group g s) as [s1|] eqn:Eg; [|done].
      apply validate_group_ok in Eg as (x & -> & Hx & Hf & ->).
      destruct (proj1 (IH (see x s))) as (xs & -> & Hxs & ->); [by exists s'|]. exists (x :: xs).
      split; [done|]. split; [by apply fits_cons|]. unfold see. cbn [s_flat map]. by rewrite <- app_assoc.
    + intros ([|x xs] & E & Hf & ->); [done|]. injection E as -> ->. apply fits_cons in Hf as (Hx & Hfr & Hf).
      assert (validate_group (input_of x) s = Ok (see x s)) as -> by (apply validate_group_ok; eauto).
      apply IH. exists xs. split; [done|]. split; [done|]. unfold see. cbn [s_flat map]. by rewrite <- app_assoc.
Qed.

Lemma fits_empty xs : fits (mkSeen ∅ ∅ ∅ []) xs /\ xs <> [] <-> pool_ok xs.
Proof.
  split.
  - intros [[He [Hn _] [Hi _] [Ha _]] Hne]. by split.
  - intros [Hne He Hn Hi Ha]. split; [|done]. split; [done|..]; (split; [done|]); intros n _; apply not_elem_of_empty.
Qed.

Lemma validateGroups_iff groups flat : validateGroups groups = Ok flat <->
  exists xs, groups = map input_of xs /\ pool_ok xs /\ flat = map row_of xs.
Proof.
  pose proof (validate_groups_ok groups (mkSeen ∅ ∅ ∅ []) flat) as H. cbn [s_flat app] in H. split.
  - intros E. destruct groups as [|g l]; [done|]. unfold validateGroups in E.
    destruct (proj1 H) as (xs & Eg & Hf & ->).
    { destruct (validate_groups (g :: l) _) as [s|]; [|done]. injection E as <-. by exists s. }
    exists xs. split; [done|]. split; [|done]. apply fits_empty. split; [done|]. by intros ->.
  - intros (xs & -> & Hok & ->). destruct (proj2 H) as (s & Es & Ef).
    { exists xs. split; [done|]. split; [|done]. by apply fits_empty. }
    destruct xs as [|x xs]; [by destruct Hok|]. unfold validateGroups. cbn [map] in *. by rewrite Es, Ef.
Qed.

Lemma validateGroups_error groups e : validateGroups groups = Err e -> exists msg, e = ParamError msg.
Proof.
  assert (forall n l s e, validate_instances n l s = Err e -> exists msg, e = ParamError msg) as Hi.
  { intros n l. induction l as [|i l IH]; intros s e0; [done|]. cbn [validate_instances]. unfold validate_instance.
    destruct i as [i|]; [|naive_solver]. do 2 (case_bool_decide; [naive_solver|]).
    destruct (validateHost (i_Host i)), (validatePort (i_Port i)); try naive_solver. case_bool_decide; naive_solver. }
  assert (forall l s e, validate_groups l s = Err e -> exists msg, e = ParamError msg) as Hg.
  { intros l. induction l as [|g l IH]; intros s e0; [done|]. cbn [validate_groups]. unfold validate_group.
    destruct g as [g|]; [|naive_solver]. do 2 (case_bool_decide; [naive_solver|]).
    unfold validateGroupSize. destruct (Nat.eqb _ 1); [|naive_solver].
    destruct (validate_instances _ _ _) eqn:Ei; [by apply IH|]. intros [= <-]. by eapply Hi. }
  unfold validateGroups. destruct groups as [|g l]; [naive_solver|].
  destruct (validate_groups _ _) eqn:Eg; [done|]. intros [= <-]. by eapply Hg.
Qed.

(** Which pools are accepted.  The validation accepts a list of groups
    exactly when it is not empty, every group has a name and holds exactly
    one instance, which has an id, a host that is an IP literal or a host
    name, and a port of TCP, and no two groups share a name, an id or an
    address; the instances it returns are those of the groups in order.
    Everything else is a parameter error. *)
Theorem validate_groups_exact (groups : list (option GroupInput)) :
  (forall flat, validateGroups groups = Ok flat <->
     exists xs, groups = map input_of xs /\ pool_ok xs /\ flat = map row_of xs) /\
  (forall e, validateGroups groups = Err e -> exists msg, e = ParamError msg).
Proof. split; [intros flat; apply validateGroups_iff|apply validateGroups_error]. Qed.

(** * Reading the pool back *)

Lemma filter_perm {A} (f : A -> bool) l k : l ≡ₚ k -> List.filter f l ≡ₚ List.filter f k.
Proof.
  intros Hp. induction Hp as [|x l k _ IH|x y l|l k r _ IH1 _ IH2]; cbn; [done| | |by etrans].
  - destruct (f x); [by constructor|done].
  - destruct (f x), (f y); try done. apply Permutation_swap.
Qed.

Lemma filter_row xs x : NoDup (map fst xs) -> x ∈ xs ->
  List.filter (fun i => bool_decide (i_GroupName i = x.1)) (map row_of xs) = [row_of x].
Proof.
  induction xs as [|y xs IH]; cbn [map List.filter]; [by intros _ ?%elem_of_nil|].
  intros [Hy Hnd]%list.NoDup_cons [->|Hx]%elem_of_cons.
  - rewrite bool_decide_eq_true_2 by done. f_equal.
    rewrite (filter_ext_in _ (fun _ => false)), filter_false; [done|].
    intros i (z & <- & Hz)%in_map_iff. apply bool_decide_eq_false_2. cbn. intros E. apply Hy. rewrite <- E.
    by apply list_elem_of_fmap_2, list_elem_of_In.
  - rewrite bool_decide_eq_false_2; [by apply IH|]. cbn. intros E. apply Hy. rewrite E. by apply list_elem_of_fmap_2.
Qed.

Definition group_of (x : single) : InstanceGroup := mkGroup x.1 [row_of x].

(** The pool built from rows that came from groups of one instance. *)
Lemma buildPool_groups name rows xs : NoDup (map fst xs) -> rows ≡ₚ map row_of xs ->
  pool_Groups (buildPool name rows) ≡ₚ map group_of xs /\
  StronglySorted (by_key g_Name) (pool_Groups (buildPool name rows)).
Proof.
  intros Hnd Hp. split.
  - assert (sort_by id (map fst (map_to_list (groupMap rows))) ≡ₚ map fst xs) as Hnames.
    { rewrite <- (pool_names name). apply NoDup_Permutation; [apply pool_names_nodup|done|]. intros g.
      rewrite elem_of_pool_names, (map_perm i_GroupName _ _ Hp), map_map. done. }
    unfold buildPool. cbn [pool_Groups]. rewrite (map_perm _ _ _ Hnames), map_map.
    erewrite map_ext_in; [reflexivity|]. intros x Hx%list_elem_of_In. unfold group_of. f_equal.
    rewrite lookup_groupMap. pose proof (filter_perm (fun i => bool_decide (i_GroupName i = x.1)) _ _ Hp) as Hf.
    rewrite (filter_row xs x Hnd Hx) in Hf. apply Permutation_singleton_r in Hf. rewrite Hf. reflexivity.
  - unfold buildPool. cbn [pool_Groups]. apply (StronglySorted_fmap _ (by_key id)); [done|]. apply sort_by_sorted.
Qed.

Lemma keys_ok xs : pool_ok xs -> inst_keys_ok (map row_of xs) = true.
Proof.
  intros [_ _ _ Hi Ha]. unfold inst_keys_ok. rewrite !map_map. cbn.
  rewrite !bool_decide_eq_true_2; [done| |done].
  apply (NoDup_fmap_1 (fun p : string * Z => instanceAddress p.1 p.2)). by rewrite <- list_fmap_compose.
Qed.

Lemma delete_all rows : List.filter (fun i => negb (where_inst allInstances i)) rows = [].
Proof. induction rows; [done|exact IHrows]. Qed.

Lemma exec_replace xs w : pool_ok xs ->
  exec [] (replace_instances (map row_of xs)) w = (Ok tt, set_instances w (map row_of xs)).
Proof.
  intros Hok. unfold replace_instances. cbn [bind call]. rewrite exec_call.
  cbn [hd tl answer handle epp_interp epp_handle fst snd]. rewrite delete_all.
  pose proof (keys_ok xs Hok) as Hk. destruct (map row_of xs) as [|i l]; [by destruct w|].
  cbn [bind call]. rewrite exec_call. cbn [hd tl answer handle epp_interp epp_handle fst snd ew_instances set_instances app].
  rewrite Hk. reflexivity.
Qed.

(** A replaced pool reads back.  Without failures, replacing the pool by
    accepted groups stores exactly their instances and answers with a pool of
    exactly these groups, sorted by name; the clusters that were assigned
    still are, and no assignment dangles. *)
Theorem patch_reads_back (m : EppPoolManager) (xs : list single) (w : eworld) :
  epp_wf w -> pool_ok xs ->
  exists pool w', exec [] (PatchPool m (map input_of xs)) w = (Ok pool, w') /\
    ew_instances w' = map row_of xs /\
    pool_Name pool = m_poolName m /\ pool_Groups pool ≡ₚ map group_of xs /\
    StronglySorted (by_key g_Name) (pool_Groups pool) /\
    map a_Cluster (ew_assignments w') = map a_Cluster (ew_assignments w) /\
    forall a, a ∈ ew_assignments w' -> a_GroupName a ∈ map fst xs.
Proof.
  intros [H1 H2 H3] Hok. unfold PatchPool.
  assert (validateGroups (map input_of xs) = Ok (map row_of xs)) as -> by (apply validateGroups_iff; by exists xs).
  rewrite exec_bind_nil. erewrite exec_in_transaction by by apply exec_replace. cbn [fst snd].
  set (w1 := set_esaved _ None).
  assert (epp_wf w1) as Hwf1 by by split.
  assert (ew_instances w1 <> []) as Hne1.
  { cbn. destruct xs; [by destruct Hok|done]. }
  destruct (RepairDangling_some m w1 Hwf1 Hne1) as (g & Hg & _ & Hr).
  rewrite exec_bind_nil, Hr. cbn [fst snd]. set (w2 := published _ _ _).
  assert (ew_instances w2 = map row_of xs) as Hi by (unfold w2; by rewrite published_instances).
  assert (list_instances allInstances (ew_instances w2) ≡ₚ map row_of xs) as Hp by (rewrite list_all_perm; by rewrite Hi).
  unfold GetPool. cbn [bind call]. rewrite exec_call. cbn [hd tl answer handle epp_interp epp_handle fst snd].
  destruct (buildPool_groups (m_poolName m) _ xs (po_names _ Hok) Hp) as [Hgs Hsorted].
  destruct (list_instances allInstances (ew_instances w2)) as [|i l] eqn:El.
  { exfalso. apply Hne1. cbn. by apply Permutation_nil_l in Hp. }
  rewrite exec_ret. exists (buildPool (m_poolName m) (i :: l)), w2. split; [done|]. split; [done|]. split; [done|].
  split; [done|]. split; [done|]. unfold w2. rewrite published_assignments. cbn [ew_assignments set_assignments].
  split; [apply (repaired_clusters w1)|]. intros a (b & -> & Hb)%list_elem_of_fmap.
  assert (groups_of w1 = map fst xs) as Hgr by (unfold groups_of; cbn; by rewrite map_map).
  rewrite Hgr in *. by case_bool_decide.
Qed.

Definition new_pool : list single :=
  [("g3", mkInst "i3" "epp-3.local" 9002 ""); ("g1", mkInst "i1" "fe80::1" 9002 "")].

Lemma new_pool_ok : pool_ok new_pool.
Proof.
  split; [done|repeat constructor; done|..]; apply (bool_decide_unpack _); vm_compute; exact I.
Qed.

Lemma patch_reads_back_witness :
  exists pool w', exec [] (PatchPool sample_manager (map input_of new_pool)) pool_world = (Ok pool, w') /\
    pool_Groups pool ≡ₚ map group_of new_pool /\ map a_Cluster (ew_assignments w') = ["a"; "b"].
Proof.
  destruct (patch_reads_back sample_manager new_pool pool_world pool_world_wf new_pool_ok)
    as (pool & w' & E & _ & _ & Hg & _ & Hc & _).
  exists pool, w'. split; [exact E|]. split; [exact Hg|exact Hc].
Defined.

(** * All or nothing *)

Definition same_tables (w w' : eworld) : Prop :=
  ew_instances w' = ew_instances w /\ ew_assignments w' = ew_assignments w.
Definition saved_kept (w w' : eworld) : Prop := ew_saved w' = ew_saved w.

#[export] Instance epp_transactional : Transactional eppE eworld same_tables saved_kept.
Proof.
  split.
  - split; unfold same_tables; [done|]. intros w1 w2 w3 [] []. split; congruence.
  - split; unfold saved_kept; [done|]. intros w1 w2 w3 ? ?. congruence.
  - intros [] w e; by split.
  - intros [] [] w w1 Hok Hs; try discriminate Hok; unfold saved_kept in Hs; cbn in *; rewrite Hs; by split.
  - done.
  - by intros w.
  - by intros [] w.
  - done.
Qed.

Definition pool_statement (R : Type) (e : eppE R) : Prop :=
  match e with DeleteInstances _ | CreateInstances _ => True | _ => False end.

Lemma pool_statement_keeps R (e : eppE R) w : pool_statement R e -> saved_kept w (handle e w).2.
Proof. destruct e; try done. intros _. unfold saved_kept. cbn. by destruct (inst_keys_ok _). Qed.

(** Statements that worked have replaced the instances. *)
Lemma replace_worked xs os w : map row_of xs <> [] ->
  (exec os (replace_instances (map row_of xs)) w).1 = Ok tt ->
  ew_instances (exec os (replace_instances (map row_of xs)) w).2 = map row_of xs.
Proof.
  intros Hne. unfold replace_instances. cbn [bind call]. rewrite exec_call.
  destruct (hd Normal os); cbn [answer handle fault epp_interp epp_handle epp_fault fst snd]; try by rewrite exec_ret.
  rewrite delete_all. destruct (map row_of xs) as [|i l]; [done|]. cbn [bind call]. rewrite exec_call.
  destruct (hd Normal (tl os)); cbn [answer handle fault epp_interp epp_handle epp_fault fst snd]; try by rewrite exec_ret.
  cbn [ew_instances set_instances app]. by destruct (inst_keys_ok (i :: l)).
Qed.

(** An open transaction has saved the instances that are there. *)
Definition saved_ok (w : eworld) : Prop :=
  match ew_saved w with Some (i, _) => i = ew_instances w | None => True end.

(** Calls that do not touch the instances, given that. *)
Definition leaves_pool (R : Type) (e : eppE R) : Prop :=
  match e with DeleteInstances _ | CreateInstances _ => False | _ => True end.

Definition pool_stays (w w' : eworld) : Prop := saved_ok w -> saved_ok w' /\ ew_instances w' = ew_instances w.
#[export] Instance pool_stays_preorder : PreOrder pool_stays.
Proof.
  split; unfold pool_stays; [done|]. intros w1 w2 w3 H12 H23 H1. destruct (H12 H1) as [H2 E2].
  destruct (H23 H2) as [H3 E3]. split; [done|congruence].
Qed.

Lemma leaves_pool_handle R (e : eppE R) w : leaves_pool R e -> pool_stays w (handle e w).2.
Proof.
  unfold pool_stays, saved_ok. destruct e; cbn; try done.
  - intros _ Hs. by case_bool_decide.
  - intros _ Hs. destruct (ew_saved w) as [[i a]|]; cbn; by subst.
Qed.

Lemma leaves_in_transaction body : all_calls leaves_pool body -> all_calls leaves_pool (in_transaction body).
Proof. intros Hb. unfold in_transaction, AtomExecute. repeat (calls_step || exact Hb || exact I). Qed.

Lemma leaves_upsert a : all_calls leaves_pool (UpsertAssignment a).
Proof. unfold UpsertAssignment. repeat (calls_step || exact I). Qed.

Lemma leaves_repair pool rows l ch : all_calls leaves_pool (repair_all pool rows l ch).
Proof.
  revert ch. induction l as [|a l IH]; intros ch; cbn [repair_all]; [constructor|].
  destruct (repairOne pool rows a).
  - apply IH.
  - apply all_calls_bind; [apply leaves_in_transaction, leaves_upsert|]. intros []; [apply IH|constructor].
  - apply all_calls_bind; [apply leaves_in_transaction, all_calls_one; exact I|]. intros []; [apply IH|constructor].
Qed.

Lemma leaves_RepairDangling m : all_calls leaves_pool (RepairDangling m).
Proof.
  unfold RepairDangling, triggerEppDataExport.
  repeat (calls_step || apply leaves_repair || exact I).
Qed.

Lemma leaves_GetPool m : all_calls leaves_pool (GetPool m).
Proof. unfold GetPool. repeat (calls_step || exact I). Qed.

(** The transaction that replaces the instances. *)
Lemma replace_txn xs os w : map row_of xs <> [] ->
  let '(r, w') := exec os (in_transaction (replace_instances (map row_of xs))) w in
  match r with
  | Err _ => same_tables w w' \/ ew_instances w' = map row_of xs
  | Ok _ => ew_instances w' = map row_of xs /\ ew_saved w' = None
  end.
Proof.
  intros Hne. unfold in_transaction. rewrite exec_bind, exec_ret. set (body := _ <- replace_instances _ ;; _).
  assert (all_calls pool_statement body) as Hb.
  { unfold body, replace_instances. repeat (calls_step || exact I). }
  assert (forall os' w0 a, (exec os' body w0).1 = (None, a) -> ew_instances (exec os' body w0).2 = map row_of xs) as Hbody.
  { intros os' w0 a. unfold body. rewrite exec_bind, exec_ret. cbn [fst snd].
    destruct (exec os' (replace_instances (map row_of xs)) w0).1 as [[]|] eqn:Ex; [|done]. intros _. by apply replace_worked. }
  destruct (exec os (AtomExecute tt body) w).1 as [[e|] a] eqn:Er.
  - destruct (AtomExecute_ends pool_statement pool_statement_keeps tt body os w e a Hb Er) as [Hs|(_ & os' & w0 & _ & Hr & [Hs _])]; [by left|right].
    rewrite Hs. by apply (Hbody os' w0 a).
  - destruct (AtomExecute_works tt body os w a Er) as (os' & o & w0 & _ & Hr & Ho & ->).
    pose proof (Hbody os' w0 a Hr) as Hi. by destruct o.
Qed.

(** A replacement of the pool is all or nothing.  Groups that are not
    accepted change nothing.  For accepted groups, whatever calls fail,
    either the call reports an error and both tables are as they were, or the
    instances are exactly the new ones, also when the answer of the COMMIT is
    lost or the repair that follows fails. *)
Theorem patch_all_or_nothing (m : EppPoolManager) (groups : list (option GroupInput)) (os : list outcome) (w : eworld) :
  match validateGroups groups with
  | Err e => exec os (PatchPool m groups) w = (Err e, w)
  | Ok flat =>
      let '(r, w') := exec os (PatchPool m groups) w in
      (is_ok r = false /\ same_tables w w') \/ ew_instances w' = flat
  end.
Proof.
  unfold PatchPool. destruct (validateGroups groups) as [flat|e] eqn:Ev; [|done].
  apply validateGroups_iff in Ev as (xs & _ & Hok & ->).
  assert (map row_of xs <> []) as Hne by (destruct xs; [by destruct Hok|done]).
  rewrite exec_bind. pose proof (replace_txn xs os w Hne) as Ht. set (os1 := leftover _ _ _). clearbody os1.
  destruct (exec os (in_transaction _) w) as [[[]|e] w1]; cbn [fst snd] in *; [|destruct Ht; [by left|by right]].
  destruct Ht as [Hi Hs].
  assert (all_calls leaves_pool (_ <-? RepairDangling m ;; GetPool m)) as Hl.
  { apply all_calls_bind; [apply leaves_RepairDangling|]. intros []; [apply leaves_GetPool|constructor]. }
  destruct (exec_stable leaves_pool pool_stays leaves_pool_handle _ Hl os1 w1) as [_ Hw].
  { unfold saved_ok. by rewrite Hs. }
  destruct (exec os1 _ w1) as [r w2]. right. cbn [snd] in Hw. by rewrite Hw.
Qed.
