(* ===== verification/EppConfig.v ===== *)
(** The scheduling configuration of an EPP cluster: the simplified form, its
    validation, and its compilation ([model/epp_pool/epp_config.go] and
    [compiler.go]); and what the compiler produces. *)
From Stdlib Require Import ZArith Lia Ascii SpecFloat.
From stdpp Require Import base tactics numbers list strings option.
From S2P Require Import Prelude GoStrings GoTime GoNet.

Local Open Scope string_scope.

(** * The simplified form *)

Record FlowControlSimplified : Type := mkFlow {
  MaxRequests : option Z; QueueTTL : option Z; NoEndpointQueueTTL : option Z; EnableEviction : option bool
}.

Record EppConfigSimplified : Type := mkEppConfig {
  LoadProfile : option string;
  Affinity : option string;
  PrefixCacheAffinity : option bool;
  SessionAffinityEnabled : option bool;
  SessionAffinityHeader : option string;
  KVCacheUtilizationMax : option spec_float;
  WaitingQueueMax : option spec_float;
  RunningRequestsMax : option spec_float;
  FallbackOnEmpty : option bool;
  MetricsStalenessThresholdMs : option Z;
  FlowControl : option FlowControlSimplified
}.
Definition emptyConfig : EppConfigSimplified :=
  mkEppConfig None None None None None None None None None None None.

Definition IsEmpty (c : option EppConfigSimplified) : bool :=
  match c with
  | None => true
  | Some (mkEppConfig None None None None None None None None None None None) => true
  | Some _ => false
  end.

(** ** Validation; the errors carry the format of their message *)

(** The expression [httpHeaderNameToken]. *)
Definition is_token_byte (c : ascii) : bool :=
  let n := N_of_ascii c in
  (((48 <=? n) && (n <=? 57)) || ((97 <=? n) && (n <=? 122)) || ((65 <=? n) && (n <=? 90)))%N
  || has_byte "!#$%&'*+-.^_`|~" c.

Definition validateHeaderName (name : string) : option goerr :=
  if bool_decide (TrimSpace name = EmptyString) then Some (ParamError "header name is required")
  else if all_bytes is_token_byte name then None
  else Some (ParamError "invalid HTTP header name %q").

(** The first complaint of a list of checks. *)
Fixpoint first_error (checks : list (bool * string)) : option goerr :=
  match checks with
  | [] => None
  | (bad, msg) :: l => if bad then Some (ParamError msg) else first_error l
  end.

Definition FlowControlUnlimited : Z := -1.

Definition Validate_flow (f : FlowControlSimplified) : option goerr :=
  first_error [
    (match MaxRequests f with Some n => negb (n =? FlowControlUnlimited)%Z && (n <=? 0)%Z | None => false end,
     "epp_config.flow_control.max_requests must be > 0 or -1, got %d");
    (match QueueTTL f with Some n => (n <? 0)%Z | None => false end,
     "epp_config.flow_control.queue_ttl must be >= 0, got %d");
    (match NoEndpointQueueTTL f with Some n => (n <? 0)%Z | None => false end,
     "epp_config.flow_control.no_endpoint_queue_ttl must be >= 0, got %d");
    (default false (EnableEviction f), "epp_config.flow_control.enable_eviction is not supported, keep false")].

Definition load_profiles : list string := ["queue-first"; "balanced"; "kv-first"].
Definition affinities : list string := ["off"; "low"; "medium"; "high"].
Definition f_one : spec_float := float_of_Z 1.

Definition Validate (c : option EppConfigSimplified) : option goerr :=
  match c with
  | None => None
  | Some c =>
      match first_error [
        (match LoadProfile c with Some p => negb (bool_decide (p ∈ load_profiles)) | None => false end,
         "epp_config.load_profile must be one of %q/%q/%q, got %q");
        (match Affinity c with Some a => negb (bool_decide (a ∈ affinities)) | None => false end,
         "epp_config.affinity must be one of %q/%q/%q/%q, got %q");
        (match KVCacheUtilizationMax c with Some x => SFleb x f_zero || SFltb f_one x | None => false end,
         "epp_config.kv_cache_utilization_max must be in (0, 1], got %v");
        (match WaitingQueueMax c with Some x => SFltb x f_zero | None => false end,
         "epp_config.waiting_queue_max must be >= 0, got %v");
        (match RunningRequestsMax c with Some x => SFltb x f_zero | None => false end,
         "epp_config.running_requests_max must be >= 0, got %v");
        (match MetricsStalenessThresholdMs c with Some n => (n <=? 0)%Z | None => false end,
         "epp_config.metrics_staleness_threshold_ms must be > 0, got %d");
        (default false (SessionAffinityEnabled c) &&
         match SessionAffinityHeader c with None => true | Some h => bool_decide (TrimSpace h = EmptyString) end,
         "epp_config.session_affinity_header is required when session_affinity_enabled is true");
        (match SessionAffinityHeader c with
         | Some h => match validateHeaderName h with Some _ => true | None => false end
         | None => false
         end,
         "epp_config.session_affinity_header: %s")] with
      | Some e => Some e
      | None => match FlowControl c with Some f => Validate_flow f | None => None end
      end
  end.

(** ** Defaults *)

Definition DefaultLoadProfile : string := "balanced".
Definition DefaultAffinity : string := "medium".
Definition EffectiveLoadProfile (c : EppConfigSimplified) : string := default DefaultLoadProfile (LoadProfile c).
Definition EffectiveAffinity (c : EppConfigSimplified) : string := default DefaultAffinity (Affinity c).
Definition EffectivePrefixCacheAffinity (c : EppConfigSimplified) : bool := default true (PrefixCacheAffinity c).
Definition EffectiveKVCacheUtilizationMax (c : EppConfigSimplified) : spec_float :=
  default (float_lit 9 10) (KVCacheUtilizationMax c).
Definition EffectiveWaitingQueueMax (c : EppConfigSimplified) : spec_float := default f_zero (WaitingQueueMax c).
Definition EffectiveRunningRequestsMax (c : EppConfigSimplified) : spec_float := default f_zero (RunningRequestsMax c).
Definition EffectiveFallbackOnEmpty (c : EppConfigSimplified) : bool := default false (FallbackOnEmpty c).
Definition EffectiveMetricsStalenessThresholdMs (c : EppConfigSimplified) : Z :=
  default 200%Z (MetricsStalenessThresholdMs c).
Definition EffectiveSessionAffinityEnabled (c : EppConfigSimplified) : bool := default false (SessionAffinityEnabled c).

(** * The compiled form *)

(** A value of the parameters of a plugin. *)
Inductive pval : Type :=
| PStr (s : string) | PFloat (x : spec_float) | PInt (z : Z) | PBool (b : bool)
| PList (l : list pval) | PMap (l : list (string * pval)).

Record PluginConfig : Type := mkPlugin { p_Name : string; p_Type : string; p_Parameters : list (string * pval) }.
Record ProfilePluginConfig : Type := mkProfilePlugin { pp_PluginRef : string; pp_Weight : option spec_float }.
Record SchedulingProfileConfig : Type := mkProfile { sp_Name : string; sp_Plugins : list ProfilePluginConfig }.
Record PriorityBandConfig : Type := mkBand { b_Priority : Z; b_MaxRequests : string; b_MaxBytes : string }.

(** An empty text is left out of the JSON. *)
Record FlowControlConfig : Type := mkFlowConfig {
  fc_MaxRequests : string; fc_DefaultRequestTTL : string; fc_NoEndpointRequestTTL : string; fc_EnableEviction : bool;
  fc_SaturationDetector : option string; fc_PriorityBands : list PriorityBandConfig
}.

Record EndpointPickerConfig : Type := mkPicker {
  e_FeatureGates : list string;
  e_Plugins : list PluginConfig;
  e_SchedulingProfiles : list SchedulingProfileConfig;
  (** the plugin of [dataLayer.discovery.endpoints] *)
  e_Discovery : string;
  e_FlowControl : FlowControlConfig;
  (** the plugins of [requestHandler.parsers] *)
  e_Parsers : list string
}.

(** ** The compiler *)

Definition loadProfileWeights (profile : string) : option (spec_float * spec_float) :=
  if bool_decide (profile = "queue-first") then Some (float_lit 2 10, f_one)
  else if bool_decide (profile = "balanced") then Some (float_lit 6 10, float_lit 6 10)
  else if bool_decide (profile = "kv-first") then Some (f_one, float_lit 2 10)
  else None.

Definition affinityWeights (affinity : string) : option spec_float :=
  if bool_decide (affinity = "off") then Some f_zero
  else if bool_decide (affinity = "low") then Some (float_lit 3 10)
  else if bool_decide (affinity = "medium") then Some (float_lit 6 10)
  else if bool_decide (affinity = "high") then Some f_one
  else None.

Definition compileLoadProfileWeights (c : EppConfigSimplified) : spec_float * spec_float :=
  match loadProfileWeights (EffectiveLoadProfile c) with
  | Some w => w
  | None => default (f_zero, f_zero) (loadProfileWeights DefaultLoadProfile)
  end.

Definition compileAffinityWeight (c : EppConfigSimplified) : spec_float :=
  match affinityWeights (EffectiveAffinity c) with
  | Some w => w
  | None => default f_zero (affinityWeights DefaultAffinity)
  end.

Definition condition (metric : string) (maxValue : spec_float) : pval :=
  PMap [("metric", PStr metric); ("maxValue", PFloat maxValue)].

Definition compileUtilFilterPlugin (c : EppConfigSimplified) : PluginConfig :=
  let q := EffectiveWaitingQueueMax c in
  let r := EffectiveRunningRequestsMax c in
  mkPlugin "util-filter" "utilization-filter" [
    ("conditions", PList
       ([condition "kv-cache-utilization" (EffectiveKVCacheUtilizationMax c)] ++
        (if SFltb f_zero q then [condition "waiting-queue" q] else []) ++
        (if SFltb f_zero r then [condition "running-requests" r] else []))%list);
    ("fallbackOnEmpty", PBool (EffectiveFallbackOnEmpty c))].

Definition compileSaturationDetectorPlugin (c : EppConfigSimplified) : PluginConfig :=
  let q := EffectiveWaitingQueueMax c in
  let qDepth := if SFleb f_one q then float_to_int q else 5%Z in
  mkPlugin "saturation-detector" "utilization-detector" [
    ("kvCacheUtilThreshold", PFloat (EffectiveKVCacheUtilizationMax c));
    ("queueDepthThreshold", PInt qDepth);
    ("stalenessPolicy", PStr "ignore");
    ("headroom", PFloat f_zero);
    ("metricsStalenessThreshold", PStr (FormatInt (EffectiveMetricsStalenessThresholdMs c) +:+ "ms"))].

Definition secondsToDuration (seconds : Z) : string := Duration_String (wrap64 (seconds * second)).

Definition defaultPriorityBandMaxRequests : string := "10000".
Definition defaultPriorityBandMaxBytes : string := "5Gi".

Definition compileFlowControl (c : EppConfigSimplified) : FlowControlConfig :=
  let '(global, band, ttl, idle) :=
    match FlowControl c with
    | Some fc =>
        let ttl := match QueueTTL fc with Some s => secondsToDuration s | None => EmptyString end in
        let idle := match NoEndpointQueueTTL fc, QueueTTL fc with
                    | Some s, _ => secondsToDuration s
                    | None, Some s => secondsToDuration s
                    | None, None => EmptyString
                    end in
        match MaxRequests fc with
        | Some n => if (0 <? n)%Z then (FormatInt n, FormatInt n, ttl, idle)
                    else (EmptyString, defaultPriorityBandMaxRequests, ttl, idle)
        | None => (EmptyString, defaultPriorityBandMaxRequests, ttl, idle)
        end
    | None => (EmptyString, defaultPriorityBandMaxRequests, EmptyString, EmptyString)
    end in
  mkFlowConfig global ttl idle false (Some "saturation-detector") [mkBand 0 band defaultPriorityBandMaxBytes].

Definition plain_plugin (name type : string) : PluginConfig := mkPlugin name type [].

(** The affinity scorers with their weights. *)
Definition affinity_scorers (c : EppConfigSimplified) : list (PluginConfig * spec_float) :=
  let w := compileAffinityWeight c in
  ((if EffectivePrefixCacheAffinity c && SFltb f_zero w
    then [(plain_plugin "prefix-scorer" "prefix-cache-scorer", w)] else []) ++
   match SessionAffinityHeader c with
   | Some header =>
       if EffectiveSessionAffinityEnabled c && SFltb f_zero w
       then [(mkPlugin "session-scorer" "session-affinity-scorer"
                [("strategy", PStr "session_id");
                 ("sessionIdConfig", PMap [("sources", PList [PMap [("header", PStr header)]])])], w)]
       else []
   | None => []
   end)%list.

Definition CompileEppConfig (clusterName : string) (c : EppConfigSimplified) : EndpointPickerConfig :=
  let '(kvWeight, queueWeight) := compileLoadProfileWeights c in
  let scorers := affinity_scorers c in
  {| e_FeatureGates := match FlowControl c with Some _ => ["flowControl"] | None => [] end;
     e_Plugins :=
       ([mkPlugin "ep-discover" "cluster-table-discovery" [("clusterName", PStr clusterName)];
         compileUtilFilterPlugin c;
         compileSaturationDetectorPlugin c;
         plain_plugin "kv-scorer" "kv-cache-utilization-scorer";
         plain_plugin "queue-scorer" "queue-scorer"] ++
        map fst scorers ++
        [plain_plugin "max-score" "max-score-picker"; plain_plugin "openai-parser" "openai-parser"])%list;
     e_SchedulingProfiles :=
       [mkProfile "default"
          ([mkProfilePlugin "util-filter" None;
            mkProfilePlugin "kv-scorer" (Some kvWeight);
            mkProfilePlugin "queue-scorer" (Some queueWeight)] ++
           map (fun s => mkProfilePlugin (p_Name s.1) (Some s.2)) scorers ++
           [mkProfilePlugin "max-score" None])%list];
     e_Discovery := "ep-discover";
     e_FlowControl := compileFlowControl c;
     e_Parsers := ["openai-parser"] |}.

(** What the compiler of scheduling configurations produces. *)

(** The plugins that a compiled configuration refers to. *)
Definition profile_refs (e : EndpointPickerConfig) : list string :=
  concat (map (fun p => map pp_PluginRef (sp_Plugins p)) (e_SchedulingProfiles e)).
Definition plugin_refs (e : EndpointPickerConfig) : list string :=
  (profile_refs e ++ [e_Discovery e] ++ e_Parsers e ++ option_list (fc_SaturationDetector (e_FlowControl e)))%list.

Definition scorer_names (c : EppConfigSimplified) : list string := map (fun s => p_Name s.1) (affinity_scorers c).

(** Which affinity scorers there are. *)
Lemma scorer_names_spec c :
  scorer_names c =
  ((if EffectivePrefixCacheAffinity c && SFltb f_zero (compileAffinityWeight c) then ["prefix-scorer"] else []) ++
   (if EffectiveSessionAffinityEnabled c && bool_decide (is_Some (SessionAffinityHeader c)) &&
       SFltb f_zero (compileAffinityWeight c) then ["session-scorer"] else []))%list.
Proof.
  unfold scorer_names, affinity_scorers. rewrite map_app. f_equal.
  - by destruct (_ && _).
  - destruct (SessionAffinityHeader c).
    + rewrite bool_decide_eq_true_2, andb_true_r by done. by destruct (_ && _).
    + rewrite bool_decide_eq_false_2, andb_false_r by (by intros []). done.
Qed.

Lemma plugin_names cl c : map p_Name (e_Plugins (CompileEppConfig cl c)) =
  (["ep-discover"; "util-filter"; "saturation-detector"; "kv-scorer"; "queue-scorer"] ++ scorer_names c ++
   ["max-score"; "openai-parser"])%list.
Proof.
  unfold CompileEppConfig. destruct (compileLoadProfileWeights c) as [kv q]. cbn [e_Plugins].
  by rewrite !map_app, map_map.
Qed.

Lemma profile_names cl c : profile_refs (CompileEppConfig cl c) =
  (["util-filter"; "kv-scorer"; "queue-scorer"] ++ scorer_names c ++ ["max-score"])%list.
Proof.
  unfold CompileEppConfig. destruct (compileLoadProfileWeights c) as [kv q].
  unfold profile_refs. cbn [e_SchedulingProfiles map concat sp_Plugins]. by rewrite app_nil_r, !map_app, map_map.
Qed.

Lemma affinity_off c : Affinity c = Some "off" -> compileAffinityWeight c = f_zero.
Proof. intros E. unfold compileAffinityWeight, EffectiveAffinity. by rewrite E. Qed.

(** A compiled configuration is closed.  For every simplified
    configuration, valid or not, no two plugins share a name, every reference
    (of the profile, the discovery, the parsers and the saturation detector)
    names a plugin that is declared, and the profile names each plugin once;
    the affinity scorers are left out when the affinity is off; there is one
    priority band, band 0, with an explicit limit that mirrors the global one
    when that is set. *)
Theorem compiled_config_closed (cl : string) (c : EppConfigSimplified) :
  let e := CompileEppConfig cl c in
  NoDup (map p_Name (e_Plugins e)) /\
  (forall r, r ∈ plugin_refs e -> r ∈ map p_Name (e_Plugins e)) /\
  NoDup (profile_refs e) /\
  (Affinity c = Some "off" -> scorer_names c = []) /\
  exists band, fc_PriorityBands (e_FlowControl e) = [band] /\ b_Priority band = 0%Z /\
    b_MaxRequests band <> EmptyString /\
    (fc_MaxRequests (e_FlowControl e) <> EmptyString -> b_MaxRequests band = fc_MaxRequests (e_FlowControl e)).
Proof.
  cbv zeta. rewrite plugin_names, profile_names. unfold plugin_refs. rewrite profile_names.
  assert (e_Discovery (CompileEppConfig cl c) = "ep-discover" /\ e_Parsers (CompileEppConfig cl c) = ["openai-parser"] /\
          e_FlowControl (CompileEppConfig cl c) = compileFlowControl c) as (-> & -> & ->).
  { unfold CompileEppConfig. by destruct (compileLoadProfileWeights c). }
  assert (fc_SaturationDetector (compileFlowControl c) = Some "saturation-detector") as ->.
  { unfold compileFlowControl. destruct (FlowControl c) as [fc|]; [|done].
    destruct (MaxRequests fc) as [n|]; [destruct (0 <? n)%Z|]; done. }
  split; [|split; [|split; [|split]]].
  - rewrite scorer_names_spec. destruct (_ && SFltb _ _), (_ && SFltb _ _); by apply (bool_decide_unpack _).
  - rewrite scorer_names_spec. intros r Hr. apply list_elem_of_In in Hr. apply list_elem_of_In. cbn in *.
    destruct (_ && SFltb _ _), (_ && SFltb _ _); cbn in *; naive_solver.
  - rewrite scorer_names_spec. destruct (_ && SFltb _ _), (_ && SFltb _ _); by apply (bool_decide_unpack _).
  - intros Ha. rewrite scorer_names_spec, (affinity_off c Ha). by rewrite !andb_false_r.
  - unfold compileFlowControl. destruct (FlowControl c) as [fc|]; [|by eexists].
    destruct (MaxRequests fc) as [n|]; [destruct (0 <? n)%Z|]; eexists; cbn; try by eauto.
    split; [done|]. split; [done|]. split; [apply FormatInt_not_empty|done].
Qed.

Lemma compiled_config_closed_witness :
  scorer_names (mkEppConfig None (Some "off") None None None None None None None None None) = [] /\
  NoDup (map p_Name (e_Plugins (CompileEppConfig "c" emptyConfig))).
Proof.
  split.
  - by apply (compiled_config_closed "c" (mkEppConfig None (Some "off") None None None None None None None None None)).
  - apply (compiled_config_closed "c" emptyConfig).
Defined.

(** A valid limit of the waiting queue between zero and one is a condition of
    the filter, while the saturation detector keeps its default of five. *)
Lemma fractional_queue_limit :
  let c := mkEppConfig None None None None None None (Some (float_lit 1 2)) None None None None in
  Validate (Some c) = None /\
  p_Parameters (compileUtilFilterPlugin c) =
    [("conditions", PList [condition "kv-cache-utilization" (float_lit 9 10); condition "waiting-queue" (float_lit 1 2)]);
     ("fallbackOnEmpty", PBool false)] /\
  List.In ("queueDepthThreshold", PInt 5) (p_Parameters (compileSaturationDetectorPlugin c)).
Proof. vm_compute. intuition. Qed.
