(* ===== verification/XCrypto.v ===== *)
(** Secrets at rest ([lib/xcrypto]): the envelope [enc$v1$...], the keyring
    that encrypts and decrypts it, and password hashing.  The cryptographic
    primitives are the class [Crypto]; what the code relies on are the laws
    [CryptoLaws], which the toy instance at the end satisfies. *)
From Stdlib Require Import ZArith Lia Ascii.
From stdpp Require Import base tactics numbers list strings gmap option.
From S2P Require Import Prelude GoStrings GoBase64.

Local Open Scope string_scope.

(** * Primitives *)

(** AES-GCM with a 12-byte nonce, HMAC, HKDF (32 bytes, no salt), SHA-256 and
    bcrypt.  A key, a nonce and a digest are byte strings. *)
Class Crypto : Type := {
  gcm_seal : string -> string -> string -> string;
  gcm_open : string -> string -> string -> option string;
  hmac_sha256 : string -> string -> string;
  sha256 : string -> string;
  hkdf_sha256 : string -> string -> string;
  bcrypt_generate : string -> Z -> string -> result string;
  bcrypt_compare : string -> string -> bool
}.

Class CryptoLaws `{!Crypto} : Prop := {
  gcm_open_seal : forall key nonce pt, String.length key = 32 -> String.length nonce = 12 ->
    gcm_open key nonce (gcm_seal key nonce pt) = Some pt;
  gcm_seal_length : forall key nonce pt, String.length (gcm_seal key nonce pt) = String.length pt + 16;
  hmac_length : forall key m, String.length (hmac_sha256 key m) = 32;
  hkdf_length : forall master info, String.length (hkdf_sha256 master info) = 32;
  bcrypt_generates : forall salt cost pw, (4 <= cost <= 31)%Z -> String.length pw <= 72 ->
    exists h, bcrypt_generate salt cost pw = Ok h;
  bcrypt_prefix : forall salt cost pw h, bcrypt_generate salt cost pw = Ok h -> HasPrefix h "$2a$" = true;
  bcrypt_accepts : forall salt cost pw h, bcrypt_generate salt cost pw = Ok h -> bcrypt_compare h pw = true
}.

(** * Envelopes ([envelope.go]) *)

Definition Marker : string := "enc$v1$".
Definition keyIDLen : nat := 1.
Definition nonceLen : nat := 12.
Definition keyLen : nat := 32.
Definition versionV1 : Z := 1.

Definition ErrNotEncrypted : goerr := PlainError "value is not an encrypted envelope".
Definition ErrInvalidEnvelope : goerr := PlainError "invalid encrypted envelope".
Definition ErrKeyNotFound : goerr := PlainError "key not found in keyring".

Definition IsEncrypted (value : string) : bool := HasPrefix value Marker.

(** [aes.NewCipher] takes keys of 16, 24 or 32 bytes. *)
Definition cipher_key (key : string) : bool :=
  let n := String.length key in (n =? 16)%nat || (n =? 24)%nat || (n =? 32)%nat.

(** A [uint8] is a number below 256, stored as one byte. *)
Definition byte_of (id : N) : ascii := ascii_of_N id.

Definition pack (keyID : N) (nonce ct : string) : string :=
  Marker +:+ EncodeToString (String (byte_of keyID) (nonce +:+ ct)).

Section Envelopes.
Context `{!Crypto}.

(** [nonce] is what [rand.Read] gives. *)
Definition Encrypt (nonce : result string) (plaintext key : string) (keyID : N) : result string :=
  if negb (String.length key =? keyLen)%nat then Err (PlainError "xcrypto: key length %d, want %d") else
  if negb (cipher_key key) then Err (PlainError "crypto/aes: invalid key size %d") else
  match nonce with
  | Err e => Err e
  | Ok nonce => Ok (pack keyID nonce (gcm_seal key nonce plaintext))
  end.

Definition EncryptDeterministic (plaintext key : string) (keyID : N) : result string :=
  if negb (String.length key =? keyLen)%nat then Err (PlainError "xcrypto: key length %d, want %d") else
  let nonce := String.substring 0 nonceLen (hmac_sha256 key plaintext) in
  if negb (cipher_key key) then Err (PlainError "crypto/aes: invalid key size %d") else
  Ok (pack keyID nonce (gcm_seal key nonce plaintext)).

(** The bytes of an envelope that is long enough. *)
Definition envelope_raw (value : string) : option string :=
  match DecodeString (String.substring (String.length Marker) (String.length value) value) with
  | Some raw => if (String.length raw <? keyIDLen + nonceLen + 1)%nat then None else Some raw
  | None => None
  end.

Definition envelopeKeyID (value : string) : option N :=
  if negb (IsEncrypted value) then None else
  match envelope_raw value with
  | Some (String b _) => Some (N_of_ascii b)
  | _ => None
  end.

Definition Decrypt (value : string) (keys : gmap N string) : result string :=
  match envelopeKeyID value with
  | None => Err ErrNotEncrypted
  | Some keyID =>
      match keys !! keyID with
      | None => Err ErrKeyNotFound
      | Some key =>
          match envelope_raw value with
          | None => Err ErrInvalidEnvelope
          | Some raw =>
              if negb (cipher_key key) then Err (PlainError "crypto/aes: invalid key size %d") else
              match gcm_open key (String.substring keyIDLen nonceLen raw)
                      (String.substring (keyIDLen + nonceLen) (String.length raw) raw) with
              | Some pt => Ok pt
              | None => Err (PlainError "xcrypto: decrypt: %w")
              end
          end
      end
  end.

Definition KeyIDOf (value : string) : option N := envelopeKeyID value.

Definition EnvelopeVersion : Z := versionV1.

Definition ParseKeyID (s : string) : result N :=
  match ParseInt (TrimSpace s) with
  | Some n => if (n <? 1)%Z || (255 <? n)%Z then Err (PlainError "xcrypto: invalid keyID %q") else Ok (Z.to_N n)
  | None => Err (PlainError "xcrypto: invalid keyID %q")
  end.

(** * Keyrings ([keyring.go]) *)

Definition apiKeyHashPepper : string := sha256 "rainway-ai-gateway:api-key-hash-pepper:v1".

Definition hex_digit (n : N) : ascii := ascii_of_N (if (n <? 10)%N then 48 + n else 87 + n).

Fixpoint hex (s : string) : string :=
  match s with
  | EmptyString => EmptyString
  | String b r => String (hex_digit (N_of_ascii b / 16)) (String (hex_digit (N_of_ascii b mod 16)) (hex r))
  end.

Definition KeyHash (plaintext : string) : string := hex (hmac_sha256 apiKeyHashPepper plaintext).

End Envelopes.

Record Keyring : Type := mkKeyring {
  kr_keys : gmap N string;
  kr_encKeys : gmap N string;
  kr_active : N;
  kr_filePath : string
}.

Definition ActiveID (k : Keyring) : N := kr_active k.
Definition HasKey (k : Keyring) (id : N) : bool := bool_decide (is_Some (kr_keys k !! id)).
Definition KeyIDs (k : Keyring) : list N := (map_to_list (kr_keys k)).*1.

(** [keyringFile]; the entries are in the order in which the loop over the
    map visits them. *)
Record keyringFile : Type := mkKeyringFile { kf_ActiveKeyID : Z; kf_Keys : list (string * string) }.

Section Keyrings.
Context `{!Crypto}.

Definition Keyring_Encrypt (nonce : result string) (k : Keyring) (plaintext : string) : result string :=
  match kr_encKeys k !! kr_active k with
  | None => Err ErrKeyNotFound
  | Some key => Encrypt nonce plaintext key (kr_active k)
  end.

Definition Keyring_Decrypt (k : Keyring) (value : string) : result string :=
  if negb (IsEncrypted value) then Ok value else
  match envelopeKeyID value with
  | None => Err ErrInvalidEnvelope
  | Some keyID =>
      match kr_encKeys k !! keyID with
      | None => Err ErrKeyNotFound
      | Some key => Decrypt value {[keyID := key]}
      end
  end.

Definition EncryptWithRawKey (k : Keyring) (plaintext : string) (keyID : N) : result string :=
  let keyID := if (keyID =? 0)%N then kr_active k else keyID in
  match kr_keys k !! keyID with
  | None => Err ErrKeyNotFound
  | Some key => EncryptDeterministic plaintext key keyID
  end.

Definition hkdfBytes (master info : string) : result string := Ok (hkdf_sha256 master info).

(** The loop over the entries of the file. *)
Fixpoint load_keys (l : list (string * string)) (keys encKeys : gmap N string)
  : result (gmap N string * gmap N string) :=
  match l with
  | [] => Ok (keys, encKeys)
  | (s, b64) :: l' =>
      match ParseKeyID s with
      | Err e => Err e
      | Ok id =>
          match DecodeString b64 with
          | Some master =>
              if negb (String.length master =? keyLen)%nat
              then Err (PlainError "xcrypto: key %d: invalid base64 or length != %d")
              else match hkdfBytes master "db-enc-key" with
                   | Err e => Err e
                   | Ok encKey => load_keys l' (<[id := master]> keys) (<[id := encKey]> encKeys)
                   end
          | None => Err (PlainError "xcrypto: key %d: invalid base64 or length != %d")
          end
      end
  end.

(** [read] is [os.ReadFile], [toml] the TOML parser. *)
Definition LoadKeyringFile (read : string -> result string) (toml : string -> result keyringFile) (path : string)
  : result Keyring :=
  if bool_decide (path = "") then Err (PlainError "xcrypto: keyring file path empty") else
  match read path with
  | Err e => Err e
  | Ok data =>
      match toml data with
      | Err _ => Err (PlainError "xcrypto: parse keyring file: %w")
      | Ok f =>
          if (length (kf_Keys f) =? 0)%nat then Err (PlainError "xcrypto: keyring file has no [Keys] entries") else
          match load_keys (kf_Keys f) ∅ ∅ with
          | Err e => Err e
          | Ok (keys, encKeys) =>
              if (kf_ActiveKeyID f <? 1)%Z || (255 <? kf_ActiveKeyID f)%Z
              then Err (PlainError "xcrypto: ActiveKeyID %d out of range")
              else let active := Z.to_N (kf_ActiveKeyID f) in
                   match keys !! active with
                   | None => Err (PlainError "xcrypto: ActiveKeyID %d not found in [Keys]")
                   | Some _ => Ok (mkKeyring keys encKeys active path)
                   end
          end
      end
  end.

(** * Passwords ([password.go]) *)

Definition DefaultPasswordHashCost : Z := 10.
Definition minPasswordHashCost : Z := 4.
Definition maxPasswordHashCost : Z := 16.
Definition passwordMaxBytes : nat := 72.

(** The new value of the package variable [passwordHashCost]. *)
Definition SetPasswordHashCost (cost : Z) : result Z :=
  let cost := if (cost =? 0)%Z then DefaultPasswordHashCost else cost in
  if (cost <? minPasswordHashCost)%Z || (maxPasswordHashCost <? cost)%Z
  then Err (PlainError "xcrypto: password hash cost %d out of range [%d, %d]") else Ok cost.

(** [salt] is the salt that bcrypt draws, [cost] the package variable. *)
Definition HashPassword (salt : string) (cost : Z) (plaintext : string) : result string :=
  match bcrypt_generate salt cost plaintext with
  | Err _ => Err (PlainError "xcrypto: hash password: %w")
  | Ok h => Ok h
  end.

Definition IsHashedPassword (s : string) : bool :=
  HasPrefix s "$2a$" || HasPrefix s "$2b$" || HasPrefix s "$2y$".

(** The verdict and whether the stored value must be migrated. *)
Definition CheckPassword (hashed plaintext : string) : bool * bool :=
  if (passwordMaxBytes <? String.length plaintext)%nat then (false, false)
  else if IsHashedPassword hashed then (bcrypt_compare hashed plaintext, false)
  else if bool_decide (hashed = plaintext) then (true, true)
  else (false, false).

End Keyrings.

(** A concrete instance of the primitives, which shows that their laws can
    hold together, and a sample keyring. *)

(** The first [n] bytes of a string, filled up with zeros. *)
Fixpoint fill (n : nat) (s : string) : string :=
  match n with
  | O => EmptyString
  | S n' => match s with
            | EmptyString => String "0" (fill n' EmptyString)
            | String c r => String c (fill n' r)
            end
  end.

Lemma fill_length n s : String.length (fill n s) = n.
Proof. revert s. induction n as [|n IH]; intros [|c s]; simpl; auto. Qed.

(** A seal appends a tag of 16 bytes of the key, which [open] checks. *)
Definition toy_open (key nonce ct : string) : option string :=
  let n := String.length ct - 16 in
  if bool_decide (String.substring n 16 ct = fill 16 key) then Some (String.substring 0 n ct) else None.

#[export] Instance toy_crypto : Crypto := {|
  gcm_seal := fun key nonce pt => pt +:+ fill 16 key;
  gcm_open := toy_open;
  hmac_sha256 := fun key m => fill 32 (m +:+ key);
  sha256 := fill 32;
  hkdf_sha256 := fun master info => fill 32 master;
  bcrypt_generate := fun salt cost pw =>
    if (4 <=? cost)%Z && (cost <=? 31)%Z && (String.length pw <=? 72)%nat then Ok ("$2a$" +:+ pw)
    else Err (PlainError "bcrypt");
  bcrypt_compare := fun h pw => bool_decide (h = "$2a$" +:+ pw)
|}.

#[export] Instance toy_laws : CryptoLaws.
Proof.
  split.
  - intros key nonce pt _ _. cbn [gcm_seal gcm_open toy_crypto]. unfold toy_open.
    rewrite length_sapp, fill_length, Nat.add_sub.
    rewrite (substring_skip pt), substring_full by (done || by rewrite fill_length).
    rewrite bool_decide_eq_true_2 by done. f_equal. by apply substring_prefix.
  - intros key nonce pt. cbn [gcm_seal toy_crypto]. by rewrite length_sapp, fill_length.
  - intros. apply fill_length.
  - intros. apply fill_length.
  - intros salt cost pw Hc Hl. cbn [bcrypt_generate toy_crypto].
    rewrite (proj2 (Z.leb_le 4 cost)), (proj2 (Z.leb_le cost 31)), (proj2 (Nat.leb_le _ 72)) by lia. by eexists.
  - intros salt cost pw h. cbn [bcrypt_generate toy_crypto].
    destruct (_ && _); [|discriminate]. intros [= <-]. apply (HasPrefix_app "$2a$").
  - intros salt cost pw h. cbn [bcrypt_generate bcrypt_compare toy_crypto].
    destruct (_ && _); [|discriminate]. intros [= <-]. by apply bool_decide_eq_true.
Qed.

(** A file with the keys 1 and 2, the second one active. *)
Definition key_a : string := fill 32 "alpha".
Definition key_b : string := fill 32 "beta".
Definition sample_file : keyringFile := mkKeyringFile 2 [("1", EncodeToString key_a); (" 2", EncodeToString key_b)].
Definition sample_read (path : string) : result string := Ok path.
Definition sample_toml (data : string) : result keyringFile := Ok sample_file.

Definition sample_ring : Keyring :=
  mkKeyring {[1%N := key_a; 2%N := key_b]} {[1%N := fill 32 key_a; 2%N := fill 32 key_b]} 2 "ring.toml".

Lemma sample_ring_loads : LoadKeyringFile sample_read sample_toml "ring.toml" = Ok sample_ring.
Proof. reflexivity. Qed.

(** The ring before the rotation to key 2. *)
Definition old_ring : Keyring := mkKeyring (kr_keys sample_ring) (kr_encKeys sample_ring) 1 "ring.toml".
