(* ===== verification/XCryptoSpec.v ===== *)
(** What the envelope and the keyring promise: a loaded keyring is well
    formed, encrypting with it always works and decrypting gives the secret
    back, also after the active key has changed; legacy plain text passes;
    and the password check accepts what was hashed. *)
From Stdlib Require Import ZArith Lia Ascii.
From stdpp Require Import base tactics numbers list strings gmap option.
From S2P Require Import Prelude GoStrings GoBase64 XCrypto.

Local Open Scope string_scope.

(** * Envelopes *)

Lemma pack_raw id nonce ct : String.length nonce = 12 -> ct <> EmptyString ->
  envelope_raw (pack id nonce ct) = Some (String (byte_of id) (nonce +:+ ct)).
Proof.
  intros Hn Hc. unfold envelope_raw, pack. rewrite substring_skip by done.
  rewrite substring_full by (rewrite length_sapp; lia). rewrite DecodeString_EncodeToString.
  destruct (_ <? _)%nat eqn:E; [|reflexivity]. apply Nat.ltb_lt in E.
  cbn [String.length] in E. rewrite length_sapp, Hn in E. unfold keyIDLen, nonceLen in E.
  destruct ct; [done|]. simpl in E. lia.
Qed.

Lemma pack_encrypted id nonce ct : IsEncrypted (pack id nonce ct) = true.
Proof. unfold IsEncrypted, pack. apply HasPrefix_app. Qed.

Lemma pack_keyID id nonce ct : (id < 256)%N -> String.length nonce = 12 -> ct <> EmptyString ->
  envelopeKeyID (pack id nonce ct) = Some id.
Proof.
  intros Hid Hn Hc. unfold envelopeKeyID. rewrite pack_encrypted, pack_raw by done. simpl.
  f_equal. by apply N_ascii_embedding.
Qed.

Section Spec.
Context {CR : Crypto} {CL : CryptoLaws}.

Lemma seal_not_empty key nonce pt : gcm_seal key nonce pt <> EmptyString.
Proof. intros Hs. pose proof (gcm_seal_length key nonce pt) as L. rewrite Hs in L. simpl in L. lia. Qed.

Lemma cipher_key_32 key : String.length key = 32 -> cipher_key key = true.
Proof. unfold cipher_key. by intros ->. Qed.

Lemma Decrypt_pack keys id key nonce pt : (id < 256)%N -> String.length key = 32 -> String.length nonce = 12 ->
  keys !! id = Some key -> Decrypt (pack id nonce (gcm_seal key nonce pt)) keys = Ok pt.
Proof.
  intros Hid Hk Hn Hl. unfold Decrypt.
  rewrite pack_keyID, Hl, pack_raw, cipher_key_32 by (done || apply seal_not_empty). cbn [negb].
  change (String.substring keyIDLen nonceLen (String (byte_of id) (nonce +:+ gcm_seal key nonce pt)))
    with (String.substring 0 12 (nonce +:+ gcm_seal key nonce pt)).
  rewrite substring_prefix by done.
  change (String.substring (keyIDLen + nonceLen) ?n (String ?c ?s)) with (String.substring 12 n s).
  rewrite (substring_skip nonce) by done. rewrite substring_full by (cbn [String.length]; rewrite length_sapp; lia).
  by rewrite gcm_open_seal.
Qed.

Lemma Encrypt_works nonce pt key id : String.length key = 32 ->
  Encrypt (Ok nonce) pt key id = Ok (pack id nonce (gcm_seal key nonce pt)).
Proof. intros Hk. unfold Encrypt. rewrite cipher_key_32, Hk by done. reflexivity. Qed.

(** * Keyrings *)

(** The invariant of a loaded keyring. *)
Record keyring_wf (k : Keyring) : Prop := {
  wf_same : forall id, is_Some (kr_keys k !! id) <-> is_Some (kr_encKeys k !! id);
  wf_ids : forall id key, kr_keys k !! id = Some key -> (1 <= id <= 255)%N /\ String.length key = 32;
  wf_derived : forall id key, kr_encKeys k !! id = Some key ->
    exists master, kr_keys k !! id = Some master /\ key = hkdf_sha256 master "db-enc-key";
  wf_active : is_Some (kr_keys k !! kr_active k)
}.

(** What holds of the two maps at every turn of the loop. *)
Definition keys_ok (m : gmap N string * gmap N string) : Prop :=
  (forall id, is_Some (m.1 !! id) <-> is_Some (m.2 !! id)) /\
  (forall id key, m.1 !! id = Some key -> (1 <= id <= 255)%N /\ String.length key = 32) /\
  (forall id key, m.2 !! id = Some key -> exists master, m.1 !! id = Some master /\ key = hkdf_sha256 master "db-enc-key").

Lemma ParseKeyID_range s id : ParseKeyID s = Ok id -> (1 <= id <= 255)%N.
Proof.
  unfold ParseKeyID. destruct (ParseInt _) as [n|]; [|discriminate].
  destruct (_ || _) eqn:E; [discriminate|]. intros [= <-].
  apply orb_false_iff in E as [E1 E2]. apply Z.ltb_ge in E1, E2. lia.
Qed.

Lemma load_keys_ok l keys enc m : keys_ok (keys, enc) -> load_keys l keys enc = Ok m -> keys_ok m.
Proof.
  revert keys enc. induction l as [|[s b64] l IH]; intros keys enc Hok; simpl; [by intros [= <-]|].
  destruct (ParseKeyID s) as [id|] eqn:Eid; [|discriminate].
  destruct (DecodeString b64) as [master|]; [|discriminate].
  destruct (String.length master =? keyLen)%nat eqn:El; [|discriminate]. cbn [negb hkdfBytes].
  apply IH. apply Nat.eqb_eq in El. pose proof (ParseKeyID_range _ _ Eid) as Hr.
  destruct Hok as (H1 & H2 & H3). unfold keys_ok. cbn [fst snd] in *. repeat split; intros.
  - rewrite lookup_insert_is_Some' in *. rewrite <- H1. tauto.
  - rewrite lookup_insert_is_Some' in *. rewrite H1. tauto.
  - destruct (decide (id = id0)) as [->|]; [tauto|]. rewrite lookup_insert_ne in * by done. by apply (H2 _ key).
  - destruct (decide (id = id0)) as [->|]; [tauto|]. rewrite lookup_insert_ne in * by done. by apply (H2 _ key).
  - destruct (decide (id = id0)) as [->|].
    + rewrite lookup_insert_eq in *. simplify_eq. by apply El.
    + rewrite lookup_insert_ne in * by done. by eapply H2.
  - destruct (decide (id = id0)) as [->|].
    + rewrite !lookup_insert_eq in *. simplify_eq. eauto.
    + rewrite !lookup_insert_ne in * by done. by apply H3.
Qed.

Lemma LoadKeyringFile_wf read toml path k : LoadKeyringFile read toml path = Ok k -> keyring_wf k.
Proof.
  unfold LoadKeyringFile. case_bool_decide; [discriminate|].
  destruct (read path); [|discriminate]. destruct (toml _) as [f|]; [|discriminate].
  destruct (_ =? 0)%nat; [discriminate|].
  destruct (load_keys _ _ _) as [[keys enc]|] eqn:El; [|discriminate].
  destruct (_ || _); [discriminate|]. destruct (keys !! _) eqn:Ea; [|discriminate]. intros [= <-].
  apply load_keys_ok in El as (H1 & H2 & H3).
  - split; cbn [kr_keys kr_encKeys kr_active]; eauto.
  - unfold keys_ok. cbn [fst snd]. setoid_rewrite lookup_empty.
    split; [|split]; [intros ?; split; intros [? [=]]|intros ? ? [=]..].
Qed.

Lemma wf_enc_key k id key : keyring_wf k -> kr_encKeys k !! id = Some key ->
  (1 <= id <= 255)%N /\ String.length key = 32.
Proof.
  intros Hw Hl. destruct (wf_derived k Hw id key Hl) as (master & Hm & ->).
  split; [|apply hkdf_length]. by apply (wf_ids k Hw id master).
Qed.

Lemma wf_active_enc k : keyring_wf k -> exists key, kr_encKeys k !! kr_active k = Some key.
Proof. intros Hw. apply (wf_same k Hw), (wf_active k Hw). Qed.

(** Encrypting with a well-formed keyring. *)
Lemma Keyring_Encrypt_works k nonce pt : keyring_wf k ->
  exists key, kr_encKeys k !! kr_active k = Some key /\
    Keyring_Encrypt (Ok nonce) k pt = Ok (pack (kr_active k) nonce (gcm_seal key nonce pt)).
Proof.
  intros Hw. destruct (wf_active_enc k Hw) as [key Hk]. exists key. split; [done|].
  unfold Keyring_Encrypt. rewrite Hk. apply Encrypt_works. by apply (wf_enc_key k _ _ Hw Hk).
Qed.

(** Decrypting what was sealed with one of the keys of the ring. *)
Lemma Keyring_Decrypt_pack k id key nonce pt : keyring_wf k -> kr_encKeys k !! id = Some key ->
  String.length nonce = 12 -> Keyring_Decrypt k (pack id nonce (gcm_seal key nonce pt)) = Ok pt.
Proof.
  intros Hw Hk Hn. destruct (wf_enc_key k id key Hw Hk) as [Hid Hl].
  unfold Keyring_Decrypt. rewrite pack_encrypted. cbn [negb].
  rewrite pack_keyID by (done || lia || apply seal_not_empty). rewrite Hk.
  apply Decrypt_pack; [lia|done..|]. apply lookup_singleton_eq.
Qed.

(** With a keyring that was loaded from its file, encryption of any secret
    succeeds, the result is an envelope that names the active key, and every
    later keyring that still has that key decrypts it to the secret, whatever
    key is active then. *)
Theorem keyring_roundtrip read toml path k k' nonce pt :
  LoadKeyringFile read toml path = Ok k -> String.length nonce = 12 ->
  keyring_wf k' -> kr_encKeys k' !! kr_active k = kr_encKeys k !! kr_active k ->
  exists ct, Keyring_Encrypt (Ok nonce) k pt = Ok ct /\ IsEncrypted ct = true /\
    KeyIDOf ct = Some (ActiveID k) /\ Keyring_Decrypt k' ct = Ok pt.
Proof.
  intros Hl Hn Hw' Hk'. apply LoadKeyringFile_wf in Hl.
  destruct (Keyring_Encrypt_works k nonce pt Hl) as (key & Hk & ->). rewrite Hk in Hk'.
  destruct (wf_enc_key k _ _ Hl Hk) as [Hid _].
  eexists; split; [reflexivity|]. split; [apply pack_encrypted|]. split.
  - apply pack_keyID; [unfold ActiveID; lia|done|apply seal_not_empty].
  - by apply Keyring_Decrypt_pack.
Qed.

(** Export files: the envelope depends on the secret and the key only, and
    whoever holds the raw keys of the ring decrypts it. *)
Lemma export_roundtrip k pt id : keyring_wf k -> HasKey k id = true ->
  exists ct, EncryptWithRawKey k pt id = Ok ct /\ KeyIDOf ct = Some id /\ Decrypt ct (kr_keys k) = Ok pt.
Proof.
  intros Hw Hi. unfold HasKey in Hi. apply bool_decide_eq_true in Hi as [key Hk].
  destruct (wf_ids k Hw id key Hk) as [Hid Hl]. unfold EncryptWithRawKey.
  replace (id =? 0)%N with false by (symmetry; apply N.eqb_neq; lia). rewrite Hk.
  unfold EncryptDeterministic. rewrite Hl, cipher_key_32 by done. cbn [Nat.eqb negb keyLen].
  assert (String.length (String.substring 0 nonceLen (hmac_sha256 key pt)) = 12) as Hn.
  { apply substring_take_length. rewrite hmac_length. unfold nonceLen. lia. }
  eexists; split; [reflexivity|]. split.
  - apply pack_keyID; [lia|done|apply seal_not_empty].
  - apply Decrypt_pack; [lia|done..].
Qed.

(** * Passwords *)

(** What was hashed is accepted and needs no migration. *)
Theorem password_roundtrip salt cost cost' pw h : SetPasswordHashCost cost = Ok cost' ->
  HashPassword salt cost' pw = Ok h -> String.length pw <= 72 -> CheckPassword h pw = (true, false).
Proof.
  intros _ Hh Hl. unfold HashPassword in Hh. destruct (bcrypt_generate salt cost' pw) as [h'|] eqn:E; [|discriminate].
  injection Hh as <-. unfold CheckPassword, passwordMaxBytes.
  destruct (72 <? String.length pw)%nat eqn:El; [apply Nat.ltb_lt in El; lia|].
  unfold IsHashedPassword. by rewrite (bcrypt_prefix _ _ _ _ E), (bcrypt_accepts _ _ _ _ E).
Qed.
End Spec.

(** * The sample keyrings *)

Lemma sample_ring_wf : keyring_wf sample_ring.
Proof. apply (LoadKeyringFile_wf sample_read sample_toml "ring.toml"), sample_ring_loads. Qed.

Lemma old_ring_wf : keyring_wf old_ring.
Proof.
  destruct sample_ring_wf as [H1 H2 H3 _]. split; [exact H1|exact H2|exact H3|]. by eexists.
Qed.

Lemma keyring_roundtrip_witness :
  exists ct, Keyring_Encrypt (Ok "nonce0123456") sample_ring "sk-1" = Ok ct /\ IsEncrypted ct = true /\
    KeyIDOf ct = Some (ActiveID sample_ring) /\ Keyring_Decrypt old_ring ct = Ok "sk-1".
Proof.
  apply (keyring_roundtrip sample_read sample_toml "ring.toml" sample_ring old_ring "nonce0123456" "sk-1");
    [exact sample_ring_loads|reflexivity|exact old_ring_wf|reflexivity].
Defined.
