(* ===== verification/Security.v ===== *)
(** The runtime state of encryption ([stateful/security.go]): the keyring for
    the database, the ring for export files, how both are loaded and
    reloaded, and the start-up checks; and what holds of them. *)
From Stdlib Require Import ZArith Lia Ascii.
From stdpp Require Import base tactics numbers list strings gmap option.
From S2P Require Import Prelude GoStrings GoBase64 XCrypto XCryptoSpec.

Local Open Scope string_scope.

(** * State *)

Record exportCrypto : Type := mkExportCrypto {
  ec_kr : option Keyring; ec_activeID : N; ec_enabled : bool
}.

Record SecurityConfig : Type := mkSecurityConfig {
  MasterKeyFile : string;
  sc_ActiveKeyID : Z;
  EncryptExports : bool;
  ExportKeyFile : string;
  ActiveExportKeyID : Z;
  PasswordHashCost : Z
}.

(** The two atomic values and the cost of [lib/xcrypto]. *)
Record security : Type := mkSecurity {
  s_secretRing : option Keyring;
  s_exportState : option exportCrypto;
  s_passwordHashCost : Z
}.

Definition SecretRing (s : security) : option Keyring := s_secretRing s.
Definition currentExportCrypto (s : security) : option exportCrypto := s_exportState s.
Definition set_ring (r : option Keyring) (s : security) : security :=
  mkSecurity r (s_exportState s) (s_passwordHashCost s).
Definition set_export (e : exportCrypto) (s : security) : security :=
  mkSecurity (s_secretRing s) (Some e) (s_passwordHashCost s).

(** Conversion of an [int] to [uint8]. *)
Definition to_uint8 (z : Z) : N := Z.to_N (z mod 256).

Section Security.
Context {CR : Crypto} (read : string -> result string) (toml : string -> result keyringFile).

(** * Loading *)

Definition loadSecretRing (conf : SecurityConfig) (s : security) : option goerr * security :=
  let path := MasterKeyFile conf in
  if bool_decide (path = "") then (None, set_ring None s) else
  match LoadKeyringFile read toml path with
  | Err _ => (Some (PlainError "security: load keyring %s: %v"), s)
  | Ok kr => (None, set_ring (Some kr) s)
  end.

(** [conf] is [DefaultConfig]. *)
Definition LoadSecretRing (conf : option SecurityConfig) (s : security) : option goerr * security :=
  match conf with
  | None => (Some (PlainError "security: DefaultConfig not initialized"), s)
  | Some conf => loadSecretRing conf s
  end.

Definition loadExportSecretRing (conf : SecurityConfig) (s : security) : option goerr * security :=
  let path := ExportKeyFile conf in
  if bool_decide (path = "") then
    if EncryptExports conf
    then (Some (PlainError "security: EncryptExports=true but [Security].ExportKeyFile is not configured; refuse to start"), s)
    else (None, set_export (mkExportCrypto None 0 false) s)
  else
  match LoadKeyringFile read toml path with
  | Err _ =>
      if EncryptExports conf
      then (Some (PlainError "security: EncryptExports=true but export keyring %s is unusable: %v"), s)
      else (None, set_export (mkExportCrypto None 0 false) s)
  | Ok kr =>
      let activeID := to_uint8 (ActiveExportKeyID conf) in
      let activeID := if (activeID =? 0)%N then ActiveID kr else activeID in
      if negb (HasKey kr activeID)
      then (Some (PlainError "security: ActiveExportKeyID %d not found in export keyring %s"), s)
      else (None, set_export (mkExportCrypto (Some kr) activeID (EncryptExports conf)) s)
  end.

Definition LoadExportSecretRing (conf : option SecurityConfig) (s : security) : option goerr * security :=
  match conf with
  | None => (Some (PlainError "security: DefaultConfig not initialized"), s)
  | Some conf => loadExportSecretRing conf s
  end.

(** The message of a reload is the pairs of key counts. *)
Definition ring_size (r : option Keyring) (absent : Z) : Z :=
  match r with Some k => Z.of_nat (length (KeyIDs k)) | None => absent end.
Definition export_ring (s : security) : option Keyring :=
  match currentExportCrypto s with Some ec => ec_kr ec | None => None end.

Definition ReloadSecurity (conf : option SecurityConfig) (s : security)
  : (option (Z * Z * Z * Z) * option goerr) * security :=
  let oldRules := ring_size (SecretRing s) (-1) in
  match LoadSecretRing conf s with
  | (Some e, s1) => ((None, Some e), s1)
  | (None, s1) =>
      let newKeys := ring_size (SecretRing s1) 0 in
      let oldExpKeys := ring_size (export_ring s1) (-1) in
      let '(expErr, s2) := LoadExportSecretRing conf s1 in
      let newExpKeys := ring_size (export_ring s2) 0 in
      let msg := Some (oldRules, newKeys, oldExpKeys, newExpKeys) in
      match expErr with
      | Some _ => ((msg, Some (PlainError "security: export keyring reload failed (previous export keyring kept): %v")), s2)
      | None => ((msg, None), s2)
      end
  end.

Definition loadPasswordHashCost (conf : SecurityConfig) (s : security) : option goerr * security :=
  match SetPasswordHashCost (PasswordHashCost conf) with
  | Err _ => (Some (PlainError "security: invalid [Security].PasswordHashCost %d: %v"), s)
  | Ok c => (None, mkSecurity (s_secretRing s) (s_exportState s) c)
  end.

Definition LoadPasswordHashCost (conf : option SecurityConfig) (s : security) : option goerr * security :=
  match conf with
  | None => (Some (PlainError "security: DefaultConfig not initialized"), s)
  | Some conf => loadPasswordHashCost conf s
  end.

(** * Use *)

Definition EncryptIfEnabled (s : security) (nonce : result string) (value : string) : result string :=
  match SecretRing s with None => Ok value | Some kr => Keyring_Encrypt nonce kr value end.

Definition DecryptIfEnabled (s : security) (value : string) : result string :=
  match SecretRing s with None => Ok value | Some kr => Keyring_Decrypt kr value end.

Definition ExportCryptoEnabled (s : security) : bool :=
  match currentExportCrypto s with Some ec => ec_enabled ec | None => false end.

(** An enabled export state always has a ring; without one the call through
    the nil pointer would panic, here [None]. *)
Definition ExportEncrypt (s : security) (plaintext : string) : option (result string) :=
  match currentExportCrypto s with
  | Some (mkExportCrypto kr activeID true) =>
      match kr with Some kr => Some (EncryptWithRawKey kr plaintext activeID) | None => None end
  | _ => Some (Err (PlainError "security: export encryption not enabled ([Security].EncryptExports/ExportKeyFile)"))
  end.

(** * Start-up checks *)

(** [SELECT 1 FROM t WHERE c LIKE 'enc$v1$%' LIMIT 1]: [probe t c] is whether
    a row came back. *)
Definition anyCiphertextPresent (probe : string -> string -> result bool) : result bool :=
  match probe "providers" "api_keys" with
  | Err e => Err e
  | Ok true => Ok true
  | Ok false => probe "api_keys" "api_key"
  end.

(** [db] is whether the database handle could be opened. *)
Definition CheckSecretAtRest (db : result unit) (probe : string -> string -> result bool) (s : security) : option goerr :=
  match db with
  | Err e => Some e
  | Ok _ =>
      match anyCiphertextPresent probe with
      | Err _ => Some (PlainError "security: check ciphertext presence: %v")
      | Ok has =>
          match SecretRing s with
          | None => if has then Some (PlainError "security: database holds encrypted secrets but no keyring is configured ([Security].MasterKeyFile); refuse to start") else None
          | Some _ => None
          end
      end
  end.

Definition encryptedColumns : list (string * string) := [("providers", "api_keys"); ("api_keys", "api_key")].

(** Declared types: [mysql t c] is the answer of [information_schema]
    ([Ok None]: no such column). *)
Fixpoint jsonTypedColumnsMySQL_loop (mysql : string -> string -> result (option string))
  (l bad : list (string * string)) : result (list (string * string)) :=
  match l with
  | [] => Ok bad
  | (t, c) :: l' =>
      match mysql t c with
      | Err e => Err e
      | Ok None => jsonTypedColumnsMySQL_loop mysql l' bad
      | Ok (Some ty) => jsonTypedColumnsMySQL_loop mysql l' (if EqualFold ty "json" then bad ++ [(t, c)] else bad)%list
      end
  end.
Definition jsonTypedColumnsMySQL (mysql : string -> string -> result (option string)) : result (list (string * string)) :=
  jsonTypedColumnsMySQL_loop mysql encryptedColumns [].

(** [sqlite t] is the list of columns of the table with their types. *)
Fixpoint jsonTypedColumnsSQLite_loop (sqlite : string -> result (list (string * string)))
  (l bad : list (string * string)) : result (list (string * string)) :=
  match l with
  | [] => Ok bad
  | (t, c) :: l' =>
      match sqlite t with
      | Err e => Err e
      | Ok cols =>
          jsonTypedColumnsSQLite_loop sqlite l'
            (bad ++ map (fun _ => (t, c))
               (List.filter (fun nt => bool_decide (fst nt = c) && EqualFold (TrimSpace (snd nt)) "json") cols))%list
      end
  end.
Definition jsonTypedColumnsSQLite (sqlite : string -> result (list (string * string))) : result (list (string * string)) :=
  jsonTypedColumnsSQLite_loop sqlite encryptedColumns [].

Definition CheckEncryptedColumnTypes (db : result unit) (driver : string)
  (mysql : string -> string -> result (option string)) (sqlite : string -> result (list (string * string)))
  (s : security) : option goerr :=
  match SecretRing s with
  | None => None
  | Some _ =>
      match db with
      | Err e => Some e
      | Ok _ =>
          let verdict r := match r with
            | Err _ => Some (PlainError "security: inspect encrypted column types: %v")
            | Ok [] => None
            | Ok _ => Some (PlainError "security: column(s) %s declared as JSON but hold enc$v1$ envelopes")
            end in
          if bool_decide (driver = "mysql") then verdict (jsonTypedColumnsMySQL mysql)
          else if bool_decide (driver = "sqlite") || bool_decide (driver = "sqlite-strip")
          then verdict (jsonTypedColumnsSQLite sqlite)
          else None
      end
  end.

End Security.

(** Loading and reloading of the keyrings: a failed load keeps the ring in
    service, the export state is always usable when it says it is enabled,
    and a database with ciphertext is never served without a keyring. *)

Section Spec.
Context {CR : Crypto} {CL : CryptoLaws}.

(** * The state invariant *)

Record security_ok (s : security) : Prop := {
  so_ring : forall kr, s_secretRing s = Some kr -> keyring_wf kr;
  so_export : forall ec, s_exportState s = Some ec -> ec_enabled ec = true ->
    exists kr, ec_kr ec = Some kr /\ keyring_wf kr /\ HasKey kr (ec_activeID ec) = true
}.

Definition start : security := mkSecurity None None DefaultPasswordHashCost.

Lemma start_ok : security_ok start.
Proof. by split. Qed.

Lemma set_ring_ok s r : (forall kr, r = Some kr -> keyring_wf kr) -> security_ok s -> security_ok (set_ring r s).
Proof. intros Hr [_ He]. by split. Qed.

Lemma set_export_ok s ec : (ec_enabled ec = true -> exists kr, ec_kr ec = Some kr /\ keyring_wf kr /\ HasKey kr (ec_activeID ec) = true) ->
  security_ok s -> security_ok (set_export ec s).
Proof. intros He [Hr _]. split; [done|]. by intros ? [= <-]. Qed.

Lemma LoadSecretRing_ok read toml conf s : security_ok s -> security_ok (LoadSecretRing read toml conf s).2.
Proof.
  intros Hs. destruct conf as [conf|]; [|done]. cbn [LoadSecretRing]. unfold loadSecretRing.
  case_bool_decide; [by apply set_ring_ok|].
  destruct (LoadKeyringFile _ _ _) as [kr|e] eqn:E; [|done]. apply set_ring_ok; [|done].
  intros ? [= <-]. by apply (LoadKeyringFile_wf read toml (MasterKeyFile conf)).
Qed.

Lemma LoadExportSecretRing_ok read toml conf s : security_ok s -> security_ok (LoadExportSecretRing read toml conf s).2.
Proof.
  intros Hs. destruct conf as [conf|]; [|done]. cbn [LoadExportSecretRing]. unfold loadExportSecretRing.
  case_bool_decide; [destruct (EncryptExports conf); [done|by apply set_export_ok]|].
  destruct (LoadKeyringFile _ _ _) as [kr|e] eqn:E; [|destruct (EncryptExports conf); [done|by apply set_export_ok]].
  set (id := if (_ =? 0)%N then _ else _). destruct (HasKey kr id) eqn:Eh; cbn [negb]; [|done].
  apply set_export_ok; [|done]. intros _. exists kr. cbn. split; [done|].
  split; [|done]. by apply (LoadKeyringFile_wf read toml (ExportKeyFile conf)).
Qed.

Lemma ReloadSecurity_ok read toml conf s : security_ok s -> security_ok (ReloadSecurity read toml conf s).2.
Proof.
  intros Hs. unfold ReloadSecurity.
  pose proof (LoadSecretRing_ok read toml conf s Hs) as H1. destruct (LoadSecretRing _ _ _ _) as [[e|] s1]; [done|].
  pose proof (LoadExportSecretRing_ok read toml conf s1 H1) as H2.
  destruct (LoadExportSecretRing _ _ _ _) as [[e|] s2]; done.
Qed.

(** The states after any number of reloads, each with its own configuration
    and files. *)
Inductive reloaded : security -> Prop :=
| reloaded_start : reloaded start
| reloaded_step read toml conf s : reloaded s -> reloaded (ReloadSecurity read toml conf s).2.

Lemma reloaded_ok s : reloaded s -> security_ok s.
Proof. induction 1; [apply start_ok|by apply ReloadSecurity_ok]. Qed.

(** After any history of reloads, a state that reports export encryption as
    enabled encrypts every field: the call neither panics nor fails, and the
    holder of the raw keys of the export ring reads it back; and a state that
    does not refuses. *)
Theorem enabled_exports_encrypt s pt : reloaded s ->
  if ExportCryptoEnabled s
  then exists ct ec kr, ExportEncrypt s pt = Some (Ok ct) /\ currentExportCrypto s = Some ec /\ ec_kr ec = Some kr /\
         KeyIDOf ct = Some (ec_activeID ec) /\ Decrypt ct (kr_keys kr) = Ok pt
  else exists e, ExportEncrypt s pt = Some (Err e).
Proof.
  intros Hs. apply reloaded_ok in Hs as [_ He]. unfold ExportCryptoEnabled, ExportEncrypt, currentExportCrypto.
  destruct (s_exportState s) as [[kr id en]|] eqn:E; [|by eexists]. cbn [ec_enabled].
  destruct en; [|by eexists]. destruct (He _ eq_refl eq_refl) as (k & Hk & Hw & Hh). cbn in Hk, Hh. subst kr.
  destruct (export_roundtrip k pt id Hw Hh) as (ct & Hc & Hi & Hd). exists ct, (mkExportCrypto (Some k) id true), k.
  cbn. by rewrite Hc.
Qed.

(** What a holder of the export ring reads in an exported field. *)
Definition reads_back (s : security) (v e : string) : Prop :=
  if ExportCryptoEnabled s
  then exists ec kr, currentExportCrypto s = Some ec /\ ec_kr ec = Some kr /\ KeyIDOf e = Some (ec_activeID ec) /\ Decrypt e (kr_keys kr) = Ok v
  else e = v.
Lemma export_encrypt_reads s v e : reloaded s -> ExportEncrypt s v = Some (Ok e) -> ExportCryptoEnabled s = true -> reads_back s v e.
Proof.
  intros Hs He Hen. pose proof (enabled_exports_encrypt s v Hs) as Hx. unfold reads_back. rewrite Hen in Hx |- *.
  destruct Hx as (ct & ec & kr & Hct & H1 & H2 & H3 & H4). rewrite Hct in He. injection He as <-. by exists ec, kr.
Qed.
(** It is one value. *)
Lemma reads_back_inj s v v' e : reads_back s v e -> reads_back s v' e -> v = v'.
Proof.
  unfold reads_back. destruct (ExportCryptoEnabled s); [|congruence]. intros (ec & kr & H1 & H2 & _ & H3) (ec' & kr' & H1' & H2' & _ & H3').
  rewrite H1 in H1'. injection H1' as <-. rewrite H2 in H2'. injection H2' as <-. congruence.
Qed.

(** A reload that fails keeps what it could not replace: without a message
    nothing has changed, with one the database ring is the new one and the
    export state is the previous one. *)
Theorem failed_reload_keeps_state read toml conf s msg e s' :
  ReloadSecurity read toml conf s = ((msg, Some e), s') ->
  match msg with
  | None => s' = s
  | Some _ => (LoadSecretRing read toml conf s).1 = None /\
      s_secretRing s' = s_secretRing (LoadSecretRing read toml conf s).2 /\ s_exportState s' = s_exportState s
  end.
Proof.
  unfold ReloadSecurity.
  assert (forall c x er y, LoadSecretRing read toml c x = (Some er, y) -> y = x) as Hr.
  { intros [c|] x er y; cbn; [|congruence]. unfold loadSecretRing. case_bool_decide; [discriminate|].
    destruct (LoadKeyringFile _ _ _); congruence. }
  assert (forall c x er y, LoadExportSecretRing read toml c x = (Some er, y) -> y = x) as Hx.
  { intros [c|] x er y; cbn; [|congruence]. unfold loadExportSecretRing. case_bool_decide.
    - destruct (EncryptExports c); congruence.
    - destruct (LoadKeyringFile _ _ _); [destruct (negb _); congruence|destruct (EncryptExports c); congruence]. }
  assert (forall c x er y, LoadSecretRing read toml c x = (er, y) -> s_exportState y = s_exportState x) as Hk.
  { intros [c|] x er y; cbn; [|congruence]. unfold loadSecretRing. case_bool_decide; [by intros [= _ <-]|].
    destruct (LoadKeyringFile _ _ _); by intros [= _ <-]. }
  destruct (LoadSecretRing read toml conf s) as [[e1|] s1] eqn:E1; [intros [= <- _ <-]; by eapply Hr|].
  destruct (LoadExportSecretRing read toml conf s1) as [[e2|] s2] eqn:E2; [|discriminate].
  intros [= <- _ <-]. apply Hx in E2 as ->. repeat split. by eapply Hk.
Qed.
End Spec.

Lemma enabled_exports_encrypt_witness :
  exists ct ec kr, ExportEncrypt (ReloadSecurity sample_read sample_toml
      (Some (mkSecurityConfig "" 0 true "ring.toml" 0 0)) start).2 "sk" = Some (Ok ct) /\
    currentExportCrypto (ReloadSecurity sample_read sample_toml
      (Some (mkSecurityConfig "" 0 true "ring.toml" 0 0)) start).2 = Some ec /\ ec_kr ec = Some kr /\
    KeyIDOf ct = Some (ec_activeID ec) /\ Decrypt ct (kr_keys kr) = Ok "sk".
Proof.
  exact (enabled_exports_encrypt (ReloadSecurity sample_read sample_toml
      (Some (mkSecurityConfig "" 0 true "ring.toml" 0 0)) start).2 "sk" (reloaded_step _ _ _ _ reloaded_start)).
Defined.

Lemma failed_reload_keeps_state_witness :
  (ReloadSecurity (fun _ => Err (PlainError "no such file")) sample_toml
     (Some (mkSecurityConfig "gone.toml" 0 true "ring.toml" 0 0)) start).2 = start.
Proof.
  refine (failed_reload_keeps_state (fun _ => Err (PlainError "no such file")) sample_toml
    (Some (mkSecurityConfig "gone.toml" 0 true "ring.toml" 0 0)) start None _ _ _). reflexivity.
Defined.
