(* ===== verification/KeyRotate.v ===== *)
(** The key rotation sweep ([model/keyrotate], [storage/rdb/keyrotate]): the
    sensitive columns, the task table and its single-row lock, and the
    manager that rewrites the columns page by page. *)
From Stdlib Require Import ZArith Lia.
From stdpp Require Import base tactics numbers list strings gmap option sorting.
From S2P Require Import Prelude GoStrings Prog XCrypto.

Local Open Scope string_scope.

(** * Data ([types.go], [tables.go]) *)

Abbreviation Mode := string (only parsing).
Definition ModeReencrypt : Mode := "reencrypt".
Definition ModeDecrypt : Mode := "decrypt".
Abbreviation Status := string (only parsing).
Definition StatusRunning : Status := "running".
Definition StatusSucceeded : Status := "succeeded".
Definition StatusFailed : Status := "failed".
Abbreviation Scope := string (only parsing).
Definition ScopeAll : Scope := "all".
Definition ScopeProviders : Scope := "providers".
Definition ScopeAPIKeys : Scope := "api_keys".

(** [*ErrConflict]: the holder is in the message. *)
Definition ErrConflict (holder : string) : goerr := ConflictError holder.
Definition ErrTaskNotFound : goerr := PlainError "sweep task not found".

Record TableCount : Type := mkCount { tc_Scanned : Z; tc_Rewritten : Z; tc_Skipped : Z }.
Definition noCount : TableCount := mkCount 0 0 0.

Record SweepTask : Type := mkTask {
  st_TaskID : string;
  st_Status : Status;
  st_Mode : Mode;
  st_DryRun : bool;
  st_Scope : Scope;
  st_ActiveKeyID : Z;
  st_Scanned : Z;
  st_Rewritten : Z;
  st_StartedAt : gotime;
  st_FinishedAt : option gotime;
  st_DurationMs : Z;
  st_FailedCause : string;
  st_Summary : option (gmap string TableCount);
  st_HeartbeatAt : gotime;
  st_CreatedBy : string
}.

Record TaskFilter : Type := mkTaskFilter {
  tf_Status : option Status; tf_Mode : option Mode; tf_Scope : option Scope; tf_DryRun : option bool;
  tf_StartTime : option gotime; tf_EndTime : option gotime;
  tf_Page : Z; tf_PageSize : Z; tf_SortBy : string; tf_SortOrder : string
}.

Record SweepTable : Type := mkTable { t_Name : string; t_PKCol : string; t_ValCol : string }.

(** A primary key: a provider's name or an API key's number. *)
Inductive pk : Type := PKStr (s : string) | PKInt (z : Z).
#[export] Instance pk_eq_dec : EqDecision pk.
Proof. solve_decision. Defined.

Record RowRef : Type := mkRow { PK : pk; r_Value : string }.

Definition sweepTables : list SweepTable :=
  [mkTable "providers" "name" "api_keys"; mkTable "api_keys" "inner_id" "api_key"].

Definition TablesForScope (scope : Scope) : list SweepTable :=
  if bool_decide (scope = ScopeProviders) then take 1 sweepTables
  else if bool_decide (scope = ScopeAPIKeys) then drop 1 sweepTables
  else sweepTables.

(** * Storage *)

(** The order of a string key column is that of its collation. *)
Class Collation : Type := coll_lt : string -> string -> bool.

Definition pk_lt `{!Collation} (a b : pk) : bool :=
  match a, b with
  | PKStr a, PKStr b => coll_lt a b
  | PKInt a, PKInt b => (a <? b)%Z
  | PKStr _, PKInt _ => false
  | PKInt _, PKStr _ => false
  end.

(** A sensitive column: the rows in the order of the primary key, a value
    may be NULL. *)
Abbreviation column := (list (pk * option string)).

Definition scanRow (r : pk * option string) : RowRef := mkRow r.1 (default "" r.2).

Definition after `{!Collation} (cursor : option pk) (k : pk) : bool :=
  match cursor with None => true | Some c => pk_lt c k end.

(** SELECT … WHERE pk > cursor ORDER BY pk LIMIT n *)
Definition list_rows `{!Collation} (cursor : option pk) (limit : Z) (c : column) : list RowRef :=
  take (Z.to_nat limit) (map scanRow (List.filter (fun r => after cursor r.1) c)).

Definition rewrite_row (k : pk) (value : string) (c : column) : column :=
  map (fun r => if bool_decide (r.1 = k) then (r.1, Some value) else r) c.

(** [taskFilterWhere] *)
Definition taskFilterWhere (f : TaskFilter) (t : SweepTask) : bool :=
  match tf_Status f with Some s => bool_decide (st_Status t = s) | None => true end &&
  match tf_Mode f with Some s => bool_decide (st_Mode t = s) | None => true end &&
  match tf_Scope f with Some s => bool_decide (st_Scope t = s) | None => true end &&
  match tf_DryRun f with Some b => bool_decide (st_DryRun t = b) | None => true end &&
  match tf_StartTime f with Some u => (u <=? st_StartedAt t)%Z | None => true end &&
  match tf_EndTime f with Some u => (st_StartedAt t <=? u)%Z | None => true end.

(** ORDER BY a column, ascending; DESC is the reverse of it. *)
Definition started_le (a b : SweepTask) : Prop := (st_StartedAt a <= st_StartedAt b)%Z.
#[export] Instance started_le_dec a b : Decision (started_le a b).
Proof. unfold started_le. apply _. Defined.
Definition taskid_le (a b : SweepTask) : Prop := String.leb (st_TaskID a) (st_TaskID b) = true.
#[export] Instance taskid_le_dec a b : Decision (taskid_le a b).
Proof. unfold taskid_le. apply _. Defined.

Definition list_tasks (byID asc : bool) (limit offset : Z) (f : TaskFilter) (l : list SweepTask) : list SweepTask :=
  let hits := List.filter (taskFilterWhere f) l in
  let sorted := if byID then merge_sort taskid_le hits else merge_sort started_le hits in
  take (Z.to_nat limit) (drop (Z.to_nat offset) (if asc then sorted else rev sorted)).

(** * Calls *)

Inductive sweepE : Type -> Type :=
(* statements on the sensitive columns *)
| ListRowsQ (t : SweepTable) (cursor : option pk) (limit : Z) : sweepE (result (list RowRef))
| RewriteRowQ (t : SweepTable) (k : pk) (value : string) : sweepE (result unit)
(* statements on keyrotate_sweep_tasks *)
| TaskByIDQ (id : string) : sweepE (result (option SweepTask))
| FailLostQ (id cause : string) (now : gotime) : sweepE (result unit)
| InsertTaskQ (t : SweepTask) : sweepE (result unit)
| AddProgressQ (id : string) (scanned rewritten : Z) (now : gotime) : sweepE (result unit)
| FinishTaskQ (id : string) (status : Status) (cause : string) (summary : gmap string TableCount)
    (now : gotime) (durationMs : Z) : sweepE (result unit)
| CountTasksQ (f : TaskFilter) : sweepE (result Z)
| ListTasksQ (byID asc : bool) (limit offset : Z) (f : TaskFilter) : sweepE (result (list SweepTask))
(* statements on keyrotate_sweep_lock *)
| HolderForUpdateQ : sweepE (result string)
| SetHolderQ (id : string) : sweepE (result unit)
| ReleaseHolderQ (id : string) : sweepE (result unit)
(* transactions *)
| SweepBegin : sweepE (result unit)
| SweepCommit : sweepE (result unit)
| SweepRollback : sweepE unit
(* the runtime *)
| ReadRing : sweepE (option Keyring)
| RandRead : sweepE (result string)
| SweepNow : sweepE gotime
| SweepSleep (ms : Z) : sweepE unit
| NewTaskUUID : sweepE string
| GoRun (t : SweepTask) : sweepE unit.

(** * The world *)

(** What a transaction can take back. *)
Record sdata : Type := mkSData {
  sd_columns : gmap string column;
  sd_tasks : list SweepTask;
  (** the row of the lock table, if it is there *)
  sd_holder : option string
}.

Record sworld : Type := mkSWorld {
  sw_data : sdata;
  sw_saved : option sdata;
  (** what the n-th reading of the keyring, of the random source, of the
      clock and of the UUID generator gives *)
  sw_rings : nat -> option Keyring;
  sw_nonces : nat -> string;
  sw_clock : nat -> gotime;
  sw_uuids : nat -> string;
  sw_reads : nat;
  (** what a time reads back as from a DATETIME column *)
  sw_datetime : gotime -> gotime;
  (** the runs that have been started *)
  sw_running : list SweepTask
}.

Definition put_data (d : sdata) (w : sworld) : sworld :=
  mkSWorld d (sw_saved w) (sw_rings w) (sw_nonces w) (sw_clock w) (sw_uuids w) (sw_reads w) (sw_datetime w) (sw_running w).
Definition put_saved (s : option sdata) (w : sworld) : sworld :=
  mkSWorld (sw_data w) s (sw_rings w) (sw_nonces w) (sw_clock w) (sw_uuids w) (sw_reads w) (sw_datetime w) (sw_running w).
Definition tick (w : sworld) : sworld :=
  mkSWorld (sw_data w) (sw_saved w) (sw_rings w) (sw_nonces w) (sw_clock w) (sw_uuids w) (S (sw_reads w)) (sw_datetime w) (sw_running w).
Definition put_run (t : SweepTask) (w : sworld) : sworld :=
  mkSWorld (sw_data w) (sw_saved w) (sw_rings w) (sw_nonces w) (sw_clock w) (sw_uuids w) (sw_reads w) (sw_datetime w)
    (sw_running w ++ [t])%list.

Definition column_of (t : SweepTable) (d : sdata) : column := default [] (sd_columns d !! t_Name t).
Definition put_column (t : SweepTable) (c : column) (d : sdata) : sdata :=
  mkSData (<[t_Name t := c]> (sd_columns d)) (sd_tasks d) (sd_holder d).
Definition put_tasks (l : list SweepTask) (d : sdata) : sdata := mkSData (sd_columns d) l (sd_holder d).
Definition put_holder (h : option string) (d : sdata) : sdata := mkSData (sd_columns d) (sd_tasks d) h.

Definition is_task (id : string) (t : SweepTask) : bool := bool_decide (st_TaskID t = id).
Definition on_task (id : string) (f : SweepTask -> SweepTask) (l : list SweepTask) : list SweepTask :=
  map (fun t => if is_task id t then f t else t) l.

(** SET status, error, finished_at … WHERE status = 'running' *)
Definition fail_lost (cause : string) (now : gotime) (t : SweepTask) : SweepTask :=
  if bool_decide (st_Status t = StatusRunning)
  then mkTask (st_TaskID t) StatusFailed (st_Mode t) (st_DryRun t) (st_Scope t) (st_ActiveKeyID t) (st_Scanned t)
         (st_Rewritten t) (st_StartedAt t) (Some now) (st_DurationMs t) cause (st_Summary t) (st_HeartbeatAt t) (st_CreatedBy t)
  else t.
Definition add_progress (scanned rewritten : Z) (now : gotime) (t : SweepTask) : SweepTask :=
  mkTask (st_TaskID t) (st_Status t) (st_Mode t) (st_DryRun t) (st_Scope t) (st_ActiveKeyID t)
    (st_Scanned t + scanned) (st_Rewritten t + rewritten) (st_StartedAt t) (st_FinishedAt t) (st_DurationMs t)
    (st_FailedCause t) (st_Summary t) now (st_CreatedBy t).
Definition finish_task (status : Status) (cause : string) (summary : gmap string TableCount) (now : gotime)
  (ms : Z) (t : SweepTask) : SweepTask :=
  mkTask (st_TaskID t) status (st_Mode t) (st_DryRun t) (st_Scope t) (st_ActiveKeyID t) (st_Scanned t)
    (st_Rewritten t) (st_StartedAt t) (Some now) ms cause (Some summary) now (st_CreatedBy t).
(** The row that INSERT makes of a task. *)
Definition new_row (dt : gotime -> gotime) (t : SweepTask) : SweepTask :=
  mkTask (st_TaskID t) (st_Status t) (st_Mode t) (st_DryRun t) (st_Scope t) (st_ActiveKeyID t) 0 0
    (dt (st_StartedAt t)) None 0 "" None (dt (st_HeartbeatAt t)) (st_CreatedBy t).

Section Sweep.
Context `{!Collation}.

Definition sweep_handle {R} (e : sweepE R) : sworld -> R * sworld :=
  match e in sweepE R return sworld -> R * sworld with
  | ListRowsQ t cursor limit => fun w => (Ok (list_rows cursor limit (column_of t (sw_data w))), w)
  | RewriteRowQ t k v => fun w =>
      (Ok tt, put_data (put_column t (rewrite_row k v (column_of t (sw_data w))) (sw_data w)) w)
  | TaskByIDQ id => fun w => (Ok (List.find (is_task id) (sd_tasks (sw_data w))), w)
  | FailLostQ id cause now => fun w =>
      (Ok tt, put_data (put_tasks (on_task id (fail_lost cause (sw_datetime w now)) (sd_tasks (sw_data w))) (sw_data w)) w)
  | InsertTaskQ t => fun w =>
      if existsb (is_task (st_TaskID t)) (sd_tasks (sw_data w)) then (Err DaoError, w)
      else (Ok tt, put_data (put_tasks (sd_tasks (sw_data w) ++ [new_row (sw_datetime w) t])%list (sw_data w)) w)
  | AddProgressQ id s r now => fun w =>
      (Ok tt, put_data (put_tasks (on_task id (add_progress s r (sw_datetime w now)) (sd_tasks (sw_data w))) (sw_data w)) w)
  | FinishTaskQ id st cause sum now ms => fun w =>
      (Ok tt, put_data (put_tasks (on_task id (finish_task st cause sum (sw_datetime w now) ms) (sd_tasks (sw_data w)))
                 (sw_data w)) w)
  | CountTasksQ f => fun w => (Ok (Z.of_nat (length (List.filter (taskFilterWhere f) (sd_tasks (sw_data w))))), w)
  | ListTasksQ byID asc limit offset f => fun w =>
      (Ok (list_tasks byID asc limit offset f (sd_tasks (sw_data w))), w)
  | HolderForUpdateQ => fun w =>
      (match sd_holder (sw_data w) with Some h => Ok h | None => Err DaoError end, w)
  | SetHolderQ id => fun w =>
      (Ok tt, put_data (put_holder ((fun _ => id) <$> sd_holder (sw_data w)) (sw_data w)) w)
  | ReleaseHolderQ id => fun w =>
      (Ok tt, put_data (put_holder ((fun h => if bool_decide (h = id) then "" else h) <$> sd_holder (sw_data w))
                 (sw_data w)) w)
  | SweepBegin => fun w => (Ok tt, put_saved (Some (sw_data w)) w)
  | SweepCommit => fun w => (Ok tt, put_saved None w)
  | SweepRollback => fun w => (tt, put_saved None (put_data (default (sw_data w) (sw_saved w)) w))
  | ReadRing => fun w => (sw_rings w (sw_reads w), tick w)
  | RandRead => fun w => (Ok (sw_nonces w (sw_reads w)), tick w)
  | SweepNow => fun w => (sw_clock w (sw_reads w), tick w)
  | SweepSleep _ => fun w => (tt, w)
  | NewTaskUUID => fun w => (sw_uuids w (sw_reads w), tick w)
  | GoRun t => fun w => (tt, put_run t w)
  end.

(** Every statement can fail, and so can the random source. *)
Definition sweep_fault {R} (e : sweepE R) : option R :=
  match e in sweepE R return option R with
  | ListRowsQ _ _ _ => Some (Err DaoError)
  | RewriteRowQ _ _ _ => Some (Err DaoError)
  | TaskByIDQ _ => Some (Err DaoError)
  | FailLostQ _ _ _ => Some (Err DaoError)
  | InsertTaskQ _ => Some (Err DaoError)
  | AddProgressQ _ _ _ _ => Some (Err DaoError)
  | FinishTaskQ _ _ _ _ _ _ => Some (Err DaoError)
  | CountTasksQ _ => Some (Err DaoError)
  | ListTasksQ _ _ _ _ _ => Some (Err DaoError)
  | HolderForUpdateQ => Some (Err DaoError)
  | SetHolderQ _ => Some (Err DaoError)
  | ReleaseHolderQ _ => Some (Err DaoError)
  | SweepBegin => Some (Err DaoError)
  | SweepCommit => Some (Err DaoError)
  | SweepRollback => None
  | ReadRing => None
  | RandRead => Some (Err (PlainError "rand"))
  | SweepNow => None
  | SweepSleep _ => None
  | NewTaskUUID => None
  | GoRun _ => None
  end.

#[export] Instance sweep_interp : Interp sweepE sworld := {|
  handle := @sweep_handle;
  fault := @sweep_fault
|}.

#[export] Instance sweep_txn : TxnCalls sweepE := {|
  tx_begin := SweepBegin;
  tx_commit := SweepCommit;
  tx_rollback := SweepRollback;
  is_commit := fun R (e : sweepE R) => match e with SweepCommit => true | _ => false end
|}.
End Sweep.

(** An operation that gives only an error. *)
Definition only_err (r : option goerr * unit) : option goerr := r.1.
Definition err_of (r : result unit) : option goerr := match r with Ok _ => None | Err e => Some e end.

(** * The storager ([storage/rdb/keyrotate/keyrotate.go]) *)

(** The end of the closure: INSERT the task and take the lock. *)
Definition insert_task (task : SweepTask) : prog sweepE (option goerr * unit) :=
  i <- call (InsertTaskQ task) ;;
  match i with
  | Err e => Ret (Some e, tt)
  | Ok _ => s <- call (SetHolderQ (st_TaskID task)) ;; Ret (err_of s, tt)
  end.

Definition acquire_body (heartbeatTTL : Z) (task : SweepTask) : prog sweepE (option goerr * unit) :=
  h <- call HolderForUpdateQ ;;
  match h with
  | Err e => Ret (Some e, tt)
  | Ok holder =>
      if bool_decide (holder = "") then insert_task task else
      r <- call (TaskByIDQ holder) ;;
      match r with
      | Err e => Ret (Some e, tt)
      | Ok (Some row) =>
          if bool_decide (st_Status row = StatusRunning) then
            now <- call SweepNow ;;
            if (time_Sub now (st_HeartbeatAt row) <? heartbeatTTL)%Z then Ret (Some (ErrConflict holder), tt) else
            now' <- call SweepNow ;;
            f <- call (FailLostQ holder "executor lost" now') ;;
            match f with Err e => Ret (Some e, tt) | Ok _ => insert_task task end
          else insert_task task
      | Ok None => insert_task task
      end
  end.

Definition AcquireTask (heartbeatTTL : Z) (task : SweepTask) : prog sweepE (option goerr) :=
  r <- AtomExecute tt (acquire_body heartbeatTTL task) ;;
  Ret (only_err r).

Definition GetTask (taskID : string) : prog sweepE (result SweepTask) :=
  r <-? call (TaskByIDQ taskID) ;;
  match r with Some t => Ret (Ok t) | None => Ret (Err ErrTaskNotFound) end.

Definition ListTasks (f : TaskFilter) : prog sweepE (result (list SweepTask * Z)) :=
  total <-? call (CountTasksQ f) ;;
  let byID := bool_decide (tf_SortBy f = "task_id") in
  let asc := EqualFold (tf_SortOrder f) "asc" in
  let offset := Z.max 0 ((tf_Page f - 1) * tf_PageSize f) in
  rows <-? call (ListTasksQ byID asc (tf_PageSize f) offset f) ;;
  Ret (Ok (rows, total)).

Definition AddProgress (taskID : string) (scanned rewritten : Z) : prog sweepE (option goerr) :=
  now <- call SweepNow ;;
  r <- call (AddProgressQ taskID scanned rewritten now) ;;
  Ret (err_of r).

Definition finish_body (taskID : string) (status : Status) (cause : string) (summary : gmap string TableCount)
  (duration : Z) : prog sweepE (option goerr * unit) :=
  now <- call SweepNow ;;
  f <- call (FinishTaskQ taskID status cause summary now (Z.quot duration 1000000)) ;;
  match f with
  | Err e => Ret (Some e, tt)
  | Ok _ => s <- call (ReleaseHolderQ taskID) ;; Ret (err_of s, tt)
  end.

Definition FinishTask (taskID : string) (status : Status) (cause : string) (summary : gmap string TableCount)
  (duration : Z) : prog sweepE (option goerr) :=
  r <- AtomExecute tt (finish_body taskID status cause summary duration) ;;
  Ret (only_err r).

(** * The manager ([model/keyrotate/manager.go]) *)

Definition DefaultBatchSize : Z := 100.
Definition DefaultHeartbeatTTL : Z := 5 * minute.
Definition defaultMaxBatchAttempts : nat := 3.

Section Manager.
Context {CR : Crypto}.

Definition decryptWith (kr : option Keyring) (value : string) : result string :=
  match kr with None => Ok value | Some kr => Keyring_Decrypt kr value end.

(** [Ok None] is [skip]. *)
Definition transform (mode : Mode) (value : string) : prog sweepE (result (option string)) :=
  kr <- call ReadRing ;;
  if bool_decide (mode = ModeDecrypt) then
    if negb (IsEncrypted value) then Ret (Ok None) else
    match decryptWith kr value with
    | Err e => Ret (Err e)
    | Ok pt => Ret (Ok (Some pt))
    end
  else
    if IsEncrypted value &&
       match KeyIDOf value, kr with Some id, Some k => (id =? ActiveID k)%N | _, _ => false end
    then Ret (Ok None) else
    match decryptWith kr value with
    | Err e => Ret (Err e)
    | Ok pt =>
        match kr with
        | None => Ret (Ok None)
        | Some k =>
            nonce <- call RandRead ;;
            match Keyring_Encrypt nonce k pt with
            | Err e => Ret (Err e)
            | Ok ct => Ret (Ok (Some ct))
            end
        end
    end.

Definition skipped (c : TableCount) : TableCount := mkCount (tc_Scanned c) (tc_Rewritten c) (tc_Skipped c + 1).
Definition rewritten (c : TableCount) : TableCount := mkCount (tc_Scanned c) (tc_Rewritten c + 1) (tc_Skipped c).

(** The loop over the rows of a page: the error, the counters of the table,
    which the caller shares, and the rows that were rewritten. *)
Fixpoint rewrite_rows (task : SweepTask) (tbl : SweepTable) (rows : list RowRef) (cnt : TableCount) (rew : Z)
  : prog sweepE (option goerr * (TableCount * Z)) :=
  match rows with
  | [] => Ret (None, (cnt, rew))
  | row :: rows' =>
      t <- transform (st_Mode task) (r_Value row) ;;
      match t with
      | Err _ => Ret (Some (PlainError "%s pk=%v: decrypt fail (keyID=%d)"), (cnt, rew))
      | Ok None => rewrite_rows task tbl rows' (skipped cnt) rew
      | Ok (Some target) =>
          if st_DryRun task then rewrite_rows task tbl rows' (rewritten cnt) (rew + 1)%Z else
          r <- call (RewriteRowQ tbl (PK row) target) ;;
          match r with
          | Err e => Ret (Some e, (cnt, rew))
          | Ok _ => rewrite_rows task tbl rows' (rewritten cnt) (rew + 1)%Z
          end
      end
  end.

Definition execBatchOnce (task : SweepTask) (tbl : SweepTable) (rows : list RowRef) (cnt : TableCount)
  : prog sweepE (option goerr * TableCount) :=
  AtomExecute cnt
    (r <- rewrite_rows task tbl rows cnt 0 ;;
     AddProgress (st_TaskID task) (Z.of_nat (length rows)) r.2.2 ;;
     Ret (r.1, r.2.1)).

Fixpoint execBatch_loop (attempts : nat) (attempt : Z) (task : SweepTask) (tbl : SweepTable) (rows : list RowRef)
  (cnt : TableCount) : prog sweepE (option goerr * TableCount) :=
  match attempts with
  | O => Ret (Some (PlainError "rewrite %s batch: %v (after %d attempts)"), cnt)
  | S n =>
      (if (0 <? attempt)%Z then call (SweepSleep (attempt * 200)) else Ret tt) ;;
      r <- execBatchOnce task tbl rows cnt ;;
      match r with
      | (None, cnt') => Ret (None, cnt')
      | (Some _, cnt') => execBatch_loop n (attempt + 1)%Z task tbl rows cnt'
      end
  end.
Definition execBatch (task : SweepTask) (tbl : SweepTable) (rows : list RowRef) (cnt : TableCount)
  : prog sweepE (option goerr * TableCount) :=
  execBatch_loop defaultMaxBatchAttempts 0 task tbl rows cnt.

(** The loop over the pages; [None] when [fuel] pages were not enough. *)
Fixpoint sweepTable_loop (fuel : nat) (batchSize : Z) (task : SweepTask) (tbl : SweepTable) (cursor : option pk)
  (cnt : TableCount) : prog sweepE (option (option goerr * TableCount)) :=
  match fuel with
  | O => Ret None
  | S fuel =>
      l <- call (ListRowsQ tbl cursor batchSize) ;;
      match l with
      | Err _ => Ret (Some (Some (PlainError "scan %s: %v"), cnt))
      | Ok rows =>
          match last rows with
          | None => Ret (Some (None, cnt))
          | Some lastRow =>
              r <- execBatch task tbl rows cnt ;;
              match r with
              | (Some e, cnt') => Ret (Some (Some e, cnt'))
              | (None, cnt') => sweepTable_loop fuel batchSize task tbl (Some (PK lastRow)) cnt'
              end
          end
      end
  end.
Definition sweepTable (fuel : nat) (batchSize : Z) (task : SweepTask) (tbl : SweepTable)
  : prog sweepE (option (option goerr * TableCount)) :=
  sweepTable_loop fuel batchSize task tbl None noCount.

(** The loop over the tables: the first error and the summary. *)
Fixpoint run_tables (fuel : nat) (batchSize : Z) (task : SweepTask) (tbls : list SweepTable) (firstErr : option goerr)
  (summary : gmap string TableCount) : prog sweepE (option (option goerr * gmap string TableCount)) :=
  match tbls with
  | [] => Ret (Some (firstErr, summary))
  | tbl :: tbls' =>
      r <- sweepTable fuel batchSize task tbl ;;
      match r with
      | None => Ret None
      | Some (err, cnt) =>
          run_tables fuel batchSize task tbls' (match firstErr with None => err | e => e end)
            (<[t_Name tbl := cnt]> summary)
      end
  end.

(** The text of an error. *)
Definition error_text (e : goerr) : string :=
  match e with
  | PlainError m => m
  | ParamError m => m
  | ModelError m => m
  | ConflictError m => "another reencrypt sweep is running: " +:+ m
  | UpstreamError m => m
  | RecordNotExist k | RecordExisted k | DuplicateData k => k
  | DirtyDataError m | DependentUnReady m | AuthenticateFail m | AuthorizateFail m => m
  | DaoError => "dao"
  | RedisError => "redis"
  | TransportError => "transport"
  end.

Definition run (fuel : nat) (batchSize : Z) (task : SweepTask) : prog sweepE (option unit) :=
  started <- call SweepNow ;;
  r <- run_tables fuel batchSize task (TablesForScope (st_Scope task)) None ∅ ;;
  match r with
  | None => Ret None
  | Some (firstErr, summary) =>
      let status := match firstErr with Some _ => StatusFailed | None => StatusSucceeded end in
      let cause := match firstErr with Some e => error_text e | None => "" end in
      let cause := if st_DryRun task then "dry_run" else cause in
      now <- call SweepNow ;;
      FinishTask (st_TaskID task) status cause summary (time_Sub now started) ;;
      Ret (Some tt)
  end.

(** The task that is running instead comes with the conflict. *)
Definition Trigger (heartbeatTTL : Z) (mode : Mode) (dryRun : bool) (scope : Scope) (operator : string)
  : prog sweepE (option SweepTask * option goerr) :=
  let mode := if bool_decide (mode = "") then ModeReencrypt else mode in
  if negb (bool_decide (mode = ModeReencrypt)) && negb (bool_decide (mode = ModeDecrypt))
  then Ret (None, Some (PlainError "invalid mode %q")) else
  let scope := if bool_decide (scope = "") then ScopeAll else scope in
  if negb (bool_decide (scope = ScopeAll)) && negb (bool_decide (scope = ScopeProviders)) && negb (bool_decide (scope = ScopeAPIKeys))
  then Ret (None, Some (PlainError "invalid scope %q")) else
  now <- call SweepNow ;;
  activeID <- (if negb (bool_decide (mode = ModeDecrypt))
               then kr <- call ReadRing ;; Ret (match kr with Some k => Z.of_N (ActiveID k) | None => 0%Z end)
               else Ret 0%Z) ;;
  uuid <- call NewTaskUUID ;;
  let task := mkTask ("rsp-" +:+ String.substring 0 20 uuid) StatusRunning mode dryRun scope activeID 0 0 now None 0 ""
                None now operator in
  r <- AcquireTask heartbeatTTL task ;;
  match r with
  | Some (ConflictError holder) =>
      Ret (Some (mkTask holder StatusRunning "" false "" 0 0 0 0 None 0 "" None 0 ""), Some (ErrConflict holder))
  | Some e => Ret (None, Some e)
  | None => call (GoRun task) ;; Ret (Some task, None)
  end.
End Manager.

(** A sample world for the sweep: two providers and one API key, one value in
    plain text, one sealed with the old key, one with the active key. *)

(** A collation that orders names by their length. *)
#[export] Instance length_collation : Collation := fun a b => (String.length a <? String.length b)%nat.

Lemma length_collation_strict : StrictOrder (fun a b => coll_lt a b = true).
Proof.
  split.
  - intros a Ha. apply Nat.ltb_lt in Ha. lia.
  - intros a b c Ha Hb. apply Nat.ltb_lt in Ha, Hb. apply Nat.ltb_lt. lia.
Qed.

Definition sealed_with (k : Keyring) (pt : string) : string :=
  match Keyring_Encrypt (Ok "nonce0123456") k pt with Ok ct => ct | Err _ => "" end.

Definition sample_columns : gmap string column :=
  {["providers" := [(PKStr "p", Some "[keys]"); (PKStr "qq", Some (sealed_with old_ring "sk-2"))];
    "api_keys" := [(PKInt 7, Some (sealed_with sample_ring "sk-3")); (PKInt 9, None)]]}.

Definition sample_task (id : string) (mode : Mode) : SweepTask :=
  mkTask id StatusRunning mode false ScopeAll 2 0 0 0 None 0 "" None 0 "root".

Definition sample_sweep : sworld :=
  mkSWorld (mkSData sample_columns [sample_task "rsp-1" ModeReencrypt] (Some "rsp-1")) None
    (fun _ => Some sample_ring) (fun _ => "nonce6543210") (fun n => Z.of_nat n * second)%Z (fun _ => "uuid") 0 (fun t => t) [].
