(* ===== verification/KeyRotateSpec.v ===== *)
(** What a key rotation sweep promises.  It never changes a secret, whatever
    fails and whatever else runs; it ends; and without failures every row it
    covers carries the active key afterwards. *)
From Stdlib Require Import ZArith Lia.
From stdpp Require Import base tactics numbers list strings gmap option sorting.
From S2P Require Import Prelude GoStrings Prog XCrypto XCryptoSpec KeyRotate.

Local Open Scope string_scope.

Section Safety.
Context {CR : Crypto} {CL : CryptoLaws} `{!Collation}.

(** * The secrets

    The abstract state of a column is the secret of every row, decrypted with
    a keyring [K] that has all keys ever used. *)
Variable K : Keyring.
Hypothesis HK : keyring_wf K.

Definition secret (v : option string) : result string := Keyring_Decrypt K (default "" v).
Definition column_secrets (c : column) : list (pk * result string) := map (fun r => (r.1, secret r.2)) c.
Definition secrets (d : sdata) : gmap string (list (pk * result string)) := column_secrets <$> sd_columns d.

(** A ring in service: well formed, with keys of [K] only. *)
Definition subring (k : Keyring) : Prop :=
  keyring_wf k /\ forall id key, kr_encKeys k !! id = Some key -> kr_encKeys K !! id = Some key.
Definition ring_ok (r : option Keyring) : Prop := match r with Some k => subring k | None => True end.

Lemma subring_decrypts k v pt : subring k -> Keyring_Decrypt k v = Ok pt -> Keyring_Decrypt K v = Ok pt.
Proof.
  intros [Hw Hs]. unfold Keyring_Decrypt. destruct (IsEncrypted v); [|done]. cbn [negb].
  destruct (envelopeKeyID v) as [id|]; [|done].
  destruct (kr_encKeys k !! id) as [key|] eqn:E; [|done]. by rewrite (Hs id key E).
Qed.

Lemma subring_encrypts k nonce v ct : subring k -> String.length nonce = 12 ->
  Keyring_Encrypt (Ok nonce) k v = Ok ct -> Keyring_Decrypt K ct = Ok v.
Proof.
  intros [Hw Hs] Hn. destruct (Keyring_Encrypt_works k nonce v Hw) as (key & Hk & ->). intros [= <-].
  apply Keyring_Decrypt_pack; auto.
Qed.

(** Secrets never look like envelopes themselves: what a decrypting sweep
    relies on. *)
Definition unmarked (V : gmap string (list (pk * result string))) : Prop :=
  forall name rows k pt, V !! name = Some rows -> (k, Ok pt) ∈ rows -> IsEncrypted pt = false.

(** * Every sweep keeps the secrets *)

Section View.
Variable V : gmap string (list (pk * result string)).
Hypothesis Hkeys : forall name rows, V !! name = Some rows -> NoDup rows.*1.

Definition rows_of (t : SweepTable) : list (pk * result string) := default [] (V !! t_Name t).

Definition view_inv (w : sworld) : Prop :=
  secrets (sw_data w) = V /\ match sw_saved w with Some d => secrets d = V | None => True end /\
  (forall n, ring_ok (sw_rings w n)) /\ (forall n, String.length (sw_nonces w n) = 12).

(** The rewrites that a sweep may do, and the answers that it can get. *)
Definition keeps_secret (R : Type) (e : sweepE R) : Prop :=
  match e with
  | RewriteRowQ t k v => (k, Keyring_Decrypt K v) ∈ rows_of t
  | _ => True
  end.
Definition view_answer (R : Type) (e : sweepE R) : R -> Prop :=
  match e in sweepE R return R -> Prop with
  | ListRowsQ t _ _ => fun r => match r with
      | Ok rows => Forall (fun row => (PK row, Keyring_Decrypt K (r_Value row)) ∈ rows_of t) rows
      | Err _ => True end
  | ReadRing => ring_ok
  | RandRead => fun r => match r with Ok n => String.length n = 12 | Err _ => True end
  | _ => fun _ => True
  end.

Lemma secrets_of t d : secrets d = V -> column_secrets (column_of t d) = rows_of t.
Proof.
  intros Hd. unfold rows_of, column_of. rewrite <- Hd. unfold secrets. rewrite lookup_fmap.
  by destruct (sd_columns d !! t_Name t).
Qed.

(** Two rows of a column with the same key are the same row. *)
Lemma same_key t k a b : (k, a) ∈ rows_of t -> (k, b) ∈ rows_of t -> a = b.
Proof.
  unfold rows_of. destruct (V !! t_Name t) as [rows|] eqn:E; simpl; [|intros []%not_elem_of_nil].
  specialize (Hkeys _ _ E). clear E. induction rows as [|[k' c] rows IH]; [intros []%not_elem_of_nil|].
  simpl in Hkeys. apply list.NoDup_cons in Hkeys as [Hn Hd]. rewrite !elem_of_cons.
  intros [Ha|Ha] [Hb|Hb]; simplify_eq; [done|..|by apply IH]; destruct Hn; apply list_elem_of_fmap; [exists (k', b)|exists (k', a)]; done.
Qed.

Lemma rewrite_keeps t k v d : secrets d = V -> (k, Keyring_Decrypt K v) ∈ rows_of t ->
  secrets (put_column t (rewrite_row k v (column_of t d)) d) = V.
Proof.
  intros Hd Hin. pose proof (secrets_of t d Hd) as Ht.
  assert (column_secrets (rewrite_row k v (column_of t d)) = column_secrets (column_of t d)) as He.
  { unfold column_secrets, rewrite_row. rewrite map_map. apply map_ext_in. intros [k' v'] Hr. cbn [fst snd].
    case_bool_decide as Hk; [subst k'|done]. f_equal. unfold secret at 1. cbn [default].
    apply (same_key t k); [done|]. rewrite <- Ht. apply list_elem_of_In, in_map_iff. by exists (k, v'). }
  unfold secrets, put_column. cbn [sd_columns]. rewrite fmap_insert, He, Ht.
  fold (secrets d). rewrite Hd. unfold rows_of in *.
  destruct (V !! t_Name t) as [rows|] eqn:E; [by apply insert_id|]. by apply not_elem_of_nil in Hin.
Qed.

Lemma view_step R (e : sweepE R) w o : view_inv w -> keeps_secret R e ->
  view_inv (answer o e w).2 /\ True /\ view_answer R e (answer o e w).1.
Proof.
  intros (Hd & Hs & Hr & Hn) He.
  assert (view_inv (handle e w).2 /\ view_answer R e (handle e w).1) as [H1 H2].
  { destruct e; cbn; try (split; [by repeat split|done]).
    - split; [by repeat split|]. rewrite <- (secrets_of t _ Hd). apply Forall_forall. intros row Hin.
      unfold list_rows in Hin. apply elem_of_take in Hin as (i & Hi & _).
      apply list_elem_of_lookup_2, list_elem_of_fmap in Hi as (r & -> & Hf).
      apply list_elem_of_In, filter_In in Hf as [Hf _]. apply list_elem_of_In, in_map_iff. by exists r.
    - split; [|done]. split; [|by repeat split]. by apply rewrite_keeps.
    - destruct (existsb _ _); split; by repeat split.
    - split; [|done]. split; [|by repeat split]. destruct (sw_saved w); simpl; done. }
  assert (forall r, fault e = Some r -> view_answer R e r) as Hf.
  { intros r Hf. destruct e; cbn in Hf |- *; try done; by injection Hf as <-. }
  assert (view_inv w) as H0 by (by repeat split).
  unfold answer. destruct o, (fault e) as [r|]; cbn [fst snd]; (split; [done|split; [done|auto]]).
Qed.

Abbreviation safe := (guarded keeps_secret view_answer).

(** What [transform] writes has the secret of the row. *)
Lemma safe_transform t row mode :
  (PK row, Keyring_Decrypt K (r_Value row)) ∈ rows_of t -> (mode = ModeDecrypt -> unmarked V) ->
  safe (fun r => forall v, r = Ok (Some v) -> (PK row, Keyring_Decrypt K v) ∈ rows_of t) (transform mode (r_Value row)).
Proof.
  intros Hin Hm. constructor; [done|]. intros kr Hkr. cbn [view_answer] in Hkr.
  assert (forall k pt, kr = Some k -> Keyring_Decrypt k (r_Value row) = Ok pt -> (PK row, Ok pt) ∈ rows_of t) as Hdec.
  { intros k pt -> Hp. apply (subring_decrypts k) in Hp; [|done]. by rewrite <- Hp. }
  case_bool_decide as Hmode.
  - specialize (Hm Hmode). destruct (negb (IsEncrypted (r_Value row))); [by constructor|].
    destruct kr as [k|]; cbn [decryptWith]; [|constructor; by intros v [= <-]].
    destruct (Keyring_Decrypt k (r_Value row)) as [pt|e] eqn:Ed; constructor; [|done]. intros v [= <-].
    specialize (Hdec _ _ eq_refl Ed). unfold Keyring_Decrypt at 1. unfold rows_of in *.
    destruct (V !! t_Name t) as [rows|] eqn:Ev; [|by apply not_elem_of_nil in Hdec].
    by rewrite (Hm _ _ _ _ Ev Hdec).
  - destruct (_ && _); [by constructor|]. destruct kr as [k|]; cbn [decryptWith]; [|by constructor].
    destruct (Keyring_Decrypt k (r_Value row)) as [pt|e] eqn:Ed; [|by constructor].
    specialize (Hdec _ _ eq_refl Ed). constructor; [done|]. intros [nonce|e] Hn; cbn [view_answer] in Hn.
    + destruct (Keyring_Encrypt (Ok nonce) k pt) as [ct|e] eqn:Ec; constructor; [|done]. intros v [= <-].
      by rewrite (subring_encrypts k nonce pt ct).
    + unfold Keyring_Encrypt, Encrypt. destruct (kr_encKeys k !! kr_active k); [|by constructor].
      repeat (destruct (negb _); [by constructor|]). by constructor.
Qed.

Lemma safe_rows task tbl rows cnt rew : (st_Mode task = ModeDecrypt -> unmarked V) ->
  Forall (fun row => (PK row, Keyring_Decrypt K (r_Value row)) ∈ rows_of tbl) rows ->
  safe (fun _ => True) (rewrite_rows task tbl rows cnt rew).
Proof.
  intros Hm Hrows. revert cnt rew. induction Hrows as [|row rows Hin _ IH]; intros cnt rew; [by constructor|].
  eapply guarded_bind; [by apply (safe_transform tbl)|]. intros [[v|]|e] Hv; [|apply IH|by constructor].
  destruct (st_DryRun task); [apply IH|]. constructor; [by apply Hv|]. intros [[]|e] _; [apply IH|by constructor].
Qed.

Lemma safe_bind {A B} (p : prog sweepE A) (f : A -> prog sweepE B) :
  safe (fun _ => True) p -> (forall a, safe (fun _ => True) (f a)) -> safe (fun _ => True) (bind p f).
Proof. intros Hp Hf. by apply (guarded_bind _ _ (fun _ => True)). Qed.

Lemma safe_true {A} (p : prog sweepE A) : all_calls keeps_secret p -> safe (fun _ => True) p.
Proof. intros Hp. by apply all_calls_guarded. Qed.

Lemma safe_atomic {A} (init : A) (body : prog sweepE (option goerr * A)) :
  safe (fun _ => True) body -> safe (fun _ => True) (AtomExecute init body).
Proof.
  intros Hb. constructor; [done|]. intros [[]|e] _; [|by constructor]. apply safe_bind; [done|].
  intros [[e|] a]; apply safe_true; by calls_solve ltac:(done).
Qed.

Lemma safe_batch task tbl rows : (st_Mode task = ModeDecrypt -> unmarked V) ->
  Forall (fun row => (PK row, Keyring_Decrypt K (r_Value row)) ∈ rows_of tbl) rows ->
  forall n i cnt, safe (fun _ => True) (execBatch_loop n i task tbl rows cnt).
Proof.
  intros Hm Hrows. induction n as [|n IH]; intros i cnt; [by constructor|].
  apply safe_bind; [apply safe_true; destruct (0 <? i)%Z; by calls_solve ltac:(done)|]. intros [].
  apply safe_bind.
  - apply safe_atomic, safe_bind; [by apply safe_rows|]. intros r. apply safe_true. unfold AddProgress. by calls_solve ltac:(done).
  - intros [[e|] cnt']; [apply IH|by constructor].
Qed.

Lemma safe_table fuel bs task tbl : (st_Mode task = ModeDecrypt -> unmarked V) ->
  forall cursor cnt, safe (fun _ => True) (sweepTable_loop fuel bs task tbl cursor cnt).
Proof.
  intros Hm. induction fuel as [|fuel IH]; intros cursor cnt; [by constructor|].
  constructor; [done|]. intros [rows|e] Hrows; [|by constructor]. cbn [view_answer] in Hrows.
  destruct (last rows) as [row|]; [|by constructor].
  apply safe_bind; [by apply safe_batch|]. intros [[e|] cnt']; [by constructor|apply IH].
Qed.

Lemma safe_run fuel bs task : (st_Mode task = ModeDecrypt -> unmarked V) ->
  safe (fun _ => True) (run fuel bs task).
Proof.
  intros Hm. constructor; [done|]. intros started _. apply safe_bind.
  - generalize (TablesForScope (st_Scope task)), (@None goerr), (∅ : gmap string TableCount).
    induction l as [|tbl l IH]; intros e sum; [by constructor|].
    apply safe_bind; [by apply safe_table|]. intros [[err cnt]|]; [apply IH|by constructor].
  - intros [[e sum]|]; [|by constructor]. apply safe_true. unfold FinishTask, AtomExecute, finish_body. by calls_solve ltac:(done).
Qed.
End View.

(** A world whose keyrings come from [K] and whose columns have proper keys. *)
Record sweep_world (w : sworld) : Prop := {
  sweep_rings : forall n, ring_ok (sw_rings w n);
  sweep_nonces : forall n, String.length (sw_nonces w n) = 12;
  sweep_closed : sw_saved w = None;
  sweep_keys : forall name c, sd_columns (sw_data w) !! name = Some c -> NoDup c.*1
}.

Lemma sweep_view_inv w : sweep_world w -> view_inv (secrets (sw_data w)) w.
Proof. intros Hw. split; [done|]. rewrite (sweep_closed w Hw). repeat split; apply Hw. Qed.

Lemma sweep_view_keys w : sweep_world w ->
  forall name rows, secrets (sw_data w) !! name = Some rows -> NoDup rows.*1.
Proof.
  intros Hw name rows. unfold secrets. rewrite lookup_fmap. intros (c & Hc & ->)%fmap_Some.
  pose proof (sweep_keys w Hw name c Hc) as Hn. unfold column_secrets.
  replace ((map (fun r => (r.1, secret r.2)) c).*1) with (c.*1); [done|]. clear.
  induction c as [|r c IH]; [done|]. simpl. by f_equal.
Qed.

(** C24: Refinement: seen from outside, a sweep is a step that does nothing.  Let
    any number of sweeps run at the same time, interleaved in any order, with
    any statement failing before or after it took effect, and with the
    keyring reloaded or rotated in between, as long as every ring in service
    is a well-formed part of [K].  Then at every moment every row decrypts
    with [K] to the secret that it had at the start.  A sweep back to plain
    text needs that no secret itself begins like an envelope. *)
Theorem sweeps_keep_secrets fuel bs tasks sched w : sweep_world w ->
  (ModeDecrypt ∈ map st_Mode tasks -> unmarked (secrets (sw_data w))) ->
  secrets (sw_data (interleave sched (map (run fuel bs) tasks) w).2) = secrets (sw_data w).
Proof.
  intros Hw Hm. set (V := secrets (sw_data w)).
  destruct (interleave_guarded (keeps_secret V) (view_answer V) (view_inv V) (fun _ _ => True)) with
    (Q := fun _ : option unit => True) (sched := sched) (pool := map (run fuel bs) tasks) (w := w)
    as [(Hv & _) _]; [|by apply sweep_view_inv| |exact Hv].
  - intros R e w' o. apply view_step. by apply sweep_view_keys.
  - apply Forall_forall. intros p Hp. apply list_elem_of_In, in_map_iff in Hp as (task & <- & Ht).
    apply safe_run. intros Hd. apply Hm. rewrite <- Hd. by apply list_elem_of_In, in_map.
Qed.
End Safety.

Lemma sample_sweep_world : sweep_world sample_ring sample_sweep.
Proof.
  split; [|done|done|].
  - intros n. split; [apply sample_ring_wf|done].
  - intros name c. cbn. unfold sample_columns. rewrite lookup_insert_Some, lookup_singleton_Some.
    intros [[_ <-]|[_ [_ <-]]]; by apply (bool_decide_unpack _).
Qed.

Lemma sweeps_keep_secrets_witness :
  secrets sample_ring (sw_data (interleave [(0, Normal); (1, FailBefore); (0, FailAfter)]
    (map (run 3 1) [sample_task "rsp-1" ModeReencrypt; sample_task "rsp-2" ModeReencrypt]) sample_sweep).2)
  = secrets sample_ring (sw_data sample_sweep).
Proof.
  apply (sweeps_keep_secrets sample_ring sample_ring_wf); [exact sample_sweep_world|].
  intros Hm. exfalso. revert Hm. by apply (bool_decide_unpack _).
Defined.

(** The sweep ends: every page moves the cursor to a greater key of a fixed
    set, so the number of rows bounds the number of pages, whatever fails and
    whatever other sweeps run. *)

Section Termination.
Context {CR : Crypto} `{!Collation}.
(** The order of a collation is a strict order. *)
Hypothesis Hcoll : StrictOrder (fun a b => coll_lt a b = true).

Lemma pk_lt_irrefl a : pk_lt a a = false.
Proof.
  destruct a as [s|z]; simpl; [|apply Z.ltb_irrefl].
  destruct Hcoll as [Hi _]. destruct (coll_lt s s) eqn:E; [|done]. by destruct (Hi s).
Qed.

Lemma pk_lt_trans a b c : pk_lt a b = true -> pk_lt b c = true -> pk_lt a c = true.
Proof.
  destruct a, b, c; simpl; try done; [|rewrite !Z.ltb_lt; lia].
  destruct Hcoll as [_ Ht]. exact (Ht s s0 s1).
Qed.

(** * What is left of the keys *)

Definition left_after (cursor : option pk) (keys : list pk) : list pk := List.filter (after cursor) keys.

Lemma left_shrinks cursor k keys : k ∈ left_after cursor keys ->
  length (left_after (Some k) keys) < length (left_after cursor keys).
Proof.
  unfold left_after. rewrite list_elem_of_In, filter_In. intros [Hin Ha].
  assert (forall j, after (Some k) j = true -> after cursor j = true) as Hsub.
  { intros j Hj. destruct cursor as [c|]; [|done]. cbn [after] in *. by apply (pk_lt_trans c k j). }
  assert (forall l, length (List.filter (after (Some k)) l) <= length (List.filter (after cursor) l)) as Hle.
  { induction l as [|j l IH]; [done|]. cbn [List.filter]. destruct (after (Some k) j) eqn:E.
    - rewrite (Hsub j E). simpl. lia.
    - destruct (after cursor j); simpl; lia. }
  induction keys as [|j keys IH]; [done|]. cbn [List.filter]. destruct Hin as [->|Hin].
  - rewrite Ha. cbn [after]. rewrite pk_lt_irrefl. specialize (Hle keys). simpl. lia.
  - specialize (IH Hin). destruct (after (Some k) j) eqn:E; [rewrite (Hsub j E); simpl; lia|].
    destruct (after cursor j); simpl; lia.
Qed.

(** * The keys do not change *)

Section Keys.
Variable P : SweepTable -> list pk.

Definition column_keys (t : SweepTable) (d : sdata) : list pk := (column_of t d).*1.
Definition keys_inv (w : sworld) : Prop :=
  (forall t, column_keys t (sw_data w) = P t) /\
  match sw_saved w with Some d => forall t, column_keys t d = P t | None => True end.

Definition any_call (R : Type) (e : sweepE R) : Prop := True.
Definition keys_answer (R : Type) (e : sweepE R) : R -> Prop :=
  match e in sweepE R return R -> Prop with
  | ListRowsQ t cursor _ => fun r => match r with
      | Ok rows => Forall (fun row => PK row ∈ left_after cursor (P t)) rows
      | Err _ => True end
  | _ => fun _ => True
  end.

Lemma rewrite_row_keys k v c : (rewrite_row k v c).*1 = c.*1.
Proof. induction c as [|r c IH]; [done|]. apply (f_equal2 cons); [|exact IH]. by case_bool_decide. Qed.

Lemma put_column_keys t t' k v d :
  column_keys t' (put_column t (rewrite_row k v (column_of t d)) d) = column_keys t' d.
Proof.
  unfold column_keys, column_of at 1, put_column. cbn [sd_columns].
  destruct (decide (t_Name t = t_Name t')) as [He|He].
  - rewrite He, lookup_insert_eq. cbn [from_option id]. rewrite rewrite_row_keys. unfold column_of. by rewrite He.
  - by rewrite lookup_insert_ne.
Qed.

Lemma keys_step R (e : sweepE R) w o : keys_inv w -> any_call R e ->
  keys_inv (answer o e w).2 /\ True /\ keys_answer R e (answer o e w).1.
Proof.
  intros [Hd Hs] _.
  assert (keys_inv (handle e w).2 /\ keys_answer R e (handle e w).1) as [H1 H2].
  { destruct e; cbn; try (split; [by split|done]).
    - split; [by split|]. rewrite <- Hd. apply Forall_forall. intros row Hin.
      unfold list_rows in Hin. apply elem_of_take in Hin as (i & Hi & _).
      apply list_elem_of_lookup_2, list_elem_of_fmap in Hi as (r & -> & Hf).
      apply list_elem_of_In, filter_In in Hf as [Hf Ha]. cbn [PK scanRow].
      apply list_elem_of_In, filter_In. split; [|done]. by apply in_map.
    - split; [|done]. split; [|done]. intros t'. cbn [sw_data put_data]. by rewrite put_column_keys.
    - by destruct (existsb _ _).
    - split; [|done]. split; [|done]. by destruct (sw_saved w). }
  assert (forall r, fault e = Some r -> keys_answer R e r) as Hf.
  { intros r Hf. destruct e; cbn in Hf |- *; try done; by injection Hf as <-. }
  assert (keys_inv w) as H0 by done.
  unfold answer. destruct o, (fault e) as [r|]; cbn [fst snd]; (split; [done|split; [done|auto]]).
Qed.

Abbreviation ends := (guarded any_call keys_answer).

(** Any program: nothing is asked of its result. *)
Lemma ends_any {A} (p : prog sweepE A) : ends (fun _ => True) p.
Proof. induction p as [a|R e k IH]; by constructor. Qed.

Lemma table_ends bs task tbl : forall fuel cursor cnt,
  length (left_after cursor (P tbl)) < fuel ->
  ends (fun r => r <> None) (sweepTable_loop fuel bs task tbl cursor cnt).
Proof.
  induction fuel as [|fuel IH]; intros cursor cnt Hf; [lia|].
  constructor; [done|]. intros [rows|e] Hrows; [|by constructor]. cbn [keys_answer] in Hrows.
  destruct (last rows) as [row|] eqn:El; [|by constructor].
  eapply guarded_bind; [apply ends_any|]. intros [[e|] cnt'] _; [by constructor|].
  apply IH. pose proof (left_shrinks cursor (PK row) (P tbl)) as Hl.
  apply last_Some_elem_of in El. rewrite Forall_forall in Hrows. specialize (Hrows row El). specialize (Hl Hrows). lia.
Qed.

Lemma run_ends fuel bs task : (forall t, t ∈ sweepTables -> length (P t) < fuel) ->
  ends (fun r => r <> None) (run fuel bs task).
Proof.
  intros Hf. constructor; [done|]. intros started _. eapply (guarded_bind _ _ (fun r => r <> None)).
  - assert (forall t, t ∈ TablesForScope (st_Scope task) -> length (P t) < fuel) as Ht.
    { intros t Hin. apply Hf. unfold TablesForScope in Hin. repeat case_bool_decide; [|set_solver..].
      unfold sweepTables in *. set_solver. }
    revert Ht. generalize (TablesForScope (st_Scope task)), (@None goerr), (∅ : gmap string TableCount).
    induction l as [|tbl l IH]; intros e sum Ht; [by constructor|].
    eapply guarded_bind; [apply table_ends|].
    + specialize (Ht tbl ltac:(left)). unfold left_after. pose proof (List.filter_length_le (after None) (P tbl)). lia.
    + intros [[err cnt]|] Hn; [|done]. apply IH. intros t Hin. apply Ht. by right.
  - intros [[e sum]|] Hn; [|done]. eapply guarded_bind; [apply ends_any|]. intros now _.
    eapply guarded_bind; [apply ends_any|]. intros ? _. by constructor.
Qed.
End Keys.

(** More pages than rows. *)
Definition enough_pages (fuel : nat) (d : sdata) : Prop :=
  forall t, t ∈ sweepTables -> length (column_of t d) < fuel.

(** C25: Termination: if [fuel] exceeds the number of rows of each sensitive column,
    then no sweep ever needs more than [fuel] pages of a table: in every
    interleaving of any number of sweeps, with any statement failing, a sweep
    that has finished has finished its loops, for every size of a page. *)
Theorem sweeps_terminate fuel bs tasks sched w :
  sw_saved w = None ->
  enough_pages fuel (sw_data w) ->
  Ret None ∉ (interleave sched (map (run fuel bs) tasks) w).1.
Proof.
  intros Hs Hf Hin. set (P := fun t => column_keys t (sw_data w)).
  assert (Forall (guarded any_call (keys_answer P) (fun r : option unit => r <> None))
            (interleave sched (map (run fuel bs) tasks) w).1) as Hall.
  { apply (interleave_results any_call (keys_answer P) (keys_inv P) (fun _ _ => True)).
    - intros R e w' o. apply keys_step.
    - split; [done|]. by rewrite Hs.
    - apply Forall_forall. intros p Hp. apply list_elem_of_In, in_map_iff in Hp as (task & <- & Ht).
      apply run_ends. intros t Htin. unfold P, column_keys. rewrite length_fmap. by apply Hf. }
  rewrite Forall_forall in Hall. specialize (Hall _ Hin). inversion Hall. congruence.
Qed.
End Termination.

Lemma sweeps_terminate_witness :
  Ret None ∉ (interleave [(0, Normal); (1, FailBefore); (0, FailAfter)]
    (map (run 3 1) [sample_task "rsp-1" ModeReencrypt; sample_task "rsp-2" ModeDecrypt]) sample_sweep).1.
Proof.
  apply (sweeps_terminate length_collation_strict); [reflexivity|].
  intros t [->|[->|[]%not_elem_of_nil]%elem_of_cons]%elem_of_cons; vm_compute; lia.
Defined.

(** * A sweep without failures

    It converges: afterwards every row it covers is an envelope of the active
    key, the task is recorded as succeeded, and the counters of the summary add
    up to the rows. *)

Section Converge.
Context {CR : Crypto} {CL : CryptoLaws} `{!Collation}.
Hypothesis Hcoll : StrictOrder (fun a b => coll_lt a b = true).

(** * Pages of a sorted column *)

Abbreviation lt_keys := (fun a b => pk_lt a b = true).

(** The cursor after a part of the column that has been read. *)
Definition cursor_of (done : column) : option pk := fst <$> last done.

Lemma filter_after_app (a b : list (pk * option string)) cur :
  Forall (fun r => after cur r.1 = false) a -> Forall (fun r => after cur r.1 = true) b ->
  List.filter (fun r => after cur r.1) (a ++ b)%list = b.
Proof.
  intros Ha Hb. induction Ha as [|r a Hr _ IH]; cbn [app List.filter].
  - induction Hb as [|r b Hr _ IH]; [done|]. cbn [List.filter]. by rewrite Hr, IH.
  - by rewrite Hr.
Qed.

Lemma sorted_split (done todo : column) : StronglySorted lt_keys (map fst (done ++ todo)) ->
  List.filter (fun r => after (cursor_of done) r.1) (done ++ todo)%list = todo.
Proof.
  intros Hs. unfold cursor_of. destruct (decide (done = [])) as [->|Hne].
  { apply (filter_after_app []); [done|]. apply Forall_forall. done. }
  destruct (exists_last Hne) as (d & r & ->). rewrite last_snoc. cbn [fmap option_fmap option_map].
  rewrite map_app in Hs. apply StronglySorted_app in Hs as (H12 & H1 & H2).
  apply filter_after_app; apply Forall_forall; intros x Hx; cbn [after].
  - apply elem_of_app in Hx as [Hx|Hx]; [|by apply list_elem_of_singleton in Hx as ->; apply pk_lt_irrefl].
    rewrite map_app in H1. apply StronglySorted_app in H1 as (H1' & _ & _).
    assert (pk_lt x.1 r.1 = true) as Hlt.
    { apply H1'; [by apply list_elem_of_In, in_map, list_elem_of_In|by left]. }
    destruct (pk_lt r.1 x.1) eqn:E; [|done]. pose proof (pk_lt_trans Hcoll _ _ _ Hlt E) as Hx'.
    by rewrite (pk_lt_irrefl Hcoll) in Hx'.
  - apply H12; apply list_elem_of_In, in_map, list_elem_of_In; [|done]. apply elem_of_app. right. by left.
Qed.

(** * One row *)

Variable kr : Keyring.
Hypothesis Hkr : keyring_wf kr.

(** The ring does not change during the sweep. *)
Definition steady (w : sworld) : Prop :=
  (forall n, sw_rings w n = Some kr) /\ (forall n, String.length (sw_nonces w n) = 12).

Definition converged (r : pk * option string) : Prop :=
  IsEncrypted (default "" r.2) = true /\ KeyIDOf (default "" r.2) = Some (ActiveID kr).
Definition readable (r : pk * option string) : Prop := exists pt, Keyring_Decrypt kr (default "" r.2) = Ok pt.

Variable task : SweepTask.
Hypothesis Hmode : st_Mode task <> ModeDecrypt.
Hypothesis Hwet : st_DryRun task = false.

Lemma transform_converges w r : steady w -> readable r ->
  exists w' t, exec [] (transform (st_Mode task) (default "" r.2)) w = (Ok t, w') /\
    sw_data w' = sw_data w /\ sw_saved w' = sw_saved w /\ steady w' /\
    match t with None => converged r | Some v => converged (r.1, Some v) end.
Proof.
  intros [Hr Hn] [pt Hpt]. unfold transform. cbn [bind call]. rewrite exec_call. cbn [hd tl answer handle sweep_interp sweep_handle fst snd].
  rewrite Hr. rewrite bool_decide_eq_false_2 by done. cbn [decryptWith].
  destruct (IsEncrypted (default "" r.2) && _) eqn:E.
  - rewrite exec_ret. exists (tick w), None. repeat split; try done; apply andb_true_iff in E as [E1 E2]; [done|].
    destruct (KeyIDOf _) as [id|]; [|done]. apply N.eqb_eq in E2. by subst id.
  - rewrite Hpt. cbn [bind call]. rewrite exec_call. cbn [hd tl answer handle sweep_interp sweep_handle fst snd].
    destruct (Keyring_Encrypt_works kr (sw_nonces (tick w) (sw_reads (tick w))) pt Hkr) as (key & Hk & ->).
    rewrite exec_ret. eexists _, _. repeat split; try done; cbn [default snd].
    apply pack_keyID; [|apply Hn|apply seal_not_empty].
    destruct (wf_enc_key kr _ _ Hkr Hk) as [Hid _]. unfold ActiveID; lia.
Qed.

(** * A page *)

Definition counted (c c' : TableCount) (n : nat) : Prop :=
  tc_Scanned c' = tc_Scanned c /\ (tc_Rewritten c' + tc_Skipped c' = tc_Rewritten c + tc_Skipped c + Z.of_nat n)%Z.

(** Only the column of [tbl] has changed. *)
Definition only_column (tbl : SweepTable) (c : column) (d d' : sdata) : Prop :=
  column_of tbl d' = c /\ forall t, t_Name t <> t_Name tbl -> column_of t d' = column_of t d.

Lemma rewrite_row_mid pre r post v : NoDup (map fst (pre ++ r :: post)) ->
  rewrite_row r.1 v (pre ++ r :: post)%list = (pre ++ (r.1, Some v) :: post)%list.
Proof.
  intros Hn. rewrite map_app in Hn. cbn [map] in Hn. apply list.NoDup_app in Hn as (_ & Hd & Hn).
  apply list.NoDup_cons in Hn as [Hn _].
  assert (forall l, r.1 ∉ map fst l -> rewrite_row r.1 v l = l) as Hid.
  { intros l Hl. unfold rewrite_row. rewrite <- (map_id l) at 2. apply map_ext_in. intros x Hx.
    case_bool_decide as E; [|done]. destruct Hl. rewrite <- E. by apply list_elem_of_In, in_map. }
  unfold rewrite_row in *. rewrite map_app. cbn [map]. rewrite bool_decide_eq_true_2 by done.
  rewrite !Hid; [done|done|]. intros Hin. apply (Hd _ Hin). left.
Qed.

Lemma rows_converge tbl page : forall pre post cnt rew w, steady w ->
  column_of tbl (sw_data w) = (pre ++ page ++ post)%list -> NoDup (map fst (pre ++ page ++ post)) ->
  Forall readable page ->
  exists w' page' cnt' rew', exec [] (rewrite_rows task tbl (map scanRow page) cnt rew) w = ((None, (cnt', rew')), w') /\
    only_column tbl (pre ++ page' ++ post)%list (sw_data w) (sw_data w') /\ steady w' /\
    map fst page' = map fst page /\ Forall converged page' /\ counted cnt cnt' (length page).
Proof.
  induction page as [|r page IH]; intros pre post cnt rew w Hw Hc Hnd Hp.
  { exists w, [], cnt, rew. repeat split; try done; try apply Hw; cbn; lia. }
  apply Forall_cons in Hp as [Hr Hp]. cbn [map rewrite_rows]. rewrite exec_bind_nil.
  destruct (transform_converges w r Hw Hr) as (w1 & t & Ht & Hd1 & _ & Hw1 & Hconv).
  change (r_Value (scanRow r)) with (default "" r.2). rewrite Ht. cbn [fst snd].
  destruct t as [v|].
  - rewrite Hwet. cbn [bind call]. rewrite exec_call. cbn [hd tl answer handle sweep_interp sweep_handle fst snd].
    set (w2 := put_data _ w1).
    assert (column_of tbl (sw_data w2) = ((pre ++ [(r.1, Some v)]) ++ page ++ post)%list) as Hc2.
    { unfold w2, column_of at 1, put_column. cbn. rewrite lookup_insert_eq. cbn. rewrite Hd1, Hc.
      rewrite <- app_assoc. cbn. by apply rewrite_row_mid. }
    destruct (IH (pre ++ [(r.1, Some v)])%list post (rewritten cnt) (rew + 1)%Z w2) as
      (w' & page' & cnt' & rew' & He & [Ho1 Ho2] & Hw' & Hk & Hcv & Hct1 & Hct2); [done|done| |done|].
    { revert Hnd. rewrite !map_app. cbn. by rewrite <- app_assoc. }
    exists w', ((r.1, Some v) :: page'), cnt', rew'. rewrite He. split; [done|]. split; [split|].
    + rewrite Ho1. by rewrite <- app_assoc.
    + intros t Htn. rewrite Ho2 by done. unfold w2, column_of, put_column. cbn. rewrite lookup_insert_ne by done. by rewrite Hd1.
    + split; [done|]. split; [cbn; by rewrite Hk|]. split; [by constructor|].
      unfold counted in *. cbn in *. lia.
  - destruct (IH (pre ++ [r])%list post (skipped cnt) rew w1) as
      (w' & page' & cnt' & rew' & He & [Ho1 Ho2] & Hw' & Hk & Hcv & Hct1 & Hct2); [done| | |done|].
    { rewrite Hd1, Hc. by rewrite <- app_assoc. }
    { by rewrite <- app_assoc. }
    exists w', (r :: page'), cnt', rew'. rewrite He. split; [done|]. split; [split|].
    + rewrite Ho1. by rewrite <- app_assoc.
    + intros t Htn. rewrite Ho2 by done. by rewrite Hd1.
    + split; [done|]. split; [cbn; by rewrite Hk|]. split; [by constructor|].
      unfold counted in *. cbn in *. lia.
Qed.

Lemma batch_converges tbl pre page post cnt w : steady w ->
  column_of tbl (sw_data w) = (pre ++ page ++ post)%list -> NoDup (map fst (pre ++ page ++ post)) ->
  Forall readable page ->
  exists w' page' cnt', exec [] (execBatch task tbl (map scanRow page) cnt) w = ((None, cnt'), w') /\
    only_column tbl (pre ++ page' ++ post)%list (sw_data w) (sw_data w') /\ steady w' /\
    map fst page' = map fst page /\ Forall converged page' /\ counted cnt cnt' (length page).
Proof.
  intros Hw Hc Hnd Hp. unfold execBatch, defaultMaxBatchAttempts. cbn [execBatch_loop Z.ltb Z.compare bind].
  rewrite exec_bind_nil. unfold execBatchOnce, AtomExecute. cbn [bind call]. rewrite exec_call.
  cbn [hd tl answer handle sweep_interp sweep_handle fst snd tx_begin sweep_txn]. rewrite !exec_bind_nil.
  destruct (rows_converge tbl page pre post cnt 0 (put_saved (Some (sw_data w)) w) Hw Hc Hnd Hp)
    as (w1 & page' & cnt' & rew' & He & Ho & Hw1 & Hk & Hcv & Hct).
  rewrite He. cbn [fst snd]. unfold AddProgress. cbn [bind call]. rewrite !exec_call. cbn. rewrite ?exec_ret. cbn.
  rewrite ?exec_call. cbn. rewrite ?exec_ret. cbn.
  eexists _, page', cnt'. split; [reflexivity|]. repeat split; try done; try apply Ho; try apply Hct; apply Hw1.
Qed.

(** * A table *)

Lemma sorted_NoDup l : StronglySorted lt_keys l -> NoDup l.
Proof.
  induction 1 as [|k l _ IH Hk]; [apply NoDup_nil_2|]. apply list.NoDup_cons. split; [|done].
  intros Hin. rewrite Forall_forall in Hk. specialize (Hk k Hin). by rewrite (pk_lt_irrefl Hcoll) in Hk.
Qed.

Lemma cursor_of_app done page k : last (map fst page) = Some k -> cursor_of (done ++ page) = Some k.
Proof.
  destruct (decide (page = [])) as [->|Hne]; [done|]. destruct (exists_last Hne) as (l & x & ->).
  rewrite map_app. cbn [map]. rewrite last_snoc. intros [= <-]. unfold cursor_of. by rewrite app_assoc, last_snoc.
Qed.

Lemma table_converges bs tbl : (0 < bs)%Z -> forall fuel done todo cnt w, length todo < fuel -> steady w ->
  column_of tbl (sw_data w) = (done ++ todo)%list -> StronglySorted lt_keys (map fst (done ++ todo)) ->
  Forall converged done -> Forall readable todo ->
  exists w' c' cnt', exec [] (sweepTable_loop fuel bs task tbl (cursor_of done) cnt) w = (Some (None, cnt'), w') /\
    only_column tbl c' (sw_data w) (sw_data w') /\ steady w' /\
    map fst c' = map fst (done ++ todo) /\ Forall converged c' /\ counted cnt cnt' (length todo).
Proof.
  intros Hbs. induction fuel as [|fuel IH]; intros done todo cnt w Hf Hw Hc Hs Hd Ht; [lia|].
  cbn [sweepTable_loop bind call]. rewrite exec_call. cbn [hd tl answer handle sweep_interp sweep_handle fst snd].
  unfold list_rows. rewrite Hc, sorted_split by done. rewrite firstn_map.
  destruct todo as [|r todo].
  { rewrite take_nil. cbn [map last]. rewrite exec_ret. exists w, done, cnt. rewrite app_nil_r in *.
    repeat split; try done; try apply Hw; cbn; lia. }
  set (n := Z.to_nat bs). assert (0 < n) as Hn by lia.
  pose proof (take_drop n (r :: todo)) as Htd. set (page := take n (r :: todo)) in *. set (post := drop n (r :: todo)) in *.
  assert (page <> []) as Hpage by (unfold page; destruct n; [lia|done]).
  destruct (exists_last Hpage) as (init & lastr & Hlast).
  replace (last (map scanRow page)) with (Some (scanRow lastr)) by (rewrite Hlast, map_app; cbn [map]; by rewrite last_snoc).
  rewrite exec_bind_nil. rewrite <- Htd in Hc, Hs, Ht. apply Forall_app in Ht as [Hpg Hpost].
  destruct (batch_converges tbl done page post cnt w Hw Hc (sorted_NoDup _ Hs) Hpg)
    as (w1 & page' & cnt1 & He & Ho & Hw1 & Hk & Hcv & Hct).
  rewrite He. cbn [fst snd].
  assert (cursor_of (done ++ page') = Some (PK (scanRow lastr))) as Hcur.
  { apply cursor_of_app. rewrite Hk, Hlast, map_app. cbn [map]. apply last_snoc. }
  rewrite <- Hcur.
  destruct (IH (done ++ page')%list post cnt1 w1) as (w' & c' & cnt' & He' & Ho' & Hw' & Hk' & Hcv' & Hct').
  - assert (length (r :: todo) = length page + length post) as Hl by (by rewrite <- length_app, Htd).
    assert (0 < length page) by (rewrite Hlast, length_app; cbn; lia). lia.
  - done.
  - destruct Ho as [-> _]. by rewrite <- app_assoc.
  - rewrite <- app_assoc. revert Hs. by rewrite !map_app, Hk.
  - by apply Forall_app.
  - done.
  - rewrite He'. exists w', c', cnt'. split; [done|]. split.
    { destruct Ho as [_ Ho2], Ho' as [Ho1' Ho2']. split; [done|]. intros t Htn. by rewrite Ho2', Ho2. }
    split; [done|]. split; [rewrite Hk'; rewrite <- Htd, <- app_assoc, !map_app; by rewrite Hk|]. split; [done|].
    assert (length (r :: todo) = length page + length post) as Hl by (by rewrite <- length_app, Htd).
    unfold counted in *. lia.
Qed.

(** * All tables *)

Definition sweepable (fuel : nat) (d : sdata) (t : SweepTable) : Prop :=
  length (column_of t d) < fuel /\ StronglySorted lt_keys (map fst (column_of t d)) /\ Forall readable (column_of t d).
Definition swept (d d' : sdata) (summary : gmap string TableCount) (t : SweepTable) : Prop :=
  Forall converged (column_of t d') /\ map fst (column_of t d') = map fst (column_of t d) /\
  exists c, summary !! t_Name t = Some c /\ tc_Scanned c = 0%Z /\
    (tc_Rewritten c + tc_Skipped c)%Z = Z.of_nat (length (column_of t d)).

Lemma tables_converge fuel bs : (0 < bs)%Z -> forall tbls summary w, NoDup (map t_Name tbls) -> steady w ->
  Forall (sweepable fuel (sw_data w)) tbls ->
  exists w' summary', exec [] (run_tables fuel bs task tbls None summary) w = (Some (None, summary'), w') /\ steady w' /\
    Forall (swept (sw_data w) (sw_data w') summary') tbls /\
    (forall t, t_Name t ∉ map t_Name tbls ->
       column_of t (sw_data w') = column_of t (sw_data w) /\ summary' !! t_Name t = summary !! t_Name t).
Proof.
  intros Hbs. induction tbls as [|tbl tbls IH]; intros summary w Hnd Hw Hsw.
  { exists w, summary. by repeat split; try apply Hw. }
  cbn [map] in Hnd. apply list.NoDup_cons in Hnd as [Hni Hnd]. apply Forall_cons in Hsw as [(Hl & Hs & Hr) Hsw].
  cbn [run_tables]. rewrite exec_bind_nil. unfold sweepTable.
  destruct (table_converges bs tbl Hbs fuel [] (column_of tbl (sw_data w)) noCount w Hl Hw eq_refl Hs ltac:(constructor) Hr)
    as (w1 & c1 & cnt1 & He & [Ho1 Ho2] & Hw1 & Hk & Hcv & Hct1 & Hct2).
  change (cursor_of []) with (@None pk) in He. rewrite He. cbn [fst snd].
  assert (forall t, t ∈ tbls -> t_Name t <> t_Name tbl) as Hne.
  { intros t Hin E. apply Hni. rewrite <- E. by apply list_elem_of_In, in_map, list_elem_of_In. }
  destruct (IH (<[t_Name tbl := cnt1]> summary) w1 Hnd Hw1) as (w' & sum' & He' & Hw' & Hall & Hoth).
  { apply Forall_forall. intros t Hin. rewrite Forall_forall in Hsw. unfold sweepable. rewrite Ho2 by auto. by apply Hsw. }
  exists w', sum'. rewrite He'. split; [done|]. split; [done|]. split; [constructor|].
  - destruct (Hoth tbl Hni) as [Hc Hsm]. unfold swept. rewrite Hc, Ho1, Hsm, lookup_insert_eq.
    split; [done|]. split; [done|]. exists cnt1. cbn in Hct1, Hct2. split; [done|]. split; [done|]. lia.
  - apply Forall_forall. intros t Hin. rewrite Forall_forall in Hall. specialize (Hall t Hin).
    unfold swept in *. by rewrite <- (Ho2 t) by auto.
  - intros t Hnt. cbn [map] in Hnt. rewrite not_elem_of_cons in Hnt. destruct Hnt as [Hn1 Hn2].
    destruct (Hoth t Hn2) as [-> ->]. rewrite Ho2 by done. by rewrite lookup_insert_ne.
Qed.

Lemma scope_names : NoDup (map t_Name (TablesForScope (st_Scope task))).
Proof. unfold TablesForScope. repeat case_bool_decide; by apply (bool_decide_unpack _). Qed.

Lemma run_converges fuel bs w : (0 < bs)%Z -> steady w ->
  Forall (sweepable fuel (sw_data w)) (TablesForScope (st_Scope task)) ->
  exists w' summary, exec [] (run fuel bs task) w = (Some tt, w') /\
    Forall (swept (sw_data w) (sw_data w') summary) (TablesForScope (st_Scope task)) /\
    forall t, t ∈ sd_tasks (sw_data w') -> st_TaskID t = st_TaskID task ->
      st_Status t = StatusSucceeded /\ st_FailedCause t = "" /\ st_Summary t = Some summary.
Proof.
  intros Hbs Hw Hsw. unfold run. cbn [bind call]. rewrite exec_call. cbn [hd tl answer handle sweep_interp sweep_handle fst snd].
  rewrite exec_bind_nil.
  destruct (tables_converge fuel bs Hbs _ ∅ (tick w) scope_names Hw Hsw) as (w1 & sum & He & _ & Hall & _).
  rewrite He. cbn [fst snd]. rewrite Hwet. cbn [bind call]. rewrite exec_call.
  cbn [hd tl answer handle sweep_interp sweep_handle fst snd]. rewrite exec_bind_nil, exec_ret.
  unfold FinishTask, AtomExecute, finish_body. cbn [bind call]. rewrite !exec_call. cbn. rewrite ?exec_ret. cbn.
  eexists _, sum. split; [reflexivity|]. cbn. split.
  - rewrite Forall_forall in Hall |- *. exact Hall.
  - intros t Hin Hid. unfold on_task in Hin. apply list_elem_of_In, in_map_iff in Hin as (t' & <- & Hin).
    unfold is_task in *. case_bool_decide; done.
Qed.

(** * A page that is out of date *)

Lemma transform_rewrites w v pt : steady w -> Keyring_Decrypt kr v = Ok pt -> KeyIDOf v <> Some (ActiveID kr) ->
  exists w' ct, exec [] (transform (st_Mode task) v) w = (Ok (Some ct), w') /\ sw_data w' = sw_data w /\
    Keyring_Decrypt kr ct = Ok pt.
Proof.
  intros [Hr Hn] Hpt Hid. unfold transform. cbn [bind call]. rewrite exec_call.
  cbn [hd tl answer handle sweep_interp sweep_handle fst snd]. rewrite Hr, bool_decide_eq_false_2 by done.
  cbn [decryptWith]. replace (IsEncrypted v && _) with false.
  2: { symmetry. apply andb_false_iff. right. destruct (KeyIDOf v) as [id|]; [|done]. apply N.eqb_neq. congruence. }
  rewrite Hpt. cbn [bind call]. rewrite exec_call. cbn [hd tl answer handle sweep_interp sweep_handle fst snd].
  set (n := sw_nonces _ _). destruct (Keyring_Encrypt_works kr n pt Hkr) as (key & Hk & ->). rewrite exec_ret.
  eexists _, _. split; [reflexivity|]. split; [done|]. apply Keyring_Decrypt_pack; [done|done|apply Hn].
Qed.

Lemma stale_page tbl k v pt cnt w : steady w -> Keyring_Decrypt kr v = Ok pt -> KeyIDOf v <> Some (ActiveID kr) ->
  exists w' cnt' ct, exec [] (execBatch task tbl [mkRow k v] cnt) w = ((None, cnt'), w') /\
    column_of tbl (sw_data w') = rewrite_row k ct (column_of tbl (sw_data w)) /\ Keyring_Decrypt kr ct = Ok pt.
Proof.
  intros Hw Hpt Hid. unfold execBatch, defaultMaxBatchAttempts. cbn [execBatch_loop Z.ltb Z.compare bind].
  rewrite exec_bind_nil. unfold execBatchOnce, AtomExecute. cbn [bind call]. rewrite exec_call.
  cbn [hd tl answer handle sweep_interp sweep_handle fst snd tx_begin sweep_txn]. rewrite !exec_bind_nil.
  cbn [rewrite_rows]. rewrite exec_bind_nil. cbn [r_Value].
  destruct (transform_rewrites (put_saved (Some (sw_data w)) w) v pt Hw Hpt Hid) as (w1 & ct & -> & Hd & Hct).
  cbn [fst snd]. rewrite Hwet. cbn [bind call]. rewrite !exec_call. cbn. rewrite ?exec_ret. cbn.
  unfold AddProgress. cbn [bind call]. rewrite ?exec_call. cbn. rewrite ?exec_ret. cbn. rewrite ?exec_call. cbn. rewrite ?exec_ret. cbn.
  eexists _, _, _. split; [reflexivity|]. cbn. split; [|done].
  unfold column_of at 1. cbn. rewrite lookup_insert_eq, Hd. done.
Qed.
End Converge.

(** A reencrypting sweep without failures converges: with a well-formed keyring
    that stays in service and rows that it can read, every row of the scope
    is afterwards an envelope of the active key, no row has come or gone, and
    the task is recorded as succeeded with a summary in which rewritten and
    skipped rows add up to the rows of the table.  The summary's counter of
    scanned rows, however, is zero. *)
Theorem sweep_converges {CR : Crypto} {CL : CryptoLaws} `{!Collation} kr task fuel bs w :
  StrictOrder (fun a b => coll_lt a b = true) -> keyring_wf kr ->
  st_Mode task <> ModeDecrypt -> st_DryRun task = false -> (0 < bs)%Z -> steady kr w ->
  Forall (sweepable kr fuel (sw_data w)) (TablesForScope (st_Scope task)) ->
  exists w' summary, exec [] (run fuel bs task) w = (Some tt, w') /\
    Forall (swept kr (sw_data w) (sw_data w') summary) (TablesForScope (st_Scope task)) /\
    forall t, t ∈ sd_tasks (sw_data w') -> st_TaskID t = st_TaskID task ->
      st_Status t = StatusSucceeded /\ st_FailedCause t = "" /\ st_Summary t = Some summary.
Proof. intros. by apply run_converges. Qed.

(** The rows of a page are read before its transaction, and UPDATE does not
    compare the value that was read: a row that was changed in between, to
    any other secret, gets the secret of the stale page back. *)
Theorem stale_page_overwrites {CR : Crypto} {CL : CryptoLaws} `{!Collation} kr task tbl k v pt cnt w :
  keyring_wf kr -> st_Mode task <> ModeDecrypt -> st_DryRun task = false -> steady kr w ->
  Keyring_Decrypt kr v = Ok pt -> KeyIDOf v <> Some (ActiveID kr) ->
  exists w' cnt' ct, exec [] (execBatch task tbl [mkRow k v] cnt) w = ((None, cnt'), w') /\
    column_of tbl (sw_data w') = rewrite_row k ct (column_of tbl (sw_data w)) /\ Keyring_Decrypt kr ct = Ok pt.
Proof. intros. by apply stale_page. Qed.

(** The provider's keys were "old" when the page was read and are "[keys]" now. *)
Lemma stale_page_overwrites_witness : exists w' cnt' ct,
  exec [] (execBatch (sample_task "rsp-1" ModeReencrypt) (mkTable "providers" "name" "api_keys")
             [mkRow (PKStr "p") "old"] noCount) sample_sweep = ((None, cnt'), w') /\
  column_of (mkTable "providers" "name" "api_keys") (sw_data w') =
    rewrite_row (PKStr "p") ct (column_of (mkTable "providers" "name" "api_keys") (sw_data sample_sweep)) /\
  Keyring_Decrypt sample_ring ct = Ok "old".
Proof.
  apply (stale_page_overwrites sample_ring (sample_task "rsp-1" ModeReencrypt));
    [exact sample_ring_wf|discriminate|reflexivity|split; reflexivity|reflexivity|vm_compute; discriminate].
Defined.

Lemma sweep_converges_witness : exists w' summary, exec [] (run 3 1 (sample_task "rsp-1" ModeReencrypt)) sample_sweep = (Some tt, w') /\
  Forall (swept sample_ring (sw_data sample_sweep) (sw_data w') summary) sweepTables.
Proof.
  destruct (sweep_converges sample_ring (sample_task "rsp-1" ModeReencrypt) 3 1 sample_sweep) as (w' & sum & He & Hs & _).
  - exact length_collation_strict.
  - exact sample_ring_wf.
  - discriminate.
  - reflexivity.
  - lia.
  - split; reflexivity.
  - repeat constructor; try (vm_compute; lia); try reflexivity; eexists; vm_compute; reflexivity.
  - exists w', sum. split; [exact He|exact Hs].
Defined.
