(* ===== verification/KeyRotateLock.v ===== *)
(** The task table and its lock: at most one sweep is running, and one whose
    heartbeat is fresh is not displaced.  The SELECT … FOR UPDATE on the
    single lock row makes the operations of the storager serial, so a history
    is a list of operations, each with its own faults. *)
From Stdlib Require Import ZArith Lia.
From stdpp Require Import base tactics numbers list strings gmap option sorting.
From S2P Require Import Prelude GoStrings Prog XCrypto KeyRotate.

Local Open Scope string_scope.

Section Lock.
Context `{!Collation}.

(** * Transactions *)

Definition same_data (w w' : sworld) : Prop := sw_data w = sw_data w'.
Definition same_saved (w w' : sworld) : Prop := sw_saved w = sw_saved w'.

#[export] Instance sweep_transactional : Transactional sweepE sworld same_data same_saved.
Proof.
  split.
  - split; [done|]. unfold same_data. by intros x y z -> ->.
  - split; [done|]. unfold same_saved. by intros x y z -> ->.
  - intros [] w e; cbn; try done; by intros _.
  - intros o o' w w1 Hok Hk. destruct o; cbn in Hok; try discriminate. unfold same_saved in Hk. cbn in Hk.
    unfold same_data. destruct o'; cbn; by rewrite <- Hk.
  - done.
  - by intros w.
  - by intros [] w.
  - done.
Qed.

Definition statement (R : Type) (e : sweepE R) : Prop :=
  match e with
  | SweepBegin => False | SweepCommit => False | SweepRollback => False
  | _ => True
  end.

Lemma statement_keeps_saved R (e : sweepE R) w : statement R e -> same_saved w (handle e w).2.
Proof. destruct e; cbn; intros []; try done; by destruct (existsb _ _). Qed.

(** A statement that reports success has had its effect. *)
Lemma answer_ok o {A} (e : sweepE (result A)) w x er : fault e = Some (Err er) ->
  (answer o e w).1 = Ok x -> answer o e w = handle e w.
Proof. intros Hf. unfold answer. rewrite Hf. by destruct o. Qed.

Lemma answer_now o w : answer o SweepNow w = (sw_clock w (sw_reads w), tick w).
Proof. by destruct o. Qed.

(** * The operations *)

Inductive storager_op : Type :=
| OpAcquire (ttl : Z) (task : SweepTask)
| OpProgress (id : string) (scanned rewritten : Z)
| OpFinish (id : string) (status : Status) (cause : string) (summary : gmap string TableCount) (duration : Z).

Definition op_prog (op : storager_op) : prog sweepE (option goerr) :=
  match op with
  | OpAcquire ttl task => AcquireTask ttl task
  | OpProgress id s r => AddProgress id s r
  | OpFinish id st cause sum d => FinishTask id st cause sum d
  end.

(** What the manager asks for: only new tasks are running. *)
Definition op_ok (op : storager_op) : Prop :=
  match op with
  | OpAcquire _ task => st_TaskID task <> ""
  | OpProgress _ _ _ => True
  | OpFinish _ st _ _ _ => st <> StatusRunning
  end.

Fixpoint serve (l : list (list outcome * storager_op)) (w : sworld) : sworld :=
  match l with
  | [] => w
  | (os, op) :: l' => serve l' (exec os (op_prog op) w).2
  end.

(** * The invariant *)

Record lock_inv (d : sdata) : Prop := {
  li_holder : exists h, sd_holder d = Some h;
  li_ids : NoDup (map st_TaskID (sd_tasks d));
  li_named : "" ∉ map st_TaskID (sd_tasks d);
  li_running : forall t, t ∈ sd_tasks d -> st_Status t = StatusRunning -> sd_holder d = Some (st_TaskID t)
}.

Lemma on_task_ids id f l : (forall t, st_TaskID (f t) = st_TaskID t) ->
  map st_TaskID (on_task id f l) = map st_TaskID l.
Proof. intros Hf. unfold on_task. rewrite map_map. apply map_ext. intros t. by destruct (is_task id t). Qed.

Lemma on_task_in id f l t : t ∈ on_task id f l ->
  exists t', t' ∈ l /\ (t = t' /\ st_TaskID t' <> id \/ t = f t' /\ st_TaskID t' = id).
Proof.
  unfold on_task. rewrite list_elem_of_In, in_map_iff. intros (t' & <- & Hin). exists t'.
  rewrite list_elem_of_In. split; [done|]. unfold is_task. case_bool_decide; auto.
Qed.

(** Updates of one task that do not start it again. *)
Lemma on_task_inv id f d : (forall t, st_TaskID (f t) = st_TaskID t) ->
  (forall t, st_Status (f t) = StatusRunning -> st_Status t = StatusRunning) ->
  lock_inv d -> lock_inv (put_tasks (on_task id f (sd_tasks d)) d).
Proof.
  intros Hid Hst [H1 H2 H2' H3]. split; cbn [put_tasks sd_holder sd_tasks].
  - done.
  - by rewrite on_task_ids.
  - by rewrite on_task_ids.
  - intros t (t' & Hin & [[-> _]|[-> _]])%on_task_in Hr; [by apply H3|].
    rewrite Hid. apply H3; [done|]. by apply Hst.
Qed.

Lemma add_progress_inv id s r now d : lock_inv d ->
  lock_inv (put_tasks (on_task id (add_progress s r now) (sd_tasks d)) d).
Proof. by apply on_task_inv. Qed.

Lemma fail_lost_id cause now t : st_TaskID (fail_lost cause now t) = st_TaskID t.
Proof. unfold fail_lost. by case_bool_decide. Qed.

Lemma fail_lost_running cause now t : st_Status (fail_lost cause now t) = StatusRunning -> st_Status t = StatusRunning.
Proof. unfold fail_lost. by case_bool_decide. Qed.

(** After the holder has been declared lost nothing is running. *)
Lemma fail_lost_stops h cause now d : lock_inv d -> sd_holder d = Some h ->
  forall t, t ∈ on_task h (fail_lost cause now) (sd_tasks d) -> st_Status t <> StatusRunning.
Proof.
  intros Hd Hh t (t' & Hin & [[-> Hne]|[-> He]])%on_task_in Hr.
  - pose proof (li_running d Hd t' Hin Hr) as Hr'. rewrite Hh in Hr'. congruence.
  - unfold fail_lost in Hr. case_bool_decide; done.
Qed.

(** The new task takes the lock when nothing is running. *)
Lemma insert_inv dt task d : st_TaskID task <> "" -> lock_inv d -> (forall t, t ∈ sd_tasks d -> st_Status t <> StatusRunning) ->
  existsb (is_task (st_TaskID task)) (sd_tasks d) = false ->
  lock_inv (put_holder ((fun _ => st_TaskID task) <$> sd_holder d) (put_tasks (sd_tasks d ++ [new_row dt task])%list d)).
Proof.
  intros Hne Hd Hno Hex. destruct (li_holder d Hd) as [h Hh]. split; cbn [put_tasks put_holder sd_holder sd_tasks]; rewrite ?Hh.
  - by exists (st_TaskID task).
  - rewrite map_app. apply list.NoDup_app. repeat split; [by apply li_ids| |apply NoDup_singleton].
    intros id Hin [= ->]%list_elem_of_singleton. apply list_elem_of_In, in_map_iff in Hin as (t & Ht & Hin).
    apply Bool.not_true_iff_false in Hex. destruct Hex. apply existsb_exists. exists t. split; [done|].
    by apply bool_decide_eq_true.
  - rewrite map_app, elem_of_app. intros [Hin|Hin]; [by apply (li_named d Hd)|].
    by apply list_elem_of_singleton in Hin.
  - intros t [Hin|Ht]%elem_of_app Hr; [by destruct (Hno t Hin)|].
    apply list_elem_of_singleton in Ht as ->. done.
Qed.

Lemma same_id (l : list SweepTask) a b : NoDup (map st_TaskID l) -> a ∈ l -> b ∈ l -> st_TaskID a = st_TaskID b -> a = b.
Proof.
  induction l as [|c l IH]; simpl; [intros _ []%not_elem_of_nil|].
  intros [Hn Hd]%list.NoDup_cons [->|Ha]%elem_of_cons [->|Hb]%elem_of_cons He; [done|..|by apply IH];
    destruct Hn; apply list_elem_of_In, in_map_iff; [exists b|exists a]; by rewrite <- list_elem_of_In.
Qed.

(** * Bodies that succeed *)

Lemma insert_task_ok os task w : (exec os (insert_task task) w).1 = (None, tt) ->
  existsb (is_task (st_TaskID task)) (sd_tasks (sw_data w)) = false /\
  sw_data (exec os (insert_task task) w).2 =
    put_holder ((fun _ => st_TaskID task) <$> sd_holder (sw_data w))
      (put_tasks (sd_tasks (sw_data w) ++ [new_row (sw_datetime w) task])%list (sw_data w)).
Proof.
  unfold insert_task. cbn [bind call]. rewrite exec_call.
  destruct (answer (hd Normal os) (InsertTaskQ task) w) as [[[]|e] w1] eqn:E1; cbn [fst snd]; [|by rewrite exec_ret].
  cbn [bind call]. rewrite exec_call.
  destruct (answer _ (SetHolderQ _) w1) as [[[]|e] w2] eqn:E2; cbn [fst snd]; rewrite exec_ret; [|done].
  rewrite (answer_ok _ (InsertTaskQ task) w tt DaoError) in E1 by (done || by rewrite E1).
  rewrite (answer_ok _ (SetHolderQ (st_TaskID task)) w1 tt DaoError) in E2 by (done || by rewrite E2).
  cbn in E1, E2. destruct (existsb _ _); [discriminate|]. injection E1 as <-. injection E2 as <-. done.
Qed.

(** A closure that reports success leaves the invariant. *)
Lemma acquire_body_inv ttl task os w : st_TaskID task <> "" -> lock_inv (sw_data w) ->
  (exec os (acquire_body ttl task) w).1 = (None, tt) ->
  lock_inv (sw_data (exec os (acquire_body ttl task) w).2).
Proof.
  intros Hid Hw. unfold acquire_body. cbn [bind call]. rewrite exec_call.
  destruct (answer (hd Normal os) HolderForUpdateQ w) as [[h|e] w1] eqn:E1; cbn [fst snd]; [|by rewrite exec_ret].
  rewrite (answer_ok _ HolderForUpdateQ w h DaoError) in E1 by (done || by rewrite E1).
  cbn in E1. destruct (li_holder _ Hw) as [h' Hh]. rewrite Hh in E1. injection E1 as <- <-.
  assert (forall os' w', sw_data w' = sw_data w -> (forall t, t ∈ sd_tasks (sw_data w) -> st_Status t <> StatusRunning) ->
    (exec os' (insert_task task) w').1 = (None, tt) -> lock_inv (sw_data (exec os' (insert_task task) w').2)) as Hins.
  { intros os' w' He Hno Hok. destruct (insert_task_ok os' task w' Hok) as [Hex ->]. rewrite He in *. by apply insert_inv. }
  case_bool_decide as Hempty.
  { subst h'. apply Hins; [done|]. intros t Ht Hr. apply (li_running _ Hw) in Hr; [|done]. rewrite Hh in Hr.
    apply (li_named _ Hw). injection Hr as ->. by apply list_elem_of_In, in_map, list_elem_of_In. }
  cbn [bind call]. rewrite exec_call.
  destruct (answer _ (TaskByIDQ h') w) as [[row|e] w2] eqn:E2; cbn [fst snd]; [|by rewrite exec_ret].
  rewrite (answer_ok _ (TaskByIDQ h') w row DaoError) in E2 by (done || by rewrite E2).
  cbn in E2. injection E2 as Hrow <-.
  assert (forall t, t ∈ sd_tasks (sw_data w) -> st_Status t = StatusRunning -> st_TaskID t = h') as Honly.
  { intros t Ht Hr. apply (li_running _ Hw) in Hr; [|done]. congruence. }
  destruct row as [row|].
  - apply List.find_some in Hrow as Hf. destruct Hf as [Hin Hrid]. apply bool_decide_eq_true in Hrid.
    assert (forall t, t ∈ sd_tasks (sw_data w) -> st_TaskID t = h' -> t = row) as Huniq.
    { intros t Ht Hth. apply (same_id (sd_tasks (sw_data w))); [by apply li_ids|done|by apply list_elem_of_In|congruence]. }
    case_bool_decide as Hrun.
    + cbn [bind call]. rewrite exec_call, answer_now. cbn [fst snd]. destruct (_ <? ttl)%Z; [by rewrite exec_ret|].
      cbn [bind call]. rewrite exec_call, answer_now. cbn [fst snd bind call]. rewrite exec_call.
      set (e := FailLostQ _ _ _). destruct (answer _ e _) as [[[]|er] w3] eqn:E3; cbn [fst snd]; [|by rewrite exec_ret].
      rewrite (answer_ok _ e _ tt DaoError) in E3 by (done || by rewrite E3). injection E3 as <-.
      intros Hok. destruct (insert_task_ok _ task _ Hok) as [Hex ->]. cbn [put_data tick sw_data] in *.
      apply insert_inv; [done|..|done].
      * by apply on_task_inv; [apply fail_lost_id|apply fail_lost_running|].
      * by apply fail_lost_stops.
    + apply Hins; [done|]. intros t Ht Hr. rewrite (Huniq t Ht (Honly t Ht Hr)) in Hr. done.
  - apply Hins; [done|]. intros t Ht Hr. pose proof (Honly t Ht Hr) as He.
    apply list_elem_of_In in Ht. apply (List.find_none _ _ Hrow) in Ht. by apply bool_decide_eq_false in Ht.
Qed.

Lemma finish_body_inv id st cause sum d os w : st <> StatusRunning -> lock_inv (sw_data w) ->
  (exec os (finish_body id st cause sum d) w).1 = (None, tt) ->
  lock_inv (sw_data (exec os (finish_body id st cause sum d) w).2).
Proof.
  intros Hst Hw. unfold finish_body. cbn [bind call]. rewrite exec_call, answer_now. cbn [fst snd bind call].
  rewrite exec_call. set (e := FinishTaskQ _ _ _ _ _ _).
  destruct (answer _ e _) as [[[]|er] w1] eqn:E1; cbn [fst snd]; [|by rewrite exec_ret].
  rewrite (answer_ok _ e _ tt DaoError) in E1 by (done || by rewrite E1). injection E1 as <-.
  cbn [bind call]. rewrite exec_call.
  destruct (answer _ (ReleaseHolderQ id) _) as [[[]|er] w2] eqn:E2; cbn [fst snd]; rewrite exec_ret; [|done]. intros _.
  rewrite (answer_ok _ (ReleaseHolderQ id) _ tt DaoError) in E2 by (done || by rewrite E2). injection E2 as <-.
  cbn [put_data tick sw_data put_tasks put_holder sd_holder sd_tasks snd].
  destruct (li_holder _ Hw) as [h Hh]. split; cbn [put_tasks put_holder sd_holder sd_tasks]; rewrite ?Hh.
  - eexists. reflexivity.
  - rewrite on_task_ids by done. by apply li_ids.
  - rewrite on_task_ids by done. by apply li_named.
  - intros t (t' & Hin & [[-> Hne]|[-> He]])%on_task_in Hr; [|done].
    apply (li_running _ Hw) in Hr; [|done]. rewrite Hh in Hr. injection Hr as ->. cbn. by rewrite bool_decide_eq_false_2.
Qed.

(** A transaction keeps the invariant if its closure does when it succeeds. *)
Lemma atomic_inv (body : prog sweepE (option goerr * unit)) os w : all_calls statement body ->
  (forall os' w', lock_inv (sw_data w') -> (exec os' body w').1 = (None, tt) -> lock_inv (sw_data (exec os' body w').2)) ->
  lock_inv (sw_data w) -> lock_inv (sw_data (exec os (r <- AtomExecute tt body ;; Ret (only_err r)) w).2).
Proof.
  intros Hc Hb Hw. rewrite exec_bind, exec_ret. cbn [snd].
  destruct (exec os (AtomExecute tt body) w).1 as [[e|] []] eqn:E.
  - destruct (AtomExecute_ends statement statement_keeps_saved tt body os w e tt Hc E) as [Hs|(_ & os' & w0 & H0 & H1 & Hs)];
      unfold same_data in Hs; [by rewrite <- Hs|].
    assert (sw_data w0 = sw_data w) as Hd by (destruct (hd Normal os); cbn in H0; by simplify_eq).
    rewrite <- Hs. apply Hb; [by rewrite Hd|done].
  - destruct (AtomExecute_works tt body os w tt E) as (os' & o & w0 & H0 & H1 & _ & ->).
    assert (sw_data w0 = sw_data w) as Hd by (destruct (hd Normal os); cbn in H0; by simplify_eq).
    destruct o; cbn; apply Hb; rewrite ?Hd; done.
Qed.

Lemma op_inv op os w : op_ok op -> lock_inv (sw_data w) -> lock_inv (sw_data (exec os (op_prog op) w).2).
Proof.
  intros Hop Hw. destruct op as [ttl task|id s r|id st cause sum d]; cbn [op_prog op_ok] in *.
  - apply atomic_inv; [|intros; by apply acquire_body_inv|done].
    unfold acquire_body, insert_task. by calls_solve ltac:(done).
  - unfold AddProgress. cbn [bind call]. rewrite exec_call, answer_now. cbn [fst snd bind call]. rewrite exec_call, exec_ret.
    cbn [snd]. destruct (hd Normal (tl os)); cbn [answer fault sweep_interp sweep_fault snd fst]; [|done|];
      by apply add_progress_inv.
  - apply atomic_inv; [|intros; by apply finish_body_inv|done].
    unfold finish_body. by calls_solve ltac:(done).
Qed.

Lemma serve_inv l w : Forall (fun x => op_ok x.2) l -> lock_inv (sw_data w) -> lock_inv (sw_data (serve l w)).
Proof.
  intros Hl. revert w. induction Hl as [|[os op] l Hop _ IH]; intros w Hw; [done|]. apply IH. by apply op_inv.
Qed.

(** C26: Over every history of acquisitions, heartbeats and completions, with any
    statement of any of them failing before or after it took effect, at most
    one task is running, and it is the one that holds the lock. *)
Theorem one_running_sweep l w t1 t2 : Forall (fun x => op_ok x.2) l -> lock_inv (sw_data w) ->
  t1 ∈ sd_tasks (sw_data (serve l w)) -> t2 ∈ sd_tasks (sw_data (serve l w)) ->
  st_Status t1 = StatusRunning -> st_Status t2 = StatusRunning ->
  t1 = t2 /\ sd_holder (sw_data (serve l w)) = Some (st_TaskID t1).
Proof.
  intros Hl Hw H1 H2 R1 R2. pose proof (serve_inv l w Hl Hw) as Hi.
  pose proof (li_running _ Hi t1 H1 R1) as E1. pose proof (li_running _ Hi t2 H2 R2) as E2.
  split; [|done]. apply (same_id (sd_tasks (sw_data (serve l w)))); [by apply li_ids|done..|congruence].
Qed.

(** The body of an acquisition fails while a fresh sweep runs. *)
Lemma acquire_refused os ttl task w t : lock_inv (sw_data w) ->
  t ∈ sd_tasks (sw_data w) -> st_Status t = StatusRunning ->
  (forall n, (time_Sub (sw_clock w n) (st_HeartbeatAt t) < ttl)%Z) ->
  (exec os (acquire_body ttl task) (put_saved (Some (sw_data w)) w)).1 <> (None, tt).
Proof.
  intros Hw Hin Hrun Hfresh.
  unfold acquire_body. cbn [bind call]. rewrite exec_call. set (w0 := put_saved _ w).
  destruct (answer _ HolderForUpdateQ w0) as [[h|e] w1] eqn:E1; cbn [fst snd]; [|by rewrite exec_ret].
  rewrite (answer_ok _ HolderForUpdateQ w0 h DaoError) in E1 by (done || by rewrite E1).
  cbn in E1. pose proof (li_running _ Hw t Hin Hrun) as Hh. rewrite Hh in E1. injection E1 as <- <-.
  rewrite bool_decide_eq_false_2.
  2: { intros He. apply (li_named _ Hw). rewrite <- He. by apply list_elem_of_In, in_map, list_elem_of_In. }
  cbn [bind call]. rewrite exec_call.
  destruct (answer _ (TaskByIDQ _) w0) as [[row|e] w2] eqn:E2; cbn [fst snd]; [|by rewrite exec_ret].
  rewrite (answer_ok _ (TaskByIDQ _) w0 row DaoError) in E2 by (done || by rewrite E2).
  cbn in E2. injection E2 as Hrow <-. destruct row as [row|].
  - apply List.find_some in Hrow as [Hr1 Hr2]. apply bool_decide_eq_true in Hr2. apply list_elem_of_In in Hr1.
    rewrite (same_id (sd_tasks (sw_data w)) row t) by (done || by apply li_ids).
    rewrite bool_decide_eq_true_2 by done. cbn [bind call]. rewrite exec_call, answer_now. cbn [fst snd].
    assert (time_Sub (sw_clock w0 (sw_reads w0)) (st_HeartbeatAt t) < ttl)%Z as Hf by apply Hfresh.
    rewrite (proj2 (Z.ltb_lt _ _) Hf). by rewrite exec_ret.
  - apply list_elem_of_In in Hin. apply (List.find_none _ _ Hrow) in Hin. by apply bool_decide_eq_false in Hin.
Qed.

(** A running task whose heartbeat stays younger than the limit keeps the lock:
    every attempt to start another sweep fails and changes nothing. *)
Theorem live_sweep_not_displaced os ttl task w t : lock_inv (sw_data w) ->
  t ∈ sd_tasks (sw_data w) -> st_Status t = StatusRunning ->
  (forall n, (time_Sub (sw_clock w n) (st_HeartbeatAt t) < ttl)%Z) ->
  (exec os (AcquireTask ttl task) w).1 <> None /\ sw_data (exec os (AcquireTask ttl task) w).2 = sw_data w.
Proof.
  intros Hw Hin Hrun Hfresh. unfold AcquireTask. rewrite exec_bind, exec_ret. cbn [fst snd].
  assert (all_calls statement (acquire_body ttl task)) as Hc by (unfold acquire_body, insert_task; by calls_solve ltac:(done)).
  assert (forall os' w0, answer (hd Normal os) tx_begin w = (Ok tt, w0) -> (exec os' (acquire_body ttl task) w0).1 <> (None, tt)) as Hno.
  { intros os' w0 H0. assert (w0 = put_saved (Some (sw_data w)) w) as -> by (destruct (hd Normal os); cbn in H0; by simplify_eq).
    by apply (acquire_refused os' ttl task w t). }
  destruct (exec os (AtomExecute tt (acquire_body ttl task)) w).1 as [[e|] []] eqn:E.
  - split; [done|]. destruct (AtomExecute_ends statement statement_keeps_saved tt _ os w e tt Hc E) as [Hs|(_ & os' & w0 & H0 & H1 & _)]; [by symmetry|].
    by destruct (Hno os' w0 H0).
  - destruct (AtomExecute_works tt _ os w tt E) as (os' & o & w0 & H0 & H1 & _). by destruct (Hno os' w0 H0).
Qed.
End Lock.

Lemma sample_sweep_lock : lock_inv (sw_data sample_sweep).
Proof.
  split.
  - by eexists.
  - by apply (bool_decide_unpack _).
  - by apply (bool_decide_unpack _).
  - by intros t ->%list_elem_of_singleton _.
Qed.

(** A heartbeat, a failed attempt to take over, completion of the first task
    and the start of the second. *)
Definition sample_history : list (list outcome * storager_op) :=
  [([], OpProgress "rsp-1" 2 1); ([], OpAcquire DefaultHeartbeatTTL (sample_task "rsp-2" ModeDecrypt));
   ([], OpFinish "rsp-1" StatusSucceeded "" ∅ 5); ([], OpAcquire DefaultHeartbeatTTL (sample_task "rsp-2" ModeDecrypt))].

Lemma one_running_sweep_witness :
  exists t, t ∈ sd_tasks (sw_data (serve sample_history sample_sweep)) /\ st_Status t = StatusRunning /\
    t = t /\ sd_holder (sw_data (serve sample_history sample_sweep)) = Some (st_TaskID t).
Proof.
  exists (sample_task "rsp-2" ModeDecrypt). split; [vm_compute; right; left|]. split; [reflexivity|].
  apply (one_running_sweep sample_history sample_sweep); [|exact sample_sweep_lock|vm_compute; right; left..|reflexivity|reflexivity].
  repeat constructor; done.
Defined.

(** The same world at one o'clock. *)
Definition sample_live : sworld :=
  mkSWorld (sw_data sample_sweep) None (sw_rings sample_sweep) (sw_nonces sample_sweep) (fun _ => hour)
    (sw_uuids sample_sweep) 0 (fun t => t) [].

Lemma live_sweep_not_displaced_witness :
  (exec [] (AcquireTask (2 * hour) (sample_task "rsp-2" ModeDecrypt)) sample_live).1 <> None.
Proof.
  apply (live_sweep_not_displaced [] (2 * hour) (sample_task "rsp-2" ModeDecrypt) sample_live
           (sample_task "rsp-1" ModeReencrypt)); [exact sample_sweep_lock|left|reflexivity|].
  intros n. vm_compute. reflexivity.
Defined.
