(* ===== verification/VersionControl.v ===== *)
(** Versions of exported configuration ([model/iversion_control],
    [storage/rdb/version_control], table [config_versions]): an export whose
    content has not changed keeps its version, one that has changed gets a
    later one. *)
From Stdlib Require Import ZArith Lia Ascii.
From stdpp Require Import base tactics numbers list strings option.
From S2P Require Import Prelude GoStrings GoTime Prog.

Local Open Scope string_scope.

(** * Package time: the layout [20060102150405] *)

Definition pad2 (n : Z) : string := String (digit_char (n / 10)) (String (digit_char (n mod 10)) EmptyString).
Definition pad4 (n : Z) : string := pad2 (n / 100) +:+ pad2 (n mod 100).

Definition format_year (y : Z) : string :=
  if (y <? 0)%Z then String "-" (pad4 (- y)) else if (9999 <? y)%Z then FormatInt y else pad4 y.

(** [Version]: the time in the zone [loc] seconds east of UTC. *)
Definition Version (loc : Z) (t : gotime) : string :=
  let '(y, m, d) := Date loc t in
  let s := (local_ns loc t / second)%Z in
  format_year y +:+ pad2 m +:+ pad2 d +:+ pad2 (s / 3600) +:+ pad2 (s / 60 mod 60) +:+ pad2 (s mod 60).

(** The zero time is in UTC. *)
Definition ZeroVersion : string := Version 0 0.

(** [time.ParseInLocation(versionLayout, s, loc)]: the hour may have one
    digit, and a fraction may follow the seconds. *)
Definition parseVersion (loc : Z) (s : string) : option gotime :=
  y ← digits4 s; mo ← digits2 y.2; d ← digits2 mo.2; h ← digits12 d.2; mi ← digits2 h.2; sc ← digits2 mi.2;
  let fr := parse_fraction sc.2 in
  if bool_decide (fr.2 = EmptyString) &&
     ((1 <=? mo.1) && (mo.1 <=? 12) && (1 <=? d.1) && (d.1 <=? days_in_month y.1 mo.1) &&
      (h.1 <? 24) && (mi.1 <? 60) && (sc.1 <? 60))%Z
  then Some (date_time y.1 mo.1 d.1 h.1 mi.1 sc.1 fr.1 - loc * second)%Z
  else None.

(** [bumpVersion] *)
Definition bumpVersion (loc : Z) (latest candidate : string) : string :=
  match parseVersion loc latest with
  | None => candidate
  | Some lt =>
      let next := Version loc (lt + second) in
      if String.ltb candidate next then next else candidate
  end.

(** * Duplicate keys ([lib/xdb.go]) *)

Definition DuplicateEntryError (msg : string) : bool :=
  Contains msg "Error 1062: Duplicate entry" || Contains msg "UNIQUE constraint failed"
  || Contains msg "duplicate key value violates unique constraint".

(** * The table *)

Record TConfigVersion : Type := mkConfigVersion { cv_ID : Z; cv_Name : string; cv_DataSign : string; cv_Version : string }.

Definition of_topic (topic : string) (r : TConfigVersion) : bool := bool_decide (cv_Name r = topic).

(** ORDER BY version DESC, id DESC *)
Definition later (a b : TConfigVersion) : bool :=
  String.ltb (cv_Version b) (cv_Version a) ||
  (bool_decide (cv_Version a = cv_Version b) && (cv_ID b <? cv_ID a)%Z).

Definition latest_of (topic : string) (rows : list TConfigVersion) : option TConfigVersion :=
  fold_left (fun best r => if of_topic topic r
                           then match best with Some b => if later r b then Some r else best | None => Some r end
                           else best) rows None.

Definition taken (topic version : string) (r : TConfigVersion) : bool :=
  of_topic topic r && bool_decide (cv_Version r = version).

(** * Calls *)

Inductive versionE : Type -> Type :=
| TConfigVersionOne (topic : string) : versionE (result (option TConfigVersion))
| TConfigVersionCreate (topic sign version : string) : versionE (result unit)
| VersionNow : versionE gotime
| VersionBegin : versionE (result unit)
| VersionCommit : versionE (result unit)
| VersionRollback : versionE unit.

(** The rows that the transaction sees, and those that others have committed
    since its snapshot: reads do not return them, the unique key counts them. *)
Record vworld : Type := mkVWorld {
  vw_rows : list TConfigVersion;
  vw_hidden : list TConfigVersion;
  vw_saved : option (list TConfigVersion);
  vw_nextID : Z;
  vw_clock : nat -> gotime;
  vw_reads : nat;
  (** the driver's message for a duplicate key *)
  vw_dupMessage : string
}.

Definition version_handle {R} (e : versionE R) : vworld -> R * vworld :=
  match e in versionE R return vworld -> R * vworld with
  | TConfigVersionOne topic => fun w => (Ok (latest_of topic (vw_rows w)), w)
  | TConfigVersionCreate topic sign version => fun w =>
      if existsb (taken topic version) (vw_rows w ++ vw_hidden w)%list then (Err (PlainError (vw_dupMessage w)), w)
      else (Ok tt, mkVWorld (vw_rows w ++ [mkConfigVersion (vw_nextID w) topic sign version])%list (vw_hidden w) (vw_saved w)
                     (vw_nextID w + 1) (vw_clock w) (vw_reads w) (vw_dupMessage w))
  | VersionNow => fun w =>
      (vw_clock w (vw_reads w),
       mkVWorld (vw_rows w) (vw_hidden w) (vw_saved w) (vw_nextID w) (vw_clock w) (S (vw_reads w)) (vw_dupMessage w))
  | VersionBegin => fun w =>
      (Ok tt, mkVWorld (vw_rows w) (vw_hidden w) (Some (vw_rows w)) (vw_nextID w) (vw_clock w) (vw_reads w) (vw_dupMessage w))
  | VersionCommit => fun w =>
      (Ok tt, mkVWorld (vw_rows w ++ vw_hidden w)%list [] None (vw_nextID w) (vw_clock w) (vw_reads w) (vw_dupMessage w))
  | VersionRollback => fun w =>
      (tt, mkVWorld (default (vw_rows w) (vw_saved w) ++ vw_hidden w)%list [] None (vw_nextID w) (vw_clock w) (vw_reads w) (vw_dupMessage w))
  end.

Definition version_fault {R} (e : versionE R) : option R :=
  match e in versionE R return option R with
  | TConfigVersionOne _ => Some (Err DaoError)
  | TConfigVersionCreate _ _ _ => Some (Err DaoError)
  | VersionNow => None
  | VersionBegin => Some (Err DaoError)
  | VersionCommit => Some (Err DaoError)
  | VersionRollback => None
  end.

#[export] Instance version_interp : Interp versionE vworld := {| handle := @version_handle; fault := @version_fault |}.
#[export] Instance version_txn : TxnCalls versionE := {|
  tx_begin := VersionBegin; tx_commit := VersionCommit; tx_rollback := VersionRollback;
  is_commit := fun R (e : versionE R) => match e with VersionCommit => true | _ => false end
|}.

(** * The storager *)

Definition maxDuplicateRetries : nat := 3.

(** The message of an error of the database. *)
Definition db_message (e : goerr) : string := match e with PlainError m => m | _ => "" end.

(** The loop of [UpsertConfigLastExportedVersion].  [Go]'s [err] at the end of
    the loop is that of the last reading of the latest row, which was nil. *)
Fixpoint upsert_loop (n : nat) (loc : Z) (topic sign version : string) : prog versionE (string * option goerr) :=
  match n with
  | O => Ret ("", None)
  | S n' =>
      c <- call (TConfigVersionCreate topic sign version) ;;
      match c with
      | Ok _ => Ret (version, None)
      | Err e =>
          if negb (DuplicateEntryError (db_message e)) then Ret ("", Some e) else
          l <- call (TConfigVersionOne topic) ;;
          match l with
          | Err e' => Ret ("", Some e')
          | Ok None => Ret ("", None)
          | Ok (Some latest) =>
              if bool_decide (cv_DataSign latest = sign) then Ret (cv_Version latest, None)
              else upsert_loop n' loc topic sign (bumpVersion loc (cv_Version latest) version)
          end
      end
  end.

Definition UpsertConfigLastExportedVersion (loc : Z) (topic sign : string) : prog versionE (string * option goerr) :=
  l <- call (TConfigVersionOne topic) ;;
  match l with
  | Err e => Ret ("", Some e)
  | Ok latest =>
      let fresh : prog versionE (string * option goerr) :=
        now <- call VersionNow ;;
        let version := Version loc now in
        let version := match latest with Some l => bumpVersion loc (cv_Version l) version | None => version end in
        upsert_loop maxDuplicateRetries loc topic sign version in
      match latest with
      | Some l => if bool_decide (cv_DataSign l = sign) then Ret (cv_Version l, None) else fresh
      | None => fresh
      end
  end.

(** * The manager *)

Section Manager.
(** The exported data, its [UpdateVersion] and [Sign] (JSON and MD5). *)
Context {D : Type} (UpdateVersion : string -> D -> result D) (Sign : D -> result string).

Record ExportData : Type := mkExportData { ed_Topic : string; ed_Data : D; ed_version : string; ed_Sign : string }.

Definition ExportConfig (loc : Z) (generator : prog versionE (result ExportData))
  : prog versionE (option goerr * option ExportData) :=
  AtomExecute None
    (g <- generator ;;
     match g with
     | Err e => Ret (Some e, None)
     | Ok lrv =>
         match UpdateVersion ZeroVersion (ed_Data lrv) with
         | Err e => Ret (Some e, Some lrv)
         | Ok d0 =>
             match Sign d0 with
             | Err e => Ret (Some e, Some (mkExportData (ed_Topic lrv) d0 (ed_version lrv) ""))
             | Ok sign =>
                 u <- UpsertConfigLastExportedVersion loc (ed_Topic lrv) sign ;;
                 match u with
                 | (v, Some e) => Ret (Some e, Some (mkExportData (ed_Topic lrv) d0 v sign))
                 | (v, None) =>
                     match UpdateVersion v d0 with
                     | Err e => Ret (Some e, Some (mkExportData (ed_Topic lrv) d0 v sign))
                     | Ok d1 => Ret (None, Some (mkExportData (ed_Topic lrv) d1 v sign))
                     end
                 end
             end
         end
     end).
End Manager.
Arguments ExportData D : clear implicits.
Arguments mkExportData {D}.

(** Versions of exports: the text of a time parses back to its second, texts
    are ordered like times, and so an export with new content always gets a
    version after all earlier ones of its topic. *)

Local Open Scope Z_scope.

(** * Two digits *)

Lemma digit_code d : 0 <= d <= 9 -> N_of_ascii (digit_char d) = Z.to_N (48 + d).
Proof. intros Hd. unfold digit_char. apply N_ascii_embedding. lia. Qed.

Lemma digits2_pad2 n s : 0 <= n < 100 -> digits2 (pad2 n +:+ s) = Some (n, s).
Proof.
  intros Hn. unfold digits2, pad2. simpl. rewrite !digit_val_char by (Z.to_euclidean_division_equations; lia).
  do 2 f_equal. Z.to_euclidean_division_equations; lia.
Qed.

Lemma digits4_pad4 n s : 0 <= n <= 9999 -> digits4 (pad4 n +:+ s) = Some (n, s).
Proof.
  intros Hn. unfold digits4, pad4. rewrite string_app_assoc.
  rewrite digits2_pad2 by (Z.to_euclidean_division_equations; lia). cbn [fst snd].
  rewrite digits2_pad2 by (Z.to_euclidean_division_equations; lia).
  do 2 f_equal. Z.to_euclidean_division_equations; lia.
Qed.

Lemma ltb_cons a b s s' : String.ltb (String a s) (String b s') =
  (N_of_ascii a <? N_of_ascii b)%N || ((N_of_ascii a =? N_of_ascii b)%N && String.ltb s s').
Proof.
  unfold String.ltb. cbn [String.compare]. unfold Ascii.compare.
  destruct (N.compare_spec (N_of_ascii a) (N_of_ascii b)) as [E|E|E].
  - rewrite E, N.ltb_irrefl, N.eqb_refl. done.
  - by rewrite (proj2 (N.ltb_lt _ _) E).
  - rewrite (proj2 (N.ltb_ge _ _)), (proj2 (N.eqb_neq _ _)) by lia. done.
Qed.

Lemma ltb_pad2 a b s s' : 0 <= a < 100 -> 0 <= b < 100 ->
  String.ltb (pad2 a +:+ s) (pad2 b +:+ s') = (a <? b) || ((a =? b) && String.ltb s s').
Proof.
  intros Ha Hb. unfold pad2. change (String ?x (String ?y "") +:+ ?z) with (String x (String y z)).
  rewrite !ltb_cons, !digit_code by (Z.to_euclidean_division_equations; lia).
  destruct (String.ltb s s'); rewrite ?andb_true_r, ?andb_false_r, ?orb_false_r; apply Bool.eq_iff_eq_true;
    rewrite ?orb_true_iff, ?andb_true_iff, ?orb_true_iff, ?andb_true_iff, ?N.ltb_lt, ?N.eqb_eq, ?Z.ltb_lt, ?Z.eqb_eq;
    Z.to_euclidean_division_equations; lia.
Qed.

(** * The text of a time *)

(** Its year has four digits. *)
Definition in_years (loc : Z) (t : gotime) : Prop := let '(y, _, _) := Date loc t in 0 <= y <= 9999.

Lemma local_second loc t : let s := local_ns loc t / second in
  0 <= s < 86400 /\ local_day loc t * 86400 + s = t / second + loc.
Proof.
  unfold local_ns, local_day, day_ns, hour, minute, second. cbv zeta. split; Z.to_euclidean_division_equations; lia.
Qed.

(** Texts parse back to the second. *)
Lemma parse_Version loc t : in_years loc t -> parseVersion loc (Version loc t) = Some (t / second * second).
Proof.
  unfold in_years, Version, Date. pose proof (civil_spec (local_day loc t)) as Hc.
  destruct (civil (local_day loc t)) as [[y m] d]. destruct Hc as (Ed & Hm & Hd). intros Hy.
  destruct (local_second loc t) as [Hs Es]. set (s := local_ns loc t / second) in *.
  assert (days_in_month y m <= 31) as H31 by (unfold days_in_month; repeat case_match; lia).
  unfold format_year. rewrite (proj2 (Z.ltb_ge y 0)), (proj2 (Z.ltb_ge 9999 y)) by lia.
  unfold parseVersion. rewrite digits4_pad4 by lia. cbn [mbind option_bind fst snd].
  rewrite digits2_pad2 by lia. cbn [mbind option_bind fst snd]. rewrite digits2_pad2 by lia. cbn [mbind option_bind fst snd].
  unfold digits12. rewrite digits2_pad2 by (Z.to_euclidean_division_equations; lia). cbn [mbind option_bind fst snd].
  rewrite digits2_pad2 by (Z.to_euclidean_division_equations; lia). cbn [mbind option_bind fst snd].
  rewrite <- (string_app_nil_r (pad2 (s mod 60))).
  rewrite digits2_pad2 by (Z.to_euclidean_division_equations; lia). cbn [mbind option_bind fst snd parse_fraction].
  rewrite bool_decide_eq_true_2 by done. cbn [andb].
  destruct (_ && _) eqn:E.
  - f_equal. unfold date_time. rewrite Ed. unfold minute, second in *. clear E. Z.to_euclidean_division_equations; lia.
  - exfalso. revert E. rewrite !andb_false_iff, !Z.leb_gt, !Z.ltb_ge. Z.to_euclidean_division_equations; lia.
Qed.

(** Dates are ordered like days. *)
Lemma civil_lex n n' : n < n' -> let '(y, m, d) := civil n in let '(y', m', d') := civil n' in
  y < y' \/ (y = y' /\ (m < m' \/ (m = m' /\ d < d'))).
Proof.
  intros Hn. pose proof (civil_spec n) as H. pose proof (civil_spec n') as H'.
  destruct (civil n) as [[y m] d], (civil n') as [[y' m'] d']. destruct H as (E & Hm & Hd), H' as (E' & Hm' & Hd').
  destruct (decide (y < y' \/ (y = y' /\ m < m'))); [lia|].
  destruct (decide (y = y' /\ m = m')) as [[-> ->]|Hne]; [unfold date_to_days in *; lia|].
  pose proof (month_before y' m' y m Hm' Hm ltac:(lia)). unfold date_to_days in *. lia.
Qed.

(** Texts are ordered like times. *)
Lemma Version_lt loc t t' : in_years loc t -> in_years loc t' -> t / second < t' / second ->
  String.ltb (Version loc t) (Version loc t') = true.
Proof.
  unfold in_years, Version, Date. intros Hy Hy' Ht.
  destruct (local_second loc t) as [Hs Es]. destruct (local_second loc t') as [Hs' Es'].
  pose proof (civil_lex (local_day loc t) (local_day loc t')) as Hlex.
  pose proof (civil_spec (local_day loc t)) as Hc. pose proof (civil_spec (local_day loc t')) as Hc'.
  set (s := local_ns loc t / second) in *. set (s' := local_ns loc t' / second) in *.
  assert (local_day loc t < local_day loc t' \/ (local_day loc t = local_day loc t' /\ s < s')) as Hcase by lia.
  clearbody s s'.
  destruct (civil (local_day loc t)) as [[y m] d] eqn:C, (civil (local_day loc t')) as [[y' m'] d'] eqn:C'.
  destruct Hc as (Ed & Hm & Hd), Hc' as (Ed' & Hm' & Hd').
  assert (forall y m, days_in_month y m <= 31) as H31 by (intros; unfold days_in_month; repeat case_match; lia).
  pose proof (H31 y m). pose proof (H31 y' m').
  assert ((y < y' \/ (y = y' /\ (m < m' \/ (m = m' /\ d < d')))) \/ (y = y' /\ m = m' /\ d = d' /\ s < s')) as Hl.
  { destruct Hcase as [Hlt|[Heq Hlt]]; [left; by apply Hlex|right]. rewrite Heq in C. rewrite C in C'.
    injection C' as -> -> ->. done. }
  unfold format_year. rewrite !(proj2 (Z.ltb_ge _ 0)), !(proj2 (Z.ltb_ge 9999 _)) by lia.
  unfold pad4. rewrite !string_app_assoc.
  rewrite <- (string_app_nil_r (pad2 (s mod 60))), <- (string_app_nil_r (pad2 (s' mod 60))).
  rewrite !ltb_pad2 by (clear - Hs Hs' Hy Hy' Hm Hm' Hd Hd' H H0; Z.to_euclidean_division_equations; lia).
  clear - Hs Hs' Hy Hy' Hm Hm' Hd Hd' Hl.
  rewrite !orb_true_iff, !andb_true_iff, !orb_true_iff, !andb_true_iff, !orb_true_iff, !andb_true_iff.
  rewrite !orb_true_iff, !andb_true_iff, !orb_true_iff, !andb_true_iff, !orb_true_iff, !andb_true_iff.
  rewrite !Z.ltb_lt, !Z.eqb_eq. Z.to_euclidean_division_equations; lia.
Qed.

(** * Versions as times *)

(** The second of a time in the zone, and the first second of year 10000. *)
Definition sec (loc : Z) (t : gotime) : Z := t / second + loc.
Definition horizon : Z := date_to_days 10000 1 1 * 86400.

Lemma sec_in_years loc t : 0 <= sec loc t < horizon -> in_years loc t.
Proof.
  unfold sec, horizon, in_years, Date. intros Hs. destruct (local_second loc t) as [Hl El].
  pose proof (civil_spec (local_day loc t)) as Hc. destruct (civil (local_day loc t)) as [[y m] d].
  destruct Hc as (Ed & Hm & Hd). set (n := local_day loc t) in *.
  assert (0 <= n < date_to_days 10000 1 1) as Hn by lia.
  destruct (months_spec y m m Hm Hm) as (H1 & H2 & H3 & _).
  assert (~ y <= 0) as Hy0.
  { intros Hy. pose proof (days_before_year_mono (y + 1) 1 ltac:(lia)) as Hmono.
    rewrite days_before_year_succ in Hmono. unfold date_to_days in *. change (days_before_year 1) with 0 in *. lia. }
  assert (~ 10000 <= y) as Hy1; [|lia].
  intros Hy. pose proof (days_before_year_mono 10000 y ltac:(lia)) as Hmono. unfold date_to_days in *.
  change (days_before_month 10000 1) with 0 in *. lia.
Qed.

Lemma Version_same loc t t' : sec loc t = sec loc t' -> Version loc t = Version loc t'.
Proof.
  unfold sec. intros Hs. destruct (local_second loc t) as [Hl El]. destruct (local_second loc t') as [Hl' El'].
  assert (local_day loc t = local_day loc t' /\ local_ns loc t / second = local_ns loc t' / second) as [E1 E2] by lia.
  unfold Version, Date. by rewrite E1, E2.
Qed.

Lemma ltb_asym a b : String.ltb a b = true -> String.ltb b a = false.
Proof.
  unfold String.ltb. rewrite (String.compare_antisym b a). by destruct (String.compare a b).
Qed.

Lemma Version_ltb loc t t' : 0 <= sec loc t < horizon -> 0 <= sec loc t' < horizon ->
  String.ltb (Version loc t) (Version loc t') = (sec loc t <? sec loc t').
Proof.
  intros Ht Ht'. destruct (Z.ltb_spec (sec loc t) (sec loc t')) as [Hlt|Hge].
  - apply Version_lt; [by apply sec_in_years..|]. unfold sec in Hlt. lia.
  - destruct (Z.eq_dec (sec loc t) (sec loc t')) as [E|Hne].
    + rewrite (Version_same loc t t' E). destruct (String.ltb _ _) eqn:El; [|done]. pose proof (ltb_asym _ _ El). congruence.
    + apply ltb_asym, Version_lt; [by apply sec_in_years..|]. unfold sec in *. lia.
Qed.

(** A row that an export has written, by the second of its version. *)
Definition dated (loc : Z) (r : TConfigVersion) (n : Z) : Prop :=
  exists t, cv_Version r = Version loc t /\ sec loc t = n /\ 0 <= n < horizon.

Lemma dated_later loc a b n m : dated loc a n -> dated loc b m -> later a b = true -> m <= n.
Proof.
  intros (t & Ea & Hn & Ht) (u & Eb & Hm & Hu). unfold later. rewrite Ea, Eb, Version_ltb by lia.
  intros [Hlt|[He _]%andb_true_iff]%orb_true_iff; [lia|]. apply bool_decide_eq_true in He.
  destruct (Z.lt_trichotomy m n) as [|[|Hlt]]; [lia|lia|].
  assert (String.ltb (Version loc t) (Version loc u) = true) as Hx by (rewrite Version_ltb; lia).
  rewrite He in Hx. pose proof (ltb_asym _ _ Hx). congruence.
Qed.

Lemma not_later loc a b n m : dated loc a n -> dated loc b m -> later a b = false -> n <= m.
Proof.
  intros (t & Ea & Hn & Ht) (u & Eb & Hm & Hu). unfold later. rewrite Ea, Eb, Version_ltb by lia.
  intros [Hlt _]%orb_false_iff. lia.
Qed.

(** * The latest row *)

Definition dated_topic (loc : Z) (topic : string) (rows : list TConfigVersion) (bound : Z) : Prop :=
  forall r, r ∈ rows -> cv_Name r = topic -> exists n, dated loc r n /\ n < bound.

Lemma dated_unique loc r n m : dated loc r n -> dated loc r m -> n = m.
Proof.
  intros (t & Et & Hn & Ht) (u & Eu & Hm & Hu). rewrite Et in Eu.
  destruct (Z.lt_trichotomy n m) as [Hl|[|Hl]]; [|done|].
  - assert (String.ltb (Version loc t) (Version loc u) = true) as Hx by (rewrite Version_ltb; lia).
    rewrite Eu in Hx. pose proof (ltb_asym _ _ Hx). congruence.
  - assert (String.ltb (Version loc u) (Version loc t) = true) as Hx by (rewrite Version_ltb; lia).
    rewrite Eu in Hx. pose proof (ltb_asym _ _ Hx). congruence.
Qed.

(** [best] is the latest row of the topic among [rows]. *)
Definition is_latest (loc : Z) (topic : string) (rows : list TConfigVersion) (best : option TConfigVersion) : Prop :=
  match best with
  | None => forall r, r ∈ rows -> cv_Name r <> topic
  | Some b => b ∈ rows /\ cv_Name b = topic /\ exists n, dated loc b n /\
      forall r m, r ∈ rows -> cv_Name r = topic -> dated loc r m -> m <= n
  end.

Lemma is_latest_step loc topic rows best r : is_latest loc topic rows best ->
  (cv_Name r = topic -> exists n, dated loc r n) ->
  is_latest loc topic (rows ++ [r])
    (if of_topic topic r then match best with Some b => if later r b then Some r else best | None => Some r end else best).
Proof.
  intros Hb Hr. unfold of_topic. case_bool_decide as Ht.
  - destruct (Hr Ht) as [n Hn].
    assert (forall m, (forall r' m', r' ∈ rows -> cv_Name r' = topic -> dated loc r' m' -> m' <= m) -> n <= m ->
      forall r' m', r' ∈ (rows ++ [r])%list -> cv_Name r' = topic -> dated loc r' m' -> m' <= m) as Hmax.
    { intros m Hold Hnm r' m' [Hin| ->%list_elem_of_singleton]%elem_of_app Hn' Hd; [by apply (Hold r')|].
      by rewrite (dated_unique loc r m' n). }
    destruct best as [b|]; [destruct Hb as (Hin & Hnb & nb & Hdb & Hall); destruct (later r b) eqn:El|].
    + split; [apply elem_of_app; right; left|]. split; [done|]. exists n. split; [done|]. apply Hmax; [|done].
      intros r' m' H1 H2 H3. etrans; [by apply (Hall r')|]. by apply (dated_later loc r b).
    + split; [apply elem_of_app; by left|]. split; [done|]. exists nb. split; [done|]. apply Hmax; [done|].
      by apply (not_later loc r b).
    + split; [apply elem_of_app; right; left|]. split; [done|]. exists n. split; [done|]. apply Hmax; [|done].
      intros r' m' H1 H2. by destruct (Hb r' H1).
  - destruct best as [b|].
    + destruct Hb as (Hin & Hnb & nb & Hdb & Hall). split; [apply elem_of_app; by left|]. split; [done|].
      exists nb. split; [done|]. intros r' m' [H1| ->%list_elem_of_singleton]%elem_of_app H2 H3; [by apply (Hall r')|done].
    + intros r' [H1| ->%list_elem_of_singleton]%elem_of_app; [by apply Hb|done].
Qed.

Lemma latest_of_spec loc topic rows bound : dated_topic loc topic rows bound ->
  is_latest loc topic rows (latest_of topic rows).
Proof.
  intros Hd. unfold latest_of. induction rows as [|r rows IH] using rev_ind; [by intros r []%not_elem_of_nil|].
  rewrite fold_left_app. cbn [fold_left]. apply is_latest_step.
  - apply IH. intros r' Hr'. apply Hd, elem_of_app. by left.
  - intros Ht. destruct (Hd r) as (n & Hn & _); [apply elem_of_app; right; left|done|]. by exists n.
Qed.

(** * Upserts *)

Lemma bump_after loc l c n t : dated loc l n -> n + 1 < horizon -> c = Version loc t -> 0 <= sec loc t < horizon ->
  exists u, bumpVersion loc (cv_Version l) c = Version loc u /\ n < sec loc u /\ sec loc t <= sec loc u < Z.max (n + 2) (sec loc t + 1).
Proof.
  intros (tl & El & Hn & Hr) Hb -> Ht. unfold bumpVersion. rewrite El, parse_Version by (apply sec_in_years; lia).
  set (u := tl / second * second + second).
  assert (sec loc u = n + 1) as Hu by (unfold sec, u, second in *; Z.to_euclidean_division_equations; lia).
  rewrite Version_ltb by lia. destruct (Z.ltb_spec (sec loc t) (sec loc u)); [exists u|exists t]; (split; [done|]); lia.
Qed.

(** A version that is later than every one of the topic is free. *)
Lemma not_taken loc topic rows u : (forall r, r ∈ rows -> cv_Name r = topic -> exists n, dated loc r n /\ n < sec loc u) ->
  0 <= sec loc u < horizon -> existsb (taken topic (Version loc u)) rows = false.
Proof.
  intros Hr Hu. apply Bool.not_true_iff_false. intros (r & Hin & Ht)%existsb_exists.
  apply andb_true_iff in Ht as [H1 H2]. apply bool_decide_eq_true in H1, H2.
  destruct (Hr r) as (n & (t & Et & Hn & Hrg) & Hlt); [by apply list_elem_of_In|done|].
  assert (String.ltb (Version loc t) (Version loc u) = true) as Hx by (rewrite Version_ltb; lia).
  rewrite <- Et, H2 in Hx. pose proof (ltb_asym _ _ Hx). congruence.
Qed.

(** The world of an export: the rows of the topic are dated before [bound],
    the clock is in range, and no other transaction commits in between. *)
Record version_world (loc : Z) (topic : string) (bound : Z) (w : vworld) : Prop := {
  ver_rows : dated_topic loc topic (vw_rows w) bound;
  ver_clock : forall n, 0 <= sec loc (vw_clock w n) < bound;
  ver_bound : bound + 1 < horizon;
  ver_alone : vw_hidden w = []
}.

(** What an export leaves behind. *)
Definition exported (loc : Z) (topic sign : string) (w w' : vworld) (v : string) : Prop :=
  match latest_of topic (vw_rows w) with
  | Some l => if bool_decide (cv_DataSign l = sign) then v = cv_Version l /\ vw_rows w' = vw_rows w
              else vw_rows w' = (vw_rows w ++ [mkConfigVersion (vw_nextID w) topic sign v])%list
  | None => vw_rows w' = (vw_rows w ++ [mkConfigVersion (vw_nextID w) topic sign v])%list
  end /\
  (vw_rows w' <> vw_rows w -> forall r, r ∈ vw_rows w -> cv_Name r = topic -> String.ltb (cv_Version r) v = true).

Lemma upsert_loop_first loc topic sign v w n : existsb (taken topic v) (vw_rows w ++ vw_hidden w) = false ->
  exists w', exec [] (upsert_loop (S n) loc topic sign v) w = ((v, None), w') /\
    vw_rows w' = (vw_rows w ++ [mkConfigVersion (vw_nextID w) topic sign v])%list /\
    vw_hidden w' = vw_hidden w /\ vw_clock w' = vw_clock w.
Proof.
  intros Hf. cbn [upsert_loop bind call]. rewrite exec_call. cbn [hd tl answer handle version_interp version_handle].
  rewrite Hf. cbn [fst snd]. rewrite exec_ret. by eexists.
Qed.

(** A new version, with or without an earlier one. *)
Lemma upsert_fresh loc topic sign bound w l : version_world loc topic bound w -> latest_of topic (vw_rows w) = l ->
  exists w' u, exec [] (now <- call VersionNow ;;
      upsert_loop maxDuplicateRetries loc topic sign
        (match l with Some r => bumpVersion loc (cv_Version r) (Version loc now) | None => Version loc now end)) w
    = ((Version loc u, None), w') /\
    vw_rows w' = (vw_rows w ++ [mkConfigVersion (vw_nextID w) topic sign (Version loc u)])%list /\
    vw_hidden w' = [] /\ vw_clock w' = vw_clock w /\ 0 <= sec loc u < bound + 1 /\
    forall r, r ∈ vw_rows w -> cv_Name r = topic -> exists n, dated loc r n /\ n < sec loc u.
Proof.
  intros [Hr Hc Hb Ha] Hl. cbn [bind call]. rewrite exec_call. cbn [hd tl answer handle version_interp version_handle fst snd].
  set (w1 := mkVWorld _ _ _ _ _ _ _). set (now := vw_clock w (vw_reads w)). pose proof (Hc (vw_reads w)) as Hnow. fold now in Hnow.
  pose proof (latest_of_spec loc topic _ bound Hr) as Hlat. rewrite Hl in Hlat.
  assert (exists u, match l with Some r => bumpVersion loc (cv_Version r) (Version loc now) | None => Version loc now end
      = Version loc u /\ 0 <= sec loc u < bound + 1 /\
      forall r, r ∈ vw_rows w -> cv_Name r = topic -> exists n, dated loc r n /\ n < sec loc u) as (u & -> & Hu & Hlt).
  { destruct l as [l|]; [|exists now; split; [done|]; split; [lia|]; intros r H1 H2; by destruct (Hlat r H1)].
    destruct Hlat as (Hin & Hn & n & Hd & Hall). destruct (Hr l Hin Hn) as (n' & Hd' & Hn').
    rewrite (dated_unique loc l n' n Hd' Hd) in Hn'.
    destruct (bump_after loc l (Version loc now) n now Hd ltac:(lia) eq_refl ltac:(lia)) as (u & -> & H1 & H2).
    exists u. split; [done|]. destruct Hd as (_ & _ & _ & Hpos). split; [lia|].
    intros r Hrin Hrn. destruct (Hr r Hrin Hrn) as (m & Hm & _). exists m. split; [done|].
    pose proof (Hall r m Hrin Hrn Hm). lia. }
  destruct (upsert_loop_first loc topic sign (Version loc u) w1 2) as (w' & He & H1 & H2 & H3).
  { cbn. rewrite Ha, app_nil_r. apply (not_taken loc); [done|lia]. }
  change maxDuplicateRetries with 3%nat. rewrite He. exists w', u. cbn in *. by rewrite H2.
Qed.

Lemma upsert_advances_lemma loc topic sign bound w : version_world loc topic bound w ->
  exists w' v, exec [] (UpsertConfigLastExportedVersion loc topic sign) w = ((v, None), w') /\
    exported loc topic sign w w' v /\ dated_topic loc topic (vw_rows w') (bound + 1).
Proof.
  intros Hw. unfold UpsertConfigLastExportedVersion. cbn [bind call]. rewrite exec_call.
  cbn [hd tl answer handle version_interp version_handle fst snd].
  assert (dated_topic loc topic (vw_rows w) (bound + 1)) as Hd1.
  { intros r H1 H2. destruct (ver_rows _ _ _ _ Hw r H1 H2) as (n & Hn & Hb). exists n. split; [done|lia]. }
  destruct (upsert_fresh loc topic sign bound w _ Hw eq_refl) as (w' & u & He & Hrows & Hh & Hcl & Hu & Hlt).
  pose proof (ver_bound _ _ _ _ Hw) as Hbound.
  assert (forall r, r ∈ vw_rows w -> cv_Name r = topic -> String.ltb (cv_Version r) (Version loc u) = true) as Hltb.
  { intros r H1 H2. destruct (Hlt r H1 H2) as (n & (t & -> & Hn & Hr) & Hnu). rewrite Version_ltb; lia. }
  assert (dated_topic loc topic (vw_rows w') (bound + 1)) as Hd2.
  { rewrite Hrows. intros r [H1| ->%list_elem_of_singleton]%elem_of_app H2; [by apply Hd1|].
    exists (sec loc u). split; [|lia]. exists u. cbn. split; [done|]. split; [done|]. lia. }
  unfold exported. destruct (latest_of topic (vw_rows w)) as [l|]; [case_bool_decide|]; cbn [bind call] in He.
  1: { rewrite exec_ret. exists w, (cv_Version l). by repeat split. }
  all: rewrite He; exists w', (Version loc u); split; [done|]; by split; [split|].
Qed.

(** A row after all others is the latest. *)
Lemma latest_is_new loc topic rows bound new : dated_topic loc topic (rows ++ [new]) bound -> cv_Name new = topic ->
  (forall r, r ∈ rows -> cv_Name r = topic -> String.ltb (cv_Version r) (cv_Version new) = true) ->
  latest_of topic (rows ++ [new]) = Some new.
Proof.
  intros Hd Hnew Hlt. pose proof (latest_of_spec loc topic _ _ Hd) as Hlat.
  assert (new ∈ (rows ++ [new])%list) as Hin by (apply elem_of_app; right; left).
  destruct (latest_of topic _) as [l|]; [|by destruct (Hlat new Hin)].
  destruct Hlat as (Hl & Hn & n & Hdl & Hall). apply elem_of_app in Hl as [Hl| ->%list_elem_of_singleton]; [|done]. exfalso.
  specialize (Hlt l Hl Hn). destruct (Hd new Hin Hnew) as (m & Hm & _). pose proof (Hall new m Hin Hnew Hm) as Hle.
  destruct Hm as (u & Eu & Hmu & Hmr), Hdl as (t & Et & Hnt & Hnr). rewrite Et, Eu, Version_ltb in Hlt by lia. lia.
Qed.

(** The row of what was exported is the latest. *)
Lemma exported_latest loc topic sign bound w w' v : exported loc topic sign w w' v -> dated_topic loc topic (vw_rows w') bound ->
  exists l, latest_of topic (vw_rows w') = Some l /\ cv_DataSign l = sign /\ cv_Version l = v.
Proof.
  intros [Hx Hlt] Hd.
  assert (vw_rows w' = (vw_rows w ++ [mkConfigVersion (vw_nextID w) topic sign v])%list ->
    latest_of topic (vw_rows w') = Some (mkConfigVersion (vw_nextID w) topic sign v)) as Hnew.
  { intros Hr. rewrite Hr in Hlt, Hd |- *. apply (latest_is_new loc topic _ bound); [done|done|]. apply Hlt.
    intros E. apply (f_equal length) in E. rewrite length_app in E. simpl in E. lia. }
  destruct (latest_of topic (vw_rows w)) as [l|] eqn:El; [case_bool_decide as Hs|]; [|rewrite Hnew by done; by eexists..].
  destruct Hx as [-> Hr]. exists l. by rewrite Hr.
Qed.

(** * Exports *)

(** A failing call makes the storager answer with an error, so a run that
    answers with none is one in which every call has worked. *)
Definition strict {A} (p : prog versionE (A * option goerr)) : Prop :=
  forall os w, (exec os p w).1.2 = None -> exec os p w = exec [] p w.
Lemma strict_call {A R} (e : versionE R) (k : R -> prog versionE (A * option goerr)) :
  (forall r, strict (k r)) -> (forall r os w, fault e = Some r -> (exec os (k r) w).1.2 <> None) -> strict (Call e k).
Proof.
  intros Hk Hf os w. rewrite !exec_call. unfold answer at 1 2 3 4. cbn [hd tl].
  destruct (hd Normal os); [|destruct (fault e) as [r|] eqn:E..]; intros H;
    first [by apply Hk|exfalso; by apply (Hf r _ _ eq_refl H)].
Qed.
Lemma strict_upsert loc topic sign : strict (UpsertConfigLastExportedVersion loc topic sign).
Proof.
  assert (forall A (a : A), strict (Ret (a, None))) as Hret by done.
  assert (forall n v, strict (upsert_loop n loc topic sign v)) as Hloop.
  { induction n as [|n IH]; intros v; cbn [upsert_loop bind call]; [done|]. apply strict_call; [|by intros r os w [= <-]].
    intros [u|e]; [done|]. destruct (negb _); [done|]. cbn [bind call]. apply strict_call; [|by intros r os w [= <-]].
    intros [[l|]|e']; [|done..]. case_bool_decide; [done|apply IH]. }
  unfold UpsertConfigLastExportedVersion. cbn [bind call]. apply strict_call; [|by intros r os w [= <-]].
  intros [[l|]|e]; [|apply strict_call; [intros; apply Hloop|done]|done].
  case_bool_decide; [done|]. cbn [bind call]. apply strict_call; [intros; apply Hloop|done].
Qed.

(** While no other transaction commits, a transaction that is rolled back
    leaves the rows alone. *)
Definition same_rows (w w' : vworld) : Prop := vw_hidden w = [] -> vw_rows w' = vw_rows w /\ vw_hidden w' = [].
Definition kept_rows (w w' : vworld) : Prop := vw_saved w' = vw_saved w /\ vw_hidden w' = vw_hidden w.
#[export] Instance same_rows_preorder : PreOrder same_rows.
Proof. split; [by intros w|]. intros x y z H1 H2 Hx. destruct (H1 Hx) as [E Hy]. rewrite <- E. by apply H2. Qed.
#[export] Instance kept_rows_preorder : PreOrder kept_rows.
Proof. split; unfold kept_rows; [done|]. intros x y z [? ?] [? ?]. split; congruence. Qed.
Definition version_statement (R : Type) (e : versionE R) : Prop :=
  match e with VersionBegin | VersionCommit | VersionRollback => False | _ => True end.
Lemma version_kept R (e : versionE R) w : version_statement R e -> kept_rows w (handle e w).2.
Proof. intros He. destruct e; try done. cbn. by destruct (existsb _ _). Qed.
#[export] Instance version_transactional : Transactional versionE vworld same_rows kept_rows.
Proof.
  split; try apply _; unfold same_rows, kept_rows.
  - intros [] w e; by cbn.
  - intros [] [] w w1 Hok [Hs Hh] Hw; try discriminate Hok; cbn in *; by rewrite Hs, Hh, Hw, app_nil_r.
  - done.
  - intros w Hw. cbn. by rewrite Hw, app_nil_r.
  - intros [] w Hw; cbn; by rewrite app_nil_r.
  - done.
Qed.

Section Exports.
Context {D : Type} (UpdateVersion : string -> D -> result D) (Sign : D -> result string) (loc : Z).
Implicit Types (lrv : ExportData D) (w : vworld).

(** The export of generated data, and the closure of its transaction. *)
Definition export lrv : prog versionE (option goerr * option (ExportData D)) :=
  ExportConfig UpdateVersion Sign loc (Ret (Ok lrv)).
Definition closure lrv : prog versionE (option goerr * option (ExportData D)) :=
  match UpdateVersion ZeroVersion (ed_Data lrv) with
  | Err e => Ret (Some e, Some lrv)
  | Ok d0 =>
      match Sign d0 with
      | Err e => Ret (Some e, Some (mkExportData (ed_Topic lrv) d0 (ed_version lrv) ""))
      | Ok sign =>
          u <- UpsertConfigLastExportedVersion loc (ed_Topic lrv) sign ;;
          match u with
          | (v, Some e) => Ret (Some e, Some (mkExportData (ed_Topic lrv) d0 v sign))
          | (v, None) =>
              match UpdateVersion v d0 with
              | Err e => Ret (Some e, Some (mkExportData (ed_Topic lrv) d0 v sign))
              | Ok d1 => Ret (None, Some (mkExportData (ed_Topic lrv) d1 v sign))
              end
          end
      end
  end.
Lemma export_closure lrv : export lrv = AtomExecute None (closure lrv).
Proof. done. Qed.
Lemma closure_statements lrv : all_calls version_statement (closure lrv).
Proof.
  assert (forall n t s v, all_calls version_statement (upsert_loop n loc t s v)) as Hl.
  { intros n t s. induction n as [|n IH]; intros v; cbn [upsert_loop]; calls_solve ltac:(first [apply IH|exact I]). }
  unfold closure, UpsertConfigLastExportedVersion. calls_solve ltac:(first [apply Hl|exact I]).
Qed.

(** What an export gives: the data with the version [v] of its content. *)
Definition delivered lrv w (data : option (ExportData D)) w' : Prop := exists d0 sign v d1,
  UpdateVersion ZeroVersion (ed_Data lrv) = Ok d0 /\ Sign d0 = Ok sign /\ UpdateVersion v d0 = Ok d1 /\
  data = Some (mkExportData (ed_Topic lrv) d1 v sign) /\ exported loc (ed_Topic lrv) sign w w' v.
Definition delivered_again lrv (data : option (ExportData D)) w' : Prop := exists d0 sign v d1,
  UpdateVersion ZeroVersion (ed_Data lrv) = Ok d0 /\ Sign d0 = Ok sign /\ UpdateVersion v d0 = Ok d1 /\
  data = Some (mkExportData (ed_Topic lrv) d1 v sign) /\
  exists l, latest_of (ed_Topic lrv) (vw_rows w') = Some l /\ cv_DataSign l = sign /\ cv_Version l = v.

Lemma closure_works lrv bound w os data : version_world loc (ed_Topic lrv) bound w ->
  (exec os (closure lrv) w).1 = (None, data) -> delivered lrv w data (exec os (closure lrv) w).2 /\
    delivered_again lrv data (exec os (closure lrv) w).2.
Proof.
  intros Hw. unfold closure. destruct (UpdateVersion ZeroVersion (ed_Data lrv)) as [d0|e] eqn:E0; [|by rewrite exec_ret].
  destruct (Sign d0) as [sign|e] eqn:Es; [|by rewrite exec_ret]. rewrite exec_bind.
  pose proof (strict_upsert loc (ed_Topic lrv) sign os w) as Hst.
  destruct (exec os (UpsertConfigLastExportedVersion _ _ _) w) as [[v [e|]] w1]; cbn [fst snd] in *; [by rewrite exec_ret|].
  specialize (Hst eq_refl). destruct (upsert_advances_lemma loc (ed_Topic lrv) sign bound w Hw) as (w' & v' & He & Hx & Hd).
  rewrite He in Hst. injection Hst as -> ->.
  destruct (UpdateVersion v' d0) as [d1|e] eqn:E1; rewrite exec_ret; [|done]. intros [= <-]. cbn [snd].
  split; exists d0, sign, v', d1; (do 4 (split; [done|])); [done|]. by apply (exported_latest loc (ed_Topic lrv) sign (bound + 1) w).
Qed.
(** Content that is the latest already. *)
Lemma closure_again lrv w os data data' : delivered_again lrv data w ->
  (exec os (closure lrv) w).1 = (None, data') -> data' = data /\ vw_rows (exec os (closure lrv) w).2 = vw_rows w.
Proof.
  intros (d0 & sign & v & d1 & E0 & Es & E1 & -> & l & Hl & Hs & Hv). unfold closure. rewrite E0, Es, exec_bind.
  pose proof (strict_upsert loc (ed_Topic lrv) sign os w) as Hst.
  assert (exec [] (UpsertConfigLastExportedVersion loc (ed_Topic lrv) sign) w = ((v, None), w)) as He.
  { unfold UpsertConfigLastExportedVersion. cbn [bind call]. rewrite exec_call.
    cbn [hd tl answer handle version_interp version_handle fst snd]. by rewrite Hl, bool_decide_eq_true_2, exec_ret, Hv by done. }
  destruct (exec os (UpsertConfigLastExportedVersion _ _ _) w) as [[v' [e|]] w1]; cbn [fst snd] in *; [by rewrite exec_ret|].
  specialize (Hst eq_refl). rewrite He in Hst. injection Hst as -> ->. rewrite E1, exec_ret. by intros [= <-].
Qed.

Lemma begin_ok os w w0 : answer (hd Normal os) VersionBegin w = (Ok tt, w0) ->
  vw_rows w0 = vw_rows w /\ vw_hidden w0 = vw_hidden w /\ vw_clock w0 = vw_clock w /\ vw_nextID w0 = vw_nextID w.
Proof. destruct (hd Normal os); cbn; by intros [= <-]. Qed.
Lemma begin_world os w w0 topic bound : answer (hd Normal os) VersionBegin w = (Ok tt, w0) ->
  version_world loc topic bound w -> version_world loc topic bound w0.
Proof. intros (H1 & H2 & H3 & _)%begin_ok [Hr Hc Hb Ha]. split; [by rewrite H1|by rewrite H3|done|by rewrite H2]. Qed.

(** From the closure to the export: the same rows before and after. *)
Lemma delivered_moved lrv w w0 data w1 w' : vw_rows w0 = vw_rows w -> vw_nextID w0 = vw_nextID w -> vw_rows w' = vw_rows w1 ->
  delivered lrv w0 data w1 -> delivered lrv w data w'.
Proof.
  intros H1 H2 H3 (d0 & sign & v & d1 & ? & ? & ? & ? & H). exists d0, sign, v, d1. do 4 (split; [done|]).
  unfold exported in *. by rewrite H3, <- H1, <- H2.
Qed.
Lemma export_gives lrv bound w os data : version_world loc (ed_Topic lrv) bound w ->
  (exec os (export lrv) w).1 = (None, data) ->
  delivered lrv w data (exec os (export lrv) w).2 /\ delivered_again lrv data (exec os (export lrv) w).2.
Proof.
  intros Hw. rewrite export_closure. intros He.
  destruct (AtomExecute_works None (closure lrv) os w data He) as (os' & o & w0 & H0 & H1 & Hc & ->).
  destruct (closure_works lrv bound w0 os' data (begin_world _ _ _ _ _ H0 Hw) H1) as [Hd Ha].
  destruct (begin_ok _ _ _ H0) as (Hr & Hh & _ & Hn).
  pose proof (exec_stable version_statement kept_rows version_kept (closure lrv) (closure_statements lrv) os' w0) as [_ Hk].
  assert (vw_rows (answer o tx_commit (exec os' (closure lrv) w0).2).2 = vw_rows (exec os' (closure lrv) w0).2) as Hrows.
  { destruct o; try discriminate Hc. cbn. by rewrite Hk, Hh, (ver_alone _ _ _ _ Hw), app_nil_r. }
  split; [by eapply delivered_moved|]. unfold delivered_again in *. by rewrite Hrows.
Qed.
Lemma export_fails lrv bound w os e data : version_world loc (ed_Topic lrv) bound w ->
  (exec os (export lrv) w).1 = (Some e, data) -> vw_rows (exec os (export lrv) w).2 = vw_rows w \/
    (commit_unanswered os (export lrv) w = true /\ delivered lrv w data (exec os (export lrv) w).2).
Proof.
  intros Hw. rewrite export_closure. intros He.
  destruct (AtomExecute_ends (same := same_rows) (kept := kept_rows) version_statement version_kept None (closure lrv) os w e data
    (closure_statements lrv) He) as [Hs|(Hu & os' & w0 & H0 & H1 & Hs)]; [left; by apply Hs, (ver_alone _ _ _ _ Hw)|right].
  split; [done|]. destruct (closure_works lrv bound w0 os' data (begin_world _ _ _ _ _ H0 Hw) H1) as [Hd _].
  destruct (begin_ok _ _ _ H0) as (Hr & Hh & _ & Hn).
  pose proof (exec_stable version_statement kept_rows version_kept (closure lrv) (closure_statements lrv) os' w0) as [_ Hk].
  eapply delivered_moved; [exact Hr|exact Hn| |exact Hd]. apply Hs. by rewrite Hk, Hh, (ver_alone _ _ _ _ Hw).
Qed.
Lemma export_again lrv w os data data' : vw_hidden w = [] -> delivered_again lrv data w ->
  (exec os (export lrv) w).1 = (None, data') -> data' = data /\ vw_rows (exec os (export lrv) w).2 = vw_rows w.
Proof.
  intros Hw Ha. rewrite export_closure. intros He.
  destruct (AtomExecute_works None (closure lrv) os w data' He) as (os' & o & w0 & H0 & H1 & Hc & ->).
  destruct (begin_ok _ _ _ H0) as (Hr & Hh & _ & _).
  destruct (closure_again lrv w0 os' data data') as [Hd Hrows]; [by unfold delivered_again in *; rewrite Hr|exact H1|].
  split; [exact Hd|]. pose proof (exec_stable version_statement kept_rows version_kept (closure lrv) (closure_statements lrv) os' w0) as [_ Hk].
  destruct o; try discriminate Hc. cbn. by rewrite Hk, Hh, Hw, app_nil_r, Hrows.
Qed.
Lemma export_alone {A} (p : prog versionE A) os w : vw_hidden w = [] -> vw_hidden (exec os p w).2 = [].
Proof.
  apply (exec_stable (fun _ _ => True) (fun w w' => vw_hidden w = [] -> vw_hidden w' = [])).
  - intros R e w' _ Hw. destruct e; try done. cbn. by destruct (existsb _ _).
  - induction p; by constructor.
Qed.
Lemma export_succeeds lrv bound w d0 sign : version_world loc (ed_Topic lrv) bound w ->
  UpdateVersion ZeroVersion (ed_Data lrv) = Ok d0 -> Sign d0 = Ok sign -> (forall v, is_ok (UpdateVersion v d0) = true) ->
  (exec [] (export lrv) w).1.1 = None.
Proof.
  intros Hw E0 Es Ev. rewrite export_closure. unfold AtomExecute. cbn [bind call]. rewrite exec_call. cbn [hd tl answer].
  destruct (handle tx_begin w) as [[[]|e] w0] eqn:H0; [|done]. cbn [fst snd].
  destruct (upsert_advances_lemma loc (ed_Topic lrv) sign bound w0) as (w' & v & He & _); [by apply (begin_world [] w)|].
  rewrite exec_bind_nil. unfold closure. rewrite E0, Es, exec_bind_nil, He. cbn [fst snd]. specialize (Ev v).
  destruct (UpdateVersion v d0) as [d1|e]; [|done]. rewrite exec_ret. cbn [fst snd bind call]. rewrite exec_call. cbn. by rewrite exec_ret.
Qed.

(** C39: With no other export of the topic committing at the same time, and
    rows and clock in the years of versions: an export that works returns the
    version of the latest row if its content is that of the latest row, and
    writes nothing; otherwise it appends one row, and its version comes after
    those of all rows of the topic, even when the clock has gone back.
    Exporting the same content once more gives the same version and writes
    nothing.  An export that fails, whatever call it was, leaves the rows
    alone, unless only the answer of its COMMIT was lost; and when no call
    fails the export works. *)
Theorem export_versions_advance lrv bound w os : version_world loc (ed_Topic lrv) bound w ->
  let '((err, data), w') := exec os (export lrv) w in
  match err with
  | Some _ => vw_rows w' = vw_rows w \/ (commit_unanswered os (export lrv) w = true /\ delivered lrv w data w')
  | None => delivered lrv w data w' /\ forall os' data' w'', exec os' (export lrv) w' = ((None, data'), w'') ->
      data' = data /\ vw_rows w'' = vw_rows w'
  end /\
  (os = [] -> forall d0 sign, UpdateVersion ZeroVersion (ed_Data lrv) = Ok d0 -> Sign d0 = Ok sign ->
     (forall v, is_ok (UpdateVersion v d0) = true) -> err = None).
Proof.
  intros Hw. pose proof (fun data => export_gives lrv bound w os data Hw) as Hg.
  pose proof (fun e data => export_fails lrv bound w os e data Hw) as Hf.
  pose proof (fun d0 sign => export_succeeds lrv bound w d0 sign Hw) as Hs.
  pose proof (export_alone (export lrv) os w (ver_alone _ _ _ _ Hw)) as Hh.
  destruct (exec os (export lrv) w) as [[[e|] data] w'] eqn:E; cbn [fst snd] in *; (split; [|intros -> d0 sign H1 H2 H3]).
  - by apply (Hf e).
  - by specialize (Hs d0 sign H1 H2 H3); rewrite E in Hs.
  - destruct (Hg data eq_refl) as [Hd Ha]. split; [done|]. intros os' data' w'' E'. change w'' with ((None (A := goerr), data'), w'').2. rewrite <- E'.
    apply export_again; [done..|]. by rewrite E'.
  - done.
Qed.
End Exports.

(** * Two exports at the same time *)

Lemma bump_twice loc l c : bumpVersion loc l (bumpVersion loc l c) = bumpVersion loc l c.
Proof.
  unfold bumpVersion. destruct (parseVersion loc l) as [t|]; [|done].
  cbv zeta. set (next := Version _ _). destruct (String.ltb c next) eqn:E; [|by rewrite E]. by destruct (String.ltb next next).
Qed.

(** If another transaction has committed the version first, the reading that is
    meant to step over it sees the snapshot of this transaction and returns
    the old row, all attempts collide, and the export ends with the empty
    version and no error. *)
Theorem collision_gives_empty_version loc topic sign w l :
  latest_of topic (vw_rows w) = Some l -> cv_DataSign l <> sign -> DuplicateEntryError (vw_dupMessage w) = true ->
  existsb (taken topic (bumpVersion loc (cv_Version l) (Version loc (vw_clock w (vw_reads w))))) (vw_hidden w) = true ->
  exists w', exec [] (UpsertConfigLastExportedVersion loc topic sign) w = (("", None), w') /\ vw_rows w' = vw_rows w.
Proof.
  intros Hl Hs Hdup Htaken. unfold UpsertConfigLastExportedVersion. cbn [bind call]. rewrite exec_call.
  cbn [hd tl answer handle version_interp version_handle fst snd]. rewrite Hl, bool_decide_eq_false_2 by done.
  cbn [bind call]. rewrite exec_call. cbn [hd tl answer handle version_interp version_handle fst snd].
  set (w1 := mkVWorld _ _ _ _ _ _ _). set (v := bumpVersion _ _ _) in *.
  enough (forall n, exec [] (upsert_loop n loc topic sign v) w1 = (("", None), w1)) as Hn
    by (exists w1; split; [apply Hn|done]).
  induction n as [|n IH]; [done|]. cbn [upsert_loop bind call]. rewrite exec_call.
  cbn [hd tl answer handle version_interp version_handle]. cbn [vw_rows vw_hidden w1 vw_dupMessage].
  rewrite existsb_app, Htaken, orb_true_r. cbn [fst snd db_message]. rewrite Hdup. cbn [negb bind call]. rewrite exec_call.
  cbn [hd tl answer handle version_interp version_handle fst snd vw_rows w1]. rewrite Hl, bool_decide_eq_false_2 by done.
  unfold v. rewrite bump_twice. apply IH.
Qed.

(** * Samples *)

(** 2026-01-01 00:00:00 UTC, and the versions of a topic at that time in UTC+8. *)
Definition new_year : gotime := date_time 2026 1 1 0 0 0 0.
Definition sample_versions (hidden : list TConfigVersion) : vworld :=
  mkVWorld [mkConfigVersion 1 "gslb" "sign-a" "20260101080000"] hidden None 2 (fun _ => new_year) 0
    "UNIQUE constraint failed: config_versions.name, config_versions.version".

Example sample_version : Version 28800 new_year = "20260101080000".
Proof. reflexivity. Qed.

Lemma sample_world : version_world 28800 "gslb" (horizon - 2) (sample_versions []).
Proof.
  split.
  - intros r ->%list_elem_of_singleton _. exists (sec 28800 new_year). split; [|vm_compute; reflexivity].
    exists new_year. split; [reflexivity|]. split; [reflexivity|]. split; vm_compute; [discriminate|reflexivity].
  - intros n. split; vm_compute; [discriminate|reflexivity].
  - reflexivity.
  - reflexivity.
Qed.
(** Data with its version in front; the sign is the rest. *)
Definition put_version (v : string) (d : string * string) : result (string * string) := Ok (v, d.2).
Definition sign_rest (d : string * string) : result string := Ok d.2.
Definition sample_export : ExportData (string * string) := mkExportData "gslb" ("", "sign-b") "" "".
Lemma export_versions_advance_witness :
  let p := export put_version sign_rest 28800 sample_export in
  exists w', let data := Some (mkExportData "gslb" ("20260101080001", "sign-b") "20260101080001" "sign-b") in
    exec [] p (sample_versions []) = ((None, data), w') /\
    delivered put_version sign_rest 28800 sample_export (sample_versions []) data w' /\
    map cv_Version (vw_rows w') = ["20260101080000"; "20260101080001"].
Proof.
  cbv zeta. pose proof (export_versions_advance put_version sign_rest 28800 sample_export (horizon - 2) (sample_versions []) [] sample_world) as H.
  vm_compute (exec [] _ _) in H |- *. destruct H as [[H _] _]. eexists. split; [reflexivity|]. split; [exact H|reflexivity].
Defined.

Lemma collision_gives_empty_version_witness :
  exists w', exec [] (UpsertConfigLastExportedVersion 28800 "gslb" "sign-b")
      (sample_versions [mkConfigVersion 2 "gslb" "sign-c" "20260101080001"]) = (("", None), w') /\
    vw_rows w' = [mkConfigVersion 1 "gslb" "sign-a" "20260101080000"].
Proof.
  apply (collision_gives_empty_version 28800 "gslb" "sign-b"
    (sample_versions [mkConfigVersion 2 "gslb" "sign-c" "20260101080001"]) (mkConfigVersion 1 "gslb" "sign-a" "20260101080000"));
    [reflexivity|discriminate|reflexivity|reflexivity].
Defined.

(** The text of a duplicate key since version 1.7 of the MySQL driver has the
    SQL state between the number and the message. *)
Example driver_duplicate_unrecognised :
  DuplicateEntryError "Error 1062 (23000): Duplicate entry 'gslb-20260101080001' for key 'uk_name_version'" = false.
Proof. reflexivity. Qed.
