(* ===== verification/SharedTypes.v ===== *)
(** Package [model/shared]: the parameters that the endpoints, the validators
    and the managers exchange, and the Redis keys of rate limit rules; and the
    data that clusters share with them. *)
From Stdlib Require Import ZArith Lia Ascii SpecFloat.
From stdpp Require Import base tactics numbers list strings option.
From S2P Require Import Prelude GoStrings.

Local Open Scope string_scope.

(** * Rate limits ([types.go]) *)

Record TPMConfig : Type := mkTPM {
  tpm_Name : string; tpm_Model : string; tpm_WindowMinutes : Z; tpm_MaxTokens : Z; tpm_StepMinutes : Z
}.
Record RPMConfig : Type := mkRPM {
  rpm_Name : string; rpm_Model : string; rpm_WindowMinutes : Z; rpm_MaxRequests : Z
}.
Record BatchLimits : Type := mkBatchLimits {
  MaxCreateRPM : Z; MaxActiveBatches : Z; MaxFileBytes : Z; MaxFileLines : Z
}.
Record RateLimitRules : Type := mkRateLimitRules {
  TpmConfigs : list TPMConfig;
  RpmConfigs : list RPMConfig;
  MaxConcurrency : option Z;
  rl_BatchLimits : option BatchLimits
}.
Record RateLimitPolicyParam : Type := mkRateLimitPolicy {
  rlp_Enabled : option bool; rlp_Rules : option RateLimitRules
}.

(** * Routes: elements of a list may be null *)

Record AiRouteTargetParam : Type := mkTarget { tg_ClusterName : option string; tg_Model : option string; tg_Weight : option Z }.
Record AiRouteFallbackParam : Type := mkFallback { fb_ClusterName : option string; fb_Model : option string }.
Record AiRouteRuleParam : Type := mkRouteRule {
  rr_Name : option string; rr_Cond : option string;
  rr_Targets : list (option AiRouteTargetParam); rr_Fallbacks : list (option AiRouteFallbackParam)
}.
Record RouteRulesParam : Type := mkRouteRules {
  rrs_ID : option Z; rrs_Enabled : option bool; rrs_Rules : list (option AiRouteRuleParam)
}.

Definition RouteRulesTypeAPIKey : string := "apikey".
Definition RouteRulesTypeEntity : string := "entity".
Definition RouteRulesTypeGlobal : string := "global".
Definition RouteTableTypeAPIKey : string := "api_key".

Definition ToRouteTableType (internalType : string) : string :=
  if bool_decide (internalType = RouteRulesTypeAPIKey) then RouteTableTypeAPIKey else internalType.
Definition FromRouteTableType (apiType : string) : string :=
  if bool_decide (apiType = RouteTableTypeAPIKey) then RouteRulesTypeAPIKey else apiType.

(** * Caches, contexts and mirrors *)

Record AICacheRuleParam : Type := mkCacheRule {
  cr_Name : option string; cr_Cond : option string; cr_CacheKeyStrategy : option string; cr_CacheTTL : option Z;
  cr_MaxBodyBytes : option Z; cr_MaxValueBytes : option Z; cr_EnableSemanticCache : option bool
}.
Record AICacheSemanticSettingsParam : Type := mkSemantic {
  ss_TopK : option Z; ss_Threshold : option spec_float; ss_ThresholdRelation : option string
}.
Record AIContextRuleParam : Type := mkContextRule {
  cx_Cond : option string; cx_Mode : option string; cx_MaxContextTokens : option Z; cx_ReserveTokens : option Z
}.
Record AIContextRewriteParam : Type := mkRewrite { rw_Strength : option string; rw_ProtectedSurvivalRate : option spec_float }.
Record AIContextSettingsParam : Type := mkContextSettings {
  xs_TriggerRatio : option spec_float; xs_KeepLatestImages : option Z; xs_ToolResultMaxChars : option Z;
  xs_ThinkingPolicy : option string; xs_CharsPerToken : option Z; xs_ImageTokenEstimate : option Z;
  xs_Rewrite : option AIContextRewriteParam
}.
Record TrafficMirrorBodyRewriteParam : Type := mkBodyRewrite { br_Path : option string; br_Value : option string }.
Record TrafficMirrorRuleParam : Type := mkMirrorRule {
  tm_Name : option string; tm_Cond : option string; tm_MirrorCluster : option string; tm_Percentage : option Z;
  tm_RemoveHeaders : option (list string); tm_SetHeaders : list (string * string);
  tm_BodyRewrites : list (option TrafficMirrorBodyRewriteParam); tm_PathRewrite : option string
}.

(** * Redis keys of rate limit rules ([rate_limit_redis_key.go]) *)

Definition BuildBFERateLimitRedisKey (policyID : Z) (ruleType name : string) : string :=
  "default_bfe_rlp-" +:+ FormatInt policyID +:+ "_" +:+ ruleType +:+ "_rlp-" +:+ FormatInt policyID +:+ "_" +:+ name.

Definition BuildBatchRateLimitRedisKey (policyID : Z) : string := BuildBFERateLimitRedisKey policyID "RL_BATCH" "rpm".

Definition BatchRateLimitEnabled (rules : option RateLimitRules) : bool :=
  match rules with
  | Some r => match rl_BatchLimits r with Some b => (0 <? MaxCreateRPM b)%Z | None => false end
  | None => false
  end.

Definition buildTpmRpmRateLimitRedisKeys (policyID : Z) (rules : option RateLimitRules) : list string :=
  match rules with
  | None => []
  | Some r => (map (fun t => BuildBFERateLimitRedisKey policyID "RL_TPM" (tpm_Name t)) (TpmConfigs r) ++
               map (fun t => BuildBFERateLimitRedisKey policyID "RL_RPM" (rpm_Name t)) (RpmConfigs r))%list
  end.

Definition BuildRateLimitRedisKeys (policyID : Z) (rules : option RateLimitRules) : list string :=
  (buildTpmRpmRateLimitRedisKeys policyID rules ++
   (if BatchRateLimitEnabled rules then [BuildBatchRateLimitRedisKey policyID] else []))%list.

(** The text after the last occurrence of [sub] ([strings.LastIndex]). *)
Fixpoint after_last (sub s : string) : option string :=
  match s with
  | EmptyString => CutPrefix EmptyString sub
  | String _ r => match after_last sub r with Some t => Some t | None => CutPrefix s sub end
  end.

Definition extractRateLimitNameFromKey (key : string) : string :=
  match after_last "_rlp-" key with
  | None => ""
  | Some rest => match Cut rest "_" with Some (_, name) => name | None => "" end
  end.

(** The names of all rules. *)
Definition rule_names (rules : option RateLimitRules) : list string :=
  match rules with
  | Some r => (map tpm_Name (TpmConfigs r) ++ map rpm_Name (RpmConfigs r))%list
  | None => []
  end.

Definition DiffRateLimitRedisKeys (policyID : Z) (oldRules newRules : option RateLimitRules) : list string :=
  let oldKeys := buildTpmRpmRateLimitRedisKeys policyID oldRules in
  let newNames := rule_names newRules in
  (List.filter (fun key => negb (bool_decide (extractRateLimitNameFromKey key ∈ newNames))) oldKeys ++
   (if BatchRateLimitEnabled oldRules && negb (BatchRateLimitEnabled newRules)
    then [BuildBatchRateLimitRedisKey policyID] else []))%list.

(** * Names in keys *)

(** No occurrence of [sub] in the text. *)
Lemma after_last_app sub a b t : after_last sub b = Some t -> after_last sub (a +:+ b) = Some t.
Proof.
  intros Hb. induction a as [|c a IH]; [done|].
  change (String c a +:+ b) with (String c (a +:+ b)). cbn [after_last]. by rewrite IH.
Qed.

Lemma after_last_none_suffix sub a b : after_last sub (a +:+ b) = None -> after_last sub b = None.
Proof.
  intros Ha. induction a as [|c a IH]; [done|]. apply IH.
  change (String c a +:+ b) with (String c (a +:+ b)) in Ha. cbn [after_last] in Ha. by destruct (after_last sub (a +:+ b)).
Qed.

Lemma Cut_none s sep : has_byte s sep = false -> Cut s sep = None.
Proof.
  induction s as [|c s IH]; simpl; [done|]. intros [H1 H2]%orb_false_iff. destruct (ascii_dec c sep); [done|]. by rewrite IH.
Qed.

(** Redis keys of rate limit rules: which keys an update removes. *)

(** * The name in a key *)

(** A name that does not look like a policy marker behind its separator. *)
Definition plain_name (name : string) : Prop := after_last "_rlp-" ("_" +:+ name) = None.

Lemma after_last_skip a b : has_byte a "_" = false -> after_last "_rlp-" b = None -> after_last "_rlp-" (a +:+ b) = None.
Proof.
  intros Ha Hb. induction a as [|c a IH]; [done|]. cbn [has_byte] in Ha. apply orb_false_iff in Ha as [H1 H2].
  change (String c a +:+ b) with (String c (a +:+ b)). cbn [after_last]. rewrite IH by done.
  cbn [CutPrefix]. destruct (ascii_dec "_" c) as [<-|]; [|done]. by destruct (ascii_dec "_" "_").
Qed.

Lemma extract_of_key policyID ruleType name : plain_name name ->
  extractRateLimitNameFromKey (BuildBFERateLimitRedisKey policyID ruleType name) = name.
Proof.
  intros Hn. unfold extractRateLimitNameFromKey, BuildBFERateLimitRedisKey.
  assert (has_byte (FormatInt policyID) "_" = false) as Hd by (by apply FormatInt_byte).
  assert (after_last "_rlp-" ("_rlp-" +:+ FormatInt policyID +:+ "_" +:+ name) = Some (FormatInt policyID +:+ "_" +:+ name)) as Hl.
  { set (rest := FormatInt policyID +:+ "_" +:+ name).
    assert (after_last "_rlp-" ("rlp-" +:+ rest) = None) as Hr
      by (apply after_last_skip; [done|]; by apply after_last_skip).
    change ("_rlp-" +:+ rest) with (String "_" ("rlp-" +:+ rest)). cbn [after_last]. rewrite Hr.
    apply (CutPrefix_app "_rlp-"). }
  rewrite (after_last_app _ "default_bfe_rlp-" _ (FormatInt policyID +:+ "_" +:+ name)).
  - change ("_" +:+ name) with (String "_" name). by rewrite Cut_app.
  - apply after_last_app. apply (after_last_app _ "_"). by apply after_last_app.
Qed.

(** * Updates *)

Definition gone (newRules : option RateLimitRules) (name : string) : bool := negb (bool_decide (name ∈ rule_names newRules)).

Lemma filter_map_gone {A} (f : A -> string) (key : string -> string) newRules (l : list A) :
  (forall a, a ∈ l -> extractRateLimitNameFromKey (key (f a)) = f a) ->
  List.filter (fun k => negb (bool_decide (extractRateLimitNameFromKey k ∈ rule_names newRules))) (map (fun a => key (f a)) l) =
  map (fun a => key (f a)) (List.filter (fun a => gone newRules (f a)) l).
Proof.
  intros He. induction l as [|a l IH]; [done|]. cbn [map List.filter]. rewrite He by left. fold (gone newRules (f a)).
  rewrite IH by (intros; apply He; by right). by destruct (gone newRules (f a)).
Qed.

(** An update of a policy removes exactly the counters of the rules whose name
    is gone, and the batch counter when the batch limit is switched off,
    provided that no name of the old policy begins like a policy marker or
    contains one. *)
Theorem diff_removes_gone_rules policyID old newRules :
  (forall name, name ∈ rule_names (Some old) -> plain_name name) ->
  DiffRateLimitRedisKeys policyID (Some old) newRules =
  (map (fun t => BuildBFERateLimitRedisKey policyID "RL_TPM" (tpm_Name t))
     (List.filter (fun t => gone newRules (tpm_Name t)) (TpmConfigs old)) ++
   map (fun t => BuildBFERateLimitRedisKey policyID "RL_RPM" (rpm_Name t))
     (List.filter (fun t => gone newRules (rpm_Name t)) (RpmConfigs old)) ++
   (if BatchRateLimitEnabled (Some old) && negb (BatchRateLimitEnabled newRules)
    then [BuildBatchRateLimitRedisKey policyID] else []))%list.
Proof.
  intros Hp. unfold DiffRateLimitRedisKeys, buildTpmRpmRateLimitRedisKeys. cbv zeta. rewrite List.filter_app, <- app_assoc.
  f_equal; [|f_equal].
  - apply (filter_map_gone tpm_Name (BuildBFERateLimitRedisKey policyID "RL_TPM")). intros a Ha. apply extract_of_key, Hp.
    apply elem_of_app. left. by apply list_elem_of_In, in_map, list_elem_of_In.
  - apply (filter_map_gone rpm_Name (BuildBFERateLimitRedisKey policyID "RL_RPM")). intros a Ha. apply extract_of_key, Hp.
    apply elem_of_app. right. by apply list_elem_of_In, in_map, list_elem_of_In.
Qed.

(** A policy with one rule. *)
Definition one_rule (name : string) : RateLimitRules := mkRateLimitRules [mkTPM name "*" 1 100 1] [] None None.

(** The name "rlp-gpt" is accepted by the validator, but its counter is
    removed by an update that keeps the rule. *)
Lemma marker_name_loses_counter policyID :
  DiffRateLimitRedisKeys policyID (Some (one_rule "rlp-gpt")) (Some (one_rule "rlp-gpt")) =
  [BuildBFERateLimitRedisKey policyID "RL_TPM" "rlp-gpt"].
Proof.
  unfold DiffRateLimitRedisKeys. cbn [buildTpmRpmRateLimitRedisKeys one_rule TpmConfigs RpmConfigs map app List.filter tpm_Name].
  assert (extractRateLimitNameFromKey (BuildBFERateLimitRedisKey policyID "RL_TPM" "rlp-gpt") = "") as ->; [|done].
  unfold extractRateLimitNameFromKey, BuildBFERateLimitRedisKey.
  rewrite (after_last_app _ "default_bfe_rlp-" _ "gpt"); [done|].
  apply after_last_app. apply (after_last_app _ "_"). apply (after_last_app _ "RL_TPM"). apply (after_last_app _ "_rlp-").
  by apply after_last_app.
Qed.

Lemma diff_removes_gone_rules_witness :
  DiffRateLimitRedisKeys 7 (Some (one_rule "tpm-1")) (Some (one_rule "tpm-2")) = ["default_bfe_rlp-7_RL_TPM_rlp-7_tpm-1"].
Proof.
  rewrite (diff_removes_gone_rules 7 (one_rule "tpm-1") (Some (one_rule "tpm-2"))); [reflexivity|].
  intros name ->%list_elem_of_singleton. reflexivity.
Defined.

(** Data of [model/icluster_conf]: instances and the LLM configuration of a
    cluster. *)

(** An instance of a pool ([pool.go]). *)
Record Instance : Type := mkInstance {
  in_Name : string; in_Addr : string; in_Port : Z; in_Weight : Z; in_Disable : bool
}.

(** The LLM configuration ([cluster.go]). *)
Record ClusterKeyRef : Type := mkKeyRef { ckr_Name : option string; ckr_Weight : option Z }.
Record KeyPolicy : Type := mkKeyPolicy {
  kp_Strategy : option string; kp_MaxRetries : option Z; kp_RetryBackoffInitial : option Z; kp_RetryBackoffMax : option Z
}.
Record KeyAffinity : Type := mkKeyAffinity {
  ka_Enabled : option bool; ka_TTL : option Z; ka_RedisPrefix : option string; ka_PenaltyEnable : option bool
}.
Record NormalizeUpstreamError : Type := mkNormalize {
  nue_Enabled : option bool; nue_StreamEnabled : option bool; nue_UnrecognizedAction : option string;
  nue_MaxBodyBytes : option Z; nue_RedactSecrets : option bool
}.
Record Mapping : Type := mkMapping { SourceModel : option string; TargetModel : option string }.
Record LLMConfig : Type := mkLLMConfig {
  lc_Models : list string;
  lc_ModelMappings : list (option Mapping);
  lc_Keys : list ClusterKeyRef;
  lc_KeyPolicy : option KeyPolicy;
  lc_KeyAffinity : option KeyAffinity;
  lc_NormalizeUpstreamError : option NormalizeUpstreamError;
  lc_Provider : option string;
  lc_MatchPrefix : option string;
  lc_StripPrefix : option bool
}.
