(* ===== verification/Validate.v ===== *)
(** Package [lib/validate]: the checks of request parameters.  A verdict is
    acceptance, a parameter error with the format of its message, or a panic
    on a null element that the code dereferences. *)
From Stdlib Require Import ZArith Lia Ascii SpecFloat.
From stdpp Require Import base tactics numbers list strings option.
From S2P Require Import Prelude GoStrings GoJson GoTime Prog GoNet QuotaModel SharedTypes.

Local Open Scope string_scope.

(** * Verdicts *)

Inductive verdict : Type := Accept | Refuse (e : goerr) | Panic.

#[export] Instance verdict_eq_dec : EqDecision verdict.
Proof. solve_decision. Defined.

(** [if err := v; err != nil { return err }; k] *)
Definition andthen (v k : verdict) : verdict := match v with Accept => k | _ => v end.
Infix "&>" := andthen (at level 62, right associativity) : go_scope.
Open Scope go_scope.

(** [if bad { return WrapParamErrorWithMsg(msg) }] *)
Definition refuse_if (bad : bool) (msg : string) : verdict := if bad then Refuse (ParamError msg) else Accept.

(** [if err := v; err != nil { return WrapParamErrorWithMsg(msg, err) }] *)
Definition wrapped (v : verdict) (msg : string) : verdict :=
  match v with Refuse _ => Refuse (ParamError msg) | _ => v end.

(** A loop that checks the elements one by one with what it has seen. *)
Fixpoint check_each {A S} (f : A -> S -> verdict * S) (l : list A) (s : S) : verdict * S :=
  match l with
  | [] => (Accept, s)
  | a :: l' => match f a s with (Accept, s') => check_each f l' s' | r => r end
  end.

Definition seen (x : string) (l : list string) : bool := bool_decide (x ∈ l).
Definition blank (s : option string) : bool := match s with None => true | Some s => bool_decide (s = "") end.
Definition among (s : string) (l : list string) : bool := bool_decide (s ∈ l).
Definition given {A} (o : option A) (bad : A -> bool) : bool := match o with Some a => bad a | None => false end.

(** * Characters *)

(** The characters of the name expressions. *)
Definition lower_digit (c : ascii) : bool :=
  let n := N_of_ascii c in (((48 <=? n) && (n <=? 57)) || ((97 <=? n) && (n <=? 122)))%N.
Definition one_of (c : ascii) (l : list ascii) : bool := bool_decide (c ∈ l).
Definition tokens (P : ascii -> bool) (s : string) : bool := negb (bool_decide (s = "")) && all_bytes P s.

Definition nameToken : string -> bool := tokens (fun c => is_alnum c || one_of c ["_"; "."; "-"]%char).
Definition entityNameToken : string -> bool := tokens (fun c => lower_digit c || one_of c ["_"; "@"; "-"]%char).
Definition entityTypeToken : string -> bool := tokens (fun c => lower_digit c || one_of c ["_"; "-"]%char).
Definition rateLimitNameToken : string -> bool := tokens (fun c => is_alnum c || one_of c ["_"; "-"]%char).

(** A white-space rune somewhere: the bytes that can begin one do not occur
    inside of another rune. *)
Fixpoint has_space (s : string) : bool :=
  match cut_space s with
  | Some _ => true
  | None => match s with EmptyString => false | String _ r => has_space r end
  end.

(** [unicode.IsSpace(rune(b))] for one byte read as a rune. *)
Definition byte_is_space (c : ascii) : bool :=
  let n := N_of_ascii c in (((9 <=? n) && (n <=? 13)) || (n =? 32) || (n =? 133) || (n =? 160))%N.

Definition is_control (c : ascii) : bool := let n := N_of_ascii c in ((n <? 32) || (n =? 127))%N.

Fixpoint to_lower (s : string) : string :=
  match s with EmptyString => EmptyString | String c r => String (lower_byte c) (to_lower r) end.

(** * Hosts and numbers *)

Definition hostnameLabel (s : string) : bool := dns_label s.

Definition Hostname (s : string) : verdict :=
  refuse_if (String.length s =? 0)%nat "hostname is required" &>
  refuse_if (255 <? String.length s)%nat "hostname length must be <= 255" &>
  refuse_if (String.length s <? 2)%nat "hostname length must be >= 2" &>
  (if ParseIP s then Accept
   else refuse_if (negb (forallb hostnameLabel (Split s "."))) "hostname %q contains invalid label %q").

Definition IPAddress (s : string) : verdict := refuse_if (negb (ParseIP s)) "invalid IP address: %s".

Definition Port (i : Z) : verdict :=
  refuse_if ((i <? 1)%Z || (65535 <? i)%Z) "port must be between 1 and 65535, got %d".

(** [net.ParseCIDR]: an address and a number of bits of at most its width,
    the digits of which stay below 2^24 - 1. *)
Definition ParseCIDR (s : string) : bool :=
  match Cut s "/" with
  | None => false
  | Some (addr, mask) =>
      ParseIP addr &&
      match parse_udec mask with
      | Some n => (n <=? (if bool_decide (ip_family addr = Some false) then 32 else 128))%Z
      | None => false
      end
  end.

Definition CIDR (s : string) : verdict :=
  if bool_decide (s = "*") then Accept else refuse_if (negb (ParseCIDR s)) "invalid CIDR: %s".

Definition AIModelFormat (s : string) : verdict :=
  if bool_decide (s = "*") then Accept else refuse_if (String.length s =? 0)%nat "model name cannot be empty".

Definition NoControlChars (s : string) : verdict :=
  refuse_if (negb (all_bytes (fun c => negb (is_control c)) s)) "string contains control characters".

Definition NoLeadingTrailingSpace (s : string) : verdict :=
  match s, last_byte s with
  | String a _, Some b =>
      refuse_if (byte_is_space a || byte_is_space b) "string cannot have leading or trailing whitespace"
  | _, _ => Accept
  end.

Definition NoWhitespace (s : string) : verdict := refuse_if (has_space s) "string cannot contain whitespace".

(** * Names *)

Definition validateName (s : string) (minLen maxLen : nat) : verdict :=
  refuse_if ((String.length s <? minLen)%nat || (maxLen <? String.length s)%nat) "%s length must be between %d and %d".
Definition validateNamePattern (s : string) (re : string -> bool) : verdict :=
  refuse_if (negb (re s)) "%s contains invalid characters".

(** First and last byte; an empty string would panic. *)
Definition edges (s : string) (bad : list ascii) (msg : string) : verdict :=
  match s, last_byte s with
  | String a _, Some b => refuse_if (one_of a bad || one_of b bad) msg
  | _, _ => Panic
  end.
Definition validateNameEdges (s : string) : verdict :=
  edges s ["."; "-"; "_"]%char "%s cannot start or end with '.', '-', or '_'".

Definition MaxUserNameLength : nat := 64.
Definition MaxTokenNameLength : nat := 64.
Definition MaxClusterNameLength : nat := 64.
Definition MaxCertNameLength : nat := 64.
Definition MaxEntityTypeNameLength : nat := 32.
Definition MaxEntityNameLength : nat := 64.
Definition MaxAPIDescriptionLength : nat := 512.
Definition MaxRateLimitNameLength : nat := 128.

Definition reservedUserNames : list string := ["admin"; "root"; "system"].
Definition reservedTokenNames : list string := ["admin"; "system"; "default"].

Definition userNameFormat (s : string) : verdict :=
  validateName s 1 MaxUserNameLength &> validateNamePattern s nameToken &> validateNameEdges s.
Definition UserName (s : string) : verdict :=
  userNameFormat s &> refuse_if (among (to_lower s) reservedUserNames) "user_name %q is reserved".
Definition UserNameRef (s : string) : verdict := userNameFormat s.

(** The runes of a string as their bytes; a byte that is not part of one
    becomes the replacement character. *)
Fixpoint runes (fuel : nat) (s : string) : list string :=
  match fuel with
  | O => []
  | S f =>
      match s with
      | EmptyString => []
      | String _ r => match rune_head s with
                      | Some (b, rest) => b :: runes f rest
                      | None => replacement :: runes f r
                      end
      end
  end.
Definition reverseString (s : string) : string := String.concat "" (rev (runes (String.length s) s)).

Definition Password (password userName : string) : verdict :=
  refuse_if ((String.length password <? 8)%nat || (72 <? String.length password)%nat)
    "password length must be between 8 and 72 bytes" &>
  refuse_if (has_space password) "password cannot contain whitespace" &>
  refuse_if (bool_decide (password = userName) || bool_decide (password = reverseString userName))
    "password cannot be the same as or the reverse of user_name".

Definition TokenName (s : string) : verdict :=
  validateName s 1 MaxTokenNameLength &> validateNamePattern s nameToken &> validateNameEdges s &>
  refuse_if (among (to_lower s) reservedTokenNames) "token_name %q is reserved".
Definition ClusterName (s : string) : verdict :=
  validateName s 1 MaxClusterNameLength &> validateNamePattern s nameToken &> validateNameEdges s.
Definition CertName (s : string) : verdict :=
  validateName s 2 MaxCertNameLength &> validateNamePattern s nameToken &> validateNameEdges s.
Definition EntityName (s : string) : verdict :=
  validateName s 1 MaxEntityNameLength &> validateNamePattern s entityNameToken &>
  edges s ["-"; "_"; "@"]%char "name cannot start or end with '-', '_', or '@'".
Definition EntityTypeName (s : string) : verdict :=
  validateName s 1 MaxEntityTypeNameLength &> validateNamePattern s entityTypeToken &>
  edges s ["-"; "_"]%char "type_name cannot start or end with '-' or '_'".

Definition Description (s : string) (maxLen : nat) : verdict :=
  refuse_if (maxLen <? String.length s)%nat "%s length must be <= %d" &> NoControlChars s.
Definition APIKeyDescription (s : string) : verdict :=
  refuse_if (String.length s =? 0)%nat "description is required" &> Description s MaxAPIDescriptionLength.
Definition APIKeyValue (s : string) : verdict :=
  refuse_if ((String.length s =? 0)%nat || (128 <? String.length s)%nat) "key length must be between 1 and 128" &>
  refuse_if (negb (all_bytes (fun c => is_alnum c || one_of c ["-"; "_"]%char) s)) "key contains invalid characters".

(** [now] is the clock. *)
Definition ExpiredTime (now : gotime) (t : option Z) : verdict :=
  match t with
  | None => Accept
  | Some t =>
      refuse_if (t <? -1)%Z "expired_time must be -1 or a valid Unix timestamp" &>
      refuse_if (negb (t =? -1)%Z && (t <? now / second - unix_epoch)%Z) "expired_time must be >= current time"
  end.

Definition Scope (s : string) : verdict :=
  refuse_if (negb (among s ["System"; "SystemReadonly"; "Support"])) "scope must be System, SystemReadonly or Support".
Definition Role (s : string) : verdict :=
  refuse_if (negb (among s ["system_admin"; "system_admin_readonly"])) "role must be system_admin or system_admin_readonly".

(** * Quotas *)

(** [math.Mod(x, 1) != 0]: true of what has a fraction and of NaN and the
    infinities. *)
Definition has_fraction (x : spec_float) : bool :=
  match x with
  | S754_zero _ => false
  | S754_finite _ m e => if (e <? 0)%Z then negb (Z.pos m mod 2 ^ (- e) =? 0)%Z else false
  | _ => true
  end.

(** [math.Round]: halves away from zero. *)
Definition float_round (x : spec_float) : spec_float :=
  match x with
  | S754_finite s m e =>
      if (e <? 0)%Z then
        let q := ((Z.pos m + 2 ^ (- e - 1)) / 2 ^ (- e))%Z in
        if (q =? 0)%Z then S754_zero s else binary_normalize 53 1024 (if s then - q else q) 0 s
      else x
  | _ => x
  end.

(** [1e8], and the literal [1e-9]. *)
Definition validDecimalPlaces8 (v : spec_float) : bool :=
  let scaled := SFmul 53 1024 v (float_of_Z 100000000) in
  SFltb (SFabs (float_sub scaled (float_round scaled))) (float_lit 1 1000000000).

Section Quotas.
(** [golibquota.MaxRMBQuota] *)
Variable MaxRMBQuota : spec_float.

Definition QuotaValue (quota : option spec_float) (unit : string) : verdict :=
  match quota with
  | None => Accept
  | Some q =>
      refuse_if (SFltb q f_zero) "quota must be >= 0" &>
      (if bool_decide (unit = "total_token")
       then refuse_if (has_fraction q) "quota must be an integer when unit is total_token"
       else if bool_decide (unit = "RMB")
       then refuse_if (negb (validDecimalPlaces8 q)) "quota can have at most 8 decimal places when unit is RMB" &>
            refuse_if (SFltb MaxRMBQuota q) "quota must be <= %v when unit is RMB"
       else Accept)
  end.

Definition QuotaPlan (p : option SharedPlan) : verdict :=
  match p with
  | None => Accept
  | Some p =>
      let unit := match sh_Unit p with Some u => if bool_decide (u = "") then "total_token" else u | None => "total_token" end in
      refuse_if (negb (among unit ["total_token"; "RMB"])) "unit must be total_token or RMB" &>
      QuotaValue (sh_Quota p) unit &>
      refuse_if (given (sh_ResetPeriod p) (fun r => negb (bool_decide (r = "")) && negb (among r ["never"; "weekly"; "monthly"])))
        "reset_period must be never, weekly or monthly"
  end.
End Quotas.

(** * Rate limits *)

Definition check_tpm (t : TPMConfig) (s : list string * list string) : verdict * (list string * list string) :=
  let '(names, keys) := s in
  let key := tpm_Model t +:+ "|" +:+ FormatInt (tpm_WindowMinutes t) +:+ "|" +:+ FormatInt (tpm_MaxTokens t)
             +:+ "|" +:+ FormatInt (tpm_StepMinutes t) in
  (refuse_if (String.length (tpm_Name t) =? 0)%nat "tpm name is required" &>
   refuse_if (MaxRateLimitNameLength <? String.length (tpm_Name t))%nat "tpm name length must be <= %d" &>
   refuse_if (negb (rateLimitNameToken (tpm_Name t))) "tpm name can only contain letters, digits, '_' and '-'" &>
   refuse_if (seen (tpm_Name t) names) "duplicate rate limit name: %s" &>
   wrapped (AIModelFormat (tpm_Model t)) "tpm model: %v" &>
   refuse_if ((tpm_WindowMinutes t <? 1)%Z || (360 <? tpm_WindowMinutes t)%Z) "tpm window_minutes must be between 1 and 360" &>
   refuse_if (tpm_MaxTokens t <? 0)%Z "tpm max_tokens must be >= 0" &>
   refuse_if ((tpm_StepMinutes t <? 1)%Z || (360 <? tpm_StepMinutes t)%Z) "tpm step_minutes must be between 1 and 360" &>
   refuse_if (tpm_WindowMinutes t <? tpm_StepMinutes t)%Z "tpm step_minutes must be <= window_minutes" &>
   refuse_if (seen key keys) "duplicate tpm config: model=%s window_minutes=%d max_tokens=%d step_minutes=%d",
   (tpm_Name t :: names, key :: keys)).

Definition check_rpm (t : RPMConfig) (s : list string * list string) : verdict * (list string * list string) :=
  let '(names, keys) := s in
  let key := rpm_Model t +:+ "|" +:+ FormatInt (rpm_WindowMinutes t) +:+ "|" +:+ FormatInt (rpm_MaxRequests t) in
  (refuse_if (String.length (rpm_Name t) =? 0)%nat "rpm name is required" &>
   refuse_if (MaxRateLimitNameLength <? String.length (rpm_Name t))%nat "rpm name length must be <= %d" &>
   refuse_if (negb (rateLimitNameToken (rpm_Name t))) "rpm name can only contain letters, digits, '_' and '-'" &>
   refuse_if (seen (rpm_Name t) names) "duplicate rate limit name: %s" &>
   wrapped (AIModelFormat (rpm_Model t)) "rpm model: %v" &>
   refuse_if ((rpm_WindowMinutes t <? 1)%Z || (360 <? rpm_WindowMinutes t)%Z) "rpm window_minutes must be between 1 and 360" &>
   refuse_if (rpm_MaxRequests t <? 0)%Z "rpm max_requests must be >= 0" &>
   refuse_if (seen key keys) "duplicate rpm config: model=%s window_minutes=%d max_requests=%d",
   (rpm_Name t :: names, key :: keys)).

Definition check_batch_limits (b : BatchLimits) : verdict :=
  refuse_if (MaxCreateRPM b <? 0)%Z "batch_limits.max_create_rpm must be >= 0" &>
  refuse_if (MaxActiveBatches b <? 0)%Z "batch_limits.max_active_batches must be >= 0" &>
  refuse_if (MaxFileBytes b <? 0)%Z "batch_limits.max_file_bytes must be >= 0" &>
  refuse_if (MaxFileLines b <? 0)%Z "batch_limits.max_file_lines must be >= 0".

(** Enabling needs some rule. *)
Definition some_limit (r : RateLimitRules) : bool :=
  (0 <? length (TpmConfigs r))%nat || (0 <? length (RpmConfigs r))%nat ||
  given (MaxConcurrency r) (fun n => 0 <=? n)%Z || bool_decide (is_Some (rl_BatchLimits r)).

Definition RateLimitPolicy (p : option RateLimitPolicyParam) : verdict :=
  match p with
  | None => Accept
  | Some p =>
      (if default false (rlp_Enabled p) then
         match rlp_Rules p with
         | None => Refuse (ParamError "when rate_limit_policy.enabled is true, rules must be set")
         | Some r => refuse_if (negb (some_limit r))
             "when rate_limit_policy.enabled is true, at least one of rules.tpm, rules.rpm, rules.max_concurrency(>=0), or rules.batch_limits must be set"
         end
       else Accept) &>
      match rlp_Rules p with
      | None => Accept
      | Some r =>
          refuse_if (3 <? length (TpmConfigs r))%nat "tpm configs must be <= 3" &>
          refuse_if (3 <? length (RpmConfigs r))%nat "rpm configs must be <= 3" &>
          refuse_if (given (MaxConcurrency r) (fun n => n <? -1)%Z) "max_concurrency must be -1 or >= 0" &>
          match rl_BatchLimits r with Some b => check_batch_limits b | None => Accept end &>
          let '(v, (names, _)) := check_each check_tpm (TpmConfigs r) ([], []) in
          v &> fst (check_each check_rpm (RpmConfigs r) (names, []))
      end
  end.

(** * Routes *)

Section Conditions.
(** [condition.Build] of BFE: which expressions it accepts. *)
Variable condition_Build : string -> bool.

Definition ConditionExpression (cond : string) : verdict :=
  refuse_if (negb (condition_Build cond)) "invalid route rule Cond: %v".

(** A cluster and a model, as a target or a fallback names them. *)
Definition check_place (cluster model : option string) (what : string) (keys : list string) : verdict * list string :=
  let model := default "" model in
  let name := default "" cluster in
  let key := name +:+ "|" +:+ model in
  (refuse_if (blank cluster) (what +:+ " ClusterName is required") &>
   wrapped (ClusterName name) (what +:+ " ClusterName: %v") &>
   (if bool_decide (model = "") then Accept else wrapped (AIModelFormat model) (what +:+ " Model: %v")) &>
   refuse_if (seen key keys) ("duplicate " +:+ what +:+ " (ClusterName=%s, Model=%s)"),
   key :: keys).

Definition check_target (t : option AiRouteTargetParam) (s : Z * list string) : verdict * (Z * list string) :=
  let '(total, keys) := s in
  match t with
  | None => (Panic, s)
  | Some t =>
      match tg_Weight t with
      | None => (Refuse (ParamError "target weight is required"), s)
      | Some w =>
          let '(v, keys') := check_place (tg_ClusterName t) (tg_Model t) "target" keys in
          (refuse_if ((w <? 0)%Z || (100 <? w)%Z) "target weight must be between 0 and 100" &> v, (total + w, keys')%Z)
      end
  end.

Definition check_fallback (f : option AiRouteFallbackParam) (keys : list string) : verdict * list string :=
  match f with
  | None => (Panic, keys)
  | Some f => check_place (fb_ClusterName f) (fb_Model f) "fallback" keys
  end.

Definition check_rule (r : option AiRouteRuleParam) (names : list string) : verdict * list string :=
  match r with
  | None => (Panic, names)
  | Some r =>
      let name := default "" (rr_Name r) in
      (refuse_if (blank (rr_Name r)) "route rule name is required" &>
       refuse_if (seen name names) "duplicate route rule name: %s" &>
       refuse_if (blank (rr_Cond r)) "route rule Cond is required" &>
       ConditionExpression (default "" (rr_Cond r)) &>
       refuse_if (length (rr_Targets r) =? 0)%nat "route rule targets cannot be empty" &>
       let '(v, (total, _)) := check_each check_target (rr_Targets r) (0%Z, []) in
       v &>
       refuse_if (negb (total =? 100)%Z) "rule %s targets total weight must be 100, got %d" &>
       fst (check_each check_fallback (rr_Fallbacks r) []),
       name :: names)
  end.

Definition RouteRules (p : option RouteRulesParam) : verdict :=
  match p with None => Accept | Some p => fst (check_each check_rule (rrs_Rules p) []) end.

(** * Caches *)

Definition MaxAICacheRuleNameLength : nat := 128.
Definition AICacheKeyStrategies : list string := ["lastQuestion"; "allQuestions"; "disabled"].

(** A required name and condition, unique in the collection. *)
Definition check_named (name cond : option string) (what : string) (maxLen : nat) (s : list string * list string)
  : verdict * (list string * list string) :=
  let '(names, conds) := s in
  let n := default "" name in let c := default "" cond in
  (refuse_if (blank name) (what +:+ " name is required") &>
   refuse_if (maxLen <? String.length n)%nat (what +:+ " name length must be <= %d") &>
   refuse_if (seen n names) ("duplicate " +:+ what +:+ " name: %s") &>
   refuse_if (blank cond) (what +:+ " %s cond is required") &>
   wrapped (ConditionExpression c) (what +:+ " %s cond: %v") &>
   refuse_if (seen c conds) ("duplicate " +:+ what +:+ " cond: %s"),
   (n :: names, c :: conds)).

Definition check_cache_rule (r : option AICacheRuleParam) (s : list string * list string)
  : verdict * (list string * list string) :=
  match r with
  | None => (Refuse (ParamError "ai cache rule #%d is null"), s)
  | Some r =>
      let '(v, s') := check_named (cr_Name r) (cr_Cond r) "ai cache rule" MaxAICacheRuleNameLength s in
      (v &>
       refuse_if (given (cr_CacheKeyStrategy r) (fun x => negb (among x AICacheKeyStrategies)))
         "ai cache rule %s cache_key_strategy must be one of %s/%s/%s" &>
       refuse_if (given (cr_CacheTTL r) (fun n => n <? 0)%Z) "ai cache rule %s cache_ttl must be >= 0" &>
       refuse_if (given (cr_MaxBodyBytes r) (fun n => n <=? 0)%Z) "ai cache rule %s max_body_bytes must be > 0" &>
       refuse_if (given (cr_MaxValueBytes r) (fun n => n <=? 0)%Z) "ai cache rule %s max_value_bytes must be > 0", s')
  end.

Definition AICacheRules (rules : list (option AICacheRuleParam)) : verdict := fst (check_each check_cache_rule rules ([], [])).

(** Comparisons of floats: all are false for NaN. *)
Definition MinAICacheSemanticThreshold : spec_float := f_zero.
Definition MaxAICacheSemanticThreshold : spec_float := float_of_Z 2.

Definition AICacheSemanticSettings (p : option AICacheSemanticSettingsParam) : verdict :=
  match p with
  | None => Accept
  | Some p =>
      refuse_if (given (ss_TopK p) (fun k => (k <? 1)%Z || (10 <? k)%Z)) "ai cache semantic settings top_k must be in [%d, %d]" &>
      refuse_if (given (ss_Threshold p) (fun t => SFltb t MinAICacheSemanticThreshold || SFltb MaxAICacheSemanticThreshold t))
        "ai cache semantic settings threshold must be in [%v, %v]" &>
      refuse_if (given (ss_ThresholdRelation p) (fun r => negb (among r ["lt"; "lte"; "gt"; "gte"])))
        "ai cache semantic settings threshold_relation must be one of %s/%s/%s/%s"
  end.

(** * Contexts *)

Definition AIContextModes : list string := ["off"; "conservative"; "balanced"; "aggressive"].

Definition check_context_rule (r : option AIContextRuleParam) (conds : list string) : verdict * list string :=
  match r with
  | None => (Refuse (ParamError "ai context rule #%d is null"), conds)
  | Some r =>
      let c := default "" (cx_Cond r) in
      (refuse_if (blank (cx_Cond r)) "ai context rule #%d cond is required" &>
       wrapped (ConditionExpression c) "ai context rule #%d cond: %v" &>
       refuse_if (seen c conds) "duplicate ai context rule cond: %s" &>
       refuse_if (blank (cx_Mode r)) "ai context rule #%d mode is required" &>
       refuse_if (negb (among (default "" (cx_Mode r)) AIContextModes)) "ai context rule #%d mode must be one of %s/%s/%s/%s" &>
       refuse_if (given (cx_MaxContextTokens r) (fun n => n <? 0)%Z) "ai context rule #%d max_context_tokens must be >= 0" &>
       refuse_if (given (cx_ReserveTokens r) (fun n => n <? 0)%Z) "ai context rule #%d reserve_tokens must be >= 0",
       c :: conds)
  end.

Definition AIContextRules (rules : list (option AIContextRuleParam)) : verdict := fst (check_each check_context_rule rules []).

(** Outside of (0, 1]. *)
Definition not_ratio (x : spec_float) : bool := SFleb x f_zero || SFltb (float_of_Z 1) x.

Definition AIContextSettings (p : option AIContextSettingsParam) : verdict :=
  match p with
  | None => Accept
  | Some p =>
      refuse_if (given (xs_TriggerRatio p) not_ratio) "ai context settings trigger_ratio must be in (0, 1]" &>
      refuse_if (given (xs_KeepLatestImages p) (fun n => n <? 0)%Z) "ai context settings keep_latest_images must be >= 0" &>
      refuse_if (given (xs_ToolResultMaxChars p) (fun n => n <? 0)%Z) "ai context settings tool_result_max_chars must be >= 0" &>
      refuse_if (given (xs_ThinkingPolicy p) (fun x => negb (among x ["trim-all-but-last"; "keep"])))
        "ai context settings thinking_policy must be one of %s/%s" &>
      refuse_if (given (xs_CharsPerToken p) (fun n => n <? 1)%Z) "ai context settings chars_per_token must be >= 1" &>
      refuse_if (given (xs_ImageTokenEstimate p) (fun n => n <? 0)%Z) "ai context settings image_token_estimate must be >= 0" &>
      match xs_Rewrite p with
      | None => Accept
      | Some r =>
          refuse_if (given (rw_Strength r) (fun x => negb (among x ["lite"; "full"])))
            "ai context settings rewrite.strength must be one of %s/%s" &>
          refuse_if (given (rw_ProtectedSurvivalRate r) not_ratio)
            "ai context settings rewrite.protected_survival_rate must be in (0, 1]"
      end
  end.

(** * Mirrors *)

Definition MaxTrafficMirrorRuleNameLength : nat := 128.
Definition MaxTrafficMirrorClusterNameLength : nat := 128.
Definition TrafficMirrorBodyRewritePathModel : string := "model".

Definition check_body_rewrite (b : option TrafficMirrorBodyRewriteParam) : verdict :=
  match b with
  | None => Refuse (ParamError "traffic mirror rule %s body_rewrites cannot contain null element")
  | Some b =>
      refuse_if (negb (bool_decide (br_Path b = Some TrafficMirrorBodyRewritePathModel)))
        "traffic mirror rule %s body_rewrites path must be %q" &>
      refuse_if (blank (br_Value b)) "traffic mirror rule %s body_rewrites value is required and cannot be empty"
  end.

Definition check_mirror_rule (r : option TrafficMirrorRuleParam) (s : list string * list string)
  : verdict * (list string * list string) :=
  match r with
  | None => (Refuse (ParamError "traffic mirror rule #%d is null"), s)
  | Some r =>
      let '(v, s') := check_named (tm_Name r) (tm_Cond r) "traffic mirror rule" MaxTrafficMirrorRuleNameLength s in
      (v &>
       refuse_if (blank (tm_MirrorCluster r)) "traffic mirror rule %s mirror_cluster is required" &>
       refuse_if (MaxTrafficMirrorClusterNameLength <? String.length (default "" (tm_MirrorCluster r)))%nat
         "traffic mirror rule %s mirror_cluster length must be <= %d" &>
       refuse_if (given (tm_Percentage r) (fun n => (n <? 0)%Z || (100 <? n)%Z))
         "traffic mirror rule %s percentage must be between 0 and 100" &>
       refuse_if (given (tm_RemoveHeaders r) (existsb (fun h => bool_decide (h = ""))))
         "traffic mirror rule %s remove_headers cannot contain empty header" &>
       refuse_if (existsb (fun kv => bool_decide (fst kv = "") || bool_decide (snd kv = "")) (tm_SetHeaders r))
         "traffic mirror rule %s set_headers key/value cannot be empty" &>
       fst (check_each (fun b (_ : unit) => (check_body_rewrite b, tt)) (tm_BodyRewrites r) tt) &>
       refuse_if (given (tm_PathRewrite r) (fun p => negb (bool_decide (p = "")) && negb (HasPrefix p "/")))
         "traffic mirror rule %s path_rewrite must start with '/'", s')
  end.

Definition TrafficMirrorRules (rules : list (option TrafficMirrorRuleParam)) : verdict :=
  fst (check_each check_mirror_rule rules ([], [])).
End Conditions.

(** * Clusters *)

Definition check_model (m : string) (models : list string) : verdict * list string :=
  (refuse_if (String.length m =? 0)%nat "llm_config.models cannot contain empty model name" &>
   refuse_if (seen m models) "duplicate model in llm_config.models: %s", m :: models).

Definition check_mapping (m : option Mapping) (sources : list string) : verdict * list string :=
  match m with
  | None => (Panic, sources)
  | Some m =>
      let source := default "" (SourceModel m) in
      (refuse_if (blank (SourceModel m)) "llm_config.model_mappings.source_model is required" &>
       refuse_if (blank (TargetModel m)) "llm_config.model_mappings.target_model is required" &>
       refuse_if (seen source sources) "duplicate source_model in llm_config.model_mappings: %s", source :: sources)
  end.

Definition check_key (k : ClusterKeyRef) (s : Z * list string) : verdict * (Z * list string) :=
  let '(total, names) := s in
  let name := default "" (ckr_Name k) in
  let weight := default 0%Z (ckr_Weight k) in
  (refuse_if (blank (ckr_Name k)) "llm_config.keys[%d].name is required" &>
   refuse_if ((String.length name <? 1)%nat || (128 <? String.length name)%nat)
     "llm_config.keys[%d].name length must be between 1 and 128" &>
   refuse_if (seen name names) "duplicate name in llm_config.keys: %s" &>
   refuse_if (negb (bool_decide (is_Some (ckr_Weight k)))) "llm_config.keys[%d].weight is required" &>
   refuse_if ((weight <? 0)%Z || (100 <? weight)%Z) "llm_config.keys[%d].weight must be between 0 and 100",
   (total + weight, name :: names)%Z).

Definition check_key_policy (p : KeyPolicy) : verdict :=
  refuse_if (given (kp_Strategy p) (fun s => negb (among s [""; "weighted_random"])))
    "llm_config.key_policy.strategy must be weighted_random" &>
  refuse_if (given (kp_MaxRetries p) (fun n => n <? 0)%Z) "llm_config.key_policy.max_retries must be >= 0" &>
  refuse_if (given (kp_RetryBackoffInitial p) (fun n => n <? 0)%Z) "llm_config.key_policy.retry_backoff_initial must be >= 0" &>
  refuse_if (given (kp_RetryBackoffMax p) (fun n => n <? 0)%Z) "llm_config.key_policy.retry_backoff_max must be >= 0" &>
  refuse_if (given (kp_RetryBackoffInitial p) (fun i => given (kp_RetryBackoffMax p) (fun m => m <? i)%Z))
    "llm_config.key_policy.retry_backoff_max must be >= retry_backoff_initial".

Definition check_key_affinity (a : KeyAffinity) : verdict :=
  refuse_if (given (ka_TTL a) (fun n => n <=? 0)%Z) "llm_config.key_affinity.ttl must be > 0" &>
  refuse_if (given (ka_RedisPrefix a) (fun p => bool_decide (p = ""))) "llm_config.key_affinity.redis_prefix must not be empty".

Definition check_upstream_error (n : NormalizeUpstreamError) : verdict :=
  refuse_if (given (nue_UnrecognizedAction n) (fun a => negb (among a [""; "passthrough"; "rewrite_generic"])))
    "llm_config.normalize_upstream_error.unrecognized_action must be passthrough or rewrite_generic" &>
  refuse_if (given (nue_MaxBodyBytes n) (fun b => (b <? 0)%Z || (4 * 1024 * 1024 <? b)%Z))
    "llm_config.normalize_upstream_error.max_body_bytes must be between 0 and 4194304".

Definition if_set {A} (o : option A) (f : A -> verdict) : verdict := match o with Some a => f a | None => Accept end.

Definition check_llm_keys (keys : list ClusterKeyRef) : verdict :=
  if (0 <? length keys)%nat then
    let '(v, (total, _)) := check_each check_key keys (0%Z, []) in
    v &> refuse_if (negb (total =? 100)%Z) "llm_config.keys total weight must be 100, got %d"
  else Accept.

(** The last byte is a slash. *)
Definition slash_end (s : string) : bool := bool_decide (last_byte s = Some "/"%char).

Definition LLMConfig_ok (c : option LLMConfig) : verdict :=
  match c with
  | None => Refuse (ParamError "llm_config is required")
  | Some c =>
      refuse_if (blank (lc_Provider c)) "llm_config.provider is required" &>
      refuse_if (length (lc_Models c) =? 0)%nat "llm_config.models is required" &>
      fst (check_each check_model (lc_Models c) []) &>
      fst (check_each check_mapping (lc_ModelMappings c) []) &>
      check_llm_keys (lc_Keys c) &>
      if_set (lc_KeyPolicy c) check_key_policy &>
      if_set (lc_KeyAffinity c) check_key_affinity &>
      if_set (lc_NormalizeUpstreamError c) check_upstream_error &>
      refuse_if (default false (lc_StripPrefix c) && blank (lc_MatchPrefix c))
        "llm_config.match_prefix is required when strip_prefix is true" &>
      refuse_if (given (lc_MatchPrefix c) (fun p => negb (bool_decide (p = "")) && negb (slash_end p)))
        "llm_config.match_prefix must end with '/'"
  end.

Definition MaxInstanceNameLength : nat := 128.

Definition Instance_ok (i : Instance) : verdict :=
  refuse_if (negb (bool_decide (in_Name i = "")) && ((String.length (in_Name i) <? 1)%nat || (MaxInstanceNameLength <? String.length (in_Name i))%nat))
    "instance name length must be between 1 and %d" &>
  wrapped (Hostname (in_Addr i)) "instance addr: %v" &>
  wrapped (Port (in_Port i)) "instance port: %v" &>
  refuse_if ((in_Weight i <? 0)%Z || (100 <? in_Weight i)%Z) "instance weight must be between 0 and 100".

(** The sets of the loop: names, keys, and whether a positive weight was seen. *)
Definition check_pool_instance (i : Instance) (s : list string * list string * bool) : verdict * (list string * list string * bool) :=
  let '(names, combos, positive) := s in
  let named := negb (bool_decide (in_Name i = "")) in
  let key := in_Name i +:+ "|" +:+ in_Addr i +:+ "|" +:+ FormatInt (in_Port i) in
  (wrapped (Instance_ok i) "instance_pool[%d]: %v" &>
   refuse_if (named && seen (in_Name i) names) "duplicate instance name: %s" &>
   refuse_if (seen key combos) "duplicate instance (name=%s, addr=%s, port=%d)",
   (if named then in_Name i :: names else names, key :: combos, positive || (0 <? in_Weight i)%Z)).

Definition InstancePool (l : list Instance) : verdict :=
  refuse_if (length l =? 0)%nat "instance_pool is required" &>
  let '(v, (_, _, positive)) := check_each check_pool_instance l ([], [], false) in
  v &> refuse_if (negb positive) "instance_pool must have at least one instance with weight > 0".

(** What the endpoints share: a check of the parameters before the rest of a
    request ([lib/xreq/validate.go]) and the mask over a secret ([lib/xmask]). *)

(** A validator before the rest of a request; a panic ends it as well. *)
Definition checked {E A} (v : verdict) (k : prog E (result A)) : prog E (result A) :=
  match v with Accept => k | Refuse e => Ret (Err e) | Panic => Ret (Err (PlainError "panic")) end.

(** A validator first; a refusal is recorded. *)
Definition after_check {E A} (v : verdict) (record : option goerr -> prog E unit) (p : prog E (result A)) : prog E (result A) :=
  match v with
  | Accept => p
  | Refuse e => record (Some e) ;; Ret (Err e)
  | Panic => Ret (Err (PlainError "panic"))
  end.

Lemma all_calls_after_check {E A} (P : forall R, E R -> Prop) v record (p : prog E (result A)) : (forall e, all_calls P (record e)) ->
  (v = Accept -> all_calls P p) -> all_calls P (after_check v record p).
Proof. intros Hr Hp. unfold after_check. destruct v; [by apply Hp| |constructor]. apply all_calls_bind; [apply Hr|constructor]. Qed.
Lemma all_calls_checked {E A} (P : forall R, E R -> Prop) v (p : prog E (result A)) : (v = Accept -> all_calls P p) -> all_calls P (checked v p).
Proof. intros Hp. unfold checked. destruct v; [by apply Hp|constructor..]. Qed.

(** [xmask.Secret] *)
Definition Secret (s : string) : string :=
  let n := String.length s in
  if (n <=? 4)%nat then "********"
  else if (n <=? 8)%nat then String.substring 0 2 s +:+ "****" +:+ String.substring (n - 2) 2 s
  else String.substring 0 4 s +:+ "********" +:+ String.substring (n - 4) 4 s.

(** The tags of the validator that the parameters carry: [min] of a text
    counts its characters. *)
Definition min_len (n : nat) (s : string) : verdict := refuse_if (length (runes (String.length s) s) <? n)%nat "%s".
Definition one_of_values (values : list string) (s : string) : verdict := refuse_if (negb (bool_decide (s ∈ values))) "%s".
