(* ===== verification/ValidateSpec.v ===== *)
(** What the validators accept: route rules exactly when they satisfy a
    declarative specification, and which inputs make them panic. *)
From Stdlib Require Import ZArith Lia Ascii.
From stdpp Require Import base tactics numbers list strings option.
From S2P Require Import Prelude GoStrings GoNet SharedTypes Validate.

Local Open Scope string_scope.

(** * Verdicts *)

Lemma andthen_accept v k : (v &> k) = Accept <-> v = Accept /\ k = Accept.
Proof. destruct v; simpl; intuition congruence. Qed.

Lemma refuse_if_accept b msg : refuse_if b msg = Accept <-> b = false.
Proof. destruct b; simpl; intuition congruence. Qed.

Lemma wrapped_accept v msg : wrapped v msg = Accept <-> v = Accept.
Proof. destruct v; simpl; intuition congruence. Qed.

Lemma seen_false x l : seen x l = false <-> x ∉ l.
Proof. unfold seen. apply bool_decide_eq_false. Qed.

Lemma blank_false s : blank s = false <-> exists x, s = Some x /\ x <> "".
Proof.
  destruct s as [x|]; simpl; [|split; [done|intros (? & [=] & _)]].
  rewrite bool_decide_eq_false. split; [eauto|]. by intros (y & [= ->] & H).
Qed.

Create Rewrite HintDb verdict.
#[export] Hint Rewrite andthen_accept refuse_if_accept wrapped_accept seen_false blank_false negb_false_iff : verdict.

(** * Loops that collect keys *)

Section Loops.
Context {A S K : Type} (f : A -> S -> verdict * S) (good : A -> Prop) (key : A -> K) (keys : S -> list K).
Hypothesis Hok : forall a s, fst (f a s) = Accept <-> good a /\ key a ∉ keys s.
Hypothesis Hnext : forall a s, good a -> keys (snd (f a s)) = key a :: keys s.

Lemma check_each_keys l s :
  fst (check_each f l s) = Accept <->
  Forall good l /\ NoDup (map key l) /\ (forall x, x ∈ map key l -> x ∉ keys s).
Proof.
  revert s. induction l as [|a l IH]; intros s; cbn [check_each map].
  { split; [intros _|done]. repeat split; [constructor|constructor|]. by intros x []%not_elem_of_nil. }
  pose proof (Hok a s) as Ha. pose proof (Hnext a s) as Hn. destruct (f a s) as [v s'] eqn:E; cbn [fst snd] in *.
  rewrite Forall_cons_iff, list.NoDup_cons. destruct v.
  - destruct Ha as [Ha _]. destruct (Ha eq_refl) as [Hg Hk]. rewrite IH, (Hn Hg). split.
    + intros (H1 & H2 & H3). split; [done|]. split.
      * split; [|done]. intros Hin. apply (H3 (key a) Hin). left.
      * intros x [->|Hx]%elem_of_cons; [done|]. specialize (H3 x Hx). rewrite not_elem_of_cons in H3. tauto.
    + intros ([_ H1] & [H2 H2'] & H3). split; [done|]. split; [done|]. intros x Hx [->|Hin]%elem_of_cons; [done|].
      by apply (H3 x); [right|].
  - split; [done|]. intros ([Hg _] & _ & H3). destruct Ha as [_ Ha]. discriminate Ha. split; [done|]. apply H3. left.
  - split; [done|]. intros ([Hg _] & _ & H3). destruct Ha as [_ Ha]. discriminate Ha. split; [done|]. apply H3. left.
Qed.

(** A number that the loop adds up. *)
Lemma check_each_total (total : S -> Z) (amount : A -> Z) :
  (forall a s, fst (f a s) = Accept -> total (snd (f a s)) = (total s + amount a)%Z) ->
  forall l s, fst (check_each f l s) = Accept ->
  total (snd (check_each f l s)) = (total s + foldr Z.add 0 (map amount l))%Z.
Proof.
  intros Ht. induction l as [|a l IH]; intros s; cbn [check_each map foldr]; [cbn; lia|].
  specialize (Ht a s). destruct (f a s) as [v s'] eqn:E; cbn [fst snd] in *. destruct v; [|done..].
  intros Hl. rewrite (IH s' Hl), Ht by done. lia.
Qed.
End Loops.

(** * Keys made of two texts *)

Lemma all_bytes_no_bar P s c : all_bytes P s = true -> P c = false -> has_byte s c = false.
Proof.
  intros Hs Hc. induction s as [|x s IH]; [done|]. cbn [all_bytes has_byte] in *. apply andb_true_iff in Hs as [H1 H2].
  rewrite IH by done. destruct (ascii_dec x c) as [->|]; [congruence|done].
Qed.

Lemma ClusterName_no_bar s : ClusterName s = Accept -> has_byte s "|" = false.
Proof.
  unfold ClusterName, validateNamePattern. autorewrite with verdict. intros (_ & Hp & _). unfold nameToken, tokens in Hp.
  apply andb_true_iff in Hp as [_ Hp]. eapply all_bytes_no_bar; [exact Hp|reflexivity].
Qed.

(** * Route rules *)

Section Routes.
Variable condition_Build : string -> bool.

(** The cluster and the model that a target or a fallback names. *)
Definition place (cluster model : option string) : string * string := (default "" cluster, default "" model).
Definition place_ok (cluster : option string) : Prop := exists c, cluster = Some c /\ c <> "" /\ ClusterName c = Accept.

Record target_spec (t : AiRouteTargetParam) : Prop := {
  ts_weight : exists w, tg_Weight t = Some w /\ (0 <= w <= 100)%Z;
  ts_place : place_ok (tg_ClusterName t)
}.

Definition target_place (t : AiRouteTargetParam) := place (tg_ClusterName t) (tg_Model t).
Definition fallback_place (t : AiRouteFallbackParam) := place (fb_ClusterName t) (fb_Model t).

(** A rule as the documentation asks for: a name, a condition that BFE
    compiles, targets whose weights add up to 100, no place twice. *)
Record rule_spec (r : AiRouteRuleParam) : Prop := {
  rs_name : exists n, rr_Name r = Some n /\ n <> "";
  rs_cond : exists c, rr_Cond r = Some c /\ c <> "" /\ condition_Build c = true;
  rs_targets : exists ts, rr_Targets r = map Some ts /\ ts <> [] /\ Forall target_spec ts /\
    NoDup (map target_place ts) /\ foldr Z.add 0%Z (map (fun t => default 0%Z (tg_Weight t)) ts) = 100%Z;
  rs_fallbacks : exists fs, rr_Fallbacks r = map Some fs /\ Forall (fun f => place_ok (fb_ClusterName f)) fs /\
    NoDup (map fallback_place fs)
}.

Definition rules_spec (p : RouteRulesParam) : Prop :=
  exists rs, rrs_Rules p = map Some rs /\ Forall rule_spec rs /\ NoDup (map rr_Name rs).

(** ** Lists without null elements *)

Lemma all_some {A} (l : list (option A)) : (forall a, a ∈ l -> a <> None) -> exists l', l = map Some l'.
Proof.
  induction l as [|[a|] l IH]; intros Hl; [by exists []| |by destruct (Hl None ltac:(left))].
  destruct IH as [l' ->]; [intros b Hb; apply Hl; by right|]. by exists (a :: l').
Qed.

Lemma NoDup_map_inj {A B C} (f : A -> B) (g : A -> C) (l : list A) :
  (forall a b, a ∈ l -> b ∈ l -> f a = f b <-> g a = g b) -> NoDup (map f l) <-> NoDup (map g l).
Proof.
  induction l as [|a l IH]; intros Hfg; [split; constructor|]. cbn [map]. rewrite !list.NoDup_cons.
  rewrite IH by (intros x y Hx Hy; apply Hfg; by right).
  assert (f a ∈ map f l <-> g a ∈ map g l) as He; [|tauto].
  rewrite !list_elem_of_In, !in_map_iff. split; intros (b & Hb & Hin); exists b; (split; [|done]);
    apply (Hfg b a); try done; by (left || (right; by apply list_elem_of_In)).
Qed.

(** ** One place *)

Definition place_key (cluster model : option string) : string := default "" cluster +:+ "|" +:+ default "" model.

Lemma check_place_accept cluster model what keys :
  fst (check_place cluster model what keys) = Accept <-> place_ok cluster /\ place_key cluster model ∉ keys.
Proof.
  unfold check_place. cbv zeta. cbn [fst]. autorewrite with verdict. unfold place_ok.
  assert ((if bool_decide (default "" model = "") then Accept else wrapped (AIModelFormat (default "" model)) (what +:+ " Model: %v"))
     = Accept) as Hm.
  { case_bool_decide as Hb; [done|]. apply wrapped_accept. unfold AIModelFormat. case_bool_decide; [done|].
    apply refuse_if_accept, Nat.eqb_neq. by destruct (default "" model). }
  rewrite Hm. split.
  - intros ((c & -> & Hc) & Hn & _ & Hk). split; [by exists c|done].
  - intros ((c & -> & Hc & Hn) & Hk). repeat split; try done. by exists c.
Qed.

Lemma place_key_inj c m c' m' : place_ok c -> place_ok c' -> place_key c m = place_key c' m' <-> place c m = place c' m'.
Proof.
  intros (x & -> & _ & Hx) (y & -> & _ & Hy). unfold place_key, place. cbn [default from_option id]. split.
  - intros E. apply bar_inj in E as [-> ->]; [done|by apply ClusterName_no_bar..].
  - by intros [= -> ->].
Qed.

(** ** Targets and fallbacks *)

Definition target_good (t : option AiRouteTargetParam) : Prop := match t with Some t => target_spec t | None => False end.
Definition fallback_good (t : option AiRouteFallbackParam) : Prop :=
  match t with Some t => place_ok (fb_ClusterName t) | None => False end.
Definition target_key (t : option AiRouteTargetParam) : string :=
  match t with Some t => place_key (tg_ClusterName t) (tg_Model t) | None => "" end.
Definition fallback_key (t : option AiRouteFallbackParam) : string :=
  match t with Some t => place_key (fb_ClusterName t) (fb_Model t) | None => "" end.

Lemma check_target_accept t s : fst (check_target t s) = Accept <-> target_good t /\ target_key t ∉ snd s.
Proof.
  destruct s as [total keys]. destruct t as [t|]; [|by split; [|intros [[] _]]]. cbn [check_target target_good target_key snd].
  destruct (tg_Weight t) as [w|] eqn:Ew; [|split; [done|intros [[(w & Hw & _) _] _]; congruence]].
  pose proof (check_place_accept (tg_ClusterName t) (tg_Model t) "target" keys) as Hp.
  destruct (check_place _ _ _ _) as [v keys']. cbn [fst] in *. autorewrite with verdict. rewrite Hp.
  rewrite orb_false_iff, !Z.ltb_ge. split.
  - intros ([H1 H2] & H3 & H4). split; [|done]. split; [by exists w|done].
  - intros [[(w' & Hw & Hr) Hpl] Hk]. rewrite Ew in Hw. injection Hw as <-. destruct Hr. by repeat split.
Qed.

Lemma check_target_next t s : target_good t -> snd (snd (check_target t s)) = target_key t :: snd s.
Proof.
  destruct s as [total keys], t as [t|]; [|done]. intros [(w & Hw & _) _]. cbn [check_target]. by rewrite Hw.
Qed.

Lemma check_target_total t s : fst (check_target t s) = Accept ->
  fst (snd (check_target t s)) = (fst s + match t with Some t => default 0 (tg_Weight t) | None => 0 end)%Z.
Proof.
  destruct s as [total keys], t as [t|]; [|done]. cbn [check_target]. by destruct (tg_Weight t).
Qed.

Lemma check_fallback_accept t s : fst (check_fallback t s) = Accept <-> fallback_good t /\ fallback_key t ∉ s.
Proof. destruct t as [t|]; [apply check_place_accept|]. by split; [|intros [[] _]]. Qed.

Lemma check_fallback_next t s : fallback_good t -> snd (check_fallback t s) = fallback_key t :: s.
Proof. by destruct t. Qed.

(** ** Lists of places: from null-free lists of keys to the specification *)

Lemma good_targets l :
  Forall target_good l /\ NoDup (map target_key l) <->
  exists ts, l = map Some ts /\ Forall target_spec ts /\ NoDup (map target_place ts).
Proof.
  split.
  - intros [Hg Hn]. rewrite list.Forall_forall in Hg. destruct (all_some l) as [ts ->]; [by intros [t|] Ht; [|destruct (Hg None Ht)]|].
    assert (Forall target_spec ts) as Hts.
    { apply list.Forall_forall. intros t Ht. apply (Hg (Some t)). by apply list_elem_of_In, in_map, list_elem_of_In. }
    exists ts. split; [done|]. split; [done|]. rewrite map_map in Hn. revert Hn. apply NoDup_map_inj.
    rewrite list.Forall_forall in Hts. intros a b Ha Hb. symmetry. apply place_key_inj; by apply ts_place, Hts.
  - intros (ts & -> & Hts & Hn). split; [by apply Forall_map|]. rewrite map_map. revert Hn. apply NoDup_map_inj.
    rewrite list.Forall_forall in Hts. intros a b Ha Hb. apply place_key_inj; by apply ts_place, Hts.
Qed.

Lemma good_fallbacks l :
  Forall fallback_good l /\ NoDup (map fallback_key l) <->
  exists fs, l = map Some fs /\ Forall (fun f => place_ok (fb_ClusterName f)) fs /\ NoDup (map fallback_place fs).
Proof.
  split.
  - intros [Hg Hn]. rewrite list.Forall_forall in Hg. destruct (all_some l) as [fs ->]; [by intros [t|] Ht; [|destruct (Hg None Ht)]|].
    assert (Forall (fun f => place_ok (fb_ClusterName f)) fs) as Hfs.
    { apply list.Forall_forall. intros t Ht. apply (Hg (Some t)). by apply list_elem_of_In, in_map, list_elem_of_In. }
    exists fs. split; [done|]. split; [done|]. rewrite map_map in Hn. revert Hn. apply NoDup_map_inj.
    rewrite list.Forall_forall in Hfs. intros a b Ha Hb. symmetry. apply place_key_inj; by apply Hfs.
  - intros (fs & -> & Hfs & Hn). split; [by apply Forall_map|]. rewrite map_map. revert Hn. apply NoDup_map_inj.
    rewrite list.Forall_forall in Hfs. intros a b Ha Hb. apply place_key_inj; by apply Hfs.
Qed.

Lemma no_keys {A} (l : list A) : (forall x, x ∈ l -> x ∉ (@nil A)) <-> True.
Proof. split; [done|]. intros _ x _. apply not_elem_of_nil. Qed.

(** ** Rules *)

Definition rule_good (r : option AiRouteRuleParam) : Prop := match r with Some r => rule_spec r | None => False end.
Definition rule_key (r : option AiRouteRuleParam) : string := match r with Some r => default "" (rr_Name r) | None => "" end.

(** The targets of a rule and the sum of their weights. *)
Lemma targets_accept l :
  (let '(v, (total, _)) := check_each check_target l (0%Z, []) in v = Accept /\ total = 100%Z) <->
  exists ts, l = map Some ts /\ Forall target_spec ts /\ NoDup (map target_place ts) /\
    foldr Z.add 0%Z (map (fun t => default 0%Z (tg_Weight t)) ts) = 100%Z.
Proof.
  pose proof (check_each_keys check_target target_good target_key snd check_target_accept check_target_next l (0%Z, [])) as Hk.
  pose proof (check_each_total check_target fst _ check_target_total l (0%Z, [])) as Ht.
  destruct (check_each check_target l (0%Z, [])) as [v [total keys]]. cbn [fst snd] in Hk, Ht.
  rewrite no_keys in Hk. assert (v = Accept <-> Forall target_good l /\ NoDup (map target_key l)) as Hk' by tauto.
  rewrite good_targets in Hk'. rewrite Hk'. split.
  - intros [(ts & -> & H1 & H2) Htot]. exists ts. repeat split; try done. rewrite map_map in Ht.
    rewrite <- Htot, Ht; [done|]. apply Hk'. by exists ts.
  - intros (ts & -> & H1 & H2 & H3). split; [by exists ts|]. rewrite map_map in Ht.
    rewrite Ht; [done|]. apply Hk'. by exists ts.
Qed.

Lemma check_rule_accept r names :
  fst (check_rule condition_Build r names) = Accept <-> rule_good r /\ rule_key r ∉ names.
Proof.
  destruct r as [r|]; [|by split; [|intros [[] _]]]. cbn [check_rule rule_good rule_key]. cbv zeta. cbn [fst].
  pose proof (targets_accept (rr_Targets r)) as Ht.
  pose proof (check_each_keys check_fallback fallback_good fallback_key id check_fallback_accept check_fallback_next (rr_Fallbacks r) [])
    as Hf. cbn [id] in Hf. rewrite no_keys in Hf.
  assert (fst (check_each check_fallback (rr_Fallbacks r) []) = Accept <->
    Forall fallback_good (rr_Fallbacks r) /\ NoDup (map fallback_key (rr_Fallbacks r))) as Hf' by tauto.
  rewrite good_fallbacks in Hf'.
  destruct (check_each check_target (rr_Targets r) (0%Z, [])) as [v [total keys]].
  unfold ConditionExpression. autorewrite with verdict. rewrite Hf', Z.eqb_eq, Nat.eqb_neq. split.
  - intros ((n & Hn & Hne) & Hnk & (c & Hc & Hce) & Hb & Hl & Hv & Htot & Hfb).
    split; [|by rewrite Hn in *]. split; [by exists n|exists c; by rewrite Hc in Hb| |done].
    destruct (proj1 Ht (conj Hv Htot)) as (ts & Hts & H1 & H2 & H3). exists ts. repeat split; try done.
    intros ->. by rewrite Hts in Hl.
  - intros [[(n & Hn & Hne) (c & Hc & Hce & Hb) (ts & Hts & Hnt & H1 & H2 & H3) Hfb] Hk].
    destruct (proj2 Ht) as [Hv Htot]; [by exists ts|]. rewrite Hc. repeat split; try done; [by exists n|by exists c|].
    rewrite Hts. by destruct ts.
Qed.

Lemma rule_key_name a b : rule_spec a -> rule_spec b -> rule_key (Some a) = rule_key (Some b) <-> rr_Name a = rr_Name b.
Proof.
  intros Ha Hb. destruct (rs_name a Ha) as (n & Hn & _), (rs_name b Hb) as (m & Hm & _).
  cbn [rule_key]. rewrite Hn, Hm. cbn [default from_option id]. split; [by intros ->|by intros [= ->]].
Qed.

Lemma check_rule_next r names : rule_good r -> snd (check_rule condition_Build r names) = rule_key r :: names.
Proof.
  destruct r as [r|]; [|done]. intros _. cbn [check_rule]. cbv zeta.
  by destruct (check_each check_target (rr_Targets r) (0%Z, [])) as [v [total keys]].
Qed.
End Routes.

(** C38: The validator of route rules accepts a rule set exactly when every rule has
    its own name, a condition that BFE compiles, at least one target, targets
    with weights from 0 to 100 that add up to 100, and no cluster and model
    twice among its targets or among its fallbacks.  In particular the text
    key "cluster|model" confuses no two places. *)
Theorem RouteRules_exact condition_Build p :
  RouteRules condition_Build (Some p) = Accept <-> rules_spec condition_Build p.
Proof.
  unfold RouteRules, rules_spec.
  rewrite (check_each_keys _ (rule_good condition_Build) rule_key id (check_rule_accept condition_Build)
    (check_rule_next condition_Build) (rrs_Rules p) []).
  cbn [id]. rewrite no_keys. split.
  - intros (Hg & Hn & _). rewrite list.Forall_forall in Hg.
    destruct (all_some (rrs_Rules p)) as [rs Hrs]; [by intros [t|] Ht; [|destruct (Hg None Ht)]|].
    assert (Forall (rule_spec condition_Build) rs) as Hall.
    { apply list.Forall_forall. intros t Ht. apply (Hg (Some t)). rewrite Hrs. by apply list_elem_of_In, in_map, list_elem_of_In. }
    exists rs. split; [done|]. split; [done|]. rewrite Hrs, map_map in Hn. revert Hn. apply NoDup_map_inj.
    rewrite list.Forall_forall in Hall. intros a b Ha Hb. symmetry. by apply (rule_key_name condition_Build); apply Hall.
  - intros (rs & Hrs & Hall & Hn). rewrite Hrs. split; [by apply Forall_map|]. split; [|done]. rewrite map_map. revert Hn.
    apply NoDup_map_inj. rewrite list.Forall_forall in Hall. intros a b Ha Hb.
    by apply (rule_key_name condition_Build); apply Hall.
Qed.

(** * Null elements *)

(** A null among the rules is not refused but dereferenced: after any rules that
    are accepted the validator panics. *)
Theorem null_rule_panics condition_Build id enabled rs rest :
  RouteRules condition_Build (Some (mkRouteRules id enabled rs)) = Accept ->
  RouteRules condition_Build (Some (mkRouteRules id enabled (rs ++ None :: rest))) = Panic.
Proof.
  unfold RouteRules. cbn [rrs_Rules]. generalize (@nil string). induction rs as [|r rs IH]; intros s; cbn [app check_each]; [done|].
  destruct (check_rule condition_Build r s) as [[| |] s']; [apply IH|done..].
Qed.

Lemma null_rule_panics_witness :
  RouteRules (fun _ => true) (Some (mkRouteRules None None [] )) = Accept /\
  RouteRules (fun _ => true) (Some (mkRouteRules None None ([] ++ None :: []))) = Panic.
Proof. split; [reflexivity|]. exact (null_rule_panics (fun _ => true) None None [] [] eq_refl). Defined.
