(* ===== verification/OwnerModel.v ===== *)
(** API keys and entities, the owners of quota plans, rate limit policies and
    route rules: their tables and storage, and the calls that their managers
    make ([model/entity], [model/api_key], [storage/rdb/entity],
    [storage/rdb/api_key], [storage/rdb/rate_limit_policy],
    [storage/rdb/route_rules]).  Quota plans and counters are those of
    [QuotaModel]: its calls are calls here too.  A column that holds JSON text
    is the list that the text decodes to. *)
From Stdlib Require Import ZArith Lia SpecFloat.
From stdpp Require Import base tactics numbers list strings gmap option.
From S2P Require Import Prelude GoStrings GoTime Prog QuotaModel XCrypto Security SharedTypes.

Local Open Scope string_scope.

(** * Entities ([model/entity/entity.go], [entity_type.go]) *)

Record BalanceSummary : Type := mkBalance { bs_Used : spec_float; bs_Remaining : spec_float }.

(** [QuotaPlan.Balance] stands beside the plan. *)
Record EntityParam : Type := mkEntity {
  ep_InnerID : option Z; ep_EntityID : option string; ep_Name : option string; ep_Description : option string;
  ep_Type : option string; ep_ParentID : option string; ep_AllowModels : list string; ep_BlockModels : list string;
  ep_QuotaPlanID : option Z; ep_RateLimitPolicyID : option Z; ep_RouteRulesID : option Z;
  ep_CreateTime : option Z; ep_UpdateTime : option Z;
  ep_QuotaPlan : option SharedPlan; ep_Balance : option BalanceSummary;
  ep_RateLimitPolicy : option RateLimitPolicyParam; ep_RouteRules : option RouteRulesParam
}.

Record EntityFilter : Type := mkEntityFilter {
  ef_EntityID : option string; ef_Name : option string; ef_Type : option string; ef_ParentID : option string;
  ef_QuotaPlanID : option Z; ef_RouteRulesID : option Z; ef_Page : option Z; ef_PageSize : option Z
}.
Definition byEntityID (id : option string) : EntityFilter := mkEntityFilter id None None None None None None None.
Definition byEntityName (n : option string) : EntityFilter := mkEntityFilter None n None None None None None None.
Definition byEntityType (t : option string) : EntityFilter := mkEntityFilter None None t None None None None None.
Definition byParentID (id : option string) : EntityFilter := mkEntityFilter None None None id None None None None.

Record EntityTypeParam : Type := mkEntityType {
  ty_ID : option Z; ty_TypeName : option string; ty_Description : option string; ty_Level : option Z;
  ty_CreateTime : option Z
}.
Definition noEntityType : EntityTypeParam := mkEntityType None None None None None.
Record EntityTypeFilter : Type := mkEntityTypeFilter {
  tf_ID : option Z; tf_TypeName : option string; tf_Level : option Z; tf_Page : option Z; tf_PageSize : option Z
}.
Definition byTypeName (n : option string) : EntityTypeFilter := mkEntityTypeFilter None n None None None.

(** ** Rows *)

Record TEntity : Type := mkTEntity {
  te_ID : Z; te_EntityID : string; te_Name : string; te_Description : string; te_Type : string;
  te_ParentID : option string; te_AllowModels : list string; te_BlockModels : list string;
  te_QuotaPlanID : option Z; te_RateLimitPolicyID : option Z; te_RouteRulesID : option Z;
  te_CreatedAt : gotime; te_UpdatedAt : gotime
}.

Record TEntityType : Type := mkTEntityType {
  tt_ID : Z; tt_TypeName : string; tt_Description : string; tt_Level : Z; tt_CreatedAt : gotime; tt_UpdatedAt : gotime
}.

(** ** Storage ([storage/rdb/entity]) *)

(** A condition on a column holds when the filter leaves it open. *)
Definition eq_if {A} `{!EqDecision A} (f : option A) (x : A) : bool :=
  match f with None => true | Some a => bool_decide (a = x) end.
(** On a column that may be NULL, which equals nothing. *)
Definition eq_if_null {A} `{!EqDecision A} (f x : option A) : bool :=
  match f with None => true | Some a => bool_decide (Some a = x) end.

Definition where_entity (f : EntityFilter) (r : TEntity) : bool :=
  eq_if (ef_EntityID f) (te_EntityID r) && eq_if (ef_Name f) (te_Name r) && eq_if (ef_Type f) (te_Type r) &&
  eq_if_null (ef_ParentID f) (te_ParentID r) && eq_if_null (ef_QuotaPlanID f) (te_QuotaPlanID r) &&
  eq_if_null (ef_RouteRulesID f) (te_RouteRulesID r).

(** LIMIT of a page; both numbers must be given, and a negative size, which
    wraps to a large unsigned one, is no limit. *)
Definition page_of {A} (page size : option Z) (l : list A) : list A :=
  match page, size with
  | Some p, Some s =>
      let offset := ((p - 1) * s)%Z in
      let offset := if (offset <? 0)%Z then 0%Z else offset in
      let rest := drop (Z.to_nat offset) l in
      if (s <? 0)%Z then rest else take (Z.to_nat s) rest
  | _, _ => l
  end.

Definition list_entities (f : EntityFilter) (l : list TEntity) : list TEntity :=
  page_of (ef_Page f) (ef_PageSize f) (List.filter (where_entity f) l).

Definition unix (t : gotime) : Z := (t / second - unix_epoch)%Z.
Definition or_all (l : list string) : list string := match l with [] => ["*"] | _ => l end.

Definition entityParamToData (r : TEntity) : EntityParam := {|
  ep_InnerID := Some (te_ID r); ep_EntityID := Some (te_EntityID r); ep_Name := Some (te_Name r);
  ep_Description := Some (te_Description r); ep_Type := Some (te_Type r); ep_ParentID := te_ParentID r;
  ep_AllowModels := or_all (te_AllowModels r); ep_BlockModels := te_BlockModels r;
  ep_QuotaPlanID := te_QuotaPlanID r; ep_RateLimitPolicyID := te_RateLimitPolicyID r;
  ep_RouteRulesID := te_RouteRulesID r;
  ep_CreateTime := Some (unix (te_CreatedAt r)); ep_UpdateTime := Some (unix (te_UpdatedAt r));
  ep_QuotaPlan := None; ep_Balance := None; ep_RateLimitPolicy := None; ep_RouteRules := None
|}.

(** INSERT: columns without a default must be given. *)
Definition insert_entity (id : Z) (now : gotime) (p : EntityParam) : option TEntity :=
  match ep_EntityID p, ep_Name p, ep_Type p with
  | Some eid, Some name, Some type =>
      Some (mkTEntity id eid name (default "" (ep_Description p)) type (ep_ParentID p) (or_all (ep_AllowModels p))
              (ep_BlockModels p) (ep_QuotaPlanID p) (ep_RateLimitPolicyID p) (ep_RouteRulesID p) now now)
  | _, _, _ => None
  end.

Definition or_old {A} (new old : list A) : list A := match new with [] => old | _ => new end.
Definition or_null {A} (new old : option A) : option A := match new with Some a => Some a | None => old end.

(** SET of the fields that are given. *)
Definition assign_entity (now : gotime) (p : EntityParam) (r : TEntity) : TEntity := {|
  te_ID := te_ID r;
  te_EntityID := default (te_EntityID r) (ep_EntityID p);
  te_Name := default (te_Name r) (ep_Name p);
  te_Description := default (te_Description r) (ep_Description p);
  te_Type := default (te_Type r) (ep_Type p);
  te_ParentID := or_null (ep_ParentID p) (te_ParentID r);
  te_AllowModels := or_old (ep_AllowModels p) (te_AllowModels r);
  te_BlockModels := or_old (ep_BlockModels p) (te_BlockModels r);
  te_QuotaPlanID := or_null (ep_QuotaPlanID p) (te_QuotaPlanID r);
  te_RateLimitPolicyID := or_null (ep_RateLimitPolicyID p) (te_RateLimitPolicyID r);
  te_RouteRulesID := or_null (ep_RouteRulesID p) (te_RouteRulesID r);
  te_CreatedAt := te_CreatedAt r;
  te_UpdatedAt := now
|}.

(** The unique keys uk_entity_id and uk_name. *)
Definition entities_unique (l : list TEntity) : bool :=
  bool_decide (NoDup (map te_EntityID l)) && bool_decide (NoDup (map te_Name l)).

Definition where_type (f : EntityTypeFilter) (r : TEntityType) : bool :=
  eq_if (tf_ID f) (tt_ID r) && eq_if (tf_TypeName f) (tt_TypeName r) && eq_if (tf_Level f) (tt_Level r).

Definition entityTypeParamToData (r : TEntityType) : EntityTypeParam :=
  mkEntityType (Some (tt_ID r)) (Some (tt_TypeName r)) (Some (tt_Description r)) (Some (tt_Level r))
    (Some (unix (tt_CreatedAt r))).

Definition insert_type (id : Z) (now : gotime) (p : EntityTypeParam) : option TEntityType :=
  match ty_TypeName p with
  | Some n => Some (mkTEntityType id n (default "" (ty_Description p)) (default 1%Z (ty_Level p)) now now)
  | None => None
  end.
(** An update never changes the name. *)
Definition assign_type (now : gotime) (p : EntityTypeParam) (r : TEntityType) : TEntityType :=
  mkTEntityType (tt_ID r) (tt_TypeName r) (default (tt_Description r) (ty_Description p))
    (default (tt_Level r) (ty_Level p)) (tt_CreatedAt r) now.

(** * Rate limit policies ([rate_limit_policy.go]; its rules are those of
    [SharedTypes]) *)

Record PolicyParam : Type := mkPolicy {
  pp_ID : option Z; pp_Enabled : option bool; pp_MaxConcurrency : option Z;
  pp_TpmConfigs : list TPMConfig; pp_RpmConfigs : list RPMConfig; pp_BatchLimits : option BatchLimits
}.
Record RateLimitPolicyFilter : Type := mkPolicyFilter { lf_ID : option Z }.

Record TRateLimitPolicy : Type := mkTPolicy {
  tr_ID : Z; tr_Enabled : bool; tr_MaxConcurrency : Z; tr_TpmConfigs : list TPMConfig; tr_RpmConfigs : list RPMConfig;
  tr_BatchLimits : option BatchLimits; tr_CreatedAt : gotime; tr_UpdatedAt : gotime
}.

Definition where_policy (f : RateLimitPolicyFilter) (r : TRateLimitPolicy) : bool := eq_if (lf_ID f) (tr_ID r).

Definition rateLimitPolicyParamToData (r : TRateLimitPolicy) : PolicyParam :=
  mkPolicy (Some (tr_ID r)) (Some (tr_Enabled r)) (Some (tr_MaxConcurrency r)) (tr_TpmConfigs r) (tr_RpmConfigs r)
    (tr_BatchLimits r).

Definition insert_policy (id : Z) (now : gotime) (p : PolicyParam) : TRateLimitPolicy :=
  mkTPolicy id (default false (pp_Enabled p)) (default (-1)%Z (pp_MaxConcurrency p)) (pp_TpmConfigs p) (pp_RpmConfigs p)
    (pp_BatchLimits p) now now.
(** An update replaces the rules as a whole. *)
Definition assign_policy (now : gotime) (p : PolicyParam) (r : TRateLimitPolicy) : TRateLimitPolicy :=
  mkTPolicy (tr_ID r) (default (tr_Enabled r) (pp_Enabled p)) (default (tr_MaxConcurrency r) (pp_MaxConcurrency p))
    (pp_TpmConfigs p) (pp_RpmConfigs p) (pp_BatchLimits p) (tr_CreatedAt r) now.

(** * Route rules ([storage/rdb/route_rules]) *)

Record TRouteRules : Type := mkTRoute {
  ro_ID : Z; ro_Type : string; ro_Owner : string; ro_Enabled : bool; ro_Rules : list (option AiRouteRuleParam);
  ro_CreatedAt : gotime; ro_UpdatedAt : gotime
}.

Definition routeRulesDataToParam (r : TRouteRules) : RouteRulesParam :=
  mkRouteRules (Some (ro_ID r)) (Some (ro_Enabled r)) (ro_Rules r).

Definition insert_route (id : Z) (now : gotime) (type : string) (owner : option string) (p : RouteRulesParam)
  : option TRouteRules :=
  match owner with
  | Some o => Some (mkTRoute id type o (default false (rrs_Enabled p)) (rrs_Rules p) now now)
  | None => None
  end.
Definition assign_route (now : gotime) (p : RouteRulesParam) (r : TRouteRules) : TRouteRules :=
  mkTRoute (ro_ID r) (ro_Type r) (ro_Owner r) (default (ro_Enabled r) (rrs_Enabled p)) (rrs_Rules p) (ro_CreatedAt r) now.

(** * API keys ([model/api_key/api_key.go], [storage/rdb/api_key]) *)

Record EntitySummary : Type := mkSummary { es_ID : option string; es_Name : option string; es_Type : option string }.

Record APIKeyParam : Type := mkAPIKey {
  ak_ID : option string; ak_Enable : option bool; ak_Status : option string; ak_CreateTime : option Z;
  ak_UpdatedTime : option Z; ak_KeyCreateAt : option gotime; ak_Key : option string; ak_Description : option string;
  ak_UnlimitedQuota : option bool; ak_ExpiredTime : option Z; ak_Models : list string; ak_Subnet : list string;
  ak_EntityID : option string; ak_QuotaPlanID : option Z; ak_RateLimitPolicyID : option Z; ak_RouteRulesID : option Z;
  ak_ProductName : option string; ak_InnerID : option Z; ak_RemainingQuota : option spec_float;
  ak_QuotaPlan : option SharedPlan; ak_Balance : option BalanceSummary;
  ak_RateLimitPolicy : option RateLimitPolicyParam; ak_RouteRules : option RouteRulesParam;
  ak_Entity : option EntitySummary
}.

Record APIKeyFilter : Type := mkKeyFilter {
  kf_ProductName : option string; kf_ID : option string; kf_Key : option string; kf_InnerID : option Z;
  kf_QuotaPlanID : option Z; kf_RouteRulesID : option Z; kf_Page : option Z; kf_PageSize : option Z;
  kf_Enabled : option bool; kf_EntityID : option string; kf_UnlimitedQuota : option bool
}.
Definition anyKey : APIKeyFilter := mkKeyFilter None None None None None None None None None None None.
Definition byKeyValue (k : option string) : APIKeyFilter := mkKeyFilter None None k None None None None None None None None.
Definition byInnerID (i : option Z) : APIKeyFilter := mkKeyFilter None None None i None None None None None None None.
Definition byKeyEntity (e : option string) : APIKeyFilter := mkKeyFilter None None None None None None None None None e None.
Definition byKeyPlan (i : option Z) : APIKeyFilter := mkKeyFilter None None None None i None None None None None None.
Definition byProductID (product id : option string) : APIKeyFilter :=
  mkKeyFilter product id None None None None None None None None None.

Record TAPIKey : Type := mkTKey {
  tk_InnerID : Z; tk_ID : string; tk_Enable : bool; tk_Key : string; tk_KeyHash : string; tk_Description : string;
  tk_UnlimitedQuota : bool; tk_ProductName : string; tk_ExpiredTime : Z; tk_AllowedModels : list string;
  tk_Subnet : list string; tk_EntityID : option string; tk_QuotaPlanID : option Z; tk_RateLimitPolicyID : option Z;
  tk_RouteRulesID : option Z; tk_CreatedAt : gotime; tk_UpdatedAt : gotime
}.

Record APIKeyTokenParam : Type := mkToken { tn_Key : option string; tn_CreatedAt : option gotime }.
Record TAPIKeyToken : Type := mkTToken { tt_TokenID : Z; tt_Key : string; tt_TokenCreatedAt : gotime }.

Section Keys.
Context {CR : Crypto}.

(** A key is looked up by its hash. *)
Definition where_key (f : APIKeyFilter) (r : TAPIKey) : bool :=
  eq_if (kf_ProductName f) (tk_ProductName r) && eq_if (kf_ID f) (tk_ID r) && eq_if (kf_InnerID f) (tk_InnerID r) &&
  eq_if_null (kf_QuotaPlanID f) (tk_QuotaPlanID r) && eq_if_null (kf_RouteRulesID f) (tk_RouteRulesID r) &&
  eq_if (kf_Enabled f) (tk_Enable r) && eq_if_null (kf_EntityID f) (tk_EntityID r) &&
  eq_if (kf_UnlimitedQuota f) (tk_UnlimitedQuota r) &&
  match kf_Key f with
  | Some k => if bool_decide (k = "") then true else bool_decide (tk_KeyHash r = KeyHash k)
  | None => true
  end.

(** Here a negative offset wraps to a large one. *)
Definition page_of_keys (f : APIKeyFilter) (l : list TAPIKey) : list TAPIKey :=
  match kf_Page f, kf_PageSize f with
  | Some p, Some s =>
      let offset := ((p - 1) * s)%Z in
      if (offset <? 0)%Z then [] else
      let rest := drop (Z.to_nat offset) l in
      if (s <? 0)%Z then rest else take (Z.to_nat s) rest
  | _, _ => l
  end.

Definition apiKeyParamToData (s : security) (r : TAPIKey) : result APIKeyParam :=
  match DecryptIfEnabled s (tk_Key r) with
  | Err _ => Err (PlainError "api_key %s: decrypt: %v")
  | Ok key => Ok {|
      ak_ID := Some (tk_ID r); ak_Enable := Some (tk_Enable r); ak_Status := None;
      ak_CreateTime := Some (unix (tk_CreatedAt r)); ak_UpdatedTime := Some (unix (tk_UpdatedAt r));
      ak_KeyCreateAt := Some (tk_CreatedAt r); ak_Key := Some key; ak_Description := Some (tk_Description r);
      ak_UnlimitedQuota := Some (tk_UnlimitedQuota r); ak_ExpiredTime := Some (tk_ExpiredTime r);
      ak_Models := or_all (tk_AllowedModels r); ak_Subnet := or_all (tk_Subnet r); ak_EntityID := tk_EntityID r;
      ak_QuotaPlanID := tk_QuotaPlanID r; ak_RateLimitPolicyID := tk_RateLimitPolicyID r;
      ak_RouteRulesID := tk_RouteRulesID r; ak_ProductName := Some (tk_ProductName r); ak_InnerID := Some (tk_InnerID r);
      ak_RemainingQuota := None; ak_QuotaPlan := None; ak_Balance := None; ak_RateLimitPolicy := None;
      ak_RouteRules := None; ak_Entity := None
    |}
  end.

(** The first row that does not decrypt fails the whole list. *)
Fixpoint decode_keys (s : security) (l : list TAPIKey) : result (list APIKeyParam) :=
  match l with
  | [] => Ok []
  | r :: l' =>
      match apiKeyParamToData s r with
      | Err e => Err e
      | Ok p => match decode_keys s l' with Err e => Err e | Ok ps => Ok (p :: ps) end
      end
  end.

Definition list_keys (s : security) (f : APIKeyFilter) (l : list TAPIKey) : result (list APIKeyParam) :=
  decode_keys s (page_of_keys f (List.filter (where_key f) l)).

(** The stored key and its hash; both columns are left out for an empty key. *)
Definition stored_key (s : security) (nonce : result string) (p : APIKeyParam) : result (option (string * string)) :=
  match ak_Key p with
  | Some k =>
      if bool_decide (k = "") then Ok None else
      match EncryptIfEnabled s nonce k with
      | Err _ => Err (PlainError "api_key %v: encrypt: %v")
      | Ok enc => Ok (Some (enc, KeyHash k))
      end
  | None => Ok None
  end.

Definition insert_key (id : Z) (now : gotime) (key : option (string * string)) (p : APIKeyParam) : TAPIKey := {|
  tk_InnerID := id; tk_ID := default "" (ak_ID p); tk_Enable := default false (ak_Enable p);
  tk_Key := match key with Some (k, _) => k | None => "" end;
  tk_KeyHash := match key with Some (_, h) => h | None => "" end;
  tk_Description := default "" (ak_Description p); tk_UnlimitedQuota := default false (ak_UnlimitedQuota p);
  tk_ProductName := default "" (ak_ProductName p); tk_ExpiredTime := default (-1)%Z (ak_ExpiredTime p);
  tk_AllowedModels := or_all (ak_Models p); tk_Subnet := or_all (ak_Subnet p); tk_EntityID := ak_EntityID p;
  tk_QuotaPlanID := ak_QuotaPlanID p; tk_RateLimitPolicyID := ak_RateLimitPolicyID p; tk_RouteRulesID := ak_RouteRulesID p;
  tk_CreatedAt := now; tk_UpdatedAt := now
|}.

Definition assign_key (now : gotime) (key : option (string * string)) (p : APIKeyParam) (r : TAPIKey) : TAPIKey := {|
  tk_InnerID := tk_InnerID r; tk_ID := default (tk_ID r) (ak_ID p); tk_Enable := default (tk_Enable r) (ak_Enable p);
  tk_Key := match key with Some (k, _) => k | None => tk_Key r end;
  tk_KeyHash := match key with Some (_, h) => h | None => tk_KeyHash r end;
  tk_Description := default (tk_Description r) (ak_Description p);
  tk_UnlimitedQuota := default (tk_UnlimitedQuota r) (ak_UnlimitedQuota p);
  tk_ProductName := default (tk_ProductName r) (ak_ProductName p);
  tk_ExpiredTime := default (tk_ExpiredTime r) (ak_ExpiredTime p);
  tk_AllowedModels := or_old (ak_Models p) (tk_AllowedModels r); tk_Subnet := or_old (ak_Subnet p) (tk_Subnet r);
  tk_EntityID := or_null (ak_EntityID p) (tk_EntityID r); tk_QuotaPlanID := or_null (ak_QuotaPlanID p) (tk_QuotaPlanID r);
  tk_RateLimitPolicyID := or_null (ak_RateLimitPolicyID p) (tk_RateLimitPolicyID r);
  tk_RouteRulesID := or_null (ak_RouteRulesID p) (tk_RouteRulesID r);
  tk_CreatedAt := tk_CreatedAt r; tk_UpdatedAt := now
|}.
End Keys.

(** The unique keys uk_id and uk_api_key_hash. *)
Definition keys_unique (l : list TAPIKey) : bool :=
  bool_decide (NoDup (map tk_ID l)) && bool_decide (NoDup (map tk_KeyHash l)).

(** * Operation log *)

(** The values of the change maps. *)
Inductive oval : Type :=
| VStr (s : string) | VStrs (l : list string) | VInt (z : Z) | VBool (b : bool)
| VTpm (l : list TPMConfig) | VRpm (l : list RPMConfig) | VBatch (b : BatchLimits).
(** A snapshot of a change: a map, or for an API key the parameters that
    [ParamToMap] turns into one. *)
Inductive snapshot : Type := SMap (m : gmap string oval) | SKey (p : APIKeyParam).

Record op_entry : Type := mkOp {
  oe_ResourceType : string; oe_Action : string; oe_ResourceID : string; oe_ResourceName : string;
  oe_ResourceParentID : string; oe_before : option snapshot; oe_after : option snapshot; oe_err : option goerr
}.

(** * The calls *)

Inductive ownerE : Type -> Type :=
(* quota plans, counters, transactions and the clock *)
| Quota {R} (e : quotaE R) : ownerE R
(* EntityTypeStorager *)
| CreateEntityTypeRow (p : EntityTypeParam) : ownerE (result Z)
| FetchEntityTypeRow (f : EntityTypeFilter) : ownerE (result (option EntityTypeParam))
| FetchEntityTypeRows (f : EntityTypeFilter) : ownerE (result (list EntityTypeParam))
| UpdateEntityTypeRow (f : EntityTypeFilter) (p : EntityTypeParam) : ownerE (result Z)
| DeleteEntityTypeRow (f : EntityTypeFilter) : ownerE (result unit)
(* EntityStorager *)
| CreateEntityRow (p : EntityParam) : ownerE (result Z)
| FetchEntityRow (f : EntityFilter) : ownerE (result (option EntityParam))
| FetchEntityRows (f : EntityFilter) : ownerE (result (list EntityParam))
| UpdateEntityRow (f : EntityFilter) (p : EntityParam) : ownerE (result Z)
| DeleteEntityRow (f : EntityFilter) : ownerE (result unit)
(* RateLimitPolicyStorager *)
| CreatePolicyRow (p : PolicyParam) : ownerE (result Z)
| FetchPolicyRow (f : RateLimitPolicyFilter) : ownerE (result (option PolicyParam))
| FetchPolicyRows (f : RateLimitPolicyFilter) : ownerE (result (list PolicyParam))
| UpdatePolicyRow (f : RateLimitPolicyFilter) (p : PolicyParam) : ownerE (result Z)
| DeletePolicyRow (f : RateLimitPolicyFilter) : ownerE (result unit)
(* RouteRulesStorager *)
| CreateRouteRow (type : string) (owner : option string) (p : RouteRulesParam) : ownerE (result Z)
| FetchRouteRow (id : Z) : ownerE (result (option RouteRulesParam))
| UpdateRouteRow (id : Z) (p : RouteRulesParam) : ownerE (result Z)
| DeleteRouteRow (id : Z) : ownerE (result unit)
(* APIKeyStorager *)
| FetchKeyRows (f : APIKeyFilter) : ownerE (result (list APIKeyParam))
| CreateKeyRow (p : APIKeyParam) : ownerE (result Z)
| UpdateKeyRow (f : APIKeyFilter) (p : APIKeyParam) : ownerE (result Z)
| DeleteKeyRow (f : APIKeyFilter) : ownerE (result unit)
| CreateTokenRow (p : APIKeyTokenParam) : ownerE (result Z)
| UpdateTokenRow (id : Z) (p : APIKeyTokenParam) : ownerE (result unit)
| FetchTokenRows (key : option string) : ownerE (result (list APIKeyTokenParam))
(* identifiers and log *)
| NewUUID : ownerE string
| AllocateEntityID : ownerE (result Z)
| AllocateKeyID (product : string) : ownerE (result Z)
| RandomBytes (n : nat) : ownerE (result (list Z))
| RecordOp (e : op_entry) : ownerE unit.

(** A program of the quota component as one of this component. *)
Fixpoint via {A} (p : prog quotaE A) : prog ownerE A :=
  match p with
  | Ret a => Ret a
  | Call e k => Call (Quota e) (fun r => via (k r))
  end.

(** * The world *)

Inductive table : Type := Types | Entities | Policies | Routes | Keys | Tokens.
#[export] Instance table_eq_dec : EqDecision table.
Proof. solve_decision. Defined.

Record odata : Type := mkOData {
  od_types : list TEntityType; od_entities : list TEntity; od_policies : list TRateLimitPolicy;
  od_routes : list TRouteRules; od_keys : list TAPIKey; od_tokens : list TAPIKeyToken
}.

Record oworld : Type := mkOWorld {
  ow_data : odata;
  (** the tables as they were when the open transaction began *)
  ow_saved : option odata;
  (** the next identifiers, which a rollback does not take back *)
  ow_next : table -> Z;
  (** plans, counters, clock and plan entries *)
  ow_q : qworld;
  ow_log : list op_entry;
  ow_sec : security;
  ow_nonce : nat -> result string; ow_uuid : nat -> string; ow_bytes : nat -> result (list Z); ow_draws : nat;
  (** [entity_id_seq] *)
  ow_entitySeq : Z;
  (** [api_key_id_seq]: the next number of each product *)
  ow_keySeq : string -> Z
}.

Definition put_data (d : odata) (w : oworld) : oworld :=
  mkOWorld d (ow_saved w) (ow_next w) (ow_q w) (ow_log w) (ow_sec w) (ow_nonce w) (ow_uuid w) (ow_bytes w) (ow_draws w) (ow_entitySeq w) (ow_keySeq w).
Definition put_saved (s : option odata) (w : oworld) : oworld :=
  mkOWorld (ow_data w) s (ow_next w) (ow_q w) (ow_log w) (ow_sec w) (ow_nonce w) (ow_uuid w) (ow_bytes w) (ow_draws w) (ow_entitySeq w) (ow_keySeq w).
Definition put_q (q : qworld) (w : oworld) : oworld :=
  mkOWorld (ow_data w) (ow_saved w) (ow_next w) q (ow_log w) (ow_sec w) (ow_nonce w) (ow_uuid w) (ow_bytes w) (ow_draws w) (ow_entitySeq w) (ow_keySeq w).
Definition take_id (t : table) (w : oworld) : oworld :=
  mkOWorld (ow_data w) (ow_saved w) (fun t' => if bool_decide (t' = t) then ow_next w t + 1 else ow_next w t')%Z (ow_q w)
    (ow_log w) (ow_sec w) (ow_nonce w) (ow_uuid w) (ow_bytes w) (ow_draws w) (ow_entitySeq w) (ow_keySeq w).
Definition draw (w : oworld) : oworld :=
  mkOWorld (ow_data w) (ow_saved w) (ow_next w) (ow_q w) (ow_log w) (ow_sec w) (ow_nonce w) (ow_uuid w) (ow_bytes w) (S (ow_draws w))
    (ow_entitySeq w) (ow_keySeq w).
Definition log_op (e : op_entry) (w : oworld) : oworld :=
  mkOWorld (ow_data w) (ow_saved w) (ow_next w) (ow_q w) (ow_log w ++ [e]) (ow_sec w) (ow_nonce w) (ow_uuid w) (ow_bytes w) (ow_draws w)
    (ow_entitySeq w) (ow_keySeq w).
Definition next_seq (w : oworld) : oworld :=
  mkOWorld (ow_data w) (ow_saved w) (ow_next w) (ow_q w) (ow_log w) (ow_sec w) (ow_nonce w) (ow_uuid w) (ow_bytes w) (ow_draws w)
    (ow_entitySeq w + 1) (ow_keySeq w).

Definition next_key_seq (product : string) (w : oworld) : oworld :=
  mkOWorld (ow_data w) (ow_saved w) (ow_next w) (ow_q w) (ow_log w) (ow_sec w) (ow_nonce w) (ow_uuid w) (ow_bytes w) (ow_draws w)
    (ow_entitySeq w) (fun p => if bool_decide (p = product) then ow_keySeq w p + 1 else ow_keySeq w p)%Z.

Definition put_types (l : list TEntityType) (d : odata) : odata :=
  mkOData l (od_entities d) (od_policies d) (od_routes d) (od_keys d) (od_tokens d).
Definition put_entities (l : list TEntity) (d : odata) : odata :=
  mkOData (od_types d) l (od_policies d) (od_routes d) (od_keys d) (od_tokens d).
Definition put_policies (l : list TRateLimitPolicy) (d : odata) : odata :=
  mkOData (od_types d) (od_entities d) l (od_routes d) (od_keys d) (od_tokens d).
Definition put_routes (l : list TRouteRules) (d : odata) : odata :=
  mkOData (od_types d) (od_entities d) (od_policies d) l (od_keys d) (od_tokens d).
Definition put_keys (l : list TAPIKey) (d : odata) : odata :=
  mkOData (od_types d) (od_entities d) (od_policies d) (od_routes d) l (od_tokens d).
Definition put_tokens (l : list TAPIKeyToken) (d : odata) : odata :=
  mkOData (od_types d) (od_entities d) (od_policies d) (od_routes d) (od_keys d) l.

Definition ow_now (w : oworld) : gotime := q_now (ow_q w).

(** INSERT of a row: the identifier is taken even when a unique key refuses
    the row. *)
Definition inserting {A} (t : table) (w : oworld) (row : option A) (l : list A) (unique : list A -> bool)
  (put : list A -> odata -> odata) : result Z * oworld :=
  match row with
  | Some r =>
      if unique (l ++ [r])%list then (Ok (ow_next w t), take_id t (put_data (put (l ++ [r])%list (ow_data w)) w))
      else (Err DaoError, take_id t w)
  | None => (Err DaoError, w)
  end.
(** UPDATE of the rows that match: the count of matched rows. *)
Definition updating {A} (w : oworld) (hit : A -> bool) (set : A -> A) (l : list A) (unique : list A -> bool)
  (put : list A -> odata -> odata) : result Z * oworld :=
  let l' := map (fun r => if hit r then set r else r) l in
  if unique l' then (Ok (Z.of_nat (length (List.filter hit l))), put_data (put l' (ow_data w)) w) else (Err DaoError, w).
Definition without {A} (hit : A -> bool) (l : list A) : list A := List.filter (fun r => negb (hit r)) l.
Definition always {A} (_ : A) : bool := true.

Section Handle.
Context {CR : Crypto}.

Definition plan_key (p : APIKeyParam) : PlanAPIKey := mkPlanKey (default 0%Z (ak_QuotaPlanID p)) (ak_Key p) (ak_KeyCreateAt p).
Definition plan_entity (plan : Z) (r : TEntity) : PlanEntity := mkPlanEntity plan (Some (te_EntityID r)).

(** The calls of the quota component: its queries for the owners of a plan
    read the tables of this component, and its transactions span them. *)
Definition quota_via {R} (e : quotaE R) : oworld -> R * oworld :=
  match e in quotaE R return oworld -> R * oworld with
  | FetchPlanAPIKeys plan => fun w =>
      (match list_keys (ow_sec w) (byKeyPlan (Some plan)) (od_keys (ow_data w)) with
       | Ok l => Ok (map plan_key l)
       | Err e => Err e
       end, w)
  | FetchPlanEntities plan => fun w =>
      (Ok (map (plan_entity plan)
             (List.filter (fun r => bool_decide (te_QuotaPlanID r = Some plan)) (od_entities (ow_data w)))), w)
  | TxBegin => fun w =>
      let '(r, q) := quota_handle TxBegin (ow_q w) in (r, put_saved (Some (ow_data w)) (put_q q w))
  | TxCommit => fun w => let '(r, q) := quota_handle TxCommit (ow_q w) in (r, put_saved None (put_q q w))
  | TxRollback => fun w =>
      let '(r, q) := quota_handle TxRollback (ow_q w) in
      (r, put_saved None (put_data (default (ow_data w) (ow_saved w)) (put_q q w)))
  | e => fun w => let '(r, q) := quota_handle e (ow_q w) in (r, put_q q w)
  end.

Definition owner_handle {R} (e : ownerE R) : oworld -> R * oworld :=
  match e in ownerE R return oworld -> R * oworld with
  | Quota e => quota_via e
  | CreateEntityTypeRow p => fun w =>
      inserting Types w (insert_type (ow_next w Types) (ow_now w) p) (od_types (ow_data w))
        (fun l => bool_decide (NoDup (map tt_TypeName l))) put_types
  | FetchEntityTypeRow f => fun w =>
      (Ok (entityTypeParamToData <$> List.find (where_type f) (od_types (ow_data w))), w)
  | FetchEntityTypeRows f => fun w =>
      (Ok (map entityTypeParamToData
             (page_of (tf_Page f) (tf_PageSize f) (List.filter (where_type f) (od_types (ow_data w))))), w)
  | UpdateEntityTypeRow f p => fun w =>
      updating w (where_type f) (assign_type (ow_now w) p) (od_types (ow_data w)) always put_types
  | DeleteEntityTypeRow f => fun w =>
      (Ok tt, put_data (put_types (without (where_type f) (od_types (ow_data w))) (ow_data w)) w)
  | CreateEntityRow p => fun w =>
      inserting Entities w (insert_entity (ow_next w Entities) (ow_now w) p) (od_entities (ow_data w))
        entities_unique put_entities
  | FetchEntityRow f => fun w =>
      (Ok (entityParamToData <$> List.find (where_entity f) (od_entities (ow_data w))), w)
  | FetchEntityRows f => fun w => (Ok (map entityParamToData (list_entities f (od_entities (ow_data w)))), w)
  | UpdateEntityRow f p => fun w =>
      updating w (where_entity f) (assign_entity (ow_now w) p) (od_entities (ow_data w)) entities_unique put_entities
  | DeleteEntityRow f => fun w =>
      (Ok tt, put_data (put_entities (without (where_entity f) (od_entities (ow_data w))) (ow_data w)) w)
  | CreatePolicyRow p => fun w =>
      inserting Policies w (Some (insert_policy (ow_next w Policies) (ow_now w) p)) (od_policies (ow_data w)) always
        put_policies
  | FetchPolicyRow f => fun w =>
      (Ok (rateLimitPolicyParamToData <$> List.find (where_policy f) (od_policies (ow_data w))), w)
  | FetchPolicyRows f => fun w =>
      (Ok (map rateLimitPolicyParamToData (List.filter (where_policy f) (od_policies (ow_data w)))), w)
  | UpdatePolicyRow f p => fun w =>
      updating w (where_policy f) (assign_policy (ow_now w) p) (od_policies (ow_data w)) always put_policies
  | DeletePolicyRow f => fun w =>
      (Ok tt, put_data (put_policies (without (where_policy f) (od_policies (ow_data w))) (ow_data w)) w)
  | CreateRouteRow type owner p => fun w =>
      inserting Routes w (insert_route (ow_next w Routes) (ow_now w) type owner p) (od_routes (ow_data w))
        (fun l => bool_decide (NoDup (map (fun r => (ro_Type r, ro_Owner r)) l))) put_routes
  | FetchRouteRow id => fun w =>
      (Ok (routeRulesDataToParam <$> List.find (fun r => (ro_ID r =? id)%Z) (od_routes (ow_data w))), w)
  | UpdateRouteRow id p => fun w =>
      updating w (fun r => (ro_ID r =? id)%Z) (assign_route (ow_now w) p) (od_routes (ow_data w)) always put_routes
  | DeleteRouteRow id => fun w =>
      (Ok tt, put_data (put_routes (without (fun r => (ro_ID r =? id)%Z) (od_routes (ow_data w))) (ow_data w)) w)
  | FetchKeyRows f => fun w => (list_keys (ow_sec w) f (od_keys (ow_data w)), w)
  | CreateKeyRow p => fun w =>
      match stored_key (ow_sec w) (ow_nonce w (ow_draws w)) p with
      | Err e => (Err e, draw w)
      | Ok key =>
          inserting Keys (draw w) (Some (insert_key (ow_next w Keys) (ow_now w) key p)) (od_keys (ow_data w))
            keys_unique put_keys
      end
  | UpdateKeyRow f p => fun w =>
      match stored_key (ow_sec w) (ow_nonce w (ow_draws w)) p with
      | Err e => (Err e, draw w)
      | Ok key => updating (draw w) (where_key f) (assign_key (ow_now w) key p) (od_keys (ow_data w)) keys_unique put_keys
      end
  | DeleteKeyRow f => fun w =>
      (Ok tt, put_data (put_keys (without (where_key f) (od_keys (ow_data w))) (ow_data w)) w)
  | CreateTokenRow p => fun w =>
      inserting Tokens w (Some (mkTToken (ow_next w Tokens) (default "" (tn_Key p)) (ow_now w))) (od_tokens (ow_data w))
        (fun l => bool_decide (NoDup (map tt_Key l))) put_tokens
  | UpdateTokenRow id p => fun w =>
      let '(r, w') := updating w (fun r => (tt_TokenID r =? id)%Z)
        (fun r => mkTToken (tt_TokenID r) (default (tt_Key r) (tn_Key p)) (tt_TokenCreatedAt r)) (od_tokens (ow_data w))
        (fun l => bool_decide (NoDup (map tt_Key l))) put_tokens in
      (match r with Ok _ => Ok tt | Err e => Err e end, w')
  | FetchTokenRows key => fun w =>
      (Ok (map (fun r => mkToken (Some (tt_Key r)) (Some (tt_TokenCreatedAt r)))
             (List.filter (fun r => eq_if key (tt_Key r)) (od_tokens (ow_data w)))), w)
  | NewUUID => fun w => (ow_uuid w (ow_draws w), draw w)
  | AllocateEntityID => fun w => (Ok (ow_entitySeq w), next_seq w)
  | AllocateKeyID product => fun w => (Ok (ow_keySeq w product), next_key_seq product w)
  | RandomBytes n => fun w => (match ow_bytes w (ow_draws w) with Ok l => Ok (take n l) | Err e => Err e end, draw w)
  | RecordOp e => fun w => (tt, log_op e w)
  end.

Definition owner_fault {R} (e : ownerE R) : option R :=
  match e in ownerE R return option R with
  | Quota e => quota_fault e
  | CreateEntityTypeRow _ => Some (Err DaoError)
  | FetchEntityTypeRow _ => Some (Err DaoError)
  | FetchEntityTypeRows _ => Some (Err DaoError)
  | UpdateEntityTypeRow _ _ => Some (Err DaoError)
  | DeleteEntityTypeRow _ => Some (Err DaoError)
  | CreateEntityRow _ => Some (Err DaoError)
  | FetchEntityRow _ => Some (Err DaoError)
  | FetchEntityRows _ => Some (Err DaoError)
  | UpdateEntityRow _ _ => Some (Err DaoError)
  | DeleteEntityRow _ => Some (Err DaoError)
  | CreatePolicyRow _ => Some (Err DaoError)
  | FetchPolicyRow _ => Some (Err DaoError)
  | FetchPolicyRows _ => Some (Err DaoError)
  | UpdatePolicyRow _ _ => Some (Err DaoError)
  | DeletePolicyRow _ => Some (Err DaoError)
  | CreateRouteRow _ _ _ => Some (Err DaoError)
  | FetchRouteRow _ => Some (Err DaoError)
  | UpdateRouteRow _ _ => Some (Err DaoError)
  | DeleteRouteRow _ => Some (Err DaoError)
  | FetchKeyRows _ => Some (Err DaoError)
  | CreateKeyRow _ => Some (Err DaoError)
  | UpdateKeyRow _ _ => Some (Err DaoError)
  | DeleteKeyRow _ => Some (Err DaoError)
  | CreateTokenRow _ => Some (Err DaoError)
  | UpdateTokenRow _ _ => Some (Err DaoError)
  | FetchTokenRows _ => Some (Err DaoError)
  | NewUUID => None
  | AllocateEntityID => Some (Err DaoError)
  | AllocateKeyID _ => Some (Err DaoError)
  | RandomBytes _ => None
  | RecordOp _ => None
  end.

#[export] Instance owner_interp : Interp ownerE oworld := {|
  handle := @owner_handle;
  fault := @owner_fault
|}.
End Handle.

#[export] Instance owner_txn : TxnCalls ownerE := {|
  tx_begin := Quota TxBegin;
  tx_commit := Quota TxCommit;
  tx_rollback := Quota TxRollback;
  is_commit := fun R (e : ownerE R) => match e with Quota e => is_commit e | _ => false end
|}.
