(* ===== verification/OwnerCommon.v ===== *)
(** Rate limit policies ([model/rate_limit_policy]): the manager, the storage
    as API keys and entities use it, the audit entries for writes made in the
    owner's transaction, and the export to the gateway; then what the managers
    of entities and of API keys have in common. *)
From Stdlib Require Import ZArith Lia SpecFloat.
From stdpp Require Import base tactics numbers list strings gmap option.
From S2P Require Import Prelude GoStrings GoTime Prog QuotaModel QuotaManager XCrypto SharedTypes OwnerModel.

Local Open Scope string_scope.

Definition byPolicyID (id : Z) : RateLimitPolicyFilter := mkPolicyFilter (Some id).

(** * Manager *)

Record RateLimitPolicyManager : Type := mkRLM { rm_hasEntities : bool; rm_hasLog : bool }.

Definition put_oval {A} (k : string) (f : A -> oval) (v : option A) (m : gmap string oval) : gmap string oval :=
  match v with Some x => <[k := f x]> m | None => m end.
Definition if_any {A} (l : list A) : option (list A) := match l with [] => None | _ => Some l end.

Definition rateLimitPolicyParamToMap (p : option PolicyParam) : option snapshot :=
  match p with
  | None => None
  | Some p => Some (SMap
      (put_oval "batch_limits" VBatch (pp_BatchLimits p) (put_oval "rpm_configs" VRpm (if_any (pp_RpmConfigs p))
      (put_oval "tpm_configs" VTpm (if_any (pp_TpmConfigs p)) (put_oval "max_concurrency" VInt (pp_MaxConcurrency p)
      (put_oval "enabled" VBool (pp_Enabled p) (put_oval "id" VInt (pp_ID p) ∅)))))))
  end.

Definition recordRateLimitPolicyOperation (m : RateLimitPolicyManager) (action policyID parentID : string)
  (before after : option snapshot) (err : option goerr) : prog ownerE unit :=
  if rm_hasLog m then call (RecordOp (mkOp "rate_limit_policy" action policyID "" parentID before after err)) else Ret tt.

Definition rateLimitPolicyIDString (id : Z) : string := FormatInt id.
Definition filterPolicyID (f : option RateLimitPolicyFilter) : string :=
  match f with
  | Some f => match lf_ID f with Some id => rateLimitPolicyIDString id | None => "" end
  | None => ""
  end.
(** A nil filter selects every row. *)
Definition filter_or_all (f : option RateLimitPolicyFilter) : RateLimitPolicyFilter := default (mkPolicyFilter None) f.

Definition CreateRateLimitPolicy (m : RateLimitPolicyManager) (p : PolicyParam) (owner : string) : prog ownerE (result Z) :=
  r <- call (CreatePolicyRow p) ;;
  match r with
  | Err e =>
      recordRateLimitPolicyOperation m "create" "" owner None (rateLimitPolicyParamToMap (Some p)) (Some e) ;; Ret (Err e)
  | Ok id =>
      recordRateLimitPolicyOperation m "create" (rateLimitPolicyIDString id) owner None
        (rateLimitPolicyParamToMap (Some p)) None ;;
      Ret (Ok id)
  end.

Definition FetchRateLimitPolicy (f : RateLimitPolicyFilter) : prog ownerE (result (option PolicyParam)) := call (FetchPolicyRow f).
Definition FetchRateLimitPolicyList (f : RateLimitPolicyFilter) : prog ownerE (result (list PolicyParam)) := call (FetchPolicyRows f).

Definition UpdateRateLimitPolicy (m : RateLimitPolicyManager) (f : option RateLimitPolicyFilter) (p : PolicyParam) (owner : string)
  : prog ownerE (result Z) :=
  let resourceID := filterPolicyID f in
  old <- call (FetchPolicyRow (filter_or_all f)) ;;
  match old with
  | Err e =>
      recordRateLimitPolicyOperation m "update" resourceID owner None (rateLimitPolicyParamToMap (Some p)) (Some e) ;;
      Ret (Err e)
  | Ok old =>
      r <- call (UpdatePolicyRow (filter_or_all f) p) ;;
      recordRateLimitPolicyOperation m "update" resourceID owner (rateLimitPolicyParamToMap old)
        (rateLimitPolicyParamToMap (Some p)) (match r with Err e => Some e | Ok _ => None end) ;;
      Ret r
  end.

Definition DeleteRateLimitPolicy (m : RateLimitPolicyManager) (f : option RateLimitPolicyFilter) (owner : string)
  : prog ownerE (result unit) :=
  let resourceID := filterPolicyID f in
  old <- call (FetchPolicyRow (filter_or_all f)) ;;
  match old with
  | Err e => recordRateLimitPolicyOperation m "delete" resourceID owner None None (Some e) ;; Ret (Err e)
  | Ok old =>
      r <- call (DeletePolicyRow (filter_or_all f)) ;;
      recordRateLimitPolicyOperation m "delete" resourceID owner (rateLimitPolicyParamToMap old) None
        (match r with Err e => Some e | Ok _ => None end) ;;
      Ret r
  end.

(** * Writes made in the transaction of the owner *)

(** The rules as the storage takes them: [TPMConfig], [RPMConfig] and
    [BatchLimits] of both packages have the same fields. *)
Definition policy_of_shared (p : RateLimitPolicyParam) : PolicyParam :=
  match rlp_Rules p with
  | Some r => mkPolicy None (rlp_Enabled p) (MaxConcurrency r) (TpmConfigs r) (RpmConfigs r) (rl_BatchLimits r)
  | None => mkPolicy None (rlp_Enabled p) None [] [] None
  end.
Definition rateLimitPolicyParamFromShared (p : option RateLimitPolicyParam) : option PolicyParam := policy_of_shared <$> p.

Definition policy_to_shared (p : PolicyParam) : RateLimitPolicyParam :=
  mkRateLimitPolicy (pp_Enabled p)
    (Some (mkRateLimitRules (pp_TpmConfigs p) (pp_RpmConfigs p) (pp_MaxConcurrency p) (pp_BatchLimits p))).

Definition policyAdapterCreate (p : RateLimitPolicyParam) : prog ownerE (result Z) := call (CreatePolicyRow (policy_of_shared p)).
Definition policyAdapterUpdate (id : Z) (p : RateLimitPolicyParam) : prog ownerE (result Z) :=
  call (UpdatePolicyRow (byPolicyID id) (policy_of_shared p)).
Definition policyAdapterDelete (id : Z) : prog ownerE (result unit) := call (DeletePolicyRow (byPolicyID id)).
Definition policyAdapterFetch (id : Z) : prog ownerE (result (option RateLimitPolicyParam)) :=
  r <-? call (FetchPolicyRow (byPolicyID id)) ;; Ret (Ok (option_map policy_to_shared r)).

Definition policy_audit_id (policyID : Z) : string := if (0 <? policyID)%Z then rateLimitPolicyIDString policyID else "".
Definition AuditRateLimitPolicyCreate (m : RateLimitPolicyManager) (p : option RateLimitPolicyParam) (policyID : Z)
  (owner : string) (err : option goerr) : prog ownerE unit :=
  recordRateLimitPolicyOperation m "create" (policy_audit_id policyID) owner None
    (rateLimitPolicyParamToMap (rateLimitPolicyParamFromShared p)) err.
Definition AuditRateLimitPolicyUpdate (m : RateLimitPolicyManager) (old p : option RateLimitPolicyParam) (policyID : Z)
  (owner : string) (err : option goerr) : prog ownerE unit :=
  recordRateLimitPolicyOperation m "update" (policy_audit_id policyID) owner
    (rateLimitPolicyParamToMap (rateLimitPolicyParamFromShared old))
    (rateLimitPolicyParamToMap (rateLimitPolicyParamFromShared p)) err.
Definition AuditRateLimitPolicyDelete (m : RateLimitPolicyManager) (old : option RateLimitPolicyParam) (policyID : Z)
  (owner : string) (err : option goerr) : prog ownerE unit :=
  recordRateLimitPolicyOperation m "delete" (policy_audit_id policyID) owner
    (rateLimitPolicyParamToMap (rateLimitPolicyParamFromShared old)) None err.

(** * Export *)

Record ExportBatchLimits : Type := mkExportBatch {
  xb_MaxCreateRPM : Z; xb_MaxActiveBatches : Z; xb_MaxFileBytes : Z; xb_MaxFileLines : Z; xb_RedisKey : string
}.
Record ExportTPMConfig : Type := mkExportTPM {
  xt_Name : string; xt_Models : list string; xt_WindowMinutes : Z; xt_MaxTokens : Z; xt_StepMinutes : Z; xt_RedisKey : string
}.
Record ExportRPMConfig : Type := mkExportRPM {
  xr_Name : string; xr_Models : list string; xr_WindowMinutes : Z; xr_MaxRequests : Z; xr_Burst : Z; xr_RedisKey : string
}.
Record ExportRateLimitRules : Type := mkExportRules {
  xl_TPM : list ExportTPMConfig; xl_RPM : list ExportRPMConfig; xl_MaxConcurrency : Z; xl_Batch : option ExportBatchLimits
}.
Record ExportRateLimitPolicy : Type := mkExportPolicy { xp_Name : string; xp_Enabled : bool; xp_Rules : ExportRateLimitRules }.
Record ExportHitAction : Type := mkHitAction { ha_Cmd : string; ha_Params : list string }.
Record ExportRouteRule : Type := mkExportRoute { xo_Cond : string; xo_HitAction : ExportHitAction }.
Record ExportRateLimitPolicyConfig : Type := mkExportConfig {
  xc_Config : gmap string (list ExportRouteRule);
  xc_RateLimitPolicies : gmap string ExportRateLimitPolicy;
  xc_Bindings : gmap string (list string)
}.

Definition exportBatchLimits (policyID : Z) (src : option BatchLimits) : option ExportBatchLimits :=
  match src with
  | None => None
  | Some b => Some (mkExportBatch (MaxCreateRPM b) (MaxActiveBatches b) (MaxFileBytes b) (MaxFileLines b)
                      (if (0 <? MaxCreateRPM b)%Z then BuildBatchRateLimitRedisKey policyID else ""))
  end.

Definition policy_name (policyID : Z) : string := "rlp-" +:+ FormatInt policyID.
Definition models_of (model : string) : list string :=
  if bool_decide (model = "") || bool_decide (model = "*") then ["*"] else [model].

Definition export_tpm (policyID : Z) (t : TPMConfig) : ExportTPMConfig :=
  mkExportTPM (tpm_Name t) (models_of (tpm_Model t)) (tpm_WindowMinutes t) (tpm_MaxTokens t) (tpm_StepMinutes t)
    (BuildBFERateLimitRedisKey policyID "RL_TPM" (tpm_Name t)).
Definition export_rpm (policyID : Z) (t : RPMConfig) : ExportRPMConfig :=
  mkExportRPM (rpm_Name t) (models_of (rpm_Model t)) (rpm_WindowMinutes t) (rpm_MaxRequests t) 1
    (BuildBFERateLimitRedisKey policyID "RL_RPM" (rpm_Name t)).

Definition export_policy (policyID : Z) (p : PolicyParam) : ExportRateLimitPolicy :=
  mkExportPolicy (policy_name policyID) true
    (mkExportRules (map (export_tpm policyID) (pp_TpmConfigs p)) (map (export_rpm policyID) (pp_RpmConfigs p))
       (default 0%Z (pp_MaxConcurrency p)) (exportBatchLimits policyID (pp_BatchLimits p))).

(** The policies of an entity and of its ancestors; [None] when the chain of
    parents is longer than [fuel].  The code has no such bound. *)
Fixpoint fetchEntityRateLimitPolicyIDs (fuel : nat) (m : RateLimitPolicyManager) (ent : EntityParam)
  : prog ownerE (option (result (list Z))) :=
  match fuel with
  | O => Ret None
  | S fuel =>
      let own := match ep_RateLimitPolicyID ent with Some i => [i] | None => [] end in
      match ep_ParentID ent with
      | Some parent =>
          if bool_decide (parent = "") || negb (rm_hasEntities m) then Ret (Some (Ok own)) else
          r <- call (FetchEntityRow (byEntityID (Some parent))) ;;
          match r with
          | Err e => Ret (Some (Err e))
          | Ok None => Ret (Some (Ok own))
          | Ok (Some parentEntity) =>
              rest <- fetchEntityRateLimitPolicyIDs fuel m parentEntity ;;
              match rest with
              | None => Ret None
              | Some (Err e) => Ret (Some (Err e))
              | Some (Ok l) => Ret (Some (Ok (own ++ l)%list))
              end
          end
      | None => Ret (Some (Ok own))
      end
  end.

Definition fetchRateLimitPolicyIDsWithEntityHierarchy (fuel : nat) (m : RateLimitPolicyManager) (apiKey : APIKeyParam)
  : prog ownerE (option (result (list Z))) :=
  let own := match ak_RateLimitPolicyID apiKey with Some i => [i] | None => [] end in
  match ak_EntityID apiKey with
  | Some e =>
      if bool_decide (e = "") || negb (rm_hasEntities m) then Ret (Some (Ok own)) else
      r <- call (FetchEntityRow (byEntityID (Some e))) ;;
      match r with
      | Err e => Ret (Some (Err e))
      | Ok None => Ret (Some (Ok own))
      | Ok (Some ent) =>
          rest <- fetchEntityRateLimitPolicyIDs fuel m ent ;;
          match rest with
          | None => Ret None
          | Some (Err e) => Ret (Some (Err e))
          | Some (Ok l) => Ret (Some (Ok (own ++ l)%list))
          end
      end
  | None => Ret (Some (Ok own))
  end.

Definition policy_map (l : list PolicyParam) : gmap Z PolicyParam :=
  fold_left (fun m p => match pp_ID p with Some i => <[i := p]> m | None => m end) l ∅.

(** One policy of one key: exported once, bound in the order of the chain. *)
Definition bind_policy (policies : gmap Z PolicyParam) (key : string) (policyID : Z) (c : ExportRateLimitPolicyConfig)
  : ExportRateLimitPolicyConfig :=
  match policies !! policyID with
  | None => c
  | Some p =>
      if negb (default false (pp_Enabled p)) then c else
      mkExportConfig (xc_Config c)
        (match xc_RateLimitPolicies c !! policy_name policyID with
         | Some _ => xc_RateLimitPolicies c
         | None => <[policy_name policyID := export_policy policyID p]> (xc_RateLimitPolicies c)
         end)
        (<[key := (default [] (xc_Bindings c !! key) ++ [policy_name policyID])%list]> (xc_Bindings c))
  end.
Definition bind_policies (policies : gmap Z PolicyParam) (key : string) (ids : list Z) (c : ExportRateLimitPolicyConfig)
  : ExportRateLimitPolicyConfig := fold_left (fun c i => bind_policy policies key i c) ids c.

Fixpoint bind_keys (fuel : nat) (m : RateLimitPolicyManager) (policies : gmap Z PolicyParam) (keys : list APIKeyParam)
  (c : ExportRateLimitPolicyConfig) : prog ownerE (option (result ExportRateLimitPolicyConfig)) :=
  match keys with
  | [] => Ret (Some (Ok c))
  | apiKey :: keys' =>
      match ak_Key apiKey with
      | None => bind_keys fuel m policies keys' c
      | Some key =>
          ids <- fetchRateLimitPolicyIDsWithEntityHierarchy fuel m apiKey ;;
          match ids with
          | None => Ret None
          | Some (Err _) => Ret (Some (Err (PlainError "fetch rate limit policy ids error: %s")))
          | Some (Ok ids) => bind_keys fuel m policies keys' (bind_policies policies key ids c)
          end
      end
  end.

Definition default_config : gmap string (list ExportRouteRule) :=
  {["AI_product" := [mkExportRoute "default_t()" (mkHitAction "FINISH" [])]]}.

Definition RateLimitPolicyGenerator (fuel : nat) (m : RateLimitPolicyManager)
  : prog ownerE (option (result ExportRateLimitPolicyConfig)) :=
  keys <- call (FetchKeyRows anyKey) ;;
  match keys with
  | Err _ => Ret (Some (Err (PlainError "fetch api keys error: %s")))
  | Ok keys =>
      policies <- call (FetchPolicyRows (mkPolicyFilter None)) ;;
      match policies with
      | Err _ => Ret (Some (Err (PlainError "fetch rate limit policies error: %s")))
      | Ok policies => bind_keys fuel m (policy_map policies) keys (mkExportConfig default_config ∅ ∅)
      end
  end.

(** What the managers of entities and of API keys do in the same words: the
    rows that an owner brings with it, changes and takes with it, and the
    balance of its plan ([model/entity/entity_manager.go],
    [model/api_key/api_key.go]). *)

(** [unlimitedSentinel] is the [unlimited_sentinel] of the quota component. *)
Definition fillQuotaBalance (plan : option SharedPlan) (balance : option BalanceSummary) (remaining : spec_float)
  : option BalanceSummary :=
  match plan with
  | Some p =>
      match sh_Quota p with
      | Some quota =>
          let remaining := at_least_zero remaining in
          Some (mkBalance (at_least_zero (float_sub quota remaining)) remaining)
      | None => balance
      end
  | None => balance
  end.
Definition fillUnlimitedQuotaBalance (plan : option SharedPlan) (balance : option BalanceSummary) : option BalanceSummary :=
  match plan with Some _ => Some (mkBalance f_zero unlimited_sentinel) | None => balance end.

Definition is_unlimited (p : SharedPlan) : bool := default false (sh_Unlimited p).

(** The rows that a new owner brings with it; [None] where it brings none. *)
Definition create_plan (storager : bool) (p : option SharedPlan) : prog ownerE (result (option Z)) :=
  match p with
  | Some p => if storager then id <-? via (adapterCreate p) ;; Ret (Ok (Some id)) else Ret (Ok None)
  | None => Ret (Ok None)
  end.
Definition create_policy (storager : bool) (p : option RateLimitPolicyParam) : prog ownerE (result (option Z)) :=
  match p with
  | Some p => if storager then id <-? policyAdapterCreate p ;; Ret (Ok (Some id)) else Ret (Ok None)
  | None => Ret (Ok None)
  end.
Definition create_route (storager : bool) (type : string) (owner : option string) (p : option RouteRulesParam)
  : prog ownerE (result (option Z)) :=
  match p with
  | Some p => if storager then id <-? call (CreateRouteRow type owner p) ;; Ret (Ok (Some id)) else Ret (Ok None)
  | None => Ret (Ok None)
  end.

(** An owner that has the row already updates it, and only then; the answer is
    the identifier of a row that was created. *)
Definition change_plan (storager : bool) (have : option Z) (p : option SharedPlan) : prog ownerE (result (option Z)) :=
  match have, p with
  | Some id, Some p => if storager then _ <-? via (adapterUpdate id p) ;; Ret (Ok None) else Ret (Ok None)
  | _, _ => create_plan storager p
  end.
Definition change_route (storager : bool) (have : option Z) (type : string) (owner : option string) (p : option RouteRulesParam)
  : prog ownerE (result (option Z)) :=
  match have, p with
  | Some id, Some p => if storager then _ <-? call (UpdateRouteRow id p) ;; Ret (Ok None) else Ret (Ok None)
  | _, _ => create_route storager type owner p
  end.

(** The old policy is known even when its update fails; with it come the
    counters that the update makes obsolete. *)
Definition change_policy (storager : bool) (have : option Z) (p : option RateLimitPolicyParam)
  : prog ownerE (result (option Z * list string) * option RateLimitPolicyParam) :=
  match have, p with
  | Some id, Some p =>
      if negb storager then Ret (Ok (None, []), None) else
      o <- policyAdapterFetch id ;;
      match o with
      | Err e => Ret (Err e, None)
      | Ok old =>
          u <- policyAdapterUpdate id p ;;
          match u with
          | Err e => Ret (Err e, old)
          | Ok _ =>
              Ret (Ok (None, match old with
                             | Some o => match rlp_Rules o with
                                         | Some rules => DiffRateLimitRedisKeys id (Some rules) (rlp_Rules p)
                                         | None => []
                                         end
                             | None => []
                             end), old)
          end
      end
  | _, _ =>
      c <- create_policy storager p ;;
      match c with Err e => Ret (Err e, None) | Ok id => Ret (Ok (id, []), None) end
  end.

(** The plan as it was, for the audit entry; an error is ignored. *)
Definition soft_plan (storager : bool) (id : option Z) : prog ownerE (option SharedPlan) :=
  match id with
  | Some id =>
      if storager then
        r <- via (adapterFetch id) ;; match r with Ok p => Ret p | Err _ => Ret None end
      else Ret None
  | None => Ret None
  end.
(** The policy of an owner that is deleted and its counters. *)
Definition old_policy (storager : bool) (id : option Z)
  : prog ownerE (result (option RateLimitPolicyParam * list string)) :=
  match id with
  | Some id =>
      if storager then
        p <-? policyAdapterFetch id ;;
        Ret (Ok (p, match p with
                    | Some p' => match rlp_Rules p' with
                                 | Some rules => BuildRateLimitRedisKeys id (Some rules)
                                 | None => []
                                 end
                    | None => []
                    end))
      else Ret (Ok (None, []))
  | None => Ret (Ok (None, []))
  end.

(** DELETE of the rows that the owner refers to. *)
Definition delete_owned (plans policies routes : bool) (plan policy route : option Z) : prog ownerE (option goerr) :=
  let del (b : bool) (id : option Z) (f : Z -> prog ownerE (result unit)) :=
    match id with Some i => if b then f i else Ret (Ok tt) | None => Ret (Ok tt) end in
  r1 <- del plans plan (fun i => via (adapterDelete i)) ;;
  match r1 with
  | Err e => Ret (Some e)
  | Ok _ =>
      r2 <- del policies policy policyAdapterDelete ;;
      match r2 with
      | Err e => Ret (Some e)
      | Ok _ =>
          r3 <- del routes route (fun i => call (DeleteRouteRow i)) ;;
          match r3 with Err e => Ret (Some e) | Ok _ => Ret None end
      end
  end.

(** [cache]: [None] without a quota cache, else whether it has a client. *)
Definition cleanupRedisKeys (cache : option bool) (quotaKey : string) (rateLimitKeys : list string) : prog ownerE unit :=
  match cache with
  | None => Ret tt
  | Some client =>
      let keysToDelete :=
        ((if bool_decide (quotaKey = "") then [] else [AIUsedQuotaKey quotaKey]) ++ rateLimitKeys)%list in
      match keysToDelete with
      | [] => Ret tt
      | _ => via (DeleteKeys client keysToDelete) ;; Ret tt
      end
  end.
