(* ===== verification/EntityManager.v ===== *)
(** The managers of entities and entity types ([model/entity]). *)
From Stdlib Require Import ZArith Lia SpecFloat.
From stdpp Require Import base tactics numbers list strings gmap option.
From S2P Require Import Prelude GoStrings GoTime Prog QuotaModel QuotaManager XCrypto SharedTypes OwnerModel OwnerCommon.

Local Open Scope string_scope.

Record EntityManager : Type := mkEM {
  em_hasTypes : bool; em_hasPlans : bool; em_hasPolicies : bool; em_hasRoutes : bool;
  em_cache : option bool;
  em_hasLog : bool;
  em_planAuditor : option QuotaPlanManager;
  em_policyAuditor : option RateLimitPolicyManager
}.

(** * Operation log ([operation_log.go]) *)

Definition entityParamToMap (p : option EntityParam) : option snapshot :=
  match p with
  | None => None
  | Some p => Some (SMap
      (put_oval "block_models" VStrs (if_any (ep_BlockModels p)) (put_oval "allow_models" VStrs (if_any (ep_AllowModels p))
      (put_oval "entity_id" VStr (ep_EntityID p) (put_oval "parent_id" VStr (ep_ParentID p) (put_oval "type" VStr (ep_Type p)
      (put_oval "description" VStr (ep_Description p) (put_oval "name" VStr (ep_Name p) ∅))))))))
  end.
Definition entityTypeParamToMap (p : option EntityTypeParam) : option snapshot :=
  match p with
  | None => None
  | Some p => Some (SMap
      (put_oval "level" VInt (ty_Level p) (put_oval "description" VStr (ty_Description p)
      (put_oval "type_name" VStr (ty_TypeName p) ∅))))
  end.

Definition recordEntityOperation (m : EntityManager) (action : string) (ids : string * string * string)
  (before after : option snapshot) (err : option goerr) : prog ownerE unit :=
  let '(entityID, entityName, parentID) := ids in
  if em_hasLog m then call (RecordOp (mkOp "entity" action entityID entityName parentID before after err)) else Ret tt.

Definition recordEntityTypeOperation (hasLog : bool) (action : string) (param : option EntityTypeParam)
  (before after : option snapshot) (err : option goerr) : prog ownerE unit :=
  match param with
  | Some p =>
      if hasLog then
        let resourceID := default "" (ty_TypeName p) in
        let resourceName := match ty_Description p with
                            | Some d => if bool_decide (d = "") then resourceID else d
                            | None => resourceID
                            end in
        call (RecordOp (mkOp "entity_type" action resourceID resourceName "" before after err))
      else Ret tt
  | None => Ret tt
  end.

Definition entityParamIdentifiers (p : option EntityParam) : string * string * string :=
  match p with
  | Some p => (default "" (ep_EntityID p), default "" (ep_Name p), default "" (ep_ParentID p))
  | None => ("", "", "")
  end.

Definition or_empty (s t : string) : string := if bool_decide (s = "") then t else s.
Definition resolveEntityIdentifiers (filter : option EntityFilter) (param old : option EntityParam) : string * string * string :=
  let '(pID, pName, pParent) := entityParamIdentifiers param in
  match old with
  | Some _ => let '(i, n, parent) := entityParamIdentifiers old in (i, n, or_empty parent pParent)
  | None =>
      let entityID := match filter with Some f => default "" (ef_EntityID f) | None => "" end in
      (or_empty entityID pID, pName, pParent)
  end.

(** ** Entries of the plan and the policy that the entity owns *)

Definition audit_plan (m : EntityManager) (f : QuotaPlanManager -> prog quotaE unit) : prog ownerE unit :=
  match em_planAuditor m with Some a => via (f a) | None => Ret tt end.
Definition audit_policy (m : EntityManager) (f : RateLimitPolicyManager -> prog ownerE unit) : prog ownerE unit :=
  match em_policyAuditor m with Some a => f a | None => Ret tt end.

Definition auditNestedQuotaPlanCreate (m : EntityManager) (p : EntityParam) (planID : Z) (err : option goerr) : prog ownerE unit :=
  match ep_QuotaPlan p with
  | Some plan => audit_plan m (fun a => AuditQuotaPlanCreate a (Some plan) planID (default "" (ep_EntityID p)) err)
  | None => Ret tt
  end.
Definition owner_of (old : option EntityParam) : string := match old with Some o => default "" (ep_EntityID o) | None => "" end.
Definition auditNestedQuotaPlanChange (m : EntityManager) (old : option EntityParam) (p : EntityParam) (createdPlanID : Z)
  (oldPlan : option SharedPlan) (err : option goerr) : prog ownerE unit :=
  match ep_QuotaPlan p with
  | Some plan =>
      match old ≫= ep_QuotaPlanID with
      | Some id => audit_plan m (fun a => AuditQuotaPlanUpdate a oldPlan (Some plan) id (owner_of old) err)
      | None => audit_plan m (fun a => AuditQuotaPlanCreate a (Some plan) createdPlanID (owner_of old) err)
      end
  | None => Ret tt
  end.
Definition auditNestedQuotaPlanDelete (m : EntityManager) (old : option EntityParam) (oldPlan : option SharedPlan)
  (err : option goerr) : prog ownerE unit :=
  match old ≫= ep_QuotaPlanID with
  | Some id => audit_plan m (fun a => AuditQuotaPlanDelete a oldPlan id (owner_of old) err)
  | None => Ret tt
  end.

Definition auditNestedRateLimitPolicyCreate (m : EntityManager) (p : EntityParam) (policyID : Z) (err : option goerr)
  : prog ownerE unit :=
  match ep_RateLimitPolicy p with
  | Some policy => audit_policy m (fun a => AuditRateLimitPolicyCreate a (Some policy) policyID (default "" (ep_EntityID p)) err)
  | None => Ret tt
  end.
Definition auditNestedRateLimitPolicyChange (m : EntityManager) (old : option EntityParam) (p : EntityParam) (createdID : Z)
  (oldPolicy : option RateLimitPolicyParam) (err : option goerr) : prog ownerE unit :=
  match ep_RateLimitPolicy p with
  | Some policy =>
      match old ≫= ep_RateLimitPolicyID with
      | Some id => audit_policy m (fun a => AuditRateLimitPolicyUpdate a oldPolicy (Some policy) id (owner_of old) err)
      | None => audit_policy m (fun a => AuditRateLimitPolicyCreate a (Some policy) createdID (owner_of old) err)
      end
  | None => Ret tt
  end.
Definition auditNestedRateLimitPolicyDelete (m : EntityManager) (old : option EntityParam)
  (oldPolicy : option RateLimitPolicyParam) (err : option goerr) : prog ownerE unit :=
  match old ≫= ep_RateLimitPolicyID with
  | Some id => audit_policy m (fun a => AuditRateLimitPolicyDelete a oldPolicy id (owner_of old) err)
  | None => Ret tt
  end.

(** * Levels *)

Definition checkEntityLevel (m : EntityManager) (entityType parentID : string) : prog ownerE (option goerr) :=
  if negb (em_hasTypes m) then Ret None else
  t <- call (FetchEntityTypeRow (byTypeName (Some entityType))) ;;
  match t with
  | Err e => Ret (Some e)
  | Ok None => Ret (Some (ParamError ("entity type not found: " +:+ entityType)))
  | Ok (Some t) =>
      match ty_Level t with
      | None => Ret (Some (ParamError ("entity type level not set: " +:+ entityType)))
      | Some level =>
          p <- call (FetchEntityRow (byEntityID (Some parentID))) ;;
          match p with
          | Err e => Ret (Some e)
          | Ok None => Ret (Some (ParamError ("parent entity not found: " +:+ parentID)))
          | Ok (Some parent) =>
              match ep_Type parent with
              | None => Ret (Some (ParamError ("parent entity type not set: " +:+ parentID)))
              | Some ptype =>
                  pt <- call (FetchEntityTypeRow (byTypeName (Some ptype))) ;;
                  match pt with
                  | Err e => Ret (Some e)
                  | Ok None => Ret (Some (ParamError ("parent entity type not found: " +:+ ptype)))
                  | Ok (Some pt) =>
                      match ty_Level pt with
                      | None => Ret (Some (ParamError ("parent entity type level not set: " +:+ ptype)))
                      | Some plevel =>
                          if (level <=? plevel)%Z
                          then Ret (Some (ParamError "entity type level (%d) must be higher than parent entity type level (%d)"))
                          else Ret None
                      end
                  end
              end
          end
      end
  end.

(** * Entities ([entity_manager.go]) *)

Definition given_text (s : option string) : option string :=
  match s with Some x => if bool_decide (x = "") then None else Some x | None => None end.

(** The identifiers that the transaction writes into the parameters. *)
Definition with_refs (plan policy route : option Z) (p : EntityParam) : EntityParam :=
  mkEntity (ep_InnerID p) (ep_EntityID p) (ep_Name p) (ep_Description p) (ep_Type p) (ep_ParentID p) (ep_AllowModels p)
    (ep_BlockModels p) (or_null plan (ep_QuotaPlanID p)) (or_null policy (ep_RateLimitPolicyID p))
    (or_null route (ep_RouteRulesID p)) (ep_CreateTime p) (ep_UpdateTime p) (ep_QuotaPlan p) (ep_Balance p)
    (ep_RateLimitPolicy p) (ep_RouteRules p).
Definition with_populated (plan : option SharedPlan) (policy : option RateLimitPolicyParam) (route : option RouteRulesParam)
  (p : EntityParam) : EntityParam :=
  mkEntity (ep_InnerID p) (ep_EntityID p) (ep_Name p) (ep_Description p) (ep_Type p) (ep_ParentID p) (ep_AllowModels p)
    (ep_BlockModels p) (ep_QuotaPlanID p) (ep_RateLimitPolicyID p) (ep_RouteRulesID p) (ep_CreateTime p) (ep_UpdateTime p)
    plan (ep_Balance p) policy route.
Definition with_balance (b : option BalanceSummary) (p : EntityParam) : EntityParam :=
  mkEntity (ep_InnerID p) (ep_EntityID p) (ep_Name p) (ep_Description p) (ep_Type p) (ep_ParentID p) (ep_AllowModels p)
    (ep_BlockModels p) (ep_QuotaPlanID p) (ep_RateLimitPolicyID p) (ep_RouteRulesID p) (ep_CreateTime p) (ep_UpdateTime p)
    (ep_QuotaPlan p) b (ep_RateLimitPolicy p) (ep_RouteRules p).

Section Entities.
Context (PtrToRedisValue : spec_float -> option string -> Z).
Context (PtrFromRedisValue : Z -> option string -> spec_float).

(** ** Create *)

Record create_vars : Type := mkCreated { cv_id : Z; cv_plan : Z; cv_policy : Z }.
Definition noCreated : create_vars := mkCreated 0 0 0.

(** After an error nothing of the variables is used. *)
Definition create_entity_body (m : EntityManager) (param : EntityParam) : prog ownerE (option goerr * create_vars) :=
  plan <- create_plan (em_hasPlans m) (ep_QuotaPlan param) ;;
  match plan with
  | Err e => Ret (Some e, noCreated)
  | Ok plan =>
      policy <- create_policy (em_hasPolicies m) (ep_RateLimitPolicy param) ;;
      match policy with
      | Err e => Ret (Some e, noCreated)
      | Ok policy =>
          route <- create_route (em_hasRoutes m) RouteRulesTypeEntity (ep_EntityID param) (ep_RouteRules param) ;;
          match route with
          | Err e => Ret (Some e, noCreated)
          | Ok route =>
              id <- call (CreateEntityRow (with_refs plan policy route param)) ;;
              match id with
              | Err e => Ret (Some e, noCreated)
              | Ok id => Ret (None, mkCreated id (default 0%Z plan) (default 0%Z policy))
              end
          end
      end
  end.

(** The checks before the transaction, in their order. *)
Definition check_new_entity (m : EntityManager) (param : EntityParam) : prog ownerE (option goerr) :=
  let check_name (k : prog ownerE (option goerr)) :=
    match given_text (ep_Name param) with
    | Some name =>
        r <- call (FetchEntityRow (byEntityName (Some name))) ;;
        match r with
        | Err e => Ret (Some e)
        | Ok (Some _) => Ret (Some (RecordExisted "Entity"))
        | Ok None => k
        end
    | None => k
    end in
  let check_level :=
    match given_text (ep_ParentID param), ep_Type param with
    | Some parent, Some type => if em_hasTypes m then checkEntityLevel m type parent else Ret None
    | _, _ => Ret None
    end in
  match ep_Type param with
  | Some type =>
      if em_hasTypes m then
        t <- call (FetchEntityTypeRow (byTypeName (Some type))) ;;
        match t with
        | Err e => Ret (Some e)
        | Ok None => Ret (Some (ParamError ("entity type not found: " +:+ type)))
        | Ok (Some _) => check_name check_level
        end
      else check_name check_level
  | None => check_name check_level
  end.

(** The counter of the new plan; errors are only logged. *)
Definition init_entity_counter (m : EntityManager) (param : EntityParam) : prog ownerE unit :=
  match ep_EntityID param, ep_QuotaPlan param, em_cache m with
  | Some eid, Some plan, Some client =>
      if is_unlimited plan
      then via (SetRemaining PtrToRedisValue client eid (Some unlimited_sentinel) (sh_Unit plan)) ;; Ret tt
      else match sh_Quota plan with
           | Some q => via (SetRemaining PtrToRedisValue client eid (Some q) (sh_Unit plan)) ;; Ret tt
           | None => Ret tt
           end
  | _, _, _ => Ret tt
  end.

Definition CreateEntity (m : EntityManager) (param : EntityParam) : prog ownerE (result Z) :=
  let record err := recordEntityOperation m "create" (entityParamIdentifiers (Some param)) None (entityParamToMap (Some param)) err in
  c <- check_new_entity m param ;;
  match c with
  | Some e => record (Some e) ;; Ret (Err e)
  | None =>
      t <- AtomExecute noCreated (create_entity_body m param) ;;
      match t with
      | (Some e, _) =>
          record (Some e) ;;
          auditNestedQuotaPlanCreate m param 0 (Some e) ;;
          auditNestedRateLimitPolicyCreate m param 0 (Some e) ;;
          Ret (Err e)
      | (None, v) =>
          init_entity_counter m param ;;
          record None ;;
          auditNestedQuotaPlanCreate m param (cv_plan v) None ;;
          auditNestedRateLimitPolicyCreate m param (cv_policy v) None ;;
          Ret (Ok (cv_id v))
      end
  end.

(** ** Read *)

Definition noSharedPlan : SharedPlan := mkSharedPlan None None None None None None.
Definition noSharedPolicy : RateLimitPolicyParam := mkRateLimitPolicy None None.

Definition populateAssociatedData (m : EntityManager) (one : EntityParam) : prog ownerE (result EntityParam) :=
  plan <-? match ep_QuotaPlanID one with
           | Some id => if em_hasPlans m then via (adapterFetch id)
                        else Ret (Ok (Some (default noSharedPlan (ep_QuotaPlan one))))
           | None => Ret (Ok (Some (default noSharedPlan (ep_QuotaPlan one))))
           end ;;
  policy <-? match ep_RateLimitPolicyID one with
             | Some id => if em_hasPolicies m then policyAdapterFetch id
                          else Ret (Ok (Some (default noSharedPolicy (ep_RateLimitPolicy one))))
             | None => Ret (Ok (Some (default noSharedPolicy (ep_RateLimitPolicy one))))
             end ;;
  let route := default (mkRouteRules None None []) (ep_RouteRules one) in
  let route := mkRouteRules (rrs_ID route) (Some (default false (rrs_Enabled route))) (rrs_Rules route) in
  route <-? match ep_RouteRulesID one with
            | Some id => if em_hasRoutes m then
                           r <-? call (FetchRouteRow id) ;; Ret (Ok (default route r))
                         else Ret (Ok route)
            | None => Ret (Ok route)
            end ;;
  Ret (Ok (with_populated plan policy (Some route) one)).

(** What [GetRemaining] is asked for: an entity with an id and a limited plan. *)
Definition limited_plan (one : EntityParam) : option (string * SharedPlan) :=
  match ep_QuotaPlan one, ep_EntityID one with
  | Some plan, Some id => match sh_Quota plan with Some _ => Some (id, plan) | None => None end
  | _, _ => None
  end.

(** An error leaves the balance as it is and is only logged. *)
Definition populateQuotaBalance (m : EntityManager) (one : EntityParam) : prog ownerE EntityParam :=
  match em_cache m, limited_plan one with
  | Some client, Some (id, plan) =>
      if is_unlimited plan then Ret (with_balance (fillUnlimitedQuotaBalance (Some plan) (ep_Balance one)) one) else
      r <- via (GetRemaining PtrFromRedisValue client id (sh_Unit plan)) ;;
      match r with
      | Err _ => Ret one
      | Ok remaining => Ret (with_balance (fillQuotaBalance (Some plan) (ep_Balance one) remaining) one)
      end
  | _, _ => Ret one
  end.

Definition FetchEntity (m : EntityManager) (filter : EntityFilter) : prog ownerE (result (option EntityParam)) :=
  t <- AtomExecute None
    (r <- call (FetchEntityRow filter) ;;
     match r with
     | Err e => Ret (Some e, None)
     | Ok None => Ret (None, None)
     | Ok (Some one) =>
         p <- populateAssociatedData m one ;;
         match p with Err e => Ret (Some e, None) | Ok one => Ret (None, Some one) end
     end) ;;
  match t with
  | (Some e, _) => Ret (Err e)
  | (None, None) => Ret (Ok None)
  | (None, Some one) => one <- populateQuotaBalance m one ;; Ret (Ok (Some one))
  end.

Fixpoint populate_all (m : EntityManager) (l : list EntityParam) : prog ownerE (result (list EntityParam)) :=
  match l with
  | [] => Ret (Ok [])
  | one :: l' => one <-? populateAssociatedData m one ;; rest <-? populate_all m l' ;; Ret (Ok (one :: rest))
  end.

(** The lists of one unit are read in one command; the order of the units is
    that of a Go map.  The first error ends the loop and is only logged. *)
Definition group_unit (one : EntityParam) : option string :=
  match limited_plan one with
  | Some (_, plan) => if is_unlimited plan then None else Some (default "" (sh_Unit plan))
  | None => None
  end.
Definition in_group (u : string) (one : EntityParam) : bool := bool_decide (group_unit one = Some u).

Definition fill_group (u : string) (remaining : gmap string spec_float) (one : EntityParam) : EntityParam :=
  match limited_plan one with
  | Some (id, plan) =>
      if in_group u one
      then with_balance (fillQuotaBalance (Some plan) (ep_Balance one) (default f_zero (remaining !! id))) one else one
  | None => one
  end.

Fixpoint fill_groups (client : bool) (units : list string) (l : list EntityParam) : prog ownerE (list EntityParam) :=
  match units with
  | [] => Ret l
  | u :: units' =>
      let keys := omap (fun one => fst <$> limited_plan one) (List.filter (in_group u) l) in
      r <- via (BatchGetRemaining PtrFromRedisValue client keys (if bool_decide (u = "") then None else Some u)) ;;
      match r with
      | Err _ => Ret l
      | Ok remaining => fill_groups client units' (map (fill_group u remaining) l)
      end
  end.

Definition fill_unlimited (one : EntityParam) : EntityParam :=
  match limited_plan one with
  | Some (_, plan) =>
      if is_unlimited plan then with_balance (fillUnlimitedQuotaBalance (Some plan) (ep_Balance one)) one else one
  | None => one
  end.

Definition populateQuotaBalances (order : list string -> list string) (m : EntityManager) (l : list EntityParam)
  : prog ownerE (list EntityParam) :=
  match em_cache m with
  | None => Ret l
  | Some client => fill_groups client (order (remove_dups (omap group_unit l))) (map fill_unlimited l)
  end.

Definition FetchEntityList (order : list string -> list string) (m : EntityManager) (filter : EntityFilter)
  : prog ownerE (result (list EntityParam)) :=
  t <- AtomExecute []
    (r <- call (FetchEntityRows filter) ;;
     match r with
     | Err e => Ret (Some e, [])
     | Ok l =>
         p <- populate_all m l ;;
         match p with Err e => Ret (Some e, []) | Ok l => Ret (None, l) end
     end) ;;
  match t with
  | (Some e, _) => Ret (Err e)
  | (None, l) => l <- populateQuotaBalances order m l ;; Ret (Ok l)
  end.

Definition FetchEntitySummary (m : EntityManager) (entityID : string) : prog ownerE (result (option EntitySummary)) :=
  e <-? FetchEntity m (byEntityID (Some entityID)) ;;
  Ret (Ok (option_map (fun e => mkSummary (ep_EntityID e) (ep_Name e) (ep_Type e)) e)).

(** ** Update *)

Record update_vars : Type := mkUpdated {
  uv_affected : Z; uv_keys : list string; uv_plan : Z; uv_policy : Z;
  uv_oldPolicy : option RateLimitPolicyParam; uv_old : option EntityParam
}.

Definition update_entity_body (m : EntityManager) (filter : EntityFilter) (param : EntityParam) (prefetched : option EntityParam)
  : prog ownerE (option goerr * update_vars) :=
  l <- call (FetchEntityRows filter) ;;
  match l with
  | Err e => Ret (Some e, mkUpdated 0 [] 0 0 None prefetched)
  | Ok [] => Ret (Some (RecordNotExist "Entity"), mkUpdated 0 [] 0 0 None prefetched)
  | Ok (one :: _) =>
      plan <- change_plan (em_hasPlans m) (ep_QuotaPlanID one) (ep_QuotaPlan param) ;;
      match plan with
      | Err e => Ret (Some e, mkUpdated 0 [] 0 0 None (Some one))
      | Ok plan =>
          c <- change_policy (em_hasPolicies m) (ep_RateLimitPolicyID one) (ep_RateLimitPolicy param) ;;
          match c with
          | (Err e, oldPolicy) => Ret (Some e, mkUpdated 0 [] (default 0%Z plan) 0 oldPolicy (Some one))
          | (Ok (policy, keys), oldPolicy) =>
              let vars n := mkUpdated n keys (default 0%Z plan) (default 0%Z policy) oldPolicy (Some one) in
              route <- change_route (em_hasRoutes m) (ep_RouteRulesID one) RouteRulesTypeEntity (ep_EntityID one)
                         (ep_RouteRules param) ;;
              match route with
              | Err e => Ret (Some e, vars 0%Z)
              | Ok route =>
                  u <- call (UpdateEntityRow (byEntityID (ep_EntityID one)) (with_refs plan policy route param)) ;;
                  match u with
                  | Err e => Ret (Some e, vars 0%Z)
                  | Ok n => Ret (None, vars n)
                  end
              end
          end
      end
  end.

(** The checks before the transaction: the type never changes, and a new
    parent stands on a higher level. *)
Definition check_entity_update (m : EntityManager) (param : EntityParam) (existing : result (list EntityParam))
  (oldEntity : option EntityParam) : prog ownerE (option goerr) :=
  let type_changes :=
    match ep_Type param, oldEntity ≫= ep_Type with
    | Some t, Some t' => negb (bool_decide (t = t'))
    | _, _ => false
    end in
  if type_changes then Ret (Some (ParamError "type is immutable, cannot be modified from %s to %s")) else
  match given_text (ep_ParentID param) with
  | Some parent =>
      if negb (em_hasTypes m) then Ret None else
      match ep_Type param with
      | Some type => checkEntityLevel m type parent
      | None =>
          match existing with
          | Err e => Ret (Some e)
          | Ok [] => Ret (Some (RecordNotExist "Entity"))
          | Ok (one :: _) =>
              match ep_Type one with Some type => checkEntityLevel m type parent | None => Ret None end
          end
      end
  | None => Ret None
  end.

Definition UpdateEntity (m : EntityManager) (filter : EntityFilter) (param : EntityParam) : prog ownerE (result Z) :=
  existing <- call (FetchEntityRows filter) ;;
  let oldEntity := match existing with Ok (one :: _) => Some one | _ => None end in
  oldPlan <- match ep_QuotaPlan param with
             | Some _ => soft_plan (em_hasPlans m) (oldEntity ≫= ep_QuotaPlanID)
             | None => Ret None
             end ;;
  c <- check_entity_update m param existing oldEntity ;;
  match c with
  | Some e =>
      recordEntityOperation m "update" (resolveEntityIdentifiers (Some filter) (Some param) oldEntity)
        (entityParamToMap oldEntity) (entityParamToMap (Some param)) (Some e) ;;
      Ret (Err e)
  | None =>
      t <- AtomExecute (mkUpdated 0 [] 0 0 None oldEntity) (update_entity_body m filter param oldEntity) ;;
      match t with
      | (Some e, v) =>
          recordEntityOperation m "update"
            (entityParamIdentifiers (match uv_old v with Some o => Some o | None => Some param end))
            (entityParamToMap (uv_old v)) (entityParamToMap (Some param)) (Some e) ;;
          auditNestedQuotaPlanChange m (uv_old v) param 0 oldPlan (Some e) ;;
          auditNestedRateLimitPolicyChange m (uv_old v) param 0 (uv_oldPolicy v) (Some e) ;;
          Ret (Err e)
      | (None, v) =>
          match uv_keys v with [] => Ret tt | _ => cleanupRedisKeys (em_cache m) "" (uv_keys v) end ;;
          recordEntityOperation m "update" (entityParamIdentifiers (uv_old v)) (entityParamToMap (uv_old v))
            (entityParamToMap (Some param)) None ;;
          auditNestedQuotaPlanChange m (uv_old v) param (uv_plan v) oldPlan None ;;
          auditNestedRateLimitPolicyChange m (uv_old v) param (uv_policy v) (uv_oldPolicy v) None ;;
          Ret (Ok (uv_affected v))
      end
  end.

(** ** Delete *)

Record delete_vars : Type := mkDeleted {
  dv_quotaKey : string; dv_keys : list string; dv_old : option EntityParam; dv_plan : option SharedPlan;
  dv_policy : option RateLimitPolicyParam
}.
Definition noDeleted : delete_vars := mkDeleted "" [] None None None.

Definition delete_entity_body (m : EntityManager) (filter : EntityFilter) : prog ownerE (option goerr * delete_vars) :=
  l <- call (FetchEntityRows filter) ;;
  match l with
  | Err e => Ret (Some e, noDeleted)
  | Ok [] => Ret (Some (RecordNotExist "Entity"), noDeleted)
  | Ok (one :: _) =>
      let quotaKey := default "" (ep_EntityID one) in
      p <- old_policy (em_hasPolicies m) (ep_RateLimitPolicyID one) ;;
      match p with
      | Err e => Ret (Some e, mkDeleted quotaKey [] (Some one) None None)
      | Ok (policy, keys) =>
          plan <- soft_plan (em_hasPlans m) (ep_QuotaPlanID one) ;;
          let vars := mkDeleted quotaKey keys (Some one) plan policy in
          children <- call (FetchEntityRows (byParentID (ep_EntityID one))) ;;
          match children with
          | Err e => Ret (Some e, vars)
          | Ok (_ :: _) => Ret (Some (ConflictError "cannot delete entity with children"), vars)
          | Ok [] =>
              d <- delete_owned (em_hasPlans m) (em_hasPolicies m) (em_hasRoutes m) (ep_QuotaPlanID one)
                     (ep_RateLimitPolicyID one) (ep_RouteRulesID one) ;;
              match d with
              | Some e => Ret (Some e, vars)
              | None =>
                  r <- call (DeleteEntityRow filter) ;;
                  match r with Err e => Ret (Some e, vars) | Ok _ => Ret (None, vars) end
              end
          end
      end
  end.

Definition DeleteEntity (m : EntityManager) (filter : EntityFilter) : prog ownerE (result unit) :=
  t <- AtomExecute noDeleted (delete_entity_body m filter) ;;
  let '(err, v) := t in
  match err with
  | Some _ => Ret tt
  | None => cleanupRedisKeys (em_cache m) (dv_quotaKey v) (dv_keys v)
  end ;;
  recordEntityOperation m "delete" (entityParamIdentifiers (dv_old v)) (entityParamToMap (dv_old v)) None err ;;
  auditNestedQuotaPlanDelete m (dv_old v) (dv_plan v) err ;;
  auditNestedRateLimitPolicyDelete m (dv_old v) (dv_policy v) err ;;
  match err with Some e => Ret (Err e) | None => Ret (Ok tt) end.
End Entities.

(** [entityStoragerAdapter] *)
Definition entityAdapterFetch (f : EntityFilter) : prog ownerE (result (option EntitySummary)) :=
  e <-? call (FetchEntityRow f) ;;
  Ret (Ok (option_map (fun e => mkSummary (ep_EntityID e) (ep_Name e) (ep_Type e)) e)).

(** * Entity types ([entity_type_manager.go]) *)

Definition CreateEntityType (hasLog : bool) (param : EntityTypeParam) : prog ownerE (result Z) :=
  let record err := recordEntityTypeOperation hasLog "create" (Some param) None (entityTypeParamToMap (Some param)) err in
  match given_text (ty_TypeName param) with
  | None => record (Some (ParamError "type_name is required")) ;; Ret (Err (ParamError "type_name is required"))
  | Some name =>
      x <- call (FetchEntityTypeRow (byTypeName (Some name))) ;;
      match x with
      | Err e => record (Some e) ;; Ret (Err e)
      | Ok (Some _) => record (Some (RecordExisted "Entity-Type")) ;; Ret (Err (RecordExisted "Entity-Type"))
      | Ok None =>
          r <- call (CreateEntityTypeRow param) ;;
          match r with
          | Err e => record (Some e) ;; Ret (Err e)
          | Ok id => record None ;; Ret (Ok id)
          end
      end
  end.

Definition UpdateEntityType (hasLog : bool) (filter : EntityTypeFilter) (param : EntityTypeParam) : prog ownerE (result Z) :=
  let early e := recordEntityTypeOperation hasLog "update" (Some param) (entityTypeParamToMap (Some param)) None (Some e) in
  o <- call (FetchEntityTypeRow filter) ;;
  match o with
  | Err e => early e ;; Ret (Err e)
  | Ok None => early (RecordNotExist "Entity-Type") ;; Ret (Err (RecordNotExist "Entity-Type"))
  | Ok (Some old) =>
      r <- call (UpdateEntityTypeRow filter param) ;;
      recordEntityTypeOperation hasLog "update" (Some old) (entityTypeParamToMap (Some old)) (entityTypeParamToMap (Some param))
        (match r with Err e => Some e | Ok _ => None end) ;;
      Ret r
  end.

Definition DeleteEntityType (hasLog : bool) (filter : EntityTypeFilter) : prog ownerE (result unit) :=
  let fallback := mkEntityType None (tf_TypeName filter) None None None in
  let early e := recordEntityTypeOperation hasLog "delete" (Some fallback) (entityTypeParamToMap (Some fallback)) None (Some e) in
  o <- call (FetchEntityTypeRow filter) ;;
  match o with
  | Err e => early e ;; Ret (Err e)
  | Ok None => early (RecordNotExist "Entity-Type") ;; Ret (Err (RecordNotExist "Entity-Type"))
  | Ok (Some old) =>
      r <- call (DeleteEntityTypeRow filter) ;;
      recordEntityTypeOperation hasLog "delete" (Some old) (entityTypeParamToMap (Some old)) None
        (match r with Err e => Some e | Ok _ => None end) ;;
      Ret r
  end.

Definition FetchEntityType (filter : EntityTypeFilter) : prog ownerE (result (option EntityTypeParam)) := call (FetchEntityTypeRow filter).
Definition FetchEntityTypeList (filter : EntityTypeFilter) : prog ownerE (result (list EntityTypeParam)) := call (FetchEntityTypeRows filter).
