(* ===== verification/ApiKeyManager.v ===== *)
(** The manager of API keys ([model/api_key]). *)
From Stdlib Require Import ZArith Lia SpecFloat.
From stdpp Require Import base tactics numbers list strings gmap option.
From S2P Require Import Prelude GoStrings GoTime Prog QuotaModel QuotaManager XCrypto SharedTypes OwnerModel OwnerCommon EntityManager.

Local Open Scope string_scope.

Record APIKeyManager : Type := mkAM {
  am_hasPlans : bool; am_hasPolicies : bool; am_hasRoutes : bool; am_hasEntities : bool;
  am_cache : option bool;
  am_hasLog : bool;
  am_planAuditor : option QuotaPlanManager;
  am_policyAuditor : option RateLimitPolicyManager
}.

(** * Operation log ([api_key_operation_log.go]) *)

Definition recordAPIKeyOperation (m : APIKeyManager) (action : string) (apiKey : option APIKeyParam)
  (before after : option APIKeyParam) (err : option goerr) : prog ownerE unit :=
  match apiKey with
  | Some k =>
      if am_hasLog m then
        let resourceID := default "" (ak_ID k) in
        let resourceName := match ak_Description k with
                            | Some d => if bool_decide (d = "") then resourceID else d
                            | None => resourceID
                            end in
        call (RecordOp (mkOp "api_key" action resourceID resourceName (default "" (ak_EntityID k))
                          (SKey <$> before) (SKey <$> after) err))
      else Ret tt
  | None => Ret tt
  end.

Definition audit_key_plan (m : APIKeyManager) (f : QuotaPlanManager -> prog quotaE unit) : prog ownerE unit :=
  match am_planAuditor m with Some a => via (f a) | None => Ret tt end.
Definition audit_key_policy (m : APIKeyManager) (f : RateLimitPolicyManager -> prog ownerE unit) : prog ownerE unit :=
  match am_policyAuditor m with Some a => f a | None => Ret tt end.
Definition key_owner (old : option APIKeyParam) : string := match old with Some o => default "" (ak_ID o) | None => "" end.

Definition auditKeyPlanCreate (m : APIKeyManager) (p : APIKeyParam) (planID : Z) (err : option goerr) : prog ownerE unit :=
  match ak_QuotaPlan p with
  | Some plan => audit_key_plan m (fun a => AuditQuotaPlanCreate a (Some plan) planID (default "" (ak_ID p)) err)
  | None => Ret tt
  end.
Definition auditKeyPlanChange (m : APIKeyManager) (old : option APIKeyParam) (p : APIKeyParam) (createdPlanID : Z)
  (oldPlan : option SharedPlan) (err : option goerr) : prog ownerE unit :=
  match ak_QuotaPlan p with
  | Some plan =>
      match old ≫= ak_QuotaPlanID with
      | Some id => audit_key_plan m (fun a => AuditQuotaPlanUpdate a oldPlan (Some plan) id (key_owner old) err)
      | None => audit_key_plan m (fun a => AuditQuotaPlanCreate a (Some plan) createdPlanID (key_owner old) err)
      end
  | None => Ret tt
  end.
Definition auditKeyPlanDelete (m : APIKeyManager) (old : option APIKeyParam) (oldPlan : option SharedPlan) (err : option goerr)
  : prog ownerE unit :=
  match old ≫= ak_QuotaPlanID with
  | Some id => audit_key_plan m (fun a => AuditQuotaPlanDelete a oldPlan id (key_owner old) err)
  | None => Ret tt
  end.
Definition auditKeyPolicyCreate (m : APIKeyManager) (p : APIKeyParam) (policyID : Z) (err : option goerr) : prog ownerE unit :=
  match ak_RateLimitPolicy p with
  | Some policy => audit_key_policy m (fun a => AuditRateLimitPolicyCreate a (Some policy) policyID (default "" (ak_ID p)) err)
  | None => Ret tt
  end.
Definition auditKeyPolicyChange (m : APIKeyManager) (old : option APIKeyParam) (p : APIKeyParam) (createdID : Z)
  (oldPolicy : option RateLimitPolicyParam) (err : option goerr) : prog ownerE unit :=
  match ak_RateLimitPolicy p with
  | Some policy =>
      match old ≫= ak_RateLimitPolicyID with
      | Some id => audit_key_policy m (fun a => AuditRateLimitPolicyUpdate a oldPolicy (Some policy) id (key_owner old) err)
      | None => audit_key_policy m (fun a => AuditRateLimitPolicyCreate a (Some policy) createdID (key_owner old) err)
      end
  | None => Ret tt
  end.
Definition auditKeyPolicyDelete (m : APIKeyManager) (old : option APIKeyParam) (oldPolicy : option RateLimitPolicyParam)
  (err : option goerr) : prog ownerE unit :=
  match old ≫= ak_RateLimitPolicyID with
  | Some id => audit_key_policy m (fun a => AuditRateLimitPolicyDelete a oldPolicy id (key_owner old) err)
  | None => Ret tt
  end.

(** * Parameters that the manager changes *)

Definition key_with (id : option string) (updated : option Z) (key : option string) (plan policy route : option Z) (p : APIKeyParam)
  : APIKeyParam :=
  mkAPIKey id (ak_Enable p) (ak_Status p) (ak_CreateTime p) updated (ak_KeyCreateAt p) key (ak_Description p)
    (ak_UnlimitedQuota p) (ak_ExpiredTime p) (ak_Models p) (ak_Subnet p) (ak_EntityID p)
    (or_null plan (ak_QuotaPlanID p)) (or_null policy (ak_RateLimitPolicyID p)) (or_null route (ak_RouteRulesID p))
    (ak_ProductName p) (ak_InnerID p) (ak_RemainingQuota p) (ak_QuotaPlan p) (ak_Balance p) (ak_RateLimitPolicy p)
    (ak_RouteRules p) (ak_Entity p).
Definition key_populated (plan : option SharedPlan) (balance : option BalanceSummary) (policy : option RateLimitPolicyParam)
  (route : option RouteRulesParam) (entity : option EntitySummary) (p : APIKeyParam) : APIKeyParam :=
  mkAPIKey (ak_ID p) (ak_Enable p) (ak_Status p) (ak_CreateTime p) (ak_UpdatedTime p) (ak_KeyCreateAt p) (ak_Key p)
    (ak_Description p) (ak_UnlimitedQuota p) (ak_ExpiredTime p) (ak_Models p) (ak_Subnet p) (ak_EntityID p)
    (ak_QuotaPlanID p) (ak_RateLimitPolicyID p) (ak_RouteRulesID p) (ak_ProductName p) (ak_InnerID p) (ak_RemainingQuota p)
    plan balance policy route entity.

Section Keys.
Context (PtrToRedisValue : spec_float -> option string -> Z).
Context (PtrFromRedisValue : Z -> option string -> spec_float).

(** * Read *)

Definition GetRemainingQuota (cache : option bool) (param : APIKeyParam) : prog ownerE (result (option spec_float)) :=
  if default false (ak_UnlimitedQuota param) then Ret (Ok None) else
  match ak_QuotaPlan param with
  | None => Ret (Ok None)
  | Some plan =>
      if is_unlimited plan then Ret (Ok None) else
      match sh_Quota plan with
      | None => Ret (Ok None)
      | Some quota =>
          match cache, ak_Key param with
          | None, _ => Ret (Ok (Some quota))
          | Some client, Some key =>
              r <- via (GetRemaining PtrFromRedisValue client key (sh_Unit plan)) ;;
              match r with
              | Err _ => Ret (Err (PlainError "get %s-%d from cache is error:%s"))
              | Ok remain => Ret (Ok (Some (at_least_zero remain)))
              end
          | Some _, None => Ret (Err (PlainError "panic"))
          end
      end
  end.

Definition populate_key (m : APIKeyManager) (one : APIKeyParam) : prog ownerE (result APIKeyParam) :=
  let plan0 := default noSharedPlan (ak_QuotaPlan one) in
  let policy0 := default noSharedPolicy (ak_RateLimitPolicy one) in
  let route0 := default (mkRouteRules None None []) (ak_RouteRules one) in
  let route0 := mkRouteRules (rrs_ID route0) (Some (default false (rrs_Enabled route0))) (rrs_Rules route0) in
  plan <-? match ak_QuotaPlanID one with
           | Some id => if am_hasPlans m then r <-? via (adapterFetch id) ;; Ret (Ok (default plan0 r)) else Ret (Ok plan0)
           | None => Ret (Ok plan0)
           end ;;
  policy <-? match ak_RateLimitPolicyID one with
             | Some id => if am_hasPolicies m then r <-? policyAdapterFetch id ;; Ret (Ok (default policy0 r)) else Ret (Ok policy0)
             | None => Ret (Ok policy0)
             end ;;
  route <-? match ak_RouteRulesID one with
            | Some id => if am_hasRoutes m then r <-? call (FetchRouteRow id) ;; Ret (Ok (default route0 r)) else Ret (Ok route0)
            | None => Ret (Ok route0)
            end ;;
  entity <-? match ak_EntityID one with
             | Some e => if am_hasEntities m then entityAdapterFetch (byEntityID (Some e)) else Ret (Ok (ak_Entity one))
             | None => Ret (Ok (ak_Entity one))
             end ;;
  Ret (Ok (key_populated (Some plan) (ak_Balance one) (Some policy) (Some route) entity one)).

Fixpoint populate_keys (m : APIKeyManager) (l : list APIKeyParam) : prog ownerE (result (list APIKeyParam)) :=
  match l with
  | [] => Ret (Ok [])
  | one :: l' => one <-? populate_key m one ;; rest <-? populate_keys m l' ;; Ret (Ok (one :: rest))
  end.

Definition limited_key_plan (one : APIKeyParam) : option (string * SharedPlan) :=
  match ak_QuotaPlan one, ak_Key one with
  | Some plan, Some key => match sh_Quota plan with Some _ => Some (key, plan) | None => None end
  | _, _ => None
  end.
Definition key_balance (b : option BalanceSummary) (one : APIKeyParam) : APIKeyParam :=
  key_populated (ak_QuotaPlan one) b (ak_RateLimitPolicy one) (ak_RouteRules one) (ak_Entity one) one.

Definition populateKeyBalance (m : APIKeyManager) (one : APIKeyParam) : prog ownerE APIKeyParam :=
  match am_cache m, limited_key_plan one with
  | Some client, Some (key, plan) =>
      if is_unlimited plan then Ret (key_balance (fillUnlimitedQuotaBalance (Some plan) (ak_Balance one)) one) else
      r <- via (GetRemaining PtrFromRedisValue client key (sh_Unit plan)) ;;
      match r with
      | Err _ => Ret one
      | Ok remaining => Ret (key_balance (fillQuotaBalance (Some plan) (ak_Balance one) remaining) one)
      end
  | _, _ => Ret one
  end.

Definition key_group_unit (one : APIKeyParam) : option string :=
  match limited_key_plan one with
  | Some (_, plan) => if is_unlimited plan then None else Some (default "" (sh_Unit plan))
  | None => None
  end.
Definition key_in_group (u : string) (one : APIKeyParam) : bool := bool_decide (key_group_unit one = Some u).
Definition fill_key_group (u : string) (remaining : gmap string spec_float) (one : APIKeyParam) : APIKeyParam :=
  match limited_key_plan one with
  | Some (key, plan) =>
      if key_in_group u one
      then key_balance (fillQuotaBalance (Some plan) (ak_Balance one) (default f_zero (remaining !! key))) one else one
  | None => one
  end.
Fixpoint fill_key_groups (client : bool) (units : list string) (l : list APIKeyParam) : prog ownerE (list APIKeyParam) :=
  match units with
  | [] => Ret l
  | u :: units' =>
      let keys := omap (fun one => fst <$> limited_key_plan one) (List.filter (key_in_group u) l) in
      r <- via (BatchGetRemaining PtrFromRedisValue client keys (if bool_decide (u = "") then None else Some u)) ;;
      match r with
      | Err _ => Ret l
      | Ok remaining => fill_key_groups client units' (map (fill_key_group u remaining) l)
      end
  end.
Definition fill_unlimited_key (one : APIKeyParam) : APIKeyParam :=
  match limited_key_plan one with
  | Some (_, plan) =>
      if is_unlimited plan then key_balance (fillUnlimitedQuotaBalance (Some plan) (ak_Balance one)) one else one
  | None => one
  end.
(** [order]: the order in which a Go map yields the units. *)
Definition populateKeyBalances (order : list string -> list string) (m : APIKeyManager) (l : list APIKeyParam)
  : prog ownerE (list APIKeyParam) :=
  match am_cache m with
  | None => Ret l
  | Some client => fill_key_groups client (order (remove_dups (omap key_group_unit l))) (map fill_unlimited_key l)
  end.

Definition FetchAPIKeyList (order : list string -> list string) (m : APIKeyManager) (filter : APIKeyFilter)
  : prog ownerE (result (list APIKeyParam)) :=
  t <- AtomExecute []
    (r <- call (FetchKeyRows filter) ;;
     match r with
     | Err e => Ret (Some e, [])
     | Ok l => p <- populate_keys m l ;; match p with Err e => Ret (Some e, []) | Ok l => Ret (None, l) end
     end) ;;
  match t with
  | (Some e, _) => Ret (Err e)
  | (None, l) => l <- populateKeyBalances order m l ;; Ret (Ok l)
  end.

Definition FetchAPIKey (m : APIKeyManager) (filter : APIKeyFilter) : prog ownerE (result (option APIKeyParam)) :=
  t <- AtomExecute None
    (r <- call (FetchKeyRows filter) ;;
     match r with
     | Err e => Ret (Some e, None)
     | Ok [] => Ret (None, None)
     | Ok (one :: _) => p <- populate_key m one ;; match p with Err e => Ret (Some e, None) | Ok one => Ret (None, Some one) end
     end) ;;
  match t with
  | (Some e, _) => Ret (Err e)
  | (None, None) => Ret (Ok None)
  | (None, Some one) => one <- populateKeyBalance m one ;; Ret (Ok (Some one))
  end.

(** * Delete *)

Record key_delete_vars : Type := mkKeyDeleted {
  kd_quotaKey : string; kd_keys : list string; kd_old : option APIKeyParam; kd_plan : option SharedPlan;
  kd_policy : option RateLimitPolicyParam
}.
Definition noKeyDeleted : key_delete_vars := mkKeyDeleted "" [] None None None.

Definition delete_key_body (m : APIKeyManager) (filter : APIKeyFilter) : prog ownerE (option goerr * key_delete_vars) :=
  l <- call (FetchKeyRows filter) ;;
  match l with
  | Err e => Ret (Some e, noKeyDeleted)
  | Ok [] => Ret (Some (RecordNotExist "APIKey"), noKeyDeleted)
  | Ok (one :: _) =>
      let quotaKey := default "" (ak_Key one) in
      p <- old_policy (am_hasPolicies m) (ak_RateLimitPolicyID one) ;;
      match p with
      | Err e => Ret (Some e, mkKeyDeleted quotaKey [] (Some one) None None)
      | Ok (policy, keys) =>
          plan <- soft_plan (am_hasPlans m) (ak_QuotaPlanID one) ;;
          let vars := mkKeyDeleted quotaKey keys (Some one) plan policy in
          d <- delete_owned (am_hasPlans m) (am_hasPolicies m) (am_hasRoutes m) (ak_QuotaPlanID one)
                 (ak_RateLimitPolicyID one) (ak_RouteRulesID one) ;;
          match d with
          | Some e => Ret (Some e, vars)
          | None =>
              r <- call (DeleteKeyRow filter) ;;
              match r with Err e => Ret (Some e, vars) | Ok _ => Ret (None, vars) end
          end
      end
  end.

(** The entry has the deleted key as its state after the change. *)
Definition DeleteAPIKey (m : APIKeyManager) (filter : APIKeyFilter) : prog ownerE (result unit) :=
  t <- AtomExecute noKeyDeleted (delete_key_body m filter) ;;
  let '(err, v) := t in
  match err with
  | Some _ => Ret tt
  | None => cleanupRedisKeys (am_cache m) (kd_quotaKey v) (kd_keys v)
  end ;;
  recordAPIKeyOperation m "delete" (kd_old v) None (kd_old v) err ;;
  auditKeyPlanDelete m (kd_old v) (kd_plan v) err ;;
  auditKeyPolicyDelete m (kd_old v) (kd_policy v) err ;;
  match err with Some e => Ret (Err e) | None => Ret (Ok tt) end.

(** * Update *)

(** The entity that a key is attached to must exist. *)
Definition check_key_entity (m : APIKeyManager) (param : APIKeyParam) : prog ownerE (option goerr) :=
  match given_text (ak_EntityID param) with
  | Some e =>
      if negb (am_hasEntities m) then Ret None else
      r <- entityAdapterFetch (byEntityID (Some e)) ;;
      match r with
      | Err e => Ret (Some e)
      | Ok None => Ret (Some (ParamError ("Entity not found: " +:+ e)))
      | Ok (Some _) => Ret None
      end
  | None => Ret None
  end.

Record key_update_vars : Type := mkKeyUpdated {
  ku_keys : list string; ku_old : option APIKeyParam; ku_plan : Z; ku_policy : Z; ku_oldPlan : option SharedPlan;
  ku_oldPolicy : option RateLimitPolicyParam
}.
Definition noKeyUpdated : key_update_vars := mkKeyUpdated [] None 0 0 None None.

(** The key itself never changes: [param.Key] is dropped. *)
Definition update_key_body (m : APIKeyManager) (filter : APIKeyFilter) (param : APIKeyParam)
  : prog ownerE (option goerr * key_update_vars) :=
  l <- call (FetchKeyRows filter) ;;
  match l with
  | Err e => Ret (Some e, noKeyUpdated)
  | Ok [] => Ret (Some (RecordNotExist "API-Key"), noKeyUpdated)
  | Ok (one :: _) =>
      c <- check_key_entity m param ;;
      match c with
      | Some e => Ret (Some e, mkKeyUpdated [] (Some one) 0 0 None None)
      | None =>
          oldPlan <- match ak_QuotaPlan param with
                     | Some _ => soft_plan (am_hasPlans m) (ak_QuotaPlanID one)
                     | None => Ret None
                     end ;;
          plan <- change_plan (am_hasPlans m) (ak_QuotaPlanID one) (ak_QuotaPlan param) ;;
          match plan with
          | Err e => Ret (Some e, mkKeyUpdated [] (Some one) 0 0 oldPlan None)
          | Ok plan =>
              x <- change_policy (am_hasPolicies m) (ak_RateLimitPolicyID one) (ak_RateLimitPolicy param) ;;
              match x with
              | (Err e, oldPolicy) => Ret (Some e, mkKeyUpdated [] (Some one) (default 0%Z plan) 0 oldPlan oldPolicy)
              | (Ok (policy, keys), oldPolicy) =>
                  let vars := mkKeyUpdated keys (Some one) (default 0%Z plan) (default 0%Z policy) oldPlan oldPolicy in
                  route <- change_route (am_hasRoutes m) (ak_RouteRulesID one) RouteRulesTypeAPIKey (ak_ID one)
                             (ak_RouteRules param) ;;
                  match route with
                  | Err e => Ret (Some e, vars)
                  | Ok route =>
                      u <- call (UpdateKeyRow (byInnerID (ak_InnerID one))
                                   (key_with (ak_ID param) (ak_UpdatedTime param) None plan policy route param)) ;;
                      match u with Err e => Ret (Some e, vars) | Ok _ => Ret (None, vars) end
                  end
              end
          end
      end
  end.

Definition UpdateAPIKey (m : APIKeyManager) (filter : APIKeyFilter) (param : APIKeyParam) : prog ownerE (result unit) :=
  t <- AtomExecute noKeyUpdated (update_key_body m filter param) ;;
  let '(err, v) := t in
  (* the parameters as the closure leaves them: without the key, once a row was found *)
  let param := match ku_old v with
               | Some _ => key_with (ak_ID param) (ak_UpdatedTime param) None None None None param
               | None => param
               end in
  match err with
  | Some e =>
      recordAPIKeyOperation m "update" (ku_old v) (ku_old v) (Some param) (Some e) ;;
      auditKeyPlanChange m (ku_old v) param 0 (ku_oldPlan v) (Some e) ;;
      auditKeyPolicyChange m (ku_old v) param 0 (ku_oldPolicy v) (Some e) ;;
      Ret (Err e)
  | None =>
      match ku_keys v with [] => Ret tt | _ => cleanupRedisKeys (am_cache m) "" (ku_keys v) end ;;
      recordAPIKeyOperation m "update" (ku_old v) (ku_old v) (Some param) None ;;
      auditKeyPlanChange m (ku_old v) param (ku_plan v) (ku_oldPlan v) None ;;
      auditKeyPolicyChange m (ku_old v) param (ku_policy v) (ku_oldPolicy v) None ;;
      Ret (Ok tt)
  end.

(** * Create *)

(** The key must be new; a token that was handed out for it gives the time of
    the last change. *)
Definition check_key_value (m : APIKeyManager) (key : option string) : prog ownerE (result (option gotime)) :=
  match given_text key with
  | None => Ret (Ok None)
  | Some k =>
      tokens <-? call (FetchTokenRows (Some k)) ;;
      if (1 <? length tokens)%nat then Ret (Err (DirtyDataError "API-Key-Token:%s")) else
      existing <-? call (FetchKeyRows (byKeyValue (Some k))) ;;
      match existing with
      | _ :: _ => Ret (Err (ParamError "API-Key value %s already exists"))
      | [] => Ret (Ok (head tokens ≫= tn_CreatedAt))
      end
  end.

Record key_create_vars : Type := mkKeyCreated { kc_param : APIKeyParam; kc_plan : Z; kc_policy : Z }.

Definition create_key_body (m : APIKeyManager) (param : APIKeyParam) : prog ownerE (option goerr * key_create_vars) :=
  id <- match given_text (ak_ID param) with Some i => Ret i | None => call NewUUID end ;;
  let named := key_with (Some id) (ak_UpdatedTime param) (ak_Key param) None None None param in
  let fail e := (Some e, mkKeyCreated named 0 0) in
  l <- call (FetchKeyRows (byProductID (ak_ProductName param) (Some id))) ;;
  match l with
  | Err e => Ret (fail e)
  | Ok (_ :: _) => Ret (fail (ParamError "Duplicate id with product:%s"))
  | Ok [] =>
      c <- check_key_entity m param ;;
      match c with
      | Some e => Ret (fail e)
      | None =>
          now <- via (call ClockNow) ;;
          v <- check_key_value m (ak_Key param) ;;
          match v with
          | Err e => Ret (Some e, mkKeyCreated (key_with (Some id) (Some (unix now)) (ak_Key param) None None None param) 0 0)
          | Ok token =>
              let updated := Some (unix (default now token)) in
              let stamped := key_with (Some id) updated (ak_Key param) None None None param in
              let fail e := (Some e, mkKeyCreated stamped 0 0) in
              plan <- create_plan (am_hasPlans m) (ak_QuotaPlan param) ;;
              match plan with
              | Err e => Ret (fail e)
              | Ok plan =>
                  policy <- create_policy (am_hasPolicies m) (ak_RateLimitPolicy param) ;;
                  match policy with
                  | Err e => Ret (fail e)
                  | Ok policy =>
                      route <- create_route (am_hasRoutes m) RouteRulesTypeAPIKey (Some id) (ak_RouteRules param) ;;
                      match route with
                      | Err e => Ret (fail e)
                      | Ok route =>
                          let final := key_with (Some id) updated (ak_Key param) plan policy route param in
                          r <- call (CreateKeyRow final) ;;
                          match r with
                          | Err e => Ret (fail e)
                          | Ok _ => Ret (None, mkKeyCreated final (default 0%Z plan) (default 0%Z policy))
                          end
                      end
                  end
              end
          end
      end
  end.

Definition init_key_counter (m : APIKeyManager) (param : APIKeyParam) : prog ownerE unit :=
  match ak_Key param, ak_QuotaPlan param, am_cache m with
  | Some key, Some plan, Some client =>
      if is_unlimited plan then Ret tt else
      match sh_Quota plan with
      | Some q => via (SetRemaining PtrToRedisValue client key (Some q) (sh_Unit plan)) ;; Ret tt
      | None => Ret tt
      end
  | _, _, _ => Ret tt
  end.

Definition CreateAPIKey (m : APIKeyManager) (param : APIKeyParam) : prog ownerE (result unit) :=
  t <- AtomExecute (mkKeyCreated param 0 0) (create_key_body m param) ;;
  let '(err, v) := t in
  let param := kc_param v in
  match err with
  | Some e =>
      recordAPIKeyOperation m "create" (Some param) None (Some param) (Some e) ;;
      auditKeyPlanCreate m param 0 (Some e) ;;
      auditKeyPolicyCreate m param 0 (Some e) ;;
      Ret (Err e)
  | None =>
      init_key_counter m param ;;
      recordAPIKeyOperation m "create" (Some param) None (Some param) None ;;
      auditKeyPlanCreate m param (kc_plan v) None ;;
      auditKeyPolicyCreate m param (kc_policy v) None ;;
      Ret (Ok tt)
  end.

(** A token gets its number appended; a token without a text is dereferenced. *)
Definition CreateAPIKeyToken (param : APIKeyTokenParam) : prog ownerE (result Z) :=
  t <- AtomExecute 0%Z
    (r <- call (CreateTokenRow param) ;;
     match r with
     | Err e => Ret (Some e, 0%Z)
     | Ok id =>
         match tn_Key param with
         | None => Ret (Some (PlainError "panic"), id)
         | Some key =>
             u <- call (UpdateTokenRow id (mkToken (Some (key +:+ "-" +:+ FormatInt id)) None)) ;;
             match u with Err e => Ret (Some e, id) | Ok _ => Ret (None, id) end
         end
     end) ;;
  match t with (Some e, _) => Ret (Err e) | (None, id) => Ret (Ok id) end.
End Keys.
