(* ===== verification/OwnerEndpoints.v ===== *)
(** The endpoints of entities, entity types and API keys
    ([endpoints/openapi_v1/entity], [entity_type], [api_key]): what a request
    does after its path, query and body have been decoded. *)
From Stdlib Require Import ZArith Lia SpecFloat.
From stdpp Require Import base tactics numbers list strings gmap option.
From S2P Require Import Prelude GoStrings GoTime Prog QuotaModel QuotaManager XCrypto SharedTypes Validate OwnerModel OwnerCommon EntityManager ApiKeyManager.

Local Open Scope string_scope.

(** A field of what a pointer may point to. *)
Definition field {A B} (o : option A) (f : A -> option B) : option B := match o with Some a => f a | None => None end.

(** Page and size of a list request: given when either is. *)
Definition page_request (page size : option Z) : option (Z * Z) :=
  match page, size with
  | None, None => None
  | _, _ =>
      let p := match page with Some p => if (0 <? p)%Z then p else 1%Z | None => 1%Z end in
      let s := match size with Some s => if (0 <? s)%Z then s else 20%Z | None => 20%Z end in
      Some (p, Z.min s 100)
  end.

Section Endpoints.
Context (PtrToRedisValue : spec_float -> option string -> Z).
Context (PtrFromRedisValue : Z -> option string -> spec_float).
Context (condition_Build : string -> bool) (MaxRMBQuota : spec_float).
(** The order in which a Go map yields its keys. *)
Context (order : list string -> list string).
(** The managers of the container. *)
Context (em : EntityManager) (am : APIKeyManager) (qm : QuotaPlanManager) (typeLog : bool).

(** * Entities *)

Definition MaxEntityDescriptionLength : nat := 255.
Definition MaxEntityTypeDescriptionLength : nat := 255.

Definition validateEntityParam (param : EntityParam) (requireNameType : bool) : verdict :=
  (if requireNameType
   then refuse_if (blank (ep_Name param)) "name is required" &> refuse_if (blank (ep_Type param)) "type is required"
   else Accept) &>
  match given_text (ep_Name param) with Some n => EntityName n | None => Accept end &>
  match ep_Description param with Some d => Description d MaxEntityDescriptionLength | None => Accept end &>
  match ep_Type param with Some t => EntityTypeName t | None => Accept end &>
  RateLimitPolicy (ep_RateLimitPolicy param) &>
  QuotaPlan MaxRMBQuota (ep_QuotaPlan param) &>
  RouteRules condition_Build (ep_RouteRules param).

Definition validateTypeImmutable (paramType existingType : option string) : verdict :=
  match paramType, existingType with
  | Some t, Some t' => refuse_if (negb (bool_decide (t = t'))) "type is immutable, cannot be modified after creation"
  | _, _ => Accept
  end.

(** The parts that a request leaves out. *)
Definition with_defaults (id : string) (p : EntityParam) : EntityParam :=
  mkEntity (ep_InnerID p) (Some id) (ep_Name p) (ep_Description p) (ep_Type p) (ep_ParentID p) (ep_AllowModels p)
    (ep_BlockModels p) (ep_QuotaPlanID p) (ep_RateLimitPolicyID p) (ep_RouteRulesID p) (ep_CreateTime p) (ep_UpdateTime p)
    (Some (default (mkSharedPlan (Some true) (Some false) None None None None) (ep_QuotaPlan p))) (ep_Balance p)
    (Some (default (mkRateLimitPolicy (Some false) (Some (mkRateLimitRules [] [] (Some 0%Z) None))) (ep_RateLimitPolicy p)))
    (Some (default (mkRouteRules None (Some false) []) (ep_RouteRules p))).

(** The parent must exist and stand on a lower level. *)
Definition check_parent (param : EntityParam) (entityType : EntityTypeParam) : prog ownerE (result unit) :=
  match given_text (ep_ParentID param) with
  | None => Ret (Ok tt)
  | Some parent =>
      p <-? FetchEntity PtrFromRedisValue em (byEntityID (Some parent)) ;;
      match p with
      | None => Ret (Err (ParamError "parent_id does not exist"))
      | Some p =>
          match ep_Type p with
          | None => Ret (Err (ParamError "parent entity has no type"))
          | Some ptype =>
              t <-? call (FetchEntityTypeRow (byTypeName (Some ptype))) ;;
              match field t ty_Level, ty_Level entityType with
              | None, _ => Ret (Err (ParamError "parent entity type is invalid"))
              | Some _, None => Ret (Err (PlainError "panic"))
              | Some plevel, Some level =>
                  if (level <=? plevel)%Z then Ret (Err (ParamError "parent level must be lower than current level"))
                  else Ret (Ok tt)
              end
          end
      end
  end.

Definition EntityCreateAction (param : EntityParam) : prog ownerE (result (option EntityParam)) :=
  checked (validateEntityParam param true)
  (t <-? call (FetchEntityTypeRow (byTypeName (ep_Type param))) ;;
   match t with
   | None => Ret (Err (ParamError "type does not exist"))
   | Some t =>
       _ <-? check_parent param t ;;
       existing <-? FetchEntityList PtrFromRedisValue order em
                      (mkEntityFilter None (ep_Name param) (ep_Type param) None None None None None) ;;
       match existing with
       | _ :: _ => Ret (Err (DuplicateData "entity"))
       | [] =>
           id <-? match given_text (ep_EntityID param) with
                  | Some i => Ret (Ok i)
                  | None =>
                      s <- call AllocateEntityID ;;
                      match s with
                      | Err _ => Ret (Err (ModelError "allocate entity id sequence: %w"))
                      | Ok n => Ret (Ok ("entity-" +:+ FormatInt n))
                      end
                  end ;;
           _ <-? CreateEntity PtrToRedisValue em (with_defaults id param) ;;
           FetchEntity PtrFromRedisValue em (byEntityID (Some id))
       end
   end).

(** Both updates; [full]: a missing description empties the old one. *)
Definition update_action (full : bool) (id : string) (param : EntityParam) : prog ownerE (result (option EntityParam)) :=
  existing <-? FetchEntity PtrFromRedisValue em (byEntityID (Some id)) ;;
  match existing with
  | None => Ret (Err (RecordNotExist "Entity"))
  | Some existing =>
      checked (validateEntityParam param false)
      (let param :=
         if full
         then mkEntity (ep_InnerID param) (ep_EntityID param) (ep_Name param) (Some (default "" (ep_Description param)))
                (ep_Type param) (ep_ParentID param) (ep_AllowModels param) (ep_BlockModels param) (ep_QuotaPlanID param)
                (ep_RateLimitPolicyID param) (ep_RouteRulesID param) (ep_CreateTime param) (ep_UpdateTime param)
                (ep_QuotaPlan param) (ep_Balance param) (ep_RateLimitPolicy param) (ep_RouteRules param)
         else param in
       checked (validateTypeImmutable (ep_Type param) (ep_Type existing))
       (_ <-? UpdateEntity em (byEntityID (Some id)) param ;;
        updated <-? FetchEntity PtrFromRedisValue em (byEntityID (Some id)) ;;
        match ep_QuotaPlan param, field updated ep_QuotaPlanID with
        | Some plan, Some planID =>
            _ <-? via (ApplyQuotaPlanChange PtrToRedisValue PtrFromRedisValue qm planID (ep_QuotaPlan existing) (Some plan)) ;;
            Ret (Ok updated)
        | _, _ => Ret (Ok updated)
        end))
  end.
Definition EntityUpdateAction (id : string) (param : EntityParam) := update_action false id param.
Definition EntityFullUpdateAction (id : string) (param : EntityParam) := update_action true id param.

Definition EntityDeleteAction (id : string) : prog ownerE (result unit) :=
  ent <-? FetchEntity PtrFromRedisValue em (byEntityID (Some id)) ;;
  match ent with
  | None => Ret (Err (RecordNotExist "Entity"))
  | Some _ =>
      children <-? FetchEntityList PtrFromRedisValue order em (byParentID (Some id)) ;;
      match children with
      | _ :: _ => Ret (Err (ConflictError "entity has children, cannot delete"))
      | [] =>
          keys <-? FetchAPIKeyList PtrFromRedisValue order am (byKeyEntity (Some id)) ;;
          match keys with
          | _ :: _ => Ret (Err (ParamError "cannot delete entity with associated api-keys"))
          | [] => DeleteEntity em (byEntityID (Some id))
          end
      end
  end.

Definition EntityOneAction (id : string) : prog ownerE (result EntityParam) :=
  one <-? FetchEntity PtrFromRedisValue em (byEntityID (Some id)) ;;
  match one with None => Ret (Err (RecordNotExist "Entity")) | Some e => Ret (Ok e) end.

(** The list, the page and its size (zero without pages) and the total, which
    is counted without the conditions on the id, the name and the route
    rules. *)
Definition EntityListAction (filter : EntityFilter) : prog ownerE (result (list EntityParam * (Z * Z * Z))) :=
  let pages := page_request (ef_Page filter) (ef_PageSize filter) in
  let f := mkEntityFilter (ef_EntityID filter) (ef_Name filter) (given_text (ef_Type filter)) (given_text (ef_ParentID filter))
             (ef_QuotaPlanID filter) (ef_RouteRulesID filter) (fst <$> pages) (snd <$> pages) in
  list <-? FetchEntityList PtrFromRedisValue order em f ;;
  match pages with
  | None => Ret (Ok (list, (0%Z, 0%Z, Z.of_nat (length list))))
  | Some (p, s) =>
      all <-? FetchEntityList PtrFromRedisValue order em
                (mkEntityFilter None None (ef_Type f) (ef_ParentID f) (ef_QuotaPlanID f) None None None) ;;
      Ret (Ok (list, (p, s, Z.of_nat (length all))))
  end.

Definition EntityGetQuotaPlanAction (id : string) : prog ownerE (result (SharedPlan * option BalanceSummary)) :=
  e <-? FetchEntity PtrFromRedisValue em (byEntityID (Some id)) ;;
  match e with
  | None => Ret (Err (RecordNotExist "Entity"))
  | Some e =>
      match ep_QuotaPlanID e, ep_QuotaPlan e with
      | Some _, Some plan => Ret (Ok (plan, ep_Balance e))
      | _, _ => Ret (Err (ParamError "Entity has no quota plan"))
      end
  end.

Record ResetQuotaResponse : Type := mkReset {
  rq_ID : string; rq_PreviousQuota : option spec_float; rq_NewQuota : option spec_float;
  rq_PreviousRemaining : spec_float; rq_NewRemaining : spec_float
}.
Definition remaining_of (b : option BalanceSummary) : spec_float := match b with Some b => bs_Remaining b | None => f_zero end.

Definition EntityResetQuotaAction (id : string) (quota : option spec_float) : prog ownerE (result ResetQuotaResponse) :=
  e <-? FetchEntity PtrFromRedisValue em (byEntityID (Some id)) ;;
  match e with
  | None => Ret (Err (RecordNotExist "Entity"))
  | Some e =>
      match ep_QuotaPlanID e with
      | None => Ret (Err (ParamError "Entity has no quota plan"))
      | Some planID =>
          plan <-? call (Quota (FetchQuotaPlanRow (byPlanID planID))) ;;
          let previousQuota := field plan qp_Quota in
          let unit_ := default "total_token" (given_text (field plan qp_Unit)) in
          checked (QuotaValue MaxRMBQuota quota unit_)
          (_ <-? via (ResetBalance PtrToRedisValue qm planID quota false id) ;;
           n <-? FetchEntity PtrFromRedisValue em (byEntityID (Some id)) ;;
           let newPlan := field n ep_QuotaPlan in
           let newQuota := match quota with
                           | Some q => Some q
                           | None => match newPlan with Some p => sh_Quota p | None => previousQuota end
                           end in
           let newRemaining := match newPlan with Some _ => remaining_of (field n ep_Balance) | None => f_zero end in
           Ret (Ok (mkReset id previousQuota newQuota (remaining_of (ep_Balance e)) newRemaining)))
      end
  end.

(** * Entity types *)

Definition EntityTypeCreateAction (param : EntityTypeParam) : prog ownerE (result (option EntityTypeParam)) :=
  checked (refuse_if (blank (ty_TypeName param)) "type_name is required" &>
           EntityTypeName (default "" (ty_TypeName param)) &>
           match ty_Level param with
           | None => Refuse (ParamError "level is required")
           | Some l => refuse_if ((l <? 1) || (5 <? l))%Z "level must be between 1 and 5"
           end &>
           match ty_Description param with Some d => Description d MaxEntityTypeDescriptionLength | None => Accept end)
  (existing <-? FetchEntityType (byTypeName (ty_TypeName param)) ;;
   match existing with
   | Some _ => Ret (Err (DuplicateData "entity type"))
   | None =>
       _ <-? CreateEntityType typeLog param ;;
       FetchEntityType (byTypeName (ty_TypeName param))
   end).

(** The level is taken as it is, whatever entities have the type. *)
Definition EntityTypeUpdateAction (name : string) (param : EntityTypeParam) : prog ownerE (result (option EntityTypeParam)) :=
  checked (EntityTypeName name)
  (existing <-? FetchEntityType (byTypeName (Some name)) ;;
   match existing with
   | None => Ret (Err (RecordNotExist "Entity-Type"))
   | Some _ =>
       checked (match ty_TypeName param with Some n => EntityTypeName n | None => Accept end &>
                match ty_Description param with Some d => Description d MaxEntityTypeDescriptionLength | None => Accept end)
       (_ <-? UpdateEntityType typeLog (byTypeName (Some name)) param ;;
        FetchEntityType (byTypeName (Some name)))
   end).

Definition EntityTypeDeleteAction (name : string) : prog ownerE (result unit) :=
  one <-? FetchEntityType (byTypeName (Some name)) ;;
  match one with
  | None => Ret (Err (RecordNotExist "Entity-Type"))
  | Some _ =>
      entities <-? FetchEntityList PtrFromRedisValue order em (byEntityType (Some name)) ;;
      match entities with
      | _ :: _ => Ret (Err (ParamError "cannot delete entity type with associated entities"))
      | [] => DeleteEntityType typeLog (byTypeName (Some name))
      end
  end.

Definition EntityTypeListAction (filter : EntityTypeFilter) : prog ownerE (result (list EntityTypeParam * (Z * Z * Z))) :=
  let pages := page_request (tf_Page filter) (tf_PageSize filter) in
  let f := mkEntityTypeFilter (tf_ID filter) (tf_TypeName filter) (tf_Level filter) (fst <$> pages) (snd <$> pages) in
  list <-? FetchEntityTypeList f ;;
  match pages with
  | None => Ret (Ok (list, (0%Z, 0%Z, Z.of_nat (length list))))
  | Some (p, s) =>
      all <-? FetchEntityTypeList (mkEntityTypeFilter (tf_ID f) (tf_TypeName f) (tf_Level f) None None) ;;
      Ret (Ok (list, (p, s, Z.of_nat (length all))))
  end.
End Endpoints.

(** The endpoints of API keys ([endpoints/openapi_v1/api_key]): what a request
    does after its path, query and body have been decoded. *)

Definition defaultProductName : string := "AI_product".

Definition key_charset : string := "ABCDEFGHIJKLMNOPQRSTUVWXYZabcdefghijklmnopqrstuvwxyz0123456789".
Definition key_char (b : Z) : string :=
  String.substring (Z.to_nat (b mod Z.of_nat (String.length key_charset))) 1 key_charset.
Definition generateAPIKeyValue (productName : string) : prog ownerE (result string) :=
  b <-? call (RandomBytes 24) ;;
  Ret (Ok (productName +:+ "-" +:+ String.concat "" (map key_char b))).

(** The parameters of a request that are handed to the manager. *)
Definition handed_key (id : option string) (p : APIKeyParam) : APIKeyParam :=
  mkAPIKey id (ak_Enable p) None None None None (ak_Key p) (ak_Description p) (ak_UnlimitedQuota p) (ak_ExpiredTime p)
    (ak_Models p) (ak_Subnet p) (ak_EntityID p) None None None (Some defaultProductName) None None (ak_QuotaPlan p) None
    (ak_RateLimitPolicy p) (ak_RouteRules p) None.
Definition with_key (k : option string) (p : APIKeyParam) : APIKeyParam :=
  mkAPIKey (ak_ID p) (ak_Enable p) (ak_Status p) (ak_CreateTime p) (ak_UpdatedTime p) (ak_KeyCreateAt p) k
    (ak_Description p) (ak_UnlimitedQuota p) (ak_ExpiredTime p) (ak_Models p) (ak_Subnet p) (ak_EntityID p)
    (ak_QuotaPlanID p) (ak_RateLimitPolicyID p) (ak_RouteRulesID p) (ak_ProductName p) (ak_InnerID p) (ak_RemainingQuota p)
    (ak_QuotaPlan p) (ak_Balance p) (ak_RateLimitPolicy p) (ak_RouteRules p) (ak_Entity p).
Definition with_remaining (q : option spec_float) (p : APIKeyParam) : APIKeyParam :=
  mkAPIKey (ak_ID p) (ak_Enable p) (ak_Status p) (ak_CreateTime p) (ak_UpdatedTime p) (ak_KeyCreateAt p) (ak_Key p)
    (ak_Description p) (ak_UnlimitedQuota p) (ak_ExpiredTime p) (ak_Models p) (ak_Subnet p) (ak_EntityID p)
    (ak_QuotaPlanID p) (ak_RateLimitPolicyID p) (ak_RouteRulesID p) (ak_ProductName p) (ak_InnerID p) q
    (ak_QuotaPlan p) (ak_Balance p) (ak_RateLimitPolicy p) (ak_RouteRules p) (ak_Entity p).
(** What a creation fills in. *)
Definition with_key_defaults (p : APIKeyParam) : APIKeyParam :=
  mkAPIKey (ak_ID p) (Some (default true (ak_Enable p))) (ak_Status p) (ak_CreateTime p) (ak_UpdatedTime p)
    (ak_KeyCreateAt p) (ak_Key p) (ak_Description p) (ak_UnlimitedQuota p) (ak_ExpiredTime p) (ak_Models p) (ak_Subnet p)
    (ak_EntityID p) (ak_QuotaPlanID p) (ak_RateLimitPolicyID p) (ak_RouteRulesID p) (ak_ProductName p) (ak_InnerID p)
    (ak_RemainingQuota p)
    (Some (default (mkSharedPlan (Some true) (Some false) None None None None) (ak_QuotaPlan p))) (ak_Balance p)
    (Some (default (mkRateLimitPolicy (Some false) (Some (mkRateLimitRules [] [] (Some 0%Z) None))) (ak_RateLimitPolicy p)))
    (Some (default (mkRouteRules None (Some false) []) (ak_RouteRules p))) (ak_Entity p).

Section Endpoints.
Context (PtrToRedisValue : spec_float -> option string -> Z).
Context (PtrFromRedisValue : Z -> option string -> spec_float).
Context (condition_Build : string -> bool) (MaxRMBQuota : spec_float).
Context (order : list string -> list string).
Context (em : EntityManager) (am : APIKeyManager) (qm : QuotaPlanManager).
(** [container.QuotaCacheSingleton], and whether the caller only may read. *)
Context (cache : option bool) (readonly : bool).

(** * Checks *)

(** [now] is what the check of the expiry reads from the clock; the requests
    below read it before the other checks, which do not. *)

Fixpoint checkAllowSubnet (cidrs : list string) : verdict :=
  match cidrs with [] => Accept | c :: l => CIDR c &> checkAllowSubnet l end.

Definition checkKey (key : option string) : verdict :=
  match given_text key with None => Refuse (ParamError "Must set key") | Some k => APIKeyValue k end.

Definition check_owned (now : gotime) (p : APIKeyParam) : verdict :=
  ExpiredTime now (ak_ExpiredTime p) &> RateLimitPolicy (ak_RateLimitPolicy p) &> QuotaPlan MaxRMBQuota (ak_QuotaPlan p) &>
  RouteRules condition_Build (ak_RouteRules p).

Definition check_description (p : APIKeyParam) : verdict :=
  match given_text (ak_Description p) with
  | None => Refuse (ParamError "description is required")
  | Some d => APIKeyDescription d
  end.

Definition checkCreateAPIKey (now : gotime) (p : APIKeyParam) : verdict :=
  check_description p &> checkAllowSubnet (ak_Subnet p) &> checkKey (ak_Key p) &> check_owned now p.

Definition checkUpdateAPIKey (now : gotime) (p : APIKeyParam) : verdict :=
  match ak_Description p with Some d => Description d MaxAPIDescriptionLength | None => Accept end &>
  checkAllowSubnet (ak_Subnet p) &>
  match ak_Key p with Some k => APIKeyValue k | None => Accept end &>
  check_owned now p.

Definition checkFullUpdateAPIKey (now : gotime) (p : APIKeyParam) : verdict :=
  check_description p &> checkUpdateAPIKey now p.

(** * Create *)

Definition APIKeyCreateProcess (param : APIKeyParam) : prog ownerE (result (option APIKeyParam)) :=
  param <-? match given_text (ak_Key param) with
            | Some _ => Ret (Ok param)
            | None => k <-? generateAPIKeyValue defaultProductName ;; Ret (Ok (with_key (Some k) param))
            end ;;
  now <- via (call ClockNow) ;;
  checked (checkCreateAPIKey now param)
  (found <-? match given_text (ak_EntityID param) with
             | None => Ret (Ok true)
             | Some e =>
                 r <-? call (FetchEntityRow (byEntityID (Some e))) ;;
                 Ret (Ok (match r with Some _ => true | None => false end))
             end ;;
   if negb found then Ret (Err (RecordNotExist "Entity")) else
   s <- call (AllocateKeyID defaultProductName) ;;
   match s with
   | Err _ => Ret (Err (ModelError "allocate api-key id sequence: %w"))
   | Ok n =>
       let id := "api-key-" +:+ FormatInt n in
       _ <-? CreateAPIKey PtrToRedisValue am (handed_key (Some id) (with_key_defaults param)) ;;
       FetchAPIKey PtrFromRedisValue am (byProductID (Some defaultProductName) (Some id))
   end).

(** * Update *)

(** Both updates; [full]: a description must be given. *)
Definition key_update_process (full : bool) (id : string) (param : APIKeyParam) : prog ownerE (result (option APIKeyParam)) :=
  let filter := byProductID (Some defaultProductName) (Some id) in
  now <- via (call ClockNow) ;;
  checked ((if full then checkFullUpdateAPIKey else checkUpdateAPIKey) now param)
  (existing <-? FetchAPIKey PtrFromRedisValue am filter ;;
   match existing with
   | None => Ret (Err (RecordNotExist "API-Key"))
   | Some existing =>
       found <-? match given_text (ak_EntityID param) with
                 | None => Ret (Ok true)
                 | Some e =>
                     r <-? FetchEntity PtrFromRedisValue em (byEntityID (Some e)) ;;
                     Ret (Ok (match r with Some _ => true | None => false end))
                 end ;;
       if negb found then Ret (Err (ParamError ("Entity not found: " +:+ default "" (ak_EntityID param)))) else
       _ <-? UpdateAPIKey am filter (handed_key None param) ;;
       updated <-? FetchAPIKey PtrFromRedisValue am filter ;;
       match ak_QuotaPlan param, field updated ak_QuotaPlanID with
       | Some plan, Some planID =>
           _ <-? via (ApplyQuotaPlanChange PtrToRedisValue PtrFromRedisValue qm planID (ak_QuotaPlan existing) (Some plan)) ;;
           Ret (Ok updated)
       | _, _ => Ret (Ok updated)
       end
   end).
Definition APIKeyUpdateProcess (id : string) (param : APIKeyParam) := key_update_process false id param.
Definition APIKeyFullUpdateProcess (id : string) (param : APIKeyParam) := key_update_process true id param.

(** * Delete and read *)

Definition DeleteAction (id : string) : prog ownerE (result unit) :=
  DeleteAPIKey am (byProductID (Some defaultProductName) (Some id)).

(** The remaining quota is read for every key; a caller who only may read sees
    its value masked. *)
Fixpoint newResponse (l : list APIKeyParam) : prog ownerE (result (list APIKeyParam)) :=
  match l with
  | [] => Ret (Ok [])
  | one :: l' =>
      one <-? match ak_Key one with
              | None => Ret (Ok one)
              | Some k =>
                  q <-? GetRemainingQuota PtrFromRedisValue cache one ;;
                  let one := with_remaining q one in
                  Ret (Ok (if readonly then with_key (Some (Secret k)) one else one))
              end ;;
      rest <-? newResponse l' ;;
      Ret (Ok (one :: rest))
  end.

Definition OneAction (id : string) : prog ownerE (result APIKeyParam) :=
  one <-? FetchAPIKey PtrFromRedisValue am (byProductID (Some defaultProductName) (Some id)) ;;
  match one with
  | None => Ret (Err (RecordNotExist "API-Key"))
  | Some one =>
      r <-? newResponse [one] ;;
      match r with [] => Ret (Err (PlainError "panic")) | x :: _ => Ret (Ok x) end
  end.

Definition key_list_filter (enabled unlimited : option bool) (entity : option string) (pages : option (Z * Z)) : APIKeyFilter :=
  mkKeyFilter (Some defaultProductName) None None None None None (fst <$> pages) (snd <$> pages) enabled entity unlimited.

(** The page, its size (zero without pages) and the total, which is that of
    all the keys of the product whatever the conditions are. *)
Definition ListAction (page size : option Z) (enabled unlimited : option bool) (entity : option string)
  : prog ownerE (result (list APIKeyParam * (Z * Z * Z))) :=
  checked (match page with Some p => refuse_if (p <=? 0)%Z "page must be > 0, got %d" | None => Accept end &>
           match size with
           | Some s => refuse_if ((s <=? 0) || (100 <? s))%Z "page_size must be between 1 and 100, got %d"
           | None => Accept
           end &>
           match entity with
           | Some e => refuse_if (64 <? String.length e)%nat "entity_id must be <= 64 characters, got %d"
           | None => Accept
           end)
  (let pages := page_request page size in
   l <-? FetchAPIKeyList PtrFromRedisValue order am (key_list_filter enabled unlimited entity pages) ;;
   l <-? newResponse l ;;
   match pages with
   | None => Ret (Ok (l, (0%Z, 0%Z, Z.of_nat (length l))))
   | Some (p, s) =>
       all <-? FetchAPIKeyList PtrFromRedisValue order am (key_list_filter None None None None) ;;
       Ret (Ok (l, (p, s, Z.of_nat (length all))))
   end).

(** * Quota plans *)

Definition GetQuotaPlanProcess (id : string) : prog ownerE (result (option (SharedPlan * option BalanceSummary))) :=
  k <-? FetchAPIKey PtrFromRedisValue am (byProductID (Some defaultProductName) (Some id)) ;;
  match k with
  | None => Ret (Err (RecordNotExist "API-Key"))
  | Some k => Ret (Ok (match ak_QuotaPlan k with Some plan => Some (plan, ak_Balance k) | None => None end))
  end.

Definition ResetQuotaAction (id : string) (quota : option spec_float) : prog ownerE (result ResetQuotaResponse) :=
  let filter := byProductID (Some defaultProductName) (Some id) in
  k <-? FetchAPIKey PtrFromRedisValue am filter ;;
  match k with
  | None => Ret (Err (RecordNotExist "API-Key"))
  | Some k =>
      match ak_QuotaPlanID k with
      | None => Ret (Err (ParamError "API-Key has no quota plan"))
      | Some planID =>
          plan <-? call (Quota (FetchQuotaPlanRow (byPlanID planID))) ;;
          let previousQuota := field plan qp_Quota in
          let unit_ := default "total_token" (given_text (field plan qp_Unit)) in
          checked (QuotaValue MaxRMBQuota quota unit_)
          (_ <-? via (ResetBalance PtrToRedisValue qm planID quota false id) ;;
           n <-? FetchAPIKey PtrFromRedisValue am filter ;;
           let newPlan := field n ak_QuotaPlan in
           let newRemaining := match newPlan with Some _ => remaining_of (field n ak_Balance) | None => f_zero end in
           let newQuota := match quota with
                           | Some q => Some q
                           | None => match newPlan with Some p => sh_Quota p | None => previousQuota end
                           end in
           let previousRemaining := match ak_QuotaPlan k with Some _ => remaining_of (ak_Balance k) | None => f_zero end in
           Ret (Ok (mkReset id previousQuota newQuota previousRemaining newRemaining)))
      end
  end.
End Endpoints.
