(* ===== verification/EntityRequests.v ===== *)
(** The tree of entities and what requests do to it, whatever calls fail.  Parents
    exist and stand on a lower level, so that every walk to the root ends, until
    the level of a type is changed under its entities. *)
From Stdlib Require Import ZArith Lia SpecFloat.
From stdpp Require Import base tactics numbers list strings gmap option.
From S2P Require Import Prelude GoStrings GoTime Prog QuotaModel QuotaManager XCrypto SharedTypes Validate OwnerModel OwnerCommon EntityManager ApiKeyManager OwnerEndpoints.

Local Open Scope string_scope.

(** * Types and entities as a tree *)

Definition tree : Type := list TEntityType * list TEntity.
Definition tree_of (d : odata) : tree := (od_types d, od_entities d).

Definition level_of (ts : list TEntityType) (type : string) : option Z :=
  tt_Level <$> List.find (where_type (byTypeName (Some type))) ts.
Definition entity_at (es : list TEntity) (id : string) : option TEntity := List.find (where_entity (byEntityID (Some id))) es.

(** A parent that a new child of a type may have. *)
Definition parent_ok (t : tree) (type parent : string) : Prop :=
  exists r l l', entity_at t.2 parent = Some r /\ level_of t.1 type = Some l /\ level_of t.1 (te_Type r) = Some l' /\ (l' < l)%Z.

Record forest (t : tree) : Prop := {
  fo_types : NoDup (map tt_TypeName t.1);
  fo_ids : NoDup (map te_EntityID t.2);
  fo_names : NoDup (map te_Name t.2);
  fo_edges : forall r p, r ∈ t.2 -> te_ParentID r = Some p -> p <> "" -> parent_ok t (te_Type r) p
}.

(** ** Looking up *)

Lemma where_id id r : where_entity (byEntityID (Some id)) r = bool_decide (id = te_EntityID r).
Proof. unfold where_entity. cbn. by rewrite !andb_true_r. Qed.
Lemma where_name n r : where_type (byTypeName (Some n)) r = bool_decide (n = tt_TypeName r).
Proof. unfold where_type. cbn. by rewrite andb_true_r. Qed.

Lemma find_key {A} (key : A -> string) (hit : string -> A -> bool) (l : list A) k a :
  (forall x y, hit x y = bool_decide (x = key y)) -> NoDup (map key l) ->
  List.find (hit k) l = Some a <-> a ∈ l /\ key a = k.
Proof.
  intros Hh. induction l as [|b l IH]; cbn [List.find map]; [by rewrite elem_of_nil; split; [|intros [[] _]]|].
  rewrite list.NoDup_cons. intros [Hn Hl]. rewrite Hh, elem_of_cons. case_bool_decide as Hb.
  - split; [intros [= ->]; auto|]. intros [[->|Hin] Hk]; [done|]. exfalso. apply Hn. rewrite <- Hb, <- Hk.
    apply list_elem_of_In, in_map. by apply list_elem_of_In.
  - rewrite IH by done. split; [tauto|]. intros [[->|Hin] Hk]; [by rewrite Hk in Hb|done].
Qed.

Lemma entity_at_iff es id r : NoDup (map te_EntityID es) -> entity_at es id = Some r <-> r ∈ es /\ te_EntityID r = id.
Proof. apply (find_key te_EntityID (fun i => where_entity (byEntityID (Some i)))). intros. apply where_id. Qed.

Lemma find_app {A} (f : A -> bool) l l' a : List.find f l = Some a -> List.find f (l ++ l')%list = Some a.
Proof. induction l as [|b l IH]; cbn; [done|]. by destruct (f b). Qed.

Lemma find_map_keep {A} (f : A -> bool) (g : A -> A) l a :
  (forall x, x ∈ l -> f (g x) = f x) -> List.find f l = Some a -> List.find f (map g l) = Some (g a).
Proof.
  induction l as [|b l IH]; intros Hf; cbn; [done|]. rewrite Hf by left.
  destruct (f b); [by intros [= ->]|]. apply IH. intros x Hx. apply Hf. by right.
Qed.

Lemma find_without {A} (f hit : A -> bool) l a :
  hit a = false -> List.find f l = Some a -> (forall x, x ∈ l -> f x = true -> hit x = false) ->
  List.find f (without hit l) = Some a.
Proof.
  intros Ha. induction l as [|b l IH]; cbn; [done|]. intros Hf Hh. destruct (f b) eqn:Eb.
  - injection Hf as ->. rewrite Ha. cbn. by rewrite Eb.
  - destruct (hit b); cbn; [|rewrite Eb]; apply IH; try done; intros x Hx; apply Hh; by right.
Qed.

Lemma elem_without {A} (hit : A -> bool) l a : a ∈ without hit l <-> a ∈ l /\ hit a = false.
Proof. unfold without. rewrite list_elem_of_In, filter_In, <- list_elem_of_In, negb_true_iff. done. Qed.

Lemma NoDup_without {A B} (hit : A -> bool) (f : A -> B) l : NoDup (map f l) -> NoDup (map f (without hit l)).
Proof.
  induction l as [|a l IH]; [done|]. cbn [map]. rewrite list.NoDup_cons. intros [Hn Hl]. unfold without. cbn [List.filter].
  destruct (negb (hit a)); [|by apply IH]. cbn [map]. rewrite list.NoDup_cons. split; [|by apply IH].
  intros Hin. apply Hn. apply list_elem_of_In, in_map_iff in Hin as (b & Hb & Hin). apply list_elem_of_In in Hin.
  apply elem_without in Hin as [Hin _]. apply list_elem_of_In, in_map_iff. exists b. split; [done|by apply list_elem_of_In].
Qed.

Lemma unique_iff l : entities_unique l = true <-> NoDup (map te_EntityID l) /\ NoDup (map te_Name l).
Proof. unfold entities_unique. by rewrite andb_true_iff, !bool_decide_eq_true. Qed.

(** The rows with an id: at most one. *)
Lemma list_by_id es id : NoDup (map te_EntityID es) ->
  list_entities (byEntityID (Some id)) es = match entity_at es id with Some r => [r] | None => [] end.
Proof.
  unfold list_entities, entity_at. cbn [page_of ef_Page ef_PageSize byEntityID]. induction es as [|r es IH]; [done|].
  cbn [map List.filter List.find]. rewrite list.NoDup_cons. intros [Hn He]. rewrite IH by done.
  destruct (where_entity _ r) eqn:Er; [|done]. destruct (List.find _ es) as [x|] eqn:Ex; [|done]. exfalso. apply Hn.
  apply (entity_at_iff es id x He) in Ex as [Hx <-]. rewrite where_id in Er. apply bool_decide_eq_true in Er as <-.
  apply list_elem_of_In, in_map. by apply list_elem_of_In.
Qed.

Lemma list_by_parent es id : list_entities (byParentID (Some id)) es = [] -> forall r, r ∈ es -> te_ParentID r <> Some id.
Proof.
  unfold list_entities. cbn [page_of ef_Page ef_PageSize byParentID]. intros Hl r Hr Hp.
  assert (In r (List.filter (where_entity (byParentID (Some id))) es)) as Hin; [|by rewrite Hl in Hin].
  apply filter_In. split; [by apply list_elem_of_In|]. unfold where_entity. cbn. rewrite Hp. by rewrite bool_decide_true.
Qed.

Lemma list_by_type es ty : list_entities (byEntityType (Some ty)) es = [] -> forall r, r ∈ es -> te_Type r <> ty.
Proof.
  unfold list_entities. cbn [page_of ef_Page ef_PageSize byEntityType]. intros Hl r Hr Hp.
  assert (In r (List.filter (where_entity (byEntityType (Some ty))) es)) as Hin; [|by rewrite Hl in Hin].
  apply filter_In. split; [by apply list_elem_of_In|]. unfold where_entity. cbn. rewrite Hp. by rewrite bool_decide_true.
Qed.

(** * Changes of the tree *)

Lemma forest_insert_entity t row : forest t ->
  entities_unique (t.2 ++ [row])%list = true ->
  (forall p, te_ParentID row = Some p -> p <> "" -> parent_ok t (te_Type row) p) ->
  forest (t.1, (t.2 ++ [row])%list).
Proof.
  intros [Ht Hi Hn He] [Hi' Hn']%unique_iff Hr.
  assert (forall ty p, parent_ok t ty p -> parent_ok (t.1, (t.2 ++ [row])%list) ty p) as Hup.
  { intros ty p (r & l & l' & H1 & H). exists r, l, l'. split; [by apply find_app|done]. }
  split; [done..|]. cbn [snd]. intros r p [Hin| ->%list_elem_of_singleton]%elem_of_app Hp Hne; apply Hup; [by apply (He r)|].
  by apply Hr.
Qed.

(** An update of one entity that keeps its id and its type. *)
Lemma forest_update_entity t id (g : TEntity -> TEntity) : forest t ->
  let f r := if where_entity (byEntityID (Some id)) r then g r else r in
  entities_unique (map f t.2) = true ->
  (forall r, r ∈ t.2 -> te_EntityID r = id -> te_EntityID (g r) = te_EntityID r) ->
  (forall r, r ∈ t.2 -> te_EntityID r = id -> te_Type (g r) = te_Type r) ->
  (forall r p, r ∈ t.2 -> te_EntityID r = id -> te_ParentID (g r) = Some p -> p <> "" -> parent_ok t (te_Type r) p) ->
  forest (t.1, map f t.2).
Proof.
  intros [Ht Hi Hn He] f [Hi' Hn']%unique_iff Hid Hty Hpar. split; [done..|]. cbn [snd].
  assert (forall r, r ∈ t.2 -> te_EntityID (f r) = te_EntityID r) as Hfid.
  { intros r Hin. unfold f. rewrite where_id. case_bool_decide as Hb; [|done]. by apply Hid. }
  assert (forall r, r ∈ t.2 -> te_Type (f r) = te_Type r) as Hfty.
  { intros r Hin. unfold f. rewrite where_id. case_bool_decide as Hb; [|done]. by apply Hty. }
  assert (forall ty p, parent_ok t ty p -> parent_ok (t.1, map f t.2) ty p) as Hup.
  { intros ty p (r & l & l' & H1 & H2 & H3 & H4). exists (f r), l, l'. split.
    - apply find_map_keep; [|done]. intros x Hx. rewrite !where_id. by rewrite Hfid.
    - rewrite Hfty; [done|]. by apply (entity_at_iff t.2 p). }
  intros r' p (r & Hr' & Hin)%list_elem_of_In%in_map_iff Hp Hne. apply list_elem_of_In in Hin. subst r'.
  rewrite Hfty by done. apply Hup. unfold f in Hp. rewrite where_id in Hp. case_bool_decide as Hb; [by apply Hpar|by apply (He r)].
Qed.

Lemma forest_delete_entity t id : forest t -> (forall r, r ∈ t.2 -> te_ParentID r <> Some id) ->
  forest (t.1, without (where_entity (byEntityID (Some id))) t.2).
Proof.
  intros [Ht Hi Hn He] Hc. split; cbn [fst snd]; [done|by apply NoDup_without..|].
  intros r p [Hin Hid]%elem_without Hp Hne. destruct (He r p Hin Hp Hne) as (x & l & l' & Hx & H).
  exists x, l, l'. split; [|done]. cbn [snd]. apply find_without; [|done|].
  - apply (entity_at_iff t.2 p) in Hx as [_ Hx]; [|done]. rewrite where_id. apply bool_decide_eq_false. intros ->.
    apply (Hc r Hin). by rewrite Hp, Hx.
  - intros y _. rewrite !where_id, bool_decide_eq_true, bool_decide_eq_false. intros Hpy Hiy. apply (Hc r Hin). congruence.
Qed.

Lemma forest_levels t ts : forest t -> NoDup (map tt_TypeName ts) ->
  (forall r, r ∈ t.2 -> level_of ts (te_Type r) = level_of t.1 (te_Type r) \/ level_of t.1 (te_Type r) = None) ->
  forest (ts, t.2).
Proof.
  intros [Ht Hi Hn He] Hts Hl. split; [done..|]. cbn [snd]. intros r p Hin Hp Hne.
  destruct (He r p Hin Hp Hne) as (x & l & l' & Hx & H1 & H2 & H3). exists x, l, l'. split; [done|]. cbn [fst].
  destruct (Hl r Hin) as [->|]; [|congruence]. apply (entity_at_iff t.2 p) in Hx as [Hx _]; [|done].
  destruct (Hl x Hx) as [->|]; [|congruence]. done.
Qed.

(** * Calls that leave the tree alone *)

Definition tree_neutral (R : Type) (e : ownerE R) : Prop :=
  match e with
  | CreateEntityTypeRow _ | UpdateEntityTypeRow _ _ | DeleteEntityTypeRow _
  | CreateEntityRow _ | UpdateEntityRow _ _ | DeleteEntityRow _ => False
  | _ => True
  end.
(** Statements inside of a transaction. *)
Definition tree_statement (R : Type) (e : ownerE R) : Prop :=
  match e with
  | Quota e => match e with TxBegin | TxCommit | TxRollback => False | _ => True end
  | e => tree_neutral _ e
  end.

(** Between transactions, and inside of one.  A rollback that no transaction
    asked for would give a forest as well. *)
Definition settled (t : tree) (w : oworld) : Prop :=
  tree_of (ow_data w) = t /\ forall d, ow_saved w = Some d -> forest (tree_of d).
Definition in_txn (t t' : tree) (w : oworld) : Prop :=
  tree_of (ow_data w) = t' /\ exists d, ow_saved w = Some d /\ tree_of d = t.

Section Calls.
Context {CR : Crypto}.

Lemma inserting_saved {A} tb w (row : option A) l u put : ow_saved (inserting tb w row l u put).2 = ow_saved w.
Proof. unfold inserting. destruct row; [|done]. by destruct (u _). Qed.
Lemma updating_saved {A} w (hit : A -> bool) set l u put : ow_saved (updating w hit set l u put).2 = ow_saved w.
Proof. unfold updating. by destruct (u _). Qed.

Lemma inserting_tree {A} tb w (row : option A) l u put : (forall l d, tree_of (put l d) = tree_of d) ->
  tree_of (ow_data (inserting tb w row l u put).2) = tree_of (ow_data w).
Proof. intros Hp. unfold inserting. destruct row; [|done]. destruct (u _); [apply Hp|done]. Qed.
Lemma updating_tree {A} w (hit : A -> bool) set l u put : (forall l d, tree_of (put l d) = tree_of d) ->
  tree_of (ow_data (updating w hit set l u put).2) = tree_of (ow_data w).
Proof. intros Hp. unfold updating. destruct (u _); [apply Hp|done]. Qed.

Lemma quota_statement_keeps {R} (e : quotaE R) w : tree_statement R (Quota e) ->
  ow_data (quota_via e w).2 = ow_data w /\ ow_saved (quota_via e w).2 = ow_saved w.
Proof. destruct e; try done; intros _; cbn; repeat case_match; done. Qed.

Lemma statement_keeps R (e : ownerE R) w : tree_statement R e ->
  tree_of (ow_data (handle e w).2) = tree_of (ow_data w) /\ ow_saved (handle e w).2 = ow_saved w.
Proof.
  intros He. destruct e as [R e| | | | | | | | | | | | | | | | | | | | | | | | | | | | | | |]; try done.
  { destruct (quota_statement_keeps e w He) as [Hd Hs]. cbn. by rewrite Hd. }
  all: cbn -[inserting updating];
    try (split; [apply inserting_tree; by intros|apply inserting_saved]);
    try (split; [apply updating_tree; by intros|apply updating_saved]).
  - destruct (stored_key _ _ _); [|done]. cbn -[inserting]. split; [rewrite inserting_tree by (by intros); done|by rewrite inserting_saved].
  - destruct (stored_key _ _ _); [|done]. cbn -[updating]. split; [rewrite updating_tree by (by intros); done|by rewrite updating_saved].
  - destruct (updating _ _ _ _ _ _) as [r w'] eqn:E. cbn. change w' with (r, w').2. rewrite <- E.
    split; [by apply updating_tree|apply updating_saved].
Qed.

Lemma statement_in_txn t t' R (e : ownerE R) w : tree_statement R e -> in_txn t t' w -> in_txn t t' (handle e w).2.
Proof. intros He [Hd Hs]. destruct (statement_keeps R e w He) as [H1 H2]. split; [by rewrite H1|by rewrite H2]. Qed.

Lemma statement_settled t R (e : ownerE R) w : tree_statement R e -> settled t w -> settled t (handle e w).2.
Proof. intros He [Hd Hs]. destruct (statement_keeps R e w He) as [H1 H2]. split; [by rewrite H1|by rewrite H2]. Qed.

Lemma hoare_settled {A} t (p : prog ownerE A) : all_calls tree_statement p -> hoare (settled t) p (fun _ => settled t).
Proof. apply hoare_keeps. intros R e w. apply statement_settled. Qed.
Lemma hoare_in_txn {A} t t' (p : prog ownerE A) : all_calls tree_statement p -> hoare (in_txn t t') p (fun _ => in_txn t t').
Proof. apply hoare_keeps. intros R e w. apply statement_in_txn. Qed.

Lemma via_neutral {A} (p : prog quotaE A) : all_calls tree_neutral (via p).
Proof. induction p; constructor; auto. by destruct e. Qed.

(** ** Transactions *)

Lemma hoare_atom {A} t (init : A) (body : prog ownerE (option goerr * A)) (Q : A -> tree -> Prop) : forest t ->
  hoare (in_txn t t) body (fun r w => exists t', in_txn t t' w /\ (r.1 = None -> Q r.2 t')) ->
  hoare (settled t) (AtomExecute init body)
    (fun r w => match r.1 with Some _ => settled t w \/ exists t', settled t' w /\ Q r.2 t' | None => exists t', settled t' w /\ Q r.2 t' end).
Proof.
  intros Ht Hb. unfold AtomExecute.
  apply (hoare_bind _ _ _ (fun b w => match b with Ok _ => in_txn t t w | Err _ => settled t w end)).
  { apply hoare_call_cases.
    - intros w [Hd Hs]. cbn. split; [done|]. by exists (ow_data w).
    - intros w r [Hd Hs] [= <-]. split; [done|]. split; cbn; [done|]. intros d [= <-]. by rewrite Hd. }
  intros [[]|e]; [|apply hoare_ret; by left].
  assert (forall o t' w, in_txn t t' w -> settled t (answer o (Quota TxRollback) w).2) as Hroll.
  { intros o t' w [_ (d & Hs & Hd)]. destruct o; cbn; rewrite Hs; by split. }
  eapply hoare_bind; [exact Hb|]. intros [[e|] a]; cbn [fst snd].
  - apply (hoare_bind _ _ _ (fun _ => settled t)); [|intros []; apply hoare_ret; by left].
    apply hoare_call. intros o w (t' & Hw & _). by eapply Hroll.
  - apply (hoare_bind _ _ _ (fun c w => (exists t', (settled t' w /\ ow_saved w = None) /\ Q a t') \/ c = Err DaoError /\ exists t', in_txn t t' w)).
    + apply hoare_call. intros o w (t' & Hw & HQ). pose proof Hw as [Hd _].
      destruct o; cbn; first [right; split; [done|by exists t']|left; exists t'; split; [by repeat split|by apply HQ]].
    + intros [[]|e]; [apply hoare_ret; intros w [(t' & [? _] & ?)|[? _]]; [by exists t'|done]|].
      apply (hoare_bind _ _ _ (fun _ w => settled t w \/ exists t', settled t' w /\ Q a t')); [|intros []; apply hoare_ret; by intros].
      apply hoare_call. intros o w [(t' & [[Hd _] Hs] & HQ)|(_ & t' & Hw)]; [right|left; by eapply Hroll].
      exists t'. split; [|done]. destruct o; cbn; rewrite Hs; by split.
Qed.

(** ** Programs that keep the forest *)

(** Every run of the program from a settled forest ends in one. *)
Definition grows {A} (p : prog ownerE A) : Prop :=
  forall t, forest t -> hoare (settled t) p (fun _ w => exists t', settled t' w /\ forest t').

Lemma neutral_grows R (e : ownerE R) w : tree_neutral R e ->
  (exists t, settled t w /\ forest t) -> exists t, settled t (handle e w).2 /\ forest t.
Proof.
  intros He (t & Hw & Ht). assert (tree_statement R e -> exists t, settled t (handle e w).2 /\ forest t) as Hst
    by (exists t; split; [by apply statement_settled|done]).
  destruct e as [R e| | | | | | | | | | | | | | | | | | | | | | | | | | | | | | |]; try (by apply Hst).
  destruct Hw as [Hd Hs]. destruct e; try (by apply Hst); cbn.
  - exists t. split; [|done]. split; cbn; [done|]. intros d [= <-]. by rewrite Hd.
  - by exists t.
  - destruct (ow_saved w) as [d|] eqn:E; cbn; [exists (tree_of d)|exists t]; (split; [by split|]); [by apply Hs|done].
Qed.

Lemma grows_ret {A} (a : A) : grows (Ret a).
Proof. intros t Ht. apply hoare_ret. intros w Hw. by exists t. Qed.
Lemma grows_neutral {A} (p : prog ownerE A) : all_calls tree_neutral p -> grows p.
Proof.
  intros Hp t Ht. eapply (hoare_weaken _ (fun w => exists t, settled t w /\ forest t)); [by exists t| |].
  2: { apply (hoare_keeps tree_neutral); [|done]. intros R e w. apply neutral_grows. }
  done.
Qed.
(** After a transaction that reports an error: it has left the tree alone, or
    it was done. *)
Lemma grows_either {A} t (p : prog ownerE A) : all_calls tree_neutral p -> forest t ->
  hoare (fun w => settled t w \/ exists t', settled t' w /\ forest t') p (fun _ w => exists t', settled t' w /\ forest t').
Proof.
  intros Hp Ht. apply (hoare_weaken _ (fun w => exists t', settled t' w /\ forest t') _ _ (fun _ w => exists t', settled t' w /\ forest t')); [intros w [Hw|Hw]; [by exists t|done]|done|].
  apply hoare_exists. intros t'. apply hoare_fact. intros Ht'. by apply grows_neutral.
Qed.
Lemma grows_bind {A B} (p : prog ownerE A) (f : A -> prog ownerE B) : grows p -> (forall a, grows (f a)) -> grows (bind p f).
Proof.
  intros Hp Hf t Ht. eapply hoare_bind; [by apply Hp|]. intros a. apply hoare_exists. intros t'. apply hoare_fact. apply Hf.
Qed.
Lemma grows_try {A B} (p : prog ownerE (result A)) (f : A -> prog ownerE (result B)) :
  grows p -> (forall a, grows (f a)) -> grows (bind p (fun r => match r with Ok x => f x | Err e => Ret (Err e) end)).
Proof. intros Hp Hf. apply grows_bind; [done|]. intros [a|e]; [apply Hf|apply grows_ret]. Qed.
Lemma grows_checked {A} v (k : prog ownerE (result A)) : grows k -> grows (checked v k).
Proof. intros Hk. destruct v; [done|apply grows_ret..]. Qed.

(** ** Single calls *)

(** A query answers what a function of the tree says, or fails: the rest of
    the program runs on either answer. *)
Lemma hoare_query {X B} (I : tree -> oworld -> Prop) t (e : ownerE (result X)) (val : tree -> X)
    (k : result X -> prog ownerE B) (Post : B -> oworld -> Prop) :
  (forall w, I t w -> I t (handle e w).2) -> (forall w, I t w -> (handle e w).1 = Ok (val t)) ->
  fault e = Some (Err DaoError) ->
  hoare (I t) (k (Err DaoError)) Post -> hoare (I t) (k (Ok (val t))) Post -> hoare (I t) (bind (call e) k) Post.
Proof.
  intros Hn Hv Hf He Ho. apply (hoare_bind _ _ _ (fun r w => (r = Err DaoError \/ r = Ok (val t)) /\ I t w)).
  - apply hoare_call_cases.
    + intros w Hw. rewrite Hv by done. split; [by right|by apply Hn].
    + intros w r Hw. rewrite Hf. intros [= <-]. split; (split; [by left|]); [done|by apply Hn].
  - intros r. apply hoare_pure. by intros [->| ->].
Qed.

Definition found_type (f : EntityTypeFilter) (t : tree) : option EntityTypeParam :=
  entityTypeParamToData <$> List.find (where_type f) t.1.
Definition found_entity (f : EntityFilter) (t : tree) : option EntityParam :=
  entityParamToData <$> List.find (where_entity f) t.2.
Definition found_entities (f : EntityFilter) (t : tree) : list EntityParam :=
  map entityParamToData (list_entities f t.2).

Section Queries.
Context {B : Type} (t t0 : tree) (Post : B -> oworld -> Prop).

Lemma hoare_fetch_type f k : hoare (settled t) (k (Err DaoError)) Post -> hoare (settled t) (k (Ok (found_type f t))) Post ->
  hoare (settled t) (bind (call (FetchEntityTypeRow f)) k) Post.
Proof. apply hoare_query; [intros w; by apply statement_settled|by intros w [<- _]|done]. Qed.
Lemma hoare_fetch_entity f k : hoare (settled t) (k (Err DaoError)) Post -> hoare (settled t) (k (Ok (found_entity f t))) Post ->
  hoare (settled t) (bind (call (FetchEntityRow f)) k) Post.
Proof. apply hoare_query; [intros w; by apply statement_settled|by intros w [<- _]|done]. Qed.
Lemma hoare_fetch_entities f k : hoare (settled t) (k (Err DaoError)) Post -> hoare (settled t) (k (Ok (found_entities f t))) Post ->
  hoare (settled t) (bind (call (FetchEntityRows f)) k) Post.
Proof. apply hoare_query; [intros w; by apply statement_settled|by intros w [<- _]|done]. Qed.
Lemma hoare_txn_entity f k : hoare (in_txn t0 t) (k (Err DaoError)) Post -> hoare (in_txn t0 t) (k (Ok (found_entity f t))) Post ->
  hoare (in_txn t0 t) (bind (call (FetchEntityRow f)) k) Post.
Proof. apply hoare_query; [intros w; by apply statement_in_txn|by intros w [<- _]|done]. Qed.
Lemma hoare_txn_entities f k : hoare (in_txn t0 t) (k (Err DaoError)) Post -> hoare (in_txn t0 t) (k (Ok (found_entities f t))) Post ->
  hoare (in_txn t0 t) (bind (call (FetchEntityRows f)) k) Post.
Proof. apply hoare_query; [intros w; by apply statement_in_txn|by intros w [<- _]|done]. Qed.

(** Programs that leave the tree alone, followed by others. *)
Lemma hoare_settled_bind {A} (p : prog ownerE A) k : all_calls tree_statement p -> (forall a, hoare (settled t) (k a) Post) ->
  hoare (settled t) (bind p k) Post.
Proof. intros Hp Hk. by apply (hoare_bind _ _ _ (fun _ => settled t)); [apply hoare_settled|]. Qed.
Lemma hoare_txn_bind {A} (p : prog ownerE A) k : all_calls tree_statement p -> (forall a, hoare (in_txn t0 t) (k a) Post) ->
  hoare (in_txn t0 t) (bind p k) Post.
Proof. intros Hp Hk. by apply (hoare_bind _ _ _ (fun _ => in_txn t0 t)); [apply hoare_in_txn|]. Qed.
End Queries.

(** The writes: an error may come before or after the effect, which the
    transaction will undo. *)
Lemma hoare_create_entity t p : hoare (in_txn t t) (call (CreateEntityRow p)) (fun r w => exists t', in_txn t t' w /\
  forall n, r = Ok n -> exists id now row, insert_entity id now p = Some row /\ entities_unique (t.2 ++ [row])%list = true /\
    t' = (t.1, (t.2 ++ [row])%list)).
Proof.
  assert (forall w, in_txn t t w -> exists t', in_txn t t' (handle (CreateEntityRow p) w).2 /\
    forall n, (handle (CreateEntityRow p) w).1 = Ok n -> exists id now row, insert_entity id now p = Some row /\
      entities_unique (t.2 ++ [row])%list = true /\ t' = (t.1, (t.2 ++ [row])%list)) as H.
  { intros w [Hd Hs]. cbn -[entities_unique]. unfold inserting. destruct (insert_entity _ _ _) as [row|] eqn:Er; [|by exists t].
    assert (od_entities (ow_data w) = t.2 /\ od_types (ow_data w) = t.1) as [-> Ht] by (rewrite <- Hd; done).
    destruct (entities_unique _) eqn:Eu; [|by exists t]. eexists. split; [split; [reflexivity|done]|].
    intros n _. exists (ow_next w Entities), (ow_now w), row. split; [done|]. split; [done|]. cbn. unfold tree_of. cbn. by rewrite Ht. }
  apply hoare_call_cases; [apply H|]. intros w r Hw [= <-]. split; [by exists t|].
  destruct (H w Hw) as (t' & Ht' & _). by exists t'.
Qed.

Lemma hoare_update_entity t f p : hoare (in_txn t t) (call (UpdateEntityRow f p)) (fun r w => exists t', in_txn t t' w /\
  forall n, r = Ok n -> exists now, let g r := if where_entity f r then assign_entity now p r else r in
    entities_unique (map g t.2) = true /\ t' = (t.1, map g t.2)).
Proof.
  assert (forall w, in_txn t t w -> exists t', in_txn t t' (handle (UpdateEntityRow f p) w).2 /\
    forall n, (handle (UpdateEntityRow f p) w).1 = Ok n -> exists now, let g r := if where_entity f r then assign_entity now p r else r in
      entities_unique (map g t.2) = true /\ t' = (t.1, map g t.2)) as H.
  { intros w [Hd Hs]. cbn -[entities_unique where_entity assign_entity]. unfold updating. 
    assert (od_entities (ow_data w) = t.2 /\ od_types (ow_data w) = t.1) as [-> Ht] by (rewrite <- Hd; done).
    destruct (entities_unique _) eqn:Eu; [|by exists t]. eexists. split; [split; [reflexivity|done]|].
    intros n _. exists (ow_now w). split; [done|]. unfold tree_of. cbn -[where_entity assign_entity]. by rewrite Ht. }
  apply hoare_call_cases; [apply H|]. intros w r Hw [= <-]. split; [by exists t|].
  destruct (H w Hw) as (t' & Ht' & _). by exists t'.
Qed.

Lemma hoare_delete_entity t f : hoare (in_txn t t) (call (DeleteEntityRow f)) (fun r w => exists t', in_txn t t' w /\
  (r = Ok tt -> t' = (t.1, without (where_entity f) t.2))).
Proof.
  assert (forall w, in_txn t t w -> in_txn t (t.1, without (where_entity f) t.2) (handle (DeleteEntityRow f) w).2) as H.
  { intros w [Hd Hs]. split; [|done]. cbn. rewrite <- Hd. done. }
  apply hoare_call_cases; [intros w Hw; eexists; split; [by apply H|done]|].
  intros w r Hw [= <-]. split; [by exists t|]. eexists. split; [by apply H|done].
Qed.
End Calls.

Create HintDb tree.

Ltac tree_go := repeat first [calls_step | solve [auto with tree] | exact I | progress cbn [via bind call]].

(** * Programs that leave the tree alone *)

Section Neutral.
Lemma statement_neutral R (e : ownerE R) : tree_statement R e -> tree_neutral R e.
Proof. destruct e as [R e| | | | | | | | | | | | | | | | | | | | | | | | | | | | | | |]; try done. Qed.

Lemma calls_neutral {A} (p : prog ownerE A) : all_calls tree_statement p -> all_calls tree_neutral p.
Proof. apply all_calls_weaken. intros R e. apply statement_neutral. Qed.

Lemma st_create_plan b p : all_calls tree_statement (create_plan b p).
Proof. unfold create_plan, adapterCreate. tree_go. Qed.
Lemma st_create_policy b p : all_calls tree_statement (create_policy b p).
Proof. unfold create_policy, policyAdapterCreate. tree_go. Qed.
Lemma st_create_route b ty o p : all_calls tree_statement (create_route b ty o p).
Proof. unfold create_route. tree_go. Qed.
Lemma st_change_plan b h p : all_calls tree_statement (change_plan b h p).
Proof. unfold change_plan, adapterUpdate. destruct h, p; try apply st_create_plan. tree_go. Qed.
Lemma st_change_route b h ty o p : all_calls tree_statement (change_route b h ty o p).
Proof. unfold change_route. destruct h, p; try apply st_create_route. tree_go. Qed.
Lemma st_policyAdapterFetch i : all_calls tree_statement (policyAdapterFetch i).
Proof. unfold policyAdapterFetch. tree_go. Qed.
Lemma st_adapterFetch i : all_calls tree_statement (via (adapterFetch i)).
Proof. unfold adapterFetch. cbn [via bind call]. constructor; [exact I|]. intros [[p|]|e]; constructor. Qed.
Lemma st_change_policy b h p : all_calls tree_statement (change_policy b h p).
Proof.
  unfold change_policy. pose proof st_policyAdapterFetch. pose proof st_create_policy. unfold policyAdapterUpdate.
  destruct h, p; tree_go; auto.
Qed.
Lemma st_soft_plan b i : all_calls tree_statement (soft_plan b i).
Proof. unfold soft_plan. pose proof st_adapterFetch. tree_go; auto. Qed.
Lemma st_old_policy b i : all_calls tree_statement (old_policy b i).
Proof. unfold old_policy. pose proof st_policyAdapterFetch. tree_go; auto. Qed.
Lemma st_delete_owned a b c i j k : all_calls tree_statement (delete_owned a b c i j k).
Proof. unfold delete_owned, adapterDelete, policyAdapterDelete. cbv zeta. tree_go. Qed.

Lemma ne_cleanupRedisKeys c q l : all_calls tree_neutral (cleanupRedisKeys c q l).
Proof. unfold cleanupRedisKeys. pose proof (@via_neutral). tree_go; auto. Qed.

Lemma ne_record m a i b c e : all_calls tree_neutral (recordEntityOperation m a i b c e).
Proof. unfold recordEntityOperation. tree_go. Qed.
Lemma ne_recordType l a i b c e : all_calls tree_neutral (recordEntityTypeOperation l a i b c e).
Proof. unfold recordEntityTypeOperation. tree_go. Qed.
Lemma ne_audit_plan m f : all_calls tree_neutral (audit_plan m f).
Proof. unfold audit_plan. destruct (em_planAuditor m); [apply via_neutral|constructor]. Qed.
Lemma ne_recordPolicy m a i b c d e : all_calls tree_neutral (recordRateLimitPolicyOperation m a i b c d e).
Proof. unfold recordRateLimitPolicyOperation. tree_go. Qed.

Lemma ne_planCreate m p i e : all_calls tree_neutral (auditNestedQuotaPlanCreate m p i e).
Proof. unfold auditNestedQuotaPlanCreate. pose proof ne_audit_plan. tree_go; auto. Qed.
Lemma ne_planChange m o p i q e : all_calls tree_neutral (auditNestedQuotaPlanChange m o p i q e).
Proof. unfold auditNestedQuotaPlanChange. pose proof ne_audit_plan. tree_go; auto. Qed.
Lemma ne_planDelete m o p e : all_calls tree_neutral (auditNestedQuotaPlanDelete m o p e).
Proof. unfold auditNestedQuotaPlanDelete. pose proof ne_audit_plan. tree_go; auto. Qed.
Lemma ne_policyCreate m p i e : all_calls tree_neutral (auditNestedRateLimitPolicyCreate m p i e).
Proof.
  unfold auditNestedRateLimitPolicyCreate, audit_policy, AuditRateLimitPolicyCreate. pose proof ne_recordPolicy. tree_go; auto.
Qed.
Lemma ne_policyChange m o p i q e : all_calls tree_neutral (auditNestedRateLimitPolicyChange m o p i q e).
Proof.
  unfold auditNestedRateLimitPolicyChange, audit_policy, AuditRateLimitPolicyUpdate, AuditRateLimitPolicyCreate.
  pose proof ne_recordPolicy. tree_go; auto.
Qed.
Lemma ne_policyDelete m o p e : all_calls tree_neutral (auditNestedRateLimitPolicyDelete m o p e).
Proof. unfold auditNestedRateLimitPolicyDelete, audit_policy, AuditRateLimitPolicyDelete. pose proof ne_recordPolicy. tree_go; auto. Qed.
End Neutral.

#[export] Hint Resolve via_neutral st_create_plan st_create_policy st_create_route st_change_plan st_change_route
  st_policyAdapterFetch st_adapterFetch st_change_policy st_soft_plan st_old_policy st_delete_owned calls_neutral
  ne_cleanupRedisKeys ne_record ne_recordType ne_planCreate ne_planChange ne_planDelete ne_policyCreate ne_policyChange
  ne_policyDelete : tree.

Lemma ne_atom {A} (init : A) body : all_calls tree_neutral body -> all_calls tree_neutral (AtomExecute init body).
Proof. intros Hb. unfold AtomExecute. tree_go. Qed.

(** * The manager *)

Section Manager.
Context {CR : Crypto} (To : spec_float -> option string -> Z) (From : Z -> option string -> spec_float).
Context (m : EntityManager) (Hm : em_hasTypes m = true).

Lemma hoare_checkEntityLevel t type parent :
  hoare (settled t) (checkEntityLevel m type parent) (fun r w => settled t w /\ (r = None -> parent_ok t type parent)).
Proof.
  unfold checkEntityLevel. rewrite Hm. cbn [negb].
  apply hoare_fetch_type; [by apply hoare_ret|]. unfold found_type.
  destruct (List.find _ t.1) as [ty|] eqn:Et; cbn [fmap option_fmap option_map entityTypeParamToData ty_Level]; [|by apply hoare_ret].
  apply hoare_fetch_entity; [by apply hoare_ret|]. unfold found_entity.
  destruct (List.find _ t.2) as [r|] eqn:Er; cbn [fmap option_fmap option_map entityParamToData ep_Type]; [|by apply hoare_ret].
  apply hoare_fetch_type; [by apply hoare_ret|]. unfold found_type.
  destruct (List.find (where_type (byTypeName (Some (te_Type r)))) t.1) as [pt|] eqn:Ep;
    cbn [fmap option_fmap option_map entityTypeParamToData ty_Level]; [|by apply hoare_ret].
  destruct (tt_Level ty <=? tt_Level pt)%Z eqn:El; apply hoare_ret; intros w Hw; (split; [done|]); [done|]. intros _.
  exists r, (tt_Level ty), (tt_Level pt). unfold entity_at, level_of. rewrite Et, Ep. repeat split; [done|]. lia.
Qed.

(** ** Create *)

Lemma hoare_check_new_entity t p :
  hoare (settled t) (check_new_entity m p) (fun r w => settled t w /\
    (r = None -> forall type parent, ep_Type p = Some type -> ep_ParentID p = Some parent -> parent <> "" -> parent_ok t type parent)).
Proof.
  unfold check_new_entity. cbv zeta. rewrite Hm.
  set (post := fun (r : option goerr) w => settled t w /\ _).
  assert (hoare (settled t) match given_text (ep_ParentID p), ep_Type p with
    | Some parent, Some type => checkEntityLevel m type parent | _, _ => Ret None end post) as Hlevel.
  { unfold given_text, post. destruct (ep_ParentID p) as [par|]; [|by apply hoare_ret]. case_bool_decide as Hb.
    - apply hoare_ret. intros w Hw. split; [done|]. by intros _ ty q _ [= <-].
    - destruct (ep_Type p) as [ty|]; [|by apply hoare_ret]. eapply hoare_post; [|apply hoare_checkEntityLevel].
      intros r w [Hw Hr]. split; [done|]. intros Hn ty' q [= <-] [= <-] _. by apply Hr. }
  assert (forall e, hoare (settled t) (Ret (Some e)) post) as Hfail by (intros e; apply hoare_ret; intros w Hw; by split).
  assert (hoare (settled t) match given_text (ep_Name p) with
    | Some name => r <- call (FetchEntityRow (byEntityName (Some name))) ;;
        match r with Err e => Ret (Some e) | Ok (Some _) => Ret (Some (RecordExisted "Entity"))
        | Ok None => match given_text (ep_ParentID p), ep_Type p with
            | Some parent, Some type => checkEntityLevel m type parent | _, _ => Ret None end end
    | None => match given_text (ep_ParentID p), ep_Type p with
            | Some parent, Some type => checkEntityLevel m type parent | _, _ => Ret None end end post) as Hname.
  { destruct (given_text (ep_Name p)); [|done]. apply hoare_fetch_entity; [done|]. by destruct (found_entity _ _). }
  destruct (ep_Type p); [|done]. apply hoare_fetch_type; [done|]. by destruct (found_type _ _).
Qed.

Lemma hoare_create_body t p : forest t ->
  (forall type parent, ep_Type p = Some type -> ep_ParentID p = Some parent -> parent <> "" -> parent_ok t type parent) ->
  hoare (in_txn t t) (create_entity_body m p) (fun r w => exists t', in_txn t t' w /\ (r.1 = None -> forest t')).
Proof.
  intros Ht Hp. unfold create_entity_body.
  assert (forall e v, hoare (in_txn t t) (Ret (Some e, v)) (fun (r : option goerr * create_vars) w => exists t', in_txn t t' w /\ (r.1 = None -> forest t')))
    as Hfail by (intros e v; apply hoare_ret; intros w Hw; by exists t).
  apply hoare_txn_bind; [auto with tree|]. intros [plan|e]; [|done].
  apply hoare_txn_bind; [auto with tree|]. intros [policy|e]; [|done].
  apply hoare_txn_bind; [auto with tree|]. intros [route|e]; [|done].
  eapply hoare_bind; [apply hoare_create_entity|]. intros [n|e]; apply hoare_ret; intros w (t' & Hw & Hr); exists t'; (split; [done|]); [|done].
  intros _. destruct (Hr n eq_refl) as (id & now & row & Hi & Hu & ->). apply forest_insert_entity; [done|done|].
  unfold insert_entity in Hi. cbn in Hi. destruct (ep_EntityID p), (ep_Name p), (ep_Type p) as [ty|] eqn:Ety; try done. injection Hi as <-.
  cbn. intros q Hq Hne. by apply Hp.
Qed.

Lemma hoare_CreateEntity t p : forest t ->
  hoare (settled t) (CreateEntity To m p) (fun _ w => exists t', settled t' w /\ forest t').
Proof.
  intros Ht. unfold CreateEntity. cbv zeta. eapply hoare_bind; [apply hoare_check_new_entity|].
  intros [e|].
  { apply hoare_fact. intros _. apply grows_neutral; [tree_go|done]. }
  apply hoare_fact. intros Hp. specialize (Hp eq_refl).
  eapply hoare_bind; [apply (hoare_atom t _ _ (fun _ => forest)); [done|]; by apply hoare_create_body|].
  intros [[e|] v]; cbn [fst snd].
  - apply grows_either; [tree_go|done].
  - apply hoare_exists. intros t'. apply hoare_fact. intros Ht'.
    apply grows_neutral; [unfold init_entity_counter; tree_go|done].
Qed.

(** ** Update *)

Definition ends_well (r : option goerr * update_vars) (t t' : tree) (w : oworld) : Prop := in_txn t t' w /\ (r.1 = None -> forest t').

Context (t : tree) (Ht : forest t) (id : string).

Lemma found_by_id : found_entities (byEntityID (Some id)) t =
  match entity_at t.2 id with Some r => [entityParamToData r] | None => [] end.
Proof. unfold found_entities. rewrite list_by_id by apply Ht. by destruct (entity_at t.2 id). Qed.

(** The request keeps the id and the type of the entity. *)
Definition keeps_identity (p : EntityParam) : Prop :=
  (ep_EntityID p = None \/ ep_EntityID p = Some id) /\
  (forall r ty, entity_at t.2 id = Some r -> ep_Type p = Some ty -> ty = te_Type r).
(** It gives the entity a parent that it may have. *)
Definition good_parent (p : EntityParam) : Prop :=
  forall r parent, entity_at t.2 id = Some r -> ep_ParentID p = Some parent -> parent <> "" -> parent_ok t (te_Type r) parent.

Lemma hoare_check_update p existing old : keeps_identity p ->
  existing = Err DaoError \/ existing = Ok (found_entities (byEntityID (Some id)) t) ->
  hoare (settled t) (check_entity_update m p existing old) (fun r w => settled t w /\ (r = None -> good_parent p)).
Proof.
  intros [_ Hty] Hex. unfold check_entity_update, good_parent. cbv zeta. rewrite Hm. cbn [negb].
  match goal with |- context [if ?b then _ else _] => destruct b end; [by apply hoare_ret|].
  unfold given_text. destruct (ep_ParentID p) as [par|]; [|by apply hoare_ret]. case_bool_decide as Hb.
  { apply hoare_ret. intros w Hw. split; [done|]. by intros _ r q _ [= <-]. }
  assert (forall ty, (forall r, entity_at t.2 id = Some r -> ty = te_Type r) ->
    hoare (settled t) (checkEntityLevel m ty par) (fun r w => settled t w /\ (r = None -> forall r parent,
      entity_at t.2 id = Some r -> Some par = Some parent -> parent <> "" -> parent_ok t (te_Type r) parent))) as Hc.
  { intros ty Hr. eapply hoare_post; [|apply hoare_checkEntityLevel]. intros x w [Hw Hx]. split; [done|].
    intros Hn r q Hq [= <-] _. rewrite <- (Hr r Hq). by apply Hx. }
  destruct (ep_Type p) as [ty|]; [apply Hc; intros r Hr; by apply (Hty r ty)|].
  destruct Hex as [->| ->]; [by apply hoare_ret|]. rewrite found_by_id. destruct (entity_at t.2 id) as [r|]; [|by apply hoare_ret].
  cbn [entityParamToData ep_Type]. apply Hc. by intros r' [= <-].
Qed.

Lemma hoare_update_body p old : keeps_identity p -> good_parent p ->
  hoare (in_txn t t) (update_entity_body m (byEntityID (Some id)) p old) (fun r w => exists t', in_txn t t' w /\ (r.1 = None -> forest t')).
Proof.
  intros [Hid Hty] Hpar. unfold update_entity_body.
  assert (forall e v, hoare (in_txn t t) (Ret (Some e, v)) (fun (r : option goerr * update_vars) w => exists t', in_txn t t' w /\ (r.1 = None -> forest t')))
    as Hfail by (intros e v; apply hoare_ret; intros w Hw; by exists t).
  apply hoare_txn_entities; [done|]. rewrite found_by_id. destruct (entity_at t.2 id) as [r|] eqn:Er; [|done].
  apply hoare_txn_bind; [auto with tree|]. intros [plan|e]; [|done].
  apply hoare_txn_bind; [auto with tree|]. intros [[[policy keys]|e] oldPolicy]; [|done]. cbv zeta.
  apply hoare_txn_bind; [auto with tree|]. intros [route|e]; [|done].
  eapply hoare_bind; [apply hoare_update_entity|].
  intros [n|e]; apply hoare_ret; intros w (t' & Hw & Hr); exists t'; (split; [done|]); [|done]. intros _.
  destruct (Hr n eq_refl) as (now & Hu & ->). cbn [entityParamToData ep_EntityID] in *.
  pose proof Er as [Hin Hrid]%entity_at_iff; [|apply Ht]. rewrite Hrid in *.
  assert (forall x, x ∈ t.2 -> te_EntityID x = id -> x = r) as Hone.
  { intros x Hx Hxi. assert (entity_at t.2 id = Some x) as Hx' by (apply entity_at_iff; [apply Ht|done]). congruence. }
  apply forest_update_entity; [done|done|..].
  - intros x Hx Hxi. cbn. destruct Hid as [->| ->]; [done|by cbn].
  - intros x Hx Hxi. cbn. rewrite (Hone x Hx Hxi). destruct (ep_Type p) as [ty|]; [|done]. cbn. by apply (Hty r).
  - intros x q Hx Hxi. cbn. rewrite (Hone x Hx Hxi). destruct (ep_ParentID p) as [par|] eqn:Ep; cbn [or_null].
    + intros [= <-] Hne. by apply (Hpar r par).
    + intros Hq Hne. by apply (fo_edges t Ht r q).
Qed.

Lemma hoare_UpdateEntity p : keeps_identity p ->
  hoare (settled t) (UpdateEntity m (byEntityID (Some id)) p) (fun _ w => exists t', settled t' w /\ forest t').
Proof.
  intros Hp. unfold UpdateEntity.
  assert (forall existing, existing = Err DaoError \/ existing = Ok (found_entities (byEntityID (Some id)) t) ->
    forall old, hoare (settled t)
     (oldPlan <- match ep_QuotaPlan p with
             | Some _ => soft_plan (em_hasPlans m) (old ≫= ep_QuotaPlanID) | None => Ret None end ;;
      c <- check_entity_update m p existing old ;;
      match c with
      | Some e =>
          recordEntityOperation m "update" (resolveEntityIdentifiers (Some (byEntityID (Some id))) (Some p) old)
            (entityParamToMap old) (entityParamToMap (Some p)) (Some e) ;; Ret (Err e)
      | None =>
      t <- AtomExecute (mkUpdated 0 [] 0 0 None old) (update_entity_body m (byEntityID (Some id)) p old) ;;
      match t with
      | (Some e, v) =>
          recordEntityOperation m "update"
            (entityParamIdentifiers (match uv_old v with Some o => Some o | None => Some p end))
            (entityParamToMap (uv_old v)) (entityParamToMap (Some p)) (Some e) ;;
          auditNestedQuotaPlanChange m (uv_old v) p 0 oldPlan (Some e) ;;
          auditNestedRateLimitPolicyChange m (uv_old v) p 0 (uv_oldPolicy v) (Some e) ;;
          Ret (Err e)
      | (None, v) =>
          match uv_keys v with [] => Ret tt | _ => cleanupRedisKeys (em_cache m) "" (uv_keys v) end ;;
          recordEntityOperation m "update" (entityParamIdentifiers (uv_old v)) (entityParamToMap (uv_old v))
            (entityParamToMap (Some p)) None ;;
          auditNestedQuotaPlanChange m (uv_old v) p (uv_plan v) oldPlan None ;;
          auditNestedRateLimitPolicyChange m (uv_old v) p (uv_policy v) (uv_oldPolicy v) None ;;
          Ret (Ok (uv_affected v))
      end
      end) (fun _ w => exists t', settled t' w /\ forest t')) as Hrest.
  { intros existing Hex old. apply hoare_settled_bind; [tree_go|]. intros oldPlan.
    eapply hoare_bind; [by apply hoare_check_update|]. intros [e|].
    { apply hoare_fact. intros _. apply grows_neutral; [tree_go|done]. }
    apply hoare_fact. intros Hg. specialize (Hg eq_refl).
    eapply hoare_bind; [apply (hoare_atom t _ _ (fun _ => forest)); [done|]; by apply hoare_update_body|].
    intros [[e|] v]; cbn [fst snd].
    - apply grows_either; [tree_go|done].
    - apply hoare_exists. intros t'. apply hoare_fact. intros Ht'.
      apply grows_neutral; [tree_go|done]. }
  apply hoare_fetch_entities; cbv zeta; apply Hrest; auto.
Qed.

(** ** Delete *)

Lemma hoare_delete_body : hoare (in_txn t t) (delete_entity_body m (byEntityID (Some id)))
  (fun r w => exists t', in_txn t t' w /\ (r.1 = None -> forest t')).
Proof.
  unfold delete_entity_body.
  assert (forall e v, hoare (in_txn t t) (Ret (Some e, v)) (fun (r : option goerr * delete_vars) w => exists t', in_txn t t' w /\ (r.1 = None -> forest t')))
    as Hfail by (intros e v; apply hoare_ret; intros w Hw; by exists t).
  apply hoare_txn_entities; [done|]. rewrite found_by_id. destruct (entity_at t.2 id) as [r|] eqn:Er; [|done]. cbv zeta.
  pose proof Er as [Hin Hrid]%entity_at_iff; [|apply Ht]. cbn [entityParamToData ep_EntityID]. rewrite Hrid.
  apply hoare_txn_bind; [auto with tree|]. intros [[policy keys]|e]; [|done].
  apply hoare_txn_bind; [auto with tree|]. intros plan.
  apply hoare_txn_entities; [done|]. unfold found_entities. destruct (list_entities _ t.2) as [|c l] eqn:El; cbn [map]; [|apply Hfail].
  apply hoare_txn_bind; [auto with tree|]. intros [e|]; [done|].
  eapply hoare_bind; [apply hoare_delete_entity|]. intros [[]|e]; apply hoare_ret; intros w (t' & Hw & Hr); exists t'; (split; [done|]); [|done].
  intros _. rewrite (Hr eq_refl). apply forest_delete_entity; [done|]. by apply list_by_parent.
Qed.

Lemma hoare_DeleteEntity : hoare (settled t) (DeleteEntity m (byEntityID (Some id))) (fun _ w => exists t', settled t' w /\ forest t').
Proof.
  unfold DeleteEntity. eapply hoare_bind; [apply (hoare_atom t _ _ (fun _ => forest)); [done|]; by apply hoare_delete_body|].
  intros [[e|] v]; cbn [fst snd].
  - apply grows_either; [tree_go|done].
  - apply hoare_exists. intros t'. apply hoare_fact. intros Ht'.
    apply grows_neutral; [tree_go|done].
Qed.
End Manager.
