(* ===== verification/EntitySpec.v ===== *)
(** The entities form a forest after every request and every history of
    requests, whatever calls fail; concrete managers and worlds. *)
From Stdlib Require Import ZArith Lia SpecFloat.
From stdpp Require Import base tactics numbers list strings gmap option.
From S2P Require Import Prelude GoStrings GoTime Prog QuotaModel QuotaManager XCrypto Security SharedTypes Validate OwnerModel OwnerCommon EntityManager ApiKeyManager OwnerEndpoints EntityRequests.

Local Open Scope string_scope.

(** * What a request reads *)

Ltac via_go := repeat first [calls_step | exact I | progress cbn [via bind call]
  | match goal with |- all_calls _ (via (match ?x with _ => _ end)) => destruct x end].

Section Reads.
Context {CR : Crypto} (From : Z -> option string -> spec_float).

Lemma hoare_txn_try {A B} t0 t (p : prog ownerE (result A)) (f : A -> prog ownerE (result B)) (Post : result B -> oworld -> Prop) :
  all_calls tree_statement p -> (forall e w, in_txn t0 t w -> Post (Err e) w) ->
  (forall a, hoare (in_txn t0 t) (f a) Post) ->
  hoare (in_txn t0 t) (bind p (fun r => match r with Ok x => f x | Err e => Ret (Err e) end)) Post.
Proof. intros Hp He Hf. apply hoare_txn_bind; [done|]. intros [a|e]; [apply Hf|]. apply hoare_ret. apply He. Qed.

Lemma hoare_populate t one (m : EntityManager) :
  hoare (in_txn t t) (populateAssociatedData m one)
    (fun r w => in_txn t t w /\ forall e, r = Ok e -> ep_Type e = ep_Type one).
Proof.
  unfold populateAssociatedData.
  apply hoare_txn_try; [tree_go|by intros|]. intros plan. apply hoare_txn_try; [tree_go|by intros|]. intros policy.
  cbv zeta. apply hoare_txn_try; [tree_go|by intros|]. intros route. apply hoare_ret. intros w Hw. split; [done|]. by intros e [= <-].
Qed.

Lemma hoare_populate_all t m l :
  hoare (in_txn t t) (populate_all m l) (fun r w => in_txn t t w /\ forall l', r = Ok l' -> length l' = length l).
Proof.
  induction l as [|one l IH]; cbn [populate_all].
  { apply hoare_ret. intros w Hw. split; [done|]. by intros l' [= <-]. }
  eapply hoare_bind; [apply hoare_populate|]. intros [x|e]; apply hoare_fact; intros _; [|by apply hoare_ret].
  eapply hoare_bind; [apply IH|]. intros [rest|e]; apply hoare_fact; intros Hl; apply hoare_ret; [|by intros].
  intros w Hw. split; [done|]. intros l' [= <-]. cbn. f_equal. by apply Hl.
Qed.

Lemma st_populate m one : all_calls tree_statement (populateAssociatedData m one).
Proof. unfold populateAssociatedData. cbv zeta. tree_go. Qed.
Lemma st_populate_all m l : all_calls tree_statement (populate_all m l).
Proof. pose proof st_populate. induction l; cbn [populate_all]; tree_go; auto. Qed.
Lemma ne_balance m one : all_calls tree_neutral (populateQuotaBalance From m one).
Proof. unfold populateQuotaBalance. tree_go. Qed.
Lemma ne_fill c us l : all_calls tree_neutral (fill_groups From c us l).
Proof. revert l. induction us as [|u us IH]; intros l; cbn [fill_groups]; tree_go; apply IH. Qed.
Lemma ne_balances o m l : all_calls tree_neutral (populateQuotaBalances From o m l).
Proof. unfold populateQuotaBalances. pose proof ne_fill. tree_go; auto. Qed.

Lemma st_GetRemaining c k u : all_calls tree_statement (via (GetRemaining From c k u)).
Proof. unfold GetRemaining. via_go. Qed.
Lemma st_BatchGetRemaining c k u : all_calls tree_statement (via (BatchGetRemaining From c k u)).
Proof. unfold BatchGetRemaining. via_go. Qed.
#[local] Hint Resolve st_GetRemaining st_BatchGetRemaining : tree.

(** The entity that is read has the type of its row. *)
Lemma hoare_FetchEntity t m id : forest t ->
  hoare (settled t) (FetchEntity From m (byEntityID (Some id)))
    (fun r w => settled t w /\ forall e, r = Ok (Some e) -> exists row, entity_at t.2 id = Some row /\ ep_Type e = Some (te_Type row)).
Proof.
  intros Hf. unfold FetchEntity. eapply hoare_bind.
  - apply (hoare_atom t _ _ (fun v t' => t' = t /\ forall e, v = Some e ->
      exists row, entity_at t.2 id = Some row /\ ep_Type e = Some (te_Type row))); [done|].
    assert (forall e, hoare (in_txn t t) (Ret (Some e, None)) (fun (r : option goerr * option EntityParam) w =>
      exists t', in_txn t t' w /\ (r.1 = None -> t' = t /\ forall e, r.2 = Some e ->
        exists row, entity_at t.2 id = Some row /\ ep_Type e = Some (te_Type row)))) as Hfail
      by (intros e; apply hoare_ret; intros w Hw; by exists t).
    apply hoare_txn_entity; [apply Hfail|]. unfold found_entity. fold (entity_at t.2 id).
    destruct (entity_at t.2 id) as [row|] eqn:Er; cbn [fmap option_fmap option_map].
    2: { apply hoare_ret. intros w Hw. exists t. by split. }
    eapply hoare_bind; [apply hoare_populate|]. intros [e|e]; apply hoare_fact; intros He; [|apply Hfail].
    apply hoare_ret. intros w Hw. exists t. split; [done|]. intros _. split; [done|]. intros e' [= <-].
    exists row. split; [done|]. rewrite (He e eq_refl). done.
  - intros [[e|] v]; cbn [fst snd]; [apply hoare_ret; intros w [Hw|(t' & Hw & -> & _)]; by split|]. apply hoare_exists. intros t'. apply hoare_fact. intros [-> Hv].
    destruct v as [one|]; [|by apply hoare_ret]. destruct (Hv one eq_refl) as (row & Hr & Ht).
    apply (hoare_bind _ _ _ (fun x w => ep_Type x = ep_Type one /\ settled t w)).
    + unfold populateQuotaBalance. destruct (em_cache m) as [client|]; [|by apply hoare_ret].
      destruct (limited_plan one) as [[i plan]|]; [|by apply hoare_ret]. destruct (is_unlimited plan); [by apply hoare_ret|].
      apply hoare_settled_bind; [auto with tree|]. intros [rem|e]; by apply hoare_ret.
    + intros x. apply hoare_pure. intros Hx. apply hoare_ret. intros w Hw. split; [done|]. intros e [= <-].
      exists row. by rewrite Hx.
Qed.

Lemma length_fill_groups t c us l : hoare (settled t) (fill_groups From c us l) (fun r w => settled t w /\ length r = length l).
Proof.
  revert l. induction us as [|u us IH]; intros l; cbn [fill_groups]; [by apply hoare_ret|].
  apply hoare_settled_bind; [auto with tree|]. intros [rem|e]; [|by apply hoare_ret].
  eapply hoare_post; [|apply IH]. intros r w [Hw Hl]. split; [done|]. by rewrite length_map in Hl.
Qed.

(** A list that is read has the length that the filter selects. *)
Lemma hoare_FetchEntityList t order m f : forest t ->
  hoare (settled t) (FetchEntityList From order m f)
    (fun r w => settled t w /\ forall l, r = Ok l -> length l = length (list_entities f t.2)).
Proof.
  intros Hf. unfold FetchEntityList. eapply hoare_bind.
  - apply (hoare_atom t _ _ (fun l t' => t' = t /\ length l = length (list_entities f t.2))); [done|].
    assert (forall e, hoare (in_txn t t) (Ret (Some e, [])) (fun (r : option goerr * list EntityParam) w =>
      exists t', in_txn t t' w /\ (r.1 = None -> t' = t /\ length r.2 = length (list_entities f t.2)))) as Hfail
      by (intros e; apply hoare_ret; intros w Hw; by exists t).
    apply hoare_txn_entities; [apply Hfail|]. eapply hoare_bind; [apply hoare_populate_all|].
    intros [l|e]; apply hoare_fact; intros Hl; [|apply Hfail]. apply hoare_ret. intros w Hw. exists t. split; [done|].
    intros _. split; [done|]. cbn [snd]. rewrite (Hl l eq_refl). unfold found_entities. apply length_map.
  - intros [[e|] l]; cbn [fst snd]; [apply hoare_ret; intros w [Hw|(t' & Hw & -> & _)]; by split|]. apply hoare_exists. intros t'. apply hoare_fact. intros [-> Hl].
    apply (hoare_bind _ _ _ (fun x w => settled t w /\ length x = length l)).
    + unfold populateQuotaBalances. destruct (em_cache m); [|by apply hoare_ret].
      eapply hoare_post; [|apply length_fill_groups]. intros r w [Hw Hr]. split; [done|]. by rewrite length_map in Hr.
    + intros x. apply hoare_fact. intros Hx. apply hoare_ret. intros w Hw. split; [done|]. intros y [= <-]. congruence.
Qed.

Lemma ne_FetchEntity m f : all_calls tree_neutral (FetchEntity From m f).
Proof. unfold FetchEntity. pose proof ne_balance. pose proof st_populate. tree_go; auto with tree. apply ne_atom. tree_go. Qed.
Lemma ne_FetchEntityList o m f : all_calls tree_neutral (FetchEntityList From o m f).
Proof. unfold FetchEntityList. pose proof ne_balances. pose proof st_populate_all. tree_go; auto with tree. apply ne_atom. tree_go. Qed.
End Reads.

#[export] Hint Resolve ne_FetchEntity ne_FetchEntityList : tree.

(** * The requests *)

Section Requests.
Context {CR : Crypto} (To : spec_float -> option string -> Z) (From : Z -> option string -> spec_float).
Context (condition_Build : string -> bool) (MaxRMBQuota : spec_float) (order : list string -> list string).
Context (em : EntityManager) (am : APIKeyManager) (qm : QuotaPlanManager) (typeLog : bool).
Context (Hm : em_hasTypes em = true).

Lemma ne_check_parent p t : all_calls tree_neutral (check_parent From em p t).
Proof. unfold check_parent. tree_go. Qed.

Lemma grows_EntityCreateAction p : grows (EntityCreateAction To From condition_Build MaxRMBQuota order em p).
Proof.
  apply grows_checked. apply grows_try; [apply grows_neutral; tree_go|]. intros [ty|]; [|apply grows_ret].
  apply grows_try; [apply grows_neutral, ne_check_parent|]. intros _.
  apply grows_try; [apply grows_neutral; auto with tree|]. intros [|]; [|apply grows_ret].
  apply grows_try; [apply grows_neutral; tree_go|]. intros id.
  apply grows_try; [intros t; by apply hoare_CreateEntity|]. intros _. apply grows_neutral. auto with tree.
Qed.

(** An update that leaves the id of the entity as it is. *)
Lemma grows_update_action full id p : ep_EntityID p = None \/ ep_EntityID p = Some id ->
  grows (update_action To From condition_Build MaxRMBQuota em qm full id p).
Proof.
  intros Hid t Ht. unfold update_action.
  eapply hoare_bind; [by apply hoare_FetchEntity|]. intros [[old|]|e]; apply hoare_fact; intros He; try by apply grows_ret.
  destruct (He old eq_refl) as (row & Hrow & Hold).
  destruct (validateEntityParam _ _ _ _); [|by apply grows_ret..]. cbn [checked]. cbv zeta.
  set (p' := if full then _ else p).
  assert (ep_EntityID p' = ep_EntityID p) as Hid' by (by destruct full).
  unfold validateTypeImmutable. rewrite Hold.
  assert ((forall ty, ep_Type p' = Some ty -> ty = te_Type row) ->
    hoare (settled t) (_ <-? UpdateEntity em (byEntityID (Some id)) p' ;;
        updated <-? FetchEntity From em (byEntityID (Some id)) ;;
        match ep_QuotaPlan p', field updated ep_QuotaPlanID with
        | Some plan, Some planID =>
            _ <-? via (ApplyQuotaPlanChange To From qm planID (ep_QuotaPlan old) (Some plan)) ;;
            Ret (Ok updated)
        | _, _ => Ret (Ok updated)
        end) (fun _ w => exists t', settled t' w /\ forest t')) as Hgo.
  { intros Hty. eapply hoare_bind.
    - apply hoare_UpdateEntity; [done|done|]. split; [by rewrite Hid'|]. intros r ty Hr. replace r with row by congruence. apply Hty.
    - intros [n|e]; apply hoare_exists; intros t'; apply hoare_fact; [|apply grows_ret].
      apply (grows_neutral (bind _ _)). tree_go. }
  destruct (ep_Type p') as [ty|] eqn:Ety; [|apply Hgo; by intros]. unfold refuse_if. case_bool_decide as Hb; cbn [negb checked].
  - apply Hgo. by intros ? [= <-].
  - by apply grows_ret.
Qed.

Lemma ne_populate_key one : all_calls tree_neutral (populate_key am one).
Proof. unfold populate_key, entityAdapterFetch. cbv zeta. tree_go. Qed.
Lemma ne_populate_keys l : all_calls tree_neutral (populate_keys am l).
Proof. pose proof ne_populate_key. induction l; cbn [populate_keys]; tree_go; auto. Qed.
Lemma ne_fill_keys c us l : all_calls tree_neutral (fill_key_groups From c us l).
Proof. revert l. induction us as [|u us IH]; intros l; cbn [fill_key_groups]; tree_go; apply IH. Qed.
Lemma ne_FetchAPIKeyList f : all_calls tree_neutral (FetchAPIKeyList From order am f).
Proof.
  unfold FetchAPIKeyList, populateKeyBalances. pose proof ne_populate_keys. pose proof ne_fill_keys.
  tree_go; auto. apply ne_atom. tree_go; auto.
Qed.

Lemma grows_EntityDeleteAction id : grows (EntityDeleteAction From order em am id).
Proof.
  apply grows_try; [apply grows_neutral; auto with tree|]. intros [e|]; [|apply grows_ret].
  apply grows_try; [apply grows_neutral; auto with tree|]. intros [|]; [|apply grows_ret].
  apply grows_try; [apply grows_neutral, ne_FetchAPIKeyList|]. intros [|]; [|apply grows_ret].
  intros t Ht. by apply hoare_DeleteEntity.
Qed.

(** ** Types *)

Lemma level_insert ts row ty : level_of (ts ++ [row])%list ty = level_of ts ty \/ level_of ts ty = None.
Proof.
  unfold level_of. destruct (List.find _ ts) as [r|] eqn:Er; [|by right]. left. by rewrite (find_app _ _ _ _ Er).
Qed.

Lemma level_map ts (g : TEntityType -> TEntityType) ty :
  (forall r, tt_TypeName (g r) = tt_TypeName r /\ tt_Level (g r) = tt_Level r) -> level_of (map g ts) ty = level_of ts ty.
Proof.
  intros Hg. unfold level_of. induction ts as [|r ts IH]; cbn [map List.find]; [done|].
  destruct (Hg r) as [Hn Hl]. rewrite !where_name, Hn. case_bool_decide; [cbn; by rewrite Hl|done].
Qed.

Lemma level_without ts name ty : ty <> name -> level_of (without (where_type (byTypeName (Some name))) ts) ty = level_of ts ty.
Proof.
  intros Hne. unfold level_of. induction ts as [|r ts IH]; [done|]. cbn [without List.filter List.find].
  rewrite (where_name name r), (where_name ty r). case_bool_decide as H1; cbn [negb].
  - rewrite bool_decide_false by congruence. apply IH.
  - cbn [List.find]. rewrite (where_name ty r). case_bool_decide; [done|apply IH].
Qed.

(** A single write outside of a transaction, which may be done although it
    reports an error. *)
Lemma grows_write {A} (e : ownerE (result A)) : fault e = Some (Err DaoError) ->
  (forall t w, forest t -> settled t w -> exists t', settled t' (handle e w).2 /\ forest t') -> grows (call e).
Proof.
  intros Hf Hw t Ht. apply hoare_call_cases; [intros w; by apply Hw|]. intros w r Hs Hr. split; [by exists t|]. by eapply Hw.
Qed.

Lemma settled_types t w ts : settled t w -> settled (ts, t.2) (put_data (put_types ts (ow_data w)) w).
Proof. intros [Hd Hs]. split; [|done]. unfold tree_of. cbn. by rewrite <- Hd. Qed.

Lemma grows_create_type p : grows (call (CreateEntityTypeRow p)).
Proof.
  apply grows_write; [done|]. intros t w Ht Hw. pose proof Hw as [Hd _]. cbn. unfold inserting.
  destruct (insert_type _ _ _) as [row|]; [|by exists t]. destruct (bool_decide _) eqn:Hu; [|exists t; by destruct Hw].
  eexists. split; [exact (settled_types t w _ Hw)|]. apply bool_decide_eq_true in Hu.
  replace (od_types (ow_data w)) with t.1 in * by (by rewrite <- Hd).
  apply forest_levels; [done|done|]. intros r _. apply level_insert.
Qed.

Lemma grows_update_type f p : ty_Level p = None -> grows (call (UpdateEntityTypeRow f p)).
Proof.
  intros Hl. apply grows_write; [done|]. intros t w Ht Hw. pose proof Hw as [Hd _]. cbn -[where_type assign_type].
  eexists. split; [exact (settled_types t w _ Hw)|]. replace (od_types (ow_data w)) with t.1 in * by (by rewrite <- Hd).
  assert (forall r, let g r := if where_type f r then assign_type (ow_now w) p r else r in
    tt_TypeName (g r) = tt_TypeName r /\ tt_Level (g r) = tt_Level r) as Hg.
  { intros r. cbv zeta beta. destruct (where_type f r); [|done]. cbn. by rewrite Hl. }
  apply forest_levels; [done| |intros r _; left; by apply level_map].
  rewrite map_map. erewrite map_ext; [apply Ht|]. intros r. apply Hg.
Qed.

Lemma hoare_delete_type t name : forest t -> (forall r, r ∈ t.2 -> te_Type r <> name) ->
  hoare (settled t) (call (DeleteEntityTypeRow (byTypeName (Some name)))) (fun _ w => exists t', settled t' w /\ forest t').
Proof.
  intros Ht Hno. assert (forall w, settled t w ->
    exists t', settled t' (handle (DeleteEntityTypeRow (byTypeName (Some name))) w).2 /\ forest t') as H.
  { intros w Hw. pose proof Hw as [Hd _]. eexists. split; [exact (settled_types t w _ Hw)|].
    replace (od_types (ow_data w)) with t.1 in * by (by rewrite <- Hd).
    apply forest_levels; [done|apply NoDup_without; apply Ht|]. intros r Hr. left. apply level_without. by apply Hno. }
  apply hoare_call_cases; [done|]. intros w r Hw _. split; [by exists t|by apply H].
Qed.

Lemma grows_EntityTypeCreateAction p : grows (EntityTypeCreateAction typeLog p).
Proof.
  apply grows_checked, grows_try; [apply grows_neutral; unfold FetchEntityType; tree_go|].
  intros [?|]; [apply grows_ret|]. apply grows_try.
  - unfold CreateEntityType. cbv zeta. destruct (given_text _); [|apply grows_neutral; tree_go].
    apply grows_bind; [apply grows_neutral; tree_go|]. intros [[?|]|?]; try solve [apply grows_neutral; tree_go].
    apply grows_bind; [apply grows_create_type|]. intros [?|?]; apply grows_neutral; tree_go.
  - intros _. apply grows_neutral. unfold FetchEntityType. tree_go.
Qed.

(** An update that leaves the level as it is. *)
Lemma grows_EntityTypeUpdateAction name p : ty_Level p = None -> grows (EntityTypeUpdateAction typeLog name p).
Proof.
  intros Hl. apply grows_checked, grows_try; [apply grows_neutral; unfold FetchEntityType; tree_go|].
  intros [?|]; [|apply grows_ret]. apply grows_checked, grows_try.
  - unfold UpdateEntityType. cbv zeta. apply grows_bind; [apply grows_neutral; tree_go|].
    intros [[?|]|?]; try solve [apply grows_neutral; tree_go]. apply grows_bind; [by apply grows_update_type|].
    intros ?; apply grows_neutral; tree_go.
  - intros _. apply grows_neutral. unfold FetchEntityType. tree_go.
Qed.

Lemma grows_EntityTypeDeleteAction name : grows (EntityTypeDeleteAction From order em typeLog name).
Proof.
  apply grows_try; [apply grows_neutral; unfold FetchEntityType; tree_go|]. intros [?|]; [|apply grows_ret].
  intros t Ht. eapply hoare_bind; [by apply hoare_FetchEntityList|].
  intros [[|x l]|err]; apply hoare_fact; intros Hl; [|by apply grows_ret..].
  assert (forall r, r ∈ t.2 -> te_Type r <> name) as Hno.
  { apply list_by_type. specialize (Hl [] eq_refl). by destruct (list_entities _ t.2). }
  unfold DeleteEntityType. cbv zeta. apply hoare_fetch_type; [apply grows_neutral; [tree_go|done]|].
  destruct (found_type _ t); [|apply grows_neutral; [tree_go|done]].
  eapply hoare_bind; [by apply hoare_delete_type|]. intros a. apply hoare_exists. intros t'. apply hoare_fact. revert t'.
  apply grows_neutral. tree_go.
Qed.
End Requests.

(** Histories of requests on entity types, entities and API keys, run one after
    the other with failures of any call. *)

(** * Requests *)

Inductive request : Type :=
| CreateEntityReq (p : EntityParam)
| UpdateEntityReq (full : bool) (id : string) (p : EntityParam)
| DeleteEntityReq (id : string)
| ResetEntityReq (id : string) (quota : option spec_float)
| CreateTypeReq (p : EntityTypeParam)
| UpdateTypeReq (name : string) (p : EntityTypeParam)
| DeleteTypeReq (name : string)
| CreateKeyReq (p : APIKeyParam)
| UpdateKeyReq (f : APIKeyFilter) (p : APIKeyParam)
| DeleteKeyReq (f : APIKeyFilter)
| TokenReq (p : APIKeyTokenParam).

(** The requests that may not change the shape of the tree below them: an
    update leaves the id of an entity, and the level of a type. *)
Definition regular (r : request) : Prop :=
  match r with
  | UpdateEntityReq _ id p => ep_EntityID p = None \/ ep_EntityID p = Some id
  | UpdateTypeReq _ p => ty_Level p = None
  | _ => True
  end.

Section History.
Context {CR : Crypto} (To : spec_float -> option string -> Z) (From : Z -> option string -> spec_float).
Context (condition_Build : string -> bool) (MaxRMBQuota : spec_float) (order : list string -> list string).
Context (em : EntityManager) (am : APIKeyManager) (qm : QuotaPlanManager) (typeLog : bool).

Definition serve (r : request) : prog ownerE unit :=
  match r with
  | CreateEntityReq p => EntityCreateAction To From condition_Build MaxRMBQuota order em p ;; Ret tt
  | UpdateEntityReq full id p => update_action To From condition_Build MaxRMBQuota em qm full id p ;; Ret tt
  | DeleteEntityReq id => EntityDeleteAction From order em am id ;; Ret tt
  | ResetEntityReq id quota => EntityResetQuotaAction To From MaxRMBQuota em qm id quota ;; Ret tt
  | CreateTypeReq p => EntityTypeCreateAction typeLog p ;; Ret tt
  | UpdateTypeReq name p => EntityTypeUpdateAction typeLog name p ;; Ret tt
  | DeleteTypeReq name => EntityTypeDeleteAction From order em typeLog name ;; Ret tt
  | CreateKeyReq p => CreateAPIKey To am p ;; Ret tt
  | UpdateKeyReq f p => UpdateAPIKey am f p ;; Ret tt
  | DeleteKeyReq f => DeleteAPIKey am f ;; Ret tt
  | TokenReq p => CreateAPIKeyToken p ;; Ret tt
  end.

(** Each request with the outcomes of its calls. *)
Fixpoint history (h : list (list outcome * request)) (w : oworld) : oworld :=
  match h with
  | [] => w
  | (os, r) :: h' => history h' (exec os (serve r) w).2
  end.

(** ** API keys leave the tree alone *)

Lemma ne_recordKey a k b c e : all_calls tree_neutral (recordAPIKeyOperation am a k b c e).
Proof. unfold recordAPIKeyOperation. tree_go. Qed.
Lemma ne_keyPlan f : all_calls tree_neutral (audit_key_plan am f).
Proof. unfold audit_key_plan. tree_go. Qed.
Lemma ne_keyPolicy f : (forall a, all_calls tree_neutral (f a)) -> all_calls tree_neutral (audit_key_policy am f).
Proof. intros Hf. unfold audit_key_policy. tree_go. Qed.
#[local] Hint Resolve ne_recordKey ne_keyPlan ne_recordPolicy : tree.

Lemma ne_create_key_body p : all_calls tree_neutral (create_key_body am p).
Proof. unfold create_key_body, check_key_entity, entityAdapterFetch, check_key_value. cbv zeta. tree_go. Qed.
Lemma ne_update_key_body f p : all_calls tree_neutral (update_key_body am f p).
Proof. unfold update_key_body, check_key_entity, entityAdapterFetch. cbv zeta. tree_go. Qed.
Lemma ne_delete_key_body f : all_calls tree_neutral (delete_key_body am f).
Proof. unfold delete_key_body. cbv zeta. tree_go. Qed.
#[local] Hint Resolve ne_create_key_body ne_update_key_body ne_delete_key_body ne_atom : tree.

Ltac key_go := repeat first [solve [auto with tree] | calls_step
  | match goal with
    | |- all_calls _ (AtomExecute _ _) => apply ne_atom
    | |- all_calls _ (audit_key_policy _ _) => apply ne_keyPolicy; intros ?
    end | exact I].

Lemma ne_key_requests r : match r with CreateKeyReq _ | UpdateKeyReq _ _ | DeleteKeyReq _ | TokenReq _ => True | _ => False end ->
  all_calls tree_neutral (serve r).
Proof.
  destruct r; try done; intros _; cbn [serve]; (apply all_calls_bind; [|intros; constructor]).
  - unfold CreateAPIKey, init_key_counter, auditKeyPlanCreate, auditKeyPolicyCreate, AuditRateLimitPolicyCreate. key_go.
  - unfold UpdateAPIKey, auditKeyPlanChange, auditKeyPolicyChange, AuditRateLimitPolicyCreate, AuditRateLimitPolicyUpdate.
    cbv zeta. key_go.
  - unfold DeleteAPIKey, auditKeyPlanDelete, auditKeyPolicyDelete, AuditRateLimitPolicyDelete. key_go.
  - unfold CreateAPIKeyToken. key_go.
Qed.

(** ** The invariant *)

Lemma serve_grows r : em_hasTypes em = true -> regular r -> grows (serve r).
Proof.
  intros Hm Hr. destruct r; try (by apply grows_neutral, ne_key_requests); cbn [serve];
    (apply grows_bind; [|intros ?; apply grows_ret]).
  - by apply grows_EntityCreateAction.
  - by apply grows_update_action.
  - by apply grows_EntityDeleteAction.
  - apply grows_neutral. unfold EntityResetQuotaAction, checked. cbv zeta. tree_go.
  - apply grows_EntityTypeCreateAction.
  - by apply grows_EntityTypeUpdateAction.
  - apply grows_EntityTypeDeleteAction.
Qed.

Lemma history_grows h w : em_hasTypes em = true -> Forall (fun x => regular x.2) h ->
  (exists t, settled t w /\ forest t) -> exists t, settled t (history h w) /\ forest t.
Proof.
  intros Hm Hh. revert w. induction Hh as [|[os r] h Hr Hh IH]; intros w Hw; [done|]. cbn [history]. apply IH.
  destruct Hw as (t & Hw & Ht). by apply (serve_grows r Hm Hr t Ht os w).
Qed.

Lemma forest_history h w : em_hasTypes em = true -> Forall (fun x => regular x.2) h ->
  forest (tree_of (ow_data w)) -> ow_saved w = None -> forest (tree_of (ow_data (history h w))).
Proof.
  intros Hm Hh Hf Hs. destruct (history_grows h w Hm Hh) as (t & [<- _] & Ht); [|done].
  exists (tree_of (ow_data w)). split; [|done]. split; [done|]. by rewrite Hs.
Qed.
End History.

(** Concrete managers and worlds for the owners of plans. *)

Definition rlm : RateLimitPolicyManager := mkRLM true true.
Definition sample_em : EntityManager := mkEM true true true true (Some true) true (Some sample_qpm) (Some rlm).
Definition sample_am : APIKeyManager := mkAM true true true true (Some true) true (Some sample_qpm) (Some rlm).

Definition no_rows : odata := mkOData [] [] [] [] [] [].
Definition empty_world : oworld := {|
  ow_data := no_rows; ow_saved := None; ow_next := fun _ => 1%Z;
  ow_q := mkQWorld [] 1 [] [] None ∅ ∅ noon (fun _ => noon) 0 [] [] (fun q => q);
  ow_log := []; ow_sec := mkSecurity None None 12;
  ow_nonce := fun _ => Ok "123456789012"; ow_uuid := fun n => "uuid-" +:+ FormatInt (Z.of_nat n);
  ow_bytes := fun n => Ok (map (fun i => Z.of_nat (i + n)) (seq 0 24)); ow_draws := 0;
  ow_entitySeq := 100; ow_keySeq := fun _ => 1%Z
|}.

Definition type_request (name : string) (level : Z) : EntityTypeParam := mkEntityType None (Some name) None (Some level) None.
Definition entity_request (id name type : string) (parent : option string) : EntityParam :=
  mkEntity None (Some id) (Some name) None (Some type) parent [] [] None None None None None None None None None.
Definition entity_change (id parent : option string) : EntityParam :=
  mkEntity None id None None None parent [] [] None None None None None None None None None.

Definition sample_history (h : list request) (w : oworld) : oworld :=
  history milli of_milli (fun _ => true) (float_of_Z 1000000) (fun l => l) sample_em sample_am sample_qpm true
    (map (fun r => ([], r)) h) w.

(** A company with a team below it. *)
Definition two_levels : list request := [
  CreateTypeReq (type_request "company" 1); CreateTypeReq (type_request "team" 2);
  CreateEntityReq (entity_request "acme" "acme" "company" None);
  CreateEntityReq (entity_request "ops" "ops" "team" (Some "acme"))
].
Definition two_world : oworld := sample_history two_levels empty_world.

Example two_world_tree :
  map (fun r => (te_EntityID r, te_Type r, te_ParentID r)) (od_entities (ow_data two_world)) =
  [("acme", "company", None); ("ops", "team", Some "acme")].
Proof. vm_compute. reflexivity. Qed.
