(* ===== verification/EntityForest.v ===== *)
(** The tree that requests keep, the walk to the root that the export makes
    through it, and the two requests that break it. *)
From Stdlib Require Import ZArith Lia SpecFloat.
From stdpp Require Import base tactics numbers list strings gmap option.
From S2P Require Import Prelude GoStrings GoTime Prog QuotaModel QuotaManager XCrypto SharedTypes Validate OwnerModel OwnerCommon EntityManager ApiKeyManager OwnerEndpoints EntityRequests EntitySpec.

Local Open Scope string_scope.

(** * The walk to the root *)

Definition lower (t : tree) (l : Z) (r : TEntity) : bool :=
  match level_of t.1 (te_Type r) with Some l' => (l' <? l)%Z | None => false end.

(** How many entities can stand above one. *)
Definition height (t : tree) (r : TEntity) : nat :=
  match level_of t.1 (te_Type r) with Some l => length (List.filter (lower t l) t.2) | None => 0 end.

(** An entity and those above it. *)
Fixpoint ancestors (fuel : nat) (es : list TEntity) (r : TEntity) : list TEntity :=
  match fuel with
  | O => []
  | S fuel =>
      r :: match te_ParentID r with
           | Some p => if bool_decide (p = "") then [] else
               match entity_at es p with Some q => ancestors fuel es q | None => [] end
           | None => []
           end
  end.

Lemma filter_length_lt {A} (f g : A -> bool) l a :
  a ∈ l -> g a = true -> f a = false -> (forall x, f x = true -> g x = true) ->
  (length (List.filter f l) < length (List.filter g l))%nat.
Proof.
  intros Hin Hg Hf Hsub. assert (forall l, (length (List.filter f l) <= length (List.filter g l))%nat) as Hle.
  { intros l'. induction l' as [|x l' IH]; cbn; [lia|]. pose proof (Hsub x). destruct (f x), (g x); cbn; lia. }
  induction Hin as [y l|y x l Hin IH]; cbn.
  - rewrite Hg, Hf. cbn. specialize (Hle l). lia.
  - specialize (IH Hg Hf). pose proof (Hsub x). destruct (f x), (g x); cbn; lia.
Qed.

Lemma parent_lower t r p q : forest t -> r ∈ t.2 -> te_ParentID r = Some p -> p <> "" -> entity_at t.2 p = Some q ->
  q ∈ t.2 /\ (height t q < height t r)%nat.
Proof.
  intros Ht Hr Hp Hne Hq. destruct (fo_edges t Ht r p Hr Hp Hne) as (x & l & l' & Hx & Hl & Hl' & Hlt).
  assert (x = q) as -> by congruence. apply entity_at_iff in Hq as [Hin _]; [|apply Ht]. split; [done|].
  unfold height. rewrite Hl, Hl'. apply (filter_length_lt _ _ _ q); [done|..]; unfold lower.
  - rewrite Hl'. lia.
  - rewrite Hl'. lia.
  - intros y. destruct (level_of t.1 (te_Type y)); [|done]. lia.
Qed.

Lemma height_bound t r : r ∈ t.2 -> (height t r < length t.2)%nat.
Proof.
  intros Hr. unfold height. destruct (level_of t.1 (te_Type r)) as [l|] eqn:El; [|destruct t.2; [by apply elem_of_nil in Hr|cbn; lia]].
  eapply Nat.lt_le_trans; [apply (filter_length_lt _ (fun _ => true) _ r); [done|done| |done]|].
  - unfold lower. rewrite El. lia.
  - clear. induction t.2; cbn in *; lia.
Qed.

Section Walk.
Context {CR : Crypto} (m : RateLimitPolicyManager) (Hm : rm_hasEntities m = true).

(** The policies of an entity and of those above it, from the entity up. *)
Definition chain_policies (t : tree) (r : TEntity) : list Z := omap te_RateLimitPolicyID (ancestors (length t.2) t.2 r).

Lemma ancestors_enough t : forest t -> forall fuel fuel' r, r ∈ t.2 -> (height t r < fuel)%nat -> (height t r < fuel')%nat ->
  ancestors fuel t.2 r = ancestors fuel' t.2 r.
Proof.
  intros Ht. induction fuel as [|fuel IH]; intros fuel' r Hr H1 H2; [lia|]. destruct fuel' as [|fuel']; [lia|].
  cbn [ancestors]. f_equal. destruct (te_ParentID r) as [p|] eqn:Ep; [|done]. case_bool_decide as Hb; [done|].
  destruct (entity_at t.2 p) as [q|] eqn:Eq; [|done]. destruct (parent_lower t r p q Ht Hr Ep Hb Eq) as [Hq Hlt].
  apply IH; [done|lia..].
Qed.

Lemma walk_fuel t : forest t -> forall fuel r, r ∈ t.2 -> (height t r < fuel)%nat ->
  hoare (fun w => tree_of (ow_data w) = t) (fetchEntityRateLimitPolicyIDs fuel m (entityParamToData r))
    (fun res w => tree_of (ow_data w) = t /\
      (res = Some (Err DaoError) \/ res = Some (Ok (omap te_RateLimitPolicyID (ancestors fuel t.2 r))))).
Proof.
  intros Ht. induction fuel as [|fuel IH]; intros r Hr Hf; [lia|]. cbn [fetchEntityRateLimitPolicyIDs ancestors].
  cbv zeta. cbn [entityParamToData ep_ParentID ep_RateLimitPolicyID]. rewrite Hm. cbn [negb].
  assert (forall (l : list TEntity), omap te_RateLimitPolicyID (r :: l) =
    ((match te_RateLimitPolicyID r with Some i => [i] | None => [] end) ++ omap te_RateLimitPolicyID l)%list) as Hcons
    by (intros l; cbn; by destruct (te_RateLimitPolicyID r)). rewrite Hcons.
  destruct (te_ParentID r) as [p|] eqn:Ep; [|apply hoare_ret; intros w Hw; split; [done|right; by rewrite app_nil_r]].
  rewrite orb_false_r. case_bool_decide as Hb; [apply hoare_ret; intros w Hw; split; [done|right; by rewrite app_nil_r]|].
  apply (hoare_query (fun t w => tree_of (ow_data w) = t) t (FetchEntityRow (byEntityID (Some p))) (found_entity (byEntityID (Some p))));
    [done|by intros w <-|done|apply hoare_ret; auto|].
  unfold found_entity. fold (entity_at t.2 p). destruct (entity_at t.2 p) as [q|] eqn:Eq; cbn [fmap option_fmap option_map].
  2: { apply hoare_ret. intros w Hw. split; [done|right]. by rewrite app_nil_r. }
  destruct (parent_lower t r p q Ht Hr Ep Hb Eq) as [Hq Hlt].
  eapply hoare_bind; [apply (IH q Hq); lia|]. intros res. apply hoare_fact. intros [->| ->]; apply hoare_ret; auto.
Qed.

(** C29: the walk from an entity to the root, which the code writes without a
    bound, ends in a tree that requests have built: a bound of the number of
    entities never cuts it short, whatever calls fail.  It gives the policies
    of the entity and of those above it in this order, or the error of the
    database. *)
Theorem ancestor_walk_ends (t : tree) (r : TEntity) (fuel : nat) os w :
  forest t -> tree_of (ow_data w) = t -> r ∈ t.2 -> (length t.2 <= fuel)%nat ->
  let res := (exec os (fetchEntityRateLimitPolicyIDs fuel m (entityParamToData r)) w).1 in
  res = Some (Err DaoError) \/ res = Some (Ok (chain_policies t r)).
Proof.
  intros Ht Hw Hr Hf res. pose proof (height_bound t r Hr) as Hh.
  destruct (walk_fuel t Ht fuel r Hr ltac:(lia) os w Hw) as [_ [H|H]]; [by left|right].
  unfold chain_policies. by rewrite (ancestors_enough t Ht (length t.2) fuel r Hr) by lia.
Qed.
End Walk.

(** * The tree *)

Definition entity_forest (w : oworld) : Prop := forest (tree_of (ow_data w)).

(** C27: whatever requests on entity types, entities and API keys are served and
    whatever calls fail or are done in spite of an error, the names and ids
    stay unique and every parent exists and stands on a lower level than its
    child, as long as no update gives an entity another id or a type another
    level. *)
Theorem entities_form_forest {CR : Crypto} To From cond maxQuota order em am qm typeLog
    (h : list (list outcome * request)) (w : oworld) :
  em_hasTypes em = true -> Forall (fun x => regular x.2) h -> entity_forest w -> ow_saved w = None ->
  entity_forest (history To From cond maxQuota order em am qm typeLog h w).
Proof. apply forest_history. Qed.

(** ** Samples *)

Lemma empty_forest : entity_forest empty_world.
Proof. split; try constructor. by intros ? ? ?%elem_of_nil. Qed.
Lemma two_world_forest : entity_forest two_world.
Proof. apply forest_history; [done|repeat constructor|apply empty_forest|done]. Qed.

Definition ops_row : TEntity :=
  default (mkTEntity 0 "" "" "" "" None [] [] None None None 0%Z 0%Z) (entity_at (od_entities (ow_data two_world)) "ops").

Example ancestor_walk_ends_witness :
  let t := tree_of (ow_data two_world) in
  let res := (exec [FailAfter] (fetchEntityRateLimitPolicyIDs 2 rlm (entityParamToData ops_row)) two_world).1 in
  map te_EntityID (ancestors (length t.2) t.2 ops_row) = ["ops"; "acme"] /\
  (res = Some (Err DaoError) \/ res = Some (Ok (chain_policies t ops_row))).
Proof.
  cbv zeta. split; [vm_compute; reflexivity|]. apply (ancestor_walk_ends rlm eq_refl).
  - apply two_world_forest.
  - reflexivity.
  - apply (list_elem_of_lookup_2 _ 1). vm_compute. reflexivity.
  - vm_compute. lia.
Defined.

Example entities_form_forest_witness :
  let h := [([Normal; Normal; FailAfter], CreateTypeReq (type_request "squad" 3)); ([], DeleteEntityReq "ops")] in
  let w := history milli of_milli (fun _ => true) (float_of_Z 1000000) (fun l => l) sample_em sample_am sample_qpm true h two_world in
  length (od_types (ow_data w)) = 3%nat /\ length (od_entities (ow_data w)) = 1%nat /\ entity_forest w.
Proof.
  cbv zeta. split; [vm_compute; reflexivity|]. split; [vm_compute; reflexivity|].
  apply entities_form_forest; [done|repeat constructor|apply two_world_forest|done].
Defined.

(** * Two requests that break it *)

Definition has_parent (es : list TEntity) (r : TEntity) : bool :=
  match te_ParentID r with
  | Some p => negb (bool_decide (p = "")) && match entity_at es p with Some _ => true | None => false end
  | None => false
  end.

(** When every entity has a parent, no walk ends. *)
Lemma no_root_never_ends {CR : Crypto} (m : RateLimitPolicyManager) w : rm_hasEntities m = true ->
  forallb (has_parent (od_entities (ow_data w))) (od_entities (ow_data w)) = true ->
  forall fuel r, r ∈ od_entities (ow_data w) ->
    exec [] (fetchEntityRateLimitPolicyIDs fuel m (entityParamToData r)) w = (None, w).
Proof.
  intros Hm HC. rewrite forallb_forall in HC. induction fuel as [|fuel IH]; intros r Hr; [done|].
  specialize (HC r ltac:(by apply list_elem_of_In)). unfold has_parent in HC.
  cbn [fetchEntityRateLimitPolicyIDs entityParamToData ep_ParentID]. cbv zeta.
  destruct (te_ParentID r) as [p|]; [|done]. rewrite Hm. case_bool_decide as Hb; [done|]. cbn [negb andb orb] in *.
  destruct (entity_at _ p) as [q|] eqn:Hq; [|done].
  rewrite exec_bind_nil. change (exec [] (call ?e) w) with (handle e w).
  assert (handle (FetchEntityRow (byEntityID (Some p))) w = (Ok (Some (entityParamToData q)), w)) as ->
    by (cbn -[where_entity]; unfold entity_at in Hq; by rewrite Hq).
  cbn [fst snd]. rewrite exec_bind_nil, IH; [done|]. apply find_some in Hq as [Hq _]. by apply list_elem_of_In.
Qed.

(** The company goes under the team once its level is above it. *)
Definition level_requests : list request := [
  UpdateTypeReq "company" (mkEntityType None None None (Some 9%Z) None);
  UpdateEntityReq false "acme" (entity_change None (Some "ops"))
].
Definition cycle_world : oworld := sample_history level_requests two_world.

(** An update of an entity type takes any level, whatever entities have
    the type.  After one, an entity may be given its own child as its parent:
    the walk from each of the two never ends, however long it runs, although
    no call fails. *)
Theorem level_change_makes_endless_walk (fuel : nat) (r : TEntity) :
  r ∈ od_entities (ow_data cycle_world) ->
  (exec [] (fetchEntityRateLimitPolicyIDs fuel rlm (entityParamToData r)) cycle_world).1 = None.
Proof.
  intros Hr. rewrite no_root_never_ends; [done|done| |done]. vm_compute. reflexivity.
Qed.

Example level_change_makes_endless_walk_witness :
  map (fun r => (te_EntityID r, te_ParentID r)) (od_entities (ow_data cycle_world)) = [("acme", Some "ops"); ("ops", Some "acme")] /\
  (exec [] (RateLimitPolicyGenerator 100 rlm) cycle_world).1 = Some (Ok (mkExportConfig default_config ∅ ∅)) /\
  (exec [] (fetchEntityRateLimitPolicyIDs 1000 rlm
     (entityParamToData (default ops_row (head (od_entities (ow_data cycle_world)))))) cycle_world).1 = None.
Proof.
  split; [vm_compute; reflexivity|]. split; [vm_compute; reflexivity|]. apply level_change_makes_endless_walk.
  apply (list_elem_of_lookup_2 _ 0). vm_compute. reflexivity.
Defined.

(** The body of an update of an entity may carry an id, which replaces the
    id of the row, by either kind of update: the child of the entity is left
    with a parent that does not exist, and the entities form no forest any
    more. *)
Theorem update_with_id_orphans_children (full : bool) :
  let w := history milli of_milli (fun _ => true) (float_of_Z 1000000) (fun l => l) sample_em sample_am sample_qpm true
    [([], UpdateEntityReq full "acme" (entity_change (Some "other") None))] two_world in
  map (fun r => (te_EntityID r, te_ParentID r)) (od_entities (ow_data w)) = [("other", None); ("ops", Some "acme")] /\
  ~ entity_forest w.
Proof.
  cbv zeta. split; [destruct full; vm_compute; reflexivity|]. intros Hf.
  assert (ops_row ∈ od_entities (ow_data (history milli of_milli (fun _ => true) (float_of_Z 1000000) (fun l => l) sample_em
    sample_am sample_qpm true [([], UpdateEntityReq full "acme" (entity_change (Some "other") None))] two_world))) as Hin
    by (apply (list_elem_of_lookup_2 _ 1); destruct full; vm_compute; reflexivity).
  destruct (fo_edges _ Hf ops_row "acme" Hin eq_refl ltac:(done)) as (r & _ & _ & Hr & _).
  destruct full; vm_compute in Hr; discriminate.
Qed.
