(* ===== verification/RateLimitSpec.v ===== *)
(** The export of rate limit policies: which policies reach the gateway and
    which of them bind an API key. *)
From Stdlib Require Import ZArith Lia SpecFloat.
From stdpp Require Import base tactics numbers list strings gmap option.
From S2P Require Import Prelude GoStrings GoTime Prog QuotaModel QuotaManager XCrypto SharedTypes Validate OwnerModel OwnerCommon EntityManager ApiKeyManager OwnerEndpoints EntityRequests EntitySpec EntityForest.

Local Open Scope string_scope.

#[export] Instance policy_name_inj : Inj (=) (=) policy_name.
Proof. intros a b H. apply FormatInt_inj. by injection H. Qed.

(** * What the export should hold *)

(** A policy that is known and enabled. *)
Definition active (policies : gmap Z PolicyParam) (i : Z) : option PolicyParam :=
  match policies !! i with
  | Some p => if default false (pp_Enabled p) then Some p else None
  | None => None
  end.
Definition active_names (policies : gmap Z PolicyParam) (ids : list Z) : list string :=
  map policy_name (List.filter (fun i => match active policies i with Some _ => true | None => false end) ids).

(** The policies of a key: its own, then those of its entity up to the root. *)
Definition key_policies (d : odata) (k : APIKeyParam) : list Z :=
  (match ak_RateLimitPolicyID k with Some i => [i] | None => [] end ++
   match ak_EntityID k with
   | Some e => if bool_decide (e = "") then [] else
       match entity_at (od_entities d) e with Some r => chain_policies (tree_of d) r | None => [] end
   | None => []
   end)%list.

Definition bound (c : ExportRateLimitPolicyConfig) (key : string) : list string := default [] (xc_Bindings c !! key).

(** The bindings are the active policies of the keys, the policies exported are
    those that some key is bound to, each once, as its row has it. *)
Record exports (d : odata) (keys : list APIKeyParam) (c : ExportRateLimitPolicyConfig) : Prop := {
  xs_config : xc_Config c = default_config;
  xs_bound : forall key, bound c key = flat_map (fun k =>
    if bool_decide (ak_Key k = Some key)
    then active_names (policy_map (map rateLimitPolicyParamToData (od_policies d))) (key_policies d k) else []) keys;
  xs_policies : forall name x, xc_RateLimitPolicies c !! name = Some x <->
    exists k key i p, k ∈ keys /\ ak_Key k = Some key /\ i ∈ key_policies d k /\
      active (policy_map (map rateLimitPolicyParamToData (od_policies d))) i = Some p /\ name = policy_name i /\ x = export_policy i p
}.

(** * One key *)

Section Bind.
Context (P : gmap Z PolicyParam).

(** What has been exported comes from a set of identifiers. *)
Definition exported_from (S : Z -> Prop) (c : ExportRateLimitPolicyConfig) : Prop :=
  forall name x, xc_RateLimitPolicies c !! name = Some x <->
    exists i p, S i /\ active P i = Some p /\ name = policy_name i /\ x = export_policy i p.

Lemma bind_policy_active key i c :
  bind_policy P key i c = match active P i with
  | None => c
  | Some p => mkExportConfig (xc_Config c)
        (match xc_RateLimitPolicies c !! policy_name i with
         | Some _ => xc_RateLimitPolicies c
         | None => <[policy_name i := export_policy i p]> (xc_RateLimitPolicies c)
         end)
        (<[key := (default [] (xc_Bindings c !! key) ++ [policy_name i])%list]> (xc_Bindings c))
  end.
Proof. unfold bind_policy, active. destruct (P !! i) as [p|]; [|done]. by destruct (default false (pp_Enabled p)). Qed.

Lemma bind_policy_bound key i c key' :
  bound (bind_policy P key i c) key' = (bound c key' ++ (if bool_decide (key = key') then active_names P [i] else []))%list.
Proof.
  rewrite bind_policy_active. unfold bound, active_names. cbn [List.filter]. destruct (active P i); cbn [xc_Bindings].
  - case_bool_decide as Hk; [subst; by rewrite lookup_insert_eq|by rewrite lookup_insert_ne, app_nil_r].
  - by destruct (bool_decide _); rewrite app_nil_r.
Qed.

Lemma bind_policy_exported S key i c :
  exported_from S c -> exported_from (fun j => S j \/ j = i) (bind_policy P key i c).
Proof.
  intros Hc name x. rewrite bind_policy_active. destruct (active P i) as [p|] eqn:Ea.
  2: { rewrite (Hc name x). split; intros (j & q & Hj & Hq & H); exists j, q; (split; [|done]); [by left|].
       destruct Hj as [Hj| ->]; [done|congruence]. }
  cbn [xc_RateLimitPolicies]. destruct (xc_RateLimitPolicies c !! policy_name i) as [y|] eqn:Ey.
  - rewrite (Hc name x). split; intros (j & q & Hj & Hq & H); exists j, q; (split; [|done]); [by left|].
    destruct Hj as [Hj| ->]; [done|]. apply Hc in Ey as (j & q' & Hj & _ & Hn & _). apply (inj policy_name) in Hn. by subst.
  - rewrite lookup_insert_Some, (Hc name x). split.
    + intros [[<- <-]|[Hne (j & q & Hj & Hq & H)]]; [exists i, p; by auto|exists j, q; by auto].
    + intros (j & q & [Hj| ->] & Hq & -> & ->); [|left; split; [done|congruence]].
      destruct (decide (i = j)) as [->|Hne]; [left; split; [done|congruence]|right].
      split; [by intros ?%(inj policy_name)|]. exists j, q. auto.
Qed.

Lemma active_names_app l l' : active_names P (l ++ l')%list = (active_names P l ++ active_names P l')%list.
Proof. unfold active_names. by rewrite List.filter_app, map_app. Qed.

Lemma bind_policies_bound key ids c key' :
  bound (bind_policies P key ids c) key' = (bound c key' ++ (if bool_decide (key = key') then active_names P ids else []))%list.
Proof.
  unfold bind_policies. revert c. induction ids as [|i ids IH]; intros c; cbn [fold_left].
  - destruct (bool_decide _); by rewrite app_nil_r.
  - rewrite IH, bind_policy_bound, <- app_assoc. f_equal. case_bool_decide; [|done].
    change (i :: ids) with ([i] ++ ids)%list. by rewrite active_names_app.
Qed.

Lemma exported_ext S S' c : (forall i, S i <-> S' i) -> exported_from S c -> exported_from S' c.
Proof. intros HS Hc name x. rewrite (Hc name x). by setoid_rewrite HS. Qed.

Lemma bind_policies_exported S key ids c :
  exported_from S c -> exported_from (fun j => S j \/ j ∈ ids) (bind_policies P key ids c).
Proof.
  unfold bind_policies. revert S c. induction ids as [|i ids IH]; intros S c Hc; cbn [fold_left].
  - eapply exported_ext; [|done]. intros j. rewrite elem_of_nil. tauto.
  - eapply exported_ext; [|apply IH, (bind_policy_exported S key i), Hc]. intros j. cbn. rewrite elem_of_cons. tauto.
Qed.

Lemma bind_policies_config key ids c : xc_Config (bind_policies P key ids c) = xc_Config c.
Proof.
  unfold bind_policies. revert c. induction ids as [|i ids IH]; intros c; cbn [fold_left]; [done|].
  rewrite IH, bind_policy_active. by destruct (active P i).
Qed.
End Bind.

(** * All keys *)

Section Exporting.
Context {CR : Crypto} (m : RateLimitPolicyManager) (Hm : rm_hasEntities m = true).
Context (d : odata) (Hd : forest (tree_of d)) (fuel : nat) (Hfuel : (length (od_entities d) <= fuel)%nat).

(** The world is left as it is: the export only reads. *)
#[local] Abbreviation same_rows w0 := (fun w : oworld => w = w0).

Lemma walk_same fu r w0 : ow_data w0 = d -> hoare (same_rows w0) (fetchEntityRateLimitPolicyIDs fu m r) (fun _ => same_rows w0).
Proof.
  intros H0. revert r. induction fu as [|fu IH]; intros r; cbn [fetchEntityRateLimitPolicyIDs]; [by apply hoare_ret|]. cbv zeta.
  destruct (ep_ParentID r) as [p|]; [|by apply hoare_ret]. destruct (_ || _); [by apply hoare_ret|].
  eapply hoare_read; [reflexivity|done|by apply hoare_ret|].
  destruct (List.find _ _) as [q|]; cbn [fmap option_fmap option_map]; [|by apply hoare_ret].
  eapply hoare_bind; [apply IH|]. intros [[l|e]|]; by apply hoare_ret.
Qed.

Lemma walk_result w0 r : ow_data w0 = d -> r ∈ od_entities d ->
  hoare (same_rows w0) (fetchEntityRateLimitPolicyIDs fuel m (entityParamToData r))
    (fun res w => same_rows w0 w /\ (res = Some (Err DaoError) \/ res = Some (Ok (chain_policies (tree_of d) r)))).
Proof.
  intros H0 Hr os w ->. split; [by apply (walk_same _ _ w0 H0 os)|].
  assert (height (tree_of d) r < fuel)%nat as Hh by (pose proof (height_bound (tree_of d) r Hr); cbn in *; lia).
  destruct (walk_fuel m Hm (tree_of d) Hd fuel r Hr Hh os w0) as [_ [H|H]]; [by rewrite H0|by left|right].
  rewrite H. unfold chain_policies. rewrite (ancestors_enough (tree_of d) Hd (length (tree_of d).2) fuel r Hr); [done| |done].
  by apply height_bound.
Qed.

Lemma key_policies_result w0 k : ow_data w0 = d ->
  hoare (same_rows w0) (fetchRateLimitPolicyIDsWithEntityHierarchy fuel m k)
    (fun res w => same_rows w0 w /\ (res = Some (Err DaoError) \/ res = Some (Ok (key_policies d k)))).
Proof.
  intros H0. unfold fetchRateLimitPolicyIDsWithEntityHierarchy, key_policies. cbv zeta. rewrite Hm. cbn [negb].
  destruct (ak_EntityID k) as [e|]; [|apply hoare_ret; intros w Hw; rewrite app_nil_r; auto].
  rewrite orb_false_r. case_bool_decide; [apply hoare_ret; intros w Hw; rewrite app_nil_r; auto|].
  eapply hoare_read; [reflexivity|done|apply hoare_ret; auto|]. rewrite H0. fold (entity_at (od_entities d) e).
  destruct (entity_at (od_entities d) e) as [r|] eqn:Er; cbn [fmap option_fmap option_map].
  2: { apply hoare_ret. intros w Hw. rewrite app_nil_r. auto. }
  apply find_some in Er as [Hin _]. apply list_elem_of_In in Hin.
  eapply hoare_bind; [by apply walk_result|]. intros res. apply hoare_fact. intros [->| ->]; apply hoare_ret; auto.
Qed.

(** What has been bound after some keys. *)
Definition so_far (P : gmap Z PolicyParam) (done : list APIKeyParam) (c : ExportRateLimitPolicyConfig) : Prop :=
  xc_Config c = default_config /\
  (forall key, bound c key = flat_map (fun k => if bool_decide (ak_Key k = Some key) then active_names P (key_policies d k) else []) done) /\
  exported_from P (fun i => exists k key, k ∈ done /\ ak_Key k = Some key /\ i ∈ key_policies d k) c.

Lemma so_far_skip P done k c : ak_Key k = None -> so_far P done c -> so_far P (done ++ [k])%list c.
Proof.
  intros Hk (H1 & H2 & H3). split; [done|]. split.
  - intros key. rewrite H2, flat_map_app. cbn. by rewrite Hk, bool_decide_false, !app_nil_r.
  - eapply exported_ext; [|done]. intros i. split; intros (k' & key & Hin & H); exists k', key; (split; [|done]).
    + apply elem_of_app. by left.
    + apply elem_of_app in Hin as [?| ->%list_elem_of_singleton]; [done|]. destruct H. congruence.
Qed.

Lemma so_far_bind P done k key c : ak_Key k = Some key -> so_far P done c ->
  so_far P (done ++ [k])%list (bind_policies P key (key_policies d k) c).
Proof.
  intros Hk (H1 & H2 & H3). split; [by rewrite bind_policies_config|]. split.
  - intros key'. rewrite bind_policies_bound, H2, flat_map_app. cbn. rewrite Hk, app_nil_r. f_equal.
    by destruct (decide (key = key')) as [->|?]; [rewrite !bool_decide_true|rewrite !bool_decide_false by congruence].
  - eapply exported_ext; [|apply bind_policies_exported, H3]. intros i. cbn. split.
    + intros [(k' & key' & Hin & H)|Hi]; [exists k', key'|exists k, key]; (split; [|done]); rewrite elem_of_app; [by left|right; by left].
    + intros (k' & key' & [Hin| ->%list_elem_of_singleton]%elem_of_app & H); [left; eauto|right; by destruct H].
Qed.

Lemma bind_keys_result P w0 keys done c : ow_data w0 = d -> so_far P done c ->
  hoare (same_rows w0) (bind_keys fuel m P keys c)
    (fun res w => same_rows w0 w /\ ((exists e, res = Some (Err e)) \/ exists c', res = Some (Ok c') /\ so_far P (done ++ keys)%list c')).
Proof.
  intros H0. revert done c. induction keys as [|k keys IH]; intros done c Hc; cbn [bind_keys].
  { apply hoare_ret. intros w Hw. split; [by destruct Hw|right]. exists c. by rewrite app_nil_r. }
  assert (forall c', so_far P (done ++ [k])%list c' -> hoare (same_rows w0) (bind_keys fuel m P keys c')
    (fun res w => same_rows w0 w /\ ((exists e, res = Some (Err e)) \/ exists c', res = Some (Ok c') /\ so_far P (done ++ k :: keys)%list c'))) as Hgo.
  { intros c' Hc'. eapply hoare_post; [|apply (IH _ _ Hc')]. intros res w. by rewrite <- app_assoc. }
  destruct (ak_Key k) as [key|] eqn:Ek; [|apply Hgo; by apply so_far_skip].
  eapply hoare_bind; [by apply key_policies_result|]. intros res. apply hoare_fact. intros [->| ->].
  - apply hoare_ret. eauto.
  - apply Hgo. by apply so_far_bind.
Qed.

Lemma so_far_start P : so_far P [] (mkExportConfig default_config ∅ ∅).
Proof.
  split; [done|]. split; [intros key; unfold bound; cbn; by rewrite lookup_empty|]. intros name x. cbn. rewrite lookup_empty.
  split; [done|]. intros (i & p & (k & key & Hin & _) & _). by apply elem_of_nil in Hin.
Qed.

(** C28: the export of the rate limit policies ends in every forest of
    entities, given as much fuel as there are entities.  Whatever calls fail, it
    changes nothing and either reports an error or gives exactly what the rows
    say: a key is bound to the known and enabled policies among its own and those of its entity and the entities
    above it, in this order, and a policy is in the export, as its row has it,
    when a key is bound to it. *)
Theorem rate_limit_export_exact os w : ow_data w = d ->
  let res := exec os (RateLimitPolicyGenerator fuel m) w in
  res.2 = w /\
  ((exists e, res.1 = Some (Err e)) \/
   exists keys c, list_keys (ow_sec w) anyKey (od_keys d) = Ok keys /\ res.1 = Some (Ok c) /\ exports d keys c).
Proof.
  intros H0. assert (hoare (same_rows w) (RateLimitPolicyGenerator fuel m) (fun res w' => w' = w /\
    ((exists e, res = Some (Err e)) \/ exists keys c, list_keys (ow_sec w) anyKey (od_keys d) = Ok keys /\ res = Some (Ok c) /\ exports d keys c)))
    as H; [|by apply (H os w)].
  unfold RateLimitPolicyGenerator. eapply hoare_read; [reflexivity|done|apply hoare_ret; eauto|]. rewrite H0.
  destruct (list_keys _ _ _) as [keys|e] eqn:Ek; [|apply hoare_ret; eauto].
  eapply hoare_read; [reflexivity|done|apply hoare_ret; eauto|]. rewrite H0. cbn [where_policy].
  eapply hoare_post; [|apply (bind_keys_result _ w keys [] _ H0), so_far_start].
  intros res w' [Hw [He|(c & Hc & H1 & H2 & H3)]]; (split; [done|]); [by left|right]. exists keys, c. split; [done|]. split; [done|].
  replace (List.filter (where_policy (mkPolicyFilter None)) (od_policies d)) with (od_policies d) in *.
  2: { clear. induction (od_policies d) as [|p l IH]; [done|]. cbn. by rewrite <- IH. }
  split; [done|done|]. intros name x. rewrite (H3 name x). cbn. split.
  - intros (i & p & (k & key & Hin & Hk & Hi) & H). by exists k, key, i, p.
  - intros (k & key & i & p & Hin & Hk & Hi & H). exists i, p. split; [by exists k, key|done].
Qed.
End Exporting.

(** ** A sample: a key of the team with a policy of its own, under a company
    with another one. *)
Definition concurrency (n : Z) : RateLimitPolicyParam := mkRateLimitPolicy (Some true) (Some (mkRateLimitRules [] [] (Some n) None)).
Definition policy_change (n : Z) : EntityParam :=
  mkEntity None None None None None None [] [] None None None None None None None (Some (concurrency n)) None.
Definition key_request (id key : string) (entity : option string) (policy : option RateLimitPolicyParam) : APIKeyParam :=
  mkAPIKey (Some id) (Some true) None None None None (Some key) None (Some true) None [] [] entity None None None (Some "AI_product")
    None None None None policy None None.
Definition bound_world : oworld := sample_history
  [UpdateEntityReq false "acme" (policy_change 5); CreateKeyReq (key_request "k1" "sk-1" (Some "ops") (Some (concurrency 2)));
   CreateKeyReq (key_request "k2" "sk-2" None None)] two_world.

Example rate_limit_export_exact_witness :
  let res := exec [] (RateLimitPolicyGenerator 2 rlm) bound_world in
  (exists c, res.1 = Some (Ok c) /\ bound c "sk-1" = ["rlp-3"; "rlp-1"] /\ bound c "sk-2" = []) /\
  res.2 = bound_world /\
  ((exists e, res.1 = Some (Err e)) \/
   exists keys c, list_keys (ow_sec bound_world) anyKey (od_keys (ow_data bound_world)) = Ok keys /\ res.1 = Some (Ok c) /\
     exports (ow_data bound_world) keys c).
Proof.
  cbv zeta. split; [eexists; split; [vm_compute; reflexivity|split; vm_compute; reflexivity]|].
  apply (rate_limit_export_exact rlm eq_refl (ow_data bound_world)); [|vm_compute; lia|done].
  apply (forest_history milli of_milli (fun _ => true) (float_of_Z 1000000) (fun l => l) sample_em sample_am sample_qpm true);
    [done|repeat constructor|apply two_world_forest|done].
Defined.
