(* ===== verification/OwnerAtomic.v ===== *)
(** An operation on an entity or an API key that fails has changed nothing:
    neither a table nor a quota plan nor a counter. *)
From Stdlib Require Import ZArith Lia SpecFloat.
From stdpp Require Import base tactics numbers list strings gmap option.
From S2P Require Import Prelude GoStrings GoTime Prog QuotaModel QuotaManager XCrypto SharedTypes Validate OwnerModel OwnerCommon EntityManager ApiKeyManager OwnerEndpoints EntityRequests EntitySpec.

Local Open Scope string_scope.

(** The rows, the plans and the counters. *)
Definition same_state (w w' : oworld) : Prop :=
  ow_data w' = ow_data w /\ q_plans (ow_q w') = q_plans (ow_q w) /\ q_redis (ow_q w') = q_redis (ow_q w).
(** Inside of a transaction: what a rollback needs. *)
Definition same_saved (w w' : oworld) : Prop :=
  ow_saved w' = ow_saved w /\ q_saved (ow_q w') = q_saved (ow_q w) /\ q_redis (ow_q w') = q_redis (ow_q w).

#[export] Instance same_state_preorder : PreOrder same_state.
Proof. split; unfold same_state; [done|]. intros w1 w2 w3 (?&?&?) (?&?&?). split; [|split]; congruence. Qed.
#[export] Instance same_saved_preorder : PreOrder same_saved.
Proof. split; unfold same_saved; [done|]. intros w1 w2 w3 (?&?&?) (?&?&?). split; [|split]; congruence. Qed.

(** Statements of a transaction; reads and log entries. *)
Definition statement (R : Type) (e : ownerE R) : Prop :=
  match e with
  | Quota e => match e with TxBegin | TxCommit | TxRollback | IncrBy _ _ | SetQuota _ _ | DeleteKey _ => False | _ => True end
  | _ => True
  end.
Definition reading (R : Type) (e : ownerE R) : Prop :=
  match e with
  | Quota e => match e with
      | FetchQuotaPlanRow _ | FetchQuotaPlanRows _ | FetchPlanAPIKeys _ | FetchPlanEntities _ | GetInt64 _
      | GetInt64Batch _ | ClockNow | RecordPlan _ => True
      | _ => False
      end
  | FetchEntityTypeRow _ | FetchEntityTypeRows _ | FetchEntityRow _ | FetchEntityRows _ | FetchPolicyRow _ | FetchPolicyRows _
  | FetchRouteRow _ | FetchKeyRows _ | FetchTokenRows _ | NewUUID | AllocateEntityID | AllocateKeyID _ | RandomBytes _ | RecordOp _ => True
  | _ => False
  end.

Section Calls.
Context {CR : Crypto}.

#[export] Instance owner_transactional : Transactional ownerE oworld same_state same_saved.
Proof.
  split; try apply _.
  - intros [] w e; by split.
  - intros [] [] w w1 Hok (Hs & Hp & Hr); try discriminate Hok; unfold same_state; cbn in *; rewrite ?Hs, ?Hp, ?Hr; done.
  - done.
  - by intros w.
  - by intros [] w.
  - done.
Qed.

Lemma inserting_state {A} tb w (row : option A) l u put : same_saved w (inserting tb w row l u put).2.
Proof. unfold inserting. destruct row; [|done]. by destruct (u _). Qed.
Lemma updating_state {A} w (hit : A -> bool) set l u put : same_saved w (updating w hit set l u put).2.
Proof. unfold updating. by destruct (u _). Qed.

Lemma statement_handle R (e : ownerE R) w : statement R e -> same_saved w (handle e w).2.
Proof.
  intros He. destruct e as [R e| | | | | | | | | | | | | | | | | | | | | | | | | | | | | | |]; try done.
  { destruct e; try done; unfold same_saved; cbn; repeat case_match; simplify_eq; done. }
  all: cbn -[inserting updating]; try apply inserting_state; try apply updating_state.
  - destruct (stored_key _ _ _); [|done]. exact (inserting_state _ (draw w) _ _ _ _).
  - destruct (stored_key _ _ _); [|done]. exact (updating_state (draw w) _ _ _ _ _).
  - destruct (updating _ _ _ _ _ _) as [r w'] eqn:E. cbn. change w' with (r, w').2. rewrite <- E. apply updating_state.
Qed.

Lemma reading_handle R (e : ownerE R) w : reading R e -> same_state w (handle e w).2.
Proof.
  intros He. destruct e as [R e| | | | | | | | | | | | | | | | | | | | | | | | | | | | | | |]; try done.
  by destruct e.
Qed.

#[export] Instance owner_reading : ReadingCalls ownerE oworld same_state reading.
Proof. exact reading_handle. Qed.
#[export] Instance owner_statement : StatementCalls ownerE oworld same_saved statement.
Proof. exact statement_handle. Qed.
End Calls.

#[local] Notation fails_clean := (fails_clean same_state).
#[local] Notation clean_reading := (clean_reading same_state reading).
#[local] Notation clean_bind := (clean_bind same_state reading).
#[local] Notation clean_atom := (clean_atom same_state reading same_saved statement).

Create HintDb owner.
Ltac owner_go := repeat first [solve [auto with owner] | calls_step | exact I | progress cbn [via bind call]
  | match goal with |- all_calls _ (via (match ?x with _ => _ end)) => destruct x end].

(** * Bodies and audits *)

Section Bodies.
Lemma reading_statement {A} (p : prog ownerE A) : all_calls reading p -> all_calls statement p.
Proof.
  apply all_calls_weaken. intros R e. destruct e as [R e| | | | | | | | | | | | | | | | | | | | | | | | | | | | | | |]; try done.
  by destruct e.
Qed.

Lemma sm_create_plan b p : all_calls statement (create_plan b p).
Proof. unfold create_plan, adapterCreate. owner_go. Qed.
Lemma sm_create_policy b p : all_calls statement (create_policy b p).
Proof. unfold create_policy, policyAdapterCreate. owner_go. Qed.
Lemma sm_create_route b ty o p : all_calls statement (create_route b ty o p).
Proof. unfold create_route. owner_go. Qed.
Lemma sm_change_plan b h p : all_calls statement (change_plan b h p).
Proof. unfold change_plan, adapterUpdate. destruct h, p; try apply sm_create_plan. owner_go. Qed.
Lemma sm_change_route b h ty o p : all_calls statement (change_route b h ty o p).
Proof. unfold change_route. destruct h, p; try apply sm_create_route. owner_go. Qed.
Lemma rd_policyAdapterFetch i : all_calls reading (policyAdapterFetch i).
Proof. unfold policyAdapterFetch. owner_go. Qed.
Lemma rd_adapterFetch i : all_calls reading (via (adapterFetch i)).
Proof. unfold adapterFetch. owner_go. Qed.
Lemma rd_soft_plan b i : all_calls reading (soft_plan b i).
Proof. unfold soft_plan. pose proof rd_adapterFetch. owner_go; auto. Qed.
Lemma rd_old_policy b i : all_calls reading (old_policy b i).
Proof. unfold old_policy. pose proof rd_policyAdapterFetch. owner_go; auto. Qed.
Lemma sm_change_policy b h p : all_calls statement (change_policy b h p).
Proof.
  unfold change_policy, policyAdapterUpdate, policyAdapterFetch, create_policy, policyAdapterCreate. destruct h, p; owner_go.
Qed.
Lemma sm_delete_owned a b c i j k : all_calls statement (delete_owned a b c i j k).
Proof. unfold delete_owned, adapterDelete, policyAdapterDelete. cbv zeta. owner_go. Qed.
End Bodies.

#[export] Hint Resolve reading_statement sm_create_plan sm_create_policy sm_create_route sm_change_plan sm_change_route
  rd_policyAdapterFetch rd_adapterFetch rd_soft_plan rd_old_policy sm_change_policy sm_delete_owned : owner.

Section Audits.
Lemma rd_recordPlan m a i o b af e : all_calls reading (via (recordQuotaPlanOperation m a i o b af e)).
Proof. unfold recordQuotaPlanOperation. owner_go. Qed.
Lemma rd_recordPolicy m a i b c d e : all_calls reading (recordRateLimitPolicyOperation m a i b c d e).
Proof. unfold recordRateLimitPolicyOperation. owner_go. Qed.
Lemma rd_record m a i b c e : all_calls reading (recordEntityOperation m a i b c e).
Proof. unfold recordEntityOperation. owner_go. Qed.
Lemma rd_recordKey am a k b c e : all_calls reading (recordAPIKeyOperation am a k b c e).
Proof. unfold recordAPIKeyOperation. owner_go. Qed.
End Audits.
#[export] Hint Resolve rd_recordPlan rd_recordPolicy rd_record rd_recordKey : owner.

Ltac audits_unfold :=
  unfold auditNestedQuotaPlanCreate, auditNestedQuotaPlanChange, auditNestedQuotaPlanDelete, auditNestedRateLimitPolicyCreate,
    auditNestedRateLimitPolicyChange, auditNestedRateLimitPolicyDelete, audit_plan, audit_policy, auditKeyPlanCreate,
    auditKeyPlanChange, auditKeyPlanDelete, auditKeyPolicyCreate, auditKeyPolicyChange, auditKeyPolicyDelete, audit_key_plan,
    audit_key_policy, AuditQuotaPlanCreate, AuditQuotaPlanUpdate, AuditQuotaPlanDelete, AuditRateLimitPolicyCreate,
    AuditRateLimitPolicyUpdate, AuditRateLimitPolicyDelete in *.

(** * The operations *)

Section Operations.
Context {CR : Crypto} (To : spec_float -> option string -> Z) (em : EntityManager) (am : APIKeyManager).

Inductive owner_op : Type :=
| NewEntity (p : EntityParam) | ChangeEntity (f : EntityFilter) (p : EntityParam) | DropEntity (f : EntityFilter)
| NewKey (p : APIKeyParam) | ChangeKey (f : APIKeyFilter) (p : APIKeyParam) | DropKey (f : APIKeyFilter)
| NewToken (p : APIKeyTokenParam).

Definition done_with {A} (p : prog ownerE (result A)) : prog ownerE (result unit) := _ <-? p ;; Ret (Ok tt).
Definition perform (o : owner_op) : prog ownerE (result unit) :=
  match o with
  | NewEntity p => done_with (CreateEntity To em p)
  | ChangeEntity f p => done_with (UpdateEntity em f p)
  | DropEntity f => DeleteEntity em f
  | NewKey p => CreateAPIKey To am p
  | ChangeKey f p => UpdateAPIKey am f p
  | DropKey f => DeleteAPIKey am f
  | NewToken p => done_with (CreateAPIKeyToken p)
  end.

Lemma clean_done {A} (p : prog ownerE (result A)) : fails_clean p -> fails_clean (done_with p).
Proof.
  intros Hp os w e. unfold done_with. rewrite exec_bind. specialize (Hp os w).
  destruct (exec os p w) as [[a|e'] w']; cbn in *; [discriminate|]. intros _.
  destruct (Hp e' eq_refl) as [?|?]; [by left|right; by apply unanswered_first].
Qed.

Lemma clean_CreateEntity p : fails_clean (CreateEntity To em p).
Proof.
  unfold CreateEntity. cbv zeta. apply clean_bind; [unfold check_new_entity, checkEntityLevel; cbv zeta; owner_go|].
  intros [e|]; [apply clean_reading; owner_go|]. apply clean_atom.
  - unfold create_entity_body. owner_go.
  - intros e a. audits_unfold. owner_go.
  - intros a. succeeds_go.
Qed.
Lemma clean_UpdateEntity f p : fails_clean (UpdateEntity em f p).
Proof.
  unfold UpdateEntity. apply clean_bind; [owner_go|]. intros existing. cbv zeta. apply clean_bind; [owner_go|]. intros plan.
  apply clean_bind; [unfold check_entity_update, checkEntityLevel; cbv zeta; owner_go|].
  intros [e|]; [apply clean_reading; owner_go|]. apply clean_atom.
  - unfold update_entity_body. cbv zeta. owner_go.
  - intros e a. audits_unfold. owner_go.
  - intros a. succeeds_go.
Qed.
Lemma clean_DeleteEntity f : fails_clean (DeleteEntity em f).
Proof.
  unfold DeleteEntity. apply clean_atom.
  - unfold delete_entity_body. cbv zeta. owner_go.
  - intros e a. audits_unfold. owner_go.
  - intros a. succeeds_go.
Qed.
Lemma clean_CreateAPIKey p : fails_clean (CreateAPIKey To am p).
Proof.
  unfold CreateAPIKey. apply clean_atom.
  - unfold create_key_body, check_key_entity, entityAdapterFetch, check_key_value. cbv zeta. owner_go.
  - intros e a. cbv zeta. audits_unfold. owner_go.
  - intros a. succeeds_go.
Qed.
Lemma clean_UpdateAPIKey f p : fails_clean (UpdateAPIKey am f p).
Proof.
  unfold UpdateAPIKey. apply clean_atom.
  - unfold update_key_body, check_key_entity, entityAdapterFetch. cbv zeta. owner_go.
  - intros e a. cbv zeta. audits_unfold. owner_go.
  - intros a. cbv zeta. succeeds_go.
Qed.
Lemma clean_DeleteAPIKey f : fails_clean (DeleteAPIKey am f).
Proof.
  unfold DeleteAPIKey. apply clean_atom.
  - unfold delete_key_body. cbv zeta. owner_go.
  - intros e a. audits_unfold. owner_go.
  - intros a. succeeds_go.
Qed.
Lemma clean_CreateAPIKeyToken p : fails_clean (CreateAPIKeyToken p).
Proof. unfold CreateAPIKeyToken. apply clean_atom; [owner_go|intros; constructor|intros; apply succeeds_ret]. Qed.

(** C30: an operation of the managers of entities and of API keys that returns
    an error has changed nothing, whatever calls failed and whether or not they
    were done all the same, but for one case: a COMMIT was done and its answer
    was lost.  Nothing means neither the rows of an entity, an API key or a
    token, nor their quota plans, rate limit policies and route rules, nor a
    counter in Redis.  The audit log and the numbers that were taken for new
    rows are no part of this. *)
Theorem owner_operations_atomic (o : owner_op) os w e :
  (exec os (perform o) w).1 = Err e -> same_state w (exec os (perform o) w).2 \/ commit_unanswered os (perform o) w = true.
Proof.
  revert os w e. change (fails_clean (perform o)). destruct o; cbn [perform].
  - apply clean_done, clean_CreateEntity.
  - apply clean_done, clean_UpdateEntity.
  - apply clean_DeleteEntity.
  - apply clean_CreateAPIKey.
  - apply clean_UpdateAPIKey.
  - apply clean_DeleteAPIKey.
  - apply clean_done, clean_CreateAPIKeyToken.
Qed.
End Operations.

Definition limited_entity : EntityParam :=
  mkEntity None (Some "sub") (Some "sub") None (Some "team") (Some "acme") [] [] None None None None None
    (Some (mkSharedPlan (Some false) None (Some (float_of_Z 500)) (Some "total_token") None None)) None None None.

(** The row is written and reported as an error: the transaction undoes it and
    the plan that was created before it. *)
Example owner_operations_atomic_witness :
  let os := (replicate 7 Normal ++ [FailAfter])%list in
  let p := perform milli sample_em sample_am (NewEntity limited_entity) in
  length (q_plans (ow_q (exec [] p two_world).2)) = 3%nat /\ same_state two_world (exec os p two_world).2.
Proof.
  cbv zeta. split; [vm_compute; reflexivity|].
  destruct (owner_operations_atomic milli sample_em sample_am (NewEntity limited_entity) (replicate 7 Normal ++ [FailAfter])%list two_world DaoError) as [H|H];
    [vm_compute; reflexivity|exact H|vm_compute in H; discriminate H].
Defined.
(** The same with the answer of COMMIT lost: an error, and the plan is there. *)
Example created_all_the_same :
  let os := (replicate 8 Normal ++ [FailAfter])%list in
  let p := perform milli sample_em sample_am (NewEntity limited_entity) in
  (exec os p two_world).1 = Err DaoError /\ length (q_plans (ow_q (exec os p two_world).2)) = 3%nat.
Proof. cbv zeta. split; vm_compute; reflexivity. Qed.
