(* ===== verification/ApiKeySpec.v ===== *)
(** API keys: what an update leaves alone, what a generated key looks like and
    what a caller who may only read gets to see. *)
From Stdlib Require Import ZArith Lia SpecFloat Ascii.
From stdpp Require Import base tactics numbers list strings gmap option.
From S2P Require Import Prelude GoStrings GoTime Prog GoNet QuotaModel QuotaManager XCrypto SharedTypes Validate OwnerModel OwnerCommon EntityManager ApiKeyManager OwnerEndpoints EntityRequests EntitySpec RateLimitSpec OwnerAtomic.

Local Open Scope string_scope.

(** * Key material *)

(** What identifies the keys: numbers, ids, stored values and hashes. *)
Definition key_columns (d : odata) : list (Z * string * string * string) :=
  map (fun r => (tk_InnerID r, tk_ID r, tk_Key r, tk_KeyHash r)) (od_keys d).
Definition holds_columns (cols : list (Z * string * string * string)) (w : oworld) : Prop :=
  key_columns (ow_data w) = cols /\ forall d, ow_saved w = Some d -> key_columns d = cols.

(** Calls that neither add nor remove a key nor write its value or its id. *)
Definition column_neutral (R : Type) (e : ownerE R) : Prop :=
  match e with
  | CreateKeyRow _ | DeleteKeyRow _ => False
  | UpdateKeyRow _ p => ak_Key p = None /\ ak_ID p = None
  | _ => True
  end.

Section Columns.
Context {CR : Crypto}.

Lemma inserting_keys {A} tb w (row : option A) l u put cols : (forall l d, od_keys (put l d) = od_keys d) ->
  holds_columns cols w -> holds_columns cols (inserting tb w row l u put).2.
Proof.
  intros Hp [H1 H2]. unfold inserting. destruct row; [|done]. destruct (u _); [|done]. split; [|done].
  cbn. unfold key_columns. by rewrite Hp.
Qed.
Lemma updating_keys {A} w (hit : A -> bool) set l u put cols : (forall l d, od_keys (put l d) = od_keys d) ->
  holds_columns cols w -> holds_columns cols (updating w hit set l u put).2.
Proof.
  intros Hp [H1 H2]. unfold updating. destruct (u _); [|done]. split; [|done]. cbn. unfold key_columns. by rewrite Hp.
Qed.

Lemma column_handle cols R (e : ownerE R) w : column_neutral R e -> holds_columns cols w -> holds_columns cols (handle e w).2.
Proof.
  intros He Hw. destruct e as [R e| | | | | | | | | | | | | | | | | | | | | | | | | | | | | | |]; try done.
  { destruct Hw as [H1 H2]. destruct e; try done; cbn; repeat case_match; simplify_eq; try done; split; cbn; try done.
    - by intros ? [= <-].
    - destruct (ow_saved w) as [d|] eqn:E; [by apply H2|done]. }
  all: cbn -[inserting updating]; try (apply inserting_keys; by intros); try (apply updating_keys; by intros); try exact Hw.
  - destruct He as [Hk Hi]. unfold stored_key. rewrite Hk. destruct Hw as [H1 H2]. unfold updating.
    destruct (keys_unique _); [|done]. split; [|done]. cbn -[assign_key]. rewrite <- H1. unfold key_columns. cbn -[assign_key].
    rewrite map_map. apply map_ext. intros r. destruct (where_key f r); [|done]. cbn. by rewrite Hi.
  - destruct (updating _ _ _ _ _ _) as [r w'] eqn:E. cbn. change w' with (r, w').2. rewrite <- E. by apply updating_keys.
Qed.
End Columns.

Ltac column_go := repeat first [calls_step | exact I | done | progress cbn [via bind call]
  | match goal with |- all_calls _ (via (match ?x with _ => _ end)) => destruct x end].

Section Update.
Context {CR : Crypto} (To : spec_float -> option string -> Z) (From : Z -> option string -> spec_float).
Context (condition_Build : string -> bool) (MaxRMBQuota : spec_float) (em : EntityManager) (am : APIKeyManager) (qm : QuotaPlanManager).

Lemma tree_columns {A} (p : prog ownerE A) : all_calls reading p -> all_calls column_neutral p.
Proof.
  apply all_calls_weaken. intros R e. by destruct e as [R e| | | | | | | | | | | | | | | | | | | | | | | | | | | | | | |].
Qed.
Lemma via_columns {A} (p : prog quotaE A) : all_calls column_neutral (via p).
Proof. induction p; constructor; auto. exact I. Qed.

Create HintDb columns.
#[local] Hint Resolve tree_columns via_columns : columns.
Lemma atom_columns {A} (init : A) body : all_calls column_neutral body -> all_calls column_neutral (AtomExecute init body).
Proof. intros Hb. unfold AtomExecute. column_go. Qed.

Ltac columns := repeat first [solve [auto with columns owner] | calls_step | exact I
  | match goal with |- all_calls _ (AtomExecute _ _) => apply atom_columns end].

Lemma columns_update_body f p : ak_ID p = None -> all_calls column_neutral (update_key_body am f p).
Proof.
  intros Hi. unfold update_key_body, check_key_entity, entityAdapterFetch, change_plan, change_policy, change_route,
    create_plan, create_policy, create_route, adapterCreate, adapterUpdate, policyAdapterCreate, policyAdapterUpdate,
    policyAdapterFetch, soft_plan. cbv zeta. columns. by rewrite Hi.
Qed.

Lemma columns_update_process full id p :
  all_calls column_neutral (key_update_process To From condition_Build MaxRMBQuota em am qm full id p).
Proof.
  unfold key_update_process, FetchAPIKey, populateKeyBalance, populate_key, FetchEntity, populateAssociatedData,
    populateQuotaBalance, entityAdapterFetch, policyAdapterFetch, UpdateAPIKey, cleanupRedisKeys, checked. cbv zeta.
  pose proof columns_update_body. audits_unfold. columns; by apply columns_update_body.
Qed.

(** An update of an API key, partial or full, never changes the value of a
    key, its hash or its id, and neither adds nor removes one, whatever the
    request carries as its key and whatever calls fail: a new value in the
    body of the request is checked and then dropped. *)
Theorem update_keeps_key_values (full : bool) (id : string) (p : APIKeyParam) os w : ow_saved w = None ->
  key_columns (ow_data (exec os (key_update_process To From condition_Build MaxRMBQuota em am qm full id p) w).2) =
  key_columns (ow_data w).
Proof.
  intros Hs. pose proof (hoare_keeps column_neutral (holds_columns (key_columns (ow_data w))) _
    (fun R e w => column_handle _ R e w) (columns_update_process full id p) os w) as H.
  destruct H as [H _]; [|done]. split; [done|]. by rewrite Hs.
Qed.
End Update.

(** * Generated values *)

Lemma key_char_ok b : exists c, key_char b = String c "" /\ is_alnum c = true.
Proof.
  unfold key_char. change (String.length key_charset) with 62%nat.
  pose proof (Z.mod_pos_bound b (Z.of_nat 62) ltac:(lia)) as Hb.
  remember (Z.to_nat (b mod Z.of_nat 62)) as n eqn:En. assert (n < 62)%nat as Hn by lia. clear En Hb.
  do 62 (destruct n as [|n]; [vm_compute; eauto|]). lia.
Qed.

Lemma all_bytes_app P a b : all_bytes P (a +:+ b) = all_bytes P a && all_bytes P b.
Proof.
  induction a as [|c a IH]; [done|]. change (String c a +:+ b) with (String c (a +:+ b)). cbn [all_bytes].
  by rewrite IH, andb_assoc.
Qed.
Lemma concat_cons x l : String.concat "" (x :: l) = x +:+ String.concat "" l.
Proof.
  destruct l; [|done]. cbn [String.concat]. induction x as [|c x IH]; [done|].
  change (String c x +:+ "") with (String c (x +:+ "")). by f_equal.
Qed.

Lemma generated_chars l : all_bytes is_alnum (String.concat "" (map key_char l)) = true /\
  String.length (String.concat "" (map key_char l)) = length l.
Proof.
  induction l as [|b l [IH1 IH2]]; [done|]. cbn [map]. rewrite concat_cons. destruct (key_char_ok b) as (c & -> & Hc).
  change (String c "" +:+ ?s) with (String c s). cbn [all_bytes String.length length]. by rewrite Hc, IH1, IH2.
Qed.

(** A value that is generated for a key without one passes the check of
    key values, whatever random bytes are drawn: it is the product and one
    letter or digit for each byte. *)
Theorem generated_key_accepted {CR : Crypto} os w k :
  (exec os (generateAPIKeyValue defaultProductName) w).1 = Ok k ->
  checkKey (Some k) = Accept /\ HasPrefix k (defaultProductName +:+ "-") = true /\
  (String.length k <= 35)%nat.
Proof.
  unfold generateAPIKeyValue. rewrite exec_bind.
  assert (exec os (call (RandomBytes 24)) w = handle (RandomBytes 24) w) as ->.
  { unfold call. rewrite exec_call. unfold answer. cbn. by destruct (hd Normal os). }
  cbn. destruct (ow_bytes w (ow_draws w)) as [l|e]; cbn; [|discriminate]. intros [= <-].
  set (s := String.concat "" (map key_char (take 24 l))).
  destruct (generated_chars (take 24 l)) as [Hc Hl]. fold s in Hc, Hl. rewrite length_take in Hl.
  change (defaultProductName +:+ "-" +:+ s) with ("AI_product-" +:+ s).
  assert (String.length ("AI_product-" +:+ s) = (11 + String.length s)%nat) as Hlen by (by rewrite length_sapp).
  assert (all_bytes (fun c => is_alnum c || one_of c ["-"; "_"]%char) ("AI_product-" +:+ s) = true) as Hall.
  { rewrite all_bytes_app. apply andb_true_iff. split; [vm_compute; reflexivity|].
    clear -Hc. induction s as [|c s IH]; [done|]. cbn [all_bytes] in *. apply andb_true_iff in Hc as [H1 H2]. by rewrite H1, IH. }
  split; [|split; [apply HasPrefix_app|lia]].
  unfold checkKey, given_text. case_bool_decide as Hb; [discriminate Hb|]. unfold APIKeyValue. rewrite Hall, Hlen.
  destruct (Nat.eqb_spec (11 + String.length s) 0), (Nat.ltb_spec 128 (11 + String.length s)); try lia. done.
Qed.

(** * Masks *)

(** A mask of a longer value shows its first and last four bytes only. *)
Lemma Secret_hides a m m' b : String.length a = 4%nat -> String.length b = 4%nat -> m <> "" -> m' <> "" ->
  Secret (a +:+ m +:+ b) = Secret (a +:+ m' +:+ b).
Proof.
  intros Ha Hb Hm Hm'. assert (forall x, x <> "" -> Secret (a +:+ x +:+ b) = a +:+ "********" +:+ b) as H; [|by rewrite !H].
  intros x Hx. assert (0 < String.length x)%nat as Hl by (destruct x; [done|cbn; lia]).
  unfold Secret. rewrite !length_sapp, Ha, Hb.
  destruct (Nat.leb_spec (4 + (String.length x + 4)) 4); [lia|]. destruct (Nat.leb_spec (4 + (String.length x + 4)) 8); [lia|].
  rewrite substring_prefix by done. f_equal. f_equal.
  rewrite <- (string_app_assoc a x b).
  rewrite (substring_skip (a +:+ x) b) by (rewrite length_sapp; lia). by apply substring_full; lia.
Qed.

Section Masks.
Context {CR : Crypto} (From : Z -> option string -> spec_float) (order : list string -> list string) (am : APIKeyManager) (cache : option bool).

Definition masked (k : APIKeyParam) : Prop := forall v, ak_Key k = Some v -> exists plain, v = Secret plain.

Lemma newResponse_masked l os w r : (exec os (newResponse From cache true l) w).1 = Ok r -> Forall masked r.
Proof.
  revert os w r. induction l as [|one l IH]; intros os w r; cbn [newResponse]; [by intros [= <-]|].
  rewrite exec_bind. set (p := match ak_Key one with None => _ | Some _ => _ end).
  assert (forall os w x, (exec os p w).1 = Ok x -> masked x) as Hp.
  { clear. intros os w x. subst p. destruct (ak_Key one) as [k|] eqn:Ek; [|intros [= <-] v; congruence].
    rewrite exec_bind. destruct (exec os _ w) as [[q|e] w1]; cbn; [|discriminate]. intros [= <-] v [= <-]. by exists k. }
  specialize (Hp os w). destruct (exec os p w) as [[x|e] w1]; cbn [fst snd] in *; [|discriminate].
  rewrite exec_bind. specialize (IH (leftover os p w) w1). destruct (exec (leftover os p w) _ w1) as [[rest|e] w2]; cbn [fst snd] in *; [|discriminate].
  intros [= <-]. constructor; [by apply Hp|by apply IH].
Qed.

(** A caller who may only read sees no value of an API key: whatever page
    of the list is asked for and whatever calls fail, each value in the answer
    is a mask. *)
Theorem readonly_list_masked page size enabled unlimited entity os w l totals :
  (exec os (ListAction From order am cache true page size enabled unlimited entity) w).1 = Ok (l, totals) -> Forall masked l.
Proof.
  unfold ListAction. destruct (_ &> _); [|discriminate..]. cbn [checked]. cbv zeta. rewrite exec_bind.
  destruct (exec os _ w) as [[l0|e] w0]; cbn [fst snd]; [|discriminate]. rewrite exec_bind.
  match goal with |- context [exec ?o (newResponse From cache true l0) w0] => pose proof (newResponse_masked l0 o w0) as Hr;
    destruct (exec o (newResponse From cache true l0) w0) as [[r|e] w1] end; cbn [fst snd] in *; [|discriminate].
  destruct (page_request page size) as [[p s]|]; [|intros [= <- _]; by apply Hr].
  rewrite exec_bind. destruct (exec _ _ w1) as [[all|e] w2]; cbn; [|discriminate]. intros [= <- _]. by apply Hr.
Qed.
End Masks.

(** * Samples *)

Definition run_update (p : APIKeyParam) : prog ownerE (result (option APIKeyParam)) :=
  key_update_process milli of_milli (fun _ => true) (float_of_Z 1000000) sample_em sample_am sample_qpm false "k1" p.

(** The request succeeds, moves the key to the company and leaves its value. *)
Example update_keeps_key_values_witness :
  let w := (exec [] (run_update (key_request "k1" "sk-other" (Some "acme") None)) bound_world).2 in
  map tk_EntityID (od_keys (ow_data w)) = [Some "acme"; None] /\
  key_columns (ow_data w) = key_columns (ow_data bound_world).
Proof.
  cbv zeta. split; [vm_compute; reflexivity|].
  by apply (update_keeps_key_values milli of_milli (fun _ => true) (float_of_Z 1000000) sample_em sample_am sample_qpm false "k1").
Defined.

Example generated_key_accepted_witness :
  let k := "AI_product-ABCDEFGHIJKLMNOPQRSTUVWX" in
  (exec [] (generateAPIKeyValue defaultProductName) empty_world).1 = Ok k /\ checkKey (Some k) = Accept /\
  HasPrefix k (defaultProductName +:+ "-") = true /\ (String.length k <= 35)%nat.
Proof.
  cbv zeta. split; [vm_compute; reflexivity|]. apply (generated_key_accepted [] empty_world). vm_compute. reflexivity.
Defined.

Definition long_key_world : oworld := sample_history [CreateKeyReq (key_request "k1" "sk-0123456789" None None)] two_world.

Example readonly_list_masked_witness :
  let l := match (exec [] (ListAction of_milli (fun l => l) sample_am (Some true) true None None None None None) long_key_world).1 with
           | Ok (l, _) => l | Err _ => [] end in
  map ak_Key l = [Some "sk-0********6789"] /\ Forall masked l.
Proof.
  cbv zeta. split; [vm_compute; reflexivity|].
  apply (readonly_list_masked of_milli (fun l => l) sample_am (Some true) None None None None None [] long_key_world _
    (0%Z, 0%Z, 1%Z)).
  vm_compute. reflexivity.
Defined.
