(* ===== verification/OperLog.v ===== *)
(** Entries of the operation log ([model/ioperlog]): the values of the change
    maps, the masking of secrets in them, the summary of a change and the
    bounded error message ([mask.go], [change_summary.go], [helper.go],
    [types.go]); and what a summary shows and hides. *)
From Stdlib Require Import ZArith Lia Ascii SpecFloat.
From stdpp Require Import base tactics numbers list strings option sorting.
From S2P Require Import Prelude GoStrings EppPool EppAssign.

Local Open Scope string_scope.

(** * Values

    What an [interface{}] of a change map holds.  A Go map is the list of its
    entries, one per key, in the order in which a range happens to visit them;
    an integer carries the name of its type, since [reflect.DeepEqual]
    distinguishes an [int8] from an [int64]. *)
Inductive jval : Type :=
| JNull
| JBool (b : bool)
| JStr (s : string)
| JNum (f : spec_float)
| JInt (type : string) (z : Z)
| JTime (t : gotime)
| JStrs (l : list string)
| JMap (m : list (string * jval))
| JSlice (l : list jval).

Abbreviation fields := (list (string * jval)) (only parsing).

(** * Masking ([mask.go]) *)

Definition maskPlaceholder : string := "******".
Definition updatedMarker : string := "[已更新]".

(** [strings.ToLower] of a key; keys are ASCII. *)
Fixpoint ToLower (s : string) : string :=
  match s with EmptyString => EmptyString | String c s' => String (lower_byte c) (ToLower s') end.

Definition MaskAPIKeyToken (token : string) : string :=
  let n := String.length token in
  if (n <=? 8)%nat then maskPlaceholder
  else String.substring 0 4 token +:+ "****" +:+ String.substring (n - 4) 4 token.

(** The three cases of the switch on the key. *)
Definition secret_keys : list string :=
  ["password"; "secret"; "session_key"; "sessionkey"; "private_key"; "privatekey";
   "token"; "access_token"; "refresh_token"; "session_token"; "id_token";
   "secret_key"; "secretkey"; "client_secret"; "clientsecret"; "access_key"; "accesskey"].
Definition token_keys : list string := ["api_key"; "apikey"; "key"].
Definition certificate_keys : list string := ["certificate"; "cert"; "cert_body"; "private_key_body"].

Definition mask_entry (lowerKey : string) (val recursed : jval) : jval :=
  if bool_decide (lowerKey ∈ secret_keys) then JStr maskPlaceholder
  else if bool_decide (lowerKey ∈ token_keys) then match val with JStr s => JStr (MaskAPIKeyToken s) | _ => val end
  else if bool_decide (lowerKey ∈ certificate_keys) then JStr updatedMarker
  else recursed.

(** A value under an ordinary key or in a slice: maps and slices are
    descended into, everything else stays. *)
Fixpoint mask_value (v : jval) : jval :=
  match v with
  | JMap m => JMap (map (fun '(key, val) => (key, mask_entry (ToLower key) val (mask_value val))) m)
  | JSlice l => JSlice (map mask_value l)
  | _ => v
  end.

Definition MaskSensitiveFields (data : fields) : fields :=
  map (fun '(key, val) => (key, mask_entry (ToLower key) val (mask_value val))) data.
Definition maskSlice (items : list jval) : list jval := map mask_value items.

(** [strings.ReplaceAll(msg, v, w)] for a non-empty [v]. *)
Fixpoint replace_all (fuel : nat) (msg v w : string) : string :=
  match fuel with
  | O => msg
  | S fuel =>
      match CutPrefix msg v with
      | Some rest => w +:+ replace_all fuel rest v w
      | None => match msg with EmptyString => EmptyString | String c r => String c (replace_all fuel r v w) end
      end
  end.
Definition ReplaceAll (msg v w : string) : string := replace_all (S (String.length msg)) msg v w.

Definition MaskErrorMessage (msg : string) (values : list string) : string :=
  fold_left (fun msg v => if bool_decide (v = "") then msg else ReplaceAll msg v (MaskAPIKeyToken v)) values msg.

(** * Summaries ([change_summary.go]) *)

Fixpoint lookup_field (key : string) (m : fields) : option jval :=
  match m with [] => None | (k, v) :: m' => if bool_decide (k = key) then Some v else lookup_field key m' end.

(** [reflect.DeepEqual]: numbers are compared with [==], maps by key. *)
Fixpoint DeepEqual (v v' : jval) : bool :=
  match v, v' with
  | JNull, JNull => true
  | JBool b, JBool b' => Bool.eqb b b'
  | JStr s, JStr s' => bool_decide (s = s')
  | JNum f, JNum f' => SFeqb f f'
  | JInt ty z, JInt ty' z' => bool_decide (ty = ty') && (z =? z')%Z
  | JTime t, JTime t' => (t =? t')%Z
  | JStrs l, JStrs l' => bool_decide (l = l')
  | JMap m, JMap m' =>
      (length m =? length m')%nat &&
      forallb (fun '(key, a) => match lookup_field key m' with Some b => DeepEqual a b | None => false end) m
  | JSlice l, JSlice l' =>
      (fix go (l l' : list jval) : bool :=
         match l, l' with [], [] => true | a :: l, b :: l' => DeepEqual a b && go l l' | _, _ => false end) l l'
  | _, _ => false
  end.

Definition computeDiffKeys (before after : fields) : list string :=
  sort_by id
    (map fst (List.filter (fun '(key, afterVal) =>
       match lookup_field key before with None => true | Some beforeVal => negb (DeepEqual beforeVal afterVal) end) after)).

Definition ActionUpdate : string := "update".

Definition BuildChangeSummary (action : string) (before after : fields) : fields :=
  let changeSummary :=
    ((match before with [] => [] | _ => [("before", JMap (MaskSensitiveFields before))] end)
     ++ (match after with [] => [] | _ => [("after", JMap (MaskSensitiveFields after))] end))%list in
  match changeSummary with
  | [] => []
  | _ => if bool_decide (action = ActionUpdate)
         then (changeSummary ++ [("diff_keys", JStrs (computeDiffKeys before after))])%list
         else changeSummary
  end.

(** * Error messages ([helper.go]) *)

Definition DefaultErrorMessageMaxLen : Z := 1024.

(** [err] is the text of the error, if there is one. *)
Definition TruncateErrorMessage (err : option string) (maxLen : Z) : string :=
  match err with
  | None => ""
  | Some msg =>
      if (maxLen <=? 0)%Z then msg
      else if (Z.of_nat (String.length msg) <=? maxLen)%Z then msg
      else if (maxLen <=? 3)%Z then String.substring 0 (Z.to_nat maxLen) msg
      else String.substring 0 (Z.to_nat maxLen - 3) msg +:+ "..."
  end.
Definition TruncateErrorMessageDefault (err : option string) : string := TruncateErrorMessage err DefaultErrorMessageMaxLen.

(** * Entries ([types.go]) *)

Definition OperatorTypeUser : Z := 0.
Definition OperatorTypeToken : Z := 1.
Definition StatusSuccess : Z := 1.
Definition StatusFailed : Z := 2.

Record OperationLogEntry : Type := mkEntry {
  le_ID : Z; le_LogID : string;
  le_OperatorType : Z; le_OperatorID : Z; le_OperatorName : string;
  le_Action : string; le_ResourceType : string; le_ResourceID : string; le_ResourceName : string;
  le_ResourceParentID : string;
  le_Status : Z; le_ErrorMsg : string;
  le_ChangeSummary : fields;
  le_RequestPath : string; le_RequestMethod : string; le_ClientIP : string; le_UserAgent : string;
  le_CreatedAt : gotime
}.

Record OperationLogFilter : Type := mkLogFilter {
  lf_LogID : option string;
  lf_OperatorType : option Z; lf_OperatorID : option Z; lf_OperatorName : option string;
  lf_Action : option string; lf_ResourceType : option string; lf_ResourceID : option string;
  lf_ResourceName : option string; lf_ResourceParentID : option string;
  lf_Status : option Z;
  lf_StartTime : option gotime; lf_EndTime : option gotime;
  lf_Page : option Z; lf_PageSize : option Z
}.

Definition noFilter : OperationLogFilter :=
  mkLogFilter None None None None None None None None None None None None None None.

Record OperationLogQueryResult : Type := mkLogResult {
  qr_Total : Z; qr_Page : Z; qr_PageSize : Z; qr_List : list OperationLogEntry
}.

(** What the summary of a change shows and hides, which fields it names as
    changed, and how long an error message may get. *)

(** Induction over the values, through the lists they nest in. *)
Section Induction.
Variables (P : jval -> Prop).
Hypothesis Hleaf : forall v, (forall m, v <> JMap m) -> (forall l, v <> JSlice l) -> P v.
Hypothesis Hmap : forall m, Forall (fun kv => P kv.2) m -> P (JMap m).
Hypothesis Hslice : forall l, Forall P l -> P (JSlice l).

Fixpoint jval_induction (v : jval) : P v :=
  match v with
  | JMap m => Hmap m ((fix go m : Forall (fun kv => P kv.2) m :=
      match m with [] => Forall_nil_2 _ | kv :: m' => Forall_cons_2 _ _ _ (jval_induction kv.2) (go m') end) m)
  | JSlice l => Hslice l ((fix go l : Forall P l :=
      match l with [] => Forall_nil_2 _ | x :: l' => Forall_cons_2 _ _ _ (jval_induction x) (go l') end) l)
  | v => Hleaf v ltac:(discriminate) ltac:(discriminate)
  end.
End Induction.

(** * Secrecy *)

(** Two values that differ only in what the log must not show: anything under
    a secret or a certificate key, and the middle of an API key. *)
Definition same_token (v v' : jval) : Prop :=
  v = v' \/ exists s s', v = JStr s /\ v' = JStr s' /\ MaskAPIKeyToken s = MaskAPIKeyToken s'.
Definition hidden_key (key : string) : Prop := ToLower key ∈ secret_keys \/ ToLower key ∈ certificate_keys.
Definition token_key (key : string) : Prop := ToLower key ∈ token_keys.

Inductive alike : jval -> jval -> Prop :=
| alike_same v : alike v v
| alike_map m m' : alike_fields m m' -> alike (JMap m) (JMap m')
| alike_slice l l' : alike_items l l' -> alike (JSlice l) (JSlice l')
with alike_fields : list (string * jval) -> list (string * jval) -> Prop :=
| alike_no_field : alike_fields [] []
| alike_hidden key v v' m m' : hidden_key key -> alike_fields m m' -> alike_fields ((key, v) :: m) ((key, v') :: m')
| alike_token key v v' m m' : token_key key -> same_token v v' -> alike_fields m m' ->
    alike_fields ((key, v) :: m) ((key, v') :: m')
| alike_shown key v v' m m' : ~ token_key key -> alike v v' -> alike_fields m m' ->
    alike_fields ((key, v) :: m) ((key, v') :: m')
with alike_items : list jval -> list jval -> Prop :=
| alike_no_item : alike_items [] []
| alike_item v v' l l' : alike v v' -> alike_items l l' -> alike_items (v :: l) (v' :: l').

Scheme alike_mind := Minimality for alike Sort Prop
with alike_fields_mind := Minimality for alike_fields Sort Prop
with alike_items_mind := Minimality for alike_items Sort Prop.
Combined Scheme alike_mutind from alike_mind, alike_fields_mind, alike_items_mind.

Lemma keys_disjoint key : ToLower key ∈ token_keys ->
  (ToLower key ∉ secret_keys) /\ (ToLower key ∉ certificate_keys).
Proof.
  generalize (ToLower key). intros k Hk. apply list_elem_of_In in Hk. cbn in Hk.
  destruct Hk as [<-|[<-|[<-|[]]]]; split; intros H%(bool_decide_eq_true_2 _); vm_compute in H; discriminate.
Qed.

#[export] Instance hidden_key_dec key : Decision (hidden_key key) := ltac:(unfold hidden_key; apply _).

Lemma mask_shown key v r : ~ hidden_key key -> ~ token_key key -> mask_entry (ToLower key) v r = r.
Proof.
  intros Hh Ht. unfold mask_entry. rewrite !bool_decide_eq_false_2; try done; intros ?; apply Hh; [by right|by left].
Qed.
Lemma mask_token key v r : token_key key ->
  mask_entry (ToLower key) v r = (match v with JStr s => JStr (MaskAPIKeyToken s) | _ => v end).
Proof.
  intros Hk. unfold mask_entry. destruct (keys_disjoint key Hk) as [H1 _].
  by rewrite (bool_decide_eq_false_2 _ H1), (bool_decide_eq_true_2 _ Hk).
Qed.
Lemma mask_hidden key v v' r r' : hidden_key key -> mask_entry (ToLower key) v r = mask_entry (ToLower key) v' r'.
Proof.
  intros H. unfold mask_entry. destruct H as [H|H]; [by rewrite !(bool_decide_eq_true_2 _ H)|].
  case_bool_decide; [done|]. rewrite bool_decide_eq_false_2; [by rewrite (bool_decide_eq_true_2 _ H)|].
  intros Ht. by apply keys_disjoint in Ht as [_ ?].
Qed.

Lemma mask_alike_mutual :
  (forall v v', alike v v' -> mask_value v = mask_value v') /\
  (forall m m', alike_fields m m' -> MaskSensitiveFields m = MaskSensitiveFields m') /\
  (forall l l', alike_items l l' -> maskSlice l = maskSlice l').
Proof.
  apply alike_mutind; try done.
  - intros m m' _ IH. cbn [mask_value]. by f_equal.
  - intros l l' _ IH. cbn [mask_value]. by f_equal.
  - intros key v v' m m' Hk _ IH. cbn. f_equal; [|exact IH]. f_equal. by apply mask_hidden.
  - intros key v v' m m' Hk Hs _ IH. cbn. f_equal; [|exact IH]. f_equal.
    rewrite !mask_token by done. destruct Hs as [->|(s & s' & -> & -> & Hs)]; [done|by rewrite Hs].
  - intros key v v' m m' Ht _ IHv _ IH. cbn. f_equal; [|exact IH]. f_equal.
    destruct (decide (hidden_key key)) as [Hh|Hh]; [by apply mask_hidden|by rewrite !mask_shown].
  - intros v v' l l' _ IHv _ IH. cbn. f_equal; [exact IHv|exact IH].
Qed.

(** Conversely nothing else is hidden. *)
Lemma mask_value_alike v : forall v', mask_value v = mask_value v' -> alike v v'.
Proof.
  induction v as [v Hm Hl|m IH|l IH] using jval_induction; intros v' E.
  - assert (mask_value v = v) as Ev by (destruct v; try done; [by destruct (Hm m)|by destruct (Hl l)]).
    rewrite Ev in E. destruct v' as [| | | | | | |m'|l']; cbn in E; subst v; try constructor;
      [by destruct (Hm _ eq_refl)|by destruct (Hl _ eq_refl)].
  - destruct v' as [| | | | | | |m'|]; try discriminate E. injection E as E. apply alike_map. revert m' E.
    induction IH as [|[key v] m Hv _ IHm]; intros [|[key' v'] m'] E; try discriminate E; [constructor|].
    cbn in E. injection E as <- Ev Em. specialize (IHm m' Em).
    destruct (decide (hidden_key key)) as [Hh|Hh]; [by apply alike_hidden|].
    destruct (decide (ToLower key ∈ token_keys)) as [Ht|Ht].
    + apply alike_token; [done| |done]. rewrite !mask_token in Ev by done.
      destruct v, v'; try (injection Ev as ->; by left); try discriminate Ev; try (by left).
      injection Ev as Ev. right. eauto.
    + apply alike_shown; [done| |done]. rewrite !mask_shown in Ev by done. by apply Hv.
  - destruct v' as [| | | | | | | |l']; try discriminate E. injection E as E. apply alike_slice. revert l' E.
    induction IH as [|v l Hv _ IHl]; intros [|v' l'] E; try discriminate E; [constructor|].
    injection E as Ev El. constructor; auto.
Qed.

(** Two change maps look the same in the operation log exactly when they
    differ in nothing but secrets, at any depth of maps and slices: values
    under password, session and certificate keys, and the part of an API key
    that its masked form leaves out. *)
Theorem masking_hides_exactly_secrets (m m' : list (string * jval)) :
  MaskSensitiveFields m = MaskSensitiveFields m' <-> alike_fields m m'.
Proof.
  split; [|apply mask_alike_mutual].
  intros E. assert (alike (JMap m) (JMap m')) as H by (apply mask_value_alike; cbn [mask_value]; by f_equal).
  inversion H; subst; [|done]. clear. induction m' as [|[key v] m' IH]; [constructor|].
  destruct (decide (ToLower key ∈ token_keys)); [by apply alike_token; [|left|]|].
  by apply alike_shown; [|constructor|].
Qed.

(** ** Masking twice *)

(** A long key keeps its two ends. *)
Lemma mask_token_parts a mid b : String.length a = 4 -> String.length b = 4 -> mid <> "" ->
  MaskAPIKeyToken (a +:+ mid +:+ b) = a +:+ "****" +:+ b.
Proof.
  intros Ha Hb Hm. unfold MaskAPIKeyToken. rewrite !length_sapp, Ha, Hb.
  assert (0 < String.length mid) by (destruct mid; [done|cbn; lia]).
  destruct (Nat.leb_spec (4 + (String.length mid + 4)) 8); [lia|].
  rewrite (substring_prefix a) by done. rewrite <- (string_app_assoc a mid b).
  rewrite (substring_skip (a +:+ mid)) by (rewrite length_sapp; lia). by rewrite substring_full by lia.
Qed.

Lemma long_token_parts s : 8 < String.length s ->
  exists a mid b, s = a +:+ mid +:+ b /\ String.length a = 4 /\ String.length b = 4 /\ mid <> "".
Proof.
  intros H. destruct (string_split 4 s) as (a & r & -> & Ha); [lia|]. rewrite length_sapp in H.
  destruct (string_split (String.length r - 4) r) as (mid & b & -> & Hm); [lia|]. rewrite length_sapp in *.
  exists a, mid, b. repeat split; [done|lia|]. intros ->. cbn in *. lia.
Qed.

Lemma mask_token_idem s : MaskAPIKeyToken (MaskAPIKeyToken s) = MaskAPIKeyToken s.
Proof.
  destruct (Nat.le_gt_cases (String.length s) 8) as [H|H].
  - assert (MaskAPIKeyToken s = maskPlaceholder) as ->; [|done].
    unfold MaskAPIKeyToken. by destruct (Nat.leb_spec (String.length s) 8); [|lia].
  - destruct (long_token_parts s H) as (a & mid & b & -> & Ha & Hb & Hm). rewrite mask_token_parts by done.
    by apply mask_token_parts.
Qed.

Lemma mask_value_idem v : mask_value (mask_value v) = mask_value v.
Proof.
  induction v as [v Hm Hl|m IH|l IH] using jval_induction.
  - by destruct v; [..|destruct (Hm m)|destruct (Hl l)].
  - cbn [mask_value]. f_equal. rewrite map_map. apply map_ext_Forall. apply (List.Forall_impl _ (P := fun kv => mask_value (mask_value kv.2) = mask_value kv.2)); [|done].
    intros [key v] Hv. f_equal. cbn in Hv. destruct (decide (hidden_key key)) as [Hh|Hh]; [by apply mask_hidden|].
    destruct (decide (ToLower key ∈ token_keys)) as [Ht|Ht].
    + rewrite !mask_token by done. destruct v; try done. by rewrite mask_token_idem.
    + by rewrite !mask_shown.
  - cbn [mask_value]. f_equal. rewrite map_map. by apply map_ext_Forall.
Qed.

(** Masking what is masked already changes nothing. *)
Theorem masking_idempotent m : MaskSensitiveFields (MaskSensitiveFields m) = MaskSensitiveFields m.
Proof. pose proof (mask_value_idem (JMap m)) as H. cbn [mask_value] in H. by injection H. Qed.

(** * Changed fields *)

Lemma lookup_field_elem key m v : NoDup (map fst m) -> lookup_field key m = Some v <-> (key, v) ∈ m.
Proof.
  induction m as [|[k u] m IH]; cbn [map fst lookup_field].
  - intros _. split; [discriminate|]. intros H. inversion H.
  - intros [Hk Hm]%list.NoDup_cons. rewrite list.elem_of_cons. case_bool_decide as E.
    + subst k. split; [intros [= ->]; by left|]. intros [[= ->]|H]; [done|].
      destruct Hk. apply list_elem_of_fmap. by exists (key, v).
    + rewrite IH by done. split; [by right|]. intros [[= -> ->]|H]; [done|exact H].
Qed.

(** The changed fields of an update are, in order and without repetition,
    the keys of the new values that the old ones lack or hold differently. *)
Theorem diff_keys_exact before after : NoDup (map fst after) ->
  StronglySorted (by_key id) (computeDiffKeys before after) /\ NoDup (computeDiffKeys before after) /\
  forall key, key ∈ computeDiffKeys before after <->
    exists v, lookup_field key after = Some v /\
      match lookup_field key before with Some u => DeepEqual u v = false | None => True end.
Proof.
  intros Hn. unfold computeDiffKeys. set (hit := fun _ : string * jval => _).
  repeat split.
  - apply sort_by_sorted.
  - rewrite sort_by_perm. clear -Hn. induction after as [|[k v] m IH]; cbn [List.filter map]; [constructor|].
    apply list.NoDup_cons in Hn as [Hk Hn]. destruct (hit (k, v)); [|auto]. cbn [map fst]. apply list.NoDup_cons. split; [|auto].
    intros H. apply Hk. apply list_elem_of_In, in_map_iff in H as (kv & <- & H). apply filter_In in H as [H _].
    apply list_elem_of_In, in_map_iff. by exists kv.
  - intros H. rewrite elem_of_sort_by in H. apply list_elem_of_In, in_map_iff in H as ([k v] & Hk & H).
    apply filter_In in H as [H Hhit]. cbn in Hk. subst k. exists v. rewrite lookup_field_elem by done.
    split; [by apply list_elem_of_In|]. cbn in Hhit. destruct (lookup_field key before); [by apply negb_true_iff|done].
  - intros (v & Hv & Hhit). rewrite lookup_field_elem in Hv by done. rewrite elem_of_sort_by.
    apply list_elem_of_In, in_map_iff. exists (key, v). split; [done|]. apply filter_In. split; [by apply list_elem_of_In|].
    cbn. destruct (lookup_field key before); [by rewrite Hhit|done].
Qed.

Lemma diff_keys_exact_witness :
  NoDup (map fst [("role", JStr "system_admin"); ("password", JStr "x")]) /\
  StronglySorted (by_key id)
    (computeDiffKeys [("role", JStr "system_admin")] [("role", JStr "system_admin"); ("password", JStr "x")]).
Proof.
  assert (NoDup (map fst [("role", JStr "system_admin"); ("password", JStr "x")])) as H
    by (apply (bool_decide_eq_true_1 _); reflexivity).
  split; [exact H|]. by apply (diff_keys_exact [("role", JStr "system_admin")] _ H).
Defined.

(** * Error messages *)

(** A message that is kept for the log is at most as long as the column,
    keeps the start of the text, and is the text itself when that fits. *)
Theorem truncated_message_fits (msg : string) (maxLen : Z) : (0 < maxLen)%Z ->
  let out := TruncateErrorMessage (Some msg) maxLen in
  (Z.of_nat (String.length out) <= maxLen)%Z /\
  ((Z.of_nat (String.length msg) <= maxLen)%Z -> out = msg) /\
  String.substring 0 (Z.to_nat (maxLen - 3)) out = String.substring 0 (Z.to_nat (maxLen - 3)) msg.
Proof.
  intros Hm. unfold TruncateErrorMessage.
  destruct (Z.leb_spec maxLen 0); [lia|]. destruct (Z.leb_spec (Z.of_nat (String.length msg)) maxLen); [done|].
  destruct (Z.leb_spec maxLen 3).
  - cbv zeta. rewrite substring_take_length by lia. split; [lia|]. split; [lia|].
    replace (Z.to_nat (maxLen - 3)) with 0 by lia. by destruct (String.substring _ _ msg), msg.
  - cbv zeta. rewrite length_sapp, substring_take_length by lia. cbn [String.length]. split; [lia|]. split; [lia|].
    replace (Z.to_nat maxLen - 3) with (Z.to_nat (maxLen - 3)) by lia. apply substring_prefix, substring_take_length. lia.
Qed.

Lemma truncated_message_fits_witness : (0 < 8)%Z /\
  (Z.of_nat (String.length (TruncateErrorMessage (Some "a long message") 8)) <= 8)%Z.
Proof. split; [lia|]. apply (truncated_message_fits "a long message" 8). lia. Defined.

(** The cut is made between bytes: here it leaves the first byte of a
    two-byte character before the dots. *)
Example truncation_splits_characters :
  TruncateErrorMessage (Some ("aaaaa" +:+ "é" +:+ "é")) 9 = "aaaaaé" +:+ "é" /\
  TruncateErrorMessage (Some ("aaaaaé" +:+ "éé")) 9 = "aaaaa" +:+ String.substring 0 1 "é" +:+ "...".
Proof. split; reflexivity. Qed.
