(* ===== verification/OperLogStore.v ===== *)
(** The table of operation logs, the cache of its totals in Redis, and the
    listing of entries ([storage/rdb/ioperlog], [dao/table_operation_log.go],
    [QueryLogs] of [model/ioperlog/manager.go] and
    [endpoints/openapi_v1/operation_log/list.go]).  The column with the text
    of a summary holds the summary itself. *)
From Stdlib Require Import ZArith Lia Ascii.
From stdpp Require Import base tactics numbers list strings sorting gmap option.
From S2P Require Import Prelude GoStrings Prog XCrypto OperLog.

Local Open Scope string_scope.

(** * Conditions ([filterToParam]) *)

(** [TOperationLogParam] of a query: the conditions, and the limit with its
    order. *)
Record log_where : Type := mkLogWhere {
  lw_filter : OperationLogFilter;
  lw_limit : option (Z * Z)
}.

Definition same_or_any {A} `{EqDecision A} (f : option A) (x : A) : bool :=
  match f with Some y => bool_decide (x = y) | None => true end.

(** The conditions on a row; page and size are not among them. *)
Definition where_log (f : OperationLogFilter) (r : OperationLogEntry) : bool :=
  same_or_any (lf_LogID f) (le_LogID r) && same_or_any (lf_OperatorType f) (le_OperatorType r) &&
  same_or_any (lf_OperatorID f) (le_OperatorID r) && same_or_any (lf_OperatorName f) (le_OperatorName r) &&
  same_or_any (lf_Action f) (le_Action r) && same_or_any (lf_ResourceType f) (le_ResourceType r) &&
  same_or_any (lf_ResourceID f) (le_ResourceID r) && same_or_any (lf_ResourceName f) (le_ResourceName r) &&
  same_or_any (lf_ResourceParentID f) (le_ResourceParentID r) && same_or_any (lf_Status f) (le_Status r) &&
  match lf_StartTime f with Some t => (t <=? le_CreatedAt r)%Z | None => true end &&
  match lf_EndTime f with Some t => (le_CreatedAt r <=? t)%Z | None => true end.

Definition page_offset (page size : Z) : Z :=
  let offset := wrap64 (wrap64 (page - 1) * size) in if (offset <? 0)%Z then 0%Z else offset.

Definition filterToParam (filter : option OperationLogFilter) : log_where :=
  match filter with
  | None => mkLogWhere noFilter None
  | Some f => mkLogWhere f (match lf_Page f, lf_PageSize f with
                            | Some page, Some size => Some (page_offset page size, size)
                            | _, _ => None
                            end)
  end.

(** * The table *)

(** [ORDER BY created_at DESC, id DESC]. *)
Definition newer (a b : OperationLogEntry) : Prop :=
  (le_CreatedAt b < le_CreatedAt a \/ (le_CreatedAt a = le_CreatedAt b /\ le_ID b <= le_ID a))%Z.
#[export] Instance newer_dec a b : Decision (newer a b) := ltac:(unfold newer; apply _).

Definition select_page (w : log_where) (rows : list OperationLogEntry) : list OperationLogEntry :=
  let sorted := merge_sort newer (List.filter (where_log (lw_filter w)) rows) in
  match lw_limit w with Some (offset, size) => take (Z.to_nat size) (drop (Z.to_nat offset) sorted) | None => sorted end.

(** [entryToParam] and the insertion: a row is the entry with its key. *)
Definition entry_row (id : Z) (e : OperationLogEntry) : OperationLogEntry :=
  mkEntry id (le_LogID e) (le_OperatorType e) (le_OperatorID e) (le_OperatorName e) (le_Action e) (le_ResourceType e)
    (le_ResourceID e) (le_ResourceName e) (le_ResourceParentID e) (le_Status e) (le_ErrorMsg e) (le_ChangeSummary e)
    (le_RequestPath e) (le_RequestMethod e) (le_ClientIP e) (le_UserAgent e) (le_CreatedAt e).
Fixpoint insert_rows (next : Z) (entries : list OperationLogEntry) : list OperationLogEntry :=
  match entries with [] => [] | e :: l => entry_row next e :: insert_rows (next + 1) l end.

(** * Keys of the cache ([count_cache.go]) *)

Definition countCacheGenKey : string := "OPERLOG_COUNT_GEN".
Definition countCacheTTL : Z := 10.

(** [url.QueryEscape]. *)
Definition unreserved (c : ascii) : bool :=
  let n := N_of_ascii c in
  ((97 <=? n) && (n <=? 122) || (65 <=? n) && (n <=? 90) || (48 <=? n) && (n <=? 57)
   || (n =? 45) || (n =? 95) || (n =? 46) || (n =? 126))%N.
Definition hex_digit (upper : bool) (n : N) : ascii :=
  ascii_of_N (if (n <? 10)%N then 48 + n else (if upper then 55 else 87) + n).
Definition escape_byte (c : ascii) : string :=
  if unreserved c then String c ""
  else if ascii_dec c " " then "+"
  else String "%" (String (hex_digit true (N_of_ascii c / 16)) (String (hex_digit true (N_of_ascii c mod 16)) "")).
Fixpoint QueryEscape (s : string) : string :=
  match s with EmptyString => "" | String c s' => escape_byte c +:+ QueryEscape s' end.

(** [hex.EncodeToString]. *)
Fixpoint HexEncode (s : string) : string :=
  match s with
  | EmptyString => ""
  | String c s' => String (hex_digit false (N_of_ascii c / 16)) (String (hex_digit false (N_of_ascii c mod 16)) (HexEncode s'))
  end.

Definition time_ToUnix (t : gotime) : Z := (t / second - unix_epoch)%Z.

Definition writeOptString (name : string) (v : option string) : string :=
  "|" +:+ name +:+ "=" +:+ (match v with Some s => QueryEscape s | None => "" end).
Definition writeOptInt (name : string) (v : option Z) : string :=
  match v with Some z => "|" +:+ name +:+ "=" +:+ FormatInt z | None => "" end.

(** What is hashed. *)
Definition filter_text (filter : option OperationLogFilter) : string :=
  let f := default noFilter filter in
  "v1"
  +:+ writeOptString "log_id" (lf_LogID f)
  +:+ writeOptInt "operator_type" (lf_OperatorType f)
  +:+ writeOptInt "operator_id" (lf_OperatorID f)
  +:+ writeOptString "operator_name" (lf_OperatorName f)
  +:+ writeOptString "action" (lf_Action f)
  +:+ writeOptString "resource_type" (lf_ResourceType f)
  +:+ writeOptString "resource_id" (lf_ResourceID f)
  +:+ writeOptString "resource_name" (lf_ResourceName f)
  +:+ writeOptString "resource_parent_id" (lf_ResourceParentID f)
  +:+ writeOptInt "status" (lf_Status f)
  +:+ writeOptInt "start_time" (time_ToUnix <$> lf_StartTime f)
  +:+ writeOptInt "end_time" (time_ToUnix <$> lf_EndTime f).

Section Store.
Context `{!Crypto}.

Definition countCacheFilterHash (filter : option OperationLogFilter) : string := HexEncode (sha256 (filter_text filter)).
Definition countCacheValueKey (gen : Z) (filter : option OperationLogFilter) : string :=
  "OPERLOG_COUNT:G" +:+ FormatInt gen +:+ ":" +:+ countCacheFilterHash filter.
End Store.

(** * The calls and the world *)

(** What [GetInt64] answers: a number, no such key, or a failure. *)
Inductive reply : Type := Hit (z : Z) | NilReply | Down.

Inductive operlogE : Type -> Type :=
| LogGet (key : string) : operlogE reply
| LogSetex (key : string) (v ttl : Z) : operlogE (result unit)
| LogIncr (key : string) : operlogE (result Z)
| LogCount (w : log_where) : operlogE (result Z)
| LogSelect (w : log_where) : operlogE (result (list OperationLogEntry))
| LogSelectDeferred (w : log_where) : operlogE (result (list OperationLogEntry))
| LogInsert (entries : list OperationLogEntry) : operlogE (result Z).

Record lworld : Type := mkLWorld {
  lw_rows : list OperationLogEntry;
  lw_next : Z;
  lw_redis : gmap string Z
}.

Definition operlog_handle {R} (e : operlogE R) : lworld -> R * lworld :=
  match e in operlogE R return lworld -> R * lworld with
  | LogGet key => fun w => (match lw_redis w !! key with Some z => Hit z | None => NilReply end, w)
  | LogSetex key v _ => fun w => (Ok tt, mkLWorld (lw_rows w) (lw_next w) (<[key := v]> (lw_redis w)))
  | LogIncr key => fun w =>
      let z := (default 0 (lw_redis w !! key) + 1)%Z in
      (Ok z, mkLWorld (lw_rows w) (lw_next w) (<[key := z]> (lw_redis w)))
  | LogCount q => fun w => (Ok (Z.of_nat (length (List.filter (where_log (lw_filter q)) (lw_rows w)))), w)
  | LogSelect q => fun w => (Ok (List.filter (where_log (lw_filter q)) (lw_rows w)), w)
  | LogSelectDeferred q => fun w => (Ok (select_page q (lw_rows w)), w)
  | LogInsert entries => fun w =>
      (Ok (lw_next w), mkLWorld (lw_rows w ++ insert_rows (lw_next w) entries)%list (lw_next w + Z.of_nat (length entries))%Z (lw_redis w))
  end.

Definition operlog_fault {R} (e : operlogE R) : option R :=
  match e in operlogE R return option R with
  | LogGet _ => Some Down
  | LogSetex _ _ _ => Some (Err RedisError)
  | LogIncr _ => Some (Err RedisError)
  | LogCount _ => Some (Err DaoError)
  | LogSelect _ => Some (Err DaoError)
  | LogSelectDeferred _ => Some (Err DaoError)
  | LogInsert _ => Some (Err DaoError)
  end.

#[export] Instance operlog_interp : Interp operlogE lworld := {|
  handle := @operlog_handle;
  fault := @operlog_fault
|}.

(** * The cache *)

Section Cache.
Context `{!Crypto}.

Definition generation : prog operlogE (option Z) :=
  gen <- call (LogGet countCacheGenKey) ;;
  Ret (match gen with Hit z => Some z | NilReply => Some 0%Z | Down => None end).

Definition cache_get (filter : option OperationLogFilter) : prog operlogE (option Z) :=
  gen <- generation ;;
  match gen with
  | None => Ret None
  | Some gen =>
      raw <- call (LogGet (countCacheValueKey gen filter)) ;;
      Ret (match raw with Hit raw => if (raw <=? 0)%Z then None else Some (raw - 1)%Z | _ => None end)
  end.

Definition cache_set (filter : option OperationLogFilter) (total : Z) : prog operlogE unit :=
  gen <- generation ;;
  match gen with
  | None => Ret tt
  | Some gen => call (LogSetex (countCacheValueKey gen filter) (total + 1) countCacheTTL) ;; Ret tt
  end.

Definition invalidate : prog operlogE unit := call (LogIncr countCacheGenKey) ;; Ret tt.

(** * The storage ([operation_log.go]) *)

(** Whether the totals are cached. *)
Variable counter : bool.

Definition BatchCreate (entries : list OperationLogEntry) : prog operlogE (result unit) :=
  match entries with
  | [] => Ret (Ok tt)
  | _ =>
      r <- call (LogInsert entries) ;;
      match r with
      | Ok _ => (if counter then invalidate else Ret tt) ;; Ret (Ok tt)
      | Err e => Ret (Err e)
      end
  end.

Definition count (cond : log_where) (filter : option OperationLogFilter) : prog operlogE (result Z) :=
  cached <- (if counter then cache_get filter else Ret None) ;;
  match cached with
  | Some total => Ret (Ok total)
  | None =>
      total <-? call (LogCount cond) ;;
      (if counter then cache_set filter total else Ret tt) ;;
      Ret (Ok total)
  end.

Definition ListLogs (filter : option OperationLogFilter) : prog operlogE (result (list OperationLogEntry * Z)) :=
  let cond := filterToParam filter in
  total <-? count cond filter ;;
  list <-? match lw_limit cond with
           | None => call (LogSelect cond)
           | Some (offset, _) => if (total <=? offset)%Z then Ret (Ok []) else call (LogSelectDeferred cond)
           end ;;
  Ret (Ok (list, total)).

(** * Queries *)

Definition QueryLogs (filter : option OperationLogFilter) : prog operlogE (result OperationLogQueryResult) :=
  r <-? ListLogs filter ;;
  let '(list, total) := r in
  Ret (Ok (mkLogResult total (default 1%Z (filter ≫= lf_Page)) (default (Z.of_nat (length list)) (filter ≫= lf_PageSize)) list)).

(** The query parameters of [GET /operation-logs]. *)
Record operationLogListFilter : Type := mkListFilter {
  of_OperatorName : option string; of_Action : option string; of_ResourceType : option string;
  of_ResourceID : option string; of_ResourceName : option string; of_ResourceParentID : option string;
  of_Status : option Z; of_StartTime : option Z; of_EndTime : option Z; of_Page : option Z; of_PageSize : option Z
}.

Definition positive_or (z : option Z) (d : Z) : Z := match z with Some z => if (0 <? z)%Z then z else d | None => d end.
Definition list_page (f : operationLogListFilter) : Z := positive_or (of_Page f) 1.
Definition list_page_size (f : operationLogListFilter) : Z := Z.min (positive_or (of_PageSize f) 20) 100.

Definition OperationLogListAction (f : operationLogListFilter) : prog operlogE (result OperationLogQueryResult) :=
  result <-? QueryLogs (Some (mkLogFilter None None None (of_OperatorName f) (of_Action f) (of_ResourceType f)
      (of_ResourceID f) (of_ResourceName f) (of_ResourceParentID f) (of_Status f)
      (time_Unix <$> of_StartTime f) (time_Unix <$> of_EndTime f) (Some (list_page f)) (Some (list_page_size f)))) ;;
  Ret (Ok (mkLogResult (qr_Total result) (list_page f) (list_page_size f) (qr_List result))).
End Cache.
