(* ===== verification/OperLogTotals.v ===== *)
(** The cached totals of operation logs: which filters share a key, that the
    totals are exact as long as reads and writes take turns, and how they go
    wrong when a write comes between the counting and the caching. *)
From Stdlib Require Import ZArith Lia Ascii.
From stdpp Require Import base tactics numbers list strings sorting gmap option.
From S2P Require Import Prelude GoStrings Prog XCrypto OperLog OperLogStore.

Local Open Scope string_scope.

(** * Texts that are read back *)

Fixpoint unescape (s : string) : string :=
  match s with
  | String c r =>
      if ascii_dec c "+" then String " " (unescape r)
      else match r with
           | String h (String l r') =>
               if ascii_dec c "%" then
                 let v := fun d => let n := N_of_ascii d in if (n <? 58)%N then (n - 48)%N else (n - 55)%N in
                 String (ascii_of_N (16 * v h + v l)) (unescape r')
               else String c (unescape r)
           | _ => String c (unescape r)
           end
  | EmptyString => ""
  end.

Lemma unescape_byte c s : unescape (escape_byte c +:+ s) = String c (unescape s).
Proof. destruct c as [[] [] [] [] [] [] [] []]; try reflexivity; by destruct s as [|? []]. Qed.
Lemma unescape_QueryEscape s : unescape (QueryEscape s) = s.
Proof.
  induction s as [|c s IH]; [done|]. cbn [QueryEscape]. by rewrite unescape_byte, IH.
Qed.
Lemma QueryEscape_inj s s' : QueryEscape s = QueryEscape s' -> s = s'.
Proof. intros E. by rewrite <- (unescape_QueryEscape s), E, unescape_QueryEscape. Qed.
Lemma QueryEscape_bar s : has_byte (QueryEscape s) "|" = false.
Proof.
  induction s as [|c s IH]; [done|]. cbn [QueryEscape]. rewrite has_byte_app, IH, orb_false_r.
  by destruct c as [[] [] [] [] [] [] [] []].
Qed.

Fixpoint unhex (s : string) : string :=
  match s with
  | String h (String l r) =>
      let v := fun d => let n := N_of_ascii d in if (n <? 58)%N then (n - 48)%N else (n - 87)%N in
      String (ascii_of_N (16 * v h + v l)) (unhex r)
  | _ => ""
  end.
Lemma unhex_HexEncode s : unhex (HexEncode s) = s.
Proof.
  induction s as [|c s IH]; [done|]. cbn [HexEncode unhex]. rewrite IH. f_equal.
  by destruct c as [[] [] [] [] [] [] [] []].
Qed.
Lemma HexEncode_inj s s' : HexEncode s = HexEncode s' -> s = s'.
Proof. intros E. by rewrite <- (unhex_HexEncode s), E, unhex_HexEncode. Qed.

(** * Which filters share a key *)

(** The parts of the hashed text between the bars. *)
Definition str_part (name : string) (v : option string) : list string :=
  [name +:+ "=" +:+ (match v with Some s => QueryEscape s | None => "" end)].
Definition int_part (name : string) (v : option Z) : list string :=
  match v with Some z => [name +:+ "=" +:+ FormatInt z] | None => [] end.
Definition filter_parts (f : OperationLogFilter) : list string :=
  (str_part "log_id" (lf_LogID f) ++ int_part "operator_type" (lf_OperatorType f)
   ++ int_part "operator_id" (lf_OperatorID f) ++ str_part "operator_name" (lf_OperatorName f)
   ++ str_part "action" (lf_Action f) ++ str_part "resource_type" (lf_ResourceType f)
   ++ str_part "resource_id" (lf_ResourceID f) ++ str_part "resource_name" (lf_ResourceName f)
   ++ str_part "resource_parent_id" (lf_ResourceParentID f) ++ int_part "status" (lf_Status f)
   ++ int_part "start_time" (time_ToUnix <$> lf_StartTime f) ++ int_part "end_time" (time_ToUnix <$> lf_EndTime f))%list.

Fixpoint barred (l : list string) : string := match l with [] => "" | p :: l => "|" +:+ p +:+ barred l end.

Lemma barred_app l k : barred (l ++ k) = barred l +:+ barred k.
Proof. induction l as [|p l IH]; [done|]. cbn [barred app]. by rewrite IH, !string_app_assoc. Qed.

Lemma app_prefix_inj (a b c : string) : a +:+ b = a +:+ c -> b = c.
Proof. induction a as [|x a IH]; [done|]. intros E. injection E as E. auto. Qed.

Lemma barred_inj l k : Forall (fun p => has_byte p "|" = false) l -> Forall (fun p => has_byte p "|" = false) k ->
  barred l = barred k -> l = k.
Proof.
  intros Hl. revert k. induction Hl as [|p l Hp _ IH]; intros [|q k] Hk E; try done. inversion Hk as [|?? Hq Hk']; subst.
  cbn [barred] in E. apply (app_prefix_inj "|") in E. destruct l as [|p' l], k as [|q' k]; cbn [barred] in E.
  - rewrite !string_app_nil_r in E. by subst.
  - exfalso. rewrite string_app_nil_r in E. rewrite E, has_byte_app in Hp. by rewrite orb_true_r in Hp.
  - exfalso. rewrite string_app_nil_r in E. rewrite <- E, has_byte_app in Hq. by rewrite orb_true_r in Hq.
  - apply bar_inj in E as [-> E]; [|done..]. f_equal. apply IH; [done|]. cbn [barred]. by f_equal.
Qed.

Lemma part_text name v : writeOptString name v = barred (str_part name v).
Proof. unfold str_part. cbn [barred]. by rewrite string_app_nil_r. Qed.
Lemma int_text name v : writeOptInt name v = barred (int_part name v).
Proof. destruct v; [|done]. unfold int_part. cbn [barred]. by rewrite string_app_nil_r. Qed.
Lemma str_part_bar name v : has_byte name "|" = false -> Forall (fun p => has_byte p "|" = false) (str_part name v).
Proof.
  intros Hn. constructor; [|done]. rewrite !has_byte_app, Hn. destruct v; [|done]. by rewrite QueryEscape_bar.
Qed.
Lemma int_part_bar name v : has_byte name "|" = false -> Forall (fun p => has_byte p "|" = false) (int_part name v).
Proof.
  intros Hn. destruct v; [|done]. constructor; [|done]. rewrite !has_byte_app, Hn. by rewrite FormatInt_byte.
Qed.

Lemma filter_text_parts f : filter_text f = "v1" +:+ barred (filter_parts (default noFilter f)).
Proof. unfold filter_text, filter_parts. rewrite !barred_app, !part_text, !int_text. done. Qed.

Lemma filter_parts_bar f : Forall (fun p => has_byte p "|" = false) (filter_parts f).
Proof. unfold filter_parts. rewrite !Forall_app. repeat split; first [by apply str_part_bar|by apply int_part_bar]. Qed.

(** A text part is told from its neighbour by its name. *)
Definition other_name (name : string) (l : list string) : Prop :=
  match l with [] => True | p :: _ => HasPrefix p (name +:+ "=") = false end.

Lemma str_part_inj name v v' l l' : (str_part name v ++ l = str_part name v' ++ l')%list ->
  (match v with Some s => s | None => "" end = match v' with Some s => s | None => "" end) /\ l = l'.
Proof.
  intros E. injection E as E ->. split; [|done]. apply app_prefix_inj, app_prefix_inj in E.
  destruct v as [s|], v' as [s'|]; [by apply QueryEscape_inj|..|done].
  - by apply (QueryEscape_inj s "").
  - by apply (QueryEscape_inj "" s').
Qed.

Lemma int_part_inj name v v' l l' : other_name name l -> other_name name l' ->
  (int_part name v ++ l = int_part name v' ++ l')%list -> v = v' /\ l = l'.
Proof.
  intros Hl Hl' E. assert (forall z, HasPrefix (name +:+ "=" +:+ FormatInt z) (name +:+ "=") = true) as Hp.
  { intros z. rewrite <- string_app_assoc. apply HasPrefix_app. }
  destruct v as [z|], v' as [z'|]; cbn in E.
  - injection E as E ->. split; [|done]. apply app_prefix_inj, app_prefix_inj in E. f_equal. by apply FormatInt_inj.
  - subst l'. cbn in Hl'. by rewrite Hp in Hl'.
  - subst l. cbn in Hl. by rewrite Hp in Hl.
  - done.
Qed.

Definition same_text (v v' : option string) : Prop := default "" v = default "" v'.

(** The conditions that one key stands for. *)
Definition same_key (f g : OperationLogFilter) : Prop :=
  same_text (lf_LogID f) (lf_LogID g) /\ lf_OperatorType f = lf_OperatorType g /\ lf_OperatorID f = lf_OperatorID g /\
  same_text (lf_OperatorName f) (lf_OperatorName g) /\ same_text (lf_Action f) (lf_Action g) /\
  same_text (lf_ResourceType f) (lf_ResourceType g) /\ same_text (lf_ResourceID f) (lf_ResourceID g) /\
  same_text (lf_ResourceName f) (lf_ResourceName g) /\ same_text (lf_ResourceParentID f) (lf_ResourceParentID g) /\
  lf_Status f = lf_Status g /\ time_ToUnix <$> lf_StartTime f = time_ToUnix <$> lf_StartTime g /\
  time_ToUnix <$> lf_EndTime f = time_ToUnix <$> lf_EndTime g.

Ltac next_part := cbn [app str_part other_name];
  repeat match goal with |- context [int_part _ ?v] => destruct v; cbn [app int_part] end; try exact I; reflexivity.

Lemma filter_parts_inj f g : filter_parts f = filter_parts g -> same_key f g.
Proof.
  unfold filter_parts, same_key, same_text. intros E.
  apply str_part_inj in E as [H1 E]. apply int_part_inj in E as [H2 E]; [|next_part..].
  apply int_part_inj in E as [H3 E]; [|next_part..].
  apply str_part_inj in E as [H4 E]. apply str_part_inj in E as [H5 E]. apply str_part_inj in E as [H6 E].
  apply str_part_inj in E as [H7 E]. apply str_part_inj in E as [H8 E]. apply str_part_inj in E as [H9 E].
  apply int_part_inj in E as [H10 E]; [|next_part..]. apply int_part_inj in E as [H11 E]; [|next_part..].
  assert (forall l : list string, l = l ++ [])%list as Hnil by (intros; by rewrite app_nil_r).
  rewrite (Hnil (int_part "end_time" (time_ToUnix <$> lf_EndTime f))), (Hnil (int_part "end_time" (time_ToUnix <$> lf_EndTime g))) in E.
  apply int_part_inj in E as [H12 _]; [|done..]. by repeat split.
Qed.

Lemma filter_text_inj f g : filter_text (Some f) = filter_text (Some g) -> same_key f g.
Proof.
  rewrite !filter_text_parts. intros E. apply app_prefix_inj, barred_inj in E; [|apply filter_parts_bar..].
  by apply filter_parts_inj.
Qed.
Lemma filter_text_default f : filter_text f = filter_text (Some (default noFilter f)).
Proof. by destruct f. Qed.

(** Two filters hash the same text exactly when they agree up to empty
    strings for absent ones and up to parts of a second: values cannot imitate
    the separators. *)
Theorem cache_text_exact (f g : OperationLogFilter) : filter_text (Some f) = filter_text (Some g) <-> same_key f g.
Proof.
  split; [apply filter_text_inj|].
  - unfold same_key. intros (H1 & H2 & H3 & H4 & H5 & H6 & H7 & H8 & H9 & H10 & H11 & H12).
    assert (forall name v v', same_text v v' -> writeOptString name v = writeOptString name v') as Hs.
    { intros name v v' E. unfold writeOptString. do 3 f_equal. unfold same_text in E.
      destruct v as [|], v' as [|]; cbn in E; by subst. }
    unfold filter_text. cbn [default from_option id].
    by rewrite (Hs _ _ _ H1), H2, H3, (Hs _ _ _ H4), (Hs _ _ _ H5), (Hs _ _ _ H6), (Hs _ _ _ H7), (Hs _ _ _ H8),
      (Hs _ _ _ H9), H10, H11, H12.
Qed.

(** * Totals *)

(** Filters as requests without empty values bring them: a given text is not
    empty and times are whole seconds. *)
Definition given (v : option string) : Prop := v <> Some "".
Definition whole_seconds (t : option gotime) : Prop := match t with Some t => exists s, t = time_Unix s | None => True end.
Definition plain (f : OperationLogFilter) : Prop :=
  given (lf_LogID f) /\ given (lf_OperatorName f) /\ given (lf_Action f) /\ given (lf_ResourceType f) /\
  given (lf_ResourceID f) /\ given (lf_ResourceName f) /\ given (lf_ResourceParentID f) /\
  whole_seconds (lf_StartTime f) /\ whole_seconds (lf_EndTime f).

Lemma same_text_given v v' : given v -> given v' -> same_text v v' -> v = v'.
Proof. unfold given, same_text. destruct v as [s|], v' as [s'|]; cbn; congruence. Qed.
Lemma same_whole_seconds t t' : whole_seconds t -> whole_seconds t' -> time_ToUnix <$> t = time_ToUnix <$> t' -> t = t'.
Proof.
  destruct t as [t|], t' as [t'|]; cbn; try done. intros [s ->] [s' ->] [= E]. unfold time_ToUnix, time_Unix in *.
  rewrite !Z.div_mul in E by done. do 2 f_equal. lia.
Qed.

Lemma same_key_plain f g r : plain f -> plain g -> same_key f g -> where_log f r = where_log g r.
Proof.
  intros (P1 & P2 & P3 & P4 & P5 & P6 & P7 & P8 & P9) (Q1 & Q2 & Q3 & Q4 & Q5 & Q6 & Q7 & Q8 & Q9)
    (H1 & H2 & H3 & H4 & H5 & H6 & H7 & H8 & H9 & H10 & H11 & H12).
  unfold where_log. rewrite H2, H3, H10.
  by rewrite (same_text_given _ _ P1 Q1 H1), (same_text_given _ _ P2 Q2 H4), (same_text_given _ _ P3 Q3 H5),
    (same_text_given _ _ P4 Q4 H6), (same_text_given _ _ P5 Q5 H7), (same_text_given _ _ P6 Q6 H8),
    (same_text_given _ _ P7 Q7 H9), (same_whole_seconds _ _ P8 Q8 H11), (same_whole_seconds _ _ P9 Q9 H12).
Qed.

Definition conditions (filter : option OperationLogFilter) : OperationLogFilter := default noFilter filter.
Definition matching (filter : option OperationLogFilter) (rows : list OperationLogEntry) : list OperationLogEntry :=
  List.filter (where_log (conditions filter)) rows.
Definition total_of (filter : option OperationLogFilter) (rows : list OperationLogEntry) : Z :=
  Z.of_nat (length (matching filter rows)).
(** The entries that a filter asks for: a page, newest first, or all. *)
Definition page_of_logs (filter : option OperationLogFilter) (rows : list OperationLogEntry) : list OperationLogEntry :=
  match lw_limit (filterToParam filter) with
  | None => matching filter rows
  | Some (offset, size) => take (Z.to_nat size) (drop (Z.to_nat offset) (merge_sort newer (matching filter rows)))
  end.

Lemma param_conditions filter : lw_filter (filterToParam filter) = conditions filter.
Proof. by destruct filter. Qed.
Lemma param_offset filter offset size : lw_limit (filterToParam filter) = Some (offset, size) -> (0 <= offset)%Z.
Proof.
  destruct filter as [f|]; [|done]. cbn. destruct (lf_Page f), (lf_PageSize f); try done. intros [= <- <-].
  unfold page_offset. cbv zeta. destruct (Z.ltb_spec (wrap64 (wrap64 (z - 1) * z0)) 0); lia.
Qed.

Section Totals.
Context `{!Crypto}.

Lemma value_key_inj gen gen' f g : countCacheValueKey gen f = countCacheValueKey gen' g ->
  gen = gen' /\ sha256 (filter_text f) = sha256 (filter_text g).
Proof.
  unfold countCacheValueKey. intros E. apply app_prefix_inj in E.
  apply (sep_inj ":") in E as [Eg Eh]; [|by apply FormatInt_byte..].
  split; [by apply FormatInt_inj|by apply HexEncode_inj].
Qed.
Lemma value_key_not_gen gen f : countCacheValueKey gen f <> countCacheGenKey.
Proof. unfold countCacheValueKey, countCacheGenKey. cbn. discriminate. Qed.

(** No two of the filters collide under the hash. *)
Definition collision_free (filters : list (option OperationLogFilter)) : Prop :=
  forall f g, f ∈ filters -> g ∈ filters -> sha256 (filter_text f) = sha256 (filter_text g) -> filter_text f = filter_text g.

Definition current (w : lworld) : Z := default 0%Z (lw_redis w !! countCacheGenKey).

(** What is cached under the current generation is right, and nothing is
    cached under a later one. *)
Definition fresh (filters : list (option OperationLogFilter)) (w : lworld) : Prop :=
  (forall f v, f ∈ filters -> lw_redis w !! countCacheValueKey (current w) f = Some v -> v = (total_of f (lw_rows w) + 1)%Z) /\
  (forall f gen, (current w < gen)%Z -> lw_redis w !! countCacheValueKey gen f = None).

Definition cached (w : lworld) (f : option OperationLogFilter) (total : Z) : lworld :=
  mkLWorld (lw_rows w) (lw_next w) (<[countCacheValueKey (current w) f := (total + 1)%Z]> (lw_redis w)).

Lemma cached_current w f total : current (cached w f total) = current w.
Proof. unfold current, cached. cbn. by rewrite lookup_insert_ne by apply value_key_not_gen. Qed.

Lemma fresh_cached filters w f : Forall (fun f => plain (conditions f)) filters -> collision_free filters -> f ∈ filters ->
  fresh filters w -> fresh filters (cached w f (total_of f (lw_rows w))).
Proof.
  intros Hp Hc Hf [H1 H2]. unfold fresh. rewrite cached_current. cbn [cached lw_redis lw_rows]. split.
  - intros g v Hg Hv. destruct (decide (countCacheValueKey (current w) f = countCacheValueKey (current w) g)) as [E|E].
    + rewrite E, lookup_insert_eq in Hv. injection Hv as <-. apply value_key_inj in E as [_ E].
      apply Hc in E; [|done..]. rewrite list.Forall_forall in Hp.
      unfold total_of, matching. do 3 f_equal. apply List.filter_ext. intros r. apply same_key_plain; auto.
      apply filter_text_inj. by rewrite <- !filter_text_default.
    + rewrite lookup_insert_ne in Hv by done. by apply H1.
  - intros g gen Hgen. rewrite lookup_insert_ne; [by apply H2|]. intros E. apply value_key_inj in E as [E _]. lia.
Qed.

Lemma fresh_invalidated filters w rows next : fresh filters w ->
  fresh filters (mkLWorld rows next (<[countCacheGenKey := (current w + 1)%Z]> (lw_redis w))).
Proof.
  intros [_ H2]. unfold fresh. assert (forall rows next z, current (mkLWorld rows next (<[countCacheGenKey := z]> (lw_redis w))) = z) as Hcur
    by (intros; unfold current; cbn; by rewrite lookup_insert_eq).
  rewrite Hcur. cbn [lw_redis lw_rows]. split.
  - intros f v _ Hv. rewrite lookup_insert_ne in Hv by (symmetry; apply value_key_not_gen). rewrite H2 in Hv by lia. done.
  - intros f gen Hgen. rewrite lookup_insert_ne by (symmetry; apply value_key_not_gen). apply H2. lia.
Qed.

(** The outcomes of a flush after which no total is out of date: a row that is
    inserted is known to be, and then the counter is raised; its answer does
    not matter. *)
Definition invalidates (os : list outcome) : Prop := hd Normal os <> FailAfter /\ hd Normal (tl os) <> FailBefore.
Lemma fresh_write filters w entries os : invalidates os -> fresh filters w -> fresh filters (exec os (BatchCreate true entries) w).2.
Proof.
  intros [H1 H2] Hw. destruct entries as [|e l]; [exact Hw|]. unfold BatchCreate, invalidate. cbn [bind call]. rewrite exec_call.
  destruct (hd Normal os); [|exact Hw|done]. cbn [answer handle operlog_interp operlog_handle fst snd bind call]. rewrite exec_call, exec_ret.
  destruct (hd Normal (tl os)); [exact (fresh_invalidated _ _ _ _ Hw)|done|exact (fresh_invalidated _ _ _ _ Hw)].
Qed.

(** ** Reads, whatever calls fail *)

Lemma hoare_generation w0 : hoare (eq w0) generation (fun r w => w0 = w /\ forall g, r = Some g -> g = current w).
Proof.
  eapply hoare_bind with (Mid := fun r w => w0 = w /\ match r with Hit z => z = current w | NilReply => current w = 0%Z | Down => True end).
  - apply hoare_call_cases.
    + intros w <-. cbn. unfold current. by destruct (lw_redis w0 !! countCacheGenKey).
    + intros w r <- [= <-]. done.
  - intros r. apply hoare_ret. intros w [<- Hr]. split; [done|]. destruct r; intros g [= <-]; auto.
Qed.

Lemma hoare_cache_get w0 f : hoare (eq w0) (cache_get f) (fun r w => w0 = w /\
  forall n, r = Some n -> exists v, lw_redis w !! countCacheValueKey (current w) f = Some v /\ n = (v - 1)%Z).
Proof.
  eapply hoare_bind; [apply hoare_generation|]. intros [g|]; [|apply hoare_ret; by intros w [<- _]].
  eapply hoare_bind with (Mid := fun r w => w0 = w /\ match r with
    | Hit z => lw_redis w !! countCacheValueKey (current w) f = Some z | _ => True end).
  - apply hoare_call_cases.
    + intros w [<- Hg]. cbn [handle operlog_interp operlog_handle fst snd]. rewrite (Hg g eq_refl). split; [done|].
      by destruct (lw_redis w0 !! countCacheValueKey (current w0) f).
    + intros w r [<- Hg] [= <-]. done.
  - intros r. apply hoare_ret. intros w [<- Hr]. split; [done|]. destruct r as [z| |]; try done.
    destruct (z <=? 0)%Z; [done|]. intros n [= <-]. by exists z.
Qed.

Lemma hoare_cache_set w0 f n : hoare (eq w0) (cache_set f n) (fun _ w => w = w0 \/ w = cached w0 f n).
Proof.
  eapply hoare_bind; [apply hoare_generation|]. intros [g|]; [|apply hoare_ret; by intros w [<- _]; left].
  eapply hoare_bind with (Mid := fun _ w => w = w0 \/ w = cached w0 f n); [|intros _; by apply hoare_ret].
  apply hoare_call_cases; intros w; [|intros r]; intros [<- Hg]; rewrite (Hg g eq_refl); cbn; auto.
Qed.

Section Reads.
Variable filters : list (option OperationLogFilter).
Hypothesis Hplain : Forall (fun f => plain (conditions f)) filters.
Hypothesis Hfree : collision_free filters.

Definition unchanged (w0 w : lworld) : Prop := fresh filters w /\ lw_rows w = lw_rows w0.

Lemma hoare_count w0 f : fresh filters w0 -> f ∈ filters -> hoare (eq w0) (count true (filterToParam f) f)
  (fun r w => unchanged w0 w /\ match r with Ok n => n = total_of f (lw_rows w0) | Err _ => True end).
Proof.
  intros H0 Hf. eapply hoare_bind; [apply hoare_cache_get|]. intros [n|]; cbv beta.
  - apply hoare_ret. intros w [<- Hn]. destruct (Hn n eq_refl) as (v & Hv & ->). split; [by split|].
    apply H0 in Hv as ->; [|done]. lia.
  - eapply hoare_bind with (Mid := fun r w => w0 = w /\ match r with Ok n => n = total_of f (lw_rows w) | Err _ => True end).
    + apply hoare_call_cases.
      * intros w [<- _]. split; [done|]. cbn. by rewrite param_conditions.
      * by intros w r [<- _] [= <-].
    + intros [n|e]; [|apply hoare_ret; by intros w [<- _]].
      apply (hoare_given (n = total_of f (lw_rows w0)) (eq w0)); [by intros w [<- ?]|]. intros ->. eapply hoare_bind; [apply hoare_cache_set|]. intros u. apply hoare_ret.
      intros w [->| ->]; (split; [|done]); [done|]. split; [by apply fresh_cached|done].
Qed.

Lemma hoare_ListLogs w0 f : fresh filters w0 -> f ∈ filters -> hoare (eq w0) (ListLogs true f)
  (fun r w => unchanged w0 w /\ match r with
     | Ok (l, n) => n = total_of f (lw_rows w0) /\ l = page_of_logs f (lw_rows w0)
     | Err _ => True
     end).
Proof.
  intros H0 Hf. eapply hoare_bind; [by apply hoare_count|]. intros [n|e]; [|apply hoare_ret; tauto].
  apply (hoare_given (n = total_of f (lw_rows w0)) (unchanged w0)); [by intros w [? ?]|]. intros Hn.
  eapply hoare_bind with (Mid := fun r w => unchanged w0 w /\ match r with Ok l => l = page_of_logs f (lw_rows w0) | Err _ => True end).
  - unfold page_of_logs. destruct (lw_limit (filterToParam f)) as [[offset size]|] eqn:El.
    + pose proof (param_offset _ _ _ El) as Ho. destruct (Z.leb_spec n offset) as [Hle|Hle].
      * apply hoare_ret. intros w Hw. split; [done|]. rewrite drop_ge; [by rewrite take_nil|].
        rewrite merge_sort_Permutation. unfold total_of in Hn. lia.
      * apply hoare_call_cases; [|by intros w r Hw [= <-]]. intros w [Hw Hr]. cbn. rewrite <- Hr.
        split; [by split; [|rewrite <- Hr]|]. unfold select_page. by rewrite El, param_conditions, Hr.
    + apply hoare_call_cases; [|by intros w r Hw [= <-]]. intros w [Hw Hr]. cbn. rewrite param_conditions, Hr.
      split; [by split|reflexivity].
  - intros [l|e]; apply hoare_ret; [|tauto]. intros w [Hw ->]. done.
Qed.
End Reads.

(** ** Histories *)

(** What happens to the table and the cache: a flush of the worker and a
    listing, with the outcomes of their calls, and the expiry of a cached
    total. *)
Inductive log_event : Type :=
| Flushed (entries : list OperationLogEntry) (os : list outcome)
| Listed (filter : option OperationLogFilter) (os : list outcome)
| Expired (gen : Z) (filter : option OperationLogFilter).

Definition after_event (w : lworld) (ev : log_event) : lworld :=
  match ev with
  | Flushed entries os => (exec os (BatchCreate true entries) w).2
  | Listed filter os => (exec os (ListLogs true filter) w).2
  | Expired gen filter => mkLWorld (lw_rows w) (lw_next w) (delete (countCacheValueKey gen filter) (lw_redis w))
  end.

Definition listed (filters : list (option OperationLogFilter)) (ev : log_event) : Prop :=
  match ev with Listed f _ => f ∈ filters | Flushed _ os => invalidates os | Expired _ _ => True end.

Lemma fresh_event filters w ev : Forall (fun f => plain (conditions f)) filters -> collision_free filters ->
  listed filters ev -> fresh filters w -> fresh filters (after_event w ev).
Proof.
  intros Hp Hc Hev Hw. destruct ev as [entries os|f os|gen f]; cbn [after_event listed] in *.
  - by apply fresh_write.
  - by apply (hoare_ListLogs filters Hp Hc w f Hw Hev os w eq_refl).
  - destruct Hw as [H1 H2]. unfold fresh.
    assert (current (mkLWorld (lw_rows w) (lw_next w) (delete (countCacheValueKey gen f) (lw_redis w))) = current w) as ->
      by (unfold current; cbn; by rewrite lookup_delete_ne by apply value_key_not_gen).
    cbn [lw_redis lw_rows]. split.
    + intros g v Hg [_ Hv]%lookup_delete_Some. by apply H1.
    + intros g gen' Hgen. apply lookup_delete_None. right. by apply H2.
Qed.

Lemma fresh_history filters w evs : Forall (fun f => plain (conditions f)) filters -> collision_free filters ->
  Forall (listed filters) evs -> fresh filters w -> fresh filters (fold_left after_event evs w).
Proof.
  intros Hp Hc Hevs. revert w. induction Hevs as [|ev evs Hev _ IH]; intros w Hw; [done|]. cbn [fold_left].
  by apply IH, fresh_event.
Qed.
End Totals.

(** * Exactness and its limits *)

Section Claims.
Context `{!Crypto}.

(** C35: Totals and pages are exact, after any history in which flushes and
    listings take turns, whichever calls of the listings fail and whenever
    cached totals expire, for filters without empty texts and parts of
    seconds, as long as a flush that inserts rows is answered and raises the
    counter of the cache: a listing that answers gives the number of entries
    that match its filter and exactly the page it asks for.  What happens
    otherwise is shown below. *)
Theorem listings_exact (filters : list (option OperationLogFilter)) (w : lworld) (evs : list log_event)
    (f : option OperationLogFilter) (os : list outcome) (l : list OperationLogEntry) (n : Z) :
  Forall (fun f => plain (conditions f)) filters -> collision_free filters -> lw_redis w = ∅ ->
  Forall (listed filters) evs -> f ∈ filters ->
  let w' := fold_left after_event evs w in
  (exec os (ListLogs true f) w').1 = Ok (l, n) ->
  n = total_of f (lw_rows w') /\ l = page_of_logs f (lw_rows w').
Proof.
  intros Hp Hc He Hevs Hf w' Hl. assert (fresh filters w') as Hw.
  { apply fresh_history; [done..|]. split; intros; unfold current in *; rewrite He in *; by rewrite lookup_empty in *. }
  pose proof (hoare_ListLogs filters Hp Hc w' f Hw Hf os w' eq_refl) as [_ Hr]. by rewrite Hl in Hr.
Qed.

(** A total that is cached is served. *)
Lemma cached_listing w f n : (0 <= n)%Z -> lw_redis w !! countCacheValueKey (current w) f = Some (n + 1)%Z ->
  (exec [] (ListLogs true f) w).1 =
  Ok (match lw_limit (filterToParam f) with
      | Some (offset, _) => if (n <=? offset)%Z then [] else select_page (filterToParam f) (lw_rows w)
      | None => matching f (lw_rows w)
      end, n) /\ (exec [] (ListLogs true f) w).2 = w.
Proof.
  intros Hn Hv. assert (exec [] (count true (filterToParam f) f) w = (Ok n, w)) as Hc.
  { unfold count, cache_get, generation, call, current in *. cbn [bind]. rewrite exec_call. cbn [hd tl answer handle operlog_interp operlog_handle fst snd].
    destruct (lw_redis w !! countCacheGenKey) as [g|] eqn:Eg; cbn [bind default from_option id] in *; rewrite exec_call;
      cbn [hd tl answer handle operlog_interp operlog_handle fst snd]; rewrite Hv;
      destruct (Z.leb_spec (n + 1) 0); try lia; cbn [bind]; rewrite exec_ret; do 3 f_equal; lia. }
  unfold ListLogs. rewrite exec_bind_nil, Hc. cbn [fst snd]. destruct (lw_limit (filterToParam f)) as [[offset size]|].
  - by destruct (n <=? offset)%Z.
  - unfold matching. rewrite <- param_conditions. done.
Qed.

Lemma total_of_nonneg f rows : (0 <= total_of f rows)%Z.
Proof. unfold total_of. lia. Qed.

Definition racing : list (nat * outcome) :=
  [(0, Normal); (0, Normal); (0, Normal); (1, Normal); (1, Normal); (0, Normal); (0, Normal); (0, Normal)].

Ltac operlog_steps := cbn [bind interleave racing lookup list_lookup step answer hd tl handle operlog_interp operlog_handle
  fault operlog_fault lw_redis lw_rows lw_next insert list_insert list_alter fst snd length].

Lemma interleave_race rows next f e :
  (interleave racing [(ListLogs true f ;; Ret tt); (BatchCreate true [e] ;; Ret tt)] (mkLWorld rows next ∅)).2 =
  mkLWorld (rows ++ [entry_row next e]) (next + 1)
    (<[countCacheValueKey 1 f := (total_of f rows + 1)%Z]> (<[countCacheGenKey := 1%Z]> ∅)).
Proof.
  unfold ListLogs, count, cache_get, cache_set, generation, BatchCreate, invalidate, call.
  do 5 (operlog_steps; rewrite ?lookup_empty). operlog_steps. rewrite param_conditions, lookup_insert_eq. operlog_steps.
  unfold total_of, matching. destruct (lw_limit (filterToParam f)) as [[offset size]|]; [|done]. by destruct (_ <=? offset)%Z.
Qed.

(** Totals are not exact when a flush comes between the counting and the
    caching of a listing: the old count is then stored under the new
    generation, and the next listing serves it. *)
Theorem racing_flush_caches_old_total (rows : list OperationLogEntry) (next : Z) (f : option OperationLogFilter)
    (e : OperationLogEntry) :
  where_log (conditions f) (entry_row next e) = true ->
  let w' := (interleave racing [(ListLogs true f ;; Ret tt); (BatchCreate true [e] ;; Ret tt)] (mkLWorld rows next ∅)).2 in
  lw_rows w' = (rows ++ [entry_row next e])%list /\
  exists l, (exec [] (ListLogs true f) w').1 = Ok (l, total_of f rows) /\ total_of f (lw_rows w') = (total_of f rows + 1)%Z.
Proof.
  intros Hm w'. unfold w'. rewrite interleave_race. cbn [lw_rows]. split; [done|].
  eexists. split.
  - apply cached_listing; [apply total_of_nonneg|]. unfold current. cbn [lw_redis].
    rewrite (lookup_insert_ne _ (countCacheValueKey 1 f) countCacheGenKey) by apply value_key_not_gen.
    rewrite lookup_insert_eq. cbn [default from_option id].
    done.
  - unfold total_of, matching. rewrite List.filter_app. cbn [List.filter]. rewrite Hm, length_app. cbn [length]. lia.
Qed.

Definition named (name : option string) : operationLogListFilter :=
  mkListFilter name None None None None None None None None None None.
Definition named_filter (name : option string) : OperationLogFilter :=
  mkLogFilter None None None name None None None None None None None None (Some 1%Z) (Some 20%Z).

Lemma first_listing rows next f :
  (exec [] (ListLogs true f) (mkLWorld rows next ∅)).2 =
  mkLWorld rows next {[ countCacheValueKey 0 f := (total_of f rows + 1)%Z ]}.
Proof.
  unfold ListLogs, count, cache_get, cache_set, generation, call.
  do 5 (operlog_steps; rewrite exec_call; operlog_steps; rewrite ?lookup_empty). rewrite param_conditions.
  unfold total_of, matching. destruct (lw_limit (filterToParam f)) as [[offset size]|]; [|done]. by destruct (_ <=? offset)%Z.
Qed.

Lemma action_listing name w : exec [] (OperationLogListAction true (named name)) w =
  let '(r, w') := exec [] (ListLogs true (Some (named_filter name))) w in
  (match r with Ok (l, n) => Ok (mkLogResult n 1 20 l) | Err e => Err e end, w').
Proof.
  unfold OperationLogListAction, QueryLogs. rewrite !exec_bind_nil. change (Some (mkLogFilter _ _ _ _ _ _ _ _ _ _ _ _ _ _)) with (Some (named_filter name)).
  by destruct (exec [] (ListLogs true _) w) as [[[l n]|e] w'].
Qed.

(** A listing with an empty [operator_name] has the cache key of one
    without: after all entries were listed it reports the number of all
    entries as its total, beside a page of the few that match. *)
Theorem empty_name_takes_total_of_all (rows : list OperationLogEntry) (next : Z) : rows <> [] ->
  let w := (exec [] (OperationLogListAction true (named None)) (mkLWorld rows next ∅)).2 in
  lw_rows w = rows /\
  (exec [] (OperationLogListAction true (named (Some ""))) w).1 =
  Ok (mkLogResult (Z.of_nat (length rows)) 1 20
        (take 20 (merge_sort newer (List.filter (fun r => bool_decide (le_OperatorName r = "")) rows)))).
Proof.
  intros Hr. rewrite !action_listing. set (f := named_filter None). set (g := named_filter (Some "")).
  pose proof (first_listing rows next (Some f)) as Hf. destruct (exec [] (ListLogs true (Some f)) _) as [r w1].
  cbn [fst snd] in *. subst w1. split; [done|]. rewrite action_listing. fold g.
  assert (total_of (Some f) rows = Z.of_nat (length rows)) as Ht.
  { unfold total_of, matching. do 2 f_equal. clear. induction rows as [|r rows IH]; [done|]. cbn [List.filter]. by rewrite IH. }
  destruct (cached_listing (mkLWorld rows next {[ countCacheValueKey 0 (Some f) := (total_of (Some f) rows + 1)%Z ]})
    (Some g) (Z.of_nat (length rows))) as [H1 H2]; [lia| |].
  - unfold current. cbn [lw_redis]. rewrite (lookup_singleton_ne (countCacheValueKey 0 (Some f)) countCacheGenKey) by apply value_key_not_gen.
    cbn [default from_option id]. rewrite <- Ht. assert (countCacheValueKey 0 (Some g) = countCacheValueKey 0 (Some f)) as -> by reflexivity.
    apply lookup_singleton_eq.
  - destruct (exec [] (ListLogs true (Some g)) _) as [r' w']. cbn [fst snd] in *. subst.
    assert (0 < Z.of_nat (length rows))%Z by (destruct rows; [done|cbn; lia]).
    change (lw_limit (filterToParam (Some g))) with (Some (0, 20)%Z). cbn iota.
    destruct (Z.leb_spec (Z.of_nat (length rows)) 0); [lia|]. do 2 f_equal.
    change (take 20 (merge_sort newer (List.filter (where_log g) rows)) =
            take 20 (merge_sort newer (List.filter (fun r => bool_decide (le_OperatorName r = "")) rows))).
    do 2 f_equal. apply List.filter_ext. intros x. unfold where_log. cbn. by rewrite !andb_true_r.
Qed.
End Claims.

(** * Pages *)

Definition on_page (f : OperationLogFilter) (page size : Z) : option OperationLogFilter :=
  Some (mkLogFilter (lf_LogID f) (lf_OperatorType f) (lf_OperatorID f) (lf_OperatorName f) (lf_Action f) (lf_ResourceType f)
    (lf_ResourceID f) (lf_ResourceName f) (lf_ResourceParentID f) (lf_Status f) (lf_StartTime f) (lf_EndTime f)
    (Some page) (Some size)).

#[export] Instance newer_trans : Transitive newer.
Proof. intros a b c. unfold newer. lia. Qed.
#[export] Instance newer_total : Total newer.
Proof. intros a b. unfold newer. lia. Qed.

Lemma page_offset_small page size : (1 <= page)%Z -> (0 < size)%Z -> int64_ok (page * size) = true ->
  page_offset page size = ((page - 1) * size)%Z.
Proof.
  intros Hp Hs Hr. unfold page_offset. assert (int64_ok (page - 1) = true /\ int64_ok ((page - 1) * size) = true) as [H1 H2].
  { unfold int64_ok, int64_min, int64_max in *. apply andb_true_iff in Hr as [_ Hr%Z.leb_le].
    split; apply andb_true_iff; split; apply Z.leb_le; nia. }
  rewrite (wrap64_id (page - 1)), wrap64_id by done. cbv zeta. destruct (Z.ltb_spec ((page - 1) * size) 0); nia.
Qed.

(** The pages of a filter, one after the other, are its entries from the
    newest to the oldest, each once. *)
Theorem log_pages_complete (f : OperationLogFilter) (rows : list OperationLogEntry) (size : Z) (n : nat) :
  (0 < size)%Z -> int64_ok (Z.of_nat n * size) = true ->
  let sorted := merge_sort newer (matching (Some f) rows) in
  sorted ≡ₚ matching (Some f) rows /\ StronglySorted newer sorted /\
  concat (map (fun i => page_of_logs (on_page f (Z.of_nat i) size) rows) (seq 1 n)) = take (n * Z.to_nat size) sorted.
Proof.
  intros Hs Hr sorted. split; [apply merge_sort_Permutation|]. split; [apply StronglySorted_merge_sort; apply _|].
  induction n as [|n IH]; [by rewrite Nat.mul_0_l, take_0|].
  rewrite seq_S, map_app, concat_app. rewrite IH by
    (unfold int64_ok, int64_min, int64_max in *; apply andb_true_iff in Hr as [_ Hr%Z.leb_le]; apply andb_true_iff; split; apply Z.leb_le; nia).
  cbn [map concat]. rewrite app_nil_r. unfold page_of_logs at 1. cbn [filterToParam on_page lw_limit lf_Page lf_PageSize].
  rewrite page_offset_small by (lia || by replace (Z.of_nat (1 + n)) with (Z.of_nat (S n)) by lia).
  change (matching (on_page f _ size) rows) with (matching (Some f) rows). fold sorted.
  replace (Z.to_nat ((Z.of_nat (1 + n) - 1) * size)) with (n * Z.to_nat size) by nia.
  replace (S n * Z.to_nat size) with (n * Z.to_nat size + Z.to_nat size) by lia.
  by rewrite take_take_drop.
Qed.

(** * Instances *)

Definition sample_entry (name : string) (t : gotime) : OperationLogEntry :=
  mkEntry 0 "log-1" OperatorTypeUser 7 name "update" "entity" "e-1" "team" "" StatusSuccess "" [] "/x" "PATCH" "" "" t.

(** A hash without collisions, in place of SHA-256. *)
Definition text_hash : Crypto :=
  {| gcm_seal := gcm_seal; gcm_open := gcm_open; hmac_sha256 := hmac_sha256; sha256 := fun s => s;
     hkdf_sha256 := hkdf_sha256; bcrypt_generate := bcrypt_generate; bcrypt_compare := bcrypt_compare |}.

Definition by_ann : option OperationLogFilter := on_page (named_filter (Some "ann")) 1 20.
Definition sample_events : list log_event :=
  [Flushed [sample_entry "ann" 5; sample_entry "bob" 6] []; @Listed by_ann [FailBefore]; Listed by_ann [];
   Flushed [sample_entry "ann" 8] [FailBefore]; Expired 1 None; Flushed [sample_entry "ann" 7] [Normal; FailAfter]].

Lemma listings_exact_witness :
  let w' := fold_left (@after_event text_hash) sample_events (mkLWorld [] 1 ∅) in
  exists l, (exec [] (@ListLogs text_hash true by_ann) w').1 = Ok (l, 2%Z) /\ 2%Z = total_of by_ann (lw_rows w').
Proof.
  eexists. split; [vm_compute; reflexivity|].
  eapply (@listings_exact text_hash [by_ann; None] (mkLWorld [] 1 ∅) sample_events by_ann []).
  - repeat constructor; discriminate.
  - by intros f g _ _.
  - done.
  - repeat constructor; first [discriminate|apply list_elem_of_In; by left].
  - by left.
  - vm_compute. reflexivity.
Defined.

(** The rows are inserted, but the counter of the cache is not raised, an
    error that [invalidate] drops; or the answer of the insertion is lost, and
    the counter is not even tried.  The old total is served until it expires. *)
Example stale_after_failed_flush os : os ∈ [[Normal; FailBefore]; [FailAfter]] ->
  let w' := fold_left (@after_event text_hash)
    [Flushed [sample_entry "ann" 5] []; @Listed by_ann []; Flushed [sample_entry "ann" 6] os] (mkLWorld [] 1 ∅) in
  total_of by_ann (lw_rows w') = 2%Z /\ exists l, (exec [] (@ListLogs text_hash true by_ann) w').1 = Ok (l, 1%Z).
Proof.
  intros [<-|[<-|[]]]%list_elem_of_In; (split; [by vm_compute|eexists; by vm_compute]).
Qed.

Lemma racing_flush_caches_old_total_witness : exists l,
  (exec [] (@ListLogs text_hash true by_ann)
    (interleave racing [(@ListLogs text_hash true by_ann ;; Ret tt); (@BatchCreate true [sample_entry "ann" 5] ;; Ret tt)]
       (mkLWorld [] 1 ∅)).2).1 = Ok (l, 0%Z).
Proof.
  destruct (@racing_flush_caches_old_total text_hash [] 1 by_ann (sample_entry "ann" 5) eq_refl) as (_ & l & H & _).
  exists l. exact H.
Defined.

Lemma empty_name_takes_total_of_all_witness :
  let rows := [entry_row 1 (sample_entry "ann" 5)] in
  let w := (exec [] (@OperationLogListAction text_hash true (named None)) (mkLWorld rows 2 ∅)).2 in
  (exec [] (@OperationLogListAction text_hash true (named (Some ""))) w).1 = Ok (mkLogResult 1 1 20 []).
Proof. apply (@empty_name_takes_total_of_all text_hash [entry_row 1 (sample_entry "ann" 5)] 2). discriminate. Defined.

Lemma log_pages_complete_witness :
  concat (map (fun i => page_of_logs (on_page noFilter (Z.of_nat i) 2) [entry_row 1 (sample_entry "ann" 5)]) (seq 1 3)) =
  take (3 * 2) [entry_row 1 (sample_entry "ann" 5)].
Proof. apply (log_pages_complete noFilter [entry_row 1 (sample_entry "ann" 5)] 2 3); [lia|reflexivity]. Defined.
