(* ===== verification/OperLogWorker.v ===== *)
(** The asynchronous writer of the operation log ([model/ioperlog/manager.go]):
    [Record] hands entries over a buffered channel, a worker collects them in
    batches and writes each with up to three attempts, and [Close] lets the
    worker drain the channel and end.  The goroutines meet at the [select]
    statements; which ready case a [select] takes is the choice of the event
    that happens.  A write of another goroutine is one event. *)
From Stdlib Require Import ZArith Lia.
From stdpp Require Import base tactics numbers sets list strings option.
From S2P Require Import Prelude OperLog.

Definition defaultBufferSize : Z := 4096.
Definition defaultBatchSize : nat := 200.
Definition defaultRetryTimes : nat := 3.

Inductive overflow_strategy : Type := OverflowStrategySync | OverflowStrategyDiscard.

(** What [NewOperationLogManager] sets and nothing changes. *)
Record OperationLogManager : Type := mkLogManager {
  lm_bufferSize : nat; lm_batchSize : nat; lm_retryTimes : nat; lm_overflow : overflow_strategy
}.
Definition NewOperationLogManager (bufferSize : Z) : OperationLogManager :=
  mkLogManager (Z.to_nat (if (bufferSize <=? 0)%Z then defaultBufferSize else bufferSize))
    defaultBatchSize defaultRetryTimes OverflowStrategySync.

(** ** State *)

(** Where the worker is: in its loop, draining after [Close], in the last
    flush of the drain, or gone. *)
Inductive worker_phase : Type := Running | Draining | Finishing | Gone.
#[export] Instance worker_phase_dec : EqDecision worker_phase.
Proof. solve_decision. Defined.

(** How one [BatchCreate] ends: written, not written, or written without the
    answer coming back. *)
Inductive write_result : Type := Written | NotWritten | AnswerLost.
Definition stores (r : write_result) : bool := match r with NotWritten => false | _ => true end.

Record log_state : Type := mkLogState {
  (** the channel *)
  ls_buffer : list OperationLogEntry;
  (** [closeCh] is closed *)
  ls_closed : bool;
  ls_phase : worker_phase;
  ls_batch : list OperationLogEntry;
  (** inside [flushBatch]: how many attempts have failed *)
  ls_flushing : option nat;
  (** the rows that were written, in order *)
  ls_table : list OperationLogEntry;
  (** what only a warning remembers *)
  ls_dropped : list OperationLogEntry
}.

Definition log_start : log_state := mkLogState [] false Running [] None [] [].

(** ** Events *)

Inductive log_step : Type :=
(** [Record]: the channel takes the entry *)
| Buffered (e : OperationLogEntry)
(** [Record]: the manager is closing; [RecordSync] with its result *)
| AfterClose (e : OperationLogEntry) (r : write_result)
(** [Record]: no case is ready *)
| Overflown (e : OperationLogEntry) (r : write_result)
(** [Close] *)
| Close
(** the worker receives from the channel *)
| Receive
(** its ticker fires *)
| Tick
(** its loop sees [closeCh] *)
| SeeClosed
(** the half second of draining is over; the [select] may take this case
    even when an entry is ready as well *)
| DrainTimeout
(** one attempt of [flushBatch] *)
| Attempt (r : write_result).

Section Worker.
Variable m : OperationLogManager.

(** [RecordSync] of one entry. *)
Definition write_sync (e : OperationLogEntry) (r : write_result) (s : log_state) : log_state :=
  mkLogState (ls_buffer s) (ls_closed s) (ls_phase s) (ls_batch s) (ls_flushing s)
    (if stores r then ls_table s ++ [e] else ls_table s)
    (if stores r then ls_dropped s else ls_dropped s ++ [e]).

(** [flush]: the loop of [flushBatch] begins, unless there is nothing to
    write. *)
Definition flush (s : log_state) : log_state :=
  match ls_batch s with
  | [] => s
  | _ => mkLogState (ls_buffer s) (ls_closed s) (ls_phase s) (ls_batch s) (Some 0) (ls_table s) (ls_dropped s)
  end.

(** After [flushBatch]: the batch is emptied; the last flush of the drain
    ends the worker. *)
Definition flushed (table dropped : list OperationLogEntry) (s : log_state) : log_state :=
  mkLogState (ls_buffer s) (ls_closed s) (match ls_phase s with Finishing => Gone | p => p end) [] None table dropped.

Definition attempt (n : nat) (r : write_result) (s : log_state) : log_state :=
  let table := (if stores r then ls_table s ++ ls_batch s else ls_table s)%list in
  match r with
  | Written => flushed table (ls_dropped s) s
  | _ => if S n <? lm_retryTimes m
         then mkLogState (ls_buffer s) (ls_closed s) (ls_phase s) (ls_batch s) (Some (S n)) table (ls_dropped s)
         else flushed table (if stores r then ls_dropped s else (ls_dropped s ++ ls_batch s)%list) s
  end.

(** The worker is at a [select]. *)
Definition selecting (s : log_state) : bool :=
  match ls_flushing s, ls_phase s with None, (Running | Draining) => true | _, _ => false end.

Definition worker_step (ev : log_step) (s : log_state) : option log_state :=
  match ev with
  | Buffered e =>
      if length (ls_buffer s) <? lm_bufferSize m
      then Some (mkLogState (ls_buffer s ++ [e]) (ls_closed s) (ls_phase s) (ls_batch s) (ls_flushing s) (ls_table s) (ls_dropped s))
      else None
  | AfterClose e r => if ls_closed s then Some (write_sync e r s) else None
  | Overflown e r =>
      if (length (ls_buffer s) <? lm_bufferSize m) || ls_closed s then None
      else Some (match lm_overflow m with
                 | OverflowStrategyDiscard => write_sync e NotWritten s
                 | OverflowStrategySync => write_sync e r s
                 end)
  | Close => Some (mkLogState (ls_buffer s) true (ls_phase s) (ls_batch s) (ls_flushing s) (ls_table s) (ls_dropped s))
  | Receive =>
      if selecting s then
        match ls_buffer s with
        | [] => None
        | e :: buffer =>
            let s' := mkLogState buffer (ls_closed s) (ls_phase s) (ls_batch s ++ [e]) None (ls_table s) (ls_dropped s) in
            Some (if lm_batchSize m <=? length (ls_batch s') then flush s' else s')
        end
      else None
  | Tick => if selecting s && bool_decide (ls_phase s = Running) then Some (flush s) else None
  | SeeClosed =>
      if selecting s && bool_decide (ls_phase s = Running) && ls_closed s
      then Some (mkLogState (ls_buffer s) (ls_closed s) Draining (ls_batch s) None (ls_table s) (ls_dropped s))
      else None
  | DrainTimeout =>
      if selecting s && bool_decide (ls_phase s = Draining)
      then Some (match ls_batch s with
                 | [] => mkLogState (ls_buffer s) (ls_closed s) Gone [] None (ls_table s) (ls_dropped s)
                 | _ => flush (mkLogState (ls_buffer s) (ls_closed s) Finishing (ls_batch s) None (ls_table s) (ls_dropped s))
                 end)
      else None
  | Attempt r => match ls_flushing s with Some n => Some (attempt n r s) | None => None end
  end.

(** A run: events that were each possible when they happened. *)
Inductive runs (s : log_state) : list log_step -> log_state -> Prop :=
| runs_nil : runs s [] s
| runs_snoc evs s1 ev s2 : runs s evs s1 -> worker_step ev s1 = Some s2 -> runs s (evs ++ [ev]) s2.

(** The state after the events, if each was possible. *)
Definition run_all (evs : list log_step) (s : log_state) : option log_state :=
  fold_left (fun s ev => match s with Some s => worker_step ev s | None => None end) evs (Some s).
End Worker.

(** What the asynchronous writer guarantees: nothing is lost before three
    writes of a batch have failed, batches and channel stay bounded, closing
    ends the worker, with an empty channel when no timeout cuts the drain
    short; and what it does not: an entry that is recorded after the worker has
    ended may be kept for ever. *)

Section Runs.
Variable m : OperationLogManager.

Lemma runs_ind_step (I : log_state -> Prop) s evs s' :
  (forall s ev s', I s -> worker_step m ev s = Some s' -> I s') -> runs m s evs s' -> I s -> I s'.
Proof. intros Hstep Hr Hs. induction Hr; eauto. Qed.

Lemma runs_app s evs s1 evs' s2 : runs m s evs s1 -> runs m s1 evs' s2 -> runs m s (evs ++ evs') s2.
Proof.
  intros H1 H2. induction H2; [by rewrite app_nil_r|]. rewrite app_assoc. by eapply runs_snoc; [apply IHruns|].
Qed.
Lemma runs_one s ev s' : worker_step m ev s = Some s' -> runs m s [ev] s'.
Proof. intros H. apply (runs_snoc m s [] s ev s'); [constructor|done]. Qed.

Lemma run_all_runs s s' evs : run_all m evs s = Some s' -> runs m s evs s'.
Proof.
  revert s'. induction evs as [|ev evs IH] using rev_ind; intros s' H; [injection H as <-; constructor|].
  unfold run_all in *. rewrite fold_left_app in H. cbn [fold_left] in H.
  destruct (fold_left _ evs (Some s)) as [s1|] eqn:E; [|done]. by eapply runs_snoc; [apply IH|].
Qed.

(** ** Shape of the state *)

(** The channel and the batch are bounded, a flush has something to write and
    attempts left, and the last flush of a drain is under way while it lasts. *)
Record log_ok (s : log_state) : Prop := {
  ok_buffer : length (ls_buffer s) <= lm_bufferSize m;
  ok_batch : length (ls_batch s) <= lm_batchSize m;
  ok_flush : forall n, ls_flushing s = Some n -> n < lm_retryTimes m /\ ls_batch s <> [];
  ok_room : ls_flushing s = None -> length (ls_batch s) < lm_batchSize m;
  ok_finishing : ls_phase s = Finishing -> ls_flushing s <> None;
  ok_gone : ls_phase s = Gone -> ls_batch s = [] /\ ls_flushing s = None;
  ok_drain : ls_phase s <> Running -> ls_closed s = true
}.

Hypothesis Hretry : 0 < lm_retryTimes m.
Hypothesis Hsize : 0 < lm_batchSize m.

Ltac proj := cbn [ls_buffer ls_closed ls_phase ls_batch ls_flushing ls_table ls_dropped] in *.
Ltac step_cases H := unfold worker_step, attempt, flush, flushed, write_sync, selecting in H; proj;
  repeat (case_match; proj); simplify_eq; proj.

Lemma log_start_ok : log_ok log_start.
Proof. split; cbn; try lia; done. Qed.

Lemma log_ok_step s ev s' : log_ok s -> worker_step m ev s = Some s' -> log_ok s'.
Proof.
  intros [H1 H2 H3 H4 H5 H6 H7] Hs. destruct s as [buffer closed phase batch flushing table dropped]. proj.
  destruct ev; step_cases Hs; split; proj; rewrite ?length_app in *; cbn [length] in *; intros; simplify_eq;
    repeat match goal with
    | H : (_ <? _) = true |- _ => apply Nat.ltb_lt in H
    | H : (_ <=? _) = true |- _ => apply Nat.leb_le in H
    | H : (_ <=? _) = false |- _ => apply Nat.leb_gt in H
    end; try done; try lia; auto.
  1-2: match goal with E : _ ++ [_] = _ :: _ |- _ => apply (f_equal length) in E; rewrite length_app in E; cbn [length] in E end;
    match goal with E : _ = None -> _ < _ |- _ => specialize (E eq_refl) end; lia.
  all: first [split; [lia|by apply (H3 n eq_refl)]|by destruct H6].
Qed.

Lemma log_ok_runs evs s : runs m log_start evs s -> log_ok s.
Proof. intros Hr. apply (runs_ind_step log_ok log_start evs); [apply log_ok_step|done|apply log_start_ok]. Qed.

(** ** Accounting *)

(** What [Record] was given. *)
Definition handed (ev : log_step) : list OperationLogEntry :=
  match ev with Buffered e | AfterClose e _ | Overflown e _ => [e] | _ => [] end.
(** Where an entry can be. *)
Definition everywhere (s : log_state) : list OperationLogEntry :=
  (ls_table s ++ ls_batch s ++ ls_buffer s ++ ls_dropped s)%list.

Definition answer_lost (ev : log_step) : bool := match ev with Attempt AnswerLost => true | _ => false end.

Lemma accounted_step s ev s' : worker_step m ev s = Some s' -> answer_lost ev = false ->
  everywhere s' ≡ₚ everywhere s ++ handed ev.
Proof.
  intros Hs He. destruct s as [buffer closed phase batch flushing table dropped]. unfold everywhere.
  destruct ev; step_cases Hs; cbn [handed]; rewrite ?app_nil_r, ?app_nil_l; try done; try solve [rewrite <- ?app_assoc; cbn [app];
    repeat first [reflexivity | apply Permutation_app_head]].
  all: repeat match goal with
    | E : _ ++ [_] = [] |- _ => by destruct batch
    | E : _ ++ [_] = _ |- _ => rewrite <- E; clear E
    | E : (_ && _) = true |- _ => apply andb_true_iff in E as [??]
    | E : bool_decide _ = true |- _ => apply bool_decide_eq_true in E; subst
    end; solve_Permutation.
Qed.

Lemma lost_step s ev s' e : worker_step m ev s = Some s' ->
  e ∈ everywhere s' <-> e ∈ everywhere s \/ e ∈ handed ev.
Proof.
  intros Hs. destruct (answer_lost ev) eqn:He.
  - destruct ev as [| | | | | | | |[]]; try discriminate He. destruct s as [buffer closed phase batch flushing table dropped]. unfold everywhere. cbn [handed].
    step_cases Hs; rewrite !elem_of_app; set_solver.
  - rewrite <- elem_of_app. by rewrite (accounted_step s ev s' Hs He).
Qed.

Lemma accounted_runs evs s s' : runs m s evs s' ->
  (forall e, e ∈ everywhere s' <-> e ∈ everywhere s \/ e ∈ concat (map handed evs)) /\
  (forallb (fun ev => negb (answer_lost ev)) evs = true -> everywhere s' ≡ₚ everywhere s ++ concat (map handed evs)).
Proof.
  intros Hr. induction Hr as [|evs s1 ev s2 Hr [IH1 IH2] Hs].
  - split; [|intros _; cbn; by rewrite app_nil_r]. intros e. cbn. set_solver.
  - rewrite map_app, concat_app. cbn [map concat]. rewrite app_nil_r. split.
    + intros e. rewrite (lost_step s1 ev s2 e Hs), IH1, elem_of_app. tauto.
    + rewrite forallb_app. intros [H1 H2]%andb_true_iff. cbn in H2. apply andb_true_iff in H2 as [H2%negb_true_iff _].
      by rewrite (accounted_step s1 ev s2 Hs H2), IH2, app_assoc.
Qed.

(** ** Failures *)

Definition failed_attempts (evs : list log_step) : nat :=
  length (List.filter (fun ev => match ev with Attempt (NotWritten | AnswerLost) => true | _ => false end) evs).
(** A synchronous write that failed, or an entry that was discarded. *)
Definition drops_sync (ev : log_step) : bool :=
  match ev with
  | AfterClose _ r => negb (stores r)
  | Overflown _ r => match lm_overflow m with OverflowStrategySync => negb (stores r) | OverflowStrategyDiscard => true end
  | _ => false
  end.

Lemma drops_runs evs s : runs m log_start evs s -> existsb drops_sync evs = false ->
  (forall n, ls_flushing s = Some n -> n <= failed_attempts evs) /\ (failed_attempts evs < lm_retryTimes m -> ls_dropped s = []).
Proof.
  intros Hr. induction Hr as [|evs s1 ev s2 Hr IH Hs]; [done|].
  rewrite existsb_app. intros [H1 H2]%orb_false_iff. cbn in H2. rewrite orb_false_r in H2. specialize (IH H1) as [IH1 IH2].
  unfold failed_attempts in *. rewrite List.filter_app, length_app.
  destruct s1 as [buffer closed phase batch flushing table dropped]. proj.
  destruct ev; step_cases Hs; cbn [List.filter length drops_sync negb stores] in *; try discriminate; split; intros; simplify_eq;
    rewrite ?Nat.add_0_r in *; try (apply IH2; lia); try (by apply IH1); try lia.
  all: try (repeat match goal with
      | E : lm_overflow m = _, H : context [lm_overflow m] |- _ => rewrite E in H; clear E
      | E : stores ?r = _, H : context [stores ?r] |- _ => rewrite E in H; clear E
      end; discriminate).
  all: specialize (IH1 _ eq_refl); try lia.
  all: match goal with E : (_ <? _) = false |- _ => apply Nat.ltb_ge in E; lia end.
Qed.

(** ** Closing *)

Definition worker_event (ev : log_step) : Prop :=
  match ev with Receive | SeeClosed | DrainTimeout | Attempt _ => True | _ => False end.
Definition works_on (ev : log_step) : Prop :=
  match ev with Receive | SeeClosed | DrainTimeout | Attempt Written => True | _ => False end.

(** How much the worker has left to do. *)
Definition work (s : log_state) : nat :=
  length (ls_buffer s) * (lm_retryTimes m + 2)
  + match ls_flushing s with
    | Some n => lm_retryTimes m - n
    | None => match ls_batch s with [] => 0 | _ => lm_retryTimes m + 1 end
    end
  + match ls_phase s with Running => 3 | Draining => 2 | Finishing => 1 | Gone => 0 end.

Lemma work_decreases s ev s' : log_ok s -> worker_event ev -> worker_step m ev s = Some s' -> work s' < work s.
Proof.
  intros [_ _ H3 _ _ _ _] He Hs. destruct s as [buffer closed phase batch flushing table dropped]. unfold work.
  destruct ev; try done; step_cases Hs; cbn [length]; try lia.
  all: try (match goal with E : (_ && _) = true |- _ => apply andb_true_iff in E as [E _]; apply andb_true_iff in E as [_ E];
    apply bool_decide_eq_true in E; discriminate end).
  all: try (specialize (H3 _ eq_refl) as [??]); try (destruct batch; discriminate); try lia.
  all: simplify_eq; lia.
Qed.

(** Nothing is left in the channel once the drain is over: so the runs below
    that end it. *)
Definition drained (s : log_state) : Prop := ls_phase s = Finishing \/ ls_phase s = Gone -> ls_buffer s = [].

Lemma worker_progress s : log_ok s -> ls_closed s = true -> drained s -> ls_phase s <> Gone ->
  exists ev s', works_on ev /\ worker_step m ev s = Some s' /\ ls_closed s' = true /\ drained s' /\
    (ls_table s' ++ ls_batch s' ++ ls_buffer s' = ls_table s ++ ls_batch s ++ ls_buffer s)%list /\ ls_dropped s' = ls_dropped s.
Proof.
  unfold drained. intros [_ _ _ _ H5 _ _] Hc Hd Hp. destruct s as [buffer closed phase batch flushing table dropped]. proj. subst closed.
  destruct flushing as [n|].
  - eexists (Attempt Written), _. split; [done|]. split; [reflexivity|].
    unfold attempt, flushed. proj. cbn [stores app]. rewrite <- app_assoc. repeat split; try done. intros [H|H]; apply Hd; destruct phase; auto.
  - destruct phase; try done.
    + eexists SeeClosed, _. split; [done|]. split; [reflexivity|]. proj. repeat split. intros [H|H]; done.
    + destruct buffer as [|e buffer].
      * eexists DrainTimeout, _. split; [done|]. split; [reflexivity|]. by destruct batch.
      * eexists Receive, _. split; [done|]. split; [reflexivity|]. proj.
        unfold flush. proj. destruct (lm_batchSize m <=? _); [destruct (batch ++ [e]) eqn:E|]; proj; rewrite <- ?app_assoc.
        -- by destruct batch.
        -- rewrite <- E, <- app_assoc. repeat split; try done. intros [H|H]; done.
        -- repeat split; try done. intros [H|H]; done.
    + by destruct H5.
Qed.

Lemma worker_finishes k s : work s < k -> log_ok s -> ls_closed s = true -> drained s ->
  exists evs s', Forall works_on evs /\ runs m s evs s' /\ log_ok s' /\ ls_phase s' = Gone /\ drained s' /\
    (ls_table s' ++ ls_batch s' ++ ls_buffer s' = ls_table s ++ ls_batch s ++ ls_buffer s)%list /\ ls_dropped s' = ls_dropped s.
Proof.
  revert s. induction k as [|k IH]; [lia|]. intros s Hk Hok Hc Hd.
  destruct (decide (ls_phase s = Gone)) as [Hp|Hp]; [exists [], s; by split; [constructor|split; [apply runs_nil|]]|].
  destruct (worker_progress s Hok Hc Hd Hp) as (ev & s1 & Hev & Hs & Hc1 & Hd1 & Ht & Hdr).
  assert (worker_event ev) as He by (destruct ev as [| | | | | | | |[]]; done).
  pose proof (work_decreases s ev s1 Hok He Hs). pose proof (log_ok_step s ev s1 Hok Hs) as Hok1.
  destruct (IH s1) as (evs & s2 & Hevs & Hr & Hok2 & Hp2 & Hd2 & Ht2 & Hdr2); [lia|done..|].
  exists (ev :: evs), s2. split; [by constructor|]. split; [|by rewrite Ht2, Hdr2].
  apply (runs_app s [ev] s1); [by apply runs_one|done].
Qed.

Lemma worker_bounded evs s s' : log_ok s -> Forall worker_event evs -> runs m s evs s' -> log_ok s' /\ length evs + work s' <= work s.
Proof.
  intros Hok Hevs Hr. induction Hr as [|evs s1 ev s2 Hr IH Hs]; [split; [done|cbn; lia]|].
  apply Forall_app in Hevs as [Hevs Hev]. inversion Hev as [|?? He _]; subst. destruct (IH Hevs) as [Hok1 Hw].
  pose proof (work_decreases s1 ev s2 Hok1 He Hs). split; [by eapply log_ok_step|]. rewrite length_app. cbn [length]. lia.
Qed.

Lemma drains (evs : list log_step) (s : log_state) : runs m log_start evs s -> ls_closed s = true ->
  ls_phase s = Running \/ ls_phase s = Draining ->
  (forall evs' s', Forall worker_event evs' -> runs m s evs' s' -> length evs' <= work s) /\
  exists evs' s', Forall works_on evs' /\ runs m s evs' s' /\ ls_phase s' = Gone /\
    ls_buffer s' = [] /\ ls_batch s' = [] /\ ls_dropped s' = ls_dropped s /\
    ls_table s' = (ls_table s ++ ls_batch s ++ ls_buffer s)%list.
Proof.
  intros Hr Hc Hp. pose proof (log_ok_runs evs s Hr) as Hok. split.
  - intros evs' s' He Hr'. destruct (worker_bounded evs' s s' Hok He Hr') as [_ H]. lia.
  - destruct (worker_finishes (S (work s)) s) as (evs' & s' & He & Hr' & Hok' & Hp' & Hd' & Ht & Hdr); [lia|done..| |].
    { intros [H|H]; destruct Hp as [Hp|Hp]; congruence. }
    exists evs', s'. assert (ls_buffer s' = []) as Hb by (apply Hd'; by right).
    destruct Hok' as [_ _ _ _ _ H6 _]. destruct (H6 Hp') as [Hba _]. rewrite Hb, Hba, !app_nil_r in Ht. done.
Qed.

(** ** After the end *)

(** What a synchronous write puts into the table. *)
Definition synced (ev : log_step) : list OperationLogEntry :=
  match ev with AfterClose e r | Overflown e r => if stores r then [e] else [] | _ => [] end.

Lemma gone_step s ev s' : lm_overflow m = OverflowStrategySync -> ls_phase s = Gone -> ls_flushing s = None ->
  worker_step m ev s = Some s' ->
  ls_phase s' = Gone /\ ls_flushing s' = None /\ ls_buffer s `prefix_of` ls_buffer s' /\
  ls_table s' = (ls_table s ++ synced ev)%list.
Proof.
  intros Ho Hp Hf Hs. destruct s as [buffer closed phase batch flushing table dropped]. proj. subst.
  destruct ev; step_cases Hs; cbn [synced]; try discriminate; rewrite ?app_nil_r;
    repeat match goal with E : stores _ = _ |- _ => rewrite E end; rewrite ?app_nil_r;
    repeat split; try done; by eexists.
Qed.

Lemma gone_runs evs s s' : lm_overflow m = OverflowStrategySync -> ls_phase s = Gone -> ls_flushing s = None -> runs m s evs s' ->
  ls_phase s' = Gone /\ ls_flushing s' = None /\ ls_buffer s `prefix_of` ls_buffer s' /\
  ls_table s' = (ls_table s ++ concat (map synced evs))%list.
Proof.
  intros Ho Hp Hf Hr. induction Hr as [|evs s1 ev s2 Hr (Hp1 & Hf1 & Hb1 & Ht1) Hs]; [by rewrite app_nil_r|].
  destruct (gone_step s1 ev s2 Ho Hp1 Hf1 Hs) as (Hp2 & Hf2 & Hb2 & Ht2). split; [done|]. split; [done|].
  split; [by etrans|]. by rewrite Ht2, Ht1, map_app, concat_app, <- app_assoc; cbn; rewrite app_nil_r.
Qed.
End Runs.

(** * The writer of the program *)

Section Claims.
Variable bufferSize : Z.
Let m : OperationLogManager := NewOperationLogManager bufferSize.

Lemma new_retry : 0 < lm_retryTimes m.
Proof. unfold m, NewOperationLogManager, defaultRetryTimes. cbn. lia. Qed.
Lemma new_size : 0 < lm_batchSize m.
Proof. unfold m, NewOperationLogManager, defaultBatchSize. cbn. lia. Qed.

(** C34: No entry appears from nowhere and none vanishes: after any run, what
    was handed to [Record] is what is in the table, the batch, the channel or
    among the entries that were given up; and unless a write was stored
    although it reported an error, every entry is there exactly as often as it
    was handed over. *)
Theorem log_entries_accounted (evs : list log_step) (s : log_state) : runs m log_start evs s ->
  (forall e, e ∈ concat (map handed evs) <-> e ∈ everywhere s) /\
  (forallb (fun ev => negb (answer_lost ev)) evs = true -> everywhere s ≡ₚ concat (map handed evs)).
Proof.
  intros Hr. destruct (accounted_runs m new_retry new_size evs log_start s Hr) as [H1 H2]. split; [|exact H2].
  intros e. rewrite H1. unfold everywhere. cbn. set_solver.
Qed.

(** Entries are given up only after three failed attempts: with fewer
    failures of the worker, and none of a synchronous write, nothing is. *)
Theorem two_failures_lose_nothing (evs : list log_step) (s : log_state) : runs m log_start evs s ->
  existsb (drops_sync m) evs = false -> failed_attempts evs < 3 -> ls_dropped s = [].
Proof. intros Hr Hd Hf. by apply (drops_runs m new_retry new_size evs s Hr Hd). Qed.

(** The channel never holds more than its capacity, and what the worker
    writes is never empty and never more than two hundred entries, with at
    most three attempts. *)
Theorem writer_bounded (evs : list log_step) (s : log_state) : runs m log_start evs s ->
  length (ls_buffer s) <= lm_bufferSize m /\ length (ls_batch s) <= 200 /\
  forall n, ls_flushing s = Some n -> n < 3 /\ 0 < length (ls_batch s).
Proof.
  intros Hr. destruct (log_ok_runs m new_retry new_size evs s Hr) as [H1 H2 H3 _ _ _ _].
  split; [exact H1|]. split; [exact H2|]. intros n Hn. destruct (H3 n Hn) as [Hl Hb]. split; [exact Hl|].
  destruct (ls_batch s); [done|cbn; lia].
Qed.

(** Closing ends the worker: it takes a bounded number of steps of its
    own, whatever the writes return; and it can end with everything that was
    in the channel and the batch in the table, in order: the writes have to
    come through, and the timeout of the drain not to cut it short. *)
Theorem closing_drains (evs : list log_step) (s : log_state) : runs m log_start evs s -> ls_closed s = true ->
  ls_phase s = Running \/ ls_phase s = Draining ->
  (forall evs' s', Forall worker_event evs' -> runs m s evs' s' -> length evs' <= work m s) /\
  exists evs' s', Forall works_on evs' /\ runs m s evs' s' /\ ls_phase s' = Gone /\
    ls_buffer s' = [] /\ ls_batch s' = [] /\ ls_dropped s' = ls_dropped s /\
    ls_table s' = (ls_table s ++ ls_batch s ++ ls_buffer s)%list.
Proof. apply drains; [apply new_retry|apply new_size]. Qed.

(** An entry that is recorded after the worker has ended can be taken by
    the channel, since the channel and the closing are both ready; it then
    stays there for ever: whatever happens later, only synchronous writes of
    other calls reach the table. *)
Theorem entry_stranded_after_close (evs later : list log_step) (s s1 s2 : log_state) (e : OperationLogEntry) :
  runs m log_start evs s -> ls_phase s = Gone ->
  worker_step m (Buffered e) s = Some s1 -> runs m s1 later s2 ->
  e ∈ ls_buffer s2 /\ ls_table s2 = (ls_table s ++ concat (map synced later))%list.
Proof.
  intros Hr Hp Hs Hl. destruct (log_ok_runs m new_retry new_size evs s Hr) as [_ _ _ _ _ H6 _]. destruct (H6 Hp) as [_ Hf].
  destruct (gone_step m s (Buffered e) s1 eq_refl Hp Hf Hs) as (Hp1 & Hf1 & _ & Ht1). cbn in Ht1. rewrite app_nil_r in Ht1.
  destruct (gone_runs m later s1 s2 eq_refl Hp1 Hf1 Hl) as (_ & _ & [k Hk] & Ht2). split; [|by rewrite Ht2, Ht1].
  rewrite Hk. cbn in Hs. case_match; [|done]. injection Hs as <-. cbn [ls_buffer]. set_solver.
Qed.
End Claims.

(** * A run *)

Local Open Scope string_scope.

Definition log_entry (id : Z) : OperationLogEntry :=
  mkEntry 0 "log" OperatorTypeUser id "ann" "update" "entity" "e-1" "team" "" StatusSuccess "" [] "/x" "PATCH" "" "" 5.

(** One entry is written with the second attempt, the next is drained after
    [Close], and the worker ends. *)
Definition open_run : list log_step :=
  [Buffered (log_entry 1); Receive; Buffered (log_entry 2); Tick; Attempt NotWritten; Attempt Written; Close; SeeClosed].
Definition ended_run : list log_step := (open_run ++ [Receive; DrainTimeout; Attempt Written])%list.
Definition open_state : log_state := mkLogState [log_entry 2] true Draining [] None [log_entry 1] [].
Definition ended_state : log_state := mkLogState [] true Gone [] None [log_entry 1; log_entry 2] [].
Definition stranded_state : log_state := mkLogState [log_entry 3] true Gone [] None [log_entry 1; log_entry 2] [].

Lemma open_runs : runs (NewOperationLogManager 0) log_start open_run open_state.
Proof. by apply run_all_runs. Qed.
Lemma ended_runs : runs (NewOperationLogManager 0) log_start ended_run ended_state.
Proof. by apply run_all_runs. Qed.

Lemma log_entries_accounted_witness : everywhere ended_state ≡ₚ concat (map handed ended_run).
Proof. apply (log_entries_accounted 0 ended_run ended_state ended_runs). reflexivity. Defined.

Lemma two_failures_lose_nothing_witness : ls_dropped ended_state = [].
Proof. apply (two_failures_lose_nothing 0 ended_run ended_state ended_runs); [reflexivity|vm_compute; lia]. Defined.

Lemma writer_bounded_witness : length (ls_batch open_state) <= 200.
Proof. apply (writer_bounded 0 open_run open_state open_runs). Defined.

Lemma closing_drains_witness : exists evs s, Forall works_on evs /\ runs (NewOperationLogManager 0) open_state evs s /\
  ls_phase s = Gone /\ ls_table s = [log_entry 1; log_entry 2].
Proof.
  destruct (closing_drains 0 open_run open_state open_runs eq_refl (or_intror eq_refl)) as (_ & evs & s & H1 & H2 & H3 & _ & _ & _ & H4).
  by exists evs, s.
Defined.

Lemma entry_stranded_after_close_witness : log_entry 3 ∈ ls_buffer stranded_state.
Proof.
  apply (entry_stranded_after_close 0 ended_run [] ended_state stranded_state stranded_state (log_entry 3) ended_runs);
    [reflexivity|vm_compute; reflexivity|apply runs_nil].
Defined.
