(* ===== verification/AuthModel.v ===== *)
(** Users, tokens and the products they are bound to: the data of
    [model/iauth], the tables [users] and [user_products], the calls that the
    storage makes ([dao/table_users.go], [dao/table_user_products.go]), the
    world they act on, the storage, and what each scope may do.  Tokens are
    rows of [users] with a type of their own. *)
From Stdlib Require Import ZArith Lia Ascii.
From stdpp Require Import base tactics numbers list strings gmap option.
From S2P Require Import Prelude GoStrings GoTime Prog GoNet OperLog.

Local Open Scope string_scope.

(** * Scopes and roles *)

Definition ScopeAlwaysAllowed : string := "Allowed".
Definition ScopeSystem : string := "System".
Definition ScopeProduct : string := "Product".
Definition ScopeSupport : string := "Support".
Definition ScopeSystemReadonly : string := "SystemReadonly".

Definition RoleSystemAdmin : string := "system_admin".
Definition RoleSystemAdminReadonly : string := "system_admin_readonly".

Definition RoleToScopes (role : string) : result (list string) :=
  if bool_decide (role = RoleSystemAdmin) then Ok [ScopeSystem]
  else if bool_decide (role = RoleSystemAdminReadonly) then Ok [ScopeSystemReadonly]
  else Err (ParamError "role must be %s or %s").

Fixpoint ScopesToRole (scopes : list string) (admin : bool) : string :=
  match scopes with
  | s :: scopes' =>
      if bool_decide (s = ScopeSystem) then RoleSystemAdmin
      else if bool_decide (s = ScopeSystemReadonly) then RoleSystemAdminReadonly
      else ScopesToRole scopes' admin
  | [] => if admin then RoleSystemAdmin else RoleSystemAdminReadonly
  end.

(** * Users, tokens, visitors *)

Definition UserTypeNormal : Z := 0.
Definition UserTypeToken : Z := 1.

Record Product : Type := mkProduct { pr_ID : Z; pr_Name : string }.

Record User : Type := mkUser {
  u_ID : Z; u_Name : string; u_Type : Z; u_Admin : bool; u_Password : string;
  u_SessionKey : string; u_SessionKeyCreateAt : gotime; u_Scopes : list string
}.
Definition User_GetScopes (u : User) : list string :=
  match u_Scopes u with
  | [] => if u_Admin u then [ScopeSystem] else [ScopeProduct]
  | scopes => scopes
  end.

Record Token : Type := mkToken {
  tk_ID : Z; tk_Name : string; tk_Token : string; tk_Scope : string; tk_Product : option Product
}.
Definition Token_IsAdmin (t : Token) : bool := bool_decide (tk_Scope t = ScopeSystem).

(** A visitor is a user or, without one, a token. *)
Inductive Visitor : Type := VisitorUser (u : User) | VisitorToken (t : Token).
Definition GetName (v : Visitor) : string := match v with VisitorUser u => u_Name u | VisitorToken t => tk_Name t end.
Definition GetScopes (v : Visitor) : list string :=
  match v with VisitorUser u => User_GetScopes u | VisitorToken t => [tk_Scope t] end.
Definition GetType (v : Visitor) : Z := match v with VisitorUser u => u_Type u | VisitorToken _ => UserTypeToken end.
Definition IsAdmin (v : Visitor) : bool := match v with VisitorUser u => u_Admin u | VisitorToken t => Token_IsAdmin t end.
Definition HasScope (v : Visitor) (scope : string) : bool := existsb (fun s => bool_decide (s = scope)) (GetScopes v).
Definition IsSystemReadonly (v : Visitor) : bool := negb (IsAdmin v) && HasScope v ScopeSystemReadonly.

Record UserParam : Type := mkUserParam {
  up_Name : option string; up_Password : option string; up_Scopes : option (list string);
  up_SessionKey : option string; up_SessionKeyCreateAt : option gotime
}.
Definition noUserParam : UserParam := mkUserParam None None None None None.
Record UserFilter : Type := mkUserFilter {
  uf_IDs : list Z; uf_Name : option string; uf_SessionKey : option string; uf_Type : option Z; uf_Types : list Z
}.
Definition byUserName (name : string) : UserFilter := mkUserFilter [] (Some name) None None [].
Definition bySessionKey (key : string) : UserFilter := mkUserFilter [] None (Some key) None [].
Record TokenFilter : Type := mkTokenFilter { kf_IDs : list Z; kf_Name : option string; kf_Token : option string }.
Record TokenParam : Type := mkTokenParam { kp_Name : option string; kp_Token : option string; kp_Scope : option string }.

(** * Tables *)

Record TUser : Type := mkTUser {
  tu_ID : Z; tu_Name : string; tu_Type : Z; tu_Password : string; tu_Ticket : string;
  tu_TicketCreatedAt : gotime; tu_Scopes : string; tu_CreatedAt : gotime
}.
Record TUserParam : Type := mkTUserParam {
  tp_IDs : list Z; tp_ID : option Z; tp_Name : option string; tp_Type : option Z; tp_Types : list Z;
  tp_Password : option string; tp_Ticket : option string; tp_TicketCreatedAt : option gotime; tp_Scopes : option string
}.
Definition noTUserParam : TUserParam := mkTUserParam [] None None None [] None None None None.

Record TUserProduct : Type := mkTUserProduct { bp_UserID : Z; bp_ProductID : Z }.
Record TUserProductParam : Type := mkTUserProductParam {
  bw_UserID : option Z; bw_UserIDs : list Z; bw_ProductID : option Z
}.

Definition agrees {A} `{EqDecision A} (f : option A) (x : A) : bool :=
  match f with Some y => bool_decide (x = y) | None => true end.
(** [column IN (...)]; a nil slice is no condition. *)
Definition among_ids (ids : list Z) (x : Z) : bool := match ids with [] => true | _ => bool_decide (x ∈ ids) end.

Definition where_user (p : TUserParam) (r : TUser) : bool :=
  among_ids (tp_IDs p) (tu_ID r) && agrees (tp_ID p) (tu_ID r) && agrees (tp_Name p) (tu_Name r) &&
  agrees (tp_Type p) (tu_Type r) && among_ids (tp_Types p) (tu_Type r) && agrees (tp_Password p) (tu_Password r) &&
  agrees (tp_Ticket p) (tu_Ticket r) && agrees (tp_TicketCreatedAt p) (tu_TicketCreatedAt r) &&
  agrees (tp_Scopes p) (tu_Scopes r).
Definition where_binding (p : TUserProductParam) (b : TUserProduct) : bool :=
  agrees (bw_UserID p) (bp_UserID b) && among_ids (bw_UserIDs p) (bp_UserID b) && agrees (bw_ProductID p) (bp_ProductID b).

Definition assign_user (p : TUserParam) (r : TUser) : TUser :=
  mkTUser (default (tu_ID r) (tp_ID p)) (default (tu_Name r) (tp_Name p)) (default (tu_Type r) (tp_Type p))
    (default (tu_Password r) (tp_Password p)) (default (tu_Ticket r) (tp_Ticket p))
    (default (tu_TicketCreatedAt r) (tp_TicketCreatedAt p)) (default (tu_Scopes r) (tp_Scopes p)) (tu_CreatedAt r).

(** The default of [ticket_created_at], ['0000-01-01 00:00:00']. *)
Definition no_ticket_time : gotime := date_time 0 1 1 0 0 0 0.
(** A row needs a name; the other columns have defaults. *)
Definition insert_user (id : Z) (now : gotime) (p : TUserParam) : option TUser :=
  match tp_Name p with
  | None => None
  | Some name => Some (assign_user p (mkTUser id name UserTypeNormal "" "" no_ticket_time "" now))
  end.

(** The unique keys. *)
Definition users_unique (rows : list TUser) : bool :=
  bool_decide (NoDup (map tu_ID rows)) && bool_decide (NoDup (map (fun r => (tu_Name r, tu_Type r)) rows)).
Definition bindings_unique (rows : list TUserProduct) : bool :=
  bool_decide (NoDup (map (fun b => (bp_UserID b, bp_ProductID b)) rows)).

(** * Calls *)

Inductive authE : Type -> Type :=
| AuthBegin : authE (result unit)
| AuthCommit : authE (result unit)
| AuthRollback : authE unit
| TUserList (w : TUserParam) : authE (result (list TUser))
| TUserCreate (p : TUserParam) : authE (result Z)
| TUserUpdate (p w : TUserParam) : authE (result Z)
| TUserDelete (w : TUserParam) : authE (result Z)
| TUserProductList (w : TUserProductParam) : authE (result (list TUserProduct))
| TUserProductCreate (b : TUserProduct) : authE (result Z)
| TUserProductDelete (w : TUserProductParam) : authE (result Z)
(** [FetchProducts] of the product storage, by ids *)
| FetchProductRows (ids : list Z) : authE (result (list Product))
(** [rand.Read] of so many bytes *)
| RandRead (len : nat) : authE (result string)
(** the salt that bcrypt draws *)
| DrawSalt : authE string
| Now : authE gotime
| RecordLog (e : OperationLogEntry) : authE unit.

Record adata : Type := mkAData { ad_users : list TUser; ad_bindings : list TUserProduct }.

Record aworld : Type := mkAWorld {
  aw_data : adata;
  (** the tables as they were when the open transaction began *)
  aw_saved : option adata;
  aw_nextUser : Z;
  aw_products : list Product;
  aw_clock : nat -> gotime; aw_reads : nat;
  (** the n-th read of random bytes: a stream of bytes, or a failure *)
  aw_random : nat -> result (nat -> ascii); aw_salts : nat -> string; aw_draws : nat;
  aw_log : list OperationLogEntry
}.

Definition aw_users (w : aworld) : list TUser := ad_users (aw_data w).
Definition aw_bindings (w : aworld) : list TUserProduct := ad_bindings (aw_data w).
Definition aw_now (w : aworld) : gotime := aw_clock w (aw_reads w).

Definition put_adata (d : adata) (w : aworld) : aworld :=
  mkAWorld d (aw_saved w) (aw_nextUser w) (aw_products w) (aw_clock w) (aw_reads w) (aw_random w) (aw_salts w) (aw_draws w) (aw_log w).
Definition put_asaved (s : option adata) (w : aworld) : aworld :=
  mkAWorld (aw_data w) s (aw_nextUser w) (aw_products w) (aw_clock w) (aw_reads w) (aw_random w) (aw_salts w) (aw_draws w) (aw_log w).
Definition put_users (l : list TUser) (w : aworld) : aworld := put_adata (mkAData l (aw_bindings w)) w.
Definition put_bindings (l : list TUserProduct) (w : aworld) : aworld := put_adata (mkAData (aw_users w) l) w.
Definition next_user (w : aworld) : aworld :=
  mkAWorld (aw_data w) (aw_saved w) (aw_nextUser w + 1) (aw_products w) (aw_clock w) (aw_reads w) (aw_random w) (aw_salts w) (aw_draws w) (aw_log w).
Definition draw_bytes (w : aworld) : aworld :=
  mkAWorld (aw_data w) (aw_saved w) (aw_nextUser w) (aw_products w) (aw_clock w) (aw_reads w) (aw_random w) (aw_salts w) (S (aw_draws w)) (aw_log w).
Definition read_clock (w : aworld) : aworld :=
  mkAWorld (aw_data w) (aw_saved w) (aw_nextUser w) (aw_products w) (aw_clock w) (S (aw_reads w)) (aw_random w) (aw_salts w) (aw_draws w) (aw_log w).
Definition log_entry (e : OperationLogEntry) (w : aworld) : aworld :=
  mkAWorld (aw_data w) (aw_saved w) (aw_nextUser w) (aw_products w) (aw_clock w) (aw_reads w) (aw_random w) (aw_salts w) (aw_draws w) (aw_log w ++ [e]).

Definition affected {A} (hit : A -> bool) (l : list A) : Z := Z.of_nat (length (List.filter hit l)).
Definition removed {A} (hit : A -> bool) (l : list A) : list A := List.filter (fun x => negb (hit x)) l.

Definition auth_handle {R} (e : authE R) : aworld -> R * aworld :=
  match e in authE R return aworld -> R * aworld with
  | AuthBegin => fun w => (Ok tt, put_asaved (Some (aw_data w)) w)
  | AuthCommit => fun w => (Ok tt, put_asaved None w)
  | AuthRollback => fun w =>
      (tt, match aw_saved w with Some d => put_asaved None (put_adata d w) | None => w end)
  | TUserList p => fun w => (Ok (List.filter (where_user p) (aw_users w)), w)
  | TUserCreate p => fun w =>
      match insert_user (aw_nextUser w) (aw_now w) p with
      | None => (Err DaoError, w)
      | Some r =>
          let rows := (aw_users w ++ [r])%list in
          if users_unique rows then (Ok (tu_ID r), next_user (put_users rows w)) else (Err DaoError, next_user w)
      end
  | TUserUpdate p q => fun w =>
      let rows := map (fun r => if where_user q r then assign_user p r else r) (aw_users w) in
      if users_unique rows then (Ok (affected (where_user q) (aw_users w)), put_users rows w) else (Err DaoError, w)
  | TUserDelete q => fun w =>
      (Ok (affected (where_user q) (aw_users w)), put_users (removed (where_user q) (aw_users w)) w)
  | TUserProductList q => fun w => (Ok (List.filter (where_binding q) (aw_bindings w)), w)
  | TUserProductCreate b => fun w =>
      let rows := (aw_bindings w ++ [b])%list in
      if bindings_unique rows then (Ok 0%Z, put_bindings rows w) else (Err DaoError, w)
  | TUserProductDelete q => fun w =>
      (Ok (affected (where_binding q) (aw_bindings w)), put_bindings (removed (where_binding q) (aw_bindings w)) w)
  | FetchProductRows ids => fun w => (Ok (List.filter (fun p => among_ids ids (pr_ID p)) (aw_products w)), w)
  | RandRead len => fun w =>
      (match aw_random w (aw_draws w) with
       | Ok bytes => Ok (String.string_of_list_ascii (map bytes (seq 0 len)))
       | Err e => Err e
       end, draw_bytes w)
  | DrawSalt => fun w => (aw_salts w (aw_draws w), draw_bytes w)
  | Now => fun w => (aw_now w, read_clock w)
  | RecordLog e => fun w => (tt, log_entry e w)
  end.

Definition auth_fault {R} (e : authE R) : option R :=
  match e in authE R return option R with
  | AuthBegin => Some (Err DaoError)
  | AuthCommit => Some (Err DaoError)
  | AuthRollback => None
  | TUserList _ => Some (Err DaoError)
  | TUserCreate _ => Some (Err DaoError)
  | TUserUpdate _ _ => Some (Err DaoError)
  | TUserDelete _ => Some (Err DaoError)
  | TUserProductList _ => Some (Err DaoError)
  | TUserProductCreate _ => Some (Err DaoError)
  | TUserProductDelete _ => Some (Err DaoError)
  | FetchProductRows _ => Some (Err DaoError)
  | RandRead _ => None
  | DrawSalt => None
  | Now => None
  | RecordLog _ => None
  end.

#[export] Instance auth_interp : Interp authE aworld := {|
  handle := @auth_handle;
  fault := @auth_fault
|}.

#[export] Instance auth_txn : TxnCalls authE := {|
  tx_begin := AuthBegin;
  tx_commit := AuthCommit;
  tx_rollback := AuthRollback;
  is_commit := fun R (e : authE R) => match e with AuthCommit => true | _ => false end
|}.

(** The storage of users, tokens and their products ([storage/rdb/auth]). *)

(** * Scopes in their column *)

Definition parseScopes (s : string) : list string :=
  if bool_decide (s = "") then []
  else List.filter (fun p => negb (bool_decide (p = ""))) (map TrimSpace (Split s ",")).
Definition scopesContain (scopes : list string) (target : string) : bool :=
  existsb (fun s => bool_decide (s = target)) scopes.
Definition Join (l : list string) (sep : string) : string :=
  match l with [] => "" | s :: l' => fold_left (fun acc t => acc +:+ sep +:+ t) l' s end.

(** * Rows to data and back *)

Definition userD2M (r : TUser) : User :=
  let scopes := parseScopes (tu_Scopes r) in
  mkUser (tu_ID r) (tu_Name r) (tu_Type r) (scopesContain scopes ScopeSystem) (tu_Password r) (tu_Ticket r)
    (tu_TicketCreatedAt r) scopes.
Definition userFilter2Param (f : UserFilter) : TUserParam :=
  mkTUserParam (uf_IDs f) None (uf_Name f) (uf_Type f) (uf_Types f) None (uf_SessionKey f) None None.
Definition userParamM2D (p : UserParam) : TUserParam :=
  mkTUserParam [] None (up_Name p) (Some UserTypeNormal) [] (up_Password p) (up_SessionKey p) (up_SessionKeyCreateAt p)
    (option_map (fun l => Join l ",") (up_Scopes p)).

Definition tokenD2M (r : TUser) : Token := mkToken (tu_ID r) (tu_Name r) (tu_Ticket r) (tu_Scopes r) None.
Definition tokenFilter2Param (f : option TokenFilter) : TUserParam :=
  let f := default (mkTokenFilter [] None None) f in
  mkTUserParam (kf_IDs f) None (kf_Name f) (Some UserTypeToken) [] None (kf_Token f) None None.
Definition tokenParamM2D (p : TokenParam) : TUserParam :=
  mkTUserParam [] None (kp_Name p) (Some UserTypeToken) [] None (kp_Token p) None (kp_Scope p).

Definition byRowID (id : Z) : TUserParam := mkTUserParam [] (Some id) None None [] None None None None.

(** * Users and tokens ([authentication.go]) *)

Definition FetchUserRows (filter : option UserFilter) : prog authE (result (list User)) :=
  let f := default (mkUserFilter [] None None None []) filter in
  list <-? call (TUserList (userFilter2Param (mkUserFilter (uf_IDs f) (uf_Name f) (uf_SessionKey f) (Some UserTypeNormal) (uf_Types f)))) ;;
  Ret (Ok (map userD2M list)).
Definition FetchUserRow (filter : UserFilter) : prog authE (result (option User)) :=
  list <-? FetchUserRows (Some filter) ;;
  Ret (Ok (hd_error list)).
Definition UpdateUserRow (user : User) (p : UserParam) : prog authE (result unit) :=
  _ <-? call (TUserUpdate (userParamM2D p) (byRowID (u_ID user))) ;; Ret (Ok tt).
Definition CreateUserRow (p : UserParam) : prog authE (result unit) :=
  _ <-? call (TUserCreate (userParamM2D p)) ;; Ret (Ok tt).
Definition DeleteUserRow (user : User) : prog authE (result unit) :=
  _ <-? call (TUserDelete (byRowID (u_ID user))) ;; Ret (Ok tt).

Definition FetchTokenRows (filter : option TokenFilter) : prog authE (result (list Token)) :=
  list <-? call (TUserList (tokenFilter2Param filter)) ;;
  Ret (Ok (map tokenD2M list)).
Definition CreateTokenRow (p : TokenParam) : prog authE (result unit) :=
  _ <-? call (TUserCreate (tokenParamM2D p)) ;; Ret (Ok tt).
Definition DeleteTokenRow (token : Token) : prog authE (result unit) :=
  _ <-? call (TUserDelete (mkTUserParam [] None (Some (tk_Name token)) (Some UserTypeToken) [] None None None None)) ;; Ret (Ok tt).

(** * Products of users and tokens ([authorization.go]) *)

Definition of_user (userID : Z) : TUserProductParam := mkTUserProductParam (Some userID) [] None.
Definition of_product (productID : Z) : TUserProductParam := mkTUserProductParam None [] (Some productID).
Definition of_pair (userID productID : Z) : TUserProductParam := mkTUserProductParam (Some userID) [] (Some productID).

(** [TUserProductOne]: a query with a limit of one. *)
Definition TUserProductOne (w : TUserProductParam) : prog authE (result (option TUserProduct)) :=
  list <-? call (TUserProductList w) ;; Ret (Ok (hd_error list)).

(** The keys of the set of ids that a loop over the rows builds. *)
Definition id_set (ids : list Z) : list Z := remove_dups ids.

Definition UnbindUserProduct (userID productID : Z) : prog authE (result unit) :=
  _ <-? call (TUserProductDelete (of_pair userID productID)) ;; Ret (Ok tt).
Definition unbindTokenAllProduct (userID : Z) : prog authE (result unit) :=
  _ <-? call (TUserProductDelete (of_user userID)) ;; Ret (Ok tt).

Definition bindUserProduct (userID productID : Z) : prog authE (result unit) :=
  one <-? TUserProductOne (of_pair userID productID) ;;
  match one with
  | Some _ => Ret (Ok tt)
  | None => _ <-? call (TUserProductCreate (mkTUserProduct userID productID)) ;; Ret (Ok tt)
  end.

Definition isTokenProductGranted (userID productID : Z) : prog authE (result bool) :=
  one <-? TUserProductOne (of_pair userID productID) ;;
  Ret (Ok (match one with Some _ => true | None => false end)).

Definition fetchUserProducts (userID : Z) : prog authE (result (list Product)) :=
  list <-? call (TUserProductList (of_user userID)) ;;
  match list with
  | [] => Ret (Ok [])
  | _ => call (FetchProductRows (id_set (map bp_ProductID list)))
  end.
Definition FetchTokenProductRow (tokenID : Z) : prog authE (result (option Product)) :=
  list <-? fetchUserProducts tokenID ;; Ret (Ok (hd_error list)).

Definition FetchProductUserRows (productID : Z) : prog authE (result (list User)) :=
  list <-? call (TUserProductList (of_product productID)) ;;
  match list with
  | [] => Ret (Ok [])
  | _ => FetchUserRows (Some (mkUserFilter (id_set (map bp_UserID list)) None None None []))
  end.
Definition FetchProductTokenRows (productID : Z) : prog authE (result (list Token)) :=
  list <-? call (TUserProductList (of_product productID)) ;;
  match list with
  | [] => Ret (Ok [])
  | _ => FetchTokenRows (Some (mkTokenFilter (id_set (map bp_UserID list)) None None))
  end.

(** The product of each token: of several bindings the last one counts. *)
Definition BatchFetchTokenProduct (tokens : list Token) : prog authE (result (gmap Z (option Product))) :=
  match tokens with
  | [] => Ret (Ok ∅)
  | _ =>
      bindList <-? call (TUserProductList (mkTUserProductParam None (map tk_ID tokens) None)) ;;
      match bindList with
      | [] => Ret (Ok ∅)
      | _ =>
          productList <-? call (FetchProductRows (id_set (map bp_ProductID bindList))) ;;
          let productObjMap : gmap Z Product := fold_left (fun m p => <[pr_ID p := p]> m) productList ∅ in
          Ret (Ok (fold_left (fun m b => <[bp_UserID b := productObjMap !! bp_ProductID b]> m) bindList ∅))
      end
  end.

Definition UpdateUserScopes (user : User) (scopes : list string) : prog authE (result unit) :=
  UpdateUserRow user (mkUserParam None None (Some scopes) None None).

(** Features, actions and what each scope may do ([model/iauth/features.go]).
    An action is a set of bits of an int64. *)

(** * Actions *)

Definition ActionDeny : Z := 1.
Definition ActionRead : Z := 2.
Definition ActionReadAll : Z := 4.
Definition ActionUpdate : Z := 8.
Definition ActionCreate : Z := 16.
Definition ActionDelete : Z := 32.
Definition ActionExport : Z := 64.
Definition ActionCancel : Z := 128.

(** [a & (^b)] on int64. *)
Definition Revoke (a b : Z) : Z := Z.land a (Z.lnot b).
Definition Grant (a b : Z) : Z := Z.lor a b.
Definition IsAllowed (a b : Z) : bool := negb (Z.land a b =? 0)%Z.

Definition actionProductNormal : Z :=
  Grant (Grant (Grant (Grant (Grant ActionDeny ActionRead) ActionUpdate) ActionCreate) ActionReadAll) ActionDelete.
Definition actionAll : Z :=
  Grant (Grant (Grant (Grant (Grant (Grant ActionDeny ActionRead) ActionUpdate) ActionCreate) ActionDelete) ActionReadAll)
    ActionExport.
Definition actionReadonly : Z := Grant ActionRead ActionReadAll.

(** * Features *)

Inductive Feature : Type :=
| FeatureProxyPool | FeatureBFECluster | FeatureBFEPool | FeatureArea | FeatureDomain | FeatureProduct
| FeatureExtraFile | FeatureProductPool | FeatureRoute | FeatureSubCluster | FeatureProductCluster | FeatureGeneral
| FeatureTraffic | FeatureCert | FeatureActiveHealthCheck | FeatureProductUser | FeatureUser | FeatureToken
| FeatureNLBPool | FeatureNLBCluster | FeatureAIRoute | FeatureAPIKey | FeatureEntityType | FeatureEntity
| FeatureQuotaPlan | FeatureRateLimitPolicy | FeatureAICache | FeatureAIContext | FeatureTrafficMirror | FeatureAIIntent
| FeatureModelPrice | FeatureProvider | FeatureK8sPool | FeatureOperationLog | FeatureSecurity | FeatureReport
| FeatureBatch.
#[export] Instance Feature_dec : EqDecision Feature.
Proof. solve_decision. Defined.

Definition feature_name (f : Feature) : string :=
  match f with
  | FeatureProxyPool => "ProxyPool"
  | FeatureBFECluster => "BFECluster"
  | FeatureBFEPool => "BFEPool"
  | FeatureArea => "Area"
  | FeatureDomain => "Domain"
  | FeatureProduct => "Product"
  | FeatureExtraFile => "ExtraFile"
  | FeatureProductPool => "ProductPool"
  | FeatureRoute => "Route"
  | FeatureSubCluster => "SubCluster"
  | FeatureProductCluster => "ProductCluster"
  | FeatureGeneral => "General"
  | FeatureTraffic => "Traffic"
  | FeatureCert => "Cert"
  | FeatureActiveHealthCheck => "ActiveHealthCheck"
  | FeatureProductUser => "AuthProductUser"
  | FeatureUser => "User"
  | FeatureToken => "Token"
  | FeatureNLBPool => "NLBPool"
  | FeatureNLBCluster => "NLBCluster"
  | FeatureAIRoute => "AIRoute"
  | FeatureAPIKey => "APIKey"
  | FeatureEntityType => "EntityType"
  | FeatureEntity => "Entity"
  | FeatureQuotaPlan => "QuotaPlan"
  | FeatureRateLimitPolicy => "RateLimitPolicy"
  | FeatureAICache => "AICache"
  | FeatureAIContext => "AIContext"
  | FeatureTrafficMirror => "TrafficMirror"
  | FeatureAIIntent => "AIIntent"
  | FeatureModelPrice => "ModelPrice"
  | FeatureProvider => "Provider"
  | FeatureK8sPool => "K8sPool"
  | FeatureOperationLog => "OperationLog"
  | FeatureSecurity => "Security"
  | FeatureReport => "Report"
  | FeatureBatch => "Batch"
  end.

(** What an endpoint asks for. *)
Record Authorization : Type := mkAuthorization { az_Feature : Feature; az_Action : Z; az_ValidateProduct : bool }.
Definition NewFeatureAuthorization (f : Feature) (a : Z) : Authorization := mkAuthorization f a false.
Definition NewFeatureAuthorizerWithFactoryWithProduct (f : Feature) (a : Z) : Authorization := mkAuthorization f a true.

(** * The permissions of a scope *)

Definition permissionsSystem (f : Feature) : option Z :=
  match f with
  | FeatureProxyPool | FeatureBFECluster | FeatureBFEPool | FeatureArea | FeatureDomain | FeatureProduct
  | FeatureExtraFile | FeatureProductPool | FeatureRoute | FeatureSubCluster | FeatureProductCluster | FeatureTraffic
  | FeatureGeneral | FeatureCert | FeatureActiveHealthCheck | FeatureProductUser | FeatureUser | FeatureToken
  | FeatureNLBPool | FeatureNLBCluster | FeatureAIRoute | FeatureAPIKey | FeatureEntityType | FeatureEntity
  | FeatureQuotaPlan | FeatureRateLimitPolicy | FeatureAICache | FeatureAIContext | FeatureTrafficMirror | FeatureAIIntent
  | FeatureModelPrice | FeatureProvider | FeatureK8sPool | FeatureOperationLog | FeatureReport | FeatureSecurity
  | FeatureBatch => Some (actionAll)
  end.

Definition permissionsSystemReadonly (f : Feature) : option Z :=
  match f with
  | FeatureProxyPool | FeatureBFECluster | FeatureBFEPool | FeatureArea | FeatureDomain | FeatureProduct
  | FeatureExtraFile | FeatureProductPool | FeatureRoute | FeatureSubCluster | FeatureProductCluster | FeatureTraffic
  | FeatureGeneral | FeatureCert | FeatureActiveHealthCheck | FeatureProductUser | FeatureUser | FeatureToken
  | FeatureNLBPool | FeatureNLBCluster | FeatureAIRoute | FeatureAPIKey | FeatureEntityType | FeatureEntity
  | FeatureQuotaPlan | FeatureRateLimitPolicy | FeatureAICache | FeatureAIContext | FeatureTrafficMirror | FeatureAIIntent
  | FeatureModelPrice | FeatureProvider | FeatureK8sPool | FeatureOperationLog | FeatureReport | FeatureSecurity
  | FeatureBatch => Some (actionReadonly)
  end.

Definition permissionsProduct (f : Feature) : option Z :=
  match f with
  | FeatureUser | FeatureToken => Some (ActionReadAll)
  | FeatureProxyPool | FeatureArea | FeatureDomain | FeatureProduct => Some (Grant actionProductNormal ActionReadAll)
  | FeatureBFECluster | FeatureBFEPool | FeatureProductPool | FeatureRoute | FeatureSubCluster | FeatureProductCluster
  | FeatureTraffic | FeatureGeneral | FeatureCert | FeatureActiveHealthCheck | FeatureProductUser | FeatureNLBPool
  | FeatureNLBCluster | FeatureAIRoute | FeatureAPIKey => Some (actionProductNormal)
  | FeatureReport => Some (ActionRead)
  | FeatureBatch => Some (Grant ActionRead ActionCancel)
  | _ => None
  end.

Definition permissionsSupport (f : Feature) : option Z :=
  match f with
  | FeatureProxyPool | FeatureRoute | FeatureCert | FeatureActiveHealthCheck | FeatureExtraFile | FeatureAPIKey
  | FeatureRateLimitPolicy | FeatureAICache | FeatureAIContext | FeatureTrafficMirror | FeatureAIIntent => Some (ActionExport)
  | _ => None
  end.

Definition scope2permission (scope : string) (f : Feature) : option Z :=
  if bool_decide (scope = ScopeSystem) then permissionsSystem f
  else if bool_decide (scope = ScopeSystemReadonly) then permissionsSystemReadonly f
  else if bool_decide (scope = ScopeProduct) then permissionsProduct f
  else if bool_decide (scope = ScopeSupport) then permissionsSupport f
  else None.
