(* ===== verification/AuthManager.v ===== *)
(** Authentication and authorisation ([model/iauth]): logging in, session keys
    and tokens, the users and what they are bound to, and whether a visitor
    may use a feature.  Every change leaves an entry in the operation log. *)
From Stdlib Require Import ZArith Lia Ascii.
From stdpp Require Import base tactics numbers list strings gmap option.
From S2P Require Import Prelude GoStrings GoBase64 GoTime Prog XCrypto OperLog AuthModel.

Local Open Scope string_scope.

(** * Requests *)

(** What [xreq] puts into the context. *)
Record RequestInfo : Type := mkRequestInfo {
  ri_LogID : string; ri_URLPath : string; ri_Method : string; ri_ClientIP : string; ri_UserAgent : string
}.
Record AuthContext : Type := mkAuthContext {
  cx_Visitor : option Visitor; cx_Product : option Product; cx_Request : option RequestInfo
}.

(** The settings of the process, and the time zone. *)
Record AuthConfig : Type := mkAuthConfig {
  ac_SkipTokenValidate : bool; ac_SessionExpireInDay : Z; ac_passwordHashCost : Z; ac_zone : Z; ac_hasLog : bool
}.

Section Auth.
Context `{!Crypto}.
(** the text of an error *)
Variable Error : goerr -> string.
Variable cfg : AuthConfig.
Variable ctx : AuthContext.

Definition newFakeVisitor (scope : string) : Visitor := VisitorToken (mkToken 1 "SkipUser" "" scope None).

Definition MustGetVisitor : result Visitor :=
  match cx_Visitor ctx with
  | Some v => Ok v
  | None =>
      if ac_SkipTokenValidate cfg then Ok (newFakeVisitor ScopeSystem)
      else Err (AuthenticateFail "User Not Login")
  end.

Definition MustGetProduct : result Product :=
  match cx_Product ctx with Some p => Ok p | None => Err (ParamError "Fail To Get Product") end.

(** * Operation log ([operation_log.go], [operationLogContextExtractor]) *)

Definition operationLogContextExtractor (e : OperationLogEntry) : OperationLogEntry :=
  let '(type, id, name) :=
    match MustGetVisitor with
    | Ok (VisitorUser u) => (OperatorTypeUser, u_ID u, u_Name u)
    | Ok (VisitorToken t) => (OperatorTypeToken, tk_ID t, tk_Name t)
    | Err _ => (le_OperatorType e, le_OperatorID e, le_OperatorName e)
    end in
  let '(logID, path, method, ip, agent) :=
    match cx_Request ctx with
    | Some r => (ri_LogID r, ri_URLPath r, ri_Method r, ri_ClientIP r, ri_UserAgent r)
    | None => (le_LogID e, le_RequestPath e, le_RequestMethod e, le_ClientIP e, le_UserAgent e)
    end in
  mkEntry (le_ID e) logID type id name (le_Action e) (le_ResourceType e) (le_ResourceID e) (le_ResourceName e)
    (le_ResourceParentID e) (le_Status e) (le_ErrorMsg e) (le_ChangeSummary e) path method ip agent (le_CreatedAt e).

Definition recordAuthOperation (action resourceType : string) (resourceID : Z) (resourceName parentID : string)
  (before after : list (string * jval)) (err : option goerr) : prog authE unit :=
  if ac_hasLog cfg then
    now <- call Now ;;
    call (RecordLog (operationLogContextExtractor
      (mkEntry 0 "" 0 0 "" action resourceType (if (resourceID =? 0)%Z then "" else FormatInt resourceID) resourceName parentID
         (match err with None => StatusSuccess | Some _ => StatusFailed end)
         (match err with None => "" | Some e => TruncateErrorMessageDefault (Some (Error e)) end)
         (BuildChangeSummary action before after) "" "" "" "" now)))
  else Ret tt.
Definition recordUserOperation (action : string) (userID : Z) (userName parentID : string) (before after : list (string * jval))
  (err : option goerr) : prog authE unit := recordAuthOperation action "user" userID userName parentID before after err.
Definition recordTokenOperation (action : string) (tokenID : Z) (tokenName parentID : string) (before after : list (string * jval))
  (err : option goerr) : prog authE unit := recordAuthOperation action "token" tokenID tokenName parentID before after err.

Definition text_field (key : string) (v : option string) : list (string * jval) :=
  match v with Some s => [(key, JStr s)] | None => [] end.
Definition nonempty_field (key s : string) : list (string * jval) :=
  if bool_decide (s = "") then [] else [(key, JStr s)].

Definition userParamToMap (p : UserParam) : list (string * jval) :=
  (text_field "name" (up_Name p) ++ text_field "password" (up_Password p)
   ++ (match up_Scopes p with Some (s :: l) => [("scopes", JStrs (s :: l))] | _ => [] end)
   ++ text_field "session_key" (up_SessionKey p)
   ++ (match up_SessionKeyCreateAt p with Some t => [("session_key_create_at", JTime t)] | None => [] end))%list.
Definition userToMap (user : option User) : list (string * jval) :=
  match user with
  | None => []
  | Some u =>
      ([("id", JInt "int64" (u_ID u)); ("name", JStr (u_Name u)); ("type", JInt "int8" (u_Type u)); ("admin", JBool (u_Admin u))]
       ++ nonempty_field "password" (u_Password u) ++ nonempty_field "session_key" (u_SessionKey u))%list
  end.
Definition tokenToMap (t : Token) : list (string * jval) :=
  ([("id", JInt "int64" (tk_ID t)); ("name", JStr (tk_Name t)); ("scope", JStr (tk_Scope t))]
   ++ nonempty_field "token" (tk_Token t)
   ++ match tk_Product t with Some p => [("product", JStr (pr_Name p))] | None => [] end)%list.
Definition tokenParamToMap (p : TokenParam) : list (string * jval) :=
  (text_field "name" (kp_Name p) ++ text_field "token" (kp_Token p) ++ text_field "scope" (kp_Scope p))%list.
Definition productToMap (p : Product) : list (string * jval) :=
  (("name", JStr (pr_Name p)) :: if (pr_ID p =? 0)%Z then [] else [("id", JInt "int64" (pr_ID p))])%list.

Definition recordUserProductBinding (action : string) (user : User) (product : Product) (err : option goerr) : prog authE unit :=
  recordAuthOperation action "user" (u_ID user) (u_Name user) (pr_Name product)
    [("user", JMap (userToMap (Some user)))] [("product", JMap (productToMap product))] err.

(** * Logging in *)

(** [base64.URLEncoding.EncodeToString]. *)
Definition url_char (c : ascii) : ascii :=
  if ascii_dec c "+" then "-"%char else if ascii_dec c "/" then "_"%char else c.
Fixpoint url_text (s : string) : string :=
  match s with EmptyString => "" | String c s' => String (url_char c) (url_text s') end.
Definition URLEncodeToString (s : string) : string := url_text (EncodeToString s).

Definition sessionKeyFactory (len : nat) : prog authE (result string) :=
  r <- call (RandRead len) ;;
  Ret (match r with Ok bs => Ok (URLEncodeToString bs) | Err _ => Err (ModelError "rand.Read data error: %s") end).

(** The loop of [authTypePassword] that draws a session key which no user has;
    it has no bound in the code. *)
Fixpoint fresh_session_key (fuel : nat) : prog authE (option (result string)) :=
  match fuel with
  | O => Ret None
  | S fuel =>
      k <- sessionKeyFactory 15 ;;
      match k with
      | Err e => Ret (Some (Err e))
      | Ok sessionKey =>
          user1 <- FetchUserRow (bySessionKey sessionKey) ;;
          match user1 with
          | Err e => Ret (Some (Err e))
          | Ok (Some _) => fresh_session_key fuel
          | Ok None => Ret (Some (Ok sessionKey))
          end
      end
  end.

Definition with_session (u : User) (key password : string) : User :=
  mkUser (u_ID u) (u_Name u) (u_Type u) (u_Admin u) password key (u_SessionKeyCreateAt u) (u_Scopes u).

(** The closure of [authTypePassword]; its variable is the visitor.  A run out
    of fuel shows as [None]. *)
Definition password_body (fuel : nat) (userName password : string) : prog authE (option goerr * option (option Visitor)) :=
  u <- FetchUserRow (byUserName userName) ;;
  match u with
  | Err e => Ret (Some e, Some None)
  | Ok None => Ret (Some (AuthenticateFail "User %s Not Exist"), Some None)
  | Ok (Some user) =>
      let '(ok, needMigrate) := CheckPassword (u_Password user) password in
      if negb ok then Ret (Some (AuthenticateFail "Password Wrong"), Some None)
      else
        reHashed <- (if needMigrate
                     then salt <- call DrawSalt ;;
                          Ret (match HashPassword salt (ac_passwordHashCost cfg) password with Ok h => Ok (Some h) | Err e => Err e end)
                     else Ret (Ok None)) ;;
        match reHashed with
        | Err e => Ret (Some e, Some None)
        | Ok reHashed =>
            k <- fresh_session_key fuel ;;
            match k with
            | None => Ret (Some (PlainError "fuel"), None)
            | Some (Err e) => Ret (Some e, Some None)
            | Some (Ok sessionKey) =>
                now <- call Now ;;
                r <- UpdateUserRow user (mkUserParam None reHashed None (Some sessionKey) (Some now)) ;;
                Ret (match r with Err e => Some e | Ok _ => None end,
                     Some (Some (VisitorUser (with_session user sessionKey (default (u_Password user) reHashed)))))
            end
        end
  end.

Definition authTypePassword (fuel : nat) (identify extend : string) : prog authE (option (result Visitor)) :=
  t <- AtomExecute (Some None) (password_body fuel identify extend) ;;
  Ret (match t with
       | (_, None) => None
       | (Some e, _) => Some (Err e)
       | (None, Some (Some v)) => Some (Ok v)
       | (None, Some None) => Some (Err (PlainError "panic"))
       end).

Definition authTypeSession (identify : string) : prog authE (result Visitor) :=
  user <-? FetchUserRow (bySessionKey identify) ;;
  match user with
  | None => Ret (Err (AuthenticateFail "Session Key Wrong"))
  | Some user =>
      now <- call Now ;;
      if (AddDays (ac_zone cfg) (u_SessionKeyCreateAt user) (ac_SessionExpireInDay cfg) <? now)%Z
      then Ret (Err (AuthenticateFail "Session Key Expired"))
      else Ret (Ok (VisitorUser user))
  end.

Definition authTypeToken (identify : string) : prog authE (result Visitor) :=
  tokens <-? FetchTokenRows (Some (mkTokenFilter [] None (Some identify))) ;;
  match tokens with
  | [] => Ret (Err (AuthenticateFail "Token Wrong"))
  | token :: _ => Ret (Ok (VisitorToken token))
  end.

Definition authTypeSkip (identify : string) : prog authE (result Visitor) :=
  if ac_SkipTokenValidate cfg then Ret (Ok (newFakeVisitor identify))
  else Ret (Err (AuthenticateFail "Bad Authorization Flag")).

Definition Authenticate (fuel : nat) (type identify extend : string) : prog authE (option (result Visitor)) :=
  if bool_decide (type = "Password") then authTypePassword fuel identify extend
  else if bool_decide (type = "Session") then r <- authTypeSession identify ;; Ret (Some r)
  else if bool_decide (type = "Token") then r <- authTypeToken identify ;; Ret (Some r)
  else if bool_decide (type = "Skip") then r <- authTypeSkip identify ;; Ret (Some r)
  else Ret (Some (Err (ParamError "Illegal Authenticate Type %s"))).

(** [UserProbeAction] of [middleware/user_probe.go]: the visitor of a request
    by its [Authorization] header. *)
Definition UserProbeAction (fuel : nat) (authHeader : string) : prog authE (option (result AuthContext)) :=
  if bool_decide (authHeader = "") then Ret (Some (Ok ctx))
  else match Cut authHeader " " with
       | None => Ret (Some (Err (AuthenticateFail "Bad Format Header Authorization")))
       | Some (type, identify) =>
           v <- Authenticate fuel type identify "" ;;
           Ret (match v with
                | None => None
                | Some (Err e) => Some (Err e)
                | Some (Ok v) => Some (Ok (mkAuthContext (Some v) (cx_Product ctx) (cx_Request ctx)))
                end)
       end.

(** * Session keys *)

(** [time.Time{}.AddDate(0, 1, 1)]. *)
Definition destroyed_time : gotime := date_time 1 2 2 0 0 0 0.
Definition end_session : UserParam := mkUserParam None None None (Some "") (Some destroyed_time).

Definition err_of (r : result unit) : option goerr := match r with Err e => Some e | Ok _ => None end.
Definition result_of (err : option goerr) : result unit := match err with Some e => Err e | None => Ok tt end.

(** A change of one user: the closure finds it and leaves it in [oldUser]. *)
Definition change_user (filter : UserFilter) (missing : goerr) (change : User -> prog authE (result unit))
  : prog authE (option goerr * option User) :=
  u <- FetchUserRow filter ;;
  match u with
  | Err e => Ret (Some e, None)
  | Ok None => Ret (Some missing, None)
  | Ok (Some user) => r <- change user ;; Ret (err_of r, Some user)
  end.

Definition old_id (u : option User) : Z := match u with Some u => u_ID u | None => 0%Z end.
Definition old_name (name : string) (u : option User) : string := match u with Some u => u_Name u | None => name end.

Definition DestroySessionKey (sessionKey : string) : prog authE (result unit) :=
  t <- AtomExecute None (change_user (bySessionKey sessionKey) (AuthenticateFail "Session Key Not Exist")
         (fun user => UpdateUserRow user end_session)) ;;
  let '(err, oldUser) := t in
  recordUserOperation "reset" (old_id oldUser) (old_name "" oldUser) "" (userToMap oldUser) (userParamToMap end_session) err ;;
  Ret (result_of err).

(** * Tokens *)

Definition FetchTokens (filter : option TokenFilter) : prog authE (result (list Token)) :=
  t <- AtomExecute []
    (l <- FetchTokenRows filter ;;
     match l with
     | Err e => Ret (Some e, [])
     | Ok list =>
         p <- BatchFetchTokenProduct list ;;
         match p with
         | Err e => Ret (Some e, list)
         | Ok products =>
             Ret (None, map (fun one => mkToken (tk_ID one) (tk_Name one) (tk_Token one) (tk_Scope one)
                                          (default None (products !! tk_ID one))) list)
         end
     end) ;;
  Ret (match t with (Some e, _) => Err e | (None, list) => Ok list end).

Definition DeleteToken (token : Token) : prog authE (result unit) :=
  t <- AtomExecute tt
    (d <- DeleteTokenRow token ;;
     match d with
     | Err e => Ret (Some e, tt)
     | Ok _ => r <- unbindTokenAllProduct (tk_ID token) ;; Ret (err_of r, tt)
     end) ;;
  recordTokenOperation "delete" (tk_ID token) (tk_Name token) "" (tokenToMap token) [] t.1 ;;
  Ret (result_of t.1).

(** What [CreateToken] makes of the value it has drawn: the stored token, and
    its binding. *)
Definition store_token (name scope tokenVal : string) (product : option Product) : prog authE (option goerr * option Token) :=
  let token := mkToken 0 name tokenVal scope None in
  c <- CreateTokenRow (mkTokenParam (Some name) (Some tokenVal) (Some scope)) ;;
  match c with
  | Err e => Ret (Some e, Some token)
  | Ok _ =>
      l <- FetchTokenRows (Some (mkTokenFilter [] (Some name) None)) ;;
      match l with
      | Err e => Ret (Some e, Some token)
      | Ok [] => Ret (Some (PlainError "panic"), Some token)
      | Ok (token :: _) =>
          match product with
          | None => Ret (None, Some token)
          | Some p => r <- bindUserProduct (tk_ID token) (pr_ID p) ;; Ret (err_of r, Some token)
          end
      end
  end.

(** The loop over the attempts to draw a value; [err] is the error of the last
    one. *)
Fixpoint draw_token (attempts : nat) (err : option goerr) (name scope : string) (product : option Product)
  : prog authE (option goerr * option Token) :=
  match attempts with
  | O => Ret (err, None)
  | S attempts =>
      k <- sessionKeyFactory 15 ;;
      match k with
      | Err e => draw_token attempts (Some e) name scope product
      | Ok tokenVal =>
          l <- FetchTokenRows (Some (mkTokenFilter [] None (Some tokenVal))) ;;
          match l with
          | Err e => draw_token attempts (Some e) name scope product
          | Ok [] => store_token name scope tokenVal product
          | Ok (_ :: _) => draw_token attempts None name scope product
          end
      end
  end.

(** The error of the first query is only looked at when no attempt is made:
    the attempts overwrite it. *)
Definition create_token_body (name scope : string) (product : option Product) : prog authE (option goerr * option Token) :=
  l <- FetchTokenRows (Some (mkTokenFilter [] (Some name) None)) ;;
  match l with
  | Ok (_ :: _) => Ret (Some (RecordExisted "Token"), None)
  | Ok [] => draw_token 5 None name scope product
  | Err e => draw_token 5 (Some e) name scope product
  end.

Definition CreateToken (name scope : string) (product : option Product) : prog authE (result Token) :=
  let param := mkTokenParam (Some name) None (Some scope) in
  let parentID := match product with Some p => pr_Name p | None => "" end in
  t <- AtomExecute None (create_token_body name scope product) ;;
  match t with
  | (Some e, token) =>
      recordTokenOperation "create" 0 (match token with Some t => tk_Name t | None => name end) parentID []
        (tokenParamToMap param) (Some e) ;;
      Ret (Err e)
  | (None, None) => Ret (Err (PlainError "panic"))
  | (None, Some token) =>
      recordTokenOperation "create" (tk_ID token) (tk_Name token) parentID [] (tokenToMap token) None ;;
      Ret (Ok token)
  end.

(** * Users *)

Definition passwordCheck (password : string) : option goerr :=
  let n := String.length password in
  if (n <? 8)%nat || (72 <? n)%nat then Some (ParamError "Password Length Must Be Between 8 and 72 Bytes") else None.

Definition hash_password (password : string) : prog authE (result string) :=
  salt <- call DrawSalt ;; Ret (HashPassword salt (ac_passwordHashCost cfg) password).

(** [CreateUser] after the password has been replaced by its hash. *)
Definition create_hashed (param : UserParam) : prog authE (result unit) :=
  t <- AtomExecute tt
    (u <- FetchUserRow (mkUserFilter [] (up_Name param) None None []) ;;
     match u with
     | Err e => Ret (Some e, tt)
     | Ok (Some _) => Ret (Some (RecordExisted "User"), tt)
     | Ok None => r <- CreateUserRow param ;; Ret (err_of r, tt)
     end) ;;
  recordUserOperation "create" 0 (default "" (up_Name param)) "" [] (userParamToMap param) t.1 ;;
  Ret (result_of t.1).

Definition CreateUser (param : UserParam) : prog authE (result unit) :=
  match up_Password param with
  | None => create_hashed param
  | Some password =>
      match passwordCheck password with
      | Some e => Ret (Err e)
      | None =>
          hashed <-? hash_password password ;;
          create_hashed (mkUserParam (up_Name param) (Some hashed) (up_Scopes param) (up_SessionKey param) (up_SessionKeyCreateAt param))
      end
  end.

Definition DeleteUser (userName : string) : prog authE (result unit) :=
  t <- AtomExecute None (change_user (byUserName userName) (RecordNotExist "User")
         (fun user => _ <-? DeleteUserRow user ;; unbindTokenAllProduct (u_ID user))) ;;
  let '(err, oldUser) := t in
  recordUserOperation "delete" (old_id oldUser) (old_name userName oldUser) "" (userToMap oldUser) [] err ;;
  Ret (result_of err).

Definition UpdateUserPassword (userName oldPassword password : string) : prog authE (result unit) :=
  match passwordCheck password with
  | Some e => Ret (Err e)
  | None =>
      hashed <-? hash_password password ;;
      let newData := mkUserParam None (Some hashed) None (Some "") (Some destroyed_time) in
      t <- AtomExecute None (change_user (byUserName userName) (RecordNotExist "User")
             (fun user =>
                if negb (bool_decide (oldPassword = "")) && negb (CheckPassword (u_Password user) oldPassword).1
                then Ret (Err (ParamError "Invalid Password"))
                else UpdateUserRow user newData)) ;;
      let '(err, oldUser) := t in
      recordUserOperation "update" (old_id oldUser) (old_name userName oldUser) "" (userToMap oldUser) (userParamToMap newData) err ;;
      Ret (result_of err)
  end.

Definition FetchUserList (filter : option UserFilter) : prog authE (result (list User)) :=
  t <- AtomExecute []
    (l <- FetchUserRows filter ;;
     Ret (match l with Ok users => (None, users) | Err e => (Some e, []) end)) ;;
  Ret (match t with (Some e, _) => Err e | (None, users) => Ok users end).
Definition FetchUser (filter : UserFilter) : prog authE (result (option User)) :=
  list <-? FetchUserList (Some filter) ;; Ret (Ok (hd_error list)).

(** * Authorisation ([authorization.go]) *)

Definition UpdateUserRole (user : User) (role : string) : prog authE (result unit) :=
  match RoleToScopes role with
  | Err e => Ret (Err e)
  | Ok scopes =>
      if EqualFold (u_Name user) "admin" && negb (bool_decide (role = RoleSystemAdmin))
      then Ret (Err (ParamError "user %q role is fixed to system_admin"))
      else
        t <- AtomExecute tt (r <- UpdateUserScopes user scopes ;; Ret (err_of r, tt)) ;;
        recordUserOperation "update" (u_ID user) (u_Name user) "" (userToMap (Some user))
          [("role", JStr role); ("scopes", JStrs scopes)] t.1 ;;
        Ret (result_of t.1)
  end.

Definition read_only {A} (init : A) (body : prog authE (result A)) : prog authE (result A) :=
  t <- AtomExecute init (r <- body ;; Ret (match r with Ok a => (None, a) | Err e => (Some e, init) end)) ;;
  Ret (match t with (Some e, _) => Err e | (None, a) => Ok a end).

Definition IsVisitorProductGranted (v : Visitor) (product : Product) : prog authE (result bool) :=
  read_only false (isTokenProductGranted (match v with VisitorUser u => u_ID u | VisitorToken t => tk_ID t end) (pr_ID product)).

(** Whether one of the scopes grants the action. *)
Definition feature_granted (scopes : list string) (f : Feature) (a : Z) : bool :=
  existsb (fun scope => match scope2permission scope f with Some action => IsAllowed action a | None => false end) scopes.

Definition Authorizate (auth : Authorization) : prog authE (result unit) :=
  match MustGetVisitor with
  | Err e => Ret (Err e)
  | Ok visitor =>
      if IsAdmin visitor then Ret (Ok tt)
      else if negb (feature_granted (GetScopes visitor) (az_Feature auth) (az_Action auth))
      then Ret (Err (AuthorizateFail "Feature Access Deny"))
      else if az_ValidateProduct auth then
        match MustGetProduct with
        | Err e => Ret (Err e)
        | Ok product =>
            ok <-? IsVisitorProductGranted visitor product ;;
            if ok then Ret (Ok tt) else Ret (Err (AuthorizateFail "Product Access Deny"))
        end
      else Ret (Ok tt)
  end.

Definition FetchVisitorProductList (v : Visitor) : prog authE (result (list (option Product))) :=
  read_only []
    (match v with
     | VisitorUser u => l <-? fetchUserProducts (u_ID u) ;; Ret (Ok (map Some l))
     | VisitorToken t => p <-? FetchTokenProductRow (tk_ID t) ;; Ret (Ok [p])
     end).
Definition FetchProductUsers (product : Product) : prog authE (result (list User)) :=
  read_only [] (FetchProductUserRows (pr_ID product)).
Definition FetchProductTokens (product : Product) : prog authE (result (list Token)) :=
  read_only [] (FetchProductTokenRows (pr_ID product)).

Definition BindUserProduct (user : User) (product : Product) : prog authE (result unit) :=
  t <- AtomExecute tt (r <- bindUserProduct (u_ID user) (pr_ID product) ;; Ret (err_of r, tt)) ;;
  recordUserProductBinding "bind" user product t.1 ;;
  Ret (result_of t.1).
Definition UnBindUserProduct (user : User) (product : Product) : prog authE (result unit) :=
  t <- AtomExecute tt
    (b <- isTokenProductGranted (u_ID user) (pr_ID product) ;;
     match b with
     | Err e => Ret (Some e, tt)
     | Ok false => Ret (Some (RecordNotExist "User Product Binding"), tt)
     | Ok true => r <- UnbindUserProduct (u_ID user) (pr_ID product) ;; Ret (err_of r, tt)
     end) ;;
  recordUserProductBinding "unbind" user product t.1 ;;
  Ret (result_of t.1).
End Auth.
