(* ===== verification/AuthEndpoints.v ===== *)
(** The endpoints of users, tokens and session keys
    ([endpoints/openapi_v1/auth]): what a request does after its path and body
    have been decoded, the tags of its parameters included, and what is asked
    of the visitor before ([Authorizer] of the endpoint). *)
From Stdlib Require Import ZArith Lia Ascii.
From stdpp Require Import base tactics numbers list strings gmap option.
From S2P Require Import Prelude GoStrings GoTime Prog XCrypto Validate OperLog AuthModel AuthManager.

Local Open Scope string_scope.

(** * Answers *)

Record UserData : Type := mkUserData { ud_UserName : string; ud_Role : string; ud_SessionKey : string }.
Definition newUserData (user : User) : UserData :=
  mkUserData (u_Name user) (ScopesToRole (u_Scopes user) (u_Admin user)) "".

Record TokenData : Type := mkTokenData { td_Name : string; td_Token : string; td_Scope : string }.
Definition newTokenData (token : Token) (withToken : bool) : TokenData :=
  mkTokenData (tk_Name token) (if withToken then tk_Token token else "") (tk_Scope token).

(** * Parameters *)

Definition check_name (name : string) : verdict := min_len 1 name.
Definition TokenCreateParam_Validate (name scope : string) : verdict :=
  min_len 1 name &> one_of_values ["System"; "Support"] scope &> TokenName name &> Scope scope.
Definition UserCreateParam_Validate (userName password role : string) : verdict :=
  min_len 1 userName &> min_len 8 password &> UserName userName &> Password password userName &> Role role.
Definition UserUpdatePasswordParam_Validate (userName password : string) : verdict :=
  min_len 1 userName &> min_len 8 password &> UserNameRef userName &> Password password userName.
Definition UserUpdateRoleParam_Validate (userName role : string) : verdict :=
  min_len 1 userName &> UserNameRef userName &> Role role.

Section Endpoints.
Context `{!Crypto}.
Variable Error : goerr -> string.
Variable cfg : AuthConfig.
Variable ctx : AuthContext.

(** The authorizer of an endpoint before its handler. *)
Definition authorized {A} (auth : Authorization) (handler : prog authE (result A)) : prog authE (result A) :=
  _ <-? Authorizate cfg ctx auth ;; handler.

(** * Session keys *)

Definition SessionKeyByPasswordAction (fuel : nat) (userName password : string) : prog authE (option (result UserData)) :=
  match (check_name userName &> check_name password)%go with
  | Refuse e => Ret (Some (Err e))
  | Panic => Ret (Some (Err (PlainError "panic")))
  | Accept =>
      v <- Authenticate cfg fuel "Password" userName password ;;
      Ret (match v with
           | None => None
           | Some (Err e) => Some (Err e)
           | Some (Ok (VisitorToken _)) => Some (Err (PlainError "panic"))
           | Some (Ok (VisitorUser u)) =>
               let userData := newUserData u in
               Some (Ok (mkUserData (ud_UserName userData) (ud_Role userData) (u_SessionKey u)))
           end)
  end.

Definition SessionKeyDestroyAction (sessionKey : string) : prog authE (result unit) :=
  checked (check_name sessionKey) (DestroySessionKey Error cfg ctx sessionKey).

(** * Tokens *)

Definition TokenCreateAction (name scope : string) : prog authE (result string) :=
  checked (TokenCreateParam_Validate name scope)
    (token <-? CreateToken Error cfg ctx name scope None ;;
     Ret (Ok (tk_Token token))).
Definition TokenCreateEndpoint (name scope : string) : prog authE (result string) :=
  authorized (NewFeatureAuthorization FeatureToken ActionCreate) (TokenCreateAction name scope).

Definition byTokenName (name : string) : TokenFilter := mkTokenFilter [] (Some name) None.

Definition TokenDestroyAction (name : string) : prog authE (result unit) :=
  checked (check_name name)
    (tokens <-? FetchTokens (Some (byTokenName name)) ;;
     match tokens with
     | [token] => DeleteToken Error cfg ctx token
     | _ => Ret (Err (RecordNotExist "Token"))
     end).
Definition TokenDestroyEndpoint (name : string) : prog authE (result unit) :=
  authorized (NewFeatureAuthorization FeatureToken ActionDelete) (TokenDestroyAction name).

(** The loop changes the tokens it is given in place; nothing else has them. *)
Definition maskTokensIfReadonly (tokens : list TokenData) : result (list TokenData) :=
  match MustGetVisitor cfg ctx with
  | Err e => Err e
  | Ok v =>
      if negb (IsSystemReadonly v) then Ok tokens
      else Ok (map (fun t => mkTokenData (td_Name t) (Secret (td_Token t)) (td_Scope t)) tokens)
  end.

Definition TokenListAction : prog authE (result (list TokenData)) :=
  list <-? FetchTokens None ;;
  Ret (maskTokensIfReadonly (map (fun t => newTokenData t true) list)).
Definition TokenListEndpoint : prog authE (result (list TokenData)) :=
  authorized (NewFeatureAuthorization FeatureToken ActionReadAll) TokenListAction.

Definition TokenOneAction (name : string) : prog authE (result TokenData) :=
  checked (check_name name)
    (list <-? FetchTokens (Some (byTokenName name)) ;;
     match list with
     | [] => Ret (Err (RecordNotExist "Token"))
     | token :: _ =>
         Ret (match maskTokensIfReadonly [newTokenData token true] with
              | Ok (data :: _) => Ok data
              | Ok [] => Ok (newTokenData token true)
              | Err e => Err e
              end)
     end).
Definition TokenOneEndpoint (name : string) : prog authE (result TokenData) :=
  authorized (NewFeatureAuthorization FeatureToken ActionReadAll) (TokenOneAction name).

(** The route of this one is not registered. *)
Definition ProductTokenListAction : prog authE (result (list TokenData)) :=
  match MustGetProduct ctx with
  | Err e => Ret (Err e)
  | Ok product =>
      list <-? FetchProductTokens product ;;
      Ret (Ok (map (fun t => newTokenData t true) list))
  end.

(** * Users *)

Definition UserCreateAction (userName password role : string) : prog authE (result unit) :=
  checked (UserCreateParam_Validate userName password role)
    (if bool_decide (password = "") then Ret (Err (ParamError "password is required"))
     else match RoleToScopes role with
          | Err e => Ret (Err e)
          | Ok scopes =>
              CreateUser Error cfg ctx (mkUserParam (Some userName) (Some password) (Some scopes) None None)
          end).
Definition UserCreateEndpoint (userName password role : string) : prog authE (result unit) :=
  authorized (NewFeatureAuthorization FeatureUser ActionCreate) (UserCreateAction userName password role).

Definition UserDeleteAction (userName : string) : prog authE (result unit) :=
  checked (check_name userName) (DeleteUser Error cfg ctx userName).
Definition UserDeleteEndpoint (userName : string) : prog authE (result unit) :=
  authorized (NewFeatureAuthorization FeatureUser ActionDelete) (UserDeleteAction userName).

Definition UserListAction : prog authE (result (list UserData)) :=
  list <-? FetchUserList None ;; Ret (Ok (map newUserData list)).
Definition UserListEndpoint : prog authE (result (list UserData)) :=
  authorized (NewFeatureAuthorization FeatureUser ActionReadAll) UserListAction.

Definition UserOneAction (userName : string) : prog authE (result UserData) :=
  checked (check_name userName)
    (user <-? FetchUser (byUserName userName) ;;
     match user with
     | None => Ret (Err (RecordNotExist "User"))
     | Some user => Ret (Ok (newUserData user))
     end).
Definition UserOneEndpoint (userName : string) : prog authE (result UserData) :=
  authorized (NewFeatureAuthorization FeatureUser ActionReadAll) (UserOneAction userName).

Definition UserUpdatePasswordAction (userName oldPassword password : string) : prog authE (result unit) :=
  checked (UserUpdatePasswordParam_Validate userName password)
    (match MustGetVisitor cfg ctx with
     | Err e => Ret (Err e)
     | Ok user =>
         if bool_decide (GetName user = userName) && bool_decide (oldPassword = "")
         then Ret (Err (ParamError "Want Old Password"))
         else UpdateUserPassword Error cfg ctx userName oldPassword password
     end).
Definition UserUpdatePasswordEndpoint (userName oldPassword password : string) : prog authE (result unit) :=
  authorized (NewFeatureAuthorization FeatureUser ActionUpdate) (UserUpdatePasswordAction userName oldPassword password).

Definition UserUpdateRoleAction (userName role : string) : prog authE (result unit) :=
  checked (UserUpdateRoleParam_Validate userName role)
    (user <-? FetchUser (byUserName userName) ;;
     match user with
     | None => Ret (Err (RecordNotExist "User"))
     | Some user => UpdateUserRole Error cfg ctx user role
     end).
Definition UserUpdateRoleEndpoint (userName role : string) : prog authE (result unit) :=
  authorized (NewFeatureAuthorization FeatureUser ActionUpdate) (UserUpdateRoleAction userName role).

(** * Users of a product: the routes of these are not registered *)

Definition normalUser (userName : string) : UserFilter := mkUserFilter [] (Some userName) None (Some UserTypeNormal) [].

Definition user_and_product (userName : string) (change : User -> Product -> prog authE (result unit)) : prog authE (result unit) :=
  user <-? FetchUser (normalUser userName) ;;
  match MustGetProduct ctx with
  | Err e => Ret (Err e)
  | Ok product =>
      match user with
      | None => Ret (Err (RecordNotExist "User"))
      | Some user => change user product
      end
  end.
Definition ProductUserBindAction (userName : string) : prog authE (result unit) :=
  checked (check_name userName) (user_and_product userName (BindUserProduct Error cfg ctx)).
Definition ProductUserUnbindAction (userName : string) : prog authE (result unit) :=
  checked (check_name userName) (user_and_product userName (UnBindUserProduct Error cfg ctx)).

(** The type that the request may give is only checked. *)
Definition ProductUserListAction (type : option string) : prog authE (result (list UserData)) :=
  checked (match type with Some t => one_of_values ["jwt"; "normal"] t | None => Accept end)
    (match MustGetProduct ctx with
     | Err e => Ret (Err e)
     | Ok product =>
         list <-? FetchProductUsers product ;;
         Ret (Ok (map newUserData list))
     end).
End Endpoints.

(** A request to the registered endpoints of users, tokens and session keys,
    through the router: the visitor from its header ([McUserProbe]), the
    authorizer of the endpoint ([Endpoint.Register]), the handler. *)

Inductive auth_request : Type :=
| PostSessionKey (userName password : string)
| DeleteSessionKey (sessionKey : string)
| PostToken (name scope : string)
| DeleteTokenRequest (name : string)
| GetTokens
| GetToken (name : string)
| PostUser (userName password role : string)
| DeleteUserRequest (userName : string)
| GetUsers
| GetUser (userName : string)
| PatchPassword (userName oldPassword password : string)
| PatchRole (userName role : string).

Inductive auth_answer : Type :=
| NoData
| AnUser (u : UserData)
| Users (l : list UserData)
| ATokenValue (s : string)
| AToken (t : TokenData)
| Tokens (l : list TokenData).

Definition answering {E A} (f : A -> auth_answer) (p : prog E (result A)) : prog E (option (result auth_answer)) :=
  r <- p ;; Ret (Some (match r with Ok a => Ok (f a) | Err e => Err e end)).

Section Serve.
Context `{!Crypto}.
Variable Error : goerr -> string.
Variable cfg : AuthConfig.

(** [fuel] bounds the draws of a login. *)
Definition route (fuel : nat) (ctx : AuthContext) (q : auth_request) : prog authE (option (result auth_answer)) :=
  match q with
  | PostSessionKey u p =>
      r <- SessionKeyByPasswordAction cfg fuel u p ;;
      Ret (match r with None => None | Some (Ok d) => Some (Ok (AnUser d)) | Some (Err e) => Some (Err e) end)
  | DeleteSessionKey k => answering (fun _ => NoData) (SessionKeyDestroyAction Error cfg ctx k)
  | PostToken n s => answering ATokenValue (TokenCreateEndpoint Error cfg ctx n s)
  | DeleteTokenRequest n => answering (fun _ => NoData) (TokenDestroyEndpoint Error cfg ctx n)
  | GetTokens => answering Tokens (TokenListEndpoint cfg ctx)
  | GetToken n => answering AToken (TokenOneEndpoint cfg ctx n)
  | PostUser u p r => answering (fun _ => NoData) (UserCreateEndpoint Error cfg ctx u p r)
  | DeleteUserRequest u => answering (fun _ => NoData) (UserDeleteEndpoint Error cfg ctx u)
  | GetUsers => answering Users (UserListEndpoint cfg ctx)
  | GetUser u => answering AnUser (UserOneEndpoint cfg ctx u)
  | PatchPassword u o p => answering (fun _ => NoData) (UserUpdatePasswordEndpoint Error cfg ctx u o p)
  | PatchRole u r => answering (fun _ => NoData) (UserUpdateRoleEndpoint Error cfg ctx u r)
  end.

(** A request with its [Authorization] header; none of these routes names a
    product. *)
Definition serve (fuel : nat) (info : option RequestInfo) (header : string) (q : auth_request)
  : prog authE (option (result auth_answer)) :=
  c <- UserProbeAction cfg (mkAuthContext None None info) fuel header ;;
  match c with
  | None => Ret None
  | Some (Err e) => Ret (Some (Err e))
  | Some (Ok ctx) => route fuel ctx q
  end.

(** One request after the other. *)
Record incoming : Type := mkIncoming { in_fuel : nat; in_info : option RequestInfo; in_header : string; in_request : auth_request }.
Definition serve_all (l : list incoming) : prog authE unit :=
  for_each l tt (fun i _ => _ <- serve (in_fuel i) (in_info i) (in_header i) (in_request i) ;; Ret tt).
End Serve.
