(* ===== verification/AuthInvariant.v ===== *)
(** The rows of users and tokens: what every request keeps true of them. *)
From Stdlib Require Import ZArith Lia Ascii.
From stdpp Require Import base tactics numbers list strings gmap option.
From S2P Require Import Prelude GoStrings GoBase64 GoTime Prog XCrypto Validate OperLog AuthModel AuthManager AuthEndpoints.

Local Open Scope string_scope.

(** * Rows *)

(** The times that a row without a session key may carry: the default of the
    column, and what ends a session. *)
Definition no_session_time (t : gotime) : Prop := t = no_ticket_time \/ t = destroyed_time.

Definition sound_row (r : TUser) : Prop :=
  (tu_Type r = UserTypeNormal /\ tu_Scopes r ∈ [ScopeSystem; ScopeSystemReadonly] /\
   (tu_Ticket r = "" -> no_session_time (tu_TicketCreatedAt r))) \/
  (tu_Type r = UserTypeToken /\ tu_Scopes r ∈ [ScopeSystem; ScopeSupport] /\ tu_Ticket r <> "").

Record sound_rows (rows : list TUser) : Prop := mkSound {
  ids_differ : NoDup (map tu_ID rows);
  names_differ : NoDup (map (fun r => (tu_Name r, tu_Type r)) rows);
  keys_differ : forall r r', r ∈ rows -> r' ∈ rows -> tu_Type r = tu_Type r' -> tu_Ticket r = tu_Ticket r' ->
    tu_Ticket r <> "" -> r = r';
  rows_sound : forall r, r ∈ rows -> sound_row r
}.

(** No row of the type has the key. *)
Definition unused_key (type : Z) (key : string) (rows : list TUser) : Prop :=
  forall r, r ∈ rows -> tu_Type r = type -> tu_Ticket r <> key.

Lemma users_unique_spec rows : users_unique rows = true ->
  NoDup (map tu_ID rows) /\ NoDup (map (fun r => (tu_Name r, tu_Type r)) rows).
Proof. unfold users_unique. by rewrite andb_true_iff, !bool_decide_eq_true. Qed.

Lemma sound_filter p rows : sound_rows rows -> sound_rows (List.filter p rows).
Proof.
  intros [H1 H2 H3 H4]. assert (forall r, r ∈ List.filter p rows -> r ∈ rows) as Hin.
  { intros r. rewrite !list_elem_of_In. by intros [? _]%filter_In. }
  split; [by apply NoDup_map_filter..| |]; eauto.
Qed.

Lemma sound_app rows r : sound_rows rows -> users_unique (rows ++ [r])%list = true -> sound_row r ->
  (tu_Ticket r <> "" -> unused_key (tu_Type r) (tu_Ticket r) rows) -> sound_rows (rows ++ [r])%list.
Proof.
  intros [H1 H2 H3 H4] [Hi Hn]%users_unique_spec Hr Hk. split; [done..| |].
  - intros a b Ha Hb Ht E Hne. apply elem_of_app in Ha as [Ha|Ha%list_elem_of_singleton];
      apply elem_of_app in Hb as [Hb|Hb%list_elem_of_singleton]; subst; [by apply H3| | |done].
    + destruct (Hk ltac:(congruence) a Ha); congruence.
    + destruct (Hk Hne b Hb); congruence.
  - intros a [Ha|Ha%list_elem_of_singleton]%elem_of_app; subst; auto.
Qed.

Lemma where_byRowID id r : where_user (byRowID id) r = bool_decide (tu_ID r = id).
Proof. unfold where_user. cbn. by rewrite !andb_true_r. Qed.

(** The update of one row. *)
Definition updated (p : TUserParam) (id : Z) (rows : list TUser) : list TUser :=
  map (fun r => if where_user (byRowID id) r then assign_user p r else r) rows.

Lemma updated_elem p u rows r : NoDup (map tu_ID rows) -> u ∈ rows -> r ∈ updated p (tu_ID u) rows ->
  r = assign_user p u \/ (r ∈ rows /\ tu_ID r <> tu_ID u).
Proof.
  intros Hn Hu Hr. apply list_elem_of_In, in_map_iff in Hr as (x & Hx & Hin%list_elem_of_In).
  rewrite where_byRowID in Hx. case_bool_decide as E; subst r; [|by right].
  left. f_equal. by apply (NoDup_map_same tu_ID rows).
Qed.

Lemma updated_has p u rows : u ∈ rows -> assign_user p u ∈ updated p (tu_ID u) rows.
Proof.
  intros Hu. apply list_elem_of_In, in_map_iff. exists u. rewrite where_byRowID, bool_decide_eq_true_2 by done.
  split; [done|]. by apply list_elem_of_In.
Qed.

Lemma sound_updated p u rows : sound_rows rows -> u ∈ rows -> users_unique (updated p (tu_ID u) rows) = true ->
  sound_row (assign_user p u) ->
  (tu_Ticket (assign_user p u) <> "" -> forall r, r ∈ rows -> tu_ID r <> tu_ID u ->
   tu_Type r = tu_Type (assign_user p u) -> tu_Ticket r <> tu_Ticket (assign_user p u)) ->
  sound_rows (updated p (tu_ID u) rows).
Proof.
  intros Hs Hu [Hi Hn]%users_unique_spec Hr Hk. destruct Hs as [H1 H2 H3 H4]. split; [done..| |].
  - intros a b Ha Hb Ht E Hne.
    destruct (updated_elem p u rows a H1 Hu Ha) as [->|[Ha' Hia]], (updated_elem p u rows b H1 Hu Hb) as [->|[Hb' Hib]]; [done| | |by apply H3].
    + destruct (Hk Hne b Hb' Hib); congruence.
    + destruct (Hk ltac:(congruence) a Ha' Hia Ht); congruence.
  - intros a Ha. destruct (updated_elem p u rows a H1 Hu Ha) as [->|[Ha' _]]; auto.
Qed.

(** Triples for the storage of users and tokens, and the managers that use it:
    the rows stay sound, whatever calls fail. *)

(** * Assertions *)

(** The rows, and what a rollback would restore, are sound. *)
Definition sound_data (d : adata) (s : option adata) : Prop :=
  sound_rows (ad_users d) /\ forall d', s = Some d' -> sound_rows (ad_users d').
Definition auth_sound (w : aworld) : Prop := sound_data (aw_data w) (aw_saved w).

Definition holds (d : adata) (s : option adata) (w : aworld) : Prop := aw_data w = d /\ aw_saved w = s.

Lemma sound_holds {A} (p : prog authE A) (Post : A -> aworld -> Prop) :
  (forall d s, sound_data d s -> hoare (holds d s) p Post) -> hoare auth_sound p Post.
Proof. intros H os w Hw. by apply (H (aw_data w) (aw_saved w)). Qed.
Lemma holds_sound {A} d s (p : prog authE A) (Post : A -> aworld -> Prop) :
  sound_data d s -> hoare auth_sound p Post -> hoare (holds d s) p Post.
Proof. intros H Hp. eapply hoare_weaken; [|done|exact Hp]. intros w [<- <-]. exact H. Qed.

(** * Reading *)

Definition auth_reading (R : Type) (e : authE R) : Prop :=
  match e with
  | TUserList _ | TUserProductList _ | FetchProductRows _ | RandRead _ | DrawSalt | Now | RecordLog _ => True
  | _ => False
  end.

Lemma reading_holds R (e : authE R) d s w : auth_reading R e -> holds d s w -> holds d s (handle e w).2.
Proof. by destruct e. Qed.
Lemma hoare_reads {A} d s (p : prog authE A) : all_calls auth_reading p -> hoare (holds d s) p (fun _ => holds d s).
Proof. intros Hp. apply (hoare_keeps auth_reading); [|done]. intros R e w. apply reading_holds. Qed.
Lemma hoare_reads_sound {A} (p : prog authE A) : all_calls auth_reading p -> hoare auth_sound p (fun _ => auth_sound).
Proof.
  intros Hp. apply sound_holds. intros d s Hd. eapply hoare_weaken; [done| |by apply hoare_reads].
  by intros _ w [<- <-].
Qed.

Lemma hoare_user_list d s q : hoare (holds d s) (call (TUserList q)) (fun r w => holds d s w /\
  forall l, r = Ok l -> l = List.filter (where_user q) (ad_users d)).
Proof.
  apply hoare_call_cases; cbn.
  - intros w [<- <-]. split; [done|]. by intros l [= <-].
  - intros w r Hw [= <-]. split; (split; [done|discriminate]).
Qed.

(** The user that a row holds. *)
Definition user_row (rows : list TUser) (u : User) (r : TUser) : Prop :=
  r ∈ rows /\ tu_Type r = UserTypeNormal /\ u = userD2M r.

Lemma where_user_normal f r :
  where_user (userFilter2Param (mkUserFilter (uf_IDs f) (uf_Name f) (uf_SessionKey f) (Some UserTypeNormal) (uf_Types f))) r = true ->
  tu_Type r = UserTypeNormal /\ agrees (uf_Name f) (tu_Name r) = true /\ agrees (uf_SessionKey f) (tu_Ticket r) = true.
Proof.
  unfold where_user. cbn. rewrite !andb_true_iff. cbn. rewrite bool_decide_eq_true. tauto.
Qed.

Lemma where_key k r : where_user (userFilter2Param (mkUserFilter [] None (Some k) (Some UserTypeNormal) [])) r =
  bool_decide (tu_Type r = UserTypeNormal) && bool_decide (tu_Ticket r = k).
Proof. unfold where_user. cbn. by rewrite !andb_true_r. Qed.

(** The condition of a query for users. *)
Definition where_normal (f : UserFilter) : TUser -> bool :=
  where_user (userFilter2Param (mkUserFilter (uf_IDs f) (uf_Name f) (uf_SessionKey f) (Some UserTypeNormal) (uf_Types f))).

Lemma FetchUserRows_spec d s f : hoare (holds d s) (FetchUserRows (Some f)) (fun r w => holds d s w /\
  forall l, r = Ok l -> l = map userD2M (List.filter (where_normal f) (ad_users d))).
Proof.
  unfold FetchUserRows. cbn [default]. eapply hoare_bind; [apply hoare_user_list|].
  intros [l|e]; apply hoare_ret; intros w [Hw Hl]; (split; [done|]); [|discriminate].
  intros l' [= <-]. by rewrite (Hl l eq_refl).
Qed.

Lemma head_user f rows u : hd_error (map userD2M (List.filter (where_normal f) rows)) = Some u ->
  exists row, user_row rows u row /\ agrees (uf_Name f) (tu_Name row) = true /\ agrees (uf_SessionKey f) (tu_Ticket row) = true.
Proof.
  destruct (List.filter _ _) as [|r l] eqn:E; cbn; [done|]. intros [= <-].
  assert (In r (r :: l)) as Hr by (by left). rewrite <- E in Hr. apply filter_In in Hr as [Hin Hq].
  apply list_elem_of_In in Hin. apply where_user_normal in Hq as (Ht & Hn & Hk). by exists r.
Qed.

Lemma no_head_user f rows : hd_error (map userD2M (List.filter (where_normal f) rows)) = None ->
  forall row, row ∈ rows -> where_normal f row = false.
Proof.
  intros Hh row Hin. destruct (List.filter _ _) as [|r l] eqn:E; [|done]. apply not_true_iff_false. intros Hq.
  apply list_elem_of_In in Hin. assert (In row []) as []. rewrite <- E. by apply filter_In.
Qed.

Lemma FetchUserRow_spec d s f : hoare (holds d s) (FetchUserRow f) (fun r w => holds d s w /\
  match r with
  | Ok (Some u) => exists row, user_row (ad_users d) u row /\ agrees (uf_Name f) (tu_Name row) = true /\
      agrees (uf_SessionKey f) (tu_Ticket row) = true
  | Ok None => forall row, row ∈ ad_users d -> where_normal f row = false
  | Err _ => True
  end).
Proof.
  unfold FetchUserRow. eapply hoare_bind; [apply FetchUserRows_spec|].
  intros [l|e]; apply hoare_ret; intros w [Hw Hl]; (split; [done|]); [|done].
  rewrite (Hl l eq_refl). destruct (hd_error _) as [u|] eqn:E; [by apply head_user|by apply no_head_user].
Qed.

(** * Writing *)

Lemma hoare_update d s p q : sound_data d s ->
  (forall rows, rows = map (fun r => if where_user q r then assign_user p r else r) (ad_users d) ->
   users_unique rows = true -> sound_rows rows) ->
  hoare (holds d s) (call (TUserUpdate p q)) (fun _ => auth_sound).
Proof.
  intros Hd Hn. assert (forall w, holds d s w -> auth_sound (handle (TUserUpdate p q) w).2) as H.
  { intros w [<- <-]. cbn. destruct (users_unique _) eqn:E; cbn; [|done]. split; [by apply Hn|apply Hd]. }
  apply hoare_call_cases; [exact H|]. intros w r Hw _. split; [|by apply H]. by destruct Hw as [<- <-].
Qed.

Lemma hoare_create d s p : sound_data d s ->
  (forall id now r, insert_user id now p = Some r -> users_unique (ad_users d ++ [r])%list = true ->
   sound_rows (ad_users d ++ [r])%list) ->
  hoare (holds d s) (call (TUserCreate p)) (fun _ => auth_sound).
Proof.
  intros Hd Hn. assert (forall w, holds d s w -> auth_sound (handle (TUserCreate p) w).2) as H.
  { intros w [<- <-]. cbn -[insert_user]. destruct (insert_user _ _ p) as [r|] eqn:Er; [|done].
    destruct (users_unique _) eqn:E; cbn; [|done]. split; [by eapply Hn|apply Hd]. }
  apply hoare_call_cases; [exact H|]. intros w r Hw _. split; [|by apply H]. by destruct Hw as [<- <-].
Qed.

Lemma hoare_delete d s q : sound_data d s -> hoare (holds d s) (call (TUserDelete q)) (fun _ => auth_sound).
Proof.
  intros Hd. assert (forall w, holds d s w -> auth_sound (handle (TUserDelete q) w).2) as H.
  { intros w [<- <-]. destruct Hd as [H1 H2]. split; [by apply sound_filter|exact H2]. }
  apply hoare_call_cases; [exact H|]. intros w r Hw _. split; [|by apply H]. by destruct Hw as [<- <-].
Qed.

(** The calls that leave the rows of users alone. *)
Definition keeps_users (R : Type) (e : authE R) : Prop :=
  match e with TUserCreate _ | TUserUpdate _ _ | TUserDelete _ => False | _ => True end.
Lemma keeps_users_handle R (e : authE R) w : keeps_users R e -> auth_sound w -> auth_sound (handle e w).2.
Proof.
  intros He [H1 H2]. destruct e; try done; cbn.
  - split; [done|]. by intros d' [= <-].
  - unfold auth_sound, sound_data in *. destruct (aw_saved w) as [d|] eqn:E; cbn; [|by rewrite E]. split; [by apply H2|done].
  - destruct (bindings_unique _); by split.
Qed.
Lemma hoare_keeps_users {A} (p : prog authE A) : all_calls keeps_users p -> hoare auth_sound p (fun _ => auth_sound).
Proof. apply hoare_keeps. intros R e w. apply keeps_users_handle. Qed.

(** * Transactions *)

Lemma hoare_transaction {A} (init : A) body :
  hoare auth_sound body (fun _ => auth_sound) -> hoare auth_sound (AtomExecute init body) (fun _ => auth_sound).
Proof.
  intros Hb. unfold AtomExecute. eapply hoare_bind; [apply hoare_keeps_users; by constructor; [|constructor]|].
  intros [[]|e]; [|by apply hoare_ret].
  eapply hoare_bind; [exact Hb|]. intros [[e|] a]; apply hoare_keeps_users; calls_solve idtac; done.
Qed.

(** The same, from rows that are known. *)
Lemma begin_holds d s : hoare (holds d s) (call AuthBegin) (fun r w => match r with Ok _ => holds d (Some d) w | Err _ => holds d s w \/ holds d (Some d) w end).
Proof. apply hoare_call_cases; cbn; [by intros w [<- <-]|]. intros w r [<- <-] [= <-]. split; [by left|by right]. Qed.

Lemma transaction_holds {A} d s (init : A) body : sound_data d s ->
  hoare (holds d (Some d)) body (fun _ => auth_sound) -> hoare (holds d s) (AtomExecute init body) (fun _ => auth_sound).
Proof.
  intros Hd Hb. unfold AtomExecute. eapply hoare_bind; [apply begin_holds|].
  intros [[]|e]; [|apply hoare_ret; intros w [[<- <-]|[<- E]]; [done|]; split; [exact (proj1 Hd)|rewrite E; intros d' [= <-]; exact (proj1 Hd)]].
  eapply hoare_bind; [exact Hb|]. intros [[e|] a]; apply hoare_keeps_users; calls_solve idtac; done.
Qed.

(** A transaction that only reads leaves the rows as they are, and its
    variable as its body does, when it reports no error. *)
Lemma read_transaction_holds {A} d s (init : A) body (Q : A -> Prop) : sound_data d s ->
  (forall s, hoare (holds d s) body (fun r w => holds d s w /\ (r.1 = None -> Q r.2))) ->
  hoare (holds d s) (AtomExecute init body) (fun r w => aw_data w = d /\ auth_sound w /\ (r.1 = None -> Q r.2)).
Proof.
  intros Hd Hb. assert (forall w, holds d (Some d) w -> aw_data w = d /\ auth_sound w) as H1.
  { intros w [<- E]. split; [done|]. split; [exact (proj1 Hd)|]. rewrite E. intros d' [= <-]. exact (proj1 Hd). }
  unfold AtomExecute. eapply hoare_bind; [apply begin_holds|].
  intros [[]|e]; [|apply hoare_ret; cbn; intros w [[<- <-]|[<- E]]; (split; [done|split; [|discriminate]]); [done|];
    split; [exact (proj1 Hd)|rewrite E; intros d' [= <-]; exact (proj1 Hd)]].
  eapply hoare_bind; [apply Hb|]. intros [[e|] a]; cbn [fst snd].
  - eapply (hoare_bind _ _ _ (fun _ w => aw_data w = d /\ auth_sound w)); [|intros []; apply hoare_ret; intros w [? ?]; split; [done|split; [done|discriminate]]].
    apply hoare_call. intros o w [[Hw E] _]. destruct o; cbn; rewrite E;
      (split; [done|split; [exact (proj1 Hd)|done]]).
  - assert (forall w, aw_data w = d -> (aw_saved w = Some d \/ aw_saved w = None) -> auth_sound w) as H2.
    { intros w Hw Hs. split; [rewrite Hw; exact (proj1 Hd)|]. destruct Hs as [->| ->]; [intros d' [= <-]; exact (proj1 Hd)|done]. }
    eapply (hoare_bind _ _ _ (fun r w => aw_data w = d /\ (aw_saved w = Some d \/ aw_saved w = None) /\ Q a)).
    + apply hoare_call. intros o w [[Hw E] Hq]. destruct o; cbn; (split; [done|split; [by auto|by apply Hq]]).
    + intros [[]|e]; [apply hoare_ret; intros w (E & Hs & HQ); cbn; by auto|].
      eapply (hoare_bind _ _ _ (fun _ w => aw_data w = d /\ auth_sound w)); [|intros []; apply hoare_ret; intros w [? ?]; split; [done|split; [done|discriminate]]].
      apply hoare_call. intros o w (Hw & [E|E] & _); destruct o; cbn; rewrite E; cbn; (split; [done|]); apply H2; auto.
Qed.

(** * The operations of the storage *)

Definition change_sound (rows : list TUser) (p : UserParam) : Prop :=
  (forall l, up_Scopes p = Some l -> Join l "," ∈ [ScopeSystem; ScopeSystemReadonly]) /\
  match up_SessionKey p, up_SessionKeyCreateAt p with
  | None, None => True
  | Some k, Some t => (k = "" /\ no_session_time t) \/ (k <> "" /\ unused_key UserTypeNormal k rows)
  | _, _ => False
  end.

Lemma UpdateUserRow_sound d s u row p : sound_data d s -> user_row (ad_users d) u row -> change_sound (ad_users d) p ->
  hoare (holds d s) (UpdateUserRow u p) (fun _ => auth_sound).
Proof.
  intros Hd (Hin & Ht & ->) [Hsc Hk].
  apply (hoare_try _ _ _ (fun _ => auth_sound)); [|intros z; by apply hoare_ret].
  eapply hoare_post; [|apply (hoare_update d s); [exact Hd|]]; [by intros [?|?]|].
  intros rows -> Hu. destruct Hd as [Hd _]. apply (sound_updated _ row); [done..| |].
  - destruct (rows_sound _ Hd row Hin) as [(_ & Hs & Ht')|(Hc & _)]; [|unfold UserTypeNormal, UserTypeToken in *; congruence].
    left. cbn. split; [done|]. split.
    + destruct (up_Scopes p) as [l|] eqn:E; cbn; [by apply Hsc|done].
    + destruct (up_SessionKey p) as [k|], (up_SessionKeyCreateAt p) as [t|]; try done; cbn; try done.
      intros ->. by destruct Hk as [[_ Ht'']|[Hk _]].
  - cbn. intros Hne r Hr Hid Htr E. destruct (up_SessionKey p) as [k|], (up_SessionKeyCreateAt p) as [t|]; try done; cbn in *.
    + destruct Hk as [[-> _]|[_ Hk]]; [done|]. by apply (Hk r).
    + apply Hid. f_equal. apply (keys_differ _ Hd); congruence.
Qed.

Lemma CreateUserRow_sound d s p l : sound_data d s -> up_Scopes p = Some l -> Join l "," ∈ [ScopeSystem; ScopeSystemReadonly] ->
  up_SessionKey p = None -> up_SessionKeyCreateAt p = None -> hoare (holds d s) (CreateUserRow p) (fun _ => auth_sound).
Proof.
  intros Hd Hl Hs Hk Ht.
  apply (hoare_try _ _ _ (fun _ => auth_sound)); [|intros z; by apply hoare_ret].
  eapply hoare_post; [|apply (hoare_create d s); [exact Hd|]]; [by intros [?|?]|].
  intros id now r Hr Hu. unfold insert_user in Hr. cbn in Hr. destruct (up_Name p) as [n|]; [|done]. injection Hr as <-.
  apply sound_app; [apply (proj1 Hd)|done| |]; cbn; rewrite ?Hk, ?Ht, ?Hl; cbn; [|by intros []].
  left. cbn. rewrite ?Hk, ?Ht, ?Hl. split; [done|]. split; [exact Hs|]. intros _. by left.
Qed.

Lemma CreateTokenRow_sound d s n v sc : sound_data d s -> sc ∈ [ScopeSystem; ScopeSupport] -> v <> "" ->
  unused_key UserTypeToken v (ad_users d) ->
  hoare (holds d s) (CreateTokenRow (mkTokenParam (Some n) (Some v) (Some sc))) (fun _ => auth_sound).
Proof.
  intros Hd Hs Hv Hu.
  apply (hoare_try _ _ _ (fun _ => auth_sound)); [|intros z; by apply hoare_ret].
  eapply hoare_post; [|apply (hoare_create d s); [exact Hd|]]; [by intros [?|?]|].
  intros id now r Hr Huq. injection Hr as <-. apply sound_app; [apply (proj1 Hd)|done| |by intros _]. right. by repeat split.
Qed.

Lemma sessionKeyFactory_spec d s : hoare (holds d s) (sessionKeyFactory 15)
  (fun r w => holds d s w /\ forall k, r = Ok k -> k <> "").
Proof.
  unfold sessionKeyFactory. eapply hoare_bind.
  - apply (hoare_call _ _ (fun r w => holds d s w /\ forall bs, r = Ok bs -> exists b, bs = String.string_of_list_ascii (map b (seq 0 15)))).
    intros o w Hw. assert (answer o (RandRead 15) w = handle (RandRead 15) w) as -> by (by destruct o).
    cbn -[String.string_of_list_ascii map seq]. split; [exact Hw|]. destruct (aw_random w _) as [b|e]; [|done].
    intros bs [= <-]. by exists b.
  - intros [bs|e]; apply hoare_ret; intros w [Hw Hb]; (split; [done|]); [|done].
    intros k [= <-]. destruct (Hb bs eq_refl) as [b ->]. discriminate.
Qed.

(** The draws of a login end with a key that no user has. *)
Lemma fresh_session_key_spec d s fuel : hoare (holds d s) (fresh_session_key fuel)
  (fun r w => holds d s w /\ forall k, r = Some (Ok k) -> k <> "" /\ unused_key UserTypeNormal k (ad_users d)).
Proof.
  induction fuel as [|fuel IH]; cbn [fresh_session_key]; [apply hoare_ret; intros w Hw; split; [done|discriminate]|].
  eapply hoare_bind; [apply sessionKeyFactory_spec|]. intros [k|e]; [|apply hoare_ret; intros w [Hw _]; split; [exact Hw|discriminate]].
  apply hoare_fact. intros Hk. eapply hoare_bind; [apply FetchUserRow_spec|].
  intros [[u|]|e]; [exact (hoare_weaken _ _ _ _ _ (fun w H => proj1 H) (fun a w H => H) IH)| |apply hoare_ret; intros w [Hw _]; split; [exact Hw|discriminate]].
  apply hoare_ret. intros w [Hw Hn]. split; [done|]. intros k' [= <-]. split; [by apply Hk|].
  intros r Hr Ht E. specialize (Hn r Hr). unfold where_normal in Hn. cbn -[where_user] in Hn. rewrite where_key, !bool_decide_eq_true_2 in Hn by done. done.
Qed.

(** * The managers *)

Create HintDb auth.
Ltac auth_calls := repeat first [solve [auto with auth] | progress intros ? | calls_step | exact I | progress cbn [bind call]].

Section Managers.
Context `{!Crypto}.
Variable Error : goerr -> string.
Variable cfg : AuthConfig.
Variable ctx : AuthContext.

Lemma record_reads action t i n p before after err : all_calls auth_reading (recordAuthOperation Error cfg ctx action t i n p before after err).
Proof. unfold recordAuthOperation. destruct (ac_hasLog cfg); auth_calls. Qed.
Lemma fetch_tokens_reads f : all_calls auth_reading (FetchTokenRows f).
Proof. unfold FetchTokenRows. auth_calls. Qed.
Lemma fetch_users_reads f : all_calls auth_reading (FetchUserRows f).
Proof. unfold FetchUserRows. auth_calls. Qed.
Lemma batch_products_reads l : all_calls auth_reading (BatchFetchTokenProduct l).
Proof. unfold BatchFetchTokenProduct. auth_calls. Qed.
#[local] Hint Resolve record_reads fetch_tokens_reads fetch_users_reads batch_products_reads : auth.
Lemma user_record_reads action i n p before after err : all_calls auth_reading (recordUserOperation Error cfg ctx action i n p before after err).
Proof. apply record_reads. Qed.
Lemma token_record_reads action i n p before after err : all_calls auth_reading (recordTokenOperation Error cfg ctx action i n p before after err).
Proof. apply record_reads. Qed.
#[local] Hint Resolve user_record_reads token_record_reads : auth.

Lemma reads_then {A B} (p : prog authE A) (f : A -> prog authE B) :
  hoare auth_sound p (fun _ => auth_sound) -> (forall a, all_calls auth_reading (f a)) -> hoare auth_sound (bind p f) (fun _ => auth_sound).
Proof. intros Hp Hf. eapply hoare_bind; [exact Hp|]. intros a. by apply hoare_reads_sound. Qed.
Lemma read_transaction {A} (init : A) body : all_calls auth_reading body -> hoare auth_sound (AtomExecute init body) (fun _ => auth_sound).
Proof. intros Hb. apply hoare_transaction. by apply hoare_reads_sound. Qed.
Lemma read_only_sound {A} (init : A) body : all_calls auth_reading body -> hoare auth_sound (read_only init body) (fun _ => auth_sound).
Proof. intros Hb. unfold read_only. apply reads_then; [apply read_transaction|]; auth_calls. Qed.
Lemma FetchTokens_sound f : hoare auth_sound (FetchTokens f) (fun _ => auth_sound).
Proof. unfold FetchTokens. apply reads_then; [apply read_transaction|]; auth_calls. Qed.
Lemma FetchUserList_sound f : hoare auth_sound (FetchUserList f) (fun _ => auth_sound).
Proof. unfold FetchUserList. apply reads_then; [apply read_transaction|]; auth_calls. Qed.

(** A change of a user that was found. *)
Lemma change_user_sound f missing change :
  (forall d s u row, sound_data d s -> user_row (ad_users d) u row -> hoare (holds d s) (change u) (fun _ => auth_sound)) ->
  hoare auth_sound (change_user f missing change) (fun _ => auth_sound).
Proof.
  intros Hc. unfold change_user. apply sound_holds. intros d s Hd.
  eapply hoare_bind; [apply FetchUserRow_spec|].
  intros [[u|]|e]; [|apply hoare_ret; by intros w [[<- <-] _]..].
  apply (hoare_given (exists row, user_row (ad_users d) u row) (holds d s)).
  { intros w (Hw & row & Hr & _). split; [by exists row|done]. }
  intros [row Hr]. eapply hoare_bind; [by apply (Hc d s u row)|]. intros r. by apply hoare_ret.
Qed.

Lemma end_session_sound rows p : up_Scopes p = None -> up_SessionKey p = Some "" -> up_SessionKeyCreateAt p = Some destroyed_time ->
  change_sound rows p.
Proof. intros H1 H2 H3. unfold change_sound. rewrite H1, H2, H3. split; [done|]. left. split; [done|]. by right. Qed.

Lemma DestroySessionKey_sound k : hoare auth_sound (DestroySessionKey Error cfg ctx k) (fun _ => auth_sound).
Proof.
  unfold DestroySessionKey. apply reads_then; [|intros [err u]; auth_calls].
  apply hoare_transaction, change_user_sound. intros d s u row Hd Hr. eapply UpdateUserRow_sound; [done..|].
  by apply end_session_sound.
Qed.

Lemma DeleteUser_sound n : hoare auth_sound (DeleteUser Error cfg ctx n) (fun _ => auth_sound).
Proof.
  unfold DeleteUser. apply reads_then; [|intros [err u]; auth_calls].
  apply hoare_transaction, change_user_sound. intros d s u row Hd Hr.
  apply (hoare_try _ _ _ (fun _ => auth_sound)).
  - apply (hoare_try _ _ _ (fun _ => auth_sound)); [|intros z; by apply hoare_ret].
    eapply hoare_post; [|by apply hoare_delete]. by intros [?|?].
  - intros z. apply hoare_keeps_users. unfold unbindTokenAllProduct. auth_calls.
Qed.

Lemma UpdateUserPassword_sound n o p : hoare auth_sound (UpdateUserPassword Error cfg ctx n o p) (fun _ => auth_sound).
Proof.
  unfold UpdateUserPassword, hash_password. destruct (passwordCheck p) as [e|]; [by apply hoare_ret|].
  eapply hoare_bind; [apply hoare_reads_sound; auth_calls|]. intros [hashed|e]; [|by apply hoare_ret].
  apply reads_then; [|intros [err u]; auth_calls].
  apply hoare_transaction, change_user_sound. intros d s u row Hd Hr.
  destruct (negb _ && negb _); [apply hoare_ret; by intros w [<- <-]|]. eapply UpdateUserRow_sound; [done..|].
  by apply end_session_sound.
Qed.

Lemma password_body_sound fuel n p : hoare auth_sound (password_body cfg fuel n p) (fun _ => auth_sound).
Proof.
  unfold password_body. apply sound_holds. intros d s Hd. eapply hoare_bind; [apply FetchUserRow_spec|].
  intros [[u|]|e]; [|apply hoare_ret; by intros w [[<- <-] _]..].
  apply (hoare_given (exists row, user_row (ad_users d) u row) (holds d s)).
  { intros w (Hw & row & Hr & _). split; [by exists row|done]. }
  intros [row Hr]. destruct (CheckPassword _ _) as [ok mig]. destruct (negb ok); [apply hoare_ret; by intros w [<- <-]|].
  eapply hoare_bind; [apply (hoare_reads d s); destruct mig; auth_calls|].
  intros [h|e]; [|apply hoare_ret; by intros w [<- <-]]. eapply hoare_bind; [apply fresh_session_key_spec|].
  intros [[k|e]|]; [|apply hoare_ret; by intros w [[<- <-] _]..].
  apply hoare_fact. intros Hk. destruct (Hk k eq_refl) as [Hne Hu].
  eapply hoare_bind; [apply (hoare_reads d s); auth_calls|]. intros now.
  apply (hoare_bind _ _ _ (fun _ => auth_sound)); [|intros r; by apply hoare_ret]. eapply UpdateUserRow_sound; [done..|].
  split; [done|]. by right.
Qed.

Lemma Authenticate_sound fuel t i e : hoare auth_sound (Authenticate cfg fuel t i e) (fun _ => auth_sound).
Proof.
  unfold Authenticate. case_bool_decide; [|case_bool_decide; [|case_bool_decide; [|case_bool_decide]]].
  - unfold authTypePassword. apply reads_then; [|intros [[?|] [[?|]|]]; auth_calls]. apply hoare_transaction, password_body_sound.
  - apply hoare_reads_sound. unfold authTypeSession, FetchUserRow. auth_calls.
  - apply hoare_reads_sound. unfold authTypeToken. auth_calls.
  - apply hoare_reads_sound. unfold authTypeSkip. auth_calls.
  - by apply hoare_ret.
Qed.
End Managers.
