(* ===== verification/AuthHistory.v ===== *)
(** Every request to the endpoints of users and tokens keeps their rows sound,
    and so does every history of requests. *)
From Stdlib Require Import ZArith Lia Ascii.
From stdpp Require Import base tactics numbers list strings gmap option.
From S2P Require Import Prelude GoStrings GoBase64 GoTime Prog XCrypto Validate OperLog AuthModel AuthManager AuthEndpoints AuthInvariant.

Local Open Scope string_scope.

Definition keeps_sound {A} (p : prog authE A) : Prop := hoare auth_sound p (fun _ => auth_sound).

Lemma sound_bind {A B} (p : prog authE A) (f : A -> prog authE B) :
  keeps_sound p -> (forall a, keeps_sound (f a)) -> keeps_sound (bind p f).
Proof. apply hoare_bind. Qed.
Lemma sound_ret {A} (a : A) : keeps_sound (Ret a).
Proof. by apply hoare_ret. Qed.

Section Requests.
Context `{!Crypto}.
Variable Error : goerr -> string.
Variable cfg : AuthConfig.

#[local] Hint Resolve record_reads fetch_tokens_reads fetch_users_reads batch_products_reads user_record_reads token_record_reads : auth.

(** * Tokens *)

Lemma unused_token d v l : l = List.filter (where_user (tokenFilter2Param (Some (mkTokenFilter [] None (Some v))))) (ad_users d) ->
  l = [] -> unused_key UserTypeToken v (ad_users d).
Proof.
  intros -> Hn r Hr Ht E. assert (In r []) as []. rewrite <- Hn. apply filter_In. split; [by apply list_elem_of_In|].
  unfold where_user. cbn. by rewrite !bool_decide_eq_true_2.
Qed.

Lemma FetchTokenRows_spec d s f : hoare (holds d s) (FetchTokenRows f) (fun r w => holds d s w /\
  forall l, r = Ok l -> l = map tokenD2M (List.filter (where_user (tokenFilter2Param f)) (ad_users d))).
Proof.
  unfold FetchTokenRows. eapply hoare_bind; [apply hoare_user_list|]. intros [l|e]; apply hoare_ret; intros w [Hw Hl]; (split; [done|]).
  - intros l' [= <-]. by rewrite (Hl l eq_refl).
  - discriminate.
Qed.

Lemma store_token_sound ctx d s n sc v : sound_data d s -> sc ∈ [ScopeSystem; ScopeSupport] -> v <> "" ->
  unused_key UserTypeToken v (ad_users d) -> hoare (holds d s) (store_token n sc v ctx) (fun _ => auth_sound).
Proof.
  intros Hd Hs Hv Hu. unfold store_token. apply (hoare_bind _ _ _ (fun _ => auth_sound)); [by apply CreateTokenRow_sound|].
  intros [z|e]; [|by apply hoare_ret]. apply (hoare_bind _ _ _ (fun _ => auth_sound)); [apply hoare_reads_sound; auth_calls|].
  intros [[|t l]|e]; [by apply hoare_ret| |by apply hoare_ret].
  apply hoare_keeps_users. destruct ctx; [|auth_calls]. unfold bindUserProduct, TUserProductOne. auth_calls.
Qed.

Lemma draw_token_sound d s n sc p k : sound_data d s -> sc ∈ [ScopeSystem; ScopeSupport] ->
  forall err, hoare (holds d s) (draw_token k err n sc p) (fun _ => auth_sound).
Proof.
  intros Hd Hs. induction k as [|k IH]; intros err; cbn [draw_token]; [apply hoare_ret; by intros w [<- <-]|].
  eapply hoare_bind; [apply sessionKeyFactory_spec|].
  intros [v|e]; [|exact (hoare_weaken _ _ _ _ _ (fun w H => proj1 H) (fun a w H => H) (IH _))].
  apply hoare_fact. intros Hv. eapply hoare_bind; [apply FetchTokenRows_spec|].
  intros [[|t l]|e]; [|exact (hoare_weaken _ _ _ _ _ (fun w H => proj1 H) (fun a w H => H) (IH _))..].
  apply hoare_fact. intros Hl. apply store_token_sound; [done|done|by apply Hv|].
  specialize (Hl [] eq_refl). symmetry in Hl. apply map_eq_nil in Hl. by eapply unused_token.
Qed.

Lemma CreateToken_sound ctx n sc p : sc ∈ [ScopeSystem; ScopeSupport] -> keeps_sound (CreateToken Error cfg ctx n sc p).
Proof.
  intros Hs. unfold CreateToken. apply reads_then; [|intros [[e|] [t|]]; auth_calls].
  apply hoare_transaction, sound_holds. intros d s Hd. unfold create_token_body.
  eapply hoare_bind; [apply (hoare_reads d s); auth_calls|].
  intros [[|t l]|e]; [by apply draw_token_sound|apply hoare_ret; by intros w [<- <-]|by apply draw_token_sound].
Qed.

Lemma DeleteToken_sound ctx t : keeps_sound (DeleteToken Error cfg ctx t).
Proof.
  unfold DeleteToken. apply reads_then; [|intros [e z]; auth_calls]. apply hoare_transaction.
  apply (hoare_bind _ _ _ (fun _ => auth_sound)).
  - apply (hoare_try _ _ _ (fun _ => auth_sound)); [|intros z; by apply hoare_ret].
    apply sound_holds. intros d s Hd. eapply hoare_post; [|by apply hoare_delete]. by intros [?|?].
  - intros [z|e]; [|by apply hoare_ret]. apply hoare_keeps_users. unfold unbindTokenAllProduct. auth_calls.
Qed.

(** * Users *)

Lemma role_scopes role scopes : RoleToScopes role = Ok scopes -> Join scopes "," ∈ [ScopeSystem; ScopeSystemReadonly].
Proof. unfold RoleToScopes. repeat case_bool_decide; intros [= <-]; [left|right; left]. Qed.

Lemma CreateUser_sound ctx n pw l : Join l "," ∈ [ScopeSystem; ScopeSystemReadonly] ->
  keeps_sound (CreateUser Error cfg ctx (mkUserParam (Some n) (Some pw) (Some l) None None)).
Proof.
  intros Hl. unfold CreateUser. cbn [up_Password up_Name up_Scopes up_SessionKey up_SessionKeyCreateAt].
  destruct (passwordCheck pw); [by apply hoare_ret|]. unfold hash_password.
  eapply hoare_bind; [apply hoare_reads_sound; auth_calls|]. intros [h|e]; [|by apply hoare_ret].
  unfold create_hashed. apply reads_then; [|auth_calls]. apply hoare_transaction, sound_holds. intros d s Hd.
  eapply hoare_bind; [apply (hoare_reads d s); unfold FetchUserRow; auth_calls|].
  intros [[u|]|e]; [apply hoare_ret; by intros w [<- <-]| |apply hoare_ret; by intros w [<- <-]].
  apply (hoare_bind _ _ _ (fun _ => auth_sound)); [|intros r; by apply hoare_ret]. by eapply (CreateUserRow_sound d s _ l).
Qed.

(** What [FetchUser] finds stays while the rows do. *)
Lemma FetchUser_holds d s name : sound_data d s -> hoare (holds d s) (FetchUser (byUserName name)) (fun r w =>
  aw_data w = d /\ auth_sound w /\ forall u, r = Ok (Some u) -> exists row, user_row (ad_users d) u row /\ tu_Name row = name).
Proof.
  intros Hd. unfold FetchUser, FetchUserList.
  apply (hoare_try _ _ _ (fun l w => aw_data w = d /\ auth_sound w /\ forall u, hd_error l = Some u ->
    exists row, user_row (ad_users d) u row /\ tu_Name row = name)).
  - eapply hoare_bind; [apply (read_transaction_holds d s _ _ (fun l => forall u, hd_error l = Some u ->
      exists row, user_row (ad_users d) u row /\ tu_Name row = name)); [exact Hd|]|].
    + intros s'. eapply hoare_bind; [apply FetchUserRows_spec|].
      intros [l|e]; apply hoare_ret; intros w [Hw Hl]; (split; [exact Hw|]); [|discriminate].
      intros _ u Hu. cbn in Hu. rewrite (Hl l eq_refl) in Hu. destruct (head_user _ _ _ Hu) as (row & H1 & H2 & _).
      exists row. split; [exact H1|]. by apply bool_decide_eq_true in H2.
    + intros [[e|] l]; apply hoare_ret; intros w (H1 & H2 & H3); [by split|]. split; [done|]. split; [done|by apply H3].
  - intros l. apply hoare_ret. intros w (H1 & H2 & H3). split; [done|]. split; [done|]. intros u [= Hu]. by apply H3.
Qed.

Lemma UpdateUserRole_sound ctx d s u row role : sound_data d s -> user_row (ad_users d) u row ->
  hoare (holds d s) (UpdateUserRole Error cfg ctx u role) (fun _ => auth_sound).
Proof.
  intros Hd Hr. unfold UpdateUserRole. destruct (RoleToScopes role) as [l|e] eqn:E; [|apply hoare_ret; by intros w [<- <-]].
  destruct (_ && _); [apply hoare_ret; by intros w [<- <-]|].
  eapply hoare_bind; [|intros a; apply hoare_reads_sound; auth_calls]. apply transaction_holds; [done|].
  apply (hoare_bind _ _ _ (fun _ => auth_sound)); [|intros r; by apply hoare_ret]. unfold UpdateUserScopes.
  assert (sound_data d (Some d)) as Hd' by (split; [exact (proj1 Hd)|intros d' [= <-]; exact (proj1 Hd)]).
  apply (UpdateUserRow_sound d _ u row); [done..|]. split; [|done]. intros l' [= <-]. by eapply role_scopes.
Qed.

(** * Endpoints *)

Lemma Authorizate_sound ctx auth : keeps_sound (Authorizate cfg ctx auth).
Proof.
  unfold keeps_sound, Authorizate. destruct (MustGetVisitor _ _); [|by apply hoare_ret].
  destruct (IsAdmin _); [by apply hoare_ret|]. destruct (negb _); [by apply hoare_ret|].
  destruct (az_ValidateProduct auth); [|by apply hoare_ret]. destruct (MustGetProduct _); [|by apply hoare_ret].
  unfold IsVisitorProductGranted, isTokenProductGranted, TUserProductOne.
  eapply hoare_bind; [apply read_only_sound; auth_calls|]. intros [[]|e]; by apply hoare_ret.
Qed.

Lemma authorized_sound {A} ctx auth (h : prog authE (result A)) : keeps_sound h -> keeps_sound (authorized cfg ctx auth h).
Proof.
  intros Hh. eapply hoare_bind; [apply Authorizate_sound|]. intros [[]|e]; [exact Hh|by apply hoare_ret].
Qed.
Lemma checked_sound {A} v (p : prog authE (result A)) : (v = Accept -> keeps_sound p) -> keeps_sound (checked v p).
Proof. intros Hp. destruct v; [by apply Hp|by apply hoare_ret..]. Qed.
Lemma answering_sound {A} (f : A -> auth_answer) p : keeps_sound p -> keeps_sound (answering f p).
Proof. intros Hp. eapply hoare_bind; [exact Hp|]. intros r. by apply hoare_ret. Qed.
Lemma then_answers {A B} (p : prog authE (result A)) (f : A -> result B) : keeps_sound p ->
  keeps_sound (a <-? p ;; Ret (f a)).
Proof. intros Hp. eapply hoare_bind; [exact Hp|]. intros [a|e]; by apply hoare_ret. Qed.

Lemma accepted_scope n s : TokenCreateParam_Validate n s = Accept -> s ∈ [ScopeSystem; ScopeSupport].
Proof.
  unfold TokenCreateParam_Validate, one_of_values. destruct (min_len 1 n); [|done..]. cbn [andthen].
  unfold refuse_if. destruct (negb _) eqn:E; [done|]. intros _. apply negb_false_iff, bool_decide_eq_true in E. exact E.
Qed.

Lemma login_sound fuel n p : keeps_sound (SessionKeyByPasswordAction cfg fuel n p).
Proof.
  unfold SessionKeyByPasswordAction. destruct (check_name n &> check_name p)%go; [|apply sound_ret..].
  apply sound_bind; [apply Authenticate_sound|]. intros [[[u|t]|e]|]; apply sound_ret.
Qed.

Lemma route_sound fuel ctx q : keeps_sound (route Error cfg fuel ctx q).
Proof.
  destruct q; cbn [route];
    try (apply answering_sound; first [apply authorized_sound|unfold SessionKeyDestroyAction];
         try (apply checked_sound; intros Hv)).
  - apply sound_bind; [apply login_sound|]. intros [[?|?]|]; apply sound_ret.
  - apply DestroySessionKey_sound.
  - apply then_answers, CreateToken_sound. by eapply accepted_scope.
  - eapply hoare_bind; [apply FetchTokens_sound|]. intros [[|t [|t' l]]|e]; try by apply hoare_ret. apply DeleteToken_sound.
  - apply then_answers, FetchTokens_sound.
  - eapply hoare_bind; [apply FetchTokens_sound|]. intros [[|t l]|e]; by apply hoare_ret.
  - case_bool_decide; [by apply hoare_ret|]. destruct (RoleToScopes role) as [l|e] eqn:E; [|by apply hoare_ret].
    eapply CreateUser_sound, role_scopes, E.
  - apply DeleteUser_sound.
  - apply then_answers, FetchUserList_sound.
  - unfold FetchUser. eapply hoare_bind; [apply then_answers, FetchUserList_sound|]. intros [[u|]|e]; by apply hoare_ret.
  - destruct (MustGetVisitor _ _); [|by apply hoare_ret]. destruct (_ && _); [by apply hoare_ret|]. apply UpdateUserPassword_sound.
  - apply sound_holds. intros d s Hd. eapply hoare_bind; [by apply FetchUser_holds|].
    intros [[u|]|e]; [|apply hoare_ret; by intros w (_ & ? & _)..].
    apply (hoare_given (exists row, user_row (ad_users d) u row) (fun w => aw_data w = d /\ auth_sound w)).
    { intros w (H1 & H2 & H3). destruct (H3 u eq_refl) as (row & Hr & _). split; [by exists row|done]. }
    intros [row Hr] os w [H1 H2]. apply (UpdateUserRole_sound ctx d (aw_saved w) u row); [|done|done].
    unfold auth_sound in H2. by rewrite H1 in H2.
Qed.

Lemma serve_sound fuel info header q : keeps_sound (serve Error cfg fuel info header q).
Proof.
  unfold serve. eapply (hoare_bind _ _ _ (fun _ => auth_sound)).
  - unfold UserProbeAction. case_bool_decide; [by apply hoare_ret|]. destruct (Cut header " ") as [[t i]|]; [|by apply hoare_ret].
    eapply hoare_bind; [apply Authenticate_sound|]. intros [[?|?]|]; by apply hoare_ret.
  - intros [[c|e]|]; [apply route_sound|by apply hoare_ret..].
Qed.

Lemma serve_all_sound (history : list incoming) : keeps_sound (serve_all Error cfg history).
Proof.
  intros os w Hw. apply (exec_for_each_stable (fun w w' => auth_sound w -> auth_sound w')); [|exact Hw].
  intros i s os' w' _ Hw'. revert os' w' Hw'.
  change (keeps_sound (_ <- serve Error cfg (in_fuel i) (in_info i) (in_header i) (in_request i) ;; Ret tt)).
  eapply hoare_bind; [apply serve_sound|]. intros a. by apply hoare_ret.
Qed.

(** C6: whatever requests reach the endpoints of users, tokens and session
    keys, by whatever visitors, and whatever calls fail or lose their answer
    on the way, the rows stay sound: no two have the same id, nor the same
    name and type; no session key is shared by two users and no value by two
    tokens; a user has one of the two roles, a token one of its two scopes and
    a value; and a user without a session key carries a date from which no
    session can start. *)
Theorem rows_stay_sound (history : list incoming) os w :
  auth_sound w -> auth_sound (exec os (serve_all Error cfg history) w).2.
Proof.
  apply serve_all_sound.
Qed.
End Requests.

(** * A sample *)

Definition sample_config : AuthConfig := mkAuthConfig false 7 4 0 true.
Definition sample_clock (n : nat) : gotime := date_time 2026 3 1 8 0 (Z.of_nat n) 0.
Definition sample_random (n : nat) : result (nat -> ascii) := Ok (fun i => ascii_of_nat (17 * n + i)).
Definition admin_row : TUser := mkTUser 1 "admin" UserTypeNormal "first-secret" "" no_ticket_time ScopeSystem (sample_clock 0).
Definition first_world : aworld :=
  mkAWorld (mkAData [admin_row] []) None 2 [] sample_clock 0 sample_random (fun _ => "salt") 0 [].

Lemma first_world_sound : auth_sound first_world.
Proof.
  split; [|done]. split; [vm_compute; repeat constructor; set_solver..| |].
  - by intros r r' ->%list_elem_of_singleton ->%list_elem_of_singleton.
  - intros r ->%list_elem_of_singleton. left. split; [done|]. split; [left|]. by left.
Qed.

(** The administrator logs in and creates a user, who logs in. *)
Definition sample_history : list incoming :=
  [mkIncoming 2 None "" (PostSessionKey "admin" "first-secret");
   mkIncoming 2 None "Session ERITFBUWFxgZGhscHR4f" (PostUser "reader" "another-secret" RoleSystemAdminReadonly);
   mkIncoming 2 None "" (PostSessionKey "reader" "another-secret")].
Definition sample_error (e : goerr) : string := "error".
Definition sample_world : aworld := (exec [] (serve_all sample_error sample_config sample_history) first_world).2.

Example rows_stay_sound_witness :
  map (fun r => (tu_Name r, tu_Ticket r, tu_Scopes r)) (aw_users sample_world) =
    [("admin", "ERITFBUWFxgZGhscHR4f", "System"); ("reader", "MzQ1Njc4OTo7PD0-P0BB", "SystemReadonly")] /\
  auth_sound sample_world.
Proof.
  split; [vm_compute; reflexivity|]. apply (rows_stay_sound sample_error sample_config sample_history [] first_world), first_world_sound.
Defined.
