(* ===== verification/AuthLogin.v ===== *)
(** Sessions: what a login needs and gives, what ends a session, that no session
    has an empty key, and that the draws of a session key come to an end. *)
From Stdlib Require Import ZArith Lia Ascii.
From stdpp Require Import base tactics numbers list strings gmap option.
From S2P Require Import Prelude GoStrings GoBase64 GoTime Prog XCrypto Validate OperLog AuthModel AuthManager AuthEndpoints AuthInvariant AuthHistory.

Local Open Scope string_scope.

#[local] Arguments AddDays : simpl never.

(** * What a query by a session key finds *)

(** The user that a session key belongs to. *)
Definition key_holder (rows : list TUser) (k : string) : option TUser :=
  hd_error (List.filter (where_normal (bySessionKey k)) rows).

Lemma key_holder_spec rows k r : key_holder rows k = Some r ->
  r ∈ rows /\ tu_Type r = UserTypeNormal /\ tu_Ticket r = k.
Proof.
  unfold key_holder. destruct (List.filter _ _) as [|r' l] eqn:E; [done|]. intros [= <-].
  assert (In r' (r' :: l)) as Hr by (by left). rewrite <- E in Hr. apply filter_In in Hr as [Hin Hq].
  unfold where_normal in Hq. cbn -[where_user] in Hq. rewrite where_key, andb_true_iff, !bool_decide_eq_true in Hq.
  split; [by apply list_elem_of_In|tauto].
Qed.

Lemma key_holder_none rows k : unused_key UserTypeNormal k rows -> key_holder rows k = None.
Proof. intros Hu. destruct (key_holder rows k) as [r|] eqn:E; [|done]. apply key_holder_spec in E as (H1 & H2 & H3). by destruct (Hu r H1 H2). Qed.

Lemma key_holder_some rows k r : sound_rows rows -> r ∈ rows -> tu_Type r = UserTypeNormal -> tu_Ticket r = k -> k <> "" ->
  key_holder rows k = Some r.
Proof.
  intros Hs Hr Ht Hk Hne. destruct (key_holder rows k) as [r'|] eqn:E.
  - apply key_holder_spec in E as (H1 & H2 & H3). f_equal. apply (keys_differ _ Hs); congruence.
  - unfold key_holder in E. destruct (List.filter _ _) as [|x l] eqn:Ef; [|done].
    assert (In r []) as []. rewrite <- Ef. apply filter_In. split; [by apply list_elem_of_In|].
    unfold where_normal. cbn -[where_user]. by rewrite where_key, !bool_decide_eq_true_2.
Qed.

Section Sessions.
Context `{!Crypto}.
Variable Error : goerr -> string.
Variable cfg : AuthConfig.

Definition expired (from now : gotime) : bool := (AddDays (ac_zone cfg) from (ac_SessionExpireInDay cfg) <? now)%Z.

(** A session key is as good as the row that has it, unless a call fails. *)
Lemma session_outcome k os w :
  (exec os (authTypeSession cfg k) w).1 =
    match hd Normal os with
    | Normal =>
        match key_holder (aw_users w) k with
        | None => Err (AuthenticateFail "Session Key Wrong")
        | Some r => if expired (tu_TicketCreatedAt r) (aw_now w) then Err (AuthenticateFail "Session Key Expired")
                    else Ok (VisitorUser (userD2M r))
        end
    | _ => Err DaoError
    end.
Proof.
  unfold authTypeSession, FetchUserRow, FetchUserRows. cbn [bind call default]. rewrite exec_call.
  destruct (hd Normal os); cbn -[where_user userFilter2Param List.filter]; [|done..].
  unfold key_holder, where_normal. cbn -[where_user userFilter2Param List.filter].
  destruct (List.filter _ _) as [|r l]; cbn [hd_error map bind]; [reflexivity|]. rewrite exec_call.
  assert (answer (hd Normal (tl os)) Now w = handle Now w) as -> by (by destruct (hd Normal (tl os))).
  cbn [handle auth_interp auth_handle fst snd u_SessionKeyCreateAt userD2M]. unfold expired.
  destruct (AddDays _ _ _ <? _)%Z; reflexivity.
Qed.

(** * What a change that works has done *)

Lemma transaction_works {A} d s (init : A) body (Q : A -> aworld -> Prop) :
  (forall a w, Q a w -> Q a (put_asaved None w)) ->
  hoare (holds d (Some d)) body (fun r w => r.1 = None -> Q r.2 w) ->
  hoare (holds d s) (AtomExecute init body) (fun r w => r.1 = None -> Q r.2 w).
Proof.
  intros HQ Hb. unfold AtomExecute. eapply hoare_bind; [apply begin_holds|].
  intros [[]|e]; [|by apply hoare_ret]. eapply hoare_bind; [exact Hb|]. intros [[e|] a].
  - apply (hoare_bind _ _ _ (fun _ _ => True)); [by apply hoare_call|]. intros z. by apply hoare_ret.
  - apply (hoare_bind _ _ _ (fun c w => c = Ok tt -> Q a w)).
    + apply hoare_call. intros o w Hw. destruct o; cbn; try done; intros _; by apply HQ, Hw.
    + intros [[]|e]; [apply hoare_ret; intros w Hw _; by apply Hw|].
      apply (hoare_bind _ _ _ (fun _ _ => True)); [by apply hoare_call|]. intros z. by apply hoare_ret.
Qed.

Lemma UpdateUserRow_works d s u row p : user_row (ad_users d) u row ->
  hoare (holds d s) (UpdateUserRow u p) (fun r w => r = Ok tt -> aw_users w = updated (userParamM2D p) (tu_ID row) (ad_users d)).
Proof.
  intros (_ & _ & ->). unfold UpdateUserRow.
  apply (hoare_try _ _ _ (fun _ w => aw_users w = updated (userParamM2D p) (tu_ID row) (ad_users d))); [|intros z; by apply hoare_ret].
  apply hoare_call_cases.
  - intros w [<- <-]. cbn -[where_user]. by destruct (users_unique _).
  - intros w r _ [= <-]. by split.
Qed.

Lemma change_user_works d s f missing change (Q : TUser -> list TUser -> Prop) :
  (forall u row, user_row (ad_users d) u row -> hoare (holds d s) (change u) (fun r w => r = Ok tt -> Q row (aw_users w))) ->
  hoare (holds d s) (change_user f missing change) (fun r w => r.1 = None ->
    exists u row, user_row (ad_users d) u row /\ agrees (uf_Name f) (tu_Name row) = true /\
      agrees (uf_SessionKey f) (tu_Ticket row) = true /\ Q row (aw_users w)).
Proof.
  intros Hc. unfold change_user. eapply hoare_bind; [apply FetchUserRow_spec|].
  intros [[u|]|e]; [|by apply hoare_ret..].
  apply (hoare_given (exists row, user_row (ad_users d) u row /\ agrees (uf_Name f) (tu_Name row) = true /\
    agrees (uf_SessionKey f) (tu_Ticket row) = true) (holds d s)); [by intros w [Hw Hr]|].
  intros (row & Hr & Hn & Hk). eapply hoare_bind; [by apply (Hc u row)|].
  intros r. apply hoare_ret. intros w Hw. destruct r as [[]|e]; [|done]. intros _. exists u, row. auto.
Qed.

(** The row of a user has lost its session key. *)
Definition session_ended (rows : list TUser) (row : TUser) (rows' : list TUser) : Prop :=
  exists p, rows' = updated p (tu_ID row) rows /\ tp_Ticket p = Some "".

Lemma ended_unused rows row rows' : sound_rows rows -> row ∈ rows -> tu_Type row = UserTypeNormal -> tu_Ticket row <> "" ->
  session_ended rows row rows' -> unused_key UserTypeNormal (tu_Ticket row) rows'.
Proof.
  intros Hs Hrow Ht Hk (p & -> & Hp) r Hr Htr E.
  destruct (updated_elem p row rows r (ids_differ _ Hs) Hrow Hr) as [->|[Hin Hid]].
  - cbn in E. rewrite Hp in E. cbn in E. congruence.
  - apply Hid. f_equal. apply (keys_differ _ Hs); congruence.
Qed.

#[local] Hint Resolve record_reads user_record_reads : auth.

(** A program that only reads after one that reports success. *)
Lemma then_log {A B} d s (p : prog authE A) (f : A -> prog authE (result B)) (good : A -> Prop) (Q : list TUser -> Prop) :
  hoare (holds d s) p (fun a w => good a -> Q (aw_users w)) ->
  (forall a, all_calls auth_reading (f a)) -> (forall a os w b, (exec os (f a) w).1 = Ok b -> good a) ->
  hoare (holds d s) (bind p f) (fun r w => forall b, r = Ok b -> Q (aw_users w)).
Proof.
  intros Hp Hf Hg os w Hw b. rewrite exec_bind. set (a := exec os p w) in *. intros Hb.
  pose proof (Hp os w Hw (Hg _ _ _ _ Hb)) as Hq.
  assert (aw_data (exec (leftover os p w) (f a.1) a.2).2 = aw_data a.2) as E.
  { apply (hoare_reads (aw_data a.2) (aw_saved a.2) (f a.1)); [apply Hf|by split]. }
  unfold aw_users. by rewrite E.
Qed.

Lemma DestroySessionKey_works ctx d s k : hoare (holds d s) (DestroySessionKey Error cfg ctx k) (fun r w => forall z, r = Ok z ->
  exists row, row ∈ ad_users d /\ tu_Type row = UserTypeNormal /\ tu_Ticket row = k /\ session_ended (ad_users d) row (aw_users w)).
Proof.
  unfold DestroySessionKey.
  apply (then_log d s _ _ (fun t => t.1 = None) (fun rows => exists row, row ∈ ad_users d /\ tu_Type row = UserTypeNormal /\
    tu_Ticket row = k /\ session_ended (ad_users d) row rows)).
  - apply (transaction_works d s None _ (fun _ w => exists row, row ∈ ad_users d /\ tu_Type row = UserTypeNormal /\
      tu_Ticket row = k /\ session_ended (ad_users d) row (aw_users w))); [done|].
    eapply hoare_post; [|apply (change_user_works _ _ _ _ _ (session_ended (ad_users d)))].
    + intros r w Hb Hn. destruct (Hb Hn) as (u & row & (H1 & H2 & _) & _ & H3 & H4).
      exists row. apply bool_decide_eq_true in H3. by repeat split.
    + intros u row Hr. eapply hoare_post; [|by apply (UpdateUserRow_works d _ u row)].
      intros r w Hb E. rewrite (Hb E). by eexists.
  - intros [e u]. auth_calls.
  - intros [[e|] u] os w b; cbn beta iota; [|done]. rewrite exec_bind. discriminate.
Qed.

Lemma UpdateUserPassword_works ctx d s n o p : hoare (holds d s) (UpdateUserPassword Error cfg ctx n o p) (fun r w => forall z, r = Ok z ->
  exists row, row ∈ ad_users d /\ tu_Type row = UserTypeNormal /\ tu_Name row = n /\ session_ended (ad_users d) row (aw_users w)).
Proof.
  unfold UpdateUserPassword, hash_password. destruct (passwordCheck p); [by apply hoare_ret|].
  eapply hoare_bind; [apply (hoare_reads d s); auth_calls|]. intros [h|e]; [|by apply hoare_ret].
  apply (then_log d s _ _ (fun t => t.1 = None) (fun rows => exists row, row ∈ ad_users d /\ tu_Type row = UserTypeNormal /\
    tu_Name row = n /\ session_ended (ad_users d) row rows)).
  - apply (transaction_works d s None _ (fun _ w => exists row, row ∈ ad_users d /\ tu_Type row = UserTypeNormal /\
      tu_Name row = n /\ session_ended (ad_users d) row (aw_users w))); [done|].
    eapply hoare_post; [|apply (change_user_works _ _ _ _ _ (session_ended (ad_users d)))].
    + intros r w Hb Hn. destruct (Hb Hn) as (u & row & (H1 & H2 & _) & H3 & _ & H4).
      exists row. apply bool_decide_eq_true in H3. by repeat split.
    + intros u row Hr. destruct (_ && _); [by apply hoare_ret|].
      eapply hoare_post; [|by apply (UpdateUserRow_works d _ u row)]. intros r w Hb E. rewrite (Hb E). by eexists.
  - intros [e u]. auth_calls.
  - intros [[e|] u] os w b; cbn beta iota; [|done]. rewrite exec_bind. discriminate.
Qed.

Lemma unused_refused k os w : unused_key UserTypeNormal k (aw_users w) -> exists e, (exec os (authTypeSession cfg k) w).1 = Err e.
Proof. intros Hu. rewrite session_outcome, key_holder_none by done. destruct (hd Normal os); by eexists. Qed.

Lemma same_user rows r r' : sound_rows rows -> r ∈ rows -> r' ∈ rows -> tu_Name r = tu_Name r' -> tu_Type r = tu_Type r' -> r = r'.
Proof. intros Hs Hr Hr' Hn Ht. apply (NoDup_map_same (fun r => (tu_Name r, tu_Type r)) rows); [apply Hs|done..|by rewrite Hn, Ht]. Qed.

(** C7: a session that has been ended is over: once destroying a session key
    has reported success, no request is authenticated by that key, and once a
    change of a user's password has, none by the key that the user had,
    whatever calls failed on the way and whatever calls fail later. *)
Theorem ended_sessions_refused ctx key os w :
  auth_sound w -> key <> "" ->
  (forall z, (exec os (DestroySessionKey Error cfg ctx key) w).1 = Ok z ->
   forall os', exists e, (exec os' (authTypeSession cfg key) (exec os (DestroySessionKey Error cfg ctx key) w).2).1 = Err e) /\
  (forall row old new z, row ∈ aw_users w -> tu_Type row = UserTypeNormal -> tu_Ticket row = key ->
   (exec os (UpdateUserPassword Error cfg ctx (tu_Name row) old new) w).1 = Ok z ->
   forall os', exists e, (exec os' (authTypeSession cfg key)
                            (exec os (UpdateUserPassword Error cfg ctx (tu_Name row) old new) w).2).1 = Err e).
Proof.
  intros [Hs _] Hk. split.
  - intros z Hz os'. apply unused_refused.
    destruct (DestroySessionKey_works ctx (aw_data w) (aw_saved w) key os w ltac:(by split) z Hz) as (row & H1 & H2 & <- & H3).
    by eapply ended_unused.
  - intros row o p z Hr Ht <- Hz os'. apply unused_refused.
    destruct (UpdateUserPassword_works ctx (aw_data w) (aw_saved w) (tu_Name row) o p os w ltac:(by split) z Hz) as (row' & H1 & H2 & H3 & H4).
    assert (row' = row) as -> by (by apply (same_user (aw_users w)); [..|congruence]). by eapply ended_unused.
Qed.

(** No session has an empty key, so a header with nothing after the word
    [Session] authenticates nobody, although every user that has never logged
    in, has logged out or has a new password carries an empty key: whatever
    requests came before and whatever calls fail, as long as the clock shows a
    time at which a session of the first days of the calendar is over. *)
Theorem empty_key_opens_nothing history ctx fuel os os' w :
  auth_sound w ->
  (let w' := (exec os (serve_all Error cfg history) w).2 in
   expired no_ticket_time (aw_now w') = true /\ expired destroyed_time (aw_now w') = true) ->
  exists e, (exec os' (UserProbeAction cfg ctx fuel "Session ") (exec os (serve_all Error cfg history) w).2).1 = Some (Err e).
Proof.
  intros Hw [H1 H2]. pose proof (serve_all_sound Error cfg history os w Hw) as [Hs _].
  set (w' := (exec os (serve_all Error cfg history) w).2) in *. clearbody w'.
  change (UserProbeAction cfg ctx fuel "Session ") with
    (v <- (r <- authTypeSession cfg "" ;; Ret (Some r)) ;;
     Ret (match v with
          | None => None
          | Some (Err e) => Some (Err e)
          | Some (Ok v) => Some (Ok (mkAuthContext (Some v) (cx_Product ctx) (cx_Request ctx)))
          end)).
  rewrite !exec_bind. cbn beta. rewrite !exec_ret. cbn [fst snd]. rewrite session_outcome.
  destruct (hd Normal os'); [|by eexists..]. destruct (key_holder (aw_users w') "") as [r|] eqn:E; [|by eexists].
  apply key_holder_spec in E as (Hr & Ht & Hk).
  assert (expired (tu_TicketCreatedAt r) (aw_now w') = true) as ->; [|by eexists].
  destruct (rows_sound _ Hs r Hr) as [(_ & _ & Hn)|(_ & _ & Hn)]; [|done]. by destruct (Hn Hk) as [-> | ->].
Qed.
End Sessions.

(** The administrator's session in the sample world, before it is ended by a
    new password and before it is destroyed. *)
Example ended_sessions_refused_witness :
  let key := "ERITFBUWFxgZGhscHR4f" in
  let ctx := mkAuthContext None None None in
  let p := UpdateUserPassword sample_error sample_config ctx "admin" "" "third-secret" in
  (exec [] (authTypeSession sample_config key) sample_world).1 <> Err (AuthenticateFail "Session Key Wrong") /\
  (exec [] p sample_world).1 = Ok tt /\
  (exists e, (exec [] (authTypeSession sample_config key) (exec [] p sample_world).2).1 = Err e) /\
  (exists e, (exec [] (authTypeSession sample_config key)
     (exec [] (DestroySessionKey sample_error sample_config ctx key) sample_world).2).1 = Err e).
Proof.
  cbv zeta. split; [vm_compute; discriminate|]. split; [vm_compute; reflexivity|].
  destruct (ended_sessions_refused sample_error sample_config (mkAuthContext None None None) "ERITFBUWFxgZGhscHR4f" [] sample_world) as [H1 H2];
    [apply serve_all_sound, first_world_sound|discriminate|].
  split.
  - eapply (H2 (mkTUser _ "admin" _ _ _ _ _ _)); [|reflexivity|reflexivity|vm_compute; reflexivity].
    vm_compute. left.
  - eapply H1. vm_compute. reflexivity.
Defined.

Example empty_key_opens_nothing_witness :
  map (fun r => tu_Ticket r) (aw_users first_world) = [""] /\
  exists e, (exec [] (UserProbeAction sample_config (mkAuthContext None None None) 0 "Session ")
    (exec [] (serve_all sample_error sample_config []) first_world).2).1 = Some (Err e).
Proof.
  split; [reflexivity|]. apply (empty_key_opens_nothing sample_error sample_config [] _ 0 [] [] first_world first_world_sound).
  split; vm_compute; reflexivity.
Defined.

(** Logging in by password: what it needs, the session that it opens, and that
    the draws of a session key come to an end. *)

(** * The clock *)

Definition timed (d : adata) (s : option adata) (clk : nat -> gotime) (w : aworld) : Prop := holds d s w /\ aw_clock w = clk.

Lemma clock_kept R (e : authE R) w : aw_clock (handle e w).2 = aw_clock w.
Proof.
  destruct e; cbn -[insert_user]; try done; repeat case_match; done.
Qed.
#[local] Instance same_clock : PreOrder (fun w w' : aworld => aw_clock w' = aw_clock w).
Proof. split; [by intros x|]. intros x y z H1 H2. congruence. Qed.
Lemma exec_clock {A} (p : prog authE A) os w : aw_clock (exec os p w).2 = aw_clock w.
Proof.
  apply (exec_stable (fun _ _ => True) (fun w w' => aw_clock w' = aw_clock w)).
  - intros R e w' _. apply clock_kept.
  - induction p; by constructor.
Qed.

Lemma timed_lift {A} d s clk (p : prog authE A) (Q : A -> aworld -> Prop) :
  hoare (holds d s) p Q -> hoare (timed d s clk) p (fun r w => Q r w /\ aw_clock w = clk).
Proof. intros Hp os w [Hw Hc]. split; [by apply Hp|]. by rewrite exec_clock. Qed.

Lemma timed_now d s clk : hoare (timed d s clk) (call Now) (fun now w => timed d s clk w /\ exists i, now = clk i).
Proof.
  apply hoare_call. intros o w [[Hd Hs] Hc]. assert (answer o Now w = handle Now w) as -> by (by destruct o).
  cbn. split; [done|]. exists (aw_reads w). unfold aw_now. by rewrite Hc.
Qed.

(** * The draws *)

Definition drawing (d : adata) (s : option adata) (rnd : nat -> result (nat -> ascii)) (w : aworld) : Prop :=
  holds d s w /\ aw_random w = rnd.

Lemma random_kept R (e : authE R) w : aw_random (handle e w).2 = aw_random w.
Proof. destruct e; cbn -[insert_user]; try done; repeat case_match; done. Qed.
#[local] Instance same_random : PreOrder (fun w w' : aworld => aw_random w' = aw_random w).
Proof. split; [by intros x|]. intros x y z H1 H2. congruence. Qed.
Lemma exec_random {A} (p : prog authE A) os w : aw_random (exec os p w).2 = aw_random w.
Proof.
  apply (exec_stable (fun _ _ => True) (fun w w' => aw_random w' = aw_random w)).
  - intros R e w' _. apply random_kept.
  - induction p; by constructor.
Qed.
Lemma drawing_lift {A} d s rnd (p : prog authE A) (Q : A -> aworld -> Prop) :
  hoare (holds d s) p Q -> hoare (drawing d s rnd) p (fun r w => Q r w /\ aw_random w = rnd).
Proof. intros Hp os w [Hw Hc]. split; [by apply Hp|]. by rewrite exec_random. Qed.

(** The session key that the n-th read of random bytes gives. *)
Definition drawn_key (rnd : nat -> result (nat -> ascii)) (n : nat) : option string :=
  match rnd n with Ok b => Some (URLEncodeToString (String.string_of_list_ascii (map b (seq 0 15)))) | Err _ => None end.
(** So many draws from the n-th on are keys of rows. *)
Definition all_taken (rnd : nat -> result (nat -> ascii)) (rows : list TUser) (n fuel : nat) : Prop :=
  forall i, (i < fuel)%nat -> exists k, drawn_key rnd (n + i) = Some k /\ k ∈ map tu_Ticket rows.

Lemma sessionKeyFactory_draws d s rnd n :
  hoare (fun w => drawing d s rnd w /\ aw_draws w = n) (sessionKeyFactory 15)
    (fun r w => (drawing d s rnd w /\ aw_draws w = S n) /\ forall k, r = Ok k -> drawn_key rnd n = Some k).
Proof.
  unfold sessionKeyFactory. eapply hoare_bind.
  - apply (hoare_call _ _ (fun r w => (drawing d s rnd w /\ aw_draws w = S n) /\
      forall bs, r = Ok bs -> drawn_key rnd n = Some (URLEncodeToString bs))).
    intros o w [[Hd Hr] Hn]. assert (answer o (RandRead 15) w = handle (RandRead 15) w) as -> by (by destruct o).
    cbn -[String.string_of_list_ascii map seq URLEncodeToString]. rewrite Hr, Hn.
    split; [split; [split; [exact Hd|done]|done]|].
    unfold drawn_key. destruct (rnd n) as [b|e]; [|done]. by intros bs [= <-].
  - intros [bs|e]; apply hoare_ret; intros w [Hw Hb]; (split; [exact Hw|]); [|done]. intros k [= <-]. by apply Hb.
Qed.

Lemma fresh_runs_out d s rnd fuel : forall n,
  hoare (fun w => drawing d s rnd w /\ aw_draws w = n) (fresh_session_key fuel)
    (fun r w => r = None -> all_taken rnd (ad_users d) n fuel).
Proof.
  induction fuel as [|fuel IH]; intros n; cbn [fresh_session_key]; [apply hoare_ret; intros w _ _ i Hi; lia|].
  eapply hoare_bind; [apply sessionKeyFactory_draws|]. intros [k|e]; [|by apply hoare_ret].
  apply hoare_fact. intros Hk. specialize (Hk k eq_refl).
  apply (hoare_bind _ _ _ (fun u w => (drawing d s rnd w /\ aw_draws w = S n) /\
    forall x, u = Ok (Some x) -> k ∈ map tu_Ticket (ad_users d))).
  - intros os w [[Hd Hr] Hn]. pose proof (FetchUserRow_spec d s (bySessionKey k) os w Hd) as [Hw Hx].
    split; [split; [split; [exact Hw|by rewrite exec_random]|]|].
    + unfold FetchUserRow, FetchUserRows. cbn [bind call]. rewrite exec_call.
      destruct (hd Normal os); cbn -[where_user userFilter2Param]; exact Hn.
    + intros x Ex. rewrite Ex in Hx. destruct Hx as (row & (Hin & _) & _ & Hkey). apply bool_decide_eq_true in Hkey. subst k.
      rewrite list_elem_of_In. by apply in_map, list_elem_of_In.
  - intros [[u|]|e]; [|by apply hoare_ret..]. apply hoare_fact. intros Ht. specialize (Ht u eq_refl).
    eapply hoare_post; [|apply IH]. intros r w Hw Hn i Hi. destruct i as [|i].
    + exists k. by rewrite Nat.add_0_r.
    + rewrite Nat.add_succ_r. apply (Hw Hn). lia.
Qed.

(** Different draws cannot all be keys of fewer rows. *)
Definition draws_differ (rnd : nat -> result (nat -> ascii)) (fuel : nat) : Prop :=
  forall i j k, drawn_key rnd i = Some k -> drawn_key rnd j = Some k -> i = j \/ (i + fuel <= j)%nat \/ (j + fuel <= i)%nat.

Lemma draws_suffice rnd rows n fuel : draws_differ rnd fuel -> all_taken rnd rows n fuel -> (fuel <= length rows)%nat.
Proof.
  intros Hinj Ht. set (key := fun i => default "" (drawn_key rnd (n + i))).
  assert (NoDup (map key (seq 0 fuel))) as Hn.
  { apply NoDup_ListNoDup, NoDup_map_NoDup_ForallPairs; [|apply seq_NoDup].
    intros a b Ha Hb E. apply in_seq in Ha, Hb. destruct (Ht a ltac:(lia)) as (ka & Ea & _), (Ht b ltac:(lia)) as (kb & Eb & _).
    unfold key in E. rewrite Ea, Eb in E. cbn in E. subst kb. destruct (Hinj _ _ ka Ea Eb) as [?|[?|?]]; lia. }
  apply NoDup_ListNoDup in Hn. apply (NoDup_incl_length (l' := map tu_Ticket rows)) in Hn.
  - by rewrite !length_map, length_seq in Hn.
  - intros k Hk. apply in_map_iff in Hk as (i & <- & Hi%in_seq). destruct (Ht i ltac:(lia)) as (k & E & Hk).
    unfold key. rewrite E. by apply list_elem_of_In.
Qed.

Section Login.
Context `{!Crypto}.
Variable Error : goerr -> string.
Variable cfg : AuthConfig.

(** The row of the user, and what the login makes of it. *)
Definition logged_in (name password : string) (rows : list TUser) (clk : nat -> gotime) (v : Visitor) (rows' : list TUser) : Prop :=
  exists row u k h i, row ∈ rows /\ tu_Type row = UserTypeNormal /\ tu_Name row = name /\
    (CheckPassword (tu_Password row) password).1 = true /\ v = VisitorUser u /\ u_SessionKey u = k /\
    k <> "" /\ unused_key UserTypeNormal k rows /\
    rows' = updated (userParamM2D (mkUserParam None h None (Some k) (Some (clk i)))) (tu_ID row) rows.

Lemma password_body_works d s clk fuel name password : hoare (timed d s clk) (password_body cfg fuel name password)
  (fun r w => r.1 = None -> forall v, r.2 = Some (Some v) -> logged_in name password (ad_users d) clk v (aw_users w)).
Proof.
  unfold password_body. eapply hoare_bind; [apply timed_lift, FetchUserRow_spec|].
  intros [[u|]|e]; [|by apply hoare_ret..].
  apply (hoare_given (exists row, user_row (ad_users d) u row /\ tu_Name row = name) (timed d s clk)).
  { intros w [[Hw (row & Hr & Hn & _)] Hc]. split; [|by split]. exists row. by apply bool_decide_eq_true in Hn. }
  intros (row & Hr & Hn). pose proof Hr as (Hin & Ht & Hu).
  destruct (CheckPassword _ _) as [ok mig] eqn:Ec. destruct (negb ok) eqn:Eok; [by apply hoare_ret|]. apply negb_false_iff in Eok. subst ok.
  eapply hoare_bind; [apply (timed_lift d s clk), (hoare_reads d s); destruct mig; auth_calls|].
  intros [h|e]; [|by apply hoare_ret]. eapply hoare_bind; [eapply hoare_weaken; [|done|apply (timed_lift d s clk), fresh_session_key_spec]; done|].
  intros [[k|e]|]; [|by apply hoare_ret..].
  apply (hoare_given (k <> "" /\ unused_key UserTypeNormal k (ad_users d)) (timed d s clk)).
  { intros w [[Hw Hk] Hc]. split; [by apply Hk|by split]. }
  intros [Hne Hun]. eapply hoare_bind; [apply timed_now|]. intros now. apply hoare_fact. intros [i ->].
  eapply hoare_bind; [eapply hoare_weaken; [|done|by apply (UpdateUserRow_works d s u row)]; by intros w [Hw _]|].
  intros [z|e]; apply hoare_ret; [|done]. intros w Hw _ v [= <-]. cbn [snd].
  exists row, (with_session u k (default (u_Password u) h)), k, h, i.
  assert (u_Password u = tu_Password row) as Hp by (by rewrite Hu).
  rewrite Hp in Ec. rewrite Ec. repeat split; [done..|]. destruct z. by apply Hw.
Qed.

Lemma login_works d s fuel name password : hoare (holds d s) (SessionKeyByPasswordAction cfg fuel name password)
  (fun r w => forall data, r = Some (Ok data) -> exists v, logged_in name password (ad_users d) (aw_clock w) (VisitorUser v) (aw_users w) /\
    ud_SessionKey data = u_SessionKey v).
Proof.
  unfold SessionKeyByPasswordAction. destruct (check_name name &> check_name password)%go; [|by apply hoare_ret..].
  change (Authenticate cfg fuel "Password" name password) with (authTypePassword cfg fuel name password).
  eapply hoare_bind.
  - unfold authTypePassword. eapply hoare_bind.
    + apply (transaction_works d s _ _ (fun r w => forall v, r = Some (Some v) ->
        logged_in name password (ad_users d) (aw_clock w) v (aw_users w))); [done|].
      intros os w Hw. rewrite exec_clock. by apply (password_body_works d (Some d) (aw_clock w) fuel name password os w).
    + intros [e r]. apply (hoare_ret _ _ (fun r w => forall v, r = Some (Ok v) ->
        logged_in name password (ad_users d) (aw_clock w) v (aw_users w))).
      intros w Hw v. destruct e as [e|], r as [[v'|]|]; try discriminate. intros [= <-]. by apply (Hw eq_refl).
  - intros [[[v|t]|e]|]; apply hoare_ret; try discriminate; intros w Hw data [= <-].
    exists v. by split; [apply Hw|].
Qed.

(** C8: a login by password is what it should be: when it succeeds, a user of
    that name has that password, and the session key of the answer, which no
    user had before, opens a session of that user and of no other, from the
    moment of the login until it expires. *)
Theorem login_opens_session fuel name password os w data :
  auth_sound w ->
  (exec os (SessionKeyByPasswordAction cfg fuel name password) w).1 = Some (Ok data) ->
  let w' := (exec os (SessionKeyByPasswordAction cfg fuel name password) w).2 in
  exists row i, row ∈ aw_users w /\ tu_Type row = UserTypeNormal /\ tu_Name row = name /\
    (CheckPassword (tu_Password row) password).1 = true /\ unused_key UserTypeNormal (ud_SessionKey data) (aw_users w) /\
    exists u, u_ID u = tu_ID row /\ u_Name u = name /\ u_Scopes u = parseScopes (tu_Scopes row) /\
      forall os', (exec os' (authTypeSession cfg (ud_SessionKey data)) w').1 =
        match hd Normal os' with
        | Normal => if expired cfg (aw_clock w i) (aw_now w') then Err (AuthenticateFail "Session Key Expired") else Ok (VisitorUser u)
        | _ => Err DaoError
        end.
Proof.
  intros Hs Hr w'. destruct (login_works (aw_data w) (aw_saved w) fuel name password os w ltac:(by split) data Hr)
    as (v & (row & u & k & h & i & H1 & H2 & H3 & H4 & [= ->] & H6 & H7 & H8 & H9) & Hk).
  pose proof (login_sound cfg fuel name password os w Hs) as [Hs' _]. rewrite exec_clock in H9. fold w' in H9, Hs'.
  rewrite Hk, H6. exists row, i. repeat split; [done..|].
  set (r := assign_user (userParamM2D (mkUserParam None h None (Some k) (Some (aw_clock w i)))) row).
  exists (userD2M r). repeat split; [exact H3|]. intros os'. rewrite session_outcome.
  rewrite (key_holder_some _ k r); [reflexivity|exact Hs'| |done..]. rewrite H9. by apply updated_has.
Qed.

(** * Termination *)

Lemma password_body_ends d s rnd fuel name password : hoare (drawing d s rnd) (password_body cfg fuel name password)
  (fun r w => r.2 = None -> exists n, all_taken rnd (ad_users d) n fuel).
Proof.
  unfold password_body. eapply hoare_bind; [apply drawing_lift, (hoare_reads d s); unfold FetchUserRow, FetchUserRows; auth_calls|].
  intros [[u|]|e]; [|by apply hoare_ret..]. destruct (CheckPassword _ _) as [ok mig]. destruct (negb ok); [by apply hoare_ret|].
  eapply hoare_bind; [apply (drawing_lift d s rnd), (hoare_reads d s); destruct mig; auth_calls|].
  intros [h|e]; [|by apply hoare_ret].
  apply (hoare_bind _ _ _ (fun r _ => r = None -> exists n, all_taken rnd (ad_users d) n fuel)).
  - intros os w Hw Hn. exists (aw_draws w). by apply (fresh_runs_out d s rnd fuel (aw_draws w) os w).
  - intros [[k|e]|]; [|by apply hoare_ret|apply hoare_ret; intros w Hw _; by apply Hw].
    intros os w _ Hn. exfalso. rewrite exec_bind, exec_bind in Hn. discriminate Hn.
Qed.

(** The loop of a login that draws session keys, which has no bound, ends:
    as long as no two of so many successive draws give the same key, one draw
    more than there are users is enough, whatever calls fail. *)
Theorem login_terminates fuel name password os w :
  draws_differ (aw_random w) fuel -> (length (aw_users w) < fuel)%nat ->
  (exec os (SessionKeyByPasswordAction cfg fuel name password) w).1 <> None.
Proof.
  intros Hinj Hf Hn.
  assert (hoare (drawing (aw_data w) (aw_saved w) (aw_random w)) (SessionKeyByPasswordAction cfg fuel name password)
    (fun r _ => r = None -> exists n, all_taken (aw_random w) (aw_users w) n fuel)) as Hrun.
  2: { destruct (Hrun os w ltac:(by repeat split) Hn) as [n Ht]. apply draws_suffice in Ht; [lia|exact Hinj]. }
  clear Hn Hf Hinj. unfold SessionKeyByPasswordAction. destruct (check_name name &> check_name password)%go; [|by apply hoare_ret..].
  change (Authenticate cfg fuel "Password" name password) with (authTypePassword cfg fuel name password).
  apply (hoare_bind _ _ _ (fun r _ => r = None -> exists n, all_taken (aw_random w) (aw_users w) n fuel));
    [|intros [[[?|?]|?]|]; apply hoare_ret; try done; intros w' H' _; by apply H'].
  unfold authTypePassword. apply (hoare_bind _ _ _ (fun r _ => r.2 = None -> exists n, all_taken (aw_random w) (aw_users w) n fuel));
    [|intros [[?|] [[?|]|]]; apply hoare_ret; try done; intros w' H' _; by apply H'].
  unfold AtomExecute. eapply hoare_bind; [apply (drawing_lift (aw_data w) (aw_saved w) (aw_random w)), begin_holds|].
  intros [[]|e]; [|by apply hoare_ret]. eapply hoare_bind; [apply password_body_ends|].
  intros [[e|] a]; intros os' w' Hw' Hn; apply Hw'; rewrite exec_bind in Hn; [exact Hn|].
  destruct (exec os' (call tx_commit) w').1; [exact Hn|]. rewrite exec_bind in Hn. exact Hn.
Qed.
End Login.

Definition two_keys (n : nat) : result (nat -> ascii) := Ok (fun _ => if Nat.even n then "a"%char else "b"%char).
Definition two_keys_world : aworld :=
  mkAWorld (aw_data first_world) None 2 [] sample_clock 0 two_keys (fun _ => "salt") 0 [].

Lemma two_keys_differ : draws_differ two_keys 2.
Proof.
  intros i j k Hi Hj. enough (Nat.even i = Nat.even j) as E.
  - assert (Nat.even (i + j) = true) as He by (by rewrite Nat.even_add, E; destruct (Nat.even j)).
    apply Nat.even_spec in He as [m Hm]. lia.
  - unfold drawn_key, two_keys in *. destruct (Nat.even i), (Nat.even j); try done; vm_compute in Hi, Hj; congruence.
Qed.

(** The administrator logs in with the key that is drawn. *)
Definition first_key : string := "ERITFBUWFxgZGhscHR4f".
Definition first_login : prog authE (option (result UserData)) :=
  SessionKeyByPasswordAction sample_config 2 "admin" "first-secret".
Definition after_login : aworld := (exec [] first_login first_world).2.
Definition first_answer : UserData := mkUserData "admin" RoleSystemAdmin first_key.

Lemma first_login_answer : (exec [] first_login first_world).1 = Some (Ok first_answer).
Proof. vm_compute. reflexivity. Qed.

Example login_opens_session_witness : exists row i, row ∈ aw_users first_world /\ tu_Name row = "admin" /\
  exists u, u_Name u = "admin" /\ forall os', (exec os' (authTypeSession sample_config (ud_SessionKey first_answer)) after_login).1 =
    match hd Normal os' with
    | Normal => if expired sample_config (aw_clock first_world i) (aw_now after_login)
                then Err (AuthenticateFail "Session Key Expired") else Ok (VisitorUser u)
    | _ => Err DaoError
    end.
Proof.
  destruct (login_opens_session sample_config 2 "admin" "first-secret" [] first_world first_answer first_world_sound first_login_answer)
    as (row & i & H1 & _ & H3 & _ & _ & u & _ & Hn & _ & Hs).
  exists row, i. split; [exact H1|]. split; [exact H3|]. exists u. split; [exact Hn|]. exact Hs.
Defined.

Example login_terminates_witness :
  (exec [] (SessionKeyByPasswordAction sample_config 2 "admin" "first-secret") two_keys_world).1 <> None.
Proof.
  apply (login_terminates sample_config 2 "admin" "first-secret" [] two_keys_world); [exact two_keys_differ|].
  vm_compute. lia.
Defined.
