(* ===== verification/AuthAtomic.v ===== *)
(** A request to the endpoints of users and tokens that fails has changed
    neither a user, a token nor a binding. *)
From Stdlib Require Import ZArith Lia Ascii.
From stdpp Require Import base tactics numbers list strings gmap option.
From S2P Require Import Prelude GoStrings GoTime Prog XCrypto Validate OperLog AuthModel AuthManager AuthEndpoints AuthInvariant AuthHistory.

Local Open Scope string_scope.

Definition same_tables (w w' : aworld) : Prop := aw_data w' = aw_data w.
Definition same_backup (w w' : aworld) : Prop := aw_saved w' = aw_saved w.
#[export] Instance same_tables_preorder : PreOrder same_tables.
Proof. split; unfold same_tables; [done|]. intros x y z H1 H2. congruence. Qed.
#[export] Instance same_backup_preorder : PreOrder same_backup.
Proof. split; unfold same_backup; [done|]. intros x y z H1 H2. congruence. Qed.

Definition auth_statement (R : Type) (e : authE R) : Prop :=
  match e with AuthBegin | AuthCommit | AuthRollback => False | _ => True end.

#[export] Instance auth_transactional : Transactional authE aworld same_tables same_backup.
Proof.
  split; try apply _.
  - intros [] w e; by cbn.
  - intros [] [] w w1 Hok Hs; try discriminate Hok; unfold same_tables, same_backup in *; cbn in *; by rewrite Hs.
  - done.
  - by intros w.
  - by intros [] w.
  - done.
Qed.
#[export] Instance auth_reading_calls : ReadingCalls authE aworld same_tables auth_reading.
Proof. intros R e w He. by destruct e. Qed.
#[export] Instance auth_statement_calls : StatementCalls authE aworld same_backup auth_statement.
Proof. intros R e w He. destruct e; try done; unfold same_backup; cbn -[insert_user]; repeat case_match; done. Qed.

#[local] Notation fails_clean := (fails_clean same_tables).
#[local] Notation silent := (silent same_tables).
#[local] Notation clean_after := (clean_after same_tables).
#[local] Notation clean_reading := (clean_reading same_tables auth_reading).
#[local] Notation clean_atom := (clean_atom same_tables auth_reading same_backup auth_statement).

Lemma silent_reads {A} (p : prog authE A) : all_calls auth_reading p -> silent p.
Proof. exact (exec_reading same_tables auth_reading p). Qed.

(** A transaction that only reads. *)
Lemma silent_transaction {A} (init : A) body : all_calls auth_reading body -> silent (AtomExecute init body).
Proof.
  intros Hb os w. unfold AtomExecute. cbn [bind call]. rewrite exec_call.
  assert (aw_data (answer (hd Normal os) tx_begin w).2 = aw_data w /\
    ((answer (hd Normal os) tx_begin w).1 = Ok tt -> aw_saved (answer (hd Normal os) tx_begin w).2 = Some (aw_data w))) as [H1 H2].
  { destruct (hd Normal os); cbn; by repeat split. }
  destruct (answer (hd Normal os) tx_begin w) as [[[]|e] w0]; cbn [fst snd] in *; [|rewrite exec_ret; exact H1].
  specialize (H2 eq_refl). rewrite exec_bind.
  destruct (hoare_reads (aw_data w) (Some (aw_data w)) body Hb (tl os) w0 ltac:(by split)) as [H3 H4].
  destruct (exec (tl os) body w0) as [[[e|] a] w1]; cbn [fst snd bind call] in *; rewrite exec_call.
  - rewrite exec_ret. cbn [snd]. unfold same_tables. destruct (hd Normal _); cbn; by rewrite H4.
  - assert (same_tables w (answer (hd Normal (leftover (tl os) body w0)) tx_commit w1).2 /\
      default (aw_data w) (aw_saved (answer (hd Normal (leftover (tl os) body w0)) tx_commit w1).2) = aw_data w) as [H5 H6].
    { unfold same_tables. destruct (hd Normal _); cbn; by rewrite ?H4. }
    destruct (answer _ tx_commit w1) as [[[]|e] w2]; cbn [fst snd bind call] in *; [rewrite exec_ret; exact H5|].
    rewrite exec_call, exec_ret. unfold same_tables in *. destruct (hd Normal _); cbn; destruct (aw_saved w2); cbn in *; congruence.
Qed.

Ltac auth_statements := repeat first [progress intros ? | calls_step | exact I | progress cbn [bind call]].

Section Requests.
Context `{!Crypto}.
Variable Error : goerr -> string.
Variable cfg : AuthConfig.
Variable ctx : AuthContext.

#[local] Hint Resolve record_reads fetch_tokens_reads fetch_users_reads batch_products_reads user_record_reads token_record_reads : auth.

(** * Reading operations *)

Lemma silent_FetchTokens f : silent (FetchTokens f).
Proof. unfold FetchTokens. apply (silent_bind same_tables); [apply silent_transaction|intros ?; apply silent_reads]; auth_calls. Qed.
Lemma silent_FetchUserList f : silent (FetchUserList f).
Proof. unfold FetchUserList. apply (silent_bind same_tables); [apply silent_transaction|intros ?; apply silent_reads]; auth_calls. Qed.
Lemma silent_FetchUser f : silent (FetchUser f).
Proof. unfold FetchUser. apply (silent_bind same_tables); [apply silent_FetchUserList|intros ?; apply silent_reads]; auth_calls. Qed.
Lemma silent_read_only {A} (init : A) body : all_calls auth_reading body -> silent (read_only init body).
Proof.
  intros Hb. unfold read_only. apply (silent_bind same_tables); [|intros ?; apply silent_reads; auth_calls].
  apply silent_transaction. apply all_calls_bind; [exact Hb|]. auth_calls.
Qed.
Lemma silent_Authorizate auth : silent (Authorizate cfg ctx auth).
Proof.
  unfold Authorizate. destruct (MustGetVisitor _ _); [|apply silent_reads; auth_calls].
  destruct (IsAdmin _); [apply silent_reads; auth_calls|]. destruct (negb _); [apply silent_reads; auth_calls|].
  destruct (az_ValidateProduct auth); [|apply silent_reads; auth_calls]. destruct (MustGetProduct _); [|apply silent_reads; auth_calls].
  unfold IsVisitorProductGranted, isTokenProductGranted, TUserProductOne.
  apply (silent_bind same_tables); [apply silent_read_only|intros ?; apply silent_reads]; auth_calls.
Qed.

(** * Operations that change rows *)

Lemma change_user_statements f m change : (forall u, all_calls auth_statement (change u)) -> all_calls auth_statement (change_user f m change).
Proof. intros Hc. unfold change_user, FetchUserRow, FetchUserRows. auth_statements. apply Hc. Qed.

Lemma clean_DestroySessionKey k : fails_clean (DestroySessionKey Error cfg ctx k).
Proof.
  unfold DestroySessionKey. apply clean_atom; [|intros ? ?; auth_calls|intros ?; succeeds_go].
  apply change_user_statements. intros u. unfold UpdateUserRow. auth_statements.
Qed.
Lemma clean_DeleteUser n : fails_clean (DeleteUser Error cfg ctx n).
Proof.
  unfold DeleteUser. apply clean_atom; [|intros ? ?; auth_calls|intros ?; succeeds_go].
  apply change_user_statements. intros u. unfold DeleteUserRow, unbindTokenAllProduct. auth_statements.
Qed.
Lemma clean_UpdateUserPassword n o p : fails_clean (UpdateUserPassword Error cfg ctx n o p).
Proof.
  unfold UpdateUserPassword, hash_password. destruct (passwordCheck p); [apply clean_reading; auth_calls|].
  apply clean_after; [apply silent_reads; auth_calls|]. intros [h|e]; [|apply clean_reading; auth_calls].
  apply clean_atom; [|intros ? ?; auth_calls|intros ?; succeeds_go].
  apply change_user_statements. intros u. unfold UpdateUserRow. auth_statements.
Qed.
Lemma clean_CreateUser p : fails_clean (CreateUser Error cfg ctx p).
Proof.
  unfold CreateUser, hash_password. assert (forall q, fails_clean (create_hashed Error cfg ctx q)) as Hq.
  { intros q. unfold create_hashed. apply clean_atom; [|intros ? ?; auth_calls|intros ?; succeeds_go].
    unfold FetchUserRow, FetchUserRows, CreateUserRow. auth_statements. }
  destruct (up_Password p); [|apply Hq]. destruct (passwordCheck _); [apply clean_reading; auth_calls|].
  apply clean_after; [apply silent_reads; auth_calls|]. intros [h|e]; [apply Hq|apply clean_reading; auth_calls].
Qed.
Lemma clean_DeleteToken t : fails_clean (DeleteToken Error cfg ctx t).
Proof.
  unfold DeleteToken. apply clean_atom; [|intros ? ?; auth_calls|intros ?; succeeds_go].
  unfold DeleteTokenRow, unbindTokenAllProduct. auth_statements.
Qed.
Lemma draw_token_statements k err n s p : all_calls auth_statement (draw_token k err n s p).
Proof.
  revert err. induction k as [|k IH]; intros err; cbn [draw_token]; [constructor|].
  unfold sessionKeyFactory, store_token, CreateTokenRow, bindUserProduct, TUserProductOne, FetchTokenRows.
  repeat first [apply IH | progress intros ? | calls_step | exact I | progress cbn [bind call]].
Qed.
Lemma clean_UpdateUserRole u role : fails_clean (UpdateUserRole Error cfg ctx u role).
Proof.
  unfold UpdateUserRole. destruct (RoleToScopes role); [|apply clean_reading; auth_calls].
  destruct (_ && _); [apply clean_reading; auth_calls|].
  apply clean_atom; [|intros ? ?; auth_calls|intros ?; succeeds_go].
  unfold UpdateUserScopes, UpdateUserRow. auth_statements.
Qed.

(** * Creating a token

    When every value that was drawn is taken, the transaction ends without an
    error and without a token, and has changed nothing. *)

Lemma store_token_some n s v p : forall os w, (exec os (store_token n s v p) w).1.2 <> None.
Proof.
  intros os w. unfold store_token. rewrite exec_bind. destruct (exec os _ w) as [[z|e] w1]; cbn [fst snd]; [|done].
  rewrite exec_bind. destruct (exec _ (FetchTokenRows _) w1) as [[[|t l]|e] w2]; cbn [fst snd]; [done| |done].
  destruct p as [p|]; [|done]. rewrite exec_bind, exec_ret. done.
Qed.

Lemma draw_token_nothing d s k n sc p : forall err, hoare (holds d s) (draw_token k err n sc p) (fun r w => r = (None, None) -> holds d s w).
Proof.
  induction k as [|k IH]; intros err; cbn [draw_token]; [by apply hoare_ret|].
  eapply hoare_bind; [apply (hoare_reads d s); unfold sessionKeyFactory; auth_calls|]. intros [v|e]; [|apply IH].
  eapply hoare_bind; [apply (hoare_reads d s); auth_calls|]. intros [[|t l]|e]; [|apply IH..].
  intros os w _ Hr. exfalso. apply (store_token_some n sc v p os w). by rewrite Hr.
Qed.

Lemma create_token_nothing d s n sc p : hoare (holds d s) (create_token_body n sc p) (fun r w => r = (None, None) -> holds d s w).
Proof.
  unfold create_token_body. eapply hoare_bind; [apply (hoare_reads d s); auth_calls|].
  intros [[|t l]|e]; [apply draw_token_nothing|by apply hoare_ret|apply draw_token_nothing].
Qed.

Lemma create_token_statements n s p : all_calls auth_statement (create_token_body n s p).
Proof.
  unfold create_token_body. apply all_calls_bind; [unfold FetchTokenRows; auth_statements|].
  intros [[|t l]|e]; [apply draw_token_statements|constructor|apply draw_token_statements].
Qed.

Lemma AtomExecute_nothing {A} (body : prog authE (option goerr * option A)) os w :
  (forall s os w', holds (aw_data w) s w' -> (exec os body w').1 = (None, None) -> holds (aw_data w) s (exec os body w').2) ->
  (exec os (AtomExecute None body) w).1 = (None, None) -> aw_data (exec os (AtomExecute None body) w).2 = aw_data w.
Proof.
  intros Hb Hr. destruct (AtomExecute_works None body os w None Hr) as (os' & o & w0 & H1 & H2 & _ & ->).
  assert (aw_data w0 = aw_data w) as E.
  { change w0 with (Ok (A := unit) tt, w0).2. rewrite <- H1. by destruct (hd Normal os). }
  destruct (Hb (aw_saved w0) os' w0 ltac:(by split) H2) as [H3 _]. by destruct o.
Qed.

Lemma clean_CreateToken n s p : fails_clean (CreateToken Error cfg ctx n s p).
Proof.
  unfold CreateToken. intros os w e. rewrite exec_bind.
  pose proof (AtomExecute_fails (same := same_tables) (kept := same_backup) auth_statement (@statement_kept _ _ _ _ _ auth_statement_calls) None
    (create_token_body n s p) os w) as Hf.
  pose proof (AtomExecute_nothing (create_token_body n s p) os w (fun s' os' w' => create_token_nothing (aw_data w) s' n s p os' w')) as Hn.
  destruct (exec os (AtomExecute None (create_token_body n s p)) w) as [[[err|] t] w1]; cbn [fst snd] in *.
  - intros _. destruct (Hf err t (create_token_statements n s p) eq_refl) as [Hs|Hu]; [left|right; by apply unanswered_first].
    etrans; [exact Hs|]. apply silent_reads. auth_calls.
  - destruct t as [t|]; [|intros _; left; by apply Hn]. rewrite exec_bind, exec_ret. done.
Qed.

(** * Requests *)

Lemma clean_checked {A} v (p : prog authE (result A)) : fails_clean p -> fails_clean (checked v p).
Proof. intros Hp. destruct v; cbn [checked]; [exact Hp|apply clean_reading; auth_calls..]. Qed.
Lemma clean_authorized {A} auth (p : prog authE (result A)) : fails_clean p -> fails_clean (authorized cfg ctx auth p).
Proof.
  intros Hp. unfold authorized. apply clean_after; [apply silent_Authorizate|].
  intros [z|e]; [exact Hp|apply clean_reading; auth_calls].
Qed.
Lemma clean_answering {A} (f : A -> auth_answer) (p : prog authE (result A)) : fails_clean p ->
  forall os w e, (exec os (answering f p) w).1 = Some (Err e) ->
  same_tables w (exec os (answering f p) w).2 \/ commit_unanswered os (answering f p) w = true.
Proof.
  intros Hp os w e. unfold answering. rewrite exec_bind, exec_ret. cbn [fst snd]. specialize (Hp os w).
  destruct (exec os p w) as [[a|e'] w1]; cbn [fst snd] in *; [done|]. intros _.
  destruct (Hp e' eq_refl) as [?|?]; [by left|right; by apply unanswered_first].
Qed.
Lemma clean_then {A B} (p : prog authE (result A)) (f : A -> result B) : silent p -> fails_clean (a <-? p ;; Ret (f a)).
Proof. intros Hp. apply clean_after; [exact Hp|]. intros [a|e]; apply clean_reading; auth_calls. Qed.
Lemma clean_then_ok {A B} (p : prog authE (result A)) (f : A -> B) : fails_clean p -> fails_clean (a <-? p ;; Ret (Ok (f a))).
Proof.
  intros Hp os w e. rewrite exec_bind. specialize (Hp os w). destruct (exec os p w) as [[a|e'] w1]; cbn [fst snd] in *; rewrite exec_ret; [done|].
  intros _. destruct (Hp e' eq_refl) as [?|?]; [by left|right; by apply unanswered_first].
Qed.

(** A login without an error has a user. *)
Lemma password_body_user fuel n p os w : (exec os (password_body cfg fuel n p) w).1.1 = None ->
  exists u, (exec os (password_body cfg fuel n p) w).1.2 = Some (Some (VisitorUser u)).
Proof.
  apply (fun H : hoare (fun _ => True) (password_body cfg fuel n p)
    (fun r _ => r.1 = None -> exists u, r.2 = Some (Some (VisitorUser u))) => H os w I).
  unfold password_body. apply (hoare_bind _ _ _ (fun _ _ => True)); [done|].
  intros [[u|]|e]; [|by apply hoare_ret..]. destruct (CheckPassword _ _) as [ok mig]. destruct (negb ok); [by apply hoare_ret|].
  apply (hoare_bind _ _ _ (fun _ _ => True)); [done|]. intros [h|e]; [|by apply hoare_ret].
  apply (hoare_bind _ _ _ (fun _ _ => True)); [done|]. intros [[k|e]|]; [|by apply hoare_ret..].
  apply (hoare_bind _ _ _ (fun _ _ => True)); [done|]. intros now.
  apply (hoare_bind _ _ _ (fun _ _ => True)); [done|]. intros r. apply hoare_ret. intros w' _ _. by eexists.
Qed.

Lemma password_body_statements fuel n p : all_calls auth_statement (password_body cfg fuel n p).
Proof.
  assert (forall g, all_calls auth_statement (fresh_session_key g)) as Hf.
  { intros g. induction g as [|g IH]; cbn [fresh_session_key]; [constructor|]. unfold sessionKeyFactory, FetchUserRow, FetchUserRows.
    repeat first [apply IH | progress intros ? | calls_step | exact I | progress cbn [bind call]]. }
  unfold password_body, FetchUserRow, FetchUserRows, UpdateUserRow.
  repeat first [apply Hf | progress intros ? | calls_step | exact I | progress cbn [bind call]].
Qed.

Lemma clean_login fuel n p os w e : (exec os (SessionKeyByPasswordAction cfg fuel n p) w).1 = Some (Err e) ->
  same_tables w (exec os (SessionKeyByPasswordAction cfg fuel n p) w).2 \/
  commit_unanswered os (SessionKeyByPasswordAction cfg fuel n p) w = true.
Proof.
  unfold SessionKeyByPasswordAction. destruct (check_name n &> check_name p)%go; [|intros _; by left..].
  change (Authenticate cfg fuel "Password" n p) with (authTypePassword cfg fuel n p). unfold authTypePassword.
  rewrite !exec_bind, !exec_ret. cbn [fst snd].
  pose proof (AtomExecute_fails (same := same_tables) (kept := same_backup) auth_statement (@statement_kept _ _ _ _ _ auth_statement_calls) (Some None)
    (password_body cfg fuel n p) os w) as Hf.
  pose proof (AtomExecute_works (Some None) (password_body cfg fuel n p) os w) as Hok.
  destruct (exec os (AtomExecute (Some None) (password_body cfg fuel n p)) w) as [[[err|] v] w1]; cbn [fst snd] in *.
  - intros _. destruct (Hf err v (password_body_statements fuel n p) eq_refl) as [?|H1]; [by left|right]. rewrite !unanswered_bind. by rewrite H1.
  - destruct (Hok v eq_refl) as (os' & o & w0 & _ & H2 & _).
    destruct (password_body_user fuel n p os' w0 ltac:(by rewrite H2)) as [u Hu]. rewrite H2 in Hu. cbn in Hu. subst v. done.
Qed.

(** C31: a request to the endpoints of users, tokens and session keys that is
    answered with an error has changed nothing: no user, no token, no session
    key, no role and no binding, whatever calls failed and whether or not they
    were done all the same, but for one case: a COMMIT was done and its answer
    was lost.  The operation log is no part of this. *)
Theorem auth_requests_atomic fuel q os w e :
  (exec os (route Error cfg fuel ctx q) w).1 = Some (Err e) ->
  same_tables w (exec os (route Error cfg fuel ctx q) w).2 \/ commit_unanswered os (route Error cfg fuel ctx q) w = true.
Proof.
  destruct q; cbn [route];
    try (apply clean_answering; first [apply clean_authorized|unfold SessionKeyDestroyAction]; try apply clean_checked).
  - rewrite exec_bind, exec_ret. cbn [fst snd]. pose proof (clean_login fuel userName password os w) as Hc.
    destruct (exec os _ w) as [[[a|err]|] w1]; cbn [fst snd] in *; [done| |done]. intros _. destruct (Hc err eq_refl) as [?|?]; [by left|right; by apply unanswered_first].
  - apply clean_DestroySessionKey.
  - apply clean_then_ok, clean_CreateToken.
  - apply clean_after; [apply silent_FetchTokens|]. intros [[|t [|t' l]]|err]; try (apply clean_reading; auth_calls; done). apply clean_DeleteToken.
  - apply clean_then, silent_FetchTokens.
  - apply clean_after; [apply silent_FetchTokens|]. intros [[|t l]|err]; apply clean_reading; auth_calls.
  - case_bool_decide; [apply clean_reading; auth_calls|]. destruct (RoleToScopes role); [|apply clean_reading; auth_calls]. apply clean_CreateUser.
  - apply clean_DeleteUser.
  - apply clean_then, silent_FetchUserList.
  - apply clean_after; [apply silent_FetchUser|]. intros [[u|]|err]; apply clean_reading; auth_calls.
  - destruct (MustGetVisitor _ _); [|apply clean_reading; auth_calls]. destruct (_ && _); [apply clean_reading; auth_calls|]. apply clean_UpdateUserPassword.
  - apply clean_after; [apply silent_FetchUser|]. intros [[u|]|err]; [apply clean_UpdateUserRole|apply clean_reading; auth_calls..].
Qed.
End Requests.

(** The new password is stored, but the answer of the statement is lost. *)
Example auth_requests_atomic_witness :
  let ctx := mkAuthContext (Some (newFakeVisitor ScopeSystem)) None None in
  let p := route sample_error sample_config 0 ctx (PatchPassword "reader" "" "a-new-secret") in
  let os := (replicate 3 Normal ++ [FailAfter])%list in
  (exec [] p sample_world).1 = Some (Ok NoData) /\ (exec os p sample_world).1 = Some (Err DaoError) /\
  same_tables sample_world (exec os p sample_world).2.
Proof.
  cbv zeta. split; [vm_compute; reflexivity|]. split; [vm_compute; reflexivity|].
  destruct (auth_requests_atomic sample_error sample_config (mkAuthContext (Some (newFakeVisitor ScopeSystem)) None None) 0
    (PatchPassword "reader" "" "a-new-secret") (replicate 3 Normal ++ [FailAfter])%list sample_world DaoError) as [H|H];
    [vm_compute; reflexivity|exact H|vm_compute in H; discriminate H].
Defined.
(** The new password is stored and committed, and the answer of COMMIT is
    lost: the request is answered with an error, and the password is new. *)
Example password_changed_all_the_same :
  let ctx := mkAuthContext (Some (newFakeVisitor ScopeSystem)) None None in
  let p := route sample_error sample_config 0 ctx (PatchPassword "reader" "" "a-new-secret") in
  let os := (replicate 4 Normal ++ [FailAfter])%list in
  (exec os p sample_world).1 = Some (Err DaoError) /\ aw_users (exec os p sample_world).2 <> aw_users sample_world.
Proof. cbv zeta. split; [vm_compute; reflexivity|]. vm_compute. discriminate. Qed.
