(* ===== verification/AuthAccess.v ===== *)
(** Who may do what: only administrators change users and tokens, and only
    they see the values of tokens. *)
From Stdlib Require Import ZArith Lia Ascii.
From stdpp Require Import base tactics numbers list strings gmap option.
From S2P Require Import Prelude GoStrings GoTime Prog XCrypto Validate OperLog AuthModel AuthManager AuthEndpoints AuthInvariant AuthHistory AuthLogin AuthAtomic.

Local Open Scope string_scope.

(** * Permissions *)

Definition admin_visitor (v : Visitor) : Prop := IsAdmin v = true \/ HasScope v ScopeSystem = true.

(** What the table of the read-only administrator allows. *)
Lemma readonly_permissions f a : feature_granted [ScopeSystemReadonly] f a = IsAllowed actionReadonly a.
Proof. unfold feature_granted. cbn -[IsAllowed]. rewrite orb_false_r. by destruct f. Qed.

(** Actions on users and tokens that only the scope [System] has. *)
Lemma scope_grants_change scope f a : f = FeatureUser \/ f = FeatureToken -> a = ActionCreate \/ a = ActionDelete \/ a = ActionUpdate ->
  match scope2permission scope f with Some action => IsAllowed action a | None => false end = true -> scope = ScopeSystem.
Proof.
  intros Hf Ha. unfold scope2permission. repeat case_bool_decide; subst; [done|..];
    destruct Hf as [-> | ->], Ha as [-> | [-> | ->]]; discriminate.
Qed.
Lemma granted_change scopes f a : f = FeatureUser \/ f = FeatureToken -> a = ActionCreate \/ a = ActionDelete \/ a = ActionUpdate ->
  feature_granted scopes f a = true -> existsb (fun s => bool_decide (s = ScopeSystem)) scopes = true.
Proof.
  intros Hf Ha. unfold feature_granted. rewrite !existsb_exists. intros (s & Hin & Hs). exists s. split; [done|].
  apply bool_decide_eq_true. by eapply scope_grants_change.
Qed.

Section Access.
Context `{!Crypto}.
Variable Error : goerr -> string.
Variable cfg : AuthConfig.

(** What an authorizer that asks for no product lets through. *)
Lemma authorizate_passes ctx f a os w : (exec os (Authorizate cfg ctx (NewFeatureAuthorization f a)) w).1 = Ok tt ->
  exists v, MustGetVisitor cfg ctx = Ok v /\ (IsAdmin v = true \/ feature_granted (GetScopes v) f a = true).
Proof.
  unfold Authorizate. destruct (MustGetVisitor cfg ctx) as [v|e]; [|done]. destruct (IsAdmin v) eqn:Ea; [eauto|].
  cbn [az_Feature az_Action NewFeatureAuthorization]. destruct (feature_granted _ _ _) eqn:Eg; cbn [negb]; [eauto|done].
Qed.

Lemma change_authorized {A} ctx f a (h : prog authE (result A)) os w :
  f = FeatureUser \/ f = FeatureToken -> a = ActionCreate \/ a = ActionDelete \/ a = ActionUpdate ->
  aw_data (exec os (authorized cfg ctx (NewFeatureAuthorization f a) h) w).2 <> aw_data w ->
  exists v, MustGetVisitor cfg ctx = Ok v /\ admin_visitor v.
Proof.
  intros Hf Ha. unfold authorized. rewrite exec_bind.
  pose proof (authorizate_passes ctx f a os w) as Hp. pose proof (silent_Authorizate cfg ctx (NewFeatureAuthorization f a) os w) as Hs.
  destruct (exec os _ w) as [[[]|e] w1]; cbn [fst snd] in *; [|rewrite exec_ret; intros Hd; by destruct Hd].
  intros _. destruct (Hp eq_refl) as (v & Hv & Hg). exists v. split; [done|].
  destruct Hg as [Hg|Hg]; [by left|right]. unfold HasScope. by eapply granted_change.
Qed.

Lemma answering_data {A} (f : A -> auth_answer) (p : prog authE (result A)) os w :
  aw_data (exec os (answering f p) w).2 = aw_data (exec os p w).2.
Proof. unfold answering. rewrite exec_bind. by destruct (exec os p w). Qed.

Lemma silent_authorized {A} ctx auth (h : prog authE (result A)) : silent same_tables h -> silent same_tables (authorized cfg ctx auth h).
Proof.
  intros Hh. apply (silent_bind same_tables); [apply silent_Authorizate|]. intros [z|e]; [exact Hh|apply silent_reads; constructor].
Qed.
Lemma silent_checked {A} v (p : prog authE (result A)) : silent same_tables p -> silent same_tables (checked v p).
Proof. intros Hp. destruct v; cbn [checked]; [exact Hp|apply silent_reads; constructor..]. Qed.

Definition is_session_request (q : auth_request) : bool :=
  match q with PostSessionKey _ _ | DeleteSessionKey _ => true | _ => false end.

(** C33: apart from logging in and out, which every one may do, a request only
    changes users, tokens, roles, passwords and bindings when its visitor is an
    administrator or holds the scope [System]: not without a visitor, not as a
    read-only administrator, not by a token for support, nor by any other
    scope, and whatever calls fail. *)
Theorem only_admins_change_users fuel ctx q os w :
  aw_data (exec os (route Error cfg fuel ctx q) w).2 <> aw_data w -> is_session_request q = false ->
  exists v, MustGetVisitor cfg ctx = Ok v /\ admin_visitor v.
Proof.
  intros Hd Hq. destruct q; try discriminate Hq; cbn [route] in Hd; rewrite answering_data in Hd;
    try (eapply change_authorized; [| |exact Hd]; auto; done); exfalso; apply Hd; apply silent_authorized.
  - apply (silent_bind same_tables); [apply silent_FetchTokens|]. intros [l|e]; apply silent_reads; constructor.
  - apply silent_checked, (silent_bind same_tables); [apply silent_FetchTokens|]. intros [[|t l]|e]; apply silent_reads; constructor.
  - apply (silent_bind same_tables); [apply silent_FetchUserList|]. intros [l|e]; apply silent_reads; constructor.
  - apply silent_checked, (silent_bind same_tables); [apply silent_FetchUser|]. intros [[u|]|e]; apply silent_reads; constructor.
Qed.

(** * Visitors that authentication lets in *)

Definition known_visitor (v : Visitor) : Prop :=
  match v with
  | VisitorUser u => (u_Admin u = true /\ u_Scopes u = [ScopeSystem]) \/ (u_Admin u = false /\ u_Scopes u = [ScopeSystemReadonly])
  | VisitorToken t => tk_Scope t ∈ [ScopeSystem; ScopeSupport]
  end.

Lemma known_user r : sound_row r -> tu_Type r = UserTypeNormal -> known_visitor (VisitorUser (userD2M r)).
Proof.
  intros [(_ & Hs & _)|(Ht & _)] Hn; [|unfold UserTypeToken, UserTypeNormal in *; congruence].
  cbn. apply list.elem_of_cons in Hs as [-> |Hs%list_elem_of_singleton]; [by left|]. rewrite Hs. by right.
Qed.
Lemma known_token r : sound_row r -> tu_Type r = UserTypeToken -> known_visitor (VisitorToken (tokenD2M r)).
Proof.
  intros [(Ht & _)|(_ & Hs & _)] Hn; [unfold UserTypeToken, UserTypeNormal in *; congruence|]. exact Hs.
Qed.

Lemma FetchUserRow_known d s f : sound_data d s -> hoare (holds d s) (FetchUserRow f) (fun r w => holds d s w /\
  forall u, r = Ok (Some u) -> known_visitor (VisitorUser u)).
Proof.
  intros Hd. eapply hoare_post; [|apply FetchUserRow_spec]. intros r w [Hw Hr]. split; [done|]. intros u ->.
  destruct Hr as (row & (Hin & Ht & ->) & _). apply known_user; [|done]. by apply (rows_sound _ (proj1 Hd)).
Qed.

Lemma password_body_known fuel n p : hoare auth_sound (password_body cfg fuel n p)
  (fun r _ => r.1 = None -> forall v, r.2 = Some (Some v) -> known_visitor v).
Proof.
  unfold password_body. apply sound_holds. intros d s Hd. eapply hoare_bind; [by apply FetchUserRow_known|].
  intros [[u|]|e]; [|by apply hoare_ret..]. apply hoare_fact. intros Hu. specialize (Hu u eq_refl).
  destruct (CheckPassword _ _) as [ok mig]. destruct (negb ok); [by apply hoare_ret|].
  apply (hoare_bind _ _ _ (fun _ _ => True)); [done|]. intros [h|e]; [|by apply hoare_ret].
  apply (hoare_bind _ _ _ (fun _ _ => True)); [done|]. intros [[k|e]|]; [|by apply hoare_ret..].
  apply (hoare_bind _ _ _ (fun _ _ => True)); [done|]. intros now.
  apply (hoare_bind _ _ _ (fun _ _ => True)); [done|]. intros r. apply hoare_ret. intros w _ _ v [= <-]. exact Hu.
Qed.

Lemma authenticated_known fuel t i e : ac_SkipTokenValidate cfg = false ->
  hoare auth_sound (Authenticate cfg fuel t i e) (fun r _ => forall v, r = Some (Ok v) -> known_visitor v).
Proof.
  intros Hskip. unfold Authenticate. case_bool_decide; [|case_bool_decide; [|case_bool_decide; [|case_bool_decide]]].
  - unfold authTypePassword. apply sound_holds. intros d s Hd. eapply hoare_bind.
    + apply (transaction_works d s _ _ (fun r _ => forall v, r = Some (Some v) -> known_visitor v)); [done|].
      apply holds_sound; [|apply password_body_known]. split; [exact (proj1 Hd)|intros d' [= <-]; exact (proj1 Hd)].
    + intros [err r]. apply hoare_ret. intros w Hw v. destruct err as [err|], r as [[v'|]|]; try discriminate.
      intros [= <-]. by apply (Hw eq_refl).
  - eapply (hoare_bind _ _ _ (fun r _ => forall v, r = Ok v -> known_visitor v)); [|intros r; apply hoare_ret; intros w Hw v [= ->]; by apply Hw].
    unfold authTypeSession. apply sound_holds. intros d s Hd. eapply hoare_bind; [by apply FetchUserRow_known|].
    intros [[u|]|err]; [|by apply hoare_ret..]. apply hoare_fact. intros Hu. specialize (Hu u eq_refl).
    apply (hoare_bind _ _ _ (fun _ _ => True)); [done|]. intros now. destruct (_ <? _)%Z; apply hoare_ret; [done|]. by intros w _ v [= <-].
  - eapply (hoare_bind _ _ _ (fun r _ => forall v, r = Ok v -> known_visitor v)); [|intros r; apply hoare_ret; intros w Hw v [= ->]; by apply Hw].
    unfold authTypeToken. apply sound_holds. intros d s Hd. eapply hoare_bind; [apply FetchTokenRows_spec|].
    intros [[|tk l]|err]; [by apply hoare_ret| |by apply hoare_ret]. apply hoare_ret. intros w [_ Hl] v [= <-].
    specialize (Hl _ eq_refl). destruct (List.filter _ _) as [|r l'] eqn:E; [discriminate|]. injection Hl as -> _.
    assert (In r (r :: l')) as Hin by (by left). rewrite <- E in Hin. apply filter_In in Hin as [Hin Hq].
    apply list_elem_of_In in Hin. apply known_token; [by apply (rows_sound _ (proj1 Hd))|].
    unfold where_user in Hq. cbn in Hq. rewrite !andb_true_iff, bool_decide_eq_true in Hq. tauto.
  - unfold authTypeSkip. rewrite Hskip. by apply hoare_ret.
  - by apply hoare_ret.
Qed.

Lemma probed_known info fuel header os w ctx : ac_SkipTokenValidate cfg = false -> auth_sound w ->
  (exec os (UserProbeAction cfg (mkAuthContext None None info) fuel header) w).1 = Some (Ok ctx) ->
  forall v, cx_Visitor ctx = Some v -> known_visitor v.
Proof.
  intros Hskip Hw. unfold UserProbeAction. case_bool_decide; [by intros [= <-] v|].
  destruct (Cut header " ") as [[t i]|]; [|done]. rewrite exec_bind, exec_ret. cbn [fst].
  pose proof (authenticated_known fuel t i "" Hskip os w Hw) as Hk.
  destruct (exec os _ w) as [[[v'|e]|] w1]; cbn [fst snd] in *; [|done..]. intros [= <-] v [= <-]. by apply Hk.
Qed.

(** Whoever asks for the tokens is answered with their values only as an
    administrator: another visitor that is answered at all is shown, for every
    token of the tables, the mask of its value.  This holds of every request
    in a world that requests have made, whatever calls fail, unless the
    process skips the check of tokens altogether. *)
Theorem token_values_for_admins_only fuel info header os w l :
  auth_sound w -> ac_SkipTokenValidate cfg = false ->
  (exec os (serve Error cfg fuel info header GetTokens) w).1 = Some (Ok (Tokens l)) ->
  exists ctx v, (exec os (UserProbeAction cfg (mkAuthContext None None info) fuel header) w).1 = Some (Ok ctx) /\
    cx_Visitor ctx = Some v /\
    (IsAdmin v = true \/ forall t, t ∈ l -> exists value, td_Token t = Secret value).
Proof.
  intros Hw Hskip. unfold serve. rewrite exec_bind.
  pose proof (probed_known info fuel header os w) as Hk.
  destruct (exec os (UserProbeAction _ _ _ _) w) as [[[ctx|e]|] w1]; cbn [fst snd] in *; [|rewrite exec_ret; discriminate..].
  specialize (Hk ctx Hskip Hw eq_refl). set (os1 := leftover _ _ _). cbn [route]. unfold answering, TokenListEndpoint, authorized.
  rewrite !exec_bind, !exec_ret. cbn [fst snd]. pose proof (authorizate_passes ctx FeatureToken ActionReadAll os1 w1) as Ha.
  destruct (exec os1 (Authorizate _ _ _) w1) as [[[]|e] w2]; cbn [fst snd] in *; [|by rewrite exec_ret].
  destruct (Ha eq_refl) as (v & Hv & Hg). unfold MustGetVisitor in Hv. destruct (cx_Visitor ctx) as [v'|] eqn:Ev;
    [|rewrite Hskip in Hv; discriminate]. injection Hv as ->. specialize (Hk v eq_refl).
  intros Hl. exists ctx, v. split; [done|]. split; [done|]. destruct Hg as [Hg|Hg]; [by left|].
  destruct (IsAdmin v) eqn:Eadm; [by left|right].
  unfold TokenListAction in Hl. rewrite exec_bind in Hl.
  destruct (exec _ (FetchTokens None) w2) as [[toks|e] w3]; cbn [fst snd] in Hl; rewrite exec_ret in Hl; cbn [fst] in Hl; [|done].
  unfold maskTokensIfReadonly, MustGetVisitor in Hl. rewrite Ev in Hl.
  assert (IsSystemReadonly v = true) as Er.
  { unfold IsSystemReadonly. rewrite Eadm. destruct v as [u|t].
    - destruct Hk as [[Hk _]|[_ Hk]]; [cbn in Eadm; congruence|]. unfold HasScope. cbn. unfold User_GetScopes. by rewrite Hk.
    - cbn in Hk. apply list.elem_of_cons in Hk as [Hk|Hk%list_elem_of_singleton].
      + cbn in Eadm. unfold Token_IsAdmin in Eadm. by rewrite Hk in Eadm.
      + cbn in Hg. rewrite Hk in Hg. discriminate Hg. }
  rewrite Er in Hl. cbn [negb] in Hl. injection Hl as <-. intros t Ht.
  apply list_elem_of_In, in_map_iff in Ht as (x & <- & _). by eexists.
Qed.
End Access.

Definition admin_context : AuthContext := mkAuthContext (Some (VisitorUser (userD2M admin_row))) None None.

Example only_admins_change_users_witness :
  let p := route sample_error sample_config 0 admin_context (DeleteUserRequest "reader") in
  length (aw_users (exec [] p sample_world).2) = 1%nat /\
  exists v, MustGetVisitor sample_config admin_context = Ok v /\ admin_visitor v.
Proof.
  cbv zeta. split; [vm_compute; reflexivity|].
  apply (only_admins_change_users sample_error sample_config 0 admin_context (DeleteUserRequest "reader") [] sample_world); [|reflexivity].
  vm_compute. discriminate.
Defined.

(** The world with a token, and the read-only administrator who asks. *)
Definition token_history : list incoming :=
  [mkIncoming 2 None "Session ERITFBUWFxgZGhscHR4f" (PostToken "robot" ScopeSystem)].
Definition token_world : aworld := (exec [] (serve_all sample_error sample_config token_history) sample_world).2.

Example token_values_for_admins_only_witness :
  exists l ctx v, map td_Name l = ["robot"] /\
    (exec [] (UserProbeAction sample_config (mkAuthContext None None None) 0 "Session MzQ1Njc4OTo7PD0-P0BB") token_world).1 = Some (Ok ctx) /\
    cx_Visitor ctx = Some v /\ (IsAdmin v = true \/ forall t, t ∈ l -> exists value, td_Token t = Secret value).
Proof.
  assert (exists l, map td_Name l = ["robot"] /\
    (exec [] (serve sample_error sample_config 0 None "Session MzQ1Njc4OTo7PD0-P0BB" GetTokens) token_world).1 = Some (Ok (Tokens l))) as (l & Hl & He).
  { eexists. split; [|vm_compute; reflexivity]. reflexivity. }
  exists l. destruct (token_values_for_admins_only sample_error sample_config 0 None "Session MzQ1Njc4OTo7PD0-P0BB" [] token_world l)
    as (ctx & v & H); [do 2 apply serve_all_sound; apply first_world_sound|reflexivity|exact He|].
  exists ctx, v. split; [exact Hl|exact H].
Defined.

(** The user [admin] deletes itself: nobody is left who may change anything,
    and the name is refused for a new user. *)
Example last_administrator_can_be_deleted :
  let w := (exec [] (route sample_error sample_config 0 admin_context (DeleteUserRequest "admin")) sample_world).2 in
  map (fun r => (tu_Name r, tu_Scopes r)) (aw_users w) = [("reader", ScopeSystemReadonly)] /\
  (exec [] (route sample_error sample_config 0 admin_context (PostUser "admin" "third-secret" RoleSystemAdmin)) w).1 =
    Some (Err (ParamError "user_name %q is reserved")).
Proof. split; vm_compute; reflexivity. Qed.
