(* ===== verification/ProviderModel.v ===== *)
(** Providers of models ([model/iprovider/provider.go]): the data, the
    validators of requests, the defaults, the pool of instances that counts,
    and the merge of an update.

    A nil slice is told apart from an empty one where the code does so.  A Go
    map is the list of its entries, one per key, in the order in which a range
    happens to visit them. *)
From Stdlib Require Import ZArith Lia Ascii.
From stdpp Require Import base tactics numbers list strings option.
From S2P Require Import Prelude GoStrings GoNet Validate.

Local Open Scope string_scope.

Definition MaxProviderNameLength : nat := 64.
Definition MaxProviderKeyLength : nat := 512.
Definition MaxProviderDescriptionLength : nat := 256.
Definition MaxK8sPoolNameLength : nat := 64.

Definition InstanceSourceInstancePool : string := "instance_pool".
Definition InstanceSourceK8sPool : string := "k8s_pool".
Definition ValidModelProtocols : list string := ["openai"; "anthropic"; "gemini"].

(** * Data *)

Record ProviderEndpoint : Type := mkEndpoint { pe_Schema : string; pe_URI : string }.
Record ProviderKey : Type := mkProviderKey { pk_Name : string; pk_Key : string }.
Record ProviderInstance : Type := mkProviderInstance {
  pi_Addr : string; pi_Port : Z; pi_Weight : Z; pi_Disable : bool
}.
Record TimeRange : Type := mkTimeRange { tr_Weekdays : list Z; tr_Start : string; tr_End : string }.
Record PricingTier : Type := mkTier { pt_Name : string; pt_TimeRanges : list TimeRange }.

#[export] Instance provider_endpoint_eq_dec : EqDecision ProviderEndpoint.
Proof. solve_decision. Defined.
#[export] Instance provider_key_eq_dec : EqDecision ProviderKey.
Proof. solve_decision. Defined.
#[export] Instance provider_instance_eq_dec : EqDecision ProviderInstance.
Proof. solve_decision. Defined.
#[export] Instance time_range_eq_dec : EqDecision TimeRange.
Proof. solve_decision. Defined.
#[export] Instance pricing_tier_eq_dec : EqDecision PricingTier.
Proof. solve_decision. Defined.

(** The times of creation and update are left out. *)
Record Provider : Type := mkProvider {
  pv_ID : Z; pv_Name : string; pv_Description : string;
  pv_ModelEndpoint : ProviderEndpoint;
  pv_Models : option (list string); pv_Keys : option (list ProviderKey);
  pv_InstancePool : option (list ProviderInstance);
  pv_InstanceSource : string; pv_K8sPoolName : option string; pv_K8sInstancePool : list ProviderInstance;
  pv_ModelProtocols : option (list string); pv_ProtocolPaths : option (list (string * string));
  pv_TimeZone : string; pv_Tiers : list PricingTier
}.

Record ProviderParam : Type := mkProviderParam {
  pp_Name : option string; pp_Description : option string;
  pp_ModelEndpoint : option ProviderEndpoint;
  pp_Models : option (list string); pp_Keys : option (list ProviderKey);
  pp_InstancePool : option (list ProviderInstance);
  pp_InstanceSource : option string; pp_K8sPoolName : option string;
  pp_K8sInstancePool : option (list ProviderInstance);
  pp_ModelProtocols : option (list string); pp_ProtocolPaths : option (list (string * string));
  pp_TimeZone : option string; pp_Tiers : option (list PricingTier)
}.
Definition noProviderParam : ProviderParam :=
  mkProviderParam None None None None None None None None None None None None None.

Record PricingTiersParam : Type := mkPricingTiers { pts_TimeZone : string; pts_Tiers : option (list PricingTier) }.

Record ProviderFilter : Type := mkProviderFilter {
  pf_ID : option Z; pf_Name : option string; pf_Names : list string; pf_ModelProtocol : option string;
  pf_InstanceSource : option string; pf_K8sPoolName : option string; pf_Page : option Z; pf_PageSize : option Z
}.
Definition noProviderFilter : ProviderFilter := mkProviderFilter None None [] None None None None None.
Definition byProviderName (name : string) : ProviderFilter := mkProviderFilter None (Some name) [] None None None None None.
Definition byProviderID (id : Z) : ProviderFilter := mkProviderFilter (Some id) None [] None None None None None.

(** The elements of a slice that may be nil. *)
Definition items {A} (s : option (list A)) : list A := default [] s.

(** * Times of day *)

(** [parseHHMM]; [strconv.Atoi] accepts a sign. *)
Definition parseHHMM (s : string) : option Z :=
  if negb (String.length s =? 5)%nat || negb (bool_decide (String.get 2 s = Some ":"%char)) then None else
  match ParseInt (String.substring 0 2 s), ParseInt (String.substring 3 2 s) with
  | Some h, Some m => if (h <? 0) || (23 <? h) || (m <? 0) || (59 <? m) then None else Some (h * 60 + m)
  | _, _ => None
  end%Z.

Definition check_weekday (wd : Z) (seenWeekday : list Z) : verdict * list Z :=
  (refuse_if ((wd <? 0) || (6 <? wd))%Z "weekdays must be between 0 and 6" &>
   refuse_if (bool_decide (wd ∈ seenWeekday)) "duplicate weekday: %d", wd :: seenWeekday).

Definition validateTimeRange (tr : TimeRange) : verdict :=
  fst (check_each check_weekday (tr_Weekdays tr) []) &>
  match parseHHMM (tr_Start tr) with
  | None => Refuse (ParamError "invalid start time: %v")
  | Some start =>
      match parseHHMM (tr_End tr) with
      | None => Refuse (ParamError "invalid end time: %v")
      | Some stop => refuse_if (stop <=? start)%Z "end must be greater than start"
      end
  end.

(** A time that does not parse counts as zero here. *)
Definition timeRangesOverlap (a b : TimeRange) : bool :=
  let sharedWeekday :=
    (length (tr_Weekdays a) =? 0)%nat || (length (tr_Weekdays b) =? 0)%nat ||
    existsb (fun wdA => existsb (fun wdB => (wdA =? wdB)%Z) (tr_Weekdays b)) (tr_Weekdays a) in
  if negb sharedWeekday then false else
  let ast := default 0%Z (parseHHMM (tr_Start a)) in
  let aet := default 0%Z (parseHHMM (tr_End a)) in
  let bst := default 0%Z (parseHHMM (tr_Start b)) in
  let bet := default 0%Z (parseHHMM (tr_End b)) in
  ((ast <? bet) && (bst <? aet))%Z.

(** [fmt.Sprintf] with verb [%v] of a slice of integers *)
Definition ints_text (l : list Z) : string := "[" +:+ String.concat " " (map FormatInt l) +:+ "]".
Definition range_key (tr : TimeRange) : string := ints_text (tr_Weekdays tr) +:+ "|" +:+ tr_Start tr +:+ "|" +:+ tr_End tr.

(** The state: the keys that were seen, and the ranges before this one. *)
Definition check_range (tr : TimeRange) (s : list string * list TimeRange) : verdict * (list string * list TimeRange) :=
  let '(seenRange, before) := s in
  (refuse_if (seen (range_key tr) seenRange) "tiers[%d].time_ranges[%d]: duplicate time range" &>
   wrapped (validateTimeRange tr) "tiers[%d].time_ranges[%d]: %v" &>
   refuse_if (existsb (timeRangesOverlap tr) before) "tiers[%d].time_ranges[%d] overlaps with time_ranges[%d]",
   (range_key tr :: seenRange, (before ++ [tr])%list)).

Definition check_tier (tier : PricingTier) (seenTier : list string) : verdict * list string :=
  (refuse_if (bool_decide (TrimSpace (pt_Name tier) = "")) "tiers[%d].name is required" &>
   refuse_if (negb (bool_decide (pt_Name tier = "peak"))) "tiers[%d].name: unsupported tier name %s, only 'peak' is allowed" &>
   refuse_if (seen (pt_Name tier) seenTier) "duplicate tier name: %s" &>
   refuse_if (length (pt_TimeRanges tier) =? 0)%nat "tiers[%d].time_ranges is required" &>
   fst (check_each check_range (pt_TimeRanges tier) ([], [])),
   pt_Name tier :: seenTier).

Definition validatePricingTiers (tiers : list PricingTier) : verdict := fst (check_each check_tier tiers []).

(** * Names and texts *)

Definition ProviderName (s : string) : verdict :=
  refuse_if ((String.length s <? 1)%nat || (MaxProviderNameLength <? String.length s)%nat)
    "provider name length must be between 1 and %d" &>
  refuse_if (negb (nameToken s)) "provider name contains invalid characters" &>
  edges s ["."; "-"; "_"]%char "provider name cannot start or end with '.', '-', or '_'".

(** Control characters are one byte in every text, and no byte of a longer
    rune is below 128. *)
Definition validateProviderDescription (s : string) : verdict :=
  refuse_if (MaxProviderDescriptionLength <? String.length s)%nat "description length must be <= %d" &>
  refuse_if (negb (all_bytes (fun c => negb (is_control c)) s)) "description contains control characters".

Definition K8sPoolNameOk (s : string) : verdict :=
  refuse_if ((String.length s <? 1)%nat || (MaxK8sPoolNameLength <? String.length s)%nat)
    "k8s_pool_name length must be between 1 and %d" &>
  refuse_if (negb (bool_decide (TrimSpace s = s))) "k8s_pool_name must not contain whitespace" &>
  refuse_if (negb (nameToken s)) "k8s_pool_name contains invalid characters" &>
  edges s ["."; "-"; "_"]%char "k8s_pool_name cannot start or end with '.', '-', or '_'".

(** * Instances *)

Definition instance_key (addr : string) (port : Z) : string := addr +:+ "|" +:+ FormatInt port.

(** The state: the pairs that were seen, and whether some weight was positive. *)
Definition check_instance (inst : ProviderInstance) (s : list string * bool) : verdict * (list string * bool) :=
  let '(comboSet, positive) := s in
  let key := instance_key (pi_Addr inst) (pi_Port inst) in
  (refuse_if (bool_decide (TrimSpace (pi_Addr inst) = "")) "instance_pool[%d]: instance addr is required" &>
   refuse_if ((pi_Port inst <=? 0) || (65535 <? pi_Port inst))%Z "instance_pool[%d]: instance port must be between 1 and 65535" &>
   refuse_if ((pi_Weight inst <? 0) || (100 <? pi_Weight inst))%Z "instance_pool[%d]: instance weight must be between 0 and 100" &>
   refuse_if (seen key comboSet) "instance_pool: duplicate instance addr/port combination: %s",
   (key :: comboSet, positive || (0 <? pi_Weight inst)%Z)).

Definition validateProviderInstancePool (instances : list ProviderInstance) : verdict :=
  refuse_if (length instances =? 0)%nat "instance_pool is required" &>
  let '(v, (_, hasPositiveWeight)) := check_each check_instance instances ([], false) in
  v &> refuse_if (negb hasPositiveWeight) "instance_pool must have at least one instance with weight > 0".

Definition validateProviderInstanceSource (param : ProviderParam) : verdict :=
  refuse_if (match pp_K8sInstancePool param with Some _ => true | None => false end) "k8s_instance_pool is read-only and cannot be set in a request" &>
  let source := default InstanceSourceInstancePool (pp_InstanceSource param) in
  (if bool_decide (source = InstanceSourceInstancePool) then validateProviderInstancePool (items (pp_InstancePool param))
   else if bool_decide (source = InstanceSourceK8sPool) then
     refuse_if (blank (pp_K8sPoolName param)) "k8s_pool_name is required when instance_source is %s"
   else Refuse (ParamError "invalid instance_source: %s (expect %s or %s)")) &>
  if_set (pp_K8sPoolName param) K8sPoolNameOk.

(** * Requests *)

Definition validateUpstreamBasePath (base : string) : verdict :=
  refuse_if (bool_decide (base = "")) "base path is empty" &>
  refuse_if (128 <? String.length base)%nat "base path length must be <= 128" &>
  refuse_if (negb (HasPrefix base "/")) "base path must start with '/'" &>
  refuse_if (slash_end base) "base path must not end with '/'" &>
  refuse_if (has_byte base "?" || has_byte base "#") "base path must not contain '?' or '#'" &>
  refuse_if (Contains base "..") "base path must not contain '..'".

Definition check_path (declared : list string) (entry : string * string) (s : unit) : verdict * unit :=
  let '(proto, base) := entry in
  (refuse_if (negb (bool_decide (proto = "openai")) && negb (bool_decide (proto = "anthropic")))
     "protocol_paths: unsupported protocol %q (expect openai or anthropic)" &>
   refuse_if (negb (among proto declared)) "protocol_paths: protocol %q not declared in model_protocols" &>
   wrapped (validateUpstreamBasePath base) "protocol_paths[%s]: %s", s).
Definition validateProviderProtocolPaths (paths : list (string * string)) (modelProtocols : list string) : verdict :=
  fst (check_each (check_path modelProtocols) paths tt).

Definition check_protocol (p : string) (seenProtocol : list string) : verdict * list string :=
  (refuse_if (bool_decide (p = "")) "model_protocols[%d] cannot be empty" &>
   refuse_if (negb (among p ValidModelProtocols)) "invalid model_protocols[%d]: %s" &>
   refuse_if (seen p seenProtocol) "duplicate model_protocol: %s", p :: seenProtocol).
Definition check_provider_model (m : string) (seenModel : list string) : verdict * list string :=
  (refuse_if (bool_decide (TrimSpace m = "")) "models[%d] cannot be empty" &>
   refuse_if (seen m seenModel) "duplicate model: %s", m :: seenModel).
Definition check_provider_key (k : ProviderKey) (seenKey : list string) : verdict * list string :=
  (refuse_if (bool_decide (TrimSpace (pk_Name k) = "")) "keys[%d].name is required" &>
   refuse_if ((String.length (pk_Name k) <? 1)%nat || (128 <? String.length (pk_Name k))%nat)
     "keys[%d].name length must be between 1 and 128" &>
   refuse_if (seen (pk_Name k) seenKey) "duplicate key name: %s" &>
   refuse_if (bool_decide (TrimSpace (pk_Key k) = "")) "keys[%d].key is required" &>
   refuse_if (MaxProviderKeyLength <? String.length (pk_Key k))%nat "keys[%d].key length must be <= %d",
   pk_Name k :: seenKey).

(** The schema and the path that an endpoint lacks; the validator fills them
    into the parameter itself. *)
Definition filled_endpoint (e : ProviderEndpoint) : ProviderEndpoint :=
  mkEndpoint (if bool_decide (pe_Schema e = "") then "https" else pe_Schema e)
    (if bool_decide (pe_URI e = "") then "/v1/models" else pe_URI e).
Definition put_endpoint (e : option ProviderEndpoint) (p : ProviderParam) : ProviderParam :=
  mkProviderParam (pp_Name p) (pp_Description p) e (pp_Models p) (pp_Keys p) (pp_InstancePool p)
    (pp_InstanceSource p) (pp_K8sPoolName p) (pp_K8sInstancePool p) (pp_ModelProtocols p) (pp_ProtocolPaths p)
    (pp_TimeZone p) (pp_Tiers p).
Definition check_endpoint (e : ProviderEndpoint) : verdict :=
  let e := filled_endpoint e in
  refuse_if (negb (bool_decide (pe_Schema e = "http")) && negb (bool_decide (pe_Schema e = "https")))
    "model_endpoint.schema must be http or https" &>
  refuse_if (negb (HasPrefix (pe_URI e) "/")) "model_endpoint.uri must start with '/'".

Section Validation.
(** [time.LoadLocation]: whether the zone database of the host has a zone *)
Variable LoadLocation : string -> bool.

Definition validateTimeZone (tz : string) : verdict :=
  if bool_decide (TrimSpace tz = "") then Accept else refuse_if (negb (LoadLocation tz)) "invalid time_zone: %s".

Definition ValidatePricingTiersParam (param : PricingTiersParam) : verdict :=
  validateTimeZone (pts_TimeZone param) &> validatePricingTiers (items (pts_Tiers param)).

Definition ValidateProviderParam (param : ProviderParam) : verdict :=
  refuse_if (blank (pp_Name param)) "provider name is required" &>
  if_set (pp_Name param) ProviderName &>
  if_set (pp_Description param) validateProviderDescription &>
  validateProviderInstanceSource param &>
  refuse_if (length (items (pp_ModelProtocols param)) =? 0)%nat "model_protocols is required" &>
  fst (check_each check_protocol (items (pp_ModelProtocols param)) []) &>
  validateProviderProtocolPaths (items (pp_ProtocolPaths param)) (items (pp_ModelProtocols param)) &>
  if_set (pp_ModelEndpoint param) check_endpoint &>
  if_set (pp_Models param) (fun models =>
    refuse_if (length models =? 0)%nat "models must have at least one element" &>
    fst (check_each check_provider_model models [])) &>
  fst (check_each check_provider_key (items (pp_Keys param)) []) &>
  if_set (pp_TimeZone param) validateTimeZone &>
  validatePricingTiers (items (pp_Tiers param)).
End Validation.

(** What the validator leaves in the parameter that it accepts. *)
Definition validated (param : ProviderParam) : ProviderParam :=
  put_endpoint (option_map filled_endpoint (pp_ModelEndpoint param)) param.

(** * Defaults *)

Definition DefaultModelEndpoint : ProviderEndpoint := mkEndpoint "https" "/v1/models".

Definition FillDefaults (p : ProviderParam) : ProviderParam :=
  mkProviderParam (pp_Name p) (pp_Description p)
    (Some (match pp_ModelEndpoint p with None => DefaultModelEndpoint | Some e => filled_endpoint e end))
    (Some (items (pp_Models p))) (Some (items (pp_Keys p))) (pp_InstancePool p)
    (Some (default InstanceSourceInstancePool (pp_InstanceSource p))) (pp_K8sPoolName p) (pp_K8sInstancePool p)
    (pp_ModelProtocols p) (pp_ProtocolPaths p)
    (Some (default "Asia/Shanghai" (pp_TimeZone p))) (pp_Tiers p).

(** * The pool that counts, and merging *)

Definition EffectiveInstancePool (p : Provider) : list ProviderInstance :=
  if bool_decide (pv_InstanceSource p = InstanceSourceK8sPool) then pv_K8sInstancePool p else items (pv_InstancePool p).

(** [providerInstancePoolEqual], [providerKeysEqual], [providerModelsEqual]:
    the elements in their order; nil and empty are the same. *)
Fixpoint equal_lists {A} (eqb : A -> A -> bool) (a b : list A) : bool :=
  match a, b with
  | [], [] => true
  | x :: a, y :: b => eqb x y && equal_lists eqb a b
  | _, _ => false
  end.
Definition providerInstancePoolEqual : list ProviderInstance -> list ProviderInstance -> bool :=
  equal_lists (fun x y => bool_decide (pi_Addr x = pi_Addr y) && (pi_Port x =? pi_Port y)%Z &&
    (pi_Weight x =? pi_Weight y)%Z && Bool.eqb (pi_Disable x) (pi_Disable y)).
Definition providerKeysEqual : list ProviderKey -> list ProviderKey -> bool :=
  equal_lists (fun x y => bool_decide (pk_Name x = pk_Name y) && bool_decide (pk_Key x = pk_Key y)).
Definition providerModelsEqual : list string -> list string -> bool := equal_lists (fun x y => bool_decide (x = y)).

(** A field that is given replaces the old one. *)
Definition or_kept {A} (new : option A) (old : A) : A := default old new.
Definition or_kept_slice {A} (new old : option A) : option A := match new with Some _ => new | None => old end.

Definition applyProviderUpdate (existing : Provider) (param : ProviderParam) : Provider := {|
  pv_ID := pv_ID existing;
  pv_Name := or_kept (pp_Name param) (pv_Name existing);
  pv_Description := or_kept (pp_Description param) (pv_Description existing);
  pv_ModelEndpoint := or_kept (pp_ModelEndpoint param) (pv_ModelEndpoint existing);
  pv_Models := or_kept_slice (pp_Models param) (pv_Models existing);
  pv_Keys := or_kept_slice (pp_Keys param) (pv_Keys existing);
  pv_InstancePool := or_kept_slice (pp_InstancePool param) (pv_InstancePool existing);
  pv_InstanceSource := or_kept (pp_InstanceSource param) (pv_InstanceSource existing);
  pv_K8sPoolName := or_kept_slice (pp_K8sPoolName param) (pv_K8sPoolName existing);
  pv_K8sInstancePool := or_kept (pp_K8sInstancePool param) (pv_K8sInstancePool existing);
  pv_ModelProtocols := or_kept_slice (pp_ModelProtocols param) (pv_ModelProtocols existing);
  pv_ProtocolPaths := or_kept_slice (pp_ProtocolPaths param) (pv_ProtocolPaths existing);
  pv_TimeZone := or_kept (pp_TimeZone param) (pv_TimeZone existing);
  pv_Tiers := or_kept (pp_Tiers param) (pv_Tiers existing)
|}.

(** * Other helpers *)

(** [KeyMap]: a later key of the same name wins. *)
Definition KeyMap (keys : list ProviderKey) (name : string) : option string :=
  option_map pk_Key (List.find (fun k => bool_decide (pk_Name k = name)) (rev keys)).
Definition HasModel (p : option Provider) (model : string) : bool :=
  match p with None => false | Some p => existsb (fun m => bool_decide (m = model)) (items (pv_Models p)) end.
Definition BuildAuthHeader (protocol key : string) : string * string :=
  if bool_decide (protocol = "anthropic") then ("x-api-key", key)
  else if bool_decide (protocol = "gemini") then ("x-goog-api-key", key)
  else ("Authorization", "Bearer " +:+ key).

(** * Masking ([endpoints/openapi_v1/provider/list.go]) *)

Definition put_keys (keys : option (list ProviderKey)) (p : Provider) : Provider :=
  mkProvider (pv_ID p) (pv_Name p) (pv_Description p) (pv_ModelEndpoint p) (pv_Models p) keys (pv_InstancePool p)
    (pv_InstanceSource p) (pv_K8sPoolName p) (pv_K8sInstancePool p) (pv_ModelProtocols p) (pv_ProtocolPaths p)
    (pv_TimeZone p) (pv_Tiers p).
