(* ===== verification/ClusterModel.v ===== *)
(** Clusters, their sub-clusters and instance pools, and the pools that are
    discovered in Kubernetes: the data of [model/icluster_conf] and
    [model/ik8s_pool], the rows of their tables and of [providers], the calls
    that the storage makes and the world they act on.

    A column that holds JSON is the value it encodes, the envelope around the
    keys of a provider included; the times of rows are left out, and so are
    columns that nobody reads. *)
From Stdlib Require Import ZArith Lia Ascii.
From stdpp Require Import base tactics numbers list strings gmap option sorting.
From S2P Require Import Prelude GoStrings Prog SharedTypes ProviderModel.

Local Open Scope string_scope.

(** * Maps as lists of entries *)

Definition map_get {A} (key : string) (m : list (string * A)) : option A :=
  option_map snd (List.find (fun e => bool_decide (fst e = key)) m).
Definition map_has {A} (key : string) (m : list (string * A)) : bool :=
  match map_get key m with Some _ => true | None => false end.
Definition map_remove {A} (key : string) (m : list (string * A)) : list (string * A) :=
  List.filter (fun e => negb (bool_decide (fst e = key))) m.
Definition map_put {A} (key : string) (v : A) (m : list (string * A)) : list (string * A) :=
  (map_remove key m ++ [(key, v)])%list.

(** A scheduler gives, for each gateway cluster, the rates of sub-clusters. *)
Definition LbMatrix : Type := list (string * list (string * Z)).

(** * Pools and sub-clusters ([pool.go], [sub_cluster.go]) *)

Definition PoolTagBFE : Z := 1.
Definition PoolTagProduct : Z := 2.
Definition ProductPoolRoleEPP : string := "EPP".
Definition ProductPoolRoleCommon : string := "COMMON".
Definition BlackHole : string := "GSLB_BLACKHOLE".

Record EPPEndpoint : Type := mkEPPEndpoint { ee_IP : option string; ee_Port : option Z }.
Record EPPServer : Type := mkEPPServer {
  es_Domain : option string; es_Port : option Z; es_Endpoints : list (option EPPEndpoint)
}.

(** The product of the configuration ([ibasic.Product]) and a gateway cluster
    ([ibasic.BFECluster]), by what is used of them. *)
Record ConfProduct : Type := mkConfProduct { cp_ID : Z; cp_Name : string }.
Record BFECluster : Type := mkBFECluster { bc_Name : string; bc_Pool : string }.

Record Pool : Type := mkPool {
  pl_ID : Z; pl_Name : string; pl_Ready : bool; pl_Product : option ConfProduct;
  pl_Instances : option (list Instance); pl_Tag : Z; pl_Role : string; pl_EPPServer : option EPPServer
}.
Record PoolParam : Type := mkPoolParam {
  plp_Name : option string; plp_ProductID : option Z; plp_Instances : option (list Instance);
  plp_Tag : option Z; plp_EPPServer : option EPPServer; plp_Role : option string
}.
Definition instancesParam (instances : list Instance) : PoolParam := mkPoolParam None None (Some instances) None None None.
Record PoolFilter : Type := mkPoolFilter {
  plf_Name : option string; plf_IDs : option (list Z); plf_ID : option Z; plf_ProductID : option Z
}.

Record SubCluster : Type := mkSubCluster {
  sc_ID : Z; sc_Name : string; sc_ClusterID : Z; sc_InstancePool : option Pool;
  sc_Enabled : bool; sc_Ready : bool; sc_Description : string; sc_Role : string
}.
Record SubClusterFilter : Type := mkSubClusterFilter {
  scf_Name : option string; scf_Names : option (list string); scf_InstancePool : option Pool;
  scf_Product : option ConfProduct; scf_ClusterIDs : option (list Z)
}.
(** [PoolName] is read by the manager only; the cluster is given by its id. *)
Record SubClusterParam : Type := mkSubClusterParam {
  scp_Name : option string; scp_PoolName : option string; scp_InstancePool : option Pool;
  scp_Product : option ConfProduct; scp_Cluster : option Z; scp_Description : option string
}.

(** * Clusters ([cluster.go]) *)

Record ClusterBasicConnectionParam : Type := mkConnectionParam { kcp_MaxIdleConnPerRs : option Z; kcp_CancelOnClientClose : option bool }.
Record ClusterBasicBuffersParam : Type := mkBuffersParam {
  kbp_ReqWriteBufferSize : option Z; kbp_ReqFlushInterval : option Z; kbp_ResFlushInterval : option Z
}.
Record ClusterBasicRetriesParam : Type := mkRetriesParam { krp_MaxRetryInSubcluster : option Z; krp_MaxRetryCrossSubcluster : option Z }.
Record ClusterBasicTimeoutsParam : Type := mkTimeoutsParam {
  ktp_ConnServ : option Z; ktp_ResponseHeader : option Z; ktp_ReadbodyClient : option Z;
  ktp_ReadClientAgain : option Z; ktp_WriteClient : option Z
}.
Record ClusterBasicParam : Type := mkBasicParam {
  kp_Connection : option ClusterBasicConnectionParam; kp_Retries : option ClusterBasicRetriesParam;
  kp_Buffers : option ClusterBasicBuffersParam; kp_Timeouts : option ClusterBasicTimeoutsParam; kp_Protocol : option string
}.
Record ClusterStickySessionsParam : Type := mkStickyParam {
  ksp_SessionSticky : option bool; ksp_HashStrategy : option Z; ksp_HashHeader : option string
}.
Record ClusterPassiveHealthCheckParam : Type := mkHealthParam {
  khp_Schema : option string; khp_Interval : option Z; khp_Failnum : option Z; khp_Statuscode : option Z;
  khp_Host : option string; khp_Uri : option string
}.

Record ClusterBasicConnection : Type := mkConnection { kc_MaxIdleConnPerRs : Z; kc_CancelOnClientClose : bool }.
Record ClusterBasicBuffers : Type := mkBuffers { kb_ReqWriteBufferSize : Z; kb_ReqFlushInterval : Z; kb_ResFlushInterval : Z }.
Record ClusterBasicRetries : Type := mkRetries { kr_MaxRetryInSubcluster : Z; kr_MaxRetryCrossSubcluster : Z }.
Record ClusterBasicTimeouts : Type := mkTimeouts {
  kt_ConnServ : Z; kt_ResponseHeader : Z; kt_ReadbodyClient : Z; kt_ReadClientAgain : Z; kt_WriteClient : Z
}.
Record ClusterBasic : Type := mkBasic {
  k_Connection : ClusterBasicConnection; k_Retries : ClusterBasicRetries;
  k_Buffers : ClusterBasicBuffers; k_Timeouts : ClusterBasicTimeouts; k_Protocol : string
}.
Record ClusterStickySessions : Type := mkSticky { ks_SessionSticky : bool; ks_HashStrategy : Z; ks_HashHeader : string }.
Record ClusterPassiveHealthCheck : Type := mkHealth {
  kh_Schema : string; kh_Interval : Z; kh_Failnum : Z; kh_Statuscode : Z; kh_Host : string; kh_Uri : string
}.

Record ClusterParam : Type := mkClusterParam {
  clp_Name : option string; clp_ProductID : option Z; clp_Description : option string;
  clp_Basic : option ClusterBasicParam; clp_StickySessions : option ClusterStickySessionsParam;
  clp_SubClusters : option (list string); clp_Scheduler : option LbMatrix;
  clp_PassiveHealthCheck : option ClusterPassiveHealthCheckParam; clp_LLMConfig : option LLMConfig;
  clp_BalanceMode : option string; clp_EppConfig : option string; clp_EppRuntime : option string
}.
Definition noClusterParam : ClusterParam :=
  mkClusterParam None None None None None None None None None None None None.

Record ClusterFilter : Type := mkClusterFilter {
  clf_ID : option Z; clf_Name : option string; clf_Product : option ConfProduct; clf_Names : list string
}.
Definition noClusterFilter : ClusterFilter := mkClusterFilter None None None [].

Record Cluster : Type := mkCluster {
  cl_ID : Z; cl_Name : string; cl_Description : string; cl_Ready : bool; cl_ProductID : Z;
  cl_Basic : ClusterBasic; cl_StickySessions : ClusterStickySessions; cl_SubClusters : list SubCluster;
  cl_Scheduler : option LbMatrix; cl_PassiveHealthCheck : ClusterPassiveHealthCheck;
  cl_LLMConfig : option LLMConfig; cl_BalanceMode : string; cl_EppConfig : string; cl_EppRuntime : string
}.

(** * Pools of Kubernetes ([k8s_pool.go]) *)

Record K8sPool : Type := mkK8sPool { k8_Name : string; k8_Instances : list ProviderInstance }.

(** * Rows *)

Record TProvider : Type := mkTProvider {
  tv_ID : Z; tv_Name : string; tv_Description : string; tv_ModelEndpoint : option ProviderEndpoint;
  tv_Models : option (list string); tv_Keys : option (list ProviderKey);
  tv_InstancePool : option (list ProviderInstance); tv_InstanceSource : string; tv_K8sPoolName : string;
  tv_K8sInstancePool : option (list ProviderInstance); tv_ModelProtocols : option (list string);
  tv_ProtocolPaths : option (list (string * string)); tv_TimeZone : string; tv_Tiers : option (list PricingTier)
}.
(** The columns that a statement writes.  A slice that is written as [null] is
    [Some None]. *)
Record TProviderParam : Type := mkTProviderParam {
  tvp_Name : option string; tvp_Description : option string; tvp_ModelEndpoint : option ProviderEndpoint;
  tvp_Models : option (option (list string)); tvp_Keys : option (option (list ProviderKey));
  tvp_InstancePool : option (option (list ProviderInstance)); tvp_InstanceSource : option string;
  tvp_K8sPoolName : option string; tvp_K8sInstancePool : option (list ProviderInstance);
  tvp_ModelProtocols : option (option (list string)); tvp_ProtocolPaths : option (option (list (string * string)));
  tvp_TimeZone : option string; tvp_Tiers : option (option (list PricingTier))
}.
Record TProviderWhere : Type := mkTProviderWhere {
  tvw_ID : option Z; tvw_Name : option string; tvw_Names : list string;
  tvw_InstanceSource : option string; tvw_K8sPoolName : option string
}.

Record TCluster : Type := mkTCluster {
  tc_ID : Z; tc_Name : string; tc_Description : string; tc_ProductID : Z; tc_Ready : bool;
  tc_Basic : ClusterBasic; tc_StickySessions : ClusterStickySessions; tc_PassiveHealthCheck : ClusterPassiveHealthCheck;
  tc_LLMConfig : option LLMConfig; tc_BalanceMode : string; tc_EppConfig : string; tc_EppRuntime : string
}.
Record TSubCluster : Type := mkTSubCluster {
  ts_ID : Z; ts_Name : string; ts_ClusterID : Z; ts_ProductID : Z; ts_Description : string;
  ts_PoolsID : Z; ts_Enabled : bool; ts_Role : string
}.
Record TSubClusterWhere : Type := mkTSubClusterWhere {
  tsw_ID : option Z; tsw_IDs : option (list Z); tsw_Name : option string; tsw_Names : option (list string); tsw_ClusterID : option Z;
  tsw_ClusterIDs : option (list Z); tsw_ProductID : option Z; tsw_PoolsID : option Z
}.
Record TPools : Type := mkTPools {
  to_Id : Z; to_Name : string; to_Ready : bool; to_ProductId : Z; to_Instances : option (list Instance);
  to_Tag : Z; to_Role : string; to_EPPServer : option EPPServer
}.
Record TPoolsWhere : Type := mkTPoolsWhere {
  tow_Ids : option (list Z); tow_Id : option Z; tow_Name : option string; tow_ProductID : option Z
}.
Record TLbMatrix : Type := mkTLbMatrix { tl_ClusterID : Z; tl_ProductID : Z; tl_LbMatrix : LbMatrix }.
Record TK8sPool : Type := mkTK8sPool { t8_ID : Z; t8_Name : string; t8_Instances : option (list ProviderInstance) }.
(** [route_advance_rules] and [route_basic_rules]: a text that names the rule,
    its product and its cluster. *)
Record TRouteRule : Type := mkTRouteRule { rt_Text : string; rt_ProductID : Z; rt_ClusterID : Z }.

(** * Statements *)

Definition is_eq {A} `{EqDecision A} (f : option A) (x : A) : bool :=
  match f with Some y => bool_decide (x = y) | None => true end.
(** [column IN (...)]; a nil slice is no condition. *)
Definition is_in {A} `{EqDecision A} (f : option (list A)) (x : A) : bool :=
  match f with Some l => bool_decide (x ∈ l) | None => true end.

Definition where_provider (w : TProviderWhere) (r : TProvider) : bool :=
  is_eq (tvw_ID w) (tv_ID r) && is_eq (tvw_Name w) (tv_Name r) &&
  (match tvw_Names w with [] => true | l => bool_decide (tv_Name r ∈ l) end) &&
  is_eq (tvw_InstanceSource w) (tv_InstanceSource r) && is_eq (tvw_K8sPoolName w) (tv_K8sPoolName r).
Definition assign_provider (p : TProviderParam) (r : TProvider) : TProvider := {|
  tv_ID := tv_ID r;
  tv_Name := or_kept (tvp_Name p) (tv_Name r); tv_Description := or_kept (tvp_Description p) (tv_Description r);
  tv_ModelEndpoint := or_kept_slice (tvp_ModelEndpoint p) (tv_ModelEndpoint r);
  tv_Models := or_kept (tvp_Models p) (tv_Models r); tv_Keys := or_kept (tvp_Keys p) (tv_Keys r);
  tv_InstancePool := or_kept (tvp_InstancePool p) (tv_InstancePool r);
  tv_InstanceSource := or_kept (tvp_InstanceSource p) (tv_InstanceSource r);
  tv_K8sPoolName := or_kept (tvp_K8sPoolName p) (tv_K8sPoolName r);
  tv_K8sInstancePool := or_kept_slice (tvp_K8sInstancePool p) (tv_K8sInstancePool r);
  tv_ModelProtocols := or_kept (tvp_ModelProtocols p) (tv_ModelProtocols r);
  tv_ProtocolPaths := or_kept (tvp_ProtocolPaths p) (tv_ProtocolPaths r);
  tv_TimeZone := or_kept (tvp_TimeZone p) (tv_TimeZone r); tv_Tiers := or_kept (tvp_Tiers p) (tv_Tiers r)
|}.
(** The defaults of the columns; name, instances and protocols have none. *)
Definition insert_provider (id : Z) (p : TProviderParam) : option TProvider :=
  match tvp_Name p, tvp_InstancePool p, tvp_ModelProtocols p with
  | Some name, Some pool, Some protocols =>
      Some (assign_provider p (mkTProvider id name "" None None None pool InstanceSourceInstancePool "" None protocols None
        "Asia/Shanghai" None))
  | _, _, _ => None
  end.

Definition where_cluster (w : ClusterFilter) (r : TCluster) : bool :=
  is_eq (clf_ID w) (tc_ID r) && is_eq (clf_Name w) (tc_Name r) && is_eq (option_map cp_ID (clf_Product w)) (tc_ProductID r) &&
  match clf_Names w with [] => true | l => bool_decide (tc_Name r ∈ l) end.

(** An assignment of an optional group of columns. *)
Definition assign_group {P R} (f : P -> R -> R) (p : option P) (r : R) : R := match p with Some p => f p r | None => r end.
Definition assign_connection (p : ClusterBasicConnectionParam) (r : ClusterBasicConnection) : ClusterBasicConnection :=
  mkConnection (or_kept (kcp_MaxIdleConnPerRs p) (kc_MaxIdleConnPerRs r)) (or_kept (kcp_CancelOnClientClose p) (kc_CancelOnClientClose r)).
Definition assign_retries (p : ClusterBasicRetriesParam) (r : ClusterBasicRetries) : ClusterBasicRetries :=
  mkRetries (or_kept (krp_MaxRetryInSubcluster p) (kr_MaxRetryInSubcluster r))
    (or_kept (krp_MaxRetryCrossSubcluster p) (kr_MaxRetryCrossSubcluster r)).
Definition assign_buffers (p : ClusterBasicBuffersParam) (r : ClusterBasicBuffers) : ClusterBasicBuffers :=
  mkBuffers (or_kept (kbp_ReqWriteBufferSize p) (kb_ReqWriteBufferSize r)) (or_kept (kbp_ReqFlushInterval p) (kb_ReqFlushInterval r))
    (or_kept (kbp_ResFlushInterval p) (kb_ResFlushInterval r)).
Definition assign_timeouts (p : ClusterBasicTimeoutsParam) (r : ClusterBasicTimeouts) : ClusterBasicTimeouts :=
  mkTimeouts (or_kept (ktp_ConnServ p) (kt_ConnServ r)) (or_kept (ktp_ResponseHeader p) (kt_ResponseHeader r))
    (or_kept (ktp_ReadbodyClient p) (kt_ReadbodyClient r)) (or_kept (ktp_ReadClientAgain p) (kt_ReadClientAgain r))
    (or_kept (ktp_WriteClient p) (kt_WriteClient r)).
Definition assign_basic (p : ClusterBasicParam) (r : ClusterBasic) : ClusterBasic :=
  mkBasic (assign_group assign_connection (kp_Connection p) (k_Connection r)) (assign_group assign_retries (kp_Retries p) (k_Retries r))
    (assign_group assign_buffers (kp_Buffers p) (k_Buffers r)) (assign_group assign_timeouts (kp_Timeouts p) (k_Timeouts r))
    (or_kept (kp_Protocol p) (k_Protocol r)).
Definition assign_sticky (p : ClusterStickySessionsParam) (r : ClusterStickySessions) : ClusterStickySessions :=
  mkSticky (or_kept (ksp_SessionSticky p) (ks_SessionSticky r)) (or_kept (ksp_HashStrategy p) (ks_HashStrategy r))
    (or_kept (ksp_HashHeader p) (ks_HashHeader r)).
Definition assign_health (p : ClusterPassiveHealthCheckParam) (r : ClusterPassiveHealthCheck) : ClusterPassiveHealthCheck :=
  mkHealth (or_kept (khp_Schema p) (kh_Schema r)) (or_kept (khp_Interval p) (kh_Interval r)) (or_kept (khp_Failnum p) (kh_Failnum r))
    (or_kept (khp_Statuscode p) (kh_Statuscode r)) (or_kept (khp_Host p) (kh_Host r)) (or_kept (khp_Uri p) (kh_Uri r)).

(** [newDaoClusterParam] and the statement that it feeds; the scheduler and
    the names of sub-clusters are not columns of [clusters]. *)
Definition assign_cluster (p : ClusterParam) (r : TCluster) : TCluster := {|
  tc_ID := tc_ID r; tc_Name := or_kept (clp_Name p) (tc_Name r); tc_Description := or_kept (clp_Description p) (tc_Description r);
  tc_ProductID := or_kept (clp_ProductID p) (tc_ProductID r); tc_Ready := tc_Ready r;
  tc_Basic := assign_group assign_basic (clp_Basic p) (tc_Basic r);
  tc_StickySessions := assign_group assign_sticky (clp_StickySessions p) (tc_StickySessions r);
  tc_PassiveHealthCheck := assign_group assign_health (clp_PassiveHealthCheck p) (tc_PassiveHealthCheck r);
  tc_LLMConfig := or_kept_slice (clp_LLMConfig p) (tc_LLMConfig r);
  tc_BalanceMode := or_kept (clp_BalanceMode p) (tc_BalanceMode r); tc_EppConfig := or_kept (clp_EppConfig p) (tc_EppConfig r);
  tc_EppRuntime := or_kept (clp_EppRuntime p) (tc_EppRuntime r)
|}.
(** The columns of a new row that are not given. *)
Definition default_basic : ClusterBasic :=
  mkBasic (mkConnection 2 false) (mkRetries 3 0) (mkBuffers 512 0 20) (mkTimeouts 50000 50000 30000 30000 60000) "http".
Definition default_sticky : ClusterStickySessions := mkSticky false 0 "Cookie:BAIDUID".
Definition default_health (host uri : string) : ClusterPassiveHealthCheck := mkHealth "http" 1000 10 200 host uri.
Definition insert_cluster (id : Z) (p : ClusterParam) : option TCluster :=
  match clp_Name p, clp_ProductID p, clp_PassiveHealthCheck p with
  | Some name, Some product, Some h =>
      match khp_Host h, khp_Uri h with
      | Some host, Some uri =>
          Some (assign_cluster p (mkTCluster id name "no desc" product true default_basic default_sticky (default_health host uri)
            None "WRR" "" ""))
      | _, _ => None
      end
  | _, _, _ => None
  end.

Definition where_sub (w : TSubClusterWhere) (r : TSubCluster) : bool :=
  is_eq (tsw_ID w) (ts_ID r) && is_in (tsw_IDs w) (ts_ID r) && is_eq (tsw_Name w) (ts_Name r) && is_in (tsw_Names w) (ts_Name r) && is_eq (tsw_ClusterID w) (ts_ClusterID r) &&
  is_in (tsw_ClusterIDs w) (ts_ClusterID r) && is_eq (tsw_ProductID w) (ts_ProductID r) && is_eq (tsw_PoolsID w) (ts_PoolsID r).
Definition put_cluster (id : Z) (r : TSubCluster) : TSubCluster :=
  mkTSubCluster (ts_ID r) (ts_Name r) id (ts_ProductID r) (ts_Description r) (ts_PoolsID r) (ts_Enabled r) (ts_Role r).
(** [subClusterParami2d] and the statement; what is given replaces a column. *)
Definition assign_sub (p : SubClusterParam) (r : TSubCluster) : TSubCluster :=
  mkTSubCluster (ts_ID r) (or_kept (scp_Name p) (ts_Name r)) (or_kept (scp_Cluster p) (ts_ClusterID r))
    (or_kept (option_map cp_ID (scp_Product p)) (ts_ProductID r)) (or_kept (scp_Description p) (ts_Description r))
    (or_kept (option_map pl_ID (scp_InstancePool p)) (ts_PoolsID r)) (ts_Enabled r) (ts_Role r).
Definition insert_sub (id : Z) (p : SubClusterParam) : option TSubCluster :=
  match scp_Name p, scp_Cluster p, scp_Product p, scp_InstancePool p with
  | Some name, Some cluster, Some product, Some pool =>
      Some (mkTSubCluster id name cluster (cp_ID product) (default "no desc" (scp_Description p)) (pl_ID pool) true "")
  | _, _, _, _ => None
  end.

Definition where_pool (w : TPoolsWhere) (r : TPools) : bool :=
  is_in (tow_Ids w) (to_Id r) && is_eq (tow_Id w) (to_Id r) && is_eq (tow_Name w) (to_Name r) && is_eq (tow_ProductID w) (to_ProductId r).
(** [poolParami2d] always gives a text for the server, the empty one when
    there is none, so that every update of a pool replaces that column. *)
Definition assign_pool (p : PoolParam) (r : TPools) : TPools :=
  mkTPools (to_Id r) (or_kept (plp_Name p) (to_Name r)) (to_Ready r) (or_kept (plp_ProductID p) (to_ProductId r))
    (or_kept_slice (plp_Instances p) (to_Instances r)) (or_kept (plp_Tag p) (to_Tag r)) (or_kept (plp_Role p) (to_Role r))
    (plp_EPPServer p).
Definition insert_pool (id : Z) (p : PoolParam) : option TPools :=
  match plp_Name p with
  | Some name => Some (assign_pool p (mkTPools id name true 0 None 0 ProductPoolRoleCommon None))
  | None => None
  end.

(** The unique keys. *)
Definition providers_unique (l : list TProvider) : bool := bool_decide (NoDup (map tv_ID l)) && bool_decide (NoDup (map tv_Name l)).
Definition clusters_unique (l : list TCluster) : bool := bool_decide (NoDup (map tc_ID l)) && bool_decide (NoDup (map tc_Name l)).
Definition subs_unique (l : list TSubCluster) : bool :=
  bool_decide (NoDup (map ts_ID l)) && bool_decide (NoDup (map (fun r => (ts_Name r, ts_ProductID r)) l)).
Definition pools_unique (l : list TPools) : bool := bool_decide (NoDup (map to_Id l)) && bool_decide (NoDup (map to_Name l)).
Definition k8s_unique (l : list TK8sPool) : bool := bool_decide (NoDup (map t8_ID l)) && bool_decide (NoDup (map t8_Name l)).
Definition matrices_unique (l : list TLbMatrix) : bool := bool_decide (NoDup (map tl_ClusterID l)).

(** * Calls and the world *)

Record ConfLogEntry : Type := mkConfLog {
  cg_Action : string; cg_ResourceType : string; cg_ResourceID : string; cg_ResourceName : string; cg_Error : option goerr
}.

Inductive confE : Type -> Type :=
| ConfBegin : confE (result unit)
| ConfCommit : confE (result unit)
| ConfRollback : confE unit
| TProviderList (w : TProviderWhere) : confE (result (list TProvider))
| TProviderListWithPagination (w : TProviderWhere) (page pageSize : Z) : confE (result (list TProvider))
| TProviderCount (w : TProviderWhere) : confE (result Z)
| TProviderNames : confE (result (list string))
| TProviderCreate (p : TProviderParam) : confE (result Z)
| TProviderUpdate (p : TProviderParam) (w : TProviderWhere) : confE (result Z)
| TProviderDelete (w : TProviderWhere) : confE (result Z)
| TClusterList (w : ClusterFilter) : confE (result (list TCluster))
| TClusterCreate (p : ClusterParam) : confE (result Z)
| TClusterUpdate (p : ClusterParam) (id : Z) : confE (result Z)
| TClusterDelete (id : Z) : confE (result Z)
| TSubClusterList (w : TSubClusterWhere) : confE (result (list TSubCluster))
| TSubClusterCreate (p : SubClusterParam) : confE (result Z)
| TSubClusterUpdate (p : SubClusterParam) (w : TSubClusterWhere) : confE (result Z)
| TSubClusterDelete (id : Z) : confE (result Z)
| TPoolsList (w : TPoolsWhere) : confE (result (list TPools))
| TPoolsCreate (p : PoolParam) : confE (result Z)
| TPoolsUpdate (p : PoolParam) (w : TPoolsWhere) : confE (result Z)
| TPoolsDelete (name : string) : confE (result Z)
| TLbMatrixList (clusterIDs : option (list Z)) : confE (result (list TLbMatrix))
| TLbMatrixCreate (r : TLbMatrix) : confE (result Z)
| TLbMatrixDelete (clusterID : Z) : confE (result Z)
| TK8sPoolList (name : option string) : confE (result (list TK8sPool))
| TK8sPoolCreate (name : string) (instances : list ProviderInstance) : confE (result Z)
| TK8sPoolUpdate (name : string) (instances : list ProviderInstance) : confE (result Z)
| TK8sPoolDelete (name : string) : confE (result Z)
| TRouteRulesList : confE (result (list RouteRulesParam))
| TRouteAdvanceRuleList (productID : Z) : confE (result (list TRouteRule))
| TRouteBasicRuleList (productID : Z) : confE (result (list TRouteRule))
(** [FetchProducts] of the product storage and [FetchBFEClusters] *)
| FetchProducts (ids : option (list Z)) (name : option string) : confE (result (list ConfProduct))
| FetchBFEClusters (pool : option string) : confE (result (list BFECluster))
(** [AssignCluster] of the manager of EPP pools *)
| AssignCluster (name : string) : confE (result unit)
| RecordConf (e : ConfLogEntry) : confE unit.

(** What a transaction rolls back. *)
Record cdata : Type := mkCData {
  cd_providers : list TProvider; cd_clusters : list TCluster; cd_subs : list TSubCluster; cd_pools : list TPools;
  cd_matrices : list TLbMatrix; cd_k8s : list TK8sPool
}.
(** Rows that these components only read. *)
Record cstatic : Type := mkCStatic {
  cs_routes : list RouteRulesParam; cs_advance : list TRouteRule; cs_basic : list TRouteRule;
  cs_products : list ConfProduct; cs_bfe : list BFECluster
}.
Record cworld : Type := mkCWorld {
  cw_data : cdata; cw_saved : option cdata; cw_static : cstatic;
  (** the next id of every table *)
  cw_next : Z;
  cw_assigned : list string; cw_log : list ConfLogEntry
}.

Definition put_cdata (d : cdata) (w : cworld) : cworld :=
  mkCWorld d (cw_saved w) (cw_static w) (cw_next w) (cw_assigned w) (cw_log w).
Definition put_csaved (s : option cdata) (w : cworld) : cworld :=
  mkCWorld (cw_data w) s (cw_static w) (cw_next w) (cw_assigned w) (cw_log w).
Definition next_id (w : cworld) : cworld :=
  mkCWorld (cw_data w) (cw_saved w) (cw_static w) (cw_next w + 1) (cw_assigned w) (cw_log w).

Definition put_providers (l : list TProvider) (d : cdata) : cdata :=
  mkCData l (cd_clusters d) (cd_subs d) (cd_pools d) (cd_matrices d) (cd_k8s d).
Definition put_clusters (l : list TCluster) (d : cdata) : cdata :=
  mkCData (cd_providers d) l (cd_subs d) (cd_pools d) (cd_matrices d) (cd_k8s d).
Definition put_subs (l : list TSubCluster) (d : cdata) : cdata :=
  mkCData (cd_providers d) (cd_clusters d) l (cd_pools d) (cd_matrices d) (cd_k8s d).
Definition put_pools (l : list TPools) (d : cdata) : cdata :=
  mkCData (cd_providers d) (cd_clusters d) (cd_subs d) l (cd_matrices d) (cd_k8s d).
Definition put_matrices (l : list TLbMatrix) (d : cdata) : cdata :=
  mkCData (cd_providers d) (cd_clusters d) (cd_subs d) (cd_pools d) l (cd_k8s d).
Definition put_k8s (l : list TK8sPool) (d : cdata) : cdata :=
  mkCData (cd_providers d) (cd_clusters d) (cd_subs d) (cd_pools d) (cd_matrices d) l.

Definition hits {A} (hit : A -> bool) (l : list A) : Z := Z.of_nat (length (List.filter hit l)).
Definition without {A} (hit : A -> bool) (l : list A) : list A := List.filter (fun x => negb (hit x)) l.
Definition changed {A} (hit : A -> bool) (f : A -> A) (l : list A) : list A := map (fun x => if hit x then f x else x) l.

(** INSERT, UPDATE and DELETE on the rows of a table. *)
Definition inserted {A} (row : option A) (unique : list A -> bool) (rows : list A) (put : list A -> cdata -> cdata) (w : cworld)
  : result Z * cworld :=
  match row with
  | None => (Err DaoError, w)
  | Some r =>
      let rows' := (rows ++ [r])%list in
      if unique rows' then (Ok (cw_next w), next_id (put_cdata (put rows' (cw_data w)) w)) else (Err DaoError, next_id w)
  end.
Definition updated {A} (hit : A -> bool) (f : A -> A) (unique : list A -> bool) (rows : list A) (put : list A -> cdata -> cdata)
  (w : cworld) : result Z * cworld :=
  let rows' := changed hit f rows in
  if unique rows' then (Ok (hits hit rows), put_cdata (put rows' (cw_data w)) w) else (Err DaoError, w).
Definition deleted {A} (hit : A -> bool) (rows : list A) (put : list A -> cdata -> cdata) (w : cworld) : result Z * cworld :=
  (Ok (hits hit rows), put_cdata (put (without hit rows) (cw_data w)) w).

(** [LIMIT (page - 1) * pageSize, pageSize]: the offset is an unsigned 64-bit
    number. *)
Definition page_of {A} (page pageSize : Z) (l : list A) : list A :=
  let offset := ((page - 1) * pageSize mod 2 ^ 64)%Z in
  if (Z.of_nat (length l) <=? offset)%Z then [] else take (Z.to_nat pageSize) (drop (Z.to_nat offset) l).

(** Byte order of names. *)
Definition name_order (a b : string) : Prop := String.le a b.

Definition conf_handle {R} (e : confE R) : cworld -> R * cworld :=
  match e in confE R return cworld -> R * cworld with
  | ConfBegin => fun w => (Ok tt, put_csaved (Some (cw_data w)) w)
  | ConfCommit => fun w => (Ok tt, put_csaved None w)
  | ConfRollback => fun w => (tt, match cw_saved w with Some d => put_csaved None (put_cdata d w) | None => w end)
  | TProviderList q => fun w => (Ok (List.filter (where_provider q) (cd_providers (cw_data w))), w)
  | TProviderListWithPagination q page size => fun w =>
      (Ok (page_of page size (List.filter (where_provider q) (cd_providers (cw_data w)))), w)
  | TProviderCount q => fun w => (Ok (hits (where_provider q) (cd_providers (cw_data w))), w)
  | TProviderNames => fun w => (Ok (merge_sort name_order (map tv_Name (cd_providers (cw_data w)))), w)
  | TProviderCreate p => fun w => inserted (insert_provider (cw_next w) p) providers_unique (cd_providers (cw_data w)) put_providers w
  | TProviderUpdate p q => fun w =>
      updated (where_provider q) (assign_provider p) providers_unique (cd_providers (cw_data w)) put_providers w
  | TProviderDelete q => fun w => deleted (where_provider q) (cd_providers (cw_data w)) put_providers w
  | TClusterList q => fun w => (Ok (List.filter (where_cluster q) (cd_clusters (cw_data w))), w)
  | TClusterCreate p => fun w => inserted (insert_cluster (cw_next w) p) clusters_unique (cd_clusters (cw_data w)) put_clusters w
  | TClusterUpdate p id => fun w =>
      updated (fun r => bool_decide (tc_ID r = id)) (assign_cluster p) clusters_unique (cd_clusters (cw_data w)) put_clusters w
  | TClusterDelete id => fun w => deleted (fun r => bool_decide (tc_ID r = id)) (cd_clusters (cw_data w)) put_clusters w
  | TSubClusterList q => fun w => (Ok (List.filter (where_sub q) (cd_subs (cw_data w))), w)
  | TSubClusterCreate p => fun w => inserted (insert_sub (cw_next w) p) subs_unique (cd_subs (cw_data w)) put_subs w
  | TSubClusterUpdate p q => fun w => updated (where_sub q) (assign_sub p) subs_unique (cd_subs (cw_data w)) put_subs w
  | TSubClusterDelete id => fun w => deleted (fun r => bool_decide (ts_ID r = id)) (cd_subs (cw_data w)) put_subs w
  | TPoolsList q => fun w => (Ok (List.filter (where_pool q) (cd_pools (cw_data w))), w)
  | TPoolsCreate p => fun w => inserted (insert_pool (cw_next w) p) pools_unique (cd_pools (cw_data w)) put_pools w
  | TPoolsUpdate p q => fun w => updated (where_pool q) (assign_pool p) pools_unique (cd_pools (cw_data w)) put_pools w
  | TPoolsDelete name => fun w => deleted (fun r => bool_decide (to_Name r = name)) (cd_pools (cw_data w)) put_pools w
  | TLbMatrixList ids => fun w => (Ok (List.filter (fun r => is_in ids (tl_ClusterID r)) (cd_matrices (cw_data w))), w)
  | TLbMatrixCreate r => fun w => inserted (Some r) matrices_unique (cd_matrices (cw_data w)) put_matrices w
  | TLbMatrixDelete id => fun w => deleted (fun r => bool_decide (tl_ClusterID r = id)) (cd_matrices (cw_data w)) put_matrices w
  | TK8sPoolList name => fun w => (Ok (List.filter (fun r => is_eq name (t8_Name r)) (cd_k8s (cw_data w))), w)
  | TK8sPoolCreate name l => fun w =>
      inserted (Some (mkTK8sPool (cw_next w) name (Some l))) k8s_unique (cd_k8s (cw_data w)) put_k8s w
  | TK8sPoolUpdate name l => fun w =>
      updated (fun r => bool_decide (t8_Name r = name)) (fun r => mkTK8sPool (t8_ID r) (t8_Name r) (Some l)) k8s_unique
        (cd_k8s (cw_data w)) put_k8s w
  | TK8sPoolDelete name => fun w => deleted (fun r => bool_decide (t8_Name r = name)) (cd_k8s (cw_data w)) put_k8s w
  | TRouteRulesList => fun w => (Ok (cs_routes (cw_static w)), w)
  | TRouteAdvanceRuleList id => fun w => (Ok (List.filter (fun r => bool_decide (rt_ProductID r = id)) (cs_advance (cw_static w))), w)
  | TRouteBasicRuleList id => fun w => (Ok (List.filter (fun r => bool_decide (rt_ProductID r = id)) (cs_basic (cw_static w))), w)
  | FetchProducts ids name => fun w =>
      (Ok (List.filter (fun p => is_in ids (cp_ID p) && is_eq name (cp_Name p)) (cs_products (cw_static w))), w)
  | FetchBFEClusters pool => fun w => (Ok (List.filter (fun b => is_eq pool (bc_Pool b)) (cs_bfe (cw_static w))), w)
  | AssignCluster name => fun w =>
      (Ok tt, mkCWorld (cw_data w) (cw_saved w) (cw_static w) (cw_next w) (cw_assigned w ++ [name]) (cw_log w))
  | RecordConf e => fun w =>
      (tt, mkCWorld (cw_data w) (cw_saved w) (cw_static w) (cw_next w) (cw_assigned w) (cw_log w ++ [e]))
  end.

Definition conf_fault {R} (e : confE R) : option R :=
  match e in confE R return option R with
  | ConfCommit => Some (Err DaoError)
  | ConfRollback => None
  | RecordConf _ => None
  | ConfBegin => Some (Err DaoError)
  | TProviderList _ => Some (Err DaoError)
  | TProviderListWithPagination _ _ _ => Some (Err DaoError)
  | TProviderCount _ => Some (Err DaoError)
  | TProviderNames => Some (Err DaoError)
  | TProviderCreate _ => Some (Err DaoError)
  | TProviderUpdate _ _ => Some (Err DaoError)
  | TProviderDelete _ => Some (Err DaoError)
  | TClusterList _ => Some (Err DaoError)
  | TClusterCreate _ => Some (Err DaoError)
  | TClusterUpdate _ _ => Some (Err DaoError)
  | TClusterDelete _ => Some (Err DaoError)
  | TSubClusterList _ => Some (Err DaoError)
  | TSubClusterCreate _ => Some (Err DaoError)
  | TSubClusterUpdate _ _ => Some (Err DaoError)
  | TSubClusterDelete _ => Some (Err DaoError)
  | TPoolsList _ => Some (Err DaoError)
  | TPoolsCreate _ => Some (Err DaoError)
  | TPoolsUpdate _ _ => Some (Err DaoError)
  | TPoolsDelete _ => Some (Err DaoError)
  | TLbMatrixList _ => Some (Err DaoError)
  | TLbMatrixCreate _ => Some (Err DaoError)
  | TLbMatrixDelete _ => Some (Err DaoError)
  | TK8sPoolList _ => Some (Err DaoError)
  | TK8sPoolCreate _ _ => Some (Err DaoError)
  | TK8sPoolUpdate _ _ => Some (Err DaoError)
  | TK8sPoolDelete _ => Some (Err DaoError)
  | TRouteRulesList => Some (Err DaoError)
  | TRouteAdvanceRuleList _ => Some (Err DaoError)
  | TRouteBasicRuleList _ => Some (Err DaoError)
  | FetchProducts _ _ => Some (Err DaoError)
  | FetchBFEClusters _ => Some (Err DaoError)
  | AssignCluster _ => Some (Err DaoError)
  end.

#[export] Instance conf_interp : Interp confE cworld := {|
  handle := @conf_handle;
  fault := @conf_fault
|}.
#[export] Instance conf_txn : TxnCalls confE := {|
  tx_begin := ConfBegin;
  tx_commit := ConfCommit;
  tx_rollback := ConfRollback;
  is_commit := fun R (e : confE R) => match e with ConfCommit => true | _ => false end
|}.
