(* ===== verification/ProviderManager.v ===== *)
(** The storage of providers, clusters, sub-clusters, instance pools and
    Kubernetes pools ([storage/rdb/provider], [storage/rdb/cluster_conf],
    [storage/rdb/k8s_pool]), and the manager of providers
    ([model/iprovider/provider.go]). *)
From Stdlib Require Import ZArith Lia Ascii.
From stdpp Require Import base tactics numbers list strings gmap option.
From S2P Require Import Prelude GoStrings Prog SharedTypes Validate ProviderModel ClusterModel.

Local Open Scope string_scope.

(** * Providers ([storage/rdb/provider/provider.go]) *)

Definition filterToDAOParam (f : ProviderFilter) : TProviderWhere :=
  mkTProviderWhere (pf_ID f) (pf_Name f) (pf_Names f) (pf_InstanceSource f) (pf_K8sPoolName f).
Definition whereProviderName (name : string) : TProviderWhere := mkTProviderWhere None (Some name) [] None None.

(** A nil slice is written as [null]. *)
Definition toDAOParam (param : ProviderParam) : TProviderParam :=
  let p := FillDefaults param in
  mkTProviderParam (pp_Name p) (pp_Description p) (pp_ModelEndpoint p) (Some (pp_Models p)) (Some (pp_Keys p))
    (Some (pp_InstancePool p)) (pp_InstanceSource p) (pp_K8sPoolName p) (Some (items (pp_K8sInstancePool p)))
    (Some (pp_ModelProtocols p)) (Some (pp_ProtocolPaths p)) (pp_TimeZone p) (Some (pp_Tiers p)).

(** A nil slice keeps the column. *)
Definition given_slice {A} (s : option A) : option (option A) := match s with Some _ => Some s | None => None end.
Definition toDAOParamForUpdate (p : ProviderParam) : TProviderParam :=
  mkTProviderParam (pp_Name p) (pp_Description p) (pp_ModelEndpoint p) (given_slice (pp_Models p)) (given_slice (pp_Keys p))
    (given_slice (pp_InstancePool p)) (pp_InstanceSource p) (pp_K8sPoolName p) (pp_K8sInstancePool p)
    (given_slice (pp_ModelProtocols p)) (given_slice (pp_ProtocolPaths p)) (pp_TimeZone p) (given_slice (pp_Tiers p)).

Definition unmarshalEndpoint (e : option ProviderEndpoint) : ProviderEndpoint :=
  match e with None => DefaultModelEndpoint | Some e => filled_endpoint e end.
Definition nonempty (s : string) : option string := if bool_decide (s = "") then None else Some s.
Definition providerFromDAO (one : TProvider) : Provider := {|
  pv_ID := tv_ID one; pv_Name := tv_Name one; pv_Description := tv_Description one;
  pv_ModelEndpoint := unmarshalEndpoint (tv_ModelEndpoint one);
  pv_Models := tv_Models one; pv_Keys := tv_Keys one; pv_InstancePool := tv_InstancePool one;
  pv_InstanceSource := default InstanceSourceInstancePool (nonempty (tv_InstanceSource one));
  pv_K8sPoolName := nonempty (tv_K8sPoolName one);
  pv_K8sInstancePool := items (tv_K8sInstancePool one);
  pv_ModelProtocols := tv_ModelProtocols one; pv_ProtocolPaths := tv_ProtocolPaths one;
  pv_TimeZone := default "Asia/Shanghai" (nonempty (tv_TimeZone one)); pv_Tiers := items (tv_Tiers one)
|}.

Definition CreateProviderRow (param : ProviderParam) : prog confE (result Z) := call (TProviderCreate (toDAOParam param)).
Definition UpdateProviderRow (name : string) (param : ProviderParam) : prog confE (result unit) :=
  _ <-? call (TProviderUpdate (toDAOParamForUpdate param) (whereProviderName name)) ;; Ret (Ok tt).
Definition DeleteProviderRow (name : string) : prog confE (result unit) :=
  _ <-? call (TProviderDelete (whereProviderName name)) ;; Ret (Ok tt).
Definition FetchProviderRow (filter : ProviderFilter) : prog confE (result (option Provider)) :=
  list <-? call (TProviderList (filterToDAOParam filter)) ;;
  Ret (Ok (option_map providerFromDAO (hd_error list))).
Definition FetchProviderNames : prog confE (result (list string)) := call TProviderNames.

(** The page and its size, with their defaults and the limit of the size. *)
Definition page_number (page : option Z) : Z := match page with Some p => if (0 <? p)%Z then p else 1 | None => 1 end.
Definition page_size (size : option Z) : Z :=
  match size with Some s => if (0 <? s)%Z then Z.min s 1000 else 50 | None => 50 end.
Definition paged (f : ProviderFilter) : bool := match pf_Page f, pf_PageSize f with None, None => false | _, _ => true end.

Definition FetchProviderRows (filter : ProviderFilter) : prog confE (result (list Provider * Z)) :=
  let w := filterToDAOParam filter in
  if negb (paged filter) then
    list <-? call (TProviderList w) ;;
    Ret (Ok (map providerFromDAO list, Z.of_nat (length list)))
  else
    list <-? call (TProviderListWithPagination w (page_number (pf_Page filter)) (page_size (pf_PageSize filter))) ;;
    total <-? call (TProviderCount w) ;;
    Ret (Ok (map providerFromDAO list, total)).

(** * Instance pools ([storage/rdb/cluster_conf/pool.go]) *)

(** The keys of the set of ids that a loop over the rows builds. *)
Definition ids_of (ids : list Z) : list Z := remove_dups ids.

Definition poolFilter2Param (f : PoolFilter) : TPoolsWhere := mkTPoolsWhere (plf_IDs f) (plf_ID f) (plf_Name f) (plf_ProductID f).
Definition byPoolName (name : string) : PoolFilter := mkPoolFilter (Some name) None None None.
Definition byPoolIDs (ids : list Z) : PoolFilter := mkPoolFilter None (Some ids) None None.

Definition put_product (product : ConfProduct) (p : PoolParam) : PoolParam :=
  mkPoolParam (plp_Name p) (Some (cp_ID product)) (plp_Instances p) (plp_Tag p) (plp_EPPServer p) (plp_Role p).

(** The row that is answered carries neither the tag nor that it is ready. *)
Definition CreatePoolRow (product : ConfProduct) (data : PoolParam) : prog confE (result Pool) :=
  newID <-? call (TPoolsCreate (put_product product data)) ;;
  Ret (Ok (mkPool newID (default "" (plp_Name data)) false None (plp_Instances data) 0 (default "" (plp_Role data)) (plp_EPPServer data))).

Definition newPool (pp : TPools) (product : option ConfProduct) : Pool :=
  mkPool (to_Id pp) (to_Name pp) (to_Ready pp) product (Some (items (to_Instances pp))) (to_Tag pp) (to_Role pp) (to_EPPServer pp).
Definition product_by_id (products : list ConfProduct) (id : Z) : option ConfProduct :=
  List.find (fun p => bool_decide (cp_ID p = id)) (rev products).
Definition FetchPoolRows (filter : PoolFilter) : prog confE (result (list Pool)) :=
  ppList <-? call (TPoolsList (poolFilter2Param filter)) ;;
  match ppList with
  | [] => Ret (Ok [])
  | _ =>
      products <-? call (FetchProducts (Some (ids_of (map to_ProductId ppList))) None) ;;
      Ret (Ok (map (fun one => newPool one (product_by_id products (to_ProductId one))) ppList))
  end.
Definition FetchPoolRow (name : string) : prog confE (result (option Pool)) :=
  list <-? FetchPoolRows (byPoolName name) ;; Ret (Ok (hd_error list)).

Definition UpdatePoolRow (oldData : Pool) (diff : PoolParam) : prog confE (result unit) :=
  _ <-? call (TPoolsUpdate diff (mkTPoolsWhere None (Some (pl_ID oldData)) None None)) ;; Ret (Ok tt).
Definition DeletePoolRow (pool : Pool) : prog confE (result unit) :=
  _ <-? call (TPoolsDelete (pl_Name pool)) ;; Ret (Ok tt).

(** * Sub-clusters ([storage/rdb/cluster_conf/sub_cluster.go]) *)

Definition subClusterFilter2Param (f : SubClusterFilter) : TSubClusterWhere :=
  mkTSubClusterWhere None None (scf_Name f) (scf_Names f) None (scf_ClusterIDs f) (option_map cp_ID (scf_Product f))
    (option_map pl_ID (scf_InstancePool f)).
Definition bySubID (id : Z) : TSubClusterWhere := mkTSubClusterWhere (Some id) None None None None None None None.

Definition newSubCluster (pp : TSubCluster) (pool : option Pool) : SubCluster :=
  mkSubCluster (ts_ID pp) (ts_Name pp) (ts_ClusterID pp) pool (ts_Enabled pp)
    (match pool with Some p => pl_Ready p | None => false end) (ts_Description pp)
    (if bool_decide (ts_Role pp = "") then match pool with Some p => pl_Role p | None => "" end else ts_Role pp).
Definition pool_by_id (pools : list Pool) (id : Z) : option Pool := List.find (fun p => bool_decide (pl_ID p = id)) (rev pools).

Definition FetchSubClusterRows (filter : SubClusterFilter) : prog confE (result (list SubCluster)) :=
  subClusterList <-? call (TSubClusterList (subClusterFilter2Param filter)) ;;
  match subClusterList with
  | [] => Ret (Ok [])
  | _ =>
      poolList <-? FetchPoolRows (byPoolIDs (ids_of (map ts_PoolsID subClusterList))) ;;
      _ <-? call (FetchProducts (Some (ids_of (map ts_ProductID subClusterList))) None) ;;
      Ret (Ok (map (fun one => newSubCluster one (pool_by_id poolList (ts_PoolsID one))) subClusterList))
  end.
Definition CreateSubClusterRow (param : SubClusterParam) : prog confE (result unit) :=
  _ <-? call (TSubClusterCreate param) ;; Ret (Ok tt).
Definition DeleteSubClusterRow (one : SubCluster) : prog confE (result unit) :=
  _ <-? call (TSubClusterDelete (sc_ID one)) ;; Ret (Ok tt).
Definition UpdateSubClusterRow (one : SubCluster) (param : SubClusterParam) : prog confE (result unit) :=
  _ <-? call (TSubClusterUpdate param (bySubID (sc_ID one))) ;; Ret (Ok tt).

(** * Clusters ([storage/rdb/cluster_conf/cluster.go]) *)

(** The matrix of each cluster; a later row wins. *)
Definition parseLBMatrixList (rows : list TLbMatrix) (id : Z) : option LbMatrix :=
  option_map tl_LbMatrix (List.find (fun r => bool_decide (tl_ClusterID r = id)) (rev rows)).

Definition newCluster (dc : TCluster) (subClusters : list SubCluster) (scheduler : option LbMatrix) : Cluster := {|
  cl_ID := tc_ID dc; cl_Name := tc_Name dc; cl_Description := tc_Description dc; cl_Ready := tc_Ready dc;
  cl_ProductID := tc_ProductID dc; cl_Basic := tc_Basic dc; cl_StickySessions := tc_StickySessions dc;
  cl_SubClusters := subClusters; cl_Scheduler := scheduler; cl_PassiveHealthCheck := tc_PassiveHealthCheck dc;
  cl_LLMConfig := tc_LLMConfig dc; cl_BalanceMode := tc_BalanceMode dc; cl_EppConfig := tc_EppConfig dc;
  cl_EppRuntime := tc_EppRuntime dc
|}.

Definition FetchClusterRows (filter : ClusterFilter) : prog confE (result (list Cluster)) :=
  list <-? call (TClusterList filter) ;;
  match list with
  | [] => Ret (Ok [])
  | _ =>
      let clusterIDs := map tc_ID list in
      subClusterList <-? FetchSubClusterRows (mkSubClusterFilter None None None None (Some clusterIDs)) ;;
      matrices <-? call (TLbMatrixList (Some clusterIDs)) ;;
      Ret (Ok (map (fun one =>
        newCluster one (List.filter (fun sc => bool_decide (sc_ClusterID sc = tc_ID one)) subClusterList)
          (parseLBMatrixList matrices (tc_ID one))) list))
  end.
Definition FetchClusterRow (filter : ClusterFilter) : prog confE (result (option Cluster)) :=
  list <-? FetchClusterRows filter ;; Ret (Ok (hd_error list)).
(** [FetchLBMatrixList]: the rows, one per cluster. *)
Definition FetchLBMatrixList : prog confE (result (list TLbMatrix)) := call (TLbMatrixList None).

Definition upsertLBMatrix (clusterID : Z) (product : ConfProduct) (lbMatrix : LbMatrix) : prog confE (result unit) :=
  _ <-? call (TLbMatrixDelete clusterID) ;;
  _ <-? call (TLbMatrixCreate (mkTLbMatrix clusterID (cp_ID product) lbMatrix)) ;;
  Ret (Ok tt).
Definition upsert_given (clusterID : Z) (product : ConfProduct) (m : option LbMatrix) : prog confE (result unit) :=
  match m with Some mlb => upsertLBMatrix clusterID product mlb | None => Ret (Ok tt) end.

Definition ClusterUpdate (product : ConfProduct) (clusterID : Z) (param : ClusterParam) : prog confE (result unit) :=
  _ <-? upsert_given clusterID product (clp_Scheduler param) ;;
  _ <-? call (TClusterUpdate param clusterID) ;;
  Ret (Ok tt).
Definition ClusterCreate (product : ConfProduct) (param : ClusterParam) : prog confE (result Z) :=
  clusterID <-? call (TClusterCreate param) ;;
  _ <-? upsert_given clusterID product (clp_Scheduler param) ;;
  Ret (Ok clusterID).
Definition ClusterDelete (clusterID : Z) : prog confE (result unit) :=
  _ <-? call (TLbMatrixDelete clusterID) ;;
  _ <-? call (TClusterDelete clusterID) ;;
  Ret (Ok tt).

Definition to_cluster (id : Z) : SubClusterParam := mkSubClusterParam None None None None (Some id) None.
(** Without a pool the loop over the sub-clusters dereferences nil. *)
Definition all_have_pools (l : list SubCluster) : bool :=
  forallb (fun sc => match sc_InstancePool sc with Some _ => true | None => false end) l.
Definition BindSubCluster (clusterID : Z) (appendSubClusters unbindSubClusters : list SubCluster) : prog confE (result unit) :=
  _ <-? (match unbindSubClusters with
         | [] => Ret (Ok tt)
         | _ =>
             _ <-? call (TSubClusterUpdate (to_cluster (-1))
               (mkTSubClusterWhere None (Some (map sc_ID unbindSubClusters)) None None (Some clusterID) None None None)) ;;
             Ret (if all_have_pools unbindSubClusters then Ok tt else Err (PlainError "panic"))
         end) ;;
  match appendSubClusters with
  | [] => Ret (Ok tt)
  | _ =>
      _ <-? call (TSubClusterUpdate (to_cluster clusterID)
        (mkTSubClusterWhere None (Some (map sc_ID appendSubClusters)) None None None None None None)) ;;
      Ret (if all_have_pools appendSubClusters then Ok tt else Err (PlainError "panic"))
  end.

(** * Kubernetes pools ([storage/rdb/k8s_pool/k8s_pool.go]) *)

Definition k8sFromDAO (one : TK8sPool) : K8sPool := mkK8sPool (t8_Name one) (items (t8_Instances one)).
Definition FetchK8sPoolRow (name : string) : prog confE (result (option K8sPool)) :=
  list <-? call (TK8sPoolList (Some name)) ;; Ret (Ok (option_map k8sFromDAO (hd_error list))).
Definition FetchK8sPoolRows : prog confE (result (list K8sPool)) :=
  list <-? call (TK8sPoolList None) ;; Ret (Ok (map k8sFromDAO list)).
Definition UpsertPool (name : string) (instances : list ProviderInstance) : prog confE (result unit) :=
  existing <-? call (TK8sPoolList (Some name)) ;;
  match existing with
  | [] => _ <-? call (TK8sPoolCreate name instances) ;; Ret (Ok tt)
  | _ => _ <-? call (TK8sPoolUpdate name instances) ;; Ret (Ok tt)
  end.
Definition DeleteK8sPoolRow (name : string) : prog confE (result unit) :=
  _ <-? call (TK8sPoolDelete name) ;; Ret (Ok tt).

(** The manager of providers ([model/iprovider/provider.go]): creating,
    changing and deleting providers, with the hooks of the managers that refer
    to them. *)

Definition ActionCreate : string := "create".
Definition ActionUpdate : string := "update".
Definition ActionDelete : string := "delete".

(** The message of an entry and its summary of changes are left out. *)
Definition recordProviderOperation (action name : string) (err : option goerr) : prog confE unit :=
  if bool_decide (name = "") then Ret tt else call (RecordConf (mkConfLog action "provider" name name err)).

(** Hooks are called with the provider before and after the change. *)
Definition sync_hook : Type := Provider -> Provider -> prog confE (result unit).

Section Manager.
Variable LoadLocation : string -> bool.

Definition ProviderManager_CreateProvider (param : ProviderParam) : prog confE (result Z) :=
  let name := default "" (pp_Name param) in
  let record := recordProviderOperation ActionCreate name in
  after_check
    (ValidateProviderParam LoadLocation param &>
     refuse_if (length (items (pp_Models param)) =? 0)%nat "models is required and must have at least one element")%go record
    (let param := validated param in
     recorded record (atomically (
       existing <-? FetchProviderRow (byProviderName name) ;;
       match existing with
       | Some _ => Ret (Err (RecordExisted "provider"))
       | None => CreateProviderRow param
       end))).

Definition merged_source (existing : Provider) (param : ProviderParam) : string :=
  or_kept (pp_InstanceSource param) (pv_InstanceSource existing).
Definition put_mirror (pool : option (list ProviderInstance)) (p : ProviderParam) : ProviderParam :=
  mkProviderParam (pp_Name p) (pp_Description p) (pp_ModelEndpoint p) (pp_Models p) (pp_Keys p) (pp_InstancePool p)
    (pp_InstanceSource p) (pp_K8sPoolName p) pool (pp_ModelProtocols p) (pp_ProtocolPaths p) (pp_TimeZone p) (pp_Tiers p).
(** The mirror of a provider that is, or becomes, maintained by hand is
    cleared. *)
Definition with_cleared_mirror (existing : Provider) (param : ProviderParam) : ProviderParam :=
  if bool_decide (merged_source existing param = InstanceSourceInstancePool) &&
     negb (length (pv_K8sInstancePool existing) =? 0)%nat
  then put_mirror (Some []) param else param.

(** Whether the hooks have to run. *)
Definition clusterConfigChanged (existing newProvider : Provider) (param : ProviderParam) : bool :=
  (match pp_Keys param with Some keys => negb (providerKeysEqual (items (pv_Keys existing)) keys) | None => false end) ||
  (match pp_Models param with Some models => negb (providerModelsEqual (items (pv_Models existing)) models) | None => false end) ||
  negb (providerInstancePoolEqual (EffectiveInstancePool existing) (EffectiveInstancePool newProvider)).

(** The storager does not change the parameter of an update, so that there is
    nothing to restore before the merge. *)
Definition update_body (name : string) (param : ProviderParam) (syncHooks : list sync_hook) : prog confE (result unit) :=
  existing <-? FetchProviderRow (byProviderName name) ;;
  match existing with
  | None => Ret (Err (RecordNotExist "provider"))
  | Some existing =>
      let effectivePaths := match pp_ProtocolPaths param with Some paths => paths | None => items (pv_ProtocolPaths existing) end in
      match validateProviderProtocolPaths effectivePaths (items (pp_ModelProtocols param)) with
      | Refuse e => Ret (Err e)
      | Panic => Ret (Err (PlainError "panic"))
      | Accept =>
          let param := with_cleared_mirror existing param in
          _ <-? UpdateProviderRow name param ;;
          match syncHooks with
          | [] => Ret (Ok tt)
          | _ =>
              let newProvider := applyProviderUpdate existing param in
              if clusterConfigChanged existing newProvider param
              then run_checks syncHooks (fun hook => hook existing newProvider)
              else Ret (Ok tt)
          end
      end
  end.
Definition ProviderManager_UpdateProvider (name : string) (param : ProviderParam) (syncHooks : list sync_hook)
  : prog confE (result unit) :=
  let record := recordProviderOperation ActionUpdate name in
  after_check (ValidateProviderParam LoadLocation param) record
    (recorded record (atomically (update_body name (validated param) syncHooks))).

Definition pricing_update (existing : Provider) (param : PricingTiersParam) : ProviderParam :=
  mkProviderParam (Some (pv_Name existing)) (Some (pv_Description existing)) (Some (pv_ModelEndpoint existing)) None
    (pv_Keys existing) (pv_InstancePool existing) None None None (pv_ModelProtocols existing) (pv_ProtocolPaths existing)
    (Some (pts_TimeZone param)) (pts_Tiers param).
Definition UpdatePricingTiers (name : string) (param : PricingTiersParam) : prog confE (result unit) :=
  let record := recordProviderOperation ActionUpdate name in
  after_check (ValidatePricingTiersParam LoadLocation param) record
    (recorded record (atomically (
      existing <-? FetchProviderRow (byProviderName name) ;;
      match existing with
      | None => Ret (Err (RecordNotExist "provider"))
      | Some existing => UpdateProviderRow name (pricing_update existing param)
      end))).

Definition delete_body (name : string) (refCheckers : list (string -> prog confE (result unit))) : prog confE (result unit) :=
  existing <-? FetchProviderRow (byProviderName name) ;;
  match existing with
  | None => Ret (Err (RecordNotExist "provider"))
  | Some _ =>
      _ <-? run_checks refCheckers (fun checker => checker name) ;;
      DeleteProviderRow name
  end.
Definition ProviderManager_DeleteProvider (name : string) (refCheckers : list (string -> prog confE (result unit)))
  : prog confE (result unit) :=
  recorded (recordProviderOperation ActionDelete name) (atomically (delete_body name refCheckers)).
End Manager.

(** * Queries *)

(** A slice expression with indices out of range panics. *)
Definition slice {A} (start stop : Z) (l : list A) : result (list A) :=
  if ((start <? 0) || (stop <? start) || (Z.of_nat (length l) <? stop))%Z then Err (PlainError "panic")
  else Ok (take (Z.to_nat (stop - start)) (drop (Z.to_nat start) l)).

(** The protocol is searched in memory; the product of the page and its size
    is taken modulo 2^64. *)
Definition ProviderManager_FetchProviderList (filter : ProviderFilter) : prog confE (result (list Provider * Z)) :=
  match nonempty (default "" (pf_ModelProtocol filter)) with
  | None => FetchProviderRows filter
  | Some proto =>
      all <-? FetchProviderRows noProviderFilter ;;
      let matched := List.filter (fun p => existsb (fun mp => bool_decide (mp = proto)) (items (pv_ModelProtocols p))) all.1 in
      let total := Z.of_nat (length matched) in
      if negb (paged filter) then Ret (Ok (matched, total)) else
      let size := page_size (pf_PageSize filter) in
      let start := Z.min (wrap64 ((page_number (pf_Page filter) - 1) * size)) total in
      let stop := Z.min (wrap64 (start + size)) total in
      Ret (match slice start stop matched with Ok l => Ok (l, total) | Err e => Err e end)
  end.
Definition ListProviderNames : prog confE (result (list string)) := FetchProviderNames.
