(* ===== verification/ClusterManager.v ===== *)
(** The manager of clusters ([model/icluster_conf/cluster.go], [epp.go],
    [epp_runtime.go]): creating, changing and deleting clusters with their
    sub-clusters and pools, and the hooks through which changes of providers
    reach the clusters that refer to them. *)
From Stdlib Require Import ZArith Lia Ascii.
From stdpp Require Import base tactics numbers list strings gmap option.
From S2P Require Import Prelude GoStrings Prog EppConfig SharedTypes Validate ProviderModel ClusterModel ProviderManager.

Local Open Scope string_scope.

Definition BalanceModeWRR : string := "WRR".
Definition BalanceModeEPP : string := "EPP".

(** * Runtime parameters of EPP ([epp_runtime.go]) *)

Record EppCheckParam : Type := mkEppCheck {
  ec_Disabled : option bool; ec_CheckInterval : option string; ec_FailThreshold : option Z;
  ec_Cooldown : option string; ec_SuccessThreshold : option Z
}.
Record EppTimeoutParam : Type := mkEppTimeout { et_Connect : option string; et_Call : option string }.
Record EppRuntimeParam : Type := mkEppRuntime { er_Check : option EppCheckParam; er_Timeout : option EppTimeoutParam }.

Definition DefaultEppCheckInterval : string := "2s".
Definition DefaultEppFailThreshold : Z := 3.
Definition DefaultEppCooldown : string := "45s".
Definition DefaultEppSuccessThreshold : Z := 2.
Definition DefaultEppConnectTimeout : string := "500ms".
Definition DefaultEppCallTimeout : string := "3s".

Definition check_defaults (c : EppCheckParam) : EppCheckParam :=
  mkEppCheck (Some (default false (ec_Disabled c))) (Some (default DefaultEppCheckInterval (ec_CheckInterval c)))
    (Some (default DefaultEppFailThreshold (ec_FailThreshold c))) (Some (default DefaultEppCooldown (ec_Cooldown c)))
    (Some (default DefaultEppSuccessThreshold (ec_SuccessThreshold c))).
Definition timeout_defaults (t : EppTimeoutParam) : EppTimeoutParam :=
  mkEppTimeout (Some (default DefaultEppConnectTimeout (et_Connect t))) (Some (default DefaultEppCallTimeout (et_Call t))).
Definition ApplyDefaults (p : EppRuntimeParam) : EppRuntimeParam :=
  mkEppRuntime (option_map check_defaults (er_Check p)) (option_map timeout_defaults (er_Timeout p)).

(** * Scheduling *)

(** Every row of the matrix names a gateway cluster and every sub-cluster. *)
Definition check_rate (subClusters : list string) (entry : string * Z) (total : Z) : verdict * Z :=
  let '(subClusterName, rate) := entry in
  (refuse_if (negb (bool_decide (subClusterName = BlackHole)) && negb (among subClusterName subClusters))
     "LbMatrix Config Illegal, SubCluster %s Not In BFE Cluster %s Config" &>
   refuse_if (rate <? 0)%Z "LbMatrix Config Illegal, BFE Cluster %s Rate Must Bigger Than 0, Got %d", (total + rate)%Z).
Definition check_row (bfeNames subClusters : list string) (entry : string * list (string * Z)) (s : unit) : verdict * unit :=
  let '(bfeClusterName, rates) := entry in
  let '(v, total) := check_each (check_rate subClusters) rates 0%Z in
  (refuse_if (negb (among bfeClusterName bfeNames)) "LbMatrix Config Illegal, BFE Cluster %s Not Exist" &>
   v &>
   refuse_if (negb (total =? 100)%Z) "LbMatrix Config Illegal, BFE Cluster %s Total Rate Is %d, Want 100" &>
   refuse_if (negb (forallb (fun sc => map_has sc rates) subClusters)) "LbMatrix Config Illegal, SubCluster %s Not In BFE Cluster %s Config",
   s).
Definition check_matrix (bfeNames subClusters : list string) (m : LbMatrix) : verdict :=
  refuse_if (negb (length bfeNames =? length m)%nat) "LbMatrix Config Illegal, Want All BFE Cluster Exist" &>
  fst (check_each (check_row bfeNames subClusters) m tt).

Definition SubClusterNames (c : Cluster) : list string := map sc_Name (cl_SubClusters c).
Definition checkManualLB (old : option Cluster) (scheduler : option LbMatrix) (subClusters : option (list string)) : prog confE (result unit) :=
  match scheduler with
  | None => Ret (Ok tt)
  | Some m =>
      bfeClusters <-? call (FetchBFEClusters None) ;;
      let names := match subClusters, old with Some l, _ => l | None, Some old => SubClusterNames old | None, None => [] end in
      Ret (match check_matrix (map bc_Name bfeClusters) names m with
           | Accept => Ok tt
           | Refuse e => Err e
           | Panic => Err (PlainError "panic")
           end)
  end.

(** The same share for every sub-cluster, what is left for the black hole;
    without a sub-cluster the division panics. *)
Definition default_rates (subClusters : list SubCluster) : list (string * Z) :=
  let n := Z.of_nat (length subClusters) in
  let rate := (100 / n)%Z in
  fold_left (fun tmp sc => map_put (sc_Name sc) rate tmp) subClusters [(BlackHole, 100 - rate * n)%Z].
Definition constructDefaultScheduler (subClusters : list SubCluster) : prog confE (result LbMatrix) :=
  bfeClusters <-? call (FetchBFEClusters None) ;;
  Ret (if (length subClusters =? 0)%nat then Err (PlainError "panic")
       else Ok (fold_left (fun m b => map_put (bc_Name b) (default_rates subClusters) m) bfeClusters [])).

(** * Providers of clusters *)

Definition getBalanceMode (c : Cluster) : string := if bool_decide (cl_BalanceMode c = "") then BalanceModeWRR else cl_BalanceMode c.

(** The provider that an LLM configuration names, unless it is empty. *)
Definition provider_of (llm : option LLMConfig) : option string :=
  match llm with Some l => nonempty (default "" (lc_Provider l)) | None => None end.
Definition refers_to (name : string) (llm : option LLMConfig) : bool :=
  match llm with Some l => bool_decide (lc_Provider l = Some name) | None => false end.

Fixpoint check_keys (providerKeys : list string) (keys : list ClusterKeyRef) : verdict :=
  match keys with
  | [] => Accept
  | k :: keys =>
      (refuse_if (blank (ckr_Name k)) "llm_config.keys.name is required" &>
       refuse_if (given (ckr_Name k) (fun n => negb (among n providerKeys))) "key %s not found in provider %s" &>
       check_keys providerKeys keys)
  end.
Definition key_names (p : Provider) : list string := map pk_Name (items (pv_Keys p)).
Definition validateClusterLLMConfigAgainstProvider (llm : LLMConfig) (provider : Provider) : verdict :=
  refuse_if (negb (forallb (fun m => among m (items (pv_Models provider))) (lc_Models llm))) "model %s not in provider %s models" &>
  check_keys (key_names provider) (lc_Keys llm).

Definition instance_name (inst : ProviderInstance) : string := pi_Addr inst +:+ "_" +:+ FormatInt (pi_Port inst).
Definition providerInstancesToClusterInstances (l : list ProviderInstance) : list Instance :=
  map (fun inst => mkInstance (instance_name inst) (pi_Addr inst) (pi_Port inst) (pi_Weight inst) (pi_Disable inst)) l.

(** [strings.SplitN(poolName, ".", 2)] *)
Definition poolNameJudger (productName poolName : string) : result string :=
  match Cut poolName "." with
  | Some (prefix, _) => if bool_decide (prefix = productName) then Ok poolName else Err (ParamError "Pool Name Must Use Product Name as Prefix")
  | None => Ok (productName +:+ "." +:+ poolName)
  end.

Record ClusterConfig : Type := mkClusterConfig {
  cc_DefaultAIClusterName : string; cc_IgnoreBNSStatusCheck : bool; cc_AIRouteInnerProductName : string; cc_hasEppPools : bool
}.

Definition of_verdict (v : verdict) : result unit :=
  match v with Accept => Ok tt | Refuse e => Err e | Panic => Err (PlainError "panic") end.

Section Manager.
Variable cfg : ClusterConfig.
(** the strict JSON decoder and the encoder of the two EPP columns, and
    [time.ParseDuration] *)
Variable ParseEppConfig : string -> result (option EppConfigSimplified).
Variable decodeEppRuntime : string -> option EppRuntimeParam.
Variable encodeEppRuntime : EppRuntimeParam -> string.
Variable ParseDuration : string -> option Z.

(** * Validation ([epp.go], [epp_runtime.go]) *)

Definition validateClusterBalanceConfig (balanceMode : option string) (oldMode : string) (eppConfig : option string) (oldEppConfig : string)
  : result (string * string) :=
  let mode := if bool_decide (oldMode = "") then BalanceModeWRR else oldMode in
  let mode := match balanceMode with Some m => if bool_decide (m = "") then mode else m | None => mode end in
  if negb (among mode [BalanceModeWRR; BalanceModeEPP]) then Err (ParamError "balance_mode must be one of %q/%q, got %q") else
  let raw := match eppConfig with Some s => TrimSpace s | None => oldEppConfig end in
  match ParseEppConfig raw with
  | Err e => Err e
  | Ok conf =>
      match Validate conf with
      | Some e => Err e
      | None =>
          if bool_decide (mode = BalanceModeEPP) && IsEmpty conf then Err (ParamError "epp_config is required when balance_mode is %q")
          else Ok (mode, raw)
      end
  end.

Definition isPositiveDuration (s : string) : bool := match ParseDuration s with Some d => (0 <? d)%Z | None => false end.
Definition bad_duration (s : option string) : bool := given s (fun s => negb (isPositiveDuration s)).
Definition EppRuntime_Validate (p : EppRuntimeParam) : verdict :=
  if_set (er_Check p) (fun c =>
    refuse_if (bad_duration (ec_CheckInterval c)) "epp_runtime.check.check_interval %q is not a valid positive duration" &>
    refuse_if (bad_duration (ec_Cooldown c)) "epp_runtime.check.cooldown %q is not a valid positive duration" &>
    refuse_if (given (ec_FailThreshold c) (fun n => n <? 1)%Z) "epp_runtime.check.fail_threshold must be >= 1" &>
    refuse_if (given (ec_SuccessThreshold c) (fun n => n <? 1)%Z) "epp_runtime.check.success_threshold must be >= 1") &>
  if_set (er_Timeout p) (fun t =>
    refuse_if (bad_duration (et_Connect t)) "epp_runtime.timeout.connect %q is not a valid positive duration" &>
    refuse_if (bad_duration (et_Call t)) "epp_runtime.timeout.call %q is not a valid positive duration").

Definition ParseEppRuntime (raw : string) : result (option EppRuntimeParam) :=
  let trimmed := TrimSpace raw in
  if bool_decide (trimmed = "") || bool_decide (trimmed = "null") then Ok None else
  match decodeEppRuntime raw with
  | None => Err (ParamError "epp_runtime is invalid: %s")
  | Some conf => Ok (Some conf)
  end.
Definition validateClusterEppRuntime (runtime : option string) : result (option string) :=
  match runtime with
  | None => Ok None
  | Some raw =>
      match ParseEppRuntime raw with
      | Err e => Err e
      | Ok None => Ok None
      | Ok (Some conf) =>
          match of_verdict (EppRuntime_Validate conf) with
          | Err e => Err e
          | Ok _ => Ok (Some (encodeEppRuntime (ApplyDefaults conf)))
          end
      end
  end.

(** The values that the validators put into the parameter. *)
Definition put_validated (mode raw : string) (runtime : option string) (p : ClusterParam) : ClusterParam :=
  mkClusterParam (clp_Name p) (clp_ProductID p) (clp_Description p) (clp_Basic p) (clp_StickySessions p) (clp_SubClusters p)
    (clp_Scheduler p) (clp_PassiveHealthCheck p) (clp_LLMConfig p) (option_map (fun _ => mode) (clp_BalanceMode p))
    (option_map (fun _ => raw) (clp_EppConfig p)) runtime.
Definition put_scheduler (m : option LbMatrix) (subs : option (list string)) (p : ClusterParam) : ClusterParam :=
  mkClusterParam (clp_Name p) (clp_ProductID p) (clp_Description p) (clp_Basic p) (clp_StickySessions p) subs m
    (clp_PassiveHealthCheck p) (clp_LLMConfig p) (clp_BalanceMode p) (clp_EppConfig p) (clp_EppRuntime p).
Definition put_productID (id : Z) (p : ClusterParam) : ClusterParam :=
  mkClusterParam (clp_Name p) (Some id) (clp_Description p) (clp_Basic p) (clp_StickySessions p) (clp_SubClusters p)
    (clp_Scheduler p) (clp_PassiveHealthCheck p) (clp_LLMConfig p) (clp_BalanceMode p) (clp_EppConfig p) (clp_EppRuntime p).

(** * Queries *)

Definition FetchClusterList (f : ClusterFilter) : prog confE (result (list Cluster)) := atomically (FetchClusterRows f).
Definition FetchCluster (f : ClusterFilter) : prog confE (result (option Cluster)) :=
  list <-? FetchClusterList f ;; Ret (Ok (hd_error list)).
Definition FetchEPPClusters : prog confE (result (list (string * string))) :=
  clusters <-? FetchClusterRows noClusterFilter ;;
  Ret (Ok (map (fun c => (cl_Name c, cl_EppConfig c)) (List.filter (fun c => bool_decide (getBalanceMode c = BalanceModeEPP)) clusters))).
Definition IsBFEClusterUsed (bfeClusterName : string) : prog confE (result bool) :=
  rows <-? FetchLBMatrixList ;;
  Ret (Ok (existsb (fun r => map_has bfeClusterName (tl_LbMatrix r)) rows)).

Definition recordClusterOperation (action : string) (clusterID : Z) (clusterName : string) (err : option goerr) : prog confE unit :=
  call (RecordConf (mkConfLog action "cluster" (FormatInt clusterID) clusterName err)).
(** A failure is only logged. *)
Definition assignClusterToEPP (clusterName : string) : prog confE unit :=
  if cc_hasEppPools cfg then _ <- call (AssignCluster clusterName) ;; Ret tt else Ret tt.

(** * Creating a cluster *)

Definition sub_by_name (subs : list SubCluster) (name : string) : option SubCluster :=
  List.find (fun sc => bool_decide (sc_Name sc = name)) (rev subs).
Definition check_binding (oldClusterID : Z) (subs : list SubCluster) (name : string) (s : unit) : (option goerr) * unit :=
  (match sub_by_name subs name with
   | None => Some (ModelError "SubCluster %s Not Exist")
   | Some sc =>
       if negb (sc_ClusterID sc =? oldClusterID)%Z && (0 <? sc_ClusterID sc)%Z then Some (ModelError "SubCluster %s be Mounted With Cluster %d")
       else if negb (cc_IgnoreBNSStatusCheck cfg) && negb (sc_Ready sc) then Some (DependentUnReady "SubCluster %s Not Ready")
       else None
   end, s).
Fixpoint check_bindings (oldClusterID : Z) (subs : list SubCluster) (names : list string) : result unit :=
  match names with
  | [] => Ok tt
  | name :: names =>
      match fst (check_binding oldClusterID subs name tt) with Some e => Err e | None => check_bindings oldClusterID subs names end
  end.
Definition checkBindingSubClusters (cluster : option Cluster) (names : list string) (subs : list SubCluster) : result unit :=
  if (length subs =? 0)%nat then Err (ModelError "Cluster Want At Least On SubCluster")
  else check_bindings (match cluster with Some c => cl_ID c | None => 0%Z end) subs names.

(** The first sub-cluster decides whether there may be more. *)
Definition single_when_epp (subs : list SubCluster) : result unit :=
  match subs with
  | sc :: _ :: _ => if bool_decide (sc_Role sc = ProductPoolRoleEPP) then Err (ParamError "subcluster is EPP, then must be one subcluster") else Ok tt
  | _ => Ok tt
  end.

Definition default_scheduler (clusterName : string) : LbMatrix :=
  [(cc_DefaultAIClusterName cfg, map_put BlackHole 0%Z [(clusterName, 100%Z)])].

(** The pool and the sub-cluster that a cluster gets from its provider. *)
Definition create_from_provider (product : ConfProduct) (llm : LLMConfig) (providerName balanceMode : string) (param : ClusterParam)
  : prog confE (result ClusterParam) :=
  provider <-? FetchProviderRow (byProviderName providerName) ;;
  match provider with
  | None => Ret (Err (ParamError "provider %s not exist"))
  | Some provider =>
      match validateClusterLLMConfigAgainstProvider llm provider with
      | Refuse e => Ret (Err e)
      | Panic => Ret (Err (PlainError "panic"))
      | Accept =>
          let clusterName := default "" (clp_Name param) in
          match poolNameJudger (cp_Name product) (cp_Name product +:+ "." +:+ clusterName) with
          | Err e => Ret (Err e)
          | Ok poolName =>
              old <-? FetchPoolRow poolName ;;
              match old with
              | Some _ => Ret (Err (RecordExisted ""))
              | None =>
                  let poolRole := if bool_decide (balanceMode = BalanceModeEPP) then ProductPoolRoleEPP else ProductPoolRoleCommon in
                  let poolInstances := providerInstancesToClusterInstances (EffectiveInstancePool provider) in
                  pool <-? CreatePoolRow product (mkPoolParam (Some poolName) None (Some poolInstances) (Some PoolTagProduct) None (Some poolRole)) ;;
                  _ <-? CreateSubClusterRow (mkSubClusterParam (Some clusterName) (Some poolName) (Some pool) (Some product) (Some (-1)%Z) None) ;;
                  Ret (Ok (put_scheduler
                    (Some (default (default_scheduler clusterName) (clp_Scheduler param)))
                    (match items (clp_SubClusters param) with [] => Some [clusterName] | _ => clp_SubClusters param end) param))
              end
          end
      end
  end.

(** The id of the new row is what the closure leaves behind when the binding
    fails. *)
Definition create_body (product : ConfProduct) (balanceMode : string) (param : ClusterParam) : prog confE (option goerr * Z) :=
  r <- (old <-? FetchClusterRows (mkClusterFilter None (clp_Name param) None []) ;;
        match old with
        | _ :: _ => Ret (Err (RecordExisted "cluster"))
        | [] =>
            param <-? (match clp_LLMConfig param, provider_of (clp_LLMConfig param) with
                       | Some llm, Some name => create_from_provider product llm name balanceMode param
                       | _, _ => Ret (Ok param)
                       end) ;;
            subs <-? FetchSubClusterRows (mkSubClusterFilter None (clp_SubClusters param) None (Some product) None) ;;
            match single_when_epp subs with
            | Err e => Ret (Err e)
            | Ok _ =>
                match checkBindingSubClusters None (items (clp_SubClusters param)) subs with
                | Err e => Ret (Err e)
                | Ok _ =>
                    _ <-? checkManualLB None (clp_Scheduler param) (clp_SubClusters param) ;;
                    scheduler <-? (match clp_Scheduler param with
                                   | Some m => Ret (Ok m)
                                   | None => constructDefaultScheduler subs
                                   end) ;;
                    id <-? ClusterCreate product (put_scheduler (Some scheduler) (clp_SubClusters param) param) ;;
                    Ret (Ok (id, subs))
                end
            end
        end) ;;
  match r with
  | Err e => Ret (Some e, 0%Z)
  | Ok (id, subs) =>
      b <- BindSubCluster id subs [] ;;
      Ret (match b with Err e => Some e | Ok _ => None end, id)
  end.

Definition CreateCluster (product : ConfProduct) (param : ClusterParam) : prog confE (result unit) :=
  let param := put_productID (cp_ID product) param in
  match validateClusterBalanceConfig (clp_BalanceMode param) "" (clp_EppConfig param) "" with
  | Err e => Ret (Err e)
  | Ok (balanceMode, eppConfigRaw) =>
      match validateClusterEppRuntime (clp_EppRuntime param) with
      | Err e => Ret (Err e)
      | Ok runtime =>
          let param := put_validated balanceMode eppConfigRaw runtime param in
          let clusterName := default "" (clp_Name param) in
          r <- AtomExecute 0%Z (create_body product balanceMode param) ;;
          let '(err, clusterID) := r in
          recordClusterOperation ActionCreate clusterID clusterName err ;;
          match err with
          | Some e => Ret (Err e)
          | None =>
              (if bool_decide (balanceMode = BalanceModeEPP) then assignClusterToEPP clusterName else Ret tt) ;;
              Ret (Ok tt)
          end
      end
  end.

(** * Changing a cluster *)

Fixpoint first_pool (subs : list SubCluster) : option Pool :=
  match subs with
  | [] => None
  | sc :: subs => match sc_InstancePool sc with Some p => Some p | None => first_pool subs end
  end.

Definition removedModels (oldConfig : option LLMConfig) (newConfig : LLMConfig) : list string :=
  List.filter (fun m => negb (among m (lc_Models newConfig))) (match oldConfig with Some c => lc_Models c | None => [] end).
(** A target or a fallback of some rule. *)
Definition rule_refers (targets : option string -> option string -> bool) (r : AiRouteRuleParam) : bool :=
  existsb (fun t => match t with Some t => targets (tg_ClusterName t) (tg_Model t) | None => false end) (rr_Targets r) ||
  existsb (fun f => match f with Some f => targets (fb_ClusterName f) (fb_Model f) | None => false end) (rr_Fallbacks r).
Definition rules_refer (targets : option string -> option string -> bool) (rules : list RouteRulesParam) : bool :=
  existsb (fun t => existsb (fun r => match r with Some r => rule_refers targets r | None => false end) (rrs_Rules t)) rules.
Definition names_cluster (clusterName : string) (cluster model : option string) : bool := bool_decide (cluster = Some clusterName).
Definition names_models (clusterName : string) (models : list string) (cluster model : option string) : bool :=
  bool_decide (cluster = Some clusterName) && given model (fun m => among m models).

(** [RouteRulesManager.ClusterModelUpdateChecker] *)
Definition ClusterModelUpdateChecker (cluster : Cluster) (param : ClusterParam) : prog confE (result unit) :=
  match clp_LLMConfig param with
  | None => Ret (Ok tt)
  | Some llm =>
      match removedModels (cl_LLMConfig cluster) llm with
      | [] => Ret (Ok tt)
      | removed =>
          rules <-? call TRouteRulesList ;;
          Ret (if rules_refer (names_models (cl_Name cluster) removed) rules
               then Err (ConflictError "Rule %s Refer To Model %s In Cluster %s") else Ok tt)
      end
  end.

(** The pool of the cluster gets the instances of the provider. *)
Definition update_from_provider (llm : LLMConfig) (providerName : string) (oldData : Cluster) : prog confE (result unit) :=
  provider <-? FetchProviderRow (byProviderName providerName) ;;
  match provider with
  | None => Ret (Err (ParamError "provider %s not exist"))
  | Some provider =>
      match validateClusterLLMConfigAgainstProvider llm provider with
      | Refuse e => Ret (Err e)
      | Panic => Ret (Err (PlainError "panic"))
      | Accept =>
          match first_pool (cl_SubClusters oldData) with
          | Some pool => UpdatePoolRow pool (instancesParam (providerInstancesToClusterInstances (items (pv_InstancePool provider))))
          | None => Ret (Ok tt)
          end
      end
  end.

Definition update_cluster_body (product : ConfProduct) (oldData : Cluster) (param : ClusterParam) : prog confE (result unit) :=
  _ <-? (match clp_LLMConfig param, provider_of (clp_LLMConfig param) with
         | Some llm, Some name => update_from_provider llm name oldData
         | _, _ => Ret (Ok tt)
         end) ;;
  _ <-? checkManualLB (Some oldData) (clp_Scheduler param) (clp_SubClusters param) ;;
  match single_when_epp (cl_SubClusters oldData) with
  | Err e => Ret (Err e)
  | Ok _ =>
      _ <-? ClusterModelUpdateChecker oldData param ;;
      ClusterUpdate product (cl_ID oldData) param
  end.

Definition UpdateCluster (product : ConfProduct) (oldData : Cluster) (param : ClusterParam) : prog confE (result unit) :=
  let record := recordClusterOperation ActionUpdate (cl_ID oldData) (cl_Name oldData) in
  let oldBalanceMode := getBalanceMode oldData in
  match validateClusterBalanceConfig (clp_BalanceMode param) oldBalanceMode (clp_EppConfig param) (cl_EppConfig oldData) with
  | Err e => record (Some e) ;; Ret (Err e)
  | Ok (balanceMode, eppConfigRaw) =>
      match validateClusterEppRuntime (clp_EppRuntime param) with
      | Err e => record (Some e) ;; Ret (Err e)
      | Ok runtime =>
          let param := put_validated balanceMode eppConfigRaw runtime param in
          r <- recorded record (atomically (update_cluster_body product oldData param)) ;;
          match r with
          | Err e => Ret (Err e)
          | Ok _ =>
              (if negb (bool_decide (oldBalanceMode = BalanceModeEPP)) && bool_decide (balanceMode = BalanceModeEPP)
               then assignClusterToEPP (cl_Name oldData) else Ret tt) ;;
              Ret (Ok tt)
          end
      end
  end.

(** * Hooks and checkers for providers *)

Definition ProviderDeleteChecker (providerName : string) : prog confE (result unit) :=
  clusters <-? FetchClusterRows noClusterFilter ;;
  Ret (if existsb (fun c => refers_to providerName (cl_LLMConfig c)) clusters
       then Err (ConflictError "provider %s is referenced by cluster %s") else Ok tt).

Definition sync_pool (newInstances : list Instance) (sc : SubCluster) : prog confE (result unit) :=
  match sc_InstancePool sc with Some pool => UpdatePoolRow pool (instancesParam newInstances) | None => Ret (Ok tt) end.
Definition SyncProviderEffectivePool (provider : Provider) : prog confE (result unit) :=
  clusters <-? FetchClusterRows noClusterFilter ;;
  let newInstances := providerInstancesToClusterInstances (EffectiveInstancePool provider) in
  run_checks (List.filter (fun c => refers_to (pv_Name provider) (cl_LLMConfig c)) clusters) (fun cluster =>
    run_checks (cl_SubClusters cluster) (sync_pool newInstances)).

Definition ProviderInstancePoolSyncer : sync_hook := fun oldProvider newProvider =>
  if providerInstancePoolEqual (EffectiveInstancePool oldProvider) (EffectiveInstancePool newProvider) then Ret (Ok tt)
  else SyncProviderEffectivePool newProvider.

(** A key whose name is nil or empty is passed over. *)
Definition ProviderKeyRefChecker : sync_hook := fun oldProvider newProvider =>
  if providerKeysEqual (items (pv_Keys oldProvider)) (items (pv_Keys newProvider)) then Ret (Ok tt) else
  clusters <-? FetchClusterRows noClusterFilter ;;
  let lost := fun k => match nonempty (default "" (ckr_Name k)) with Some n => negb (among n (key_names newProvider)) | None => false end in
  Ret (if existsb (fun c => refers_to (pv_Name newProvider) (cl_LLMConfig c) &&
                            match cl_LLMConfig c with Some l => existsb lost (lc_Keys l) | None => false end) clusters
       then Err (ConflictError "provider %s key %s is referenced by cluster %s") else Ok tt).

Definition ProviderModelRefChecker : sync_hook := fun oldProvider newProvider =>
  if providerModelsEqual (items (pv_Models oldProvider)) (items (pv_Models newProvider)) then Ret (Ok tt) else
  clusters <-? FetchClusterRows noClusterFilter ;;
  let lost := fun m => negb (among m (items (pv_Models newProvider))) in
  Ret (if existsb (fun c => refers_to (pv_Name newProvider) (cl_LLMConfig c) &&
                            match cl_LLMConfig c with Some l => existsb lost (lc_Models l) | None => false end) clusters
       then Err (ConflictError "provider %s model %s is referenced by cluster %s") else Ok tt).

(** * Binding other sub-clusters *)

Definition subtract (l k : list string) : list string := List.filter (fun x => negb (among x k)) l.

(** The rates that remain; a sub-cluster must have the rate zero to leave. *)
Definition check_unbind (unbind : list string) (rates : list (string * Z)) : bool :=
  forallb (fun '(name, rate) => negb (among name unbind) || (rate =? 0)%Z) rates.
(** The new sub-clusters are added while the old entries are visited. *)
Definition remaining_rates (unbind append : list string) (rates : list (string * Z)) : list (string * Z) :=
  fold_left (fun row e =>
    let row := if among (fst e) unbind then row else map_put (fst e) (snd e) row in
    fold_left (fun row name => map_put name 0%Z row) append row) rates [].
Definition checkLbMatrix (scheduler : LbMatrix) (unbind append : list string) : result LbMatrix :=
  if forallb (fun '(_, rates) => check_unbind unbind rates) scheduler
  then Ok (map (fun '(bfe, rates) => (bfe, remaining_rates unbind append rates)) scheduler)
  else Err (ModelError "BFE Cluster %s, SubCluster: %s Rate is %d, Set to 0 Before Unbind").

Definition the_subs (subs : list SubCluster) (names : list string) : option (list SubCluster) := mapM (sub_by_name subs) names.
Definition rebind_body (product : ConfProduct) (cluster : Cluster) (matrix : LbMatrix) (names unbind append : list string)
  : prog confE (result unit) :=
  bindingSubClusters <-? FetchSubClusterRows (mkSubClusterFilter None (Some names) None (Some product) None) ;;
  match checkBindingSubClusters (Some cluster) names bindingSubClusters with
  | Err e => Ret (Err e)
  | Ok _ =>
      _ <-? ClusterUpdate product (cl_ID cluster) (put_scheduler (Some matrix) None noClusterParam) ;;
      match the_subs (cl_SubClusters cluster) unbind, the_subs bindingSubClusters append with
      | Some unbindSubClusters, Some appendSubClusters => BindSubCluster (cl_ID cluster) appendSubClusters unbindSubClusters
      | _, _ => Ret (Err (PlainError "panic"))
      end
  end.
Definition RebindSubCluster (product : ConfProduct) (cluster : Cluster) (names : list string) : prog confE (result unit) :=
  let unbind := subtract (SubClusterNames cluster) names in
  let append := subtract names (SubClusterNames cluster) in
  match unbind, append with
  | [], [] => Ret (Ok tt)
  | _, _ =>
      match checkLbMatrix (default [] (cl_Scheduler cluster)) unbind append with
      | Err e => Ret (Err e)
      | Ok matrix => atomically (rebind_body product cluster matrix names unbind append)
      end
  end.

(** * Deleting a cluster *)

(** [RouteRuleManager.ClusterDeleteChecker]: rules of the product that lead to
    the cluster. *)
Definition RouteRule_ClusterDeleteChecker (product : ConfProduct) (cluster : Cluster) : prog confE (result unit) :=
  advance <-? call (TRouteAdvanceRuleList (cp_ID product)) ;;
  basic <-? call (TRouteBasicRuleList (cp_ID product)) ;;
  let leads := fun r => (rt_ClusterID r =? cl_ID cluster)%Z in
  Ret (if existsb leads advance || existsb leads basic then Err (ConflictError "Rule %s Refer To This Cluster") else Ok tt).
(** [RouteRulesManager.ClusterDeleteChecker] *)
Definition RouteRules_ClusterDeleteChecker (product : ConfProduct) (cluster : Cluster) : prog confE (result unit) :=
  rules <-? call TRouteRulesList ;;
  Ret (if rules_refer (names_cluster (cl_Name cluster)) rules then Err (ConflictError "Rule %s Refer To This Cluster") else Ok tt).

(** The checkers of the container, in the order in which a range happens to
    visit them. *)
Variable deleteCheckers : list (ConfProduct -> Cluster -> prog confE (result unit)).

Definition delete_sub (sc : SubCluster) : prog confE (result unit) :=
  _ <-? DeleteSubClusterRow sc ;;
  match sc_InstancePool sc with Some pool => DeletePoolRow pool | None => Ret (Ok tt) end.
Definition delete_cluster_body (product : ConfProduct) (cluster : Cluster) : prog confE (result unit) :=
  _ <-? run_checks deleteCheckers (fun checker => checker product cluster) ;;
  _ <-? run_checks (cl_SubClusters cluster) delete_sub ;;
  _ <-? BindSubCluster (cl_ID cluster) [] (cl_SubClusters cluster) ;;
  ClusterDelete (cl_ID cluster).
Definition DeleteCluster (product : ConfProduct) (cluster : Cluster) : prog confE (result unit) :=
  recorded (recordClusterOperation ActionDelete (cl_ID cluster) (cl_Name cluster)) (atomically (delete_cluster_body product cluster)).
End Manager.

(** The manager of Kubernetes pools ([model/ik8s_pool/k8s_pool.go]): the
    instances that the discovery component reports, and their way to the
    providers and clusters that use them. *)

Definition DefaultInstanceWeight : Z := 100.

Record InstanceParam : Type := mkInstanceParam { ip_Addr : option string; ip_Port : option Z; ip_Weight : option Z }.

(** A loop that checks the elements and keeps what they become. *)
Definition check_reported (p : InstanceParam) (s : list string * list ProviderInstance)
  : verdict * (list string * list ProviderInstance) :=
  let '(comboSet, rst) := s in
  match ip_Addr p with
  | None => (Refuse (ParamError "instances[%d]: addr is required"), s)
  | Some addr =>
      if bool_decide (TrimSpace addr = "") then (Refuse (ParamError "instances[%d]: addr is required"), s) else
      match ip_Port p with
      | None => (Refuse (ParamError "instances[%d]: port must be between 1 and 65535"), s)
      | Some port =>
          (refuse_if ((port <? 1) || (65535 <? port))%Z "instances[%d]: port must be between 1 and 65535" &>
           refuse_if (given (ip_Weight p) (fun w => (w <? 0) || (100 <? w))%Z) "instances[%d]: weight must be between 0 and 100" &>
           refuse_if (seen (instance_key addr port) comboSet) "instances: duplicate addr/port combination: %s",
           (instance_key addr port :: comboSet,
            (rst ++ [mkProviderInstance addr port (default DefaultInstanceWeight (ip_Weight p)) false])%list))
      end
  end.
Definition ValidateInstances (params : list InstanceParam) : result (list ProviderInstance) :=
  let '(v, (_, rst)) := check_each check_reported params ([], []) in
  match of_verdict v with Ok _ => Ok rst | Err e => Err e end.

Definition mirrorParam (instances : list ProviderInstance) : ProviderParam := put_mirror (Some instances) noProviderParam.
(** The provider with the new mirror, as the clusters are to see it. *)
Definition with_mirror (instances : list ProviderInstance) (p : Provider) : Provider :=
  mkProvider (pv_ID p) (pv_Name p) (pv_Description p) (pv_ModelEndpoint p) (pv_Models p) (pv_Keys p) (pv_InstancePool p)
    (pv_InstanceSource p) (pv_K8sPoolName p) instances (pv_ModelProtocols p) (pv_ProtocolPaths p) (pv_TimeZone p) (pv_Tiers p).

Definition byK8sPool (name : string) : ProviderFilter :=
  mkProviderFilter None None [] None (Some InstanceSourceK8sPool) (Some name) None None.
Definition sync_mirror (instances : list ProviderInstance) (p : Provider) : prog confE (result unit) :=
  _ <-? UpdateProviderRow (pv_Name p) (mirrorParam instances) ;;
  SyncProviderEffectivePool (with_mirror instances p).
Definition syncProviderMirrors (name : string) (instances : list ProviderInstance) : prog confE (result unit) :=
  providers <-? FetchProviderRows (byK8sPool name) ;;
  run_checks providers.1 (sync_mirror instances).

Definition replace_body (name : string) (instances : list ProviderInstance) : prog confE (result unit) :=
  _ <-? UpsertPool name instances ;;
  syncProviderMirrors name instances.
Definition ReplaceInstances (name : string) (instances : list ProviderInstance) : prog confE (result (option K8sPool)) :=
  _ <-? atomically (replace_body name instances) ;;
  FetchK8sPoolRow name.

Definition delete_pool_body (name : string) : prog confE (result unit) :=
  _ <-? DeleteK8sPoolRow name ;;
  syncProviderMirrors name [].
Definition K8s_DeletePool (name : string) : prog confE (result unit) :=
  existing <-? FetchK8sPoolRow name ;;
  match existing with
  | None => Ret (Err (RecordNotExist "k8s pool"))
  | Some _ => atomically (delete_pool_body name)
  end.
Definition K8s_FetchPool (name : string) : prog confE (result (option K8sPool)) := FetchK8sPoolRow name.
Definition K8s_FetchPoolList : prog confE (result (list K8sPool)) := FetchK8sPoolRows.
