(* ===== verification/ConfEndpoints.v ===== *)
(** The endpoints of providers, clusters and Kubernetes pools
    ([endpoints/openapi_v1/provider], [endpoints/openapi_v1/product_cluster],
    [endpoints/innerapi_v1/k8s_pools]): the validation of requests and the
    defaults that they get, then the managers.  The visitor was authorized
    before. *)
From Stdlib Require Import ZArith Lia Ascii.
From stdpp Require Import base tactics numbers list strings gmap option.
From S2P Require Import Prelude GoStrings Prog EppConfig SharedTypes Validate ProviderModel ClusterModel ProviderManager ClusterManager.
From S2P Require AuthModel.

Local Open Scope string_scope.

(** * Requests for clusters ([create.go], [update_basic.go]) *)

Record ConnectionParam : Type := mkUpConnection { uc_MaxIdleConnPerRs : option Z; uc_CancelOnClientClose : option bool }.
Record TimeoutsParam : Type := mkUpTimeouts {
  ut_ConnServ : option Z; ut_ResponseHeader : option Z; ut_ReadbodyClient : option Z; ut_ReadClientAgain : option Z; ut_WriteClient : option Z
}.
(** [RetriesParam] and [BuffersParam] have one field each. *)
Record BasicParam : Type := mkUpBasic {
  ub_Connection : option ConnectionParam; ub_Retries : option (option Z); ub_Buffers : option (option Z);
  ub_Timeouts : option TimeoutsParam; ub_Protocol : option string
}.
Record StickySessionsParam : Type := mkUpSticky { us_Enabled : option bool; us_HashStrategy : option string; us_HashHeader : option string }.
Record PassiveHealthCheckParam : Type := mkUpHealth {
  uh_Interval : option Z; uh_Failnum : option Z; uh_Statuscode : option Z; uh_Host : option string; uh_Uri : option string
}.
Record UpsertParam : Type := mkUpsert {
  up_Name : option string; up_Description : option string; up_Basic : option BasicParam;
  up_StickySessions : option StickySessionsParam; up_PassiveHealthCheck : option PassiveHealthCheckParam;
  up_LLMConfig : option LLMConfig; up_BalanceMode : option string; up_EppConfig : option string; up_EppRuntime : option string
}.

Definition clusterHashStrategyClientIDOnly : string := "CLIENT_ID_ONLY".
Definition clusterHashStrategyClientIPOnly : string := "CLIENT_IP_ONLY".
Definition clusterHashStrategyClientIDPrefered : string := "CLIENT_ID_PREFERED".
Definition MaxClusterDescriptionLength : nat := 256.

Definition below (lo : Z) (o : option Z) : bool := given o (fun z => z <? lo)%Z.
Definition validateBasicRanges (basic : option BasicParam) : verdict :=
  if_set basic (fun b =>
    refuse_if (given (ub_Connection b) (fun c => below 0 (uc_MaxIdleConnPerRs c))) "basic.connection.max_idle_conn_per_rs must be >= 0" &>
    refuse_if (given (ub_Retries b) (below 0)) "basic.retries.max_retry_in_cluster must be >= 0" &>
    refuse_if (given (ub_Buffers b) (below 1)) "basic.buffers.req_write_buffer_size must be > 0" &>
    if_set (ub_Timeouts b) (fun t =>
      refuse_if (below 1 (ut_ConnServ t)) "basic.timeouts.timeout_conn_serv must be > 0" &>
      refuse_if (below 1 (ut_ResponseHeader t)) "basic.timeouts.timeout_response_header must be > 0" &>
      refuse_if (below 1 (ut_ReadbodyClient t)) "basic.timeouts.timeout_readbody_client must be > 0" &>
      refuse_if (below 1 (ut_ReadClientAgain t)) "basic.timeouts.timeout_read_client_again must be > 0" &>
      refuse_if (below 1 (ut_WriteClient t)) "basic.timeouts.timeout_write_client must be > 0")).

Definition validateStickySessions (ss : option StickySessionsParam) : verdict :=
  if_set ss (fun s =>
    if negb (default false (us_Enabled s)) then Accept else
    let hashStrategy := default clusterHashStrategyClientIDOnly (nonempty (default "" (us_HashStrategy s))) in
    if among hashStrategy [clusterHashStrategyClientIDOnly; clusterHashStrategyClientIDPrefered]
    then refuse_if (blank (us_HashHeader s)) "sticky_sessions.hash_header is required when enabled and hash_strategy is %s"
    else refuse_if (negb (bool_decide (hashStrategy = clusterHashStrategyClientIPOnly))) "sticky_sessions.hash_strategy must be one of %s, %s, %s").

Definition validatePassiveHealthCheck (phc : option PassiveHealthCheckParam) : verdict :=
  if_set phc (fun h =>
    refuse_if (below 0 (uh_Failnum h)) "passive_health_check.failnum must be >= 0" &>
    refuse_if (below 0 (uh_Interval h)) "passive_health_check.interval must be >= 0" &>
    refuse_if (given (uh_Statuscode h) (fun c => negb (c =? 0) && ((c <? 100) || (599 <? c)))%Z)
      "passive_health_check.statuscode must be 0 or in [100, 599]" &>
    refuse_if (given (uh_Uri h) (fun u => bool_decide (u = "") || negb (HasPrefix u "/")))
      "passive_health_check.uri must be non-empty and start with '/'").

Definition UpsertParam_Validate (p : UpsertParam) : verdict :=
  refuse_if (blank (up_Name p)) "name is required" &>
  if_set (up_Name p) ClusterName &>
  if_set (up_Description p) (fun d => Description d MaxClusterDescriptionLength) &>
  validateBasicRanges (up_Basic p) &>
  validateStickySessions (up_StickySessions p) &>
  validatePassiveHealthCheck (up_PassiveHealthCheck p) &>
  if_set (up_LLMConfig p) (fun l => LLMConfig_ok (Some l)).

(** ** Defaults *)

Definition or_default {A} (o : option A) (a : A) : option A := Some (default a o).
Definition noConnection : ConnectionParam := mkUpConnection None None.
Definition noTimeouts : TimeoutsParam := mkUpTimeouts None None None None None.
Definition noBasic : BasicParam := mkUpBasic None None None None None.

Definition normalizeBasic (basic : option BasicParam) : BasicParam :=
  let b := default noBasic basic in
  let c := default noConnection (ub_Connection b) in
  let t := default noTimeouts (ub_Timeouts b) in
  mkUpBasic
    (Some (mkUpConnection (or_default (uc_MaxIdleConnPerRs c) 0%Z) (or_default (uc_CancelOnClientClose c) false)))
    (Some (or_default (default None (ub_Retries b)) 2%Z))
    (Some (or_default (default None (ub_Buffers b)) 512%Z))
    (Some (mkUpTimeouts (or_default (ut_ConnServ t) 50000%Z) (or_default (ut_ResponseHeader t) 50000%Z)
      (or_default (ut_ReadbodyClient t) 30000%Z) (or_default (ut_ReadClientAgain t) 30000%Z) (or_default (ut_WriteClient t) 60000%Z)))
    (Some (let p := default "https" (ub_Protocol b) in if among p ["http"; "https"] then p else "https")).
Definition normalizeStickySessions (ss : option StickySessionsParam) : StickySessionsParam :=
  let s := default (mkUpSticky None None None) ss in
  mkUpSticky (or_default (us_Enabled s) false) (or_default (us_HashStrategy s) clusterHashStrategyClientIPOnly) (or_default (us_HashHeader s) "").
Definition normalizePassiveHealthCheck (phc : option PassiveHealthCheckParam) : PassiveHealthCheckParam :=
  let h := default (mkUpHealth None None None None None) phc in
  mkUpHealth (or_default (uh_Interval h) 1000%Z) (or_default (uh_Failnum h) 3%Z) (or_default (uh_Statuscode h) 0%Z)
    (or_default (uh_Host h) "") (or_default (uh_Uri h) "/").
(** [normalizeEppConfigRaw], [normalizeEppRuntimeRaw] *)
Definition normalizeRaw (raw : option string) : option string :=
  match raw with
  | None => None
  | Some r => let s := TrimSpace r in if bool_decide (s = "") || bool_decide (s = "null") then None else Some s
  end.
Definition normalizeKeyAffinity (a : option KeyAffinity) : KeyAffinity :=
  let a := default (mkKeyAffinity None None None None) a in
  mkKeyAffinity (or_default (ka_Enabled a) true) (or_default (ka_TTL a) 600%Z) (or_default (ka_RedisPrefix a) "bfe:ai:key_affinity")
    (or_default (ka_PenaltyEnable a) true).
Definition normalizeLLMConfig (l : LLMConfig) : LLMConfig :=
  mkLLMConfig (lc_Models l) (lc_ModelMappings l) (lc_Keys l) (lc_KeyPolicy l) (Some (normalizeKeyAffinity (lc_KeyAffinity l)))
    (lc_NormalizeUpstreamError l) (lc_Provider l) (lc_MatchPrefix l) (lc_StripPrefix l).

(** A name that is not known becomes zero, as a missing key of a map does. *)
Definition hash_strategy_number (s : string) : Z :=
  if bool_decide (s = clusterHashStrategyClientIPOnly) then 1
  else if bool_decide (s = clusterHashStrategyClientIDPrefered) then 2 else 0.
Definition hashStrategyConvert (s : option string) : option Z := option_map hash_strategy_number s.

Definition ClusterHealthCheckHTTP : string := "http".
Definition ClusterDefaultReqFlushInterval : Z := 0.
Definition ClusterDefaultResFlushInterval : Z := -1.

Definition connection_model (c : ConnectionParam) : ClusterBasicConnectionParam := mkConnectionParam (uc_MaxIdleConnPerRs c) (uc_CancelOnClientClose c).
Definition retries_model (n : option Z) : ClusterBasicRetriesParam := mkRetriesParam n None.
Definition buffers_model (n : option Z) : ClusterBasicBuffersParam :=
  mkBuffersParam n (Some ClusterDefaultReqFlushInterval) (Some ClusterDefaultResFlushInterval).
Definition timeouts_model (t : TimeoutsParam) : ClusterBasicTimeoutsParam :=
  mkTimeoutsParam (ut_ConnServ t) (ut_ResponseHeader t) (ut_ReadbodyClient t) (ut_ReadClientAgain t) (ut_WriteClient t).
Definition basic_model (protocol : option string) (b : BasicParam) : ClusterBasicParam :=
  mkBasicParam (option_map connection_model (ub_Connection b)) (option_map retries_model (ub_Retries b))
    (option_map buffers_model (ub_Buffers b)) (option_map timeouts_model (ub_Timeouts b)) protocol.
Definition PassiveHealthCheckParamC2M (h : PassiveHealthCheckParam) : ClusterPassiveHealthCheckParam :=
  mkHealthParam (Some ClusterHealthCheckHTTP) (uh_Interval h) (uh_Failnum h) (uh_Statuscode h) (uh_Host h) (uh_Uri h).
Definition sticky_model (s : StickySessionsParam) : ClusterStickySessionsParam :=
  mkStickyParam (us_Enabled s) (hashStrategyConvert (us_HashStrategy s)) (us_HashHeader s).

Definition clusterParamControlModel (param : UpsertParam) : ClusterParam :=
  let basic := normalizeBasic (up_Basic param) in
  mkClusterParam (up_Name param) None (up_Description param) (Some (basic_model (ub_Protocol basic) basic))
    (Some (sticky_model (normalizeStickySessions (up_StickySessions param)))) None None
    (Some (PassiveHealthCheckParamC2M (normalizePassiveHealthCheck (up_PassiveHealthCheck param))))
    (option_map normalizeLLMConfig (up_LLMConfig param)) (up_BalanceMode param) (normalizeRaw (up_EppConfig param))
    (normalizeRaw (up_EppRuntime param)).

(** In an update an unknown protocol becomes http. *)
Definition update_protocol (p : string) : string := if among p ["http"; "https"] then p else "http".
Definition clusterParamControlModel4Update (param : UpsertParam) : ClusterParam :=
  mkClusterParam (up_Name param) None (up_Description param)
    (option_map (fun b => basic_model (option_map update_protocol (ub_Protocol b)) b) (up_Basic param))
    (option_map sticky_model (up_StickySessions param)) None None
    (option_map PassiveHealthCheckParamC2M (up_PassiveHealthCheck param))
    (option_map normalizeLLMConfig (up_LLMConfig param)) (up_BalanceMode param) (normalizeRaw (up_EppConfig param))
    (normalizeRaw (up_EppRuntime param)).

(** ** Answers ([one.go]) *)

Record ClusterData : Type := mkClusterData {
  da_Name : string; da_Description : string; da_Connection : ClusterBasicConnection; da_MaxRetryInCluster : Z;
  da_ReqWriteBufferSize : Z; da_Timeouts : ClusterBasicTimeouts; da_Protocol : string;
  da_Enabled : bool; da_HashStrategy : string; da_HashHeader : string;
  da_PassiveHealthCheck : PassiveHealthCheckParam; da_LLMConfig : option LLMConfig;
  da_BalanceMode : string; da_EppConfig : option string; da_EppRuntime : option string
}.
Definition hash_strategy_name (z : Z) : string :=
  if (z =? 0)%Z then clusterHashStrategyClientIDOnly else if (z =? 1)%Z then clusterHashStrategyClientIPOnly
  else if (z =? 2)%Z then clusterHashStrategyClientIDPrefered else "".
Definition PassiveHealthCheckM2C (h : ClusterPassiveHealthCheck) : PassiveHealthCheckParam :=
  mkUpHealth (Some (kh_Interval h)) (Some (kh_Failnum h)) (Some (kh_Statuscode h)) (Some (kh_Host h)) (Some (kh_Uri h)).
Definition clusterModel2Control (c : Cluster) : ClusterData := {|
  da_Name := cl_Name c; da_Description := cl_Description c; da_Connection := k_Connection (cl_Basic c);
  da_MaxRetryInCluster := kr_MaxRetryInSubcluster (k_Retries (cl_Basic c));
  da_ReqWriteBufferSize := kb_ReqWriteBufferSize (k_Buffers (cl_Basic c)); da_Timeouts := k_Timeouts (cl_Basic c);
  da_Protocol := k_Protocol (cl_Basic c); da_Enabled := ks_SessionSticky (cl_StickySessions c);
  da_HashStrategy := hash_strategy_name (ks_HashStrategy (cl_StickySessions c)); da_HashHeader := ks_HashHeader (cl_StickySessions c);
  da_PassiveHealthCheck := PassiveHealthCheckM2C (cl_PassiveHealthCheck c); da_LLMConfig := cl_LLMConfig c;
  da_BalanceMode := if bool_decide (cl_BalanceMode c = "") then BalanceModeWRR else cl_BalanceMode c;
  da_EppConfig := nonempty (cl_EppConfig c); da_EppRuntime := nonempty (cl_EppRuntime c)
|}.

(** * Handlers *)

Section Handlers.
Variable LoadLocation : string -> bool.
Variable cfg : ClusterConfig.
Variable ParseEppConfig : string -> result (option EppConfigSimplified).
Variable decodeEppRuntime : string -> option EppRuntimeParam.
Variable encodeEppRuntime : EppRuntimeParam -> string.
Variable ParseDuration : string -> option Z.
(** whom the request comes from, as [MustGetVisitor] finds it *)
Variable visitor : result AuthModel.Visitor.

Definition getDefaultProduct : prog confE (result ConfProduct) :=
  products <-? call (FetchProducts None (Some (cc_AIRouteInnerProductName cfg))) ;;
  Ret (match products with [p] => Ok p | _ => Err (ParamError "Default Product Not Exist") end).

(** [clusterModel2Control] of a nil cluster panics. *)
Definition cluster_answer (c : option Cluster) : result ClusterData :=
  match c with Some c => Ok (clusterModel2Control c) | None => Err (PlainError "panic") end.

Definition PostClusterAction (p : UpsertParam) : prog confE (result ClusterData) :=
  checked (UpsertParam_Validate p)
    (match up_LLMConfig p with
     | None => Ret (Err (ParamError "llm_config is required"))
     | Some _ =>
         product <-? getDefaultProduct ;;
         let param := clusterParamControlModel p in
         _ <-? CreateCluster cfg ParseEppConfig decodeEppRuntime encodeEppRuntime ParseDuration product param ;;
         cluster <-? FetchCluster (mkClusterFilter None (clp_Name param) None []) ;;
         Ret (cluster_answer cluster)
     end).

Definition the_cluster (product : ConfProduct) (name : string) : prog confE (result Cluster) :=
  cluster <-? FetchCluster (mkClusterFilter None (Some name) (Some product) []) ;;
  Ret (match cluster with Some c => Ok c | None => Err (RecordNotExist "Cluster") end).

(** The name comes from the path; a body with a name is refused. *)
Definition put_up_name (name : string) (p : UpsertParam) : UpsertParam :=
  mkUpsert (Some name) (up_Description p) (up_Basic p) (up_StickySessions p) (up_PassiveHealthCheck p) (up_LLMConfig p)
    (up_BalanceMode p) (up_EppConfig p) (up_EppRuntime p).
Definition PatchClusterAction (name : string) (body_has_name : bool) (p : UpsertParam) : prog confE (result ClusterData) :=
  let p := put_up_name name p in
  checked (refuse_if body_has_name "cluster %s should not be set in request body" &> UpsertParam_Validate p)
    (product <-? getDefaultProduct ;;
     cluster <-? the_cluster product name ;;
     _ <-? UpdateCluster cfg ParseEppConfig decodeEppRuntime encodeEppRuntime ParseDuration product cluster (clusterParamControlModel4Update p) ;;
     cluster <-? FetchCluster (mkClusterFilter (Some (cl_ID cluster)) None None []) ;;
     Ret (cluster_answer cluster)).

Variable deleteCheckers : list (ConfProduct -> Cluster -> prog confE (result unit)).
(** The tag of the parameter asks for a name of at least one character. *)
Definition DeleteClusterAction (name : string) : prog confE (result ClusterData) :=
  checked (min_len 1 name)
    (product <-? getDefaultProduct ;;
     one <-? the_cluster product name ;;
     _ <-? DeleteCluster deleteCheckers product one ;;
     Ret (Ok (clusterModel2Control one))).
Definition GetClusterAction (name : string) : prog confE (result ClusterData) :=
  checked (min_len 1 name)
    (product <-? getDefaultProduct ;;
     one <-? the_cluster product name ;;
     Ret (Ok (clusterModel2Control one))).
Definition GetClustersAction : prog confE (result (list ClusterData)) :=
  product <-? getDefaultProduct ;;
  list <-? FetchClusterList (mkClusterFilter None None (Some product) []) ;;
  Ret (Ok (map clusterModel2Control list)).

(** ** Providers *)

Definition PostProviderAction (p : ProviderParam) : prog confE (result (option Provider)) :=
  id <-? ProviderManager_CreateProvider LoadLocation (FillDefaults p) ;;
  FetchProviderRow (byProviderID id).

Definition provider_hooks : list sync_hook := [ProviderInstancePoolSyncer; ProviderKeyRefChecker; ProviderModelRefChecker].
Definition put_name (name : string) (p : ProviderParam) : ProviderParam :=
  mkProviderParam (Some name) (pp_Description p) (pp_ModelEndpoint p) (pp_Models p) (pp_Keys p) (pp_InstancePool p)
    (pp_InstanceSource p) (pp_K8sPoolName p) (pp_K8sInstancePool p) (pp_ModelProtocols p) (pp_ProtocolPaths p) (pp_TimeZone p) (pp_Tiers p).
Definition need_name (name : string) : verdict := refuse_if (bool_decide (name = "")) "provider_name is required".
Definition PatchProviderAction (name : string) (body_has_name : bool) (p : ProviderParam) : prog confE (result (option Provider)) :=
  checked (need_name name &> refuse_if body_has_name "provider %s should not be set in request body")
    (_ <-? ProviderManager_UpdateProvider LoadLocation name (put_name name p) provider_hooks ;;
     FetchProviderRow (byProviderName name)).
Definition PutPricingTiersAction (name : string) (p : PricingTiersParam) : prog confE (result (option Provider)) :=
  checked (need_name name)
    (_ <-? UpdatePricingTiers LoadLocation name p ;;
     FetchProviderRow (byProviderName name)).
Definition DeleteProviderAction (name : string) : prog confE (result unit) :=
  checked (need_name name) (ProviderManager_DeleteProvider name [ProviderDeleteChecker]).

Definition mask_keys (p : Provider) : Provider :=
  put_keys (Some (map (fun k => mkProviderKey (pk_Name k) (Secret (pk_Key k))) (items (pv_Keys p)))) p.
Definition maskKeysIfReadonly (l : list Provider) : result (list Provider) :=
  match visitor with
  | Err e => Err e
  | Ok v => Ok (if AuthModel.IsSystemReadonly v then map mask_keys l else l)
  end.
Definition GetProviderAction (name : string) : prog confE (result Provider) :=
  checked (need_name name)
    (one <-? FetchProviderRow (byProviderName name) ;;
     Ret (match one with
          | None => Err (RecordNotExist "Provider")
          | Some p => match maskKeysIfReadonly [p] with Ok (p :: _) => Ok p | Ok [] => Ok p | Err e => Err e end
          end)).

(** [pageFilter] on the two query parameters, empty when they are missing. *)
Definition query_number (s : string) (default_value : Z) : Z :=
  match ParseInt s with Some z => if (0 <? z)%Z then z else default_value | None => default_value end.
Definition pageFilter (page pageSize : string) : option (Z * Z) :=
  if bool_decide (page = "") && bool_decide (pageSize = "") then None
  else Some (query_number page 1, Z.min (query_number pageSize 50) 1000).
Record listResponse : Type := mkListResponse { lr_List : list Provider; lr_Page : Z; lr_PageSize : Z; lr_Total : Z }.
Definition GetProvidersAction (model_protocol page pageSize : string) : prog confE (result listResponse) :=
  let pages := pageFilter page pageSize in
  let filter := mkProviderFilter None None [] (nonempty model_protocol) None None (option_map fst pages) (option_map snd pages) in
  r <-? ProviderManager_FetchProviderList filter ;;
  let '(list, total) := r in
  let '(page, size) := match pages with Some p => p | None => (1, Z.max 0 total)%Z end in
  Ret (match maskKeysIfReadonly list with Ok l => Ok (mkListResponse l page size total) | Err e => Err e end).
Definition GetProviderNamesAction : prog confE (result (list string)) := ListProviderNames.

(** ** Kubernetes pools *)

Definition poolNameFromPath (name : string) : verdict :=
  refuse_if (bool_decide (name = "")) "name is required" &> K8sPoolNameOk name.
Record PoolEntry : Type := mkPoolEntry { pe_Name : string; pe_Instances : list ProviderInstance; pe_InstanceCount : Z }.
Definition poolEntryOf (p : K8sPool) : PoolEntry := mkPoolEntry (k8_Name p) (k8_Instances p) (Z.of_nat (length (k8_Instances p))).
Definition PutK8sPoolAction (name : string) (params : list InstanceParam) : prog confE (result PoolEntry) :=
  checked (poolNameFromPath name)
    (match ValidateInstances params with
     | Err e => Ret (Err e)
     | Ok instances =>
         pool <-? ReplaceInstances name instances ;;
         Ret (match pool with Some p => Ok (poolEntryOf p) | None => Err (PlainError "panic") end)
     end).
Definition GetK8sPoolAction (name : string) : prog confE (result PoolEntry) :=
  checked (poolNameFromPath name)
    (pool <-? K8s_FetchPool name ;;
     Ret (match pool with Some p => Ok (poolEntryOf p) | None => Err (RecordNotExist "k8s pool") end)).
Definition GetK8sPoolsAction : prog confE (result (list (string * Z))) :=
  pools <-? K8s_FetchPoolList ;;
  Ret (Ok (map (fun p => (k8_Name p, Z.of_nat (length (k8_Instances p)))) pools)).
Definition DeleteK8sPoolAction (name : string) : prog confE (result unit) :=
  checked (poolNameFromPath name) (K8s_DeletePool name).

(** * Requests *)

Inductive conf_request : Type :=
| PostProvider (p : ProviderParam)
| PatchProvider (name : string) (body_has_name : bool) (p : ProviderParam)
| PutPricingTiers (name : string) (p : PricingTiersParam)
| DeleteProvider (name : string)
| GetProvider (name : string)
| GetProviders (model_protocol page pageSize : string)
| GetProviderNames
| PostCluster (p : UpsertParam)
| PatchCluster (name : string) (body_has_name : bool) (p : UpsertParam)
| DeleteClusterRequest (name : string)
| GetCluster (name : string)
| GetClusters
| PutK8sPool (name : string) (instances : list InstanceParam)
| DeleteK8sPool (name : string)
| GetK8sPool (name : string)
| GetK8sPools.

Inductive conf_answer : Type :=
| NoAnswer
| OneProvider (p : option Provider)
| SomeProviders (r : listResponse)
| SomeNames (l : list string)
| OneCluster (c : ClusterData)
| SomeClusters (l : list ClusterData)
| OnePool (p : PoolEntry)
| SomePools (l : list (string * Z)).

Definition answered {A} (f : A -> conf_answer) (p : prog confE (result A)) : prog confE (result conf_answer) :=
  r <- p ;; Ret (match r with Ok a => Ok (f a) | Err e => Err e end).
Definition respond (q : conf_request) : prog confE (result conf_answer) :=
  match q with
  | PostProvider p => answered OneProvider (PostProviderAction p)
  | PatchProvider name has p => answered OneProvider (PatchProviderAction name has p)
  | PutPricingTiers name p => answered OneProvider (PutPricingTiersAction name p)
  | DeleteProvider name => answered (fun _ => NoAnswer) (DeleteProviderAction name)
  | GetProvider name => answered (fun p => OneProvider (Some p)) (GetProviderAction name)
  | GetProviders proto page size => answered SomeProviders (GetProvidersAction proto page size)
  | GetProviderNames => answered SomeNames GetProviderNamesAction
  | PostCluster p => answered OneCluster (PostClusterAction p)
  | PatchCluster name has p => answered OneCluster (PatchClusterAction name has p)
  | DeleteClusterRequest name => answered OneCluster (DeleteClusterAction name)
  | GetCluster name => answered OneCluster (GetClusterAction name)
  | GetClusters => answered SomeClusters GetClustersAction
  | PutK8sPool name l => answered OnePool (PutK8sPoolAction name l)
  | DeleteK8sPool name => answered (fun _ => NoAnswer) (DeleteK8sPoolAction name)
  | GetK8sPool name => answered OnePool (GetK8sPoolAction name)
  | GetK8sPools => answered SomePools GetK8sPoolsAction
  end.

(** Requests one after the other, each with the outcomes of its calls. *)
Fixpoint respond_all (history : list (conf_request * list outcome)) (w : cworld) : cworld :=
  match history with
  | [] => w
  | (q, os) :: history => respond_all history (exec os (respond q) w).2
  end.
End Handlers.
