(* ===== verification/ConfEffect.v ===== *)
(** What the calls of the configuration do to the tables, one by one and in
    transactions, and what the storage of providers and clusters and their
    managers answer and leave there; a transaction that reports an error
    leaves no trace. *)
From Stdlib Require Import ZArith Lia Ascii.
From stdpp Require Import base tactics numbers list strings gmap option.
From S2P Require Import Prelude GoStrings Prog EppConfig SharedTypes Validate ProviderModel ClusterModel ProviderManager ClusterManager.

(** * Transactions *)

Definition same_conf (w w' : cworld) : Prop := cw_data w' = cw_data w.
Definition kept_saved (w w' : cworld) : Prop := cw_saved w' = cw_saved w.
#[export] Instance same_conf_preorder : PreOrder same_conf.
Proof. split; unfold same_conf; [done|]. intros x y z H1 H2. congruence. Qed.
#[export] Instance kept_saved_preorder : PreOrder kept_saved.
Proof. split; unfold kept_saved; [done|]. intros x y z H1 H2. congruence. Qed.

Definition conf_statement (R : Type) (e : confE R) : Prop :=
  match e with ConfBegin | ConfCommit | ConfRollback => False | _ => True end.
Definition conf_reading (R : Type) (e : confE R) : Prop :=
  match e with
  | TProviderList _ | TProviderListWithPagination _ _ _ | TProviderCount _ | TProviderNames | TClusterList _ | TSubClusterList _
  | TPoolsList _ | TLbMatrixList _ | TK8sPoolList _ | TRouteRulesList | TRouteAdvanceRuleList _ | TRouteBasicRuleList _
  | FetchProducts _ _ | FetchBFEClusters _ | AssignCluster _ | RecordConf _ => True
  | _ => False
  end.

#[export] Instance conf_transactional : Transactional confE cworld same_conf kept_saved.
Proof.
  split; try apply _.
  - intros [] w e; by cbn.
  - intros [] [] w w1 Hok Hs; try discriminate Hok; unfold same_conf, kept_saved in *; cbn in *; by rewrite Hs.
  - done.
  - by intros w.
  - by intros [] w.
  - done.
Qed.
#[export] Instance conf_reading_calls : ReadingCalls confE cworld same_conf conf_reading.
Proof. intros R e w He. by destruct e. Qed.
#[export] Instance conf_statement_calls : StatementCalls confE cworld kept_saved conf_statement.
Proof.
  intros R e w He. destruct e; try done; unfold kept_saved; cbn -[insert_provider insert_cluster insert_sub insert_pool];
    unfold inserted, updated, deleted; repeat case_match; done.
Qed.

(** * Programs that succeed *)

(** Ids are drawn upwards from a positive number. *)
Definition ids_positive (w : cworld) : Prop := (0 < cw_next w)%Z.
Definition at_data (d : cdata) (w : cworld) : Prop := ids_positive w /\ cw_data w = d.

(** Run on the tables [d], the program fails, or answers and leaves what [Q]
    says. *)
Definition gives {A} (d : cdata) (p : prog confE (result A)) (Q : A -> cdata -> Prop) : Prop :=
  hoare (at_data d) p (fun r w => ids_positive w /\ match r with Ok a => Q a (cw_data w) | Err _ => True end).

Section Rules.
Context {A B : Type}.
Implicit Types (Q : A -> cdata -> Prop) (d : cdata).

Lemma gives_ret d Q a : Q a d -> gives d (Ret (Ok a)) Q.
Proof. intros HQ. apply hoare_ret. by intros w [Hp ->]. Qed.
Lemma gives_err d Q e : gives d (Ret (Err e)) Q.
Proof. apply hoare_ret. by intros w [Hp _]. Qed.
Lemma gives_result d Q r : (forall a, r = Ok a -> Q a d) -> gives d (Ret r) Q.
Proof. destruct r as [a|e]; intros H; [by apply gives_ret, H|apply gives_err]. Qed.
Lemma gives_weaken d p Q Q' : (forall a d', Q a d' -> Q' a d') -> gives d p Q -> gives d p Q'.
Proof. intros H. apply hoare_post. intros [a|e] w [Hw HQ]; (split; [done|]); [by apply H|done]. Qed.
Lemma gives_try d (p : prog confE (result A)) (f : A -> prog confE (result B)) (M : A -> cdata -> Prop) (Q : B -> cdata -> Prop) :
  gives d p M -> (forall a d', M a d' -> gives d' (f a) Q) -> gives d (a <-? p ;; f a) Q.
Proof.
  intros Hp Hf. eapply hoare_bind; [exact Hp|]. intros [a|e].
  - intros os w [Hw HM]. apply (Hf a (cw_data w) HM). by split.
  - apply hoare_ret. by intros w [Hw _].
Qed.
(** An answer that is only looked at. *)
Lemma gives_call d (e : confE (result A)) Q :
  (forall w a, at_data d w -> (handle e w).1 = Ok a -> Q a (cw_data (handle e w).2)) ->
  (forall w, ids_positive w -> ids_positive (handle e w).2) ->
  fault e = Some (Err DaoError) -> gives d (call e) Q.
Proof.
  intros HQ Hpos Hf. apply hoare_call_cases.
  - intros w Hw. split; [apply Hpos, Hw|]. destruct (handle e w).1 as [a|err] eqn:E; [|done]. by apply HQ.
  - intros w r Hw Hr. rewrite Hf in Hr. injection Hr as [= <-]. split; (split; [|done]); [apply Hw|apply Hpos, Hw].
Qed.
End Rules.

Lemma ids_positive_statement R (e : confE R) w : ids_positive w -> ids_positive (handle e w).2.
Proof.
  unfold ids_positive. intros Hp. destruct e; cbn -[insert_provider insert_cluster insert_sub insert_pool];
    unfold inserted, updated, deleted; repeat case_match; cbn; lia.
Qed.

(** A query answers with the rows that it selects. *)
Ltac gives_query := apply gives_call; [intros w a [_ Hw] [= <-]; cbn; rewrite ?Hw; done|intros w; apply ids_positive_statement|done].

Lemma gives_providers d q : gives d (call (TProviderList q)) (fun l d' => d' = d /\ l = List.filter (where_provider q) (cd_providers d)).
Proof. gives_query. Qed.
Lemma gives_cluster_list d q : gives d (call (TClusterList q)) (fun l d' => d' = d /\ l = List.filter (where_cluster q) (cd_clusters d)).
Proof. gives_query. Qed.
Lemma gives_sub_list d q : gives d (call (TSubClusterList q)) (fun l d' => d' = d /\ l = List.filter (where_sub q) (cd_subs d)).
Proof. gives_query. Qed.
Lemma gives_pool_list d q : gives d (call (TPoolsList q)) (fun l d' => d' = d /\ l = List.filter (where_pool q) (cd_pools d)).
Proof. gives_query. Qed.
Lemma gives_matrix_list d ids : gives d (call (TLbMatrixList ids))
  (fun l d' => d' = d /\ l = List.filter (fun r => is_in ids (tl_ClusterID r)) (cd_matrices d)).
Proof. gives_query. Qed.
Lemma gives_k8s_list d name : gives d (call (TK8sPoolList name)) (fun l d' => d' = d /\ l = List.filter (fun r => is_eq name (t8_Name r)) (cd_k8s d)).
Proof. gives_query. Qed.
Lemma gives_routes d : gives d (call TRouteRulesList) (fun _ d' => d' = d).
Proof. gives_query. Qed.
Lemma gives_advance d id : gives d (call (TRouteAdvanceRuleList id)) (fun _ d' => d' = d).
Proof. gives_query. Qed.
Lemma gives_basic d id : gives d (call (TRouteBasicRuleList id)) (fun _ d' => d' = d).
Proof. gives_query. Qed.
Lemma gives_products d ids name : gives d (call (FetchProducts ids name)) (fun _ d' => d' = d).
Proof. gives_query. Qed.
Lemma gives_bfe d pool : gives d (call (FetchBFEClusters pool)) (fun _ d' => d' = d).
Proof. gives_query. Qed.

(** A statement that works leaves the changed rows, and they are unique. *)
Lemma gives_inserted {R} d (e : confE (result Z)) (row : Z -> option R) unique rows put :
  (forall w, handle e w = inserted (row (cw_next w)) unique (rows (cw_data w)) put w) -> fault e = Some (Err DaoError) ->
  gives d (call e) (fun id d' => (0 < id)%Z /\ exists r, row id = Some r /\ unique (rows d ++ [r])%list = true /\ d' = put (rows d ++ [r])%list d).
Proof.
  intros He Hf. apply gives_call; [|intros w; apply ids_positive_statement|exact Hf].
  intros w a [Hp Hw]. rewrite He. unfold inserted. destruct (row (cw_next w)) as [r|] eqn:Er; [|done].
  rewrite Hw. destruct (unique _) eqn:Eu; [|done]. intros [= <-]. split; [exact Hp|]. by exists r.
Qed.
Lemma gives_updated {R} d (e : confE (result Z)) (hit : R -> bool) f unique rows put :
  (forall w, handle e w = updated hit f unique (rows (cw_data w)) put w) -> fault e = Some (Err DaoError) ->
  gives d (call e) (fun _ d' => unique (changed hit f (rows d)) = true /\ d' = put (changed hit f (rows d)) d).
Proof.
  intros He Hf. apply gives_call; [|intros w; apply ids_positive_statement|exact Hf].
  intros w a [Hp Hw]. rewrite He. unfold updated. rewrite Hw. destruct (unique _) eqn:Eu; [|done]. by intros [= <-].
Qed.
Lemma gives_deleted {R} d (e : confE (result Z)) (hit : R -> bool) rows put :
  (forall w, handle e w = deleted hit (rows (cw_data w)) put w) -> fault e = Some (Err DaoError) ->
  gives d (call e) (fun _ d' => d' = put (without hit (rows d)) d).
Proof.
  intros He Hf. apply gives_call; [|intros w; apply ids_positive_statement|exact Hf].
  intros w a [Hp Hw]. rewrite He. unfold deleted. rewrite Hw. by intros [= <-].
Qed.

(** * Checks one after the other *)

Lemma gives_checks {A} (l : list A) (run : A -> prog confE (result unit)) (F : A -> cdata -> cdata) d :
  (forall a d', a ∈ l -> gives d' (run a) (fun _ d'' => d'' = F a d')) ->
  gives d (run_checks l run) (fun _ d' => d' = fold_left (fun d' a => F a d') l d).
Proof.
  unfold run_checks. revert d. induction l as [|a l IH]; intros d Hrun; cbn [for_each fold_left]; [by apply gives_ret|].
  eapply hoare_bind; [apply (Hrun a d); left|]. intros [[]|e].
  - intros os w [Hw HM]. refine (IH (F a d) _ os w _); [intros b d' Hb; apply Hrun; by right|]. by split.
  - rewrite checks_stopped. apply hoare_ret. by intros w [Hw _].
Qed.
(** Checks that change nothing: each has passed. *)
Lemma gives_checks_only {A} (l : list A) (run : A -> prog confE (result unit)) (Q : A -> Prop) d :
  (forall a, a ∈ l -> gives d (run a) (fun _ d' => d' = d /\ Q a)) ->
  gives d (run_checks l run) (fun _ d' => d' = d /\ Forall Q l).
Proof.
  unfold run_checks. induction l as [|a l IH]; intros Hrun; cbn [for_each]; [by apply gives_ret|].
  eapply hoare_bind; [apply (Hrun a); left|]. intros [[]|e].
  - intros os w (Hw & Hd & HQ).
    refine (gives_weaken d _ (fun _ d' => d' = d /\ Forall Q l) (fun _ d' => d' = d /\ Forall Q (a :: l)) _ (IH _) os w (conj Hw Hd)).
    + intros _ d' [-> HF]. by split; [|constructor].
    + intros b Hb. apply Hrun. by right.
  - rewrite checks_stopped. apply hoare_ret. by intros w [Hw _].
Qed.

(** * Transactions *)

(** What a transaction that commits leaves; one that fails leaves nothing,
    unless only the answer of its COMMIT was lost: then it leaves the same. *)
Lemma atom_spec {B} d (init : B) body (Q : B -> cdata -> Prop) os w :
  all_calls conf_statement body ->
  hoare (at_data d) body (fun r w => ids_positive w /\ (r.1 = None -> Q r.2 (cw_data w))) ->
  at_data d w -> let '(r, w') := exec os (AtomExecute init body) w in
  ids_positive w' /\
  match r.1 with
  | None => Q r.2 (cw_data w')
  | Some _ => cw_data w' = d \/ (commit_unanswered os (AtomExecute init body) w = true /\ Q r.2 (cw_data w'))
  end.
Proof.
  intros Hst Hp [Hpos Hd].
  assert (ids_positive (exec os (AtomExecute init body) w).2) as Hpos'.
  { apply (hoare_keeps (fun _ _ => True) ids_positive); [intros R e w' _; apply ids_positive_statement| |done].
    generalize (AtomExecute init body). intros q. by induction q; constructor. }
  assert (forall w0, answer (hd Normal os) tx_begin w = (Ok tt, w0) -> at_data d w0) as Hbegin.
  { intros w0 H1. change w0 with ((Ok (A := unit) tt, w0).2 : cworld). rewrite <- H1. destruct (hd Normal os); by cbn. }
  destruct (exec os (AtomExecute init body) w) as [[[e|] a] w1] eqn:E; cbn [fst snd] in *; (split; [exact Hpos'|]).
  - destruct (AtomExecute_ends (same := same_conf) (kept := kept_saved) conf_statement
      (@statement_kept _ _ _ kept_saved conf_statement _) init body os w e a Hst ltac:(by rewrite E)) as [Hs|(Hl & os' & w0 & H1 & H2 & Hs)];
      rewrite E in Hs; unfold same_conf in Hs; cbn [snd] in Hs; [left; congruence|right].
    split; [exact Hl|]. rewrite Hs. specialize (Hp os' w0 (Hbegin w0 H1)). rewrite H2 in Hp. by apply Hp.
  - destruct (AtomExecute_works init body os w a ltac:(by rewrite E)) as (os' & o & w0 & H1 & H2 & _ & H3).
    rewrite E in H3. cbn [snd] in H3. subst w1.
    specialize (Hp os' w0 (Hbegin w0 H1)). rewrite H2 in Hp. destruct Hp as [_ Hp]. specialize (Hp eq_refl). by destruct o.
Qed.

(** A program that answers as [Q] says, or fails and leaves the tables as
    they were, or with the answer of a COMMIT lost does what [Q] says all the
    same. *)
Definition settles {A} (d : cdata) (p : prog confE (result A)) (Q : A -> cdata -> Prop) : Prop :=
  forall os w, at_data d w -> let '(r, w') := exec os p w in
  ids_positive w' /\
  match r with
  | Ok a => Q a (cw_data w')
  | Err _ => cw_data w' = d \/ (commit_unanswered os p w = true /\ exists a, Q a (cw_data w'))
  end.

Lemma settles_atomically {A} d (p : prog confE (result A)) Q :
  all_calls conf_statement p -> gives d p Q -> settles d (atomically p) Q.
Proof.
  intros Hst Hp os w Hw. unfold atomically. rewrite exec_bind, unanswered_bind.
  pose proof (atom_spec d None (as_body p) (fun o d' => match o with Some a => Q a d' | None => False end) os w) as Ha.
  destruct (exec os (AtomExecute None (as_body p)) w) as [[[e|] o] w1]; cbn [fst snd] in *;
    (destruct Ha as [Hpos Ha]; [..|rewrite exec_ret; cbn [fst snd]];
     [apply all_calls_bind; [exact Hst|intros []; constructor]
     |unfold as_body; eapply hoare_bind; [exact Hp|]; intros [a|e']; apply hoare_ret; intros w' [Hw' HQ]; split; [exact Hw'|by intros _|exact Hw'|discriminate]
     |exact Hw|split; [exact Hpos|]]).
  - destruct o as [a|]; (destruct Ha as [Ha|[-> Ha]]; [by left|right; split; [done|]]); [by exists a|done].
  - by destruct o.
Qed.
Lemma settles_weaken {A} d (p : prog confE (result A)) Q Q' : (forall a d', Q a d' -> Q' a d') -> settles d p Q -> settles d p Q'.
Proof.
  intros H Hp os w Hw. specialize (Hp os w Hw). destruct (exec os p w) as [[a|e] w']; destruct Hp as [Hpos HQ]; (split; [done|]); [by apply H|].
  destruct HQ as [?|[? [a HQ]]]; [by left|right]. split; [done|]. exists a. by apply H.
Qed.

(** Programs that only read. *)
Lemma reading_keeps {A} d (p : prog confE A) : all_calls conf_reading p -> hoare (at_data d) p (fun _ => at_data d).
Proof.
  intros Hp. apply (hoare_keeps conf_reading); [|exact Hp]. intros R e w He [Hpos Hd].
  split; [by apply ids_positive_statement|]. by rewrite (reading_same (same := same_conf) R e w He).
Qed.
Lemma settles_reading {A} d (p : prog confE (result A)) Q : all_calls conf_reading p -> gives d p Q -> settles d p Q.
Proof.
  intros Hp HQ os w Hw. specialize (HQ os w Hw). destruct (reading_keeps d p Hp os w Hw) as [_ Hd].
  destruct (exec os p w) as [[a|e] w']; cbn [fst snd] in *; [done|]. by split; [apply HQ|left].
Qed.
Lemma settles_after {A B} d (p : prog confE (result A)) (f : A -> prog confE (result B)) (F : A -> Prop) Q :
  settles d p (fun a d' => d' = d /\ F a) -> (forall a, F a -> settles d (f a) Q) -> settles d (a <-? p ;; f a) Q.
Proof.
  intros Hp Hf os w Hw. specialize (Hp os w Hw). rewrite exec_bind, unanswered_bind.
  destruct (exec os p w) as [[a|e] w1]; cbn [fst snd]; destruct Hp as [Hpos H].
  - destruct H as [Hd HF]. specialize (Hf a HF (leftover os p w) w1 (conj Hpos Hd)). destruct (exec _ (f a) w1) as [[b|e] w2]; [done|].
    destruct Hf as [? [?|[-> ?]]]; (split; [done|]); [by left|right]. by rewrite orb_true_r.
  - rewrite exec_ret. split; [done|]. left. destruct H as [?|(_ & a & ? & _)]; done.
Qed.
(** A record of a refusal; a transaction, and a request, after which the rest
    only reads and succeeds. *)
Lemma settles_refused {A} d (p : prog confE unit) e (Q : A -> cdata -> Prop) : all_calls conf_reading p -> settles d (p ;; Ret (Err e)) Q.
Proof.
  intros Hp. apply settles_reading; [apply all_calls_bind; [done|constructor]|]. eapply hoare_bind; [by apply reading_keeps|].
  intros u. apply hoare_ret. by intros w [Hw _].
Qed.
Lemma succeeds_some {A} (p : prog confE (result A)) os w : succeeds p -> exists a, (exec os p w).1 = Ok a.
Proof. intros Hp. destruct (exec os p w).1 as [a|e] eqn:E; [by exists a|]. by destruct (Hp os w e). Qed.
Lemma settles_atom {A B} d (init : A) body (f : option goerr * A -> prog confE (result B)) (Q : cdata -> Prop) :
  all_calls conf_statement body ->
  hoare (at_data d) body (fun r w => ids_positive w /\ (r.1 = None -> Q (cw_data w))) ->
  (forall r, all_calls conf_reading (f r)) -> (forall a, succeeds (f (None, a))) -> (forall e a os w, is_ok (exec os (f (Some e, a)) w).1 = false) ->
  settles d (bind (AtomExecute init body) f) (fun _ => Q).
Proof.
  intros Hst Hb Hf Hs He os w Hw. rewrite exec_bind, unanswered_bind. pose proof (atom_spec d init body (fun _ => Q) os w Hst Hb Hw) as Ha.
  destruct (exec os (AtomExecute init body) w) as [[err a] w1]. cbn [fst snd] in *. destruct Ha as [Hpos Ha].
  destruct (reading_keeps (cw_data w1) (f (err, a)) (Hf (err, a)) (leftover os (AtomExecute init body) w) w1 (conj Hpos eq_refl)) as [Hpos' Hd].
  destruct (succeeds_some (f (None, a)) [] w1 (Hs a)) as [b _]. destruct err as [e|].
  - specialize (He e a (leftover os (AtomExecute init body) w) w1). destruct (exec _ (f (Some e, a)) w1) as [[b'|e'] w2]; [done|]. cbn [fst snd] in *.
    split; [done|]. rewrite Hd. destruct Ha as [?|[-> ?]]; [by left|right]. split; [done|by exists b].
  - destruct (succeeds_some (f (None, a)) (leftover os (AtomExecute init body) w) w1 (Hs a)) as [b' Hb'].
    destruct (exec _ (f (None, a)) w1) as [r w2]. cbn [fst snd] in *. subst r. split; [done|]. by rewrite Hd.
Qed.
Lemma settles_then_read {A B} d (p : prog confE (result A)) (f : A -> prog confE (result B)) (Q : cdata -> Prop) :
  settles d p (fun _ => Q) -> (forall a, all_calls conf_reading (f a)) -> (forall a, succeeds (f a)) -> settles d (a <-? p ;; f a) (fun _ => Q).
Proof.
  intros Hp Hf Hs os w Hw. specialize (Hp os w Hw). rewrite exec_bind, unanswered_bind.
  destruct (exec os p w) as [[a|e] w1]; cbn [fst snd]; destruct Hp as [Hpos H].
  - destruct (reading_keeps (cw_data w1) (f a) (Hf a) (leftover os p w) w1 (conj Hpos eq_refl)) as [Hpos' Hd].
    destruct (succeeds_some (f a) (leftover os p w) w1 (Hs a)) as [b Hb]. destruct (exec _ (f a) w1) as [r w2]. cbn [fst snd] in *. subst r.
    split; [done|]. by rewrite Hd.
  - rewrite exec_ret. split; [done|]. destruct H as [?|(-> & a & HQ)]; [by left|right]. split; [done|].
    destruct (succeeds_some (f a) [] w1 (Hs a)) as [b _]. by exists b.
Qed.
Lemma settles_ret {A} d (r : result A) Q : (forall a, r = Ok a -> Q a d) -> settles d (Ret r) Q.
Proof. intros H os w [Hw <-]. rewrite exec_ret. split; [done|]. destruct r; [by apply H|by left]. Qed.

(** The same for whole requests, whose last readings may fail after the
    transaction was committed. *)
Definition leads {A} (d : cdata) (p : prog confE A) (I : cdata -> Prop) : Prop :=
  hoare (at_data d) p (fun _ w => ids_positive w /\ I (cw_data w)).
Lemma leads_settles {A} d (p : prog confE (result A)) Q (I : cdata -> Prop) :
  I d -> (forall a d', Q a d' -> I d') -> settles d p Q -> leads d p I.
Proof.
  intros Hd HQ Hp os w Hw. specialize (Hp os w Hw). destruct (exec os p w) as [[a|e] w']; destruct Hp as [Hpos H]; (split; [done|]); [by eapply HQ|].
  destruct H as [H|(_ & a & H)]; cbn [snd]; [by rewrite H|by eapply HQ].
Qed.
Lemma leads_reading {A} d (p : prog confE A) (I : cdata -> Prop) : I d -> all_calls conf_reading p -> leads d p I.
Proof. intros Hd Hp. eapply hoare_post; [|by apply reading_keeps]. intros a w [Hw ->]. by split. Qed.
Lemma leads_then {A B} d (p : prog confE (result A)) (f : A -> prog confE (result B)) Q (I : cdata -> Prop) :
  I d -> settles d p Q -> (forall a d', Q a d' -> I d') -> (forall a d', Q a d' -> leads d' (f a) I) -> leads d (a <-? p ;; f a) I.
Proof.
  intros Hd Hp HI Hf os w Hw. specialize (Hp os w Hw). rewrite exec_bind.
  destruct (exec os p w) as [[a|e] w1]; cbn [fst snd]; destruct Hp as [Hpos H].
  - apply (Hf a _ H). by split.
  - rewrite exec_ret. split; [done|]. cbn [snd]. destruct H as [->|(_ & a & H)]; [done|by eapply HI].
Qed.
Lemma leads_map {A B} d (p : prog confE A) (f : A -> B) (I : cdata -> Prop) : leads d p I -> leads d (r <- p ;; Ret (f r)) I.
Proof. intros Hp. eapply hoare_bind; [exact Hp|]. intros a. by apply hoare_ret. Qed.

(** Recording an operation changes no table. *)
Lemma settles_recorded {A} d (record : option goerr -> prog confE unit) (p : prog confE (result A)) Q :
  (forall e, all_calls conf_reading (record e)) -> settles d p Q -> settles d (recorded record p) Q.
Proof.
  intros Hr Hp os w Hw. specialize (Hp os w Hw). unfold recorded. rewrite exec_bind, unanswered_bind.
  destruct (exec os p w) as [r w1]. destruct Hp as [Hpos H]. cbn [fst snd]. rewrite exec_bind, exec_ret.
  destruct (reading_keeps (cw_data w1) _ (Hr (match r with Ok _ => None | Err e => Some e end)) (leftover os p w) w1 (conj Hpos eq_refl)) as [Hpos' Hd].
  split; [done|]. cbn [snd]. rewrite Hd. destruct r as [a|e]; [done|]. destruct H as [?|[-> ?]]; [by left|by right].
Qed.

Local Open Scope string_scope.

#[local] Arguments for_each : simpl never.
#[local] Arguments bool_decide : simpl never.

(** * Rows and what is read from them *)

Lemma List_filter_map {A B} (f : A -> B) (P : A -> bool) (Q : B -> bool) l :
  (forall a, P a = Q (f a)) -> map f (List.filter P l) = List.filter Q (map f l).
Proof. intros H. induction l as [|a l IH]; [done|]. cbn. rewrite <- H. destruct (P a); cbn; by rewrite IH. Qed.
Lemma find_filter {A} (P Q : A -> bool) l : (forall a, P a = true -> Q a = true) -> List.find P (List.filter Q l) = List.find P l.
Proof.
  intros H. induction l as [|a l IH]; [done|]. cbn. destruct (Q a) eqn:EQ; cbn; [by rewrite IH|].
  destruct (P a) eqn:EP; [by rewrite (H a EP) in EQ|done].
Qed.
Lemma find_map {A B} (f : A -> B) (P : B -> bool) l : List.find P (map f l) = option_map f (List.find (fun a => P (f a)) l).
Proof. induction l as [|a l IH]; [done|]. cbn. by destruct (P (f a)). Qed.
Lemma filter_rev_bool {A} (P : A -> bool) l : List.filter P (rev l) = rev (List.filter P l).
Proof.
  induction l as [|a l IH]; [done|]. cbn. rewrite List.filter_app, IH. cbn. destruct (P a); cbn; [done|by rewrite app_nil_r].
Qed.

Lemma filter_all_bool {A} (P : A -> bool) l : (forall a, P a = true) -> List.filter P l = l.
Proof. intros H. induction l as [|a l IH]; [done|]. cbn. by rewrite H, IH. Qed.

(** The row of a pool; of several the last. *)
Definition pool_row (d : cdata) (id : Z) : option TPools := List.find (fun r => bool_decide (to_Id r = id)) (rev (cd_pools d)).
(** What the managers use of a sub-cluster: ids, its name, and its pool. *)
Definition sub_core (sc : SubCluster) : Z * string * Z * option (Z * string) :=
  (sc_ID sc, sc_Name sc, sc_ClusterID sc, option_map (fun p => (pl_ID p, pl_Name p)) (sc_InstancePool sc)).
Definition sub_row_core (d : cdata) (r : TSubCluster) : Z * string * Z * option (Z * string) :=
  (ts_ID r, ts_Name r, ts_ClusterID r, option_map (fun o => (to_Id o, to_Name o)) (pool_row d (ts_PoolsID r))).
Definition cluster_subs (d : cdata) (id : Z) : list TSubCluster := List.filter (fun r => bool_decide (ts_ClusterID r = id)) (cd_subs d).
Definition cluster_core (c : Cluster) : Z * string * option LLMConfig * list (Z * string * Z * option (Z * string)) :=
  (cl_ID c, cl_Name c, cl_LLMConfig c, map sub_core (cl_SubClusters c)).
Definition cluster_row_core (d : cdata) (r : TCluster) : Z * string * option LLMConfig * list (Z * string * Z * option (Z * string)) :=
  (tc_ID r, tc_Name r, tc_LLMConfig r, map (sub_row_core d) (cluster_subs d (tc_ID r))).

Lemma gives_provider d f : gives d (FetchProviderRow f)
  (fun o d' => d' = d /\ o = option_map providerFromDAO (hd_error (List.filter (where_provider (filterToDAOParam f)) (cd_providers d)))).
Proof. eapply gives_try; [apply gives_providers|]. intros l d' [-> ->]. by apply gives_ret. Qed.
Lemma gives_provider_rows d f : paged f = false -> gives d (FetchProviderRows f)
  (fun o d' => d' = d /\ o.1 = map providerFromDAO (List.filter (where_provider (filterToDAOParam f)) (cd_providers d))).
Proof. intros Hf. unfold FetchProviderRows. rewrite Hf. eapply gives_try; [apply gives_providers|]. intros l d' [-> ->]. by apply gives_ret. Qed.

(** Pools come with their product; only their id and name are named here. *)
Lemma gives_pools d f : gives d (FetchPoolRows f) (fun l d' => d' = d /\
  exists product, l = map (fun o => newPool o (product o)) (List.filter (where_pool (poolFilter2Param f)) (cd_pools d))).
Proof.
  eapply gives_try; [apply gives_pool_list|]. intros l d' [-> ->].
  destruct (List.filter _ _) as [|o l] eqn:E; [apply gives_ret; split; [done|]; by exists (fun _ => None)|].
  eapply gives_try; [apply gives_products|]. cbn [fst]. intros products d' ->. apply gives_ret. split; [done|].
  by exists (fun o => product_by_id products (to_ProductId o)).
Qed.
Lemma gives_pool d name : gives d (FetchPoolRow name) (fun o d' => d' = d /\
  (o = None -> forall r, r ∈ cd_pools d -> to_Name r <> name)).
Proof.
  eapply gives_try; [apply gives_pools|]. intros l d' [-> (product & ->)]. apply gives_ret. split; [done|].
  intros Ho r Hr Hn. destruct (List.filter _ _) as [|o l] eqn:E; [|done].
  assert (r ∈ List.filter (where_pool (poolFilter2Param (byPoolName name))) (cd_pools d)) as Hin.
  { apply elem_of_filter_bool. split; [done|]. unfold where_pool. cbn. by rewrite (bool_decide_eq_true_2 _ Hn). }
  rewrite E in Hin. by apply list.not_elem_of_nil in Hin.
Qed.

(** The sub-cluster of a row, with its pool; [product] finds the products of
    pools. *)
Definition read_sub (d : cdata) (product : TPools -> option ConfProduct) (r : TSubCluster) : SubCluster :=
  newSubCluster r (option_map (fun o => newPool o (product o)) (pool_row d (ts_PoolsID r))).
Lemma read_sub_core d product r : sub_core (read_sub d product r) = sub_row_core d r.
Proof. unfold sub_core, sub_row_core. cbn. by destruct (pool_row d _). Qed.
Lemma gives_subs_exact d f : gives d (FetchSubClusterRows f) (fun l d' => d' = d /\
  exists product, l = map (read_sub d product) (List.filter (where_sub (subClusterFilter2Param f)) (cd_subs d))).
Proof.
  eapply gives_try; [apply gives_sub_list|]. intros l d' [-> ->]. set (rows := List.filter _ _).
  assert (forall A (a b : A), match rows with [] => a | _ => b end = if bool_decide (rows = []) then a else b) as Hm by (by destruct rows).
  destruct (decide (rows = [])) as [E|E]; [rewrite E; apply gives_ret; split; [done|]; by exists (fun _ => None)|]. rewrite Hm, bool_decide_eq_false_2 by done.
  eapply gives_try; [apply gives_pools|]. intros pools d' [-> (product & ->)].
  eapply gives_try; [apply gives_products|]. intros products d' ->. apply gives_ret. split; [done|]. exists product.
  apply List.map_ext_in. intros r Hr. unfold read_sub. f_equal.
  unfold pool_by_id, pool_row. rewrite <- map_rev, <- filter_rev_bool, find_map. cbn.
  rewrite find_filter; [done|].
  intros o Ho%bool_decide_eq_true. unfold where_pool. cbn. rewrite !andb_true_r. apply bool_decide_eq_true_2.
  unfold ids_of. apply elem_of_remove_dups. rewrite Ho. apply list_elem_of_In, in_map_iff. by exists r.
Qed.
Lemma gives_subs d f : gives d (FetchSubClusterRows f) (fun l d' => d' = d /\
  map sub_core l = map (sub_row_core d) (List.filter (where_sub (subClusterFilter2Param f)) (cd_subs d))).
Proof.
  eapply gives_weaken; [|apply gives_subs_exact]. cbv beta. intros l d' [-> (product & ->)]. split; [done|].
  rewrite List.map_map. apply List.map_ext. apply read_sub_core.
Qed.

(** The cluster of a row, with its sub-clusters and its matrix. *)
Definition read_cluster (d : cdata) (product : TPools -> option ConfProduct) (c : TCluster) : Cluster :=
  newCluster c (map (read_sub d product) (cluster_subs d (tc_ID c))) (parseLBMatrixList (cd_matrices d) (tc_ID c)).
Lemma filter_filter_bool {A} (P Q : A -> bool) l : (forall a, Q a = true -> P a = true) -> List.filter Q (List.filter P l) = List.filter Q l.
Proof.
  intros H. induction l as [|a l IH]; [done|]. cbn. destruct (P a) eqn:EP; cbn; [by rewrite IH|].
  destruct (Q a) eqn:EQ; [by rewrite (H a EQ) in EP|done].
Qed.
Lemma gives_clusters_exact d f : gives d (FetchClusterRows f) (fun l d' => d' = d /\
  exists product, l = map (read_cluster d product) (List.filter (where_cluster f) (cd_clusters d))).
Proof.
  eapply gives_try; [apply gives_cluster_list|]. intros l d' [-> ->]. set (rows := List.filter _ _).
  assert (forall A (a b : A), match rows with [] => a | _ => b end = if bool_decide (rows = []) then a else b) as Hm by (by destruct rows).
  destruct (decide (rows = [])) as [E|E]; [rewrite E; apply gives_ret; split; [done|]; by exists (fun _ => None)|]. rewrite Hm, bool_decide_eq_false_2 by done.
  eapply gives_try; [apply gives_subs_exact|]. intros subs d' [-> (product & ->)].
  eapply gives_try; [apply gives_matrix_list|]. intros ms d' [-> ->]. apply gives_ret. split; [done|]. exists product.
  apply List.map_ext_in. intros c Hc. unfold read_cluster. f_equal.
  - rewrite <- (List_filter_map (read_sub d product) (fun r => bool_decide (ts_ClusterID r = tc_ID c))) by done. f_equal.
    apply filter_filter_bool. intros r Er%bool_decide_eq_true. unfold where_sub. cbn. rewrite !andb_true_r.
    apply bool_decide_eq_true_2. rewrite Er. by apply list_elem_of_In, in_map.
  - unfold parseLBMatrixList. rewrite <- filter_rev_bool, find_filter; [done|]. intros m Em%bool_decide_eq_true. unfold is_in.
    apply bool_decide_eq_true_2. rewrite Em. by apply list_elem_of_In, in_map.
Qed.
Lemma read_cluster_core d product c : cluster_core (read_cluster d product c) = cluster_row_core d c.
Proof.
  unfold cluster_core, cluster_row_core. cbn. f_equal. rewrite List.map_map. apply List.map_ext. intros r. apply read_sub_core.
Qed.
Lemma gives_clusters d f : gives d (FetchClusterRows f) (fun l d' => d' = d /\
  map cluster_core l = map (cluster_row_core d) (List.filter (where_cluster f) (cd_clusters d))).
Proof.
  eapply gives_weaken; [|apply gives_clusters_exact]. cbv beta. intros l d' [-> (product & ->)]. split; [done|].
  rewrite List.map_map. apply List.map_ext. apply read_cluster_core.
Qed.

(** * Rows that a statement changes *)

Lemma changed_ext {A} (hit hit' : A -> bool) (f : A -> A) l : (forall a, a ∈ l -> hit a = hit' a) -> changed hit f l = changed hit' f l.
Proof. intros H. apply List.map_ext_in. intros a Ha. rewrite (H a); [done|by apply list_elem_of_In]. Qed.
Lemma changed_key {A K} (key : A -> K) (hit : A -> bool) (f : A -> A) l : (forall a, hit a = true -> key (f a) = key a) -> map key (changed hit f l) = map key l.
Proof. intros H. unfold changed. rewrite List.map_map. apply List.map_ext. intros a. destruct (hit a) eqn:E; [by apply H|done]. Qed.
Lemma elem_of_changed {A} (hit : A -> bool) (f : A -> A) l b : b ∈ changed hit f l <-> exists a, a ∈ l /\ b = if hit a then f a else a.
Proof. unfold changed. rewrite list_elem_of_In, in_map_iff. setoid_rewrite list_elem_of_In. naive_solver. Qed.
Lemma changed_app {A} (hit : A -> bool) (f : A -> A) l l' : changed hit f (l ++ l') = (changed hit f l ++ changed hit f l')%list.
Proof. apply map_app. Qed.
Lemma changed_none {A} (hit : A -> bool) (f : A -> A) l : (forall a, a ∈ l -> hit a = false) -> changed hit f l = l.
Proof.
  intros H. rewrite (changed_ext _ (fun _ => false)) by done. unfold changed. apply map_id.
Qed.
Lemma elem_of_without {A} (hit : A -> bool) l a : a ∈ without hit l <-> a ∈ l /\ hit a = false.
Proof. unfold without. rewrite elem_of_filter_bool. destruct (hit a); cbn; naive_solver. Qed.
Lemma without_none {A} (hit : A -> bool) l : (forall a, a ∈ l -> hit a = false) -> without hit l = l.
Proof.
  induction l as [|a l IH]; intros H; [done|]. cbn. rewrite (H a) by left. cbn. f_equal. apply IH. intros b Hb. apply H. by right.
Qed.
Lemma map_without_sub {A K} (key : A -> K) (hit : A -> bool) l : sublist (map key (without hit l)) (map key l).
Proof. induction l as [|a l IH]; [done|]. cbn. destruct (hit a); cbn; by constructor. Qed.

Lemma where_pool_id id r : where_pool (mkTPoolsWhere None (Some id) None None) r = bool_decide (to_Id r = id).
Proof. unfold where_pool. cbn. by rewrite !andb_true_r. Qed.
Lemma where_provider_name name r : where_provider (whereProviderName name) r = bool_decide (tv_Name r = name).
Proof. unfold where_provider. cbn. by rewrite !andb_true_r. Qed.

Lemma gives_update_pool d pool diff : gives d (UpdatePoolRow pool diff) (fun _ d' =>
  d' = put_pools (changed (fun r => bool_decide (to_Id r = pl_ID pool)) (assign_pool diff) (cd_pools d)) d).
Proof.
  unfold UpdatePoolRow. eapply gives_try; [by apply (gives_updated d (TPoolsUpdate diff (mkTPoolsWhere None (Some (pl_ID pool)) None None)) (where_pool (mkTPoolsWhere None (Some (pl_ID pool)) None None)) (assign_pool diff) pools_unique cd_pools put_pools)|].
  intros n d' [_ ->]. apply gives_ret. f_equal. apply changed_ext. intros r _. apply where_pool_id.
Qed.
Lemma gives_update_provider d name p : gives d (UpdateProviderRow name p) (fun _ d' =>
  providers_unique (cd_providers d') = true /\
  d' = put_providers (changed (fun r => bool_decide (tv_Name r = name)) (assign_provider (toDAOParamForUpdate p)) (cd_providers d)) d).
Proof.
  unfold UpdateProviderRow.
  eapply gives_try; [by apply (gives_updated d (TProviderUpdate (toDAOParamForUpdate p) (whereProviderName name)) (where_provider (whereProviderName name)) (assign_provider (toDAOParamForUpdate p)) providers_unique cd_providers put_providers)|].
  intros n d' [Hu ->]. apply gives_ret. split; [exact Hu|]. f_equal. apply changed_ext. intros r _. apply where_provider_name.
Qed.

(** * New instances for pools *)

(** The pools whose id is in [ids] get the instances [l]. *)
Definition feed (l : list Instance) (ids : list Z) (d : cdata) : cdata :=
  put_pools (changed (fun r => bool_decide (to_Id r ∈ ids)) (assign_pool (instancesParam l)) (cd_pools d)) d.
Definition pool_ids (sc : SubCluster) : list Z := match sc_InstancePool sc with Some p => [pl_ID p] | None => [] end.
(** The ids of the pools of the clusters that refer to a provider. *)
Definition fed (name : string) (d : cdata) : list Z :=
  flat_map (fun c => map ts_PoolsID (cluster_subs d (tc_ID c))) (List.filter (fun c => refers_to name (tc_LLMConfig c)) (cd_clusters d)).

Lemma put_pools_same d : put_pools (cd_pools d) d = d.
Proof. by destruct d. Qed.
Lemma feed_nil l d : feed l [] d = d.
Proof. unfold feed. rewrite changed_none; [apply put_pools_same|]. intros r _. apply bool_decide_eq_false_2. apply list.not_elem_of_nil. Qed.
Lemma feed_app l ids ids' d : feed l ids' (feed l ids d) = feed l (ids ++ ids')%list d.
Proof.
  unfold feed. cbn. unfold put_pools. cbn. f_equal. unfold changed. rewrite List.map_map. apply List.map_ext. intros r.
  destruct (decide (to_Id r ∈ ids)) as [H|H].
  - rewrite (bool_decide_eq_true_2 (to_Id r ∈ ids)) by done. rewrite (bool_decide_eq_true_2 (to_Id r ∈ (ids ++ ids')%list)) by set_solver.
    by case_bool_decide.
  - rewrite (bool_decide_eq_false_2 (to_Id r ∈ ids)) by done.
    rewrite (bool_decide_ext (to_Id r ∈ ids') (to_Id r ∈ (ids ++ ids')%list)) by set_solver. done.
Qed.
Lemma fold_feed {A} l (ids : A -> list Z) (xs : list A) d : fold_left (fun d x => feed l (ids x) d) xs d = feed l (flat_map ids xs) d.
Proof.
  revert d. induction xs as [|x xs IH]; intros d; cbn [fold_left flat_map]; [by rewrite feed_nil|]. by rewrite IH, feed_app.
Qed.
Lemma feed_same l ids ids' d : (forall r, r ∈ cd_pools d -> to_Id r ∈ ids <-> to_Id r ∈ ids') -> feed l ids d = feed l ids' d.
Proof. intros H. unfold feed. f_equal. apply changed_ext. intros r Hr. apply bool_decide_ext. by apply H. Qed.

Lemma gives_sync_pool d l sc : gives d (sync_pool l sc) (fun _ d' => d' = feed l (pool_ids sc) d).
Proof.
  unfold sync_pool, pool_ids. destruct (sc_InstancePool sc) as [pool|]; [|apply gives_ret; by rewrite feed_nil].
  eapply gives_weaken; [|apply gives_update_pool]. cbn. intros _ d' ->. unfold feed. f_equal. apply changed_ext. intros r _.
  apply bool_decide_ext. by rewrite list_elem_of_singleton.
Qed.

(** The ids of the pools that were found, by the clusters as they were read. *)
Definition core_ids (k : Z * string * Z * option (Z * string)) : list Z := match k.2 with Some (id, _) => [id] | None => [] end.
Lemma pool_ids_core sc : pool_ids sc = core_ids (sub_core sc).
Proof. unfold pool_ids, core_ids, sub_core. cbn. by destruct (sc_InstancePool sc). Qed.
Lemma core_ids_row d s r : r ∈ cd_pools d -> to_Id r ∈ core_ids (sub_row_core d s) <-> to_Id r = ts_PoolsID s.
Proof.
  intros Hr. unfold core_ids, sub_row_core, pool_row. cbn. destruct (List.find _ _) as [o|] eqn:E; cbn.
  - apply List.find_some in E as [_ Ho%bool_decide_eq_true]. rewrite list_elem_of_singleton. by rewrite Ho.
  - split; [intros []%list.not_elem_of_nil|]. intros Hs. eapply List.find_none in E; [|apply List.in_rev; rewrite rev_involutive; by apply list_elem_of_In].
    by rewrite bool_decide_eq_true_2 in E.
Qed.
Lemma flat_map_map {A B C} (f : A -> B) (g : B -> list C) l : flat_map g (map f l) = flat_map (fun a => g (f a)) l.
Proof. induction l as [|a l IH]; [done|]. cbn. by rewrite IH. Qed.

Lemma flat_map_iff {A B} (f g : A -> list B) l b : (forall a, a ∈ l -> b ∈ f a <-> b ∈ g a) -> b ∈ flat_map f l <-> b ∈ flat_map g l.
Proof. intros H. rewrite !elem_of_flat_map. naive_solver. Qed.

Lemma gives_sync d p : gives d (SyncProviderEffectivePool p)
  (fun _ d' => d' = feed (providerInstancesToClusterInstances (EffectiveInstancePool p)) (fed (pv_Name p) d) d).
Proof.
  unfold SyncProviderEffectivePool. eapply gives_try; [apply gives_clusters|]. intros cs d' [-> Hcs]. set (l := providerInstancesToClusterInstances _).
  eapply gives_weaken; [|apply (gives_checks _ _ (fun c => feed l (flat_map pool_ids (cl_SubClusters c))))].
  - cbn. intros _ d' ->. rewrite fold_feed. apply feed_same. intros r Hr.
    rewrite (flat_map_ext _ (fun c => flat_map core_ids (cluster_core c).2)).
    2: { intros c. cbn. rewrite flat_map_map. apply flat_map_ext. intros sc. apply pool_ids_core. }
    rewrite <- (flat_map_map cluster_core (fun k => flat_map core_ids k.2)), (List_filter_map cluster_core _ (fun k => refers_to (pv_Name p) k.1.2)) by done.
    rewrite Hcs, <- (List_filter_map (cluster_row_core d) (fun c => refers_to (pv_Name p) (tc_LLMConfig c))) by done.
    assert (List.filter (where_cluster noClusterFilter) (cd_clusters d) = cd_clusters d) as ->.
    { by apply filter_all_bool. }
    unfold fed. rewrite flat_map_map. apply flat_map_iff. intros c _. cbn. rewrite flat_map_map.
    rewrite elem_of_flat_map, list_elem_of_In, in_map_iff. setoid_rewrite <- list_elem_of_In.
    split; intros (s & H1 & H2); exists s; (split; [|]); try done; [by apply core_ids_row in H2|by apply core_ids_row].
  - intros c d' _. eapply gives_weaken; [|apply (gives_checks _ _ (fun sc => feed l (pool_ids sc)))].
    + cbn. intros _ d'' ->. apply fold_feed.
    + intros sc d'' _. apply gives_sync_pool.
Qed.
