(* ===== verification/ConfSound.v ===== *)
(** The tables of providers, clusters, sub-clusters, pools and matrices fit
    together: what that means, and that the operations on providers and
    Kubernetes pools keep it. *)
From Stdlib Require Import ZArith Lia Ascii.
From stdpp Require Import base tactics numbers list strings gmap option.
From S2P Require Import Prelude GoStrings Prog EppConfig SharedTypes Validate ProviderModel ClusterModel ProviderManager ClusterManager ConfEffect.

Local Open Scope string_scope.

#[local] Arguments for_each : simpl never.
#[local] Arguments bool_decide : simpl never.

(** * The invariant *)

(** A provider has the models and the keys that a cluster asks of it. *)
Definition fits (l : LLMConfig) (p : TProvider) : Prop :=
  (forall m, m ∈ lc_Models l -> m ∈ items (tv_Models p)) /\
  (forall k n, k ∈ lc_Keys l -> ckr_Name k = Some n -> n <> "" -> n ∈ map pk_Name (items (tv_Keys p))).
(** Every cluster that names a provider names one that there is, and that has
    what the cluster asks for. *)
Definition references_hold (d : cdata) : Prop := forall c l name,
  c ∈ cd_clusters d -> tc_LLMConfig c = Some l -> lc_Provider l = Some name -> name <> "" ->
  exists p, p ∈ cd_providers d /\ tv_Name p = name /\ fits l p.

(** The sub-cluster of a cluster bears its name, and all of its traffic goes
    there. *)
Record layout (cfg : ClusterConfig) (d : cdata) : Prop := {
  one_sub : NoDup (map ts_ClusterID (cd_subs d));
  sub_of : forall z, z ∈ map ts_ClusterID (cd_subs d) <-> z ∈ map tc_ID (cd_clusters d);
  one_pool : NoDup (map ts_PoolsID (cd_subs d));
  pool_of : forall z, z ∈ map ts_PoolsID (cd_subs d) <-> z ∈ map to_Id (cd_pools d);
  matrix_of : forall z, z ∈ map tl_ClusterID (cd_matrices d) <-> z ∈ map tc_ID (cd_clusters d);
  same_name : forall c s, c ∈ cd_clusters d -> s ∈ cd_subs d -> ts_ClusterID s = tc_ID c -> ts_Name s = tc_Name c;
  all_traffic : forall c m, c ∈ cd_clusters d -> m ∈ cd_matrices d -> tl_ClusterID m = tc_ID c ->
    tl_LbMatrix m = default_scheduler cfg (tc_Name c)
}.

Record keys_unique (d : cdata) : Prop := {
  providers_uniq : providers_unique (cd_providers d) = true; clusters_uniq : clusters_unique (cd_clusters d) = true;
  subs_uniq : subs_unique (cd_subs d) = true; pools_uniq : pools_unique (cd_pools d) = true;
  matrices_uniq : matrices_unique (cd_matrices d) = true
}.

Definition sound_conf (cfg : ClusterConfig) (d : cdata) : Prop := keys_unique d /\ references_hold d /\ layout cfg d.

(** The pool of a cluster holds the instances of the provider that it names. *)
Definition serves (p : TProvider) (o : TPools) : Prop :=
  to_Instances o = Some (providerInstancesToClusterInstances (EffectiveInstancePool (providerFromDAO p))).
Definition pools_follow (d : cdata) : Prop := forall c l p s o,
  c ∈ cd_clusters d -> tc_LLMConfig c = Some l -> p ∈ cd_providers d -> lc_Provider l = Some (tv_Name p) -> tv_Name p <> "" ->
  s ∈ cd_subs d -> ts_ClusterID s = tc_ID c -> o ∈ cd_pools d -> to_Id o = ts_PoolsID s -> serves p o.

(** An operation that keeps the tables sound and lets pools follow their
    providers. *)
Definition good (cfg : ClusterConfig) (d d' : cdata) : Prop := sound_conf cfg d' /\ (pools_follow d -> pools_follow d').

Lemma good_same cfg d : sound_conf cfg d -> good cfg d d.
Proof. by split. Qed.
Lemma good_trans cfg d d' d'' : good cfg d d' -> good cfg d' d'' -> good cfg d d''.
Proof. intros [_ H1] [H2 H3]. split; [done|]. auto. Qed.

Section Unique.
Context {cfg : ClusterConfig} {d : cdata} (Hs : sound_conf cfg d).
Lemma provider_by_name p q : p ∈ cd_providers d -> q ∈ cd_providers d -> tv_Name p = tv_Name q -> p = q.
Proof. apply NoDup_map_same. destruct Hs as [[Hu _ _ _ _] _]. unfold providers_unique in Hu. by apply andb_true_iff in Hu as [_ Hu%bool_decide_eq_true]. Qed.
Lemma cluster_by_id c c' : c ∈ cd_clusters d -> c' ∈ cd_clusters d -> tc_ID c = tc_ID c' -> c = c'.
Proof. apply NoDup_map_same. destruct Hs as [[_ Hu _ _ _] _]. unfold clusters_unique in Hu. by apply andb_true_iff in Hu as [Hu%bool_decide_eq_true _]. Qed.
Lemma sub_by_pool s s' : s ∈ cd_subs d -> s' ∈ cd_subs d -> ts_PoolsID s = ts_PoolsID s' -> s = s'.
Proof. apply NoDup_map_same, Hs. Qed.
Lemma sub_by_cluster s s' : s ∈ cd_subs d -> s' ∈ cd_subs d -> ts_ClusterID s = ts_ClusterID s' -> s = s'.
Proof. apply NoDup_map_same, Hs. Qed.
End Unique.

(** * A provider that changes *)

Lemma equal_lists_spec {A} (eqb : A -> A -> bool) l l' : (forall a b, eqb a b = true -> a = b) -> equal_lists eqb l l' = true -> l = l'.
Proof.
  intros H. revert l'. induction l as [|a l IH]; intros [|b l']; cbn; try done. rewrite andb_true_iff. intros [Hab Hl]. f_equal; auto.
Qed.
Lemma same_pool l l' : providerInstancePoolEqual l l' = true -> l = l'.
Proof.
  apply equal_lists_spec. intros [a1 p1 w1 d1] [a2 p2 w2 d2]. cbn. rewrite !andb_true_iff, bool_decide_eq_true, !Z.eqb_eq, Bool.eqb_true_iff. naive_solver.
Qed.
Lemma same_keys l l' : providerKeysEqual l l' = true -> l = l'.
Proof. apply equal_lists_spec. intros [] []. cbn. rewrite andb_true_iff, !bool_decide_eq_true. naive_solver. Qed.
Lemma same_models l l' : providerModelsEqual l l' = true -> l = l'.
Proof. apply equal_lists_spec. intros a b. by rewrite bool_decide_eq_true. Qed.

(** The row of the provider [name] becomes [f row]. *)
Definition with_provider (name : string) (f : TProvider -> TProvider) (d : cdata) : cdata :=
  put_providers (changed (fun r => bool_decide (tv_Name r = name)) f (cd_providers d)) d.

Section Change.
Context {cfg : ClusterConfig} {d : cdata} (Hs : sound_conf cfg d).
Context (name : string) (f : TProvider -> TProvider).
Hypothesis Hname : forall r, tv_Name r = name -> tv_Name (f r) = name.
Hypothesis Huniq : providers_unique (cd_providers (with_provider name f d)) = true.
(** What the clusters ask for is still there. *)
Hypothesis Hfits : forall r c l, r ∈ cd_providers d -> tv_Name r = name -> c ∈ cd_clusters d -> tc_LLMConfig c = Some l ->
  lc_Provider l = Some name -> fits l r -> fits l (f r).

Lemma change_sound : sound_conf cfg (with_provider name f d).
Proof.
  destruct Hs as ([_ H2 H3 H4 H5] & Hr & [L1 L2 L3 L4 L5 L6 L7]). split; [by split|]. split; [|by split].
  intros c l n Hc Hl Hn Hne. cbn in Hc. destruct (Hr c l n Hc Hl Hn Hne) as (p & Hp & Hpn & Hf).
  destruct (decide (n = name)) as [->|E].
  - exists (f p). split; [|split; [by apply Hname|by eapply Hfits]].
    cbn. apply elem_of_changed. exists p. split; [done|]. by rewrite bool_decide_eq_true_2.
  - exists p. split; [|done]. cbn. apply elem_of_changed. exists p. split; [done|]. rewrite bool_decide_eq_false_2; [done|congruence].
Qed.

Lemma change_row p : p ∈ cd_providers (with_provider name f d) ->
  exists r, r ∈ cd_providers d /\ tv_Name p = tv_Name r /\ ((tv_Name r = name /\ p = f r) \/ (tv_Name r <> name /\ p = r)).
Proof.
  intros (r & Hr & ->)%elem_of_changed. exists r. split; [done|]. case_bool_decide as E; [|naive_solver]. split; [|by left]. by rewrite Hname.
Qed.

(** The instances that count are the same as before. *)
Lemma change_follow : (forall r, r ∈ cd_providers d -> tv_Name r = name -> EffectiveInstancePool (providerFromDAO (f r)) = EffectiveInstancePool (providerFromDAO r)) ->
  pools_follow d -> pools_follow (with_provider name f d).
Proof.
  intros He Hd c l p s o Hc Hl Hp Hlp Hne Hsub Hsc Ho Hos. destruct (change_row p Hp) as (r & Hr & Hn & Hcase).
  rewrite Hn in Hlp, Hne. pose proof (Hd c l r s o Hc Hl Hr Hlp Hne Hsub Hsc Ho Hos) as H.
  destruct Hcase as [[Hrn ->]|[_ ->]]; [|done]. unfold serves. by rewrite He.
Qed.

(** The pools of its clusters are fed anew. *)
Lemma feed_sound l ids : sound_conf cfg d -> sound_conf cfg (feed l ids d).
Proof.
  intros ([H1 H2 H3 H4 H5] & Hr & [L1 L2 L3 L4 L5 L6 L7]).
  assert (map to_Id (cd_pools (feed l ids d)) = map to_Id (cd_pools d)) as Hid by (by apply changed_key).
  assert (map to_Name (cd_pools (feed l ids d)) = map to_Name (cd_pools d)) as Hn by (by apply changed_key).
  split; [|split; [done|]].
  - split; try done. unfold pools_unique. by rewrite Hid, Hn.
  - split; try done. intros z. rewrite Hid. apply L4.
Qed.
Lemma fed_with_provider n : fed n (with_provider name f d) = fed n d.
Proof. done. Qed.
Lemma change_feed instances :
  (forall r, r ∈ cd_providers d -> tv_Name r = name -> EffectiveInstancePool (providerFromDAO (f r)) = instances) ->
  pools_follow d -> pools_follow (feed (providerInstancesToClusterInstances instances) (fed name d) (with_provider name f d)).
Proof.
  intros He Hd c l p s o Hc Hl Hp Hlp Hne Hsub Hsc Ho Hos. cbn in Hc, Hp, Hsub, Ho.
  destruct (change_row p Hp) as (r & Hr & Hn & Hcase). rewrite Hn in Hlp, Hne.
  apply elem_of_changed in Ho as (o0 & Ho0 & ->).
  assert (to_Id o0 = ts_PoolsID s) as Hos0 by (by case_bool_decide).
  destruct Hcase as [[Hrn ->]|[Hrn ->]].
  - rewrite bool_decide_eq_true_2; [by unfold serves; rewrite He|].
    unfold fed. apply elem_of_flat_map. exists c. split.
    + apply elem_of_filter_bool. split; [done|]. unfold refers_to. rewrite Hl. apply bool_decide_eq_true_2. by rewrite Hlp, Hrn.
    + apply elem_of_map. exists s. split; [|done]. apply elem_of_filter_bool. split; [done|]. by apply bool_decide_eq_true_2.
  - rewrite bool_decide_eq_false_2; [by apply (Hd c l r s o0)|].
    intros (c' & (Hc' & Href)%elem_of_filter_bool & Hin)%elem_of_flat_map. apply elem_of_map in Hin as (s' & (Hs' & Hsc'%bool_decide_eq_true)%elem_of_filter_bool & Hp').
    assert (s = s') as <- by (apply (sub_by_pool Hs); congruence). assert (c = c') as <- by (apply (cluster_by_id Hs); congruence).
    unfold refers_to in Href. rewrite Hl in Href. apply bool_decide_eq_true in Href. congruence.
Qed.
End Change.

(** A provider that is added, and one that is taken away. *)
Lemma add_provider_good cfg d r : sound_conf cfg d -> providers_unique (cd_providers d ++ [r]) = true ->
  good cfg d (put_providers (cd_providers d ++ [r])%list d).
Proof.
  intros ([H1 H2 H3 H4 H5] & Hr & [L1 L2 L3 L4 L5 L6 L7]) Hu. split; [split; [by split|]; split; [|by split]|].
  - intros c l n Hc Hl Hn Hne. destruct (Hr c l n Hc Hl Hn Hne) as (p & Hp & H). exists p. split; [|done]. cbn. set_solver.
  - intros Hd c l p s o Hc Hl Hp Hlp Hne Hsub Hsc Ho Hos. cbn in *. apply list.elem_of_app in Hp as [Hp| ->%list_elem_of_singleton]; [by eapply Hd|].
    destruct (Hr c l (tv_Name r) Hc Hl Hlp Hne) as (p & Hp & Hpn & _). exfalso.
    unfold providers_unique in Hu. apply andb_true_iff in Hu as [_ Hu%bool_decide_eq_true]. rewrite map_app in Hu. cbn in Hu.
    apply list.NoDup_app in Hu as (_ & Hu & _). apply (Hu (tv_Name r)); [|by apply list_elem_of_singleton]. apply elem_of_map. by exists p.
Qed.
Lemma NoDup_map_without {A K} (key : A -> K) hit l : NoDup (map key l) -> NoDup (map key (without hit l)).
Proof. intros H. eapply sublist_NoDup; [exact H|apply map_without_sub]. Qed.
Lemma drop_provider_good cfg d name : sound_conf cfg d ->
  (forall c, c ∈ cd_clusters d -> refers_to name (tc_LLMConfig c) = false) ->
  good cfg d (put_providers (without (fun r => bool_decide (tv_Name r = name)) (cd_providers d)) d).
Proof.
  intros ([H1 H2 H3 H4 H5] & Hr & [L1 L2 L3 L4 L5 L6 L7]) Hno. split; [split; [|split; [|by split]]|].
  - split; try done. unfold providers_unique in *. apply andb_true_iff in H1 as [Ha%bool_decide_eq_true Hb%bool_decide_eq_true].
    by apply andb_true_iff; split; apply bool_decide_eq_true_2, NoDup_map_without.
  - intros c l n Hc Hl Hn Hne. destruct (Hr c l n Hc Hl Hn Hne) as (p & Hp & Hpn & H). exists p. split; [|done]. cbn. apply elem_of_without. split; [done|].
    apply bool_decide_eq_false_2. intros <-. specialize (Hno c Hc). unfold refers_to in Hno. rewrite Hl in Hno. apply bool_decide_eq_false in Hno. congruence.
  - intros Hd c l p s o Hc Hl Hp. apply elem_of_without in Hp as [Hp _]. by eapply Hd.
Qed.

(** * The operations on providers *)

Lemma hd_error_filter {A} (P : A -> bool) l a : hd_error (List.filter P l) = Some a -> a ∈ l /\ P a = true.
Proof. destruct (List.filter P l) as [|b l'] eqn:E; [done|]. cbn. intros [= ->]. rewrite <- elem_of_filter_bool, E. left. Qed.
Lemma gives_provider_named d name : gives d (FetchProviderRow (byProviderName name)) (fun o d' => d' = d /\
  (forall p, o = Some p -> exists r, r ∈ cd_providers d /\ tv_Name r = name /\ p = providerFromDAO r)).
Proof.
  eapply gives_weaken; [|apply gives_provider]. cbn. intros o d' [-> ->]. split; [done|]. intros p Hp.
  destruct (hd_error _) as [r|] eqn:E; [|done]. injection Hp as <-. apply hd_error_filter in E as [Hr Hn].
  exists r. split; [done|]. split; [|done]. unfold where_provider in Hn. cbn in Hn.
  rewrite !andb_true_r in Hn. by apply bool_decide_eq_true in Hn.
Qed.

Section Providers.
Context (cfg : ClusterConfig).

Lemma create_provider_good d name param : sound_conf cfg d ->
  gives d (existing <-? FetchProviderRow (byProviderName name) ;;
           match existing with Some _ => Ret (Err (RecordExisted "provider")) | None => CreateProviderRow param end)
    (fun _ d' => good cfg d d').
Proof.
  intros Hs. eapply gives_try; [apply gives_provider_named|]. intros o d' [-> _]. destruct o; [apply gives_err|].
  eapply gives_weaken; [|by apply (gives_inserted d (TProviderCreate (toDAOParam param)) (fun id => insert_provider id (toDAOParam param)) providers_unique cd_providers put_providers)].
  cbn. intros _ d' (_ & r & _ & Hu & ->). by apply add_provider_good.
Qed.

Lemma gives_delete_checker d name : gives d (ProviderDeleteChecker name)
  (fun _ d' => d' = d /\ forall c, c ∈ cd_clusters d -> refers_to name (tc_LLMConfig c) = false).
Proof.
  eapply gives_try; [apply gives_clusters|]. intros cs d' [-> Hcs]. apply gives_result. intros [] H. split; [done|].
  rewrite filter_all_bool in Hcs by done. destruct (existsb _ cs) eqn:E; [done|]. intros c Hc.
  assert (cluster_row_core d c ∈ map cluster_core cs) as (x & Hx & Hxc)%elem_of_map by (rewrite Hcs; apply elem_of_map; by exists c).
  injection Hxc as _ _ Hl _. rewrite <- Hl. apply not_true_is_false. intros Ht. revert E. apply not_false_iff_true.
  apply existsb_exists. exists x. split; [by apply list_elem_of_In|done].
Qed.
Lemma delete_body_good d name : sound_conf cfg d -> gives d (delete_body name [ProviderDeleteChecker]) (fun _ d' => good cfg d d').
Proof.
  intros Hs. eapply gives_try; [apply gives_provider_named|]. intros [p|] d' [-> _]; [|apply gives_err].
  eapply gives_try.
  - apply (gives_checks_only _ _ (fun _ => forall c, c ∈ cd_clusters d -> refers_to name (tc_LLMConfig c) = false)).
    intros ch ->%list_elem_of_singleton. apply gives_delete_checker.
  - intros _ d' [-> Hall]. rewrite list.Forall_singleton in Hall. unfold DeleteProviderRow. eapply gives_try; [by apply (gives_deleted d (TProviderDelete (whereProviderName name)) (where_provider (whereProviderName name)) cd_providers put_providers)|].
    cbn. intros _ d' ->. apply gives_ret. unfold without. erewrite filter_ext; [by apply drop_provider_good|]. intros r. by rewrite where_provider_name.
Qed.

(** ** An update *)

(** What the managers see of a provider is what the clusters get: the merge of
    the update in memory agrees with the row that it leaves. *)
Lemma nonempty_default s d : d <> "" -> default d (nonempty s) = if bool_decide (s = "") then d else s.
Proof. intros _. unfold nonempty. by case_bool_decide. Qed.
Lemma merged_models p r : items (tv_Models (assign_provider (toDAOParamForUpdate p) r)) = items (pv_Models (applyProviderUpdate (providerFromDAO r) p)).
Proof. cbn. by destruct (pp_Models p). Qed.
Lemma merged_keys p r : items (tv_Keys (assign_provider (toDAOParamForUpdate p) r)) = items (pv_Keys (applyProviderUpdate (providerFromDAO r) p)).
Proof. cbn. by destruct (pp_Keys p). Qed.
Lemma merged_pool p r :
  EffectiveInstancePool (providerFromDAO (assign_provider (toDAOParamForUpdate p) r)) =
  EffectiveInstancePool (applyProviderUpdate (providerFromDAO r) p).
Proof.
  unfold EffectiveInstancePool, providerFromDAO, applyProviderUpdate. cbn -[nonempty].
  assert (forall s, bool_decide (default InstanceSourceInstancePool (nonempty s) = InstanceSourceK8sPool) = bool_decide (s = InstanceSourceK8sPool)) as Hsrc.
  { intros s. rewrite nonempty_default by done. 
    destruct (decide (s = "")) as [->|E]; [by vm_compute|by rewrite (bool_decide_eq_false_2 _ E)]. }
  rewrite Hsrc. destruct (pp_InstanceSource p) as [s|], (pp_K8sInstancePool p), (pp_InstancePool p); cbn -[nonempty]; rewrite ?Hsrc; done.
Qed.
Lemma merged_name p r : pp_Name p = Some (tv_Name r) -> tv_Name (assign_provider (toDAOParamForUpdate p) r) = tv_Name r.
Proof. intros Hp. cbn. by rewrite Hp. Qed.

Lemma gives_key_checker d old new : gives d (ProviderKeyRefChecker old new) (fun _ d' => d' = d /\
  (items (pv_Keys old) = items (pv_Keys new) \/
   forall c l k n, c ∈ cd_clusters d -> tc_LLMConfig c = Some l -> lc_Provider l = Some (pv_Name new) -> k ∈ lc_Keys l ->
     ckr_Name k = Some n -> n <> "" -> n ∈ key_names new)).
Proof.
  unfold ProviderKeyRefChecker. destruct (providerKeysEqual _ _) eqn:E; [apply gives_ret; split; [done|]; left; by apply same_keys|].
  eapply gives_try; [apply gives_clusters|]. intros cs d' [-> Hcs]. apply gives_result. intros [] H. split; [done|]. right.
  rewrite filter_all_bool in Hcs by done. destruct (existsb _ cs) eqn:Ex in H; [done|]. clear H. intros c l k n Hc Hl Hp Hk Hn Hne.
  destruct (decide (n ∈ key_names new)) as [|Hout]; [done|]. exfalso. apply not_true_iff_false in Ex. apply Ex.
  assert (cluster_row_core d c ∈ map cluster_core cs) as (x & Hx & Hxc)%elem_of_map by (rewrite Hcs; apply elem_of_map; by exists c).
  injection Hxc as _ _ Hxl _. apply existsb_exists. exists x. split; [by apply list_elem_of_In|].
  rewrite Hxl, Hl. unfold refers_to. rewrite (bool_decide_eq_true_2 _ Hp). cbn. apply existsb_exists. exists k. split; [by apply list_elem_of_In|].
  rewrite Hn. cbn. unfold nonempty. rewrite bool_decide_eq_false_2 by done. unfold among. by rewrite bool_decide_eq_false_2.
Qed.
Lemma gives_model_checker d old new : gives d (ProviderModelRefChecker old new) (fun _ d' => d' = d /\
  (items (pv_Models old) = items (pv_Models new) \/
   forall c l m, c ∈ cd_clusters d -> tc_LLMConfig c = Some l -> lc_Provider l = Some (pv_Name new) -> m ∈ lc_Models l ->
     m ∈ items (pv_Models new))).
Proof.
  unfold ProviderModelRefChecker. destruct (providerModelsEqual _ _) eqn:E; [apply gives_ret; split; [done|]; left; by apply same_models|].
  eapply gives_try; [apply gives_clusters|]. intros cs d' [-> Hcs]. apply gives_result. intros [] H. split; [done|]. right.
  rewrite filter_all_bool in Hcs by done. destruct (existsb _ cs) eqn:Ex in H; [done|]. clear H. intros c l m Hc Hl Hp Hm.
  destruct (decide (m ∈ items (pv_Models new))) as [|Hout]; [done|]. exfalso. apply not_true_iff_false in Ex. apply Ex.
  assert (cluster_row_core d c ∈ map cluster_core cs) as (x & Hx & Hxc)%elem_of_map by (rewrite Hcs; apply elem_of_map; by exists c).
  injection Hxc as _ _ Hxl _. apply existsb_exists. exists x. split; [by apply list_elem_of_In|].
  rewrite Hxl, Hl. unfold refers_to. rewrite (bool_decide_eq_true_2 _ Hp). cbn. apply existsb_exists. exists m. split; [by apply list_elem_of_In|].
  unfold among. by rewrite bool_decide_eq_false_2.
Qed.

Lemma gives_checks_cons {A} d (a : A) l run (M Q : cdata -> Prop) :
  gives d (run a) (fun _ => M) -> (forall d', M d' -> gives d' (run_checks l run) (fun _ => Q)) -> gives d (run_checks (a :: l) run) (fun _ => Q).
Proof.
  intros Ha Hl. unfold run_checks. change (for_each (a :: l) (Ok tt) _) with (s <- run a ;; for_each l s (fun c s => match s with Ok _ => run c | Err e => Ret (Err e) end)).
  eapply hoare_bind; [exact Ha|]. intros [[]|e].
  - intros os w [Hw HM]. apply (Hl _ HM). by split.
  - rewrite checks_stopped. apply hoare_ret. by intros w [Hw _].
Qed.

(** What the update leaves when the hooks have been asked, or had nothing to
    look at. *)
Section Update.
Context (d : cdata) (Hs : sound_conf cfg d) (name : string) (param : ProviderParam) (r : TProvider).
Hypothesis Hr : r ∈ cd_providers d.
Hypothesis Hn : tv_Name r = name.
Hypothesis Hp : pp_Name param = Some name.
Let new := applyProviderUpdate (providerFromDAO r) param.
Let d1 := with_provider name (assign_provider (toDAOParamForUpdate param)) d.
Hypothesis Hu : providers_unique (cd_providers d1) = true.
Hypothesis Hkeys : items (tv_Keys r) = items (pv_Keys new) \/
  (forall c l k n, c ∈ cd_clusters d -> tc_LLMConfig c = Some l -> lc_Provider l = Some (pv_Name new) -> k ∈ lc_Keys l ->
     ckr_Name k = Some n -> n <> "" -> n ∈ key_names new).
Hypothesis Hmodels : items (tv_Models r) = items (pv_Models new) \/
  (forall c l m, c ∈ cd_clusters d -> tc_LLMConfig c = Some l -> lc_Provider l = Some (pv_Name new) -> m ∈ lc_Models l ->
     m ∈ items (pv_Models new)).

Lemma update_only r' : r' ∈ cd_providers d -> tv_Name r' = name -> r' = r.
Proof. intros Hr' Hn'. apply (provider_by_name Hs); [done..|congruence]. Qed.
Lemma update_name r' : tv_Name r' = name -> tv_Name (assign_provider (toDAOParamForUpdate param) r') = name.
Proof. intros Hn'. rewrite merged_name; [done|congruence]. Qed.
Lemma new_name : pv_Name new = name.
Proof. unfold new. cbn. by rewrite Hp. Qed.
Lemma update_fits r' c l : r' ∈ cd_providers d -> tv_Name r' = name -> c ∈ cd_clusters d -> tc_LLMConfig c = Some l ->
  lc_Provider l = Some name -> fits l r' -> fits l (assign_provider (toDAOParamForUpdate param) r').
Proof.
  intros Hr' Hn' Hc Hl Hlp [Hm Hk]. rewrite (update_only r' Hr' Hn') in *. rewrite <- new_name in Hlp. split.
  - intros m Hin. rewrite merged_models. fold new. destruct Hmodels as [<-|H]; [by apply Hm|by eapply H].
  - intros k n Hin Hkn Hne. rewrite merged_keys. fold new. destruct Hkeys as [<-|H]; [by eapply Hk|by eapply H].
Qed.
Lemma update_sound : sound_conf cfg d1.
Proof. apply (change_sound Hs); [apply update_name|exact Hu|exact update_fits]. Qed.
Lemma update_same_pool : EffectiveInstancePool (providerFromDAO r) = EffectiveInstancePool new -> good cfg d d1.
Proof.
  intros He. split; [apply update_sound|]. apply change_follow; [exact update_name|]. intros r' Hr' Hn'.
  rewrite (update_only r' Hr' Hn'), merged_pool. fold new. by rewrite He.
Qed.
Lemma update_new_pool :
  good cfg d (feed (providerInstancesToClusterInstances (EffectiveInstancePool new)) (fed (pv_Name new) d1) d1).
Proof.
  split; [apply feed_sound, update_sound|]. rewrite new_name. apply (change_feed Hs); [exact update_name|].
  intros r' Hr' Hn'. by rewrite (update_only r' Hr' Hn'), merged_pool.
Qed.
End Update.

Lemma update_body_good d name param : sound_conf cfg d -> pp_Name param = Some name ->
  gives d (update_body name param [ProviderInstancePoolSyncer; ProviderKeyRefChecker; ProviderModelRefChecker]) (fun _ d' => good cfg d d').
Proof.
  intros Hs Hp0. eapply gives_try; [apply gives_provider_named|]. intros [p|] d' [-> Hex]; [|apply gives_err].
  destruct (Hex p eq_refl) as (r & Hr & Hn & ->). clear Hex. cbv zeta. destruct (validateProviderProtocolPaths _ _); [|apply gives_err..].
  set (param' := with_cleared_mirror (providerFromDAO r) param).
  assert (pp_Name param' = Some name) as Hp by (unfold param', with_cleared_mirror; by destruct (_ && _)).
  eapply gives_try; [apply gives_update_provider|]. intros [] d' [Hu ->]. set (new := applyProviderUpdate _ _).
  destruct (clusterConfigChanged _ _ _) eqn:Ec.
  - apply (gives_checks_cons _ _ _ _ (fun d2 => d2 = (if providerInstancePoolEqual (EffectiveInstancePool (providerFromDAO r)) (EffectiveInstancePool new)
      then with_provider name (assign_provider (toDAOParamForUpdate param')) d
      else feed (providerInstancesToClusterInstances (EffectiveInstancePool new)) (fed (pv_Name new) (with_provider name (assign_provider (toDAOParamForUpdate param')) d))
        (with_provider name (assign_provider (toDAOParamForUpdate param')) d)))).
    { unfold ProviderInstancePoolSyncer. destruct (providerInstancePoolEqual _ _); [by apply gives_ret|]. apply gives_sync. }
    intros d2 Hd2. assert (cd_clusters d2 = cd_clusters d) as Hcl by (rewrite Hd2; by destruct (providerInstancePoolEqual _ _)).
    eapply gives_checks_cons; [apply gives_key_checker|]. intros d3 [-> Hkeys]. eapply gives_checks_cons; [apply gives_model_checker|].
    intros d4 [-> Hmodels]. rewrite Hcl in *. apply gives_ret. rewrite Hd2.
    destruct (providerInstancePoolEqual _ _) eqn:Ei; [|by apply update_new_pool]. by apply (update_same_pool d Hs name param' r); [..|apply same_pool].
  - apply gives_ret. unfold clusterConfigChanged in Ec. apply orb_false_iff in Ec as [[Hk Hm]%orb_false_iff Hi%negb_false_iff].
    apply (update_same_pool d Hs name param' r); [done..| | |by apply same_pool]; left; cbn.
    + destruct (pp_Keys param'); [by apply same_keys, negb_false_iff|done].
    + destruct (pp_Models param'); [by apply same_models, negb_false_iff|done].
Qed.

(** ** Pricing tiers *)

Lemma pricing_good d name param : sound_conf cfg d ->
  gives d (existing <-? FetchProviderRow (byProviderName name) ;;
           match existing with
           | None => Ret (Err (RecordNotExist "provider"))
           | Some existing => UpdateProviderRow name (pricing_update existing param)
           end) (fun _ d' => good cfg d d').
Proof.
  intros Hs. eapply gives_try; [apply gives_provider_named|]. intros [p|] d' [-> Hex]; [|apply gives_err].
  destruct (Hex p eq_refl) as (r & Hr & Hn & ->). eapply gives_weaken; [|apply gives_update_provider]. cbv beta. intros _ d' [Hu ->].
  apply (update_same_pool d Hs name (pricing_update (providerFromDAO r) param) r); [done|done|by cbn; rewrite Hn|done|..].
  - left. cbn. by destruct (tv_Keys r).
  - by left.
  - unfold EffectiveInstancePool. cbn -[nonempty]. by destruct (tv_InstancePool r).
Qed.
End Providers.

(** * The operations on Kubernetes pools *)

(** The mirror of a provider in its row. *)
Definition put_mirror_row (l : list ProviderInstance) (r : TProvider) : TProvider :=
  assign_provider (toDAOParamForUpdate (mirrorParam l)) r.
(** The tables after one provider was synchronised. *)
Definition mirrored (l : list ProviderInstance) (p : Provider) (d : cdata) : cdata :=
  let d1 := with_provider (pv_Name p) (put_mirror_row l) d in
  feed (providerInstancesToClusterInstances (EffectiveInstancePool (with_mirror l p))) (fed (pv_Name p) d1) d1.

Lemma gives_sync_mirror d l p : gives d (sync_mirror l p) (fun _ d' => d' = mirrored l p d).
Proof. unfold sync_mirror. eapply gives_try; [apply gives_update_provider|]. intros _ d' [_ ->]. apply gives_sync. Qed.

Lemma mirror_unique l name d : providers_unique (cd_providers d) = true -> providers_unique (cd_providers (with_provider name (put_mirror_row l) d)) = true.
Proof. unfold providers_unique. cbn. by rewrite !changed_key. Qed.

Definition from_k8s (name : string) (d : cdata) : Prop :=
  forall r, r ∈ cd_providers d -> tv_Name r = name -> tv_InstanceSource r = InstanceSourceK8sPool.

Lemma mirrored_good cfg d l p : sound_conf cfg d -> from_k8s (pv_Name p) d -> pv_InstanceSource p = InstanceSourceK8sPool ->
  good cfg d (mirrored l p d).
Proof.
  intros Hs Hk Hp. assert (sound_conf cfg (with_provider (pv_Name p) (put_mirror_row l) d)) as Hs1.
  { apply (change_sound Hs); [done| |done]. apply mirror_unique. by destruct Hs as [[? _ _ _ _] _]. }
  split; [by apply feed_sound|]. unfold mirrored. assert (EffectiveInstancePool (with_mirror l p) = l) as ->.
  { unfold EffectiveInstancePool. cbn. by rewrite bool_decide_eq_true_2. }
  apply (change_feed Hs); [done|]. intros r Hr Hn. unfold EffectiveInstancePool. cbn -[nonempty].
  rewrite (Hk r Hr Hn). done.
Qed.

Lemma mirrored_rows l p d : cd_providers (mirrored l p d) = changed (fun r => bool_decide (tv_Name r = pv_Name p)) (put_mirror_row l) (cd_providers d).
Proof. done. Qed.
Lemma mirrored_from l p d name : from_k8s name d -> from_k8s name (mirrored l p d).
Proof.
  intros H r. rewrite mirrored_rows. intros (r0 & Hr0 & ->)%elem_of_changed Hn. specialize (H r0 Hr0). by case_bool_decide; apply H.
Qed.
Lemma mirrors_good cfg l ps d : sound_conf cfg d ->
  (forall p, p ∈ ps -> from_k8s (pv_Name p) d /\ pv_InstanceSource p = InstanceSourceK8sPool) ->
  good cfg d (fold_left (fun d p => mirrored l p d) ps d).
Proof.
  revert d. induction ps as [|p ps IH]; intros d Hs Hps; cbn [fold_left]; [by apply good_same|].
  assert (good cfg d (mirrored l p d)) as Hg by (apply mirrored_good; [done|apply Hps; left..]).
  eapply good_trans; [exact Hg|]. apply IH; [apply Hg|]. intros q Hq. destruct (Hps q) as [H1 H2]; [by right|]. split; [by apply mirrored_from|done].
Qed.
Lemma mirrors_rows l ps d :
  cd_providers (fold_left (fun d p => mirrored l p d) ps d) =
  changed (fun r => bool_decide (tv_Name r ∈ map pv_Name ps)) (put_mirror_row l) (cd_providers d).
Proof.
  revert d. induction ps as [|p ps IH]; intros d; cbn [fold_left map].
  - symmetry. apply changed_none. intros r _. apply bool_decide_eq_false_2, list.not_elem_of_nil.
  - rewrite IH, mirrored_rows. unfold changed. rewrite List.map_map. apply List.map_ext. intros r.
    destruct (decide (tv_Name r = pv_Name p)) as [E|E].
    + rewrite (bool_decide_eq_true_2 _ E), (bool_decide_eq_true_2 (tv_Name r ∈ pv_Name p :: map pv_Name ps)) by (rewrite E; left). by case_bool_decide.
    + rewrite (bool_decide_eq_false_2 _ E). rewrite (bool_decide_ext (tv_Name r ∈ pv_Name p :: map pv_Name ps) (tv_Name r ∈ map pv_Name ps)); [done|].
      rewrite list.elem_of_cons. naive_solver.
Qed.

Lemma mirrors_k8s l ps d : cd_k8s (fold_left (fun d p => mirrored l p d) ps d) = cd_k8s d.
Proof. revert d. induction ps as [|p ps IH]; intros d; cbn [fold_left]; [done|]. by rewrite IH. Qed.

Lemma where_k8s name r : where_provider (filterToDAOParam (byK8sPool name)) r =
  bool_decide (tv_InstanceSource r = InstanceSourceK8sPool) && bool_decide (tv_K8sPoolName r = name).
Proof. done. Qed.

(** What the providers of a pool hold after they were synchronised. *)
Definition mirrors_filled (name : string) (l : list ProviderInstance) (d : cdata) : Prop :=
  forall p, p ∈ cd_providers d -> tv_InstanceSource p = InstanceSourceK8sPool -> tv_K8sPoolName p = name -> tv_K8sInstancePool p = Some l.

(** The pools of the clusters that refer to a provider of the Kubernetes pool
    [name] hold the instances [l]. *)
Definition clusters_filled (name : string) (l : list ProviderInstance) (d : cdata) : Prop := forall c llm p s o,
  c ∈ cd_clusters d -> tc_LLMConfig c = Some llm -> p ∈ cd_providers d -> lc_Provider llm = Some (tv_Name p) ->
  tv_InstanceSource p = InstanceSourceK8sPool -> tv_K8sPoolName p = name ->
  s ∈ cd_subs d -> ts_ClusterID s = tc_ID c -> o ∈ cd_pools d -> to_Id o = ts_PoolsID s ->
  to_Instances o = Some (providerInstancesToClusterInstances l).
(** The pools with these ids hold the instances [l]. *)
Definition pools_hold (l : list ProviderInstance) (ids : list Z) (d : cdata) : Prop := forall o,
  o ∈ cd_pools d -> to_Id o ∈ ids -> to_Instances o = Some (providerInstancesToClusterInstances l).

Lemma mirrored_holds l p ids d : pv_InstanceSource p = InstanceSourceK8sPool -> pools_hold l ids d ->
  pools_hold l (fed (pv_Name p) d ++ ids) (mirrored l p d).
Proof.
  intros Hp H o. unfold mirrored. assert (EffectiveInstancePool (with_mirror l p) = l) as ->.
  { unfold EffectiveInstancePool. cbn. by rewrite bool_decide_eq_true_2. }
  intros (o0 & Ho0 & ->)%elem_of_changed. case_bool_decide as E; [done|]. rewrite fed_with_provider in E.
  intros [Ho|Ho]%list.elem_of_app; [done|by apply H].
Qed.
Lemma mirrors_hold l ps ids d : (forall p, p ∈ ps -> pv_InstanceSource p = InstanceSourceK8sPool) -> pools_hold l ids d ->
  pools_hold l (ids ++ flat_map (fun p => fed (pv_Name p) d) ps) (fold_left (fun d p => mirrored l p d) ps d).
Proof.
  revert ids d. induction ps as [|p ps IH]; intros ids d Hps H; cbn [fold_left flat_map]; [by rewrite app_nil_r|].
  intros o Ho Hin. apply (IH (fed (pv_Name p) d ++ ids)%list (mirrored l p d)); [|by apply mirrored_holds; [apply Hps; left|]|done|].
  - intros q Hq. apply Hps. by right.
  - change (to_Id o ∈ ((fed (pv_Name p) d ++ ids) ++ flat_map (fun p => fed (pv_Name p) d) ps)%list). set_solver.
Qed.
Lemma mirrors_layout l ps d :
  let d' := fold_left (fun d p => mirrored l p d) ps d in cd_clusters d' = cd_clusters d /\ cd_subs d' = cd_subs d.
Proof. cbn zeta. revert d. induction ps as [|p ps IH]; intros d; cbn [fold_left]; [done|]. by destruct (IH (mirrored l p d)). Qed.

(** The providers whose instances come from the pool, as they are read. *)
Definition of_pool (name : string) (d : cdata) : list Provider :=
  map providerFromDAO (List.filter (where_provider (filterToDAOParam (byK8sPool name))) (cd_providers d)).
Lemma of_pool_source name d p : p ∈ of_pool name d -> exists r, r ∈ cd_providers d /\ p = providerFromDAO r /\
  tv_InstanceSource r = InstanceSourceK8sPool /\ pv_InstanceSource p = InstanceSourceK8sPool.
Proof.
  intros (r & Hr & <-)%elem_of_map. apply elem_of_filter_bool in Hr as [Hr Hw]. rewrite where_k8s in Hw.
  apply andb_true_iff in Hw as [Hw%bool_decide_eq_true _]. exists r. repeat split; [done..|]. cbn -[nonempty]. by rewrite Hw.
Qed.
Lemma of_pool_name name d r : r ∈ cd_providers d -> tv_InstanceSource r = InstanceSourceK8sPool -> tv_K8sPoolName r = name ->
  providerFromDAO r ∈ of_pool name d.
Proof.
  intros Hr Hsrc Hk. apply elem_of_map. exists r. split; [|done]. apply elem_of_filter_bool. split; [done|].
  rewrite where_k8s. by rewrite !bool_decide_eq_true_2.
Qed.

Lemma gives_sync_rows d name l :
  gives d (syncProviderMirrors name l) (fun _ d' => d' = fold_left (fun d p => mirrored l p d) (of_pool name d) d).
Proof.
  unfold syncProviderMirrors. eapply gives_try; [by apply gives_provider_rows|]. intros ps d' [-> Hps]. rewrite Hps.
  apply (gives_checks _ _ (mirrored l)). intros p d' _. apply gives_sync_mirror.
Qed.
(** Providers and clusters hold what was reported, in whatever state the
    tables were. *)
Lemma gives_sync_filled d name l :
  gives d (syncProviderMirrors name l) (fun _ d' => mirrors_filled name l d' /\ clusters_filled name l d' /\ cd_k8s d' = cd_k8s d).
Proof.
  eapply gives_weaken; [|apply gives_sync_rows]. cbv beta. intros _ d' ->. split; [|split; [|apply mirrors_k8s]].
  - intros p. rewrite mirrors_rows. intros (r & Hr & ->)%elem_of_changed Hsrc Hk. case_bool_decide as Hin; [done|]. exfalso. apply Hin.
    apply elem_of_map. exists (providerFromDAO r). split; [|done]. by apply of_pool_name.
  - intros c llm p s o. destruct (mirrors_layout l (of_pool name d) d) as [-> ->]. rewrite mirrors_rows.
    intros Hc Hllm (r & Hr & Hp)%elem_of_changed Hlp Hsrc Hk Hs Hsc Ho Hos.
    assert (tv_Name p = tv_Name r /\ tv_InstanceSource r = InstanceSourceK8sPool /\ tv_K8sPoolName r = name) as (Hn & Hsrc' & Hk').
    { subst p. by case_bool_decide. }
    refine (mirrors_hold l (of_pool name d) [] d _ _ o Ho _); [intros q (? & ? & ? & ? & ?)%of_pool_source; done|by intros ? ? ?%list.not_elem_of_nil|].
    cbn [app]. apply elem_of_flat_map. exists (providerFromDAO r). split; [by apply of_pool_name|]. unfold fed. apply elem_of_flat_map. exists c. split.
    + apply elem_of_filter_bool. split; [done|]. unfold refers_to. rewrite Hllm. apply bool_decide_eq_true_2. by rewrite Hlp, Hn.
    + apply elem_of_map. exists s. split; [|done]. apply elem_of_filter_bool. split; [done|]. by apply bool_decide_eq_true_2.
Qed.
Lemma gives_sync_mirrors cfg d name l : sound_conf cfg d -> gives d (syncProviderMirrors name l) (fun _ d' => good cfg d d').
Proof.
  intros Hs. eapply gives_weaken; [|apply gives_sync_rows]. cbv beta. intros _ d' ->.
  apply mirrors_good; [done|]. intros p (r & Hr & -> & Hsrc & Hpv)%of_pool_source. split; [|done].
  intros r' Hr' Hn. cbn in Hn. by rewrite (provider_by_name Hs r' r).
Qed.

(** The pool in its table. *)
Definition pool_saved (name : string) (l : list ProviderInstance) (d : cdata) : Prop :=
  (exists r, r ∈ cd_k8s d /\ t8_Name r = name) /\ (forall r, r ∈ cd_k8s d -> t8_Name r = name -> t8_Instances r = Some l).

Lemma put_k8s_good cfg d rows : sound_conf cfg d -> good cfg d (put_k8s rows d).
Proof.
  intros ([H1 H2 H3 H4 H5] & Hr & [L1 L2 L3 L4 L5 L6 L7]). split; [|done]. split; [by split|]. split; [done|by split].
Qed.
Lemma gives_upsert d name l : gives d (UpsertPool name l) (fun _ d' => (exists rows, d' = put_k8s rows d) /\ pool_saved name l d').
Proof.
  unfold UpsertPool. eapply gives_try; [apply gives_k8s_list|]. intros old d' [-> Hold]. destruct old as [|o old].
  - eapply gives_try; [by apply (gives_inserted d (TK8sPoolCreate name l) (fun id => Some (mkTK8sPool id name (Some l))) k8s_unique cd_k8s put_k8s)|].
    cbv beta. intros id d' (_ & r & [= <-] & _ & ->). apply gives_ret. split; [by eexists|]. split; cbn.
    + exists (mkTK8sPool id name (Some l)). split; [set_solver|done].
    + intros r Hr Hn. apply list.elem_of_app in Hr as [Hr| ->%list_elem_of_singleton]; [|done]. exfalso.
      assert (r ∈ List.filter (fun r => is_eq (Some name) (t8_Name r)) (cd_k8s d)) as Hin.
      { apply elem_of_filter_bool. split; [done|]. cbn. by apply bool_decide_eq_true_2. }
      rewrite <- Hold in Hin. by apply list.not_elem_of_nil in Hin.
  - eapply gives_try; [by apply (gives_updated d (TK8sPoolUpdate name l) (fun r => bool_decide (t8_Name r = name)) (fun r => mkTK8sPool (t8_ID r) (t8_Name r) (Some l)) k8s_unique cd_k8s put_k8s)|].
    cbv beta. intros n d' (_ & ->). apply gives_ret. split; [by eexists|]. split; cbn.
    + assert (o ∈ o :: old) as Ho by left. rewrite Hold in Ho. apply elem_of_filter_bool in Ho as [Ho Hn%bool_decide_eq_true].
      exists (mkTK8sPool (t8_ID o) (t8_Name o) (Some l)). split; [|done]. apply elem_of_changed. exists o. split; [done|]. by rewrite bool_decide_eq_true_2.
    + intros r (r0 & Hr & ->)%elem_of_changed Hn. by case_bool_decide.
Qed.
Lemma replace_good cfg d name l : sound_conf cfg d -> gives d (replace_body name l) (fun _ => good cfg d).
Proof.
  intros Hs. unfold replace_body. eapply gives_try; [by apply gives_upsert|]. intros _ d1 [[rows ->] _].
  assert (good cfg d (put_k8s rows d)) as Hg by (by apply put_k8s_good).
  eapply gives_weaken; [|apply (gives_sync_mirrors cfg), Hg]. cbv beta. intros _ d2 Hg2. exact (good_trans cfg _ _ _ Hg Hg2).
Qed.
(** The pool, the mirrors of its providers and the pools of their clusters. *)
Definition report_arrived (name : string) (l : list ProviderInstance) (d : cdata) : Prop :=
  pool_saved name l d /\ mirrors_filled name l d /\ clusters_filled name l d.
Lemma replace_arrives d name l : gives d (replace_body name l) (fun _ => report_arrived name l).
Proof.
  unfold replace_body. eapply gives_try; [by apply gives_upsert|]. intros _ d1 [_ H].
  eapply gives_weaken; [|apply gives_sync_filled]. cbv beta. intros _ d2 (Hm & Hc & Hk). split; [|done].
  unfold pool_saved. by rewrite Hk.
Qed.
Lemma delete_pool_good cfg d name : sound_conf cfg d ->
  gives d (delete_pool_body name) (fun _ => good cfg d).
Proof.
  intros Hs. unfold delete_pool_body. eapply gives_try.
  - unfold DeleteK8sPoolRow. eapply gives_try; [by apply (gives_deleted d (TK8sPoolDelete name) (fun r => bool_decide (t8_Name r = name)) cd_k8s put_k8s)|].
    cbv beta. intros n d' ->. apply (gives_ret _ (fun _ d' => good cfg d d')). by apply put_k8s_good.
  - intros u d1 Hg. eapply gives_weaken; [|apply (gives_sync_mirrors cfg), Hg]. cbv beta. intros _ d2 Hg2.
    exact (good_trans cfg d d1 d2 Hg Hg2).
Qed.
