(* ===== verification/ConfClusters.v ===== *)
(** Creating, changing and deleting clusters keeps the tables sound. *)
From Stdlib Require Import ZArith Lia Ascii.
From stdpp Require Import base tactics numbers list strings gmap option.
From S2P Require Import Prelude GoStrings Prog EppConfig SharedTypes Validate ValidateSpec ProviderModel ClusterModel ProviderManager ClusterManager ConfEffect ConfSound.

Local Open Scope string_scope.

#[local] Arguments for_each : simpl never.
#[local] Arguments bool_decide : simpl never.

Lemma gives_reading {A} d (p : prog confE (result A)) : all_calls conf_reading p -> gives d p (fun _ d' => d' = d).
Proof. intros Hp. eapply hoare_post; [|by apply reading_keeps]. intros r w [Hw Hd]. split; [done|]. by destruct r. Qed.

(** * What a cluster owns *)

Section Owned.
Context {cfg : ClusterConfig} {d : cdata} (Hs : sound_conf cfg d).

Lemma sub_by_id s s' : s ∈ cd_subs d -> s' ∈ cd_subs d -> ts_ID s = ts_ID s' -> s = s'.
Proof. apply NoDup_map_same. destruct Hs as [[_ _ Hu _ _] _]. unfold subs_unique in Hu. by apply andb_true_iff in Hu as [Hu%bool_decide_eq_true _]. Qed.
Lemma pool_by_key o o' : o ∈ cd_pools d -> o' ∈ cd_pools d -> to_Id o = to_Id o' \/ to_Name o = to_Name o' -> o = o'.
Proof.
  destruct Hs as [[_ _ _ Hu _] _]. unfold pools_unique in Hu. apply andb_true_iff in Hu as [H1%bool_decide_eq_true H2%bool_decide_eq_true].
  intros Ho Ho' [E|E]; [by apply (NoDup_map_same to_Id (cd_pools d))|by apply (NoDup_map_same to_Name (cd_pools d))].
Qed.
Lemma pool_row_of o : o ∈ cd_pools d -> pool_row d (to_Id o) = Some o.
Proof.
  intros Ho. unfold pool_row. destruct (List.find _ _) as [o'|] eqn:E.
  - apply List.find_some in E as [Ho'%List.in_rev E%bool_decide_eq_true]. f_equal. apply pool_by_key; [by apply list_elem_of_In|done|by left].
  - eapply List.find_none in E; [|apply List.in_rev; rewrite rev_involutive; by apply list_elem_of_In]. by rewrite bool_decide_eq_true_2 in E.
Qed.
Lemma filter_one {A} (P : A -> bool) (l : list A) a : NoDup l -> a ∈ l -> P a = true -> (forall b, b ∈ l -> P b = true -> b = a) -> List.filter P l = [a].
Proof.
  induction l as [|x l IH]; [by intros _ []%list.not_elem_of_nil|]. intros [Hx Hl]%list.NoDup_cons Ha HP Hall. cbn.
  destruct (P x) eqn:Ex.
  - assert (x = a) as -> by (apply Hall; [left|done]). f_equal. destruct (List.filter P l) as [|b l'] eqn:E; [done|]. exfalso.
    assert (b ∈ List.filter P l) as [Hb HPb]%elem_of_filter_bool by (rewrite E; left). assert (b = a) as -> by (apply Hall; [by right|done]). done.
  - apply list.elem_of_cons in Ha as [->|Ha]; [congruence|]. apply IH; [done..|]. intros b Hb. apply Hall. by right.
Qed.
Lemma NoDup_subs : NoDup (cd_subs d).
Proof.
  destruct Hs as [[_ _ Hu _ _] _]. unfold subs_unique in Hu. apply andb_true_iff in Hu as [Hu%bool_decide_eq_true _].
  induction (cd_subs d) as [|s l IH]; [constructor|]. cbn in Hu. apply list.NoDup_cons in Hu as [H1 H2]. apply list.NoDup_cons. split; [|by apply IH].
  intros Hin. apply H1, elem_of_map. by exists s.
Qed.

(** The sub-cluster and the pool of a cluster, and that there is no other. *)
Lemma owned_rows c : c ∈ cd_clusters d -> exists s o, s ∈ cd_subs d /\ ts_ClusterID s = tc_ID c /\ o ∈ cd_pools d /\ to_Id o = ts_PoolsID s /\
  cluster_subs d (tc_ID c) = [s] /\ pool_row d (ts_PoolsID s) = Some o.
Proof.
  intros Hc. destruct Hs as (_ & _ & L).
  assert (tc_ID c ∈ map ts_ClusterID (cd_subs d)) as (s & Hsub & Hsc)%elem_of_map by (apply (sub_of _ _ L), elem_of_map; by exists c).
  assert (ts_PoolsID s ∈ map to_Id (cd_pools d)) as (o & Ho & Hos)%elem_of_map by (apply (pool_of _ _ L), elem_of_map; by exists s).
  exists s, o. do 4 (split; [done|]). split; [|by rewrite <- Hos, pool_row_of]. unfold cluster_subs.
  apply (filter_one _ _ s); [apply NoDup_subs|done|by apply bool_decide_eq_true_2|].
  intros s' Hs' E%bool_decide_eq_true. apply (sub_by_cluster Hs); [done..|congruence].
Qed.
Lemma owned c : c ∈ cd_clusters d -> exists s o, s ∈ cd_subs d /\ ts_ClusterID s = tc_ID c /\ o ∈ cd_pools d /\ to_Id o = ts_PoolsID s /\
  map (sub_row_core d) (cluster_subs d (tc_ID c)) = [(ts_ID s, ts_Name s, tc_ID c, Some (to_Id o, to_Name o))].
Proof.
  intros Hc. destruct (owned_rows c Hc) as (s & o & H1 & H2 & H3 & H4 & H5 & H6). exists s, o. do 4 (split; [done|]).
  rewrite H5. cbn. unfold sub_row_core. by rewrite H2, H6.
Qed.
End Owned.

(** * Deleting a cluster *)

Lemma elem_of_map_without {A} (key : A -> Z) hit l z0 : (forall a, a ∈ l -> hit a = true <-> key a = z0) ->
  forall z, z ∈ map key (without hit l) <-> z ∈ map key l /\ z <> z0.
Proof.
  intros H z. rewrite !elem_of_map. split.
  - intros (a & [Ha Hn]%elem_of_without & <-). split; [by exists a|]. intros E. apply (H a Ha) in E. congruence.
  - intros [(a & Ha & <-) Hne]. exists a. split; [|done]. apply elem_of_without. split; [done|]. apply not_true_is_false. by rewrite H.
Qed.

Definition without_cluster (id sid : Z) (pool : string) (d : cdata) : cdata :=
  mkCData (cd_providers d) (without (fun r => bool_decide (tc_ID r = id)) (cd_clusters d)) (without (fun r => bool_decide (ts_ID r = sid)) (cd_subs d))
    (without (fun r => bool_decide (to_Name r = pool)) (cd_pools d)) (without (fun r => bool_decide (tl_ClusterID r = id)) (cd_matrices d)) (cd_k8s d).

Lemma drop_cluster_good cfg d c s o : sound_conf cfg d -> c ∈ cd_clusters d -> s ∈ cd_subs d -> ts_ClusterID s = tc_ID c ->
  o ∈ cd_pools d -> to_Id o = ts_PoolsID s -> good cfg d (without_cluster (tc_ID c) (ts_ID s) (to_Name o) d).
Proof.
  intros Hs Hc Hsub Hsc Ho Hos. pose proof Hs as ([H1 H2 H3 H4 H5] & Hr & [L1 L2 L3 L4 L5 L6 L7]).
  unfold clusters_unique, subs_unique, pools_unique, matrices_unique in *.
  repeat match goal with H : _ && _ = true |- _ => apply andb_true_iff in H as [?%bool_decide_eq_true ?%bool_decide_eq_true] end.
  apply bool_decide_eq_true in H5.
  assert (forall a, a ∈ cd_subs d -> bool_decide (ts_ID a = ts_ID s) = true <-> ts_ClusterID a = tc_ID c) as Hsubs.
  { intros a Ha. rewrite bool_decide_eq_true, <- Hsc. split; intros E; f_equal; [by apply (sub_by_id Hs)|by apply (sub_by_cluster Hs)]. }
  assert (forall a, a ∈ cd_subs d -> bool_decide (ts_ID a = ts_ID s) = true <-> ts_PoolsID a = to_Id o) as Hsubs2.
  { intros a Ha. rewrite bool_decide_eq_true, Hos. split; intros E; f_equal; [by apply (sub_by_id Hs)|by apply (sub_by_pool Hs)]. }
  assert (forall a, a ∈ cd_pools d -> bool_decide (to_Name a = to_Name o) = true <-> to_Id a = to_Id o) as Hpools.
  { intros a Ha. rewrite bool_decide_eq_true. split; intros E; f_equal; apply (pool_by_key Hs); auto. }
  split; [split; [|split]|].
  - split; cbn; [done|..]; unfold clusters_unique, subs_unique, pools_unique, matrices_unique; rewrite ?andb_true_iff, ?bool_decide_eq_true; auto using NoDup_map_without.
  - intros c' l n Hc'. apply elem_of_without in Hc' as [Hc' _]. by apply Hr.
  - split; cbn; [by apply NoDup_map_without| |by apply NoDup_map_without|..].
    + intros z. rewrite (elem_of_map_without _ _ _ (tc_ID c)), (elem_of_map_without _ _ _ (tc_ID c)), L2; [done|intros a _; apply bool_decide_eq_true|done].
    + intros z. rewrite (elem_of_map_without _ _ _ (to_Id o)), (elem_of_map_without _ _ _ (to_Id o)), L4; done.
    + intros z. rewrite (elem_of_map_without _ _ _ (tc_ID c)), (elem_of_map_without _ _ _ (tc_ID c)), L5; [done|intros a _; apply bool_decide_eq_true..].
    + intros c' s' [Hc' _]%elem_of_without [Hs' _]%elem_of_without. by apply L6.
    + intros c' m [Hc' _]%elem_of_without [Hm _]%elem_of_without. by apply L7.
  - intros Hd c' l p s' o' [Hc' _]%elem_of_without Hl Hp Hlp Hne [Hs' _]%elem_of_without Hsc' [Ho' _]%elem_of_without. by eapply Hd.
Qed.

Section Delete.
Context (cfg : ClusterConfig) (checkers : list (ConfProduct -> Cluster -> prog confE (result unit))).
Hypothesis Hcheckers : forall ch product c, ch ∈ checkers -> all_calls conf_reading (ch product c).

Lemma gives_delete_sub d sc : gives d (delete_sub sc) (fun _ d' => d' =
  match (sub_core sc).2 with
  | Some (_, name) => put_pools (without (fun r => bool_decide (to_Name r = name)) (cd_pools d)) (put_subs (without (fun r => bool_decide (ts_ID r = sc_ID sc)) (cd_subs d)) d)
  | None => put_subs (without (fun r => bool_decide (ts_ID r = sc_ID sc)) (cd_subs d)) d
  end).
Proof.
  unfold delete_sub. eapply gives_try.
  - unfold DeleteSubClusterRow. eapply gives_try; [by apply (gives_deleted d (TSubClusterDelete (sc_ID sc)) (fun r => bool_decide (ts_ID r = sc_ID sc)) cd_subs put_subs)|].
    cbv beta. intros n d' ->. by apply (gives_ret _ (fun _ d' => d' = put_subs (without (fun r => bool_decide (ts_ID r = sc_ID sc)) (cd_subs d)) d)).
  - cbv beta. intros u d1 Hd1. unfold sub_core. cbn [snd]. destruct (sc_InstancePool sc) as [pool|]; cbn [option_map]; [|by apply gives_ret].
    unfold DeletePoolRow. eapply gives_try; [by apply (gives_deleted d1 (TPoolsDelete (pl_Name pool)) (fun r => bool_decide (to_Name r = pl_Name pool)) cd_pools put_pools)|].
    cbv beta. intros n d' ->. apply gives_ret. by rewrite Hd1.
Qed.

Lemma delete_cluster_good d product c x : sound_conf cfg d -> c ∈ cd_clusters d -> cluster_core x = cluster_row_core d c ->
  gives d (delete_cluster_body checkers product x) (fun _ d' => good cfg d d').
Proof.
  intros Hs Hc Hx. destruct (owned Hs c Hc) as (s & o & Hsub & Hsc & Ho & Hos & Hcore).
  injection Hx as Hid _ _ Hsubs. rewrite Hcore in Hsubs. destruct (cl_SubClusters x) as [|sc [|]] eqn:Esc; [done| |done].
  injection Hsubs as Hi Hn Hci Hpool. unfold delete_cluster_body. rewrite Esc, Hid.
  eapply gives_try; [apply (gives_checks_only _ _ (fun _ => True)); intros ch Hch; eapply gives_weaken; [|by apply gives_reading, Hcheckers]; by split|].
  cbv beta. intros u d' [-> _]. eapply gives_try.
  - apply (gives_checks_cons _ _ _ _ (fun d1 => d1 = put_pools (without (fun r => bool_decide (to_Name r = to_Name o)) (cd_pools d))
      (put_subs (without (fun r => bool_decide (ts_ID r = ts_ID s)) (cd_subs d)) d)) (fun d1 => d1 = put_pools (without (fun r => bool_decide (to_Name r = to_Name o)) (cd_pools d))
      (put_subs (without (fun r => bool_decide (ts_ID r = ts_ID s)) (cd_subs d)) d))); [|intros d1 ->; by apply gives_ret].
    eapply gives_weaken; [|apply gives_delete_sub]. cbv beta. intros _ d1. unfold sub_core. cbn [snd]. by rewrite Hpool, Hi.
  - cbv beta. intros u1 d1 ->. eapply gives_try.
    + unfold BindSubCluster. eapply (gives_try _ _ _ (fun _ d2 => d2 = put_pools (without (fun r => bool_decide (to_Name r = to_Name o)) (cd_pools d))
      (put_subs (without (fun r => bool_decide (ts_ID r = ts_ID s)) (cd_subs d)) d)) (fun _ d2 => d2 = put_pools (without (fun r => bool_decide (to_Name r = to_Name o)) (cd_pools d))
      (put_subs (without (fun r => bool_decide (ts_ID r = ts_ID s)) (cd_subs d)) d))); [|intros ? ? ->; by apply gives_ret].
      set (q := mkTSubClusterWhere _ _ _ _ _ _ _ _).
      eapply gives_try; [by apply (gives_updated _ (TSubClusterUpdate (to_cluster (-1)) q) (where_sub q) (assign_sub (to_cluster (-1))) subs_unique cd_subs put_subs)|].
      cbv beta. intros n d2 [_ ->]. apply gives_result. intros _ _. rewrite changed_none; [done|]. cbn.
      intros a [Ha Hne]%elem_of_without. apply bool_decide_eq_false in Hne. unfold where_sub. cbn.
      rewrite bool_decide_eq_false_2; [done|]. rewrite list_elem_of_singleton. by rewrite Hi.
    + cbv beta. intros u2 d2 ->. unfold ClusterDelete.
      eapply gives_try; [by apply (gives_deleted _ (TLbMatrixDelete (tc_ID c)) (fun r => bool_decide (tl_ClusterID r = tc_ID c)) cd_matrices put_matrices)|].
      cbv beta. intros n d3 ->.
      eapply gives_try; [by apply (gives_deleted _ (TClusterDelete (tc_ID c)) (fun r => bool_decide (tc_ID r = tc_ID c)) cd_clusters put_clusters)|].
      cbv beta. intros n' d4 ->. apply gives_ret. by apply (drop_cluster_good cfg d c s o).
Qed.
End Delete.

(** * Creating a cluster *)

Lemma check_keys_accept names keys : check_keys names keys = Accept -> forall k n, k ∈ keys -> ckr_Name k = Some n -> n ∈ names.
Proof.
  induction keys as [|k keys IH]; [by intros _ ? ? []%list.not_elem_of_nil|]. cbn [check_keys]. rewrite !andthen_accept, !refuse_if_accept.
  intros (_ & Hg & Hk) k' n Hin Hn. apply list.elem_of_cons in Hin as [->|Hin]; [|by eapply IH].
  rewrite Hn in Hg. cbn in Hg. by apply negb_false_iff, bool_decide_eq_true in Hg.
Qed.
Lemma accepted_fits llm p : validateClusterLLMConfigAgainstProvider llm (providerFromDAO p) = Accept -> fits llm p.
Proof.
  unfold validateClusterLLMConfigAgainstProvider. rewrite andthen_accept, refuse_if_accept. intros [Hm%negb_false_iff Hk]. split.
  - intros m Hin. rewrite forallb_forall in Hm. apply list_elem_of_In, Hm in Hin. by apply bool_decide_eq_true in Hin.
  - intros k n Hin Hn _. by eapply check_keys_accept.
Qed.
Lemma provider_of_spec llm name : provider_of (Some llm) = Some name -> lc_Provider llm = Some name /\ name <> "".
Proof. cbn. unfold nonempty. case_bool_decide; [done|]. intros [= <-]. by destruct (lc_Provider llm). Qed.

(** The tables with a new cluster, its sub-cluster, pool and matrix. *)
Definition with_cluster (c : TCluster) (s : TSubCluster) (o : TPools) (m : TLbMatrix) (d : cdata) : cdata :=
  mkCData (cd_providers d) (cd_clusters d ++ [c]) (cd_subs d ++ [s]) (cd_pools d ++ [o])
    (without (fun r => bool_decide (tl_ClusterID r = tc_ID c)) (cd_matrices d) ++ [m]) (cd_k8s d).

Lemma elem_of_map_snoc {A} (key : A -> Z) l a z : z ∈ map key (l ++ [a]) <-> z ∈ map key l \/ z = key a.
Proof. rewrite map_app. cbn. rewrite list.elem_of_app, list_elem_of_singleton. done. Qed.
Lemma add_cluster_good cfg d c s o m p llm : sound_conf cfg d -> keys_unique (with_cluster c s o m d) ->
  tc_LLMConfig c = Some llm -> lc_Provider llm = Some (tv_Name p) -> p ∈ cd_providers d -> fits llm p ->
  ts_ClusterID s = tc_ID c -> ts_Name s = tc_Name c -> ts_PoolsID s = to_Id o -> serves p o ->
  tl_ClusterID m = tc_ID c -> tl_LbMatrix m = default_scheduler cfg (tc_Name c) ->
  good cfg d (with_cluster c s o m d).
Proof.
  intros Hs [U1 U2 U3 U4 U5] Hl Hlp Hp Hf Hsc Hsn Hsp Hserve Hm Hmat. pose proof Hs as (_ & Hr & [L1 L2 L3 L4 L5 L6 L7]).
  assert (tc_ID c ∉ map tc_ID (cd_clusters d)) as Hfresh.
  { unfold clusters_unique in U2. apply andb_true_iff in U2 as [U2%bool_decide_eq_true _]. by apply NoDup_map_snoc in U2 as [_ U2]. }
  assert (to_Id o ∉ map to_Id (cd_pools d)) as Hpool.
  { unfold pools_unique in U4. apply andb_true_iff in U4 as [U4%bool_decide_eq_true _]. by apply NoDup_map_snoc in U4 as [_ U4]. }
  assert (forall c', c' ∈ cd_clusters d -> tc_ID c' <> tc_ID c) as Hnc by (intros c' Hc' E; apply Hfresh, elem_of_map; by exists c').
  assert (forall s', s' ∈ cd_subs d -> ts_ClusterID s' <> tc_ID c) as Hns.
  { intros s' Hs' E. apply Hfresh, L2, elem_of_map. by exists s'. }
  split; [split; [by split|split]|].
  - intros c' l n Hc' Hl' Hn Hne. cbn in *. apply list.elem_of_app in Hc' as [Hc'| ->%list_elem_of_singleton]; [by eapply Hr|].
    exists p. rewrite Hl in Hl'. injection Hl' as <-. split; [done|]. split; [congruence|done].
  - split; cbn.
    + apply NoDup_map_snoc. split; [done|]. rewrite Hsc, L2. done.
    + intros z. rewrite !elem_of_map_snoc, L2, Hsc. done.
    + apply NoDup_map_snoc. split; [done|]. rewrite Hsp, L4. done.
    + intros z. rewrite !elem_of_map_snoc, L4, Hsp. done.
    + intros z. rewrite !elem_of_map_snoc, (elem_of_map_without _ _ _ (tc_ID c)), L5, Hm by (intros a _; apply bool_decide_eq_true).
      destruct (decide (z = tc_ID c)); naive_solver.
    + intros c' s' Hc' Hs' E. apply list.elem_of_app in Hc' as [Hc'| ->%list_elem_of_singleton], Hs' as [Hs'| ->%list_elem_of_singleton].
      * by apply L6.
      * rewrite Hsc in E. by apply Hnc in Hc'.
      * by apply Hns in Hs'.
      * done.
    + intros c' m' Hc' Hm' E. apply list.elem_of_app in Hc' as [Hc'| ->%list_elem_of_singleton], Hm' as [[Hm' Hh]%elem_of_without| ->%list_elem_of_singleton].
      * by apply L7.
      * rewrite Hm in E. by apply Hnc in Hc'.
      * by apply bool_decide_eq_false in Hh.
      * done.
  - intros Hd c' l q s' o' Hc' Hl' Hq Hlq Hne Hs' Hsc' Ho' Hos'. cbn in *.
    apply list.elem_of_app in Hc' as [Hc'| ->%list_elem_of_singleton], Hs' as [Hs'| ->%list_elem_of_singleton].
    + apply list.elem_of_app in Ho' as [Ho'| ->%list_elem_of_singleton]; [by eapply Hd|]. exfalso. apply Hpool. rewrite Hos'. apply L4, elem_of_map. by exists s'.
    + rewrite Hsc in Hsc'. by apply Hnc in Hc'.
    + by apply Hns in Hs'.
    + assert (q = p) as ->. { apply (provider_by_name Hs); [done..|]. rewrite Hl in Hl'. injection Hl' as <-. congruence. }
      apply list.elem_of_app in Ho' as [Ho'| ->%list_elem_of_singleton]; [|done]. exfalso. apply Hpool. rewrite <- Hsp, <- Hos'. apply elem_of_map. by exists o'.
Qed.

Section Create.
Context (cfg : ClusterConfig).

Lemma gives_manual d old m subs : gives d (checkManualLB old m subs) (fun _ d' => d' = d).
Proof. apply gives_reading. unfold checkManualLB. destruct m; [|constructor]. apply all_calls_bind; [by apply all_calls_one|]. intros []; constructor. Qed.
Lemma gives_default d subs : gives d (constructDefaultScheduler subs) (fun _ d' => d' = d).
Proof. apply gives_reading. apply all_calls_bind; [by apply all_calls_one|]. intros []; constructor. Qed.

(** The provider of the new cluster, its pool and its sub-cluster. *)
Definition prepared_by (d : cdata) (llm : LLMConfig) (cname : string) (product : ConfProduct) (p : TProvider) (o : TPools) (s : TSubCluster) : Prop :=
  p ∈ cd_providers d /\ lc_Provider llm = Some (tv_Name p) /\ fits llm p /\ serves p o /\
    ts_Name s = cname /\ ts_ProductID s = cp_ID product /\ ts_PoolsID s = to_Id o.
(** The tables before the sub-cluster is bound. *)
Definition created (product : ConfProduct) (d : cdata) (id : Z) (c : TCluster) (o : TPools) (s : TSubCluster) (m : LbMatrix) (d2 : cdata) : Prop :=
  let matrices := (without (fun r => bool_decide (tl_ClusterID r = id)) (cd_matrices d) ++ [mkTLbMatrix id (cp_ID product) m])%list in
  pools_unique (cd_pools d ++ [o]) = true /\ subs_unique (cd_subs d ++ [s]) = true /\
  clusters_unique (cd_clusters d ++ [c]) = true /\ matrices_unique matrices = true /\
  d2 = mkCData (cd_providers d) (cd_clusters d ++ [c]) (cd_subs d ++ [s]) (cd_pools d ++ [o]) matrices (cd_k8s d).
Definition prepared (product : ConfProduct) (llm : LLMConfig) (cname : string) (d d2 : cdata) : Prop :=
  exists p o s, p ∈ cd_providers d /\ lc_Provider llm = Some (tv_Name p) /\ fits llm p /\ serves p o /\
    ts_Name s = cname /\ ts_ProductID s = cp_ID product /\ ts_PoolsID s = to_Id o /\
    pools_unique (cd_pools d ++ [o]) = true /\ subs_unique (cd_subs d ++ [s]) = true /\
    d2 = put_subs (cd_subs d ++ [s])%list (put_pools (cd_pools d ++ [o])%list d).

Lemma gives_create_pool d product data : gives d (CreatePoolRow product data) (fun pool d' => exists o,
  insert_pool (pl_ID pool) (put_product product data) = Some o /\ pools_unique (cd_pools d ++ [o]) = true /\ d' = put_pools (cd_pools d ++ [o])%list d).
Proof.
  unfold CreatePoolRow. set (pp := put_product _ _).
  eapply gives_try; [by apply (gives_inserted d (TPoolsCreate pp) (fun id => insert_pool id pp) pools_unique cd_pools put_pools)|].
  cbv beta. intros id d' (_ & o & Ho & Hu & ->). apply gives_ret. by exists o.
Qed.
Lemma gives_create_sub d param : gives d (CreateSubClusterRow param) (fun _ d' => exists id s,
  insert_sub id param = Some s /\ subs_unique (cd_subs d ++ [s]) = true /\ d' = put_subs (cd_subs d ++ [s])%list d).
Proof.
  eapply gives_try; [by apply (gives_inserted d (TSubClusterCreate param) (fun id => insert_sub id param) subs_unique cd_subs put_subs)|].
  cbv beta. intros id d' (_ & s & Hs & Hu & ->). apply gives_ret. by exists id, s.
Qed.

Lemma gives_create_from d product llm name mode param cname : provider_of (Some llm) = Some name -> clp_Name param = Some cname ->
  clp_SubClusters param = None -> clp_Scheduler param = None ->
  gives d (create_from_provider cfg product llm name mode param) (fun param' d2 =>
    param' = put_scheduler (Some (default_scheduler cfg cname)) (Some [cname]) param /\ prepared product llm cname d d2).
Proof.
  intros [Hlp Hne]%provider_of_spec Hname Hsubs Hsched. unfold create_from_provider.
  eapply gives_try; [apply gives_provider_named|]. intros [p|] d' [-> Hex]; [|apply gives_err].
  destruct (Hex p eq_refl) as (r & Hr & Hrn & ->). destruct (validateClusterLLMConfigAgainstProvider _ _) eqn:Ev; [|apply gives_err..].
  apply accepted_fits in Ev. rewrite Hname. cbn [default]. destruct (poolNameJudger _ _) as [poolName|e]; [|apply gives_err].
  eapply gives_try; [apply gives_pool|]. intros [old|] d' [-> _]; [apply gives_err|].
  eapply gives_try; [apply gives_create_pool|]. cbv beta. intros pool d1 (o & Ho & Hu & ->). injection Ho as Ho.
  eapply gives_try; [apply gives_create_sub|]. cbv beta. intros u d2 (id & s & Hss & Hus & ->). injection Hss as Hss.
  apply gives_ret. rewrite Hsubs, Hsched. split; [done|]. exists r, o, s. rewrite Hrn. subst o s. done.
Qed.

Lemma NoDup_of_map {A K} (key : A -> K) l : NoDup (map key l) -> NoDup l.
Proof.
  induction l as [|x l IH]; [constructor|]. cbn. intros [H1 H2]%list.NoDup_cons. apply list.NoDup_cons. split; [|by apply IH].
  intros Hin. apply H1, elem_of_map. by exists x.
Qed.

(** The new sub-cluster is the only one of its name and product. *)
Lemma gives_new_sub d s product cname : ts_Name s = cname -> ts_ProductID s = cp_ID product -> subs_unique (cd_subs d) = true -> s ∈ cd_subs d ->
  gives d (FetchSubClusterRows (mkSubClusterFilter None (Some [cname]) None (Some product) None)) (fun l d' =>
    d' = d /\ exists sc, l = [sc] /\ sc_ID sc = ts_ID s).
Proof.
  intros Hn Hprod Hu Hin. eapply gives_weaken; [|apply gives_subs]. cbv beta. intros l d' [-> Hl]. split; [done|].
  unfold subs_unique in Hu. apply andb_true_iff in Hu as [Hu1%bool_decide_eq_true Hu2%bool_decide_eq_true].
  rewrite (filter_one _ _ s) in Hl; [|by eapply NoDup_of_map|done|..].
  - destruct l as [|sc [|]]; [done| |done]. injection Hl as Hi _ _ _. by exists sc.
  - unfold where_sub. cbn. rewrite Hn, Hprod. rewrite !bool_decide_eq_true_2; [done|done|by apply list_elem_of_singleton].
  - intros b Hb Hw. unfold where_sub in Hw. cbn in Hw. rewrite !andb_true_r in Hw.
    apply andb_true_iff in Hw as [Hw1%bool_decide_eq_true%list_elem_of_singleton Hw2%bool_decide_eq_true].
    apply (NoDup_map_same (fun r => (ts_Name r, ts_ProductID r)) (cd_subs d)); [done..|]. congruence.
Qed.

Lemma gives_bind d id sc s rows : cd_subs d = (rows ++ [s])%list -> NoDup (map ts_ID (rows ++ [s])) -> sc_ID sc = ts_ID s ->
  gives d (BindSubCluster id [sc] []) (fun _ d' =>
    subs_unique (rows ++ [put_cluster id s]) = true /\ d' = put_subs (rows ++ [put_cluster id s])%list d).
Proof.
  intros Hrows Hnd Hsc. unfold BindSubCluster. eapply gives_try; [by apply (gives_ret _ (fun _ d' => d' = d))|]. cbv beta. intros _ d' ->.
  set (q := mkTSubClusterWhere _ _ _ _ _ _ _ _).
  eapply gives_try; [by apply (gives_updated _ (TSubClusterUpdate (to_cluster id) q) (where_sub q) (assign_sub (to_cluster id)) subs_unique cd_subs put_subs)|].
  cbv beta. intros n d' [Hu ->]. apply gives_result. intros _ _.
  assert (changed (where_sub q) (assign_sub (to_cluster id)) (cd_subs d) = rows ++ [put_cluster id s])%list as Hc; [|by rewrite <- Hc].
  assert (forall r, where_sub q r = bool_decide (ts_ID r = ts_ID s)) as Hq.
  { intros r. unfold where_sub. cbn. rewrite !andb_true_r. apply bool_decide_ext. by rewrite list_elem_of_singleton, Hsc. }
  rewrite Hrows, changed_app. apply NoDup_map_snoc in Hnd as [_ Hnd]. f_equal.
  - apply changed_none. intros r Hr. rewrite Hq. apply bool_decide_eq_false_2. intros E. apply Hnd. rewrite <- E. apply elem_of_map. by exists r.
  - cbn. rewrite Hq, bool_decide_eq_true_2 by done. done.
Qed.

Lemma gives_cluster_create d product param m : clp_Scheduler param = Some m ->
  gives d (ClusterCreate product param) (fun id d' => exists c, insert_cluster id param = Some c /\
    clusters_unique (cd_clusters d ++ [c]) = true /\
    matrices_unique (without (fun r => bool_decide (tl_ClusterID r = id)) (cd_matrices d) ++ [mkTLbMatrix id (cp_ID product) m]) = true /\
    d' = put_matrices (without (fun r => bool_decide (tl_ClusterID r = id)) (cd_matrices d) ++ [mkTLbMatrix id (cp_ID product) m])%list
           (put_clusters (cd_clusters d ++ [c])%list d)).
Proof.
  intros Hm. unfold ClusterCreate. rewrite Hm. cbn [upsert_given].
  eapply gives_try; [by apply (gives_inserted d (TClusterCreate param) (fun id => insert_cluster id param) clusters_unique cd_clusters put_clusters)|].
  cbv beta. intros id d' (_ & c & Hc & Hu & ->). unfold upsertLBMatrix.
  eapply (gives_try _ _ _ (fun _ d' => matrices_unique (without (fun r => bool_decide (tl_ClusterID r = id)) (cd_matrices d) ++ [mkTLbMatrix id (cp_ID product) m]) = true /\
    d' = put_matrices (without (fun r => bool_decide (tl_ClusterID r = id)) (cd_matrices d) ++ [mkTLbMatrix id (cp_ID product) m])%list
           (put_clusters (cd_clusters d ++ [c])%list d))).
  - eapply gives_try; [by apply (gives_deleted _ (TLbMatrixDelete id) (fun r => bool_decide (tl_ClusterID r = id)) cd_matrices put_matrices)|].
    cbv beta. intros n d' ->.
    eapply gives_try; [by apply (gives_inserted _ (TLbMatrixCreate (mkTLbMatrix id (cp_ID product) m)) (fun _ => Some (mkTLbMatrix id (cp_ID product) m)) matrices_unique cd_matrices put_matrices)|].
    cbv beta. intros n' d' (_ & r & [= <-] & Hu' & ->). by apply gives_ret.
  - cbv beta. intros _ d' [Hu' ->]. apply gives_ret. by exists c.
Qed.

(** What the closure has done before it binds the sub-cluster. *)
Definition to_be_bound (product : ConfProduct) (d : cdata) (llm : LLMConfig) (cname : string) (param : ClusterParam)
  (a : Z * list SubCluster) (d' : cdata) : Prop :=
  exists p o s sc c, prepared_by d llm cname product p o s /\ a.2 = [sc] /\ sc_ID sc = ts_ID s /\
    insert_cluster a.1 (put_scheduler (Some (default_scheduler cfg cname)) (Some [cname]) param) = Some c /\
    created product d a.1 c o s (default_scheduler cfg cname) d'.
Lemma create_cluster_good d product mode param llm name cname : sound_conf cfg d ->
  clp_LLMConfig param = Some llm -> provider_of (Some llm) = Some name -> clp_Name param = Some cname ->
  clp_SubClusters param = None -> clp_Scheduler param = None ->
  hoare (at_data d) (create_body cfg product mode param) (fun r w => ids_positive w /\ (r.1 = None -> good cfg d (cw_data w))).
Proof.
  intros Hs Hl Hprov Hname Hsubs Hsched. unfold create_body.
  apply (hoare_bind _ _ _ (fun r w => ids_positive w /\ match r with Ok a => to_be_bound product d llm cname param a (cw_data w) | Err _ => True end)).
  - eapply gives_try; [apply gives_clusters|]. intros old d' [-> _]. destruct old; [|apply gives_err]. rewrite Hl, Hprov.
    eapply gives_try; [by apply (gives_create_from d product llm name mode param cname)|]. cbv beta.
    intros param' d2 (-> & p & o & s & Hp & Hlp & Hf & Hserve & Hsn & Hsprod & Hsp & Hpu & Hsu & ->). cbn [clp_SubClusters put_scheduler clp_Scheduler items default].
    eapply gives_try; [apply (gives_new_sub _ s product cname); [done|done|done|cbn; set_solver]|]. cbv beta. intros subs d2 (-> & sc & -> & Hsc).
    cbn [single_when_epp]. destruct (checkBindingSubClusters _ _ _ _); [|apply gives_err].
    eapply gives_try; [apply gives_manual|]. cbv beta. intros u d2 ->. eapply gives_try; [by apply (gives_ret _ (fun m d' => m = default_scheduler cfg cname /\ d' = put_subs (cd_subs d ++ [s])%list (put_pools (cd_pools d ++ [o])%list d)))|].
    cbv beta. intros m d2 [-> ->]. eapply gives_try; [by apply (gives_cluster_create _ _ _ (default_scheduler cfg cname))|]. cbv beta.
    intros id d2 (c & Hc & Hcu & Hmu & ->). apply gives_ret. exists p, o, s, sc, c. split; [done|]. do 3 (split; [done|]). done.
  - intros [[id subs]|e]; [|apply hoare_ret; intros w [Hw _]; by split].
    intros os w (Hw & p & o & s & sc & c & (Hp & Hlp & Hf & Hserve & Hsn & Hsprod & Hsp) & Hss & Hsc & Hc & (Hpu & Hsu & Hcu & Hmu & Hd)).
    cbn [fst snd] in *. subst subs. assert (NoDup (map ts_ID (cd_subs d ++ [s]))) as Hnd.
    { unfold subs_unique in Hsu. by apply andb_true_iff in Hsu as [Hsu%bool_decide_eq_true _]. }
    assert (cd_subs (cw_data w) = cd_subs d ++ [s])%list as Hrows by (by rewrite Hd).
    pose proof (gives_bind (cw_data w) id sc s (cd_subs d) Hrows Hnd Hsc) as Hb.
    refine (hoare_bind (at_data (cw_data w)) _ _ _ (fun r w => ids_positive w /\ (r.1 = None -> good cfg d (cw_data w))) Hb _ os w _); [|by split].
    intros [[]|e]; apply hoare_ret; [|by intros w' [Hw' _]]. intros w' (Hw' & Hu' & Hd'). split; [done|]. intros _. cbn [fst snd] in *.
    rewrite Hd', Hd. clear Hd Hd'. unfold insert_cluster in Hc. cbn in Hc. rewrite Hname in Hc.
    destruct (clp_ProductID param); [|done]. destruct (clp_PassiveHealthCheck param) as [h|]; [|done].
    destruct (khp_Host h); [|done]. destruct (khp_Uri h); [|done]. injection Hc as Hc.
    assert (tc_ID c = id /\ tc_Name c = cname /\ tc_LLMConfig c = Some llm) as (Hci & Hcn & Hcl) by (subst c; cbn; by rewrite Hname, Hl). clear Hc.
    subst id. apply (add_cluster_good cfg d c (put_cluster (tc_ID c) s) o (mkTLbMatrix (tc_ID c) (cp_ID product) (default_scheduler cfg cname)) p llm); try done.
    + split; try done. by destruct Hs as [[? _ _ _ _] _].
    + cbn. congruence.
    + cbn. by rewrite Hcn.
Qed.
End Create.

(** * Changing a cluster *)

Definition with_changed (id : Z) (param : ClusterParam) (d : cdata) : cdata :=
  put_clusters (changed (fun r => bool_decide (tc_ID r = id)) (assign_cluster param) (cd_clusters d)) d.
(** The LLM configuration that an update gives, if any, is one that the
    provider [p] fits. *)
Definition asks (param : ClusterParam) (p : TProvider) : Prop :=
  exists llm, clp_LLMConfig param = Some llm /\ lc_Provider llm = Some (tv_Name p) /\ fits llm p.

Section Change.
Context {cfg : ClusterConfig} {d : cdata} (Hs : sound_conf cfg d) (c : TCluster) (param : ClusterParam).
Hypothesis Hc : c ∈ cd_clusters d.
Hypothesis Hname : clp_Name param = Some (tc_Name c).
Hypothesis Hu : clusters_unique (cd_clusters (with_changed (tc_ID c) param d)) = true.

Lemma with_changed_row c' : c' ∈ cd_clusters (with_changed (tc_ID c) param d) -> exists c0, c0 ∈ cd_clusters d /\
  tc_ID c' = tc_ID c0 /\ tc_Name c' = tc_Name c0 /\ ((c0 = c /\ c' = assign_cluster param c) \/ (c0 <> c /\ c' = c0)).
Proof.
  intros (c0 & Hc0 & ->)%elem_of_changed. exists c0. split; [done|]. case_bool_decide as E.
  - assert (c0 = c) as -> by (by apply (cluster_by_id Hs)). cbn. rewrite Hname. by do 2 (split; [done|]); left.
  - do 2 (split; [done|]). right. split; [by intros ->|done].
Qed.

Lemma with_changed_sound : (clp_LLMConfig param = None \/ exists p, p ∈ cd_providers d /\ asks param p) ->
  sound_conf cfg (with_changed (tc_ID c) param d).
Proof.
  intros Hl. pose proof Hs as ([H1 H2 H3 H4 H5] & Hr & [L1 L2 L3 L4 L5 L6 L7]).
  assert (map tc_ID (cd_clusters (with_changed (tc_ID c) param d)) = map tc_ID (cd_clusters d)) as Hid by (by apply changed_key).
  split; [by split|]. split; [|split; rewrite ?Hid; try done].
  - intros c' l n Hc' Hl' Hn Hne. destruct (with_changed_row c' Hc') as (c0 & Hc0 & _ & _ & [[-> ->]|[_ ->]]); [|by eapply Hr].
    cbn in Hl'. destruct Hl as [Hl|(p & Hp & llm & Hl & Hlp & Hf)]; rewrite Hl in Hl'; cbn in Hl'; [by eapply Hr|].
    injection Hl' as <-. exists p. split; [done|]. split; [congruence|done].
  - intros c' s Hc' Hsub E. destruct (with_changed_row c' Hc') as (c0 & Hc0 & Hi & -> & _). apply L6; [done..|congruence].
  - intros c' m Hc' Hm E. destruct (with_changed_row c' Hc') as (c0 & Hc0 & Hi & -> & _). apply L7; [done..|congruence].
Qed.

(** An update without an LLM configuration. *)
Lemma with_changed_follow : clp_LLMConfig param = None -> pools_follow d -> pools_follow (with_changed (tc_ID c) param d).
Proof.
  intros Hl Hd c' l p s o Hc' Hl' Hp Hlp Hne Hsub Hsc. destruct (with_changed_row c' Hc') as (c0 & Hc0 & Hi & _ & Hcase).
  rewrite Hi in Hsc. assert (tc_LLMConfig c0 = Some l) as Hl0.
  { destruct Hcase as [[-> ->]|[_ ->]]; [|done]. cbn in Hl'. by rewrite Hl in Hl'. }
  by apply (Hd c0 l p s o).
Qed.
(** One with a configuration: the pool of the cluster is fed. *)
Lemma with_changed_feed p s o instances : p ∈ cd_providers d -> asks param p -> s ∈ cd_subs d -> ts_ClusterID s = tc_ID c ->
  o ∈ cd_pools d -> to_Id o = ts_PoolsID s -> EffectiveInstancePool (providerFromDAO p) = instances ->
  pools_follow d -> pools_follow (with_changed (tc_ID c) param (feed (providerInstancesToClusterInstances instances) [to_Id o] d)).
Proof.
  intros Hp (llm & Hl & Hlp & _) Hsub Hsc Ho Hos <- Hd c' l q s' o' Hc' Hl' Hq Hlq Hne Hs' Hsc' Ho' Hos'. cbn in Hq, Hs', Ho'.
  apply elem_of_changed in Ho' as (o0 & Ho0 & ->). assert (to_Id o0 = ts_PoolsID s') as Hos0 by (by case_bool_decide).
  destruct (with_changed_row c' Hc') as (c0 & Hc0 & Hi & _ & [[-> ->]|[Hneq ->]]).
  - cbn in Hl', Hsc'. assert (s' = s) as -> by (apply (sub_by_cluster Hs); [done..|congruence]).
    rewrite bool_decide_eq_true_2 by (apply list_elem_of_singleton; congruence). rewrite Hl in Hl'. cbn in Hl'. injection Hl' as <-.
    assert (q = p) as -> by (apply (provider_by_name Hs); [done..|congruence]). done.
  - rewrite bool_decide_eq_false_2; [by apply (Hd c0 l q s' o0)|]. intros E%list_elem_of_singleton. apply Hneq.
    assert (s' = s) as -> by (apply (sub_by_pool Hs); [done..|congruence]). apply (cluster_by_id Hs); [done..|congruence].
Qed.
End Change.

(** The provider that a configuration names takes its instances from
    Kubernetes. *)
Definition names_k8s (llm : option LLMConfig) (d : cdata) : Prop :=
  exists l p, llm = Some l /\ p ∈ cd_providers d /\ lc_Provider l = Some (tv_Name p) /\ tv_InstanceSource p = InstanceSourceK8sPool.

Lemma reads_models x param : all_calls conf_reading (ClusterModelUpdateChecker x param).
Proof.
  unfold ClusterModelUpdateChecker. destruct (clp_LLMConfig param); [|constructor]. destruct (removedModels _ _); [constructor|].
  apply all_calls_bind; [by apply all_calls_one|]. intros []; constructor.
Qed.
Lemma gives_cluster_update d product id param : clp_Scheduler param = None -> gives d (ClusterUpdate product id param) (fun _ d' =>
  clusters_unique (cd_clusters d') = true /\ d' = with_changed id param d).
Proof.
  intros Hsched. unfold ClusterUpdate. rewrite Hsched. eapply gives_try; [by apply (gives_ret _ (fun _ d' => d' = d))|]. cbv beta. intros _ d' ->.
  eapply gives_try; [by apply (gives_updated d (TClusterUpdate param id) (fun r => bool_decide (tc_ID r = id)) (assign_cluster param) clusters_unique cd_clusters put_clusters)|].
  cbv beta. intros n d' [Hu ->]. by apply gives_ret.
Qed.

Lemma update_cluster_good cfg d product c x param : sound_conf cfg d -> c ∈ cd_clusters d -> cluster_core x = cluster_row_core d c ->
  clp_Name param = Some (tc_Name c) -> clp_Scheduler param = None ->
  (forall llm, clp_LLMConfig param = Some llm -> exists name, provider_of (Some llm) = Some name) ->
  gives d (update_cluster_body product x param) (fun _ d' => sound_conf cfg d' /\ (~ names_k8s (clp_LLMConfig param) d -> pools_follow d -> pools_follow d')).
Proof.
  intros Hs Hc Hx Hname Hsched Hllm. destruct (owned Hs c Hc) as (s & o & Hsub & Hsc & Ho & Hos & Hcore).
  injection Hx as Hid _ _ Hsubs. rewrite Hcore in Hsubs. destruct (cl_SubClusters x) as [|sc [|]] eqn:Esc; [done| |done].
  injection Hsubs as Hi Hn Hci Hpool. destruct (sc_InstancePool sc) as [pool|] eqn:Epool; [|done]. injection Hpool as Hpid Hpn.
  unfold update_cluster_body. rewrite Esc, Hid.
  set (fedd := fun p => feed (providerInstancesToClusterInstances (items (pv_InstancePool (providerFromDAO p)))) [to_Id o] d).
  eapply (gives_try _ _ _ (fun _ d' => (clp_LLMConfig param = None /\ d' = d) \/
    exists p, p ∈ cd_providers d /\ asks param p /\ d' = fedd p)).
  - destruct (clp_LLMConfig param) as [llm|] eqn:El; [|apply gives_ret; by left]. destruct (Hllm llm eq_refl) as [name Hprov]. rewrite Hprov.
    apply provider_of_spec in Hprov as [Hlp _]. unfold update_from_provider.
    eapply gives_try; [apply gives_provider_named|]. intros [p|] d' [-> Hex]; [|apply gives_err]. destruct (Hex p eq_refl) as (r & Hr & Hrn & ->).
    destruct (validateClusterLLMConfigAgainstProvider _ _) eqn:Ev; [|apply gives_err..]. apply accepted_fits in Ev.
    rewrite Esc. cbn [first_pool]. rewrite Epool. eapply gives_weaken; [|apply gives_update_pool]. cbv beta. intros _ d' ->. right. exists r.
    split; [done|]. split; [exists llm; split; [done|]; split; [congruence|done]|]. unfold fedd, feed. f_equal. apply changed_ext. intros a _.
    apply bool_decide_ext. rewrite list_elem_of_singleton. by rewrite Hpid.
  - cbv beta. intros u d1 Hd1. eapply gives_try; [apply gives_manual|]. cbv beta. intros u1 d2 ->. cbn [single_when_epp].
    eapply gives_try; [apply gives_reading, reads_models|]. cbv beta. intros u2 d2 ->.
    eapply gives_weaken; [|by apply gives_cluster_update]. cbv beta. intros _ d2 [Hu ->]. destruct Hd1 as [[Hnone ->]|(p & Hp & Hasks & ->)].
    + split; [apply with_changed_sound; auto|]. intros _. by apply (with_changed_follow Hs).
    + assert (sound_conf cfg (fedd p)) as Hs1 by (by apply feed_sound). split; [apply with_changed_sound; try done; right; by exists p|].
      intros Hk Hd. apply (with_changed_feed Hs c param Hc Hname p s); [done..| |done].
      unfold EffectiveInstancePool. rewrite bool_decide_eq_false_2; [done|]. intros Hsrc. apply Hk. destruct Hasks as (llm & Hl & Hlp & _).
      exists llm, p. do 3 (split; [done|]). revert Hsrc. cbn -[nonempty]. unfold nonempty. by case_bool_decide.
Qed.
