(* ===== verification/ConfSpec.v ===== *)
(** What requests for providers, clusters and Kubernetes pools keep true of the
    tables, whichever of their calls fail. *)
From Stdlib Require Import ZArith Lia Ascii.
From stdpp Require Import base tactics numbers list strings gmap option.
From S2P Require Import Prelude GoStrings GoNet Prog EppConfig SharedTypes Validate ValidateSpec ProviderModel ClusterModel ProviderManager ClusterManager ConfEndpoints ConfEffect ConfSound ConfClusters.
From S2P Require AuthModel.

Local Open Scope string_scope.

#[local] Arguments for_each : simpl never.
#[local] Arguments bool_decide : simpl never.

(** * Which calls the programs make *)

Create HintDb conf.
Ltac conf_calls := repeat first [solve [auto with conf] | progress intros ? | calls_step | exact I | progress cbn [bind call]].

Lemma reading_statements {A} (p : prog confE A) : all_calls conf_reading p -> all_calls conf_statement p.
Proof. apply all_calls_weaken. by intros R []. Qed.

Lemma reads_provider f : all_calls conf_reading (FetchProviderRow f).
Proof. unfold FetchProviderRow. conf_calls. Qed.
Lemma reads_provider_rows f : all_calls conf_reading (FetchProviderRows f).
Proof. unfold FetchProviderRows. conf_calls. Qed.
Lemma reads_pools f : all_calls conf_reading (FetchPoolRows f).
Proof. unfold FetchPoolRows. conf_calls. Qed.
#[local] Hint Resolve reads_provider reads_provider_rows reads_pools : conf.
Lemma reads_subs f : all_calls conf_reading (FetchSubClusterRows f).
Proof. unfold FetchSubClusterRows. conf_calls. Qed.
#[local] Hint Resolve reads_subs : conf.
Lemma reads_clusters f : all_calls conf_reading (FetchClusterRows f).
Proof. unfold FetchClusterRows. conf_calls. Qed.
Lemma reads_k8s name : all_calls conf_reading (FetchK8sPoolRow name).
Proof. unfold FetchK8sPoolRow. conf_calls. Qed.
Lemma reads_k8s_rows : all_calls conf_reading FetchK8sPoolRows.
Proof. unfold FetchK8sPoolRows. conf_calls. Qed.
#[local] Hint Resolve reads_clusters reads_k8s reads_k8s_rows : conf.
Lemma reads_pool name : all_calls conf_reading (FetchPoolRow name).
Proof. unfold FetchPoolRow. conf_calls. Qed.
Lemma reads_log_provider action name e : all_calls conf_reading (recordProviderOperation action name e).
Proof. unfold recordProviderOperation. conf_calls. Qed.
Lemma reads_log_cluster action id name e : all_calls conf_reading (recordClusterOperation action id name e).
Proof. unfold recordClusterOperation. conf_calls. Qed.
Lemma reads_assign cfg name : all_calls conf_reading (assignClusterToEPP cfg name).
Proof. unfold assignClusterToEPP. conf_calls. Qed.
Lemma reads_product cfg : all_calls conf_reading (getDefaultProduct cfg).
Proof. unfold getDefaultProduct. conf_calls. Qed.
#[local] Hint Resolve reads_pool reads_log_provider reads_log_cluster reads_assign reads_product : conf.
Lemma reads_list f : all_calls conf_reading (ProviderManager_FetchProviderList f).
Proof. unfold ProviderManager_FetchProviderList. conf_calls. Qed.
#[local] Hint Resolve reads_list reads_models : conf.

#[local] Hint Resolve reading_statements : conf.
Lemma writes_update_pool pool p : all_calls conf_statement (UpdatePoolRow pool p).
Proof. unfold UpdatePoolRow. conf_calls. Qed.
Lemma writes_update_provider name p : all_calls conf_statement (UpdateProviderRow name p).
Proof. unfold UpdateProviderRow. conf_calls. Qed.
#[local] Hint Resolve writes_update_pool writes_update_provider : conf.
Lemma writes_sync p : all_calls conf_statement (SyncProviderEffectivePool p).
Proof.
  unfold SyncProviderEffectivePool. apply all_calls_bind; [auto with conf|]. intros [cs|e]; [|constructor].
  apply all_calls_checks. intros c _. apply all_calls_checks. intros sc _. unfold sync_pool. conf_calls.
Qed.
#[local] Hint Resolve writes_sync : conf.
Lemma writes_hooks hook old new : hook ∈ provider_hooks -> all_calls conf_statement (hook old new).
Proof.
  unfold provider_hooks. intros Hh. repeat (apply list.elem_of_cons in Hh as [->|Hh]); [..|by apply list.not_elem_of_nil in Hh];
    unfold ProviderInstancePoolSyncer, ProviderKeyRefChecker, ProviderModelRefChecker; conf_calls.
Qed.
Lemma writes_update name p : all_calls conf_statement (update_body name p provider_hooks).
Proof.
  unfold update_body. apply all_calls_bind; [auto with conf|]. intros [[e|]|e]; [|constructor..]. cbv zeta. destruct (validateProviderProtocolPaths _ _); [|constructor..].
  apply all_calls_bind; [auto with conf|]. intros [u|e']; [|constructor]. set (hooks := provider_hooks). destruct hooks eqn:E; [constructor|]. rewrite <- E.
  destruct (clusterConfigChanged _ _ _); [|constructor]. apply all_calls_checks. intros hook Hh. by apply writes_hooks.
Qed.
Lemma writes_delete_provider name : all_calls conf_statement (delete_body name [ProviderDeleteChecker]).
Proof.
  unfold delete_body. apply all_calls_bind; [auto with conf|]. intros [[e|]|e]; [|constructor..]. apply all_calls_bind.
  - apply all_calls_checks. intros ch ->%list_elem_of_singleton. unfold ProviderDeleteChecker. conf_calls.
  - unfold DeleteProviderRow. conf_calls.
Qed.
Lemma writes_mirrors name l : all_calls conf_statement (syncProviderMirrors name l).
Proof.
  unfold syncProviderMirrors. apply all_calls_bind; [auto with conf|]. intros [ps|e]; [|constructor].
  apply all_calls_checks. intros p _. unfold sync_mirror. conf_calls.
Qed.
#[local] Hint Resolve writes_mirrors : conf.
Lemma writes_replace name l : all_calls conf_statement (replace_body name l).
Proof. unfold replace_body, UpsertPool. conf_calls. Qed.
Lemma writes_delete_pool name : all_calls conf_statement (delete_pool_body name).
Proof. unfold delete_pool_body, DeleteK8sPoolRow. conf_calls. Qed.
Lemma writes_bind id l l' : all_calls conf_statement (BindSubCluster id l l').
Proof. unfold BindSubCluster. conf_calls. Qed.
Lemma writes_cluster_update product id p : all_calls conf_statement (ClusterUpdate product id p).
Proof. unfold ClusterUpdate, upsert_given, upsertLBMatrix. conf_calls. Qed.
#[local] Hint Resolve writes_bind writes_cluster_update : conf.
Lemma writes_create cfg product mode p : all_calls conf_statement (create_body cfg product mode p).
Proof. unfold create_body, create_from_provider, CreatePoolRow, CreateSubClusterRow, checkManualLB, constructDefaultScheduler, ClusterCreate, upsert_given, upsertLBMatrix. conf_calls. Qed.
Lemma writes_update_cluster product x p : all_calls conf_statement (update_cluster_body product x p).
Proof. unfold update_cluster_body, update_from_provider, checkManualLB. conf_calls. Qed.
Lemma writes_rebind cfg product x m names unbind append : all_calls conf_statement (rebind_body cfg product x m names unbind append).
Proof. unfold rebind_body. conf_calls. Qed.
Lemma writes_delete_cluster checkers product x : (forall ch, ch ∈ checkers -> all_calls conf_reading (ch product x)) ->
  all_calls conf_statement (delete_cluster_body checkers product x).
Proof.
  intros Hch. unfold delete_cluster_body. apply all_calls_bind; [apply all_calls_checks; intros ch Hin; by apply reading_statements, Hch|].
  intros [u|e]; [|constructor]. apply all_calls_bind; [apply all_calls_checks; intros sc _; unfold delete_sub, DeleteSubClusterRow, DeletePoolRow; conf_calls|].
  intros [u'|e]; [|constructor]. apply all_calls_bind; [auto with conf|]. intros [u''|e]; [|constructor]. unfold ClusterDelete. conf_calls.
Qed.

(** * Transactions that fail leave no trace *)

Lemma gives_any {A} d (p : prog confE (result A)) : gives d p (fun _ _ => True).
Proof.
  intros os w [Hw _]. split; [|by destruct (exec os p w).1].
  apply (hoare_keeps (fun _ _ => True) ids_positive p); [intros R e w' _; apply ids_positive_statement| |done].
  clear. by induction p; constructor.
Qed.
Lemma settles_after_check {A} d v record (p : prog confE (result A)) Q : (forall e, all_calls conf_reading (record e)) ->
  settles d p Q -> settles d (after_check v record p) Q.
Proof.
  intros Hr Hp. unfold after_check. destruct v; [exact Hp| |by apply settles_ret].
  by apply settles_refused.
Qed.
Lemma settles_checked {A} d v (p : prog confE (result A)) Q : (v = Accept -> settles d p Q) -> settles d (checked v p) Q.
Proof. destruct v; cbn [checked]; intros Hp; [by apply Hp|by apply settles_ret..]. Qed.

(** The closure of a creation, with the id that it leaves behind. *)
Lemma settles_create cfg ParseEppConfig decode encode ParseDuration d product p (Q : cdata -> Prop) :
  (forall mode p', p' = put_productID (cp_ID product) p \/ (exists m raw rt, p' = put_validated m raw rt (put_productID (cp_ID product) p)) ->
     hoare (at_data d) (create_body cfg product mode p') (fun r w => ids_positive w /\ (r.1 = None -> Q (cw_data w)))) ->
  settles d (CreateCluster cfg ParseEppConfig decode encode ParseDuration product p) (fun _ => Q).
Proof.
  intros Hb. unfold CreateCluster. destruct (validateClusterBalanceConfig _ _ _ _ _) as [[mode raw]|e]; [|by apply settles_ret].
  destruct (validateClusterEppRuntime _ _ _ _) as [rt|e]; [|by apply settles_ret]. cbv zeta.
  apply settles_atom; [apply writes_create|apply Hb; right; by exists mode, raw, rt| | |].
  - intros [err id]. apply all_calls_bind; [apply reads_log_cluster|]. intros u. destruct err; [constructor|]. conf_calls.
  - intros id. succeeds_go.
  - intros e id os w. by rewrite exec_bind, exec_ret.
Qed.
Lemma settles_update cfg ParseEppConfig decode encode ParseDuration d product x p (Q : cdata -> Prop) :
  (forall m raw rt, gives d (update_cluster_body product x (put_validated m raw rt p)) (fun _ => Q)) ->
  settles d (UpdateCluster cfg ParseEppConfig decode encode ParseDuration product x p) (fun _ => Q).
Proof.
  intros Hb. unfold UpdateCluster. destruct (validateClusterBalanceConfig _ _ _ _ _) as [[mode raw]|e].
  2: { apply settles_refused, reads_log_cluster. }
  destruct (validateClusterEppRuntime _ _ _ _) as [rt|e].
  2: { apply settles_refused, reads_log_cluster. }
  cbv zeta. apply settles_then_read; [|intros u; conf_calls|intros u; succeeds_go].
  apply settles_recorded; [intros e; apply reads_log_cluster|]. apply (settles_atomically d _ (fun _ => Q)); [apply writes_update_cluster|apply Hb].
Qed.

(** * Requests *)

Lemma fits_normalized l : lc_Provider (normalizeLLMConfig l) = lc_Provider l.
Proof. done. Qed.
Lemma accepted_provider l : LLMConfig_ok (Some l) = Accept -> exists name, provider_of (Some l) = Some name.
Proof.
  cbn [LLMConfig_ok]. rewrite andthen_accept, refuse_if_accept. intros [Hb _]. unfold provider_of, nonempty.
  destruct (lc_Provider l) as [n|]; cbn in *; [|done]. rewrite Hb. by exists n.
Qed.
(** A patch that gives the cluster a provider whose instances come from
    Kubernetes: it copies the pool that is maintained by hand. *)
Definition copies_manual_pool (q : conf_request) (d : cdata) : Prop :=
  match q with PatchCluster _ _ p => names_k8s (up_LLMConfig p) d | _ => False end.
(** What a request promises for the tables [d] that it finds. *)
Definition keeps_conf (cfg : ClusterConfig) (q : conf_request) (d d' : cdata) : Prop :=
  sound_conf cfg d' /\ (~ copies_manual_pool q d -> pools_follow d -> pools_follow d').

Section Requests.
Variable LoadLocation : string -> bool.
Variable cfg : ClusterConfig.
Variable ParseEppConfig : string -> result (option EppConfigSimplified).
Variable decodeEppRuntime : string -> option EppRuntimeParam.
Variable encodeEppRuntime : EppRuntimeParam -> string.
Variable ParseDuration : string -> option Z.
Variable visitor : result AuthModel.Visitor.
Variable deleteCheckers : list (ConfProduct -> Cluster -> prog confE (result unit)).
Hypothesis Hcheckers : forall ch product c, ch ∈ deleteCheckers -> all_calls conf_reading (ch product c).

#[local] Notation respond := (respond LoadLocation cfg ParseEppConfig decodeEppRuntime encodeEppRuntime ParseDuration visitor deleteCheckers).

(** ** Providers *)

Lemma settles_create_provider d param Q :
  (forall name p, gives d (existing <-? FetchProviderRow (byProviderName name) ;;
    match existing with Some _ => Ret (Err (RecordExisted "provider")) | None => CreateProviderRow p end) Q) ->
  settles d (ProviderManager_CreateProvider LoadLocation param) Q.
Proof.
  intros Hb. apply settles_after_check; [intros e; apply reads_log_provider|]. apply settles_recorded; [intros e; apply reads_log_provider|].
  apply settles_atomically; [unfold CreateProviderRow; conf_calls|apply Hb].
Qed.
Lemma settles_update_provider d name param Q : gives d (update_body name (validated param) provider_hooks) Q ->
  settles d (ProviderManager_UpdateProvider LoadLocation name param provider_hooks) Q.
Proof.
  intros Hb. apply settles_after_check; [intros e; apply reads_log_provider|]. apply settles_recorded; [intros e; apply reads_log_provider|].
  apply settles_atomically; [apply writes_update|exact Hb].
Qed.
Lemma settles_pricing d name param Q :
  gives d (existing <-? FetchProviderRow (byProviderName name) ;;
           match existing with None => Ret (Err (RecordNotExist "provider")) | Some existing => UpdateProviderRow name (pricing_update existing param) end) Q ->
  settles d (UpdatePricingTiers LoadLocation name param) Q.
Proof.
  intros Hb. apply settles_after_check; [intros e; apply reads_log_provider|]. apply settles_recorded; [intros e; apply reads_log_provider|].
  apply settles_atomically; [conf_calls|exact Hb].
Qed.
Lemma settles_delete_provider d name Q : gives d (delete_body name [ProviderDeleteChecker]) Q ->
  settles d (ProviderManager_DeleteProvider name [ProviderDeleteChecker]) Q.
Proof.
  intros Hb. apply settles_recorded; [intros e; apply reads_log_provider|]. apply settles_atomically; [apply writes_delete_provider|exact Hb].
Qed.
Lemma settles_replace d name l Q : gives d (replace_body name l) Q -> settles d (atomically (replace_body name l)) Q.
Proof. intros Hb. apply settles_atomically; [apply writes_replace|exact Hb]. Qed.
Lemma settles_delete_cluster d product x Q : gives d (delete_cluster_body deleteCheckers product x) Q ->
  settles d (DeleteCluster deleteCheckers product x) Q.
Proof.
  intros Hb. apply settles_recorded; [intros e; apply reads_log_cluster|]. apply settles_atomically; [|exact Hb].
  apply writes_delete_cluster. intros ch Hin. by apply Hcheckers.
Qed.

(** A check, then a request. *)
Lemma leads_checked {A} d v (p : prog confE (result A)) (I : cdata -> Prop) : I d -> (v = Accept -> leads d p I) -> leads d (checked v p) I.
Proof.
  intros Hd Hp. destruct v; cbn [checked]; [by apply Hp|..]; apply hoare_ret; by intros w [Hw ->].
Qed.
(** What follows only reads. *)
Lemma leads_then_read {A B} d (p : prog confE (result A)) (f : A -> prog confE (result B)) Q (I : cdata -> Prop) :
  I d -> settles d p Q -> (forall a d', Q a d' -> I d') -> (forall a, all_calls conf_reading (f a)) -> leads d (a <-? p ;; f a) I.
Proof. intros Hd Hp HQ Hf. eapply leads_then; [exact Hd|exact Hp|exact HQ|]. intros a d' Ha. apply leads_reading; [by eapply HQ|apply Hf]. Qed.

(** The cluster that a request names, as its rows are. *)
Lemma settles_atomic_clusters d f : settles d (FetchClusterList f) (fun l d' => d' = d /\
  map cluster_core l = map (cluster_row_core d) (List.filter (where_cluster f) (cd_clusters d))).
Proof. apply settles_atomically; [apply reading_statements, reads_clusters|apply gives_clusters]. Qed.
Lemma settles_the_cluster d product name : settles d (the_cluster product name) (fun x d' => d' = d /\
  exists c, c ∈ cd_clusters d /\ tc_Name c = name /\ cluster_core x = cluster_row_core d c).
Proof.
  unfold the_cluster, FetchCluster. apply (settles_after _ _ _
    (fun o => forall x, o = Some x -> exists c, c ∈ cd_clusters d /\ tc_Name c = name /\ cluster_core x = cluster_row_core d c)).
  - eapply settles_after; [apply settles_atomic_clusters|]. intros l Hl. apply settles_ret. intros o [= <-]. split; [done|]. intros x Hx.
    destruct l as [|y l]; [done|]. injection Hx as ->. destruct (List.filter _ _) as [|c rows] eqn:E; [done|]. cbn [map] in Hl. injection Hl as H1 H2 H3 H4 _.
    exists c. assert (c ∈ List.filter (where_cluster (mkClusterFilter None (Some name) (Some product) [])) (cd_clusters d)) as (Hc & Hw)%elem_of_filter_bool by (rewrite E; left).
    unfold where_cluster in Hw. cbn in Hw. rewrite !andb_true_iff in Hw. destruct Hw as [[Hw%bool_decide_eq_true _] _]. split; [done|]. split; [done|]. unfold cluster_core, cluster_row_core. by rewrite H1, H2, H3, H4.
  - intros o Ho. apply settles_ret. intros x Hx. destruct o as [y|]; [|done]. injection Hx as <-. split; [done|]. by apply Ho.
Qed.

(** ** The promise, request by request *)

Lemma leads_create d p : sound_conf cfg d -> leads d (PostProviderAction LoadLocation p) (good cfg d).
Proof.
  intros Hs. apply (leads_then_read _ _ _ (fun _ => good cfg d)); [by apply good_same| |done|intros id; apply reads_provider].
  apply settles_create_provider. intros name param. by apply create_provider_good.
Qed.
Lemma leads_patch d name has p : sound_conf cfg d -> leads d (PatchProviderAction LoadLocation name has p) (good cfg d).
Proof.
  intros Hs. apply leads_checked; [by apply good_same|]. intros _.
  apply (leads_then_read _ _ _ (fun _ => good cfg d)); [by apply good_same| |done|intros u; apply reads_provider].
  apply settles_update_provider. by apply update_body_good.
Qed.
Lemma leads_pricing d name p : sound_conf cfg d -> leads d (PutPricingTiersAction LoadLocation name p) (good cfg d).
Proof.
  intros Hs. apply leads_checked; [by apply good_same|]. intros _.
  apply (leads_then_read _ _ _ (fun _ => good cfg d)); [by apply good_same| |done|intros u; apply reads_provider].
  apply settles_pricing. by apply pricing_good.
Qed.
Lemma leads_delete_provider d name : sound_conf cfg d -> leads d (DeleteProviderAction name) (good cfg d).
Proof.
  intros Hs. apply leads_checked; [by apply good_same|]. intros _.
  apply (leads_settles _ _ (fun _ => good cfg d)); [by apply good_same|done|]. apply settles_delete_provider. by apply delete_body_good.
Qed.
(** What follows only reads, whatever came before. *)
Lemma leads_bind_read {A B} d (p : prog confE A) (f : A -> prog confE B) (I : cdata -> Prop) :
  leads d p I -> (forall a, all_calls conf_reading (f a)) -> leads d (a <- p ;; f a) I.
Proof.
  intros Hp Hf. eapply hoare_bind; [exact Hp|]. intros a os w [Hw HI].
  destruct (reading_keeps (cw_data w) (f a) (Hf a) os w) as [Hw' Hd]; [done|]. split; [done|]. by rewrite Hd.
Qed.
Lemma leads_quiet {A} d (p : prog confE (result A)) (F : A -> Prop) (I : cdata -> Prop) : I d -> settles d p (fun a d' => d' = d /\ F a) -> leads d p I.
Proof. intros Hd. apply leads_settles; [done|]. by intros a d' [-> _]. Qed.
Lemma settles_product d : settles d (getDefaultProduct cfg) (fun _ d' => d' = d /\ True).
Proof. apply settles_reading; [apply reads_product|]. eapply gives_weaken; [|apply gives_reading, reads_product]. by cbv beta. Qed.
Lemma settles_fetch_cluster d f : settles d (FetchCluster f) (fun _ d' => d' = d /\ True).
Proof. eapply settles_after; [apply settles_atomic_clusters|]. intros l _. apply settles_ret. by split. Qed.

Lemma leads_put_pool d name l : sound_conf cfg d -> leads d (PutK8sPoolAction name l) (good cfg d).
Proof.
  intros Hs. apply leads_checked; [by apply good_same|]. intros _. destruct (ValidateInstances l) as [instances|e]; [|apply leads_reading; [by apply good_same|constructor]].
  apply leads_bind_read; [|intros [[pool|]|e]; constructor].
  apply (leads_then_read _ _ _ (fun _ => good cfg d)); [by apply good_same| |done|intros u; apply reads_k8s].
  apply settles_replace. by apply replace_good.
Qed.
Lemma leads_delete_pool d name : sound_conf cfg d -> leads d (DeleteK8sPoolAction name) (good cfg d).
Proof.
  intros Hs. apply leads_checked; [by apply good_same|]. intros _. unfold K8s_DeletePool.
  eapply (leads_then _ _ _ (fun _ d' => d' = d)); [by apply good_same|apply settles_reading; [apply reads_k8s|apply gives_reading, reads_k8s]|by intros ? ? ->|].
  intros [pool|] d' ->; [|apply leads_reading; [by apply good_same|constructor]].
  apply (leads_settles _ _ (fun _ => good cfg d)); [by apply good_same|done|].
  apply settles_atomically; [apply writes_delete_pool|by apply delete_pool_good].
Qed.

Lemma leads_post_cluster d p : sound_conf cfg d ->
  leads d (PostClusterAction cfg ParseEppConfig decodeEppRuntime encodeEppRuntime ParseDuration p) (good cfg d).
Proof.
  intros Hs. apply leads_checked; [by apply good_same|]. intros Hv.
  destruct (up_LLMConfig p) as [llm|] eqn:El; [|apply leads_reading; [by apply good_same|constructor]].
  assert (exists name, provider_of (Some llm) = Some name) as [name Hn].
  { unfold UpsertParam_Validate in Hv. rewrite !andthen_accept in Hv. destruct Hv as (_ & _ & _ & _ & _ & _ & Hv). rewrite El in Hv. by apply accepted_provider. }
  assert (exists cname, up_Name p = Some cname) as [cname Hc].
  { unfold UpsertParam_Validate in Hv. rewrite andthen_accept, refuse_if_accept in Hv. destruct Hv as [Hv _]. destruct (up_Name p); [by eexists|done]. }
  eapply leads_then; [by apply good_same|apply settles_product|by intros ? ? [-> _]|]. intros product d' [-> _]. cbv zeta.
  eapply leads_then; [by apply good_same| | |].
  - apply (settles_create _ _ _ _ _ _ _ _ (good cfg d)). intros mode p' Hp'.
    apply (create_cluster_good cfg d product mode p' (normalizeLLMConfig llm) name cname); [done|..];
      destruct Hp' as [->|(m & raw & rt & ->)]; cbn; rewrite ?El, ?Hc; done.
  - by intros ? d' Hd'.
  - intros u d' Hg. cbv beta in Hg. eapply leads_then; [exact Hg|apply settles_fetch_cluster|by intros ? ? [-> _]|]. intros c d2 [-> _].
    apply leads_reading; [exact Hg|constructor].
Qed.
Lemma leads_delete_cluster d name : sound_conf cfg d -> leads d (DeleteClusterAction cfg deleteCheckers name) (good cfg d).
Proof.
  intros Hs. apply leads_checked; [by apply good_same|]. intros Hv. eapply leads_then; [by apply good_same|apply settles_product|by intros ? ? [-> _]|]. intros product d' [-> _].
  eapply leads_then; [by apply good_same|apply settles_the_cluster|by intros ? ? [-> _]|]. intros x d' (-> & c & Hc & _ & Hx).
  apply (leads_then_read _ _ _ (fun _ => good cfg d)); [by apply good_same| |done|intros u; constructor].
  apply settles_delete_cluster. by eapply delete_cluster_good.
Qed.
Lemma leads_patch_cluster d name has p : sound_conf cfg d ->
  leads d (PatchClusterAction cfg ParseEppConfig decodeEppRuntime encodeEppRuntime ParseDuration name has p) (keeps_conf cfg (PatchCluster name has p) d).
Proof.
  intros Hs. assert (keeps_conf cfg (PatchCluster name has p) d d) as Hd by (by split). apply leads_checked; [done|]. intros Hv.
  eapply leads_then; [done|apply settles_product|by intros ? ? [-> _]|]. intros product d' [-> _].
  eapply leads_then; [done|apply settles_the_cluster|by intros ? ? [-> _]|]. intros x d' (-> & c & Hc & Hn & Hx).
  eapply leads_then; [done| | |].
  - apply (settles_update _ _ _ _ _ _ _ _ _ (keeps_conf cfg (PatchCluster name has p) d)). intros m raw rt.
    eapply gives_weaken; [|apply (update_cluster_good cfg d product c x); [done|done|done|cbn; by rewrite Hn|done|]].
    + cbv beta. intros _ d' [H1 H2]. split; [done|]. intros Hk. apply H2. intros (l & q & Hl & Hq & Hlq & Hsrc). apply Hk.
      cbn in Hl |- *. destruct (up_LLMConfig p) as [l0|]; [|done]. injection Hl as <-. by exists l0, q.
    + cbn. intros llm Hl. destruct (up_LLMConfig p) as [l0|] eqn:El; [|done]. injection Hl as <-.
      unfold UpsertParam_Validate in Hv. rewrite !andthen_accept in Hv. destruct Hv as (_ & _ & _ & _ & _ & _ & _ & Hv). cbn in Hv. rewrite El in Hv. exact (accepted_provider l0 Hv).
  - by intros ? d' Hd'.
  - intros u d' Hg. cbv beta in Hg. eapply leads_then; [exact Hg|apply settles_fetch_cluster|by intros ? ? [-> _]|]. intros o d2 [-> _].
    apply leads_reading; [exact Hg|constructor].
Qed.

Lemma leads_respond d q : sound_conf cfg d -> leads d (respond q) (keeps_conf cfg q d).
Proof.
  intros Hs. assert (keeps_conf cfg q d d) as Hd by (by split).
  assert (forall A (p : prog confE A), leads d p (good cfg d) -> leads d p (keeps_conf cfg q d)) as Hgood.
  { intros A p. apply hoare_post. intros r w [Hw [H1 H2]]. split; [done|]. by split. }
  assert (forall A (f : A -> conf_answer) (p : prog confE (result A)), leads d p (keeps_conf cfg q d) -> leads d (answered f p) (keeps_conf cfg q d)) as Hans.
  { intros A f p. apply leads_map. }
  destruct q; cbn [ConfEndpoints.respond]; apply Hans.
  - by apply Hgood, leads_create.
  - by apply Hgood, leads_patch.
  - by apply Hgood, leads_pricing.
  - by apply Hgood, leads_delete_provider.
  - apply leads_reading; [exact Hd|]. unfold GetProviderAction, checked. conf_calls.
  - apply leads_reading; [exact Hd|]. unfold GetProvidersAction. conf_calls.
  - apply leads_reading; [exact Hd|]. unfold GetProviderNamesAction, ListProviderNames, FetchProviderNames. conf_calls.
  - by apply Hgood, leads_post_cluster.
  - by apply leads_patch_cluster.
  - by apply Hgood, leads_delete_cluster.
  - apply leads_checked; [done|]. intros _. eapply leads_then; [done|apply settles_product|by intros ? ? [-> _]|]. intros product d' [-> _].
    eapply leads_then; [done|apply settles_the_cluster|by intros ? ? [-> _]|]. intros x d' [-> _]. apply leads_reading; [done|constructor].
  - eapply leads_then; [done|apply settles_product|by intros ? ? [-> _]|]. intros product d' [-> _].
    eapply leads_then; [done|apply settles_atomic_clusters|by intros ? ? [-> _]|]. intros x d' [-> _]. apply leads_reading; [done|constructor].
  - by apply Hgood, leads_put_pool.
  - by apply Hgood, leads_delete_pool.
  - apply leads_reading; [exact Hd|]. unfold GetK8sPoolAction, checked, K8s_FetchPool. conf_calls.
  - apply leads_reading; [exact Hd|]. unfold GetK8sPoolsAction, K8s_FetchPoolList. conf_calls.
Qed.
End Requests.
