(* ===== verification/ConfHistory.v ===== *)
(** Histories of requests for providers, clusters and Kubernetes pools. *)
From Stdlib Require Import ZArith Lia Ascii.
From stdpp Require Import base tactics numbers list strings gmap option.
From S2P Require Import Prelude GoStrings GoNet Prog EppConfig SharedTypes Validate ValidateSpec ProviderModel ClusterModel ProviderManager ClusterManager ConfEndpoints ConfEffect ConfSound ConfClusters ConfSpec.
From S2P Require AuthModel.

Local Open Scope string_scope.

(** * Histories *)


Lemma gives_settles {A} d (p : prog confE (result A)) Q : settles d p Q -> gives d p Q.
Proof. intros Hp os w Hw. specialize (Hp os w Hw). destruct (exec os p w) as [[a|e] w']; destruct Hp as [Hpos H]; by split. Qed.

Lemma gives_answered {A} d (f : A -> conf_answer) p (Q : cdata -> Prop) : gives d p (fun _ => Q) -> gives d (answered f p) (fun _ => Q).
Proof. intros Hp. eapply hoare_bind; [exact Hp|]. intros [a|e]; by apply hoare_ret. Qed.

Section Histories.
Variable LoadLocation : string -> bool.
Variable cfg : ClusterConfig.
Variable ParseEppConfig : string -> result (option EppConfigSimplified).
Variable decodeEppRuntime : string -> option EppRuntimeParam.
Variable encodeEppRuntime : EppRuntimeParam -> string.
Variable ParseDuration : string -> option Z.
Variable visitor : result AuthModel.Visitor.
Variable deleteCheckers : list (ConfProduct -> Cluster -> prog confE (result unit)).
Hypothesis Hcheckers : forall ch product c, ch ∈ deleteCheckers -> all_calls conf_reading (ch product c).

#[local] Notation respond := (respond LoadLocation cfg ParseEppConfig decodeEppRuntime encodeEppRuntime ParseDuration visitor deleteCheckers).
#[local] Notation respond_all := (respond_all LoadLocation cfg ParseEppConfig decodeEppRuntime encodeEppRuntime ParseDuration visitor deleteCheckers).

Lemma history_sound history w : ids_positive w -> sound_conf cfg (cw_data w) ->
  ids_positive (respond_all history w) /\ sound_conf cfg (cw_data (respond_all history w)).
Proof.
  revert w. induction history as [|[q os] history IH]; intros w Hw Hs; [done|]. cbn [ConfEndpoints.respond_all].
  destruct (leads_respond LoadLocation cfg ParseEppConfig decodeEppRuntime encodeEppRuntime ParseDuration visitor deleteCheckers Hcheckers (cw_data w) q Hs os w) as [Hw' [Hs' _]]; [done|].
  by apply IH.
Qed.
(** Without patches of clusters the pools follow as well. *)
Definition no_patch (q : conf_request) : Prop := match q with PatchCluster _ _ _ => False | _ => True end.
Lemma history_follow history w : ids_positive w -> sound_conf cfg (cw_data w) -> Forall no_patch (map fst history) ->
  pools_follow (cw_data w) -> pools_follow (cw_data (respond_all history w)).
Proof.
  revert w. induction history as [|[q os] history IH]; intros w Hw Hs Hq Hf; [done|]. cbn [ConfEndpoints.respond_all map fst] in *.
  apply list.Forall_cons in Hq as [Hq Hh].
  destruct (leads_respond LoadLocation cfg ParseEppConfig decodeEppRuntime encodeEppRuntime ParseDuration visitor deleteCheckers Hcheckers (cw_data w) q Hs os w) as [Hw' [Hs' Hf']]; [done|].
  apply IH; [done..|]. apply Hf'; [|exact Hf]. destruct q; cbn in *; tauto.
Qed.

(** C9: the tables of providers, clusters, sub-clusters, pools and
    matrices stay sound through every history of requests that are served one
    after the other, whichever calls fail: keys are unique; every cluster that names a provider names one that
    exists and has the models and the keys that the cluster asks for; every
    cluster has exactly one sub-cluster, of its own name, which has exactly one
    pool, and one matrix, which sends all traffic to that sub-cluster; and
    there is no sub-cluster, pool or matrix without its cluster. *)
Theorem conf_tables_stay_sound history w :
  ids_positive w -> sound_conf cfg (cw_data w) -> sound_conf cfg (cw_data (respond_all history w)).
Proof. intros Hw Hs. by apply history_sound. Qed.

(** C10: the pool of a cluster holds the instances of the provider that
    the cluster names, by whichever way it gets them.  Every request keeps
    that true, whichever of its calls fail, but one: a patch of a cluster that
    names a provider whose instances come from Kubernetes. *)
Theorem pools_follow_providers q os w :
  ids_positive w -> sound_conf cfg (cw_data w) -> pools_follow (cw_data w) -> ~ copies_manual_pool q (cw_data w) ->
  pools_follow (cw_data (exec os (respond q) w).2).
Proof.
  intros Hw Hs Hf Hq.
  destruct (leads_respond LoadLocation cfg ParseEppConfig decodeEppRuntime encodeEppRuntime ParseDuration visitor deleteCheckers Hcheckers (cw_data w) q Hs os w) as [_ [_ H]]; [done|].
  by apply H.
Qed.

(** C11: a report of the instances of a Kubernetes pool that is accepted
    reaches everyone at once, in whatever state the tables were: the pool in
    its table, the mirrors of all providers that take their instances from it,
    and the pools of all clusters that name such a provider. *)
Theorem k8s_report_reaches_everyone name params os w a :
  ids_positive w -> (exec os (respond (PutK8sPool name params)) w).1 = Ok a ->
  exists l, ValidateInstances params = Ok l /\
    pool_saved name l (cw_data (exec os (respond (PutK8sPool name params)) w).2) /\
    mirrors_filled name l (cw_data (exec os (respond (PutK8sPool name params)) w).2) /\
    clusters_filled name l (cw_data (exec os (respond (PutK8sPool name params)) w).2).
Proof.
  intros Hw Ha.
  assert (gives (cw_data w) (respond (PutK8sPool name params)) (fun _ d' => exists l, ValidateInstances params = Ok l /\ report_arrived name l d')) as Hg.
  { cbn [ConfEndpoints.respond]. apply gives_answered.
    unfold PutK8sPoolAction, checked. destruct (poolNameFromPath name); [|apply gives_err..].
    destruct (ValidateInstances params) as [l|e]; [|apply gives_err]. eapply gives_try.
    - unfold ReplaceInstances. eapply gives_try; [apply gives_settles, settles_replace, replace_arrives|]. intros u d' Hd'. cbv beta in Hd'.
      eapply gives_weaken; [|apply gives_reading, reads_k8s]. intros x d2 ->. exact Hd'.
    - cbv beta. intros x d' Hd'. apply gives_result. intros y _. by exists l. }
  destruct (Hg os w (conj Hw eq_refl)) as [_ H]. by rewrite Ha in H.
Qed.

End Histories.

(** * Pricing tiers *)

(** A range counts at a minute of a day; without weekdays it counts every day. *)
Definition covers (tr : TimeRange) (weekday minute : Z) : Prop :=
  (tr_Weekdays tr = [] \/ weekday ∈ tr_Weekdays tr) /\
  exists start stop, parseHHMM (tr_Start tr) = Some start /\ parseHHMM (tr_End tr) = Some stop /\ (start <= minute < stop)%Z.
(** A range that begins before it ends, both on one day, on weekdays that are
    listed once. *)
Definition within_day (tr : TimeRange) : Prop :=
  NoDup (tr_Weekdays tr) /\ (forall wd, wd ∈ tr_Weekdays tr -> 0 <= wd <= 6)%Z /\
  exists start stop, parseHHMM (tr_Start tr) = Some start /\ parseHHMM (tr_End tr) = Some stop /\ (0 <= start < stop)%Z /\ (stop < 24 * 60)%Z.

Lemma parseHHMM_bounds s m : parseHHMM s = Some m -> (0 <= m < 24 * 60)%Z.
Proof.
  unfold parseHHMM. destruct (_ || _); [done|]. destruct (ParseInt _) as [h|]; [|done]. destruct (ParseInt _) as [n|]; [|done].
  destruct ((h <? 0) || (23 <? h) || (n <? 0) || (59 <? n))%Z eqn:E; [done|]. intros [= <-].
  rewrite !orb_false_iff, !Z.ltb_ge in E. lia.
Qed.
Lemma weekdays_accept l seen_days : fst (check_each check_weekday l seen_days) = Accept <->
  Forall (fun wd => 0 <= wd <= 6)%Z l /\ NoDup (map id l) /\ (forall x, x ∈ map id l -> x ∉ id seen_days).
Proof.
  apply (check_each_keys check_weekday (fun wd => 0 <= wd <= 6)%Z id id).
  - intros wd s. unfold check_weekday. cbn [fst id]. rewrite andthen_accept, !refuse_if_accept, orb_false_iff, !Z.ltb_ge, bool_decide_eq_false. unfold id.
    split; intros [H1 H2]; (split; [lia|done]).
  - done.
Qed.
Lemma range_accept tr : validateTimeRange tr = Accept -> within_day tr.
Proof.
  unfold validateTimeRange. rewrite andthen_accept, weekdays_accept, map_id. intros [(Hwd & Hnd & _) Ht].
  destruct (parseHHMM (tr_Start tr)) as [start|] eqn:E1; [|done]. destruct (parseHHMM (tr_End tr)) as [stop|] eqn:E2; [|done].
  rewrite refuse_if_accept, Z.leb_gt in Ht. apply parseHHMM_bounds in E1 as B1, E2 as B2. split; [done|]. split; [by rewrite list.Forall_forall in Hwd|].
  exists start, stop. split; [done|]. split; [done|]. lia.
Qed.
Lemma no_overlap a b wd m : timeRangesOverlap a b = false -> covers a wd m -> covers b wd m -> False.
Proof.
  unfold timeRangesOverlap. intros Ho [Ha (sa & ea & Hsa & Hea & Hma)] [Hb (sb & eb & Hsb & Heb & Hmb)].
  rewrite Hsa, Hea, Hsb, Heb in Ho. cbn [from_option] in Ho; unfold id in Ho. cbv zeta in Ho.
  destruct (negb _) eqn:E in Ho.
  - apply negb_true_iff in E. rewrite !orb_false_iff in E. destruct E as [[E1 E2] E3]. apply Nat.eqb_neq in E1, E2.
    destruct Ha as [Ha|Ha]; [by rewrite Ha in E1|]. destruct Hb as [Hb|Hb]; [by rewrite Hb in E2|].
    apply not_true_iff_false in E3. apply E3, existsb_exists. exists wd. split; [by apply list_elem_of_In|]. apply existsb_exists. exists wd.
    split; [by apply list_elem_of_In|]. apply Z.eqb_refl.
  - rewrite andb_false_iff, !Z.ltb_ge in Ho. lia.
Qed.
Lemma ranges_accept l s : fst (check_each check_range l s) = Accept ->
  Forall within_day l /\ (forall i j a b, i < j -> l !! i = Some a -> l !! j = Some b -> timeRangesOverlap b a = false) /\
  (forall a b, a ∈ l -> b ∈ snd s -> timeRangesOverlap a b = false).
Proof.
  revert s. induction l as [|tr l IH]; intros [keys before]; cbn [check_each].
  { intros _. split; [constructor|]. split; [by intros [] ? ? ?|by intros ? ? []%list.not_elem_of_nil]. }
  unfold check_range at 1. destruct (_ &> _) eqn:E; [|done..]. rewrite !andthen_accept, wrapped_accept, !refuse_if_accept in E. destruct E as (_ & Hr & Ho).
  intros H. apply IH in H as (H1 & H2 & H3). cbn [snd] in *. split; [constructor; [by apply range_accept|done]|]. split.
  - intros [|i] [|j] a b Hij Ha Hb; [lia| |lia|].
    + cbn in Ha, Hb. injection Ha as <-. apply H3; [by apply list_elem_of_lookup_2 in Hb|]. set_solver.
    + cbn in Ha, Hb. by apply (H2 i j); [lia|..].
  - intros a b Ha Hb. apply list.elem_of_cons in Ha as [->|Ha].
    + apply not_true_iff_false. intros Ht. apply not_true_iff_false in Ho. apply Ho, existsb_exists. exists b. split; [by apply list_elem_of_In|done].
    + apply H3; [done|]. set_solver.
Qed.
Definition good_tier (t : PricingTier) : Prop :=
  pt_Name t = "peak" /\ pt_TimeRanges t <> [] /\ fst (check_each check_range (pt_TimeRanges t) ([], [])) = Accept.
Lemma tier_accept t s : fst (check_tier t s) = Accept <-> good_tier t /\ pt_Name t ∉ s.
Proof.
  unfold check_tier, good_tier. cbn [fst]. rewrite !andthen_accept, !refuse_if_accept, negb_false_iff, seen_false, bool_decide_eq_true, bool_decide_eq_false, Nat.eqb_neq.
  split; [|intros ((-> & H & ?) & ?)]; [intros (? & ? & ? & H & ?)|]; repeat split; try done; try (by destruct (pt_TimeRanges t)).
Qed.

(** Of the pricing tiers that are accepted there is at most one, the
    peak tier; each of its ranges begins before it ends within one day, on
    weekdays that are listed once; and no minute of any weekday is covered by
    two of its ranges. *)
Theorem pricing_tiers_disjoint tiers : validatePricingTiers tiers = Accept ->
  length tiers <= 1 /\
  forall t, t ∈ tiers -> pt_Name t = "peak" /\ pt_TimeRanges t <> [] /\ Forall within_day (pt_TimeRanges t) /\
    forall i j a b weekday minute, pt_TimeRanges t !! i = Some a -> pt_TimeRanges t !! j = Some b ->
      covers a weekday minute -> covers b weekday minute -> i = j.
Proof.
  unfold validatePricingTiers. rewrite (check_each_keys check_tier good_tier pt_Name id) by (exact tier_accept || done).
  intros (Hg & Hn & _). rewrite list.Forall_forall in Hg. split.
  - destruct tiers as [|t [|t' l]]; cbn; [lia..|]. exfalso. destruct (Hg t) as [H1 _]; [left|]. destruct (Hg t') as [H2 _]; [right; left|].
    cbn in Hn. apply list.NoDup_cons in Hn as [Hn _]. apply Hn. rewrite H1, H2. left.
  - intros t Ht. destruct (Hg t Ht) as (H1 & H2 & H3). apply ranges_accept in H3 as (H3 & H4 & _). split; [done|]. split; [done|]. split; [done|].
    intros i j a b wd m Ha Hb Hca Hcb. destruct (Nat.lt_trichotomy i j) as [Hij|[Hij|Hij]]; [|done|]; exfalso.
    + by apply (no_overlap b a wd m); [by apply (H4 i j)|..].
    + by apply (no_overlap a b wd m); [by apply (H4 j i)|..].
Qed.

(** * A sample *)

Definition sample_conf_cfg : ClusterConfig := mkClusterConfig "AI.gateway" true "AI" true.
(** Texts of EPP columns are refused, durations are not used. *)
Definition no_epp (s : string) : result (option EppConfigSimplified) := if bool_decide (s = "") then Ok None else Err (PlainError "syntax").
Definition no_runtime (s : string) : option EppRuntimeParam := None.
Definition runtime_text (p : EppRuntimeParam) : string := "{}".
Definition no_duration (s : string) : option Z := None.
Definition delete_checkers : list (ConfProduct -> Cluster -> prog confE (result unit)) := [RouteRules_ClusterDeleteChecker; RouteRule_ClusterDeleteChecker].
Definition sample_respond : conf_request -> prog confE (result conf_answer) :=
  respond (fun _ => true) sample_conf_cfg no_epp no_runtime runtime_text no_duration (Err (PlainError "nobody")) delete_checkers.
Definition sample_requests (l : list conf_request) (w : cworld) : cworld :=
  respond_all (fun _ => true) sample_conf_cfg no_epp no_runtime runtime_text no_duration (Err (PlainError "nobody")) delete_checkers
    (map (fun q => (q, [])) l) w.

Definition empty_conf : cdata := mkCData [] [] [] [] [] [].
Definition first_conf : cworld :=
  mkCWorld empty_conf None (mkCStatic [] [] [] [mkConfProduct 1 "AI"] [mkBFECluster "AI.gateway" "AI.pool"]) 1 [] [].

Definition host (addr : string) : ProviderInstance := mkProviderInstance addr 443 100 false.
Definition manual_provider (name : string) : ProviderParam :=
  mkProviderParam (Some name) None None (Some ["gpt-4"; "gpt-5"]) (Some [mkProviderKey "main" "sk-1"]) (Some [host "api.example.com"])
    None None None (Some ["openai"]) None None None.
Definition k8s_provider (name : string) : ProviderParam :=
  mkProviderParam (Some name) None None (Some ["llama"]) (Some []) None (Some InstanceSourceK8sPool) (Some "llama-pods") None (Some ["openai"]) None None None.
Definition llm_of (provider : string) (models : list string) (keys : list ClusterKeyRef) : LLMConfig :=
  mkLLMConfig models [] keys None None None (Some provider) None None.
Definition cluster_request (name provider : string) (models : list string) (keys : list ClusterKeyRef) : UpsertParam :=
  mkUpsert (Some name) None None None None (Some (llm_of provider models keys)) None None None.

Definition sample_setup : list conf_request :=
  [PostProvider (manual_provider "openai"); PostProvider (k8s_provider "pods");
   PostCluster (cluster_request "chat" "openai" ["gpt-4"] []); PostCluster (cluster_request "local" "pods" ["llama"] []);
   PutK8sPool "llama-pods" [mkInstanceParam (Some "10.0.0.1") (Some 8000%Z) None]].
Definition sample_conf : cworld := sample_requests sample_setup first_conf.

Lemma empty_sound cfg : sound_conf cfg empty_conf.
Proof.
  split; [by split|]. split; [by intros ? ? ? []%list.not_elem_of_nil|].
  split; cbn; try constructor; try done; try (by intros ? ? []%list.not_elem_of_nil).
Qed.
Lemma first_positive : ids_positive first_conf.
Proof. done. Qed.
Lemma checkers_read ch product c : ch ∈ delete_checkers -> all_calls conf_reading (ch product c).
Proof.
  unfold delete_checkers. intros Hh. repeat (apply list.elem_of_cons in Hh as [->|Hh]); [..|by apply list.not_elem_of_nil in Hh];
    unfold RouteRules_ClusterDeleteChecker, RouteRule_ClusterDeleteChecker; conf_calls.
Qed.
Lemma sample_facts : ids_positive sample_conf /\ sound_conf sample_conf_cfg (cw_data sample_conf) /\ pools_follow (cw_data sample_conf).
Proof.
  destruct (history_sound (fun _ => true) sample_conf_cfg no_epp no_runtime runtime_text no_duration (Err (PlainError "nobody")) delete_checkers checkers_read
    (map (fun q => (q, [])) sample_setup) first_conf first_positive (empty_sound _)) as [H1 H2].
  split; [exact H1|]. split; [exact H2|]. apply (history_follow (fun _ => true) sample_conf_cfg no_epp no_runtime runtime_text no_duration (Err (PlainError "nobody")) delete_checkers checkers_read
    (map (fun q => (q, [])) sample_setup) first_conf first_positive (empty_sound _)); [|by intros ? ? ? ? ? []%list.not_elem_of_nil].
  repeat constructor.
Qed.

Lemma conf_tables_stay_sound_witness :
  length (cd_clusters (cw_data sample_conf)) = 2 /\ sound_conf sample_conf_cfg (cw_data sample_conf).
Proof.
  split; [by vm_compute|].
  exact (conf_tables_stay_sound (fun _ => true) sample_conf_cfg no_epp no_runtime runtime_text no_duration (Err (PlainError "nobody")) delete_checkers
    checkers_read (map (fun q => (q, [])) sample_setup) first_conf first_positive (empty_sound _)).
Defined.

(** New instances for a provider that is maintained by hand. *)
Definition moved_provider : ProviderParam :=
  mkProviderParam None None None None None (Some [host "a.example.com"; host "b.example.com"]) None None None (Some ["openai"]) None None None.
Lemma pools_follow_providers_witness :
  map (fun o => length (items (to_Instances o))) (cd_pools (cw_data (exec [] (sample_respond (PatchProvider "openai" false moved_provider)) sample_conf).2)) = [2; 1] /\
  pools_follow (cw_data (exec [] (sample_respond (PatchProvider "openai" false moved_provider)) sample_conf).2).
Proof.
  split; [by vm_compute|].
  exact (pools_follow_providers (fun _ => true) sample_conf_cfg no_epp no_runtime runtime_text no_duration (Err (PlainError "nobody")) delete_checkers
    checkers_read (PatchProvider "openai" false moved_provider) [] sample_conf (proj1 sample_facts) (proj1 (proj2 sample_facts)) (proj2 (proj2 sample_facts)) (fun H => H)).
Defined.

Definition moved_pods : list InstanceParam := [mkInstanceParam (Some "10.0.0.2") (Some 8000%Z) (Some 50%Z)].
Definition moved_answer : conf_answer := OnePool (mkPoolEntry "llama-pods" [mkProviderInstance "10.0.0.2" 8000 50 false] 1).
(** A patch that repeats what the cluster has empties its pool (below); the
    report fills it again. *)
Definition repeating_patch : conf_request := PatchCluster "local" false (mkUpsert None None None None None (Some (llm_of "pods" ["llama"] [])) None None None).
Definition patched_conf : cworld := sample_requests [repeating_patch] sample_conf.
Lemma patched_positive : ids_positive patched_conf.
Proof. by vm_compute. Qed.
Lemma moved_answered : (exec [] (sample_respond (PutK8sPool "llama-pods" moved_pods)) patched_conf).1 = Ok moved_answer.
Proof. by vm_compute. Qed.
Lemma k8s_report_reaches_everyone_witness : exists l, ValidateInstances moved_pods = Ok l /\
  pool_saved "llama-pods" l (cw_data (exec [] (sample_respond (PutK8sPool "llama-pods" moved_pods)) patched_conf).2) /\
  mirrors_filled "llama-pods" l (cw_data (exec [] (sample_respond (PutK8sPool "llama-pods" moved_pods)) patched_conf).2) /\
  clusters_filled "llama-pods" l (cw_data (exec [] (sample_respond (PutK8sPool "llama-pods" moved_pods)) patched_conf).2).
Proof.
  exact (k8s_report_reaches_everyone (fun _ => true) sample_conf_cfg no_epp no_runtime runtime_text no_duration (Err (PlainError "nobody")) delete_checkers
    "llama-pods" moved_pods [] patched_conf moved_answer patched_positive moved_answered).
Defined.


Definition peak_hours : list PricingTier := [mkTier "peak" [mkTimeRange [1; 2]%Z "09:00" "12:00"; mkTimeRange [1; 2]%Z "14:00" "18:00"; mkTimeRange [3]%Z "09:00" "18:00"]].
Lemma peak_accepted : validatePricingTiers peak_hours = Accept.
Proof. by vm_compute. Qed.
Lemma pricing_tiers_disjoint_witness : length peak_hours <= 1.
Proof. exact (proj1 (pricing_tiers_disjoint peak_hours peak_accepted)). Defined.

(** * What goes wrong *)

(** A patch that repeats what the cluster has empties its pool, because it
    copies the list that is maintained by hand instead of the one that counts. *)
Example patch_empties_pool :
  let after := exec [] (sample_respond repeating_patch) sample_conf in
  (exists a, after.1 = Ok a) /\
  map (fun o => (to_Name o, length (items (to_Instances o)))) (cd_pools (cw_data sample_conf)) = [("AI.chat", 1); ("AI.local", 1)] /\
  map (fun o => (to_Name o, length (items (to_Instances o)))) (cd_pools (cw_data after.2)) = [("AI.chat", 1); ("AI.local", 0)].
Proof. split; [eexists|split]; by vm_compute. Qed.

(** A provider that is created on a Kubernetes pool which has reported already
    starts with an empty mirror, and so do its clusters. *)
Example late_provider_is_empty :
  let after := sample_requests [PostProvider (k8s_provider "late"); PostCluster (cluster_request "second" "late" ["llama"] [])] sample_conf in
  map (fun p => (tv_Name p, length (items (tv_K8sInstancePool p)))) (cd_providers (cw_data after)) = [("openai", 0); ("pods", 1); ("late", 0)] /\
  map (fun o => (to_Name o, length (items (to_Instances o)))) (cd_pools (cw_data after)) = [("AI.chat", 1); ("AI.local", 1); ("AI.second", 0)].
Proof. split; by vm_compute. Qed.

(** The deletion of a provider has asked who refers to it; then a cluster that
    does is created; then the provider is deleted. *)
Definition turns (n i : nat) : list (nat * outcome) := repeat (i, Normal) n.
Example delete_races_creation :
  let w := sample_requests [PostProvider (manual_provider "openai")] first_conf in
  let after := interleave (turns 3 0 ++ turns 40 1 ++ turns 10 0)%list
    [sample_respond (DeleteProvider "openai"); sample_respond (PostCluster (cluster_request "chat" "openai" ["gpt-4"] []))] w in
  Forall (fun p => exists a, p = Ret (Ok a)) after.1 /\
  map tv_Name (cd_providers (cw_data after.2)) = [] /\
  map (fun c => provider_of (tc_LLMConfig c)) (cd_clusters (cw_data after.2)) = [Some "openai"].
Proof.
  split; [|split; by vm_compute]. vm_compute. repeat constructor; by eexists.
Qed.

(** Signs are accepted in times of day, and a page far outside of int64 makes
    the search by protocol panic. *)
Example signed_time : parseHHMM "+5:+9" = Some (5 * 60 + 9)%Z.
Proof. by vm_compute. Qed.
Example page_overflow_panics :
  (exec [] (ProviderManager_FetchProviderList (mkProviderFilter None None [] (Some "openai") None None (Some 184467440737095518%Z) (Some 50%Z))) sample_conf).1
  = Err (PlainError "panic").
Proof. by vm_compute. Qed.

(** The deletion of a pool of Kubernetes whose COMMIT is done and not
    answered is reported as an error; the pool is gone. *)
Definition lost_commit : list outcome := (repeat Normal 12 ++ [FailAfter])%list.
Example deleted_all_the_same :
  let after := exec lost_commit (K8s_DeletePool "llama-pods") sample_conf in
  after.1 = Err DaoError /\ map t8_Name (cd_k8s (cw_data sample_conf)) = ["llama-pods"] /\ cd_k8s (cw_data after.2) = [].
Proof. repeat split; by vm_compute. Qed.
