(* ===== verification/PriceModel.v ===== *)
(** Model prices ([model/imodel_price], [storage/rdb/model_price],
    [dao/table_model_prices.go] and [endpoints/openapi_v1/model_price]): the
    rows, their validators, the manager with the import of price lists, and
    the requests.

    A nil map or slice is an empty one here: the difference shows only in the
    JSON text of an answer.  A range over a Go map visits its entries in an
    order given by the class [RangeOrder].  The times of rows and the decoding
    of YAML files are left out. *)
From Stdlib Require Import ZArith Lia Ascii Floats.SpecFloat.
From stdpp Require Import base tactics numbers list strings gmap option sorting.
From S2P Require Import Prelude GoStrings GoTime Prog Validate ProviderModel ClusterModel ProviderManager.

Local Open Scope string_scope.

Class RangeOrder : Type := {
  range_of : forall {A}, gmap string A -> list (string * A);
  range_perm : forall {A} (m : gmap string A), range_of m ≡ₚ map_to_list m
}.

(** * Data ([model_price.go]) *)

(** A value of type [interface{}], as JSON and YAML give them. *)
Inductive Any : Type :=
| AnyNull
| AnyBool (b : bool)
| AnyInt (z : Z)
| AnyFloat (f : spec_float)
| AnyString (s : string)
| AnyList (l : list Any)
| AnyObject (l : list (string * Any)).

Abbreviation PriceMap := (gmap string spec_float) (only parsing).
Abbreviation TierPriceMap := (gmap string (gmap string spec_float)) (only parsing).

Record ModelPrice : Type := mkModelPrice {
  mo_ID : Z; mo_Provider : string; mo_Model : string; mo_BaseModel : string; mo_Mode : string;
  mo_Capabilities : list string; mo_SupportedParameters : list string; mo_Limits : gmap string Any;
  mo_Prices : PriceMap; mo_TierPrices : TierPriceMap; mo_BatchDiscount : option spec_float;
  mo_PriceCurrency : string; mo_Metadata : gmap string Any
}.
Record ModelPriceFilter : Type := mkModelPriceFilter {
  mf_ID : option Z; mf_Provider : option string; mf_Model : option string; mf_Mode : option string;
  mf_Page : option Z; mf_PageSize : option Z
}.
Definition noPriceFilter : ModelPriceFilter := mkModelPriceFilter None None None None None None.
Definition byPriceID (id : Z) : ModelPriceFilter := mkModelPriceFilter (Some id) None None None None None.

Definition Key (m : ModelPrice) : string := mo_Provider m +:+ "|" +:+ mo_Model m +:+ "|" +:+ mo_Mode m.

(** * Validators ([validate.go]) *)

Definition ValidModes : list string :=
  ["chat"; "completion"; "responses"; "image_generation"; "image_edit"; "embedding"; "rerank"; "audio_speech";
   "audio_transcription"; "video_generation"; "ocr"; "search"; "realtime"; "batch"].
Definition ValidCapabilities : list string :=
  ["chat"; "vision"; "audio_input"; "video_input"; "reasoning"; "tools"; "structured_outputs"; "function_calling";
   "prompt_caching"; "computer_use"; "web_search"; "serverless"; "image_generation"; "embedding"; "rerank";
   "audio_speech"; "audio_transcription"; "video_generation"; "ocr"; "search"; "realtime"].
Definition ValidSupportedParameters : list string :=
  ["temperature"; "top_p"; "max_tokens"; "tools"; "tool_choice"; "response_format"; "reasoning"; "image_input";
   "video_input"; "audio_input"; "voice"; "speed"; "size"; "quality"; "style"].
Definition ValidLimitKeys : list string := ["context_window"; "max_input_tokens"; "max_output_tokens"; "max_tokens"].
Definition ValidPriceKeys : list string :=
  ["input_cost_per_token"; "output_cost_per_token"; "cache_read_input_token_cost"; "cache_creation_input_token_cost";
   "input_cost_per_token_above_200k_tokens"; "output_cost_per_token_above_200k_tokens"; "output_cost_per_image";
   "output_cost_per_pixel"; "output_cost_per_image_low_quality"; "output_cost_per_image_high_quality";
   "input_cost_per_audio_per_second"; "input_cost_per_video_per_second"; "output_cost_per_second";
   "input_cost_per_query"; "search_context_cost_per_query"; "ocr_cost_per_page"; "output_cost_per_character";
   "output_cost_per_image_hd"; "output_cost_per_video"; "output_cost_per_video_per_second";
   "input_cost_per_image_token"; "input_cost_per_audio_token"; "output_cost_per_audio_token";
   "cache_creation_input_token_cost_1h";
   "input_cost_per_token_above_256k_tokens"; "output_cost_per_token_above_256k_tokens";
   "input_cost_per_token_above_272k_tokens"; "output_cost_per_token_above_272k_tokens";
   "input_cost_per_token_above_512k_tokens"; "output_cost_per_token_above_512k_tokens"].
Definition ValidMetadataKeys : list string := ["source"; "notes"].
Definition maxPriceFixedPoint : spec_float := float_of_Z (2 ^ 53).

Definition float_mul : spec_float -> spec_float -> spec_float := SFmul 53 1024.
(** [math.Trunc(f) == f] *)
Definition is_trunc (f : spec_float) : bool :=
  match f with
  | S754_zero _ | S754_infinity _ => true
  | S754_nan => false
  | S754_finite _ m e => (0 <=? e)%Z || (Z.pos m mod 2 ^ (- e) =? 0)%Z
  end.

(** Integers of every width are [AnyInt]; of the types that JSON and YAML give
    no other is a number. *)
Definition validateLimitValue (v : Any) : verdict :=
  match v with
  | AnyInt n => refuse_if (n <? 0)%Z "limit %s must be >= 0"
  | AnyFloat f => refuse_if (SFltb f f_zero || negb (is_trunc f)) "limit %s must be a non-negative integer"
  | _ => Refuse (ParamError "limit %s must be a non-negative integer")
  end.
Definition check_limit (entry : string * Any) (s : unit) : verdict * unit :=
  (refuse_if (negb (among entry.1 ValidLimitKeys)) "invalid limit key: %s" &> validateLimitValue entry.2, s).
Definition check_among (values : list string) (msg : string) (x : string) (s : unit) : verdict * unit :=
  (refuse_if (negb (among x values)) msg, s).

Section Prices.
Context `{RangeOrder}.
(** [quota.RmbPrecision] *)
Variable RmbPrecision : spec_float.

Definition checkPricePrecision (v : spec_float) : verdict :=
  refuse_if (SFleb maxPriceFixedPoint (float_mul v RmbPrecision)) "price %s exceeds the maximum representable precision".
Definition check_price (entry : string * spec_float) (s : unit) : verdict * unit :=
  (refuse_if (negb (among entry.1 ValidPriceKeys)) "invalid price key: %s" &>
   refuse_if (SFltb entry.2 f_zero) "price %s must be >= 0" &>
   checkPricePrecision entry.2, s).
Definition check_tier_price (entry : string * spec_float) (s : unit) : verdict * unit :=
  (refuse_if (negb (among entry.1 ValidPriceKeys)) "invalid tier price key in tier %s: %s" &>
   refuse_if (SFltb entry.2 f_zero) "tier price %s in tier %s must be >= 0" &>
   checkPricePrecision entry.2, s).
Definition check_price_tier (entry : string * PriceMap) (s : unit) : verdict * unit :=
  (refuse_if (negb (bool_decide (entry.1 = "peak"))) "invalid tier name: %s, only 'peak' is allowed" &>
   refuse_if (size entry.2 =? 0)%nat "tier_prices.%s must contain at least one price" &>
   fst (check_each check_tier_price (range_of entry.2) tt), s).
Definition check_discount (d : option spec_float) : verdict :=
  match d with
  | Some d => refuse_if (SFleb d f_zero || SFltb (float_of_Z 1) d) "batch_discount must be in (0, 1]"
  | None => Accept
  end.
Definition check_metadata (entry : string * Any) (s : unit) : verdict * unit :=
  (refuse_if (negb (among entry.1 ValidMetadataKeys)) "invalid metadata key: %s", s).

Definition ValidateModelPrice (m : option ModelPrice) : verdict :=
  match m with
  | None => Refuse (ParamError "model price is required")
  | Some m =>
      refuse_if (bool_decide (TrimSpace (mo_Provider m) = "")) "provider is required" &>
      refuse_if (bool_decide (TrimSpace (mo_Model m) = "")) "model is required" &>
      refuse_if (bool_decide (TrimSpace (mo_BaseModel m) = "")) "base_model is required" &>
      refuse_if (bool_decide (TrimSpace (mo_Mode m) = "")) "mode is required" &>
      refuse_if (negb (among (mo_Mode m) ValidModes)) "invalid mode: %s" &>
      refuse_if (size (mo_Prices m) =? 0)%nat "prices is required and must contain at least one price" &>
      fst (check_each check_price (range_of (mo_Prices m)) tt) &>
      fst (check_each check_price_tier (range_of (mo_TierPrices m)) tt) &>
      check_discount (mo_BatchDiscount m) &>
      refuse_if (negb (bool_decide (mo_PriceCurrency m = "")) && negb (bool_decide (mo_PriceCurrency m = "RMB"))) "price_currency must be RMB" &>
      fst (check_each (check_among ValidCapabilities "invalid capability: %s") (mo_Capabilities m) tt) &>
      fst (check_each (check_among ValidSupportedParameters "invalid supported_parameter: %s") (mo_SupportedParameters m) tt) &>
      fst (check_each check_limit (range_of (mo_Limits m)) tt) &>
      fst (check_each check_metadata (range_of (mo_Metadata m)) tt)
  end.

(** ** The import file ([import.go]) *)

Record ModelListFile : Type := mkModelListFile {
  ml_Version : string; ml_DefaultCurrency : string; ml_Models : list (option ModelPrice)
}.
Definition put_currency (c : string) (m : ModelPrice) : ModelPrice :=
  mkModelPrice (mo_ID m) (mo_Provider m) (mo_Model m) (mo_BaseModel m) (mo_Mode m) (mo_Capabilities m)
    (mo_SupportedParameters m) (mo_Limits m) (mo_Prices m) (mo_TierPrices m) (mo_BatchDiscount m) c (mo_Metadata m).
Definition default_currency (c : string) (m : ModelPrice) : ModelPrice :=
  if bool_decide (mo_PriceCurrency m = "") then put_currency c m else m.
(** What the parser does after the file has been decoded. *)
Definition ParseModelListYAML (f : ModelListFile) : ModelListFile :=
  mkModelListFile (ml_Version f) (ml_DefaultCurrency f) (map (option_map (default_currency (ml_DefaultCurrency f))) (ml_Models f)).
Definition check_model (m : option ModelPrice) (keys : list string) : verdict * list string :=
  let key := match m with Some m => Key m | None => "" end in
  (wrapped (ValidateModelPrice m) "models[%d]: %v" &>
   refuse_if (seen key keys) "duplicate (provider, model, mode): %s", key :: keys).
(** Currencies that are missing have been filled in by the parser. *)
Definition ValidateImportFile (f : ModelListFile) : verdict :=
  refuse_if (bool_decide (TrimSpace (ml_Version f) = "")) "version is required" &>
  refuse_if (negb (bool_decide (ml_Version f = "v1.0"))) "unsupported version: %s" &>
  refuse_if (bool_decide (TrimSpace (ml_DefaultCurrency f) = "")) "default_currency is required" &>
  refuse_if (negb (bool_decide (ml_DefaultCurrency f = "RMB"))) "default_currency must be RMB" &>
  fst (check_each check_model (ml_Models f) []).

Definition NormalizeCurrency (c : string) (m : ModelPrice) : ModelPrice :=
  if bool_decide (TrimSpace (mo_PriceCurrency m) = "") then put_currency c m else m.
End Prices.

Definition GroupByProvider (l : list ModelPrice) : gmap string (list ModelPrice) :=
  foldl (fun rst m => <[mo_Provider m := (default [] (rst !! mo_Provider m) ++ [m])%list]> rst) ∅ l.

(** * The table ([table_model_prices.go]) *)

Record TModelPrice : Type := mkTModelPrice {
  tm_ID : Z; tm_Provider : string; tm_Model : string; tm_BaseModel : string; tm_Mode : string;
  tm_Capabilities : list string; tm_SupportedParameters : list string; tm_Limits : gmap string Any;
  tm_Prices : PriceMap; tm_TierPrices : TierPriceMap; tm_BatchDiscount : option spec_float;
  tm_PriceCurrency : string; tm_Metadata : gmap string Any
}.
(** The fields of a parameter that are always given together, and the one that
    may be missing. *)
Record TModelPriceParam : Type := mkTModelPriceParam { tmp_Row : TModelPrice; tmp_BatchDiscount : option spec_float }.
Record TModelPriceWhere : Type := mkTModelPriceWhere {
  tmw_ID : option Z; tmw_Provider : option string; tmw_Model : option string; tmw_Mode : option string
}.

(** The columns hold JSON text; what is read back is the value that was
    written, with every number a float64. *)
Fixpoint through_json (v : Any) : Any :=
  match v with
  | AnyInt z => AnyFloat (float_of_Z z)
  | AnyList l => AnyList (map through_json l)
  | AnyObject l => AnyObject (map (fun e => (e.1, through_json e.2)) l)
  | _ => v
  end.
Definition finite (f : spec_float) : bool := match f with S754_nan | S754_infinity _ => false | _ => true end.
Fixpoint marshals (v : Any) : bool :=
  match v with
  | AnyFloat f => finite f
  | AnyList l => forallb marshals l
  | AnyObject l => forallb (fun e => marshals e.2) l
  | _ => true
  end.
Definition marshals_all {A} (ok : A -> bool) (m : gmap string A) : bool := forallb (fun e => ok e.2) (map_to_list m).
Definition unsupported_value : goerr := PlainError "json: unsupported value".

Definition toDAOParam (m : ModelPrice) : result TModelPriceParam :=
  if marshals_all marshals (mo_Limits m) && marshals_all finite (mo_Prices m) &&
     marshals_all (marshals_all finite) (mo_TierPrices m) && marshals_all marshals (mo_Metadata m)
  then Ok (mkTModelPriceParam
    (mkTModelPrice 0 (mo_Provider m) (mo_Model m) (mo_BaseModel m) (mo_Mode m) (mo_Capabilities m) (mo_SupportedParameters m)
      (through_json <$> mo_Limits m) (mo_Prices m) (mo_TierPrices m) None (mo_PriceCurrency m) (through_json <$> mo_Metadata m))
    (mo_BatchDiscount m))
  else Err unsupported_value.
Definition fromDAO (r : TModelPrice) : ModelPrice :=
  mkModelPrice (tm_ID r) (tm_Provider r) (tm_Model r) (tm_BaseModel r) (tm_Mode r) (tm_Capabilities r) (tm_SupportedParameters r)
    (tm_Limits r) (tm_Prices r) (tm_TierPrices r) (tm_BatchDiscount r) (tm_PriceCurrency r) (tm_Metadata r).
Definition filterToDAOParam (f : ModelPriceFilter) : TModelPriceWhere :=
  mkTModelPriceWhere (mf_ID f) (mf_Provider f) (mf_Model f) (mf_Mode f).

Definition where_price (w : TModelPriceWhere) (r : TModelPrice) : bool :=
  is_eq (tmw_ID w) (tm_ID r) && is_eq (tmw_Provider w) (tm_Provider r) && is_eq (tmw_Model w) (tm_Model r) && is_eq (tmw_Mode w) (tm_Mode r).
Definition put_price (id : Z) (discount : option spec_float) (r : TModelPrice) : TModelPrice :=
  mkTModelPrice id (tm_Provider r) (tm_Model r) (tm_BaseModel r) (tm_Mode r) (tm_Capabilities r) (tm_SupportedParameters r)
    (tm_Limits r) (tm_Prices r) (tm_TierPrices r) discount (tm_PriceCurrency r) (tm_Metadata r).
(** A field that is nil is not assigned. *)
Definition assign_price (p : TModelPriceParam) (r : TModelPrice) : TModelPrice :=
  put_price (tm_ID r) (match tmp_BatchDiscount p with Some d => Some d | None => tm_BatchDiscount r end) (tmp_Row p).
Definition insert_price (id : Z) (p : TModelPriceParam) : TModelPrice := put_price id (tmp_BatchDiscount p) (tmp_Row p).

Definition price_key (r : TModelPrice) : string * string * string := (tm_Provider r, tm_Model r, tm_Mode r).
Definition prices_unique (l : list TModelPrice) : bool := bool_decide (NoDup (map tm_ID l)) && bool_decide (NoDup (map price_key l)).

(** * Calls and the world *)

Inductive priceE : Type -> Type :=
| PriceBegin : priceE (result unit)
| PriceCommit : priceE (result unit)
| PriceRollback : priceE unit
| TModelPriceOne (w : TModelPriceWhere) : priceE (result (option TModelPrice))
| TModelPriceListWithPagination (w : TModelPriceWhere) (page pageSize : Z) : priceE (result (list TModelPrice))
| TModelPriceCount (w : TModelPriceWhere) : priceE (result Z)
| TModelPriceCreate (p : TModelPriceParam) : priceE (result Z)
| TModelPriceUpdate (p : TModelPriceParam) (w : TModelPriceWhere) : priceE (result Z)
| TModelPriceDelete (w : TModelPriceWhere) : priceE (result Z)
| TModelPriceDeleteAll : priceE (result unit)
| SelectProviders : priceE (result (list string))
| RecordPrice (e : ConfLogEntry) : priceE unit.

Record pworld : Type := mkPWorld { pw_rows : list TModelPrice; pw_saved : option (list TModelPrice); pw_next : Z; pw_log : list ConfLogEntry }.
Definition put_rows (l : list TModelPrice) (w : pworld) : pworld := mkPWorld l (pw_saved w) (pw_next w) (pw_log w).
Definition put_saved (s : option (list TModelPrice)) (w : pworld) : pworld := mkPWorld (pw_rows w) s (pw_next w) (pw_log w).
Definition next_price (w : pworld) : pworld := mkPWorld (pw_rows w) (pw_saved w) (pw_next w + 1) (pw_log w).

Definition price_handle {R} (e : priceE R) : pworld -> R * pworld :=
  match e in priceE R return pworld -> R * pworld with
  | PriceBegin => fun w => (Ok tt, put_saved (Some (pw_rows w)) w)
  | PriceCommit => fun w => (Ok tt, put_saved None w)
  | PriceRollback => fun w => (tt, match pw_saved w with Some l => put_saved None (put_rows l w) | None => w end)
  | TModelPriceOne q => fun w => (Ok (List.find (where_price q) (pw_rows w)), w)
  | TModelPriceListWithPagination q page size => fun w => (Ok (page_of page size (List.filter (where_price q) (pw_rows w))), w)
  | TModelPriceCount q => fun w => (Ok (hits (where_price q) (pw_rows w)), w)
  | TModelPriceCreate p => fun w =>
      let rows := (pw_rows w ++ [insert_price (pw_next w) p])%list in
      if prices_unique rows then (Ok (pw_next w), next_price (put_rows rows w)) else (Err DaoError, next_price w)
  | TModelPriceUpdate p q => fun w =>
      let rows := changed (where_price q) (assign_price p) (pw_rows w) in
      if prices_unique rows then (Ok (hits (where_price q) (pw_rows w)), put_rows rows w) else (Err DaoError, w)
  | TModelPriceDelete q => fun w => (Ok (hits (where_price q) (pw_rows w)), put_rows (without (where_price q) (pw_rows w)) w)
  | TModelPriceDeleteAll => fun w => (Ok tt, put_rows [] w)
  | SelectProviders => fun w => (Ok (merge_sort name_order (remove_dups (map tm_Provider (pw_rows w)))), w)
  | RecordPrice e => fun w => (tt, mkPWorld (pw_rows w) (pw_saved w) (pw_next w) (pw_log w ++ [e]))
  end.
Definition price_fault {R} (e : priceE R) : option R :=
  match e in priceE R return option R with
  | PriceCommit => Some (Err DaoError)
  | PriceRollback => None
  | RecordPrice _ => None
  | PriceBegin => Some (Err DaoError)
  | TModelPriceOne _ => Some (Err DaoError)
  | TModelPriceListWithPagination _ _ _ => Some (Err DaoError)
  | TModelPriceCount _ => Some (Err DaoError)
  | TModelPriceCreate _ => Some (Err DaoError)
  | TModelPriceUpdate _ _ => Some (Err DaoError)
  | TModelPriceDelete _ => Some (Err DaoError)
  | TModelPriceDeleteAll => Some (Err DaoError)
  | SelectProviders => Some (Err DaoError)
  end.
#[export] Instance price_interp : Interp priceE pworld := {|
  handle := @price_handle;
  fault := @price_fault
|}.
#[export] Instance price_txn : TxnCalls priceE := {|
  tx_begin := PriceBegin;
  tx_commit := PriceCommit;
  tx_rollback := PriceRollback;
  is_commit := fun R (e : priceE R) => match e with PriceCommit => true | _ => false end
|}.

(** * The storage ([storage/rdb/model_price]) *)

Definition CreateModelPriceRow (m : ModelPrice) : prog priceE (result Z) :=
  match toDAOParam m with Err e => Ret (Err e) | Ok data => call (TModelPriceCreate data) end.
Definition UpdateModelPriceRow (f : ModelPriceFilter) (m : ModelPrice) : prog priceE (result Z) :=
  match toDAOParam m with Err e => Ret (Err e) | Ok data => call (TModelPriceUpdate data (filterToDAOParam f)) end.
Definition DeleteModelPriceRow (f : ModelPriceFilter) : prog priceE (result unit) :=
  _ <-? call (TModelPriceDelete (filterToDAOParam f)) ;; Ret (Ok tt).
Definition DeleteAllModelPrices : prog priceE (result unit) := call TModelPriceDeleteAll.
Definition FetchModelPriceRow (f : ModelPriceFilter) : prog priceE (result (option ModelPrice)) :=
  one <-? call (TModelPriceOne (filterToDAOParam f)) ;; Ret (Ok (option_map fromDAO one)).
(** The page of the filter; without one it is the first page of fifty rows. *)
Definition FetchModelPriceRows (f : ModelPriceFilter) : prog priceE (result (list ModelPrice * Z)) :=
  let where_ := filterToDAOParam f in
  list <-? call (TModelPriceListWithPagination where_ (page_number (mf_Page f)) (page_size (mf_PageSize f))) ;;
  total <-? call (TModelPriceCount where_) ;;
  Ret (Ok (map fromDAO list, total)).
Definition ListProviderRows : prog priceE (result (list string)) := call SelectProviders.

(** * The manager *)

(** The message of an entry and its summary of changes are left out. *)
Definition recordModelPriceOperation (action id name : string) (err : option goerr) : prog priceE unit :=
  call (RecordPrice (mkConfLog action "model_price" id name err)).
Definition recordModelPriceImport (err : option goerr) : prog priceE unit :=
  call (RecordPrice (mkConfLog "import" "model_price" "batch" "model_price_import" err)).
Definition modelPriceName (m : option ModelPrice) : string := match m with Some m => Key m | None => "" end.
Definition filter_id (f : ModelPriceFilter) : string := match mf_ID f with Some id => FormatInt id | None => "" end.
Definition ImportModeReplace : string := "replace".
Definition ImportModeMerge : string := "merge".

(** Entry after entry until one fails. *)
Definition each_entry (f : ModelPrice -> prog priceE (result Z)) (entries : list ModelPrice) : prog priceE (result unit) :=
  run_checks entries (fun m => _ <-? f m ;; Ret (Ok tt)).
Definition import_replace (entries : list ModelPrice) : prog priceE (result unit) :=
  _ <-? DeleteAllModelPrices ;;
  each_entry CreateModelPriceRow entries.
Definition existing_map (rows : list ModelPrice) : gmap string Z := foldl (fun m e => <[Key e := mo_ID e]> m) ∅ rows.
Definition merge_entry (existing : gmap string Z) (m : ModelPrice) : prog priceE (result Z) :=
  match existing !! Key m with
  | Some id => UpdateModelPriceRow (byPriceID id) m
  | None => CreateModelPriceRow m
  end.
Definition import_merge (entries : list ModelPrice) : prog priceE (result unit) :=
  existing <-? FetchModelPriceRows noPriceFilter ;;
  each_entry (merge_entry (existing_map existing.1)) entries.

Section Manager.
Context `{RangeOrder}.
Variable RmbPrecision : spec_float.

Definition CreateModelPrice (m : ModelPrice) : prog priceE (result Z) :=
  after_check (ValidateModelPrice RmbPrecision (Some m)) (recordModelPriceOperation ActionCreate "" (Key m))
    (r <- CreateModelPriceRow m ;;
     (match r with
      | Ok id => recordModelPriceOperation ActionCreate (FormatInt id) (Key m) None
      | Err e => recordModelPriceOperation ActionCreate "" (Key m) (Some e)
      end) ;;
     Ret r).

Definition UpdateModelPrice (f : ModelPriceFilter) (m : ModelPrice) : prog priceE (result Z) :=
  let record := recordModelPriceOperation ActionUpdate (filter_id f) (Key m) in
  after_check (ValidateModelPrice RmbPrecision (Some m)) record
    (r <- FetchModelPriceRow f ;;
     match r with
     | Err e => record (Some e) ;; Ret (Err e)
     | Ok _ => recorded record (UpdateModelPriceRow f m)
     end).

Definition DeleteModelPrice (f : ModelPriceFilter) : prog priceE (result unit) :=
  r <- FetchModelPriceRow f ;;
  match r with
  | Err e => recordModelPriceOperation ActionDelete (filter_id f) "" (Some e) ;; Ret (Err e)
  | Ok old => recorded (recordModelPriceOperation ActionDelete (filter_id f) (modelPriceName old)) (DeleteModelPriceRow f)
  end.

Definition check_entry (m : option ModelPrice) (s : unit) : verdict * unit := (ValidateModelPrice RmbPrecision m, s).
(** The answer is the number of entries; none is ever skipped.  Once the
    entries are validated none of them is nil. *)
Definition ImportModelPrices (entries : list (option ModelPrice)) (mode : string) : prog priceE (result Z) :=
  after_check
    (refuse_if (negb (bool_decide (mode = ImportModeReplace)) && negb (bool_decide (mode = ImportModeMerge))) "import mode must be replace or merge" &>
     fst (check_each check_entry entries tt)) recordModelPriceImport
    (let entries := omap id entries in
     _ <-? recorded recordModelPriceImport
             (atomically (if bool_decide (mode = ImportModeReplace) then import_replace entries else import_merge entries)) ;;
     Ret (Ok (Z.of_nat (length entries)))).

(** * Requests ([endpoints/openapi_v1/model_price]) *)

(** [helper.go]; a query parameter that is missing is empty. *)
Definition idFromURI (id : string) : option Z := if bool_decide (id = "") then None else ParseInt id.
Definition queryFilter (provider model mode : string) : ModelPriceFilter :=
  mkModelPriceFilter None (nonempty provider) (nonempty model) (nonempty mode) None None.
Definition positive_or (s : string) (default_value : Z) : Z :=
  match ParseInt s with Some z => if (0 <? z)%Z then z else default_value | None => default_value end.
Definition pageFilter (page pageSize : string) : Z * Z := (positive_or page 1, Z.min (positive_or pageSize 50) 1000).

Definition PostPriceAction (m : ModelPrice) : prog priceE (result (option ModelPrice)) :=
  id <-? CreateModelPrice (NormalizeCurrency "RMB" m) ;;
  FetchModelPriceRow (byPriceID id).

(** Entries of [src] win. *)
Definition mergePriceMap (dst src : PriceMap) : PriceMap := src ∪ dst.
Definition mergeTierPriceMap (dst src : TierPriceMap) : TierPriceMap :=
  union_with (fun old new => Some (mergePriceMap old new)) dst src.
Definition or_text (new old : string) : string := if bool_decide (TrimSpace new = "") then old else new.
Definition or_items {A} (new old : list A) : list A := match new with [] => old | _ => new end.
Definition or_map {A} (new old : gmap string A) : gmap string A := if (size new =? 0)%nat then old else new.
Definition mergeModelPrice (dst src : ModelPrice) : ModelPrice :=
  mkModelPrice (mo_ID dst) (or_text (mo_Provider src) (mo_Provider dst)) (or_text (mo_Model src) (mo_Model dst))
    (or_text (mo_BaseModel src) (mo_BaseModel dst)) (or_text (mo_Mode src) (mo_Mode dst))
    (or_items (mo_Capabilities src) (mo_Capabilities dst)) (or_items (mo_SupportedParameters src) (mo_SupportedParameters dst))
    (or_map (mo_Limits src) (mo_Limits dst))
    (if (size (mo_Prices src) =? 0)%nat then mo_Prices dst else mergePriceMap (mo_Prices dst) (mo_Prices src))
    (if (size (mo_TierPrices src) =? 0)%nat then mo_TierPrices dst else mergeTierPriceMap (mo_TierPrices dst) (mo_TierPrices src))
    (mo_BatchDiscount dst) (or_text (mo_PriceCurrency src) (mo_PriceCurrency dst)) (or_map (mo_Metadata src) (mo_Metadata dst)).

Definition the_price (f : ModelPriceFilter) : prog priceE (result ModelPrice) :=
  one <-? FetchModelPriceRow f ;;
  Ret (match one with Some m => Ok m | None => Err (RecordNotExist "ModelPrice") end).
Definition update_found (f : ModelPriceFilter) (m : ModelPrice) : prog priceE (result (option ModelPrice)) :=
  existing <-? the_price f ;;
  _ <-? UpdateModelPrice f (mergeModelPrice existing m) ;;
  FetchModelPriceRow f.
Definition delete_found (f : ModelPriceFilter) : prog priceE (result unit) :=
  _ <-? the_price f ;;
  DeleteModelPrice f.
Definition with_id {A} (id : string) (p : ModelPriceFilter -> prog priceE (result A)) : prog priceE (result A) :=
  match idFromURI id with Some id => p (byPriceID id) | None => Ret (Err (ParamError "id is required")) end.
(** The filter of a query never has an id. *)
Definition with_key {A} (f : ModelPriceFilter) (p : ModelPriceFilter -> prog priceE (result A)) : prog priceE (result A) :=
  match mf_Provider f, mf_Model f, mf_Mode f with
  | Some _, Some _, Some _ => p f
  | _, _, _ => Ret (Err (ParamError "provider, model and mode are required"))
  end.

Inductive price_answer : Type :=
| NoPrice
| OnePrice (m : option ModelPrice)
| SomePrices (l : list ModelPrice) (page pageSize total : Z)
| PriceProviders (l : list string)
| Imported (count : Z).
Definition GetPricesAction (provider model mode page pageSize : string) : prog priceE (result price_answer) :=
  let f := queryFilter provider model mode in
  match mf_Provider f, mf_Model f, mf_Mode f with
  | Some _, Some _, Some md =>
      checked (refuse_if (negb (among md ValidModes)) "invalid mode: %s")
        (one <-? the_price f ;; Ret (Ok (OnePrice (Some one))))
  | _, Some _, _ => Ret (Err (ParamError "provider, model and mode are required for single-record query"))
  | _, None, _ =>
      let '(page, size) := pageFilter page pageSize in
      r <-? FetchModelPriceRows (mkModelPriceFilter (mf_ID f) (mf_Provider f) (mf_Model f) (mf_Mode f) (Some page) (Some size)) ;;
      Ret (Ok (SomePrices r.1 page size r.2))
  end.
(** The file has been decoded, or is missing. *)
Definition ImportPricesAction (mode : string) (file : option ModelListFile) : prog priceE (result price_answer) :=
  let mode := if bool_decide (mode = "") then ImportModeReplace else mode in
  match file with
  | None => Ret (Err (ParamError "file is required"))
  | Some file =>
      let file := ParseModelListYAML file in
      checked (wrapped (ValidateImportFile RmbPrecision file) "invalid import file: %v")
        (n <-? ImportModelPrices (ml_Models file) mode ;; Ret (Ok (Imported n)))
  end.

Inductive price_request : Type :=
| ImportPrices (mode : string) (file : option ModelListFile)
| PostPrice (m : ModelPrice)
| GetPrices (provider model mode page pageSize : string)
| GetPrice (id : string)
| PutPrice (id : string) (m : ModelPrice)
| DeletePrice (id : string)
| PutPriceByQuery (provider model mode : string) (m : ModelPrice)
| DeletePriceByQuery (provider model mode : string)
| GetPriceProviders.
Definition price_answered {A} (f : A -> price_answer) (p : prog priceE (result A)) : prog priceE (result price_answer) :=
  r <-? p ;; Ret (Ok (f r)).
Definition serve_price (q : price_request) : prog priceE (result price_answer) :=
  match q with
  | ImportPrices mode file => ImportPricesAction mode file
  | PostPrice m => price_answered OnePrice (PostPriceAction m)
  | GetPrices provider model mode page size => GetPricesAction provider model mode page size
  | GetPrice id => price_answered (fun m => OnePrice (Some m)) (with_id id the_price)
  | PutPrice id m => price_answered OnePrice (with_id id (fun f => update_found f m))
  | DeletePrice id => price_answered (fun _ => NoPrice) (with_id id delete_found)
  | PutPriceByQuery provider model mode m => price_answered OnePrice (with_key (queryFilter provider model mode) (fun f => update_found f m))
  | DeletePriceByQuery provider model mode => price_answered (fun _ => NoPrice) (with_key (queryFilter provider model mode) delete_found)
  | GetPriceProviders => price_answered PriceProviders ListProviderRows
  end.
(** Requests one after the other, each with the outcomes of its calls. *)
Fixpoint serve_prices (history : list (price_request * list outcome)) (w : pworld) : pworld :=
  match history with
  | [] => w
  | (q, os) :: history => serve_prices history (exec os (serve_price q) w).2
  end.
End Manager.
