(* ===== verification/PriceSpec.v ===== *)
(** What holds of model prices: the rows stay valid under every interleaving
    of requests; an import replaces or merges exactly, or changes nothing; and
    where the first page of fifty rows is taken for the whole table. *)
From Stdlib Require Import ZArith Lia Ascii Floats.SpecFloat.
From stdpp Require Import base tactics numbers list strings gmap option.
From S2P Require Import Prelude GoStrings GoTime Prog Validate ValidateSpec ProviderModel ClusterModel ProviderManager PriceModel.

Local Open Scope string_scope.

(** * What the validators accept *)

Lemma check_each_forall {A} (f : A -> unit -> verdict * unit) (good : A -> Prop) l :
  (forall a s, fst (f a s) = Accept <-> good a) -> fst (check_each f l tt) = Accept <-> Forall good l.
Proof.
  intros Hf. induction l as [|a l IH]; cbn [check_each]; [by split; [constructor|]|].
  specialize (Hf a tt). destruct (f a tt) as [v []]; cbn [fst] in Hf. rewrite Forall_cons_iff, <- Hf.
  destruct v; cbn [fst]; rewrite ?IH; intuition congruence.
Qed.

Section Prices.
Context `{RangeOrder}.
Variable RmbPrecision : spec_float.

Lemma range_forall {A} (m : gmap string A) (P : string * A -> Prop) :
  Forall P (range_of m) <-> forall k v, m !! k = Some v -> P (k, v).
Proof.
  rewrite (range_perm m), list.Forall_forall. split.
  - intros Hp k v Hk. apply Hp. by apply elem_of_map_to_list.
  - intros Hp [k v] Hk. apply Hp. by apply elem_of_map_to_list in Hk.
Qed.

(** A price that the gateway can count with: a number, not negative, and small
    enough for its fixed-point arithmetic. *)
Definition countable_price (v : spec_float) : Prop :=
  finite v = true /\ SFltb v f_zero = false /\ SFleb maxPriceFixedPoint (float_mul v RmbPrecision) = false.
Definition price_list_ok (ps : gmap string spec_float) : Prop :=
  ps <> ∅ /\ forall k v, ps !! k = Some v -> k ∈ ValidPriceKeys /\ countable_price v.
Definition discount_ok (d : option spec_float) : Prop :=
  forall x, d = Some x -> SFleb x f_zero = false /\ SFltb (float_of_Z 1) x = false.
Record priced (r : TModelPrice) : Prop := {
  pr_names : TrimSpace (tm_Provider r) <> "" /\ TrimSpace (tm_Model r) <> "" /\ TrimSpace (tm_BaseModel r) <> "";
  pr_mode : tm_Mode r ∈ ValidModes;
  pr_prices : price_list_ok (tm_Prices r);
  pr_tiers : forall t ps, tm_TierPrices r !! t = Some ps -> t = "peak" /\ price_list_ok ps;
  pr_discount : discount_ok (tm_BatchDiscount r);
  pr_currency : tm_PriceCurrency r = "" \/ tm_PriceCurrency r = "RMB";
  pr_texts : Forall (fun c => c ∈ ValidCapabilities) (tm_Capabilities r) /\
    Forall (fun p => p ∈ ValidSupportedParameters) (tm_SupportedParameters r);
  pr_keys : (forall k v, tm_Limits r !! k = Some v -> k ∈ ValidLimitKeys) /\
    (forall k v, tm_Metadata r !! k = Some v -> k ∈ ValidMetadataKeys)
}.

Lemma marshals_all_spec {A} (ok : A -> bool) (m : gmap string A) :
  marshals_all ok m = true <-> forall k v, m !! k = Some v -> ok v = true.
Proof.
  unfold marshals_all. rewrite forallb_forall. split.
  - intros Hm k v Hk. apply (Hm (k, v)). by apply list_elem_of_In, elem_of_map_to_list.
  - intros Hm [k v] Hin. apply list_elem_of_In, elem_of_map_to_list in Hin. by apply (Hm k).
Qed.
Lemma size_zero {A} (m : gmap string A) : (size m =? 0)%nat = false <-> m <> ∅.
Proof. rewrite Nat.eqb_neq. apply map_size_non_empty_iff. Qed.
Lemma among_false x l : negb (among x l) = false <-> x ∈ l.
Proof. unfold among. by rewrite negb_false_iff, bool_decide_eq_true. Qed.
Lemma price_entry_accept k v msg msg' :
  (refuse_if (negb (among k ValidPriceKeys)) msg &> refuse_if (SFltb v f_zero) msg' &> checkPricePrecision RmbPrecision v) = Accept <->
  k ∈ ValidPriceKeys /\ SFltb v f_zero = false /\ SFleb maxPriceFixedPoint (float_mul v RmbPrecision) = false.
Proof. unfold checkPricePrecision. by rewrite !andthen_accept, !refuse_if_accept, among_false. Qed.

(** What a price that is accepted and can be written looks like in its row. *)
Lemma accepted_priced m p : ValidateModelPrice RmbPrecision (Some m) = Accept -> toDAOParam m = Ok p ->
  priced (insert_price 0 p) /\ tmp_BatchDiscount p = mo_BatchDiscount m.
Proof.
  unfold toDAOParam. intros Hv Hp. destruct (_ && _) eqn:Em in Hp; [|done]. injection Hp as <-. revert Hv. unfold ValidateModelPrice.
  rewrite !andb_true_iff, !marshals_all_spec in Em. destruct Em as [[[_ Hfp] Hft] _].
  rewrite !andthen_accept, !refuse_if_accept, !bool_decide_eq_false, size_zero, among_false.
  intros (Hn1 & Hn2 & Hn3 & _ & Hmode & Hne & Hprices & Htiers & Hd & Hc & Hcap & Hpar & Hlim & Hmeta).
  split; [|done]. cbn.
  rewrite (check_each_forall _ (fun e => e.1 ∈ ValidPriceKeys /\ SFltb e.2 f_zero = false /\ SFleb maxPriceFixedPoint (float_mul e.2 RmbPrecision) = false)), range_forall in Hprices
    by (intros [k v] s; cbn; apply price_entry_accept).
  rewrite (check_each_forall _ (fun e => e.1 = "peak" /\ e.2 <> ∅ /\ Forall (fun e => e.1 ∈ ValidPriceKeys /\ SFltb e.2 f_zero = false /\ SFleb maxPriceFixedPoint (float_mul e.2 RmbPrecision) = false) (range_of e.2))), range_forall in Htiers.
  2: { intros [t ps] s. cbn [check_price_tier fst snd]. rewrite !andthen_accept, !refuse_if_accept, size_zero, negb_false_iff, bool_decide_eq_true.
       by rewrite (check_each_forall _ (fun e => e.1 ∈ ValidPriceKeys /\ SFltb e.2 f_zero = false /\ SFleb maxPriceFixedPoint (float_mul e.2 RmbPrecision) = false)) by (intros [k v] s'; cbn; apply price_entry_accept). }
  rewrite (check_each_forall _ (fun c => c ∈ ValidCapabilities)) in Hcap by (intros c s; cbn; by rewrite refuse_if_accept, among_false).
  rewrite (check_each_forall _ (fun c => c ∈ ValidSupportedParameters)) in Hpar by (intros c s; cbn; by rewrite refuse_if_accept, among_false).
  rewrite (check_each_forall _ (fun e => e.1 ∈ ValidLimitKeys /\ validateLimitValue e.2 = Accept)), range_forall in Hlim
    by (intros [k v] s; cbn; by rewrite andthen_accept, refuse_if_accept, among_false).
  rewrite (check_each_forall _ (fun e => e.1 ∈ ValidMetadataKeys)), range_forall in Hmeta
    by (intros [k v] s; cbn; by rewrite refuse_if_accept, among_false).
  split; cbn.
  - done.
  - done.
  - split; [done|]. intros k v Hk. destruct (Hprices k v Hk) as (? & ? & ?). split; [done|]. split; [by apply (Hfp k)|done].
  - intros t ps Ht. destruct (Htiers t ps Ht) as (? & ? & Hps). split; [done|]. split; [done|]. intros k v Hk.
    rewrite range_forall in Hps. destruct (Hps k v Hk) as (? & ? & ?). split; [done|]. split; [|done].
    specialize (Hft t ps Ht). rewrite marshals_all_spec in Hft. by apply (Hft k).
  - intros x Hx. rewrite Hx in Hd. cbn in Hd. by rewrite refuse_if_accept, orb_false_iff in Hd.
  - rewrite andb_false_iff, !negb_false_iff, !bool_decide_eq_true in Hc. done.
  - done.
  - split; intros k v; rewrite lookup_fmap; intros (x & Hx & _)%fmap_Some; [by apply (Hlim k x)|by apply (Hmeta k x)].
Qed.

(** * Every row stays priced *)

Definition rows_ok (l : list TModelPrice) : Prop := prices_unique l = true /\ Forall priced l.
Definition prices_ok (w : pworld) : Prop := rows_ok (pw_rows w) /\ forall l, pw_saved w = Some l -> rows_ok l.
Definition priced_param (p : TModelPriceParam) : Prop := priced (insert_price 0 p).
(** What a call may write. *)
Definition priced_call (R : Type) (e : priceE R) : Prop :=
  match e with
  | TModelPriceCreate p => priced_param p
  | TModelPriceUpdate p _ => priced_param p
  | _ => True
  end.

Lemma put_price_priced id d r : priced r -> discount_ok d -> priced (put_price id d r).
Proof. intros [] Hd. by split. Qed.
Lemma insert_priced id p : priced_param p -> priced (insert_price id p).
Proof. intros Hp. apply (put_price_priced id (tmp_BatchDiscount p) (insert_price 0 p) Hp), (pr_discount _ Hp). Qed.
Lemma assign_priced p r : priced_param p -> priced r -> priced (assign_price p r).
Proof.
  intros Hp Hr. apply (put_price_priced (tm_ID r) _ (insert_price 0 p) Hp).
  pose proof (pr_discount _ Hp) as Hd. cbn in Hd. destruct (tmp_BatchDiscount p); [done|apply Hr].
Qed.
Lemma rows_ok_without hit l : rows_ok l -> rows_ok (without hit l).
Proof.
  unfold rows_ok, prices_unique, without. rewrite !andb_true_iff, !bool_decide_eq_true. intros [[H1 H2] H3]. repeat split.
  - by apply NoDup_map_filter.
  - by apply NoDup_map_filter.
  - rewrite list.Forall_forall in *. intros x Hx. apply H3. apply list_elem_of_In, filter_In in Hx as [Hx _]. by apply list_elem_of_In.
Qed.

(** One call, done or lost, keeps the rows priced. *)
Lemma priced_call_keeps R (e : priceE R) w o : prices_ok w -> priced_call R e ->
  prices_ok (answer o e w).2 /\ True /\ True.
Proof.
  intros Hw He. pose proof Hw as [Hr Hs]. split; [|done].
  assert (prices_ok (handle e w).2) as Hd.
  { destruct e; cbn; try (split; [done|]; cbn; done).
    - split; [done|]. cbn. by intros l [= <-].
    - destruct (pw_saved w) as [l|] eqn:E; [|exact Hw]. split; [exact (Hs l eq_refl)|done].
    - destruct (prices_unique _) eqn:E; [|exact Hw]. split; [|done]. cbn. split; [done|].
      apply Forall_app. split; [exact (proj2 Hr)|]. constructor; [by apply insert_priced|constructor].
    - destruct (prices_unique _) eqn:E; [|exact Hw]. split; [|done]. cbn. split; [done|]. unfold changed.
      apply Forall_map. eapply list.Forall_impl; [exact (proj2 Hr)|]. intros r Hp. cbn. destruct (where_price _ _); [by apply assign_priced|done].
    - split; [|done]. cbn. by apply rows_ok_without. }
  by destruct o; cbn; destruct (price_fault e); cbn.
Qed.

(** ** Programs that write priced rows only *)

Abbreviation writes_priced := (all_calls priced_call).
#[local] Ltac price_calls := calls_solve ltac:(idtac).

Lemma writes_create_row m : ValidateModelPrice RmbPrecision (Some m) = Accept -> writes_priced (CreateModelPriceRow m).
Proof.
  intros Hm. unfold CreateModelPriceRow. destruct (toDAOParam m) as [p|e] eqn:E; [|constructor].
  apply all_calls_one. by destruct (accepted_priced m p Hm E).
Qed.
Lemma writes_update_row f m : ValidateModelPrice RmbPrecision (Some m) = Accept -> writes_priced (UpdateModelPriceRow f m).
Proof.
  intros Hm. unfold UpdateModelPriceRow. destruct (toDAOParam m) as [p|e] eqn:E; [|constructor].
  apply all_calls_one. by destruct (accepted_priced m p Hm E).
Qed.
Lemma writes_record action id name e : writes_priced (recordModelPriceOperation action id name e).
Proof. by apply all_calls_one. Qed.
Lemma writes_record_import e : writes_priced (recordModelPriceImport e).
Proof. by apply all_calls_one. Qed.

Lemma writes_each f entries : (forall m, m ∈ entries -> writes_priced (f m)) -> writes_priced (each_entry f entries).
Proof. intros Hf. apply all_calls_checks. intros m Hm. apply all_calls_try; [by apply Hf|constructor]. Qed.
Lemma entries_accepted entries : fst (check_each (check_entry RmbPrecision) entries tt) = Accept ->
  forall m, m ∈ omap id entries -> ValidateModelPrice RmbPrecision (Some m) = Accept.
Proof.
  intros He m (x & Hx & Hm)%list_elem_of_omap. cbn in Hm. subst x.
  rewrite (check_each_forall _ (fun m => ValidateModelPrice RmbPrecision m = Accept)) in He by done.
  rewrite list.Forall_forall in He. by apply He.
Qed.
Lemma writes_import entries mode : writes_priced (ImportModelPrices RmbPrecision entries mode).
Proof.
  apply all_calls_after_check; [apply writes_record_import|]. rewrite andthen_accept. intros [_ He].
  pose proof (entries_accepted entries He) as Ha. apply all_calls_try; [|constructor].
  apply all_calls_recorded; [apply writes_record_import|]. apply all_calls_atomically; [done..|]. destruct (bool_decide _).
  - apply all_calls_try; [by apply all_calls_one|]. intros _. apply writes_each. intros m Hm. by apply writes_create_row, Ha.
  - apply all_calls_try; [unfold FetchModelPriceRows; price_calls; done|]. intros rows. apply writes_each. intros m Hm.
    unfold merge_entry. destruct (_ !! _); [by apply writes_update_row, Ha|by apply writes_create_row, Ha].
Qed.
Lemma writes_create_price m : writes_priced (CreateModelPrice RmbPrecision m).
Proof.
  apply all_calls_after_check; [apply writes_record|]. intros Hm. apply all_calls_bind; [by apply writes_create_row|].
  intros [id|e]; (apply all_calls_bind; [apply writes_record|constructor]).
Qed.
Lemma writes_update_price f m : writes_priced (UpdateModelPrice RmbPrecision f m).
Proof.
  apply all_calls_after_check; [apply writes_record|]. intros Hm. apply all_calls_bind; [unfold FetchModelPriceRow; price_calls; done|].
  intros [old|e]; [apply all_calls_recorded; [apply writes_record|by apply writes_update_row]|].
  apply all_calls_bind; [apply writes_record|constructor].
Qed.
Lemma reads_price f : writes_priced (the_price f).
Proof. unfold the_price, FetchModelPriceRow. price_calls; done. Qed.
Lemma serve_writes_priced q : writes_priced (serve_price RmbPrecision q).
Proof.
  assert (forall A (f : A -> price_answer) (p : prog priceE (result A)), writes_priced p -> writes_priced (price_answered f p)) as Ha
    by (intros; apply all_calls_try; [done|constructor]).
  assert (forall f m, writes_priced (update_found RmbPrecision f m)) as Hu.
  { intros f m. apply all_calls_try; [apply reads_price|]. intros old. apply all_calls_try; [apply writes_update_price|].
    intros n. unfold FetchModelPriceRow. price_calls; done. }
  assert (forall f, writes_priced (delete_found f)) as Hd.
  { intros f. apply all_calls_try; [apply reads_price|]. intros old. unfold DeleteModelPrice, FetchModelPriceRow, DeleteModelPriceRow, recorded, recordModelPriceOperation.
    price_calls; done. }
  destruct q; cbn [serve_price].
  - unfold ImportPricesAction. destruct file; [|constructor]. apply all_calls_checked. intros _. apply all_calls_try; [apply writes_import|constructor].
  - apply Ha. apply all_calls_try; [apply writes_create_price|]. intros id. unfold FetchModelPriceRow. price_calls; done.
  - unfold GetPricesAction, checked, the_price, FetchModelPriceRow, FetchModelPriceRows. price_calls; done.
  - apply Ha. unfold with_id. destruct (idFromURI _); [apply reads_price|constructor].
  - apply Ha. unfold with_id. destruct (idFromURI _); [apply Hu|constructor].
  - apply Ha. unfold with_id. destruct (idFromURI _); [apply Hd|constructor].
  - apply Ha. generalize (queryFilter provider model mode). intros f. unfold with_key. destruct (mf_Provider f), (mf_Model f), (mf_Mode f); first [apply Hu|constructor].
  - apply Ha. generalize (queryFilter provider model mode). intros f. unfold with_key. destruct (mf_Provider f), (mf_Model f), (mf_Mode f); first [apply Hd|constructor].
  - apply Ha. by apply all_calls_one.
Qed.

(** C18: every stored price is one the gateway can count with: whatever requests
    are made, in whatever order their calls interleave and whichever of them
    fail or lose their answer, each row has a known mode, prices under known
    keys that are finite, not negative and below the largest fixed-point
    number, at most the peak tier, and a discount that is not outside of
    (0, 1]; ids and keys are unique. *)
Theorem stored_prices_countable sched requests w : prices_ok w ->
  prices_ok (interleave sched (map (serve_price RmbPrecision) requests) w).2.
Proof.
  intros Hw. apply (interleave_guarded priced_call (fun _ _ _ => True) prices_ok (fun _ _ => True) priced_call_keeps (fun _ => True)); [done|].
  apply Forall_map, list.Forall_true. intros q. cbn. apply all_calls_guarded; [apply serve_writes_priced|done].
Qed.
End Prices.

(** * Runs that succeed

    [yields l p Q]: a run of [p] from the rows [l] that answers [a] ends with
    rows that satisfy [Q a]. *)
Definition yields {A} (l : list TModelPrice) (p : prog priceE (result A)) (Q : A -> list TModelPrice -> Prop) : Prop :=
  forall os w a, pw_rows w = l -> (exec os p w).1 = Ok a -> Q a (pw_rows (exec os p w).2).

Lemma yields_ok {A} l (a : A) (Q : A -> list TModelPrice -> Prop) : Q a l -> yields l (Ret (Ok a)) Q.
Proof. intros Hq os w a' <- Ha. rewrite exec_ret in *. injection Ha as <-. exact Hq. Qed.
Lemma yields_err {A} l e (Q : A -> list TModelPrice -> Prop) : yields l (Ret (Err e)) Q.
Proof. intros os w a _ Ha. by rewrite exec_ret in Ha. Qed.
Lemma yields_weaken {A} l (p : prog priceE (result A)) (Q R : A -> list TModelPrice -> Prop) :
  yields l p Q -> (forall a l', Q a l' -> R a l') -> yields l p R.
Proof. intros Hp Hq os w a Hw Ha. by apply Hq, Hp. Qed.
Lemma yields_try {A B} l (p : prog priceE (result A)) (f : A -> prog priceE (result B)) (Q : A -> list TModelPrice -> Prop) R :
  yields l p Q -> (forall a l', Q a l' -> yields l' (f a) R) -> yields l (x <-? p ;; f x) R.
Proof.
  intros Hp Hf os w b Hw. rewrite exec_bind. specialize (Hp os w). destruct (exec os p w) as [[a|e] w1]; cbn [fst snd] in *.
  - intros Hb. by apply (Hf a (pw_rows w1)); [apply Hp|..].
  - by rewrite exec_ret.
Qed.
(** A call that answers has been done. *)
Lemma yields_call {A} l (e : priceE (result A)) (Q : A -> list TModelPrice -> Prop) :
  (forall x, price_fault e = Some x -> exists err, x = Err err) ->
  (forall w a, pw_rows w = l -> (price_handle e w).1 = Ok a -> Q a (pw_rows (price_handle e w).2)) -> yields l (call e) Q.
Proof.
  intros He Hq os w a Hw. unfold call. rewrite exec_call, exec_ret.
  destruct (hd Normal os); cbn [answer]; [|destruct (fault e) as [x|] eqn:E..]; try (by apply Hq);
    destruct (He x E) as [err ->]; done.
Qed.
(** What happens after the transaction has started, and commits. *)
Lemma yields_atomically {A} l (p : prog priceE (result A)) Q : yields l p Q -> yields l (atomically p) Q.
Proof.
  intros Hp os w a Hw. unfold atomically. rewrite exec_bind.
  destruct (exec os (AtomExecute None (as_body p)) w) as [[[e|] [a'|]] w'] eqn:E; cbn [fst snd]; rewrite exec_ret; cbn [fst]; try done.
  intros [= <-]. revert E. unfold AtomExecute. cbn [bind call]. rewrite exec_call.
  assert (pw_rows (answer (hd Normal os) tx_begin w).2 = l) as Hb by (by destruct (hd Normal os)).
  destruct (answer (hd Normal os) tx_begin w) as [[[]|e0] w0]; cbn [fst snd] in *; [|by rewrite exec_ret].
  unfold as_body. rewrite !exec_bind. specialize (Hp (tl os) w0). destruct (exec (tl os) p w0) as [[x|e1] w1]; rewrite exec_ret; cbn [fst snd bind call] in *.
  - rewrite exec_call. destruct (hd Normal (leftover _ _ _)); cbn [answer fault handle price_interp price_fault price_handle tx_commit price_txn fst snd bind call];
      rewrite ?exec_call, exec_ret; try discriminate. intros [= <- <-]. exact (Hp _ Hb eq_refl).
  - rewrite exec_call, exec_ret. by intros [=].
Qed.

(** * What an import does *)

(** The table as an import sees it: what is stored under a provider, a model
    and a mode. *)
Definition price_content (r : TModelPrice) : TModelPrice := put_price 0 (tm_BatchDiscount r) r.
Definition table_of (l : list TModelPrice) : gmap (string * string * string) TModelPrice :=
  list_to_map (map (fun r => (price_key r, price_content r)) l).
Definition entry_key (m : ModelPrice) : string * string * string := (mo_Provider m, mo_Model m, mo_Mode m).
(** An entry replaces what is stored under its key; but a discount that it
    does not give is kept, as UPDATE leaves a column alone that is not given. *)
Definition upsert (t : gmap (string * string * string) TModelPrice) (m : ModelPrice) : gmap (string * string * string) TModelPrice :=
  match toDAOParam m with
  | Ok p =>
      let kept := match t !! entry_key m with Some old => tm_BatchDiscount old | None => None end in
      <[entry_key m := put_price 0 (match tmp_BatchDiscount p with Some d => Some d | None => kept end) (tmp_Row p)]> t
  | Err _ => t
  end.

Lemma prices_unique_spec l : prices_unique l = true <-> NoDup (map tm_ID l) /\ NoDup (map price_key l).
Proof. unfold prices_unique. by rewrite andb_true_iff, !bool_decide_eq_true. Qed.
Lemma row_key m p : toDAOParam m = Ok p -> price_key (tmp_Row p) = entry_key m.
Proof. unfold toDAOParam. destruct (_ && _); [|done]. by intros [= <-]. Qed.
Lemma table_keys l : (map (fun r => (price_key r, price_content r)) l).*1 = map price_key l.
Proof. induction l as [|r l IH]; cbn; [done|]. by rewrite IH. Qed.
Lemma table_lookup l k c : prices_unique l = true ->
  table_of l !! k = Some c <-> exists r, r ∈ l /\ price_key r = k /\ price_content r = c.
Proof.
  rewrite prices_unique_spec. intros [_ Hk]. unfold table_of. rewrite <- elem_of_list_to_map by (by rewrite table_keys).
  rewrite list_elem_of_In, in_map_iff. setoid_rewrite list_elem_of_In. naive_solver.
Qed.
Lemma table_snoc l id m p : toDAOParam m = Ok p -> prices_unique (l ++ [insert_price id p]) = true ->
  table_of (l ++ [insert_price id p]) = upsert (table_of l) m.
Proof.
  intros Hp Hu. apply prices_unique_spec in Hu as [_ Hu]. apply NoDup_map_snoc in Hu as [_ Hu].
  assert (price_key (insert_price id p) = entry_key m) as Hk by (rewrite <- (row_key m p Hp); done). rewrite Hk in Hu.
  unfold upsert. rewrite Hp. unfold table_of at 1. rewrite map_app. cbn [map].
  rewrite list_to_map_snoc by (by rewrite table_keys, Hk). rewrite Hk.
  assert (table_of l !! entry_key m = None) as ->.
  { unfold table_of. apply not_elem_of_list_to_map_1. by rewrite table_keys. }
  f_equal. unfold price_content, insert_price. cbn. by destruct (tmp_BatchDiscount p).
Qed.
Lemma table_changed l r m p : toDAOParam m = Ok p -> prices_unique l = true -> r ∈ l -> price_key r = entry_key m ->
  prices_unique (changed (where_price (filterToDAOParam (byPriceID (tm_ID r)))) (assign_price p) l) = true ->
  table_of (changed (where_price (filterToDAOParam (byPriceID (tm_ID r)))) (assign_price p) l) = upsert (table_of l) m.
Proof.
  intros Hp Hu Hr Hkey Hu'. apply map_eq. intros k. apply option_eq. intros c. rewrite (table_lookup _ _ _ Hu').
  assert (table_of l !! entry_key m = Some (price_content r)) as Hold by (apply table_lookup; [done|]; by exists r).
  assert (forall x, x ∈ l -> where_price (filterToDAOParam (byPriceID (tm_ID r))) x = true -> x = r) as Hhit.
  { intros x Hx. unfold where_price. cbn. rewrite !andb_true_r, bool_decide_eq_true. intros E.
    apply prices_unique_spec in Hu as [Hid _]. by apply (NoDup_map_same tm_ID l). }
  assert (where_price (filterToDAOParam (byPriceID (tm_ID r))) r = true) as Hself by (unfold where_price; cbn; by rewrite bool_decide_eq_true_2).
  unfold upsert. rewrite Hp, Hold. cbn [tm_BatchDiscount price_content put_price]. unfold changed. setoid_rewrite list_elem_of_In. setoid_rewrite in_map_iff.
  destruct (decide (k = entry_key m)) as [->|Hk].
  - rewrite lookup_insert_eq. split.
    + intros (x & (y & <- & Hy) & Hkx & <-). apply list_elem_of_In in Hy. destruct (where_price _ y) eqn:E.
      * rewrite (Hhit y Hy E). done.
      * assert (y = r) as ->; [|congruence]. apply prices_unique_spec in Hu as [_ Hu]. apply (NoDup_map_same price_key l); [done..|congruence].
    + intros [= <-]. exists (assign_price p r). split; [exists r; rewrite Hself; split; [done|by apply list_elem_of_In]|].
      by split; [rewrite <- (row_key m p Hp)|].
  - rewrite lookup_insert_ne by done. rewrite (table_lookup _ _ _ Hu). split.
    + intros (x & (y & <- & Hy) & Hkx & Hc). apply list_elem_of_In in Hy. destruct (where_price _ y) eqn:E; [|by exists y].
      destruct Hk. rewrite <- Hkx. by rewrite <- (row_key m p Hp).
    + intros (y & Hy & Hky & Hc). exists y. split; [|done]. exists y. split; [|by apply list_elem_of_In].
      destruct (where_price _ y) eqn:E; [|done]. destruct Hk. rewrite (Hhit y Hy E) in Hky. congruence.
Qed.

(** Ids and keys, which an import only adds. *)
Definition id_keys (l : list TModelPrice) : list (Z * (string * string * string)) := map (fun r => (tm_ID r, price_key r)) l.

Lemma id_keys_in l i k : (i, k) ∈ id_keys l <-> exists r, r ∈ l /\ tm_ID r = i /\ price_key r = k.
Proof.
  unfold id_keys. rewrite list_elem_of_In, in_map_iff. setoid_rewrite list_elem_of_In. split.
  - intros (r & [= <- <-] & Hr). by exists r.
  - intros (r & Hr & <- & <-). by exists r.
Qed.
Lemma yields_create l m : yields l (CreateModelPriceRow m) (fun _ l' => prices_unique l' = true /\
  table_of l' = upsert (table_of l) m /\ (exists i, id_keys l' = id_keys l ++ [(i, entry_key m)])%list /\ entry_key m ∉ map price_key l).
Proof.
  unfold CreateModelPriceRow. destruct (toDAOParam m) as [p|e] eqn:Hp; [|apply yields_err]. apply yields_call; [intros x [= <-]; by eexists|].
  intros w id Hw. cbn [price_handle]. destruct (prices_unique _) eqn:Hu; [|done]. intros [= <-]. cbn [snd put_rows next_price pw_rows]. rewrite Hw in *.
  split; [done|]. split; [by apply table_snoc|].
  assert (price_key (insert_price (pw_next w) p) = entry_key m) as Hk by (rewrite <- (row_key m p Hp); done). split.
  - exists (pw_next w). unfold id_keys. rewrite map_app. cbn [map]. by rewrite Hk.
  - apply prices_unique_spec in Hu as [_ Hu]. apply NoDup_map_snoc in Hu as [_ Hu]. by rewrite Hk in Hu.
Qed.
Lemma yields_update l i m : prices_unique l = true -> (i, entry_key m) ∈ id_keys l ->
  yields l (UpdateModelPriceRow (byPriceID i) m) (fun _ l' => prices_unique l' = true /\
    table_of l' = upsert (table_of l) m /\ id_keys l' = id_keys l).
Proof.
  intros Hu (r & Hr & <- & Hk)%id_keys_in. unfold UpdateModelPriceRow. destruct (toDAOParam m) as [p|e] eqn:Hp; [|apply yields_err].
  apply yields_call; [intros x [= <-]; by eexists|]. intros w n Hw. cbn [price_handle]. rewrite Hw.
  set (l' := changed _ _ l). destruct (prices_unique l') eqn:Hu'; [|done]. intros _. cbn [snd put_rows pw_rows]. split; [done|]. split; [by apply table_changed|].
  unfold id_keys, l', changed. rewrite map_map. apply map_ext_in. intros x Hx. apply list_elem_of_In in Hx. destruct (where_price _ x) eqn:E; [|done].
  unfold where_price in E. cbn in E. rewrite !andb_true_r, bool_decide_eq_true in E.
  assert (x = r) as -> by (apply prices_unique_spec in Hu as [Hid _]; by apply (NoDup_map_same tm_ID l)).
  rewrite Hk, <- (row_key m p Hp). done.
Qed.

(** What is true of the table before a loop over the entries is true after it,
    if each entry keeps it so, and every entry leaves its mark. *)
Lemma yields_each (f : ModelPrice -> prog priceE (result Z)) (I : gmap (string * string * string) TModelPrice -> list TModelPrice -> Prop) (mark : ModelPrice -> Prop) entries :
  (forall m t l, m ∈ entries -> I t l -> yields l (f m) (fun _ l' => I (upsert t m) l' /\ mark m)) ->
  forall t l, I t l -> yields l (each_entry f entries) (fun _ l' => I (foldl upsert t entries) l' /\ Forall mark entries).
Proof.
  unfold each_entry, run_checks. induction entries as [|m entries IH]; intros Hf t l Hi; cbn [for_each foldl].
  - apply yields_ok. split; [done|constructor].
  - intros os w u Hw. rewrite exec_bind. pose proof (yields_try l (f m) (fun _ => Ret (Ok tt)) _ (fun _ l' => I (upsert t m) l' /\ mark m) (Hf m t l (list_elem_of_here _ _) Hi)
      (fun _ l' Hl' => yields_ok l' tt _ Hl') os w) as Hm.
    destruct (exec os (_ <-? f m ;; Ret (Ok tt)) w) as [[[]|e] w1]; cbn [fst snd] in *.
    + destruct (Hm tt Hw eq_refl) as [Hi' Hm']. intros Hu.
      destruct (IH (fun m' t' l' Hin => Hf m' t' l' (list_elem_of_further _ _ _ Hin)) _ _ Hi' _ w1 u eq_refl Hu) as [H1 H2]. split; [done|by constructor].
    + by rewrite checks_stopped, exec_ret.
Qed.

(** ** The keys of the merge *)

(** Names without the separator of [Key]. *)
Definition plain (provider model : string) : Prop := has_byte provider "|" = false /\ has_byte model "|" = false.
Lemma Key_inj m m' : plain (mo_Provider m) (mo_Model m) -> plain (mo_Provider m') (mo_Model m') -> Key m = Key m' -> entry_key m = entry_key m'.
Proof.
  intros [H1 H2] [H3 H4] E. unfold Key in E. apply bar_inj in E as [E1 E]; [|done..]. apply bar_inj in E as [E2 E3]; [|done..].
  unfold entry_key. congruence.
Qed.
Definition plain_rows (l : list TModelPrice) : Prop := forall r, r ∈ l -> plain (tm_Provider r) (tm_Model r).
Definition plain_entries (l : list ModelPrice) : Prop := forall m, m ∈ l -> plain (mo_Provider m) (mo_Model m).

(** The rows that the merge looks at. *)
Definition first_page (l : list TModelPrice) : list TModelPrice := take 50 l.
Lemma whole_page l : page_of 1 50 (List.filter (where_price (filterToDAOParam noPriceFilter)) l) = first_page l.
Proof.
  change (List.filter _ l) with (List.filter (fun _ : TModelPrice => true) l). rewrite filter_true. unfold page_of, first_page.
  change ((1 - 1) * 50 mod 2 ^ 64)%Z with 0%Z. cbv zeta. destruct (Z.leb_spec (Z.of_nat (length l)) 0); [|reflexivity].
  destruct l; [done|cbn in *; lia].
Qed.

Lemma existing_spec rows k :
  match existing_map rows !! k with
  | Some i => exists m, m ∈ rows /\ Key m = k /\ mo_ID m = i
  | None => forall m, m ∈ rows -> Key m <> k
  end.
Proof.
  unfold existing_map. induction rows as [|m rows IH] using rev_ind; [cbn [foldl]; rewrite lookup_empty; by intros m ?%list.not_elem_of_nil|].
  rewrite foldl_snoc. destruct (decide (Key m = k)) as [<-|Hk].
  - rewrite lookup_insert_eq. exists m. split; [set_solver|done].
  - rewrite lookup_insert_ne by done. destruct (_ !! k); [destruct IH as (m' & Hm & ?); exists m'; split; [set_solver|done]|].
    intros m' [Hm|Hm]%list.elem_of_app; [by apply IH|]. apply list_elem_of_singleton in Hm as ->. done.
Qed.
Lemma Key_row r : Key (fromDAO r) = Key (fromDAO r) /\ entry_key (fromDAO r) = price_key r.
Proof. done. Qed.

(** One entry of a merge into rows whose first page was [first_page l0]. *)
Lemma yields_merge_entry l0 m t l : plain_rows l0 -> prices_unique l0 = true -> plain (mo_Provider m) (mo_Model m) ->
  prices_unique l = true /\ table_of l = t /\ (forall x, x ∈ id_keys l0 -> x ∈ id_keys l) ->
  yields l (merge_entry (existing_map (map fromDAO (first_page l0))) m) (fun _ l' =>
    (prices_unique l' = true /\ table_of l' = upsert t m /\ (forall x, x ∈ id_keys l0 -> x ∈ id_keys l')) /\
    (forall r, r ∈ l0 -> price_key r = entry_key m -> r ∈ first_page l0)).
Proof.
  intros H0 Hu0 Hm (Hu & <- & Hin). unfold merge_entry. pose proof (existing_spec (map fromDAO (first_page l0)) (Key m)) as Hex.
  assert (forall r, r ∈ first_page l0 -> r ∈ l0) as Hsub by (intros r; apply subseteq_take).
  destruct (existing_map _ !! Key m) as [i|].
  - destruct Hex as (m' & Hm' & Hkey & Hid). apply list_elem_of_In, in_map_iff in Hm' as (r & <- & Hr). apply list_elem_of_In in Hr.
    assert (price_key r = entry_key m) as Hk by (apply (Key_inj (fromDAO r) m); [apply H0, Hsub, Hr|done..]).
    assert ((i, entry_key m) ∈ id_keys l) as Hik by (apply Hin, id_keys_in; exists r; split; [by apply Hsub|done]).
    eapply yields_weaken; [by apply yields_update|]. cbv beta. intros _ l' (Hu' & Ht & Hids). split; [split; [done|split; [done|by rewrite Hids]]|].
    intros r' Hr' Hk'. apply prices_unique_spec in Hu0 as [_ Hu0].
    by rewrite (NoDup_map_same price_key l0 r' r Hu0 Hr' (Hsub r Hr)) by congruence.
  - eapply yields_weaken; [apply yields_create|]. cbv beta. intros _ l' (Hu' & Ht & (i & Hids) & Hno). split.
    + split; [done|]. split; [done|]. intros x Hx. rewrite Hids. set_solver.
    + intros r Hr Hk. destruct Hno. assert ((tm_ID r, price_key r) ∈ id_keys l) as (x & Hx & _ & Hkx)%id_keys_in by (apply Hin, id_keys_in; by exists r).
      rewrite <- Hk, <- Hkx. apply list_elem_of_In, in_map. by apply list_elem_of_In.
Qed.

#[export] Instance same_rows_preorder : PreOrder (fun w w' : pworld => pw_rows w' = pw_rows w).
Proof. split; [done|]. intros x y z H1 H2. congruence. Qed.
#[export] Instance kept_rows_preorder : PreOrder (fun w w' : pworld => pw_saved w' = pw_saved w).
Proof. split; [done|]. intros x y z H1 H2. congruence. Qed.
#[export] Instance price_transactional : Transactional priceE pworld (fun w w' => pw_rows w' = pw_rows w) (fun w w' => pw_saved w' = pw_saved w).
Proof.
  split; try apply _.
  - intros [] w e; by cbn.
  - intros [] [] w w1 Hok Hs; try discriminate Hok; cbn in *; by rewrite Hs.
  - done.
  - by intros w.
  - by intros [] w.
  - done.
Qed.
Definition price_statement (R : Type) (e : priceE R) : Prop := match e with PriceBegin | PriceCommit | PriceRollback => False | _ => True end.

Lemma statement_kept R (e : priceE R) w : price_statement R e -> pw_saved (handle e w).2 = pw_saved w.
Proof. intros He. destruct e; try done; cbn; by destruct (prices_unique _). Qed.
(** Recording changes no row. *)
Lemma exec_recorded {A} (p : prog priceE (result A)) (entry : option goerr -> ConfLogEntry) os w :
  let '(r, w') := exec os (recorded (fun e => call (RecordPrice (entry e))) p) w in
  r = (exec os p w).1 /\ pw_rows w' = pw_rows (exec os p w).2.
Proof.
  unfold recorded. rewrite exec_bind. destruct (exec os p w) as [r w1]. cbn [bind call]. rewrite exec_call, exec_ret.
  by destruct (hd Normal _).
Qed.

Section ListImport.
Context `{RangeOrder}.
Variable RmbPrecision : spec_float.

Lemma statements_fetch f : all_calls price_statement (FetchModelPriceRows f).
Proof. unfold FetchModelPriceRows. calls_solve ltac:(idtac); done. Qed.
Lemma statements_each f entries : (forall m, all_calls price_statement (f m)) -> all_calls price_statement (each_entry f entries).
Proof. intros Hf. apply all_calls_checks. intros m _. apply all_calls_try; [apply Hf|constructor]. Qed.
Lemma statements_create m : all_calls price_statement (CreateModelPriceRow m).
Proof. unfold CreateModelPriceRow. calls_solve ltac:(idtac); done. Qed.
Lemma statements_update f m : all_calls price_statement (UpdateModelPriceRow f m).
Proof. unfold UpdateModelPriceRow. calls_solve ltac:(idtac); done. Qed.
Lemma statements_import (b : bool) entries : all_calls price_statement (if b then import_replace entries else import_merge entries).
Proof.
  destruct b.
  - apply all_calls_try; [by apply all_calls_one|]. intros _. apply statements_each, statements_create.
  - apply all_calls_try; [apply statements_fetch|]. intros rows. apply statements_each. intros m. unfold merge_entry.
    destruct (_ !! _); [apply statements_update|apply statements_create].
Qed.

Lemma yields_replace entries l : yields l (import_replace entries) (fun _ l' => table_of l' = foldl upsert ∅ entries).
Proof.
  apply (yields_try l _ _ (fun _ l' => l' = [])).
  { apply yields_call; [intros x [= <-]; by eexists|done]. }
  intros _ l' ->. eapply yields_weaken.
  - apply (yields_each _ (fun t l => table_of l = t) (fun _ => True)); [|reflexivity].
    intros m t l' _ <-. eapply yields_weaken; [apply yields_create|]. by intros i l'' (_ & ? & _).
  - by intros _ l'' [? _].
Qed.
Lemma yields_merge entries l : prices_unique l = true -> plain_rows l -> plain_entries entries ->
  yields l (import_merge entries) (fun _ l' => table_of l' = foldl upsert (table_of l) entries /\
    Forall (fun m => forall r, r ∈ l -> price_key r = entry_key m -> r ∈ first_page l) entries).
Proof.
  intros Hu Hr He. apply (yields_try l _ _ (fun rows l' => rows.1 = map fromDAO (first_page l) /\ l' = l)).
  { unfold FetchModelPriceRows. apply (yields_try l _ _ (fun rows l' => rows = first_page l /\ l' = l)).
    - apply yields_call; [intros x [= <-]; by eexists|]. intros w a <-. cbn [price_handle fst snd]. intros [= <-]. by split; [rewrite <- whole_page|].
    - intros rows l' [-> ->]. apply (yields_try l _ _ (fun _ l' => l' = l)).
      + apply yields_call; [intros x [= <-]; by eexists|]. by intros w a <-.
      + intros n l' ->. by apply yields_ok. }
  intros rows l' [-> ->]. eapply yields_weaken.
  - apply (yields_each _ (fun t l' => prices_unique l' = true /\ table_of l' = t /\ (forall x, x ∈ id_keys l -> x ∈ id_keys l'))
      (fun m => forall r, r ∈ l -> price_key r = entry_key m -> r ∈ first_page l)); [|done].
    intros m t l' Hm Hi. apply yields_merge_entry; [done..|by apply He|done].
  - by intros _ l'' [(_ & ? & _) ?].
Qed.

(** An import runs one transaction, records it, and counts its entries. *)
Definition import_body (mode : string) (entries : list ModelPrice) : prog priceE (result unit) :=
  if bool_decide (mode = ImportModeReplace) then import_replace entries else import_merge entries.
Lemma import_runs entries mode os w :
  let '(r, w') := exec os (ImportModelPrices RmbPrecision entries mode) w in
  match r with
  | Ok n => (mode = ImportModeReplace \/ mode = ImportModeMerge) /\ n = Z.of_nat (length (omap id entries)) /\
      exists u w1, exec os (atomically (import_body mode (omap id entries))) w = (Ok u, w1) /\ pw_rows w' = pw_rows w1
  | Err e => pw_rows w' = pw_rows w \/
      exists w1, exec os (atomically (import_body mode (omap id entries))) w = (Err e, w1) /\ pw_rows w' = pw_rows w1 /\
        (commit_unanswered os (atomically (import_body mode (omap id entries))) w = true ->
         commit_unanswered os (ImportModelPrices RmbPrecision entries mode) w = true)
  end.
Proof.
  unfold ImportModelPrices, after_check. destruct (_ &> _) eqn:Ev.
  - rewrite andthen_accept, refuse_if_accept, andb_false_iff, !negb_false_iff, !bool_decide_eq_true in Ev. destruct Ev as [Hmode _].
    cbv zeta. rewrite exec_bind. fold (import_body mode (omap id entries)).
    pose proof (exec_recorded (atomically (import_body mode (omap id entries))) (mkConfLog "import" "model_price" "batch" "model_price_import") os w) as Hr.
    assert (forall g : result unit -> prog priceE (result Z), commit_unanswered os (atomically (import_body mode (omap id entries))) w = true ->
      commit_unanswered os (bind (recorded recordModelPriceImport (atomically (import_body mode (omap id entries)))) g) w = true) as Hl
      by (intros g Hg; by apply unanswered_first, unanswered_first).
    change (fun e => call (RecordPrice (mkConfLog "import" "model_price" "batch" "model_price_import" e))) with recordModelPriceImport in Hr.
    destruct (exec os (recorded recordModelPriceImport _) w) as [r w2]. destruct Hr as [-> Hrows].
    destruct (exec os (atomically (import_body mode (omap id entries))) w) as [[u|e] w1]; cbn [fst snd] in *; rewrite exec_ret; cbn.
    + split; [done|]. split; [done|]. by exists u, w1.
    + right. exists w1. split; [done|]. split; [done|]. apply Hl.
  - unfold recordModelPriceImport. cbn [bind call]. rewrite exec_call, exec_ret. left. by destruct (hd Normal os).
  - rewrite exec_ret. by left.
Qed.

(** What an import says it does. *)
Definition imported (mode : string) (entries : list ModelPrice) (w w' : pworld) : Prop :=
  table_of (pw_rows w') = foldl upsert (if bool_decide (mode = ImportModeReplace) then ∅ else table_of (pw_rows w)) entries.

(** C19: where no provider or model, stored or given, has the separator of the
    keys in its name, an import that is answered with success has done what the
    code means by it: after a replacement the table holds the entries and
    nothing else; after a merge every entry has replaced what was stored under
    its provider, model and mode, but for a stored discount, which stays when
    the entry gives none, and the rest is as it was.  One that is answered with
    an error has changed nothing, whichever calls failed, or has done all of it
    and only the answer of its COMMIT was lost. *)
Theorem import_is_upsert entries mode os w : prices_unique (pw_rows w) = true ->
  plain_rows (pw_rows w) -> plain_entries (omap id entries) ->
  let '(r, w') := exec os (ImportModelPrices RmbPrecision entries mode) w in
  match r with
  | Ok n => n = Z.of_nat (length (omap id entries)) /\ imported mode (omap id entries) w w'
  | Err _ => pw_rows w' = pw_rows w \/
      (commit_unanswered os (ImportModelPrices RmbPrecision entries mode) w = true /\ imported mode (omap id entries) w w')
  end.
Proof.
  intros Hu Hr He. pose proof (import_runs entries mode os w) as Hrun.
  assert (yields (pw_rows w) (import_body mode (omap id entries)) (fun _ l => table_of l =
    foldl upsert (if bool_decide (mode = ImportModeReplace) then ∅ else table_of (pw_rows w)) (omap id entries))) as Hy.
  { unfold import_body. destruct (bool_decide _); [apply yields_replace|]. eapply yields_weaken; [by apply yields_merge|]. by intros _ l [? _]. }
  destruct (exec os (ImportModelPrices _ entries mode) w) as [[n|e] w'].
  - destruct Hrun as (_ & -> & u & w1 & Hx & Hrows). split; [done|]. unfold imported. rewrite Hrows.
    pose proof (yields_atomically (pw_rows w) _ _ Hy os w u eq_refl) as Ha. rewrite Hx in Ha. by apply Ha.
  - destruct Hrun as [->|(w1 & Hx & Hrows & Hl)]; [by left|].
    destruct (atomically_ends (same := fun w w' => pw_rows w' = pw_rows w) price_statement statement_kept _ os w e
      (statements_import (bool_decide (mode = ImportModeReplace)) (omap (M := list) id entries))) as [Hs|(Hc & os' & w0 & u & H0 & H1 & H2)];
      fold (import_body mode (omap id entries)) in *; rewrite ?Hx in *; cbn [fst snd] in *; [done|left; by rewrite Hrows|right]. split; [by apply Hl|].
    unfold imported. rewrite Hrows, H2. apply (Hy os' w0 u); [|done]. change w0 with ((Ok (A := unit) tt, w0).2). rewrite <- H0. by destruct (hd Normal os).
Qed.

(** A merge looks at the first fifty rows only.  An entry for a row further
    down is taken for a new one, which the unique key of the table refuses, so
    that the import always fails, whatever its other entries are. *)
Theorem merge_beyond_first_page_fails entries m r os w : prices_unique (pw_rows w) = true ->
  plain_rows (pw_rows w) -> plain_entries (omap id entries) ->
  m ∈ omap id entries -> r ∈ pw_rows w -> price_key r = entry_key m -> r ∉ first_page (pw_rows w) ->
  exists e, (exec os (ImportModelPrices RmbPrecision entries ImportModeMerge) w).1 = Err e.
Proof.
  intros Hu Hr He Hm Hrow Hk Hno. pose proof (import_runs entries ImportModeMerge os w) as Hrun.
  destruct (exec os (ImportModelPrices _ entries _) w) as [[n|e] w']; [|by exists e].
  destruct Hrun as (_ & _ & u & w1 & Hx & _). destruct Hno.
  pose proof (yields_atomically (pw_rows w) _ _ (yields_merge (omap id entries) (pw_rows w) Hu Hr He) os w u eq_refl) as Hy.
  change (import_body ImportModeMerge (omap id entries)) with (import_merge (omap id entries)) in Hx. rewrite Hx in Hy.
  destruct (Hy eq_refl) as [_ HF]. rewrite list.Forall_forall in HF. by apply (HF m Hm).
Qed.
End ListImport.

(** * Sample price lists *)

#[local] Instance sample_range : RangeOrder := {| range_of := fun A => map_to_list; range_perm := fun A m => reflexivity _ |}.
Definition sample_precision : spec_float := float_of_Z 100000000.
Definition cents (n : Z) : spec_float := SFdiv 53 1024 (float_of_Z n) (float_of_Z 100).
Definition price_of (provider model : string) (n : Z) (discount : option spec_float) : ModelPrice :=
  mkModelPrice 0 provider model "base" "chat" ["chat"] ["top_p"] {["max_tokens" := AnyInt 4096]}
    {["input_cost_per_token" := cents n]} {["peak" := {["input_cost_per_token" := cents (2 * n)]}]} discount "" ∅.
Definition price_row (id : Z) (m : ModelPrice) : TModelPrice :=
  match toDAOParam m with Ok p => insert_price id p | Err _ => mkTModelPrice id "" "" "" "" [] [] ∅ ∅ ∅ None "" ∅ end.
Definition rows_of (l : list ModelPrice) : list TModelPrice := imap (fun i m => price_row (Z.of_nat i) m) l.
Definition price_world (l : list ModelPrice) : pworld := mkPWorld (rows_of l) None (Z.of_nat (length l)) [].
Definition two_prices : list ModelPrice := [price_of "openai" "gpt-4" 3 (Some (cents 50)); price_of "openai" "gpt-5" 7 None].
(** As many prices as given, of one provider. *)
Definition catalogue (n : nat) : list ModelPrice := map (fun i => price_of "openai" ("gpt-" +:+ FormatInt (Z.of_nat i)) 5 None) (seq 0 n).

Lemma plain_rows_check l : forallb (fun r => negb (has_byte (tm_Provider r) "|" || has_byte (tm_Model r) "|")) l = true -> plain_rows l.
Proof.
  intros Hl r Hr. rewrite forallb_forall in Hl. apply list_elem_of_In in Hr. specialize (Hl r Hr). by apply negb_true_iff, orb_false_iff in Hl.
Qed.
Lemma plain_entries_check l : forallb (fun m => negb (has_byte (mo_Provider m) "|" || has_byte (mo_Model m) "|")) l = true -> plain_entries l.
Proof.
  intros Hl r Hr. rewrite forallb_forall in Hl. apply list_elem_of_In in Hr. specialize (Hl r Hr). by apply negb_true_iff, orb_false_iff in Hl.
Qed.

Definition new_prices : list (option ModelPrice) := [Some (price_of "openai" "gpt-4" 4 None); Some (price_of "google" "gemini" 2 None)].
Definition price_tags (l : list TModelPrice) : list (string * string * bool) := map (fun r => (tm_Provider r, tm_Model r, bool_decide (is_Some (tm_BatchDiscount r)))) l.
Example import_merges :
  let after := exec [] (ImportModelPrices sample_precision new_prices ImportModeMerge) (price_world two_prices) in
  after.1 = Ok 2%Z /\ price_tags (pw_rows after.2) = [("openai", "gpt-4", true); ("openai", "gpt-5", false); ("google", "gemini", false)].
Proof. split; by vm_compute. Qed.
Lemma import_is_upsert_witness :
  prices_unique (pw_rows (price_world two_prices)) = true /\
  match exec [] (ImportModelPrices sample_precision new_prices ImportModeMerge) (price_world two_prices) with
  | (Ok n, w') => n = 2%Z /\ table_of (pw_rows w') = foldl upsert (table_of (rows_of two_prices)) (omap id new_prices)
  | (Err _, _) => False
  end.
Proof.
  split; [by vm_compute|].
  pose proof (import_is_upsert sample_precision new_prices ImportModeMerge [] (price_world two_prices)) as Hi.
  destruct (exec [] (ImportModelPrices sample_precision new_prices ImportModeMerge) (price_world two_prices)) as [r w'] eqn:E.
  assert (r = Ok 2%Z) as -> by (transitivity (fst (r, w')); [done|]; rewrite <- E; by vm_compute).
  apply Hi; [by vm_compute|apply plain_rows_check; by vm_compute|apply plain_entries_check; by vm_compute].
Defined.

(** Importing the last row of a table of fifty-one once more, unchanged. *)
Definition last_price : ModelPrice := price_of "openai" "gpt-50" 5 None.
Lemma merge_beyond_first_page_fails_witness :
  exists e, (exec [] (ImportModelPrices sample_precision [Some last_price] ImportModeMerge) (price_world (catalogue 51))).1 = Err e.
Proof.
  apply (merge_beyond_first_page_fails sample_precision [Some last_price] last_price (price_row 50 last_price)); [by vm_compute| | | | |by vm_compute|].
  - apply plain_rows_check. by vm_compute.
  - apply plain_entries_check. by vm_compute.
  - by left.
  - apply (list_elem_of_lookup_2 _ 50). by vm_compute.
  - intros Hin. assert (forallb (fun r => tm_ID r <? 50)%Z (first_page (pw_rows (price_world (catalogue 51)))) = true) as Hall by (by vm_compute).
    rewrite forallb_forall in Hall. apply list_elem_of_In in Hin. specialize (Hall _ Hin). by vm_compute in Hall.
Defined.

Lemma sample_row_priced id m : ValidateModelPrice sample_precision (Some m) = Accept -> is_ok (toDAOParam m) = true -> priced sample_precision (price_row id m).
Proof.
  intros Hv Hp. unfold price_row. destruct (toDAOParam m) as [p|e] eqn:E; [|done].
  apply insert_priced. by apply (accepted_priced sample_precision m p).
Qed.
Lemma sample_rows_priced l : Forall (fun m => ValidateModelPrice sample_precision (Some m) = Accept /\ is_ok (toDAOParam m) = true) l ->
  Forall (priced sample_precision) (rows_of l).
Proof.
  intros Hl. apply list.Forall_lookup. intros i r. unfold rows_of. rewrite list_lookup_imap. intros (m & Hm & ->)%fmap_Some.
  rewrite list.Forall_lookup in Hl. destruct (Hl i m Hm). by apply sample_row_priced.
Qed.
Definition price_schedule : list (nat * outcome) := repeat (0, Normal) 3 ++ [(1, FailAfter)] ++ repeat (1, Normal) 9.
Definition price_requests : list price_request :=
  [PutPrice "1" (price_of "openai" "gpt-5" 9 None); ImportPrices "merge" (Some (mkModelListFile "v1.0" "RMB" new_prices))].
Lemma stored_prices_countable_witness :
  prices_ok sample_precision (interleave price_schedule (map (serve_price sample_precision) price_requests) (price_world two_prices)).2.
Proof.
  apply (stored_prices_countable sample_precision price_schedule price_requests (price_world two_prices)).
  split; [|done]. split; [by vm_compute|].
  apply sample_rows_priced. constructor; [split; by vm_compute|]. constructor; [split; by vm_compute|constructor].
Defined.

(** * What goes wrong *)

(** A PUT with another discount reports success and keeps the old one. *)
Example put_ignores_discount :
  let after := exec [] (serve_price sample_precision (PutPrice "0" (price_of "openai" "gpt-4" 3 (Some (cents 80))))) (price_world two_prices) in
  is_ok after.1 = true /\ map tm_BatchDiscount (pw_rows after.2) = [Some (cents 50); None].
Proof. split; by vm_compute. Qed.

(** Two keys that are not the same become the same text, so that a merge
    overwrites the price of another model. *)
Example separator_in_names :
  let after := exec [] (ImportModelPrices sample_precision [Some (price_of "acme" "large|v2" 9 None)] ImportModeMerge)
                 (price_world [price_of "acme|large" "v2" 1 None]) in
  after.1 = Ok 1%Z /\ map price_key (pw_rows after.2) = [("acme", "large|v2", "chat")].
Proof. split; by vm_compute. Qed.

(** A discount that is not a number passes its check, since YAML can give
    one and both comparisons with it are false. *)
Example nan_discount_accepted : ValidateModelPrice sample_precision (Some (price_of "acme" "v2" 1 (Some S754_nan))) = Accept.
Proof. by vm_compute. Qed.
