(* ===== verification/RouteModel.v ===== *)
(** Domains and the forwarding rules of products ([model/iroute_conf], its
    storage [storage/rdb/route_conf] and the tables [domains],
    [route_advance_rules] and [route_basic_rules]): the data, the tables, the
    two managers, and the host and route tables of an export.

    A column that holds JSON is the value it encodes.  The times of rows and
    the summaries of changes are left out, and so are the HTTP actions, none of
    which is registered. *)
From Stdlib Require Import ZArith Lia Ascii.
From stdpp Require Import base tactics numbers list strings gmap option sorting.
From S2P Require Import Prelude GoStrings GoNet Prog OperLog Validate ProviderModel ClusterModel ProviderManager ClusterManager PriceModel.

Local Open Scope string_scope.

(** [sort.Slice]: some order of the elements in which none comes before a
    smaller one. *)
Class SliceSort : Type := {
  sort_slice : forall {A}, (A -> Z) -> list A -> list A;
  sort_slice_perm : forall {A} (key : A -> Z) l, sort_slice key l ≡ₚ l;
  sort_slice_sorted : forall {A} (key : A -> Z) l, StronglySorted (fun a b => key a <= key b)%Z (sort_slice key l)
}.

(** * Data ([domain.go], [route_rule.go]) *)

Record Domain : Type := mkDomain {
  do_ID : Z; do_ProductID : Z; do_Name : string; do_UsingAdvancedRedirect : Z; do_UsingAdvancedHsts : Z
}.
Record DomainFilter : Type := mkDomainFilter { df_Product : option ConfProduct; df_Name : option string }.
Record DomainParam : Type := mkDomainParam {
  dp_ProductID : option Z; dp_Name : option string; dp_UsingAdvancedRedirect : option Z; dp_UsingAdvancedHsts : option Z
}.
Record BasicRouteRule : Type := mkBasicRule {
  br_HostNames : list string; br_Paths : list string; br_ClusterName : string; br_ClusterID : Z; br_Description : string
}.
Record AdvanceRouteRule : Type := mkAdvanceRule {
  ar_Name : string; ar_Description : string; ar_Expression : string; ar_ClusterName : string; ar_ClusterID : Z
}.
Record ProductRouteRule : Type := mkProductRule { pr_Basic : list BasicRouteRule; pr_Advance : list AdvanceRouteRule }.
Record HostUsedInfo : Type := mkHostUsed { hu_Type : string; hu_Detail : string }.

Definition DefaultExpression : string := "default_t()".

(** The expression that asks for one host. *)
Definition host_keyword (host : string) : string :=
  "req_host_in(" +:+ String (ascii_of_N 34) (host +:+ String (ascii_of_N 34) ")").
Definition HostBeUsed (rule : ProductRouteRule) (host : string) : option HostUsedInfo :=
  if existsb (fun b => existsb (fun h => bool_decide (host = h)) (br_HostNames b)) (pr_Basic rule)
  then Some (mkHostUsed "BasicConditionExpression" host)
  else match List.find (fun a => Contains (ar_Expression a) (host_keyword host)) (pr_Advance rule) with
       | Some a => Some (mkHostUsed "AdvanceConditionExpression" (ar_Expression a))
       | None => None
       end.

Definition last_expression (l : list AdvanceRouteRule) : option string := option_map ar_Expression (last l).
(** The names of the clusters that the rules lead to. *)
Definition Convert (rule : ProductRouteRule) : result (list string) :=
  if negb (bool_decide (last_expression (pr_Advance rule) = Some DefaultExpression))
  then Err (ParamError "Last ForwardRule Expression Must Be default_t()")
  else Ok (remove_dups (map br_ClusterName (pr_Basic rule) ++ map ar_ClusterName (pr_Advance rule))%list).

(** * Reserved clusters ([model/icluster_conf/cluster.go]) *)

Definition RouteAdvancedModeClusterName : string := "GO_TO_ADVANCED_RULES".
Definition RouteAdvancedModeClusterID : Z := -1.

Section Reserved.
(** the name of the advanced mode in the gateway's package *)
Variable RouteAdvancedModeClusterName4DP : string.

Definition SystemKeepRouteNames (name : string) : bool :=
  bool_decide (name = RouteAdvancedModeClusterName) || bool_decide (name = RouteAdvancedModeClusterName4DP).
(** The fields that are not set are never read. *)
Definition advanced_cluster : Cluster :=
  mkCluster RouteAdvancedModeClusterID RouteAdvancedModeClusterName4DP "" false 0
    (mkBasic (mkConnection 0 false) (mkRetries 0 0) (mkBuffers 0 0 0) (mkTimeouts 0 0 0 0 0) "") (mkSticky false 0 "") [] None
    (mkHealth "" 0 0 0 "" "") None "" "" "".
Definition AppendAdvancedRuleCluster (l : list Cluster) : list Cluster := (l ++ [advanced_cluster])%list.
End Reserved.

(** Of several clusters the last. *)
Definition ClusterList2MapByName (l : list Cluster) (name : string) : option Cluster :=
  List.find (fun c => bool_decide (cl_Name c = name)) (rev l).
Definition ClusterList2MapByID (l : list Cluster) (id : Z) : option Cluster :=
  List.find (fun c => bool_decide (cl_ID c = id)) (rev l).

(** * Tables and calls *)

Record TDomain : Type := mkTDomain {
  td_ID : Z; td_Name : string; td_ProductID : Z; td_Type : Z; td_UsingAdvancedRedirect : Z; td_UsingAdvancedHsts : Z
}.
Record TDomainParam : Type := mkTDomainParam {
  tdp_ID : option Z; tdp_Name : option string; tdp_ProductID : option Z; tdp_Type : option Z;
  tdp_UsingAdvancedRedirect : option Z; tdp_UsingAdvancedHsts : option Z
}.
Definition noDomainParam : TDomainParam := mkTDomainParam None None None None None None.
Record TRouteAdvanceRow : Type := mkTAdvance {
  ta_ID : Z; ta_Name : string; ta_Description : string; ta_ProductID : Z; ta_Expression : string; ta_ClusterID : Z
}.
Record TRouteBasicRow : Type := mkTBasic {
  tb_ID : Z; tb_Description : string; tb_ProductID : Z; tb_HostNames : list string; tb_Paths : list string; tb_ClusterID : Z
}.

Definition where_domain (w : TDomainParam) (r : TDomain) : bool :=
  is_eq (tdp_ID w) (td_ID r) && is_eq (tdp_Name w) (td_Name r) && is_eq (tdp_ProductID w) (td_ProductID r) && is_eq (tdp_Type w) (td_Type r) &&
  is_eq (tdp_UsingAdvancedRedirect w) (td_UsingAdvancedRedirect r) && is_eq (tdp_UsingAdvancedHsts w) (td_UsingAdvancedHsts r).
Definition insert_domain (id : Z) (p : TDomainParam) : option TDomain :=
  match tdp_Name p, tdp_ProductID p, tdp_Type p with
  | Some name, Some product, Some type =>
      Some (mkTDomain id name product type (default 0%Z (tdp_UsingAdvancedRedirect p)) (default 0%Z (tdp_UsingAdvancedHsts p)))
  | _, _, _ => None
  end.
Definition domains_unique (l : list TDomain) : bool := bool_decide (NoDup (map td_ID l)) && bool_decide (NoDup (map td_Name l)).
(** An empty slice of products is no condition. *)
Definition of_products (products : list Z) (id : Z) : bool := match products with [] => true | _ => bool_decide (id ∈ products) end.

Inductive routeE : Type -> Type :=
| RConf {R} (e : confE R) : routeE R
| RouteBegin : routeE (result unit)
| RouteCommit : routeE (result unit)
| RouteRollback : routeE unit
| TDomainList (w : TDomainParam) : routeE (result (list TDomain))
| TDomainCreate (p : TDomainParam) : routeE (result Z)
| TDomainDelete (w : TDomainParam) : routeE (result Z)
| AdvanceRuleList (products : list Z) : routeE (result (list TRouteAdvanceRow))
| AdvanceRuleDelete (product : Z) : routeE (result Z)
| AdvanceRuleCreate (rows : list (Z -> TRouteAdvanceRow)) : routeE (result Z)
| BasicRuleList (products : list Z) : routeE (result (list TRouteBasicRow))
| BasicRuleDelete (product : Z) : routeE (result Z)
| BasicRuleCreate (rows : list (Z -> TRouteBasicRow)) : routeE (result Z)
| RecordRoute (e : ConfLogEntry) : routeE unit.

Record rdata : Type := mkRData { rd_domains : list TDomain; rd_advance : list TRouteAdvanceRow; rd_basic : list TRouteBasicRow }.
(** The tables of clusters are only read here. *)
Record rworld : Type := mkRWorld {
  rw_conf : cworld; rw_data : rdata; rw_saved : option rdata; rw_next : Z; rw_log : list ConfLogEntry
}.
Definition put_rconf (c : cworld) (w : rworld) : rworld := mkRWorld c (rw_data w) (rw_saved w) (rw_next w) (rw_log w).
Definition put_rdata (d : rdata) (w : rworld) : rworld := mkRWorld (rw_conf w) d (rw_saved w) (rw_next w) (rw_log w).
Definition put_rsaved (s : option rdata) (w : rworld) : rworld := mkRWorld (rw_conf w) (rw_data w) s (rw_next w) (rw_log w).
Definition draw_ids (n : Z) (w : rworld) : rworld := mkRWorld (rw_conf w) (rw_data w) (rw_saved w) (rw_next w + n) (rw_log w).
Definition put_domains (l : list TDomain) (d : rdata) : rdata := mkRData l (rd_advance d) (rd_basic d).
Definition put_advance (l : list TRouteAdvanceRow) (d : rdata) : rdata := mkRData (rd_domains d) l (rd_basic d).
Definition put_basic (l : list TRouteBasicRow) (d : rdata) : rdata := mkRData (rd_domains d) (rd_advance d) l.
(** Rows with ids in a row. *)
Fixpoint numbered {A} (id : Z) (rows : list (Z -> A)) : list A :=
  match rows with [] => [] | f :: rows => f id :: numbered (id + 1) rows end.

Definition route_handle {R} (e : routeE R) : rworld -> R * rworld :=
  match e in routeE R return rworld -> R * rworld with
  | RConf e => fun w => ((handle e (rw_conf w)).1, put_rconf (handle e (rw_conf w)).2 w)
  | RouteBegin => fun w => (Ok tt, put_rsaved (Some (rw_data w)) w)
  | RouteCommit => fun w => (Ok tt, put_rsaved None w)
  | RouteRollback => fun w => (tt, match rw_saved w with Some d => put_rsaved None (put_rdata d w) | None => w end)
  | TDomainList q => fun w => (Ok (List.filter (where_domain q) (rd_domains (rw_data w))), w)
  | TDomainCreate p => fun w =>
      match insert_domain (rw_next w) p with
      | None => (Err DaoError, w)
      | Some r =>
          let rows := (rd_domains (rw_data w) ++ [r])%list in
          if domains_unique rows then (Ok (rw_next w), draw_ids 1 (put_rdata (put_domains rows (rw_data w)) w)) else (Err DaoError, draw_ids 1 w)
      end
  | TDomainDelete q => fun w =>
      (Ok (hits (where_domain q) (rd_domains (rw_data w))), put_rdata (put_domains (without (where_domain q) (rd_domains (rw_data w))) (rw_data w)) w)
  | AdvanceRuleList l => fun w => (Ok (List.filter (fun r => of_products l (ta_ProductID r)) (rd_advance (rw_data w))), w)
  | AdvanceRuleDelete id => fun w =>
      let hit := fun r => bool_decide (ta_ProductID r = id) in
      (Ok (hits hit (rd_advance (rw_data w))), put_rdata (put_advance (without hit (rd_advance (rw_data w))) (rw_data w)) w)
  | AdvanceRuleCreate rows => fun w =>
      (Ok (rw_next w), draw_ids (Z.of_nat (length rows)) (put_rdata (put_advance (rd_advance (rw_data w) ++ numbered (rw_next w) rows)%list (rw_data w)) w))
  | BasicRuleList l => fun w => (Ok (List.filter (fun r => of_products l (tb_ProductID r)) (rd_basic (rw_data w))), w)
  | BasicRuleDelete id => fun w =>
      let hit := fun r => bool_decide (tb_ProductID r = id) in
      (Ok (hits hit (rd_basic (rw_data w))), put_rdata (put_basic (without hit (rd_basic (rw_data w))) (rw_data w)) w)
  | BasicRuleCreate rows => fun w =>
      (Ok (rw_next w), draw_ids (Z.of_nat (length rows)) (put_rdata (put_basic (rd_basic (rw_data w) ++ numbered (rw_next w) rows)%list (rw_data w)) w))
  | RecordRoute e => fun w => (tt, mkRWorld (rw_conf w) (rw_data w) (rw_saved w) (rw_next w) (rw_log w ++ [e]))
  end.
Definition route_fault {R} (e : routeE R) : option R :=
  match e in routeE R return option R with
  | RConf e => fault e
  | RouteCommit => Some (Err DaoError)
  | RouteRollback => None
  | RecordRoute _ => None
  | RouteBegin => Some (Err DaoError)
  | TDomainList _ => Some (Err DaoError)
  | TDomainCreate _ => Some (Err DaoError)
  | TDomainDelete _ => Some (Err DaoError)
  | AdvanceRuleList _ => Some (Err DaoError)
  | AdvanceRuleDelete _ => Some (Err DaoError)
  | AdvanceRuleCreate _ => Some (Err DaoError)
  | BasicRuleList _ => Some (Err DaoError)
  | BasicRuleDelete _ => Some (Err DaoError)
  | BasicRuleCreate _ => Some (Err DaoError)
  end.
#[export] Instance route_interp : Interp routeE rworld := {| handle := @route_handle; fault := @route_fault |}.
#[export] Instance route_txn : TxnCalls routeE := {| tx_begin := RouteBegin; tx_commit := RouteCommit; tx_rollback := RouteRollback;
  is_commit := fun R (e : routeE R) => match e with RouteCommit => true | RConf e => is_commit e | _ => false end
|}.
#[export] Instance route_embeds_conf : Embeds (@RConf) rw_conf put_rconf.
Proof. by split; intros; try destruct v. Qed.

(** * The storage ([storage/rdb/route_conf]) *)

Definition domaind2i (p : TDomain) : Domain :=
  mkDomain (td_ID p) (td_ProductID p) (td_Name p) (td_UsingAdvancedRedirect p) (td_UsingAdvancedHsts p).
Definition domainFilter2Param (f : option DomainFilter) : TDomainParam :=
  match f with
  | None => noDomainParam
  | Some f => mkTDomainParam None (df_Name f) (option_map cp_ID (df_Product f)) None None None
  end.
Definition DomainTypeGeneral : Z := 7.
Definition domainParami2d (product : ConfProduct) (p : DomainParam) : TDomainParam :=
  mkTDomainParam None (dp_Name p) (Some (cp_ID product)) (Some DomainTypeGeneral) (dp_UsingAdvancedRedirect p) (dp_UsingAdvancedHsts p).
Definition FetchDomains (f : option DomainFilter) : prog routeE (result (list Domain)) :=
  list <-? call (TDomainList (domainFilter2Param f)) ;; Ret (Ok (map domaind2i list)).
Definition CreateDomainRow (product : ConfProduct) (p : DomainParam) : prog routeE (result unit) :=
  _ <-? call (TDomainCreate (domainParami2d product p)) ;; Ret (Ok tt).
Definition DeleteDomainRow (domain : Domain) : prog routeE (result unit) :=
  _ <-? call (TDomainDelete (mkTDomainParam (Some (do_ID domain)) None None None None None)) ;; Ret (Ok tt).

(** The rules of a product are there as soon as it has a row; a row whose
    cluster is not in the list gives no rule. *)
Definition noRule : ProductRouteRule := mkProductRule [] [].
Definition put_rule_advance (l : list AdvanceRouteRule) (p : ProductRouteRule) : ProductRouteRule := mkProductRule (pr_Basic p) l.
Definition put_rule_basic (l : list BasicRouteRule) (p : ProductRouteRule) : ProductRouteRule := mkProductRule l (pr_Advance p).
Definition advance_rule (cluster : Cluster) (r : TRouteAdvanceRow) : AdvanceRouteRule :=
  mkAdvanceRule (ta_Name r) (ta_Description r) (ta_Expression r) (cl_Name cluster) (ta_ClusterID r).
Definition newRouteBasicRule (r : TRouteBasicRow) (cluster : Cluster) : BasicRouteRule :=
  mkBasicRule (tb_HostNames r) (tb_Paths r) (cl_Name cluster) (tb_ClusterID r) (tb_Description r).
Definition add_advance (clusters : list Cluster) (m : gmap Z ProductRouteRule) (r : TRouteAdvanceRow) : gmap Z ProductRouteRule :=
  let rule := default noRule (m !! ta_ProductID r) in
  <[ta_ProductID r := match ClusterList2MapByID clusters (ta_ClusterID r) with
                      | None => rule
                      | Some c => put_rule_advance (pr_Advance rule ++ [advance_rule c r])%list rule
                      end]> m.
Definition add_basic (clusters : list Cluster) (m : gmap Z ProductRouteRule) (r : TRouteBasicRow) : gmap Z ProductRouteRule :=
  let rule := default noRule (m !! tb_ProductID r) in
  <[tb_ProductID r := match ClusterList2MapByID clusters (tb_ClusterID r) with
                      | None => rule
                      | Some c => put_rule_basic (pr_Basic rule ++ [newRouteBasicRule r c])%list rule
                      end]> m.
Definition FetchRoutRules (products : list ConfProduct) (clusters : list Cluster) : prog routeE (result (gmap Z ProductRouteRule)) :=
  advanceRules <-? call (AdvanceRuleList (map cp_ID products)) ;;
  basicRules <-? call (BasicRuleList (map cp_ID products)) ;;
  Ret (Ok (foldl (add_basic clusters) (foldl (add_advance clusters) ∅ advanceRules) basicRules)).

Definition advance_row (product : ConfProduct) (one : AdvanceRouteRule) (id : Z) : TRouteAdvanceRow :=
  mkTAdvance id (ar_Name one) (ar_Description one) (cp_ID product) (ar_Expression one) (ar_ClusterID one).
Definition basic_row (product : ConfProduct) (one : BasicRouteRule) (id : Z) : TRouteBasicRow :=
  mkTBasic id (br_Description one) (cp_ID product) (br_HostNames one) (br_Paths one) (br_ClusterID one).
Definition create_given {A} (rows : list A) (e : list A -> routeE (result Z)) : prog routeE (result unit) :=
  match rows with [] => Ret (Ok tt) | _ => _ <-? call (e rows) ;; Ret (Ok tt) end.
(** The first query takes the lock of the rows. *)
Definition UpsertProductRows (product : ConfProduct) (rule : ProductRouteRule) : prog routeE (result unit) :=
  _ <-? call (AdvanceRuleList [cp_ID product]) ;;
  _ <-? call (AdvanceRuleDelete (cp_ID product)) ;;
  _ <-? call (BasicRuleDelete (cp_ID product)) ;;
  _ <-? create_given (map (advance_row product) (pr_Advance rule)) AdvanceRuleCreate ;;
  create_given (map (basic_row product) (pr_Basic rule)) BasicRuleCreate.

(** * The manager of rules ([route_rule.go]) *)

Section Rules.
Variable RouteAdvancedModeClusterName4DP : string.
Variable cfg : ClusterConfig.

Definition recordRouteRuleOperation (action : string) (product : ConfProduct) (err : option goerr) : prog routeE unit :=
  call (RecordRoute (mkConfLog action "route" (cp_Name product) (cp_Name product) err)).

Definition check_refer (clusters : list Cluster) (name : string) : option goerr :=
  if SystemKeepRouteNames RouteAdvancedModeClusterName4DP name then None else
  match ClusterList2MapByName clusters name with
  | None => Some (ModelError "Cluster %s Not Exist")
  | Some c => if negb (cc_IgnoreBNSStatusCheck cfg) && negb (cl_Ready c) then Some (ModelError "Cluster %s Not Ready") else None
  end.
Fixpoint check_refers (clusters : list Cluster) (names : list string) : option goerr :=
  match names with
  | [] => None
  | name :: names => match check_refer clusters name with Some e => Some e | None => check_refers clusters names end
  end.
(** The ids of the clusters; a name that is not in the map is a nil pointer. *)
Definition with_advance_id (clusters : list Cluster) (one : AdvanceRouteRule) : option AdvanceRouteRule :=
  option_map (fun c => mkAdvanceRule (ar_Name one) (ar_Description one) (ar_Expression one) (ar_ClusterName one) (cl_ID c))
    (ClusterList2MapByName clusters (ar_ClusterName one)).
Definition with_basic_id (clusters : list Cluster) (one : BasicRouteRule) : option BasicRouteRule :=
  option_map (fun c => mkBasicRule (br_HostNames one) (br_Paths one) (br_ClusterName one) (cl_ID c) (br_Description one))
    (ClusterList2MapByName clusters (br_ClusterName one)).
Definition with_cluster_ids (clusters : list Cluster) (rule : ProductRouteRule) : option ProductRouteRule :=
  match mapM (with_advance_id clusters) (pr_Advance rule), mapM (with_basic_id clusters) (pr_Basic rule) with
  | Some advance, Some basic => Some (mkProductRule basic advance)
  | _, _ => None
  end.

Definition upsert_rule_body (product : ConfProduct) (rule : ProductRouteRule) (referClusters : list string) : prog routeE (result unit) :=
  clusterList <-? lifted (@RConf) (FetchClusterRows (mkClusterFilter None None (Some product) referClusters)) ;;
  let clusterList := AppendAdvancedRuleCluster RouteAdvancedModeClusterName4DP clusterList in
  match check_refers clusterList referClusters with
  | Some e => Ret (Err e)
  | None =>
      match with_cluster_ids clusterList rule with
      | None => Ret (Err (PlainError "panic"))
      | Some rule => UpsertProductRows product rule
      end
  end.
Definition UpsertProductRule (product : ConfProduct) (rule : ProductRouteRule) : prog routeE (result unit) :=
  let record := recordRouteRuleOperation ActionUpdate product in
  match Convert rule with
  | Err e => _ <- record (Some e) ;; Ret (Err e)
  | Ok referClusters => recorded record (atomically (upsert_rule_body product rule referClusters))
  end.
Definition FetchProductRule (product : ConfProduct) : prog routeE (result (option ProductRouteRule)) :=
  atomically (
    clusters <-? lifted (@RConf) (FetchClusterRows (mkClusterFilter None None (Some product) [])) ;;
    m <-? FetchRoutRules [product] (AppendAdvancedRuleCluster RouteAdvancedModeClusterName4DP clusters) ;;
    Ret (Ok (m !! cp_ID product))).

(** * The manager of domains ([domain.go]) *)

Definition recordDomainOperation (action name : string) (err : option goerr) : prog routeE unit :=
  call (RecordRoute (mkConfLog action "domain" name name err)).

Definition trim_dot (s : string) : string :=
  if bool_decide (last_byte s = Some "."%char) then String.substring 0 (String.length s - 1) s else s.
Fixpoint match_parts (patternParts hostParts : list string) : bool :=
  match patternParts, hostParts with
  | [], [] => true
  | p :: patternParts, h :: hostParts => bool_decide (p = h) && match_parts patternParts hostParts
  | _, _ => false
  end.
(** A star as the first part stands for any first part. *)
Definition domainMatch (pattern domain : string) : bool :=
  let domain := trim_dot domain in
  let pattern := trim_dot pattern in
  if bool_decide (pattern = "") || bool_decide (domain = "") then false else
  match Split pattern ".", Split domain "." with
  | "*" :: p, _ :: h => match_parts p h
  | p, h => match_parts p h
  end.
Definition domain_conflict (domainName oldName : string) : option goerr :=
  if bool_decide (oldName = domainName) then Some (RecordExisted "Domain") else
  let '(a, b) := if has_byte domainName "*" then (domainName, oldName) else (oldName, domainName) in
  if domainMatch a b then Some (ModelError "Domain Name %s Be Covered By Wildcard Domain %s") else None.
Fixpoint domain_conflicts (domainName : string) (old : list Domain) : option goerr :=
  match old with
  | [] => None
  | o :: old => match domain_conflict domainName (do_Name o) with Some e => Some e | None => domain_conflicts domainName old end
  end.

Definition DomainManager_DomainList (f : DomainFilter) : prog routeE (result (list Domain)) := atomically (FetchDomains (Some f)).
Definition DomainManager_CreateDomain (product : ConfProduct) (param : DomainParam) : prog routeE (result unit) :=
  recorded (recordDomainOperation ActionCreate (default "" (dp_Name param))) (atomically (
    domains <-? FetchDomains None ;;
    match dp_Name param with
    | None => Ret (Err (PlainError "panic"))
    | Some domainName =>
        match domain_conflicts domainName domains with
        | Some e => Ret (Err e)
        | None => CreateDomainRow product param
        end
    end)).

Record DomainBeUsedInfo : Type := mkBeUsed { bu_hasHTTPSConfig : bool; bu_RoutRule : option HostUsedInfo }.
Definition Dependent (i : DomainBeUsedInfo) : string * string :=
  match bu_RoutRule i with
  | Some d => (hu_Type d, hu_Detail d)
  | None => if bu_hasHTTPSConfig i then ("DomainHttpsConfig", "") else ("", "")
  end.
Definition BeUsed (product : ConfProduct) (domain : Domain) : prog routeE (result (option DomainBeUsedInfo)) :=
  if negb (do_UsingAdvancedHsts domain =? 0)%Z || negb (do_UsingAdvancedRedirect domain =? 0)%Z
  then Ret (Ok (Some (mkBeUsed true None))) else
  rule <-? FetchProductRule product ;;
  Ret (Ok (match rule with
           | None => None
           | Some rule => option_map (fun used => mkBeUsed false (Some used)) (HostBeUsed rule (do_Name domain))
           end)).
Definition DomainManager_DeleteDomain (product : ConfProduct) (domain : Domain) : prog routeE (result unit) :=
  recorded (recordDomainOperation ActionDelete (do_Name domain)) (
    used <-? BeUsed product domain ;;
    match used with
    | Some _ => Ret (Err (DependentUnReady "%s"))
    | None => atomically (DeleteDomainRow domain)
    end).
End Rules.

(** * Tables of an export ([newHostTableConf], [newRouteTableFile]) *)

Definition defaultProduct : string := "AI_product".

Section Tables.
Context `{!RangeOrder, !SliceSort}.

Record HostTable : Type := mkHostTable {
  ht_Hosts : gmap string (list string); ht_HostTags : gmap string (list string)
}.
(** The tag of a product is its name in lower case; product names are ASCII. *)
Definition host_step (names : gmap Z string) (s : gmap string (list string) * gmap string (gmap string unit)) (d : Domain)
  : gmap string (list string) * gmap string (gmap string unit) :=
  let productName := default "" (names !! do_ProductID d) in
  let tagName := ToLower productName in
  (<[tagName := (default [] (s.1 !! tagName) ++ [do_Name d])%list]> s.1,
   <[productName := <[tagName := tt]> (default ∅ (s.2 !! productName))]> s.2).
Definition newHostTableConf (names : gmap Z string) (domains : list Domain) : HostTable :=
  let '(tag2hosts, product2tags) := foldl (host_step names) (∅, {[ defaultProduct := ∅ ]}) (sort_slice do_ProductID domains) in
  mkHostTable tag2hosts ((fun tags => map fst (range_of tags)) <$> product2tags).

(** Conditions with the names of their clusters.  Products come in the order of
    their ids; the table of basic rules stays empty. *)
Definition advance_files (l : list AdvanceRouteRule) : list (string * string) := map (fun a => (ar_Expression a, ar_ClusterName a)) l.
Definition before_id (a b : Z * string) : Prop := (a.1 <= b.1)%Z.
#[local] Instance before_id_dec a b : Decision (before_id a b) := Z_le_dec (a.1) (b.1).
Definition newRouteTableFile (names : gmap Z string) (routeRules : gmap Z ProductRouteRule) : gmap string (list (string * string)) :=
  foldl (fun advanceRule e => match routeRules !! e.1 with
                              | None => advanceRule
                              | Some rule => <[e.2 := advance_files (pr_Advance rule)]> advanceRule
                              end) ∅ (merge_sort before_id (map_to_list names)).
End Tables.
