(* ===== verification/ClusterExport.v ===== *)
(** What the gateway fetches about clusters: the configuration of clusters
    with keys and prices ([NewBfeClusterConf] of [model/icluster_conf/cluster.go]
    and [model/iroute_conf/exporter.go]), the backends of sub-clusters and the
    distribution of traffic ([model/icluster_conf/exporter.go]).

    A structure of the gateway's own packages is a record of the fields that
    the exporters set.  The version of an export is [VersionControl]'s. *)
From Stdlib Require Import ZArith Lia Ascii Floats.SpecFloat.
From stdpp Require Import base tactics numbers list strings gmap option sorting.
From S2P Require Import Prelude GoStrings GoTime GoNet Prog EppPool XCrypto Security SharedTypes Validate ProviderModel ClusterModel ProviderManager ClusterManager PriceModel RouteModel.

Local Open Scope string_scope.

(** * Prices of models *)

Definition batchPricePrecision : spec_float := float_of_Z 100000000.
Definition float_div : spec_float -> spec_float -> spec_float := SFdiv 53 1024.
(** [math.Round]: to the nearest integer, half away from zero. *)
Definition math_round (f : spec_float) : spec_float :=
  match f with
  | S754_finite s m e =>
      if (0 <=? e)%Z then f else
      let q := ((2 * Z.pos m + 2 ^ (- e)) / (2 * 2 ^ (- e)))%Z in
      if (q =? 0)%Z then S754_zero s else binary_normalize 53 1024 (if s then - q else q)%Z 0 s
  | _ => f
  end.

Record TableModel : Type := mkTableModel {
  tb_Provider : string; tb_Model : string; tb_BaseModel : string; tb_Mode : string;
  tb_Capabilities : list string; tb_SupportedParameters : list string; tb_Limits : gmap string Any;
  tb_Prices : gmap string spec_float; tb_TierPrices : gmap string (gmap string spec_float); tb_Metadata : gmap string Any
}.

Definition scaled (discount v : spec_float) : spec_float :=
  float_div (math_round (float_mul (float_mul v discount) batchPricePrecision)) batchPricePrecision.
Definition scaleBatchPrices (src : gmap string spec_float) (discount : spec_float) : gmap string spec_float := scaled discount <$> src.
Definition scaleBatchTierPrices (src : gmap string (gmap string spec_float)) (discount : spec_float) : gmap string (gmap string spec_float) :=
  (fun prices => scaleBatchPrices prices discount) <$> src.

Definition table_model (e : ModelPrice) : TableModel :=
  mkTableModel (mo_Provider e) (mo_Model e) (mo_BaseModel e) (mo_Mode e) (mo_Capabilities e) (mo_SupportedParameters e)
    (mo_Limits e) (mo_Prices e) (mo_TierPrices e) (mo_Metadata e).
Definition batch_model (e : ModelPrice) (discount : spec_float) : TableModel :=
  mkTableModel (mo_Provider e) (mo_Model e) (mo_BaseModel e) "batch" (mo_Capabilities e) (mo_SupportedParameters e)
    (mo_Limits e) (scaleBatchPrices (mo_Prices e) discount) (scaleBatchTierPrices (mo_TierPrices e) discount) (mo_Metadata e).
Definition manualBatch (entries : list ModelPrice) (model : string) : bool :=
  existsb (fun e => bool_decide (mo_Mode e = "batch") && bool_decide (mo_Model e = model)) entries.
Definition expand_entry (entries : list ModelPrice) (e : ModelPrice) : list TableModel :=
  table_model e ::
  match mo_BatchDiscount e with
  | None => []
  | Some d => if bool_decide (mo_Mode e = "batch") || manualBatch entries (mo_Model e) then [] else [batch_model e d]
  end.
Definition buildModelTableModels (entries : list ModelPrice) : list TableModel := List.flat_map (expand_entry entries) entries.

Record ModelTable : Type := mkModelTable {
  mt_Currency : string; mt_TimeZone : string; mt_Tiers : list PricingTier; mt_Models : list TableModel
}.

(** * The configuration of one cluster *)

Record AIKey : Type := mkAIKey { ak_Name : string; ak_Key : string; ak_Weight : Z }.
Record AIKeyPolicy : Type := mkAIKeyPolicy {
  ap_Strategy : string; ap_MaxRetries : Z; ap_RetryBackoffInitial : Z; ap_RetryBackoffMax : Z;
  ap_SessionAffinity : bool; ap_SessionAffinityTTL : Z; ap_SessionAffinityRedisPrefix : string; ap_SessionAffinityPenaltyEnable : bool
}.
Record UpstreamErrorNormalizeConf : Type := mkUpstreamError {
  ue_Enabled : bool; ue_StreamEnabled : bool; ue_UnrecognizedAction : string; ue_MaxBodyBytes : Z; ue_RedactSecrets : option bool
}.
Record AIConf : Type := mkAIConf {
  ai_ModelMapping : option (gmap string string); ai_Keys : list AIKey; ai_ModelProtocols : list string;
  ai_ProtocolPaths : list (string * string); ai_Provider : string; ai_ModelTable : option ModelTable;
  ai_MatchPrefix : string; ai_StripPrefix : bool; ai_KeyPolicy : AIKeyPolicy;
  ai_NormalizeUpstreamError : option UpstreamErrorNormalizeConf
}.

Definition default_policy : AIKeyPolicy := mkAIKeyPolicy "weighted_random" 0 500 5000 true 600 "bfe:ai:key_affinity" true.
Definition with_key_policy (k : option KeyPolicy) (p : AIKeyPolicy) : AIKeyPolicy :=
  match k with
  | None => p
  | Some k =>
      mkAIKeyPolicy (default "weighted_random" (kp_Strategy k)) (default 0%Z (kp_MaxRetries k)) (default 500%Z (kp_RetryBackoffInitial k))
        (default 5000%Z (kp_RetryBackoffMax k)) (ap_SessionAffinity p) (ap_SessionAffinityTTL p) (ap_SessionAffinityRedisPrefix p)
        (ap_SessionAffinityPenaltyEnable p)
  end.
Definition with_key_affinity (k : option KeyAffinity) (p : AIKeyPolicy) : AIKeyPolicy :=
  match k with
  | None => p
  | Some k =>
      mkAIKeyPolicy (ap_Strategy p) (ap_MaxRetries p) (ap_RetryBackoffInitial p) (ap_RetryBackoffMax p)
        (default true (ka_Enabled k)) (default 600%Z (ka_TTL k)) (default "bfe:ai:key_affinity" (ka_RedisPrefix k)) (default true (ka_PenaltyEnable k))
  end.
Definition normalize_conf (n : NormalizeUpstreamError) : UpstreamErrorNormalizeConf :=
  mkUpstreamError (default false (nue_Enabled n)) (default false (nue_StreamEnabled n)) (default "" (nue_UnrecognizedAction n))
    (default 0%Z (nue_MaxBodyBytes n)) (nue_RedactSecrets n).

(** A mapping that is nil, or without one of its names, is a nil pointer that
    the loop dereferences. *)
Fixpoint mapping_pairs (l : list (option Mapping)) : result (gmap string string) :=
  match l with
  | [] => Ok ∅
  | Some (mkMapping (Some source) (Some target)) :: l =>
      match mapping_pairs l with Ok m => Ok (match m !! source with Some _ => m | None => <[source := target]> m end) | Err e => Err e end
  | _ => Err (PlainError "panic")
  end.
Definition convertToBFEModelMapping (l : list (option Mapping)) : result (option (gmap string string)) :=
  match mapping_pairs l with
  | Ok m => Ok (if (size m =? 0)%nat then None else Some m)
  | Err e => Err e
  end.

Definition export_key (providerKeys : list ProviderKey) (k : ClusterKeyRef) : AIKey :=
  let name := default "" (ckr_Name k) in
  mkAIKey name (default "" (KeyMap providerKeys name)) (default 0%Z (ckr_Weight k)).
Definition newAIConf (llm : LLMConfig) (modelTable : option ModelTable) (providerKeys : list ProviderKey)
  (providerModelProtocols : list string) (providerProtocolPaths : list (string * string)) : result AIConf :=
  match convertToBFEModelMapping (lc_ModelMappings llm) with
  | Err e => Err e
  | Ok mapping =>
      Ok (mkAIConf mapping (map (export_key providerKeys) (lc_Keys llm)) providerModelProtocols providerProtocolPaths
        (default "" (lc_Provider llm)) modelTable (default "" (lc_MatchPrefix llm)) (default false (lc_StripPrefix llm))
        (with_key_affinity (lc_KeyAffinity llm) (with_key_policy (lc_KeyPolicy llm) default_policy))
        (option_map normalize_conf (lc_NormalizeUpstreamError llm)))
  end.

Record BackendBasic : Type := mkBackendBasic {
  bb_Protocol : string; bb_TimeoutConnSrv : Z; bb_TimeoutResponseHeader : Z; bb_MaxIdleConnsPerHost : Z
}.
Record BackendCheck : Type := mkBackendCheck {
  bk_Schem : string; bk_Uri : string; bk_Host : string; bk_FailNum : Z; bk_CheckInterval : Z; bk_StatusCode : Z
}.
Record HashConf : Type := mkHashConf { hc_HashStrategy : Z; hc_HashHeader : string; hc_SessionSticky : bool }.
Record EPPCheckConf : Type := mkEPPCheckConf {
  ep_Disabled : bool; ep_CheckInterval : option string; ep_FailThreshold : option Z; ep_Cooldown : option string; ep_SuccessThreshold : option Z
}.
Record GslbBasicConf : Type := mkGslbBasic {
  gb_CrossRetry : Z; gb_RetryMax : Z; gb_HashConf : HashConf; gb_BalanceMode : string; gb_EPPAddr : option (list string);
  gb_EPPTLSPlaintext : option bool; gb_EPPBreakerDisabled : option bool;
  gb_EPPCheck : option EPPCheckConf; gb_EPPTimeout : option EppTimeoutParam
}.
Record ClusterBasicConf : Type := mkClusterBasicConf {
  cb_TimeoutReadClient : Z; cb_TimeoutWriteClient : Z; cb_TimeoutReadClientAgain : Z; cb_ReqWriteBufferSize : Z;
  cb_ReqFlushInterval : Z; cb_ResFlushInterval : Z; cb_CancelOnClientClose : bool;
  cb_DisableHealthCheck : bool; cb_DisableHostHeader : bool
}.
Record BackendHTTPS : Type := mkBackendHTTPS { bh_RSHost : string; bh_RSInsecureSkipVerify : bool }.
Record ClusterConf : Type := mkClusterConf {
  cf_BackendConf : BackendBasic; cf_CheckConf : BackendCheck; cf_GslbBasic : GslbBasicConf; cf_ClusterBasic : ClusterBasicConf;
  cf_HTTPSConf : option BackendHTTPS; cf_AIConf : option AIConf
}.

Definition ClusterHashStrategyClientIDOnlyI : Z := 0.
Definition ClusterHashStrategyClientIPOnlyI : Z := 1.
Definition ClusterHashStrategyClientIDPreferedI : Z := 2.
Definition normalizeBFEHashStrategy (s : ClusterStickySessions) : Z :=
  if negb (ks_SessionSticky s) && bool_decide (ks_HashHeader s = "") &&
     ((ks_HashStrategy s =? ClusterHashStrategyClientIDOnlyI) || (ks_HashStrategy s =? ClusterHashStrategyClientIDPreferedI))%Z
  then ClusterHashStrategyClientIPOnlyI else ks_HashStrategy s.
Definition toBackendCheck (h : ClusterPassiveHealthCheck) : BackendCheck :=
  mkBackendCheck (kh_Schema h) (kh_Uri h) (kh_Host h) (kh_Failnum h) (kh_Interval h) (kh_Statuscode h).
Definition pool_instances (sc : SubCluster) : list Instance :=
  match sc_InstancePool sc with Some p => items (pl_Instances p) | None => [] end.
Definition isDomainPool (l : list SubCluster) : bool :=
  existsb (fun sc => existsb (fun i => negb (ParseIP (in_Addr i))) (pool_instances sc)) l.

(** What the exporter looks up about a provider. *)
Record exportTables : Type := mkExportTables { et_models : gmap string (list ModelPrice); et_providers : gmap string Provider }.
Definition providerTable (l : list Provider) : gmap string Provider := foldl (fun m p => <[pv_Name p := p]> m) ∅ l.

Section ClusterConfs.
Variable decodeEppRuntime : string -> option EppRuntimeParam.

Definition export_check (c : EppCheckParam) : EPPCheckConf :=
  mkEPPCheckConf (default false (ec_Disabled c)) (ec_CheckInterval c) (ec_FailThreshold c) (ec_Cooldown c) (ec_SuccessThreshold c).
(** The stored parameters of EPP; ones that do not decode are ignored. *)
Definition epp_runtime_of (c : Cluster) : option EppRuntimeParam :=
  if bool_decide (cl_EppRuntime c = "") then None else
  match ParseEppRuntime decodeEppRuntime (cl_EppRuntime c) with Ok (Some rt) => Some rt | _ => None end.
(** [addrs] are the addresses that the cluster is assigned to, if it is
    balanced by EPP and has some. *)
Definition gslb_basic (c : Cluster) (addrs : option (list string)) : GslbBasicConf :=
  let hash := mkHashConf (normalizeBFEHashStrategy (cl_StickySessions c)) (ks_HashHeader (cl_StickySessions c)) (ks_SessionSticky (cl_StickySessions c)) in
  let retries := k_Retries (cl_Basic c) in
  let plain mode := mkGslbBasic (kr_MaxRetryCrossSubcluster retries) (kr_MaxRetryInSubcluster retries) hash mode None None None None None in
  if negb (bool_decide (getBalanceMode c = BalanceModeEPP)) then plain (getBalanceMode c) else
  match addrs with
  | None => plain BalanceModeWRR
  | Some addrs =>
      mkGslbBasic (kr_MaxRetryCrossSubcluster retries) (kr_MaxRetryInSubcluster retries) hash BalanceModeEPP (Some addrs)
        (Some true) (Some true) (epp_runtime_of c ≫= fun rt => option_map export_check (er_Check rt)) (epp_runtime_of c ≫= er_Timeout)
  end.
Definition cluster_basic (c : Cluster) : ClusterBasicConf :=
  let t := k_Timeouts (cl_Basic c) in
  let b := k_Buffers (cl_Basic c) in
  mkClusterBasicConf (kt_ReadbodyClient t) (kt_WriteClient t) (kt_ReadClientAgain t) (kb_ReqWriteBufferSize b) (kb_ReqFlushInterval b)
    (kb_ResFlushInterval b) (kc_CancelOnClientClose (k_Connection (cl_Basic c))) (isDomainPool (cl_SubClusters c)) (isDomainPool (cl_SubClusters c)).

Definition model_table (tables : exportTables) (provider : string) : option ModelTable :=
  if bool_decide (provider = "") then None else
  match et_models tables !! provider with
  | Some (e :: entries) =>
      let info := et_providers tables !! provider in
      let zone := match info with Some p => pv_TimeZone p | None => "" end in
      Some (mkModelTable "RMB" (if bool_decide (zone = "") then "Asia/Shanghai" else zone)
        (match info with Some p => pv_Tiers p | None => [] end) (buildModelTableModels (e :: entries)))
  | _ => None
  end.
Definition ai_conf (tables : exportTables) (llm : LLMConfig) : result AIConf :=
  let provider := default "" (lc_Provider llm) in
  let info := et_providers tables !! provider in
  newAIConf llm (model_table tables provider) (items (info ≫= pv_Keys)) (items (info ≫= pv_ModelProtocols)) (items (info ≫= pv_ProtocolPaths)).
Definition cluster_conf (tables : exportTables) (c : Cluster) (addrs : option (list string)) : result ClusterConf :=
  let b := cl_Basic c in
  let conf ai := mkClusterConf
    (mkBackendBasic (k_Protocol b) (kt_ConnServ (k_Timeouts b)) (kt_ResponseHeader (k_Timeouts b)) (kc_MaxIdleConnPerRs (k_Connection b)))
    (toBackendCheck (cl_PassiveHealthCheck c)) (gslb_basic c addrs) (cluster_basic c)
    (if bool_decide (k_Protocol b = "https") then Some (mkBackendHTTPS "" true) else None) ai in
  match cl_LLMConfig c with
  | None => Ok (conf None)
  | Some llm => match ai_conf tables llm with Ok ai => Ok (conf (Some ai)) | Err e => Err e end
  end.
End ClusterConfs.

(** * Encryption of the exported keys *)

Section Encryption.
Context `{!Crypto, !RangeOrder}.
Variable sec : security.

Definition put_ai_key (v : string) (k : AIKey) : AIKey := mkAIKey (ak_Name k) v (ak_Weight k).
Fixpoint encrypt_keys (l : list AIKey) : result (list AIKey) :=
  match l with
  | [] => Ok []
  | k :: l =>
      match ExportEncrypt sec (ak_Key k) with
      | None => Err (PlainError "panic")
      | Some (Err _) => Err (PlainError "cluster %s: encrypt AIConf.Keys[%d] failed: %s")
      | Some (Ok enc) => match encrypt_keys l with Ok l => Ok (put_ai_key enc k :: l) | Err e => Err e end
      end
  end.
Definition put_ai_keys (keys : list AIKey) (ai : AIConf) : AIConf :=
  mkAIConf (ai_ModelMapping ai) keys (ai_ModelProtocols ai) (ai_ProtocolPaths ai) (ai_Provider ai) (ai_ModelTable ai)
    (ai_MatchPrefix ai) (ai_StripPrefix ai) (ai_KeyPolicy ai) (ai_NormalizeUpstreamError ai).
Definition put_ai_conf (ai : AIConf) (c : ClusterConf) : ClusterConf :=
  mkClusterConf (cf_BackendConf c) (cf_CheckConf c) (cf_GslbBasic c) (cf_ClusterBasic c) (cf_HTTPSConf c) (Some ai).
Definition encrypt_conf (c : ClusterConf) : result ClusterConf :=
  match cf_AIConf c with
  | None => Ok c
  | Some ai => match encrypt_keys (ai_Keys ai) with Ok keys => Ok (put_ai_conf (put_ai_keys keys ai) c) | Err e => Err e end
  end.
(** The map in the order in which it is visited. *)
Fixpoint encrypt_all (l : list (string * ClusterConf)) : result (list (string * ClusterConf)) :=
  match l with
  | [] => Ok []
  | (name, c) :: l =>
      match encrypt_conf c with
      | Err e => Err e
      | Ok c => match encrypt_all l with Ok l => Ok ((name, c) :: l) | Err e => Err e end
      end
  end.
Definition encrypted (m : gmap string ClusterConf) : result (gmap string ClusterConf) :=
  if negb (ExportCryptoEnabled sec) then Ok m else
  match encrypt_all (range_of m) with Ok l => Ok (list_to_map l) | Err e => Err e end.
End Encryption.

(** * Exporters *)

(** ** Calls: those of the components whose tables are exported, and the
    readings of domains and routes *)

Inductive exportE : Type -> Type :=
| OfRoutes {R} (e : routeE R) : exportE R
| OfPrices {R} (e : priceE R) : exportE R
| OfEpp {R} (e : eppE R) : exportE R.

Record xworld : Type := mkXWorld { xw_routes : rworld; xw_prices : pworld; xw_epp : eworld }.
Definition put_xroutes (r : rworld) (w : xworld) : xworld := mkXWorld r (xw_prices w) (xw_epp w).
Definition put_xprices (p : pworld) (w : xworld) : xworld := mkXWorld (xw_routes w) p (xw_epp w).
Definition put_xepp (e : eworld) (w : xworld) : xworld := mkXWorld (xw_routes w) (xw_prices w) e.
Definition export_handle {R} (e : exportE R) : xworld -> R * xworld :=
  match e in exportE R return xworld -> R * xworld with
  | OfRoutes e => fun w => ((handle e (xw_routes w)).1, put_xroutes (handle e (xw_routes w)).2 w)
  | OfPrices e => fun w => ((handle e (xw_prices w)).1, put_xprices (handle e (xw_prices w)).2 w)
  | OfEpp e => fun w => ((handle e (xw_epp w)).1, put_xepp (handle e (xw_epp w)).2 w)
  end.
Definition export_fault {R} (e : exportE R) : option R :=
  match e in exportE R return option R with
  | OfRoutes e => fault e
  | OfPrices e => fault e
  | OfEpp e => fault e
  end.
#[export] Instance export_interp : Interp exportE xworld := {| handle := @export_handle; fault := @export_fault |}.
#[export] Instance export_embeds_routes : Embeds (@OfRoutes) xw_routes put_xroutes.
Proof. by split; intros; try destruct v. Qed.
#[export] Instance export_embeds_prices : Embeds (@OfPrices) xw_prices put_xprices.
Proof. by split; intros; try destruct v. Qed.
#[export] Instance export_embeds_epp : Embeds (@OfEpp) xw_epp put_xepp.
Proof. by split; intros; try destruct v. Qed.

(** The tables of clusters, of an export. *)
Definition of_conf {A} (p : prog confE A) : prog exportE A := lifted (@OfRoutes) (lifted (@RConf) p).
Definition of_routes {A} (p : prog routeE A) : prog exportE A := lifted (@OfRoutes) p.
Definition of_prices {A} (p : prog priceE A) : prog exportE A := lifted (@OfPrices) p.
Definition of_epp {A} (p : prog eppE A) : prog exportE A := lifted (@OfEpp) p.

Section Exporters.
Context `{!Crypto, !RangeOrder, !SliceSort}.
Variable RouteAdvancedModeClusterName4DP : string.
Variable decodeEppRuntime : string -> option EppRuntimeParam.
Variable sec : security.
Variable resolver : option EppPoolManager.

(** [fetchEPPAssignmentAddrs]: whatever goes wrong, the cluster is exported
    without addresses. *)
Definition fetchEPPAssignmentAddrs (clusterName : string) : prog exportE (option (list string)) :=
  match resolver with
  | None => Ret None
  | Some m => r <- of_epp (GetAssignmentEndpoints m clusterName) ;; Ret (match r with Ok found => found | Err _ => None end)
  end.
Definition cluster_step (tables : exportTables) (c : Cluster) (s : result (gmap string ClusterConf)) : prog exportE (result (gmap string ClusterConf)) :=
  match s with
  | Err e => Ret (Err e)
  | Ok m =>
      if SystemKeepRouteNames RouteAdvancedModeClusterName4DP (cl_Name c) then Ret (Ok m) else
      addrs <- (if bool_decide (getBalanceMode c = BalanceModeEPP) then fetchEPPAssignmentAddrs (cl_Name c) else Ret None) ;;
      Ret (match cluster_conf decodeEppRuntime tables c addrs with Ok conf => Ok (<[cl_Name c := conf]> m) | Err e => Err e end)
  end.
Definition NewBfeClusterConf (tables : exportTables) (clusters : list Cluster) : prog exportE (result (gmap string ClusterConf)) :=
  m <-? for_each clusters (Ok ∅) (cluster_step tables) ;;
  Ret (encrypted sec m).

Record RouteRuleExportData : Type := mkRouteRuleExport {
  xd_RouteTable : gmap string (list (string * string)); xd_HostTable : HostTable; xd_ClusterConf : gmap string ClusterConf
}.
(** The products that domains refer to. *)
Fixpoint domain_products (products : list ConfProduct) (domains : list Domain) (m : gmap Z string) : result (gmap Z string) :=
  match domains with
  | [] => Ok m
  | d :: domains =>
      match product_by_id products (do_ProductID d) with
      | None => Err (DirtyDataError "Domain refer Not Exist Product %d")
      | Some p => domain_products products domains (<[do_ProductID d := cp_Name p]> m)
      end
  end.
(** The default product, with a domain of its own. *)
Definition default_domain (product : ConfProduct) : Domain := mkDomain 0 (cp_ID product) "127.0.0.1" 0 0.
Definition default_products (products : list ConfProduct) : list ConfProduct :=
  List.filter (fun p => bool_decide (cp_Name p = defaultProduct)) products.
Definition with_default_product (products : list ConfProduct) (m : gmap Z string) : gmap Z string :=
  foldl (fun m p => <[cp_ID p := defaultProduct]> m) m (default_products products).

Definition exportRouteRule : prog exportE (result RouteRuleExportData) :=
  domains <-? of_routes (FetchDomains None) ;;
  clusters <-? of_conf (FetchClusterRows noClusterFilter) ;;
  let clusters := AppendAdvancedRuleCluster RouteAdvancedModeClusterName4DP clusters in
  allPrices <-? of_prices (FetchModelPriceRows noPriceFilter) ;;
  providers <-? of_conf (FetchProviderRows noProviderFilter) ;;
  products <-? of_conf (call (FetchProducts None None)) ;;
  match domain_products products domains ∅ with
  | Err e => Ret (Err e)
  | Ok names =>
      let productMapID2Name := with_default_product products names in
      let domains := (domains ++ map default_domain (default_products products))%list in
      routeRules <-? of_routes (FetchRoutRules products clusters) ;;
      bfeClusterConf <-? NewBfeClusterConf (mkExportTables (GroupByProvider allPrices.1) (providerTable providers.1)) clusters ;;
      Ret (Ok (mkRouteRuleExport (newRouteTableFile productMapID2Name routeRules) (newHostTableConf productMapID2Name domains) bfeClusterConf))
  end.
End Exporters.

(** ** Backends and traffic ([icluster_conf/exporter.go]) *)

Record BackendConf : Type := mkBackendConf { be_Name : string; be_Addr : string; be_Port : Z; be_Weight : Z }.
(** IPv6 addresses come in brackets. *)
Definition backend_addr (addr : string) : string := if ParseIP addr && negb (is_To4 addr) then "[" +:+ addr +:+ "]" else addr.
Definition backend (i : Instance) : BackendConf :=
  mkBackendConf (backend_addr (in_Addr i) +:+ "_" +:+ FormatInt (in_Port i)) (backend_addr (in_Addr i)) (in_Port i) (in_Weight i).
Definition cluster_backends (c : Cluster) : gmap string (list BackendConf) :=
  foldl (fun m sc => match pool_instances sc with [] => m | l => <[sc_Name sc := map backend l]> m end) ∅ (cl_SubClusters c).

Section Tables.
(** [Check] of the gateway's package *)
Variable ClusterTable_Check : gmap string (gmap string (list BackendConf)) -> option goerr.
Variable Gslb_Check : gmap string (list (string * Z)) -> option goerr.

Definition clusterTableConfGenerator : prog confE (result (gmap string (gmap string (list BackendConf)))) :=
  clusters <-? FetchClusterRows noClusterFilter ;;
  let all := foldl (fun m c => <[cl_Name c := cluster_backends c]> m) ∅ clusters in
  Ret (match ClusterTable_Check all with None => Ok all | Some _ => Err (ModelError "%s") end).

Definition gslb_step (bfeClusterName : string) (s : result (gmap string (list (string * Z)))) (c : Cluster) : result (gmap string (list (string * Z))) :=
  match s, cl_Scheduler c with
  | Err e, _ => Err e
  | Ok m, None => Ok m
  | Ok m, Some [] => Ok m
  | Ok m, Some scheduler =>
      match map_get bfeClusterName scheduler with
      | None => Err (ParamError "BFECluster %s Not Exist")
      | Some row => Ok (<[cl_Name c := row]> m)
      end
  end.
Definition gslbConfGenerator (bfeClusterName : string) : prog confE (result (gmap string (list (string * Z)))) :=
  clusters <-? FetchClusterRows noClusterFilter ;;
  Ret (match foldl (gslb_step bfeClusterName) (Ok ∅) clusters with
       | Err e => Err e
       | Ok m => match Gslb_Check m with None => Ok m | Some _ => Err (ModelError "%s") end
       end).
End Tables.
