(* ===== verification/ExportSpec.v ===== *)
(** What the gateway fetches about clusters is what the tables say: every key
    that a cluster refers to arrives with the value of its provider, readable
    by whoever holds the ring of the exports; every forwarding rule leads to a
    cluster of the same export; all traffic of a cluster goes to the instances
    of its provider; and, when nothing fails, the export is made. *)
From Stdlib Require Import ZArith Lia Ascii Floats.SpecFloat.
From stdpp Require Import base tactics numbers list strings gmap option sorting.
From S2P Require Import Prelude GoStrings GoTime GoNet Prog EppPool XCrypto XCryptoSpec Security SharedTypes Validate ProviderModel ClusterModel ProviderManager ClusterManager ConfEndpoints ConfEffect ConfSound ConfClusters ConfSpec ConfHistory PriceModel PriceSpec RouteModel ClusterExport.

Local Open Scope string_scope.

#[local] Arguments for_each : simpl never.
#[local] Arguments bool_decide : simpl never.

(** * Reading the tables of clusters in an export *)

Definition export_conf (w : xworld) : cworld := rw_conf (xw_routes w).
(** The tables of clusters and providers are [d]. *)
Definition conf_is (d : cdata) (w : xworld) : Prop := at_data d (export_conf w).
(** The program leaves those tables alone; if it answers, the answer satisfies
    [Q]. *)
Definition reads {A} (d : cdata) (p : prog exportE (result A)) (Q : A -> Prop) : Prop :=
  hoare (conf_is d) p (fun r w => conf_is d w /\ match r with Ok a => Q a | Err _ => True end).

Definition same_rconf (v v' : rworld) : Prop := rw_conf v' = rw_conf v.
#[local] Instance same_rconf_preorder : PreOrder same_rconf.
Proof. split; unfold same_rconf; [done|]. intros x y z H1 H2. congruence. Qed.

Section Rules.
Context {A B : Type} (d : cdata).

Lemma reads_ret (Q : A -> Prop) r : (forall a, r = Ok a -> Q a) -> reads d (Ret r) Q.
Proof. intros H. apply hoare_ret. intros w Hw. split; [done|]. destruct r; [by apply H|done]. Qed.
Lemma reads_try (p : prog exportE (result A)) (f : A -> prog exportE (result B)) (M : A -> Prop) (Q : B -> Prop) :
  reads d p M -> (forall a, M a -> reads d (f a) Q) -> reads d (a <-? p ;; f a) Q.
Proof.
  intros Hp Hf. eapply hoare_bind; [exact Hp|]. intros [a|e].
  - intros os w [Hw HM]. by apply (Hf a HM).
  - apply hoare_ret. by intros w [Hw _].
Qed.
Lemma reads_weaken (p : prog exportE (result A)) (M Q : A -> Prop) : (forall a, M a -> Q a) -> reads d p M -> reads d p Q.
Proof. intros H. apply hoare_post. intros [a|e] w [Hw HM]; (split; [done|]); [by apply H|done]. Qed.

(** Programs of the components. *)
Lemma reads_conf (p : prog confE (result A)) (Q : A -> Prop) : all_calls conf_reading p -> gives d p (fun a _ => Q a) -> reads d (of_conf p) Q.
Proof.
  intros Hc Hp os w Hw. unfold of_conf. rewrite (exec_lifted (get := xw_routes) (put := put_xroutes)), (exec_lifted (get := rw_conf) (put := put_rconf)). cbn [fst snd].
  destruct (reading_keeps d p Hc os _ Hw) as [H1 H2]. specialize (Hp os _ Hw) as [_ Hp]. split; [by split|]. by destruct (exec os p _) as [[a|e] c].
Qed.
(** The calls that are not for the tables of clusters. *)
Definition own_route (R : Type) (e : routeE R) : Prop := match e with RConf _ => False | _ => True end.
Lemma reads_routes (p : prog routeE (result A)) (Q : A -> Prop) : all_calls own_route p ->
  (forall os w a, (exec os p w).1 = Ok a -> Q a) -> reads d (of_routes p) Q.
Proof.
  intros Hc Hp os w Hw. unfold of_routes. rewrite (exec_lifted (get := xw_routes) (put := put_xroutes)). cbn [fst snd].
  assert (same_rconf (xw_routes w) (exec os p (xw_routes w)).2) as Hk.
  { apply (exec_stable own_route same_rconf); [|done]. intros R e v He. unfold same_rconf. destruct e; try done; cbn; repeat case_match; done. }
  split; [unfold conf_is, export_conf; cbn; by rewrite Hk|]. destruct (exec os p _).1 as [a|e] eqn:E; [|done]. by apply (Hp os (xw_routes w)).
Qed.
Lemma reads_prices (p : prog priceE (result A)) (Q : A -> Prop) : (forall os w a, (exec os p w).1 = Ok a -> Q a) -> reads d (of_prices p) Q.
Proof.
  intros Hp os w Hw. unfold of_prices. rewrite (exec_lifted (get := xw_prices) (put := put_xprices)). cbn [fst snd]. split; [done|].
  destruct (exec os p _).1 as [a|e] eqn:E; [|done]. by eapply Hp.
Qed.
End Rules.
Lemma keeps_epp {A} d (p : prog eppE A) : hoare (conf_is d) (of_epp p) (fun _ => conf_is d).
Proof. intros os w Hw. unfold of_epp. by rewrite (exec_lifted (get := xw_epp) (put := put_xepp)). Qed.

(** * The rules of products *)

(** The rule leads to one of the clusters. *)
Definition leads_to (clusters : list Cluster) (name : string) : Prop := exists c, c ∈ clusters /\ cl_Name c = name.
Definition rules_lead (clusters : list Cluster) (m : gmap Z ProductRouteRule) : Prop := forall id rule a,
  m !! id = Some rule -> a ∈ pr_Advance rule -> leads_to clusters (ar_ClusterName a).

Lemma find_rev {A} (P : A -> bool) l a : List.find P (rev l) = Some a -> a ∈ l /\ P a = true.
Proof. intros H. apply List.find_some in H as [H1 H2]. split; [|done]. apply list_elem_of_In. by apply List.in_rev. Qed.
Lemma add_advance_leads clusters m r : rules_lead clusters m -> rules_lead clusters (add_advance clusters m r).
Proof.
  intros Hm id rule a. unfold add_advance. intros [[<- <-]|[_ H]]%lookup_insert_Some; [|by apply (Hm id rule a H)].
  assert (forall a, a ∈ pr_Advance (default noRule (m !! ta_ProductID r)) -> leads_to clusters (ar_ClusterName a)) as Hold.
  { intros b Hb. destruct (m !! ta_ProductID r) as [old|] eqn:E; [by apply (Hm _ _ b E)|]. by apply list.not_elem_of_nil in Hb. }
  destruct (ClusterList2MapByID _ _) as [c|] eqn:E; [|apply Hold]. cbn. intros [Ha| ->%list_elem_of_singleton]%list.elem_of_app; [by apply Hold|].
  apply find_rev in E as [Hc _]. by exists c.
Qed.
Lemma add_basic_leads clusters m r : rules_lead clusters m -> rules_lead clusters (add_basic clusters m r).
Proof.
  intros Hm id rule a. unfold add_basic. intros [[<- <-]|[_ H]]%lookup_insert_Some; [|by apply (Hm id rule a H)].
  intros Ha. assert (a ∈ pr_Advance (default noRule (m !! tb_ProductID r))) as Hb by (by destruct (ClusterList2MapByID _ _)).
  destruct (m !! tb_ProductID r) as [old|] eqn:E; [by apply (Hm _ _ a E)|]. by apply list.not_elem_of_nil in Hb.
Qed.
Lemma foldl_keeps {A S} (I : S -> Prop) (f : S -> A -> S) l s : (forall s a, I s -> I (f s a)) -> I s -> I (foldl f s l).
Proof. intros Hf. revert s. induction l as [|a l IH]; intros s Hs; [done|]. apply IH. by apply Hf. Qed.
Lemma fetched_rules_lead products clusters os w m : (exec os (FetchRoutRules products clusters) w).1 = Ok m -> rules_lead clusters m.
Proof.
  assert (hoare (fun _ => True) (FetchRoutRules products clusters) (fun r _ => match r with Ok m => rules_lead clusters m | Err _ => True end)) as H.
  { unfold FetchRoutRules. eapply hoare_bind; [by apply (hoare_call (fun _ => True) _ (fun _ _ => True))|]. intros [advance|e]; [|by apply hoare_ret].
    eapply hoare_bind; [by apply (hoare_call (fun _ => True) _ (fun _ _ => True))|]. intros [basic|e]; apply hoare_ret; [|done]. intros _ _.
    apply foldl_keeps; [apply add_basic_leads|]. apply foldl_keeps; [apply add_advance_leads|]. by intros id rule a ?%lookup_empty_Some. }
  intros E. specialize (H os w I). by rewrite E in H.
Qed.
Lemma own_FetchRoutRules products clusters : all_calls own_route (FetchRoutRules products clusters).
Proof. unfold FetchRoutRules. repeat first [calls_step | exact I]. Qed.
Lemma own_FetchDomains f : all_calls own_route (FetchDomains f).
Proof. unfold FetchDomains. repeat first [calls_step | exact I]. Qed.

(** * The configurations of clusters *)

Section Confs.
Context {CR : Crypto} {RO : RangeOrder}.
Variable mode4DP : string.
Variable decodeEppRuntime : string -> option EppRuntimeParam.
Variable sec : security.
Variable resolver : option EppPoolManager.

#[local] Abbreviation reserved := (SystemKeepRouteNames mode4DP).
#[local] Abbreviation conf_step := (cluster_step mode4DP decodeEppRuntime resolver).

(** Every configuration is the one of a cluster in the list. *)
Definition made (tables : exportTables) (clusters : list Cluster) (m : gmap string ClusterConf) : Prop := forall name conf,
  m !! name = Some conf -> exists c addrs, c ∈ clusters /\ cl_Name c = name /\ reserved name = false /\
    cluster_conf decodeEppRuntime tables c addrs = Ok conf.
Definition complete (clusters : list Cluster) (m : gmap string ClusterConf) : Prop := forall c,
  c ∈ clusters -> reserved (cl_Name c) = false -> is_Some (m !! cl_Name c).

Lemma step_keeps d tables c s : hoare (conf_is d) (conf_step tables c s) (fun r w => conf_is d w /\
  match r with
  | Ok m' => exists m, s = Ok m /\ ((reserved (cl_Name c) = true /\ m' = m) \/
      (reserved (cl_Name c) = false /\ exists addrs conf, cluster_conf decodeEppRuntime tables c addrs = Ok conf /\ m' = <[cl_Name c := conf]> m))
  | Err _ => True
  end).
Proof.
  unfold cluster_step. destruct s as [m|e]; [|by apply hoare_ret]. destruct (reserved (cl_Name c)) eqn:E; [apply hoare_ret; intros w Hw; split; [done|]; exists m; split; [done|by left]|].
  eapply (hoare_bind _ _ _ (fun _ => conf_is d)).
  - case_bool_decide; [|by apply hoare_ret]. unfold fetchEPPAssignmentAddrs. destruct resolver as [pools|]; [|by apply hoare_ret].
    eapply hoare_bind; [apply keeps_epp|]. intros r. by apply hoare_ret.
  - intros addrs. apply hoare_ret. intros w Hw. split; [done|]. destruct (cluster_conf _ _ _ _) as [conf|e] eqn:Ec; [|done].
    exists m. split; [done|]. right. split; [done|]. by exists addrs, conf.
Qed.
Lemma loop_stopped tables clusters e : for_each clusters (Err e) (conf_step tables) = Ret (Err e).
Proof. unfold for_each. induction clusters as [|c clusters IH]; [done|exact IH]. Qed.
Lemma loop_makes d tables all clusters m : clusters ⊆ all -> made tables all m ->
  hoare (conf_is d) (for_each clusters (Ok m) (conf_step tables)) (fun r w => conf_is d w /\
    match r with Ok m' => made tables all m' /\ complete clusters m' /\ (forall name, is_Some (m !! name) -> is_Some (m' !! name)) | Err _ => True end).
Proof.
  revert m. induction clusters as [|c clusters IH]; intros m Hsub Hm; cbn [for_each].
  { apply hoare_ret. intros w Hw. split; [done|]. split; [done|]. split; [|done]. by intros c ?%list.not_elem_of_nil. }
  eapply hoare_bind; [apply step_keeps|]. intros [m1|e].
  2: { rewrite loop_stopped. apply hoare_ret. by intros w [Hw _]. }
  intros os w (Hw & m0 & [= <-] & Hcase).
  assert (made tables all m1 /\ (reserved (cl_Name c) = false -> is_Some (m1 !! cl_Name c)) /\ (forall name, is_Some (m !! name) -> is_Some (m1 !! name))) as (H1 & H2 & H3).
  { destruct Hcase as [[Hr ->]|(Hr & addrs & conf & Hc & ->)]; [split; [done|]; split; [congruence|done]|].
    split; [|split; [intros _; rewrite lookup_insert_eq; by eexists|]].
    - intros name conf' [[<- <-]|[_ Hl]]%lookup_insert_Some; [|by apply Hm]. exists c, addrs. split; [apply Hsub; left|done].
    - intros name Hn. destruct (decide (cl_Name c = name)) as [->|]; [rewrite lookup_insert_eq; by eexists|by rewrite lookup_insert_ne]. }
  specialize (IH m1 (fun x Hx => Hsub x (list_elem_of_further _ _ _ Hx)) H1 os w Hw) as [Hw' IH]. split; [done|].
  destruct (exec os _ w).1 as [m'|e]; [|done]. destruct IH as (I1 & I2 & I3). split; [done|]. split; [|intros name Hn; by apply I3, H3].
  intros c' [->|Hc']%list.elem_of_cons Hr; [by apply I3, H2|by apply I2].
Qed.

(** ** Encryption *)

Definition encrypts (k k' : AIKey) : Prop :=
  ak_Name k' = ak_Name k /\ ak_Weight k' = ak_Weight k /\ ExportEncrypt sec (ak_Key k) = Some (Ok (ak_Key k')).
Lemma encrypt_keys_spec l l' : encrypt_keys sec l = Ok l' -> Forall2 encrypts l l'.
Proof.
  revert l'. induction l as [|k l IH]; intros l'; cbn; [intros [= <-]; constructor|].
  destruct (ExportEncrypt sec (ak_Key k)) as [[enc|e]|] eqn:E; [|done..]. destruct (encrypt_keys sec l) as [l1|e]; [|done].
  intros [= <-]. constructor; [by split|by apply IH].
Qed.
Definition sealed (conf conf' : ClusterConf) : Prop :=
  if ExportCryptoEnabled sec then encrypt_conf sec conf = Ok conf' else conf' = conf.
Lemma encrypt_all_spec l l' : encrypt_all sec l = Ok l' -> Forall2 (fun e e' => e'.1 = e.1 /\ encrypt_conf sec e.2 = Ok e'.2) l l'.
Proof.
  revert l'. induction l as [|[name c] l IH]; intros l'; cbn; [intros [= <-]; constructor|].
  destruct (encrypt_conf sec c) as [c'|e] eqn:E; [|done]. destruct (encrypt_all sec l) as [l1|e]; [|done].
  intros [= <-]. constructor; [by split|by apply IH].
Qed.
Lemma range_NoDup {A} (m : gmap string A) : NoDup (range_of m).*1.
Proof. rewrite range_perm. apply NoDup_fst_map_to_list. Qed.
Lemma range_lookup {A} (m : gmap string A) e : e ∈ range_of m <-> m !! e.1 = Some e.2.
Proof. rewrite range_perm. destruct e. apply elem_of_map_to_list. Qed.
Lemma encrypted_spec m m' : encrypted sec m = Ok m' ->
  (forall name conf', m' !! name = Some conf' -> exists conf, m !! name = Some conf /\ sealed conf conf') /\
  (forall name, is_Some (m !! name) -> is_Some (m' !! name)).
Proof.
  unfold encrypted, sealed. destruct (ExportCryptoEnabled sec); cbn [negb]; [|intros [= <-]; split; [by eauto|done]].
  destruct (encrypt_all sec (range_of m)) as [l|e] eqn:E; [|done]. intros [= <-]. apply encrypt_all_spec in E.
  assert (l.*1 = (range_of m).*1) as Hn.
  { clear -E. induction E as [|x y l l' [H1 _] _ IH]; [done|]. cbn. by rewrite H1, IH. }
  assert (NoDup l.*1) as Hnd by (rewrite Hn; apply range_NoDup). split.
  - intros name conf' Hl. apply elem_of_list_to_map in Hl; [|done]. apply list_elem_of_lookup in Hl as [i Hi].
    destruct (Forall2_lookup_r _ _ _ _ _ E Hi) as ([n c] & Hx & H1 & H2). cbn in H1, H2. subst n. exists c. split; [|done].
    assert ((name, c) ∈ range_of m) as Hin by (by eapply list_elem_of_lookup_2). by apply range_lookup in Hin.
  - intros name [c Hc]. assert (name ∈ l.*1) as Hin.
    { rewrite Hn. apply list_elem_of_fmap. exists (name, c). split; [done|]. by apply range_lookup. }
    apply list_elem_of_fmap in Hin as ([n c'] & -> & Hin). exists c'. by apply elem_of_list_to_map.
Qed.

Lemma reads_confs d tables clusters : reads d (NewBfeClusterConf mode4DP decodeEppRuntime sec resolver tables clusters) (fun m' =>
  exists m, made tables clusters m /\ complete clusters m /\ encrypted sec m = Ok m').
Proof.
  unfold NewBfeClusterConf. eapply reads_try.
  - unfold reads. eapply hoare_post; [|apply (loop_makes d tables clusters clusters ∅); [done|by intros name conf ?%lookup_empty_Some]].
    intros [m|e] w [Hw Hm]; (split; [exact Hw|]); [|done]. exact (conj (proj1 Hm) (proj1 (proj2 Hm))).
  - cbv beta. intros m [H1 H2]. apply reads_ret. intros m' Hm'. by exists m.
Qed.
End Confs.

(** * The whole export *)

Lemma providerTable_lookup l name p : providerTable l !! name = Some p -> p ∈ l /\ pv_Name p = name.
Proof.
  unfold providerTable. induction l as [|q l IH] using rev_ind; [cbn [foldl]; by intros ?%lookup_empty_Some|]. rewrite foldl_snoc.
  intros [[<- <-]|[_ H]]%lookup_insert_Some; [split; [set_solver|done]|]. destruct (IH H). split; [set_solver|done].
Qed.
Lemma providerTable_has l p : p ∈ l -> is_Some (providerTable l !! pv_Name p).
Proof.
  unfold providerTable. induction l as [|q l IH] using rev_ind; [by intros ?%list.not_elem_of_nil|]. rewrite foldl_snoc.
  intros Hp. destruct (decide (pv_Name q = pv_Name p)) as [->|Hn]; [rewrite lookup_insert_eq; by eexists|]. rewrite lookup_insert_ne by done.
  apply list.elem_of_app in Hp as [Hp| ->%list_elem_of_singleton]; [by apply IH|done].
Qed.
Lemma provider_found cfg d r : sound_conf cfg d -> r ∈ cd_providers d ->
  providerTable (map providerFromDAO (cd_providers d)) !! tv_Name r = Some (providerFromDAO r).
Proof.
  intros Hs Hr. assert (providerFromDAO r ∈ map providerFromDAO (cd_providers d)) as Hin by (apply elem_of_map; by exists r).
  destruct (providerTable_has _ _ Hin) as [p Hp]. cbn in Hp. rewrite Hp. f_equal.
  apply providerTable_lookup in Hp as [(r' & Hr' & <-)%elem_of_map Hn]. cbn in Hn. by rewrite (provider_by_name Hs r' r).
Qed.

Section WholeExport.
Context {CR : Crypto} {CL : CryptoLaws} {RO : RangeOrder} {SS : SliceSort}.
Variable mode4DP : string.
Variable decodeEppRuntime : string -> option EppRuntimeParam.
Variable sec : security.
Variable resolver : option EppPoolManager.

#[local] Abbreviation reserved := (SystemKeepRouteNames mode4DP).
#[local] Abbreviation export := (exportRouteRule mode4DP decodeEppRuntime sec resolver).

(** The clusters of the tables, as the exporter reads them. *)
Definition read_clusters (d : cdata) (product : TPools -> option ConfProduct) : list Cluster :=
  AppendAdvancedRuleCluster mode4DP (map (read_cluster d product) (cd_clusters d)).
Definition exports (d : cdata) (data : RouteRuleExportData) : Prop := exists tables product m names rules,
  et_providers tables = providerTable (map providerFromDAO (cd_providers d)) /\
  made mode4DP decodeEppRuntime tables (read_clusters d product) m /\ complete mode4DP (read_clusters d product) m /\
  encrypted sec m = Ok (xd_ClusterConf data) /\
  rules_lead (read_clusters d product) rules /\ xd_RouteTable data = newRouteTableFile names rules.

Lemma export_reads d : reads d export (exports d).
Proof.
  unfold exportRouteRule. eapply reads_try; [by apply (reads_routes d _ (fun _ => True)); [apply own_FetchDomains|]|]. intros domains _.
  eapply reads_try.
  { apply (reads_conf d _ (fun l => exists product, l = map (read_cluster d product) (cd_clusters d))); [apply reads_clusters|].
    eapply gives_weaken; [|apply gives_clusters_exact]. cbv beta. intros l d' [_ (product & ->)]. exists product. by rewrite filter_all_bool. }
  cbv beta. intros clusters (product & ->). cbv zeta.
  eapply reads_try; [by apply (reads_prices d _ (fun _ => True))|]. intros prices _.
  eapply reads_try.
  { apply (reads_conf d _ (fun o => o.1 = map providerFromDAO (cd_providers d))); [apply reads_provider_rows|].
    eapply gives_weaken; [|by apply gives_provider_rows]. cbv beta. intros o d' [_ ->]. by rewrite filter_all_bool. }
  cbv beta. intros providers Hp.
  eapply reads_try; [apply (reads_conf d _ (fun _ => True)); [by apply all_calls_one|]; eapply gives_weaken; [|apply gives_products]; done|]. intros products _.
  destruct (domain_products _ _ _) as [names|e]; [|by apply reads_ret].
  eapply reads_try; [apply (reads_routes d _ (rules_lead (read_clusters d product))); [apply own_FetchRoutRules|intros os w a; apply fetched_rules_lead]|].
  intros rules Hr. eapply reads_try; [apply reads_confs|]. cbv beta. intros confs (m & H1 & H2 & H3). apply reads_ret. intros data [= <-].
  set (tables := mkExportTables _ _) in *. exists tables, product, m, (with_default_product products names), rules.
  split; [cbn; by rewrite Hp|]. split; [done|]. split; [done|]. split; [exact H3|]. by split.
Qed.
Lemma exported os w data : ids_positive (export_conf w) -> (exec os export w).1 = Ok data -> exports (cw_data (export_conf w)) data.
Proof.
  intros Hp E. destruct (export_reads (cw_data (export_conf w)) os w) as [_ He]; [by split|]. by rewrite E in He.
Qed.

(** ** Rules *)

Lemma route_table_rules names rules product l : newRouteTableFile names rules !! product = Some l ->
  exists id rule, rules !! id = Some rule /\ l = advance_files (pr_Advance rule).
Proof.
  unfold newRouteTableFile. revert product l. apply foldl_keeps; [|by intros product l ?%lookup_empty_Some].
  intros rt e Hrt product l. destruct (rules !! e.1) as [rule|] eqn:E; [|apply Hrt].
  intros [[_ <-]|[_ Hl]]%lookup_insert_Some; [by exists e.1, rule|by eapply Hrt].
Qed.

(** C14: Whatever the tables hold and whichever calls fail: every forwarding rule
    that an export delivers leads to a reserved name (the advanced mode or
    GO_TO_ADVANCED_RULES, for which nothing is exported) or to a cluster whose
    configuration is in the same export. *)
Theorem exported_rules_resolve os w data product rules cond name :
  ids_positive (export_conf w) -> (exec os export w).1 = Ok data ->
  xd_RouteTable data !! product = Some rules -> (cond, name) ∈ rules ->
  reserved name = true \/ is_Some (xd_ClusterConf data !! name).
Proof.
  intros Hp E Hl Hin. destruct (exported os w data Hp E) as (tables & pr & m & names & rs & _ & _ & Hc & He & Hr & Ht).
  rewrite Ht in Hl. apply route_table_rules in Hl as (id & rule & Hid & ->). apply elem_of_map in Hin as (a & Ha & [= _ <-]).
  destruct (Hr id rule a Hid Ha) as (c & Hcin & <-). destruct (reserved (cl_Name c)) eqn:Er; [by left|right].
  apply (encrypted_spec sec m _ He). by apply Hc.
Qed.

(** ** Keys *)

#[local] Abbreviation reads_back := (reads_back sec).
(** An exported key: the name and weight of the reference, and the value that
    the provider has under that name. *)
Definition exported_key (p : TProvider) (r : ClusterKeyRef) (k : AIKey) : Prop :=
  ak_Name k = default "" (ckr_Name r) /\ ak_Weight k = default 0%Z (ckr_Weight r) /\
  (ak_Name k <> "" -> exists v, mkProviderKey (ak_Name k) v ∈ items (tv_Keys p) /\ reads_back v (ak_Key k)).

Lemma KeyMap_has keys n : n ∈ map pk_Name keys -> exists v, KeyMap keys n = Some v /\ mkProviderKey n v ∈ keys.
Proof.
  intros (k & Hk & Hn)%elem_of_map. unfold KeyMap. destruct (List.find _ (rev keys)) as [k'|] eqn:E.
  - apply find_rev in E as [Hk' Hb%bool_decide_eq_true]. exists (pk_Key k'). split; [done|]. subst n. destruct k'; cbn in *. by rewrite <- Hb.
  - exfalso. eapply List.find_none in E; [|apply List.in_rev; rewrite rev_involutive; by apply list_elem_of_In].
    by rewrite bool_decide_eq_true_2 in E.
Qed.
Lemma export_key_ok p r k : reloaded sec -> (forall n, ckr_Name r = Some n -> n <> "" -> n ∈ map pk_Name (items (tv_Keys p))) ->
  (if ExportCryptoEnabled sec then encrypts sec (export_key (items (tv_Keys p)) r) k else k = export_key (items (tv_Keys p)) r) ->
  exported_key p r k.
Proof.
  intros Hs Hr. set (k0 := export_key (items (tv_Keys p)) r).
  assert (default "" (ckr_Name r) <> "" -> exists v, mkProviderKey (default "" (ckr_Name r)) v ∈ items (tv_Keys p) /\ ak_Key k0 = v) as Hv.
  { intros Hn. destruct (ckr_Name r) as [n|] eqn:E; [|done]. cbn in Hn |- *. destruct (KeyMap_has _ n (Hr n eq_refl Hn)) as (v & Hv & Hin).
    exists v. split; [done|]. unfold k0, export_key. cbn. by rewrite E; cbn; rewrite Hv. }
  unfold exported_key. destruct (ExportCryptoEnabled sec) eqn:Een.
  - intros (H1 & H2 & H3). rewrite H1, H2. split; [done|]. split; [done|]. intros Hn. destruct (Hv Hn) as (v & Hin & <-).
    exists (ak_Key k0). split; [done|]. by apply export_encrypt_reads.
  - intros ->. split; [done|]. split; [done|]. intros Hn. destruct (Hv Hn) as (v & Hin & <-). exists (ak_Key k0). split; [done|].
    unfold reads_back. by rewrite Een.
Qed.

Lemma Forall2_of_map {A B C} (f : A -> B) (P : B -> C -> Prop) l l' : Forall2 P (map f l) l' -> Forall2 (fun a => P (f a)) l l'.
Proof. apply list.Forall2_fmap_l. Qed.
Lemma ai_conf_keys tables llm ai : ai_conf tables llm = Ok ai -> ai_Provider ai = default "" (lc_Provider llm) /\
  ai_Keys ai = map (export_key (items (et_providers tables !! default "" (lc_Provider llm) ≫= pv_Keys))) (lc_Keys llm).
Proof. unfold ai_conf, newAIConf. destruct (convertToBFEModelMapping _); [|done]. by intros [= <-]. Qed.
Lemma cluster_conf_ai tables c addrs conf llm : cluster_conf decodeEppRuntime tables c addrs = Ok conf -> cl_LLMConfig c = Some llm ->
  exists ai, cf_AIConf conf = Some ai /\ ai_conf tables llm = Ok ai.
Proof. unfold cluster_conf. intros E Hl. rewrite Hl in E. destruct (ai_conf tables llm) as [ai|e]; [|done]. injection E as <-. by exists ai. Qed.
Lemma sealed_ai conf conf' ai : sealed sec conf conf' -> cf_AIConf conf = Some ai -> exists ai', cf_AIConf conf' = Some ai' /\
  ai_Provider ai' = ai_Provider ai /\ if ExportCryptoEnabled sec then Forall2 (encrypts sec) (ai_Keys ai) (ai_Keys ai') else ai' = ai.
Proof.
  unfold sealed. destruct (ExportCryptoEnabled sec); [|intros -> Ha; by exists ai]. unfold encrypt_conf. intros E Ha. rewrite Ha in E.
  destruct (encrypt_keys sec (ai_Keys ai)) as [keys|e] eqn:Ek; [|done]. injection E as <-. eexists. split; [done|]. split; [done|]. by apply encrypt_keys_spec.
Qed.
Lemma names_unique d product c c' : clusters_unique (cd_clusters d) = true -> c ∈ cd_clusters d -> c' ∈ read_clusters d product ->
  reserved (tc_Name c) = false -> cl_Name c' = tc_Name c -> c' = read_cluster d product c.
Proof.
  intros Hu Hc Hin Hr Hn. unfold read_clusters, AppendAdvancedRuleCluster in Hin. apply list.elem_of_app in Hin as [Hin| ->%list_elem_of_singleton].
  - apply elem_of_map in Hin as (c0 & Hc0 & <-). cbn in Hn. apply andb_true_iff in Hu as [_ Hu%bool_decide_eq_true].
    f_equal. by apply (NoDup_map_same tc_Name (cd_clusters d)).
  - exfalso. cbn in Hn. unfold SystemKeepRouteNames in Hr. apply orb_false_iff in Hr as [_ Hr%bool_decide_eq_false]. by rewrite Hn in Hr.
Qed.

(** C12: In sound tables, whichever calls fail: an export that is made has the
    configuration of every cluster that is not reserved; its keys are the
    cluster's references, in their order, with the values of the cluster's
    provider, and when exports are encrypted each is an envelope of the active
    export key that the holder of the ring opens to that value. *)
Theorem exported_keys_are_the_providers cfg os w data c llm p :
  reloaded sec -> ids_positive (export_conf w) -> sound_conf cfg (cw_data (export_conf w)) -> (exec os export w).1 = Ok data ->
  c ∈ cd_clusters (cw_data (export_conf w)) -> reserved (tc_Name c) = false -> tc_LLMConfig c = Some llm ->
  p ∈ cd_providers (cw_data (export_conf w)) -> lc_Provider llm = Some (tv_Name p) -> tv_Name p <> "" ->
  exists conf ai, xd_ClusterConf data !! tc_Name c = Some conf /\ cf_AIConf conf = Some ai /\ ai_Provider ai = tv_Name p /\
    Forall2 (exported_key p) (lc_Keys llm) (ai_Keys ai).
Proof.
  set (d := cw_data (export_conf w)). intros Hsec Hpos Hs E Hc Hr Hl Hp Hlp Hne.
  destruct (exported os w data Hpos E) as (tables & pr & m & names & rs & Ht & Hm & Hall & He & _). fold d in Ht, Hm, Hall.
  destruct (encrypted_spec sec m _ He) as [He1 He2].
  destruct (He2 (tc_Name c)) as [conf' Hconf'].
  { apply (Hall (read_cluster d pr c)); [|done]. apply list.elem_of_app. left. apply elem_of_map. by exists c. }
  destruct (He1 _ _ Hconf') as (conf & Hconf & Hseal). destruct (Hm _ _ Hconf) as (c' & addrs & Hc' & Hn & _ & Hcc).
  assert (c' = read_cluster d pr c) as -> by (apply names_unique; [by destruct Hs as [[_ ? _ _ _] _]|done..]).
  destruct (cluster_conf_ai _ _ _ _ llm Hcc Hl) as (ai & Ha & Hai). destruct (sealed_ai _ _ ai Hseal Ha) as (ai' & Ha' & Hprov & Hkeys).
  destruct (ai_conf_keys _ _ _ Hai) as [Hap Hak]. rewrite Ht, Hlp in Hak. change (default "" (Some (tv_Name p))) with (tv_Name p) in Hak. rewrite (provider_found cfg d p Hs Hp) in Hak.
  exists conf', ai'. split; [done|]. split; [done|]. split; [by rewrite Hprov, Hap, Hlp|].
  assert (forall r n, r ∈ lc_Keys llm -> ckr_Name r = Some n -> n <> "" -> n ∈ map pk_Name (items (tv_Keys p))) as Href.
  { intros r n Hrin Hrn Hn0. pose proof (proj1 (proj2 Hs)) as Hrefs. destruct (Hrefs c llm (tv_Name p) Hc Hl Hlp Hne) as (q & Hq & Hqn & _ & Hk).
    assert (q = p) as -> by (by apply (provider_by_name Hs)). by apply (Hk r n). }
  assert (Forall2 (fun r k => if ExportCryptoEnabled sec then encrypts sec (export_key (items (tv_Keys p)) r) k else k = export_key (items (tv_Keys p)) r)
    (lc_Keys llm) (ai_Keys ai')) as Hf.
  { change (items (Some (providerFromDAO p) ≫= pv_Keys)) with (items (tv_Keys p)) in Hak. rewrite Hak in Hkeys.
    destruct (ExportCryptoEnabled sec); [by apply Forall2_of_map|]. rewrite Hkeys, Hak.
    apply (Forall2_of_map (export_key (items (tv_Keys p))) (fun a b => b = a)). by apply list.Forall_Forall2_diag, list.Forall_true. }
  clear -Hf Href Hsec CL. revert Href. induction Hf as [|r k rs ks Hrk _ IH]; intros Href; [constructor|].
  constructor; [apply export_key_ok; [done| |done]; intros n; apply Href; left|]. apply IH. intros r' n Hr'. apply Href. by right.
Qed.

(** ** An export is made *)

(** Every mapping of models has both of its names. *)
Definition mapping_set (o : option Mapping) : Prop := exists source target, o = Some (mkMapping (Some source) (Some target)).
Definition mappings_set (d : cdata) : Prop := forall c llm, c ∈ cd_clusters d -> tc_LLMConfig c = Some llm -> Forall mapping_set (lc_ModelMappings llm).
(** The products of domains are there. *)
Definition domains_known (w : rworld) : Prop := forall r, r ∈ rd_domains (rw_data w) ->
  exists p, product_by_id (cs_products (cw_static (rw_conf w))) (td_ProductID r) = Some p.

Definition works {A} (w : xworld) (p : prog exportE (result A)) (Q : A -> Prop) : Prop :=
  exists a, (exec [] p w).1 = Ok a /\ xw_routes (exec [] p w).2 = xw_routes w /\ Q a.
Lemma works_ret {A} w (Q : A -> Prop) a : Q a -> works w (Ret (Ok a)) Q.
Proof. intros HQ. by exists a. Qed.
Lemma works_try {A B} w (p : prog exportE (result A)) (f : A -> prog exportE (result B)) (M : A -> Prop) (Q : B -> Prop) :
  works w p M -> (forall a w', M a -> xw_routes w' = xw_routes w -> works w' (f a) Q) -> works w (a <-? p ;; f a) Q.
Proof.
  intros (a & Ha & Hw & HM) Hf. unfold works. rewrite exec_bind_nil, Ha. destruct (Hf a _ HM Hw) as (b & Hb & Hw' & HQ).
  exists b. split; [done|]. split; [by rewrite Hw'|done].
Qed.
Lemma works_conf {A} w (p : prog confE (result A)) (Q : A -> Prop) a : exec [] p (export_conf w) = (Ok a, export_conf w) -> Q a -> works w (of_conf p) Q.
Proof.
  intros E HQ. exists a. unfold of_conf. rewrite (exec_lifted (get := xw_routes) (put := put_xroutes)), (exec_lifted (get := rw_conf) (put := put_rconf)).
  change (rw_conf (xw_routes w)) with (export_conf w). rewrite E. cbn [fst snd]. split; [done|]. split; [|done]. unfold export_conf. cbn. by destruct (xw_routes w).
Qed.
Lemma works_routes {A} w (p : prog routeE (result A)) (Q : A -> Prop) a : exec [] p (xw_routes w) = (Ok a, xw_routes w) -> Q a -> works w (of_routes p) Q.
Proof. intros E HQ. exists a. unfold of_routes. by rewrite (exec_lifted (get := xw_routes) (put := put_xroutes)), E. Qed.

(** Readings answer when nothing fails. *)
Definition answers {A} (c : cworld) (p : prog confE (result A)) : Prop := exists a, exec [] p c = (Ok a, c).
Lemma answers_ret {A} c (a : A) : answers c (Ret (Ok a)).
Proof. by exists a. Qed.
Lemma answers_try {A B} c (p : prog confE (result A)) (f : A -> prog confE (result B)) : answers c p -> (forall a, answers c (f a)) -> answers c (a <-? p ;; f a).
Proof. intros [a Ha] Hf. unfold answers. rewrite exec_bind_nil, Ha. apply Hf. Qed.
Ltac answer := repeat first [apply answers_try; [|intros ?] | apply answers_ret | case_match | by eexists].
Lemma answers_clusters c f : answers c (FetchClusterRows f).
Proof. unfold FetchClusterRows, FetchSubClusterRows, FetchPoolRows. answer. Qed.

Lemma mapping_pairs_ok l : Forall mapping_set l -> exists m, mapping_pairs l = Ok m.
Proof. induction 1 as [|o l (src & target & ->) _ [m Hm]]; cbn; [by eexists|]. rewrite Hm. by eexists. Qed.
Lemma cluster_conf_ok tables c addrs : (forall llm, cl_LLMConfig c = Some llm -> Forall mapping_set (lc_ModelMappings llm)) ->
  exists conf, cluster_conf decodeEppRuntime tables c addrs = Ok conf.
Proof.
  intros Hc. unfold cluster_conf. destruct (cl_LLMConfig c) as [llm|]; [|by eexists]. unfold ai_conf, newAIConf, convertToBFEModelMapping.
  destruct (mapping_pairs_ok _ (Hc llm eq_refl)) as [m ->]. by eexists.
Qed.
Lemma domain_products_ok products domains m : (forall x, x ∈ domains -> exists p, product_by_id products (do_ProductID x) = Some p) ->
  exists names, domain_products products domains m = Ok names.
Proof.
  revert m. induction domains as [|x domains IH]; intros m Hd; cbn; [by eexists|]. destruct (Hd x) as [p ->]; [left|]. apply IH. intros y Hy. apply Hd. by right.
Qed.
Lemma encrypted_ok m : reloaded sec -> exists m', encrypted sec m = Ok m'.
Proof.
  intros Hs. unfold encrypted. destruct (ExportCryptoEnabled sec) eqn:Een; cbn [negb]; [|by eexists].
  assert (forall keys, exists keys', encrypt_keys sec keys = Ok keys') as Hkeys.
  { induction keys as [|k keys [keys' IH]]; cbn; [by eexists|]. pose proof (enabled_exports_encrypt sec (ak_Key k) Hs) as Hx. rewrite Een in Hx.
    destruct Hx as (ct & _ & _ & -> & _). rewrite IH. by eexists. }
  assert (forall l, exists l', encrypt_all sec l = Ok l') as Hall.
  { induction l as [|[name c] l [l' IH]]; cbn; [by eexists|]. unfold encrypt_conf. destruct (cf_AIConf c) as [ai|].
    - destruct (Hkeys (ai_Keys ai)) as [keys ->]. rewrite IH. by eexists.
    - rewrite IH. by eexists. }
  destruct (Hall (range_of m)) as [l ->]. by eexists.
Qed.
Lemma confs_work w tables clusters : reloaded sec ->
  (forall c llm, c ∈ clusters -> cl_LLMConfig c = Some llm -> Forall mapping_set (lc_ModelMappings llm)) ->
  works w (NewBfeClusterConf mode4DP decodeEppRuntime sec resolver tables clusters) (fun _ => True).
Proof.
  intros Hs Hc. unfold NewBfeClusterConf. apply (works_try w _ _ (fun _ => True)); [|intros m w' _ _; destruct (encrypted_ok m Hs) as [m' ->]; by apply works_ret].
  generalize (∅ : gmap string ClusterConf). revert w. induction clusters as [|c clusters IH]; intros w m; cbn [for_each]; [by apply works_ret|].
  assert (exists m1, (exec [] (cluster_step mode4DP decodeEppRuntime resolver tables c (Ok m)) w).1 = Ok m1 /\
    xw_routes (exec [] (cluster_step mode4DP decodeEppRuntime resolver tables c (Ok m)) w).2 = xw_routes w) as (m1 & H1 & H2).
  { unfold cluster_step. destruct (reserved (cl_Name c)); [by exists m|]. rewrite exec_bind_nil.
    set (q := if bool_decide _ then _ else _). assert (xw_routes (exec [] q w).2 = xw_routes w) as Hq.
    { unfold q. case_bool_decide; [|done]. unfold fetchEPPAssignmentAddrs. destruct resolver as [pools|]; [|done].
      rewrite exec_bind_nil. unfold of_epp. by rewrite (exec_lifted (get := xw_epp) (put := put_xepp)). }
    destruct (cluster_conf_ok tables c (exec [] q w).1 (fun llm => Hc c llm (list_elem_of_here _ _))) as [conf Hconf].
    cbn [exec fst snd]. rewrite Hconf. by eexists. }
  unfold works. change (for_each (c :: clusters) (Ok m) ?f) with (bind (f c (Ok m)) (fun s => for_each clusters s f)). rewrite exec_bind_nil, H1. destruct (IH (fun c' llm Hin => Hc c' llm (list_elem_of_further _ _ _ Hin))
    (exec [] (cluster_step mode4DP decodeEppRuntime resolver tables c (Ok m)) w).2 m1) as (m' & H3 & H4 & _).
  exists m'. split; [done|]. split; [by rewrite H4|done].
Qed.

Lemma clusters_read w f : ids_positive (export_conf w) -> exists l product, exec [] (FetchClusterRows f) (export_conf w) = (Ok l, export_conf w) /\
  l = map (read_cluster (cw_data (export_conf w)) product) (List.filter (where_cluster f) (cd_clusters (cw_data (export_conf w)))).
Proof.
  intros Hp. destruct (answers_clusters (export_conf w) f) as [l Hl]. exists l.
  destruct (gives_clusters_exact (cw_data (export_conf w)) f [] (export_conf w) (conj Hp eq_refl)) as [_ Hg]. rewrite Hl in Hg.
  destruct Hg as [_ (product & Hg)]. by exists product.
Qed.

(** C20: When no call fails, the products of all domains are there and every
    mapping of models is complete, the export is made, after any history of
    reloads of the keys. *)
Theorem export_is_made w : reloaded sec -> ids_positive (export_conf w) -> domains_known (xw_routes w) ->
  mappings_set (cw_data (export_conf w)) -> exists data, (exec [] export w).1 = Ok data.
Proof.
  intros Hs Hp Hd Hm. assert (works w export (fun _ => True)) as (data & H & _); [|by exists data]. unfold exportRouteRule.
  apply (works_try w _ _ (fun l => forall x, x ∈ l -> exists r, r ∈ rd_domains (rw_data (xw_routes w)) /\ do_ProductID x = td_ProductID r)).
  { eapply works_routes; [reflexivity|]. intros x (r & Hr & <-)%elem_of_map. apply elem_of_filter_bool in Hr as [Hr _]. by exists r. }
  intros domains w1 Hdom E1. destruct (clusters_read w1 noClusterFilter) as (l & product & Hl & Hlc); [unfold export_conf; by rewrite E1|].
  apply (works_try w1 _ _ (fun l => exists product, l = map (read_cluster (cw_data (export_conf w)) product) (cd_clusters (cw_data (export_conf w))))).
  { eapply works_conf; [exact Hl|]. exists product. rewrite Hlc, filter_all_bool by done. unfold export_conf. by rewrite E1. }
  intros clusters w2 (product' & ->) E2. cbv zeta. apply (works_try w2 _ _ (fun _ => True)).
  { eexists. unfold of_prices. rewrite (exec_lifted (get := xw_prices) (put := put_xprices)). split; [reflexivity|]. by split. }
  intros prices w3 _ E3. apply (works_try w3 _ _ (fun _ => True)); [by eapply works_conf; [reflexivity|]|].
  intros providers w4 _ E4. apply (works_try w4 _ _ (fun l => l = cs_products (cw_static (rw_conf (xw_routes w))))).
  { eapply works_conf; [reflexivity|]. rewrite filter_all_bool by done. unfold export_conf. by rewrite E4, E3, E2, E1. }
  intros products w5 -> E5. destruct (domain_products_ok (cs_products (cw_static (rw_conf (xw_routes w)))) domains ∅) as [names ->].
  { intros x Hx. destruct (Hdom x Hx) as (r & Hr & ->). by apply Hd. }
  apply (works_try w5 _ _ (fun _ => True)); [by eapply works_routes; [reflexivity|]|].
  intros rules w6 _ E6. apply (works_try w6 _ _ (fun _ => True)); [|intros confs w7 _ _; by apply works_ret].
  apply confs_work; [done|]. intros c llm [Hc| ->%list_elem_of_singleton]%list.elem_of_app Hllm; [|done].
  apply elem_of_map in Hc as (r & Hr & <-). by apply (Hm r llm).
Qed.
End WholeExport.

(** * Traffic *)

(** The entries of a table by the names of clusters. *)
Lemma foldl_insert_has {A B} (key : A -> string) (f : A -> B) (l : list A) a (m : gmap string B) : NoDup (map key l) -> a ∈ l ->
  foldl (fun m x => <[key x := f x]> m) m l !! key a = Some (f a).
Proof.
  induction l as [|x l IH] using rev_ind; [by intros _ ?%list.not_elem_of_nil|]. rewrite foldl_snoc.
  intros [Hnd Hx]%NoDup_map_snoc [Ha| ->%list_elem_of_singleton]%list.elem_of_app; [|apply lookup_insert_eq].
  rewrite lookup_insert_ne; [by apply IH|]. intros E. apply Hx. rewrite E. apply elem_of_map. by exists a.
Qed.

Section Traffic.
Context {cfg : ClusterConfig} {d : cdata} (Hs : sound_conf cfg d).

Lemma matrix_found c : c ∈ cd_clusters d -> parseLBMatrixList (cd_matrices d) (tc_ID c) = Some (default_scheduler cfg (tc_Name c)).
Proof.
  intros Hc. pose proof (proj2 (proj2 Hs)) as L. unfold parseLBMatrixList. destruct (List.find _ _) as [m|] eqn:E.
  - apply find_rev in E as [Hm Hid%bool_decide_eq_true]. cbn. by rewrite (all_traffic _ _ L c m).
  - exfalso. assert (tc_ID c ∈ map tl_ClusterID (cd_matrices d)) as (m & Hm & Hid)%elem_of_map by (apply (matrix_of _ _ L), elem_of_map; by exists c).
    eapply List.find_none in E; [|apply List.in_rev; rewrite rev_involutive; by apply list_elem_of_In]. by rewrite bool_decide_eq_true_2 in E.
Qed.
Lemma cluster_names : NoDup (map tc_Name (cd_clusters d)).
Proof. destruct Hs as [[_ Hu _ _ _] _]. by apply andb_true_iff in Hu as [_ Hu%bool_decide_eq_true]. Qed.

(** The backends of a cluster are the instances of its one pool. *)
Lemma backends_of product c : c ∈ cd_clusters d -> exists s o, s ∈ cd_subs d /\ ts_ClusterID s = tc_ID c /\ o ∈ cd_pools d /\ to_Id o = ts_PoolsID s /\
  cluster_backends (read_cluster d product c) =
    match items (to_Instances o) with [] => ∅ | l => {[ tc_Name c := map backend l ]} end.
Proof.
  intros Hc. destruct (owned_rows Hs c Hc) as (s & o & H1 & H2 & H3 & H4 & H5 & H6). exists s, o. do 4 (split; [done|]).
  unfold cluster_backends. cbn. rewrite H5. cbn. unfold pool_instances. cbn. rewrite H6. cbn.
  rewrite (same_name _ _ (proj2 (proj2 Hs)) c s Hc H1 H2). destruct (items (to_Instances o)); [done|]. by rewrite insert_empty.
Qed.

Lemma gives_table check : gives d (clusterTableConfGenerator check) (fun t d' => d' = d /\ exists product, forall c, c ∈ cd_clusters d ->
  t !! tc_Name c = Some (cluster_backends (read_cluster d product c))).
Proof.
  unfold clusterTableConfGenerator. eapply gives_try; [apply gives_clusters_exact|]. intros l d' [-> (product & ->)]. cbv zeta.
  apply gives_result. intros t Ht. split; [done|]. exists product. intros c Hc. destruct (check _); [done|]. injection Ht as <-.
  rewrite filter_all_bool by done.
  change (tc_Name c) with (cl_Name (read_cluster d product c)). apply (foldl_insert_has cl_Name cluster_backends).
  - rewrite List.map_map. exact cluster_names.
  - apply elem_of_map. by exists c.
Qed.

Definition all_to (name : string) : list (string * Z) := map_put BlackHole 0%Z [(name, 100%Z)].
Lemma gslb_rows product l m : (forall c, c ∈ l -> c ∈ cd_clusters d) ->
  foldl (gslb_step (cc_DefaultAIClusterName cfg)) (Ok m) (map (read_cluster d product) l) =
    Ok (foldl (fun m c => <[tc_Name c := all_to (tc_Name c)]> m) m l).
Proof.
  revert m. induction l as [|c l IH]; intros m Hl; [done|]. cbn [map foldl].
  assert (gslb_step (cc_DefaultAIClusterName cfg) (Ok m) (read_cluster d product c) = Ok (<[tc_Name c := all_to (tc_Name c)]> m)) as ->.
  { unfold gslb_step. change (cl_Scheduler (read_cluster d product c)) with (parseLBMatrixList (cd_matrices d) (tc_ID c)).
    rewrite (matrix_found c) by (apply Hl; left). unfold default_scheduler, map_get. cbn. by rewrite bool_decide_eq_true_2. }
  apply IH. intros c' Hc'. apply Hl. by right.
Qed.
Lemma gives_gslb check : gives d (gslbConfGenerator check (cc_DefaultAIClusterName cfg)) (fun t d' => d' = d /\ forall c, c ∈ cd_clusters d ->
  t !! tc_Name c = Some (all_to (tc_Name c))).
Proof.
  unfold gslbConfGenerator. eapply gives_try; [apply gives_clusters_exact|]. intros l d' [-> (product & ->)].
  rewrite filter_all_bool, gslb_rows by done. apply gives_result. intros t Ht. split; [done|]. intros c Hc.
  destruct (check _); [done|]. injection Ht as <-. apply (foldl_insert_has tc_Name (fun c => all_to (tc_Name c))); [exact cluster_names|done].
Qed.
End Traffic.

(** C13: In sound tables whose pools follow the providers: whatever the two exports
    deliver, all traffic of a cluster that refers to a provider goes to the
    sub-cluster that bears its name, whose backends are the instances of the
    provider, in their order. *)
Theorem traffic_reaches_the_provider cfg check_table check_gslb os os' w table gslb c llm p :
  ids_positive w -> sound_conf cfg (cw_data w) -> pools_follow (cw_data w) ->
  (exec os (clusterTableConfGenerator check_table) w).1 = Ok table ->
  (exec os' (gslbConfGenerator check_gslb (cc_DefaultAIClusterName cfg)) w).1 = Ok gslb ->
  c ∈ cd_clusters (cw_data w) -> tc_LLMConfig c = Some llm -> p ∈ cd_providers (cw_data w) -> lc_Provider llm = Some (tv_Name p) ->
  tv_Name p <> "" -> tc_Name c <> BlackHole -> EffectiveInstancePool (providerFromDAO p) <> [] ->
  gslb !! tc_Name c = Some [(tc_Name c, 100%Z); (BlackHole, 0%Z)] /\
  table !! tc_Name c = Some {[ tc_Name c := map backend (providerInstancesToClusterInstances (EffectiveInstancePool (providerFromDAO p))) ]}.
Proof.
  intros Hpos Hs Hf Et Eg Hc Hl Hp Hlp Hne Hb He. split.
  - destruct (gives_gslb Hs check_gslb os' w (conj Hpos eq_refl)) as [_ Hg]. rewrite Eg in Hg. destruct Hg as [_ Hg]. rewrite (Hg c Hc).
    unfold all_to, map_put, map_remove. cbn. by rewrite (bool_decide_eq_false_2 (tc_Name c = BlackHole)).
  - destruct (gives_table Hs check_table os w (conj Hpos eq_refl)) as [_ Hg]. rewrite Et in Hg. destruct Hg as [_ (product & Hg)]. rewrite (Hg c Hc).
    destruct (backends_of Hs product c Hc) as (s & o & H1 & H2 & H3 & H4 & ->). rewrite (Hf c llm p s o) by done. cbn.
    by destruct (EffectiveInstancePool (providerFromDAO p)).
Qed.

(** * A sample *)

#[local] Instance sample_order : RangeOrder := {| range_of := fun A => map_to_list; range_perm := fun A m => reflexivity _ |}.
Definition key_le {A} (key : A -> Z) (a b : A) : Prop := (key a <= key b)%Z.
#[local] Instance key_le_dec {A} (key : A -> Z) a b : Decision (key_le key a b) := Z_le_dec (key a) (key b).
#[local] Instance key_le_total {A} (key : A -> Z) : Total (key_le key).
Proof. intros a b. unfold key_le. lia. Qed.
#[local] Instance key_le_trans {A} (key : A -> Z) : Transitive (key_le key).
Proof. intros a b c. unfold key_le. lia. Qed.
#[local] Program Instance sample_sort : SliceSort := {| sort_slice := fun A key l => merge_sort (key_le key) l |}.
Next Obligation. intros A key l. apply merge_sort_Permutation. Qed.
Next Obligation. intros A key l. apply (StronglySorted_merge_sort (key_le key)). Qed.

(** The tables after some requests. *)
Definition conf_after (l : list conf_request) : cworld := sample_requests l first_conf.
Lemma conf_after_facts l : ids_positive (conf_after l) /\ sound_conf sample_conf_cfg (cw_data (conf_after l)).
Proof.
  exact (history_sound (fun _ => true) sample_conf_cfg no_epp no_runtime runtime_text no_duration (Err (PlainError "nobody")) delete_checkers checkers_read
    (map (fun q => (q, [])) l) first_conf first_positive (empty_sound _)).
Qed.
Definition main_key : ClusterKeyRef := mkKeyRef (Some "main") (Some 100%Z).
Definition export_setup : list conf_request :=
  [PostProvider (manual_provider "openai"); PostCluster (cluster_request "chat" "openai" ["gpt-4"] [main_key])].
(** A domain, and two rules, the second of which leads to no cluster. *)
Definition sample_routes (c : cworld) : rworld :=
  mkRWorld c (mkRData [mkTDomain 1 "api.example.com" 1 DomainTypeGeneral 0 0]
    [mkTAdvance 1 "all" "" 1 "default_t()" (match cd_clusters (cw_data c) with r :: _ => tc_ID r | [] => 0%Z end);
     mkTAdvance 2 "old" "" 1 "default_t()" 99] []) None 3 [].
Definition export_world (l : list conf_request) (prices : list ModelPrice) : xworld :=
  mkXWorld (sample_routes (conf_after l)) (price_world prices) (mkEppWorld [] [] [] None [] true).
Definition sample_sec : security :=
  (ReloadSecurity sample_read sample_toml (Some (mkSecurityConfig "" 0 true "ring.toml" 0 0)) start).2.
Definition sample_sec_reloaded : reloaded sample_sec := reloaded_step _ _ _ _ reloaded_start.
Definition sample_export (w : xworld) : result RouteRuleExportData := (exec [] (exportRouteRule "ADVANCED_MODE" no_runtime sample_sec None) w).1.
Definition exported_data (w : xworld) : RouteRuleExportData :=
  match sample_export w with Ok data => data | Err _ => mkRouteRuleExport ∅ (mkHostTable ∅ ∅) ∅ end.
Lemma exported_data_ok w : is_ok (sample_export w) = true ->
  (exec [] (exportRouteRule "ADVANCED_MODE" no_runtime sample_sec None) w).1 = Ok (exported_data w).
Proof. unfold exported_data. change (exec [] _ w).1 with (sample_export w). by destruct (sample_export w). Qed.

Definition keyed_world : xworld := export_world export_setup two_prices.
Lemma keyed_world_exports : (exec [] (exportRouteRule "ADVANCED_MODE" no_runtime sample_sec None) keyed_world).1 = Ok (exported_data keyed_world).
Proof. apply exported_data_ok. by vm_compute. Qed.
Lemma keyed_world_positive : ids_positive (export_conf keyed_world).
Proof. exact (proj1 (conf_after_facts export_setup)). Qed.
Lemma keyed_world_sound : sound_conf sample_conf_cfg (cw_data (export_conf keyed_world)).
Proof. exact (proj2 (conf_after_facts export_setup)). Qed.

Lemma exported_rules_resolve_witness : xd_RouteTable (exported_data keyed_world) !! "AI" = Some [("default_t()", "chat")] /\
  (SystemKeepRouteNames "ADVANCED_MODE" "chat" = true \/ is_Some (xd_ClusterConf (exported_data keyed_world) !! "chat")).
Proof.
  assert (xd_RouteTable (exported_data keyed_world) !! "AI" = Some [("default_t()", "chat")]) as Ht by (by vm_compute). split; [exact Ht|].
  apply (exported_rules_resolve "ADVANCED_MODE" no_runtime sample_sec None [] keyed_world (exported_data keyed_world) "AI" [("default_t()", "chat")] "default_t()" "chat");
    [exact keyed_world_positive|exact keyed_world_exports|exact Ht|by left].
Defined.

Definition chat_row : TCluster := match cd_clusters (cw_data (conf_after export_setup)) with r :: _ => r | [] => mkTCluster 0 "" "" 0 false (cl_Basic (advanced_cluster "")) (cl_StickySessions (advanced_cluster "")) (cl_PassiveHealthCheck (advanced_cluster "")) None "" "" "" end.
Definition openai_row : TProvider := match cd_providers (cw_data (conf_after export_setup)) with r :: _ => r | [] => mkTProvider 0 "" "" None None None None "" "" None None None "" None end.
Definition chat_llm : LLMConfig := match tc_LLMConfig chat_row with Some l => l | None => mkLLMConfig [] [] [] None None None None None None end.

Lemma exported_keys_are_the_providers_witness : exists conf ai, xd_ClusterConf (exported_data keyed_world) !! "chat" = Some conf /\
  cf_AIConf conf = Some ai /\ ai_Provider ai = "openai" /\ Forall2 (exported_key sample_sec openai_row) [main_key] (ai_Keys ai).
Proof.
  change [main_key] with (lc_Keys chat_llm). change "openai" with (tv_Name openai_row).
  apply (exported_keys_are_the_providers "ADVANCED_MODE" no_runtime sample_sec None sample_conf_cfg [] keyed_world (exported_data keyed_world) chat_row chat_llm openai_row).
  - exact sample_sec_reloaded.
  - exact keyed_world_positive.
  - exact keyed_world_sound.
  - exact keyed_world_exports.
  - apply (list_elem_of_lookup_2 _ 0). by vm_compute.
  - by vm_compute.
  - by vm_compute.
  - apply (list_elem_of_lookup_2 _ 0). by vm_compute.
  - by vm_compute.
  - by vm_compute.
Defined.
Lemma export_is_made_witness : exists data, (exec [] (exportRouteRule "ADVANCED_MODE" no_runtime sample_sec None) keyed_world).1 = Ok data.
Proof.
  apply (export_is_made "ADVANCED_MODE" no_runtime sample_sec None keyed_world); [exact sample_sec_reloaded|exact keyed_world_positive| |].
  - intros r ->%list_elem_of_singleton. eexists. by vm_compute.
  - intros c llm [->|[]%list.not_elem_of_nil]%list.elem_of_cons E. assert (llm = chat_llm) as -> by (injection E as <-; by vm_compute). constructor.
Defined.

(** The tables of [sample_conf]: a cluster of a provider whose one instance is
    given by hand, and one whose instance comes from Kubernetes. *)
Definition local_row : TCluster := match cd_clusters (cw_data sample_conf) with _ :: r :: _ => r | _ => chat_row end.
Definition pods_row : TProvider := match cd_providers (cw_data sample_conf) with _ :: r :: _ => r | _ => openai_row end.
Definition local_llm : LLMConfig := match tc_LLMConfig local_row with Some l => l | None => chat_llm end.
Definition sample_table (w : cworld) : gmap string (gmap string (list BackendConf)) :=
  match (exec [] (clusterTableConfGenerator (fun _ => None)) w).1 with Ok t => t | Err _ => ∅ end.
Definition sample_gslb (w : cworld) : gmap string (list (string * Z)) :=
  match (exec [] (gslbConfGenerator (fun _ => None) "AI.gateway") w).1 with Ok t => t | Err _ => ∅ end.
Lemma sample_table_ok w : is_ok (exec [] (clusterTableConfGenerator (fun _ => None)) w).1 = true ->
  (exec [] (clusterTableConfGenerator (fun _ => None)) w).1 = Ok (sample_table w).
Proof. unfold sample_table. by destruct (exec [] _ w).1. Qed.
Lemma sample_gslb_ok w : is_ok (exec [] (gslbConfGenerator (fun _ => None) "AI.gateway") w).1 = true ->
  (exec [] (gslbConfGenerator (fun _ => None) "AI.gateway") w).1 = Ok (sample_gslb w).
Proof. unfold sample_gslb. by destruct (exec [] _ w).1. Qed.
Lemma traffic_reaches_the_provider_witness :
  sample_gslb sample_conf !! tc_Name local_row = Some [(tc_Name local_row, 100%Z); (BlackHole, 0%Z)] /\
  sample_table sample_conf !! tc_Name local_row = Some {[ tc_Name local_row :=
    map backend (providerInstancesToClusterInstances (EffectiveInstancePool (providerFromDAO pods_row))) ]}.
Proof.
  apply (traffic_reaches_the_provider sample_conf_cfg (fun _ => None) (fun _ => None) [] [] sample_conf (sample_table sample_conf) (sample_gslb sample_conf)
    local_row local_llm pods_row).
  - exact (proj1 sample_facts).
  - exact (proj1 (proj2 sample_facts)).
  - exact (proj2 (proj2 sample_facts)).
  - apply sample_table_ok. by vm_compute.
  - apply sample_gslb_ok. by vm_compute.
  - apply (list_elem_of_lookup_2 _ 1). by vm_compute.
  - by vm_compute.
  - apply (list_elem_of_lookup_2 _ 1). by vm_compute.
  - by vm_compute.
  - by vm_compute.
  - by vm_compute.
  - by vm_compute.
Defined.

(** * What goes wrong *)

(** An instance that is disabled keeps its share of the traffic. *)
Definition disabled_provider : ProviderParam :=
  mkProviderParam (Some "openai") None None (Some ["gpt-4"]) (Some [mkProviderKey "main" "sk-1"])
    (Some [host "a.example.com"; mkProviderInstance "b.example.com" 443 100 true]) None None None (Some ["openai"]) None None None.
Example disabled_instance_gets_traffic :
  let w := conf_after [PostProvider disabled_provider; PostCluster (cluster_request "chat" "openai" ["gpt-4"] [main_key])] in
  option_map (fun t => map (fun b => (be_Addr b, be_Weight b)) (default [] (t !! "chat"))) (sample_table w !! "chat") =
    Some [("a.example.com", 100%Z); ("b.example.com", 100%Z)].
Proof. by vm_compute. Qed.

(** Of fifty-one prices the last is not in the table of models. *)
Definition exported_models (w : xworld) (name : string) : list TableModel :=
  match xd_ClusterConf (exported_data w) !! name with
  | Some conf => match cf_AIConf conf with Some ai => match ai_ModelTable ai with Some t => mt_Models t | None => [] end | None => [] end
  | None => []
  end.
Example price_beyond_first_page_lost :
  let w := export_world export_setup (catalogue 51) in
  length (pw_rows (xw_prices w)) = 51 /\ length (exported_models w "chat") = 50 /\
  existsb (fun m => bool_decide (tb_Model m = "gpt-50")) (exported_models w "chat") = false.
Proof. split; [|split]; by vm_compute. Qed.

(** Two modes of one model with a discount each give two rows of mode [batch]
    for it, with different prices. *)
Definition embedding_price : ModelPrice :=
  mkModelPrice 0 "openai" "gpt-4" "base" "embedding" [] [] ∅ {["input_cost_per_token" := cents 1]} ∅ (Some (cents 80)) "" ∅.
Example two_batch_rows :
  let models := List.filter (fun m => bool_decide (tb_Mode m = "batch"))
    (exported_models (export_world export_setup [price_of "openai" "gpt-4" 3 (Some (cents 50)); embedding_price]) "chat") in
  map (fun m => (tb_Model m, tb_Prices m !! "input_cost_per_token")) models =
    [("gpt-4", Some (float_div (float_of_Z 15) (float_of_Z 1000))); ("gpt-4", Some (float_div (float_of_Z 8) (float_of_Z 1000)))].
Proof. by vm_compute. Qed.

(** A cluster may bear the name of the advanced mode; it is never exported. *)
Example reserved_name_not_exported :
  let w := export_world [PostProvider (manual_provider "openai");
    PostCluster (cluster_request RouteAdvancedModeClusterName "openai" ["gpt-4"] [main_key])] two_prices in
  map tc_Name (cd_clusters (cw_data (export_conf w))) = [RouteAdvancedModeClusterName] /\
  xd_RouteTable (exported_data w) !! "AI" = Some [("default_t()", RouteAdvancedModeClusterName)] /\
  xd_ClusterConf (exported_data w) = ∅.
Proof. split; [|split]; by vm_compute. Qed.
