(* ===== verification/GateModel.v ===== *)
(** What the gateway fetches about API keys: the tokens with their models,
    plans and tags ([model/imods/exporter.go]), the conditions of AI routes
    that it checks tokens on ([model/iai_route], [storage/rdb/ai_route]), the
    tables of route rules that keys are bound to
    ([model/imods/ai_route_exporter.go]); and the manager of route rules with
    its endpoints ([model/route_rules], [storage/rdb/route_rules],
    [endpoints/openapi_v1/global_route_rules] and [route_tables]).

    Entities, keys, plans and the rows of route rules are those of
    [OwnerModel], whose world is a part of this one.  A nil pointer that the
    code follows is the error [panic]. *)
From Stdlib Require Import ZArith Lia Ascii SpecFloat.
From stdpp Require Import base tactics numbers list strings gmap option.
From S2P Require Import Prelude GoStrings GoNet Prog QuotaModel XCrypto Security SharedTypes Validate OwnerModel.

Local Open Scope string_scope.

Definition panicked : goerr := PlainError "panic".

(** * Conditions of AI routes ([iai_route/common.go], [ai_route.go]) *)

Definition MatchModePrefix : string := "prefix_match".
Definition MatchModeExact : string := "exact_match".
Definition MatchModeSuffix : string := "suffix_match".

Record PathFilter : Type := mkPathFilter { ph_MatchMode : option string; ph_IgnoreCase : option bool; ph_Path : option string }.
Record BasicHeaderFilter : Type := mkHeaderFilter {
  hd_Key : option string; hd_Value : option string; hd_MatchMode : option string; hd_IgnoreCase : option bool
}.
Record ModelFilter : Type := mkModelFilter {
  md_Name : option string; md_Pattern : option string; md_IgnoreCase : option bool; md_MatchMode : option string
}.
(** The action of a rule is stored and not exported. *)
Record BasicInfo : Type := mkBasicInfo {
  bi_Domain : option string; bi_PathFilter : option PathFilter; bi_Method : option string;
  bi_HeaderFilters : list (option BasicHeaderFilter); bi_ModelFilter : option ModelFilter
}.

Definition quoted (s : string) : string := String (ascii_of_N 34) (s +:+ String (ascii_of_N 34) "").
Definition bool_text (b : bool) : string := if b then "true" else "false".
Definition combineConditions (currentCond newCond : string) : string :=
  if bool_decide (newCond = "") then currentCond else
  if bool_decide (currentCond = "") then newCond else currentCond +:+ "&&" +:+ newCond.

Definition buildDomainCondition (domain : option string) : string :=
  match domain with
  | Some d => if bool_decide (d = "") then "" else "req_host_in(" +:+ quoted d +:+ ")"
  | None => ""
  end.
(** [None] where a nil pointer is followed. *)
Definition path_call (name : string) (f : PathFilter) : option string :=
  match ph_Path f, ph_IgnoreCase f with
  | Some path, Some i => Some (name +:+ "(" +:+ quoted path +:+ ", " +:+ bool_text i +:+ ")")
  | _, _ => None
  end.
Definition path_cond (mode : string) (f : PathFilter) : option string :=
  if bool_decide (mode = MatchModePrefix) then path_call "req_path_prefix_in" f else
  if bool_decide (mode = MatchModeExact) then path_call "req_path_in" f else
  if bool_decide (mode = MatchModeSuffix) then path_call "req_path_suffix_in" f else Some "".
Definition buildPathCondition (currentCond : string) (pathFilter : option PathFilter) : option string :=
  match pathFilter with
  | None => Some currentCond
  | Some f =>
      match ph_MatchMode f with
      | None => Some currentCond
      | Some mode => option_map (combineConditions currentCond) (path_cond mode f)
      end
  end.
Definition buildMethodCondition (currentCond : string) (method : option string) : string :=
  match method with
  | Some m => if bool_decide (m = "") then currentCond else combineConditions currentCond ("req_method_in(" +:+ quoted m +:+ ")")
  | None => currentCond
  end.
Definition header_call (name : string) (f : BasicHeaderFilter) : option string :=
  match hd_Key f, hd_Value f, hd_IgnoreCase f with
  | Some k, Some v, Some i => Some (name +:+ "(" +:+ quoted k +:+ ", " +:+ quoted v +:+ ", " +:+ bool_text i +:+ ")")
  | _, _, _ => None
  end.
Definition header_cond (mode : string) (f : BasicHeaderFilter) : option string :=
  if bool_decide (mode = MatchModePrefix) then header_call "req_header_value_prefix_in" f else
  if bool_decide (mode = MatchModeExact) then header_call "req_header_value_in" f else
  if bool_decide (mode = MatchModeSuffix) then header_call "req_header_value_suffix_in" f else Some "".
Definition header_step (currentCond : option string) (header : option BasicHeaderFilter) : option string :=
  match currentCond, header with
  | None, _ => None
  | _, None => None
  | Some c, Some f =>
      match hd_MatchMode f with
      | None => Some c
      | Some mode => option_map (combineConditions c) (header_cond mode f)
      end
  end.
Definition buildHeaderConditions (currentCond : string) (headerFilters : list (option BasicHeaderFilter)) : option string :=
  foldl header_step (Some currentCond) headerFilters.
Definition model_mode (f : ModelFilter) : string :=
  match md_MatchMode f with Some m => if bool_decide (m = "") then MatchModeExact else m | None => MatchModeExact end.
Definition buildModelCondition (currentCond : string) (modelFilter : option ModelFilter) : option string :=
  match modelFilter with
  | None => Some currentCond
  | Some f =>
      match md_Name f with
      | None => Some currentCond
      | Some name =>
          if bool_decide (name = "") then Some currentCond else
          match md_Pattern f, md_IgnoreCase f with
          | Some p, Some i =>
              Some (combineConditions currentCond
                ((if bool_decide (model_mode f = MatchModePrefix) then "req_body_json_prefix_in(" else "req_body_json_in(") +:+
                 quoted p +:+ ", " +:+ quoted name +:+ ", " +:+ bool_text i +:+ ")"))
          | _, _ => None
          end
      end
  end.
Definition BuildAIRouteCond (basicInfo : option BasicInfo) : option string :=
  match basicInfo with
  | None => None
  | Some b =>
      match buildPathCondition (buildDomainCondition (bi_Domain b)) (bi_PathFilter b) with
      | None => None
      | Some c =>
          match buildHeaderConditions (buildMethodCondition c (bi_Method b)) (bi_HeaderFilters b) with
          | None => None
          | Some c => buildModelCondition c (bi_ModelFilter b)
          end
      end
  end.

(** ** Rows: the column of JSON text is what it decodes to *)

Record TAIRouteRule : Type := mkTAIRoute { ti_ID : Z; ti_Name : string; ti_Basic : option BasicInfo; ti_IDX : Z; ti_ProductName : string }.
Record Rule : Type := mkRule { ru_Name : string; ru_Basic : option BasicInfo }.
Definition ConvertToRule (r : TAIRouteRule) : Rule := mkRule (ti_Name r) (ti_Basic r).

(** * The calls *)

Record RouteRulesFilter : Type := mkRouteFilter {
  rf_Type : option string; rf_Owner : option string; rf_Enabled : option bool; rf_Page : option Z; rf_PageSize : option Z;
  rf_SortBy : option string; rf_SortOrder : option string
}.
Record TRouteRulesParam : Type := mkTRouteParam {
  trp_ID : option Z; trp_Type : option string; trp_Owner : option string; trp_Enabled : option bool; trp_OrderBy : option string;
  trp_Limit : option (Z * Z)
}.
Definition noRouteParam : TRouteRulesParam := mkTRouteParam None None None None None None.
Definition byRouteOwner (type : string) (owner : option string) : TRouteRulesParam := mkTRouteParam None (Some type) owner None None None.
Definition put_limit (l : Z * Z) (p : TRouteRulesParam) : TRouteRulesParam :=
  mkTRouteParam (trp_ID p) (trp_Type p) (trp_Owner p) (trp_Enabled p) (trp_OrderBy p) (Some l).
Definition where_route (w : TRouteRulesParam) (r : TRouteRules) : bool :=
  eq_if (trp_ID w) (ro_ID r) && eq_if (trp_Type w) (ro_Type r) && eq_if (trp_Owner w) (ro_Owner r) && eq_if (trp_Enabled w) (ro_Enabled r).

(** A record of the global rules; its maps are the parameters. *)
Record route_entry : Type := mkRouteEntry {
  rn_Action : string; rn_before : option RouteRulesParam; rn_after : option RouteRulesParam; rn_err : option goerr
}.

Inductive gateE : Type -> Type :=
| OfOwners {R} (e : ownerE R) : gateE R
| TRouteRulesOne (w : TRouteRulesParam) : gateE (result (option TRouteRules))
| TRouteRulesList (w : TRouteRulesParam) : gateE (result (list TRouteRules))
| TAIRouteRuleList (product : option string) : gateE (result (list TAIRouteRule))
| RecordRoutes (e : route_entry) : gateE unit.

Record gworld : Type := mkGWorld { gw_owners : oworld; gw_aiRoutes : list TAIRouteRule; gw_log : list route_entry }.
Definition put_owners (w : oworld) (g : gworld) : gworld := mkGWorld w (gw_aiRoutes g) (gw_log g).
Definition gw_routes (g : gworld) : list TRouteRules := od_routes (ow_data (gw_owners g)).

(** What ORDER BY makes of the text that it is given. *)
Class RowOrder : Type := { ordered : string -> list TRouteRules -> list TRouteRules }.
Definition limited {A} (l : option (Z * Z)) (rows : list A) : list A :=
  match l with Some (offset, n) => take (Z.to_nat n) (drop (Z.to_nat offset) rows) | None => rows end.

Section Handle.
Context {CR : Crypto} {RO : RowOrder}.

Definition select_routes (w : TRouteRulesParam) (rows : list TRouteRules) : list TRouteRules :=
  let hits := List.filter (where_route w) rows in
  limited (trp_Limit w) (match trp_OrderBy w with Some o => ordered o hits | None => hits end).
Definition gate_handle {R} (e : gateE R) : gworld -> R * gworld :=
  match e in gateE R return gworld -> R * gworld with
  | OfOwners e => fun g => let '(r, w) := handle e (gw_owners g) in (r, put_owners w g)
  | TRouteRulesOne w => fun g => (Ok (List.find (where_route w) (gw_routes g)), g)
  | TRouteRulesList w => fun g => (Ok (select_routes w (gw_routes g)), g)
  | TAIRouteRuleList product => fun g => (Ok (List.filter (fun r => eq_if product (ti_ProductName r)) (gw_aiRoutes g)), g)
  | RecordRoutes e => fun g => (tt, mkGWorld (gw_owners g) (gw_aiRoutes g) (gw_log g ++ [e])%list)
  end.
Definition gate_fault {R} (e : gateE R) : option R :=
  match e in gateE R return option R with
  | OfOwners e => fault e
  | TRouteRulesOne _ => Some (Err DaoError)
  | TRouteRulesList _ => Some (Err DaoError)
  | TAIRouteRuleList _ => Some (Err DaoError)
  | RecordRoutes _ => None
  end.
#[export] Instance gate_interp : Interp gateE gworld := {| handle := @gate_handle; fault := @gate_fault |}.
#[export] Instance gate_embeds_owners : Embeds (@OfOwners) gw_owners put_owners.
Proof. split; intros; cbn; try by destruct (owner_handle e (gw_owners v)). all: by try destruct v. Qed.
End Handle.
#[export] Instance gate_txn : TxnCalls gateE := {|
  tx_begin := OfOwners (Quota TxBegin); tx_commit := OfOwners (Quota TxCommit); tx_rollback := OfOwners (Quota TxRollback);
  is_commit := fun R (e : gateE R) => match e with OfOwners e => is_commit e | _ => false end
|}.

(** A program of the owners as one of this component. *)
Definition of_owners {A} (p : prog ownerE A) : prog gateE A := lifted (@OfOwners) p.

(** * Route rules ([model/route_rules/route_rules.go]) *)

(** ** Storage ([storage/rdb/route_rules]) *)

Definition FetchRouteRules (type : string) (owner : option string) : prog gateE (result (option RouteRulesParam)) :=
  one <-? call (TRouteRulesOne (byRouteOwner type owner)) ;;
  Ret (Ok (option_map routeRulesDataToParam one)).
Definition FetchRouteRulesByID (id : Z) : prog gateE (result (option RouteRulesParam)) := call (OfOwners (FetchRouteRow id)).
Definition FetchAllRouteRules : prog gateE (result (list RouteRulesParam)) :=
  list <-? call (TRouteRulesList noRouteParam) ;;
  Ret (Ok (map routeRulesDataToParam list)).

Record RouteTableParam : Type := mkRouteTable { rt_ID : option Z; rt_Type : string; rt_Owner : string; rt_Enabled : bool }.
Definition table_param (r : TRouteRules) : RouteTableParam :=
  mkRouteTable (Some (ro_ID r)) (ToRouteTableType (ro_Type r)) (ro_Owner r) (ro_Enabled r).
(** The text of [sort_by] goes into ORDER BY as it is. *)
Definition order_text (f : RouteRulesFilter) : option string :=
  match rf_SortBy f with
  | None => None
  | Some by_ =>
      if bool_decide (by_ = "") then None else
      Some (match rf_SortOrder f with
            | Some o => if among o ["asc"; "desc"] then by_ +:+ " " +:+ o else by_
            | None => by_
            end)
  end.
Definition routeRulesFilterToParam (f : RouteRulesFilter) : TRouteRulesParam :=
  mkTRouteParam None (option_map FromRouteTableType (rf_Type f)) (rf_Owner f) (rf_Enabled f) (order_text f) None.
Definition table_page (page : option Z) : Z := match page with Some p => if (0 <? p)%Z then p else 1 | None => 1 end.
Definition table_size (size : option Z) : Z := match size with Some s => if (0 <? s)%Z then Z.min s 100 else 20 | None => 20 end.
Definition FetchRouteRulesList (f : RouteRulesFilter) : prog gateE (result (list RouteTableParam * Z)) :=
  let where_ := routeRulesFilterToParam f in
  allList <-? call (TRouteRulesList where_) ;;
  let pageSize := table_size (rf_PageSize f) in
  let offset := wrap64 ((table_page (rf_Page f) - 1) * pageSize) in
  let offset := if (offset <? 0)%Z then 0%Z else offset in
  list <-? call (TRouteRulesList (put_limit (offset, pageSize) where_)) ;;
  Ret (Ok (map table_param list, Z.of_nat (length allList))).

(** ** Validation *)

Section Manager.
(** [condition.Build] of the gateway: which expressions it accepts. *)
Variable condition_Build : string -> bool.

Definition check_weight (t : option AiRouteTargetParam) (total : Z) : verdict * Z :=
  match t with
  | None => (Panic, total)
  | Some t =>
      match tg_Weight t with
      | None => (Refuse (ParamError "target weight is required"), total)
      | Some w => (Accept, wrap64 (total + w))
      end
  end.
Definition check_fallback_name (f : option AiRouteFallbackParam) (s : unit) : verdict * unit :=
  match f with
  | None => (Panic, s)
  | Some f => (refuse_if (blank (fb_ClusterName f)) "fallback ClusterName cannot be empty", s)
  end.
Definition check_route_rule (r : option AiRouteRuleParam) (names : list string) : verdict * list string :=
  match r with
  | None => (Panic, names)
  | Some r =>
      let name := default "" (rr_Name r) in
      (refuse_if (blank (rr_Name r)) "rule name is required" &>
       refuse_if (seen name names) "duplicate rule name: %s" &>
       refuse_if (blank (rr_Cond r)) "rule Cond is required" &>
       ConditionExpression condition_Build (default "" (rr_Cond r)) &>
       refuse_if (length (rr_Targets r) =? 0)%nat "targets cannot be empty" &>
       let '(v, total) := check_each check_weight (rr_Targets r) 0%Z in
       v &>
       refuse_if (negb (total =? 100)%Z) "targets total weight must be 100" &>
       fst (check_each check_fallback_name (rr_Fallbacks r) tt),
       name :: names)
  end.
Definition validateRouteRules (p : RouteRulesParam) : verdict := fst (check_each check_route_rule (rrs_Rules p) []).

(** ** Operations *)

Definition CreateRouteRules (type : string) (owner : option string) (p : RouteRulesParam) : prog gateE (result Z) :=
  atomically (checked (validateRouteRules p) (call (OfOwners (CreateRouteRow type owner p)))).
(** The row of the owner is changed, or made where there is none. *)
Definition update_routes_body (type : string) (owner : option string) (p : RouteRulesParam) : prog gateE (result Z) :=
  checked (validateRouteRules p)
    (existing <-? FetchRouteRules type owner ;;
     match existing with
     | Some (mkRouteRules (Some id) _ _) => _ <-? call (OfOwners (UpdateRouteRow id p)) ;; Ret (Ok id)
     | _ => call (OfOwners (CreateRouteRow type owner p))
     end).
Definition UpdateRouteRules (type : string) (owner : option string) (p : RouteRulesParam) : prog gateE (result Z) :=
  atomically (update_routes_body type owner p).
Definition RouteRulesManager_FetchRouteRules (type : string) (owner : option string) : prog gateE (result (option RouteRulesParam)) :=
  atomically (FetchRouteRules type owner).
Definition DeleteRouteRules (type : string) (owner : option string) : prog gateE (result unit) :=
  atomically
    (existing <-? FetchRouteRules type owner ;;
     match existing with
     | Some (mkRouteRules (Some id) _ _) => call (OfOwners (DeleteRouteRow id))
     | _ => Ret (Ok tt)
     end).
Definition RouteRulesManager_FetchRouteRulesByID (id : Z) : prog gateE (result (option RouteRulesParam)) := atomically (FetchRouteRulesByID id).
Definition ListRouteTables (f : RouteRulesFilter) : prog gateE (result (list RouteTableParam * Z)) := atomically (FetchRouteRulesList f).

Definition global_owner : option string := Some RouteRulesTypeGlobal.
Definition GetGlobalRouteRules : prog gateE (result (option RouteRulesParam)) :=
  RouteRulesManager_FetchRouteRules RouteRulesTypeGlobal global_owner.
Definition recordGlobalRouteRulesOperation (before after : option RouteRulesParam) (err : option goerr) : prog gateE unit :=
  call (RecordRoutes (mkRouteEntry "update" before after err)).
Definition SetGlobalRouteRules (p : RouteRulesParam) : prog gateE (result RouteRulesParam) :=
  b <- FetchRouteRules RouteRulesTypeGlobal global_owner ;;
  let before := match b with Ok r => r | Err _ => None end in
  r <- UpdateRouteRules RouteRulesTypeGlobal global_owner p ;;
  match r with
  | Err e => recordGlobalRouteRulesOperation before (Some p) (Some e) ;; Ret (Err e)
  | Ok id =>
      u <- FetchRouteRulesByID id ;;
      match u with
      | Err e => recordGlobalRouteRulesOperation before (Some p) (Some e) ;; Ret (Err e)
      | Ok None =>
          recordGlobalRouteRulesOperation before (Some p) (Some (RecordNotExist "global route rules")) ;;
          Ret (Err (RecordNotExist "global route rules"))
      | Ok (Some updated) => recordGlobalRouteRulesOperation before (Some updated) None ;; Ret (Ok updated)
      end
  end.
(** At start-up. *)
Definition EnsureGlobalRouteRules : prog gateE (result unit) :=
  atomically
    (existing <-? FetchRouteRules RouteRulesTypeGlobal global_owner ;;
     match existing with
     | Some _ => Ret (Ok tt)
     | None => _ <-? call (OfOwners (CreateRouteRow RouteRulesTypeGlobal global_owner (mkRouteRules None (Some false) []))) ;; Ret (Ok tt)
     end).

(** ** Endpoints *)

Definition without_id (p : RouteRulesParam) : RouteRulesParam := mkRouteRules None (rrs_Enabled p) (rrs_Rules p).
Definition GlobalRouteRulesGetAction : prog gateE (result (option RouteRulesParam)) :=
  rules <-? GetGlobalRouteRules ;;
  Ret (Ok (option_map without_id rules)).
Definition enabled_by_default (p : RouteRulesParam) : RouteRulesParam :=
  mkRouteRules (rrs_ID p) (Some (default true (rrs_Enabled p))) (rrs_Rules p).
Definition GlobalRouteRulesUpdateAction (p : RouteRulesParam) : prog gateE (result RouteRulesParam) :=
  checked (RouteRules condition_Build (Some p))
    (updated <-? SetGlobalRouteRules (enabled_by_default p) ;;
     Ret (Ok (without_id updated))).

Record RouteTablesListResponse : Type := mkTablesResponse { tl_List : list RouteTableParam; tl_Page : Z; tl_PageSize : Z; tl_Total : Z }.
Definition given_text (s : option string) : option string := match s with Some t => if bool_decide (t = "") then None else s | None => None end.
Definition RouteTablesListAction (f : RouteRulesFilter) : prog gateE (result RouteTablesListResponse) :=
  let page := table_page (rf_Page f) in
  let pageSize := table_size (rf_PageSize f) in
  r <-? ListRouteTables (mkRouteFilter (given_text (rf_Type f)) (given_text (rf_Owner f)) (rf_Enabled f) (Some page) (Some pageSize)
    (rf_SortBy f) (rf_SortOrder f)) ;;
  Ret (Ok (mkTablesResponse r.1 page pageSize r.2)).
End Manager.

(** * Tokens ([model/imods/exporter.go], [mod_api_key_rule.go]) *)

Definition APIKeyActionCMD : string := "CHECK_TOKEN".
Definition UnlimitedQuota : Z := -1.
Definition maxEntityHierarchyDepth : nat := 10.

(** [Action] keeps its command. *)
Record APIKeyRule : Type := mkKeyRule { kr_Cond : string; kr_Actions : list string; kr_ProductName : string }.
Record TokenRuleFile : Type := mkTokenRule { tr_Cond : string; tr_Action : option string }.
Record ApikeyTag : Type := mkTag { ta_Name : string; ta_Value : string; ta_Level : Z }.
Record QuotaPlan : Type := mkQuotaPlan {
  qx_Id : string; qx_Unlimited : bool; qx_PassNoQuota : bool; qx_RedisKey : string; qx_ExpiredTime : Z; qx_Quota : Z; qx_Unit : string
}.
Record TokenFile : Type := mkTokenFile {
  to_Key : string; to_KeyID : string; to_Enabled : bool; to_ExpiredTime : Z; to_UnlimitedQuota : bool;
  to_Models : option string; to_BlockModels : option string; to_Subnet : option string;
  to_Tags : list ApikeyTag; to_QuotaPlans : list string
}.
Record ModAPIKeyRuleConf : Type := mkRuleConf {
  mc_Config : gmap string (list TokenRuleFile); mc_QuotaPlans : gmap string (list QuotaPlan);
  mc_Tokens : gmap string (gmap string TokenFile)
}.
(** Which storages there are. *)
Record APIKeyRuleManager : Type := mkRuleManager { km_hasPlans : bool; km_hasEntities : bool; km_hasTypes : bool }.

Definition convertAPIKeyRulesToBfeRules (rules : list APIKeyRule) : list TokenRuleFile :=
  map (fun r => mkTokenRule (kr_Cond r) (head (kr_Actions r))) rules.

(** ** Models *)

Definition containsStar (l : list string) : bool := existsb (fun s => bool_decide (s = "*")) l.
Definition intersectSlices (a b : list string) : list string := List.filter (fun s => bool_decide (s ∈ b)) a.
Definition intersectAllowModels (l : list (list string)) : list string :=
  match l with [] => [] | first :: rest => foldl intersectSlices first rest end.
(** A list that restricts: it is not empty and has no star. *)
Definition restricting (l : list string) : list (list string) :=
  match l with [] => [] | _ => if containsStar l then [] else [l] end.
Definition parent_of (e : EntityParam) : option string :=
  match ep_ParentID e with Some p => if bool_decide (p = "") then None else Some p | None => None end.
(** From an entity upwards, as far as [depth] goes. *)
Fixpoint entity_chain (depth : nat) (entities : gmap string EntityParam) (id : string) : list EntityParam :=
  match depth with
  | O => []
  | S depth =>
      match entities !! id with
      | None => []
      | Some e => e :: match parent_of e with Some p => entity_chain depth entities p | None => [] end
      end
  end.
Definition fetchEntityModelHierarchy (entities : gmap string EntityParam) (id : string) : list string * list string :=
  let chain := entity_chain maxEntityHierarchyDepth entities id in
  (intersectAllowModels (List.flat_map (fun e => restricting (ep_AllowModels e)) chain),
   List.concat (List.flat_map (fun e => restricting (ep_BlockModels e)) chain)).

Definition key_models (one : APIKeyParam) : list string :=
  List.filter (fun m => negb (bool_decide (m = "")) && negb (bool_decide (m = "*"))) (ak_Models one).
Definition final_models (key entity : list string) : list string :=
  match key, entity with
  | [], _ => entity
  | _, [] => key
  | _, _ => intersectSlices key entity
  end.
(** The models of a token, and whether it is disabled for having none. *)
Definition token_models (key entity : list string) : string * bool :=
  match key, entity with
  | [], [] => ("", false)
  | _, _ => (Join (final_models key entity) ",", (length (final_models key entity) =? 0)%nat)
  end.
(** A list as text; a lone star stands for no text. *)
Definition joined (l : list string) : option string :=
  match l with
  | [] => None
  | _ => Some (if bool_decide (Join l "," = "*") then "" else Join l ",")
  end.

(** ** Plans and tags *)

Section Tokens.
Context {CR : Crypto}.
Context (PtrToRedisValue : spec_float -> option string -> Z).
(** [RunTime.AIRouteInnerProductName] of the configuration *)
Variable aiProductName : string.
Variable sec : security.
Variable m : APIKeyRuleManager.

Definition convertQuotaPlanToExport (qp : QuotaPlanParam) (id redisKeyID : string) : QuotaPlan :=
  mkQuotaPlan id (default false (qp_Unlimited qp)) (default false (qp_PassWhenNoEnoughQuota qp)) ("QUOTA_" +:+ redisKeyID) (-1)
    (match qp_Quota qp with Some q => PtrToRedisValue q (qp_Unit qp) | None => 0%Z end) (default "" (qp_Unit qp)).
Definition containsQuotaPlan (collected : gmap string (list QuotaPlan)) (product id : string) : bool :=
  existsb (fun q => bool_decide (qx_Id q = id)) (default [] (collected !! product)).
Definition collect (product : string) (qp : QuotaPlan) (collected : gmap string (list QuotaPlan)) : gmap string (list QuotaPlan) :=
  if containsQuotaPlan collected product (qx_Id qp) then collected
  else <[product := (default [] (collected !! product) ++ [qp])%list]> collected.
(** The limited plan of an owner, under a name of the owner. *)
Definition limited_plan (plans : gmap Z QuotaPlanParam) (plan : option Z) (name : option string) : option QuotaPlan :=
  if negb (km_hasPlans m) then None else
  match plan, name with
  | Some i, Some n =>
      match plans !! i with
      | Some qp => if default false (qp_Unlimited qp) then None else Some (convertQuotaPlanToExport qp n n)
      | None => None
      end
  | _, _ => None
  end.
Definition entity_tag (types : gmap string EntityTypeParam) (e : EntityParam) : result (list ApikeyTag) :=
  match ep_EntityID e, ep_Type e, ep_Name e with
  | Some _, Some type, Some name =>
      if negb (km_hasTypes m) then Ok [mkTag type name 0] else
      match types !! type with
      | Some (mkEntityType _ _ _ (Some level) _) => Ok [mkTag type name level]
      | _ => Err (PlainError "entity type %s not found or level invalid")
      end
  | _, _, _ => Ok []
  end.

Definition owned : Type := list string * list ApikeyTag * gmap string (list QuotaPlan).
Definition add_plan (product : string) (qp : option QuotaPlan) (s : owned) : owned :=
  match qp with
  | Some q => ((s.1.1 ++ [qx_Id q])%list, s.1.2, collect product q s.2)
  | None => s
  end.
Definition entity_step (plans : gmap Z QuotaPlanParam) (types : gmap string EntityTypeParam) (product : string)
    (s : result owned) (e : EntityParam) : result owned :=
  match s with
  | Err err => Err err
  | Ok s =>
      match entity_tag types e with
      | Err err => Err err
      | Ok tags =>
          Ok (add_plan product (limited_plan plans (ep_QuotaPlanID e) (ep_EntityID e)) (s.1.1, (s.1.2 ++ tags)%list, s.2))
      end
  end.
Definition fetchQuotaPlansWithEntityHierarchy (plans : gmap Z QuotaPlanParam) (types : gmap string EntityTypeParam)
    (chain : list EntityParam) (product : string) (one : APIKeyParam) (collected : gmap string (list QuotaPlan)) : result owned :=
  foldl (entity_step plans types product)
    (Ok (add_plan product (limited_plan plans (ak_QuotaPlanID one) (ak_Key one)) ([], [], collected))) chain.

(** ** One token *)

Record tokenTables : Type := mkTokenTables {
  tb_entities : gmap string EntityParam; tb_plans : gmap Z QuotaPlanParam; tb_types : gmap string EntityTypeParam
}.
Definition key_entity (one : APIKeyParam) : option string :=
  if negb (km_hasEntities m) then None else
  match ak_EntityID one with Some e => if bool_decide (e = "") then None else Some e | None => None end.
Definition chain_of (tables : tokenTables) (one : APIKeyParam) : list EntityParam :=
  match key_entity one with Some e => entity_chain maxEntityHierarchyDepth (tb_entities tables) e | None => [] end.
Definition hierarchy_models (tables : tokenTables) (one : APIKeyParam) : list string * list string :=
  match key_entity one with Some e => fetchEntityModelHierarchy (tb_entities tables) e | None => ([], []) end.
(** The key of a token in its map, and its key field. *)
Definition token_key (key : string) : result (string * string) :=
  if negb (ExportCryptoEnabled sec) then Ok (key, key) else
  match ExportEncrypt sec key with
  | None => Err panicked
  | Some (Err _) => Err (PlainError "encrypt token key_id %s failed: %s")
  | Some (Ok enc) => Ok (enc, "")
  end.
Definition token_file (tables : tokenTables) (id key_field : string) (one : APIKeyParam) (s : owned) : TokenFile :=
  let models := hierarchy_models tables one in
  let allowed := token_models (key_models one) models.1 in
  mkTokenFile key_field id (default false (ak_Enable one) && negb allowed.2) (default UnlimitedQuota (ak_ExpiredTime one))
    (default false (ak_UnlimitedQuota one) || (length s.1.1 =? 0)%nat)
    (Some allowed.1) (joined models.2) (joined (ak_Subnet one)) s.1.2 s.1.1.

Definition tokens : Type := gmap string (gmap string TokenFile) * gmap string (list QuotaPlan).
Definition token_step (tables : tokenTables) (s : result tokens) (one : APIKeyParam) : result tokens :=
  match s, ak_ProductName one, ak_Key one, ak_ID one with
  | Err e, _, _, _ => Err e
  | Ok s, Some product, Some key, Some id =>
      match fetchQuotaPlansWithEntityHierarchy (tb_plans tables) (tb_types tables) (chain_of tables one) product one s.2 with
      | Err _ => Err (PlainError "fetch quota plans error: %s")
      | Ok o =>
          match token_key key with
          | Err e => Err e
          | Ok (outer, inner) =>
              Ok (<[product := <[outer := token_file tables id inner one o]> (default ∅ (s.1 !! product))]> s.1, o.2)
          end
      end
  | _, _, _, _ => Err panicked
  end.

(** ** The export *)

Definition rule_cond (r : Rule) : result APIKeyRule :=
  match BuildAIRouteCond (ru_Basic r) with
  | None => Err panicked
  | Some cond => Ok (mkKeyRule cond [APIKeyActionCMD] aiProductName)
  end.
Fixpoint rule_conds (l : list Rule) : result (list APIKeyRule) :=
  match l with
  | [] => Ok [mkKeyRule "default_t()" [APIKeyActionCMD] aiProductName]
  | r :: l =>
      match rule_cond r with
      | Err e => Err e
      | Ok x => match rule_conds l with Ok xs => Ok (x :: xs) | Err e => Err e end
      end
  end.
Definition FormatAIRouteAPIKeyRules : prog gateE (result (list APIKeyRule)) :=
  rules <-? call (TAIRouteRuleList (Some aiProductName)) ;;
  Ret (rule_conds (map ConvertToRule rules)).
Definition buildAIRouteAPIKeyRules : prog gateE (result (gmap string (list APIKeyRule))) :=
  r <- FormatAIRouteAPIKeyRules ;;
  Ret (match r with
       | Ok rules => Ok {[aiProductName := rules]}
       | Err e => Err (if bool_decide (e = panicked) then e else PlainError "read ai route api key rule is error:%s")
       end).

Definition noEntityFilter : EntityFilter := mkEntityFilter None None None None None None None None.
Definition entity_map (l : list EntityParam) : gmap string EntityParam :=
  foldl (fun s e => match ep_EntityID e with Some i => <[i := e]> s | None => s end) ∅ l.
Definition plans_map (l : list QuotaPlanParam) : gmap Z QuotaPlanParam :=
  foldl (fun s q => match qp_ID q with Some i => <[i := q]> s | None => s end) ∅ l.
Definition type_map (l : list EntityTypeParam) : gmap string EntityTypeParam :=
  foldl (fun s t => match ty_TypeName t with Some n => <[n := t]> s | None => s end) ∅ l.
Definition buildEntityMap : prog gateE (result (gmap string EntityParam)) :=
  if negb (km_hasEntities m) then Ret (Ok ∅) else
  l <-? call (OfOwners (FetchEntityRows noEntityFilter)) ;; Ret (Ok (entity_map l)).
Definition buildQuotaPlanMap : prog gateE (result (gmap Z QuotaPlanParam)) :=
  if negb (km_hasPlans m) then Ret (Ok ∅) else
  l <-? call (OfOwners (Quota (FetchQuotaPlanRows (mkPlanFilter None None [])))) ;; Ret (Ok (plans_map l)).
Definition buildEntityTypeMap : prog gateE (result (gmap string EntityTypeParam)) :=
  if negb (km_hasTypes m) then Ret (Ok ∅) else
  l <-? call (OfOwners (FetchEntityTypeRows (mkEntityTypeFilter None None None None None))) ;; Ret (Ok (type_map l)).

Definition APIKeyRuleGenerator : prog gateE (result ModAPIKeyRuleConf) :=
  config <-? buildAIRouteAPIKeyRules ;;
  apiKeyList <-? call (OfOwners (FetchKeyRows anyKey)) ;;
  entities <-? buildEntityMap ;;
  plans <-? buildQuotaPlanMap ;;
  types <-? buildEntityTypeMap ;;
  Ret (match foldl (token_step (mkTokenTables entities plans types)) (Ok (∅, ∅)) apiKeyList with
       | Ok s => Ok (mkRuleConf (convertAPIKeyRulesToBfeRules <$> config) s.2 s.1)
       | Err e => Err e
       end).
End Tokens.

(** * Tables of routes ([model/imods/ai_route_exporter.go]) *)

Record AiRouteTargetExport : Type := mkTargetExport { xt_ClusterName : string; xt_Model : string; xt_Weight : Z }.
Record AiRouteFallbackExport : Type := mkFallbackExport { xf_ClusterName : string; xf_Model : string }.
Record RouteRuleExport : Type := mkRuleExport {
  xr_Name : string; xr_Cond : string; xr_Targets : list AiRouteTargetExport; xr_Fallbacks : list AiRouteFallbackExport
}.
Record RouteTableExport : Type := mkTableExport { xe_Type : string; xe_Owner : string; xe_Rules : list RouteRuleExport }.
Record AiRouteDataExport : Type := mkRouteData {
  xd_RouteRules : gmap string RouteTableExport; xd_Bindings : gmap string (list string)
}.

Definition export_target (t : option AiRouteTargetParam) : option AiRouteTargetExport :=
  t ← t; Some (mkTargetExport (default "" (tg_ClusterName t)) (default "" (tg_Model t)) (default 0%Z (tg_Weight t))).
Definition export_fallback (f : option AiRouteFallbackParam) : option AiRouteFallbackExport :=
  f ← f; Some (mkFallbackExport (default "" (fb_ClusterName f)) (default "" (fb_Model f))).
Definition export_rule (r : option AiRouteRuleParam) : option RouteRuleExport :=
  r ← r;
  targets ← mapM export_target (rr_Targets r);
  fallbacks ← mapM export_fallback (rr_Fallbacks r);
  Some (mkRuleExport (default "" (rr_Name r)) (default "" (rr_Cond r)) targets fallbacks).
(** [None] where an element of a list is nil. *)
Definition convertToRouteTableExport (type owner : string) (rules : list (option AiRouteRuleParam)) : option RouteTableExport :=
  rules ← mapM export_rule rules; Some (mkTableExport type owner rules).

Definition is_enabled (p : RouteRulesParam) : bool := default false (rrs_Enabled p).
Definition apikey_table (key : string) : string := "apikey_" +:+ key.
Definition entity_table (name : string) : string := "entity_" +:+ name.
Definition global_table : string := "global_default".

(** The tables so far, and what the key at hand is bound to. *)
Definition binding : Type := gmap string RouteTableExport * list string.
Definition bind_table (name type owner : string) (p : option RouteRulesParam) (s : binding) : result binding :=
  match p with
  | Some p =>
      if negb (is_enabled p) then Ok s else
      match convertToRouteTableExport type owner (rrs_Rules p) with
      | Some t => Ok (<[name := t]> s.1, (s.2 ++ [name])%list)
      | None => Err panicked
      end
  | None => Ok s
  end.
(** The rows that an owner refers to, when there is a reference. *)
Definition fetch_rules (id : option Z) : prog gateE (result (option RouteRulesParam)) :=
  match id with Some i => FetchRouteRulesByID i | None => Ret (Ok None) end.
Definition key_table (one : APIKeyParam) (key : string) (s : binding) : prog gateE (result binding) :=
  p <-? fetch_rules (ak_RouteRulesID one) ;;
  Ret (bind_table (apikey_table key) RouteRulesTypeAPIKey key p s).
Definition entity_rules (e : EntityParam) (s : binding) : prog gateE (result binding) :=
  p <-? fetch_rules (ep_RouteRulesID e) ;;
  Ret (match ep_Name e with
       | Some name => bind_table (entity_table name) RouteRulesTypeEntity name p s
       | None => Ok s
       end).
(** Up to the root; [None] when the chain is longer than [fuel].  The code has
    no such bound. *)
Fixpoint entity_tables (fuel : nat) (entities : gmap string EntityParam) (id : option string) (s : binding)
  : prog gateE (option (result binding)) :=
  match id with
  | None => Ret (Some (Ok s))
  | Some i =>
      if bool_decide (i = "") then Ret (Some (Ok s)) else
      match fuel with
      | O => Ret None
      | S fuel =>
          match entities !! i with
          | None => Ret (Some (Ok s))
          | Some e =>
              r <- entity_rules e s ;;
              match r with
              | Err err => Ret (Some (Err err))
              | Ok s => entity_tables fuel entities (ep_ParentID e) s
              end
          end
      end
  end.
Definition put_binding (key : string) (l : list string) (b : gmap string (list string)) : gmap string (list string) :=
  match l with [] => b | _ => <[key := l]> b end.
Definition key_binding (fuel : nat) (entities : gmap string EntityParam) (globalRules : option RouteRulesParam) (one : APIKeyParam)
    (s : AiRouteDataExport) : prog gateE (option (result AiRouteDataExport)) :=
  match ak_Key one with
  | None => Ret (Some (Ok s))
  | Some key =>
      r <- key_table one key (xd_RouteRules s, []) ;;
      match r with
      | Err err => Ret (Some (Err err))
      | Ok b =>
          r <- entity_tables fuel entities (ak_EntityID one) b ;;
          Ret (match r with
               | None => None
               | Some (Err err) => Some (Err err)
               | Some (Ok b) =>
                   Some (match bind_table global_table RouteRulesTypeGlobal RouteRulesTypeGlobal globalRules b with
                         | Err err => Err err
                         | Ok b => Ok (mkRouteData b.1 (put_binding key b.2 (xd_Bindings s)))
                         end)
               end)
      end
  end.
Fixpoint key_bindings (fuel : nat) (entities : gmap string EntityParam) (globalRules : option RouteRulesParam) (keys : list APIKeyParam)
    (s : AiRouteDataExport) : prog gateE (option (result AiRouteDataExport)) :=
  match keys with
  | [] => Ret (Some (Ok s))
  | one :: keys =>
      r <- key_binding fuel entities globalRules one s ;;
      match r with
      | Some (Ok s) => key_bindings fuel entities globalRules keys s
      | r => Ret r
      end
  end.
Definition AIRouteGenerator (fuel : nat) : prog gateE (option (result AiRouteDataExport)) :=
  apiKeys <- call (OfOwners (FetchKeyRows anyKey)) ;;
  match apiKeys with
  | Err _ => Ret (Some (Err (PlainError "fetch api keys error: %s")))
  | Ok apiKeys =>
      entities <- call (OfOwners (FetchEntityRows noEntityFilter)) ;;
      match entities with
      | Err _ => Ret (Some (Err (PlainError "fetch entities error: %s")))
      | Ok entities =>
          globalRules <- FetchRouteRules RouteRulesTypeGlobal global_owner ;;
          match globalRules with
          | Err _ => Ret (Some (Err (PlainError "fetch global route rules error: %s")))
          | Ok globalRules => key_bindings fuel (entity_map entities) globalRules apiKeys (mkRouteData ∅ ∅)
          end
      end
  end.
