(* ===== verification/GateSpec.v ===== *)
(** What the gateway fetches about API keys is what the rows say: which models
    a token may use, which plans it is charged to, which tables of routes it
    is bound to; and where the export says something else. *)
From Stdlib Require Import ZArith Lia Ascii SpecFloat.
From stdpp Require Import base tactics numbers list strings gmap option.
From S2P Require Import Prelude GoStrings GoTime GoNet Prog QuotaModel QuotaManager XCrypto Security SharedTypes Validate OwnerModel OwnerCommon EntityManager ApiKeyManager OwnerEndpoints EntityRequests EntitySpec EntityForest RateLimitSpec ExportSpec GateModel.

Local Open Scope string_scope.

#[local] Arguments maxEntityHierarchyDepth : simpl never.
#[local] Opaque maxEntityHierarchyDepth.
#[local] Arguments bool_decide : simpl never.

(** * Maps of rows *)

Section RowMaps.
Context {K A : Type} `{Countable K} (f : gmap K A -> A -> gmap K A) (key : A -> option K).
Hypothesis f_spec : forall s a, f s a = match key a with Some k => <[k := a]> s | None => s end.

(** The last row of a key is the one in the map. *)
Lemma row_map_other l s k : (forall a, a ∈ l -> key a <> Some k) -> foldl f s l !! k = s !! k.
Proof.
  revert s. induction l as [|a l IH]; intros s Hl; [done|]. cbn. rewrite IH; [|intros b Hb; apply Hl; by right].
  rewrite f_spec. destruct (key a) as [k'|] eqn:E; [|done]. rewrite lookup_insert_ne; [done|]. intros ->. apply (Hl a); [left|done].
Qed.
Lemma row_map_in l s k a : a ∈ l -> key a = Some k -> (forall b, b ∈ l -> key b = Some k -> b = a) -> foldl f s l !! k = Some a.
Proof.
  intros Hin Hk. induction l as [|b l IH] using rev_ind; intros Hu; [by apply list.not_elem_of_nil in Hin|].
  rewrite foldl_app. cbn. rewrite f_spec. apply list.elem_of_app in Hin as [Hin|Hin].
  - specialize (IH Hin (fun c Hc => Hu c ltac:(apply list.elem_of_app; by left))).
    destruct (key b) as [k'|] eqn:E; [|done]. destruct (decide (k' = k)) as [->|]; [|by rewrite lookup_insert_ne].
    rewrite lookup_insert_eq. f_equal. apply Hu; [|done]. apply list.elem_of_app. right. by left.
  - apply list_elem_of_singleton in Hin as ->. by rewrite Hk, lookup_insert_eq.
Qed.
Lemma row_map_some l s k a : foldl f s l !! k = Some a -> s !! k = None -> a ∈ l /\ key a = Some k.
Proof.
  intros Hf Hs. induction l as [|b l IH] using rev_ind; [cbn in Hf; congruence|].
  rewrite foldl_app in Hf. cbn in Hf. rewrite f_spec in Hf. rewrite list.elem_of_app.
  destruct (key b) as [k'|] eqn:E; [|destruct (IH Hf); auto].
  apply lookup_insert_Some in Hf as [[-> ->]|[_ Hf]]; [split; [right; by left|done]|destruct (IH Hf); auto].
Qed.
End RowMaps.

(** The entities and types of an export are those of the tables. *)
Definition entities_of (es : list TEntity) : gmap string EntityParam := entity_map (map entityParamToData es).
Lemma entities_lookup es i : NoDup (map te_EntityID es) -> entities_of es !! i = entityParamToData <$> entity_at es i.
Proof.
  intros Hd. pose proof (fun (s : gmap string EntityParam) a => eq_refl (match ep_EntityID a with Some k => <[k := a]> s | None => s end)) as Hs.
  destruct (entities_of es !! i) as [e|] eqn:E.
  - apply (row_map_some _ ep_EntityID Hs) in E as [(r & Hr & <-)%elem_of_map [= <-]]; [|apply lookup_empty].
    by rewrite (proj2 (entity_at_iff es _ r Hd) (conj Hr eq_refl)).
  - destruct (entity_at es i) as [r|] eqn:Er; [|done]. apply entity_at_iff in Er as [Hr <-]; [|done]. cbn.
    rewrite <- E. apply (row_map_in _ ep_EntityID Hs); [apply elem_of_map; by exists r|done|].
    intros b (r' & Hr' & <-)%elem_of_map [= Hi]. f_equal. by apply (NoDup_map_same te_EntityID es).
Qed.

(** ** The chain of entities of a key *)

(** Rows from an entity upwards, at most [depth] of them. *)
Definition chain_rows (depth : nat) (es : list TEntity) (id : string) : list TEntity :=
  match entity_at es id with Some r => ancestors depth es r | None => [] end.
Lemma chain_rows_spec depth es id : NoDup (map te_EntityID es) ->
  entity_chain depth (entities_of es) id = map entityParamToData (chain_rows depth es id).
Proof.
  intros Hd. unfold chain_rows. revert id. induction depth as [|depth IH]; intros id; cbn [entity_chain]; [by destruct (entity_at es id)|].
  rewrite entities_lookup by done. destruct (entity_at es id) as [r|]; [|done]. cbn [fmap option_fmap option_map ancestors map]. f_equal.
  unfold parent_of. cbn [entityParamToData ep_ParentID]. destruct (te_ParentID r) as [p|]; [|done]. case_bool_decide; [done|].
  rewrite IH. by destruct (entity_at es p).
Qed.
Definition key_chain (depth : nat) (d : odata) (k : APIKeyParam) : list TEntity :=
  match ak_EntityID k with
  | Some e => if bool_decide (e = "") then [] else chain_rows depth (od_entities d) e
  | None => []
  end.

(** * Models *)

(** The lists of the entities of a key that say something about models. *)
Definition entity_lists (d : odata) (k : APIKeyParam) : list (list string) :=
  List.flat_map (fun r => restricting (te_AllowModels r)) (key_chain maxEntityHierarchyDepth d k).
Definition one_list (l : list string) : list (list string) := match l with [] => [] | _ => [l] end.
Definition own_lists (k : APIKeyParam) : list (list string) := one_list (key_models k).
Definition in_all (ls : list (list string)) (x : string) : Prop := forall l, l ∈ ls -> x ∈ l.
(** There are lists, and no model is in all of them. *)
Definition conflicting (ls : list (list string)) : Prop := ls <> [] /\ forall x, ~ in_all ls x.

Lemma restricting_or_all l : restricting (or_all l) = restricting l.
Proof. by destruct l. Qed.
Lemma intersect_spec a b x : x ∈ intersectSlices a b <-> x ∈ a /\ x ∈ b.
Proof. unfold intersectSlices. by rewrite elem_of_filter_bool, bool_decide_eq_true. Qed.
Lemma intersect_all_spec ls x : ls <> [] -> x ∈ intersectAllowModels ls <-> in_all ls x.
Proof.
  destruct ls as [|first rest]; [done|]. intros _. unfold intersectAllowModels, in_all. revert first.
  induction rest as [|l rest IH]; intros first; cbn [foldl].
  - split; [by intros H l ->%list_elem_of_singleton|intros H; apply H; by left].
  - rewrite IH. setoid_rewrite elem_of_cons. split.
    + intros H. pose proof (H _ (or_introl eq_refl)) as [H1 H2]%intersect_spec. intros l' [->|[->|Hl]%list.elem_of_cons]; [done|done|apply H; by right].
    + intros H l' [->|Hl]; [|apply H; right; by right]. apply intersect_spec. split; apply H; [by left|right; by left].
Qed.
Lemma empty_list (l : list string) : (forall x, x ∉ l) -> l = [].
Proof. destruct l as [|x l]; [done|]. intros H. destruct (H x). by left. Qed.
Lemma intersect_empty ls : intersectAllowModels ls = [] <-> ls = [] \/ conflicting ls.
Proof.
  split.
  - intros E. destruct ls as [|l ls]; [by left|right]. split; [done|]. intros x Hx.
    apply intersect_all_spec in Hx; [|done]. rewrite E in Hx. by apply list.not_elem_of_nil in Hx.
  - intros [->|[Hne H]]; [done|]. apply empty_list. intros x Hx%intersect_all_spec; [|done]. by apply (H x).
Qed.

(** What the export makes of the lists when those of the entities agree on some
    model: exactly the models that are in every list. *)
Lemma final_models_spec own ls : ~ conflicting ls -> (own <> [] \/ ls <> []) ->
  forall x, x ∈ final_models own (intersectAllowModels ls) <-> in_all (one_list own ++ ls)%list x.
Proof.
  intros Hc Hne x. assert (forall l, x ∈ l -> in_all ls x -> in_all (l :: ls) x) as Hcons by (intros l Hl Hx l' [->|?]%elem_of_cons; auto).
  unfold final_models, one_list. destruct own as [|o own]; cbn [app].
  - apply intersect_all_spec. by destruct Hne.
  - destruct (intersectAllowModels ls) as [|i l0] eqn:E.
    + apply intersect_empty in E as [->|?]; [|done]. split; [by intros H l ->%list_elem_of_singleton|intros H; apply H; by left].
    + assert (ls <> []) as Hls by (by intros ->). rewrite intersect_spec, <- E, intersect_all_spec by done. split; [intros []; auto|].
      intros H. split; [apply H; by left|]. intros l Hl. apply H. by right.
Qed.

(** * Tokens *)

Section Tokens.
Context {CR : Crypto} {CL : CryptoLaws} {RO : RowOrder}.
Context (PtrToRedisValue : spec_float -> option string -> Z).
Variable aiProductName : string.
Variable sec : security.

(** The manager as the container builds it. *)
Definition wired : APIKeyRuleManager := mkRuleManager true true true.
#[local] Abbreviation limited_plan := (limited_plan PtrToRedisValue wired).
#[local] Abbreviation generator := (APIKeyRuleGenerator PtrToRedisValue aiProductName sec wired).

(** ** Plans and tags *)

Definition is_limited (plans : gmap Z QuotaPlanParam) (i : option Z) : bool :=
  match i ≫= (plans !!.) with Some qp => negb (default false (qp_Unlimited qp)) | None => false end.
Definition row_plan (plans : gmap Z QuotaPlanParam) (r : TEntity) : list string := if is_limited plans (te_QuotaPlanID r) then [te_EntityID r] else [].
(** The plans that a token is charged to: the limited ones of the key and of
    its entities, under the names of their owners. *)
Definition charged_to (plans : gmap Z QuotaPlanParam) (d : odata) (k : APIKeyParam) : list string :=
  ((if is_limited plans (ak_QuotaPlanID k) then match ak_Key k with Some key => [key] | None => [] end else []) ++
   flat_map (row_plan plans) (key_chain maxEntityHierarchyDepth d k))%list.
Definition tag_of (types : list TEntityType) (r : TEntity) (t : ApikeyTag) : Prop :=
  ta_Name t = te_Type r /\ ta_Value t = te_Name r /\ level_of types (te_Type r) = Some (ta_Level t).

Definition listed (product : string) (collected : gmap string (list QuotaPlan)) (id : string) : Prop :=
  exists q, q ∈ default [] (collected !! product) /\ qx_Id q = id.
Definition grown (c c' : gmap string (list QuotaPlan)) : Prop := forall product id, listed product c id -> listed product c' id.
#[local] Instance grown_preorder : PreOrder grown.
Proof. split; [by intros c product id|]. intros c c' c'' H1 H2 product id H. by apply H2, H1. Qed.

Lemma collect_lists product q c : grown c (collect product q c) /\ listed product (collect product q c) (qx_Id q).
Proof.
  unfold collect, containsQuotaPlan. destruct (existsb _ _) eqn:E.
  - split; [done|]. apply existsb_exists in E as (q' & Hq & Hi%bool_decide_eq_true). exists q'. split; [by apply list_elem_of_In|done].
  - unfold grown, listed. split.
    + intros p id (q' & Hq & Hi). destruct (decide (product = p)) as [->|]; [|rewrite lookup_insert_ne by done; eauto].
      rewrite lookup_insert_eq. cbn. exists q'. rewrite elem_of_app. auto.
    + rewrite lookup_insert_eq. cbn. exists q. rewrite elem_of_app. split; [right; by left|done].
Qed.
Lemma limited_plan_spec plans i name : match limited_plan plans i name with
  | Some q => is_limited plans i = true /\ name = Some (qx_Id q)
  | None => is_limited plans i = false \/ name = None
  end.
Proof.
  unfold GateModel.limited_plan, is_limited. cbn. destruct i as [i|]; cbn; [|by left]. destruct name as [n|]; [|by right].
  destruct (plans !! i) as [qp|]; [|by left]. destruct (default false (qp_Unlimited qp)); [by left|done].
Qed.

(** What a walk has gathered. *)
Definition gathers (product : string) (s o : owned) (names : list string) : Prop :=
  o.1.1 = (s.1.1 ++ names)%list /\ grown s.2 o.2 /\ Forall (listed product o.2) names.
Lemma add_plan_gathers product plans i name s :
  gathers product s (add_plan product (limited_plan plans i name) s)
    (if is_limited plans i then match name with Some n => [n] | None => [] end else []).
Proof.
  pose proof (limited_plan_spec plans i name) as H. destruct (limited_plan plans i name) as [q|]; cbn.
  - destruct H as [-> ->]. destruct (collect_lists product q s.2) as [Hg Hl]. split; [done|]. split; [done|]. by constructor.
  - destruct H as [->| ->]; [|destruct (is_limited plans i)]; (split; [by rewrite app_nil_r|]); by split.
Qed.
Lemma gathers_trans product s o o' l l' : gathers product s o l -> gathers product o o' l' -> gathers product s o' (l ++ l')%list.
Proof.
  intros (E & Hg & Hl) (E' & Hg' & Hl'). split; [by rewrite E', E, app_assoc|]. split; [by trans o.2|].
  apply Forall_app. split; [|done]. eapply list.Forall_impl; [exact Hl|]. intros id. apply Hg'.
Qed.

(** The types of an export are those of the table. *)
Definition types_of (ts : list TEntityType) : gmap string EntityTypeParam := type_map (map entityTypeParamToData ts).
Lemma types_lookup ts n e : types_of ts !! n = Some e -> NoDup (map tt_TypeName ts) -> level_of ts n = ty_Level e.
Proof.
  intros E Hd. pose proof (fun (s : gmap string EntityTypeParam) a => eq_refl (match ty_TypeName a with Some k => <[k := a]> s | None => s end)) as Hs.
  apply (row_map_some _ ty_TypeName Hs) in E as [(r & Hr & <-)%elem_of_map [= <-]]; [|apply lookup_empty]. unfold level_of.
  by rewrite (proj2 (find_key tt_TypeName (fun i => where_type (byTypeName (Some i))) ts _ r ltac:(intros; apply where_name) Hd) (conj Hr eq_refl)).
Qed.

Lemma foldl_stays {A S} (f : S -> A -> S) s l : (forall a, f s a = s) -> foldl f s l = s.
Proof. intros Hf. induction l as [|a l IH]; [done|]. cbn. by rewrite Hf. Qed.
Lemma entity_tag_spec d r tags : NoDup (map tt_TypeName (od_types d)) ->
  entity_tag wired (types_of (od_types d)) (entityParamToData r) = Ok tags -> exists t, tags = [t] /\ tag_of (od_types d) r t.
Proof.
  intros Hd. unfold entity_tag. cbn. destruct (types_of (od_types d) !! te_Type r) as [e|] eqn:E; [|done].
  apply types_lookup in E; [|done]. destruct e as [i n ds [l|] c]; [|done]. intros [= <-]. eexists. split; [done|]. by split.
Qed.
Lemma entity_steps plans d product (chain : list TEntity) : NoDup (map tt_TypeName (od_types d)) -> forall s o,
  foldl (entity_step PtrToRedisValue wired plans (types_of (od_types d)) product) (Ok s) (map entityParamToData chain) = Ok o ->
  gathers product s o (flat_map (row_plan plans) chain) /\
  exists tags, o.1.2 = (s.1.2 ++ tags)%list /\ Forall2 (tag_of (od_types d)) chain tags.
Proof.
  intros Hd. induction chain as [|r chain IH]; intros s o; cbn [map foldl flat_map].
  { intros [= <-]. split; [split; [by rewrite app_nil_r|done]|]. exists []. by rewrite app_nil_r. }
  cbn [entity_step]. destruct (entity_tag _ _ _) as [tags|e] eqn:Et; [|by rewrite foldl_stays].
  apply entity_tag_spec in Et as (t & -> & Ht); [|done]. cbn [entityParamToData ep_QuotaPlanID ep_EntityID].
  set (s1 := (s.1.1, (s.1.2 ++ [t])%list, s.2)). pose proof (add_plan_gathers product plans (te_QuotaPlanID r) (Some (te_EntityID r)) s1) as Hg.
  intros E. destruct (IH _ _ E) as [Ho (tags & Hts & Hf)]. split; [by apply (gathers_trans _ s _ _ _ _ Hg)|].
  exists (t :: tags). split; [|by constructor]. rewrite Hts. replace (add_plan _ _ s1).1.2 with s1.1.2 by (by destruct (limited_plan _ _ _)).
  cbn. by rewrite <- app_assoc.
Qed.
Lemma chain_of_rows d plans types k : NoDup (map te_EntityID (od_entities d)) ->
  chain_of wired (mkTokenTables (entities_of (od_entities d)) plans types) k = map entityParamToData (key_chain maxEntityHierarchyDepth d k).
Proof.
  intros Hd. unfold chain_of, key_entity, key_chain. cbn. destruct (ak_EntityID k) as [e|]; [|done]. case_bool_decide; [done|].
  by apply chain_rows_spec.
Qed.
Lemma fetched_plans d plans product k c o : forest (tree_of d) ->
  fetchQuotaPlansWithEntityHierarchy PtrToRedisValue wired plans (types_of (od_types d))
    (chain_of wired (mkTokenTables (entities_of (od_entities d)) plans (types_of (od_types d))) k) product k c = Ok o ->
  gathers product ([], [], c) o (charged_to plans d k) /\ Forall2 (tag_of (od_types d)) (key_chain maxEntityHierarchyDepth d k) o.1.2.
Proof.
  intros [Ht Hi _ _]. unfold fetchQuotaPlansWithEntityHierarchy. rewrite chain_of_rows by done. intros E.
  apply entity_steps in E as [Hg (tags & -> & Hf)]; [|done]. split.
  - eapply gathers_trans; [apply add_plan_gathers|done].
  - by destruct (limited_plan _ _ _).
Qed.

(** ** One token *)

Record token_exact (d : odata) (plans : gmap Z QuotaPlanParam) (k : APIKeyParam) (t : TokenFile) : Prop := {
  te_id : ak_ID k = Some (to_KeyID t);
  te_expires : to_ExpiredTime t = default UnlimitedQuota (ak_ExpiredTime k);
  te_plans : to_QuotaPlans t = charged_to plans d k;
  te_unlimited : to_UnlimitedQuota t = default false (ak_UnlimitedQuota k) || bool_decide (charged_to plans d k = []);
  te_tags : Forall2 (tag_of (od_types d)) (key_chain maxEntityHierarchyDepth d k) (to_Tags t);
  te_blocked : to_BlockModels t = joined (concat (flat_map (fun r => restricting (te_BlockModels r)) (key_chain maxEntityHierarchyDepth d k)))
}.
(** The models of a token when nothing restricts them, and when something does:
    then it has the models of every list, and is disabled for having none. *)
Definition models_exact (d : odata) (k : APIKeyParam) (t : TokenFile) : Prop :=
  let lists := (own_lists k ++ entity_lists d k)%list in
  exists allowed, to_Models t = Some (Join allowed ",") /\
    if decide (lists = []) then allowed = [] /\ to_Enabled t = default false (ak_Enable k)
    else (forall x, x ∈ allowed <-> in_all lists x) /\ to_Enabled t = default false (ak_Enable k) && negb (bool_decide (allowed = [])).

Lemma length_zero {A} (l : list A) `{!Decision (l = [])} : (length l =? 0)%nat = bool_decide (l = []).
Proof. destruct l; [by rewrite bool_decide_eq_true_2|by rewrite bool_decide_eq_false_2]. Qed.
Lemma hierarchy_rows d plans types k : NoDup (map te_EntityID (od_entities d)) ->
  hierarchy_models wired (mkTokenTables (entities_of (od_entities d)) plans types) k =
  (intersectAllowModels (entity_lists d k), concat (flat_map (fun r => restricting (te_BlockModels r)) (key_chain maxEntityHierarchyDepth d k))).
Proof.
  intros Hd. unfold hierarchy_models, entity_lists, key_entity, key_chain. cbn. destruct (ak_EntityID k) as [e|]; [|done].
  case_bool_decide; [done|]. unfold fetchEntityModelHierarchy. cbn [tb_entities]. rewrite chain_rows_spec by done. f_equal.
  - f_equal. induction (chain_rows _ _ _) as [|r l IH]; [done|]. cbn. by rewrite IH, restricting_or_all.
  - f_equal. induction (chain_rows _ _ _) as [|r l IH]; [done|]. cbn. by rewrite IH.
Qed.
Lemma token_models_spec own ls : ~ conflicting ls -> exists allowed, (token_models own (intersectAllowModels ls)).1 = Join allowed "," /\
  let lists := (one_list own ++ ls)%list in
  if decide (lists = []) then allowed = [] /\ (token_models own (intersectAllowModels ls)).2 = false
  else (forall x, x ∈ allowed <-> in_all lists x) /\ (token_models own (intersectAllowModels ls)).2 = bool_decide (allowed = []).
Proof.
  intros Hc. exists (final_models own (intersectAllowModels ls)). cbv zeta. destruct (decide _) as [E|Hne].
  - apply app_eq_nil in E as [Ho ->]. by destruct own.
  - assert (own <> [] \/ ls <> []) as Hor by (destruct own; [right|left]; [cbn in Hne; by destruct ls|done]).
    pose proof (final_models_spec own ls Hc Hor) as Hf. unfold token_models.
    assert (forall b : string * bool, (match own, intersectAllowModels ls with [], [] => ("", false) | _, _ => b end) = b) as ->.
    { intros b. destruct own; [|done]. destruct (intersectAllowModels ls) eqn:E; [|done]. apply intersect_empty in E as [->|?]; [by destruct Hor|done]. }
    cbn [fst snd]. split; [done|]. split; [done|apply length_zero].
Qed.

Lemma token_file_exact d plans k product c o id inner : forest (tree_of d) -> ak_ID k = Some id ->
  let tables := mkTokenTables (entities_of (od_entities d)) plans (types_of (od_types d)) in
  fetchQuotaPlansWithEntityHierarchy PtrToRedisValue wired plans (types_of (od_types d)) (chain_of wired tables k) product k c = Ok o ->
  let t := token_file wired tables id inner k o in
  token_exact d plans k t /\ (~ conflicting (entity_lists d k) -> models_exact d k t) /\
  (conflicting (entity_lists d k) -> to_Models t = Some (Join (key_models k) ",") /\ to_Enabled t = default false (ak_Enable k)) /\
  Forall (listed product o.2) (to_QuotaPlans t).
Proof.
  intros Hf Hid tables E t. pose proof (fo_ids _ Hf : NoDup (map te_EntityID (od_entities d))) as Hi.
  apply fetched_plans in E as [(Hn & _ & Hl) Ht]; [|done]. cbn [fst snd app] in Hn.
  unfold t, token_file, tables. rewrite hierarchy_rows by done. cbn [fst snd]. split_and!.
  - split; cbn; [done|done|done| |done|done]. rewrite Hn. f_equal. apply length_zero.
  - intros Hc. destruct (token_models_spec (key_models k) (entity_lists d k) Hc) as (allowed & E1 & E2). exists allowed. cbn. rewrite E1.
    split; [done|]. cbv zeta in E2 |- *. fold (own_lists k) in E2.
    destruct (decide (own_lists k ++ entity_lists d k = [])%list) as [E0|E0]; cbn [app] in *; destruct E2 as [Ha ->]; (split; [done|]); by rewrite ?andb_true_r.
  - intros Hc. rewrite (proj2 (intersect_empty _) (or_intror Hc)). unfold token_models. cbn.
    destruct (key_models k) as [|x l]; cbn [final_models fst snd]; by rewrite ?andb_true_r.
  - cbn. by rewrite Hn.
Qed.

(** ** The whole list *)

Lemma token_key_reads key outer inner : reloaded sec -> token_key sec key = Ok (outer, inner) ->
  reads_back sec key outer /\ (ExportCryptoEnabled sec = true -> inner = "").
Proof.
  intros Hs. unfold token_key. destruct (ExportCryptoEnabled sec) eqn:E; cbn.
  - destruct (ExportEncrypt sec key) as [[enc|err]|] eqn:Ee; [|done..]. intros [= <- <-]. split; [by apply export_encrypt_reads|done].
  - intros [= <- <-]. split; [|done]. unfold reads_back. by rewrite E.
Qed.

Section AllTokens.
Context (d : odata) (plans : gmap Z QuotaPlanParam) (Hf : forest (tree_of d)) (Hs : reloaded sec).
#[local] Abbreviation tables := (mkTokenTables (entities_of (od_entities d)) plans (types_of (od_types d))).

(** The token of a key in the export: under the key, or under an envelope of
    the active export key that opens to it. *)
Record has_token (s : tokens) (k : APIKeyParam) (product key outer : string) (t : TokenFile) : Prop := {
  ht_product : ak_ProductName k = Some product;
  ht_key : ak_Key k = Some key;
  ht_outer : reads_back sec key outer;
  ht_inner : ExportCryptoEnabled sec = true -> to_Key t = "";
  ht_found : s.1 !! product ≫= lookup outer = Some t;
  ht_exact : token_exact d plans k t;
  ht_models : ~ conflicting (entity_lists d k) -> models_exact d k t;
  ht_conflict : conflicting (entity_lists d k) -> to_Models t = Some (Join (key_models k) ",") /\ to_Enabled t = default false (ak_Enable k);
  ht_listed : Forall (listed product s.2) (to_QuotaPlans t)
}.
Lemma token_step_adds s s' k : token_step PtrToRedisValue sec wired tables (Ok s) k = Ok s' ->
  (exists product key outer t, has_token s' k product key outer t) /\
  forall k0 product key outer t, ak_Key k0 <> ak_Key k -> has_token s k0 product key outer t -> has_token s' k0 product key outer t.
Proof.
  unfold token_step. destruct (ak_ProductName k) as [product|] eqn:Ep; [|done]. destruct (ak_Key k) as [key|] eqn:Ek; [|done].
  destruct (ak_ID k) as [id|] eqn:Ei; [|done]. destruct (fetchQuotaPlansWithEntityHierarchy _ _ _ _ _ _ _ _) as [o|e] eqn:Eo; [|done].
  destruct (token_key sec key) as [[outer inner]|e] eqn:Et; [|done]. intros [= <-]. pose proof Eo as Hx.
  apply (token_file_exact d plans k product s.2 o id inner Hf Ei) in Hx as (H1 & H2 & H3 & H4).
  apply token_key_reads in Et as [Hr Hinner]; [|done]. split.
  - exists product, key, outer, (token_file wired tables id inner k o). split; try done. cbn. by rewrite lookup_insert_eq; cbn; rewrite lookup_insert_eq.
  - intros k0 p0 key0 outer0 t Hne [G1 G2 G3 G4 G5 G6 G7 G8 G9]. split; try done.
    + cbn. destruct (decide (product = p0)) as [->|]; [|by rewrite lookup_insert_ne]. rewrite lookup_insert_eq. cbn.
      destruct (s.1 !! p0) as [m|]; [|done]. cbn in G5 |- *. rewrite lookup_insert_ne; [done|]. intros <-. apply Hne. rewrite G2. f_equal.
      by apply (reads_back_inj sec _ _ outer).
    + apply fetched_plans in Eo as [(_ & Hg & _) _]; [|done]. cbn. eapply list.Forall_impl; [exact G9|]. intros i. apply Hg.
Qed.
Lemma tokens_all keys s : NoDup (map ak_Key keys) -> foldl (token_step PtrToRedisValue sec wired tables) (Ok (∅, ∅)) keys = Ok s ->
  forall k, k ∈ keys -> exists product key outer t, has_token s k product key outer t.
Proof.
  revert s. induction keys as [|k0 keys IH] using rev_ind; intros s Hd E k Hk; [by apply list.not_elem_of_nil in Hk|].
  rewrite foldl_app in E. cbn [foldl] in E. destruct (foldl _ _ keys) as [s0|e]; [|done].
  rewrite map_app in Hd. apply list.NoDup_app in Hd as (Hd & Hno & _).
  apply token_step_adds in E as [Hnew Hold]. apply list.elem_of_app in Hk as [Hk|Hk%list_elem_of_singleton]; [|by subst].
  destruct (IH s0 Hd eq_refl k Hk) as (product & key & outer & t & Ht). exists product, key, outer, t. apply Hold; [|done].
  intros Heq. apply (Hno (ak_Key k)); [by apply elem_of_map; exists k|]. rewrite Heq. by left.
Qed.
End AllTokens.

(** ** The export *)

Definition plans_of (w : oworld) : gmap Z QuotaPlanParam := plans_map (map quotaPlanParamToData (q_plans (ow_q w))).
Lemma filter_always {A} (p : A -> bool) l : (forall a, p a = true) -> List.filter p l = l.
Proof. intros Hp. induction l as [|a l IH]; [done|]. cbn. by rewrite Hp, IH. Qed.
Definition made_from (w : oworld) (conf : ModAPIKeyRuleConf) : Prop := exists keys s,
  list_keys (ow_sec w) anyKey (od_keys (ow_data w)) = Ok keys /\
  foldl (token_step PtrToRedisValue sec wired (mkTokenTables (entities_of (od_entities (ow_data w))) (plans_of w) (types_of (od_types (ow_data w)))))
    (Ok (∅, ∅)) keys = Ok s /\ mc_Tokens conf = s.1 /\ mc_QuotaPlans conf = s.2.
Lemma generator_reads os g conf : (exec os generator g).1 = Ok conf -> made_from (gw_owners g) conf.
Proof.
  assert (hoare (fun g' => g' = g) generator (fun r _ => forall c, r = Ok c -> made_from (gw_owners g) c)) as H.
  2: { intros E. by apply (H os g eq_refl). }
  destruct g as [w rules log]. cbn [gw_owners]. unfold APIKeyRuleGenerator.
  apply (hoare_bind _ _ _ (fun _ g' => g' = mkGWorld w rules log)).
  { apply (hoare_bind _ _ _ (fun _ g' => g' = mkGWorld w rules log)); [|intros r; by apply hoare_ret].
    eapply hoare_read; [reflexivity|done|by apply hoare_ret|by apply hoare_ret]. }
  intros [config|e]; [|by apply hoare_ret]. eapply hoare_read; [reflexivity|done|by apply hoare_ret|].
  destruct (list_keys _ _ _) as [keys|e] eqn:Ek; [|by apply hoare_ret]. cbn [negb wired km_hasEntities km_hasPlans km_hasTypes].
  eapply hoare_read; [reflexivity|done|by apply hoare_ret|]. eapply hoare_read; [cbn; by destruct w|done|by apply hoare_ret|].
  eapply hoare_read; [reflexivity|done|by apply hoare_ret|]. apply hoare_ret. intros _ _ c.
  unfold list_entities, page_of. cbn [ef_Page ef_PageSize noEntityFilter tf_Page tf_PageSize]. rewrite !filter_always by done.
  destruct (foldl _ _ keys) as [s|e] eqn:E; [|done]. intros [= <-]. by exists keys, s.
Qed.

(** ** What it says *)

Definition tokens_of (conf : ModAPIKeyRuleConf) : tokens := (mc_Tokens conf, mc_QuotaPlans conf).
Lemma generated_token os g conf keys k : reloaded sec -> forest (tree_of (ow_data (gw_owners g))) ->
  (exec os generator g).1 = Ok conf -> list_keys (ow_sec (gw_owners g)) anyKey (od_keys (ow_data (gw_owners g))) = Ok keys ->
  NoDup (map ak_Key keys) -> k ∈ keys ->
  exists product key outer t, has_token (ow_data (gw_owners g)) (plans_of (gw_owners g)) (tokens_of conf) k product key outer t.
Proof.
  intros Hs Hf E Ek Hd Hk. apply generator_reads in E as (keys' & s & Ek' & E & E1 & E2). rewrite Ek in Ek'. injection Ek' as <-.
  unfold tokens_of. rewrite E1, E2, <- surjective_pairing. by eapply tokens_all.
Qed.

(** C15: In every tree that requests have built, whichever calls fail: an export
    that is made has a token for every key, under the key itself or, when
    exports are encrypted, under an envelope that the holder of the ring opens
    to it, with no key beside it.  The token has the tags and the limited plans
    of the key and of its entities up to the tenth, is unlimited when it is
    charged to none, and blocks the models of their lists of blocked models
    that have no star: a list with a star is left out.  When the lists of
    allowed models of the entities, those without a star, agree on some model,
    the token may use exactly the models that are in all of them and in what
    the key lists besides the star, and is enabled when there is one. *)
Theorem exported_tokens_exact os g conf keys k : reloaded sec -> forest (tree_of (ow_data (gw_owners g))) ->
  (exec os generator g).1 = Ok conf -> list_keys (ow_sec (gw_owners g)) anyKey (od_keys (ow_data (gw_owners g))) = Ok keys ->
  NoDup (map ak_Key keys) -> k ∈ keys -> ~ conflicting (entity_lists (ow_data (gw_owners g)) k) ->
  exists product key outer t, ak_ProductName k = Some product /\ ak_Key k = Some key /\ reads_back sec key outer /\
    (ExportCryptoEnabled sec = true -> to_Key t = "") /\ mc_Tokens conf !! product ≫= lookup outer = Some t /\
    token_exact (ow_data (gw_owners g)) (plans_of (gw_owners g)) k t /\ models_exact (ow_data (gw_owners g)) k t.
Proof.
  intros Hs Hf E Ek Hd Hk Hc. destruct (generated_token os g conf keys k Hs Hf E Ek Hd Hk) as (product & key & outer & t & Ht).
  exists product, key, outer, t. split_and!; by apply Ht.
Qed.

(** C16: When no model is in the lists of all entities of a key, the export drops
    these lists: the token may use what the key itself lists, and if the key
    lists nothing, everything; it is enabled as the key is. *)
Theorem conflicting_entities_unrestrict os g conf keys k : reloaded sec -> forest (tree_of (ow_data (gw_owners g))) ->
  (exec os generator g).1 = Ok conf -> list_keys (ow_sec (gw_owners g)) anyKey (od_keys (ow_data (gw_owners g))) = Ok keys ->
  NoDup (map ak_Key keys) -> k ∈ keys -> conflicting (entity_lists (ow_data (gw_owners g)) k) ->
  exists product key outer t, ak_ProductName k = Some product /\ ak_Key k = Some key /\ reads_back sec key outer /\
    mc_Tokens conf !! product ≫= lookup outer = Some t /\
    to_Models t = Some (Join (key_models k) ",") /\ to_Enabled t = default false (ak_Enable k).
Proof.
  intros Hs Hf E Ek Hd Hk Hc. destruct (generated_token os g conf keys k Hs Hf E Ek Hd Hk) as (product & key & outer & t & Ht).
  exists product, key, outer, t. destruct (ht_conflict _ _ _ _ _ _ _ _ Ht Hc). split_and!; try apply Ht; done.
Qed.

(** C21: Every plan that a token names is exported with it, for the same product. *)
Theorem token_plans_resolve os g conf keys k : reloaded sec -> forest (tree_of (ow_data (gw_owners g))) ->
  (exec os generator g).1 = Ok conf -> list_keys (ow_sec (gw_owners g)) anyKey (od_keys (ow_data (gw_owners g))) = Ok keys ->
  NoDup (map ak_Key keys) -> k ∈ keys ->
  exists product key outer t, ak_ProductName k = Some product /\ ak_Key k = Some key /\ reads_back sec key outer /\
    mc_Tokens conf !! product ≫= lookup outer = Some t /\
    forall id, id ∈ to_QuotaPlans t -> exists q, q ∈ default [] (mc_QuotaPlans conf !! product) /\ qx_Id q = id.
Proof.
  intros Hs Hf E Ek Hd Hk. destruct (generated_token os g conf keys k Hs Hf E Ek Hd Hk) as (product & key & outer & t & Ht).
  exists product, key, outer, t. split_and!; try apply Ht. intros id Hid. pose proof (ht_listed _ _ _ _ _ _ _ _ Ht) as Hl.
  rewrite list.Forall_forall in Hl. by apply Hl.
Qed.
End Tokens.

(** * Tables of routes *)

Section Routes.
Context {CR : Crypto} {RO : RowOrder}.

(** Tables under their names, as they are put into the export. *)
Definition puts (l : list (string * RouteTableExport)) (m : gmap string RouteTableExport) : gmap string RouteTableExport :=
  foldl (fun m x => <[x.1 := x.2]> m) m l.
Lemma puts_app l l' m : puts (l ++ l')%list m = puts l' (puts l m).
Proof. apply foldl_app. Qed.
Lemma puts_found l m n t : (forall x y, x ∈ l -> y ∈ l -> x.1 = y.1 -> x = y) -> (n, t) ∈ l -> puts l m !! n = Some t.
Proof.
  intros Hu Hin. induction l as [|x l IH] using rev_ind; [by apply list.not_elem_of_nil in Hin|].
  rewrite puts_app. cbn. destruct (decide (x.1 = n)) as [E|E].
  - rewrite E, lookup_insert_eq. f_equal. assert (x = (n, t)) as -> by (apply Hu; [apply elem_of_app; right; by left|done|done]). done.
  - rewrite lookup_insert_ne by done. apply list.elem_of_app in Hin as [Hin|Hin%list_elem_of_singleton]; [|by subst].
    apply IH; [|done]. intros y z Hy Hz. apply Hu; apply elem_of_app; by left.
Qed.

Definition named (n : string) (t : option RouteTableExport) : list (string * RouteTableExport) := match t with Some t => [(n, t)] | None => [] end.
(** The table of rules that are there and enabled. *)
Definition table_of (type owner : string) (p : option RouteRulesParam) : option RouteTableExport :=
  match p with Some p => if is_enabled p then convertToRouteTableExport type owner (rrs_Rules p) else None | None => None end.
Definition rules_at (d : odata) (i : option Z) : option RouteRulesParam :=
  match i with Some i => routeRulesDataToParam <$> List.find (fun r => (ro_ID r =? i)%Z) (od_routes d) | None => None end.
Definition global_rules (d : odata) : option RouteRulesParam :=
  option_map routeRulesDataToParam (List.find (where_route (byRouteOwner RouteRulesTypeGlobal global_owner)) (od_routes d)).
Definition row_tables (d : odata) (r : TEntity) : list (string * RouteTableExport) :=
  named (entity_table (te_Name r)) (table_of RouteRulesTypeEntity (te_Name r) (rules_at d (te_RouteRulesID r))).
(** The tables of a key: its own, those of its entities up to the root, and the
    global one. *)
Definition key_tables (d : odata) (k : APIKeyParam) : list (string * RouteTableExport) :=
  match ak_Key k with
  | None => []
  | Some key =>
      named (apikey_table key) (table_of RouteRulesTypeAPIKey key (rules_at d (ak_RouteRulesID k))) ++
      flat_map (row_tables d) (key_chain (length (od_entities d)) d k) ++
      named global_table (table_of RouteRulesTypeGlobal RouteRulesTypeGlobal (global_rules d))
  end%list.

(** [s'] is [s] with some tables more. *)
Definition bound_to (l : list (string * RouteTableExport)) (s s' : binding) : Prop := s'.1 = puts l s.1 /\ s'.2 = (s.2 ++ map fst l)%list.
Lemma bound_trans l l' s s' s'' : bound_to l s s' -> bound_to l' s' s'' -> bound_to (l ++ l')%list s s''.
Proof. intros [E1 E2] [E1' E2']. split; [by rewrite E1', E1, puts_app|by rewrite E2', E2, map_app, app_assoc]. Qed.
Lemma bind_table_bound n type owner p s s' : bind_table n type owner p s = Ok s' -> bound_to (named n (table_of type owner p)) s s'.
Proof.
  unfold bind_table, table_of. assert (bound_to [] s s) as H0 by (split; [done|by rewrite app_nil_r]).
  destruct p as [p|]; [|by intros [= <-]]. destruct (is_enabled p); [|by intros [= <-]]. cbn [negb].
  destruct (convertToRouteTableExport _ _ _) as [t|]; [|done]. by intros [= <-].
Qed.

Section Reading.
Context (g : gworld) (Hf : forest (tree_of (ow_data (gw_owners g)))).
#[local] Abbreviation d := (ow_data (gw_owners g)).
#[local] Abbreviation es := (od_entities d).

(** The program reads; it fails, or answers with what [Q] says. *)
Definition finds {A} (p : prog gateE (option (result A))) (Q : A -> Prop) : Prop :=
  hoare (fun g' => g' = g) p (fun r g' => g' = g /\ ((exists e, r = Some (Err e)) \/ exists a, r = Some (Ok a) /\ Q a)).
Lemma finds_ok {A} (a : A) (Q : A -> Prop) : Q a -> finds (Ret (Some (Ok a))) Q.
Proof. intros H. apply hoare_ret. eauto. Qed.
Lemma finds_err {A} e (Q : A -> Prop) : finds (Ret (Some (Err e))) Q.
Proof. apply hoare_ret. eauto. Qed.

Lemma hoare_rules (i : option Z) : hoare (fun g' => g' = g) (fetch_rules i) (fun r g' => g' = g /\ (r = Err DaoError \/ r = Ok (rules_at d i))).
Proof.
  destruct i as [i|]; [|apply hoare_ret; auto]. apply hoare_call_cases.
  - intros g' ->. cbn. split; [by destruct g|by right].
  - intros g' r -> [= <-]. cbn. split; [by split; [|left]|]. split; [by destruct g|by left].
Qed.
(** One owner is bound. *)
Lemma hoare_bound i n type owner s : hoare (fun g' => g' = g)
  (p <-? fetch_rules i ;; Ret (bind_table n type owner p s))
  (fun r g' => g' = g /\ ((exists e, r = Err e) \/ exists s', r = Ok s' /\ bound_to (named n (table_of type owner (rules_at d i))) s s')).
Proof.
  eapply hoare_bind; [apply hoare_rules|]. intros r. apply hoare_fact. intros [->| ->]; apply hoare_ret; [eauto|]. intros g' ->. split; [done|].
  destruct (bind_table _ _ _ _ _) as [s'|e] eqn:E; [|eauto]. right. exists s'. split; [done|]. by apply bind_table_bound.
Qed.

Lemma entity_tables_found fuel r s : r ∈ es -> te_EntityID r <> "" -> (height (tree_of d) r < fuel)%nat ->
  finds (entity_tables fuel (entities_of es) (Some (te_EntityID r)) s) (bound_to (flat_map (row_tables d) (ancestors fuel es r)) s).
Proof.
  pose proof (fo_ids _ Hf : NoDup (map te_EntityID es)) as Hi.
  revert r s. induction fuel as [|fuel IH]; intros r s Hr Hne Hh; [lia|]. cbn [entity_tables ancestors flat_map].
  rewrite bool_decide_eq_false_2, entities_lookup by done. rewrite (proj2 (entity_at_iff es _ r Hi) (conj Hr eq_refl)). cbn [fmap option_fmap option_map].
  eapply hoare_bind; [apply hoare_bound|]. intros res. apply hoare_fact. intros [[e ->]|(s1 & -> & H1)]; [apply finds_err|].
  assert (finds (Ret (Some (Ok s1))) (bound_to (row_tables d r ++ []) s)) as Hstop by (apply finds_ok; by rewrite app_nil_r).
  cbn [entityParamToData ep_ParentID]. destruct (te_ParentID r) as [p|] eqn:Ep; [|by destruct fuel].
  case_bool_decide as Hp; [subst p; by destruct fuel|]. destruct (entity_at es p) as [q|] eqn:Eq.
  - destruct (parent_lower (tree_of d) r p q Hf Hr Ep Hp Eq) as [Hq Hlt]. apply entity_at_iff in Eq as [_ <-]; [|done].
    eapply hoare_post; [|apply (IH q s1 Hq Hp); lia]. intros a g' [Hg [He|(s2 & -> & H2)]]; (split; [done|]); [by left|right].
    exists s2. split; [done|]. by eapply bound_trans.
  - destruct (fo_edges _ Hf r p Hr Ep Hp) as (x & _ & _ & Hx & _). cbn [tree_of snd] in Hx. by rewrite Eq in Hx.
Qed.

(** ** One key *)

Lemma chain_in depth r x : NoDup (map te_EntityID es) -> r ∈ es -> x ∈ ancestors depth es r -> x ∈ es.
Proof.
  intros Hi. revert r. induction depth as [|depth IH]; intros r Hr; [by intros ?%list.elem_of_nil|].
  cbn [ancestors]. intros [->|Hx]%elem_of_cons; [done|]. destruct (te_ParentID r) as [p|]; [|by apply list.elem_of_nil in Hx].
  case_bool_decide; [by apply list.elem_of_nil in Hx|]. destruct (entity_at es p) as [q|] eqn:E; [|by apply list.elem_of_nil in Hx].
  apply entity_at_iff in E as [Hq _]; [|done]. by apply (IH q).
Qed.
Lemma key_entities_found fuel k s : (length es < fuel)%nat ->
  finds (entity_tables fuel (entities_of es) (ak_EntityID k) s) (bound_to (flat_map (row_tables d) (key_chain (length es) d k)) s).
Proof.
  intros Hfuel. pose proof (fo_ids _ Hf : NoDup (map te_EntityID es)) as Hi. unfold key_chain, chain_rows.
  assert (finds (Ret (Some (Ok s))) (bound_to [] s)) as Hstop by (apply finds_ok; split; [done|by rewrite app_nil_r]).
  destruct (ak_EntityID k) as [e|]; [|by destruct fuel]. destruct (decide (e = "")) as [->|He].
  { rewrite bool_decide_eq_true_2 by done. by destruct fuel. }
  rewrite bool_decide_eq_false_2 by done. destruct (entity_at es e) as [r|] eqn:Er.
  - apply entity_at_iff in Er as [Hr <-]; [|done]. pose proof (height_bound (tree_of d) r Hr) as Hh. cbn [tree_of snd] in Hh.
    pose proof (ancestors_enough (tree_of d) Hf (length es) fuel r Hr Hh ltac:(lia)) as Ea. cbn [tree_of snd] in Ea. rewrite Ea.
    apply entity_tables_found; [done|done|lia].
  - destruct fuel as [|fuel]; [lia|]. cbn [entity_tables flat_map]. rewrite bool_decide_eq_false_2, entities_lookup, Er by done. done.
Qed.

(** What the export holds after a key. *)
Definition key_added (k : APIKeyParam) (s s' : AiRouteDataExport) : Prop :=
  xd_RouteRules s' = puts (key_tables d k) (xd_RouteRules s) /\
  xd_Bindings s' = match ak_Key k with Some key => put_binding key (map fst (key_tables d k)) (xd_Bindings s) | None => xd_Bindings s end.
Lemma key_binding_found fuel k s : (length es < fuel)%nat ->
  finds (key_binding fuel (entities_of es) (global_rules d) k s) (key_added k s).
Proof.
  intros Hfuel. unfold key_binding, key_added, key_tables. destruct (ak_Key k) as [key|]; [|by apply finds_ok].
  eapply hoare_bind; [apply hoare_bound|]. intros res. apply hoare_fact. intros [[e ->]|(b1 & -> & H1)]; [apply finds_err|].
  eapply hoare_bind; [by apply (key_entities_found fuel k b1)|]. intros res. apply hoare_fact. intros [[e ->]|(b2 & -> & H2)]; [apply finds_err|].
  destruct (bind_table _ _ _ _ _) as [b3|e] eqn:E3; [|apply finds_err]. apply bind_table_bound in E3.
  pose proof (bound_trans _ _ _ _ _ H1 (bound_trans _ _ _ _ _ H2 E3)) as [Ha Hb]. apply finds_ok. cbn [xd_RouteRules xd_Bindings].
  cbn [fst snd app] in Ha, Hb. by rewrite Ha, Hb.
Qed.

(** ** All keys *)

Fixpoint all_added (keys : list APIKeyParam) (s s' : AiRouteDataExport) : Prop :=
  match keys with [] => s' = s | k :: keys => exists s1, key_added k s s1 /\ all_added keys s1 s' end.
Lemma key_bindings_found fuel keys s : (length es < fuel)%nat ->
  finds (key_bindings fuel (entities_of es) (global_rules d) keys s) (all_added keys s).
Proof.
  intros Hfuel. revert s. induction keys as [|k keys IH]; intros s; [by apply finds_ok|]. cbn [key_bindings all_added].
  eapply hoare_bind; [by apply key_binding_found|]. intros res. apply hoare_fact. intros [[e ->]|(s1 & -> & H1)]; [apply finds_err|].
  eapply hoare_post; [|apply IH]. intros a g' [Hg [He|(s2 & -> & H2)]]; (split; [done|]); [by left|right]. eauto.
Qed.
Lemma gate_keys f : handle (OfOwners (FetchKeyRows f)) g = (list_keys (ow_sec (gw_owners g)) f (od_keys d), g).
Proof. by destruct g. Qed.
Lemma gate_entities : handle (OfOwners (FetchEntityRows noEntityFilter)) g = (Ok (map entityParamToData es), g).
Proof.
  destruct g. cbn. unfold list_entities, page_of. cbn [ef_Page ef_PageSize noEntityFilter]. by rewrite filter_always by done.
Qed.
Lemma generator_found fuel : (length es < fuel)%nat ->
  finds (AIRouteGenerator fuel) (fun data => exists keys,
    list_keys (ow_sec (gw_owners g)) anyKey (od_keys d) = Ok keys /\ all_added keys (mkRouteData ∅ ∅) data).
Proof.
  intros Hfuel. unfold AIRouteGenerator. eapply hoare_read; [apply gate_keys|done|apply finds_err|].
  destruct (list_keys _ _ _) as [keys|e] eqn:Ek; [|apply finds_err].
  eapply hoare_read; [apply gate_entities|done|apply finds_err|]. unfold FetchRouteRules.
  eapply (hoare_bind _ _ _ (fun r g' => g' = g /\ (r = Err DaoError \/ r = Ok (global_rules d)))).
  { eapply hoare_read; [reflexivity|done|apply hoare_ret; auto|apply hoare_ret; auto]. }
  intros r. apply hoare_fact. intros [->| ->]; [apply finds_err|].
  eapply hoare_post; [|by apply key_bindings_found]. intros a g' [Hg [He|(s & -> & Hs)]]; (split; [done|]); [by left|right]. eauto.
Qed.

Lemma added_tables keys s s' : all_added keys s s' -> xd_RouteRules s' = puts (flat_map (key_tables d) keys) (xd_RouteRules s).
Proof.
  revert s. induction keys as [|k keys IH]; intros s; [by intros ->|]. intros (s1 & [E _] & H). by rewrite (IH _ H), E, <- puts_app.
Qed.
Lemma put_binding_lookup key l b key' : put_binding key l b !! key' = if decide (key = key') then match l with [] => b !! key' | _ => Some l end else b !! key'.
Proof. unfold put_binding. destruct l as [|x l]; [by destruct (decide _)|]. destruct (decide _) as [->|]; [by rewrite lookup_insert_eq|by rewrite lookup_insert_ne]. Qed.
Lemma added_others keys s s' key : all_added keys s s' -> Some key ∉ map ak_Key keys -> xd_Bindings s' !! key = xd_Bindings s !! key.
Proof.
  revert s. induction keys as [|k keys IH]; intros s; [by intros ->|]. intros (s1 & [_ E] & H). cbn [map]. intros [Hk Hno]%list.not_elem_of_cons.
  rewrite (IH _ H Hno), E. destruct (ak_Key k) as [key'|]; [|done]. rewrite put_binding_lookup. destruct (decide _) as [->|]; [by destruct Hk|done].
Qed.
Lemma added_bindings keys s s' k key : all_added keys s s' -> NoDup (map ak_Key keys) -> k ∈ keys -> ak_Key k = Some key ->
  xd_Bindings s !! key = None -> xd_Bindings s' !! key = match map fst (key_tables d k) with [] => None | l => Some l end.
Proof.
  intros Ha Hd Hk Ek. revert s Ha. induction keys as [|k0 keys IH]; [by apply list.elem_of_nil in Hk|]. intros s (s1 & [_ E] & H) Hs.
  cbn [map] in Hd. apply list.NoDup_cons in Hd as [Hno Hd]. apply list.elem_of_cons in Hk as [<-|Hk].
  - rewrite Ek in Hno, E. rewrite (added_others _ _ _ _ H Hno), E, put_binding_lookup. destruct (decide _); [|done].
    by destruct (map fst _).
  - apply (IH Hd Hk s1 H). rewrite E. destruct (ak_Key k0) as [key0|] eqn:E0; [|done]. rewrite put_binding_lookup.
    destruct (decide _) as [->|]; [|done]. destruct Hno. rewrite <- Ek. apply elem_of_map. by exists k.
Qed.

(** ** Tables of one name are the same *)

Inductive origin (keys : list APIKeyParam) (n : string) (t : RouteTableExport) : Prop :=
| of_key k key : k ∈ keys -> ak_Key k = Some key -> n = apikey_table key ->
    table_of RouteRulesTypeAPIKey key (rules_at d (ak_RouteRulesID k)) = Some t -> origin keys n t
| of_entity r : r ∈ es -> n = entity_table (te_Name r) -> table_of RouteRulesTypeEntity (te_Name r) (rules_at d (te_RouteRulesID r)) = Some t -> origin keys n t
| of_global : n = global_table -> table_of RouteRulesTypeGlobal RouteRulesTypeGlobal (global_rules d) = Some t -> origin keys n t.
Lemma named_in n t x : x ∈ named n t -> n = x.1 /\ t = Some x.2.
Proof. destruct t; [by intros ->%list_elem_of_singleton|by intros ?%list.elem_of_nil]. Qed.
Lemma tables_origin keys x : x ∈ flat_map (key_tables d) keys -> origin keys x.1 x.2.
Proof.
  pose proof (fo_ids _ Hf : NoDup (map te_EntityID es)) as Hi. intros (k & Hk & Hx)%elem_of_flat_map. unfold key_tables in Hx.
  destruct (ak_Key k) as [key|] eqn:Ek; [|by apply list.elem_of_nil in Hx].
  apply list.elem_of_app in Hx as [[E1 E2]%named_in|[Hx|[E1 E2]%named_in]%list.elem_of_app]; [by eapply of_key| |by apply of_global].
  apply elem_of_flat_map in Hx as (r & Hr & [E1 E2]%named_in). apply (of_entity _ _ _ r); [|done|done].
  unfold key_chain, chain_rows in Hr. destruct (ak_EntityID k) as [e|]; [|by apply list.elem_of_nil in Hr].
  case_bool_decide; [by apply list.elem_of_nil in Hr|]. destruct (entity_at es e) as [q|] eqn:Eq; [|by apply list.elem_of_nil in Hr].
  apply entity_at_iff in Eq as [Hq _]; [|done]. by eapply chain_in.
Qed.
Lemma origin_unique keys n t t' : NoDup (map ak_Key keys) -> origin keys n t -> origin keys n t' -> t = t'.
Proof.
  intros Hd. destruct 1 as [k key Hk Ek -> E|r Hr -> E| -> E]; destruct 1 as [k' key' Hk' Ek' En E'|r' Hr' En E'|En E']; try discriminate En.
  - apply (inj (String.append "apikey_")) in En as <-. assert (k = k') as <- by (apply (NoDup_map_same ak_Key keys); [done..|congruence]). congruence.
  - apply (inj (String.append "entity_")) in En. assert (r = r') as <- by (apply (NoDup_map_same te_Name es); [apply Hf|done..]). congruence.
  - congruence.
Qed.
End Reading.

(** What the gateway is to be told about routes: every key is bound to the
    tables of its owners, from the key to the root and then the global one,
    those that are enabled, and the tables are under their names. *)
Record routes_exact (d : odata) (keys : list APIKeyParam) (data : AiRouteDataExport) : Prop := {
  rx_bindings : forall k key, k ∈ keys -> ak_Key k = Some key -> default [] (xd_Bindings data !! key) = map fst (key_tables d k);
  rx_only : forall key, Some key ∉ map ak_Key keys -> xd_Bindings data !! key = None;
  rx_tables : forall n t, xd_RouteRules data !! n = Some t <-> exists k, k ∈ keys /\ (n, t) ∈ key_tables d k
}.
Lemma puts_some l n t : puts l ∅ !! n = Some t -> (n, t) ∈ l.
Proof.
  induction l as [|x l IH] using rev_ind; [cbn; by rewrite lookup_empty|]. rewrite puts_app. cbn. rewrite elem_of_app.
  intros [[<- <-]|[_ H]]%lookup_insert_Some; [right; destruct x; by left|left; by apply IH].
Qed.
Lemma added_exact g keys data : forest (tree_of (ow_data (gw_owners g))) -> NoDup (map ak_Key keys) ->
  all_added g keys (mkRouteData ∅ ∅) data -> routes_exact (ow_data (gw_owners g)) keys data.
Proof.
  intros Hf Hd Ha. split.
  - intros k key Hk Ek. rewrite (added_bindings g keys _ data k key Ha Hd Hk Ek (lookup_empty _)). by destruct (map fst _).
  - intros key Hno. by rewrite (added_others g keys _ data key Ha Hno).
  - intros n t. rewrite (added_tables g keys _ data Ha). cbn [xd_RouteRules]. split.
    + intros (k & Hk & Hx)%puts_some%elem_of_flat_map. by exists k.
    + intros (k & Hk & Hx). apply puts_found; [|apply elem_of_flat_map; by exists k]. intros [n1 t1] [n2 t2] H1%tables_origin H2%tables_origin [= ->]; [|done..].
      f_equal. by eapply origin_unique.
Qed.

(** C17: In every tree that requests have built, with fuel for its rows and
    whichever calls fail, the export of route tables ends; it changes nothing;
    and what it makes is exact: every key is bound to the enabled tables of its
    owners, from the key up to the root of its entities and to the global one
    last, no other key is bound to any, and the tables are those of the rows. *)
Theorem bound_tables_exact os fuel g : forest (tree_of (ow_data (gw_owners g))) ->
  (length (od_entities (ow_data (gw_owners g))) < fuel)%nat ->
  let res := exec os (AIRouteGenerator fuel) g in
  res.2 = g /\ ((exists e, res.1 = Some (Err e)) \/
    exists data keys, res.1 = Some (Ok data) /\ list_keys (ow_sec (gw_owners g)) anyKey (od_keys (ow_data (gw_owners g))) = Ok keys /\
      (NoDup (map ak_Key keys) -> routes_exact (ow_data (gw_owners g)) keys data)).
Proof.
  intros Hf Hfuel. cbv zeta. destruct (generator_found g Hf fuel Hfuel os g eq_refl) as [E [He|(data & Hr & keys & Ek & Ha)]]; (split; [done|]); [by left|right].
  exists data, keys. split; [done|]. split; [done|]. intros Hd. by apply added_exact.
Qed.
End Routes.

(** * A sample

    The company has a limited plan and a list of models, the team below it a
    list of its own; one key belongs to the team, the other to nobody. *)

#[local] Instance unordered : RowOrder := {| ordered := fun _ l => l |}.
Definition models_change (models : list string) (plan : option SharedPlan) (rules : option RouteRulesParam) : EntityParam :=
  mkEntity None None None None None None models [] None None None None None plan None None rules.
Definition sample_plan : SharedPlan := mkSharedPlan (Some false) None (Some (float_of_Z 500)) (Some "total_token") None None.
Definition one_rule (cluster : string) : RouteRulesParam :=
  mkRouteRules None (Some true) [Some (mkRouteRule (Some "all") (Some "default_t()") [Some (mkTarget (Some cluster) None (Some 100%Z))] [])].
Definition team_history (models : list string) : list request := [
  UpdateEntityReq false "acme" (models_change ["gpt-4"; "gpt-5"] (Some sample_plan) (Some (one_rule "shared")));
  UpdateEntityReq false "ops" (models_change models None (Some (one_rule "team")));
  CreateKeyReq (key_request "k1" "sk-1" (Some "ops") None); CreateKeyReq (key_request "k2" "sk-2" None None)
].
Definition team_world (models : list string) : gworld := mkGWorld (sample_history (team_history models) two_world) [] [].
Lemma team_world_forest models : forest (tree_of (ow_data (gw_owners (team_world models)))).
Proof.
  apply (forest_history milli of_milli (fun _ => true) (float_of_Z 1000000) (fun l => l) sample_em sample_am sample_qpm true);
    [done|repeat constructor|apply two_world_forest|done].
Qed.
Definition sample_redis_value (q : spec_float) (unit : option string) : Z := float_to_int q.
Definition sample_tokens (g : gworld) : result ModAPIKeyRuleConf :=
  (exec [] (APIKeyRuleGenerator sample_redis_value "AI_inner" sample_sec wired) g).1.
Definition the_tokens (g : gworld) : ModAPIKeyRuleConf := match sample_tokens g with Ok c => c | Err _ => mkRuleConf ∅ ∅ ∅ end.
Definition the_keys (g : gworld) : list APIKeyParam :=
  match list_keys (ow_sec (gw_owners g)) anyKey (od_keys (ow_data (gw_owners g))) with Ok l => l | Err _ => [] end.
Definition shown (g : gworld) : list (list (option string * bool * list string * list ApikeyTag)) :=
  map (fun x => map (fun t => (to_Models t.2, to_Enabled t.2, to_QuotaPlans t.2, to_Tags t.2)) (map_to_list x.2)) (map_to_list (mc_Tokens (the_tokens g))).
Definition no_key : APIKeyParam := key_request "" "" None None.
Definition first_key (g : gworld) : APIKeyParam := List.hd no_key (the_keys g).
Lemma the_tokens_ok g : is_ok (sample_tokens g) = true ->
  (exec [] (APIKeyRuleGenerator sample_redis_value "AI_inner" sample_sec wired) g).1 = Ok (the_tokens g).
Proof. unfold the_tokens. change (exec [] _ g).1 with (sample_tokens g). by destruct (sample_tokens g). Qed.
Lemma the_keys_ok g : is_ok (list_keys (ow_sec (gw_owners g)) anyKey (od_keys (ow_data (gw_owners g)))) = true ->
  list_keys (ow_sec (gw_owners g)) anyKey (od_keys (ow_data (gw_owners g))) = Ok (the_keys g).
Proof. unfold the_keys. by destruct (list_keys _ _ _). Qed.
Lemma first_key_in g : the_keys g <> [] -> first_key g ∈ the_keys g.
Proof. unfold first_key. destruct (the_keys g); [done|]. left. Qed.
Lemma agree_on x ls : Forall (fun l => x ∈ l) ls -> ~ conflicting ls.
Proof. intros H [_ Hc]. apply (Hc x). intros l Hl. rewrite list.Forall_forall in H. by apply H. Qed.
Lemma agree_on_none ls : ls <> [] -> intersectAllowModels ls = [] -> conflicting ls.
Proof. intros Hne H%intersect_empty. by destruct H. Qed.

Definition agreeing : gworld := team_world ["gpt-5"; "o3"].
Definition disagreeing : gworld := team_world ["o3"].

Example exported_tokens_exact_witness :
  shown agreeing = [[(Some "gpt-5", true, ["acme"], [mkTag "team" "ops" 2; mkTag "company" "acme" 1]); (Some "", true, [], [])]] /\
  exists product key outer t, ak_ProductName (first_key agreeing) = Some product /\ ak_Key (first_key agreeing) = Some key /\
    reads_back sample_sec key outer /\ (ExportCryptoEnabled sample_sec = true -> to_Key t = "") /\
    mc_Tokens (the_tokens agreeing) !! product ≫= lookup outer = Some t /\
    token_exact (ow_data (gw_owners agreeing)) (plans_of (gw_owners agreeing)) (first_key agreeing) t /\
    models_exact (ow_data (gw_owners agreeing)) (first_key agreeing) t.
Proof.
  split; [vm_compute; reflexivity|].
  apply (exported_tokens_exact sample_redis_value "AI_inner" sample_sec [] agreeing (the_tokens agreeing) (the_keys agreeing)).
  - apply sample_sec_reloaded.
  - apply team_world_forest.
  - apply the_tokens_ok. vm_compute. reflexivity.
  - apply the_keys_ok. vm_compute. reflexivity.
  - apply (bool_decide_unpack _). vm_compute. exact I.
  - apply first_key_in. vm_compute. discriminate.
  - apply (agree_on "gpt-5"). apply (bool_decide_unpack _). vm_compute. exact I.
Defined.

(** The lists [o3] of the team and [gpt-4, gpt-5] of the company: the token may
    use every model. *)
Example conflicting_entities_unrestrict_witness :
  shown disagreeing = [[(Some "", true, ["acme"], [mkTag "team" "ops" 2; mkTag "company" "acme" 1]); (Some "", true, [], [])]] /\
  exists product key outer t, ak_ProductName (first_key disagreeing) = Some product /\ ak_Key (first_key disagreeing) = Some key /\
    reads_back sample_sec key outer /\ mc_Tokens (the_tokens disagreeing) !! product ≫= lookup outer = Some t /\
    to_Models t = Some (Join (key_models (first_key disagreeing)) ",") /\ to_Enabled t = default false (ak_Enable (first_key disagreeing)).
Proof.
  split; [vm_compute; reflexivity|].
  apply (conflicting_entities_unrestrict sample_redis_value "AI_inner" sample_sec [] disagreeing (the_tokens disagreeing) (the_keys disagreeing)).
  - apply sample_sec_reloaded.
  - apply team_world_forest.
  - apply the_tokens_ok. vm_compute. reflexivity.
  - apply the_keys_ok. vm_compute. reflexivity.
  - apply (bool_decide_unpack _). vm_compute. exact I.
  - apply first_key_in. vm_compute. discriminate.
  - apply agree_on_none; vm_compute; [discriminate|reflexivity].
Defined.

Example token_plans_resolve_witness :
  map (map qx_Id) (map snd (map_to_list (mc_QuotaPlans (the_tokens agreeing)))) = [["acme"]] /\
  exists product key outer t, ak_ProductName (first_key agreeing) = Some product /\ ak_Key (first_key agreeing) = Some key /\
    reads_back sample_sec key outer /\ mc_Tokens (the_tokens agreeing) !! product ≫= lookup outer = Some t /\
    forall id, id ∈ to_QuotaPlans t -> exists q, q ∈ default [] (mc_QuotaPlans (the_tokens agreeing) !! product) /\ qx_Id q = id.
Proof.
  split; [vm_compute; reflexivity|].
  apply (token_plans_resolve sample_redis_value "AI_inner" sample_sec [] agreeing (the_tokens agreeing) (the_keys agreeing)).
  - apply sample_sec_reloaded.
  - apply team_world_forest.
  - apply the_tokens_ok. vm_compute. reflexivity.
  - apply the_keys_ok. vm_compute. reflexivity.
  - apply (bool_decide_unpack _). vm_compute. exact I.
  - apply first_key_in. vm_compute. discriminate.
Defined.

Example bound_tables_exact_witness :
  let res := exec [] (AIRouteGenerator 3) agreeing in
  (exists data, res.1 = Some (Ok data) /\ xd_Bindings data !! "sk-1" = Some ["entity_ops"; "entity_acme"] /\ xd_Bindings data !! "sk-2" = None) /\
  res.2 = agreeing /\ ((exists e, res.1 = Some (Err e)) \/
    exists data keys, res.1 = Some (Ok data) /\
      list_keys (ow_sec (gw_owners agreeing)) anyKey (od_keys (ow_data (gw_owners agreeing))) = Ok keys /\
      (NoDup (map ak_Key keys) -> routes_exact (ow_data (gw_owners agreeing)) keys data)).
Proof.
  cbv zeta. split; [eexists; split; [vm_compute; reflexivity|split; vm_compute; reflexivity]|].
  apply (bound_tables_exact [] 3 agreeing); [apply team_world_forest|vm_compute; lia].
Defined.

(** ** Keys in plaintext

    With the encryption of exports on, the token of a key is under an envelope;
    its plan and its tables still carry the key. *)
Definition planned_key : APIKeyParam :=
  mkAPIKey (Some "k3") (Some true) None None None None (Some "sk-3") None (Some false) None [] [] None None None None (Some "AI_product")
    None None (Some sample_plan) None None (Some (one_rule "own")) None.
Definition planned_world : gworld := mkGWorld (sample_history [CreateKeyReq planned_key] two_world) [] [].
Example plan_names_show_the_key : ExportCryptoEnabled sample_sec = true /\
  map (fun x => map (fun t => (bool_decide (t.1 = "sk-3"), to_Key t.2)) (map_to_list x.2)) (map_to_list (mc_Tokens (the_tokens planned_world))) = [[(false, "")]] /\
  map (fun x => map (fun q => (qx_Id q, qx_RedisKey q)) x.2) (map_to_list (mc_QuotaPlans (the_tokens planned_world))) = [[("sk-3", "QUOTA_sk-3")]].
Proof. vm_compute. auto. Qed.
Example bindings_show_the_key : exists data, (exec [] (AIRouteGenerator 3) planned_world).1 = Some (Ok data) /\
  xd_Bindings data = {["sk-3" := ["apikey_sk-3"]]}.
Proof. eexists. split; vm_compute; reflexivity. Qed.

(** Lists with a star: an entity that blocks every model blocks none in the
    export, and a key with the star and a name may use that name only. *)
Definition starred_key : APIKeyParam :=
  mkAPIKey (Some "k4") (Some true) None None None None (Some "sk-4") None (Some true) None ["*"; "gpt-4"] [] (Some "ops") None None None (Some "AI_product")
    None None None None None None None.
Definition starred_world : gworld := mkGWorld (sample_history
  [UpdateEntityReq false "ops" (mkEntity None None None None None None [] ["*"; "o3"] None None None None None None None None None);
   CreateKeyReq starred_key] two_world) [] [].
Example stars_are_dropped :
  map te_BlockModels (List.filter (fun r => bool_decide (te_EntityID r = "ops")) (od_entities (ow_data (gw_owners starred_world)))) = [["*"; "o3"]] /\
  map ak_Models (the_keys starred_world) = [["*"; "gpt-4"]] /\
  map (fun x => map (fun t => (to_Models t.2, to_BlockModels t.2, to_Enabled t.2)) (map_to_list x.2)) (map_to_list (mc_Tokens (the_tokens starred_world))) =
    [[(Some "gpt-4", None, true)]].
Proof. vm_compute. auto. Qed.

(** A header filter of an AI route with a mode and no value. *)
Example half_filter_panics :
  buildHeaderConditions "" [Some (mkHeaderFilter (Some "x-tier") None (Some MatchModeExact) (Some false))] = None.
Proof. reflexivity. Qed.
Example route_condition :
  BuildAIRouteCond (Some (mkBasicInfo (Some "api.example.org") (Some (mkPathFilter (Some MatchModePrefix) (Some true) (Some "/v1"))) (Some "POST") []
    (Some (mkModelFilter (Some "model") (Some "gpt-4") (Some false) None)))) =
  Some ("req_host_in(" +:+ quoted "api.example.org" +:+ ")&&req_path_prefix_in(" +:+ quoted "/v1" +:+ ", true)&&req_method_in(" +:+ quoted "POST" +:+
    ")&&req_body_json_in(" +:+ quoted "gpt-4" +:+ ", " +:+ quoted "model" +:+ ", false)").
Proof. reflexivity. Qed.
